(* ===== verification/_CoqProject ===== *)
-Q . S2P
Prelude.v
Bitmap.v
Pmm.v
Pipe.v
SharedPage.v
PhysMem.v
PageTable.v
Teardown.v
Riscv64.v
AddrSpace.v
UserMem.v
UserSpaces.v
UserExit.v
UserOps.v
UserMap.v
UserFile.v
UserFork.v
UserSys.v
Elf.v
ElfLoad.v
ElfReloc.v
Exec.v
ExecStack.v
ExecProc.v
X86.v
Aarch64.v
Gstage.v
VmPool.v
MmioBus.v
Vplic.v
Vlapic.v
Vgic3.v
Vgic3Sync.v
Vgic3Cpu.v
Ring.v
Console.v
Uart16550.v
Vpl011.v
Consoles.v
VmmDev.v
HextMmio.v
HextSbi.v
FdPool.v
KList.v
Sched.v
Completion.v
Futex.v
Path.v
Fdt.v
FdtPatch.v
