(* ===== verification/Prelude.v ===== *)
(** * Avatar OS: a verification library for the kernel core

    Avatar OS (src/) is a small kernel for riscv64, x86_64 and aarch64 with a
    hypervisor.  This library translates parts of its C sources into executable
    definitions, with the names of the sources, and proves what these parts promise.

    ** Parts, files and correspondence

    Memory.
    - Prelude.v: machine integers, bounded loops, arrays as functions, runs of step
      relations, and the tactics and hints all files share.
    - Bitmap.v: lib/bitmap.c, include/bitmap.h.  The bit array and its searches.
    - Pmm.v: kernel/mm/pmm.c.  The page allocator over the bitmap; [pmm_t] is the
      record of the code, and an operation whose assertion fails returns [None].
    - SharedPage.v: kernel/mm/shared_page.c.  Reference counts of shared pages in a
      hash table with chains and a free list through array indices.
    - PhysMem.v: memory as words by physical address; kernel/mm/kmalloc.c.
    - PageTable.v, Teardown.v: the tree walk and the recursive destruction the three
      architectures share, against the class [pt_format] with its laws [pt_laws].
    - Riscv64.v, X86.v, Aarch64.v: kernel/mm/<arch>/vmm.c with the entry formats as
      instances of the class.
    - Gstage.v: kernel/mm/riscv64/gstage.c, the second translation stage of a guest.
    - AddrSpace.v: what the page-table code promises to the memory calls, as the classes
      [vm_ops] and [vm_laws], with Sv39 (Riscv64.v) as an instance.
    - UserMem.v: kernel/syscall/mm/brk.c and mmap.c, kernel/mm/vm_user.c, the copy of an
      address space in clone_handler (kernel/syscall/core/proc_lifecycle.c) and the end of
      a task slot (kernel/task/task.c), over the interface.
    - UserSpaces.v, UserExit.v, UserOps.v, UserMap.v, UserFile.v, UserFork.v: the accounts
      of all frames and what each call does to them; UserSys.v: what processes see of it,
      and the calls of all processes.
    - Elf.v: kernel/loader/elf_image.c and include/elf.h, over a file in memory; ElfLoad.v,
      ElfReloc.v: runs of pages, segments and relocations in the memory of a process.
    - Exec.v: kernel/task/exec.c up to the fields of the new process; ExecStack.v: its
      initial stack; ExecProc.v: what the program finds, and all processes together.

    Files.
    - Pipe.v: kernel/syscall/fs/pipe.c.  The ring, the blocking ends, wake-ups.
    - FdPool.v: kernel/syscall/fs/fd_pool.c, the descriptor calls of file_ops.c, the
      references of kernel/fs/vfs/vfs.c and the wait queues of kernel/syscall/io/epoll.c.
    - Path.v: kernel/syscall/fs/path.c.  Path resolution and strings of the user.

    Tasks.
    - KList.v: include/list.h, the intrusive linked lists, on a memory of nodes.
    - Sched.v: kernel/task/sched.c and the task slots of kernel/task/task.c, for any
      number of CPUs.
    - Completion.v: kernel/task/completion.c on the tasks of Sched.v.
    - Futex.v: kernel/syscall/core/futex.c on the tasks of Sched.v.

    Hypervisor.
    - VmPool.v: kernel/vmm/vm.c, the pool of machines and the concurrent life cycle of
      loader (loader/guest_loader.c) and virtual CPUs (vcpu.c).
    - MmioBus.v: kernel/vmm/mmio_bus.c.  The class [mmio_device] is what a device
      promises to the bus.
    - Vplic.v: kernel/vmm/vdev/vplic.c, the interrupt controller of a riscv64 machine.
    - Vgic3.v, Vgic3Sync.v, Vgic3Cpu.v: kernel/vmm/vdev/vgicv3/, the interrupt controller of
      an aarch64 machine: registers, list registers, their exchange at entry, exit and
      change of the virtual CPU, and runs of several machines on one CPU.
    - Vlapic.v: kernel/vmm/vdev/vlapic.c, the local interrupt controller of x86_64.
    - Fdt.v, FdtPatch.v: kernel/vmm/loader/fdt.c, the patches of a guest's device tree.
    - Ring.v, Console.v: the byte rings of the consoles; the classes [console_ops] and
      [console_laws] for the choice of driver in include/vmm/vmm_console.h, and
      kernel/vmm/vmm_console.c proved against them.
    - Uart16550.v, Vpl011.v: kernel/vmm/vdev/console/, the instances.
    - Consoles.v: runs of both drivers.
    - VmmDev.v: kernel/fs/pseudofs/vmm_dev.c, the control device, against any console.
    - HextMmio.v, HextSbi.v: kernel/vmm/riscv64/hext_run.c, the exits of a riscv64
      guest: instruction fetch and decoding, emulated devices, SBI calls, faults.

    State is passed explicitly: a C function is a Rocq function from the state it reads
    to its result and the state it leaves.  A region under a lock is one step, a function
    that releases its lock is several; where the order of steps matters a step relation
    interleaves them in any order ([pmm_step], [pipe_sys_step], [sstep], [cstep], [fstep],
    [vstep], [con_step], [ustep], [pstep], the runs of Vgic3Cpu.v and Vlapic.v and the protocol of
    HextSbi.v), and theorems are about every run
    of it.

    ** What the theorems show

    - The page allocator hands out no page twice, gives back what was taken, counts right,
      and its faster search finds what the plain one finds.  The table of shared pages is
      a finite map from page to count.  [kmalloc] and [kfree] are inverse.
    - Mapping, unmapping and destroying an address space do to the flat map of
      translations what they should, on each architecture, and destruction releases each
      page once.
    - A loaded program finds the bytes of its file, relocated, and behind its stack pointer
      its arguments, environment and auxiliary vector; loading and starting it changes
      nothing for other processes, also when it fails.  This is for files whose headers,
      segments and tables lie inside of them, and arguments that fit the stack.
    - brk, mmap, munmap, fork and the end of a process do to what every process loads from
      its memory what they should, on every branch, errors included.  In every run of all
      processes and threads private pages have one mapping, shared pages as many as their
      count says, tables are mapped nowhere, no page and no address space is lost.  These
      theorems are for user addresses below the top of the tables, for regular files and
      anonymous memory, and for address spaces that are reaped after their last thread.
    - The second stage of a guest says what the hart walks; a fault maps a fresh page and
      changes nothing else; the destruction returns every page.
    - A pipe is a byte queue under every interleaving, and no sleeper is forgotten with
      one task at each end.  Descriptor slots and file references are owned exactly.
    - On any number of CPUs the run queues stay well formed, no task is current on two of
      them, a ready task is queued or about to be, and it runs after a bounded number of
      schedules; this is for runs in which a dead task is reaped after its CPU has left it.  A completion
      wakes everybody who waits for it.  A futex wakes the right sleepers.
    - A path resolves to what its words mean, and the result is canonical; the copy of a
      user string reads mapped pages only, up to the one exception the theorem states.
    - A machine of the pool is freed once and only when its virtual CPUs are gone, for
      the orders in which the code does it.
    - Every exit of a riscv64 guest, with any register content, is handled with all
      invariants kept; the decoder accepts exactly the loads and stores of the
      architecture; device accesses do what the instruction says; software interrupts
      are neither lost nor invented.
    - The PLIC delivers the best source and no claim is repeated; the GICv3 loses and
      invents no interrupt and delivers every one for which there is a list register; the
      local APIC accounts for every vector and its timer catches up.  A patched device tree
      differs in exactly the properties and nodes it should.  Both
      consoles deliver in order, per machine; the control device serves and stops the
      machine of its session only.
    - Some theorems state where the code falls short of its comments or of
      the architecture, each with the run that shows it: two readers of a pipe,
      F_DUPFD's leak, close-on-exec bits that survive close, epoll instances shared by
      dup, a page at the edge of the aarch64 kernel window, a machine stopped before its
      first virtual CPU ran, colliding machine numbers, a detach that leaks to the next
      session, signed device loads, a slot that is reused while its task still exits, a
      futex word that changes before the lock is taken, long paths that are cut, registers
      of the GICv3 read and written at wrong places, a fork in a thread, page tables freed
      under running threads, arguments the children of a program lose, frames of a segment
      that are freed and stay mapped, ELF files that are read behind their end, that overflow
      their segments or stop the kernel, and the edges of brk, munmap and the search for room in mmap.

    ** Bounds and fuel

    Loops whose recursion is not structural run with fuel and return [None] without it;
    [loop_total] turns a measure into enough fuel.  The fuel is in each case the bound of
    the source's own loop: the bits of the bitmap, the entries of a table (512) and the
    levels of a walk (3 or 4), the entries of the table of shared pages, the machines of
    the pool, the tasks of the pool (64) for the walks over task lists, the bytes of a path
    buffer (127), the capacity of a ring, the pages of a range of user addresses, the pages
    below the user stack for the search for room ([GAP_FUEL]), the words of a device tree, the
    headers, dynamic entries and relocations an ELF file counts.
    Theorems about such functions state that a result
    is returned.  Integers are [Z] with the wrap-around of their C type written out.

    ** Not modelled

    - The world switch, control registers, floating point state, timers and run loops of
      the hypervisor, and its aarch64 and x86_64 back ends: they are sequences of
      privileged instructions.  The GICv2, IOAPIC, PIC, PIT and NPU devices.
    - TLB and cache maintenance: translations are what the tables say.
    - Context switch, signals, wait, mutexes, terminals, the reading of programs and guests
      from files: they act on task structures and files this library has no model of yet.
    - The x86_64 page loops of brk and mmap, which repeat the others, the page of the signal
      trampoline exec maps and fork copies there, and laws of AddrSpace.v for X86.v and Aarch64.v.
    - Third-party code (lwIP, lwext4) and what only calls it (sockets, most file calls);
      drivers, boot code, user programs and tests.
    - Weak memory: each step is atomic.  Where the code takes no lock (pipes) the model
      is that of one CPU without preemption inside a system call, as said in the file. *)

From stdpp Require Export base tactics option list list_numbers numbers gmap sets.
From stdpp Require Import options.
From Stdlib Require Import Lia.

#[global] Open Scope Z_scope.

(** ** Machine integers

    C integers are kept as [Z]; an unsigned [w]-bit type is the interval
    [0, 2^w) and every arithmetic result of that type is written with the
    wrap-around of its width. *)

Declare Scope c_scope.
Delimit Scope c_scope with C.

Abbreviation U8_MOD := 256.
Abbreviation U16_MOD := 65536.
Abbreviation U32_MOD := 4294967296.
Abbreviation U64_MOD := 18446744073709551616.

Definition u8 (x : Z) : Z := x mod U8_MOD.
Definition u16 (x : Z) : Z := x mod U16_MOD.
Definition u32 (x : Z) : Z := x mod U32_MOD.
Definition u64 (x : Z) : Z := x mod U64_MOD.

(** Two's complement reading of the low 16 or 32 bits: a cast to [int16_t] or [int]. *)
Definition i16 (x : Z) : Z := (x + 32768) mod U16_MOD - 32768.
Definition i32 (x : Z) : Z := (x + 2147483648) mod U32_MOD - 2147483648.

(** [(size_t)-1], the failure value of the bitmap searches. *)
Abbreviation SIZE_ERR := 18446744073709551615.

Infix "+u" := (fun x y => u64 (x + y)) (at level 50, left associativity) : c_scope.
Infix "-u" := (fun x y => u64 (x - y)) (at level 50, left associativity) : c_scope.
Infix "*u" := (fun x y => u64 (x * y)) (at level 40, left associativity) : c_scope.

Create HintDb cint.
Create Rewrite HintDb cint.

Lemma u8_id x : 0 <= x < U8_MOD -> u8 x = x.
Proof. apply Z.mod_small. Qed.
Lemma u16_id x : 0 <= x < U16_MOD -> u16 x = x.
Proof. apply Z.mod_small. Qed.
Lemma u32_id x : 0 <= x < U32_MOD -> u32 x = x.
Proof. apply Z.mod_small. Qed.
Lemma u64_id x : 0 <= x < U64_MOD -> u64 x = x.
Proof. apply Z.mod_small. Qed.
Lemma i16_id x : -32768 <= x < 32768 -> i16 x = x.
Proof. unfold i16. intros. rewrite Z.mod_small; lia. Qed.
Lemma i32_id x : -2147483648 <= x < 2147483648 -> i32 x = x.
Proof. unfold i32. intros. rewrite Z.mod_small; lia. Qed.

Lemma u8_range x : 0 <= u8 x < U8_MOD.
Proof. apply Z.mod_pos_bound. lia. Qed.
Lemma u32_range x : 0 <= u32 x < U32_MOD.
Proof. apply Z.mod_pos_bound. lia. Qed.
Lemma u64_range x : 0 <= u64 x < U64_MOD.
Proof. apply Z.mod_pos_bound. lia. Qed.

#[export] Hint Rewrite u8_id u16_id u32_id u64_id i16_id i32_id using lia : cint.
#[export] Hint Resolve u8_range u32_range u64_range : cint.

(** [wrap] removes the wrap-arounds that the context shows not to happen. *)
Ltac wrap := repeat (autorewrite with cint in * ).

(** ** Bit masks and alignment (include/types.h) *)

Lemma land_lnot_ones x k : 0 <= k -> Z.land x (Z.lnot (Z.ones k)) = x / 2 ^ k * 2 ^ k.
Proof.
  intros. rewrite <-Z.ldiff_land, Z.ldiff_ones_r by done.
  by rewrite Z.shiftl_mul_pow2, Z.shiftr_div_pow2.
Qed.

Lemma land_pred_pow2 x k : 0 <= k -> Z.land x (2 ^ k - 1) = x mod 2 ^ k.
Proof. intros. rewrite <-Z.land_ones by done. by rewrite Z.ones_equiv, Z.sub_1_r. Qed.

(** The macros [ALIGN_UP], [ALIGN_DOWN] on 64-bit operands. *)
Definition ALIGN_UP (x a : Z) : Z := u64 (Z.land (u64 (x + (a - 1))) (Z.lnot (a - 1))).
Definition ALIGN_DOWN (x a : Z) : Z := u64 (Z.land x (Z.lnot (a - 1))).

Abbreviation PAGE_SIZE := 4096.
Abbreviation PAGE_SHIFT := 12.

Lemma land_page_mask x : Z.land x (PAGE_SIZE - 1) = x mod PAGE_SIZE.
Proof. apply (land_pred_pow2 x 12). lia. Qed.

Lemma land_lnot_page x : Z.land x (Z.lnot (PAGE_SIZE - 1)) = x / PAGE_SIZE * PAGE_SIZE.
Proof. apply (land_lnot_ones x 12). lia. Qed.

Lemma ALIGN_DOWN_page x : 0 <= x < U64_MOD -> ALIGN_DOWN x PAGE_SIZE = x / PAGE_SIZE * PAGE_SIZE.
Proof.
  intros. unfold ALIGN_DOWN. rewrite land_lnot_page, u64_id; [done|].
  pose proof (Z.mul_div_le x PAGE_SIZE). pose proof (Z.div_pos x PAGE_SIZE). lia.
Qed.

Lemma ALIGN_UP_page x :
  0 <= x <= U64_MOD - PAGE_SIZE ->
  ALIGN_UP x PAGE_SIZE = (x + (PAGE_SIZE - 1)) / PAGE_SIZE * PAGE_SIZE.
Proof.
  intros. unfold ALIGN_UP. rewrite (u64_id (x + _)) by lia.
  rewrite land_lnot_page, u64_id; [done|].
  pose proof (Z.mul_div_le (x + (PAGE_SIZE - 1)) PAGE_SIZE).
  pose proof (Z.div_pos (x + (PAGE_SIZE - 1)) PAGE_SIZE). lia.
Qed.

(** ** The lowest set bit of a word *)

Lemma testbit_split b r i k :
  0 <= i -> 0 <= r < 2 ^ i -> 0 <= k ->
  Z.testbit (b * 2 ^ i + r) k = if k <? i then Z.testbit r k else Z.testbit b (k - i).
Proof.
  intros Hi Hr Hk. destruct (Z.ltb_spec k i).
  - rewrite <-(Z.mod_pow2_bits_low _ i) by lia. f_equal.
    rewrite Z.add_comm, Z_mod_plus_full. by apply Z.mod_small.
  - replace k with (k - i + i) at 1 by lia. rewrite <-Z.div_pow2_bits by lia. f_equal.
    rewrite Z.div_add_l by lia. rewrite (Z.div_small r) by lia. lia.
Qed.

(** [lowbit u i]: bit [i] is the lowest set bit of [u]. *)
Definition lowbit (u i : Z) : Prop := 0 <= i /\ exists a, u = (2 * a + 1) * 2 ^ i.

Lemma lowbit_exists u : 0 < u -> exists i, lowbit u i.
Proof.
  intros Hu. destruct u as [|p|p]; [lia| |lia]. clear Hu. induction p as [p IH|p IH|].
  - exists 0. split; [done|]. exists (Z.pos p). lia.
  - destruct IH as (i & Hi & a & E). exists (i + 1). split; [lia|]. exists a.
    rewrite Z.pow_add_r by lia. lia.
  - exists 0. split; [done|]. by exists 0.
Qed.

Lemma lowbit_testbit u i k :
  lowbit u i -> 0 <= k <= i -> Z.testbit u k = (k =? i).
Proof.
  intros (Hi & a & ->) Hk. replace ((2 * a + 1) * 2 ^ i) with ((2 * a + 1) * 2 ^ i + 0) by lia.
  rewrite testbit_split by lia. destruct (Z.ltb_spec k i), (Z.eqb_spec k i); try lia.
  - apply Z.bits_0.
  - subst k. rewrite Z.sub_diag. by rewrite Z.testbit_odd_0.
Qed.

Lemma lowbit_clear u i k :
  lowbit u i -> 0 <= k -> Z.testbit (Z.land u (u - 1)) k = Z.testbit u k && negb (k =? i).
Proof.
  intros Hl Hk. rewrite Z.land_spec. destruct (Z.leb_spec k i).
  - rewrite (lowbit_testbit u i k Hl) by lia. destruct (Z.eqb_spec k i) as [->|]; [|done]. cbn.
    destruct Hl as (Hi & a & ->). replace ((2 * a + 1) * 2 ^ i - 1) with ((2 * a) * 2 ^ i + (2 ^ i - 1)) by lia.
    rewrite testbit_split by lia. destruct (Z.ltb_spec i i); [lia|]. by rewrite Z.sub_diag, Z.testbit_even_0.
  - destruct (Z.eqb_spec k i); [lia|]. cbn. rewrite andb_true_r. destruct Hl as (Hi & a & ->).
    replace ((2 * a + 1) * 2 ^ i - 1) with ((2 * a) * 2 ^ i + (2 ^ i - 1)) by lia.
    replace ((2 * a + 1) * 2 ^ i) with ((2 * a + 1) * 2 ^ i + 0) by lia.
    rewrite !testbit_split by lia. destruct (Z.ltb_spec k i); [lia|].
    replace (k - i) with (Z.succ (k - i - 1)) by lia.
    rewrite Z.testbit_odd_succ, Z.testbit_even_succ by lia. apply andb_diag.
Qed.

Lemma lowbit_isolate u i : lowbit u i -> Z.land u (- u) = 2 ^ i.
Proof.
  intros Hl. pose proof Hl as (Hi & a & E). apply Z.bits_inj'. intros k Hk.
  rewrite Z.land_spec, Z.pow2_bits_eqb by done. destruct (Z.leb_spec k i).
  - rewrite (lowbit_testbit u i k Hl) by lia.
    rewrite (lowbit_testbit (- u) i k) by (first [lia|split; [done|exists (- a - 1); lia]]).
    rewrite andb_diag. apply Z.eqb_sym.
  - destruct (Z.eqb_spec i k); [lia|]. subst u.
    replace (- ((2 * a + 1) * 2 ^ i)) with ((2 * (- a - 1) + 1) * 2 ^ i + 0) by lia.
    replace ((2 * a + 1) * 2 ^ i) with ((2 * a + 1) * 2 ^ i + 0) by lia.
    rewrite !testbit_split by lia. destruct (Z.ltb_spec k i); [lia|].
    replace (k - i) with (Z.succ (k - i - 1)) by lia. rewrite !Z.testbit_odd_succ by lia.
    replace (- a - 1) with (Z.lnot a) by (unfold Z.lnot; lia). rewrite Z.lnot_spec by lia. apply andb_negb_r.
Qed.

Lemma land_u64_r u x : 0 <= u < U64_MOD -> Z.land u (u64 x) = Z.land u x.
Proof.
  intros Hu. unfold u64. change U64_MOD with (2 ^ 64). rewrite <-Z.land_ones by lia.
  rewrite (Z.land_comm x), Z.land_assoc, Z.land_ones by lia. by rewrite (Z.mod_small u) by lia.
Qed.

(** A mask of an [n]-bit word fits in [n] bits. *)
Lemma land_range n u x : 0 <= n -> 0 <= u < 2 ^ n -> 0 <= Z.land u x < 2 ^ n.
Proof.
  intros Hn Hu. assert (Z.land u x = Z.land u x mod 2 ^ n) as ->; [|apply Z.mod_pos_bound; lia].
  rewrite <-Z.land_ones by lia. rewrite <-Z.land_assoc, (Z.land_comm x), Z.land_assoc.
  rewrite Z.land_ones by lia. by rewrite (Z.mod_small u) by lia.
Qed.
Lemma lor_range n a b : 0 <= n -> 0 <= a < 2 ^ n -> 0 <= b < 2 ^ n -> 0 <= Z.lor a b < 2 ^ n.
Proof.
  intros Hn Ha Hb. split; [apply Z.lor_nonneg; lia|]. destruct (decide (Z.lor a b = 0)) as [->|Hne]; [lia|].
  destruct (decide (n = 0)) as [->|]; [destruct Hne; replace a with 0 by lia; by replace b with 0 by lia|].
  apply Z.log2_lt_pow2; [pose proof (Z.lor_nonneg a b); lia|]. rewrite Z.log2_lor by lia.
  apply Z.max_lub_lt; [destruct (decide (a = 0)) as [->|]|destruct (decide (b = 0)) as [->|]]; try (apply Z.log2_lt_pow2; lia); cbn; lia.
Qed.

(** [u & (~u + 1)] and [u & (u - 1)] of a 64-bit word. *)
Lemma lowbit_isolate_u64 u i :
  0 <= u < U64_MOD -> lowbit u i -> Z.land u (u64 (u64 (Z.lnot u) + 1)) = 2 ^ i.
Proof.
  intros Hu Hl. rewrite land_u64_r by done. rewrite <-(lowbit_isolate u i Hl).
  rewrite <-(land_u64_r u (- u)), <-(land_u64_r u (u64 (Z.lnot u) + 1)) by done. f_equal.
  unfold u64. rewrite Zplus_mod_idemp_l. f_equal. unfold Z.lnot. lia.
Qed.

Lemma lowbit_lt u i n : 0 < u < 2 ^ n -> 0 <= n -> lowbit u i -> 0 <= i < n.
Proof.
  intros Hu Hn (Hi & a & E). split; [done|]. apply (Z.pow_lt_mono_r_iff 2); [lia..|].
  pose proof (Z.pow_pos_nonneg 2 i ltac:(lia) Hi). assert (0 <= a) by nia. nia.
Qed.

(** The number of the only set bit of [low]: [while (low > 1) { low >>= 1; i++; }]. *)
Fixpoint bit_index (fuel : nat) (low i : Z) : Z :=
  match fuel with
  | O => i
  | S fuel' => if 1 <? low then bit_index fuel' (Z.shiftr low 1) (i + 1) else i
  end.

Lemma bit_index_pow2 fuel i j : 0 <= i <= Z.of_nat fuel -> bit_index fuel (2 ^ i) j = j + i.
Proof.
  revert i j. induction fuel as [|fuel IH]; intros i j Hi; cbn [bit_index]; [lia|].
  destruct (decide (i = 0)) as [->|]; [change (1 <? 2 ^ 0) with false; cbn iota; lia|].
  pose proof (Z.pow_gt_1 2 i ltac:(lia)). destruct (Z.ltb_spec 1 (2 ^ i)); [|lia].
  rewrite Z.shiftr_div_pow2 by lia. replace (2 ^ i) with (2 ^ (i - 1) * 2 ^ 1) by (rewrite <-Z.pow_add_r by lia; f_equal; lia).
  rewrite Z.div_mul by lia. rewrite IH by lia. lia.
Qed.

(** ** C arrays

    An array is a list; a read out of range is the default [d] and a write out
    of range does nothing, and the theorems show that no access is out of range. *)

Definition aget {A} (d : A) (l : list A) (i : Z) : A := default d (l !! Z.to_nat i).
Definition aset {A} (l : list A) (i : Z) (x : A) : list A := <[Z.to_nat i := x]> l.

Lemma length_aset {A} (l : list A) i x : length (aset l i x) = length l.
Proof. apply length_insert. Qed.

Lemma aget_aset_eq {A} (d : A) l i x :
  0 <= i < Z.of_nat (length l) -> aget d (aset l i x) i = x.
Proof. intros. unfold aget, aset. rewrite list_lookup_insert_eq by lia. done. Qed.

Lemma aget_aset_ne {A} (d : A) l i j x :
  0 <= i -> 0 <= j -> i <> j -> aget d (aset l i x) j = aget d l j.
Proof. intros. unfold aget, aset. rewrite list_lookup_insert_ne by lia. done. Qed.

Lemma aget_lookup {A} (d : A) l i :
  0 <= i < Z.of_nat (length l) -> l !! Z.to_nat i = Some (aget d l i).
Proof.
  intros. unfold aget. destruct (l !! Z.to_nat i) eqn:E; [done|].
  apply lookup_ge_None in E. lia.
Qed.

#[export] Hint Rewrite @length_aset : cint.

(** ** Sums over lists *)

Definition lsum {A} (f : A -> Z) (l : list A) : Z := foldr (fun x acc => f x + acc) 0 l.
#[global] Arguments lsum {_} _ _ : simpl never.

Section lsum.
Context {A : Type} (f : A -> Z).

Lemma lsum_cons x l : lsum f (x :: l) = f x + lsum f l.
Proof using Type. done. Qed.

Lemma lsum_app l1 l2 : lsum f (l1 ++ l2) = lsum f l1 + lsum f l2.
Proof using Type. induction l1 as [|x l1 IH]; [done|]. cbn [app]. rewrite !lsum_cons, IH. lia. Qed.

Lemma lsum_insert l i x y : l !! i = Some x -> lsum f (<[i := y]> l) = lsum f l - f x + f y.
Proof using Type.
  revert i. induction l as [|z l IH]; intros [|i] Hi; cbn [list_insert insert]; try done.
  - injection Hi as ->. change (lsum f (y :: l) = lsum f (x :: l) - f x + f y). rewrite !lsum_cons. lia.
  - change (lsum f (z :: <[i := y]> l) = lsum f (z :: l) - f x + f y). rewrite !lsum_cons, IH by done. lia.
Qed.

Lemma lsum_nonneg l : (forall x, 0 <= f x) -> 0 <= lsum f l.
Proof using Type. intros Hf. induction l as [|x l IH]; [done|]. rewrite lsum_cons. pose proof (Hf x). lia. Qed.

Lemma lsum_le_length l : (forall x, f x <= 1) -> lsum f l <= Z.of_nat (length l).
Proof using Type. intros Hf. induction l as [|x l IH]; [done|]. rewrite lsum_cons. pose proof (Hf x). cbn [length]. lia. Qed.

Lemma lsum_lookup l i x : (forall x, 0 <= f x) -> l !! i = Some x -> f x <= lsum f l.
Proof using Type.
  intros Hf Hi. apply list_elem_of_lookup_2, list_elem_of_split in Hi as (l1 & l2 & ->).
  rewrite lsum_app, lsum_cons. pose proof (lsum_nonneg l1 Hf). pose proof (lsum_nonneg l2 Hf). lia.
Qed.

Lemma lsum_lookup2 l i j x y :
  (forall x, 0 <= f x) -> l !! i = Some x -> l !! j = Some y -> i <> j -> f x + f y <= lsum f l.
Proof using Type.
  intros Hf. revert i j. induction l as [|z l IH]; intros [|i] [|j] Hi Hj Hne; try done; cbn in Hi, Hj; rewrite lsum_cons.
  - injection Hi as ->. pose proof (lsum_lookup l j y Hf Hj). lia.
  - injection Hj as ->. pose proof (lsum_lookup l i x Hf Hi). lia.
  - pose proof (IH i j Hi Hj ltac:(congruence)). pose proof (Hf z). lia.
Qed.

Lemma lsum_pos l : (forall x, 0 <= f x) -> 0 < lsum f l -> exists i x, l !! i = Some x /\ 0 < f x.
Proof using Type.
  intros Hf. induction l as [|z l IH]; [done|]. rewrite lsum_cons. intros Hp. destruct (decide (0 < f z)).
  - by exists 0%nat, z.
  - destruct IH as (i & x & ? & ?); [pose proof (Hf z); lia|]. by exists (S i), x.
Qed.

Lemma lsum_zero l : Forall (fun x => f x = 0) l -> lsum f l = 0.
Proof using Type. induction 1 as [|x l Hx _ IH]; [done|]. rewrite lsum_cons. lia. Qed.
End lsum.

Lemma lsum_aset {A} (f : A -> Z) (d : A) l i y :
  0 <= i < Z.of_nat (length l) -> lsum f (aset l i y) = lsum f l - f (aget d l i) + f y.
Proof. intros. apply lsum_insert. by apply aget_lookup. Qed.

(** ** Loops

    [loop fuel body s] runs [body] until it leaves the loop with [inr]; [None]
    is only the exhaustion of [fuel].  [loop_total] is the total-correctness rule:
    an invariant and a measure below the fuel give a result. *)

Fixpoint loop {S R : Type} (fuel : nat) (body : S -> S + R) (s : S) : option R :=
  match fuel with
  | O => None
  | S fuel' =>
      match body s with
      | inl s' => loop fuel' body s'
      | inr r => Some r
      end
  end.

Lemma loop_total {S R : Type} (I : S -> Prop) (Q : R -> Prop) (m : S -> Z) (body : S -> S + R) :
  (forall s, I s -> match body s with
                    | inl s' => I s' /\ 0 <= m s' < m s
                    | inr r => Q r
                    end) ->
  forall fuel s, I s -> 0 <= m s < Z.of_nat fuel -> exists r, loop fuel body s = Some r /\ Q r.
Proof.
  intros Hbody fuel. induction fuel as [|fuel IH]; intros s HI Hm; [lia|].
  cbn [loop]. specialize (Hbody s HI). destruct (body s) as [s'|r].
  - destruct Hbody as [HI' Hm']. apply IH; [done|lia].
  - eauto.
Qed.

(** A [for] loop with no early exit: [body] folded over [lo, lo+1, .., hi-1]. *)
Definition for_range {S : Type} (lo hi : Z) (body : S -> Z -> S) (s : S) : S :=
  foldl body s (seqZ lo (hi - lo)).

Lemma for_range_nil {S : Type} lo hi (body : S -> Z -> S) s : hi <= lo -> for_range lo hi body s = s.
Proof. intros. unfold for_range. rewrite seqZ_nil by lia. done. Qed.

Lemma for_range_step {S : Type} lo hi (body : S -> Z -> S) s :
  lo <= hi -> for_range lo (hi + 1) body s = body (for_range lo hi body s) hi.
Proof.
  intros. unfold for_range. replace (hi + 1 - lo) with (hi - lo + 1) by lia.
  rewrite seqZ_app by lia. rewrite foldl_app. cbn.
  replace (lo + (hi - lo)) with hi by lia. done.
Qed.

Lemma for_range_ind {S : Type} (P : Z -> S -> Prop) lo hi (body : S -> Z -> S) s :
  lo <= hi -> P lo s ->
  (forall i x, lo <= i < hi -> P i x -> P (i + 1) (body x i)) ->
  P hi (for_range lo hi body s).
Proof.
  intros Hle H0 Hstep.
  cut (forall n : nat, lo + Z.of_nat n <= hi -> P (lo + Z.of_nat n) (for_range lo (lo + Z.of_nat n) body s)).
  { intros Hn. specialize (Hn (Z.to_nat (hi - lo))).
    replace (lo + Z.of_nat (Z.to_nat (hi - lo))) with hi in Hn by lia. apply Hn. lia. }
  induction n as [|n IH]; intros Hn.
  - rewrite for_range_nil by lia. replace (lo + Z.of_nat 0) with lo by lia. done.
  - replace (lo + Z.of_nat (Datatypes.S n)) with (lo + Z.of_nat n + 1) by lia.
    rewrite for_range_step by lia. apply Hstep; [lia|]. apply IH. lia.
Qed.

(** ** Functions updated at one point *)

Definition upd {A} (f : Z -> A) (i : Z) (x : A) : Z -> A := fun j => if j =? i then x else f j.

Lemma upd_eq {A} (f : Z -> A) i x : upd f i x i = x.
Proof. unfold upd. by rewrite Z.eqb_refl. Qed.
Lemma upd_ne {A} (f : Z -> A) i j x : j <> i -> upd f i x j = f j.
Proof. intros. unfold upd. by rewrite (proj2 (Z.eqb_neq _ _)). Qed.

(** ** Reachability of a step relation *)

Section star.
Context {S : Type} (step : S -> S -> Prop).

Inductive star : S -> S -> Prop :=
  | star_refl s : star s s
  | star_step s1 s2 s3 : step s1 s2 -> star s2 s3 -> star s1 s3.

Lemma star_trans s1 s2 s3 : star s1 s2 -> star s2 s3 -> star s1 s3.
Proof. induction 1; eauto using star. Qed.

Lemma star_one s1 s2 : step s1 s2 -> star s1 s2.
Proof. eauto using star. Qed.

(** An inductive invariant holds of every reachable state. *)
Lemma star_invariant (I : S -> Prop) :
  (forall s s', I s -> step s s' -> I s') -> forall s s', I s -> star s s' -> I s'.
Proof. intros Hstep s s' HI Hs. induction Hs; eauto. Qed.
End star.

(** ** Case analysis on the boolean tests of the code *)

Ltac zbool :=
  repeat match goal with
  | H : (_ <? _) = true |- _ => apply Z.ltb_lt in H
  | H : (_ <? _) = false |- _ => apply Z.ltb_ge in H
  | H : (_ <=? _) = true |- _ => apply Z.leb_le in H
  | H : (_ <=? _) = false |- _ => apply Z.leb_gt in H
  | H : (_ =? _) = true |- _ => apply Z.eqb_eq in H
  | H : (_ =? _) = false |- _ => apply Z.eqb_neq in H
  | H : negb _ = true |- _ => apply negb_true_iff in H
  | H : negb _ = false |- _ => apply negb_false_iff in H
  | H : (_ && _) = true |- _ => apply andb_prop in H; destruct H
  | H : (_ || _) = false |- _ => apply orb_false_elim in H; destruct H
  end.

(** Splits the innermost [if] on a boolean in the goal and turns its test into a proposition. *)
Ltac case_if :=
  match goal with
  | |- context [if ?b then _ else _] =>
      lazymatch b with
      | context [if _ then _ else _] => fail
      | _ => let E := fresh "E" in destruct b eqn:E; zbool
      end
  end.

Ltac case_if_in H :=
  match type of H with
  | context [if ?b then _ else _] =>
      lazymatch b with
      | context [if _ then _ else _] => fail
      | _ => let E := fresh "E" in destruct b eqn:E; zbool
      end
  end.
