(* ===== verification/Bitmap.v ===== *)
(** * The page bitmap: include/bitmap.h and lib/bitmap.c

    [bitmap_t] is the byte buffer and its size in bits.  The operations are the
    inline functions of include/bitmap.h and the three searches of lib/bitmap.c.
    The theorems give each operation its meaning on the bits it shows through
    [bitmap_test], and the searches their specification [first_run]: the least
    index at or after [start] where [count] free bits begin. *)

From stdpp Require Import options.
From Stdlib Require Import Lia.
From S2P Require Import Prelude.

(** ** Data and operations *)

Record bitmap_t := mk_bitmap { bm_bits : list Z; bm_size : Z }.

(** [bitmap_init]: the buffer's first [(size + 7) / 8] bytes are cleared. *)
Definition bitmap_init (buffer : list Z) (size : Z) : bitmap_t :=
  let bytes := u64 (size + 7) / 8 in
  mk_bitmap (for_range 0 bytes (fun b i => aset b i 0) buffer) size.

Definition bitmap_set (bm : bitmap_t) (index : Z) : bitmap_t :=
  if index <? bm_size bm then
    mk_bitmap
      (aset (bm_bits bm) (index / 8)
         (u8 (Z.lor (aget 0 (bm_bits bm) (index / 8)) (Z.shiftl 1 (index mod 8)))))
      (bm_size bm)
  else bm.

Definition bitmap_set_range (bm : bitmap_t) (start count : Z) : bitmap_t :=
  if bm_size bm <? u64 (start + count) then bm
  else for_range 0 count (fun b i => bitmap_set b (u64 (start + i))) bm.

Definition bitmap_clear (bm : bitmap_t) (index : Z) : bitmap_t :=
  if index <? bm_size bm then
    mk_bitmap
      (aset (bm_bits bm) (index / 8)
         (u8 (Z.land (aget 0 (bm_bits bm) (index / 8)) (Z.lnot (Z.shiftl 1 (index mod 8))))))
      (bm_size bm)
  else bm.

Definition bitmap_clear_range (bm : bitmap_t) (start count : Z) : bitmap_t :=
  if bm_size bm <? u64 (start + count) then bm
  else for_range 0 count (fun b i => bitmap_clear b (u64 (start + i))) bm.

Definition bitmap_test (bm : bitmap_t) (index : Z) : bool :=
  if index <? bm_size bm then
    negb (Z.land (aget 0 (bm_bits bm) (index / 8)) (Z.shiftl 1 (index mod 8)) =? 0)
  else false.

(** [for (i = 0; i < size; i++) if (!test(i)) return i; return -1] *)
Definition bitmap_find_first_free (bm : bitmap_t) : option Z :=
  loop (S (Z.to_nat (bm_size bm)))
    (fun i =>
       if i <? bm_size bm then
         if negb (bitmap_test bm i) then inr i else inl (u64 (i + 1))
       else inr SIZE_ERR)
    0.

(** The inner loop of both searches: the first [j] in [j, j + n) whose bit
    [i + j] is set, or [j + n] when all are free. *)
Fixpoint scan_free (bm : bitmap_t) (i j : Z) (n : nat) : Z :=
  match n with
  | O => j
  | S n' => if bitmap_test bm (u64 (i + j)) then j else scan_free bm i (j + 1) n'
  end.

(** The search from [start]: a set bit at [i + j] moves [i] past it. *)
Definition bitmap_find_contiguous_free_from (bm : bitmap_t) (count start : Z) : option Z :=
  if (count =? 0) || (bm_size bm <? count) then Some SIZE_ERR
  else if bm_size bm <? u64 (start + count) then Some SIZE_ERR
  else
    loop (S (Z.to_nat (bm_size bm)))
      (fun i =>
         if u64 (i + count) <=? bm_size bm then
           let j := scan_free bm i 0 (Z.to_nat count) in
           if j =? count then inr i else inl (u64 (u64 (i + j) + 1))
         else inr SIZE_ERR)
      start.

(** The search from 0, which moves [i] one bit at a time. *)
Definition bitmap_find_contiguous_free (bm : bitmap_t) (count : Z) : option Z :=
  if (count =? 0) || (bm_size bm <? count) then Some SIZE_ERR
  else
    loop (S (Z.to_nat (bm_size bm)))
      (fun i =>
         if u64 (i + count) <=? bm_size bm then
           let j := scan_free bm i 0 (Z.to_nat count) in
           if j =? count then inr i else inl (u64 (i + 1))
         else inr SIZE_ERR)
      0.

Create HintDb bitmap.
Create Rewrite HintDb bitmap.

(** ** Well-formedness and the meaning of a bit *)

Record bitmap_wf (bm : bitmap_t) : Prop := {
  bwf_size : 0 <= bm_size bm < 2 ^ 62;
  bwf_bytes : bm_size bm <= 8 * Z.of_nat (length (bm_bits bm));
}.

Definition free_run (bm : bitmap_t) (i count : Z) : Prop :=
  forall k, i <= k < i + count -> bitmap_test bm k = false.

(** The specification of the searches. *)
Definition first_run (bm : bitmap_t) (start count r : Z) : Prop :=
  start <= r /\ r + count <= bm_size bm /\ free_run bm r count /\
  forall i, start <= i < r -> ~ free_run bm i count.

Definition no_run (bm : bitmap_t) (start count : Z) : Prop :=
  forall i, start <= i -> i + count <= bm_size bm -> ~ free_run bm i count.

Lemma land_shiftl1_eqb b k : 0 <= k -> (Z.land b (Z.shiftl 1 k) =? 0) = negb (Z.testbit b k).
Proof.
  intros Hk. rewrite Z.shiftl_1_l.
  destruct (Z.testbit b k) eqn:E; cbn.
  - apply Z.eqb_neq. intros H.
    assert (Z.testbit (Z.land b (2 ^ k)) k = false) as H' by (rewrite H; apply Z.testbit_0_l).
    rewrite Z.land_spec, E, Z.pow2_bits_true in H' by lia. done.
  - apply Z.eqb_eq. apply Z.bits_inj'. intros n Hn. rewrite Z.land_spec, Z.testbit_0_l.
    destruct (decide (n = k)) as [->|Hne]; [by rewrite E|].
    rewrite Z.pow2_bits_false by lia. apply andb_false_r.
Qed.

Lemma bitmap_test_testbit bm i :
  bitmap_test bm i =
  (i <? bm_size bm) && Z.testbit (aget 0 (bm_bits bm) (i / 8)) (i mod 8).
Proof.
  unfold bitmap_test. case_if; [|done]. cbn.
  rewrite land_shiftl1_eqb by (apply Z.mod_pos_bound; lia). apply negb_involutive.
Qed.

Lemma testbit_u8 x k : 0 <= k < 8 -> Z.testbit (u8 x) k = Z.testbit x k.
Proof. intros. unfold u8. apply (Z.mod_pow2_bits_low x 8). lia. Qed.

Lemma bitmap_set_size bm i : bm_size (bitmap_set bm i) = bm_size bm.
Proof. unfold bitmap_set. by case_if. Qed.
Lemma bitmap_clear_size bm i : bm_size (bitmap_clear bm i) = bm_size bm.
Proof. unfold bitmap_clear. by case_if. Qed.

Lemma bitmap_set_wf bm i : bitmap_wf bm -> bitmap_wf (bitmap_set bm i).
Proof. intros [? ?]. unfold bitmap_set. case_if; split; cbn; rewrite ?length_aset; done. Qed.
Lemma bitmap_clear_wf bm i : bitmap_wf bm -> bitmap_wf (bitmap_clear bm i).
Proof. intros [? ?]. unfold bitmap_clear. case_if; split; cbn; rewrite ?length_aset; done. Qed.

#[export] Hint Resolve bitmap_set_wf bitmap_clear_wf : bitmap.
#[export] Hint Rewrite bitmap_set_size bitmap_clear_size : bitmap.

(** Writing one byte whose bit [i mod 8] is [b] and whose other bits are kept. *)
Lemma bitmap_test_write bm i v b k :
  bitmap_wf bm -> 0 <= i < bm_size bm -> 0 <= k ->
  (forall n, 0 <= n < 8 ->
     Z.testbit v n = if n =? i mod 8 then b else Z.testbit (aget 0 (bm_bits bm) (i / 8)) n) ->
  bitmap_test (mk_bitmap (aset (bm_bits bm) (i / 8) v) (bm_size bm)) k =
  if k =? i then b else bitmap_test bm k.
Proof.
  intros [? ?] Hi Hk Hv. rewrite !bitmap_test_testbit. cbn.
  assert (i / 8 < Z.of_nat (length (bm_bits bm))) by (apply Z.div_lt_upper_bound; lia).
  pose proof (Z.div_pos i 8). pose proof (Z.div_pos k 8).
  pose proof (Z.mod_pos_bound k 8). pose proof (Z_div_mod_eq_full k 8).
  pose proof (Z_div_mod_eq_full i 8).
  destruct (decide (k / 8 = i / 8)) as [E|E].
  - rewrite E, aget_aset_eq by lia. rewrite Hv by lia.
    destruct (Z.eqb_spec (k mod 8) (i mod 8)), (Z.eqb_spec k i); try lia.
    + subst. destruct (Z.ltb_spec i (bm_size bm)); [done|lia].
    + done.
  - rewrite aget_aset_ne by lia. destruct (Z.eqb_spec k i); [subst; lia|done].
Qed.

Lemma bitmap_test_set bm i k :
  bitmap_wf bm -> 0 <= i < bm_size bm -> 0 <= k ->
  bitmap_test (bitmap_set bm i) k = (k =? i) || bitmap_test bm k.
Proof.
  intros Hwf Hi Hk. unfold bitmap_set.
  destruct (Z.ltb_spec i (bm_size bm)); [|lia].
  rewrite (bitmap_test_write _ _ _ true); [by case_if|done..|].
  intros n Hn. rewrite testbit_u8, Z.lor_spec, Z.shiftl_1_l by lia.
  rewrite Z.pow2_bits_eqb by (apply Z.mod_pos_bound; lia). rewrite (Z.eqb_sym (i mod 8)).
  case_if; [apply orb_true_r | apply orb_false_r].
Qed.

Lemma bitmap_test_clear bm i k :
  bitmap_wf bm -> 0 <= i < bm_size bm -> 0 <= k ->
  bitmap_test (bitmap_clear bm i) k = negb (k =? i) && bitmap_test bm k.
Proof.
  intros Hwf Hi Hk. unfold bitmap_clear.
  destruct (Z.ltb_spec i (bm_size bm)); [|lia].
  rewrite (bitmap_test_write _ _ _ false); [by case_if|done..|].
  intros n Hn. rewrite testbit_u8, Z.land_spec, Z.lnot_spec, Z.shiftl_1_l by lia.
  rewrite Z.pow2_bits_eqb by (apply Z.mod_pos_bound; lia). rewrite (Z.eqb_sym (i mod 8)).
  case_if; [apply andb_false_r | apply andb_true_r].
Qed.

Lemma bitmap_test_ge bm k : bm_size bm <= k -> bitmap_test bm k = false.
Proof. intros. unfold bitmap_test. by destruct (Z.ltb_spec k (bm_size bm)); [lia|]. Qed.

(** ** Ranges *)

Lemma bitmap_init_bytes buffer n :
  0 <= n -> length (for_range 0 n (fun b i => aset b i 0) buffer) = length buffer /\
  forall i, 0 <= i < n -> aget 0 (for_range 0 n (fun b i => aset b i 0) buffer) i = 0.
Proof.
  intros Hn.
  apply (for_range_ind (fun m b => length b = length buffer /\ forall i, 0 <= i < m -> aget 0 b i = 0)); [done| |].
  - split; [done|lia].
  - intros i b Hi [Hlen Hb]. rewrite length_aset. split; [done|]. intros j Hj.
    destruct (decide (j = i)) as [->|Hne].
    + destruct (decide (i < Z.of_nat (length b))).
      * apply aget_aset_eq. lia.
      * unfold aget, aset. rewrite lookup_ge_None_2; [done|]. rewrite length_insert. lia.
    + rewrite aget_aset_ne by lia. apply Hb. lia.
Qed.

Lemma bitmap_init_wf buffer size :
  0 <= size < 2 ^ 62 -> (size + 7) / 8 <= Z.of_nat (length buffer) ->
  bitmap_wf (bitmap_init buffer size).
Proof.
  intros Hs Hb. unfold bitmap_init. rewrite u64_id by lia.
  pose proof (Z.div_pos (size + 7) 8).
  destruct (bitmap_init_bytes buffer ((size + 7) / 8)) as [Hlen _]; [lia|].
  split; cbn [bm_size bm_bits]; [done|]. rewrite Hlen.
  pose proof (Z_div_mod_eq_full (size + 7) 8). pose proof (Z.mod_pos_bound (size + 7) 8). lia.
Qed.

Lemma bitmap_init_test buffer size k :
  0 <= size < 2 ^ 62 -> 0 <= k -> bitmap_test (bitmap_init buffer size) k = false.
Proof.
  intros Hs Hk. rewrite bitmap_test_testbit. unfold bitmap_init. cbn [bm_size bm_bits].
  destruct (Z.ltb_spec k size); [|done]. rewrite u64_id by lia. cbn.
  destruct (bitmap_init_bytes buffer ((size + 7) / 8)) as [_ Hz]; [apply Z.div_pos; lia|].
  rewrite Hz; [apply Z.testbit_0_l|]. split; [apply Z.div_pos; lia|].
  apply Z.div_lt_upper_bound; [lia|].
  pose proof (Z_div_mod_eq_full (size + 7) 8). pose proof (Z.mod_pos_bound (size + 7) 8). lia.
Qed.

(** [bitmap_set_range] and [bitmap_clear_range] inside the bitmap: exactly the
    bits of the range change. *)
Definition in_range (start count k : Z) : bool := (start <=? k) && (k <? start + count).

Lemma in_range_spec start count k : in_range start count k = true <-> start <= k < start + count.
Proof. unfold in_range. rewrite andb_true_iff, Z.leb_le, Z.ltb_lt. done. Qed.

Lemma in_range_nil start k : in_range start 0 k = false.
Proof. unfold in_range. destruct (Z.leb_spec start k), (Z.ltb_spec k (start + 0)); [lia|done..]. Qed.

Lemma in_range_succ start n k :
  0 <= n -> in_range start (n + 1) k = (k =? start + n) || in_range start n k.
Proof.
  intros. unfold in_range.
  destruct (Z.leb_spec start k), (Z.ltb_spec k (start + (n + 1))), (Z.ltb_spec k (start + n)),
    (Z.eqb_spec k (start + n)); cbn; try done; lia.
Qed.

Section ranges.
Context (bm : bitmap_t) (start count : Z).
Hypothesis Hwf : bitmap_wf bm.
Hypothesis Hrange : 0 <= start /\ 0 <= count /\ start + count <= bm_size bm.

Lemma bitmap_set_loop_spec :
  let bm' := for_range 0 count (fun b i => bitmap_set b (u64 (start + i))) bm in
  bitmap_wf bm' /\ bm_size bm' = bm_size bm /\
  forall k, 0 <= k -> bitmap_test bm' k = in_range start count k || bitmap_test bm k.
Proof using All.
  pose proof (bwf_size _ Hwf).
  apply (for_range_ind (fun n b => bitmap_wf b /\ bm_size b = bm_size bm /\
           forall k, 0 <= k -> bitmap_test b k = in_range start n k || bitmap_test bm k)); [lia| |].
  - split_and!; [done..|]. intros. by rewrite in_range_nil.
  - intros i b Hi (Hb & Hsz & Ht). rewrite u64_id by lia. rewrite bitmap_set_size.
    split_and!; [by apply bitmap_set_wf|done|]. intros k Hk.
    rewrite bitmap_test_set by (done || lia). rewrite Ht, in_range_succ by lia. by rewrite orb_assoc.
Qed.

Lemma bitmap_set_range_spec :
  let bm' := bitmap_set_range bm start count in
  bitmap_wf bm' /\ bm_size bm' = bm_size bm /\
  forall k, 0 <= k -> bitmap_test bm' k = in_range start count k || bitmap_test bm k.
Proof using All.
  pose proof (bwf_size _ Hwf). unfold bitmap_set_range. rewrite u64_id by lia.
  destruct (Z.ltb_spec (bm_size bm) (start + count)); [lia|]. apply bitmap_set_loop_spec.
Qed.

Lemma bitmap_clear_loop_spec :
  let bm' := for_range 0 count (fun b i => bitmap_clear b (u64 (start + i))) bm in
  bitmap_wf bm' /\ bm_size bm' = bm_size bm /\
  forall k, 0 <= k -> bitmap_test bm' k = negb (in_range start count k) && bitmap_test bm k.
Proof using All.
  pose proof (bwf_size _ Hwf).
  apply (for_range_ind (fun n b => bitmap_wf b /\ bm_size b = bm_size bm /\
           forall k, 0 <= k -> bitmap_test b k = negb (in_range start n k) && bitmap_test bm k)); [lia| |].
  - split_and!; [done..|]. intros. by rewrite in_range_nil.
  - intros i b Hi (Hb & Hsz & Ht). rewrite u64_id by lia. rewrite bitmap_clear_size.
    split_and!; [by apply bitmap_clear_wf|done|]. intros k Hk.
    rewrite bitmap_test_clear by (done || lia). rewrite Ht, in_range_succ by lia.
    by rewrite negb_orb, andb_assoc.
Qed.

Lemma bitmap_clear_range_spec :
  let bm' := bitmap_clear_range bm start count in
  bitmap_wf bm' /\ bm_size bm' = bm_size bm /\
  forall k, 0 <= k -> bitmap_test bm' k = negb (in_range start count k) && bitmap_test bm k.
Proof using All.
  pose proof (bwf_size _ Hwf). unfold bitmap_clear_range. rewrite u64_id by lia.
  destruct (Z.ltb_spec (bm_size bm) (start + count)); [lia|]. apply bitmap_clear_loop_spec.
Qed.
End ranges.

(** ** The searches *)

Lemma scan_free_spec bm i n j :
  0 <= i -> 0 <= j -> i + j + Z.of_nat n < U64_MOD ->
  let r := scan_free bm i j n in
  j <= r <= j + Z.of_nat n /\
  (forall k, j <= k < r -> bitmap_test bm (i + k) = false) /\
  (r < j + Z.of_nat n -> bitmap_test bm (i + r) = true).
Proof.
  revert j. induction n as [|n IH]; intros j Hi Hj Hb; cbn [scan_free].
  - split_and!; intros; lia.
  - rewrite u64_id by lia. destruct (bitmap_test bm (i + j)) eqn:E.
    + split_and!; [lia..| by intros; lia|done].
    + destruct (IH (j + 1)) as (? & Hf & Ht); [lia..|]. split_and!; [lia..| |].
      * intros k Hk. destruct (decide (k = j)) as [->|]; [done|]. apply Hf. lia.
      * intros. apply Ht. lia.
Qed.

Section search.
Context (bm : bitmap_t) (count : Z).
Hypothesis Hwf : bitmap_wf bm.

(** What one round of the outer loop learns. *)
Lemma scan_round i :
  0 <= i -> 0 < count <= bm_size bm -> i + count <= bm_size bm ->
  let j := scan_free bm i 0 (Z.to_nat count) in
  (j = count -> free_run bm i count) /\
  (j <> count -> 0 <= j < count /\ forall k, i <= k <= i + j -> ~ free_run bm k count).
Proof using Hwf.
  intros Hi Hc Hic j. pose proof (bwf_size _ Hwf).
  destruct (scan_free_spec bm i (Z.to_nat count) 0) as (Hr & Hfree & Htaken); [lia..|].
  fold j in Hr, Hfree, Htaken. split.
  - intros Hj k Hk. replace k with (i + (k - i)) by lia. apply Hfree. lia.
  - intros Hj. split; [lia|]. intros k Hk Hrun.
    specialize (Htaken ltac:(lia)). rewrite Hrun in Htaken; [done|lia].
Qed.

Lemma bitmap_find_contiguous_free_from_spec start :
  0 <= start <= bm_size bm -> 0 <= count < U32_MOD -> count <> 0 ->
  exists r, bitmap_find_contiguous_free_from bm count start = Some r /\
    ((r = SIZE_ERR /\ no_run bm start count) \/ first_run bm start count r).
Proof using Hwf.
  intros Hs Hc Hnz. pose proof (bwf_size _ Hwf). unfold bitmap_find_contiguous_free_from.
  destruct (Z.eqb_spec count 0); [done|]. cbn [orb].
  destruct (Z.ltb_spec (bm_size bm) count).
  { eexists. split; [done|]. left. split; [done|]. intros i ??. lia. }
  rewrite u64_id by lia. destruct (Z.ltb_spec (bm_size bm) (start + count)).
  { eexists. split; [done|]. left. split; [done|]. intros i ??. lia. }
  apply (loop_total (fun i => start <= i <= bm_size bm /\ forall k, start <= k < i -> ~ free_run bm k count)
           _ (fun i => bm_size bm - i)); [|split; intros; lia|lia].
  intros i [Hi Hno]. rewrite u64_id by lia.
  destruct (Z.leb_spec (i + count) (bm_size bm)).
  - destruct (scan_round i) as [Hyes Hnot]; [lia..|]. cbn zeta in *.
    destruct (Z.eqb_spec (scan_free bm i 0 (Z.to_nat count)) count) as [E|E].
    + right. split_and!; [lia|lia|auto..].
    + destruct (Hnot E) as [Hj Hskip]. rewrite (u64_id (i + _)), u64_id by lia.
      split; [|lia]. split; [lia|]. intros k Hk.
      destruct (decide (k < i)); [apply Hno; lia|apply Hskip; lia].
  - left. split; [done|]. intros k Hk1 Hk2. apply Hno. lia.
Qed.

Lemma bitmap_find_contiguous_free_spec :
  0 <= count < U32_MOD -> count <> 0 ->
  exists r, bitmap_find_contiguous_free bm count = Some r /\
    ((r = SIZE_ERR /\ no_run bm 0 count) \/ first_run bm 0 count r).
Proof using Hwf.
  intros Hc Hnz. pose proof (bwf_size _ Hwf). unfold bitmap_find_contiguous_free.
  destruct (Z.eqb_spec count 0); [done|]. cbn [orb].
  destruct (Z.ltb_spec (bm_size bm) count).
  { eexists. split; [done|]. left. split; [done|]. intros i ??. lia. }
  apply (loop_total (fun i => 0 <= i <= bm_size bm /\ forall k, 0 <= k < i -> ~ free_run bm k count)
           _ (fun i => bm_size bm - i)); [|split; intros; lia|lia].
  intros i [Hi Hno]. rewrite u64_id by lia.
  destruct (Z.leb_spec (i + count) (bm_size bm)).
  - destruct (scan_round i) as [Hyes Hnot]; [lia..|]. cbn zeta in *.
    destruct (Z.eqb_spec (scan_free bm i 0 (Z.to_nat count)) count) as [E|E].
    + right. split_and!; [lia|lia|auto..].
    + destruct (Hnot E) as [Hj Hskip]. rewrite u64_id by lia.
      split; [|lia]. split; [lia|]. intros k Hk.
      destruct (decide (k < i)); [apply Hno; lia|apply Hskip; lia].
  - left. split; [done|]. intros k Hk1 Hk2. apply Hno. lia.
Qed.
End search.

Lemma first_run_unique bm start count r1 r2 :
  first_run bm start count r1 -> first_run bm start count r2 -> r1 = r2.
Proof.
  intros (? & ? & Hr1 & Hmin1) (? & ? & Hr2 & Hmin2).
  destruct (Z.lt_trichotomy r1 r2) as [Hlt|[Heq|Hgt]]; [|done|].
  - destruct (Hmin2 r1); [lia|done].
  - destruct (Hmin1 r2); [lia|done].
Qed.

Lemma no_run_first_run bm start count r :
  no_run bm start count -> first_run bm start count r -> False.
Proof. intros Hno (? & ? & Hr & _). by apply (Hno r). Qed.

Lemma bitmap_find_first_free_spec bm :
  bitmap_wf bm ->
  exists r, bitmap_find_first_free bm = Some r /\
    ((r = SIZE_ERR /\ forall k, 0 <= k < bm_size bm -> bitmap_test bm k = true) \/
     (0 <= r < bm_size bm /\ bitmap_test bm r = false /\
      forall k, 0 <= k < r -> bitmap_test bm k = true)).
Proof.
  intros Hwf. pose proof (bwf_size _ Hwf). unfold bitmap_find_first_free.
  apply (loop_total (fun i => 0 <= i <= bm_size bm /\ forall k, 0 <= k < i -> bitmap_test bm k = true)
           _ (fun i => bm_size bm - i)); [|split; intros; lia|lia].
  intros i [Hi Hall]. destruct (Z.ltb_spec i (bm_size bm)).
  - destruct (bitmap_test bm i) eqn:E; cbn [negb].
    + rewrite u64_id by lia. split; [|lia]. split; [lia|]. intros k Hk.
      destruct (decide (k = i)) as [->|]; [done|]. apply Hall. lia.
    + right. split_and!; [lia..|done|auto].
  - left. split; [done|]. intros. apply Hall. lia.
Qed.

(** C2. The search that skips over set bits ([bitmap_find_contiguous_free_from]
    started at 0) returns what the one-bit-at-a-time search
    ([bitmap_find_contiguous_free]) returns, for every bitmap and count. *)
Theorem find_from_equals_find bm count :
  bitmap_wf bm -> 0 <= count < U32_MOD ->
  bitmap_find_contiguous_free_from bm count 0 = bitmap_find_contiguous_free bm count.
Proof.
  intros Hwf Hc. destruct (decide (count = 0)) as [->|Hnz]; [done|].
  pose proof (bwf_size _ Hwf).
  destruct (bitmap_find_contiguous_free_from_spec bm count Hwf 0) as (r1 & -> & H1); [lia..|].
  destruct (bitmap_find_contiguous_free_spec bm count Hwf) as (r2 & -> & H2); [lia..|].
  f_equal. destruct H1 as [[-> H1]|H1], H2 as [[-> H2]|H2]; try done.
  - by destruct (no_run_first_run bm 0 count r2).
  - by destruct (no_run_first_run bm 0 count r1).
  - by eapply first_run_unique.
Qed.

Lemma find_from_equals_find_witness :
  bitmap_find_contiguous_free_from (bitmap_set_range (bitmap_init [255; 255; 255] 20) 2 5) 4 0 =
  bitmap_find_contiguous_free (bitmap_set_range (bitmap_init [255; 255; 255] 20) 2 5) 4.
Proof.
  apply (find_from_equals_find (bitmap_set_range (bitmap_init [255; 255; 255] 20) 2 5) 4); [|lia].
  apply bitmap_set_range_spec; [apply bitmap_init_wf; [lia|done]|cbn; lia].
Defined.

(** ** Counting bits *)

Fixpoint count_bits (f : Z -> bool) (n : nat) : Z :=
  match n with
  | O => 0
  | S n' => count_bits f n' + Z.b2z (f (Z.of_nat n'))
  end.

Lemma count_bits_ext f g n :
  (forall k, 0 <= k < Z.of_nat n -> f k = g k) -> count_bits f n = count_bits g n.
Proof.
  induction n as [|n IH]; intros H; [done|]. cbn. rewrite IH, H by (intros; try apply H; lia). done.
Qed.

Lemma count_bits_none n : count_bits (fun _ => false) n = 0.
Proof. induction n as [|n IH]; cbn [count_bits Z.b2z]; [done|]. by rewrite IH. Qed.

Lemma count_bits_bound f n : 0 <= count_bits f n <= Z.of_nat n.
Proof. induction n as [|n IH]; cbn [count_bits]; [done|]. destruct (f _); cbn [Z.b2z]; lia. Qed.

(** Turning a run of [count] bits on adds [count]. *)
Lemma count_bits_range f g start count n :
  0 <= start -> 0 <= count -> start + count <= Z.of_nat n ->
  (forall k, 0 <= k < Z.of_nat n -> g k = in_range start count k || f k) ->
  (forall k, start <= k < start + count -> f k = false) ->
  count_bits g n = count_bits f n + count.
Proof.
  intros Hs Hc Hn Hg Hf.
  cut (forall m : nat, (m <= n)%nat -> count_bits g m = count_bits f m + Z.max 0 (Z.min count (Z.of_nat m - start))).
  { intros H. rewrite (H n) by lia. lia. }
  induction m as [|m IH]; intros Hm; cbn [count_bits]; [lia|].
  rewrite IH by lia. rewrite Hg by lia.
  destruct (in_range start count (Z.of_nat m)) eqn:E.
  - apply in_range_spec in E. rewrite Hf by lia. cbn [orb Z.b2z]. lia.
  - cbn [orb]. assert (~ (start <= Z.of_nat m < start + count)).
    { rewrite <-in_range_spec. congruence. } lia.
Qed.

(** The number of set bits of a bitmap. *)
Definition bitmap_weight (bm : bitmap_t) : Z :=
  count_bits (bitmap_test bm) (Z.to_nat (bm_size bm)).

Lemma bitmap_weight_bound bm : bitmap_wf bm -> 0 <= bitmap_weight bm <= bm_size bm.
Proof.
  intros [Hs _]. unfold bitmap_weight. pose proof (count_bits_bound (bitmap_test bm) (Z.to_nat (bm_size bm))). lia.
Qed.

Lemma bitmap_weight_all_free bm :
  (forall k, 0 <= k -> bitmap_test bm k = false) -> bitmap_weight bm = 0.
Proof.
  intros H. unfold bitmap_weight. rewrite (count_bits_ext _ (fun _ => false)) by (intros; apply H; lia).
  induction (Z.to_nat (bm_size bm)) as [|n IH]; cbn; lia.
Qed.

(** A change that turns the free run [start, start+count) on. *)
Lemma bitmap_weight_add bm bm' start count :
  bitmap_wf bm -> bm_size bm' = bm_size bm ->
  0 <= start -> 0 <= count -> start + count <= bm_size bm ->
  (forall k, 0 <= k -> bitmap_test bm' k = in_range start count k || bitmap_test bm k) ->
  free_run bm start count ->
  bitmap_weight bm' = bitmap_weight bm + count.
Proof.
  intros [Hs _] Hsz ??? Ht Hrun. unfold bitmap_weight. rewrite Hsz.
  apply (count_bits_range _ _ start); [lia..| |].
  - intros k Hk. apply Ht. lia.
  - exact Hrun.
Qed.

(** A change that turns the fully set run [start, start+count) off. *)
Lemma bitmap_weight_sub bm bm' start count :
  bitmap_wf bm -> bm_size bm' = bm_size bm ->
  0 <= start -> 0 <= count -> start + count <= bm_size bm ->
  (forall k, 0 <= k -> bitmap_test bm' k = negb (in_range start count k) && bitmap_test bm k) ->
  (forall k, start <= k < start + count -> bitmap_test bm k = true) ->
  bitmap_weight bm' = bitmap_weight bm - count.
Proof.
  intros [Hs _] Hsz ??? Ht Hrun. unfold bitmap_weight. rewrite Hsz.
  cut (count_bits (bitmap_test bm) (Z.to_nat (bm_size bm)) =
       count_bits (bitmap_test bm') (Z.to_nat (bm_size bm)) + count); [lia|].
  apply (count_bits_range _ _ start); [lia..| |].
  - intros k Hk. rewrite Ht by lia. destruct (in_range start count k) eqn:E; [|done].
    apply in_range_spec in E. cbn. by apply Hrun.
  - intros k Hk. rewrite Ht by lia.
    assert (in_range start count k = true) as -> by (by apply in_range_spec). done.
Qed.

(** Clearing the lowest set bit lowers the number of set bits by one. *)
Lemma count_lowbit u i :
  0 < u < U64_MOD -> lowbit u i ->
  count_bits (Z.testbit u) 64 = count_bits (Z.testbit (Z.land u (u - 1))) 64 + 1.
Proof.
  intros Hu Hl. pose proof (lowbit_lt u i 64 Hu ltac:(lia) Hl).
  apply (count_bits_range _ _ i); [lia..| |].
  - intros k Hk. rewrite (lowbit_clear u i k Hl) by lia. unfold in_range.
    destruct (Z.leb_spec i k), (Z.ltb_spec k (i + 1)), (Z.eqb_spec k i); try lia; cbn; rewrite ?andb_true_r, ?andb_false_r; try done.
    subst. rewrite (lowbit_testbit u i) by (done || lia). apply Z.eqb_refl.
  - intros k Hk. replace k with i by lia. rewrite (lowbit_clear u i i Hl) by lia.
    rewrite Z.eqb_refl. apply andb_false_r.
Qed.
