(* ===== verification/Pmm.v ===== *)
(** * The physical memory manager: kernel/mm/pmm.c and include/pmm.h

    [pmm_t] is the allocator's record; an operation is a function from the
    record to its result and the new record, [None] where an assertion of the
    code fails (the kernel panics).  [lock] is not a field: every operation holds
    it around all its reads and writes of the bitmap and the counters, so that an
    operation is one atomic step, and [pmm_step] interleaves them in any order.

    [pmm_inv] is the allocator's invariant, [free_set] and [resv_set] its
    abstraction, and [page_spec] the page allocator it implements. *)

From Stdlib Require Import String.
From stdpp Require Import strings options.
From Stdlib Require Import Lia.
From S2P Require Import Prelude Bitmap.

(** ** Data *)

Record pmm_reserved_t := mk_reserved { rs_start : Z; rs_end : Z; rs_tag : string }.

(** [pm_reserved] is the used part of the array [reserved]: its length is [reserved_count]. *)
Record pmm_t := mk_pmm {
  pm_bitmap : bitmap_t;
  pm_start_addr : Z;
  pm_total_size : Z;
  pm_page_size : Z;
  pm_total_pages : Z;
  pm_free_pages : Z;
  pm_reserved : list pmm_reserved_t;
  pm_reserved_pages : Z;
  pm_alloc_hint : Z;
}.

Definition PMM_BITMAP_MAX_BYTES : Z := 131072.
Definition PMM_MAX_RESERVED_RANGES : Z := 16.

Definition pm_reserved_count (p : pmm_t) : Z := Z.of_nat (length (pm_reserved p)).

Definition pmm_is_initialized (p : pmm_t) : bool := negb (pm_total_pages p =? 0).
Definition pmm_get_free_pages (p : pmm_t) : Z := pm_free_pages p.
Definition pmm_get_total_pages (p : pmm_t) : Z := pm_total_pages p.

(** The record with the fields that allocation and release change. *)
Definition pmm_set_alloc (p : pmm_t) (bm : bitmap_t) (free hint : Z) : pmm_t :=
  mk_pmm bm (pm_start_addr p) (pm_total_size p) (pm_page_size p) (pm_total_pages p)
    free (pm_reserved p) (pm_reserved_pages p) hint.

(** ** Operations *)

Definition pmm_init (start_addr size : Z) (bitmap_buffer : list Z) (bitmap_size : Z) : option pmm_t :=
  if negb (0 <? size) then None
  else
    let total_pages := size / PAGE_SIZE in
    if negb (u64 (total_pages + 7) / 8 <=? bitmap_size) then None
    else
      Some (mk_pmm (bitmap_init bitmap_buffer total_pages) start_addr size PAGE_SIZE
              total_pages total_pages [] 0 0).

Definition pmm_alloc_pages (p : pmm_t) (page_count : Z) : option (Z * pmm_t) :=
  if negb (0 <? page_count) then None
  else
    first ← bitmap_find_contiguous_free_from (pm_bitmap p) page_count (pm_alloc_hint p);
    page_index ←
      (if (first =? SIZE_ERR) && negb (pm_alloc_hint p =? 0)
       then bitmap_find_contiguous_free (pm_bitmap p) page_count
       else Some first);
    if negb (page_index =? SIZE_ERR) then
      Some (u64 (pm_start_addr p + u64 (page_index * pm_page_size p)),
            pmm_set_alloc p
              (bitmap_set_range (pm_bitmap p) page_index page_count)
              (u64 (pm_free_pages p - page_count))
              (u64 (page_index + page_count)))
    else Some (0, p).

(** The first reserved range that meets [paddr, free_end). *)
Definition reserved_hit (p : pmm_t) (paddr free_end : Z) : bool :=
  existsb (fun r => (paddr <? rs_end r) && (rs_start r <? free_end)) (pm_reserved p).

(** [for (i = 0; i < page_count; i++) if (!bitmap_test(page_index + i))] *)
Definition any_page_free (bm : bitmap_t) (page_index page_count : Z) : bool :=
  existsb (fun i => negb (bitmap_test bm (u64 (page_index + i)))) (seqZ 0 page_count).

Definition pmm_free_pages (p : pmm_t) (paddr page_count : Z) : option (bool * pmm_t) :=
  if negb (0 <? page_count) then None
  else if negb (Z.land paddr (pm_page_size p - 1) =? 0) then Some (false, p)
  else if (paddr <? pm_start_addr p) || (u64 (pm_start_addr p + pm_total_size p) <=? paddr)
  then Some (false, p)
  else
    let page_index := (paddr - pm_start_addr p) / pm_page_size p in
    if (pm_total_pages p <=? page_index) || (u64 (pm_total_pages p - page_index) <? page_count)
    then Some (false, p)
    else
      let free_end := u64 (paddr + u64 (page_count * pm_page_size p)) in
      if reserved_hit p paddr free_end then Some (false, p)
      else if any_page_free (pm_bitmap p) page_index page_count then Some (false, p)
      else
        Some (true,
              pmm_set_alloc p
                (for_range 0 page_count (fun b i => bitmap_clear b (u64 (page_index + i))) (pm_bitmap p))
                (u64 (pm_free_pages p + page_count))
                (pm_alloc_hint p)).

(** The marking loop of [pmm_reserve]: the bitmap, [free_pages] and [newly_marked]. *)
Definition reserve_page (s : bitmap_t * Z * Z) (i : Z) : bitmap_t * Z * Z :=
  let '(bm, free, newly) := s in
  if negb (bitmap_test bm i) then (bitmap_set bm i, u64 (free - 1), u64 (newly + 1)) else s.

Definition pmm_reserve (p : pmm_t) (start_addr end_addr : Z) (tag : string) : bool * pmm_t :=
  if end_addr <=? start_addr then (true, p)
  else
    let start_addr := ALIGN_DOWN start_addr (pm_page_size p) in
    let end_addr := ALIGN_UP end_addr (pm_page_size p) in
    if (start_addr <? pm_start_addr p) || (u64 (pm_start_addr p + pm_total_size p) <? end_addr)
    then (false, p)
    else
      let start_page := u64 (start_addr - pm_start_addr p) / pm_page_size p in
      let end_page := u64 (end_addr - pm_start_addr p) / pm_page_size p in
      if PMM_MAX_RESERVED_RANGES <=? pm_reserved_count p then (false, p)
      else
        let '(bm, free, newly) :=
          for_range start_page end_page reserve_page (pm_bitmap p, pm_free_pages p, 0) in
        (true,
         mk_pmm bm (pm_start_addr p) (pm_total_size p) (pm_page_size p) (pm_total_pages p) free
           (pm_reserved p ++ [mk_reserved start_addr end_addr tag])
           (u64 (pm_reserved_pages p + newly)) (pm_alloc_hint p)).

(** A platform reserve [g_pmm_reserves[i]]: an interval closed at both ends. *)
Record pmm_resv_cfg := mk_resv_cfg { rc_start : Z; rc_end : Z; rc_tag : string }.

Record platform_mem := mk_platform {
  g_mem_ram_base : Z;
  g_mem_ram_size : Z;
  g_mem_rootfs_base : Z;
  g_mem_rootfs_size : Z;
  g_pmm_reserves : list pmm_resv_cfg;
}.

(** [pmm_initialize]: a reserve of the kernel image that fails panics, the other
    reserves only log. *)
Definition pmm_initialize (g : platform_mem) (buffer : list Z) (kernel_start kernel_end : Z) : option pmm_t :=
  p0 ← pmm_init (g_mem_ram_base g) (g_mem_ram_size g) buffer PMM_BITMAP_MAX_BYTES;
  let '(ok, p1) := pmm_reserve p0 kernel_start kernel_end "kernel-image" in
  if negb ok then None
  else
    let p2 := foldl (fun p r => (pmm_reserve p (rc_start r) (u64 (rc_end r + 1)) (rc_tag r)).2)
                p1 (g_pmm_reserves g) in
    Some (pmm_reserve p2 (g_mem_rootfs_base g) (u64 (g_mem_rootfs_base g + g_mem_rootfs_size g)) "rootfs").2.

(** ** Invariant *)

Definition page_addr (p : pmm_t) (i : Z) : Z := pm_start_addr p + i * PAGE_SIZE.

(** Page [i] of the managed range belongs to a reserved interval. *)
Definition reserved_page (p : pmm_t) (i : Z) : bool :=
  existsb (fun r => (rs_start r <=? page_addr p i) && (page_addr p i <? rs_end r)) (pm_reserved p).

Lemma reserved_page_spec p i :
  reserved_page p i = true <-> exists r, r ∈ pm_reserved p /\ rs_start r <= page_addr p i < rs_end r.
Proof.
  unfold reserved_page. rewrite existsb_exists. setoid_rewrite list_elem_of_In.
  split; intros (r & Hr & H); exists r; (split; [done|]); zbool; [done|].
  rewrite andb_true_iff, Z.leb_le, Z.ltb_lt. done.
Qed.

(** An interval recorded in the table: page aligned, not empty and inside the range. *)
Definition reserved_ok (p : pmm_t) (r : pmm_reserved_t) : Prop :=
  pm_start_addr p <= rs_start r < rs_end r /\ rs_end r <= page_addr p (pm_total_pages p) /\
  rs_start r mod PAGE_SIZE = 0 /\ rs_end r mod PAGE_SIZE = 0.

Record pmm_inv (p : pmm_t) : Prop := {
  pi_wf : bitmap_wf (pm_bitmap p);
  pi_size : bm_size (pm_bitmap p) = pm_total_pages p;
  pi_page : pm_page_size p = PAGE_SIZE;
  pi_start : 0 < pm_start_addr p /\ pm_start_addr p mod PAGE_SIZE = 0;
  pi_end : pm_start_addr p + pm_total_size p <= U64_MOD - PAGE_SIZE;
  pi_total : 0 <= pm_total_size p /\ pm_total_pages p = pm_total_size p / PAGE_SIZE;
  pi_free : pm_free_pages p = pm_total_pages p - bitmap_weight (pm_bitmap p);
  pi_hint : 0 <= pm_alloc_hint p <= pm_total_pages p;
  pi_reserved : Forall (reserved_ok p) (pm_reserved p);
  pi_resv_set : forall i, 0 <= i -> reserved_page p i = true -> bitmap_test (pm_bitmap p) i = true;
  pi_resv_count : pm_reserved_count p <= PMM_MAX_RESERVED_RANGES;
  pi_resv_pages :
    0 <= pm_reserved_pages p <= count_bits (reserved_page p) (Z.to_nat (pm_total_pages p));
}.

(** The numeric content of the invariant, for [lia]. *)
Lemma pmm_inv_nums p :
  pmm_inv p ->
  0 <= pm_total_pages p < 2 ^ 52 /\ pm_total_pages p * PAGE_SIZE <= pm_total_size p /\
  pm_total_size p < (pm_total_pages p + 1) * PAGE_SIZE /\
  pm_start_addr p + pm_total_size p <= U64_MOD - PAGE_SIZE /\
  0 <= bitmap_weight (pm_bitmap p) <= pm_total_pages p /\
  0 <= pm_free_pages p <= pm_total_pages p /\ 0 < pm_start_addr p.
Proof.
  intros [Hwf Hsize ? [??] ? [? Htot] Hfree ?????].
  pose proof (bitmap_weight_bound (pm_bitmap p) Hwf). rewrite Hsize in *.
  pose proof (Z_div_mod_eq_full (pm_total_size p) PAGE_SIZE).
  pose proof (Z.mod_pos_bound (pm_total_size p) PAGE_SIZE).
  rewrite Htot in *. lia.
Qed.

(** [pmm_nums H] puts that content in the context. *)
Ltac pmm_nums H := let N := fresh "N" in pose proof (pmm_inv_nums _ H) as N; destruct_and! N.

(** The invariant after a change of the bitmap, the counter and the hint that
    keeps the reserved pages set. *)
Lemma pmm_set_alloc_inv p bm free hint :
  pmm_inv p -> bitmap_wf bm -> bm_size bm = pm_total_pages p ->
  free = pm_total_pages p - bitmap_weight bm -> 0 <= hint <= pm_total_pages p ->
  (forall i, 0 <= i -> reserved_page p i = true -> bitmap_test bm i = true) ->
  pmm_inv (pmm_set_alloc p bm free hint).
Proof. intros [????????????] ?????. split; try done. Qed.

Lemma pmm_set_alloc_page_addr p bm free hint i :
  page_addr (pmm_set_alloc p bm free hint) i = page_addr p i.
Proof. done. Qed.

(** ** Initialisation *)

Lemma pmm_init_inv start size buffer bytes p :
  pmm_init start size buffer bytes = Some p ->
  0 < start -> start mod PAGE_SIZE = 0 -> start + size <= U64_MOD - PAGE_SIZE ->
  bytes <= Z.of_nat (length buffer) ->
  pmm_inv p /\ pm_reserved p = [] /\ pm_start_addr p = start /\ pm_total_pages p = size / PAGE_SIZE /\
  pm_reserved_pages p = 0 /\ forall i, 0 <= i -> bitmap_test (pm_bitmap p) i = false.
Proof.
  unfold pmm_init. destruct (Z.ltb_spec 0 size) as [Hsize|]; [|done]. cbn [negb].
  pose proof (Z.div_pos size PAGE_SIZE). pose proof (Z.mul_div_le size PAGE_SIZE).
  intros Hi ? ? ? Hb. rewrite u64_id in Hi by lia. case_if_in Hi; [done|]. simplify_eq.
  assert (forall i, 0 <= i -> bitmap_test (bitmap_init buffer (size / PAGE_SIZE)) i = false) as Hfree.
  { intros. apply bitmap_init_test; lia. }
  split_and!; [|done..]. split; cbn; try done.
  - apply bitmap_init_wf; lia.
  - lia.
  - rewrite (bitmap_weight_all_free _ Hfree). lia.
  - lia.
  - pose proof (count_bits_bound (reserved_page
      (mk_pmm (bitmap_init buffer (size / PAGE_SIZE)) start size PAGE_SIZE (size / PAGE_SIZE)
         (size / PAGE_SIZE) [] 0 0)) (Z.to_nat (size / PAGE_SIZE))). lia.
Qed.

Lemma pmm_init_total start size buffer :
  0 < size -> start + size <= U64_MOD - PAGE_SIZE -> 0 <= start ->
  (size / PAGE_SIZE + 7) / 8 <= Z.of_nat (length buffer) ->
  is_Some (pmm_init start size buffer (Z.of_nat (length buffer))).
Proof.
  intros. unfold pmm_init. destruct (Z.ltb_spec 0 size) as [Hsize|]; [|lia]. cbn [negb].
  pose proof (Z.div_pos size PAGE_SIZE). pose proof (Z.mul_div_le size PAGE_SIZE).
  rewrite u64_id by lia. case_if; [lia|done].
Qed.

(** ** Allocation *)

Lemma pmm_alloc_find p n :
  pmm_inv p -> 0 < n < U32_MOD ->
  exists i, (first ← bitmap_find_contiguous_free_from (pm_bitmap p) n (pm_alloc_hint p);
             if (first =? SIZE_ERR) && negb (pm_alloc_hint p =? 0)
             then bitmap_find_contiguous_free (pm_bitmap p) n else Some first) = Some i /\
    ((i = SIZE_ERR /\ no_run (pm_bitmap p) 0 n) \/
     (0 <= i /\ i + n <= pm_total_pages p /\ free_run (pm_bitmap p) i n)).
Proof.
  intros Hinv Hn. pmm_nums Hinv. pose proof (pi_wf _ Hinv) as Hwf. pose proof (pi_hint _ Hinv).
  pose proof (pi_size _ Hinv) as Hsz.
  destruct (bitmap_find_contiguous_free_from_spec (pm_bitmap p) n Hwf (pm_alloc_hint p))
    as (i & -> & Hi); [lia..|]. cbn [mbind option_bind].
  destruct Hi as [[-> Hno]|(? & ? & ? & _)].
  - rewrite Z.eqb_refl. cbn [andb]. destruct (Z.eqb_spec (pm_alloc_hint p) 0) as [E|E]; cbn [negb].
    + exists SIZE_ERR. split; [done|]. left. by rewrite E in Hno.
    + destruct (bitmap_find_contiguous_free_spec (pm_bitmap p) n Hwf) as (i & -> & Hi); [lia..|].
      exists i. split; [done|]. destruct Hi as [[-> Hno']|(? & ? & ? & _)]; [by left|right].
      split_and!; [lia..|done].
  - exists i. destruct (Z.eqb_spec i SIZE_ERR); [lia|]. split; [done|right]. split_and!; [lia..|done].
Qed.

(** What a successful allocation of [n] pages at index [i] is. *)
Definition allocates (p p' : pmm_t) (i n : Z) : Prop :=
  0 <= i /\ i + n <= pm_total_pages p /\ free_run (pm_bitmap p) i n /\
  (forall k, 0 <= k ->
     bitmap_test (pm_bitmap p') k = in_range i n k || bitmap_test (pm_bitmap p) k) /\
  pm_free_pages p' = pm_free_pages p - n /\
  p' = pmm_set_alloc p (pm_bitmap p') (pm_free_pages p') (i + n).

Lemma pmm_alloc_pages_spec p n :
  pmm_inv p -> 0 < n < U32_MOD ->
  (pmm_alloc_pages p n = Some (0, p) /\ no_run (pm_bitmap p) 0 n) \/
  exists i p', pmm_alloc_pages p n = Some (page_addr p i, p') /\ allocates p p' i n /\ pmm_inv p'.
Proof.
  intros Hinv Hn. pmm_nums Hinv. unfold pmm_alloc_pages.
  destruct (Z.ltb_spec 0 n); [|lia]. cbn [negb].
  destruct (pmm_alloc_find p n Hinv Hn) as (i & Hfind & Hi).
  destruct (bitmap_find_contiguous_free_from _ _ _) as [first|]; [|done].
  cbn [mbind option_bind] in *. rewrite Hfind.
  destruct Hi as [[-> Hno]|(Hi0 & Hi1 & Hrun)]; cbn [mbind option_bind].
  { left. by rewrite Z.eqb_refl. }
  right. destruct (Z.eqb_spec i SIZE_ERR); [lia|]. cbn [negb].
  destruct (bitmap_set_range_spec (pm_bitmap p) i n) as (Hwf' & Hsz' & Ht');
    [apply Hinv|rewrite (pi_size _ Hinv); lia|].
  assert (bitmap_weight (bitmap_set_range (pm_bitmap p) i n) = bitmap_weight (pm_bitmap p) + n) as Hw.
  { apply (bitmap_weight_add _ _ i n); try done; [apply Hinv|lia|rewrite (pi_size _ Hinv); lia]. }
  pose proof (bitmap_weight_bound _ Hwf'). pose proof (pi_free _ Hinv). pose proof (pi_size _ Hinv).
  rewrite (pi_page _ Hinv). rewrite (u64_id (i * _)), (u64_id (_ + _ * _)), !u64_id by lia.
  eexists i, _. split; [done|]. split.
  - split_and!; [done..|]. unfold pmm_set_alloc. done.
  - apply pmm_set_alloc_inv; [done|done|by rewrite Hsz', (pi_size _ Hinv)| |lia|].
    + rewrite Hw, (pi_free _ Hinv). lia.
    + intros k Hk Hr. rewrite Ht' by lia. rewrite (pi_resv_set _ Hinv) by done. apply orb_true_r.
Qed.

(** ** Release *)

Lemma any_page_free_false bm i n :
  0 <= i -> 0 <= n -> i + n < U64_MOD ->
  any_page_free bm i n = false <-> forall k, i <= k < i + n -> bitmap_test bm k = true.
Proof.
  intros Hi Hn Hb. unfold any_page_free. rewrite <-not_true_iff_false, existsb_exists.
  split.
  - intros Hnone k Hk. apply not_false_iff_true. intros Hf. apply Hnone. exists (k - i).
    split; [apply list_elem_of_In, elem_of_seqZ; lia|]. rewrite u64_id by lia.
    replace (i + (k - i)) with k by lia. by rewrite Hf.
  - intros Hall (k & Hk & Hf). apply list_elem_of_In, elem_of_seqZ in Hk. rewrite u64_id in Hf by lia.
    rewrite Hall in Hf by lia. done.
Qed.

(** A reserved interval meets a run of pages exactly when one of the pages is reserved. *)
Lemma reserved_hit_spec p i n :
  pmm_inv p -> 0 <= i -> 0 < n -> i + n <= pm_total_pages p ->
  reserved_hit p (page_addr p i) (page_addr p (i + n)) = true <->
  exists k, i <= k < i + n /\ reserved_page p k = true.
Proof.
  intros Hinv Hi Hn Hin. setoid_rewrite reserved_page_spec.
  unfold reserved_hit. rewrite existsb_exists. setoid_rewrite <-list_elem_of_In.
  pose proof (pi_reserved _ Hinv) as Hres. rewrite Forall_forall in Hres.
  pose proof (pi_start _ Hinv) as [_ Hal]. unfold page_addr in *. split.
  - intros (r & Hr & H). zbool. destruct (Hres r Hr) as (? & ? & Hs & He).
    pose proof (Z_div_mod_eq_full (rs_start r) PAGE_SIZE) as D1.
    pose proof (Z_div_mod_eq_full (pm_start_addr p) PAGE_SIZE) as D2.
    pose proof (Z_div_mod_eq_full (rs_end r) PAGE_SIZE) as D3.
    exists (Z.max i (rs_start r / PAGE_SIZE - pm_start_addr p / PAGE_SIZE)).
    split; [lia|]. exists r. split; [done|lia].
  - intros (k & Hk & r & Hr & H). exists r. split; [done|].
    rewrite andb_true_iff, !Z.ltb_lt. lia.
Qed.

(** The pages of a release request: aligned, inside the range, all allocated and none reserved. *)
Definition releasable (p : pmm_t) (paddr n : Z) (i : Z) : Prop :=
  paddr = page_addr p i /\ 0 <= i /\ i + n <= pm_total_pages p /\
  (forall k, i <= k < i + n -> bitmap_test (pm_bitmap p) k = true /\ reserved_page p k = false).

Definition releases (p p' : pmm_t) (i n : Z) : Prop :=
  (forall k, 0 <= k ->
     bitmap_test (pm_bitmap p') k = negb (in_range i n k) && bitmap_test (pm_bitmap p) k) /\
  pm_free_pages p' = pm_free_pages p + n /\
  p' = pmm_set_alloc p (pm_bitmap p') (pm_free_pages p') (pm_alloc_hint p).

Lemma pmm_free_pages_refuses p paddr n :
  pmm_inv p -> 0 < n < U32_MOD -> 0 <= paddr < U64_MOD ->
  pmm_free_pages p paddr n = Some (false, p) \/ exists i, releasable p paddr n i.
Proof.
  intros Hinv Hn Hpa. pmm_nums Hinv. unfold pmm_free_pages.
  destruct (Z.ltb_spec 0 n); [|lia]. cbn [negb]. rewrite (pi_page _ Hinv).
  rewrite land_page_mask. destruct (Z.eqb_spec (paddr mod PAGE_SIZE) 0) as [Hal|]; [|by left]. cbn [negb].
  rewrite u64_id by lia. case_if; [by left|]. zbool.
  pose proof (pi_start _ Hinv) as [_ Hsal].
  set (i := (paddr - pm_start_addr p) / PAGE_SIZE).
  assert (paddr = page_addr p i) as Hpi.
  { unfold page_addr, i.
    pose proof (Z_div_mod_eq_full (paddr - pm_start_addr p) PAGE_SIZE) as Hd.
    rewrite Zminus_mod, Hal, Hsal in Hd. change ((0 - 0) mod PAGE_SIZE) with 0 in Hd. lia. }
  assert (0 <= i) by (apply Z.div_pos; lia).
  case_if; [by left|]. zbool. rewrite u64_id in * by lia.
  unfold page_addr in Hpi. rewrite (u64_id (n * _)), (u64_id (paddr + _)) by lia.
  destruct (reserved_hit _ _ _) eqn:E1; [by left|]. destruct (any_page_free _ _ _) eqn:E2; [by left|].
  right. exists i. split_and!; [done|lia..|].
  intros k Hk. rewrite any_page_free_false in E2 by lia. split; [by apply E2|].
  destruct (reserved_page p k) eqn:Er; [|done]. rewrite <-E1. symmetry.
  replace (paddr + n * PAGE_SIZE) with (page_addr p (i + n)) by (unfold page_addr; lia).
  rewrite Hpi. apply reserved_hit_spec; [done|lia..|eauto].
Qed.

Lemma pmm_free_pages_accepts p paddr n i :
  pmm_inv p -> 0 < n < U32_MOD -> releasable p paddr n i ->
  exists p', pmm_free_pages p paddr n = Some (true, p') /\ releases p p' i n /\ pmm_inv p'.
Proof.
  intros Hinv Hn (-> & Hi & Hin & Hall). pmm_nums Hinv. unfold pmm_free_pages.
  destruct (Z.ltb_spec 0 n); [|lia]. cbn [negb]. rewrite (pi_page _ Hinv).
  pose proof (pi_start _ Hinv) as [_ Hsal].
  rewrite land_page_mask. assert (page_addr p i mod PAGE_SIZE = 0) as ->.
  { unfold page_addr. by rewrite Z_mod_plus_full. }
  cbn [Z.eqb negb]. rewrite u64_id by lia.
  assert ((page_addr p i - pm_start_addr p) / PAGE_SIZE = i) as ->.
  { unfold page_addr. replace (pm_start_addr p + i * PAGE_SIZE - pm_start_addr p) with (i * PAGE_SIZE) by lia.
    apply Z.div_mul. lia. }
  rewrite (u64_id (n * _)), (u64_id (_ - _)), (u64_id (page_addr _ _ + _)) by (unfold page_addr; lia).
  destruct (Z.ltb_spec (page_addr p i) (pm_start_addr p)), (Z.leb_spec (pm_start_addr p + pm_total_size p) (page_addr p i)),
    (Z.leb_spec (pm_total_pages p) i), (Z.ltb_spec (pm_total_pages p - i) n); cbn [orb]; try (unfold page_addr in *; lia).
  replace (page_addr p i + n * PAGE_SIZE) with (page_addr p (i + n)) by (unfold page_addr; lia).
  destruct (reserved_hit _ _ _) eqn:E1.
  { apply reserved_hit_spec in E1 as (k & Hk & Hr); [|done|lia..]. destruct (Hall k Hk). congruence. }
  destruct (any_page_free _ _ _) eqn:E2.
  { apply not_false_iff_true in E2. exfalso. apply E2, any_page_free_false; [lia..|]. intros. by apply Hall. }
  destruct (bitmap_clear_loop_spec (pm_bitmap p) i n) as (Hwf' & Hsz' & Ht');
    [apply Hinv|rewrite (pi_size _ Hinv); lia|]. cbn zeta in *.
  set (bm' := for_range _ _ _ _) in *.
  assert (bitmap_weight bm' = bitmap_weight (pm_bitmap p) - n) as Hw.
  { apply (bitmap_weight_sub _ _ i n); try done; [apply Hinv|lia|rewrite (pi_size _ Hinv); lia|].
    intros. by apply Hall. }
  assert (bitmap_wf bm') as Hwf'' by done. pose proof (bitmap_weight_bound _ Hwf'').
  pose proof (pi_free _ Hinv). pose proof (pi_size _ Hinv). rewrite u64_id by lia.
  eexists. split; [done|]. split; [split_and!; [done..|]; done|].
  apply pmm_set_alloc_inv; [done|done|congruence|lia|apply Hinv|].
  intros k Hk Hr. rewrite Ht' by lia. rewrite (pi_resv_set _ Hinv) by done.
  destruct (in_range i n k) eqn:E; [|done]. apply in_range_spec in E. destruct (Hall k E). congruence.
Qed.

(** ** Reservation *)

Lemma bitmap_weight_set bm i :
  bitmap_wf bm -> 0 <= i < bm_size bm -> bitmap_test bm i = false ->
  bitmap_weight (bitmap_set bm i) = bitmap_weight bm + 1.
Proof.
  intros Hwf Hi Hf. apply (bitmap_weight_add _ _ i 1); [done|apply bitmap_set_size|lia..| |].
  - intros k Hk. rewrite bitmap_test_set by (done || lia).
    pose proof (in_range_succ i 0 k) as E. rewrite in_range_nil in E. rewrite Z.add_0_l, Z.add_0_r in E.
    rewrite E by lia. by rewrite orb_false_r.
  - intros k Hk. by replace k with i by lia.
Qed.

Lemma reserve_loop_spec bm free i n :
  bitmap_wf bm -> 0 <= i -> 0 <= n -> i + n <= bm_size bm ->
  free = bm_size bm - bitmap_weight bm ->
  let '(bm', free', newly) := for_range i (i + n) reserve_page (bm, free, 0) in
  bitmap_wf bm' /\ bm_size bm' = bm_size bm /\ free' = bm_size bm' - bitmap_weight bm' /\
  newly = bitmap_weight bm' - bitmap_weight bm /\ 0 <= newly <= n /\
  forall k, 0 <= k -> bitmap_test bm' k = in_range i n k || bitmap_test bm k.
Proof.
  intros Hwf Hi Hn Hin Hfree. pose proof (bwf_size _ Hwf).
  pose proof (for_range_ind (fun j (s : bitmap_t * Z * Z) => let '(b, f, w) := s in
    bitmap_wf b /\ bm_size b = bm_size bm /\ f = bm_size b - bitmap_weight b /\
    w = bitmap_weight b - bitmap_weight bm /\ 0 <= w <= j - i /\
    forall k, 0 <= k -> bitmap_test b k = in_range i (j - i) k || bitmap_test bm k)
    i (i + n) reserve_page (bm, free, 0)) as Hind.
  cbn beta iota in Hind. replace (i + n - i) with n in Hind by lia.
  apply Hind; [lia| |].
  - rewrite (Z.sub_diag i). split_and!; [done|done|done|lia|lia|lia|]. intros. by rewrite in_range_nil.
  - intros j [[b f] w] Hj (Hb & Hsz & Hf & Hw & Hwb & Ht). unfold reserve_page.
    pose proof (bitmap_weight_bound _ Hb).
    destruct (bitmap_test b j) eqn:Ej; cbn [negb].
    + split_and!; [done..|lia|lia|]. intros k Hk. rewrite Ht by done.
      replace (j + 1 - i) with (j - i + 1) by lia. rewrite in_range_succ by lia.
      replace (i + (j - i)) with j by lia.
      destruct (Z.eqb_spec k j) as [->|]; [|done]. rewrite Ht in Ej by lia. by rewrite Ej.
    + pose proof (bitmap_weight_set b j Hb ltac:(lia) Ej) as Hws.
      pose proof (bitmap_set_wf b j Hb) as Hb'. pose proof (bitmap_weight_bound _ Hb').
      rewrite bitmap_set_size in *. rewrite !u64_id by lia.
      split_and!; [done..|lia|lia|lia|lia|]. intros k Hk.
      rewrite bitmap_test_set by (done || lia). rewrite Ht by done.
      replace (j + 1 - i) with (j - i + 1) by lia. rewrite in_range_succ by lia.
      replace (i + (j - i)) with j by lia. by rewrite orb_assoc.
Qed.

(** A successful reservation: the run [i, i + n) is the requested interval
    rounded out to pages; its pages are set and recorded, nothing else changes. *)
Definition reserves (p p' : pmm_t) (s e : Z) (tag : string) (i n : Z) : Prop :=
  0 <= i /\ 0 < n /\ i + n <= pm_total_pages p /\
  page_addr p i <= s < page_addr p (i + 1) /\ page_addr p (i + n - 1) < e <= page_addr p (i + n) /\
  pm_reserved p' = pm_reserved p ++ [mk_reserved (page_addr p i) (page_addr p (i + n)) tag] /\
  (forall k, 0 <= k ->
     bitmap_test (pm_bitmap p') k = in_range i n k || bitmap_test (pm_bitmap p) k) /\
  pm_free_pages p - pm_free_pages p' = pm_reserved_pages p' - pm_reserved_pages p /\
  pm_start_addr p' = pm_start_addr p /\ pm_total_pages p' = pm_total_pages p /\
  pm_total_size p' = pm_total_size p /\ pm_page_size p' = pm_page_size p /\
  pm_alloc_hint p' = pm_alloc_hint p.

Lemma count_bits_diff f f' g g' n :
  (forall k, 0 <= k < Z.of_nat n -> Z.b2z (f' k) - Z.b2z (f k) <= Z.b2z (g' k) - Z.b2z (g k)) ->
  count_bits f' n - count_bits f n <= count_bits g' n - count_bits g n.
Proof.
  induction n as [|n IH]; intros H; cbn [count_bits]; [lia|].
  pose proof (H (Z.of_nat n) ltac:(lia)). specialize (IH ltac:(intros; apply H; lia)). lia.
Qed.

Lemma reserved_page_snoc p p' r k :
  pm_reserved p' = pm_reserved p ++ [r] -> pm_start_addr p' = pm_start_addr p ->
  reserved_page p' k =
  reserved_page p k || ((rs_start r <=? page_addr p k) && (page_addr p k <? rs_end r)).
Proof.
  intros Hr Hs. unfold reserved_page, page_addr. rewrite Hr, Hs, existsb_app. cbn. by rewrite orb_false_r.
Qed.

(** The interval that [pmm_reserve] computes, in pages of the range. *)
Lemma reserve_interval p s e :
  pmm_inv p -> 0 <= s < e -> e <= U64_MOD - PAGE_SIZE ->
  pm_start_addr p <= ALIGN_DOWN s PAGE_SIZE -> ALIGN_UP e PAGE_SIZE <= pm_start_addr p + pm_total_size p ->
  exists i n, 0 <= i /\ 0 < n /\ i + n <= pm_total_pages p /\
    ALIGN_DOWN s PAGE_SIZE = page_addr p i /\ ALIGN_UP e PAGE_SIZE = page_addr p (i + n) /\
    page_addr p i <= s < page_addr p (i + 1) /\ page_addr p (i + n - 1) < e <= page_addr p (i + n).
Proof.
  intros Hinv Hse He H1 H2. pmm_nums Hinv. pose proof (pi_start _ Hinv) as [_ Hal].
  rewrite ALIGN_DOWN_page, ALIGN_UP_page in * by lia.
  pose proof (Z_div_mod_eq_full (pm_start_addr p) PAGE_SIZE).
  pose proof (Z_div_mod_eq_full s PAGE_SIZE). pose proof (Z.mod_pos_bound s PAGE_SIZE).
  pose proof (Z_div_mod_eq_full (e + (PAGE_SIZE - 1)) PAGE_SIZE).
  pose proof (Z.mod_pos_bound (e + (PAGE_SIZE - 1)) PAGE_SIZE).
  exists (s / PAGE_SIZE - pm_start_addr p / PAGE_SIZE), ((e + (PAGE_SIZE - 1)) / PAGE_SIZE - s / PAGE_SIZE).
  unfold page_addr. split_and!; lia.
Qed.

(** The addresses of a run of pages. *)
Lemma page_addr_range p i n k :
  (page_addr p i <=? page_addr p k) && (page_addr p k <? page_addr p (i + n)) = in_range i n k.
Proof.
  unfold page_addr, in_range.
  destruct (Z.leb_spec (pm_start_addr p + i * PAGE_SIZE) (pm_start_addr p + k * PAGE_SIZE)),
    (Z.ltb_spec (pm_start_addr p + k * PAGE_SIZE) (pm_start_addr p + (i + n) * PAGE_SIZE)),
    (Z.leb_spec i k), (Z.ltb_spec k (i + n)); try done; lia.
Qed.

(** The record that [pmm_reserve] builds for the run [i, i + n). *)
Section reserve_record.
Context (p : pmm_t) (bm' : bitmap_t) (free' newly i n : Z) (tag : string).
Hypothesis Hinv : pmm_inv p.
Hypothesis Hin : 0 <= i /\ 0 < n /\ i + n <= pm_total_pages p.
Hypothesis Hwf' : bitmap_wf bm'.
Hypothesis Hsz' : bm_size bm' = bm_size (pm_bitmap p).
Hypothesis Hfree' : free' = bm_size bm' - bitmap_weight bm'.
Hypothesis Hnewly : newly = bitmap_weight bm' - bitmap_weight (pm_bitmap p) /\ 0 <= newly.
Hypothesis Ht' : forall k, 0 <= k ->
  bitmap_test bm' k = in_range i n k || bitmap_test (pm_bitmap p) k.

Definition reserve_record : pmm_t :=
  mk_pmm bm' (pm_start_addr p) (pm_total_size p) (pm_page_size p) (pm_total_pages p) free'
    (pm_reserved p ++ [mk_reserved (page_addr p i) (page_addr p (i + n)) tag])
    (u64 (pm_reserved_pages p + newly)) (pm_alloc_hint p).

Lemma reserve_record_page k :
  reserved_page reserve_record k = reserved_page p k || in_range i n k.
Proof using Type.
  rewrite (reserved_page_snoc p reserve_record (mk_reserved (page_addr p i) (page_addr p (i + n)) tag)) by done.
  f_equal. apply page_addr_range.
Qed.

(** Every newly marked page is newly reserved. *)
Lemma reserve_record_count :
  newly <= count_bits (reserved_page reserve_record) (Z.to_nat (pm_total_pages p)) -
           count_bits (reserved_page p) (Z.to_nat (pm_total_pages p)).
Proof using All.
  destruct Hnewly as [Hn _]. rewrite Hn. unfold bitmap_weight. rewrite Hsz', (pi_size _ Hinv).
  apply count_bits_diff. intros k Hk. rewrite Ht', reserve_record_page by lia.
  destruct (bitmap_test (pm_bitmap p) k) eqn:Et, (reserved_page p k) eqn:Er, (in_range i n k);
    cbn; try lia; rewrite (pi_resv_set _ Hinv) in Et by (done || lia); done.
Qed.

Lemma reserve_record_pages :
  u64 (pm_reserved_pages p + newly) = pm_reserved_pages p + newly /\
  0 <= pm_reserved_pages p + newly <=
    count_bits (reserved_page reserve_record) (Z.to_nat (pm_total_pages p)).
Proof using All.
  pose proof reserve_record_count. pose proof (pi_resv_pages _ Hinv). pmm_nums Hinv.
  pose proof (count_bits_bound (reserved_page reserve_record) (Z.to_nat (pm_total_pages p))).
  split; [apply u64_id|]; lia.
Qed.

Lemma reserve_record_inv : pm_reserved_count p < PMM_MAX_RESERVED_RANGES -> pmm_inv reserve_record.
Proof using All.
  intros Hroom. pmm_nums Hinv. destruct reserve_record_pages as [Hu Hpages].
  pose proof (pi_size _ Hinv) as Hsz. pose proof (pi_start _ Hinv) as [_ Hal].
  split; cbn [pm_bitmap pm_start_addr pm_total_size pm_page_size pm_total_pages pm_free_pages
    pm_reserved pm_reserved_pages pm_alloc_hint reserve_record]; try apply Hinv.
  - done.
  - congruence.
  - congruence.
  - apply Forall_app_2; [apply Hinv|]. apply Forall_singleton. unfold reserved_ok, page_addr. cbn.
    rewrite !Z_mod_plus_full. lia.
  - intros k Hk Hr. rewrite Ht' by done. rewrite reserve_record_page in Hr.
    apply orb_true_iff in Hr as [Hr| ->]; [|done]. rewrite (pi_resv_set _ Hinv) by done. apply orb_true_r.
  - unfold pm_reserved_count in *. cbn. rewrite length_app. cbn. lia.
  - rewrite Hu. exact Hpages.
Qed.

Lemma reserve_record_reserves s e :
  page_addr p i <= s < page_addr p (i + 1) -> page_addr p (i + n - 1) < e <= page_addr p (i + n) ->
  reserves p reserve_record s e tag i n.
Proof using All.
  intros. destruct reserve_record_pages as [Hu _]. destruct Hin as (? & ? & ?).
  pose proof (pi_free _ Hinv). pose proof (pi_size _ Hinv).
  unfold reserves. split_and!; try done; try lia. cbn. rewrite Hu. lia.
Qed.
End reserve_record.

Lemma pmm_reserve_spec p s e tag :
  pmm_inv p -> 0 <= s < U64_MOD -> 0 <= e <= U64_MOD - PAGE_SIZE ->
  let '(ok, p') := pmm_reserve p s e tag in
  if ok then (e <= s /\ p' = p) \/ (exists i n, reserves p p' s e tag i n /\ pmm_inv p')
  else p' = p /\ s < e /\
       (ALIGN_DOWN s PAGE_SIZE < pm_start_addr p \/
        pm_start_addr p + pm_total_size p < ALIGN_UP e PAGE_SIZE \/
        pm_reserved_count p = PMM_MAX_RESERVED_RANGES).
Proof.
  intros Hinv Hs He. pmm_nums Hinv. unfold pmm_reserve.
  destruct (Z.leb_spec e s); [by left|]. rewrite (pi_page _ Hinv).
  rewrite (u64_id (pm_start_addr p + _)) by lia.
  destruct (Z.ltb_spec (ALIGN_DOWN s PAGE_SIZE) (pm_start_addr p)); cbn [orb]; [by auto|].
  destruct (Z.ltb_spec (pm_start_addr p + pm_total_size p) (ALIGN_UP e PAGE_SIZE)); [by auto|].
  destruct (reserve_interval p s e) as (i & n & Hi & Hn & Hin & -> & -> & Hsi & Hei); [done|lia..|].
  destruct (Z.leb_spec PMM_MAX_RESERVED_RANGES (pm_reserved_count p)).
  { pose proof (pi_resv_count _ Hinv). split_and!; [done|done|]. right. right. lia. }
  assert (forall j, 0 <= j <= pm_total_pages p -> u64 (page_addr p j - pm_start_addr p) / PAGE_SIZE = j) as Hidx.
  { intros j Hj. unfold page_addr. replace (_ + _ - _) with (j * PAGE_SIZE) by lia.
    rewrite u64_id by lia. apply Z.div_mul. lia. }
  rewrite !Hidx by lia.
  pose proof (reserve_loop_spec (pm_bitmap p) (pm_free_pages p) i n) as Hloop.
  destruct (for_range i (i + n) reserve_page _) as [[bm' free'] newly].
  destruct Hloop as (Hwf' & Hsz' & Hfree' & Hnewly & Hnb & Ht'); [apply Hinv|lia|lia|rewrite (pi_size _ Hinv); lia| |].
  { rewrite (pi_free _ Hinv), (pi_size _ Hinv). done. }
  right. exists i, n. rewrite <-(pi_page _ Hinv).
  split; [apply reserve_record_reserves|apply reserve_record_inv]; try done; lia.
Qed.

(** ** Boot-time accounting *)

(** Before the first allocation the used pages are the reserved pages. *)
Record pmm_boot (p : pmm_t) : Prop := {
  pb_inv : pmm_inv p;
  pb_used : forall i, 0 <= i < pm_total_pages p -> bitmap_test (pm_bitmap p) i = reserved_page p i;
  pb_pages : pm_reserved_pages p = count_bits (reserved_page p) (Z.to_nat (pm_total_pages p));
}.

Lemma pmm_boot_counts p : pmm_boot p -> pm_reserved_pages p = bitmap_weight (pm_bitmap p).
Proof.
  intros [Hinv Hused ->]. unfold bitmap_weight. rewrite (pi_size _ Hinv).
  apply count_bits_ext. intros. symmetry. apply Hused. pmm_nums Hinv. lia.
Qed.

Lemma reserves_page p p' s e tag i n k :
  reserves p p' s e tag i n -> reserved_page p' k = reserved_page p k || in_range i n k.
Proof.
  intros (? & ? & ? & ? & ? & Hr & _ & _ & Hst & _).
  rewrite (reserved_page_snoc p p' _ k Hr Hst). f_equal. apply page_addr_range.
Qed.

Lemma reserves_boot p p' s e tag i n :
  pmm_boot p -> pmm_inv p' -> reserves p p' s e tag i n -> pmm_boot p'.
Proof.
  intros Hb Hinv' Hres. pose proof (pmm_boot_counts p Hb) as Hc. destruct Hb as [Hinv Hused Hpages].
  pose proof Hres as (? & ? & ? & _ & _ & _ & Ht & Hf & _ & Htot & _).
  assert (forall k, 0 <= k < pm_total_pages p' -> bitmap_test (pm_bitmap p') k = reserved_page p' k) as Hused'.
  { intros k Hk. rewrite Ht, (reserves_page _ _ _ _ _ _ _ _ Hres), Hused by lia. apply orb_comm. }
  split; [done..|].
  rewrite (count_bits_ext _ (bitmap_test (pm_bitmap p'))) by (intros; rewrite Hused' by (pmm_nums Hinv'; lia); done).
  rewrite <-(pi_size _ Hinv'). fold (bitmap_weight (pm_bitmap p')).
  pose proof (pi_free _ Hinv). pose proof (pi_free _ Hinv'). lia.
Qed.

Lemma pmm_reserve_boot p s e tag :
  pmm_boot p -> 0 <= s < U64_MOD -> 0 <= e <= U64_MOD - PAGE_SIZE -> pmm_boot (pmm_reserve p s e tag).2.
Proof.
  intros Hb Hs He. pose proof (pmm_reserve_spec p s e tag (pb_inv _ Hb) Hs He) as H.
  destruct (pmm_reserve p s e tag) as [[] p']; cbn in *.
  - destruct H as [[_ ->]|(i & n & Hres & Hinv')]; [done|]. by eapply reserves_boot.
  - by destruct H as [-> _].
Qed.

(** A page that is reserved stays reserved under [pmm_reserve]. *)
Lemma pmm_reserve_mono p s e tag k :
  pmm_inv p -> 0 <= s < U64_MOD -> 0 <= e <= U64_MOD - PAGE_SIZE ->
  reserved_page p k = true -> reserved_page (pmm_reserve p s e tag).2 k = true.
Proof.
  intros Hinv Hs He Hr. pose proof (pmm_reserve_spec p s e tag Hinv Hs He) as H.
  destruct (pmm_reserve p s e tag) as [[] p']; cbn in *.
  - destruct H as [[_ ->]|(i & n & Hres & Hinv')]; [done|].
    by rewrite (reserves_page _ _ _ _ _ _ _ _ Hres), Hr.
  - by destruct H as [-> _].
Qed.

Lemma pmm_reserve_start p s e tag :
  pm_start_addr (pmm_reserve p s e tag).2 = pm_start_addr p /\
  pm_total_pages (pmm_reserve p s e tag).2 = pm_total_pages p.
Proof. unfold pmm_reserve. repeat case_if; try done. by destruct (for_range _ _ _ _) as [[??]?]. Qed.

Definition resv_cfg_ok (r : pmm_resv_cfg) : Prop :=
  0 <= rc_start r < U64_MOD /\ 0 <= rc_end r < U64_MOD - PAGE_SIZE.

Definition platform_ok (g : platform_mem) : Prop :=
  0 < g_mem_ram_base g /\ g_mem_ram_base g mod PAGE_SIZE = 0 /\
  g_mem_ram_base g + g_mem_ram_size g <= U64_MOD - PAGE_SIZE /\
  0 <= g_mem_rootfs_base g /\ 0 <= g_mem_rootfs_size g /\
  g_mem_rootfs_base g + g_mem_rootfs_size g <= U64_MOD - PAGE_SIZE /\
  Forall resv_cfg_ok (g_pmm_reserves g).

(** The facts every later reserve keeps: [pmm_boot], the geometry and the pages in [K]. *)
Definition boot_keeps (start total : Z) (K : Z -> Prop) (p : pmm_t) : Prop :=
  pmm_boot p /\ pm_start_addr p = start /\ pm_total_pages p = total /\
  forall k, K k -> reserved_page p k = true.

Lemma pmm_reserve_keeps start total K p s e tag :
  boot_keeps start total K p -> 0 <= s < U64_MOD -> 0 <= e <= U64_MOD - PAGE_SIZE ->
  boot_keeps start total K (pmm_reserve p s e tag).2.
Proof.
  intros (Hb & Hst & Htp & HK) Hs He. unfold boot_keeps. destruct (pmm_reserve_start p s e tag) as [-> ->].
  split_and!; [by apply pmm_reserve_boot|done..|].
  intros k Hk. apply pmm_reserve_mono; [apply Hb|done..|by apply HK].
Qed.

Lemma pmm_reserves_keep start total K rs p :
  boot_keeps start total K p -> Forall resv_cfg_ok rs ->
  boot_keeps start total K
    (foldl (fun p r => (pmm_reserve p (rc_start r) (u64 (rc_end r + 1)) (rc_tag r)).2) p rs).
Proof.
  intros Hk Hall. revert p Hk. induction Hall as [|r rs [??] ? IH]; intros p Hk; cbn [foldl]; [done|].
  apply IH, pmm_reserve_keeps; [done|lia|]. rewrite u64_id by lia. lia.
Qed.

(** What [pmm_initialize] asserts: RAM is not empty, the bitmap buffer covers
    it, and the kernel image lies inside it. *)
Definition boot_asserts (g : platform_mem) (ks ke : Z) : Prop :=
  0 < g_mem_ram_size g /\ (g_mem_ram_size g / PAGE_SIZE + 7) / 8 <= PMM_BITMAP_MAX_BYTES /\
  g_mem_ram_base g <= ALIGN_DOWN ks PAGE_SIZE /\
  ALIGN_UP ke PAGE_SIZE <= g_mem_ram_base g + g_mem_ram_size g.

Lemma pmm_init_iff start size buffer bytes :
  start + size <= U64_MOD - PAGE_SIZE -> 0 <= start ->
  is_Some (pmm_init start size buffer bytes) <-> 0 < size /\ (size / PAGE_SIZE + 7) / 8 <= bytes.
Proof.
  intros. unfold pmm_init. destruct (Z.ltb_spec 0 size) as [Hsize|]; cbn [negb].
  - pose proof (Z.div_pos size PAGE_SIZE). pose proof (Z.mul_div_le size PAGE_SIZE).
    rewrite u64_id by lia. destruct (Z.leb_spec ((size / PAGE_SIZE + 7) / 8) bytes); cbn [negb].
    + split; [lia|done].
    + rewrite is_Some_alt. split; [done|lia].
  - rewrite is_Some_alt. split; [done|lia].
Qed.

Lemma pmm_init_boot start size buffer bytes p :
  pmm_init start size buffer bytes = Some p ->
  0 < start -> start mod PAGE_SIZE = 0 -> start + size <= U64_MOD - PAGE_SIZE ->
  bytes <= Z.of_nat (length buffer) ->
  boot_keeps start (size / PAGE_SIZE) (fun _ => False) p /\ pm_reserved p = [] /\ pm_total_size p = size.
Proof.
  intros Hi ? ? ? ?.
  assert (pm_total_size p = size).
  { unfold pmm_init in Hi. case_if_in Hi; [done|]. case_if_in Hi; [done|]. by simplify_eq. }
  destruct (pmm_init_inv _ _ _ _ _ Hi) as (Hinv & Hr & Hst & Htp & Hrp & Hfree); [done..|].
  split; [|done]. split_and!; [|done..]. split; [done| |].
  - intros k Hk. rewrite Hfree by lia. unfold reserved_page. by rewrite Hr.
  - rewrite Hrp. rewrite (count_bits_ext _ (bitmap_test (pm_bitmap p))).
    + rewrite <-(pi_size _ Hinv). symmetry. by apply bitmap_weight_all_free.
    + intros k Hk. rewrite Hfree by lia. unfold reserved_page. by rewrite Hr.
Qed.

(** The first reserve of the boot: it succeeds exactly when the image is in RAM,
    and then every page that the image touches is reserved. *)
Lemma pmm_reserve_image start total p ks ke tag :
  boot_keeps start total (fun _ => False) p -> pm_reserved p = [] ->
  0 <= ks < ke -> ke <= U64_MOD - PAGE_SIZE ->
  let '(ok, p') := pmm_reserve p ks ke tag in
  if ok then
    pm_start_addr p <= ALIGN_DOWN ks PAGE_SIZE /\ ALIGN_UP ke PAGE_SIZE <= pm_start_addr p + pm_total_size p /\
    boot_keeps start total (fun k => ks < start + (k + 1) * PAGE_SIZE /\ start + k * PAGE_SIZE < ke) p'
  else ALIGN_DOWN ks PAGE_SIZE < pm_start_addr p \/ pm_start_addr p + pm_total_size p < ALIGN_UP ke PAGE_SIZE.
Proof.
  intros (Hb & <- & <- & _) Hr Hks Hke.
  pose proof (pmm_reserve_spec p ks ke tag (pb_inv _ Hb) ltac:(lia) ltac:(lia)) as H.
  pose proof (pmm_reserve_boot p ks ke tag Hb ltac:(lia) ltac:(lia)) as Hb'.
  destruct (pmm_reserve p ks ke tag) as [[] p'] eqn:E; cbn [snd] in *.
  - destruct H as [[? _]|(i & n & Hres & _)]; [lia|].
    pose proof Hres as (Hi & Hn & Hin & Hs & He & _ & _ & _ & Hst & Htot & _).
    pose proof (pb_inv _ Hb) as Hinv. pmm_nums Hinv. pose proof (pi_start _ Hinv) as [_ Hal].
    pose proof (Z_div_mod_eq_full (pm_start_addr p) PAGE_SIZE) as D. rewrite Hal in D.
    unfold page_addr in *. rewrite ALIGN_DOWN_page, ALIGN_UP_page by lia.
    pose proof (Z_div_mod_eq_full ks PAGE_SIZE). pose proof (Z.mod_pos_bound ks PAGE_SIZE).
    pose proof (Z_div_mod_eq_full (ke + (PAGE_SIZE - 1)) PAGE_SIZE).
    pose proof (Z.mod_pos_bound (ke + (PAGE_SIZE - 1)) PAGE_SIZE).
    split_and!; [nia|nia|]. split_and!; [done..|].
    intros k Hk. rewrite (reserves_page _ _ _ _ _ _ _ _ Hres). apply orb_true_iff. right.
    apply in_range_spec. lia.
  - destruct H as (_ & _ & [?|[?|Hfull]]); [by left|by right|].
    unfold pm_reserved_count in Hfull. rewrite Hr in Hfull. done.
Qed.

(** Booting the physical memory manager either panics, exactly when one of
    its assertions fails, or gives a pool that satisfies the invariant, in which
    the reserved and the free pages add up to RAM, [reserved_pages] counts each
    reserved page once, and no page of the kernel image can be allocated. *)
Theorem pmm_initialize_accounts g buffer ks ke :
  platform_ok g -> Z.of_nat (length buffer) = PMM_BITMAP_MAX_BYTES ->
  0 <= ks < ke -> ke <= U64_MOD - PAGE_SIZE ->
  match pmm_initialize g buffer ks ke with
  | None => ~ boot_asserts g ks ke
  | Some p =>
      boot_asserts g ks ke /\ pmm_inv p /\
      pm_free_pages p + pm_reserved_pages p = pm_total_pages p /\
      pm_total_pages p = g_mem_ram_size g / PAGE_SIZE /\
      pm_reserved_pages p = count_bits (reserved_page p) (Z.to_nat (pm_total_pages p)) /\
      forall k, ks < page_addr p (k + 1) -> page_addr p k < ke -> reserved_page p k = true
  end.
Proof.
  intros (Hb0 & Hal & Hend & Hr0 & Hr1 & Hrend & Hres) Hbuf Hks Hke.
  unfold pmm_initialize, boot_asserts.
  pose proof (pmm_init_iff (g_mem_ram_base g) (g_mem_ram_size g) buffer PMM_BITMAP_MAX_BYTES Hend ltac:(lia)) as Hiff.
  destruct (pmm_init _ _ _ _) as [p0|] eqn:E0; cbn [mbind option_bind].
  2: { intros (? & ? & _). destruct Hiff as [_ Hiff]. destruct Hiff; done. }
  destruct Hiff as [[??] _]; [done|].
  destruct (pmm_init_boot _ _ _ _ _ E0) as (Hk0 & Hr & Hsz); [done..|lia|].
  pose proof (pmm_reserve_image _ _ p0 ks ke "kernel-image" Hk0 Hr Hks Hke) as Himg.
  assert (pm_start_addr p0 = g_mem_ram_base g) as Hst by apply Hk0. rewrite Hst, Hsz in Himg.
  destruct (pmm_reserve p0 ks ke _) as [[] p1]; cbn [negb]; [|lia].
  destruct Himg as (? & ? & Hk1). split; [done|].
  pose proof (pmm_reserves_keep _ _ _ _ _ Hk1 Hres) as Hk2.
  pose proof (pmm_reserve_keeps _ _ _ _ (g_mem_rootfs_base g)
    (u64 (g_mem_rootfs_base g + g_mem_rootfs_size g)) "rootfs" Hk2 ltac:(lia)
    ltac:(rewrite u64_id by lia; lia)) as (Hb & Hst3 & Htp3 & HK).
  set (p3 := (pmm_reserve _ _ _ _).2) in *.
  pose proof (pmm_boot_counts _ Hb). pose proof (pi_free _ (pb_inv _ Hb)).
  split_and!; [apply Hb|lia|done|apply Hb|]. intros k ??. apply HK. unfold page_addr in *. by rewrite Hst3 in *.
Qed.

Definition boot_platform : platform_mem :=
  mk_platform 2147483648 67108864 2181038080 4194304 [mk_resv_cfg 2147483648 2147549183 "opensbi"].

Lemma pmm_initialize_accounts_witness :
  match pmm_initialize boot_platform (replicate (Z.to_nat PMM_BITMAP_MAX_BYTES) 0) 2149580800 2151677952 with
  | None => ~ boot_asserts boot_platform 2149580800 2151677952
  | Some p =>
      boot_asserts boot_platform 2149580800 2151677952 /\ pmm_inv p /\
      pm_free_pages p + pm_reserved_pages p = pm_total_pages p /\
      pm_total_pages p = g_mem_ram_size boot_platform / PAGE_SIZE /\
      pm_reserved_pages p = count_bits (reserved_page p) (Z.to_nat (pm_total_pages p)) /\
      forall k, 2149580800 < page_addr p (k + 1) -> page_addr p k < 2151677952 -> reserved_page p k = true
  end.
Proof.
  apply (pmm_initialize_accounts boot_platform _ 2149580800 2151677952); [|by rewrite length_replicate|lia..].
  unfold platform_ok; cbn. split_and!; try lia; try done.
  apply Forall_singleton. unfold resv_cfg_ok. cbn. lia.
Defined.

(** ** Allocation and release *)

(** [pmm_alloc_pages] never panics on a positive count.  It returns the
    address of a run of pages that were all free, marks exactly those, lowers
    [free_pages] by their number and keeps the invariant; it fails, with 0 and no
    change, only when RAM has no free run of that length, whatever the next-fit
    hint was. *)
Theorem pmm_alloc_pages_correct p n :
  pmm_inv p -> 0 < n < U32_MOD ->
  exists paddr p', pmm_alloc_pages p n = Some (paddr, p') /\ pmm_inv p' /\
    if paddr =? 0 then p' = p /\ no_run (pm_bitmap p) 0 n
    else exists i, paddr = page_addr p i /\ allocates p p' i n.
Proof.
  intros Hinv Hn. pmm_nums Hinv.
  destruct (pmm_alloc_pages_spec p n Hinv Hn) as [[-> Hno]|(i & p' & -> & Ha & Hinv')].
  - by exists 0, p.
  - exists (page_addr p i), p'. split; [done|]. split; [done|].
    destruct (Z.eqb_spec (page_addr p i) 0); [|by exists i].
    destruct Ha as (? & ? & _). unfold page_addr in *. lia.
Qed.

(** A pool of 64 pages, for the examples. *)
Definition pool64 : pmm_t :=
  mk_pmm (bitmap_init (replicate 8 0) 64) 1048576 262144 PAGE_SIZE 64 64 [] 0 0.

Lemma pool64_boot : boot_keeps 1048576 64 (fun _ => False) pool64 /\ pm_reserved pool64 = [] /\ pm_total_size pool64 = 262144.
Proof.
  apply (pmm_init_boot 1048576 262144 (replicate 8 0) 8); [vm_compute; reflexivity|lia|done|lia|done].
Qed.

Lemma pool64_inv : pmm_inv pool64.
Proof. apply pool64_boot. Qed.

Lemma pmm_alloc_pages_correct_witness :
  exists paddr p', pmm_alloc_pages pool64 3 = Some (paddr, p') /\ pmm_inv p' /\
    if paddr =? 0 then p' = pool64 /\ no_run (pm_bitmap pool64) 0 3
    else exists i, paddr = page_addr pool64 i /\ allocates pool64 p' i 3.
Proof. apply (pmm_alloc_pages_correct pool64 3); [apply pool64_inv|lia]. Defined.

(** [pmm_free_pages] accepts a request exactly when the address is page
    aligned, the pages are inside RAM, all allocated and none reserved; it then
    clears exactly those pages.  Every other request - misaligned, out of range,
    reserved, a double free of even one page - is refused and changes nothing. *)
Theorem pmm_free_pages_correct p paddr n :
  pmm_inv p -> 0 < n < U32_MOD -> 0 <= paddr < U64_MOD ->
  exists ok p', pmm_free_pages p paddr n = Some (ok, p') /\ pmm_inv p' /\
    if ok then exists i, releasable p paddr n i /\ releases p p' i n
    else p' = p /\ forall i, ~ releasable p paddr n i.
Proof.
  intros Hinv Hn Hpa. destruct (pmm_free_pages p paddr n) as [[ok q]|] eqn:E.
  2: { unfold pmm_free_pages in E. repeat case_if_in E; try done. lia. }
  exists ok, q. split; [done|]. destruct ok.
  - destruct (pmm_free_pages_refuses p paddr n Hinv Hn Hpa) as [?|[i Hi]]; [congruence|].
    destruct (pmm_free_pages_accepts p paddr n i Hinv Hn Hi) as (p' & E' & Hrel & Hinv').
    rewrite E in E'. simplify_eq. eauto.
  - assert (forall i, ~ releasable p paddr n i) as Hno.
    { intros i Hi. destruct (pmm_free_pages_accepts p paddr n i Hinv Hn Hi) as (p' & E' & _). congruence. }
    destruct (pmm_free_pages_refuses p paddr n Hinv Hn Hpa) as [E'|[i Hi]]; [|by destruct (Hno i)].
    rewrite E in E'. by simplify_eq.
Qed.

Lemma pmm_free_pages_correct_witness :
  exists ok p', pmm_free_pages pool64 1052672 2 = Some (ok, p') /\ pmm_inv p' /\
    if ok then exists i, releasable pool64 1052672 2 i /\ releases pool64 p' i 2
    else p' = pool64 /\ forall i, ~ releasable pool64 1052672 2 i.
Proof. apply (pmm_free_pages_correct pool64 1052672 2); [apply pool64_inv|lia..]. Defined.

(** ** Ownership of pages

    A system state is the pool with the blocks (address, count) that its
    clients hold.  Clients allocate, give back what they hold, and try to give
    back anything that the pool refuses; boot code reserves before the first
    allocation. *)

Definition block_pages (p : pmm_t) (b : Z * Z) (k : Z) : bool :=
  (b.1 <=? page_addr p k) && (page_addr p k <? b.1 + b.2 * PAGE_SIZE).

Inductive pmm_step : pmm_t * list (Z * Z) -> pmm_t * list (Z * Z) -> Prop :=
  | step_alloc p p' os n paddr :
      0 < n < U32_MOD -> pmm_alloc_pages p n = Some (paddr, p') ->
      pmm_step (p, os) (p', if paddr =? 0 then os else (paddr, n) :: os)
  | step_free p p' os1 os2 paddr n ok :
      pmm_free_pages p paddr n = Some (ok, p') ->
      pmm_step (p, os1 ++ (paddr, n) :: os2) (p', if ok then os1 ++ os2 else os1 ++ (paddr, n) :: os2)
  | step_refused p p' os n paddr :
      0 < n < U32_MOD -> 0 <= paddr < U64_MOD ->
      pmm_free_pages p paddr n = Some (false, p') -> pmm_step (p, os) (p', os)
  | step_reserve p s e tag :
      0 <= s < U64_MOD -> 0 <= e <= U64_MOD - PAGE_SIZE ->
      pmm_step (p, []) ((pmm_reserve p s e tag).2, []).

(** How many holders page [k] has. *)
Definition holders (p : pmm_t) (os : list (Z * Z)) (k : Z) : Z :=
  foldr (fun b acc => Z.b2z (block_pages p b k) + acc) 0 os.

Definition block_ok (p : pmm_t) (b : Z * Z) : Prop :=
  exists i, b.1 = page_addr p i /\ 0 <= i /\ 0 < b.2 < U32_MOD /\ i + b.2 <= pm_total_pages p.

(** A used page is reserved or has one holder, never both and never two. *)
Record own_inv (s : pmm_t * list (Z * Z)) : Prop := {
  oi_inv : pmm_inv s.1;
  oi_blocks : Forall (block_ok s.1) s.2;
  oi_used : forall k, 0 <= k < pm_total_pages s.1 ->
    Z.b2z (bitmap_test (pm_bitmap s.1) k) = Z.b2z (reserved_page s.1 k) + holders s.1 s.2 k;
}.

#[local] Arguments holders : simpl never.

Lemma holders_nil p k : holders p [] k = 0.
Proof. done. Qed.

Lemma holders_cons p b os k : holders p (b :: os) k = Z.b2z (block_pages p b k) + holders p os k.
Proof. done. Qed.

Lemma holders_app p os1 os2 k : holders p (os1 ++ os2) k = holders p os1 k + holders p os2 k.
Proof. induction os1 as [|b os1 IH]; [done|]. cbn [app]. rewrite !holders_cons, IH. lia. Qed.

Lemma holders_nonneg p os k : 0 <= holders p os k.
Proof. induction os as [|b os IH]; [done|]. rewrite holders_cons. destruct (block_pages p b k); cbn; lia. Qed.

Lemma holders_elem p b os k : b ∈ os -> block_pages p b k = true -> 1 <= holders p os k.
Proof.
  intros (os1 & os2 & ->)%list_elem_of_split Hb. rewrite holders_app, holders_cons, Hb. cbn.
  pose proof (holders_nonneg p os1 k). pose proof (holders_nonneg p os2 k). lia.
Qed.

Lemma block_pages_range p i n k : block_pages p (page_addr p i, n) k = in_range i n k.
Proof.
  rewrite <-page_addr_range with (p := p). unfold block_pages. cbn.
  replace (page_addr p i + n * PAGE_SIZE) with (page_addr p (i + n)) by (unfold page_addr; lia). done.
Qed.

Lemma holders_geometry p p' os k : pm_start_addr p' = pm_start_addr p -> holders p' os k = holders p os k.
Proof.
  intros Hs. induction os as [|b os IH]; [done|]. rewrite !holders_cons, IH.
  unfold block_pages, page_addr. by rewrite Hs.
Qed.

Lemma block_ok_geometry p p' os :
  pm_start_addr p' = pm_start_addr p -> pm_total_pages p' = pm_total_pages p ->
  Forall (block_ok p) os -> Forall (block_ok p') os.
Proof. intros Hs Ht Hf. eapply Forall_impl; [exact Hf|]. intros b. unfold block_ok, page_addr. by rewrite Hs, Ht. Qed.

Lemma own_alloc p os p' i n :
  own_inv (p, os) -> 0 < n < U32_MOD -> pmm_inv p' -> allocates p p' i n ->
  own_inv (p', (page_addr p i, n) :: os).
Proof.
  intros [Hinv Hb Hu] Hn Hinv' (Hi & Hin & Hrun & Ht & _ & Ep'). cbn in *.
  assert (pm_start_addr p' = pm_start_addr p) as Hs by (rewrite Ep'; done).
  assert (pm_total_pages p' = pm_total_pages p) as Htp by (rewrite Ep'; done).
  split; cbn; [done| |].
  - constructor; [|by eapply block_ok_geometry].
    exists i. unfold page_addr. cbn. rewrite Hs, Htp. split_and!; [done|lia..].
  - intros k Hk. rewrite holders_cons, (holders_geometry p p' _ _ Hs), Ht by lia.
    replace (page_addr p i) with (page_addr p' i) by (unfold page_addr; by rewrite Hs).
    rewrite block_pages_range. assert (reserved_page p' k = reserved_page p k) as -> by (rewrite Ep'; done).
    specialize (Hu k ltac:(lia)). destruct (in_range i n k) eqn:E; cbn; [|lia].
    apply in_range_spec in E. rewrite Hrun in Hu by lia. cbn in *. lia.
Qed.

Lemma own_release p os1 os2 p' paddr n i :
  own_inv (p, os1 ++ (paddr, n) :: os2) -> releasable p paddr n i -> releases p p' i n -> pmm_inv p' ->
  own_inv (p', os1 ++ os2).
Proof.
  intros [Hinv Hb Hu] (-> & Hi & Hin & Hall) (Ht & _ & Ep') Hinv'. cbn in *.
  assert (pm_start_addr p' = pm_start_addr p) as Hs by (rewrite Ep'; done).
  assert (pm_total_pages p' = pm_total_pages p) as Htp by (rewrite Ep'; done).
  split; cbn; [done| |].
  - eapply block_ok_geometry; [done..|]. rewrite Forall_app, Forall_cons in Hb. apply Forall_app. tauto.
  - intros k Hk. rewrite holders_app, !(holders_geometry p p' _ _ Hs), Ht by lia.
    assert (reserved_page p' k = reserved_page p k) as -> by (rewrite Ep'; done).
    specialize (Hu k ltac:(lia)). rewrite holders_app, holders_cons, block_pages_range in Hu.
    destruct (in_range i n k) eqn:E; cbn in *; [|lia].
    apply in_range_spec in E. destruct (Hall k E) as [Hset Hres]. rewrite Hset, Hres in *. cbn in *. lia.
Qed.

(** A block that a client holds can always be given back. *)
Lemma own_releasable p os paddr n :
  own_inv (p, os) -> (paddr, n) ∈ os -> 0 < n < U32_MOD /\ exists i, releasable p paddr n i.
Proof.
  intros [Hinv Hb Hu] Hin. cbn in *. rewrite Forall_forall in Hb.
  destruct (Hb _ Hin) as (i & Hpa & Hi & Hn & Hle). cbn in *. split; [done|]. exists i. subst paddr.
  split_and!; [done..|]. intros k Hk. specialize (Hu k ltac:(lia)).
  pose proof (holders_elem p _ os k Hin) as Hh. rewrite block_pages_range in Hh.
  specialize (Hh ltac:(apply in_range_spec; lia)).
  destruct (bitmap_test _ _), (reserved_page _ _); cbn in Hu; lia || done.
Qed.

Lemma own_reserve p p' s e tag i n :
  own_inv (p, []) -> reserves p p' s e tag i n -> pmm_inv p' -> own_inv (p', []).
Proof.
  intros [Hinv Hb Hu] Hres Hinv'. pose proof Hres as (? & ? & ? & _ & _ & _ & Ht & _ & Hs & Htp & _).
  cbn in *. split; cbn; [done..|]. intros k Hk. rewrite Ht, (reserves_page _ _ _ _ _ _ _ _ Hres) by lia.
  specialize (Hu k ltac:(lia)). rewrite holders_nil in *.
  destruct (bitmap_test _ _), (reserved_page _ _), (in_range _ _ _); cbn in *; lia.
Qed.

Lemma pmm_step_own s s' : own_inv s -> pmm_step s s' -> own_inv s'.
Proof.
  intros Hown Hstep. pose proof (oi_inv _ Hown) as Hinv. destruct Hstep as
    [p p' os n paddr Hn E|p p' os1 os2 paddr n ok E|p p' os n paddr Hn Hpa E|p s e tag Hs He]; cbn in Hinv.
  - pmm_nums Hinv. destruct (pmm_alloc_pages_spec p n Hinv Hn) as [[E' _]|(i & q & E' & Ha & Hq)];
      rewrite E in E'; simplify_eq; [done|].
    destruct (Z.eqb_spec (page_addr p i) 0); [|by apply own_alloc].
    destruct Ha as (? & _). unfold page_addr in *. lia.
  - destruct (own_releasable p _ paddr n Hown) as [Hn [i Hi]]; [set_solver|].
    destruct (pmm_free_pages_accepts p paddr n i Hinv Hn Hi) as (q & E' & Hrel & Hq).
    rewrite E in E'. simplify_eq. by eapply own_release.
  - destruct (pmm_free_pages_refuses p paddr n Hinv Hn Hpa) as [E'|[i Hi]].
    + rewrite E in E'. by simplify_eq.
    + destruct (pmm_free_pages_accepts p paddr n i Hinv Hn Hi) as (q & E' & _). congruence.
  - pose proof (pmm_reserve_spec p s e tag Hinv Hs He) as H.
    destruct (pmm_reserve p s e tag) as [[] p']; cbn in *.
    + destruct H as [[_ ->]|(i & n & Hres & Hq)]; [done|by eapply own_reserve].
    + by destruct H as [-> _].
Qed.

(** *** Conservation of pages *)

Fixpoint zsum (f : Z -> Z) (n : nat) : Z :=
  match n with
  | O => 0
  | S n' => zsum f n' + f (Z.of_nat n')
  end.

Lemma zsum_ext f g n : (forall k, 0 <= k < Z.of_nat n -> f k = g k) -> zsum f n = zsum g n.
Proof. induction n as [|n IH]; intros H; cbn [zsum]; [done|]. rewrite IH, H by (intros; try apply H; lia). done. Qed.

Lemma zsum_add f g n : zsum (fun k => f k + g k) n = zsum f n + zsum g n.
Proof. induction n as [|n IH]; cbn [zsum]; lia. Qed.

Lemma zsum_count f n : zsum (fun k => Z.b2z (f k)) n = count_bits f n.
Proof. induction n as [|n IH]; cbn [zsum count_bits]; lia. Qed.

(** The pages of a list of blocks. *)
Definition held_pages (os : list (Z * Z)) : Z := foldr (fun b acc => b.2 + acc) 0 os.

Lemma holders_sum p os :
  0 <= pm_total_pages p -> Forall (block_ok p) os ->
  zsum (holders p os) (Z.to_nat (pm_total_pages p)) = held_pages os.
Proof.
  intros Ht. induction 1 as [|[a n] os (i & Ha & Hi & Hn & Hin) _ IH]; cbn in *.
  - induction (Z.to_nat _); cbn [zsum]; rewrite ?holders_nil; lia.
  - rewrite (zsum_ext _ (fun k => Z.b2z (in_range i n k) + holders p os k)).
    + rewrite zsum_add, IH, zsum_count. f_equal.
      rewrite (count_bits_range (fun _ => false) (in_range i n) i n); [|lia..| |done].
      * by rewrite count_bits_none.
      * intros. by rewrite orb_false_r.
    + intros k _. rewrite holders_cons, Ha, block_pages_range. done.
Qed.

Lemma own_conservation p os :
  own_inv (p, os) ->
  pm_free_pages p + count_bits (reserved_page p) (Z.to_nat (pm_total_pages p)) + held_pages os = pm_total_pages p.
Proof.
  intros [Hinv Hb Hu]. cbn in *. pmm_nums Hinv. rewrite (pi_free _ Hinv), <-(holders_sum p) by (done || lia).
  unfold bitmap_weight. rewrite (pi_size _ Hinv), <-!zsum_count.
  rewrite (zsum_ext (fun k => Z.b2z (bitmap_test _ k)) (fun k => Z.b2z (reserved_page p k) + holders p os k)).
  - rewrite (zsum_add (fun k => Z.b2z (reserved_page p k)) (holders p os)). lia.
  - intros. apply Hu. lia.
Qed.

(** C1. Along every interleaving of boot-time reserves, allocations and releases
    of a pool: two blocks that are held never share a page, no held block touches a
    reserved page, giving back a held block always succeeds, and free, reserved
    and held pages add up to RAM (no page is lost or made up). *)
Theorem pmm_ownership_safe p0 start total p os :
  boot_keeps start total (fun _ => False) p0 -> star pmm_step (p0, []) (p, os) ->
  pmm_inv p /\
  (forall os1 b1 os2 b2 os3 k, os = os1 ++ b1 :: os2 ++ b2 :: os3 -> 0 <= k < pm_total_pages p ->
     ~ (block_pages p b1 k = true /\ block_pages p b2 k = true)) /\
  (forall b k, b ∈ os -> 0 <= k < pm_total_pages p -> block_pages p b k = true -> reserved_page p k = false) /\
  (forall b, b ∈ os -> exists p', pmm_free_pages p b.1 b.2 = Some (true, p')) /\
  pm_free_pages p + count_bits (reserved_page p) (Z.to_nat (pm_total_pages p)) + held_pages os = pm_total_pages p.
Proof.
  intros (Hb & _) Hstar.
  assert (own_inv (p, os)) as Hown.
  { eapply star_invariant; [apply pmm_step_own| |exact Hstar]. split; cbn; [apply Hb|done|].
    intros k Hk. rewrite (pb_used _ Hb) by done. rewrite holders_nil. lia. }
  pose proof Hown as [Hinv Hblk Hu]. cbn in *. split_and!; [done| | | |by apply own_conservation].
  - intros os1 b1 os2 b2 os3 k -> Hk [H1 H2]. specialize (Hu k Hk).
    rewrite holders_app, holders_cons, holders_app, holders_cons, H1, H2 in Hu. cbn in Hu.
    pose proof (holders_nonneg p os1 k). pose proof (holders_nonneg p os2 k). pose proof (holders_nonneg p os3 k).
    destruct (bitmap_test _ _), (reserved_page _ _); cbn in Hu; lia.
  - intros b k Hin Hk Hbk. specialize (Hu k Hk). pose proof (holders_elem p b os k Hin Hbk).
    destruct (bitmap_test _ _), (reserved_page _ _); cbn in Hu; lia || done.
  - intros [a n] Hin. destruct (own_releasable p os a n Hown Hin) as [Hn [i Hi]].
    destruct (pmm_free_pages_accepts p a n i Hinv Hn Hi) as (p' & ? & _). eauto.
Qed.

(** [pool64] after an allocation of three pages and one of two. *)
Definition pool64_a : Z * pmm_t := default (0, pool64) (pmm_alloc_pages pool64 3).
Definition pool64_b : Z * pmm_t := default (0, pool64) (pmm_alloc_pages pool64_a.2 2).

Lemma pmm_ownership_safe_witness :
  pmm_inv pool64_b.2 /\ pm_free_pages pool64_b.2 = 59.
Proof.
  destruct (pmm_ownership_safe pool64 1048576 64 pool64_b.2 [(pool64_b.1, 2); (pool64_a.1, 3)])
    as (Hinv & _); [apply pool64_boot| |by split].
  eapply star_step; [|apply star_one].
  - apply (step_alloc pool64 pool64_a.2 [] 3 pool64_a.1); [lia|vm_compute; reflexivity].
  - apply (step_alloc pool64_a.2 pool64_b.2 [(pool64_a.1, 3)] 2 pool64_b.1); [lia|vm_compute; reflexivity].
Defined.

(** Releasing what an allocation returned is accepted and gives back every
    bit of the page map and the free count of the pool before the allocation. *)
Theorem pmm_alloc_free_roundtrip p n paddr p' :
  pmm_inv p -> 0 < n < U32_MOD -> pmm_alloc_pages p n = Some (paddr, p') -> paddr <> 0 ->
  exists p'', pmm_free_pages p' paddr n = Some (true, p'') /\ pmm_inv p'' /\
    pm_free_pages p'' = pm_free_pages p /\
    forall k, 0 <= k -> bitmap_test (pm_bitmap p'') k = bitmap_test (pm_bitmap p) k.
Proof.
  intros Hinv Hn E Hnz.
  destruct (pmm_alloc_pages_spec p n Hinv Hn) as [[E' _]|(i & q & E' & (Hi & Hin & Hrun & Ht & Hf & Ep) & Hq)];
    rewrite E in E'; simplify_eq.
  assert (releasable p' (page_addr p i) n i) as Hrel.
  { rewrite Ep. split_and!; [done..|]. intros k Hk. cbn. rewrite Ht by lia.
    assert (in_range i n k = true) as -> by (apply in_range_spec; lia). split; [done|].
    change (reserved_page p k = false). apply not_true_is_false. intros Hr.
    apply (pi_resv_set _ Hinv) in Hr; [|lia]. rewrite Hrun in Hr by lia. done. }
  destruct (pmm_free_pages_accepts p' _ n i Hq Hn Hrel) as (p'' & -> & (Ht'' & Hf'' & _) & Hinv'').
  exists p''. split_and!; [done|done|lia|]. intros k Hk. rewrite Ht'', Ht by done.
  destruct (in_range i n k) eqn:Er; [|done]. apply in_range_spec in Er. by rewrite Hrun.
Qed.

Lemma pmm_alloc_free_roundtrip_witness :
  exists p'', pmm_free_pages pool64_a.2 pool64_a.1 3 = Some (true, p'') /\ pmm_inv p'' /\
    pm_free_pages p'' = pm_free_pages pool64 /\
    forall k, 0 <= k -> bitmap_test (pm_bitmap p'') k = bitmap_test (pm_bitmap pool64) k.
Proof.
  apply (pmm_alloc_free_roundtrip pool64 3 pool64_a.1 pool64_a.2);
    [apply pool64_inv|lia|vm_compute; reflexivity|vm_compute; discriminate].
Defined.
