(* ===== verification/Pipe.v ===== *)
(** * Kernel pipes: kernel/syscall/fs/pipe.c and pipe.h

    A pipe is a 4096-byte ring with two counted ends and one slot each for a
    reader and a writer that sleeps.  [pipe_read_endpoint] and
    [pipe_write_endpoint] sleep in [task_block]; their definitions here are cut at
    that call: [enter = true] runs the function from its first line, [enter =
    false] from the return of [task_block], and both stop at the result or at the
    next [task_block].  Between two such points the code runs without
    interleaving, which is how the kernel runs on one CPU with no preemption in a
    system call; the pipe takes no lock.  Calls into other components
    ([task_unblock], [fd_notify_waiters], [task_send_signal]) are the list of
    events that a run emits.

    [contents] is the abstraction of the ring, a byte queue, and [pipe_sys_step]
    runs any number of tasks on the table of pipes. *)

From stdpp Require Import gmap options.
From Stdlib Require Import Lia.
From S2P Require Import Prelude Bitmap.

Abbreviation PIPE_BUF_SIZE := 4096.
Definition PIPE_MAX : Z := 16.
Definition EPOLLIN : Z := 1.
Definition EPOLLOUT : Z := 4.
Definition EPOLLERR : Z := 8.
Definition EPOLLHUP : Z := 16.
Definition NSIG : Z := 64.
Definition SIG_DFL : Z := 0.
Definition SIG_IGN : Z := 1.
Definition SIGPIPE : Z := 13.

(** Tasks are numbered; a pointer to a task is [Some] number, [NULL] is [None]. *)
Record pipe_t := mk_pipe {
  pp_buf : list Z;
  pp_rd : Z;
  pp_wr : Z;
  pp_count : Z;
  pp_rd_refcount : Z;
  pp_wr_refcount : Z;
  pp_rd_pool_idx : Z;
  pp_wr_pool_idx : Z;
  pp_blocked_reader : option Z;
  pp_blocked_writer : option Z;
}.

Definition pipe_set_ring (p : pipe_t) (buf : list Z) (rd wr count : Z) : pipe_t :=
  mk_pipe buf rd wr count (pp_rd_refcount p) (pp_wr_refcount p) (pp_rd_pool_idx p)
    (pp_wr_pool_idx p) (pp_blocked_reader p) (pp_blocked_writer p).

Definition pipe_set_refs (p : pipe_t) (rd wr : Z) : pipe_t :=
  mk_pipe (pp_buf p) (pp_rd p) (pp_wr p) (pp_count p) rd wr (pp_rd_pool_idx p)
    (pp_wr_pool_idx p) (pp_blocked_reader p) (pp_blocked_writer p).

Definition pipe_set_blocked (p : pipe_t) (r w : option Z) : pipe_t :=
  mk_pipe (pp_buf p) (pp_rd p) (pp_wr p) (pp_count p) (pp_rd_refcount p) (pp_wr_refcount p)
    (pp_rd_pool_idx p) (pp_wr_pool_idx p) r w.

Definition pipe_zero : pipe_t :=
  mk_pipe (replicate (Z.to_nat PIPE_BUF_SIZE) 0) 0 0 0 0 0 0 0 None None.

Inductive event :=
  | EvUnblock (t : Z)
  | EvNotify (pool mask : Z)
  | EvSignal (t sig : Z).

(** How a run of an endpoint operation ends: with a result and the bytes moved,
    or in [task_block] after [total] bytes of a write. *)
Inductive outcome :=
  | Ret (r : Z) (data : list Z)
  | Block (total : Z).

(** ** The table of pipes *)

Definition pipe_free (p : pipe_t) : bool := (pp_rd_refcount p =? 0) && (pp_wr_refcount p =? 0).

Definition pipe_at (g : list pipe_t) (i : Z) : pipe_t := aget pipe_zero g i.

Definition pipe_slot_alloc (g : list pipe_t) : Z :=
  default (-1) (head (filter (fun i => pipe_free (pipe_at g i) = true) (seqZ 0 PIPE_MAX))).

Definition pipe_get_by_idx (g : list pipe_t) (pi : Z) : option pipe_t :=
  if (pi <? 0) || (PIPE_MAX <=? pi) then None
  else if pipe_free (pipe_at g pi) then None
  else Some (pipe_at g pi).

(** What [pipe_alloc] does to the table for the slot [pi] and the two pool entries. *)
Definition pipe_fresh (rd_pool wr_pool : Z) : pipe_t :=
  mk_pipe (pp_buf pipe_zero) 0 0 0 1 1 rd_pool wr_pool None None.

Definition pipe_open (g : list pipe_t) (pi rd_pool wr_pool : Z) : list pipe_t :=
  aset g pi (pipe_fresh rd_pool wr_pool).

(** ** Signals that interrupt a sleep *)

Record task_sigs := mk_sigs { ts_pending : Z; ts_blocked : Z; ts_handlers : list Z }.

(** SIGCHLD, SIGCONT, SIGURG, SIGWINCH, SIGTTIN, SIGTTOU, SIGTSTP *)
Definition default_ignored (sig : Z) : bool :=
  existsb (Z.eqb sig) [17; 18; 23; 28; 21; 22; 20].

Definition interrupts_body (handlers : list Z) (unblocked : Z) : Z + bool :=
  if unblocked =? 0 then inr false
  else
    let low := Z.land unblocked (u64 (u64 (Z.lnot unblocked) + 1)) in
    let i := bit_index 64 low 0 in
    let unblocked := Z.land unblocked (u64 (unblocked - 1)) in
    let h := aget SIG_DFL handlers i in
    if h =? SIG_IGN then inl unblocked
    else if negb (h =? SIG_DFL) then inr true
    else if default_ignored (i + 1) then inl unblocked
    else inr true.

Definition pipe_interrupts (t : option task_sigs) : option bool :=
  match t with
  | None => Some false
  | Some t =>
      loop 65 (interrupts_body (ts_handlers t)) (Z.land (ts_pending t) (u64 (Z.lnot (ts_blocked t))))
  end.

(** ** Reading *)

Definition drain_body (count : Z) (s : pipe_t * list Z) : (pipe_t * list Z) + (pipe_t * list Z) :=
  let '(p, dst) := s in
  if (0 <? pp_count p) && (Z.of_nat (length dst) <? count) then
    inl (pipe_set_ring p (pp_buf p) (u32 (pp_rd p + 1)) (pp_wr p) (u32 (pp_count p - 1)),
         dst ++ [aget 0 (pp_buf p) (pp_rd p mod PIPE_BUF_SIZE)])
  else inr (p, dst).

Definition drain (count : Z) (p : pipe_t) : option (pipe_t * list Z) :=
  loop (Z.to_nat (PIPE_BUF_SIZE + 1)) (drain_body count) (p, []).

(** [if (p->blocked_writer) { .. task_unblock(w); }] *)
Definition wake_writer (p : pipe_t) : pipe_t * list event :=
  match pp_blocked_writer p with
  | Some w => (pipe_set_blocked p (pp_blocked_reader p) None, [EvUnblock w])
  | None => (p, [])
  end.

Definition wake_reader (p : pipe_t) : pipe_t * list event :=
  match pp_blocked_reader p with
  | Some r => (pipe_set_blocked p None (pp_blocked_writer p), [EvUnblock r])
  | None => (p, [])
  end.

(** One pass of [while (total == 0)], with what follows the loop. *)
Definition read_round (cur : Z) (interrupted nonblock : bool) (count : Z) (p : pipe_t) :
    option (pipe_t * list event * outcome) :=
  '(p, dst) ← drain count p;
  if 0 <? Z.of_nat (length dst) then
    let '(p, ev) := wake_writer p in
    Some (p, ev ++ [EvNotify (pp_wr_pool_idx p) EPOLLOUT], Ret (i32 (Z.of_nat (length dst))) dst)
  else if pp_wr_refcount p <=? 0 then Some (p, [], Ret 0 [])
  else if nonblock then Some (p, [], Ret (-11) [])
  else if interrupted then Some (p, [], Ret (-4) [])
  else Some (pipe_set_blocked p (Some cur) (pp_blocked_writer p), [], Block 0).

Definition put (g : list pipe_t) (pi : Z) (r : pipe_t * list event * outcome) :
    list pipe_t * list event * outcome :=
  let '(p, ev, o) := r in (aset g pi p, ev, o).

Definition pipe_read_endpoint (enter : bool) (cur : Z) (interrupted : bool) (g : list pipe_t)
    (pipe_idx count : Z) (nonblock : bool) : option (list pipe_t * list event * outcome) :=
  if enter then
    match pipe_get_by_idx g pipe_idx with
    | None => Some (g, [], Ret (-1) [])
    | Some p =>
        if pp_rd_refcount p <=? 0 then Some (g, [], Ret (-1) [])
        else put g pipe_idx <$> read_round cur interrupted nonblock count p
    end
  else
    let p := pipe_at g pipe_idx in
    put g pipe_idx <$>
      read_round cur interrupted nonblock count (pipe_set_blocked p None (pp_blocked_writer p)).

(** ** Writing *)

Definition fill_body (src : list Z) (s : pipe_t * Z) : (pipe_t * Z) + (pipe_t * Z) :=
  let '(p, total) := s in
  if (pp_count p <? PIPE_BUF_SIZE) && (total <? Z.of_nat (length src)) then
    inl (pipe_set_ring p (aset (pp_buf p) (pp_wr p mod PIPE_BUF_SIZE) (aget 0 src total))
           (pp_rd p) (u32 (pp_wr p + 1)) (u32 (pp_count p + 1)),
         total + 1)
  else inr (p, total).

Definition fill (src : list Z) (p : pipe_t) (total : Z) : option (pipe_t * Z) :=
  loop (Z.to_nat (PIPE_BUF_SIZE + 1)) (fill_body src) (p, total).

(** [total > 0 ? (int)total : err] *)
Definition partial (total err : Z) : Z := if 0 <? total then i32 total else err.

(** The bytes [src[from .. to)] that a run moved into the ring. *)
Definition moved (src : list Z) (from to : Z) : list Z :=
  take (Z.to_nat (to - from)) (drop (Z.to_nat from) src).

(** One pass of [while (total < count)], with what follows the loop; [count] is
    the length of [src]. *)
Definition write_round (cur : Z) (nonblock : bool) (src : list Z) (total : Z) (p : pipe_t) :
    option (pipe_t * list event * outcome * list Z) :=
  if negb (total <? Z.of_nat (length src)) then Some (p, [], Ret (i32 total) [], [])
  else
    '(p, total') ← fill src p total;
    let '(p, ev) := wake_reader p in
    let ev := ev ++ [EvNotify (pp_rd_pool_idx p) EPOLLIN] in
    let data := moved src total total' in
    if total' <? Z.of_nat (length src) then
      if pp_rd_refcount p <=? 0 then
        Some (p, ev ++ [EvSignal cur SIGPIPE], Ret (partial total' (-32)) [], data)
      else if nonblock then Some (p, ev, Ret (partial total' (-11)) [], data)
      else Some (pipe_set_blocked p (pp_blocked_reader p) (Some cur), ev, Block total', data)
    else Some (p, ev, Ret (i32 total') [], data).

(** The result carries the bytes that this run moved into the ring. *)
Definition pipe_write_endpoint (enter : bool) (cur : Z) (g : list pipe_t) (pipe_idx : Z)
    (src : list Z) (total : Z) (nonblock : bool) : option (list pipe_t * list event * outcome * list Z) :=
  if enter then
    match pipe_get_by_idx g pipe_idx with
    | None => Some (g, [], Ret (-1) [], [])
    | Some p =>
        if pp_wr_refcount p <=? 0 then Some (g, [], Ret (-1) [], [])
        else if pp_rd_refcount p <=? 0 then Some (g, [EvSignal cur SIGPIPE], Ret (-32) [], [])
        else '(r, data) ← write_round cur nonblock src 0 p; Some (put g pipe_idx r, data)
    end
  else
    let p := pipe_at g pipe_idx in
    '(r, data) ← write_round cur nonblock src total (pipe_set_blocked p (pp_blocked_reader p) None);
    Some (put g pipe_idx r, data).

(** ** Reference counts and polling *)

Definition pipe_ref_endpoint (g : list pipe_t) (pipe_idx : Z) (is_write_end : bool) : list pipe_t :=
  match pipe_get_by_idx g pipe_idx with
  | None => g
  | Some p =>
      aset g pipe_idx
        (if is_write_end then pipe_set_refs p (pp_rd_refcount p) (i32 (pp_wr_refcount p + 1))
         else pipe_set_refs p (i32 (pp_rd_refcount p + 1)) (pp_wr_refcount p))
  end.

Definition pipe_close_endpoint (g : list pipe_t) (pipe_idx : Z) (is_write_end : bool) : list pipe_t * list event :=
  match pipe_get_by_idx g pipe_idx with
  | None => (g, [])
  | Some p =>
      if is_write_end then
        let n := i32 (pp_wr_refcount p - 1) in
        if n <=? 0 then
          let '(p, ev) := wake_reader (pipe_set_refs p (pp_rd_refcount p) 0) in
          (aset g pipe_idx p, ev ++ [EvNotify (pp_rd_pool_idx p) EPOLLHUP])
        else (aset g pipe_idx (pipe_set_refs p (pp_rd_refcount p) n), [])
      else
        let n := i32 (pp_rd_refcount p - 1) in
        if n <=? 0 then
          let '(p, ev) := wake_writer (pipe_set_refs p 0 (pp_wr_refcount p)) in
          (aset g pipe_idx p, ev ++ [EvNotify (pp_wr_pool_idx p) EPOLLERR])
        else (aset g pipe_idx (pipe_set_refs p n (pp_wr_refcount p)), [])
  end.

Definition pipe_poll_readable_endpoint (g : list pipe_t) (pipe_idx : Z) : bool :=
  match pipe_get_by_idx g pipe_idx with
  | None => false
  | Some p => (0 <? pp_count p) || (pp_wr_refcount p <=? 0)
  end.

Definition pipe_poll_writable_endpoint (g : list pipe_t) (pipe_idx : Z) : bool :=
  match pipe_get_by_idx g pipe_idx with
  | None => false
  | Some p => (pp_count p <? PIPE_BUF_SIZE) || (pp_rd_refcount p <=? 0)
  end.

(** ** The ring as a queue *)

Definition contents (p : pipe_t) : list Z :=
  map (fun k => aget 0 (pp_buf p) ((pp_rd p + k) mod PIPE_BUF_SIZE)) (seqZ 0 (pp_count p)).

Record ring_wf (p : pipe_t) : Prop := {
  rw_len : Z.of_nat (length (pp_buf p)) = PIPE_BUF_SIZE;
  rw_rd : 0 <= pp_rd p < U32_MOD;
  rw_wr : pp_wr p = u32 (pp_rd p + pp_count p);
  rw_count : 0 <= pp_count p <= PIPE_BUF_SIZE;
}.

Lemma u32_ring x : u32 x mod PIPE_BUF_SIZE = x mod PIPE_BUF_SIZE.
Proof. unfold u32. Z.to_euclidean_division_equations. lia. Qed.

Lemma u32_ring_add x k : (u32 x + k) mod PIPE_BUF_SIZE = (x + k) mod PIPE_BUF_SIZE.
Proof. by rewrite <-Zplus_mod_idemp_l, u32_ring, Zplus_mod_idemp_l. Qed.

Lemma length_contents p : 0 <= pp_count p -> Z.of_nat (length (contents p)) = pp_count p.
Proof. intros. unfold contents. rewrite length_map, length_seqZ. lia. Qed.

Lemma contents_pop p :
  ring_wf p -> 0 < pp_count p ->
  let p' := pipe_set_ring p (pp_buf p) (u32 (pp_rd p + 1)) (pp_wr p) (u32 (pp_count p - 1)) in
  ring_wf p' /\ contents p = aget 0 (pp_buf p) (pp_rd p mod PIPE_BUF_SIZE) :: contents p'.
Proof.
  intros [Hl Hrd Hwr Hc] Hpos p'. split.
  - split; cbn; [done|apply u32_range|rewrite (u32_id (_ - 1)) by lia; rewrite Hwr|rewrite u32_id; lia].
    unfold u32. rewrite Zplus_mod_idemp_l. f_equal. lia.
  - unfold contents. cbn. rewrite (u32_id (_ - 1)) by lia. rewrite seqZ_cons by lia. cbn. f_equal.
    + by rewrite Z.add_0_r.
    + rewrite <-(fmap_add_seqZ 1 0). rewrite (map_map (Z.add 1)).
      apply map_ext. intros k. rewrite u32_ring_add. do 2 f_equal. lia.
Qed.

Lemma contents_push p x :
  ring_wf p -> pp_count p < PIPE_BUF_SIZE ->
  let p' := pipe_set_ring p (aset (pp_buf p) (pp_wr p mod PIPE_BUF_SIZE) x)
              (pp_rd p) (u32 (pp_wr p + 1)) (u32 (pp_count p + 1)) in
  ring_wf p' /\ contents p' = contents p ++ [x].
Proof.
  intros [Hl Hrd Hwr Hc] Hroom p'. split.
  - split; cbn; [by rewrite length_aset|done| |rewrite u32_id; lia].
    rewrite Hwr, (u32_id (pp_count p + 1)) by lia. unfold u32. rewrite Zplus_mod_idemp_l. f_equal. lia.
  - unfold contents. cbn. rewrite (u32_id (_ + 1)) by lia. rewrite seqZ_app by lia.
    rewrite map_app. cbn. f_equal.
    + apply list_fmap_ext. intros ? k Hk. apply lookup_seqZ in Hk as [-> Hk].
      rewrite Hwr, u32_ring, aget_aset_ne; [done|apply Z.mod_pos_bound; lia..|].
      Z.to_euclidean_division_equations. lia.
    + rewrite (seqZ_cons _ 1), seqZ_nil by lia. cbn. f_equal. rewrite Hwr, u32_ring. replace (pp_rd p + (0 + pp_count p)) with (pp_rd p + pp_count p) by lia.
      apply aget_aset_eq. rewrite Hl. apply Z.mod_pos_bound. lia.
Qed.

(** [drain] pops bytes until the request or the ring is exhausted. *)
Lemma drain_spec count p :
  ring_wf p -> 0 <= count ->
  exists p' dst, drain count p = Some (p', dst) /\ ring_wf p' /\
    contents p = dst ++ contents p' /\ Z.of_nat (length dst) = Z.min count (pp_count p) /\
    p' = pipe_set_ring p (pp_buf p) (pp_rd p') (pp_wr p) (pp_count p').
Proof.
  intros Hwf Hcount. pose proof (rw_count _ Hwf).
  destruct (loop_total
    (fun s => ring_wf s.1 /\ contents p = s.2 ++ contents s.1 /\ Z.of_nat (length s.2) <= count /\
       s.1 = pipe_set_ring p (pp_buf p) (pp_rd s.1) (pp_wr p) (pp_count s.1))
    (fun s => ring_wf s.1 /\ contents p = s.2 ++ contents s.1 /\ Z.of_nat (length s.2) <= count /\
       s.1 = pipe_set_ring p (pp_buf p) (pp_rd s.1) (pp_wr p) (pp_count s.1) /\
       (pp_count s.1 = 0 \/ Z.of_nat (length s.2) = count))
    (fun s => pp_count s.1) (drain_body count)) with (fuel := Z.to_nat (PIPE_BUF_SIZE + 1)) (s := (p, @nil Z))
    as ([p' dst] & Hloop & Hwf' & Hc & Hle & Hp & Hend).
  - intros [q dst] (Hq & Hc & Hle & Hp). cbn in *. pose proof (rw_count _ Hq).
    destruct (Z.ltb_spec 0 (pp_count q)); cbn [andb]; [|cbn; split_and!; try done; lia].
    destruct (Z.ltb_spec (Z.of_nat (length dst)) count); [|cbn; split_and!; try done; lia].
    destruct (contents_pop q Hq) as [Hwf' Hpop]; [done|]. cbn in *. rewrite (u32_id (_ - 1)) in * by lia.
    split_and!; try done; try lia.
    + by rewrite Hc, Hpop, <-app_assoc.
    + rewrite length_app. cbn. lia.
    + rewrite Hp. done.
  - cbn. split_and!; [done|done|lia|by destruct p].
  - cbn. lia.
  - cbn in *. exists p', dst. split_and!; [done..| |done].
    pose proof (f_equal (fun l => Z.of_nat (length l)) Hc) as Hlen. cbn in Hlen.
    rewrite length_app, Nat2Z.inj_add, !length_contents in Hlen by (apply Hwf || apply Hwf'). 
    pose proof (rw_count _ Hwf'). lia.
Qed.


Lemma moved_nil src a : moved src a a = [].
Proof. unfold moved. by rewrite Z.sub_diag. Qed.

Lemma moved_snoc src a b :
  0 <= a <= b -> b < Z.of_nat (length src) -> moved src a (b + 1) = moved src a b ++ [aget 0 src b].
Proof.
  intros Hab Hb. unfold moved. replace (Z.to_nat (b + 1 - a)) with (S (Z.to_nat (b - a))) by lia.
  apply take_S_r. rewrite lookup_drop. replace (Z.to_nat a + Z.to_nat (b - a))%nat with (Z.to_nat b) by lia.
  apply aget_lookup. lia.
Qed.

(** [fill] pushes bytes until the ring is full or the request is exhausted. *)
Lemma fill_spec src p total :
  ring_wf p -> 0 <= total <= Z.of_nat (length src) ->
  exists p' total', fill src p total = Some (p', total') /\ ring_wf p' /\
    contents p' = contents p ++ moved src total total' /\
    total <= total' <= Z.of_nat (length src) /\ pp_count p' = pp_count p + (total' - total) /\
    (pp_count p' = PIPE_BUF_SIZE \/ total' = Z.of_nat (length src)) /\
    p' = pipe_set_ring p (pp_buf p') (pp_rd p) (pp_wr p') (pp_count p').
Proof.
  intros Hwf Htot. pose proof (rw_count _ Hwf).
  set (I := fun s : pipe_t * Z => ring_wf s.1 /\ contents s.1 = contents p ++ moved src total s.2 /\
     total <= s.2 <= Z.of_nat (length src) /\ pp_count s.1 = pp_count p + (s.2 - total) /\
     s.1 = pipe_set_ring p (pp_buf s.1) (pp_rd p) (pp_wr s.1) (pp_count s.1)).
  destruct (loop_total I
    (fun s => I s /\ (pp_count s.1 = PIPE_BUF_SIZE \/ s.2 = Z.of_nat (length src)))
    (fun s => PIPE_BUF_SIZE - pp_count s.1) (fill_body src))
    with (fuel := Z.to_nat (PIPE_BUF_SIZE + 1)) (s := (p, total))
    as ([p' t'] & Hloop & (Hwf' & Hc & Ht & Hn & Hp) & Hend).
  - intros [q t] HI. pose proof HI as (Hq & Hc & Ht & Hn & Hp). cbn in *. pose proof (rw_count _ Hq).
    destruct (Z.ltb_spec (pp_count q) PIPE_BUF_SIZE); cbn [andb]; [|split; [done|cbn; lia]].
    destruct (Z.ltb_spec t (Z.of_nat (length src))); [|split; [done|cbn; lia]].
    destruct (contents_push q (aget 0 src t) Hq) as [Hwf' Hpush]; [done|]. cbn in *.
    rewrite (u32_id (pp_count q + 1)) in * by lia. unfold I. cbn. split; [|lia].
    split_and!; try done; try lia.
    + rewrite Hpush, Hc, moved_snoc by lia. by rewrite <-app_assoc.
    + rewrite Hp. done.
  - unfold I. cbn. rewrite moved_nil, app_nil_r. split_and!; [done|done|lia|lia|lia|by destruct p].
  - cbn. lia.
  - cbn in *. exists p', t'. split_and!; try done; lia.
Qed.

(** ** What one run does *)

(** The wake-up discipline: whoever is registered as sleeping has a reason to. *)
Record pipe_inv (p : pipe_t) : Prop := {
  pv_ring : ring_wf p;
  pv_refs : 0 <= pp_rd_refcount p /\ 0 <= pp_wr_refcount p;
  pv_reader : pp_blocked_reader p <> None -> pp_count p = 0 /\ 0 < pp_wr_refcount p;
  pv_writer : pp_blocked_writer p <> None -> pp_count p = PIPE_BUF_SIZE /\ 0 < pp_rd_refcount p;
}.

Definition same_ends (p p' : pipe_t) : Prop :=
  pp_rd_refcount p' = pp_rd_refcount p /\ pp_wr_refcount p' = pp_wr_refcount p /\
  pp_rd_pool_idx p' = pp_rd_pool_idx p /\ pp_wr_pool_idx p' = pp_wr_pool_idx p.

(** What a read run is, given the queue it starts from. *)
Definition reads (cur : Z) (interrupted nonblock : bool) (count : Z) (p p' : pipe_t)
    (ev : list event) (o : outcome) : Prop :=
  let n := Z.min count (pp_count p) in
  if 0 <? n then
    o = Ret n (take (Z.to_nat n) (contents p)) /\ contents p' = drop (Z.to_nat n) (contents p) /\
    pp_blocked_writer p' = None /\ pp_blocked_reader p' = pp_blocked_reader p /\
    forall w, pp_blocked_writer p = Some w -> EvUnblock w ∈ ev
  else
    contents p' = contents p /\ pp_blocked_writer p' = pp_blocked_writer p /\ ev = [] /\
    if pp_wr_refcount p <=? 0 then o = Ret 0 [] /\ p' = p
    else if nonblock then o = Ret (-11) [] /\ p' = p
    else if interrupted then o = Ret (-4) [] /\ p' = p
    else o = Block 0 /\ pp_blocked_reader p' = Some cur.

Lemma wake_reader_spec p :
  exists ev, wake_reader p = (pipe_set_blocked p None (pp_blocked_writer p), ev) /\
    forall r, pp_blocked_reader p = Some r -> EvUnblock r ∈ ev.
Proof.
  unfold wake_reader. destruct (pp_blocked_reader p) as [r|] eqn:E.
  - eexists. split; [done|]. intros ? [= ->]. apply list_elem_of_singleton. done.
  - exists []. split; [|done]. destruct p; cbn in *. by subst.
Qed.

Lemma wake_writer_spec p :
  exists ev, wake_writer p = (pipe_set_blocked p (pp_blocked_reader p) None, ev) /\
    forall w, pp_blocked_writer p = Some w -> EvUnblock w ∈ ev.
Proof.
  unfold wake_writer. destruct (pp_blocked_writer p) as [w|] eqn:E.
  - eexists. split; [done|]. intros ? [= ->]. apply list_elem_of_singleton. done.
  - exists []. split; [|done]. destruct p; cbn in *. by subst.
Qed.

Lemma ring_wf_blocked p r w : ring_wf (pipe_set_blocked p r w) <-> ring_wf p.
Proof. split; intros [????]; split; done. Qed.

Lemma drain_noop count p p' dst :
  ring_wf p -> ring_wf p' -> contents p = dst ++ contents p' -> dst = [] -> 0 <= count ->
  p' = pipe_set_ring p (pp_buf p) (pp_rd p') (pp_wr p) (pp_count p') -> p' = p.
Proof.
  intros Hwf Hwf' Hc -> Hcount Hp. pose proof (rw_count _ Hwf). pose proof (rw_count _ Hwf').
  assert (pp_count p' = pp_count p) as E.
  { rewrite <-!length_contents by lia. by rewrite Hc. }
  pose proof (rw_wr _ Hwf) as H1. pose proof (rw_wr _ Hwf') as H2. 
  pose proof (rw_rd _ Hwf). pose proof (rw_rd _ Hwf').
  assert (pp_wr p' = pp_wr p) as E2 by (rewrite Hp; done). rewrite H1, H2, E in E2.
  assert (pp_rd p' = pp_rd p) as E3 by (unfold u32 in E2; Z.to_euclidean_division_equations; lia).
  rewrite Hp, E, E3. by destruct p.
Qed.

Lemma read_round_spec cur intr nonblock count p :
  ring_wf p -> 0 <= count ->
  exists p' ev o, read_round cur intr nonblock count p = Some (p', ev, o) /\
    ring_wf p' /\ same_ends p p' /\ reads cur intr nonblock count p p' ev o.
Proof.
  intros Hwf Hcount. pose proof (rw_count _ Hwf).
  destruct (drain_spec count p Hwf Hcount) as (q & dst & Hd & Hq & Hc & Hlen & Hp).
  unfold read_round, reads. rewrite Hd. cbn [mbind option_bind]. rewrite Hlen.
  destruct (Z.ltb_spec 0 (Z.min count (pp_count p))) as [Hpos|Hz].
  - assert (Z.to_nat (Z.min count (pp_count p)) = length dst) as Hn by lia. rewrite Hn, Hc, take_app_length, drop_app_length.
    destruct (wake_writer_spec q) as (ev & -> & Hev). rewrite i32_id by lia.
    assert (pp_blocked_writer q = pp_blocked_writer p) as Eq by (rewrite Hp; done).
    eexists _, _, _. split; [done|]. split; [by rewrite ring_wf_blocked|]. split; [rewrite Hp; done|].
    split_and!; [done|done|done|rewrite Hp; done|].
    intros w Hw. apply elem_of_app. left. apply Hev. by rewrite Eq.
  - assert (q = p) as ->. { eapply drain_noop; try done. destruct dst; [done|cbn in *; lia]. }
    destruct (pp_wr_refcount p <=? 0), nonblock, intr; cbn; eexists _, _, _; (split; [done|]);
      split_and!; try done; by destruct Hwf; split.
Qed.

(** What a write run is; [data] is what it appends to the queue. *)
Definition writes (cur : Z) (nonblock : bool) (src : list Z) (total : Z) (p p' : pipe_t)
    (ev : list event) (o : outcome) (data : list Z) : Prop :=
  let len := Z.of_nat (length src) in
  let total' := total + Z.min (len - total) (PIPE_BUF_SIZE - pp_count p) in
  contents p' = contents p ++ data /\
  if len <=? total then p' = p /\ data = [] /\ o = Ret (i32 total) []
  else
    data = moved src total total' /\ pp_blocked_reader p' = None /\
    (forall r, pp_blocked_reader p = Some r -> EvUnblock r ∈ ev) /\
    if total' =? len then o = Ret (i32 len) [] /\ pp_blocked_writer p' = pp_blocked_writer p
    else
      pp_count p' = PIPE_BUF_SIZE /\
      if pp_rd_refcount p <=? 0 then
        o = Ret (partial total' (-32)) [] /\ EvSignal cur SIGPIPE ∈ ev /\ pp_blocked_writer p' = pp_blocked_writer p
      else if nonblock then o = Ret (partial total' (-11)) [] /\ pp_blocked_writer p' = pp_blocked_writer p
      else o = Block total' /\ pp_blocked_writer p' = Some cur.

Lemma write_round_spec cur nonblock src total p :
  ring_wf p -> 0 <= total <= Z.of_nat (length src) ->
  exists p' ev o data, write_round cur nonblock src total p = Some (p', ev, o, data) /\
    ring_wf p' /\ same_ends p p' /\ writes cur nonblock src total p p' ev o data.
Proof.
  intros Hwf Ht. pose proof (rw_count _ Hwf).
  unfold write_round, writes. cbn zeta.
  destruct (Z.ltb_spec total (Z.of_nat (length src))) as [Hlt|Hge]; cbn [negb].
  2: { eexists _, _, _, _. split; [done|]. rewrite app_nil_r. destruct (Z.leb_spec (Z.of_nat (length src)) total); [done|lia]. }
  destruct (Z.leb_spec (Z.of_nat (length src)) total); [lia|].
  destruct (fill_spec src p total Hwf Ht) as (q & t' & -> & Hq & Hc & Ht' & Hn & Hend & Hp). cbn [mbind option_bind].
  pose proof (rw_count _ Hq).
  replace (total + Z.min (Z.of_nat (length src) - total) (PIPE_BUF_SIZE - pp_count p)) with t' by lia.
  destruct (wake_reader_spec q) as (ev & -> & Hev).
  assert (forall r l, pp_blocked_reader p = Some r -> EvUnblock r ∈ ev ++ l) as Hev'.
  { intros r l Hr. apply elem_of_app. left. apply Hev. rewrite Hp. done. }
  assert (same_ends p q) as Hsame by (rewrite Hp; done). cbn -[contents].
  assert (forall r w, contents (pipe_set_blocked q r w) = contents q) as Hcb by done.
  destruct (Z.ltb_spec t' (Z.of_nat (length src))), (Z.eqb_spec t' (Z.of_nat (length src))); try lia.
  - assert (pp_rd_refcount q = pp_rd_refcount p) as -> by apply Hsame.
    destruct (pp_rd_refcount p <=? 0), nonblock; eexists _, _, _, _; (split; [done|]);
      (split; [by rewrite ?ring_wf_blocked|]); (split; [done|]); rewrite ?Hcb;
      (split; [done|]); split_and!; try done; try (cbn; lia); try (intros; rewrite <-?app_assoc; by apply Hev').
    + apply elem_of_app. right. by apply list_elem_of_singleton.
    + rewrite Hp. done.
    + apply elem_of_app. right. by apply list_elem_of_singleton.
    + rewrite Hp. done.
    + rewrite Hp. done.
  - subst t'. eexists _, _, _, _. split; [done|]. split; [by apply ring_wf_blocked|]. split; [done|].
    split; [done|]. split_and!; try done; [intros; by apply Hev'|]. rewrite Hp. done.
Qed.

(** ** Tasks on the table of pipes *)

(** A system call that sleeps in [task_block]. *)
Inductive pcall :=
  | CRead (pi count : Z)
  | CWrite (pi : Z) (src : list Z) (total : Z).

(** [sy_woken] are the sleeping tasks that [task_unblock] was called for since they went
    to sleep; [sy_written] and [sy_read] are the bytes that went in and out of a pipe since
    it was opened. *)
Record pipe_sys := mk_sys {
  sy_pipes : list pipe_t;
  sy_sleep : gmap Z pcall;
  sy_woken : gset Z;
  sy_written : Z -> list Z;
  sy_read : Z -> list Z;
}.

Definition upd (f : Z -> list Z) (k : Z) (v : list Z) : Z -> list Z := fun i => if i =? k then v else f i.

Definition unblocked (ev : list event) : gset Z :=
  list_to_set (omap (fun e => match e with EvUnblock t => Some t | _ => None end) ev).

Definition out_data (o : outcome) : list Z := match o with Ret _ d => d | Block _ => [] end.

(** The sleep table after task [t] ran the call [c] to the outcome [o]. *)
Definition sleep_after (sl : gmap Z pcall) (t : Z) (c : pcall) (o : outcome) : gmap Z pcall :=
  match o, c with
  | Ret _ _, _ => delete t sl
  | Block _, CRead pi count => <[t := CRead pi count]> sl
  | Block total, CWrite pi src _ => <[t := CWrite pi src total]> sl
  end.

Definition call_pipe (c : pcall) : Z := match c with CRead pi _ => pi | CWrite pi _ _ => pi end.

(** Task [t] may run [c]: for the first time, or as the call it sleeps in. *)
Definition may_run (s : pipe_sys) (enter : bool) (t : Z) (c : pcall) : Prop :=
  if enter then sy_sleep s !! t = None else sy_sleep s !! t = Some c.

Inductive pipe_sys_step (s : pipe_sys) : pipe_sys -> Prop :=
  | ss_read enter t intr pi count nonblock g ev o :
      0 < count -> may_run s enter t (CRead pi count) ->
      pipe_read_endpoint enter t intr (sy_pipes s) pi count nonblock = Some (g, ev, o) ->
      pipe_sys_step s (mk_sys g (sleep_after (sy_sleep s) t (CRead pi count) o)
        ((sy_woken s ∖ {[t]}) ∪ unblocked ev) (sy_written s)
        (upd (sy_read s) pi (sy_read s pi ++ out_data o)))
  | ss_write enter t pi src total nonblock g ev o data :
      may_run s enter t (CWrite pi src total) ->
      pipe_write_endpoint enter t (sy_pipes s) pi src total nonblock = Some (g, ev, o, data) ->
      pipe_sys_step s (mk_sys g (sleep_after (sy_sleep s) t (CWrite pi src total) o)
        ((sy_woken s ∖ {[t]}) ∪ unblocked ev)
        (upd (sy_written s) pi (sy_written s pi ++ data)) (sy_read s))
  | ss_ref pi is_write_end :
      pipe_sys_step s (mk_sys (pipe_ref_endpoint (sy_pipes s) pi is_write_end)
        (sy_sleep s) (sy_woken s) (sy_written s) (sy_read s))
  | ss_close pi is_write_end g ev :
      pipe_close_endpoint (sy_pipes s) pi is_write_end = (g, ev) ->
      pipe_sys_step s (mk_sys g (sy_sleep s) (sy_woken s ∪ unblocked ev) (sy_written s) (sy_read s))
  | ss_open pi rd_pool wr_pool :
      pipe_slot_alloc (sy_pipes s) = pi -> 0 <= pi ->
      pipe_sys_step s (mk_sys (pipe_open (sy_pipes s) pi rd_pool wr_pool)
        (sy_sleep s) (sy_woken s) (upd (sy_written s) pi []) (upd (sy_read s) pi [])).

Definition pipe_sys_init : pipe_sys :=
  mk_sys (replicate (Z.to_nat PIPE_MAX) pipe_zero) ∅ ∅ (fun _ => []) (fun _ => []).

Definition table_wf (g : list pipe_t) : Prop :=
  Z.of_nat (length g) = PIPE_MAX /\ forall i, 0 <= i < PIPE_MAX -> ring_wf (pipe_at g i).

Lemma pipe_at_aset g pi p i :
  Z.of_nat (length g) = PIPE_MAX -> 0 <= pi < PIPE_MAX -> 0 <= i ->
  pipe_at (aset g pi p) i = if i =? pi then p else pipe_at g i.
Proof.
  intros Hl Hpi Hi. unfold pipe_at. destruct (Z.eqb_spec i pi) as [->|].
  - apply aget_aset_eq. lia.
  - apply aget_aset_ne; lia.
Qed.

Lemma pipe_get_by_idx_Some g pi p :
  pipe_get_by_idx g pi = Some p <-> 0 <= pi < PIPE_MAX /\ pipe_free p = false /\ p = pipe_at g pi.
Proof.
  unfold pipe_get_by_idx. destruct (Z.ltb_spec pi 0), (Z.leb_spec PIPE_MAX pi); cbn [orb];
    [split; [done|lia]..|]. destruct (pipe_free (pipe_at g pi)) eqn:E.
  - split; [done|]. intros (_ & Hf & ->). congruence.
  - split; [intros [= <-]; done|]. by intros (_ & _ & ->).
Qed.

(** The pipe as a run finds it: on its way back from [task_block] the caller
    has emptied its slot. *)
Definition entered_read (enter : bool) (g : list pipe_t) (pi : Z) : pipe_t :=
  let p := pipe_at g pi in if enter then p else pipe_set_blocked p None (pp_blocked_writer p).
Definition entered_write (enter : bool) (g : list pipe_t) (pi : Z) : pipe_t :=
  let p := pipe_at g pi in if enter then p else pipe_set_blocked p (pp_blocked_reader p) None.

Lemma pipe_read_endpoint_spec enter cur intr g pi count nonblock :
  table_wf g -> 0 <= count -> (enter = false -> 0 <= pi < PIPE_MAX) ->
  exists g' ev o, pipe_read_endpoint enter cur intr g pi count nonblock = Some (g', ev, o) /\
    ((g' = g /\ ev = [] /\ o = Ret (-1) [] /\ enter = true) \/
     (0 <= pi < PIPE_MAX /\ exists p', g' = aset g pi p' /\ ring_wf p' /\
        (enter = true -> 0 < pp_rd_refcount (pipe_at g pi)) /\
        same_ends (pipe_at g pi) p' /\ reads cur intr nonblock count (entered_read enter g pi) p' ev o)).
Proof.
  intros [Hlen Hg] Hcount Hpi. unfold pipe_read_endpoint, entered_read. destruct enter.
  - destruct (pipe_get_by_idx g pi) as [p|] eqn:E; [|eexists _, _, _; split; [done|by left]].
    apply pipe_get_by_idx_Some in E as (Hr & _ & ->).
    destruct (Z.leb_spec (pp_rd_refcount (pipe_at g pi)) 0); [eexists _, _, _; split; [done|by left]|].
    destruct (read_round_spec cur intr nonblock count (pipe_at g pi)) as (p' & ev & o & -> & ? & ? & ?); [auto..|].
    eexists _, _, _. split; [done|]. right. split; [done|]. eexists. split_and!; done.
  - specialize (Hpi eq_refl).
    destruct (read_round_spec cur intr nonblock count
      (pipe_set_blocked (pipe_at g pi) None (pp_blocked_writer (pipe_at g pi)))) as (p' & ev & o & -> & ? & ? & ?);
      [by apply ring_wf_blocked, Hg|done|].
    eexists _, _, _. split; [done|]. right. split; [done|]. eexists. split_and!; done.
Qed.

Lemma pipe_write_endpoint_spec enter cur g pi src total nonblock :
  table_wf g -> (enter = false -> 0 <= pi < PIPE_MAX /\ 0 <= total <= Z.of_nat (length src)) ->
  exists g' ev o data, pipe_write_endpoint enter cur g pi src total nonblock = Some (g', ev, o, data) /\
    ((g' = g /\ unblocked ev = ∅ /\ data = [] /\ (o = Ret (-1) [] \/ o = Ret (-32) []) /\ enter = true) \/
     (0 <= pi < PIPE_MAX /\ exists p', g' = aset g pi p' /\ ring_wf p' /\
        (enter = true -> 0 < pp_rd_refcount (pipe_at g pi)) /\
        same_ends (pipe_at g pi) p' /\
        writes cur nonblock src (if enter then 0 else total) (entered_write enter g pi) p' ev o data)).
Proof.
  intros [Hlen Hg] Hres. unfold pipe_write_endpoint, entered_write. destruct enter.
  - destruct (pipe_get_by_idx g pi) as [p|] eqn:E; [|eexists _, _, _, _; split; [done|left; split_and!; try done; auto]].
    apply pipe_get_by_idx_Some in E as (Hr & _ & ->).
    destruct (Z.leb_spec (pp_wr_refcount (pipe_at g pi)) 0); [eexists _, _, _, _; split; [done|left; split_and!; try done; auto]|].
    destruct (Z.leb_spec (pp_rd_refcount (pipe_at g pi)) 0); [eexists _, _, _, _; split; [done|left; split_and!; try done; auto]|].
    destruct (write_round_spec cur nonblock src 0 (pipe_at g pi)) as (p' & ev & o & data & -> & ? & ? & ?); [auto|lia|].
    eexists _, _, _, _. split; [done|]. right. split; [done|]. eexists. split_and!; done.
  - destruct (Hres eq_refl) as [Hpi Ht].
    destruct (write_round_spec cur nonblock src total
      (pipe_set_blocked (pipe_at g pi) (pp_blocked_reader (pipe_at g pi)) None))
      as (p' & ev & o & data & -> & ? & ? & ?); [by apply ring_wf_blocked, Hg|done|].
    eexists _, _, _, _. split; [done|]. right. split; [done|]. eexists. split_and!; done.
Qed.

(** *** First in, first out *)

Definition call_ok (c : pcall) : Prop :=
  match c with
  | CRead pi count => 0 <= pi < PIPE_MAX /\ 0 < count
  | CWrite pi src total => 0 <= pi < PIPE_MAX /\ 0 <= total <= Z.of_nat (length src)
  end.

Record fifo_inv (s : pipe_sys) : Prop := {
  fi_table : table_wf (sy_pipes s);
  fi_calls : map_Forall (fun _ c => call_ok c) (sy_sleep s);
  fi_stream : forall pi, 0 <= pi < PIPE_MAX ->
    sy_written s pi = sy_read s pi ++ contents (pipe_at (sy_pipes s) pi);
}.

Lemma pipe_zero_wf : ring_wf pipe_zero.
Proof. split; cbn; [by rewrite length_replicate|lia|done|lia]. Qed.

Lemma fifo_init : fifo_inv pipe_sys_init.
Proof.
  split; cbn.
  - split; [done|]. intros i Hi. unfold pipe_at, aget.
    rewrite lookup_replicate_2 by (unfold PIPE_MAX in *; lia). apply pipe_zero_wf.
  - by intros t c ?%lookup_empty_Some.
  - intros pi Hpi. unfold pipe_at, aget. by rewrite lookup_replicate_2 by (unfold PIPE_MAX in *; lia).
Qed.

(** An update of one pipe of the table. *)
Lemma table_wf_aset g pi p : table_wf g -> 0 <= pi < PIPE_MAX -> ring_wf p -> table_wf (aset g pi p).
Proof.
  intros [Hl Hg] Hpi Hp. split; [by rewrite length_aset|]. intros i Hi.
  rewrite pipe_at_aset by (done || lia). destruct (i =? pi); auto.
Qed.

Lemma sleep_after_ok sl t c o :
  map_Forall (fun _ c => call_ok c) sl -> 0 <= call_pipe c < PIPE_MAX ->
  match c with
  | CRead _ count => 0 < count
  | CWrite _ src _ => forall total, o = Block total -> 0 <= total <= Z.of_nat (length src)
  end ->
  map_Forall (fun _ c => call_ok c) (sleep_after sl t c o).
Proof.
  intros Hsl Hpi Ho. destruct o as [r d|total]; cbn; [by apply map_Forall_delete|].
  destruct c as [pi count|pi src t0]; apply map_Forall_insert_2; try done. split; [done|]. by apply Ho.
Qed.

Lemma reads_stream cur intr nonblock count p p' ev o :
  0 <= pp_count p -> reads cur intr nonblock count p p' ev o -> contents p = out_data o ++ contents p'.
Proof.
  unfold reads. cbn zeta. intros Hc. case_if.
  - intros (-> & -> & _). cbn. by rewrite take_drop.
  - intros (-> & _ & _ & H). repeat case_if_in H; by destruct H as [-> _].
Qed.

Lemma writes_stream cur nonblock src total p p' ev o data :
  writes cur nonblock src total p p' ev o data -> contents p' = contents p ++ data.
Proof. by intros [H _]. Qed.

Lemma writes_block cur nonblock src total p p' ev data total' :
  0 <= total <= Z.of_nat (length src) -> 0 <= pp_count p <= PIPE_BUF_SIZE ->
  writes cur nonblock src total p p' ev (Block total') data -> 0 <= total' <= Z.of_nat (length src).
Proof.
  intros Ht Hc [_ H]. case_if_in H; [by destruct H as (_ & _ & ?)|]. destruct H as (_ & _ & _ & H).
  case_if_in H; [by destruct H|]. destruct H as [_ H].
  case_if_in H; [by destruct H|]. destruct nonblock; [by destruct H|]. destruct H as [[= ->] _]. lia.
Qed.

Definition ring_same (p p' : pipe_t) : Prop :=
  pp_buf p' = pp_buf p /\ pp_rd p' = pp_rd p /\ pp_wr p' = pp_wr p /\ pp_count p' = pp_count p.

Lemma ring_same_contents p p' : ring_same p p' -> contents p' = contents p.
Proof. intros (Hb & Hr & _ & Hc). unfold contents. by rewrite Hb, Hr, Hc. Qed.

Lemma ring_same_wf p p' : ring_same p p' -> ring_wf p -> ring_wf p'.
Proof. intros (Hb & Hr & Hw & Hc) [????]. split; congruence. Qed.

Lemma pipe_ref_spec g pi w :
  pipe_ref_endpoint g pi w = g \/
  (0 <= pi < PIPE_MAX /\ exists p', pipe_ref_endpoint g pi w = aset g pi p' /\ ring_same (pipe_at g pi) p').
Proof.
  unfold pipe_ref_endpoint. destruct (pipe_get_by_idx g pi) as [p|] eqn:E; [right|by left].
  apply pipe_get_by_idx_Some in E as (Hpi & _ & ->). split; [done|]. destruct w; by eexists.
Qed.

Lemma pipe_close_spec g pi w g' ev :
  pipe_close_endpoint g pi w = (g', ev) ->
  g' = g \/ (0 <= pi < PIPE_MAX /\ exists p', g' = aset g pi p' /\ ring_same (pipe_at g pi) p').
Proof.
  unfold pipe_close_endpoint. destruct (pipe_get_by_idx g pi) as [p|] eqn:E; [|by intros [= <- _]; left].
  apply pipe_get_by_idx_Some in E as (Hpi & _ & ->). intros H. right. split; [done|].
  destruct w; case_if_in H; simplify_eq; try (by eexists).
  - destruct (wake_reader_spec (pipe_set_refs (pipe_at g pi) (pp_rd_refcount (pipe_at g pi)) 0)) as (e & Hw & _).
    rewrite Hw in H. simplify_eq. by eexists.
  - destruct (wake_writer_spec (pipe_set_refs (pipe_at g pi) 0 (pp_wr_refcount (pipe_at g pi)))) as (e & Hw & _).
    rewrite Hw in H. simplify_eq. by eexists.
Qed.

Lemma upd_same f k v : upd f k v k = v.
Proof. unfold upd. by rewrite Z.eqb_refl. Qed.

Lemma upd_other f k v i : i <> k -> upd f k v i = f i.
Proof. intros. unfold upd. by destruct (Z.eqb_spec i k). Qed.

(** A step that leaves the pipes alone, and one that changes one pipe together with its streams. *)
Lemma fifo_same s sl wk w r :
  fifo_inv s -> map_Forall (fun _ c => call_ok c) sl ->
  (forall i, w i = sy_written s i /\ r i = sy_read s i) ->
  fifo_inv (mk_sys (sy_pipes s) sl wk w r).
Proof.
  intros [Ht Hc Hs] Hsl Hwr. split; cbn; [done..|]. intros i Hi. destruct (Hwr i) as [-> ->]. auto.
Qed.

Lemma fifo_update s pi p' sl wk w r :
  fifo_inv s -> map_Forall (fun _ c => call_ok c) sl -> 0 <= pi < PIPE_MAX -> ring_wf p' ->
  w pi = r pi ++ contents p' -> (forall i, i <> pi -> w i = sy_written s i /\ r i = sy_read s i) ->
  fifo_inv (mk_sys (aset (sy_pipes s) pi p') sl wk w r).
Proof.
  intros [Ht Hc Hs] Hsl Hpi Hp' Hw Hwr. split; cbn; [by apply table_wf_aset|done|].
  intros i Hi. rewrite pipe_at_aset by (apply Ht || lia). destruct (Z.eqb_spec i pi) as [->|]; [done|].
  destruct (Hwr i) as [-> ->]; auto.
Qed.

(** A step that changes one pipe but not its ring. *)
Lemma fifo_ring_same s pi p' sl wk :
  fifo_inv s -> map_Forall (fun _ c => call_ok c) sl -> 0 <= pi < PIPE_MAX ->
  ring_same (pipe_at (sy_pipes s) pi) p' ->
  fifo_inv (mk_sys (aset (sy_pipes s) pi p') sl wk (sy_written s) (sy_read s)).
Proof.
  intros Hinv Hsl Hpi Hsame. apply fifo_update; try done.
  - eapply ring_same_wf; [done|]. by apply Hinv.
  - rewrite (ring_same_contents _ _ Hsame). by apply Hinv.
Qed.

Lemma pipe_slot_alloc_range g : pipe_slot_alloc g < PIPE_MAX.
Proof.
  unfold pipe_slot_alloc. destruct (filter _ _) as [|i l] eqn:E; cbn; [done|].
  assert (i ∈ filter (fun i => pipe_free (pipe_at g i) = true) (seqZ 0 PIPE_MAX)) as Hin by (rewrite E; set_solver).
  apply list_elem_of_filter in Hin as [_ Hin]. apply elem_of_seqZ in Hin. lia.
Qed.

Lemma may_run_ok s enter t c : fifo_inv s -> may_run s enter t c -> enter = false -> call_ok c.
Proof. intros [_ Hc _] Hrun ->. cbn in Hrun. by apply (Hc t). Qed.

Lemma entered_read_contents enter g pi : contents (entered_read enter g pi) = contents (pipe_at g pi).
Proof. by destruct enter. Qed.

Lemma entered_write_contents enter g pi : contents (entered_write enter g pi) = contents (pipe_at g pi).
Proof. by destruct enter. Qed.

Lemma fifo_read s enter t intr pi count nonblock g ev o :
  fifo_inv s -> 0 < count -> may_run s enter t (CRead pi count) ->
  pipe_read_endpoint enter t intr (sy_pipes s) pi count nonblock = Some (g, ev, o) ->
  forall wk, fifo_inv (mk_sys g (sleep_after (sy_sleep s) t (CRead pi count) o) wk (sy_written s)
    (upd (sy_read s) pi (sy_read s pi ++ out_data o))).
Proof.
  intros Hinv Hcount Hrun E wk. pose proof Hinv as [Ht Hc Hs].
  destruct (pipe_read_endpoint_spec enter t intr (sy_pipes s) pi count nonblock Ht) as (g' & ev' & o' & E' & H);
    [lia|intros ->; by apply (may_run_ok _ _ _ _ Hinv Hrun)|].
  rewrite E in E'. simplify_eq. destruct H as [(-> & -> & -> & ->)|(Hpi & p' & -> & Hp' & _ & _ & Hr)].
  - apply fifo_same; [done|by apply map_Forall_delete|]. intros i. split; [done|].
    destruct (decide (i = pi)) as [->|]; [by rewrite upd_same, app_nil_r|by rewrite upd_other].
  - apply fifo_update; try done.
    + by apply sleep_after_ok.
    + apply reads_stream in Hr; [|destruct enter; apply Ht; lia].
      rewrite entered_read_contents in Hr. rewrite upd_same, <-app_assoc, <-Hr. by apply Hs.
    + intros i Hi. by rewrite upd_other.
Qed.

Lemma fifo_write s enter t pi src total nonblock g ev o data :
  fifo_inv s -> may_run s enter t (CWrite pi src total) ->
  pipe_write_endpoint enter t (sy_pipes s) pi src total nonblock = Some (g, ev, o, data) ->
  forall wk, fifo_inv (mk_sys g (sleep_after (sy_sleep s) t (CWrite pi src total) o) wk
    (upd (sy_written s) pi (sy_written s pi ++ data)) (sy_read s)).
Proof.
  intros Hinv Hrun E wk. pose proof Hinv as [Ht Hc Hs].
  assert (enter = false -> call_ok (CWrite pi src total)) as Hok by by apply (may_run_ok s enter t).
  destruct (pipe_write_endpoint_spec enter t (sy_pipes s) pi src total nonblock Ht Hok) as (g' & ev' & o' & d' & E' & H).
  rewrite E in E'. simplify_eq. destruct H as [(-> & _ & -> & Ho & ->)|(Hpi & p' & -> & Hp' & _ & _ & Hr)].
  - apply fifo_same; [done|destruct Ho as [-> | ->]; by apply map_Forall_delete|]. intros i. split; [|done].
    destruct (decide (i = pi)) as [->|]; [by rewrite upd_same, app_nil_r|by rewrite upd_other].
  - assert (0 <= (if enter then 0 else total) <= Z.of_nat (length src)) as Hb.
    { destruct enter; [lia|]. by apply Hok. }
    apply fifo_update; try done.
    + apply sleep_after_ok; [done..|]. intros t' ->.
      eapply writes_block in Hr; [done|done|]. destruct enter; apply Ht; lia.
    + apply writes_stream in Hr. rewrite upd_same, Hr, entered_write_contents, Hs, app_assoc; done.
    + intros i Hi. by rewrite upd_other.
Qed.

Lemma fifo_step s s' : fifo_inv s -> pipe_sys_step s s' -> fifo_inv s'.
Proof.
  intros Hinv Hstep. pose proof Hinv as [Ht Hc Hs].
  destruct Hstep as [enter t intr pi count nonblock g ev o|enter t pi src total nonblock g ev o data
    |pi w|pi w g ev E|pi rp wp E Hpi].
  - by eapply fifo_read.
  - by eapply fifo_write.
  - destruct (pipe_ref_spec (sy_pipes s) pi w) as [->|(? & p' & -> & ?)]; [by apply fifo_same|by apply fifo_ring_same].
  - destruct (pipe_close_spec _ _ _ _ _ E) as [->|(? & p' & -> & ?)]; [by apply fifo_same|by apply fifo_ring_same].
  - apply fifo_update; try done.
    + pose proof (pipe_slot_alloc_range (sy_pipes s)). lia.
    + by rewrite !upd_same.
    + intros i Hi. by rewrite !upd_other.
Qed.


Definition demo_task : Z := 7.


(** *** No lost wake-up

    Each direction of a pipe has one slot for a sleeper, so the discipline under
    which no sleeper is forgotten is: at most one task sleeps per direction, it
    holds its end open, and the reference counts stay below the range of [int]. *)

Definition call_dir (c : pcall) : bool := match c with CRead _ _ => false | CWrite _ _ _ => true end.

Record disciplined (s : pipe_sys) : Prop := {
  di_excl : forall t1 t2 c1 c2, sy_sleep s !! t1 = Some c1 -> sy_sleep s !! t2 = Some c2 ->
    call_pipe c1 = call_pipe c2 -> call_dir c1 = call_dir c2 -> t1 = t2;
  di_open : forall t c, sy_sleep s !! t = Some c -> pipe_free (pipe_at (sy_pipes s) (call_pipe c)) = false;
  di_refs : forall i, 0 <= i < PIPE_MAX ->
    pp_rd_refcount (pipe_at (sy_pipes s) i) < 2147483647 /\ pp_wr_refcount (pipe_at (sy_pipes s) i) < 2147483647;
}.

Definition pipe_step1 (s s' : pipe_sys) : Prop := pipe_sys_step s s' /\ disciplined s'.

Definition slot (d : bool) (p : pipe_t) : option Z := if d then pp_blocked_writer p else pp_blocked_reader p.

Record wake_inv (s : pipe_sys) : Prop := {
  wi_fifo : fifo_inv s;
  wi_disc : disciplined s;
  wi_pipes : forall i, 0 <= i < PIPE_MAX -> pipe_inv (pipe_at (sy_pipes s) i);
  wi_sleep : forall t c, sy_sleep s !! t = Some c ->
    t ∈ sy_woken s \/ slot (call_dir c) (pipe_at (sy_pipes s) (call_pipe c)) = Some t;
}.

Lemma elem_unblocked t ev : EvUnblock t ∈ ev -> t ∈ unblocked ev.
Proof. intros H. unfold unblocked. apply elem_of_list_to_set, list_elem_of_omap. by exists (EvUnblock t). Qed.

Lemma contents_count p p' : ring_wf p -> ring_wf p' -> contents p' = contents p -> pp_count p' = pp_count p.
Proof. intros [] [] H. rewrite <-!length_contents by lia. by rewrite H. Qed.

Lemma pipe_inv_entered_read enter g pi : pipe_inv (pipe_at g pi) -> pipe_inv (entered_read enter g pi).
Proof. intros [????]. destruct enter; split; cbn; try done. by apply ring_wf_blocked. Qed.

Lemma pipe_inv_entered_write enter g pi : pipe_inv (pipe_at g pi) -> pipe_inv (entered_write enter g pi).
Proof. intros [????]. destruct enter; split; cbn; try done. by apply ring_wf_blocked. Qed.

Lemma reads_inv cur intr nonblock count p p' ev o :
  pipe_inv p -> 0 < count -> ring_wf p' -> same_ends p p' -> reads cur intr nonblock count p p' ev o -> pipe_inv p'.
Proof.
  intros Hinv Hcount Hp' (Er & Ew & _) H. pose proof Hinv as [Hwf Hrefs Hr Hw]. pose proof (rw_count _ Hwf).
  unfold reads in H. cbn zeta in H. case_if_in H.
  - destruct H as (_ & _ & Hbw & Hbr & _). split; [done|lia| |by rewrite Hbw].
    rewrite Hbr. intros [? _]%Hr. lia.
  - destruct H as (Hc & Hbw & _ & H). apply contents_count in Hc; [|done..].
    repeat case_if_in H; destruct H as [_ H]; subst; try done.
    split; [done|lia|intros; lia|]. rewrite Hbw. intros [? _]%Hw. lia.
Qed.

Lemma writes_inv cur nonblock src total p p' ev o data :
  pipe_inv p -> 0 <= total <= Z.of_nat (length src) -> ring_wf p' -> same_ends p p' ->
  writes cur nonblock src total p p' ev o data -> pipe_inv p'.
Proof.
  intros Hinv Ht Hp' (Er & Ew & _) [Hc H]. pose proof Hinv as [Hwf Hrefs Hr Hw]. pose proof (rw_count _ Hwf).
  cbn zeta in H. case_if_in H; [by destruct H as (-> & _)|]. destruct H as (_ & Hbr & _ & H).
  split; [done|lia|by rewrite Hbr|]. case_if_in H.
  - destruct H as [_ ->]. intros [? _]%Hw. lia.
  - destruct H as [Hfull H]. case_if_in H; [destruct H as (_ & _ & ->); intros [? ?]%Hw; lia|]. intros _. lia.
Qed.

Lemma wake_update s s' pi p' :
  wake_inv s -> fifo_inv s' -> disciplined s' -> sy_pipes s' = aset (sy_pipes s) pi p' ->
  0 <= pi < PIPE_MAX -> pipe_inv p' ->
  (forall t c, sy_sleep s' !! t = Some c ->
     if decide (call_pipe c = pi) then t ∈ sy_woken s' \/ slot (call_dir c) p' = Some t
     else sy_sleep s !! t = Some c /\ (t ∈ sy_woken s -> t ∈ sy_woken s')) ->
  wake_inv s'.
Proof.
  intros [Hf Hd Hp Hs] Hf' Hd' Hg Hpi Hp' H. split; [done..| |].
  - intros i Hi. rewrite Hg, pipe_at_aset by (apply Hf || lia). destruct (i =? pi); auto.
  - intros t c Hc. specialize (H t c Hc).
    assert (0 <= call_pipe c < PIPE_MAX) as Hr' by (pose proof (fi_calls _ Hf' t c Hc); destruct c; cbn in *; lia).
    rewrite Hg, pipe_at_aset by (apply Hf || lia). case_decide as Ep.
    + by rewrite Ep, Z.eqb_refl.
    + destruct (Z.eqb_spec (call_pipe c) pi); [done|]. destruct H as [H1 H2].
      destruct (Hs t c H1); auto.
Qed.

(** A step that changes no pipe and puts nobody to sleep. *)
Lemma wake_same s s' :
  wake_inv s -> fifo_inv s' -> disciplined s' -> sy_pipes s' = sy_pipes s ->
  (forall t c, sy_sleep s' !! t = Some c -> sy_sleep s !! t = Some c /\ (t ∈ sy_woken s -> t ∈ sy_woken s')) ->
  wake_inv s'.
Proof.
  intros [Hf Hd Hp Hs] Hf' Hd' Hg H. split; [done..|by rewrite Hg|].
  intros t c Hc. destruct (H t c Hc) as [H1 H2]. rewrite Hg. destruct (Hs t c H1); auto.
Qed.

Lemma sleep_after_lookup sl t c o t' c' :
  sleep_after sl t c o !! t' = Some c' ->
  (t' = t /\ call_pipe c' = call_pipe c /\ call_dir c' = call_dir c /\ exists total, o = Block total) \/
  (t' <> t /\ sl !! t' = Some c').
Proof.
  destruct o as [r d|total], c as [pi n|pi src t0]; cbn; intros H.
  1,2: apply lookup_delete_Some in H as [? ?]; right; by split.
  all: apply lookup_insert_Some in H as [[<- <-]|[? ?]]; [left; eauto 10|right; eauto].
Qed.

(** What a read does to the two slots. *)
Lemma reads_slots cur intr nonblock count p p' ev o :
  reads cur intr nonblock count p p' ev o ->
  (match o with Block _ => pp_blocked_reader p' = Some cur | Ret _ _ => pp_blocked_reader p' = pp_blocked_reader p end) /\
  forall w, pp_blocked_writer p = Some w -> pp_blocked_writer p' = Some w \/ w ∈ unblocked ev.
Proof.
  unfold reads. cbn zeta. intros H. case_if_in H.
  - destruct H as (-> & _ & _ & Hr & Hw). split; [done|]. intros w ?%Hw. right. by apply elem_unblocked.
  - destruct H as (_ & Hw & _ & H). split; [|rewrite Hw; auto].
    repeat case_if_in H; destruct H as [-> H]; subst; done.
Qed.

Lemma writes_slots cur nonblock src total p p' ev o data :
  writes cur nonblock src total p p' ev o data ->
  (match o with Block _ => pp_blocked_writer p' = Some cur | Ret _ _ => pp_blocked_writer p' = pp_blocked_writer p end) /\
  forall r, pp_blocked_reader p = Some r -> pp_blocked_reader p' = Some r \/ r ∈ unblocked ev.
Proof.
  intros [_ H]. cbn zeta in H. case_if_in H; [destruct H as (-> & _ & ->); auto|].
  destruct H as (_ & _ & Hr & H). split; [|intros r ?%Hr; right; by apply elem_unblocked].
  repeat case_if_in H; destruct_and?; subst; try done; naive_solver.
Qed.

Lemma woken_keep (t t' : Z) (W U : gset Z) : t' <> t -> t' ∈ W -> t' ∈ (W ∖ {[t]}) ∪ U.
Proof. set_solver. Qed.

Lemma wake_read s enter t intr pi count nonblock g ev o s' :
  wake_inv s -> 0 < count -> may_run s enter t (CRead pi count) ->
  pipe_read_endpoint enter t intr (sy_pipes s) pi count nonblock = Some (g, ev, o) ->
  fifo_inv s' -> disciplined s' -> sy_pipes s' = g ->
  sy_sleep s' = sleep_after (sy_sleep s) t (CRead pi count) o ->
  sy_woken s' = (sy_woken s ∖ {[t]}) ∪ unblocked ev -> wake_inv s'.
Proof.
  intros Hw Hcount Hrun E Hf' Hd' Hg Hsl Hwk. pose proof Hw as [Hf Hd Hp Hs].
  destruct (pipe_read_endpoint_spec enter t intr (sy_pipes s) pi count nonblock (fi_table _ Hf))
    as (g' & ev' & o' & E' & H); [lia|intros ->; by apply (may_run_ok _ _ _ _ Hf Hrun)|].
  rewrite E in E'. injection E' as <- <- <-. destruct H as [(-> & -> & -> & ->)|(Hpi & p' & -> & Hp' & _ & Hends & Hr)].
  { apply (wake_same s); try done. intros t' c' Hc. rewrite Hsl in Hc. cbn in Hc.
    apply lookup_delete_Some in Hc as [Hne Hc]. split; [done|]. rewrite Hwk. intros ?. apply woken_keep; done. }
  apply (wake_update s s' pi p'); try done.
  { eapply reads_inv, Hr; [by apply pipe_inv_entered_read, Hp|done|done|by destruct enter]. }
  apply reads_slots in Hr as [Hreader Hwriter].
  intros t' c' Hc. pose proof Hc as Hc0. rewrite Hsl in Hc.
  apply sleep_after_lookup in Hc as [(-> & -> & -> & [total ->])|[Hne Hc]]; cbn.
  { rewrite decide_True by done. by right. }
  case_decide as Epi; [|split; [done|rewrite Hwk; intros ?; apply woken_keep; done]]. rewrite Hwk.
  destruct (Hs t' c' Hc) as [?|Hslot]; [left; apply woken_keep; done|]. rewrite Epi in Hslot. destruct (call_dir c') eqn:Ed; cbn in *.
  - destruct (Hwriter t') as [?|?]; [by destruct enter|by right|left; by apply elem_of_union_r].
  - destruct o as [r d|total].
    + right. rewrite Hreader. destruct enter; [done|]. destruct Hne.
      by apply (di_excl _ Hd t' t c' (CRead pi count)).
    + destruct Hne. apply (di_excl _ Hd' t' t c' (CRead pi count)); try done. rewrite Hsl. cbn. by rewrite lookup_insert_eq.
Qed.

Lemma wake_write s enter t pi src total nonblock g ev o data s' :
  wake_inv s -> may_run s enter t (CWrite pi src total) ->
  pipe_write_endpoint enter t (sy_pipes s) pi src total nonblock = Some (g, ev, o, data) ->
  fifo_inv s' -> disciplined s' -> sy_pipes s' = g ->
  sy_sleep s' = sleep_after (sy_sleep s) t (CWrite pi src total) o ->
  sy_woken s' = (sy_woken s ∖ {[t]}) ∪ unblocked ev -> wake_inv s'.
Proof.
  intros Hw Hrun E Hf' Hd' Hg Hsl Hwk. pose proof Hw as [Hf Hd Hp Hs].
  assert (enter = false -> call_ok (CWrite pi src total)) as Hok by by apply (may_run_ok s enter t).
  destruct (pipe_write_endpoint_spec enter t (sy_pipes s) pi src total nonblock (fi_table _ Hf) Hok)
    as (g' & ev' & o' & d' & E' & H).
  rewrite E in E'. injection E' as <- <- <- <-. destruct H as [(-> & Hev & _ & Ho & ->)|(Hpi & p' & -> & Hp' & _ & Hends & Hr)].
  { apply (wake_same s); try done. intros t' c' Hc. rewrite Hsl in Hc.
    assert (delete t (sy_sleep s) !! t' = Some c') as [Hne Hc']%lookup_delete_Some by (by destruct Ho as [-> | ->]).
    split; [done|]. rewrite Hwk. intros ?. apply woken_keep; done. }
  apply (wake_update s s' pi p'); try done.
  { eapply writes_inv, Hr; [by apply pipe_inv_entered_write, Hp| |done|by destruct enter].
    destruct enter; [lia|by apply Hok]. }
  apply writes_slots in Hr as [Hwriter Hreader].
  intros t' c' Hc. pose proof Hc as Hc0. rewrite Hsl in Hc.
  apply sleep_after_lookup in Hc as [(-> & -> & -> & [tot ->])|[Hne Hc]]; cbn.
  { rewrite decide_True by done. by right. }
  case_decide as Epi; [|split; [done|rewrite Hwk; intros ?; apply woken_keep; done]]. rewrite Hwk.
  destruct (Hs t' c' Hc) as [?|Hslot]; [left; apply woken_keep; done|]. rewrite Epi in Hslot. destruct (call_dir c') eqn:Ed; cbn in *.
  - destruct o as [r d|tot].
    + right. rewrite Hwriter. destruct enter; [done|]. destruct Hne.
      by apply (di_excl _ Hd t' t c' (CWrite pi src total)).
    + destruct Hne. apply (di_excl _ Hd' t' t c' (CWrite pi src tot)); try done. rewrite Hsl. cbn. by rewrite lookup_insert_eq.
  - destruct (Hreader t') as [?|?]; [by destruct enter|by right|left; by apply elem_of_union_r].
Qed.

Lemma pipe_ref_inv g pi w :
  pipe_inv (pipe_at g pi) -> pp_rd_refcount (pipe_at g pi) < 2147483647 -> pp_wr_refcount (pipe_at g pi) < 2147483647 ->
  pipe_ref_endpoint g pi w = g \/
  (0 <= pi < PIPE_MAX /\ exists p', pipe_ref_endpoint g pi w = aset g pi p' /\ pipe_inv p' /\
     forall d, slot d p' = slot d (pipe_at g pi)).
Proof.
  intros [Hwf Hrefs Hr Hw] ??. unfold pipe_ref_endpoint. destruct (pipe_get_by_idx g pi) as [p|] eqn:E; [right|by left].
  apply pipe_get_by_idx_Some in E as (Hpi & _ & ->). split; [done|].
  destruct w; eexists; (split; [done|]); (split; [|by intros []]); rewrite i32_id by lia;
    split; cbn; try lia; try (by destruct Hwf; split); try done.
  - intros [? ?]%Hr. lia.
  - intros [? ?]%Hw. lia.
Qed.

Lemma pipe_close_inv g pi w g' ev :
  pipe_close_endpoint g pi w = (g', ev) -> pipe_inv (pipe_at g pi) ->
  pp_rd_refcount (pipe_at g pi) < 2147483647 -> pp_wr_refcount (pipe_at g pi) < 2147483647 ->
  g' = g \/
  (0 <= pi < PIPE_MAX /\ exists p', g' = aset g pi p' /\ pipe_inv p' /\
     forall d t, slot d (pipe_at g pi) = Some t -> slot d p' = Some t \/ t ∈ unblocked ev).
Proof.
  unfold pipe_close_endpoint. intros H [Hwf Hrefs Hr Hw] ??.
  destruct (pipe_get_by_idx g pi) as [p|] eqn:E; [right|by left; injection H].
  apply pipe_get_by_idx_Some in E as (Hpi & _ & ->). split; [done|]. rewrite i32_id, (i32_id (pp_rd_refcount _ - 1)) in H by lia.
  destruct w; case_if_in H.
  - destruct (wake_reader_spec (pipe_set_refs (pipe_at g pi) (pp_rd_refcount (pipe_at g pi)) 0)) as (e & Hk & He).
    rewrite Hk in H. injection H as <- <-. eexists. split; [done|]. split; [split; cbn; try done; try lia; by destruct Hwf; split|].
    intros [] t Ht; cbn in *; [by left|right]. apply elem_unblocked, elem_of_app. left. by apply He.
  - injection H as <- <-. eexists. split; [done|]. split; [|by intros []; left].
    split; cbn; try done; try lia; [by destruct Hwf; split|]. intros [? ?]%Hr. lia.
  - destruct (wake_writer_spec (pipe_set_refs (pipe_at g pi) 0 (pp_wr_refcount (pipe_at g pi)))) as (e & Hk & He).
    rewrite Hk in H. injection H as <- <-. eexists. split; [done|]. split; [split; cbn; try done; try lia; by destruct Hwf; split|].
    intros [] t Ht; cbn in *; [right|by left]. apply elem_unblocked, elem_of_app. left. by apply He.
  - injection H as <- <-. eexists. split; [done|]. split; [|by intros []; left].
    split; cbn; try done; try lia; [by destruct Hwf; split|]. intros [? ?]%Hw. lia.
Qed.

Lemma pipe_slot_alloc_free g pi : pipe_slot_alloc g = pi -> 0 <= pi -> pipe_free (pipe_at g pi) = true.
Proof.
  unfold pipe_slot_alloc. destruct (filter _ _) as [|i l] eqn:E; cbn; [lia|]. intros <- _.
  assert (i ∈ filter (fun i => pipe_free (pipe_at g i) = true) (seqZ 0 PIPE_MAX)) as Hin by (rewrite E; set_solver).
  by apply list_elem_of_filter in Hin as [? _].
Qed.

(** A step that only changes one pipe, and keeps or wakes its sleepers. *)
Lemma wake_slots s s' pi p' :
  wake_inv s -> fifo_inv s' -> disciplined s' -> sy_pipes s' = aset (sy_pipes s) pi p' ->
  sy_sleep s' = sy_sleep s -> sy_woken s ⊆ sy_woken s' -> 0 <= pi < PIPE_MAX -> pipe_inv p' ->
  (forall d t, slot d (pipe_at (sy_pipes s) pi) = Some t -> slot d p' = Some t \/ t ∈ sy_woken s') -> wake_inv s'.
Proof.
  intros Hw Hf' Hd' Hg Hsl Hwk Hpi Hp' Hslot. apply (wake_update s s' pi p'); try done.
  intros t c Hc. rewrite Hsl in Hc. case_decide as E; [|by auto].
  destruct (wi_sleep _ Hw t c Hc) as [?|H]; [by auto|]. rewrite E in H. destruct (Hslot _ _ H); auto.
Qed.

Lemma wake_step s s' : wake_inv s -> pipe_step1 s s' -> wake_inv s'.
Proof.
  intros Hw [Hstep Hd']. pose proof Hw as [Hf Hd Hp Hs]. pose proof (fifo_step _ _ Hf Hstep) as Hf'.
  destruct Hstep as [enter t intr pi count nonblock g ev o Hc Hrun E|enter t pi src total nonblock g ev o data Hrun E
    |pi w|pi w g ev E|pi rp wp E Hpi].
  - by eapply wake_read.
  - by eapply wake_write.
  - destruct (pipe_get_by_idx (sy_pipes s) pi) as [p|] eqn:Eg.
    2: { apply (wake_same s); try done. cbn. unfold pipe_ref_endpoint. by rewrite Eg. }
    apply pipe_get_by_idx_Some in Eg as (Hpi & _ & _). destruct (di_refs _ Hd pi Hpi).
    destruct (pipe_ref_inv (sy_pipes s) pi w) as [Eg|(_ & p' & Eg & Hp' & Hsl)]; [by apply Hp|done|done| |].
    + by apply (wake_same s).
    + eapply (wake_slots s _ pi p'); try done. intros d t <-. by left.
  - destruct (pipe_get_by_idx (sy_pipes s) pi) as [p|] eqn:Eg.
    2: { unfold pipe_close_endpoint in E. rewrite Eg in E. injection E as <- <-. apply (wake_same s); try done. cbn. intros t c Hc. split; [done|]. apply elem_of_union_l. }
    apply pipe_get_by_idx_Some in Eg as (Hpi & _ & _). destruct (di_refs _ Hd pi Hpi).
    destruct (pipe_close_inv (sy_pipes s) pi w g ev E) as [Eg|(_ & p' & Eg & Hp' & Hsl)]; [by apply Hp|done|done| |].
    + apply (wake_same s); try done. cbn. intros t c Hc. split; [done|]. apply elem_of_union_l.
    + eapply (wake_slots s _ pi p'); try done; [cbn; apply union_subseteq_l|]. intros d t Ht. cbn.
      destruct (Hsl d t Ht); [by left|right; by apply elem_of_union_r].
  - pose proof (pipe_slot_alloc_range (sy_pipes s)). pose proof (pipe_slot_alloc_free _ _ E Hpi) as Hfree.
    apply (wake_update s _ pi (pipe_fresh rp wp)); try done; [lia|].
    intros t c Hc. cbn in *. case_decide as Ep; [|done].
    pose proof (di_open _ Hd t c Hc) as Ho. rewrite Ep in Ho. congruence.
Qed.

Lemma wake_init : wake_inv pipe_sys_init.
Proof.
  assert (forall i, 0 <= i < PIPE_MAX -> pipe_at (sy_pipes pipe_sys_init) i = pipe_zero) as Hz.
  { intros i Hi. unfold pipe_at, aget. cbn -[replicate]. by rewrite lookup_replicate_2 by (unfold PIPE_MAX in *; lia). }
  assert (forall t c, sy_sleep pipe_sys_init !! t = Some c -> False) as Hsl by (intros t c; cbn; by rewrite lookup_empty).
  split; [apply fifo_init|split| |].
  - by intros t1 t2 c1 c2 ?%Hsl.
  - by intros t c ?%Hsl.
  - intros i Hi. by rewrite Hz.
  - intros i Hi. rewrite Hz by done. split; done.
  - by intros t c ?%Hsl.
Qed.


(** [disciplined] of a state with at most one sleeper, by computation. *)
Definition refs_small (g : list pipe_t) : bool :=
  forallb (fun i => (pp_rd_refcount (pipe_at g i) <? 2147483647) && (pp_wr_refcount (pipe_at g i) <? 2147483647))
    (seqZ 0 PIPE_MAX).

Lemma disciplined_none s : sy_sleep s = ∅ -> refs_small (sy_pipes s) = true -> disciplined s.
Proof.
  intros Hsl Hrefs. split; rewrite ?Hsl; try (by intros * ?%lookup_empty_Some).
  intros i Hi. unfold refs_small in Hrefs. rewrite forallb_forall in Hrefs.
  specialize (Hrefs i). rewrite <-list_elem_of_In, elem_of_seqZ in Hrefs. specialize (Hrefs ltac:(lia)). zbool. done.
Qed.

Lemma disciplined_one s t c :
  sy_sleep s = {[t := c]} -> pipe_free (pipe_at (sy_pipes s) (call_pipe c)) = false ->
  refs_small (sy_pipes s) = true -> disciplined s.
Proof.
  intros Hsl Hfree Hrefs. split; rewrite ?Hsl.
  - intros t1 t2 c1 c2 [<- _]%lookup_singleton_Some [<- _]%lookup_singleton_Some. done.
  - by intros t1 c1 [_ <-]%lookup_singleton_Some.
  - apply (disciplined_none (mk_sys (sy_pipes s) ∅ ∅ (sy_written s) (sy_read s))); done.
Qed.

(** A pipe opened in slot 0, on which task 7 went to sleep in a read. *)
Definition demo_open : pipe_sys :=
  mk_sys (pipe_open (sy_pipes pipe_sys_init) 0 3 4) ∅ ∅
    (upd (sy_written pipe_sys_init) 0 []) (upd (sy_read pipe_sys_init) 0 []).

Definition demo_run (s : pipe_sys) (t count : Z) : list pipe_t * list event * outcome :=
  default (sy_pipes s, [], Ret 0 []) (pipe_read_endpoint true t false (sy_pipes s) 0 count false).

Definition demo_read (s : pipe_sys) (t count : Z) : pipe_sys :=
  mk_sys (demo_run s t count).1.1 (sleep_after (sy_sleep s) t (CRead 0 count) (demo_run s t count).2)
    ((sy_woken s ∖ {[t]}) ∪ unblocked (demo_run s t count).1.2) (sy_written s)
    (upd (sy_read s) 0 (sy_read s 0 ++ out_data (demo_run s t count).2)).


(** The single slot forgets a reader when two tasks sleep on one pipe: there
    is an execution at whose end a byte is in the ring, and a task that sleeps in
    a blocking read of the pipe has never been unblocked. *)
Theorem pipe_two_readers_forgotten :
  exists s t count, star pipe_sys_step pipe_sys_init s /\ sy_sleep s !! t = Some (CRead 0 count) /\
    (t ∉ sy_woken s) /\ contents (pipe_at (sy_pipes s) 0) = [65].
Proof.
  eexists _, 7, 10. split_and!.
  - eapply star_step; [apply (ss_open pipe_sys_init 0 3 4); [vm_compute; reflexivity|lia]|].
    eapply star_step; [apply (ss_read demo_open true 7 false 0 10 false); [lia|vm_compute; reflexivity..]|].
    eapply star_step; [eapply (ss_read (demo_read demo_open 7 10) true 8 false 0 10 false); [lia|vm_compute; reflexivity..]|].
    eapply star_step; [eapply (ss_write (demo_read (demo_read demo_open 7 10) 8 10) true 9 0 [65] 0 false);
      [vm_compute; reflexivity..]|]. apply star_refl.
  - vm_compute. reflexivity.
  - refine (bool_decide_eq_true_1 (7 ∉ _) _). vm_compute. reflexivity.
  - vm_compute. reflexivity.
Qed.

(** ** Signals that interrupt a sleep *)

(** Signal number [i + 1] ends a sleep: it has a handler, or its default action is not to be ignored. *)
Definition disturbs (handlers : list Z) (i : Z) : bool :=
  let h := aget SIG_DFL handlers i in
  negb (h =? SIG_IGN) && (negb (h =? SIG_DFL) || negb (default_ignored (i + 1))).

Lemma interrupts_body_spec handlers u i :
  0 < u < U64_MOD -> lowbit u i ->
  interrupts_body handlers u = if disturbs handlers i then inr true else inl (Z.land u (u - 1)).
Proof.
  intros Hu Hl. unfold interrupts_body, disturbs. destruct (Z.eqb_spec u 0); [lia|].
  pose proof (lowbit_lt u i 64 Hu ltac:(lia) Hl).
  rewrite (lowbit_isolate_u64 u i) by (done || lia). rewrite bit_index_pow2 by lia.
  rewrite land_u64_r by lia. change (0 + i) with i.
  destruct (aget SIG_DFL handlers i =? SIG_IGN); cbn [negb andb]; [done|].
  destruct (aget SIG_DFL handlers i =? SIG_DFL); cbn [negb orb]; [|done]. by destruct (default_ignored _).
Qed.

(** The signals of [m] that are not in [u] have been looked at and ignored. *)
Definition scanned (handlers : list Z) (m u : Z) : Prop :=
  0 <= u < U64_MOD /\
  forall k, 0 <= k -> Z.testbit m k = Z.testbit u k \/ (Z.testbit u k = false /\ disturbs handlers k = false).

Lemma scanned_step handlers m u i :
  0 < u -> scanned handlers m u -> lowbit u i -> disturbs handlers i = false ->
  scanned handlers m (Z.land u (u - 1)).
Proof.
  intros Hu [Hr Hs] Hl Hd. split.
  - by apply (land_range 64).
  - intros k Hk. rewrite (lowbit_clear u i k Hl) by done. destruct (Hs k Hk) as [E|[E1 E2]].
    + destruct (Z.eqb_spec k i) as [->|]; [right; by rewrite andb_false_r|left; by rewrite andb_true_r].
    + right. by rewrite E1.
Qed.

(** [pipe_interrupts] terminates within the 64 bits of the mask, and answers
    true exactly when some pending and unblocked signal would really be delivered:
    it has a handler, or its default action is not one of the ignored ones. *)
Theorem pipe_interrupts_correct pending blocked handlers :
  0 <= pending < U64_MOD -> 0 <= blocked < U64_MOD ->
  exists b, pipe_interrupts (Some (mk_sigs pending blocked handlers)) = Some b /\
    (b = true <-> exists i, 0 <= i < NSIG /\ Z.testbit pending i = true /\ Z.testbit blocked i = false /\
                    disturbs handlers i = true).
Proof.
  intros Hp Hb. unfold pipe_interrupts. cbn [ts_handlers ts_pending ts_blocked]. rewrite land_u64_r by done.
  set (m := Z.land pending (Z.lnot blocked)).
  assert (0 <= m < U64_MOD) as Hm by by apply (land_range 64).
  destruct (loop_total (scanned handlers m)
    (fun b => b = true <-> exists i, 0 <= i < NSIG /\ Z.testbit m i = true /\ disturbs handlers i = true)
    (fun u => count_bits (Z.testbit u) 64) (interrupts_body handlers)) with (fuel := 65%nat) (s := m) as (b & -> & Hb').
  - intros u Hs. pose proof Hs as [Hr Hbits]. destruct (decide (u = 0)) as [->|Hnz].
    + cbn. split; [done|]. intros (k & Hk & Hmk & Hd). destruct (Hbits k) as [E|[_ E]]; [lia|..]; [|congruence].
      by rewrite Hmk, Z.bits_0 in E.
    + destruct (lowbit_exists u) as [i Hl]; [lia|]. rewrite (interrupts_body_spec handlers u i) by (done || lia).
      pose proof (lowbit_lt u i 64 ltac:(lia) ltac:(lia) Hl). destruct (disturbs handlers i) eqn:Ed.
      * split; [|done]. intros _. exists i. split; [done|]. split; [|done].
        assert (Z.testbit u i = true) as Hui by (rewrite (lowbit_testbit u i i Hl) by lia; apply Z.eqb_refl).
        destruct (Hbits i) as [E|[E _]]; [lia|congruence..].
      * split; [eapply scanned_step; try done; lia|]. pose proof (count_lowbit u i ltac:(lia) Hl).
        pose proof (count_bits_bound (Z.testbit (Z.land u (u - 1))) 64). lia.
  - split; [done|]. by left.
  - pose proof (count_bits_bound (Z.testbit m) 64). lia.
  - exists b. split; [done|]. rewrite Hb'. unfold m.
    setoid_rewrite Z.land_spec. split; intros (k & Hk & H); exists k; (split; [done|]).
    + destruct H as [H ?]. rewrite Z.lnot_spec in H by lia. zbool. done.
    + destruct H as (H1 & H2 & ?). rewrite Z.lnot_spec, H1, H2 by lia. done.
Qed.

(** SIGCHLD pending and unblocked with its default action does not interrupt; SIGALRM does. *)
Lemma pipe_interrupts_correct_witness :
  exists b, pipe_interrupts (Some (mk_sigs (2 ^ 16 + 2 ^ 13) 0 (replicate 64 0))) = Some b /\
    (b = true <-> exists i, 0 <= i < NSIG /\ Z.testbit (2 ^ 16 + 2 ^ 13) i = true /\ Z.testbit 0 i = false /\
                    disturbs (replicate 64 0) i = true).
Proof. apply (pipe_interrupts_correct (2 ^ 16 + 2 ^ 13) 0 (replicate 64 0)); lia. Defined.
