(* ===== verification/SharedPage.v ===== *)
(** * Reference counts of shared pages: kernel/mm/shared_page.c

    The table of [MAP_SHARED] pages is a hash table chained through indices into
    one array of entries, with a free list through the same field.  Both operations
    hold [g_lock] from the lookup to the last write, so each is one atomic step;
    [shared_page_unref] calls the page allocator with the lock held, so the
    allocator's record is threaded through it.

    [sp_rep] relates the table to the finite map from physical page to reference
    count that it implements; [shared_pages_refine] is the refinement of every
    sequence of operations from the boot state. *)

From stdpp Require Import options.
From Stdlib Require Import Lia.
From S2P Require Import Prelude Bitmap Pmm.

(** ** Data *)

Abbreviation SHARED_PAGE_BUCKETS := 512.
Abbreviation SHARED_PAGE_MAX := 4096.

Record shared_page_entry_t := mk_spe { sp_paddr : Z; sp_refcount : Z; sp_next : Z }.

#[global] Instance shared_page_entry_eq_dec : EqDecision shared_page_entry_t.
Proof. solve_decision. Defined.

(** The static variables of the file. *)
Record shared_pages := mk_sps {
  g_entries : list shared_page_entry_t;
  g_buckets : list Z;
  g_free_head : Z;
  g_initialized : bool;
}.

Definition spe0 : shared_page_entry_t := mk_spe 0 0 0.

(** Static storage at boot. *)
Definition shared_pages_boot : shared_pages :=
  mk_sps (replicate 4096 spe0) (replicate 512 0) 0 false.

Definition set_entry (s : shared_pages) (i : Z) (e : shared_page_entry_t) : shared_pages :=
  mk_sps (aset (g_entries s) i e) (g_buckets s) (g_free_head s) (g_initialized s).
Definition set_bucket (s : shared_pages) (b i : Z) : shared_pages :=
  mk_sps (g_entries s) (aset (g_buckets s) b i) (g_free_head s) (g_initialized s).
Definition set_free_head (s : shared_pages) (i : Z) : shared_pages :=
  mk_sps (g_entries s) (g_buckets s) i (g_initialized s).
Definition entry (s : shared_pages) (i : Z) : shared_page_entry_t := aget spe0 (g_entries s) i.

(** ** Operations *)

Definition shared_pages_init_locked (s : shared_pages) : shared_pages :=
  if g_initialized s then s
  else
    mk_sps
      ((fun i => mk_spe 0 0 (if i + 1 <? SHARED_PAGE_MAX then i + 1 else -1)) <$> seqZ 0 SHARED_PAGE_MAX)
      ((fun _ => -1) <$> seqZ 0 SHARED_PAGE_BUCKETS)
      0 true.

Definition shared_page_bucket (paddr : Z) : Z :=
  let x := Z.shiftr paddr PAGE_SHIFT in
  let x := Z.lxor x (Z.shiftr x 33) in
  let x := u64 (x * 18397679294719823053) in
  let x := Z.lxor x (Z.shiftr x 33) in
  Z.land x (SHARED_PAGE_BUCKETS - 1).

(** The walks of a chain: the fuel exceeds the number of entries. *)
Definition sp_fuel : nat := 4097.

Definition shared_page_find_locked (s : shared_pages) (paddr : Z) : option Z :=
  loop sp_fuel
    (fun i =>
       if i <? 0 then inr (-1)
       else if sp_paddr (entry s i) =? paddr then inr i
       else inl (sp_next (entry s i)))
    (aget 0 (g_buckets s) (shared_page_bucket paddr)).

Definition shared_page_ref (s : shared_pages) (paddr : Z) : option (bool * shared_pages) :=
  if (paddr =? 0) || negb (Z.land paddr (PAGE_SIZE - 1) =? 0) then Some (false, s)
  else
    let s := shared_pages_init_locked s in
    idx ← shared_page_find_locked s paddr;
    if 0 <=? idx then
      let e := entry s idx in
      if sp_refcount e =? 4294967295 then Some (false, s)
      else Some (true, set_entry s idx (mk_spe (sp_paddr e) (u32 (sp_refcount e + 1)) (sp_next e)))
    else if g_free_head s <? 0 then Some (false, s)
    else
      let idx := g_free_head s in
      let s := set_free_head s (sp_next (entry s idx)) in
      let bucket := shared_page_bucket paddr in
      let s := set_entry s idx (mk_spe paddr 1 (aget 0 (g_buckets s) bucket)) in
      Some (true, set_bucket s bucket idx).

(** The search of [shared_page_unref], which keeps the predecessor. *)
Definition unref_find (s : shared_pages) (paddr : Z) : option (Z * Z) :=
  loop sp_fuel
    (fun pi =>
       let '(prev, idx) := pi in
       if (0 <=? idx) && negb (sp_paddr (entry s idx) =? paddr)
       then inl (idx, sp_next (entry s idx))
       else inr (prev, idx))
    (-1, aget 0 (g_buckets s) (shared_page_bucket paddr)).

Definition shared_page_unref (s : shared_pages) (pm : pmm_t) (paddr : Z) : option (shared_pages * pmm_t) :=
  if paddr =? 0 then Some (s, pm)
  else if negb (Z.land paddr (PAGE_SIZE - 1) =? 0) then Some (s, pm)
  else
    let s := shared_pages_init_locked s in
    let bucket := shared_page_bucket paddr in
    '(prev, idx) ← unref_find s paddr;
    if idx <? 0 then Some (s, pm)
    else
      let e := entry s idx in
      if 1 <? sp_refcount e then
        Some (set_entry s idx (mk_spe (sp_paddr e) (u32 (sp_refcount e - 1)) (sp_next e)), pm)
      else
        let s :=
          if prev <? 0 then set_bucket s bucket (sp_next e)
          else let ep := entry s prev in
               set_entry s prev (mk_spe (sp_paddr ep) (sp_refcount ep) (sp_next e)) in
        let s := set_entry s idx (mk_spe 0 0 (g_free_head s)) in
        let s := set_free_head s idx in
        '(_, pm) ← pmm_free_pages pm paddr 1;
        Some (s, pm).

(** ** What the table promises *)

Abbreviation refcounts := (gmap Z Z).

Definition sp_valid (paddr : Z) : bool := negb (paddr =? 0) && (Z.land paddr (PAGE_SIZE - 1) =? 0).

Definition spec_ref (m : refcounts) (paddr : Z) : bool * refcounts :=
  if negb (sp_valid paddr) then (false, m)
  else
    match m !! paddr with
    | Some r => if r =? 4294967295 then (false, m) else (true, <[paddr := r + 1]> m)
    | None => if Z.of_nat (size m) =? SHARED_PAGE_MAX then (false, m) else (true, <[paddr := 1]> m)
    end.

(** The last reference returns the page to the allocator. *)
Definition spec_unref (m : refcounts) (pm : pmm_t) (paddr : Z) : option (refcounts * pmm_t) :=
  if negb (sp_valid paddr) then Some (m, pm)
  else
    match m !! paddr with
    | None => Some (m, pm)
    | Some r =>
        if 1 <? r then Some (<[paddr := r - 1]> m, pm)
        else '(_, pm) ← pmm_free_pages pm paddr 1; Some (delete paddr m, pm)
    end.

(** ** The representation *)

(** [linked es h l]: from index [h] the [next] fields go through [l] and end with [-1]. *)
Fixpoint linked (es : list shared_page_entry_t) (h : Z) (l : list Z) : Prop :=
  match l with
  | [] => h = -1
  | i :: l' => h = i /\ 0 <= i < Z.of_nat (length es) /\ linked es (sp_next (aget spe0 es i)) l'
  end.

(** The used entries in the order of their insertion, latest first: the chain of
    a bucket is their sublist that hashes to it. *)
Definition chain (es : list shared_page_entry_t) (used : list Z) (b : Z) : list Z :=
  filter (fun i => shared_page_bucket (sp_paddr (aget spe0 es i)) = b) used.

Definition entry_ok (e : shared_page_entry_t) : Prop :=
  sp_valid (sp_paddr e) = true /\ 0 < sp_refcount e < U32_MOD.

Record sp_layout (s : shared_pages) (used fl : list Z) : Prop := {
  sl_entries : length (g_entries s) = 4096%nat;
  sl_buckets : length (g_buckets s) = 512%nat;
  sl_nodup : NoDup (fl ++ used);
  sl_all : length (fl ++ used) = 4096%nat;
  sl_free : linked (g_entries s) (g_free_head s) fl;
  sl_chain : forall b, 0 <= b < SHARED_PAGE_BUCKETS ->
    linked (g_entries s) (aget 0 (g_buckets s) b) (chain (g_entries s) used b);
  sl_ok : Forall (fun i => entry_ok (entry s i)) used;
  sl_paddr : NoDup ((fun i => sp_paddr (entry s i)) <$> used);
}.

Definition sp_abs (s : shared_pages) (used : list Z) : refcounts :=
  list_to_map ((fun i => (sp_paddr (entry s i), sp_refcount (entry s i))) <$> used).

Definition sp_rep (s : shared_pages) (m : refcounts) : Prop :=
  if g_initialized s then exists used fl, sp_layout s used fl /\ m = sp_abs s used else m = ∅.

(** ** Linked lists of indices *)

Lemma linked_bounds es h l : linked es h l -> Forall (fun i => 0 <= i < Z.of_nat (length es)) l.
Proof. revert h. induction l as [|i l IH]; intros h; [done|]. intros (-> & ? & ?). constructor; eauto. Qed.

Lemma linked_head es h l : linked es h l -> h = default (-1) (head l).
Proof. destruct l; [done|]. by intros (-> & _). Qed.

Lemma linked_ext es es' h l :
  length es' = length es ->
  (forall j, j ∈ l -> sp_next (aget spe0 es' j) = sp_next (aget spe0 es j)) ->
  linked es h l -> linked es' h l.
Proof.
  intros Hlen. revert h. induction l as [|i l IH]; intros h Hn; [done|]. intros (-> & ? & Hl). cbn.
  rewrite Hlen, Hn by constructor. repeat (split; [done|]). apply IH; [|done].
  intros. apply Hn. by constructor.
Qed.

Lemma linked_aset es h l i e :
  0 <= i -> i ∉ l -> linked es h l -> linked (aset es i e) h l.
Proof.
  intros Hi Hn Hl. pose proof (linked_bounds _ _ _ Hl) as Hb. rewrite Forall_forall in Hb.
  eapply linked_ext; [by rewrite length_aset| |done]. intros j Hj. rewrite aget_aset_ne; [done|done| |].
  - apply Hb in Hj. lia.
  - intros ->. done.
Qed.

(** Taking [i] out: its predecessor, or the head, takes over its [next]. *)
Lemma linked_suffix es h l1 i l2 : linked es h (l1 ++ i :: l2) -> linked es (sp_next (aget spe0 es i)) l2.
Proof. revert h. induction l1 as [|j l1 IH]; intros h; [by intros (-> & ? & ?)|]. intros (-> & ? & ?). eauto. Qed.

Lemma linked_unlink es h l1 j i l2 e :
  NoDup (l1 ++ [j] ++ i :: l2) -> sp_next e = sp_next (aget spe0 es i) ->
  linked es h (l1 ++ [j] ++ i :: l2) -> linked (aset es j e) h (l1 ++ [j] ++ l2).
Proof.
  intros Hnd He. revert h Hnd. induction l1 as [|k l1 IH]; intros h Hnd; cbn [app linked].
  - intros (-> & Hj & _ & _ & Hl). rewrite length_aset, aget_aset_eq by done.
    repeat (split; [done|]). rewrite He. apply linked_aset; [lia| |done].
    cbn in Hnd. apply NoDup_cons in Hnd as [Hnd _]. intros ?. apply Hnd. by constructor.
  - intros (-> & Hk & Hl). rewrite length_aset. repeat (split; [done|]).
    cbn in Hnd. apply NoDup_cons in Hnd as [Hnk Hnd].
    pose proof (linked_bounds _ _ _ Hl) as Hb. rewrite Forall_forall in Hb.
    assert (j ∈ l1 ++ [j] ++ i :: l2) as Hj by (apply elem_of_app; right; by constructor).
    pose proof (Hb j Hj). rewrite aget_aset_ne; [|lia..|intros ->; done]. by apply IH.
Qed.

(** ** The searches *)

Section search.
Context (s : shared_pages) (paddr : Z).

Lemma find_hit l1 i l2 h fuel :
  linked (g_entries s) h (l1 ++ i :: l2) -> (length l1 < fuel)%nat ->
  Forall (fun j => sp_paddr (entry s j) <> paddr) l1 -> sp_paddr (entry s i) = paddr ->
  loop fuel (fun i => if i <? 0 then inr (-1) else if sp_paddr (entry s i) =? paddr then inr i
                      else inl (sp_next (entry s i))) h = Some i.
Proof using Type.
  revert h fuel. induction l1 as [|j l1 IH]; intros h [|fuel]; cbn [app length linked loop]; try lia.
  - intros (-> & Hi & _) _ _ E. destruct (Z.ltb_spec i 0); [lia|]. by rewrite (proj2 (Z.eqb_eq _ _) E).
  - intros (-> & Hj & Hl) Hf [Hne Hall]%Forall_cons E. destruct (Z.ltb_spec j 0); [lia|].
    rewrite (proj2 (Z.eqb_neq _ _) Hne). apply IH; [done|lia|done|done].
Qed.

Lemma find_miss l h fuel :
  linked (g_entries s) h l -> (length l < fuel)%nat ->
  Forall (fun j => sp_paddr (entry s j) <> paddr) l ->
  loop fuel (fun i => if i <? 0 then inr (-1) else if sp_paddr (entry s i) =? paddr then inr i
                      else inl (sp_next (entry s i))) h = Some (-1).
Proof using Type.
  revert h fuel. induction l as [|j l IH]; intros h [|fuel]; cbn [length linked loop]; try lia.
  - by intros -> _ _.
  - intros (-> & Hj & Hl) Hf [Hne Hall]%Forall_cons. destruct (Z.ltb_spec j 0); [lia|].
    rewrite (proj2 (Z.eqb_neq _ _) Hne). apply IH; [done|lia|done].
Qed.

Lemma unref_find_hit l1 i l2 prev h fuel :
  linked (g_entries s) h (l1 ++ i :: l2) -> (length l1 < fuel)%nat ->
  Forall (fun j => sp_paddr (entry s j) <> paddr) l1 -> sp_paddr (entry s i) = paddr ->
  loop fuel (fun pi => let '(prev, idx) := pi in
               if (0 <=? idx) && negb (sp_paddr (entry s idx) =? paddr)
               then inl (idx, sp_next (entry s idx)) else inr (prev, idx)) (prev, h)
  = Some (default prev (last l1), i).
Proof using Type.
  revert prev h fuel. induction l1 as [|j l1 IH]; intros prev h [|fuel]; cbn [app length linked loop]; try lia.
  - intros (-> & Hi & _) _ _ E. rewrite (proj2 (Z.eqb_eq _ _) E), andb_false_r. done.
  - intros (-> & Hj & Hl) Hf [Hne Hall]%Forall_cons E. rewrite (proj2 (Z.leb_le 0 j)) by lia.
    rewrite (proj2 (Z.eqb_neq _ _) Hne). cbn [negb andb]. rewrite (IH j _ fuel); [|done|lia|done|done].
    rewrite last_cons. by destruct (last l1).
Qed.

Lemma unref_find_miss l prev h fuel :
  linked (g_entries s) h l -> (length l < fuel)%nat ->
  Forall (fun j => sp_paddr (entry s j) <> paddr) l ->
  exists prev', loop fuel (fun pi => let '(prev, idx) := pi in
               if (0 <=? idx) && negb (sp_paddr (entry s idx) =? paddr)
               then inl (idx, sp_next (entry s idx)) else inr (prev, idx)) (prev, h)
  = Some (prev', -1).
Proof using Type.
  revert prev h fuel. induction l as [|j l IH]; intros prev h [|fuel]; cbn [length linked loop]; try lia.
  - intros -> _ _. by exists prev.
  - intros (-> & Hj & Hl) Hf [Hne Hall]%Forall_cons. rewrite (proj2 (Z.leb_le 0 j)) by lia.
    rewrite (proj2 (Z.eqb_neq _ _) Hne). apply IH; [done|lia|done].
Qed.
End search.

(** ** Lemmas on the layout *)

Lemma bucket_range p : 0 <= shared_page_bucket p < SHARED_PAGE_BUCKETS.
Proof.
  unfold shared_page_bucket. change (SHARED_PAGE_BUCKETS - 1) with (2 ^ 9 - 1).
  rewrite land_pred_pow2 by lia. apply Z.mod_pos_bound. lia.
Qed.

Lemma chain_app es u1 u2 b : chain es (u1 ++ u2) b = chain es u1 b ++ chain es u2 b.
Proof. apply filter_app. Qed.

Lemma chain_cons es i u b :
  chain es (i :: u) b =
    if decide (shared_page_bucket (sp_paddr (aget spe0 es i)) = b) then i :: chain es u b else chain es u b.
Proof. unfold chain. rewrite filter_cons. done. Qed.

Lemma chain_ext es es' u b :
  (forall j, j ∈ u -> sp_paddr (aget spe0 es' j) = sp_paddr (aget spe0 es j)) -> chain es' u b = chain es u b.
Proof.
  intros Hp. induction u as [|i u IH]; [done|]. rewrite !chain_cons. rewrite Hp by constructor.
  rewrite IH by (intros; apply Hp; by constructor). done.
Qed.

Lemma chain_elem es u b i : i ∈ chain es u b -> i ∈ u.
Proof. intros [_ ?]%list_elem_of_filter. done. Qed.

Lemma sp_abs_ext s s' u :
  (forall j, j ∈ u -> sp_paddr (entry s' j) = sp_paddr (entry s j) /\ sp_refcount (entry s' j) = sp_refcount (entry s j)) ->
  sp_abs s' u = sp_abs s u.
Proof.
  intros He. unfold sp_abs. f_equal. apply list_fmap_ext. intros k j Hj. apply list_elem_of_lookup_2 in Hj.
  destruct (He j Hj) as [-> ->]. done.
Qed.

Lemma init_linked es k n :
  length es = 4096%nat ->
  (forall i, 0 <= i < SHARED_PAGE_MAX -> sp_next (aget spe0 es i) = if i + 1 <? SHARED_PAGE_MAX then i + 1 else -1) ->
  0 <= k -> k + Z.of_nat n = SHARED_PAGE_MAX ->
  linked es (if k <? SHARED_PAGE_MAX then k else -1) (seqZ k (Z.of_nat n)).
Proof.
  intros Hlen Hes. revert k. induction n as [|n IH]; intros k Hk Hn.
  - destruct (Z.ltb_spec k SHARED_PAGE_MAX); [lia|]. done.
  - rewrite seqZ_cons by lia. destruct (Z.ltb_spec k SHARED_PAGE_MAX); [|lia].
    replace (Z.pred (Z.of_nat (S n))) with (Z.of_nat n) by lia. cbn [linked].
    rewrite Hlen. split; [done|]. split; [lia|]. rewrite Hes by lia. apply (IH (k + 1)); lia.
Qed.

Lemma init_layout s :
  g_initialized s = false -> sp_layout (shared_pages_init_locked s) [] (seqZ 0 SHARED_PAGE_MAX).
Proof.
  intros E. assert (shared_pages_init_locked s = shared_pages_init_locked shared_pages_boot) as ->.
  { unfold shared_pages_init_locked. rewrite E. done. }
  split.
  - unfold shared_pages_init_locked. cbn [g_initialized shared_pages_boot g_entries]. by rewrite length_fmap, length_seqZ.
  - unfold shared_pages_init_locked. cbn [g_initialized shared_pages_boot g_buckets]. by rewrite length_fmap, length_seqZ.
  - rewrite app_nil_r. apply NoDup_seqZ.
  - rewrite app_nil_r. by rewrite length_seqZ.
  - apply (init_linked _ 0 4096); [| |done|done].
    + unfold shared_pages_init_locked. cbn [g_initialized shared_pages_boot g_entries]. by rewrite length_fmap, length_seqZ.
    + intros i Hi. unfold aget, shared_pages_init_locked. cbn [g_initialized shared_pages_boot g_entries].
      rewrite list_lookup_fmap, lookup_seqZ_lt by lia. cbn [fmap option_fmap option_map default sp_next].
      by rewrite Z2Nat.id, Z.add_0_l by lia.
  - intros b Hb. cbn. unfold aget. cbn [shared_pages_init_locked shared_pages_boot g_initialized g_buckets].
    rewrite list_lookup_fmap, lookup_seqZ_lt by lia. done.
  - constructor.
  - constructor.
Qed.

(** Every operation starts from an initialised table with the same counts. *)
Lemma rep_init s m :
  sp_rep s m -> exists used fl, sp_layout (shared_pages_init_locked s) used fl /\
    m = sp_abs (shared_pages_init_locked s) used /\ g_initialized (shared_pages_init_locked s) = true.
Proof.
  unfold sp_rep. destruct (g_initialized s) eqn:E.
  - unfold shared_pages_init_locked. rewrite E. intros (used & fl & ? & ?). exists used, fl. done.
  - intros ->. exists [], (seqZ 0 SHARED_PAGE_MAX). split; [by apply init_layout|].
    split; [done|]. unfold shared_pages_init_locked. rewrite E. done.
Qed.

Section layout.
Context (s : shared_pages) (used fl : list Z) (Hl : sp_layout s used fl).

Lemma used_nodup : NoDup used.
Proof using Hl. pose proof (sl_nodup _ _ _ Hl) as H. by apply NoDup_app in H as (_ & _ & ?). Qed.

Lemma free_not_used i : i ∈ fl -> i ∉ used.
Proof using Hl. pose proof (sl_nodup _ _ _ Hl) as H. apply NoDup_app in H as (_ & ? & _). auto. Qed.

Lemma used_bound i : i ∈ used -> 0 <= i < Z.of_nat (length (g_entries s)).
Proof using Hl.
  intros Hi. pose proof (bucket_range (sp_paddr (entry s i))) as Hb.
  pose proof (linked_bounds _ _ _ (sl_chain _ _ _ Hl _ Hb)) as HF. rewrite Forall_forall in HF. apply HF.
  by apply list_elem_of_filter.
Qed.

Lemma free_bound i : i ∈ fl -> 0 <= i < Z.of_nat (length (g_entries s)).
Proof using Hl.
  intros Hi. pose proof (linked_bounds _ _ _ (sl_free _ _ _ Hl)) as HF. rewrite Forall_forall in HF. auto.
Qed.

Lemma abs_keys : (fst <$> ((fun i => (sp_paddr (entry s i), sp_refcount (entry s i))) <$> used)) =
  ((fun i => sp_paddr (entry s i)) <$> used).
Proof using Type. by rewrite <-list_fmap_compose. Qed.

Lemma abs_size : size (sp_abs s used) = length used.
Proof using Hl.
  rewrite <-length_map_to_list. unfold sp_abs. rewrite map_to_list_to_map.
  - apply length_fmap.
  - rewrite abs_keys. apply Hl.
Qed.

(** A tracked page has exactly one entry. *)
Lemma layout_hit p :
  p ∈ ((fun i => sp_paddr (entry s i)) <$> used) ->
  exists u1 i u2, used = u1 ++ i :: u2 /\ sp_paddr (entry s i) = p /\
    Forall (fun j => sp_paddr (entry s j) <> p) (u1 ++ u2).
Proof using Hl.
  intros (i & -> & Hi)%list_elem_of_fmap. apply list_elem_of_split in Hi as (u1 & u2 & Eu).
  exists u1, i, u2. repeat (split; [done|]). pose proof (sl_paddr _ _ _ Hl) as Hnd. rewrite Eu in Hnd.
  rewrite fmap_app, fmap_cons, <-Permutation_middle in Hnd. apply NoDup_cons in Hnd as [Hn _].
  rewrite <-fmap_app in Hn. apply Forall_forall. intros j Hj E. apply Hn. apply list_elem_of_fmap. by exists j.
Qed.

Lemma layout_miss p :
  p ∉ ((fun i => sp_paddr (entry s i)) <$> used) -> Forall (fun j => sp_paddr (entry s j) <> p) used.
Proof using Type. intros Hn. apply Forall_forall. intros j Hj E. apply Hn, list_elem_of_fmap. by exists j. Qed.

Lemma abs_split u1 i u2 :
  used = u1 ++ i :: u2 ->
  sp_abs s used = <[sp_paddr (entry s i) := sp_refcount (entry s i)]> (sp_abs s (u1 ++ u2)) /\
  (Forall (fun j => sp_paddr (entry s j) <> sp_paddr (entry s i)) (u1 ++ u2) ->
   sp_abs s (u1 ++ u2) !! sp_paddr (entry s i) = None).
Proof using Hl.
  intros Eu. split.
  - pose proof (sl_paddr _ _ _ Hl) as Hnd. rewrite <-abs_keys in Hnd. revert Hnd. rewrite Eu. intros Hnd. unfold sp_abs.
    rewrite (list_to_map_proper _ _ Hnd
      (fmap_Permutation _ _ _ (symmetry (Permutation_middle u1 u2 i)))). by rewrite fmap_cons, list_to_map_cons.
  - intros Hn. unfold sp_abs. apply not_elem_of_list_to_map_1. rewrite <-list_fmap_compose.
    intros (j & E & Hj)%list_elem_of_fmap. rewrite Forall_forall in Hn. by apply (Hn j Hj).
Qed.

Lemma abs_miss p : p ∉ ((fun i => sp_paddr (entry s i)) <$> used) -> sp_abs s used !! p = None.
Proof using Type. intros. apply not_elem_of_list_to_map_1. by rewrite abs_keys. Qed.

Lemma chain_length b u : (length (chain (g_entries s) u b) <= length u)%nat.
Proof using Type. unfold chain. apply length_filter. Qed.

Lemma used_length : (length used <= 4096)%nat.
Proof using Hl. pose proof (sl_all _ _ _ Hl) as H. rewrite length_app in H. lia. Qed.
End layout.

Lemma entry_set s i e j :
  0 <= i < Z.of_nat (length (g_entries s)) -> 0 <= j ->
  entry (set_entry s i e) j = if decide (j = i) then e else entry s j.
Proof.
  intros. unfold entry, set_entry. cbn [g_entries]. case_decide as E.
  - subst j. by apply aget_aset_eq.
  - apply aget_aset_ne; [lia..|done].
Qed.

(** A new count for a tracked page. *)
Lemma layout_set_count s used fl u1 i u2 r :
  sp_layout s used fl -> used = u1 ++ i :: u2 ->
  Forall (fun j => sp_paddr (entry s j) <> sp_paddr (entry s i)) (u1 ++ u2) -> 0 < r < U32_MOD ->
  let s' := set_entry s i (mk_spe (sp_paddr (entry s i)) r (sp_next (entry s i))) in
  sp_layout s' used fl /\ sp_abs s' used = <[sp_paddr (entry s i) := r]> (sp_abs s used).
Proof.
  intros Hl Eu Hne Hr s'. assert (i ∈ used) as Hi by (rewrite Eu; apply elem_of_app; right; constructor).
  pose proof (used_bound _ _ _ Hl i Hi) as Hib.
  assert (forall j, 0 <= j -> entry s' j = if decide (j = i) then mk_spe (sp_paddr (entry s i)) r (sp_next (entry s i)) else entry s j)
    as He by (intros; by apply entry_set).
  assert (forall j, 0 <= j -> sp_paddr (entry s' j) = sp_paddr (entry s j) /\ sp_next (entry s' j) = sp_next (entry s j)) as Hs.
  { intros j Hj. rewrite He by done. case_decide; subst; done. }
  assert (forall j, j ∈ used -> 0 <= j) as Hu by (intros j Hj; pose proof (used_bound _ _ _ Hl j Hj); lia).
  assert (length (g_entries s') = length (g_entries s)) as Hlen by apply length_aset.
  assert (sp_layout s' used fl) as Hl'.
  { split; try apply Hl.
    - rewrite Hlen. apply Hl.
    - eapply linked_ext; [done| |apply Hl]. intros j Hj. apply Hs. pose proof (free_bound _ _ _ Hl j Hj). lia.
    - intros b Hb. rewrite (chain_ext (g_entries s)) by (intros j Hj; apply Hs; auto).
      eapply linked_ext; [done| |by apply (sl_chain _ _ _ Hl)]. intros j Hj%chain_elem. apply Hs. auto.
    - pose proof (sl_ok _ _ _ Hl) as Hok. rewrite Forall_forall in *. intros j Hj. destruct (Hok j Hj).
      rewrite He by auto. case_decide; [subst; done|done].
    - rewrite (list_fmap_ext _ (fun i => sp_paddr (entry s i))); [apply Hl|].
      intros k j Hj%list_elem_of_lookup_2. apply Hs. auto. }
  split; [done|]. destruct (abs_split _ _ _ Hl' _ _ _ Eu) as [-> _]. destruct (abs_split _ _ _ Hl _ _ _ Eu) as [-> _].
  rewrite He by auto. rewrite decide_True by done. cbn [sp_paddr sp_refcount].
  rewrite insert_insert_eq. f_equal. apply sp_abs_ext. intros j Hj.
  assert (j ∈ used) by (rewrite Eu; revert Hj; rewrite !elem_of_app, elem_of_cons; tauto).
  rewrite He by auto. case_decide; [|done]. subst j. rewrite Forall_forall in Hne. by destruct (Hne i Hj).
Qed.

(** A new entry for a page that is not tracked. *)
Lemma layout_insert s used fl i p :
  sp_layout s used (i :: fl) -> sp_valid p = true ->
  p ∉ ((fun i => sp_paddr (entry s i)) <$> used) ->
  let s1 := set_free_head s (sp_next (entry s i)) in
  let b := shared_page_bucket p in
  let s' := set_bucket (set_entry s1 i (mk_spe p 1 (aget 0 (g_buckets s1) b))) b i in
  sp_layout s' (i :: used) fl /\ sp_abs s' (i :: used) = <[p := 1]> (sp_abs s used).
Proof.
  intros Hl Hv Hp s1 b s'.
  pose proof (free_not_used _ _ _ Hl i ltac:(constructor)) as Hnu.
  pose proof (free_bound _ _ _ Hl i ltac:(constructor)) as Hib.
  pose proof (bucket_range p) as Hb. fold b in Hb.
  assert (forall j, 0 <= j -> entry s' j = if decide (j = i) then mk_spe p 1 (aget 0 (g_buckets s) b) else entry s j)
    as He by (intros; by apply (entry_set s)).
  assert (entry s' i = mk_spe p 1 (aget 0 (g_buckets s) b)) as Hei by (rewrite He by lia; by apply decide_True).
  assert (forall j, j ∈ used -> entry s' j = entry s j) as Hu.
  { intros j Hj. rewrite He by (pose proof (used_bound _ _ _ Hl j Hj); lia). case_decide; [congruence|done]. }
  pose proof (sl_nodup _ _ _ Hl) as Hnd. cbn in Hnd. apply NoDup_cons in Hnd as [Hni Hnd].
  pose proof (sl_free _ _ _ Hl) as (_ & _ & Hfl).
  split; [split|].
  - cbn. rewrite length_aset. apply Hl.
  - cbn. rewrite length_aset. apply Hl.
  - rewrite <-Permutation_middle. by constructor.
  - rewrite <-(sl_all _ _ _ Hl). cbn. rewrite !length_app. cbn. lia.
  - cbn. apply linked_aset; [lia| |done]. intros ?. apply Hni, elem_of_app. by left.
  - intros b' Hb'. rewrite chain_cons. change (aget spe0 (g_entries s') i) with (entry s' i).
    rewrite Hei. cbn [sp_paddr]. fold b.
    rewrite (chain_ext (g_entries s)) by (intros j Hj; f_equal; by apply Hu).
    assert (i ∉ chain (g_entries s) used b') as Hic by (intros ?%chain_elem; done).
    pose proof (sl_chain _ _ _ Hl b' Hb') as Hch. cbn [s' set_bucket set_entry s1 set_free_head g_buckets g_entries].
    destruct (decide (b = b')) as [<-|Hbb].
    + rewrite aget_aset_eq by (rewrite (sl_buckets _ _ _ Hl); lia). cbn [linked]. rewrite length_aset.
      repeat (split; [done|]). rewrite aget_aset_eq by done. apply linked_aset; [lia|done|done].
    + rewrite aget_aset_ne by lia. apply linked_aset; [lia|done|done].
  - constructor.
    + rewrite Hei. split; [done|cbn; lia].
    + pose proof (sl_ok _ _ _ Hl) as Hok. rewrite Forall_forall in *. intros j Hj. rewrite Hu by done. auto.
  - rewrite fmap_cons. rewrite Hei.
    rewrite (list_fmap_ext _ (fun i => sp_paddr (entry s i)) used); [constructor; [done|apply Hl]|].
    intros k j Hj%list_elem_of_lookup_2. by rewrite Hu.
  - unfold sp_abs at 1. rewrite fmap_cons, list_to_map_cons. rewrite Hei.
    f_equal. apply sp_abs_ext. intros j Hj. by rewrite Hu.
Qed.

(** The unlinking half of [shared_page_unref]. *)
Definition unlink (s : shared_pages) (b prev i : Z) : shared_pages :=
  if prev <? 0 then set_bucket s b (sp_next (entry s i))
  else let ep := entry s prev in
       set_entry s prev (mk_spe (sp_paddr ep) (sp_refcount ep) (sp_next (entry s i))).

Lemma unlink_spec s b c1 i c2 :
  0 <= b < Z.of_nat (length (g_buckets s)) -> NoDup (c1 ++ i :: c2) ->
  linked (g_entries s) (aget 0 (g_buckets s) b) (c1 ++ i :: c2) ->
  let s1 := unlink s b (default (-1) (last c1)) i in
  linked (g_entries s1) (aget 0 (g_buckets s1) b) (c1 ++ c2) /\
  length (g_entries s1) = length (g_entries s) /\ length (g_buckets s1) = length (g_buckets s) /\
  g_free_head s1 = g_free_head s /\ g_initialized s1 = g_initialized s /\
  (forall b', 0 <= b' -> b' <> b -> aget 0 (g_buckets s1) b' = aget 0 (g_buckets s) b') /\
  forall j, 0 <= j -> sp_paddr (entry s1 j) = sp_paddr (entry s j) /\
    sp_refcount (entry s1 j) = sp_refcount (entry s j) /\ (j ∉ c1 -> entry s1 j = entry s j).
Proof.
  intros Hb Hnd Hl s1. destruct (last c1) as [k|] eqn:Elast.
  - apply last_Some in Elast as (c & ->). rewrite <-app_assoc in Hnd, Hl.
    pose proof (linked_bounds _ _ _ Hl) as HF. rewrite Forall_forall in HF.
    assert (0 <= k < Z.of_nat (length (g_entries s))) as Hk.
    { apply HF. apply elem_of_app. right. constructor. }
    subst s1. unfold unlink. cbn [default from_option id]. rewrite (proj2 (Z.ltb_ge k 0)) by lia.
    split; [|split; [cbn; by rewrite length_aset|]].
    { cbn. rewrite <-app_assoc. eapply linked_unlink; [exact Hnd|done|exact Hl]. }
    repeat (split; [done|]). intros j Hj. rewrite entry_set by done.
    case_decide; [subst j|done]. repeat (split; [done|]). intros []. apply elem_of_app. right. constructor.
  - apply last_None in Elast as ->. subst s1. cbn [app last default from_option id] in *. unfold unlink. change (-1 <? 0) with true. cbv iota.
    destruct Hl as (Eh & Hi & Hl). cbn [set_bucket g_entries g_buckets g_free_head g_initialized].
    rewrite length_aset, aget_aset_eq by done. repeat (split; [done|]).
    split; [|done]. intros b' ? ?. rewrite aget_aset_ne; [done|lia..].
Qed.

(** Removal of the entry of the last reference. *)
Lemma layout_remove s u1 i u2 fl :
  sp_layout s (u1 ++ i :: u2) fl ->
  Forall (fun j => sp_paddr (entry s j) <> sp_paddr (entry s i)) (u1 ++ u2) ->
  let b := shared_page_bucket (sp_paddr (entry s i)) in
  let s1 := unlink s b (default (-1) (last (chain (g_entries s) u1 b))) i in
  let s' := set_free_head (set_entry s1 i (mk_spe 0 0 (g_free_head s1))) i in
  sp_layout s' (u1 ++ u2) (i :: fl) /\
  sp_abs s' (u1 ++ u2) = delete (sp_paddr (entry s i)) (sp_abs s (u1 ++ i :: u2)).
Proof.
  intros Hl Hne b s1 s'. pose proof (bucket_range (sp_paddr (entry s i))) as Hb. fold b in Hb.
  pose proof (sl_nodup _ _ _ Hl) as Hnd. pose proof (used_bound _ _ _ Hl) as Hub.
  assert (Hib := Hub i ltac:(apply elem_of_app; right; constructor)).
  assert (chain (g_entries s) (u1 ++ i :: u2) b = chain (g_entries s) u1 b ++ i :: chain (g_entries s) u2 b) as Ech.
  { rewrite chain_app, chain_cons. by rewrite decide_True. }
  assert (NoDup (u1 ++ i :: u2)) as Hndu by exact (used_nodup _ _ _ Hl).
  destruct (unlink_spec s b (chain (g_entries s) u1 b) i (chain (g_entries s) u2 b)) as (Hc & Hlen & Hlenb & Hfh & _ & Hbk & Hent).
  { rewrite (sl_buckets _ _ _ Hl). lia. }
  { rewrite <-Ech. by apply NoDup_filter. }
  { rewrite <-Ech. by apply (sl_chain _ _ _ Hl). }
  fold s1 in Hc, Hlen, Hlenb, Hfh, Hbk, Hent.
  assert (i ∉ u1 ++ u2) as Hiu. { rewrite <-Permutation_middle in Hndu. by apply NoDup_cons in Hndu as [? _]. }
  assert (forall j, j ∈ u1 ++ u2 -> j ∈ u1 ++ i :: u2) as Hsub.
  { intros j. rewrite !elem_of_app, elem_of_cons. tauto. }
  assert (forall j, 0 <= j -> j <> i -> entry s' j = entry s1 j) as Hs'.
  { intros j Hj Hji. apply (aget_aset_ne spe0 (g_entries s1)); [lia..|done]. }
  assert (forall j, j ∈ u1 ++ u2 -> 0 <= j /\ j <> i) as Hu.
  { intros j Hj. split; [pose proof (Hub j (Hsub j Hj)); lia|]. intros ->. done. }
  split; [split|].
  - cbn. rewrite length_aset, Hlen. apply Hl.
  - cbn. rewrite Hlenb. apply Hl.
  - cbn. rewrite app_assoc, <-Permutation_middle, <-app_assoc in Hnd. done.
  - rewrite <-(sl_all _ _ _ Hl). cbn. rewrite !length_app. cbn. lia.
  - cbn. rewrite length_aset, Hlen. repeat (split; [done|]). rewrite aget_aset_eq by (rewrite Hlen; done). cbn.
    rewrite Hfh. apply linked_aset; [lia|intros Hf; destruct (free_not_used _ _ _ Hl i Hf); apply elem_of_app; right; constructor|].
    eapply linked_ext; [done| |apply Hl]. intros j Hj. f_equal. apply Hent.
    { pose proof (free_bound _ _ _ Hl j Hj). lia. }
    intros Hin%chain_elem. destruct (free_not_used _ _ _ Hl j Hj). apply elem_of_app. by left.
  - intros b' Hb'. rewrite (chain_ext (g_entries s)).
    2: { intros j Hj. destruct (Hu j Hj). change (aget spe0 (g_entries s') j) with (entry s' j). rewrite Hs' by done. by apply Hent. }
    apply linked_aset; [lia|intros ?%chain_elem; done|]. cbn. destruct (decide (b' = b)) as [->|Hbb].
    + by rewrite chain_app.
    + rewrite Hbk by lia. pose proof (sl_chain _ _ _ Hl b' Hb') as Hch. rewrite chain_app, chain_cons, decide_False in Hch by (intros E; by apply Hbb).
      rewrite chain_app. eapply linked_ext; [done| |exact Hch]. intros j Hj.
      f_equal. apply Hent; [|].
      * rewrite <-chain_app in Hj. apply chain_elem in Hj. by apply Hu.
      * intros [E1 _]%list_elem_of_filter. rewrite <-chain_app in Hj. apply list_elem_of_filter in Hj as [E2 _]. congruence.
  - pose proof (sl_ok _ _ _ Hl) as Hok. rewrite Forall_forall in *. intros j Hj. destruct (Hu j Hj).
    rewrite Hs' by done. unfold entry_ok. destruct (Hent j) as (-> & -> & _); [done|]. by apply Hok, Hsub.
  - rewrite (list_fmap_ext _ (fun i => sp_paddr (entry s i)) (u1 ++ u2)).
    + pose proof (sl_paddr _ _ _ Hl) as Hp. rewrite fmap_app, fmap_cons, <-Permutation_middle in Hp.
      apply NoDup_cons in Hp as [_ ?]. by rewrite fmap_app.
    + intros k j Hj%list_elem_of_lookup_2. destruct (Hu j Hj). rewrite Hs' by done. by apply Hent.
  - destruct (abs_split _ _ _ Hl _ _ _ eq_refl) as [-> Hd]. rewrite delete_insert_id by auto.
    apply sp_abs_ext. intros j Hj. destruct (Hu j Hj). rewrite Hs' by done. by destruct (Hent j) as (? & ? & _).
Qed.

(** ** Each operation implements its specification *)

Lemma sp_valid_land p : sp_valid p = negb ((p =? 0) || negb (Z.land p (PAGE_SIZE - 1) =? 0)).
Proof. unfold sp_valid. by destruct (p =? 0), (Z.land p (PAGE_SIZE - 1) =? 0). Qed.

Lemma rep_intro s m used fl :
  sp_layout s used fl -> m = sp_abs s used -> g_initialized s = true -> sp_rep s m.
Proof. intros ? ? E. unfold sp_rep. rewrite E. eauto. Qed.

Lemma forall_sub (P : Z -> Prop) es u b : Forall P u -> Forall P (chain es u b).
Proof. rewrite !Forall_forall. intros H j ?%chain_elem. auto. Qed.

(** The chain of a tracked page around its entry. *)
Lemma hit_chain s u1 i u2 fl :
  sp_layout s (u1 ++ i :: u2) fl ->
  let b := shared_page_bucket (sp_paddr (entry s i)) in
  linked (g_entries s) (aget 0 (g_buckets s) b) (chain (g_entries s) u1 b ++ i :: chain (g_entries s) u2 b).
Proof.
  intros Hl b. pose proof (sl_chain _ _ _ Hl b (bucket_range _)) as Hc.
  rewrite chain_app, chain_cons, decide_True in Hc by done. done.
Qed.

Lemma hit_fuel s u1 i u2 fl b :
  sp_layout s (u1 ++ i :: u2) fl -> (length (chain (g_entries s) u1 b) < sp_fuel)%nat.
Proof.
  intros Hl. pose proof (chain_length s b u1). pose proof (used_length _ _ _ Hl) as Hu.
  rewrite length_app in Hu. unfold sp_fuel. cbn in Hu. lia.
Qed.

Lemma miss_fuel s used fl b : sp_layout s used fl -> (length (chain (g_entries s) used b) < sp_fuel)%nat.
Proof. intros Hl. pose proof (chain_length s b used). pose proof (used_length _ _ _ Hl). unfold sp_fuel. lia. Qed.

Lemma sp_ref_refines s m p :
  sp_rep s m -> exists s', shared_page_ref s p = Some ((spec_ref m p).1, s') /\ sp_rep s' (spec_ref m p).2.
Proof.
  intros Hrep. unfold shared_page_ref, spec_ref. rewrite sp_valid_land.
  destruct ((p =? 0) || negb (Z.land p (PAGE_SIZE - 1) =? 0)) eqn:Ev; cbn [negb]; [by exists s|].
  destruct (rep_init s m Hrep) as (used & fl & Hl & -> & Hi).
  set (s0 := shared_pages_init_locked s) in *. unfold shared_page_find_locked.
  destruct (decide (p ∈ ((fun i => sp_paddr (entry s0 i)) <$> used))) as [Hin|Hin].
  - destruct (layout_hit _ _ _ Hl p Hin) as (u1 & i & u2 & Eu & Hp & Hne). subst used.
    pose proof (hit_chain _ _ _ _ _ Hl) as Hc. rewrite Hp in Hc. apply Forall_app in Hne as Hne'. destruct Hne' as [Hn1 _].
    rewrite (find_hit s0 p _ i _ _ _ Hc (hit_fuel _ _ _ _ _ _ Hl) (forall_sub _ _ _ _ Hn1) Hp). cbn [mbind option_bind].
    pose proof (used_bound _ _ _ Hl i ltac:(apply elem_of_app; right; constructor)).
    rewrite (proj2 (Z.leb_le 0 i)) by lia.
    destruct (abs_split _ _ _ Hl _ _ _ eq_refl) as [Eabs _]. rewrite Hp in Eabs.
    assert (sp_abs s0 (u1 ++ i :: u2) !! p = Some (sp_refcount (entry s0 i))) as Em by (rewrite Eabs; apply lookup_insert_eq).
    rewrite Em. pose proof (sl_ok _ _ _ Hl) as Hok. rewrite Forall_forall in Hok.
    destruct (Hok i ltac:(apply elem_of_app; right; constructor)) as [_ Hr].
    destruct (Z.eqb_spec (sp_refcount (entry s0 i)) 4294967295) as [|Hmax].
    { exists s0. split; [done|]. by eapply rep_intro. }
    rewrite u32_id by lia. eexists. split; [done|]. rewrite <-Hp in Hne.
    destruct (layout_set_count _ _ _ _ _ _ (sp_refcount (entry s0 i) + 1) Hl eq_refl Hne ltac:(lia)) as [Hl' Eabs'].
    eapply rep_intro; [exact Hl'| |done]. by rewrite Eabs', Hp.
  - rewrite (find_miss s0 p _ _ _ (sl_chain _ _ _ Hl _ (bucket_range p)) (miss_fuel _ _ _ _ Hl)
      (forall_sub _ _ _ _ (layout_miss _ _ _ Hin))). cbn [mbind option_bind]. change (0 <=? -1) with false. cbv iota.
    rewrite (abs_miss _ _ _ Hin), (abs_size _ _ _ Hl).
    pose proof (linked_head _ _ _ (sl_free _ _ _ Hl)) as Hh. pose proof (sl_all _ _ _ Hl) as Hall.
    destruct fl as [|i fl]; cbn in Hh; rewrite Hh.
    + cbn in Hall. rewrite Hall. cbn. exists s0. split; [done|]. by eapply rep_intro.
    + pose proof (free_bound _ _ _ Hl i ltac:(constructor)). rewrite (proj2 (Z.ltb_ge i 0)) by lia.
      cbn in Hall. rewrite length_app in Hall. rewrite (proj2 (Z.eqb_neq (Z.of_nat (length used)) SHARED_PAGE_MAX)) by lia.
      eexists. split; [done|]. assert (sp_valid p = true) as Hv by by rewrite sp_valid_land, Ev.
      destruct (layout_insert _ _ _ _ _ Hl Hv Hin) as [Hl' Eabs']. eapply rep_intro; [exact Hl'| |done]. by rewrite Eabs'.
Qed.

Lemma free_one pm p : exists ok pm', pmm_free_pages pm p 1 = Some (ok, pm').
Proof. unfold pmm_free_pages. change (negb (0 <? 1)) with false. cbv iota zeta. repeat case_if; eauto. Qed.

Lemma sp_unref_refines s m pm p :
  sp_rep s m -> exists s' m' pm', shared_page_unref s pm p = Some (s', pm') /\
    spec_unref m pm p = Some (m', pm') /\ sp_rep s' m'.
Proof.
  intros Hrep. unfold shared_page_unref, spec_unref, sp_valid.
  destruct (Z.eqb_spec p 0) as [|Hp0]; [by exists s, m, pm|]. cbn [negb andb].
  destruct (Z.land p (PAGE_SIZE - 1) =? 0); [|by exists s, m, pm]. cbn [negb].
  destruct (rep_init s m Hrep) as (used & fl & Hl & -> & Hi).
  set (s0 := shared_pages_init_locked s) in *. unfold unref_find.
  destruct (decide (p ∈ ((fun i => sp_paddr (entry s0 i)) <$> used))) as [Hin|Hin].
  2: { destruct (unref_find_miss s0 p _ (-1) _ _ (sl_chain _ _ _ Hl _ (bucket_range p)) (miss_fuel _ _ _ _ Hl)
         (forall_sub _ _ _ _ (layout_miss _ _ _ Hin))) as [prev ->]. cbn [mbind option_bind].
       rewrite (abs_miss _ _ _ Hin). do 3 eexists. repeat (split; [done|]). by eapply rep_intro. }
  destruct (layout_hit _ _ _ Hl p Hin) as (u1 & i & u2 & Eu & Hp & Hne). subst used.
  pose proof (hit_chain _ _ _ _ _ Hl) as Hc. rewrite Hp in Hc. apply Forall_app in Hne as Hne'. destruct Hne' as [Hn1 _].
  rewrite (unref_find_hit s0 p _ i _ _ _ _ Hc (hit_fuel _ _ _ _ _ _ Hl) (forall_sub _ _ _ _ Hn1) Hp). cbn [mbind option_bind].
  pose proof (used_bound _ _ _ Hl i ltac:(apply elem_of_app; right; constructor)).
  rewrite (proj2 (Z.ltb_ge i 0)) by lia.
  destruct (abs_split _ _ _ Hl _ _ _ eq_refl) as [Eabs _]. rewrite Hp in Eabs.
  assert (sp_abs s0 (u1 ++ i :: u2) !! p = Some (sp_refcount (entry s0 i))) as -> by (rewrite Eabs; apply lookup_insert_eq).
  pose proof (sl_ok _ _ _ Hl) as Hok. rewrite Forall_forall in Hok.
  destruct (Hok i ltac:(apply elem_of_app; right; constructor)) as [_ Hr]. rewrite <-Hp in Hne.
  destruct (Z.ltb_spec 1 (sp_refcount (entry s0 i))).
  - rewrite u32_id by lia. do 3 eexists. repeat (split; [done|]).
    destruct (layout_set_count _ _ _ _ _ _ (sp_refcount (entry s0 i) - 1) Hl eq_refl Hne ltac:(lia)) as [Hl' Eabs'].
    eapply rep_intro; [exact Hl'| |done]. by rewrite Eabs', Hp.
  - destruct (free_one pm p) as (ok & pm' & ->). cbn [mbind option_bind]. do 3 eexists. repeat (split; [done|]).
    destruct (layout_remove _ _ _ _ _ Hl Hne) as [Hl' Eabs']. rewrite Hp in Hl', Eabs'.
    eapply rep_intro; [exact Hl'|exact (eq_sym Eabs')|]. cbn. by case_if.
Qed.

(** ** Sequences of operations *)

Inductive sp_op := SpRef (paddr : Z) | SpUnref (paddr : Z).

(** The results of the [shared_page_ref] calls, the table and the allocator after [ops]. *)
Fixpoint sp_run (s : shared_pages) (pm : pmm_t) (ops : list sp_op) : option (list bool * shared_pages * pmm_t) :=
  match ops with
  | [] => Some ([], s, pm)
  | SpRef p :: ops =>
      '(ok, s) ← shared_page_ref s p;
      '(rs, s, pm) ← sp_run s pm ops;
      Some (ok :: rs, s, pm)
  | SpUnref p :: ops => '(s, pm) ← shared_page_unref s pm p; sp_run s pm ops
  end.

Fixpoint spec_run (m : refcounts) (pm : pmm_t) (ops : list sp_op) : option (list bool * refcounts * pmm_t) :=
  match ops with
  | [] => Some ([], m, pm)
  | SpRef p :: ops =>
      let '(ok, m) := spec_ref m p in
      '(rs, m, pm) ← spec_run m pm ops;
      Some (ok :: rs, m, pm)
  | SpUnref p :: ops => '(m, pm) ← spec_unref m pm p; spec_run m pm ops
  end.

Lemma sp_run_refines ops s m pm :
  sp_rep s m ->
  exists rs s' m' pm', sp_run s pm ops = Some (rs, s', pm') /\ spec_run m pm ops = Some (rs, m', pm') /\ sp_rep s' m'.
Proof.
  revert s m pm. induction ops as [|[p|p] ops IH]; intros s m pm Hrep; cbn [sp_run spec_run].
  - by exists [], s, m, pm.
  - destruct (sp_ref_refines s m p Hrep) as (s1 & -> & Hrep1). cbn [mbind option_bind].
    destruct (spec_ref m p) as [ok m1]. cbn [fst snd] in *.
    destruct (IH s1 m1 pm Hrep1) as (rs & s' & m' & pm' & -> & -> & ?). cbn [mbind option_bind]. by exists (ok :: rs), s', m', pm'.
  - destruct (sp_unref_refines s m pm p Hrep) as (s1 & m1 & pm1 & -> & -> & Hrep1). cbn [mbind option_bind]. by apply IH.
Qed.

(** C9. The table of shared pages implements the map from page to reference
    count: every sequence of [shared_page_ref] and [shared_page_unref] calls from
    the boot state runs to the end (no chain is circular, no walk leaves the
    array), gives the results the map gives, and returns a page to the allocator
    exactly when its last reference goes; a page is refused only when it is 0,
    unaligned, at the maximal count, or new with all 4096 entries in use. *)
Theorem shared_pages_refine ops pm :
  exists rs s m pm',
    sp_run shared_pages_boot pm ops = Some (rs, s, pm') /\ spec_run ∅ pm ops = Some (rs, m, pm') /\ sp_rep s m.
Proof. by apply sp_run_refines. Qed.
