(* ===== verification/PhysMem.v ===== *)
(** * Physical memory and kernel allocations: kernel/mm/kmalloc.c

    [kmem] is the part of the machine the memory subsystem works on: the page
    allocator, the table of shared pages and the contents of memory as 64-bit
    words by physical address.  Kernel pointers into the direct map are written as
    physical addresses; [phys_to_virt] and [virt_to_phys] of include/mm_vm.h add
    and subtract the constant [KERNEL_VMA], so nothing is lost, and NULL is 0.

    The second half is the allocator of kernel objects, which keeps a header in
    front of each block. *)

From stdpp Require Import options.
From Stdlib Require Import Lia.
From S2P Require Import Prelude Bitmap Pmm SharedPage.

Record kmem := mk_kmem { km_pmm : pmm_t; km_shared : shared_pages; km_word : Z -> Z }.

Definition set_pmm (w : kmem) (pm : pmm_t) : kmem := mk_kmem pm (km_shared w) (km_word w).
Definition set_shared (w : kmem) (s : shared_pages) : kmem := mk_kmem (km_pmm w) s (km_word w).
Definition set_words (w : kmem) (f : Z -> Z) : kmem := mk_kmem (km_pmm w) (km_shared w) f.

(** A store of one word, and [memset(p, 0, n)] of whole words. *)
Definition store (w : kmem) (a v : Z) : kmem :=
  set_words w (fun x => if x =? a then v else km_word w x).
Definition clear_words (w : kmem) (a n : Z) : kmem :=
  set_words w (fun x => if (a <=? x) && (x <? a + n) then 0 else km_word w x).

Lemma word_store_eq w a v : km_word (store w a v) a = v.
Proof. cbn. by rewrite Z.eqb_refl. Qed.
Lemma word_store_ne w a v x : x <> a -> km_word (store w a v) x = km_word w x.
Proof. intros. cbn. by rewrite (proj2 (Z.eqb_neq _ _)). Qed.
Lemma word_clear_in w a n x : a <= x < a + n -> km_word (clear_words w a n) x = 0.
Proof. intros. cbn. destruct (Z.leb_spec a x), (Z.ltb_spec x (a + n)); try lia. done. Qed.
Lemma word_clear_out w a n x : x < a \/ a + n <= x -> km_word (clear_words w a n) x = km_word w x.
Proof. intros. cbn. destruct (Z.leb_spec a x), (Z.ltb_spec x (a + n)); try lia; done. Qed.

(** ** One page of the allocator

    [free_at pm x]: the allocator may hand out the page at [x]. *)
Definition free_at (pm : pmm_t) (x : Z) : Prop :=
  exists i, 0 <= i < pm_total_pages pm /\ x = page_addr pm i /\ bitmap_test (pm_bitmap pm) i = false.

(** The managed range of two allocators is the same. *)
Definition same_range (pm pm' : pmm_t) : Prop :=
  pm_start_addr pm' = pm_start_addr pm /\ pm_total_pages pm' = pm_total_pages pm /\
  pm_reserved pm' = pm_reserved pm.

Lemma same_range_refl pm : same_range pm pm.
Proof. done. Qed.
Lemma same_range_trans p q r : same_range p q -> same_range q r -> same_range p r.
Proof. intros (? & ? & ?) (? & ? & ?). split_and!; congruence. Qed.

Lemma free_at_page pm x : pmm_inv pm -> free_at pm x -> 0 < x < U64_MOD /\ x mod PAGE_SIZE = 0.
Proof.
  intros Hinv (i & Hi & -> & _). pmm_nums Hinv. pose proof (pi_start _ Hinv) as [_ Hal].
  unfold page_addr. split; [lia|]. by rewrite Z_mod_plus_full.
Qed.

Lemma page_addr_inj pm i j : page_addr pm i = page_addr pm j -> i = j.
Proof. unfold page_addr. lia. Qed.

Lemma alloc_one pm :
  pmm_inv pm ->
  (pmm_alloc_pages pm 1 = Some (0, pm) /\ forall x, ~ free_at pm x) \/
  exists x pm', pmm_alloc_pages pm 1 = Some (x, pm') /\ x <> 0 /\ free_at pm x /\ pmm_inv pm' /\
    same_range pm pm' /\ pm_free_pages pm' = pm_free_pages pm - 1 /\
    forall y, free_at pm' y <-> free_at pm y /\ y <> x.
Proof.
  intros Hinv. destruct (pmm_alloc_pages_spec pm 1 Hinv) as [[E Hno]|(i & pm' & E & Ha & Hinv')]; [lia|left|right].
  - split; [done|]. intros x (i & Hi & _ & Hb). apply (Hno i); [lia|rewrite (pi_size _ Hinv); lia|].
    intros j Hj. by replace j with i by lia.
  - destruct Ha as (Hi0 & Hi1 & Hrun & Hbits & Hfree & Heq).
    assert (free_at pm (page_addr pm i)) as Hfi. { exists i. split; [lia|]. split; [done|]. apply Hrun. lia. }
    exists (page_addr pm i), pm'. destruct (free_at_page _ _ Hinv Hfi) as [? _].
    assert (same_range pm pm') as Hsr by (rewrite Heq; done).
    split_and!; [done|lia|done|done|done|done|].
    intros y. unfold free_at. destruct Hsr as (Hs & -> & _). unfold page_addr. rewrite Hs.
    split; [intros (k & Hk & -> & Hb)|intros ((k & Hk & -> & Hb) & Hne)].
    + rewrite Hbits in Hb by lia. apply orb_false_elim in Hb as [Hr Hb]. split; [by exists k|].
      intros Hc. assert (k = i) as -> by lia. assert (in_range i 1 i = true) by (apply in_range_spec; lia). congruence.
    + exists k. split; [done|]. split; [done|]. rewrite Hbits by lia. rewrite Hb, orb_false_r.
      destruct (in_range i 1 k) eqn:Er; [|done]. apply in_range_spec in Er. destruct Hne. f_equal. lia.
Qed.

Lemma free_one_spec pm x :
  pmm_inv pm -> 0 <= x < U64_MOD ->
  exists ok pm', pmm_free_pages pm x 1 = Some (ok, pm') /\ pmm_inv pm' /\ same_range pm pm' /\
    if ok then ~ free_at pm x /\ (forall y, free_at pm' y <-> free_at pm y \/ y = x) /\
      pm_free_pages pm' = pm_free_pages pm + 1
    else pm' = pm.
Proof.
  intros Hinv Hx. destruct (pmm_free_pages_refuses pm x 1 Hinv ltac:(lia) Hx) as [E|[i Hi]].
  { by exists false, pm. }
  destruct (pmm_free_pages_accepts pm x 1 i Hinv ltac:(lia) Hi) as (pm' & E & (Hbits & Hfree & Heq) & Hinv').
  destruct Hi as (-> & Hi0 & Hi1 & Hall). assert (same_range pm pm') as Hsr by (rewrite Heq; done).
  exists true, pm'. split_and!; [done..| | |done].
  - intros (k & _ & Hk%page_addr_inj & Hb). subst k. destruct (Hall i ltac:(lia)). congruence.
  - intros y. unfold free_at. destruct Hsr as (Hs & -> & _). unfold page_addr. rewrite Hs.
    split; [intros (k & Hk & -> & Hb)|intros [(k & Hk & -> & Hb)| ->]].
    + rewrite Hbits in Hb by lia. destruct (in_range i 1 k) eqn:Er.
      * apply in_range_spec in Er. right. f_equal. lia.
      * left. by exists k.
    + exists k. split; [done|]. split; [done|]. rewrite Hbits by lia. by rewrite Hb, andb_false_r.
    + exists i. split; [lia|]. split; [done|]. rewrite Hbits by lia.
      rewrite (proj2 (in_range_spec i 1 i)) by lia. done.
Qed.

(** ** kalloc_pages and kmalloc *)

Definition kalloc_pages (w : kmem) (pages : Z) : option (Z * kmem) :=
  '(paddr, pm) ← pmm_alloc_pages (km_pmm w) pages;
  let w := set_pmm w pm in
  if paddr =? 0 then Some (0, w)
  else Some (paddr, clear_words w paddr (u64 (pages * PAGE_SIZE))).

Definition kfree_pages (w : kmem) (addr pages : Z) : option kmem :=
  if addr =? 0 then Some w
  else '(_, pm) ← pmm_free_pages (km_pmm w) addr pages; Some (set_pmm w pm).

Abbreviation KMALLOC_MAGIC := 5426064922004898609.
Abbreviation KMALLOC_HDR := 16.

(** The header [kmalloc_hdr_t] at [h]: the word [magic], then [pages] and [size]
    in the low and high half of the second word. *)
Definition hdr_magic (w : kmem) (h : Z) : Z := km_word w h.
Definition hdr_pages (w : kmem) (h : Z) : Z := km_word w (h + 8) mod U32_MOD.
Definition hdr_size (w : kmem) (h : Z) : Z := km_word w (h + 8) / U32_MOD.

Definition kmalloc (w : kmem) (size : Z) : option (Z * kmem) :=
  if size =? 0 then Some (0, w)
  else if U32_MOD - 1 - KMALLOC_HDR <? size then Some (0, w)
  else
    let total := u64 (size + KMALLOC_HDR) in
    let pages := u32 (u64 (total + PAGE_SIZE - 1) / PAGE_SIZE) in
    '(h, w) ← kalloc_pages w pages;
    if h =? 0 then Some (0, w)
    else
      let w := store w h KMALLOC_MAGIC in
      let w := store w (h + 8) (pages + u32 size * U32_MOD) in
      Some (h + KMALLOC_HDR, w).

Definition kfree (w : kmem) (ptr : Z) : option kmem :=
  if ptr =? 0 then Some w
  else if negb (Z.land ptr (PAGE_SIZE - 1) =? KMALLOC_HDR) then Some w
  else
    let h := ptr - KMALLOC_HDR in
    if negb (hdr_magic w h =? KMALLOC_MAGIC) then Some w
    else
      let pages := hdr_pages w h in
      let size := hdr_size w h in
      if (pages =? 0) || (u64 (u64 (pages * PAGE_SIZE) - KMALLOC_HDR) <? size) then Some w
      else kfree_pages (store w h 0) h pages.

(** ** Properties of the object allocator *)

(** The number of pages of a block of [size] bytes. *)
Definition block_len (size : Z) : Z := (size + KMALLOC_HDR + (PAGE_SIZE - 1)) / PAGE_SIZE.

Lemma block_len_fits size :
  0 < size <= U32_MOD - 1 - KMALLOC_HDR ->
  0 < block_len size < 1048577 /\ size + KMALLOC_HDR <= block_len size * PAGE_SIZE < size + KMALLOC_HDR + PAGE_SIZE.
Proof.
  intros Hs. unfold block_len. pose proof (Z_div_mod_eq_full (size + KMALLOC_HDR + (PAGE_SIZE - 1)) PAGE_SIZE).
  pose proof (Z.mod_pos_bound (size + KMALLOC_HDR + (PAGE_SIZE - 1)) PAGE_SIZE). lia.
Qed.

(** What [kmalloc] leaves behind: [n] fresh pages, the header, a cleared payload. *)
Lemma kmalloc_spec w size :
  pmm_inv (km_pmm w) -> 0 < size <= U32_MOD - 1 - KMALLOC_HDR ->
  let n := block_len size in
  (kmalloc w size = Some (0, w) /\ no_run (pm_bitmap (km_pmm w)) 0 n) \/
  exists i w', let h := page_addr (km_pmm w) i in
    kmalloc w size = Some (h + KMALLOC_HDR, w') /\ allocates (km_pmm w) (km_pmm w') i n /\ pmm_inv (km_pmm w') /\
    hdr_magic w' h = KMALLOC_MAGIC /\ hdr_pages w' h = n /\ hdr_size w' h = size /\
    (forall x, h + KMALLOC_HDR <= x < h + n * PAGE_SIZE -> km_word w' x = 0) /\
    (forall x, x < h \/ h + n * PAGE_SIZE <= x -> km_word w' x = km_word w x).
Proof.
  intros Hinv Hs n. destruct (block_len_fits size Hs) as [Hn Hfit]. fold n in Hn, Hfit.
  unfold kmalloc, kalloc_pages. rewrite (proj2 (Z.eqb_neq size 0)), (proj2 (Z.ltb_ge _ _)) by lia.
  rewrite (u64_id (size + _)), (u64_id (size + _ + _ - 1)) by lia.
  replace (size + KMALLOC_HDR + PAGE_SIZE - 1) with (size + KMALLOC_HDR + (PAGE_SIZE - 1)) by lia.
  fold (block_len size). fold n. rewrite (u32_id n) by lia.
  destruct (pmm_alloc_pages_spec (km_pmm w) n Hinv ltac:(lia)) as [[-> Hno]|(i & pm & -> & Ha & Hinv')];
    cbn [mbind option_bind].
  { left. cbn. split; [|done]. by destruct w. }
  right. pmm_nums Hinv. pose proof Ha as (Hi & _). set (h := page_addr (km_pmm w) i).
  assert (0 < h) by (unfold h, page_addr; lia). rewrite !(proj2 (Z.eqb_neq h 0)) by lia.
  rewrite (u32_id size), (u64_id (n * _)) by lia. cbn [mbind option_bind]. rewrite (proj2 (Z.eqb_neq h 0)) by lia.
  eexists i, _. split; [done|]. split; [done|]. split; [done|]. fold h.
  unfold hdr_magic, hdr_pages, hdr_size. rewrite word_store_ne by lia. rewrite !word_store_eq.
  split; [done|]. split; [rewrite Z.mod_add by lia; apply Z.mod_small; lia|].
  split; [rewrite Z.div_add by lia; rewrite Z.div_small by lia; lia|]. split; intros x Hx.
  - rewrite !word_store_ne by lia. apply word_clear_in. lia.
  - rewrite !word_store_ne by lia. rewrite word_clear_out by lia. done.
Qed.

(** An allocated run may be released. *)
Lemma allocates_releasable p p' i n :
  pmm_inv p -> allocates p p' i n -> releasable p' (page_addr p i) n i.
Proof.
  intros Hinv (Hi & Hin & Hrun & Hb & _ & Heq). rewrite Heq. split_and!; [done|done|done|].
  intros k Hk. cbn. rewrite Hb by lia. rewrite (proj2 (in_range_spec i n k)) by done. split; [done|].
  change (reserved_page p k = false). destruct (reserved_page p k) eqn:Er; [|done].
  pose proof (pi_resv_set _ Hinv k ltac:(lia) Er) as Ht. pose proof (Hrun k Hk). congruence.
Qed.

Lemma kfree_spec w h n size i :
  pmm_inv (km_pmm w) -> h = page_addr (km_pmm w) i -> releasable (km_pmm w) h n i ->
  hdr_magic w h = KMALLOC_MAGIC -> hdr_pages w h = n -> hdr_size w h = size ->
  0 < n < U32_MOD -> size + KMALLOC_HDR <= n * PAGE_SIZE ->
  exists pm', kfree w (h + KMALLOC_HDR) = Some (set_pmm (store w h 0) pm') /\ releases (km_pmm w) pm' i n /\
    pmm_inv pm' /\ kfree (set_pmm (store w h 0) pm') (h + KMALLOC_HDR) = Some (set_pmm (store w h 0) pm').
Proof.
  intros Hinv Hh Hr Hm Hp Hs Hn Hfit. pmm_nums Hinv. pose proof (pi_start _ Hinv) as [_ Hal].
  assert (0 < h) by (rewrite Hh; destruct Hr as (_ & ? & _); unfold page_addr; lia).
  assert (h mod PAGE_SIZE = 0) as Hhm by (rewrite Hh; unfold page_addr; by rewrite Z_mod_plus_full).
  assert (Z.land (h + KMALLOC_HDR) (PAGE_SIZE - 1) = KMALLOC_HDR) as Hland.
  { rewrite land_page_mask, Zplus_mod, Hhm. done. }
  destruct (pmm_free_pages_accepts (km_pmm w) h n i Hinv Hn Hr) as (pm' & E & Hrel & Hinv').
  exists pm'. unfold kfree. rewrite (proj2 (Z.eqb_neq (h + KMALLOC_HDR) 0)), Hland by lia. cbn [negb Z.eqb].
  replace (h + KMALLOC_HDR - KMALLOC_HDR) with h by lia. change (negb (KMALLOC_HDR =? KMALLOC_HDR)) with false. cbv iota.
  split; [|split; [done|split; [done|]]].
  - rewrite Hm, Z.eqb_refl, Hp, Hs. cbn [negb]. rewrite (proj2 (Z.eqb_neq n 0)) by lia.
    rewrite (u64_id (n * _)), (u64_id (_ - _)) by lia. rewrite (proj2 (Z.ltb_ge _ _)) by lia. cbn [orb].
    unfold kfree_pages. rewrite (proj2 (Z.eqb_neq h 0)) by lia. cbn [km_pmm store set_words]. rewrite E. done.
  - unfold hdr_magic. cbn [set_pmm km_word]. by rewrite word_store_eq.
Qed.

(** C10. [kmalloc] of a size that fits either returns NULL, when no run of pages
    is long enough, or a block of at least [size] zeroed bytes in pages that were
    free, and touches no other memory.  Whatever the owner writes behind the
    header, [kfree] of the pointer gives back exactly those pages, so the
    allocator's map and count are as before, and a second [kfree] of the pointer
    is refused while the page is not reused. *)
Theorem kmalloc_kfree_roundtrip w size :
  pmm_inv (km_pmm w) -> 0 < size <= U32_MOD - 1 - KMALLOC_HDR ->
  (kmalloc w size = Some (0, w) /\ no_run (pm_bitmap (km_pmm w)) 0 (block_len size)) \/
  exists h w', kmalloc w size = Some (h + KMALLOC_HDR, w') /\
    (forall x, h + KMALLOC_HDR <= x < h + KMALLOC_HDR + size -> km_word w' x = 0) /\
    (forall x, x < h \/ h + block_len size * PAGE_SIZE <= x -> km_word w' x = km_word w x) /\
    (forall x, h <= x < h + block_len size * PAGE_SIZE -> x mod PAGE_SIZE = 0 -> free_at (km_pmm w) x) /\
    forall f, f h = km_word w' h -> f (h + 8) = km_word w' (h + 8) ->
      exists w'', kfree (set_words w' f) (h + KMALLOC_HDR) = Some w'' /\ pmm_inv (km_pmm w'') /\
        (forall k, 0 <= k -> bitmap_test (pm_bitmap (km_pmm w'')) k = bitmap_test (pm_bitmap (km_pmm w)) k) /\
        pm_free_pages (km_pmm w'') = pm_free_pages (km_pmm w) /\
        kfree w'' (h + KMALLOC_HDR) = Some w''.
Proof.
  intros Hinv Hs. destruct (block_len_fits size Hs) as [Hn Hfit]. set (n := block_len size) in *.
  destruct (kmalloc_spec w size Hinv Hs) as [H|(i & w' & E & Ha & Hinv' & Hm & Hp & Hsz & Hz & Hout)]; [by left|right].
  fold n in Ha, Hp, Hz, Hout. set (h := page_addr (km_pmm w) i) in *. exists h, w'.
  split; [done|]. split; [intros x Hx; apply Hz; lia|]. split; [done|].
  pose proof Ha as (Hi & Hin & Hrun & Hb & Hfree & Heq). pose proof (pi_start _ Hinv) as [_ Hal]. split.
  - intros x Hx Hxm. exists ((x - pm_start_addr (km_pmm w)) / PAGE_SIZE). unfold h, page_addr in *.
    pose proof (Z_div_mod_eq_full (x - pm_start_addr (km_pmm w)) PAGE_SIZE) as Hd.
    rewrite Zminus_mod, Hxm, Hal in Hd. change ((0 - 0) mod PAGE_SIZE) with 0 in Hd.
    split; [lia|]. split; [lia|]. apply Hrun. lia.
  - intros f Hf Hf8. pose proof (allocates_releasable _ _ _ _ Hinv Ha) as Hr. fold h in Hr.
    assert (h = page_addr (km_pmm w') i) as Hh by (rewrite Heq; done).
    destruct (kfree_spec (set_words w' f) h n size i) as (pm' & E1 & (Hb' & Hfree' & _) & Hinv'' & E2); try done.
    { unfold hdr_magic in *. cbn. by rewrite Hf. }
    { unfold hdr_pages in *. cbn. by rewrite Hf8. }
    { unfold hdr_size in *. cbn. by rewrite Hf8. }
    { lia. } { lia. }
    eexists. split; [exact E1|]. split; [done|]. cbn [km_pmm set_pmm set_words store] in *. split; [|split; [lia|done]].
    intros k Hk. rewrite Hb', Hb by done. destruct (in_range i n k) eqn:Er; [|done].
    apply in_range_spec in Er. symmetry. apply Hrun. lia.
Qed.

(** A machine with the pool of 64 pages, for the examples. *)
Definition kmem64 : kmem := mk_kmem pool64 shared_pages_boot (fun x => x + 7).

Lemma kmalloc_kfree_roundtrip_witness :
  exists h w', kmalloc kmem64 5000 = Some (h + KMALLOC_HDR, w') /\
    forall x, h + KMALLOC_HDR <= x < h + KMALLOC_HDR + 5000 -> km_word w' x = 0.
Proof.
  destruct (kmalloc_kfree_roundtrip kmem64 5000 pool64_inv ltac:(lia)) as [[E _]|(h & w' & E & Hz & _)].
  - assert (exists h, fst <$> kmalloc kmem64 5000 = Some h /\ h <> 0) as (h & E' & Hh).
    { exists 1048592. split; [vm_compute; reflexivity|lia]. }
    rewrite E in E'. cbn in E'. congruence.
  - by exists h, w'.
Defined.

(** The pool with its first four pages handed out. *)
Definition demo_pmm : pmm_t := (default (0, pool64) (pmm_alloc_pages pool64 4)).2.

Lemma demo_pmm_inv : pmm_inv demo_pmm.
Proof.
  unfold demo_pmm. destruct (pmm_alloc_pages_spec pool64 4 pool64_inv ltac:(lia)) as [[E _]|(i & p' & E & _ & Hinv)].
  - exfalso. assert (fst <$> pmm_alloc_pages pool64 4 = Some 1048576) as E' by (vm_compute; reflexivity). rewrite E in E'. done.
  - by rewrite E.
Qed.

Lemma demo_taken x : 1048576 <= x <= 1060864 -> ~ free_at demo_pmm x.
Proof.
  intros Hx (i & Hi & E & Hb). assert (pm_start_addr demo_pmm = 1048576) as Es by (vm_compute; reflexivity).
  unfold page_addr in E. rewrite Es in E. assert (i = 0 \/ i = 1 \/ i = 2 \/ i = 3) as Hc by lia.
  destruct Hc as [->|[->|[->| ->]]]; vm_compute in Hb; discriminate.
Qed.
