(* ===== verification/PageTable.v ===== *)
(** * Radix page tables

    The three architectures walk a tree of 512-entry tables with the same steps and
    different entries.  [pt_format] is the interface of an entry format, [pt_laws] what
    the walk relies on; Riscv64.v, X86.v and Aarch64.v give the instances and the
    operations of kernel/mm/riscv64/vmm.c, kernel/mm/x86_64/vmm.c and
    kernel/mm/aarch64/vmm.c in terms of [walk_level].

    [pt_inv] is the shape of a tree in memory, with the ghost map [G] from a path of
    indices to the table it leads to.  The theorems show that the tree implements a
    flat map from virtual page to entry: a walk that allocates tables changes no
    entry, and a store through the walk's result changes one entry. *)

From stdpp Require Import options.
From Stdlib Require Import Lia.
From S2P Require Import Prelude Bitmap Pmm SharedPage PhysMem.

(** The permissions of [mm_vm_map_pages] (include/mm_vm.h). *)
Inductive vm_perm_t := VM_PERM_USER | VM_PERM_KERNEL | VM_PERM_KERNEL_MMIO.

Class pt_format := {
  pte_valid : Z -> bool;
  (** an upper entry that ends the walk: a large page *)
  pte_stop : Z -> bool;
  pte_pa : Z -> Z;
  pte_table : Z -> Z;
  (** the number of levels above the last one *)
  pt_upper : nat;
  (** the new entry is written before the new table is cleared *)
  pt_entry_first : bool;
  (** the root entries below this index belong to the address space *)
  pt_user_roots : Z;
}.

(** What physical addresses an entry can hold. *)
Abbreviation PT_PA_LIMIT := (2 ^ 48).

Class pt_laws `{!pt_format} : Prop := {
  pte_valid_0 : pte_valid 0 = false;
  pte_valid_table pa : pte_valid (pte_table pa) = true;
  pte_stop_table pa : 0 <= pa < PT_PA_LIMIT -> pa mod PAGE_SIZE = 0 -> pte_stop (pte_table pa) = false;
  pte_pa_table pa : 0 <= pa < PT_PA_LIMIT -> pa mod PAGE_SIZE = 0 -> pte_pa (pte_table pa) = pa;
  pt_roots_range : 0 <= pt_user_roots <= 512;
  pt_upper_pos : (0 < pt_upper)%nat;
}.

(** The index of [va] at a level: 9 bits above the page offset and the lower levels. *)
Definition pt_index (va : Z) (level : Z) : Z := Z.land (Z.shiftr va (PAGE_SHIFT + 9 * level)) 511.

Section walk.
Context {PF : pt_format}.

(** A new table [pa] behind the entry at [slot]. *)
Definition link_table (w : kmem) (slot pa : Z) : kmem :=
  if pt_entry_first
  then clear_words (store w slot (pte_table pa)) pa PAGE_SIZE
  else store (clear_words w pa PAGE_SIZE) slot (pte_table pa).

(** One level of a walk: the table behind the entry at [slot], [None] for NULL. *)
Definition walk_level (alloc : bool) (w : kmem) (slot : Z) : option (option Z * kmem) :=
  '(linked, w) ←
    (if pte_valid (km_word w slot) then Some (true, w)
     else if negb alloc then Some (false, w)
     else
       '(pa, pm) ← pmm_alloc_pages (km_pmm w) 1;
       let w := set_pmm w pm in
       if pa =? 0 then Some (false, w) else Some (true, link_table w slot pa));
  if negb linked then Some (None, w)
  else if pte_stop (km_word w slot) then Some (None, w)
  else Some (Some (pte_pa (km_word w slot)), w).

(** The walk through the upper levels along [path]. *)
Fixpoint walk_tables (alloc : bool) (w : kmem) (table : Z) (path : list Z) : option (option Z * kmem) :=
  match path with
  | [] => Some (Some table, w)
  | i :: path =>
      '(r, w) ← walk_level alloc w (table + 8 * i);
      match r with
      | None => Some (None, w)
      | Some table => walk_tables alloc w table path
      end
  end.

Definition upper_path (va : Z) : list Z := (fun l => pt_index va (Z.of_nat l)) <$> rev (seq 1 pt_upper).

(** The address of the last-level entry of [va]. *)
Definition walk_pt (alloc : bool) (w : kmem) (root va : Z) : option (option Z * kmem) :=
  '(r, w) ← walk_tables alloc w root (upper_path va);
  Some (option_map (fun t => t + 8 * pt_index va 0) r, w).
End walk.

(** ** Indices and pages *)

Lemma pt_index_range va l : 0 <= pt_index va l < 512.
Proof.
  unfold pt_index. change 511 with (2 ^ 9 - 1). rewrite land_pred_pow2 by lia. apply Z.mod_pos_bound. lia.
Qed.

Lemma pt_index_div va l : 0 <= l -> pt_index va l = va / 2 ^ (PAGE_SHIFT + 9 * l) mod 512.
Proof.
  intros. unfold pt_index. change 511 with (2 ^ 9 - 1). rewrite land_pred_pow2 by lia.
  by rewrite Z.shiftr_div_pow2 by lia.
Qed.

(** The virtual page number within the reach of [n + 1] levels. *)
Definition vpn (n : nat) (va : Z) : Z := va / PAGE_SIZE mod 512 ^ (Z.of_nat n + 1).

Lemma page_shift_pow k : 0 <= k -> PAGE_SIZE * 512 ^ k = 2 ^ (PAGE_SHIFT + 9 * k).
Proof.
  intros. rewrite Z.pow_add_r by lia. change (2 ^ PAGE_SHIFT) with PAGE_SIZE.
  change 512 with (2 ^ 9). by rewrite <-Z.pow_mul_r by lia.
Qed.

Lemma vpn_index n va : vpn (S n) va = vpn n va + 512 ^ (Z.of_nat n + 1) * pt_index va (Z.of_nat n + 1).
Proof.
  unfold vpn. rewrite pt_index_div by lia. replace (Z.of_nat (S n) + 1) with (Z.of_nat n + 1 + 1) by lia.
  rewrite (Z.pow_add_r 512 (_ + 1) 1), Z.pow_1_r by lia.
  assert (0 < 512 ^ (Z.of_nat n + 1)) by (apply Z.pow_pos_nonneg; lia).
  rewrite Z.rem_mul_r by lia. rewrite Z.div_div by lia. by rewrite page_shift_pow by lia.
Qed.

Lemma vpn_0 va : vpn 0 va = pt_index va 0.
Proof. unfold vpn. rewrite pt_index_div by lia. done. Qed.

Lemma vpn_range n va : 0 <= vpn n va < 512 ^ (Z.of_nat n + 1).
Proof. apply Z.mod_pos_bound, Z.pow_pos_nonneg; lia. Qed.

Lemma vpn_split n va vb :
  vpn (S n) va = vpn (S n) vb <-> vpn n va = vpn n vb /\ pt_index va (Z.of_nat n + 1) = pt_index vb (Z.of_nat n + 1).
Proof.
  rewrite !vpn_index. pose proof (vpn_range n va). pose proof (vpn_range n vb).
  split; [|intros [-> ->]; done]. intros E.
  destruct (Z.div_mod_unique (512 ^ (Z.of_nat n + 1)) (pt_index va (Z.of_nat n + 1)) (pt_index vb (Z.of_nat n + 1))
    (vpn n va) (vpn n vb)); [lia..|done].
Qed.

(** Two addresses are in one page exactly when their indices agree at every level. *)
Lemma vpn_path n va vb :
  vpn n va = vpn n vb <->
  ((fun l => pt_index va (Z.of_nat l)) <$> rev (seq 1 n)) = ((fun l => pt_index vb (Z.of_nat l)) <$> rev (seq 1 n)) /\
  pt_index va 0 = pt_index vb 0.
Proof.
  induction n as [|n IH].
  - rewrite !vpn_0. cbn. tauto.
  - rewrite vpn_split, IH, seq_S, rev_app_distr. cbn [rev app]. rewrite !fmap_cons.
    replace (Z.of_nat (1 + n)) with (Z.of_nat n + 1) by lia.
    split; [intros [[-> ->] ->]; done|]. intros [E ->]. injection E as -> ->. done.
Qed.

(** ** The tree in memory *)

Section tree.
Context {PF : pt_format} {PL : pt_laws}.

Definition user_index (p : list Z) (i : Z) : Prop := 0 <= i < 512 /\ (p = [] -> i < pt_user_roots).

(** [va] is translated by the part of the tree the address space owns. *)
Definition user_va (va : Z) : Prop := pt_index va (Z.of_nat pt_upper) < pt_user_roots.

(** The entry is a pointer to a table. *)
Definition points_to (e t : Z) : Prop := pte_valid e = true /\ pte_stop e = false /\ pte_pa e = t.

Record pt_inv (w : kmem) (root : Z) (G : gmap (list Z) Z) : Prop := {
  pt_pmm : pmm_inv (km_pmm w);
  pt_limit : page_addr (km_pmm w) (pm_total_pages (km_pmm w)) <= PT_PA_LIMIT;
  pt_root : G !! [] = Some root;
  pt_inj p q t : G !! p = Some t -> G !! q = Some t -> p = q;
  pt_tab p t : G !! p = Some t -> (length p <= pt_upper)%nat /\ t mod PAGE_SIZE = 0 /\ ~ free_at (km_pmm w) t;
  pt_child p i t' :
    G !! (p ++ [i]) = Some t' <->
    exists t, G !! p = Some t /\ (length p < pt_upper)%nat /\ user_index p i /\ points_to (km_word w (t + 8 * i)) t';
  (** a mapped page is not free and is not one of the tables *)
  pt_leaf p t i :
    G !! p = Some t -> length p = pt_upper -> 0 <= i < 512 -> pte_valid (km_word w (t + 8 * i)) = true ->
    ~ free_at (km_pmm w) (pte_pa (km_word w (t + 8 * i))) /\ forall q, G !! q <> Some (pte_pa (km_word w (t + 8 * i)));
}.

(** The flat map the tree implements: the entry of the page of [va], 0 where a table is missing. *)
Definition flat (w : kmem) (G : gmap (list Z) Z) (va : Z) : Z :=
  match G !! upper_path va with
  | Some t => km_word w (t + 8 * pt_index va 0)
  | None => 0
  end.

Lemma length_upper_path va : length (upper_path va) = pt_upper.
Proof using Type. unfold upper_path. by rewrite length_fmap, length_rev, length_seq. Qed.

(** A path that stays in the user part. *)
Definition path_ok (p : list Z) : Prop := forall p1 i p2, p = p1 ++ i :: p2 -> user_index p1 i.

Lemma upper_path_ok va : user_va va -> path_ok (upper_path va).
Proof using PL.
  intros Hu p1 i p2 E. split.
  - assert (i ∈ upper_path va) as Hi by (rewrite E; apply elem_of_app; right; constructor).
    apply list_elem_of_fmap in Hi as (l & -> & _). apply pt_index_range.
  - intros ->. pose proof pt_upper_pos as Hp. unfold upper_path in E. unfold user_va in Hu.
    destruct pt_upper as [|n]; [lia|]. rewrite seq_S, rev_app_distr in E. cbn [rev app] in E. rewrite fmap_cons in E.
    injection E as <- _. replace (Z.of_nat (1 + n)) with (Z.of_nat (S n)) by lia. done.
Qed.

Lemma aligned_disjoint t1 t2 i j :
  t1 mod PAGE_SIZE = 0 -> t2 mod PAGE_SIZE = 0 -> 0 <= i < 512 -> 0 <= j < 512 ->
  t1 + 8 * i = t2 + 8 * j -> t1 = t2 /\ i = j.
Proof using Type.
  intros H1 H2 Hi Hj E. pose proof (Z_div_mod_eq_full t1 PAGE_SIZE). pose proof (Z_div_mod_eq_full t2 PAGE_SIZE). lia.
Qed.

Lemma aligned_outside t x i :
  t mod PAGE_SIZE = 0 -> x mod PAGE_SIZE = 0 -> 0 <= i < 512 -> t <> x -> t + 8 * i < x \/ x + PAGE_SIZE <= t + 8 * i.
Proof using Type.
  intros H1 H2 Hi E. pose proof (Z_div_mod_eq_full t PAGE_SIZE). pose proof (Z_div_mod_eq_full x PAGE_SIZE). lia.
Qed.

Section inv.
Context (w : kmem) (root : Z) (G : gmap (list Z) Z) (Hinv : pt_inv w root G).

Lemma pt_prefix p q t : G !! (p ++ q) = Some t -> exists t', G !! p = Some t'.
Proof using Hinv.
  revert t. induction q as [|i q IH] using rev_ind; intros t; [rewrite app_nil_r; eauto|].
  rewrite app_assoc. intros (t' & H & _)%(pt_child _ _ _ Hinv). eauto.
Qed.

Lemma child_none p i t :
  G !! p = Some t -> (length p < pt_upper)%nat -> user_index p i ->
  (forall t', ~ points_to (km_word w (t + 8 * i)) t') -> G !! (p ++ [i]) = None.
Proof using Hinv.
  intros Hp Hl Hi Hn. destruct (G !! (p ++ [i])) as [t'|] eqn:E; [|done].
  apply (pt_child _ _ _ Hinv) in E as (t2 & E2 & _ & _ & Hpt). rewrite Hp in E2. injection E2 as <-. by destruct (Hn t').
Qed.

(** The walk that allocates nothing finds the tables of [G]. *)
Lemma walk_tables_read p t js :
  G !! p = Some t -> path_ok (p ++ js) -> (length (p ++ js) <= pt_upper)%nat ->
  walk_tables false w t js = Some (G !! (p ++ js), w).
Proof using Hinv.
  revert p t. induction js as [|i js IH]; intros p t Hp Hok Hlen; cbn [walk_tables].
  - by rewrite app_nil_r, Hp.
  - pose proof (Hok p i js eq_refl) as Hi. rewrite length_app in Hlen. cbn [length] in Hlen.
    assert (forall t', ~ points_to (km_word w (t + 8 * i)) t' -> G !! (p ++ [i]) <> Some t') as Hno.
    { intros t' Hn (t2 & E & _ & _ & Hpt)%(pt_child _ _ _ Hinv). rewrite Hp in E. by injection E as <-. }
    assert ((forall t', ~ points_to (km_word w (t + 8 * i)) t') -> G !! (p ++ i :: js) = None) as Hnone.
    { intros Hn. destruct (G !! (p ++ i :: js)) as [t2|] eqn:E; [|done].
      rewrite (cons_middle i p js) in E. destruct (pt_prefix (p ++ [i]) js t2) as [t3 E3]; [by rewrite <-app_assoc|].
      by destruct (Hno t3 (Hn t3)). }
    unfold walk_level. destruct (pte_valid (km_word w (t + 8 * i))) eqn:Ev; cbn [mbind option_bind negb].
    2: { rewrite Hnone; [done|]. intros t' (E & _). congruence. }
    destruct (pte_stop (km_word w (t + 8 * i))) eqn:Es; cbn [mbind option_bind].
    { rewrite Hnone; [done|]. intros t' (_ & E & _). congruence. }
    rewrite (cons_middle i p js), app_assoc. apply IH.
    + apply (pt_child _ _ _ Hinv). exists t. split; [done|]. split; [lia|]. done.
    + by rewrite <-app_assoc, <-cons_middle.
    + rewrite !length_app. cbn. lia.
Qed.

Lemma walk_pt_read va :
  user_va va ->
  walk_pt false w root va = Some (option_map (fun t => t + 8 * pt_index va 0) (G !! upper_path va), w).
Proof using Hinv PL.
  intros Hu. unfold walk_pt. rewrite (walk_tables_read [] root (upper_path va)); [done|apply Hinv|by apply upper_path_ok|].
  cbn. by rewrite length_upper_path.
Qed.
End inv.

(** A root table whose user part is empty is a tree. *)
Lemma pt_inv_fresh w root :
  pmm_inv (km_pmm w) -> page_addr (km_pmm w) (pm_total_pages (km_pmm w)) <= PT_PA_LIMIT ->
  root mod PAGE_SIZE = 0 -> ~ free_at (km_pmm w) root ->
  (forall i, user_index [] i -> pte_valid (km_word w (root + 8 * i)) = false) ->
  pt_inv w root {[ [] := root ]}.
Proof using PL.
  intros Hpm Hlim Hal Hnf Hz. pose proof pt_upper_pos. split; [done|done|by apply lookup_singleton_eq|..].
  - intros p q t [<- _]%lookup_singleton_Some [<- _]%lookup_singleton_Some. done.
  - intros p t [<- <-]%lookup_singleton_Some. split; [cbn; lia|done].
  - intros p i t'. split.
    + intros [E _]%lookup_singleton_Some. by destruct p.
    + intros (t & [<- <-]%lookup_singleton_Some & _ & Hi & Hv & _). rewrite Hz in Hv; done.
  - intros p t i [<- <-]%lookup_singleton_Some Hl. cbn in Hl. lia.
Qed.

(** ** Adding a table *)

Lemma word_link w slot x a :
  slot < x \/ x + PAGE_SIZE <= slot ->
  km_word (link_table w slot x) a =
    if a =? slot then pte_table x else if (x <=? a) && (a <? x + PAGE_SIZE) then 0 else km_word w a.
Proof using Type.
  intros Hs. unfold link_table. destruct pt_entry_first; cbn.
  - destruct (Z.eqb_spec a slot) as [->|]; [|done].
    destruct (Z.leb_spec x slot), (Z.ltb_spec slot (x + PAGE_SIZE)); try lia; done.
  - done.
Qed.

Lemma link_pmm w slot x : km_pmm (link_table w slot x) = km_pmm w.
Proof using Type. unfold link_table. by destruct pt_entry_first. Qed.
Lemma link_shared w slot x : km_shared (link_table w slot x) = km_shared w.
Proof using Type. unfold link_table. by destruct pt_entry_first. Qed.

Section link.
Context (w : kmem) (root : Z) (G : gmap (list Z) Z) (Hinv : pt_inv w root G).
Context (p : list Z) (t i : Z) (Hp : G !! p = Some t) (Hlen : (length p < pt_upper)%nat) (Hi : user_index p i).
Context (Hv : pte_valid (km_word w (t + 8 * i)) = false).
Context (x : Z) (pm' : pmm_t) (Hx : free_at (km_pmm w) x) (Hpm' : pmm_inv pm') (Hsr : same_range (km_pmm w) pm').
Context (Hfree : forall y, free_at pm' y <-> free_at (km_pmm w) y /\ y <> x).

Let w' := link_table (set_pmm w pm') (t + 8 * i) x.
Let G' := <[p ++ [i] := x]> G.

Lemma link_x : x mod PAGE_SIZE = 0 /\ 0 < x < PT_PA_LIMIT.
Proof using All.
  destruct (free_at_page _ _ (pt_pmm _ _ _ Hinv) Hx) as [? ?]. split; [done|].
  destruct Hx as (k & Hk & E & _). pose proof (pt_limit _ _ _ Hinv). unfold page_addr in *. lia.
Qed.

Lemma link_table_ne q tq : G !! q = Some tq -> tq <> x.
Proof using All. intros (_ & _ & Hn)%(pt_tab _ _ _ Hinv) ->. done. Qed.

(** The words of the old tables, the new entry apart. *)
Lemma link_word_old q tq j :
  G !! q = Some tq -> 0 <= j < 512 -> (q, j) <> (p, i) -> km_word w' (tq + 8 * j) = km_word w (tq + 8 * j).
Proof using All.
  intros Hq Hj Hne. destruct link_x as [Hxa _].
  destruct (pt_tab _ _ _ Hinv q tq Hq) as (_ & Ha & _). destruct (pt_tab _ _ _ Hinv p t Hp) as (_ & Hta & _).
  unfold w'. rewrite word_link by (apply aligned_outside; [done..|apply Hi|by apply (link_table_ne p)]).
  destruct (Z.eqb_spec (tq + 8 * j) (t + 8 * i)) as [E|].
  - apply aligned_disjoint in E as [-> ->]; [|done..|apply Hi]. destruct Hne. f_equal. by apply (pt_inj _ _ _ Hinv q p t).
  - destruct (aligned_outside tq x j) as [H|H]; [done..|by apply (link_table_ne q)| |];
      destruct (Z.leb_spec x (tq + 8 * j)), (Z.ltb_spec (tq + 8 * j) (x + PAGE_SIZE)); try lia; done.
Qed.

Lemma link_word_entry : km_word w' (t + 8 * i) = pte_table x.
Proof using All.
  destruct link_x as [Hxa _]. destruct (pt_tab _ _ _ Hinv p t Hp) as (_ & Hta & _). unfold w'.
  rewrite word_link by (apply aligned_outside; [done..|apply Hi|by apply (link_table_ne p)]). by rewrite Z.eqb_refl.
Qed.

Lemma link_word_new j : 0 <= j < 512 -> km_word w' (x + 8 * j) = 0.
Proof using All.
  intros Hj. destruct link_x as [Hxa _]. destruct (pt_tab _ _ _ Hinv p t Hp) as (_ & Hta & _). unfold w'.
  rewrite word_link by (apply aligned_outside; [done..|apply Hi|by apply (link_table_ne p)]).
  destruct (Z.eqb_spec (x + 8 * j) (t + 8 * i)) as [E|].
  - apply aligned_disjoint in E as [E _]; [|done..|apply Hi]. by destruct (link_table_ne p t).
  - destruct (Z.leb_spec x (x + 8 * j)), (Z.ltb_spec (x + 8 * j) (x + PAGE_SIZE)); try lia; done.
Qed.

Lemma link_fresh : G !! (p ++ [i]) = None.
Proof using All. apply (child_none w root G Hinv p i t); [done..|]. intros t' (E & _). congruence. Qed.

Lemma link_not_free y : ~ free_at (km_pmm w) y -> ~ free_at pm' y.
Proof using All. intros Hn [Hf _]%Hfree. done. Qed.

Lemma link_child q j t' :
  G' !! (q ++ [j]) = Some t' <->
  exists tq, G' !! q = Some tq /\ (length q < pt_upper)%nat /\ user_index q j /\ points_to (km_word w' (tq + 8 * j)) t'.
Proof using All.
  destruct link_x as [Hxa Hxl]. unfold G'. destruct (decide (q ++ [j] = p ++ [i])) as [E|Hne].
  - apply app_inj_tail in E as [-> ->]. rewrite lookup_insert_eq.
    rewrite (lookup_insert_ne _ (p ++ [i]) p) by (intros E%(f_equal length); rewrite length_app in E; cbn in E; lia).
    split.
    + intros E. injection E as <-. exists t. split; [done|]. split; [done|]. split; [done|]. rewrite link_word_entry.
      split; [apply pte_valid_table|]. split; [apply pte_stop_table; lia|apply pte_pa_table; lia].
    + intros (tq & E & _ & _ & Hpt). rewrite Hp in E. injection E as <-. rewrite link_word_entry in Hpt.
      destruct Hpt as (_ & _ & <-). by rewrite pte_pa_table by lia.
  - rewrite lookup_insert_ne by done. destruct (decide (q = p ++ [i])) as [->|Hq].
    + rewrite lookup_insert_eq. split.
      * intros E. destruct (pt_prefix w root G Hinv (p ++ [i]) [j] t' E) as [t2 E2]. rewrite link_fresh in E2. done.
      * intros (tq & E & _ & Hj & Hpt). injection E as <-. rewrite link_word_new in Hpt by apply Hj.
        destruct Hpt as (E & _). by rewrite pte_valid_0 in E.
    + rewrite lookup_insert_ne by done. rewrite (pt_child _ _ _ Hinv).
      assert ((q, j) <> (p, i)) as Hqj by congruence.
      split; intros (tq & E & ? & Hj & Hpt); exists tq; (split; [done|]; split; [done|]; split; [done|]).
      * rewrite (link_word_old q tq j); [done|done|apply Hj|done].
      * rewrite (link_word_old q tq j) in Hpt; [done|done|apply Hj|done].
Qed.

Lemma link_inv : pt_inv w' root G'.
Proof using All.
  destruct link_x as [Hxa Hxl]. split.
  - unfold w'. by rewrite link_pmm.
  - unfold w'. rewrite link_pmm. cbn. destruct Hsr as (Es & Et & _). unfold page_addr. rewrite Es, Et. apply Hinv.
  - unfold G'. rewrite lookup_insert_ne by (by destruct p). apply Hinv.
  - intros q1 q2 tq. unfold G'. rewrite !lookup_insert_Some. intros [[<- <-]|[Hn1 H1]] [[<- E]|[Hn2 H2]]; [done| | |].
    + by destruct (link_table_ne q2 x).
    + subst tq. by destruct (link_table_ne q1 x).
    + by apply (pt_inj _ _ _ Hinv q1 q2 tq).
  - intros q tq. unfold G'. rewrite lookup_insert_Some. unfold w'. rewrite link_pmm. cbn. intros [[<- <-]|[_ Hq]].
    + split; [rewrite length_app; cbn; lia|]. split; [done|]. rewrite Hfree. intros [_ ?]. done.
    + destruct (pt_tab _ _ _ Hinv q tq Hq) as (? & ? & ?). split; [done|]. split; [done|]. by apply link_not_free.
  - exact link_child.
  - intros q tq j Hq Hl Hj Hval. unfold G' in *. rewrite lookup_insert_Some in Hq. destruct Hq as [[<- <-]|[Hn Hq]].
    { rewrite link_word_new in Hval by done. by rewrite pte_valid_0 in Hval. }
    assert ((q, j) <> (p, i)) as Hqj by (intros E; injection E as -> ->; lia).
    rewrite (link_word_old q tq j Hq Hj Hqj) in Hval |- *. destruct (pt_leaf _ _ _ Hinv q tq j Hq Hl Hj Hval) as [Hnf Hnt].
    split; [unfold w'; rewrite link_pmm; by apply link_not_free|]. intros q2. rewrite lookup_insert_Some.
    intros [[_ E]|[_ E]]; [|by apply (Hnt q2)]. rewrite E in Hx. done.
Qed.

Lemma link_flat va : flat w' G' va = flat w G va.
Proof using All.
  unfold flat. unfold G'. destruct (decide (upper_path va = p ++ [i])) as [E|Hne].
  - rewrite E, lookup_insert_eq, link_fresh. apply link_word_new, pt_index_range.
  - rewrite lookup_insert_ne by done. destruct (G !! upper_path va) as [tu|] eqn:E; [|done].
    apply (link_word_old (upper_path va)); [done|apply pt_index_range|]. intros Hc. injection Hc as Hc _.
    pose proof (length_upper_path va) as Hl. rewrite Hc in Hl. lia.
Qed.
End link.

(** ** The walk that allocates *)

(** There are no large pages in the tree. *)
Definition no_large (w : kmem) (G : gmap (list Z) Z) : Prop :=
  forall p t i, G !! p = Some t -> (length p < pt_upper)%nat -> user_index p i ->
    pte_valid (km_word w (t + 8 * i)) = true -> pte_stop (km_word w (t + 8 * i)) = false.

(** What a walk may change: it adds tables, taken from free pages, and nothing else. *)
Record pt_grows (w w' : kmem) (G G' : gmap (list Z) Z) : Prop := {
  gr_range : same_range (km_pmm w) (km_pmm w');
  gr_free y : free_at (km_pmm w') y -> free_at (km_pmm w) y;
  gr_shared : km_shared w' = km_shared w;
  gr_sub : G ⊆ G';
  gr_new q t : G' !! q = Some t -> G !! q = Some t \/ free_at (km_pmm w) t;
  gr_count : pm_free_pages (km_pmm w') + Z.of_nat (size G') = pm_free_pages (km_pmm w) + Z.of_nat (size G);
  gr_flat va : flat w' G' va = flat w G va;
  gr_word a : (forall q t, G' !! q = Some t -> a < t \/ t + PAGE_SIZE <= a) -> km_word w' a = km_word w a;
  gr_large : no_large w G -> no_large w' G';
}.

Lemma pt_grows_refl w G : pt_grows w w G G.
Proof using Type. split; auto using same_range_refl. Qed.

Lemma pt_grows_trans w1 w2 w3 G1 G2 G3 :
  pt_grows w1 w2 G1 G2 -> pt_grows w2 w3 G2 G3 -> pt_grows w1 w3 G1 G3.
Proof using Type.
  intros H12 H23. split.
  - eapply same_range_trans; [apply H12|apply H23].
  - intros y Hy. by apply (gr_free _ _ _ _ H12), (gr_free _ _ _ _ H23).
  - rewrite (gr_shared _ _ _ _ H23). apply H12.
  - etrans; [apply H12|apply H23].
  - intros q t Hq. destruct (gr_new _ _ _ _ H23 q t Hq) as [H|H]; [by apply (gr_new _ _ _ _ H12)|].
    right. by apply (gr_free _ _ _ _ H12).
  - pose proof (gr_count _ _ _ _ H12). pose proof (gr_count _ _ _ _ H23). lia.
  - intros va. rewrite (gr_flat _ _ _ _ H23). apply H12.
  - intros a Ha. rewrite (gr_word _ _ _ _ H23) by done. apply (gr_word _ _ _ _ H12).
    intros q t Hq. apply (Ha q). eapply lookup_weaken; [done|apply H23].
  - intros Hl. apply H23, H12, Hl.
Qed.

(** A large page on the path stops the walk. *)
Definition pt_blocked (w : kmem) (G : gmap (list Z) Z) (path : list Z) : Prop :=
  exists p i q t, path = p ++ i :: q /\ G !! p = Some t /\ pte_valid (km_word w (t + 8 * i)) = true /\
    pte_stop (km_word w (t + 8 * i)) = true.

Lemma link_large w root G p t i x pm' :
  pt_inv w root G -> G !! p = Some t -> (length p < pt_upper)%nat -> user_index p i ->
  pte_valid (km_word w (t + 8 * i)) = false -> free_at (km_pmm w) x -> pmm_inv pm' ->
  same_range (km_pmm w) pm' -> (forall y, free_at pm' y <-> free_at (km_pmm w) y /\ y <> x) ->
  no_large w G -> no_large (link_table (set_pmm w pm') (t + 8 * i) x) (<[p ++ [i] := x]> G).
Proof using PL.
  intros Hinv Hp Hlen Hi Hv Hx Hpm Hsr Hfree Hl q tq j Hq Hlq Hj Hval.
  destruct (link_x w root G Hinv p t i Hp Hlen Hi Hv x pm' Hx Hpm Hsr Hfree) as [Hxa Hxl].
  rewrite lookup_insert_Some in Hq. destruct Hq as [[<- <-]|[Hne Hq]].
  { rewrite (link_word_new w root G Hinv p t i Hp Hlen Hi Hv x pm' Hx Hpm Hsr Hfree j) in Hval by apply Hj. by rewrite pte_valid_0 in Hval. }
  destruct (decide ((q, j) = (p, i))) as [E|E].
  - injection E as -> ->. rewrite Hp in Hq. injection Hq as <-.
    rewrite (link_word_entry w root G Hinv p t i Hp Hlen Hi Hv x pm' Hx Hpm Hsr Hfree). apply pte_stop_table; [lia|done].
  - rewrite (link_word_old w root G Hinv p t i Hp Hlen Hi Hv x pm' Hx Hpm Hsr Hfree q tq j) in * by (done || apply Hj). by apply (Hl q tq j).
Qed.

Lemma link_grows w root G p t i x pm' :
  pt_inv w root G -> G !! p = Some t -> (length p < pt_upper)%nat -> user_index p i ->
  pte_valid (km_word w (t + 8 * i)) = false -> free_at (km_pmm w) x -> pmm_inv pm' ->
  same_range (km_pmm w) pm' -> (forall y, free_at pm' y <-> free_at (km_pmm w) y /\ y <> x) ->
  pm_free_pages pm' = pm_free_pages (km_pmm w) - 1 ->
  pt_grows w (link_table (set_pmm w pm') (t + 8 * i) x) G (<[p ++ [i] := x]> G).
Proof using PL.
  intros Hinv Hp Hlen Hi Hv Hx Hpm Hsr Hfree Hcount.
  pose proof (link_fresh w root G Hinv p t i Hp Hlen Hi Hv x pm' Hx Hpm Hsr Hfree) as Hfresh.
  split; rewrite ?link_pmm, ?link_shared; cbn [km_pmm set_pmm km_shared]; try done.
  - intros y [? _]%Hfree. done.
  - by apply insert_subseteq.
  - intros q tq. rewrite lookup_insert_Some. intros [[_ <-]|[_ ?]]; auto.
  - rewrite map_size_insert_None by done. lia.
  - intros va. by apply (link_flat w root).
  - intros a Ha. pose proof (Ha (p ++ [i]) x (lookup_insert_eq _ _ _)) as Hax.
    assert (a < t \/ t + PAGE_SIZE <= a) as Hat.
    { apply (Ha p). rewrite lookup_insert_ne; [done|]. intros E. by rewrite E, Hp in Hfresh. }
    rewrite word_link.
    + destruct Hi as [Hi _]. rewrite (proj2 (Z.eqb_neq a _)) by lia.
      destruct (Z.leb_spec x a), (Z.ltb_spec a (x + PAGE_SIZE)); try lia; done.
    + destruct (pt_tab _ _ _ Hinv p t Hp) as (_ & ? & Hnf). apply aligned_outside; [done| |apply Hi|].
      * by apply (free_at_page _ _ (pt_pmm _ _ _ Hinv)).
      * intros ->. done.
  - intros Hl. by apply (link_large w root).
Qed.

Lemma walk_tables_alloc root js : forall w G p t,
  pt_inv w root G -> G !! p = Some t -> path_ok (p ++ js) -> (length (p ++ js) <= pt_upper)%nat ->
  exists r w' G', walk_tables true w t js = Some (r, w') /\ pt_inv w' root G' /\ pt_grows w w' G G' /\
    match r with
    | Some t' => G' !! (p ++ js) = Some t'
    | None => (forall x, ~ free_at (km_pmm w') x) \/ pt_blocked w' G' (p ++ js)
    end.
Proof using PL.
  induction js as [|i js IH]; intros w G p t Hinv Hp Hok Hlen; cbn [walk_tables].
  { exists (Some t), w, G. rewrite app_nil_r. auto using pt_grows_refl. }
  pose proof (Hok p i js eq_refl) as Hi. rewrite length_app in Hlen. cbn [length] in Hlen.
  assert (forall w1 G1, pt_inv w1 root G1 -> pt_grows w w1 G G1 -> G1 !! p = Some t ->
    pte_valid (km_word w1 (t + 8 * i)) = true ->
    exists r w' G', (if pte_stop (km_word w1 (t + 8 * i)) then Some (None, w1)
        else walk_tables true w1 (pte_pa (km_word w1 (t + 8 * i))) js) = Some (r, w') /\
      pt_inv w' root G' /\ pt_grows w w' G G' /\
      match r with
      | Some t' => G' !! (p ++ i :: js) = Some t'
      | None => (forall x, ~ free_at (km_pmm w') x) \/ pt_blocked w' G' (p ++ i :: js)
      end) as Hgo.
  { intros w1 G1 Hinv1 Hgr Hp1 Hv1. destruct (pte_stop (km_word w1 (t + 8 * i))) eqn:Es.
    - exists None, w1, G1. split; [done|]. split; [done|]. split; [done|]. right. by exists p, i, js, t.
    - destruct (IH w1 G1 (p ++ [i]) (pte_pa (km_word w1 (t + 8 * i)))) as (r & w' & G' & E & Hinv' & Hgr' & Hr); [done|..].
      + apply (pt_child _ _ _ Hinv1). exists t. split; [done|]. split; [lia|]. done.
      + by rewrite <-app_assoc.
      + rewrite !length_app. cbn. lia.
      + rewrite <-app_assoc in Hr. exists r, w', G'. split; [done|]. split; [done|]. split; [|done]. by eapply pt_grows_trans. }
  unfold walk_level. destruct (pte_valid (km_word w (t + 8 * i))) eqn:Ev; cbn [mbind option_bind negb].
  { destruct (Hgo w G Hinv (pt_grows_refl w G) Hp Ev) as (r & w' & G' & E & H). exists r, w', G'. split; [|exact H].
    rewrite <-E. by destruct (pte_stop _). }
  destruct (alloc_one (km_pmm w) (pt_pmm _ _ _ Hinv)) as [[-> Hno]|(x & pm' & -> & Hx0 & Hx & Hpm & Hsr & Hcount & Hfree)];
    cbn [mbind option_bind].
  { exists None, (set_pmm w (km_pmm w)), G. cbn. split; [done|]. destruct w; cbn in *.
    split; [done|]. split; [apply pt_grows_refl|]. by left. }
  rewrite (proj2 (Z.eqb_neq x 0)) by done. cbn [mbind option_bind negb].
  assert ((length p < pt_upper)%nat) as Hlp by lia.
  destruct (Hgo (link_table (set_pmm w pm') (t + 8 * i) x) (<[p ++ [i] := x]> G)) as (r & w' & G' & E & H).
  - by apply link_inv.
  - by apply (link_grows w root).
  - rewrite lookup_insert_ne; [done|]. intros E%(f_equal length). rewrite length_app in E. cbn in E. lia.
  - rewrite (link_word_entry w root G Hinv p t i Hp Hlp Hi Ev x pm' Hx Hpm Hsr Hfree). apply pte_valid_table.
  - exists r, w', G'. split; [|exact H]. rewrite <-E. by destruct (pte_stop _).
Qed.

(** ** Changing one entry *)

Lemma slot_inj w root G p q t u i j :
  pt_inv w root G -> G !! p = Some t -> G !! q = Some u -> 0 <= i < 512 -> 0 <= j < 512 ->
  t + 8 * i = u + 8 * j -> p = q /\ i = j.
Proof using Type.
  intros Hinv Hp Hq Hi Hj E. destruct (pt_tab _ _ _ Hinv p t Hp) as (_ & ? & _). destruct (pt_tab _ _ _ Hinv q u Hq) as (_ & ? & _).
  apply aligned_disjoint in E as [<- <-]; [|done..]. split; [|done]. by apply (pt_inj _ _ _ Hinv p q t).
Qed.

Lemma store_inv w root G va t v :
  pt_inv w root G -> G !! upper_path va = Some t ->
  (pte_valid v = true -> ~ free_at (km_pmm w) (pte_pa v) /\ forall q, G !! q <> Some (pte_pa v)) ->
  pt_inv (store w (t + 8 * pt_index va 0) v) root G.
Proof using Type.
  intros Hinv Ht Hv. pose proof (length_upper_path va) as Hl.
  assert (forall p u i, G !! p = Some u -> (length p < pt_upper)%nat -> 0 <= i < 512 ->
    km_word (store w (t + 8 * pt_index va 0) v) (u + 8 * i) = km_word w (u + 8 * i)) as Hup.
  { intros p u i Hp Hlp Hi. apply word_store_ne. intros E.
    destruct (slot_inj w root G p (upper_path va) u t i (pt_index va 0) Hinv Hp Ht Hi (pt_index_range _ _) E) as [-> _]. lia. }
  split; try apply Hinv.
  - intros p i t'. rewrite (pt_child _ _ _ Hinv). split; intros (u & Hp & Hlp & Hi & Hpt); exists u;
      (split; [done|]; split; [done|]; split; [done|]).
    + rewrite (Hup p) by (try done; apply Hi). done.
    + rewrite (Hup p) in Hpt by (try done; apply Hi). done.
  - intros p u i Hp Hlp Hi. destruct (decide (u + 8 * i = t + 8 * pt_index va 0)) as [->|Hne].
    + rewrite word_store_eq. done.
    + rewrite word_store_ne by done. by apply (pt_leaf _ _ _ Hinv p).
Qed.

Lemma store_large w root G va t v :
  pt_inv w root G -> G !! upper_path va = Some t -> no_large w G -> no_large (store w (t + 8 * pt_index va 0) v) G.
Proof using Type.
  intros Hinv Ht Hl p u i Hp Hlp Hi. rewrite word_store_ne; [by apply (Hl p)|]. intros E.
  destruct (slot_inj w root G p (upper_path va) u t i (pt_index va 0) Hinv Hp Ht (proj1 Hi) (pt_index_range _ _) E) as [-> _].
  rewrite length_upper_path in Hlp. lia.
Qed.

(** The page number of [va] among the pages of the tree. *)
Abbreviation page_no va := (vpn pt_upper va).

Lemma store_flat w root G va t v va' :
  pt_inv w root G -> G !! upper_path va = Some t ->
  flat (store w (t + 8 * pt_index va 0) v) G va' = if decide (page_no va' = page_no va) then v else flat w G va'.
Proof using Type.
  intros Hinv Ht. unfold flat. case_decide as E.
  - apply vpn_path in E as [E1 E0]. unfold upper_path in Ht |- *. rewrite E1, Ht, E0. apply word_store_eq.
  - destruct (G !! upper_path va') as [u|] eqn:Hu; [|done]. apply word_store_ne. intros Hc.
    destruct (slot_inj w root G _ _ u t _ _ Hinv Hu Ht (pt_index_range _ _) (pt_index_range _ _) Hc) as [? ?].
    apply E, vpn_path. done.
Qed.

(** Giving back a page that neither is a table nor is mapped. *)
Lemma pmm_change_inv w root G pm' x :
  pt_inv w root G -> pmm_inv pm' -> same_range (km_pmm w) pm' ->
  (forall y, free_at pm' y -> free_at (km_pmm w) y \/ y = x) ->
  (forall q, G !! q <> Some x) ->
  (forall p t i, G !! p = Some t -> length p = pt_upper -> 0 <= i < 512 ->
     pte_valid (km_word w (t + 8 * i)) = true -> pte_pa (km_word w (t + 8 * i)) <> x) ->
  pt_inv (set_pmm w pm') root G.
Proof using Type.
  intros Hinv Hpm (Hs & Htot & _) Hfree Htab Hleaf. split; try apply Hinv.
  - done.
  - cbn. unfold page_addr. rewrite Hs, Htot. apply Hinv.
  - intros p t Hp. destruct (pt_tab _ _ _ Hinv p t Hp) as (? & ? & Hn). split; [done|]. split; [done|]. cbn.
    intros [?| ->]%Hfree; [done|]. by apply (Htab p).
  - intros p t i Hp Hl Hi Hv. destruct (pt_leaf _ _ _ Hinv p t i Hp Hl Hi Hv) as [Hn ?]. split; [|done]. cbn.
    intros [?|E]%Hfree; [done|]. by apply (Hleaf p t i).
Qed.

Lemma shared_change_inv w root G s : pt_inv w root G -> pt_inv (set_shared w s) root G.
Proof using Type. intros []. by split. Qed.

(** ** Mapping a range of pages *)

(** The loop of [mm_vm_map_pages]; [mk old pa] is the new entry. *)
Fixpoint map_loop (walk : kmem -> Z -> option (option Z * kmem)) (mk : Z -> Z -> Z)
    (w : kmem) (va pa : Z) (count : nat) : option (Z * kmem) :=
  match count with
  | O => Some (0, w)
  | S count =>
      '(pte, w) ← walk w va;
      match pte with
      | None => Some (-1, w)
      | Some pte =>
          if pte_valid (km_word w pte) then Some (-1, w)
          else map_loop walk mk (store w pte (mk (km_word w pte) pa)) (u64 (va + PAGE_SIZE)) (u64 (pa + PAGE_SIZE)) count
      end
  end.

Lemma map_loop_ext walk walk' mk n : forall w va pa,
  (forall w va, walk w va = walk' w va) -> map_loop walk mk w va pa n = map_loop walk' mk w va pa n.
Proof using Type.
  induction n as [|n IH]; intros w va pa Hw; [done|]. cbn [map_loop]. rewrite Hw.
  destruct (walk' w va) as [[[pte|] w1]|]; [|done|done]. cbn [mbind option_bind].
  destruct (pte_valid _); [done|]. by apply IH.
Qed.

(** The addresses below [user_top] are those the address space owns. *)
Definition user_top : Z := pt_user_roots * 2 ^ (PAGE_SHIFT + 9 * Z.of_nat pt_upper).

Lemma user_range va : 0 <= va < user_top -> user_va va /\ page_no va = va / PAGE_SIZE.
Proof using PL.
  unfold user_top, user_va. intros Hva. pose proof pt_roots_range. set (k := 2 ^ (PAGE_SHIFT + 9 * Z.of_nat pt_upper)) in *.
  assert (0 < k) by (apply Z.pow_pos_nonneg; lia).
  assert (0 <= va / k < pt_user_roots) by (split; [apply Z.div_pos; lia|apply Z.div_lt_upper_bound; lia]).
  split.
  - rewrite pt_index_div by lia. fold k. rewrite Z.mod_small; lia.
  - unfold vpn. apply Z.mod_small. split; [apply Z.div_pos; lia|]. apply Z.div_lt_upper_bound; [lia|].
    rewrite Z.pow_add_r, Z.pow_1_r, Z.mul_assoc by lia. rewrite page_shift_pow by lia. fold k. nia.
Qed.

(** An entry the tree may hold: its page is neither free nor a table. *)
Definition mappable (pm : pmm_t) (G : gmap (list Z) Z) (e : Z) : Prop :=
  ~ free_at pm (pte_pa e) /\ forall q, G !! q <> Some (pte_pa e).

Lemma mappable_grows w w' G G' e : pt_grows w w' G G' -> mappable (km_pmm w) G e -> mappable (km_pmm w') G' e.
Proof using Type.
  intros Hgr [Hn Hq]. split; [intros ?%(gr_free _ _ _ _ Hgr); done|].
  intros q [?|?]%(gr_new _ _ _ _ Hgr); [by apply (Hq q)|done].
Qed.

(** Page [va'] is one of the first [k] pages from [va]. *)
Definition in_pages (va k va' : Z) : bool := in_range (va / PAGE_SIZE) k (va' / PAGE_SIZE).

(** The outcome of mapping [n] pages at [va]: the first [k] are mapped, the rest is as before. *)
Record mapped (mk : Z -> Z -> Z) (w : kmem) (G : gmap (list Z) Z) (va pa n : Z) (r : Z) (w' : kmem) (G' : gmap (list Z) Z) (k : Z) : Prop := {
  ma_sub : G ⊆ G';
  ma_range : same_range (km_pmm w) (km_pmm w');
  ma_shared : km_shared w' = km_shared w;
  ma_free y : free_at (km_pmm w') y -> free_at (km_pmm w) y;
  ma_k : 0 <= k <= n;
  ma_flat va' : 0 <= va' < user_top ->
    flat w' G' va' =
      if in_pages va k va' then mk (flat w G va') (u64 (pa + (va' / PAGE_SIZE - va / PAGE_SIZE) * PAGE_SIZE))
      else flat w G va';
  ma_result : (r = 0 /\ k = n) \/
    (r = -1 /\ k < n /\
     (pte_valid (flat w G (va + k * PAGE_SIZE)) = true \/ (forall x, ~ free_at (km_pmm w') x) \/
      pt_blocked w' G' (upper_path (va + k * PAGE_SIZE))));
}.

Lemma in_pages_0 va va' : in_pages va 0 va' = false.
Proof using Type. apply in_range_nil. Qed.

Lemma next_page va : (va + PAGE_SIZE) / PAGE_SIZE = va / PAGE_SIZE + 1.
Proof using Type. rewrite <-(Z.mul_1_l PAGE_SIZE) at 1. by rewrite Z.div_add by lia. Qed.

Lemma mapped_none mk w G va pa n w' G' :
  pt_grows w w' G G' -> 0 < n ->
  (pte_valid (flat w G va) = true \/ (forall x, ~ free_at (km_pmm w') x) \/ pt_blocked w' G' (upper_path va)) ->
  mapped mk w G va pa n (-1) w' G' 0.
Proof using Type.
  intros Hgr Hn Hwhy. split; try apply Hgr; [lia| |].
  - intros va' _. rewrite in_pages_0. apply Hgr.
  - right. replace (va + 0 * PAGE_SIZE) with va by lia. split; [done|]. split; [lia|done].
Qed.

(** One more page in front. *)
Lemma mapped_cons mk w root G w1 G1 t va pa n r w' G' k :
  pt_grows w w1 G G1 -> pt_inv w1 root G1 -> G1 !! upper_path va = Some t -> 0 <= n -> 0 <= pa < U64_MOD ->
  0 <= va -> va + (n + 1) * PAGE_SIZE <= user_top -> user_top <= U64_MOD ->
  let w2 := store w1 (t + 8 * pt_index va 0) (mk (flat w G va) pa) in
  mapped mk w2 G1 (va + PAGE_SIZE) (u64 (pa + PAGE_SIZE)) n r w' G' k ->
  mapped mk w G va pa (n + 1) r w' G' (k + 1).
Proof using PL.
  intros Hgr Hinv Ht Hn Hpa Hva Htop Hmax w2 Hm. pose proof (ma_k _ _ _ _ _ _ _ _ _ _ Hm) as Hk.
  assert (forall va', 0 <= va' < user_top ->
    flat w2 G1 va' = if va' / PAGE_SIZE =? va / PAGE_SIZE then mk (flat w G va) pa else flat w G va') as Hw2.
  { intros va' Hva'. unfold w2. rewrite (store_flat w1 root) by done. rewrite (gr_flat _ _ _ _ Hgr).
    destruct (user_range va' Hva') as [_ ->]. destruct (user_range va ltac:(lia)) as [_ ->].
    case_decide; [rewrite (proj2 (Z.eqb_eq _ _))|rewrite (proj2 (Z.eqb_neq _ _))]; done. }
  split.
  - etrans; [apply Hgr|apply Hm].
  - eapply same_range_trans; [apply Hgr|apply Hm].
  - rewrite (ma_shared _ _ _ _ _ _ _ _ _ _ Hm). apply Hgr.
  - intros y Hy%(ma_free _ _ _ _ _ _ _ _ _ _ Hm). by apply (gr_free _ _ _ _ Hgr).
  - lia.
  - intros va' Hva'. rewrite (ma_flat _ _ _ _ _ _ _ _ _ _ Hm) by done. rewrite Hw2 by done.
    unfold in_pages, in_range. rewrite next_page.
    destruct (Z.eqb_spec (va' / PAGE_SIZE) (va / PAGE_SIZE)) as [E|E].
    + rewrite E. rewrite (proj2 (Z.leb_gt _ _)) by lia. cbn [andb].
      rewrite (proj2 (Z.leb_le _ _)), (proj2 (Z.ltb_lt _ _)) by lia. cbn [andb].
      rewrite Z.sub_diag, Z.mul_0_l, Z.add_0_r, (u64_id pa) by done. f_equal.
      unfold flat. destruct (user_range va' Hva') as [_ E1]. destruct (user_range va ltac:(lia)) as [_ E2].
      assert (page_no va = page_no va') as [E3 E4]%vpn_path by congruence. unfold upper_path. by rewrite E3, E4.
    + replace ((va / PAGE_SIZE + 1 <=? va' / PAGE_SIZE) && (va' / PAGE_SIZE <? va / PAGE_SIZE + 1 + k))
        with ((va / PAGE_SIZE <=? va' / PAGE_SIZE) && (va' / PAGE_SIZE <? va / PAGE_SIZE + (k + 1))).
      2: { lia. }
      destruct (_ && _); [|done]. f_equal. unfold u64. rewrite Zplus_mod_idemp_l. f_equal. lia.
  - destruct (ma_result _ _ _ _ _ _ _ _ _ _ Hm) as [[-> ->]|(-> & Hkn & Hwhy)]; [left; lia|right].
    split; [done|]. split; [lia|]. replace (va + (k + 1) * PAGE_SIZE) with (va + PAGE_SIZE + k * PAGE_SIZE) by lia.
    rewrite Hw2 in Hwhy by lia. rewrite (proj2 (Z.eqb_neq _ _)) in Hwhy; [done|].
    rewrite Z.div_add, next_page by lia. lia.
Qed.

Lemma map_loop_spec mk root n : forall w G va pa,
  pt_inv w root G -> 0 <= va -> va + Z.of_nat n * PAGE_SIZE <= user_top -> user_top <= U64_MOD - PAGE_SIZE ->
  0 <= pa < U64_MOD ->
  (forall old k, 0 <= k < Z.of_nat n -> mappable (km_pmm w) G (mk old (u64 (pa + k * PAGE_SIZE)))) ->
  exists r w' G' k, map_loop (fun w va => walk_pt true w root va) mk w va pa n = Some (r, w') /\
    pt_inv w' root G' /\ mapped mk w G va pa (Z.of_nat n) r w' G' k.
Proof using PL.
  induction n as [|n IH]; intros w G va pa Hinv Hva Htop Hmax Hpa Hmk; cbn [map_loop].
  { exists 0, w, G, 0. split; [done|]. split; [done|]. split; [done..|lia| |by left].
    intros va' _. by rewrite in_pages_0. }
  destruct (user_range va ltac:(lia)) as [Hu _].
  destruct (walk_tables_alloc root (upper_path va) w G [] root Hinv (pt_root _ _ _ Hinv) (upper_path_ok va Hu)) as
    (r1 & w1 & G1 & E & Hinv1 & Hgr & Hr). { cbn [app]. by rewrite length_upper_path. }
  cbn [app] in Hr. assert (walk_pt true w root va = Some (option_map (fun t => t + 8 * pt_index va 0) r1, w1)) as Ew.
  { unfold walk_pt. by rewrite E. }
  cbn beta. rewrite Ew. cbn [mbind option_bind].
  destruct r1 as [t|]; cbn [option_map].
  2: { exists (-1), w1, G1, 0. split; [done|]. split; [done|]. apply mapped_none; [done|lia|auto]. }
  assert (km_word w1 (t + 8 * pt_index va 0) = flat w G va) as Ee.
  { rewrite <-(gr_flat _ _ _ _ Hgr). unfold flat. by rewrite Hr. }
  rewrite Ee. destruct (pte_valid (flat w G va)) eqn:Ev.
  { exists (-1), w1, G1, 0. split; [done|]. split; [done|]. apply mapped_none; [done|lia|auto]. }
  rewrite (u64_id (va + PAGE_SIZE)) by lia.
  set (w2 := store w1 (t + 8 * pt_index va 0) (mk (flat w G va) pa)).
  assert (pt_inv w2 root G1) as Hinv2.
  { apply store_inv; [done|done|]. intros _. apply (mappable_grows w w1 G G1); [done|].
    pose proof (Hmk (flat w G va) 0 ltac:(lia)) as H0. by rewrite Z.mul_0_l, Z.add_0_r, u64_id in H0. }
  destruct (IH w2 G1 (va + PAGE_SIZE) (u64 (pa + PAGE_SIZE))) as (r & w' & G' & k & E' & Hinv' & Hm);
    [done|lia|lia|done|apply u64_range|..].
  - intros old k Hk. apply (mappable_grows w w1 G G1); [done|].
    replace (u64 (u64 (pa + PAGE_SIZE) + k * PAGE_SIZE)) with (u64 (pa + (k + 1) * PAGE_SIZE)); [apply Hmk; lia|].
    unfold u64. rewrite Zplus_mod_idemp_l. f_equal. lia.
  - exists r, w', G', (k + 1). split; [done|]. split; [done|].
    replace (Z.of_nat (S n)) with (Z.of_nat n + 1) by lia. eapply (mapped_cons mk w root G w1 G1 t); [done|done|done|lia|done|done|lia|lia|done].
Qed.

(** The pages [pa], [pa + 4096], ... are neither free nor tables of the tree. *)
Definition targets_ok (w : kmem) (G : gmap (list Z) Z) (pa count : Z) : Prop :=
  forall k, 0 <= k < count ->
    ~ free_at (km_pmm w) (pa + k * PAGE_SIZE) /\ forall q, G !! q <> Some (pa + k * PAGE_SIZE).

(** Why a mapping stops at [va]. *)
Definition map_stops (w' : kmem) (G' : gmap (list Z) Z) (old va : Z) : Prop :=
  pte_valid old = true \/ (forall x, ~ free_at (km_pmm w') x) \/ pt_blocked w' G' (upper_path va).

Lemma page_of va j off : va mod PAGE_SIZE = 0 -> 0 <= off < PAGE_SIZE -> (va + j * PAGE_SIZE + off) / PAGE_SIZE = va / PAGE_SIZE + j /\
  (va + j * PAGE_SIZE + off) mod PAGE_SIZE = off.
Proof using Type.
  intros Hal Hoff. pose proof (Z_div_mod_eq_full va PAGE_SIZE) as Hd. rewrite Hal in Hd.
  replace (va + j * PAGE_SIZE + off) with (off + (va / PAGE_SIZE + j) * PAGE_SIZE) by lia.
  rewrite Z.div_add, Z.mod_add by lia. rewrite Z.div_small, Z.mod_small by lia. lia.
Qed.

(** ** Removing one page *)

(** What becomes of the page of an entry that goes away: a device buffer stays with
    its owner, a shared page loses one reference, any other page is freed. *)
Definition release_page (w : kmem) (pa : Z) (keep nofree : bool) : option kmem :=
  if keep then Some w
  else if negb nofree then '(_, pm) ← pmm_free_pages (km_pmm w) pa 1; Some (set_pmm w pm)
  else '(s, pm) ← shared_page_unref (km_shared w) (km_pmm w) pa; Some (set_shared (set_pmm w pm) s).

(** [mm_vm_unmap_page]; [leaf] is the test of a last-level entry. *)
Definition unmap_entry (walk : kmem -> option (option Z * kmem)) (leaf keep nofree : Z -> bool) (w : kmem) : option (Z * kmem) :=
  '(pte, w) ← walk w;
  match pte with
  | None => Some (0, w)
  | Some pte =>
      let e := km_word w pte in
      if negb (pte_valid e) || negb (leaf e) then Some (0, w)
      else
        w ← release_page w (pte_pa e) (keep e) (nofree e);
        Some (1, store w pte 0)
  end.

(** The release keeps the memory and frees at most the page. *)
Lemma release_page_spec w m pa keep nofree :
  pmm_inv (km_pmm w) -> sp_rep (km_shared w) m -> 0 <= pa < U64_MOD ->
  exists pm s m', release_page w pa keep nofree = Some (set_shared (set_pmm w pm) s) /\ pmm_inv pm /\ sp_rep s m' /\
    same_range (km_pmm w) pm /\ (forall y, free_at pm y -> free_at (km_pmm w) y \/ y = pa) /\
    ((keep = true \/ nofree = true /\ (m !! pa = None \/ exists r, m !! pa = Some r /\ 1 < r)) -> pm = km_pmm w).
Proof using Type.
  intros Hpm Hrep Hpa. unfold release_page. destruct keep.
  { exists (km_pmm w), (km_shared w), m. split; [by destruct w|]. split_and!; auto using same_range_refl. }
  destruct (free_one_spec (km_pmm w) pa Hpm Hpa) as (ok & pm & E & Hpm' & Hsr & Hok).
  assert (forall y, free_at pm y -> free_at (km_pmm w) y \/ y = pa) as Hfree.
  { intros y Hy. destruct ok; [by apply Hok|]. subst pm. by left. }
  destruct nofree; cbn [negb].
  - destruct (sp_unref_refines (km_shared w) m (km_pmm w) pa Hrep) as (s & m' & pm2 & -> & Es & Hrep').
    cbn [mbind option_bind]. unfold spec_unref in Es.
    assert (pm2 = km_pmm w \/ pm2 = pm) as Hpm2.
    { case_if_in Es; [left; congruence|]. destruct (m !! pa); [|left; congruence]. case_if_in Es; [left; congruence|].
      rewrite E in Es. cbn in Es. right. congruence. }
    exists pm2, s, m'. split; [done|]. split; [by destruct Hpm2 as [->| ->]|]. split; [done|].
    split; [by destruct Hpm2 as [->| ->]|]. split; [destruct Hpm2 as [->| ->]; auto|].
    intros [?|[_ Hr]]; [done|]. case_if_in Es; [congruence|].
    destruct Hr as [Hr|(r & Hr & Hr1)]; rewrite Hr in Es; [congruence|].
    rewrite (proj2 (Z.ltb_lt 1 r)) in Es by done. congruence.
  - rewrite E. cbn [mbind option_bind]. exists pm, (km_shared w), m. split; [done|]. split; [done|]. split; [done|].
    split; [done|]. split; [done|]. intros [?|[? _]]; done.
Qed.

(** No other entry of the tree maps the page of [va]. *)
Definition sole_mapping (w : kmem) (G : gmap (list Z) Z) (va : Z) : Prop :=
  forall p t i, G !! p = Some t -> length p = pt_upper -> 0 <= i < 512 -> pte_valid (km_word w (t + 8 * i)) = true ->
    pte_pa (km_word w (t + 8 * i)) = pte_pa (flat w G va) -> p = upper_path va /\ i = pt_index va 0.

Lemma unmap_spec (leaf keep nofree : Z -> bool) w m root G va :
  pt_inv w root G -> sp_rep (km_shared w) m -> 0 <= va < user_top ->
  (forall e, 0 <= pte_pa e < U64_MOD) -> sole_mapping w G va ->
  exists r w' m', unmap_entry (fun w => walk_pt false w root va) leaf keep nofree w = Some (r, w') /\
    pt_inv w' root G /\ sp_rep (km_shared w') m' /\
    if pte_valid (flat w G va) && leaf (flat w G va)
    then r = 1 /\ (forall va', flat w' G va' = if decide (page_no va' = page_no va) then 0 else flat w G va') /\
      exists w1, release_page w (pte_pa (flat w G va)) (keep (flat w G va)) (nofree (flat w G va)) = Some w1 /\
        km_pmm w' = km_pmm w1 /\ km_shared w' = km_shared w1
    else r = 0 /\ w' = w.
Proof using PL.
  intros Hinv Hrep Hva Hpa Hsole. destruct (user_range va Hva) as [Hu _].
  unfold unmap_entry. rewrite (walk_pt_read w root G Hinv va Hu). cbn [mbind option_bind].
  pose proof (eq_refl (flat w G va)) as Ef. unfold flat at 2 in Ef.
  destruct (G !! upper_path va) as [t|] eqn:Ht; cbn [option_map].
  2: { exists 0, w, m. rewrite Ef, pte_valid_0. done. }
  rewrite <-Ef. destruct (pte_valid (flat w G va)) eqn:Ev; cbn [negb orb andb].
  2: { exists 0, w, m. done. }
  destruct (leaf (flat w G va)) eqn:El; cbn [negb]. 2: { exists 0, w, m. done. }
  set (e := flat w G va) in *.
  destruct (release_page_spec w m (pte_pa e) (keep e) (nofree e) (pt_pmm _ _ _ Hinv) Hrep (Hpa e))
    as (pm & s & m' & Er & Hpm & Hrep' & Hsr & Hfree & _).
  rewrite Er. cbn [mbind option_bind]. eexists 1, _, m'. split; [done|].
  assert (pt_inv (store w (t + 8 * pt_index va 0) 0) root G) as Hst.
  { apply store_inv; [done|done|]. rewrite pte_valid_0. done. }
  rewrite Ef in Ev. destruct (pt_leaf _ _ _ Hinv _ t _ Ht (length_upper_path va) (pt_index_range va 0) Ev) as [_ Hnt]. rewrite <-Ef in Hnt.
  split; [|split; [done|split; [done|split]]].
  - change (pt_inv (set_shared (set_pmm (store w (t + 8 * pt_index va 0) 0) pm) s) root G). apply shared_change_inv.
    apply (pmm_change_inv _ _ _ _ (pte_pa e)); [done..|]. intros p u i Hp Hl Hi Hv E.
    destruct (decide (u + 8 * i = t + 8 * pt_index va 0)) as [E2|E2].
    { rewrite E2, word_store_eq, pte_valid_0 in Hv. done. }
    rewrite word_store_ne in Hv, E by done. destruct (Hsole p u i Hp Hl Hi Hv E) as [-> ->]. rewrite Ht in Hp. congruence.
  - intros va'. by apply (store_flat w root).
  - by eexists.
Qed.
End tree.
