(* ===== verification/Teardown.v ===== *)
(** * Taking a page-table tree down

    The recursion of [rv_destroy_table], [x86_destroy_table] and
    [_destroy_page_table_vm]: every present entry of a table is released, or its
    subtree is taken down and the table behind it freed, and the entry is cleared.
    [tree_events] lists the releases a tree asks for, in order, as a function of the
    memory before; [destroy_table_spec] shows that the code performs exactly these,
    although it clears entries and frees tables while it walks. *)

From stdpp Require Import options.
From Stdlib Require Import Lia.
From S2P Require Import Prelude Bitmap Pmm SharedPage PhysMem PageTable.

(** A fold that may stop. *)
Fixpoint ofold {S A : Type} (f : S -> A -> option S) (s : S) (l : list A) : option S :=
  match l with
  | [] => Some s
  | x :: l => s ← f s x; ofold f s l
  end.

Lemma ofold_app {S A} (f : S -> A -> option S) s l1 l2 : ofold f s (l1 ++ l2) = (s ← ofold f s l1; ofold f s l2).
Proof. revert s. induction l1 as [|x l1 IH]; intros s; [done|]. cbn. destruct (f s x); [|done]. apply IH. Qed.

Lemma ofold_ext {S A} (f g : S -> A -> option S) s l : (forall s x, f s x = g s x) -> ofold f s l = ofold g s l.
Proof. intros H. revert s. induction l as [|x l IH]; intros s; [done|]. cbn. rewrite H. destruct (g s x); [apply IH|done]. Qed.

(** How a tree is taken down: the entries looked at, those that end the recursion at a
    level, and what the release of a page depends on. *)
Record teardown := mk_teardown {
  td_present : Z -> bool;
  td_leaf : nat -> Z -> bool;
  td_keep : nat -> Z -> bool;
  td_nofree : nat -> Z -> bool;
}.

Section destroy.
Context {PF : pt_format} (td : teardown).

Fixpoint destroy_table (n : nat) (w : kmem) (table : Z) : option kmem :=
  ofold
    (fun w i =>
       let slot := table + 8 * i in
       let e := km_word w slot in
       if negb (td_present td e) then Some w
       else if td_leaf td n e then
         w ← release_page w (pte_pa e) (td_keep td n e) (td_nofree td n e);
         Some (store w slot 0)
       else
         match n with
         | O => None
         | S n =>
             w ← destroy_table n w (pte_pa e);
             '(_, pm) ← pmm_free_pages (km_pmm w) (pte_pa e) 1;
             Some (store (set_pmm w pm) slot 0)
         end)
    w (seqZ 0 512).

(** The body of that loop. *)
Definition destroy_entry (n : nat) (table : Z) (w : kmem) (i : Z) : option kmem :=
  let slot := table + 8 * i in
  let e := km_word w slot in
  if negb (td_present td e) then Some w
  else if td_leaf td n e then
    w ← release_page w (pte_pa e) (td_keep td n e) (td_nofree td n e);
    Some (store w slot 0)
  else
    match n with
    | O => None
    | S n =>
        w ← destroy_table n w (pte_pa e);
        '(_, pm) ← pmm_free_pages (km_pmm w) (pte_pa e) 1;
        Some (store (set_pmm w pm) slot 0)
    end.

Lemma destroy_table_eq n w table : destroy_table n w table = ofold (destroy_entry n table) w (seqZ 0 512).
Proof using Type. by destruct n. Qed.

(** ** The releases *)

(** The release of page [x.1]; [x.2] says that it is a shared page. *)
Definition release1 (ps : pmm_t * shared_pages) (x : Z * bool) : option (pmm_t * shared_pages) :=
  if negb x.2 then '(_, pm) ← pmm_free_pages ps.1 x.1 1; Some (pm, ps.2)
  else '(s, pm) ← shared_page_unref ps.2 ps.1 x.1; Some (pm, s).

Definition run_releases (ps : pmm_t * shared_pages) (l : list (Z * bool)) : option (pmm_t * shared_pages) :=
  ofold release1 ps l.

Definition leaf_events (n : nat) (e : Z) : list (Z * bool) :=
  if td_keep td n e then [] else [(pte_pa e, td_nofree td n e)].

Fixpoint tree_events (n : nat) (m : Z -> Z) (table : Z) : list (Z * bool) :=
  concat ((fun i =>
    let e := m (table + 8 * i) in
    if negb (td_present td e) then []
    else if td_leaf td n e then leaf_events n e
    else match n with O => [] | S n => tree_events n m (pte_pa e) ++ [(pte_pa e, false)] end) <$> seqZ 0 512).

Definition entry_events (n : nat) (m : Z -> Z) (table i : Z) : list (Z * bool) :=
  let e := m (table + 8 * i) in
  if negb (td_present td e) then []
  else if td_leaf td n e then leaf_events n e
  else match n with O => [] | S n => tree_events n m (pte_pa e) ++ [(pte_pa e, false)] end.

Lemma tree_events_eq n m table : tree_events n m table = concat (entry_events n m table <$> seqZ 0 512).
Proof using Type. by destruct n. Qed.

Definition kst (w : kmem) : pmm_t * shared_pages := (km_pmm w, km_shared w).
Definition with_kst (w : kmem) (ps : pmm_t * shared_pages) : kmem := mk_kmem ps.1 ps.2 (km_word w).

Lemma release_page_events n w e ps :
  run_releases (kst w) (leaf_events n e) = Some ps ->
  release_page w (pte_pa e) (td_keep td n e) (td_nofree td n e) = Some (with_kst w ps).
Proof using Type.
  unfold leaf_events, release_page. destruct (td_keep td n e).
  { intros E. injection E as <-. by destruct w. }
  unfold run_releases, release1, kst. cbn [ofold fst snd]. destruct (td_nofree td n e); cbn [negb].
  - destruct (shared_page_unref (km_shared w) (km_pmm w) (pte_pa e)) as [[s pm]|]; cbn [mbind option_bind]; [|done].
    intros E. by injection E as <-.
  - destruct (pmm_free_pages (km_pmm w) (pte_pa e) 1) as [[ok pm]|]; cbn [mbind option_bind]; [|done].
    intros E. by injection E as <-.
Qed.

Lemma release_runs w pa keep nofree w1 :
  release_page w pa keep nofree = Some w1 ->
  if keep then kst w1 = kst w else run_releases (kst w) [(pa, nofree)] = Some (kst w1).
Proof using Type.
  unfold release_page, kst. destruct keep. { intros H. by injection H as <-. }
  unfold run_releases, release1. cbn [ofold fst snd]. destruct nofree; cbn [negb].
  - destruct (shared_page_unref _ _ _) as [[s pm]|]; cbn [mbind option_bind]; [|done]. intros H. by injection H as <-.
  - destruct (pmm_free_pages _ _ _) as [[ok pm]|]; cbn [mbind option_bind]; [|done]. intros H. by injection H as <-.
Qed.

(** ** The tree before the walk *)

Section spec.
Context (w0 : kmem) (root : Z) (G : gmap (list Z) Z) (Hinv : pt_inv w0 root G).

(** Every present entry of the tree is a page at the last level and a table above it. *)
Definition regular : Prop :=
  forall p t i, G !! p = Some t -> user_index p i -> let e := km_word w0 (t + 8 * i) in
    td_present td e = true ->
    if decide (length p = pt_upper) then td_leaf td 0 e = true
    else td_leaf td (pt_upper - length p) e = false /\ G !! (p ++ [i]) = Some (pte_pa e).

Context (Hreg : regular).

(** The words of the tables at or below [p] are those of [w0]. *)
Definition intact (w : kmem) (p : list Z) : Prop :=
  forall q u k, G !! q = Some u -> p `prefix_of` q -> 0 <= k < 512 -> km_word w (u + 8 * k) = km_word w0 (u + 8 * k).

(** Only words of tables at or below [p] differ. *)
Definition touches (w w' : kmem) (p : list Z) : Prop :=
  forall a, (forall q u, G !! q = Some u -> p `prefix_of` q -> a < u \/ u + PAGE_SIZE <= a) -> km_word w' a = km_word w a.

Lemma table_apart q u q' u' k :
  G !! q = Some u -> G !! q' = Some u' -> q <> q' -> 0 <= k < 512 -> u + 8 * k < u' \/ u' + PAGE_SIZE <= u + 8 * k.
Proof using Hinv.
  intros Hq Hq' Hne Hk. destruct (pt_tab _ _ _ Hinv q u Hq) as (_ & ? & _). destruct (pt_tab _ _ _ Hinv q' u' Hq') as (_ & ? & _).
  apply aligned_outside; [done..|]. intros <-. apply Hne. by apply (pt_inj _ _ _ Hinv q q' u).
Qed.

Lemma prefix_snoc_ne (p q : list Z) i : (p ++ [i]) `prefix_of` q -> q <> p.
Proof using Type. intros [k E] ->. apply (f_equal length) in E. rewrite !length_app in E. cbn in E. lia. Qed.

Lemma prefix_snoc_apart (p q q' : list Z) i j :
  (p ++ [i]) `prefix_of` q -> (p ++ [j]) `prefix_of` q' -> i <> j -> q <> q'.
Proof using Type.
  intros [k1 E1] [k2 E2] Hne ->. rewrite E1, <-!app_assoc in E2. apply app_inv_head in E2. injection E2 as -> _. done.
Qed.

(** What one round of the loop changes besides the allocator. *)
Definition touches1 (w w' : kmem) (p : list Z) (t i : Z) : Prop :=
  forall a, a <> t + 8 * i ->
    (forall q u, G !! q = Some u -> (p ++ [i]) `prefix_of` q -> a < u \/ u + PAGE_SIZE <= a) -> km_word w' a = km_word w a.

Definition entry_ok_for (n : nat) : Prop :=
  forall p t i w ps, G !! p = Some t -> (length p + n = pt_upper)%nat -> user_index p i ->
    km_word w (t + 8 * i) = km_word w0 (t + 8 * i) -> intact w (p ++ [i]) ->
    run_releases (kst w) (entry_events n (km_word w0) t i) = Some ps ->
    exists w', destroy_entry n t w i = Some w' /\ kst w' = ps /\ touches1 w w' p t i.

Lemma loop_spec n (Hentry : entry_ok_for n) p t (Hp : G !! p = Some t) (Hn : (length p + n = pt_upper)%nat) c :
  forall i w ps,
  (forall j, i <= j < i + Z.of_nat c ->
     user_index p j /\ km_word w (t + 8 * j) = km_word w0 (t + 8 * j) /\ intact w (p ++ [j])) ->
  run_releases (kst w) (concat (entry_events n (km_word w0) t <$> seqZ i (Z.of_nat c))) = Some ps ->
  exists w', ofold (destroy_entry n t) w (seqZ i (Z.of_nat c)) = Some w' /\ kst w' = ps /\ touches w w' p.
Proof using Hinv.
  induction c as [|c IH]; intros i w ps Hall Hrun.
  { cbn in Hrun |- *. injection Hrun as <-. by exists w. }
  rewrite seqZ_cons in Hrun |- * by lia. replace (Z.pred (Z.of_nat (S c))) with (Z.of_nat c) in * by lia.
  rewrite fmap_cons in Hrun. cbn [concat] in Hrun. unfold run_releases in Hrun. rewrite ofold_app in Hrun.
  destruct (ofold release1 (kst w) (entry_events n (km_word w0) t i)) as [ps1|] eqn:E1; [|done]. cbn [mbind option_bind] in Hrun.
  destruct (Hall i ltac:(lia)) as (Hi & Hw & Hint).
  destruct (Hentry p t i w ps1 Hp Hn Hi Hw Hint E1) as (w1 & Ed & Ek & Ht1). cbn [ofold]. rewrite Ed. cbn [mbind option_bind].
  rewrite <-Ek in Hrun. destruct (IH (Z.succ i) w1 ps) as (w' & Ed' & Ek' & Ht'); [|exact Hrun|].
  - intros j Hj. destruct (Hall j ltac:(lia)) as (Hjr & Hjw & Hjint). split; [done|]. split.
    + rewrite Ht1; [done|lia|]. intros q u Hq Hpre. apply (table_apart p t q u); [done|done| |apply Hjr].
      intros <-. by apply (prefix_snoc_ne p p i).
    + intros q u k Hq Hpre Hk. rewrite Ht1; [exact (Hjint q u k Hq Hpre Hk)| |].
      * intros E. destruct (slot_inj w0 root G q p u t k i Hinv Hq Hp Hk) as [-> _]; [apply Hi|done|]. by apply (prefix_snoc_ne p p j).
      * intros q' u' Hq' Hpre'. apply (table_apart q u q' u'); [done|done| |done]. apply (prefix_snoc_apart p q q' j i); [done|done|lia].
  - exists w'. split; [done|]. split; [done|]. intros a Ha. rewrite Ht' by done. apply Ht1.
    + destruct (Ha p t Hp ltac:(done)); destruct Hi; lia.
    + intros q u Hq Hpre. apply (Ha q u Hq). etrans; [|exact Hpre]. by exists [i].
Qed.

Lemma entry_spec n : entry_ok_for n.
Proof using Hinv Hreg.
  induction n as [|n IH]; intros p t i w ps Hp Hn Hi Hw Hint Hrun; unfold destroy_entry, entry_events in *; rewrite Hw;
    pose proof (Hreg p t i Hp Hi) as Hr; cbn zeta in Hr; set (e := km_word w0 (t + 8 * i)) in *;
    (destruct (td_present td e); cbn [negb] in *; [specialize (Hr eq_refl)|injection Hrun as <-; by exists w]);
    case_decide as El; try lia.
  - rewrite Hr in Hrun |- *. rewrite (release_page_events 0 w e ps Hrun). cbn [mbind option_bind].
    eexists. split; [done|]. split; [by destruct ps|]. intros a Ha _. by rewrite word_store_ne.
  - destruct Hr as [Hr Hc]. replace (pt_upper - length p)%nat with (S n) in Hr by lia. rewrite Hr in Hrun |- *.
    unfold run_releases in Hrun. rewrite ofold_app in Hrun.
    destruct (ofold release1 (kst w) (tree_events n (km_word w0) (pte_pa e))) as [ps1|] eqn:E1; [|done]. cbn [mbind option_bind ofold] in Hrun.
    rewrite tree_events_eq in E1. assert (length (p ++ [i]) + n = pt_upper)%nat as Hn' by (rewrite length_app; cbn; lia).
    destruct (loop_spec n IH (p ++ [i]) (pte_pa e) Hc Hn' 512 0 w ps1) as (w1 & Ed & Ek & Ht); [|exact E1|].
    { intros j Hj. split; [split; [lia|intros E; by destruct p]|]. split; [by apply (Hint (p ++ [i]) (pte_pa e) j Hc)|].
      intros q u k Hq Hpre Hk. apply (Hint q u k Hq); [|done]. etrans; [|exact Hpre]. by exists [j]. }
    rewrite destroy_table_eq. change (Z.of_nat 512) with 512 in Ed. rewrite Ed. cbn [mbind option_bind].
    rewrite <-Ek in Hrun. unfold release1, kst in Hrun. cbn [fst snd negb] in Hrun.
    destruct (pmm_free_pages (km_pmm w1) (pte_pa e) 1) as [[ok pm]|]; [|done]. cbn [mbind option_bind] in Hrun |- *.
    injection Hrun as <-. eexists. split; [done|]. split; [done|]. intros a Ha Hout. rewrite word_store_ne by done.
    cbn [km_word set_pmm]. by apply Ht.
Qed.

(** The walk performs exactly the releases of the tree as it was at the start. *)
Lemma destroy_loop_spec p t n c w ps :
  G !! p = Some t -> (length p + n = pt_upper)%nat -> (forall j, 0 <= j < Z.of_nat c -> user_index p j) ->
  intact w p ->
  run_releases (kst w) (concat (entry_events n (km_word w0) t <$> seqZ 0 (Z.of_nat c))) = Some ps ->
  exists w', ofold (destroy_entry n t) w (seqZ 0 (Z.of_nat c)) = Some w' /\ kst w' = ps /\ touches w w' p.
Proof using Hinv Hreg.
  intros Hp Hn Hu Hint Hrun. apply (loop_spec n (entry_spec n) p t Hp Hn c 0 w ps); [|done].
  intros j Hj. destruct (Hu j Hj) as [Hj1 Hj2]. split; [done|]. split; [by apply (Hint p t j Hp)|].
  intros q u k Hq Hpre Hk. apply (Hint q u k Hq); [|done]. etrans; [|exact Hpre]. by exists [j].
Qed.

(** ** What the tree asks to release *)

(** Present last-level entry [k] of the table at path [q]. *)
Definition leaf_at (q : list Z) (k e : Z) : Prop :=
  exists u, G !! q = Some u /\ length q = pt_upper /\ 0 <= k < 512 /\ e = km_word w0 (u + 8 * k) /\ td_present td e = true.

(** Below entry [i] of the table at [p]: a table, or a page that is mapped and released. *)
Definition below (p : list Z) (i : Z) (x : Z * bool) : Prop :=
  (exists q, (p ++ [i]) `prefix_of` q /\ G !! q = Some x.1 /\ x.2 = false) \/
  (exists q k e, (p ++ [i]) `prefix_of` (q ++ [k]) /\ leaf_at q k e /\ td_keep td 0 e = false /\ x = (pte_pa e, td_nofree td 0 e)).

Lemma entry_below n : forall p t i x, G !! p = Some t -> (length p + n = pt_upper)%nat -> user_index p i ->
  x ∈ entry_events n (km_word w0) t i -> below p i x.
Proof using Hinv Hreg.
  induction n as [|n IH]; intros p t i x Hp Hn Hi; unfold entry_events; pose proof (Hreg p t i Hp Hi) as Hr; cbn zeta in Hr;
    set (e := km_word w0 (t + 8 * i)) in *;
    (destruct (td_present td e) eqn:Epr; cbn [negb]; [specialize (Hr eq_refl)|intros Hx; by apply elem_of_nil in Hx]);
    case_decide as El; try lia.
  - rewrite Hr. unfold leaf_events. destruct (td_keep td 0 e) eqn:Ek; [intros Hx; by apply elem_of_nil in Hx|].
    intros Hx. apply list_elem_of_singleton in Hx as ->. right. exists p, i, e. split; [done|]. split; [|done].
    exists t. destruct Hi. done.
  - destruct Hr as [Hr Hc]. replace (pt_upper - length p)%nat with (S n) in Hr by lia. rewrite Hr.
    intros [Hx|Hx]%elem_of_app.
    + rewrite tree_events_eq in Hx. apply list_elem_of_In, in_concat in Hx as (l & Hl & Hx). apply list_elem_of_In in Hl, Hx.
      apply list_elem_of_fmap in Hl as (j & -> & Hj%elem_of_seqZ).
      destruct (IH (p ++ [i]) (pte_pa e) j x Hc) as [(q & Hpre & H)|(q & k & e' & Hpre & H)];
        [rewrite length_app; cbn; lia|split; [lia|by destruct p]|done|left; exists q|right; exists q, k, e']; (split; [|done]);
        (etrans; [|exact Hpre]); by exists [j].
    + apply list_elem_of_singleton in Hx as ->. left. exists (p ++ [i]). done.
Qed.

(** A page released to the allocator is mapped by one releasing entry only. *)
Definition private_sole : Prop :=
  forall q k e q' k' e', leaf_at q k e -> leaf_at q' k' e' -> td_keep td 0 e = false -> td_nofree td 0 e = false ->
    td_keep td 0 e' = false -> pte_pa e = pte_pa e' -> q = q' /\ k = k'.

(** Last-level entries the recursion sees are entries of the tree. *)
Definition leaf_valid : Prop := forall q k e, leaf_at q k e -> pte_valid e = true.

Lemma below_apart p i j x x' :
  leaf_valid -> private_sole -> below p i x -> below p j x' -> i <> j -> x.1 = x'.1 -> x.2 = false -> False.
Proof using Hinv.
  intros Hval Hps Hx Hx' Hij E Epl.
  assert (forall q q' k e, G !! q = Some (pte_pa e) -> leaf_at q' k e -> False) as Htl.
  { intros q q' k e Hq Hlf. destruct Hlf as (u & Hu & Hlu & Hk & He & Hpr) eqn:Hlf'. pose proof (Hval q' k e Hlf) as Hv.
    rewrite He in Hv, Hq. by destruct (pt_leaf _ _ _ Hinv q' u k Hu Hlu Hk Hv) as [_ Hn]; apply (Hn q). }
  destruct Hx as [(q & Hpre & Hq & _)|(q & k & e & Hpre & Hlf & Hk & ->)], Hx' as [(q' & Hpre' & Hq' & _)|(q' & k' & e' & Hpre' & Hlf' & Hk' & ->)];
    cbn in *.
  - rewrite E in Hq. pose proof (pt_inj _ _ _ Hinv q q' _ Hq Hq') as <-. by apply (prefix_snoc_apart p q q i j).
  - rewrite E in Hq. by eapply Htl.
  - rewrite <-E in Hq'. by eapply Htl.
  - destruct (Hps q k e q' k' e') as [<- <-]; [done..|]. by apply (prefix_snoc_apart p (q ++ [k]) (q ++ [k]) i j).
Qed.
End spec.
End destroy.

(** ** Running the releases *)

(** The page at [y] is handed out by the allocator and may be given back. *)
Definition owned (pm : pmm_t) (y : Z) : Prop := exists i, releasable pm y 1 i.

Lemma owned_not_free pm y : owned pm y -> ~ free_at pm y.
Proof.
  intros (i & -> & Hi & Hin & Hall) (j & Hj & E%page_addr_inj & Hb). subst j. destruct (Hall i ltac:(lia)). congruence.
Qed.

Lemma owned_change pm pm' y : same_range pm pm' -> owned pm y -> ~ free_at pm' y -> owned pm' y.
Proof.
  intros (Hs & Ht & Hr) (i & -> & Hi & Hin & Hall) Hn. exists i. unfold releasable, page_addr, reserved_page in *.
  rewrite Hs, Ht, Hr. split; [done|]. split; [done|]. split; [done|]. intros k Hk. destruct (Hall k Hk) as [_ Hres].
  unfold page_addr in *. rewrite Hs. split; [|done]. destruct (bitmap_test (pm_bitmap pm') k) eqn:E; [done|]. destruct Hn. exists i.
  unfold page_addr. rewrite Hs, Ht. split; [lia|]. split; [done|]. by replace i with k by lia.
Qed.

(** A page that was free and is not any more was allocated. *)
Lemma taken_owned pm pm' x : pmm_inv pm -> same_range pm pm' -> free_at pm x -> ~ free_at pm' x -> owned pm' x.
Proof.
  intros Hinv (Hs & Ht & Hr) (i & Hi & -> & Hb) Hn. exists i. unfold releasable, page_addr, reserved_page. rewrite Hs, Ht, Hr.
  split; [done|]. split; [lia|]. split; [lia|]. intros k Hk. assert (k = i) as -> by lia. split.
  - destruct (bitmap_test (pm_bitmap pm') i) eqn:E; [done|]. destruct Hn. exists i. unfold page_addr. by rewrite Hs, Ht.
  - unfold page_addr. rewrite Hs. fold (page_addr pm i). change (reserved_page pm i = false). destruct (reserved_page pm i) eqn:E; [|done].
    rewrite (pi_resv_set _ Hinv i ltac:(lia) E) in Hb. done.
Qed.

Record released1 (ps : pmm_t * shared_pages) (x : Z * bool) (ps' : pmm_t * shared_pages) : Prop := {
  rl_pmm : pmm_inv ps'.1;
  rl_shared : exists m, sp_rep ps'.2 m;
  rl_range : same_range ps.1 ps'.1;
  rl_new y : free_at ps'.1 y -> free_at ps.1 y \/ y = x.1;
  rl_old y : free_at ps.1 y -> free_at ps'.1 y;
  rl_plain : x.2 = false -> owned ps.1 x.1 -> free_at ps'.1 x.1 /\ pm_free_pages ps'.1 = pm_free_pages ps.1 + 1;
}.

Lemma free_grows pm x ok pm' :
  pmm_inv pm -> 0 <= x < U64_MOD -> pmm_free_pages pm x 1 = Some (ok, pm') ->
  pmm_inv pm' /\ same_range pm pm' /\ (forall y, free_at pm' y -> free_at pm y \/ y = x) /\
  (forall y, free_at pm y -> free_at pm' y) /\
  (owned pm x -> free_at pm' x /\ pm_free_pages pm' = pm_free_pages pm + 1).
Proof.
  intros Hinv Hx E. destruct (free_one_spec pm x Hinv Hx) as (ok' & q & E' & Hinv' & Hsr & Hok).
  rewrite E in E'. injection E' as <- <-. split; [done|]. split; [done|]. destruct ok.
  - destruct Hok as (Hn & Hiff & Hc). split; [intros y; apply Hiff|]. split; [intros; apply Hiff; by left|].
    intros _. split; [apply Hiff; by right|done].
  - subst pm'. split; [by left|]. split; [done|]. intros (i & Hi).
    destruct (pmm_free_pages_accepts pm x 1 i Hinv ltac:(lia) Hi) as (p2 & E2 & _). congruence.
Qed.

Lemma release1_spec ps m x :
  pmm_inv ps.1 -> sp_rep ps.2 m -> 0 <= x.1 < U64_MOD -> exists ps', release1 ps x = Some ps' /\ released1 ps x ps'.
Proof.
  intros Hinv Hrep Hx. unfold release1. destruct (free_one ps.1 x.1) as (ok & pm & E).
  destruct (free_grows _ _ _ _ Hinv Hx E) as (Hinv' & Hsr & Hnew & Hold & Hown). destruct x.2 eqn:E2; cbn [negb].
  - destruct (sp_unref_refines ps.2 m ps.1 x.1 Hrep) as (s' & m' & pm' & -> & Es & Hrep'). cbn [mbind option_bind].
    exists (pm', s'). split; [done|]. assert (pm' = ps.1 \/ pm' = pm) as Hpm.
    { unfold spec_unref in Es. case_if_in Es; [left; congruence|]. destruct (m !! x.1); [|left; congruence].
      case_if_in Es; [left; congruence|]. rewrite E in Es. cbn in Es. right. congruence. }
    destruct Hpm as [-> | ->]; split; cbn [fst snd]; auto using same_range_refl; try (by exists m'); intros; congruence.
  - rewrite E. cbn [mbind option_bind]. exists (pm, ps.2). split; [done|]. split; cbn [fst snd]; eauto.
Qed.

(** The pages among [l] that are given back, not dereferenced. *)
Definition plain (l : list (Z * bool)) : list Z := fst <$> filter (fun x => x.2 = false) l.

Lemma plain_cons x l : plain (x :: l) = (if x.2 then [] else [x.1]) ++ plain l.
Proof. unfold plain. rewrite filter_cons. destruct x as [y []]; cbn; done. Qed.

(** Distinct pages that the allocator has handed out all come back, and nothing else
    becomes free but shared pages whose last reference was dropped. *)
Lemma run_releases_spec l : forall ps m,
  pmm_inv ps.1 -> sp_rep ps.2 m -> (forall x, x ∈ l -> 0 <= x.1 < U64_MOD) ->
  NoDup (plain l) -> (forall y, y ∈ plain l -> owned ps.1 y /\ (y, true) ∉ l) ->
  exists ps', run_releases ps l = Some ps' /\ pmm_inv ps'.1 /\ (exists m', sp_rep ps'.2 m') /\ same_range ps.1 ps'.1 /\
    (forall y, free_at ps'.1 y -> free_at ps.1 y \/ y ∈ plain l \/ (y, true) ∈ l) /\
    (forall y, free_at ps.1 y -> free_at ps'.1 y) /\
    (forall y, y ∈ plain l -> free_at ps'.1 y).
Proof.
  induction l as [|x l IH]; intros ps m Hinv Hrep Hr Hnd Hown.
  { exists ps. split; [done|]. split; [done|]. split; [by exists m|]. split; [done|]. split; [auto|]. split; [done|].
    intros y Hy. by apply elem_of_nil in Hy. }
  destruct (release1_spec ps m x Hinv Hrep) as (ps1 & E1 & [Hinv1 [m1 Hrep1] Hsr1 Hnew1 Hold1 Hpl1]); [apply Hr; constructor|].
  rewrite plain_cons in Hnd, Hown. cbn [run_releases ofold]. rewrite E1. cbn [mbind option_bind].
  assert (forall y, y ∈ plain l -> y <> x.1 /\ y ∈ (if x.2 then [] else [x.1]) ++ plain l) as Hsub.
  { intros y Hy. split; [|apply elem_of_app; by right]. intros ->. destruct x as [x1 []]; cbn in *.
    - destruct (Hown x1 Hy) as [_ []]. constructor.
    - apply NoDup_cons in Hnd as [Hn _]. done. }
  destruct (IH ps1 m1) as (ps' & E' & Hinv' & Hm' & Hsr' & Hnew & Hold & Hpl); [done|done|intros; apply Hr; by constructor|..].
  - by apply NoDup_app in Hnd as (_ & _ & ?).
  - intros y Hy. destruct (Hsub y Hy) as [Hne Hin]. destruct (Hown y Hin) as [Ho Hnl]. split; [|by intros ?; apply Hnl; constructor].
    eapply owned_change; [done|done|]. intros [Hf| ->]%Hnew1; [|done]. by apply owned_not_free in Ho.
  - exists ps'. split; [done|]. split; [done|]. split; [done|]. split; [by eapply same_range_trans|].
    rewrite plain_cons. split; [|split].
    + intros y [Hf|[Hy|Hy]]%Hnew; [|right; left; apply elem_of_app; by right|right; right; by constructor].
      apply Hnew1 in Hf as [Hf| ->]; [by left|]. destruct x as [x1 []]; cbn; [right; right|right; left]; constructor.
    + intros y Hy. by apply Hold, Hold1.
    + intros y [Hy|Hy]%elem_of_app; [|by apply Hpl]. apply Hold. destruct x as [x1 []]; cbn in *; [by apply elem_of_nil in Hy|].
      apply list_elem_of_singleton in Hy as ->. apply Hpl1; [done|]. apply (Hown x1). constructor.
Qed.

Lemma plain_app l1 l2 : plain (l1 ++ l2) = plain l1 ++ plain l2.
Proof. unfold plain. by rewrite filter_app, fmap_app. Qed.

Lemma elem_plain y l : y ∈ plain l <-> (y, false) ∈ l.
Proof.
  unfold plain. rewrite list_elem_of_fmap. setoid_rewrite list_elem_of_filter. split.
  - intros ([y' b] & -> & E & Hin). cbn in E. by subst b.
  - intros Hin. by exists (y, false).
Qed.

Lemma plain_concat_nodup (f : Z -> list (Z * bool)) c : forall i,
  (forall j, i <= j < i + Z.of_nat c -> NoDup (plain (f j))) ->
  (forall j k y, i <= j < i + Z.of_nat c -> i <= k < i + Z.of_nat c -> j <> k -> (y, false) ∈ f j -> (y, false) ∉ f k) ->
  NoDup (plain (concat (f <$> seqZ i (Z.of_nat c)))).
Proof.
  induction c as [|c IH]; intros i Hnd Hap; [constructor|]. rewrite seqZ_cons by lia.
  replace (Z.pred (Z.of_nat (S c))) with (Z.of_nat c) by lia. rewrite fmap_cons. cbn [concat]. rewrite plain_app.
  apply NoDup_app. split; [apply Hnd; lia|]. split.
  - intros y Hy%elem_plain Hin%elem_plain. apply list_elem_of_In, in_concat in Hin as (l & Hl & Hin).
    apply list_elem_of_In in Hl, Hin. apply list_elem_of_fmap in Hl as (k & -> & Hk%elem_of_seqZ).
    by apply (Hap i k y ltac:(lia) ltac:(lia) ltac:(lia) Hy).
  - apply IH; intros; [apply Hnd; lia|]. apply (Hap j k y); [lia..|done|done].
Qed.

Section complete.
Context {PF : pt_format} {PL : pt_laws} (td : teardown).
Context (w0 : kmem) (root : Z) (G : gmap (list Z) Z) (Hinv : pt_inv w0 root G).
Context (Hreg : regular td w0 G) (Hval : leaf_valid td w0 G) (Hps : private_sole td w0 G).

(** Every entry of the tree is looked at. *)
Definition covers : Prop :=
  forall p t i, G !! p = Some t -> user_index p i -> pte_valid (km_word w0 (t + 8 * i)) = true -> td_present td (km_word w0 (t + 8 * i)) = true.
Context (Hcov : covers).

Lemma table_not_leaf q q' k e : G !! q = Some (pte_pa e) -> leaf_at td w0 G q' k e -> False.
Proof using Hinv Hval.
  intros Hq Hlf. pose proof (Hval q' k e Hlf) as Hv. destruct Hlf as (u & Hu & Hlu & Hk & -> & Hpr).
  destruct (pt_leaf _ _ _ Hinv q' u k Hu Hlu Hk Hv) as [_ Hn]. by apply (Hn q).
Qed.

(** No page is both given back and dereferenced. *)
Lemma below_kinds p i j y : below td w0 G p i (y, false) -> below td w0 G p j (y, true) -> False.
Proof using Hinv Hval Hps.
  intros Hx [(q' & _ & _ & ?)|(q' & k' & e' & _ & Hlf' & Hk' & E')]; [done|]. injection E' as Ey En.
  destruct Hx as [(q & _ & Hq & _)|(q & k & e & _ & Hlf & Hk & E)].
  - cbn in Hq. rewrite Ey in Hq. by eapply table_not_leaf.
  - injection E as Ey' En'. destruct (Hps q k e q' k' e') as [<- <-]; try done; [congruence|].
    destruct Hlf as (u & Hu & _ & _ & -> & _), Hlf' as (u' & Hu' & _ & _ & -> & _). rewrite Hu in Hu'. injection Hu' as <-. congruence.
Qed.

Lemma entries_apart n p t i j y :
  G !! p = Some t -> (length p + n = pt_upper)%nat -> user_index p i -> user_index p j -> i <> j ->
  (y, false) ∈ entry_events td n (km_word w0) t i -> (y, false) ∉ entry_events td n (km_word w0) t j.
Proof using Hinv Hreg Hval Hps.
  intros Hp Hn Hi Hj Hij H1 H2. apply (entry_below td w0 root G Hinv Hreg n p t) in H1, H2; [|done..].
  by apply (below_apart td w0 root G Hinv p i j (y, false) (y, false) Hval Hps H1 H2).
Qed.

Lemma entry_nodup n : forall p t i, G !! p = Some t -> (length p + n = pt_upper)%nat -> user_index p i ->
  NoDup (plain (entry_events td n (km_word w0) t i)).
Proof using Hinv Hreg Hval Hps.
  induction n as [|n IH]; intros p t i Hp Hn Hi; unfold entry_events; pose proof (Hreg p t i Hp Hi) as Hr; cbn zeta in Hr;
    set (e := km_word w0 (t + 8 * i)) in *;
    (destruct (td_present td e) eqn:Epr; cbn [negb]; [specialize (Hr eq_refl)|constructor]); case_decide as El; try lia.
  - rewrite Hr. unfold leaf_events. destruct (td_keep td 0 e); [constructor|]. rewrite plain_cons.
    destruct (td_nofree td 0 e); [constructor|apply NoDup_singleton].
  - destruct Hr as [Hr Hc]. replace (pt_upper - length p)%nat with (S n) in Hr by lia. rewrite Hr.
    assert (length (p ++ [i]) + n = pt_upper)%nat as Hn' by (rewrite length_app; cbn; lia).
    assert (forall j, 0 <= j < 512 -> user_index (p ++ [i]) j) as Hui by (intros; split; [done|by destruct p]).
    rewrite tree_events_eq, plain_app, plain_cons. cbn [snd fst]. apply NoDup_app. split; [|split].
    + apply (plain_concat_nodup _ 512 0); [intros j Hj; apply (IH (p ++ [i])); [done|done|apply Hui; lia]|].
      intros j k y Hj Hk. apply (entries_apart n (p ++ [i]) (pte_pa e)); [done|done|apply Hui; lia..].
    + intros y Hy%elem_plain [E|E]%elem_of_app; [|by apply elem_of_nil in E]. apply list_elem_of_singleton in E as ->.
      apply list_elem_of_In, in_concat in Hy as (l & Hl & Hy). apply list_elem_of_In in Hl, Hy.
      apply list_elem_of_fmap in Hl as (j & -> & Hj%elem_of_seqZ).
      apply (entry_below td w0 root G Hinv Hreg n (p ++ [i]) (pte_pa e)) in Hy; [|done|done|by apply Hui].
      destruct Hy as [(q & Hpre & Hq & _)|(q & k & e' & _ & Hlf & _ & Ee)].
      * cbn in Hq. pose proof (pt_inj _ _ _ Hinv q (p ++ [i]) _ Hq Hc) as ->. by apply (prefix_snoc_ne _ _ j) in Hpre.
      * injection Ee as Ee _. rewrite Ee in Hc. by eapply table_not_leaf.
    + apply NoDup_singleton.
Qed.

Lemma table_released n : forall p t i q u, G !! p = Some t -> (length p + n = pt_upper)%nat -> user_index p i ->
  G !! (p ++ i :: q) = Some u -> (u, false) ∈ entry_events td n (km_word w0) t i.
Proof using Hinv Hreg Hcov.
  induction n as [|n IH]; intros p t i q u Hp Hn Hi Hu.
  { destruct (pt_tab _ _ _ Hinv _ u Hu) as [Hl _]. rewrite length_app in Hl. cbn in Hl. lia. }
  destruct (pt_prefix w0 root G Hinv (p ++ [i]) q u) as [c Hc]; [by rewrite <-app_assoc|].
  pose proof Hc as (t2 & E2 & _ & _ & (Hv & _ & Hpa))%(pt_child _ _ _ Hinv). rewrite Hp in E2. injection E2 as <-.
  pose proof (Hreg p t i Hp Hi) as Hr. cbn zeta in Hr. specialize (Hr (Hcov p t i Hp Hi Hv)). case_decide; [lia|].
  unfold entry_events. rewrite (Hcov p t i Hp Hi Hv). cbn [negb].
  destruct Hr as [Hr _]. replace (pt_upper - length p)%nat with (S n) in Hr by lia. rewrite Hr. apply elem_of_app.
  destruct q as [|j q].
  - right. rewrite Hu in Hc. injection Hc as <-. rewrite Hpa. constructor.
  - left. rewrite tree_events_eq. assert (0 <= j < 512) as Hj.
    { destruct (pt_prefix w0 root G Hinv (p ++ [i; j]) q u) as [c2 Hc2]; [by rewrite <-app_assoc|].
      rewrite (cons_middle i p [j]), app_assoc in Hc2. by apply (pt_child _ _ _ Hinv) in Hc2 as (? & _ & _ & [? _] & _). }
    apply list_elem_of_In, in_concat. eexists. split; apply list_elem_of_In.
    + apply list_elem_of_fmap. exists j. split; [done|]. apply elem_of_seqZ. lia.
    + rewrite Hpa. apply (IH (p ++ [i]) c j q u); [done|rewrite length_app; cbn; lia|split; [done|by destruct p]|by rewrite <-app_assoc].
Qed.

Lemma leaf_released n : forall p t i r k e, G !! p = Some t -> (length p + n = pt_upper)%nat -> user_index p i ->
  leaf_at td w0 G r k e -> (p ++ [i]) `prefix_of` (r ++ [k]) -> td_keep td 0 e = false ->
  (pte_pa e, td_nofree td 0 e) ∈ entry_events td n (km_word w0) t i.
Proof using Hinv Hreg Hcov.
  induction n as [|n IH]; intros p t i r k e Hp Hn Hi Hlf Hpre Hk.
  - pose proof Hlf as (u & Hu & Hlu & Hkr & He & Hpr). destruct Hpre as [q E].
    assert (q = []) as ->. { apply (f_equal length) in E. rewrite !length_app in E. cbn in E. by apply length_zero_iff_nil; lia. }
    rewrite app_nil_r in E. apply app_inj_tail in E as [-> ->]. rewrite Hp in Hu. injection Hu as <-.
    unfold entry_events. rewrite <-He, Hpr. cbn [negb]. pose proof (Hreg p t i Hp Hi) as Hr. cbn zeta in Hr. rewrite <-He in Hr.
    specialize (Hr Hpr). case_decide; [|lia]. rewrite Hr. unfold leaf_events. rewrite Hk. constructor.
  - pose proof Hlf as (u & Hu & Hlu & Hkr & He & Hpr). destruct Hpre as [q E].
    destruct q as [|k' q _] using rev_ind.
    { apply (f_equal length) in E. rewrite !length_app in E. cbn in E. lia. }
    rewrite app_assoc in E. apply app_inj_tail in E as [-> <-].
    destruct (pt_prefix w0 root G Hinv (p ++ [i]) q u Hu) as [c Hc].
    pose proof Hc as (t2 & E2 & _ & _ & (Hv & _ & Hpa))%(pt_child _ _ _ Hinv). rewrite Hp in E2. injection E2 as <-.
    pose proof (Hreg p t i Hp Hi) as Hr. cbn zeta in Hr. specialize (Hr (Hcov p t i Hp Hi Hv)). case_decide; [lia|].
    unfold entry_events. rewrite (Hcov p t i Hp Hi Hv). cbn [negb].
    destruct Hr as [Hr _]. replace (pt_upper - length p)%nat with (S n) in Hr by lia. rewrite Hr. apply elem_of_app. left.
    rewrite tree_events_eq, Hpa. assert (exists j q', q ++ [k] = j :: q' /\ 0 <= j < 512) as (j & q' & Eq & Hj).
    { destruct q as [|j q]; [by exists k, []|]. exists j, (q ++ [k]). split; [done|].
      destruct (pt_prefix w0 root G Hinv (p ++ [i; j]) q u) as [c2 Hc2]; [by rewrite <-!app_assoc in *|].
      rewrite (cons_middle i p [j]), app_assoc in Hc2. by apply (pt_child _ _ _ Hinv) in Hc2 as (? & _ & _ & [? _] & _). }
    apply list_elem_of_In, in_concat. eexists. split; apply list_elem_of_In.
    + apply list_elem_of_fmap. exists j. split; [done|]. apply elem_of_seqZ. lia.
    + apply (IH (p ++ [i]) c j ((p ++ [i]) ++ q) k e Hc); [rewrite length_app; cbn; lia|split; [done|by destruct p]|done| |done].
      exists q'. by rewrite <-!app_assoc, Eq.
Qed.

(** ** The whole address space *)

(** The releases of an address space: its tree, then the root table. *)
Definition space_events : list (Z * bool) :=
  concat (entry_events td pt_upper (km_word w0) root <$> seqZ 0 pt_user_roots) ++ [(root, false)].

(** The pages it gives back were handed out by the allocator. *)
Definition space_owned : Prop :=
  (forall p t, G !! p = Some t -> owned (km_pmm w0) t) /\
  (forall q k e, leaf_at td w0 G q k e -> td_keep td 0 e = false -> td_nofree td 0 e = false -> owned (km_pmm w0) (pte_pa e)).

Lemma space_elem x :
  x ∈ space_events -> x = (root, false) \/ exists i, user_index [] i /\ x ∈ entry_events td pt_upper (km_word w0) root i /\ below td w0 G [] i x.
Proof using Hinv Hreg PL.
  intros [Hx|Hx]%elem_of_app; [right|left; by apply list_elem_of_singleton in Hx].
  apply list_elem_of_In, in_concat in Hx as (l & Hl & Hx). apply list_elem_of_In in Hl, Hx.
  apply list_elem_of_fmap in Hl as (i & -> & Hi%elem_of_seqZ). pose proof pt_roots_range.
  exists i. assert (user_index [] i) as Hui by (split; lia). split; [done|]. split; [done|].
  apply (entry_below td w0 root G Hinv Hreg pt_upper [] root i x (pt_root _ _ _ Hinv) eq_refl Hui Hx).
Qed.

Lemma space_nodup : NoDup (plain space_events).
Proof using Hinv Hreg Hval Hps PL.
  unfold space_events. rewrite plain_app. pose proof pt_roots_range. apply NoDup_app. split; [|split; [|apply NoDup_singleton]].
  - rewrite <-(Z2Nat.id pt_user_roots) by lia. apply plain_concat_nodup.
    + intros j Hj. apply (entry_nodup pt_upper []); [apply Hinv|done|split; lia].
    + intros j k y Hj Hk Hjk. apply (entries_apart pt_upper [] root); [apply Hinv|done|split; lia|split; lia|done].
  - intros y Hy%elem_plain [E|E]%elem_plain%elem_of_cons; [|by apply elem_of_nil in E]. injection E as ->.
    apply list_elem_of_In, in_concat in Hy as (l & Hl & Hy). apply list_elem_of_In in Hl, Hy.
    apply list_elem_of_fmap in Hl as (i & -> & Hi%elem_of_seqZ).
    apply (entry_below td w0 root G Hinv Hreg pt_upper [] root i) in Hy; [|apply Hinv|done|split; lia].
    destruct Hy as [(q & Hpre & Hq & _)|(q & k & e' & _ & Hlf & _ & Ee)].
    + cbn in Hq. pose proof (pt_inj _ _ _ Hinv q [] _ Hq (pt_root _ _ _ Hinv)) as ->. by apply (prefix_snoc_ne [] [] i).
    + injection Ee as Ee _. pose proof (pt_root _ _ _ Hinv) as Hrt. rewrite Ee in Hrt. by eapply table_not_leaf.
Qed.

(** The state after the address space is gone: every table and every private page is
    free, and nothing else became free but pages it had mapped and shared. *)
Record space_freed (ps : pmm_t * shared_pages) : Prop := {
  sf_pmm : pmm_inv ps.1;
  sf_shared : exists m, sp_rep ps.2 m;
  sf_tables p t : G !! p = Some t -> free_at ps.1 t;
  sf_pages q k e : leaf_at td w0 G q k e -> td_keep td 0 e = false -> td_nofree td 0 e = false -> free_at ps.1 (pte_pa e);
  sf_only y : free_at ps.1 y ->
    free_at (km_pmm w0) y \/ (exists p, G !! p = Some y) \/
    exists q k e, leaf_at td w0 G q k e /\ td_keep td 0 e = false /\ y = pte_pa e;
}.

Lemma space_run m :
  sp_rep (km_shared w0) m -> space_owned -> (forall e, 0 <= pte_pa e < U64_MOD) -> 0 <= root < U64_MOD ->
  exists ps, run_releases (kst w0) space_events = Some ps /\ space_freed ps.
Proof using All.
  intros Hrep [Hot Hol] Hpa Hroot. pose proof pt_roots_range as Hrr. pose proof (pt_root _ _ _ Hinv) as Hrt.
  assert (forall x i, below td w0 G [] i x -> 0 <= x.1 < U64_MOD) as Hrange.
  { intros x i [(q & _ & Hq & _)|(q & k & e & _ & _ & _ & ->)]; [|apply Hpa].
    destruct (Hot q x.1 Hq) as (j & -> & ? & ? & _). pmm_nums (pt_pmm _ _ _ Hinv). unfold page_addr. lia. }
  destruct (run_releases_spec space_events (kst w0) m) as (ps & E & Hpm & Hsh & _ & Hnew & Hold & Hpl);
    [apply Hinv|done| |apply space_nodup| |].
  - intros x [->|(i & _ & _ & Hb)]%space_elem; [done|by eapply Hrange].
  - intros y Hy%elem_plain. apply space_elem in Hy as Hb. split.
    + destruct Hb as [Ey|(i & _ & _ & [(q & _ & Hq & _)|(q & k & e & _ & Hlf & Hk & Ey)])].
      * injection Ey as ->. by apply (Hot []).
      * by apply (Hot q).
      * injection Ey as -> Hnf. by eapply Hol.
    + intros Ht. apply space_elem in Ht as [?|(j & _ & _ & Ht)]; [done|].
      destruct Hb as [Ey|(i & _ & _ & Hb)]; [|by apply (below_kinds [] i j y)].
      injection Ey as ->. destruct Ht as [(? & _ & _ & ?)|(q & k & e & _ & Hlf & _ & Ey)]; [done|].
      injection Ey as Ey _. rewrite Ey in Hrt. by eapply table_not_leaf.
  - exists ps. split; [done|]. split; [done|done| | |].
    + intros p t Hp. apply Hpl, elem_plain, elem_of_app. destruct p as [|i q]; [right; rewrite Hrt in Hp; injection Hp as <-; constructor|left].
      assert (user_index [] i) as Hi.
      { destruct (pt_prefix w0 root G Hinv [i] q t Hp) as [c Hc]. by apply (pt_child _ _ _ Hinv [] i c) in Hc as (? & _ & _ & ? & _). }
      apply list_elem_of_In, in_concat. eexists. split; apply list_elem_of_In.
      * apply list_elem_of_fmap. exists i. split; [done|]. apply elem_of_seqZ. destruct Hi as [? Hi]. specialize (Hi eq_refl). lia.
      * by apply (table_released pt_upper [] root i q t).
    + intros q k e Hlf Hk Hnf. apply Hpl, elem_plain, elem_of_app. left. rewrite <-Hnf.
      assert (exists i q', q ++ [k] = i :: q' /\ user_index [] i) as (i & q' & Eq & Hi).
      { pose proof Hlf as (u & Hu & Hl & _). pose proof pt_upper_pos. destruct q as [|i q]; [cbn in Hl; lia|]. exists i, (q ++ [k]). split; [done|].
        destruct (pt_prefix w0 root G Hinv [i] q u Hu) as [c Hc]. by apply (pt_child _ _ _ Hinv [] i c) in Hc as (? & _ & _ & ? & _). }
      apply list_elem_of_In, in_concat. eexists. split; apply list_elem_of_In.
      * apply list_elem_of_fmap. exists i. split; [done|]. apply elem_of_seqZ. destruct Hi as [? Hi]. specialize (Hi eq_refl). lia.
      * apply (leaf_released pt_upper [] root i q k e); [done|done|done|done| |done]. exists q'. by rewrite Eq.
    + assert (forall y b, (y, b) ∈ space_events -> (exists p, G !! p = Some y) \/
        exists q k e, leaf_at td w0 G q k e /\ td_keep td 0 e = false /\ y = pte_pa e) as Hev.
      { intros y b [Ey|(i & _ & _ & [(q & _ & Hq & _)|(q & k & e & _ & Hlf & Hk & Ey)])]%space_elem.
        - injection Ey as -> _. left. by exists [].
        - left. by exists q.
        - injection Ey as -> _. right. by exists q, k, e. }
      intros y [Hf|[Hy%elem_plain|Hy]]%Hnew; [by left|right; by eapply Hev..].
Qed.

(** The loop over the user part of the root, then the release of the root. *)
Definition destroy_space : option kmem :=
  w ← ofold (destroy_entry td pt_upper root) w0 (seqZ 0 pt_user_roots);
  '(_, pm) ← pmm_free_pages (km_pmm w) root 1;
  Some (set_pmm w pm).

Lemma destroy_space_spec m :
  sp_rep (km_shared w0) m -> space_owned -> (forall e, 0 <= pte_pa e < U64_MOD) -> 0 <= root < U64_MOD ->
  exists w', destroy_space = Some w' /\ run_releases (kst w0) space_events = Some (kst w') /\ space_freed (kst w').
Proof using All.
  intros Hrep Hown Hpa Hroot. destruct (space_run m Hrep Hown Hpa Hroot) as (ps & E & Hsf).
  pose proof E as Erun. pose proof pt_roots_range. unfold space_events, run_releases in E. rewrite ofold_app in E.
  destruct (ofold release1 (kst w0) _) as [ps1|] eqn:E1; [|done]. cbn [mbind option_bind ofold] in E.
  rewrite <-(Z2Nat.id pt_user_roots) in E1 by lia.
  destruct (destroy_loop_spec td w0 root G Hinv Hreg [] root pt_upper (Z.to_nat pt_user_roots) w0 ps1) as (w1 & Ed & Ek & _);
    [apply Hinv|done|intros j Hj; split; lia|by intros q u k|exact E1|].
  rewrite Z2Nat.id in Ed by lia. unfold destroy_space. rewrite Ed. cbn [mbind option_bind].
  rewrite <-Ek in E. unfold release1, kst in E. cbn [fst snd negb] in E.
  destruct (pmm_free_pages (km_pmm w1) root 1) as [[ok pm]|]; [|done]. cbn [mbind option_bind] in *. injection E as <-.
  eexists. split; [done|]. by split.
Qed.
End complete.

(** ** The releases with their places in the tree *)

Section items.
Context {PF : pt_format} (td : teardown).

Definition leaf_items (n : nat) (p : list Z) (e : Z) : list (list Z * (Z * bool)) :=
  if td_keep td n e then [] else [(p, (pte_pa e, td_nofree td n e))].
Fixpoint tree_items (n : nat) (m : Z -> Z) (p : list Z) (table : Z) : list (list Z * (Z * bool)) :=
  concat ((fun i =>
    let e := m (table + 8 * i) in
    if negb (td_present td e) then []
    else if td_leaf td n e then leaf_items n (p ++ [i]) e
    else match n with O => [] | S n => tree_items n m (p ++ [i]) (pte_pa e) ++ [(p ++ [i], (pte_pa e, false))] end) <$> seqZ 0 512).
Definition entry_items (n : nat) (m : Z -> Z) (p : list Z) (table i : Z) : list (list Z * (Z * bool)) :=
  let e := m (table + 8 * i) in
  if negb (td_present td e) then []
  else if td_leaf td n e then leaf_items n (p ++ [i]) e
  else match n with O => [] | S n => tree_items n m (p ++ [i]) (pte_pa e) ++ [(p ++ [i], (pte_pa e, false))] end.
Lemma tree_items_eq n m p table : tree_items n m p table = concat (entry_items n m p table <$> seqZ 0 512).
Proof using Type. by destruct n. Qed.

Lemma concat_fmap {A B} (f : A -> B) (l : list (list A)) : fmap (M := list) f (concat l) = concat (fmap (M := list) (fmap (M := list) f) l).
Proof using Type. induction l as [|x l IH]; [done|]. cbn. by rewrite fmap_app, IH. Qed.
Lemma leaf_items_events n p e : snd <$> leaf_items n p e = leaf_events td n e.
Proof using Type. unfold leaf_items, leaf_events. by destruct (td_keep td n e). Qed.
Lemma entry_items_events n m : forall p t i, snd <$> entry_items n m p t i = entry_events td n m t i.
Proof using Type.
  induction n as [|n IH]; intros p t i; unfold entry_items, entry_events; destruct (td_present td _); cbn [negb]; try done; destruct (td_leaf td _ _); try apply leaf_items_events; [done|].
  rewrite fmap_app, tree_items_eq, tree_events_eq, concat_fmap, <- list_fmap_compose. f_equal. f_equal. apply list_fmap_ext. intros k j _. apply IH.
Qed.

Lemma elem_concat {A B} (f : B -> list A) (l : list B) x : x ∈ concat (f <$> l) <-> exists j, j ∈ l /\ x ∈ f j.
Proof using Type.
  rewrite list_elem_of_In, in_concat. split.
  - intros (y & Hy & Hx). apply list_elem_of_In in Hy, Hx. apply list_elem_of_fmap in Hy as (j & -> & Hj). by exists j.
  - intros (j & Hj & Hx). exists (f j). split; apply list_elem_of_In; [|done]. apply list_elem_of_fmap. by exists j.
Qed.

Lemma items_prefix n m : forall p t i x, x ∈ entry_items n m p t i -> (p ++ [i]) `prefix_of` x.1.
Proof using Type.
  induction n as [|n IH]; intros p t i x; unfold entry_items; destruct (td_present td _); cbn [negb]; try (by intros H%elem_of_nil);
    (destruct (td_leaf td _ _); [unfold leaf_items; destruct (td_keep td _ _); [by intros H%elem_of_nil|]; intros ->%list_elem_of_singleton; done|]); [by intros H%elem_of_nil|].
  intros [Hx|Hx]%elem_of_app; [|by apply list_elem_of_singleton in Hx as ->]. rewrite tree_items_eq in Hx. apply elem_concat in Hx as (j & _ & Hx%IH).
  etrans; [|exact Hx]. by exists [j].
Qed.

Lemma keys_concat (f : Z -> list (list Z * (Z * bool))) p c : forall i,
  (forall j x, x ∈ f j -> (p ++ [j]) `prefix_of` x.1) -> (forall j, NoDup (fst <$> f j)) -> NoDup (fst <$> concat (f <$> seqZ i (Z.of_nat c))).
Proof using Type.
  induction c as [|c IH]; intros i Hpre Hnd; [constructor|]. rewrite seqZ_cons by lia. replace (Z.pred (Z.of_nat (S c))) with (Z.of_nat c) by lia.
  rewrite fmap_cons. cbn [concat]. rewrite fmap_app. apply NoDup_app. split; [done|]. split; [|by apply IH].
  intros q (x & -> & Hx)%list_elem_of_fmap (y & E & Hy)%list_elem_of_fmap. apply elem_concat in Hy as (j & Hj%elem_of_seqZ & Hy).
  by apply (prefix_snoc_apart p x.1 y.1 i j (Hpre i x Hx) (Hpre j y Hy) ltac:(lia)).
Qed.
Lemma items_nodup n m : forall p t i, NoDup (fst <$> entry_items n m p t i).
Proof using Type.
  induction n as [|n IH]; intros p t i; unfold entry_items; destruct (td_present td _); cbn [negb]; try constructor;
    (destruct (td_leaf td _ _); [unfold leaf_items; destruct (td_keep td _ _); [constructor|apply NoDup_singleton]|]); [constructor|].
  rewrite fmap_app, tree_items_eq. apply NoDup_app. split; [|split; [|apply NoDup_singleton]].
  - apply (keys_concat _ (p ++ [i]) 512); [intros j x; apply items_prefix|intros j; apply IH].
  - intros q (x & -> & Hx)%list_elem_of_fmap. apply elem_concat in Hx as (j & _ & Hx%items_prefix). cbn. intros E%list_elem_of_singleton. by apply (prefix_snoc_ne _ _ j Hx).
Qed.

Context (w0 : kmem) (root : Z) (G : gmap (list Z) Z) (Hinv : pt_inv w0 root G).
Context (Hreg : regular td w0 G).
Context (Hcov : covers td w0 G).

Definition item_at (x : list Z * (Z * bool)) : Prop :=
  (G !! x.1 = Some x.2.1 /\ x.2.2 = false) \/
  (exists q k e, x.1 = q ++ [k] /\ leaf_at td w0 G q k e /\ td_keep td 0 e = false /\ x.2 = (pte_pa e, td_nofree td 0 e)).

Lemma item_child p i x : (length p < pt_upper)%nat -> (p ++ [i]) `prefix_of` x.1 -> item_at x ->
  exists c, G !! (p ++ [i]) = Some c /\ (x = (p ++ [i], (c, false)) \/ exists j, 0 <= j < 512 /\ ((p ++ [i]) ++ [j]) `prefix_of` x.1).
Proof using Hinv.
  intros Hl [q Eq] Hx. assert (exists c, G !! (p ++ [i]) = Some c) as [c Hc].
  { destruct Hx as [[Hg _]|(q' & k & e & E & (u & Hu & Hlu & _) & _)]; [rewrite Eq in Hg; by apply (pt_prefix w0 root G Hinv (p ++ [i]) q x.2.1)|].
    rewrite Eq in E. destruct q as [|k' q _] using rev_ind; [apply (f_equal length) in E; rewrite app_nil_r, !length_app in E; cbn in E; lia|].
    rewrite app_assoc in E. apply app_inj_tail in E as [<- _]. by apply (pt_prefix w0 root G Hinv (p ++ [i]) q u). }
  exists c. split; [done|]. destruct q as [|j q].
  - left. rewrite app_nil_r in Eq. destruct x as [y [a b]]. unfold item_at in Hx. cbn in *. subst y. destruct Hx as [[Hg ->]|(q' & k & e & E & (u & _ & Hlu & _) & _)]; [congruence|].
    apply (f_equal length) in E. rewrite !length_app in E. cbn in E. lia.
  - right. exists j. assert (((p ++ [i]) ++ [j]) `prefix_of` x.1) as Hpre by (exists q; by rewrite Eq, <- !app_assoc). split; [|done].
    destruct Hx as [[Hg _]|(q' & k & e & E & (u & Hu & Hlu & Hk & _) & _)].
    + rewrite Eq in Hg. destruct (pt_prefix w0 root G Hinv ((p ++ [i]) ++ [j]) q x.2.1) as [c2 Hc2]; [by rewrite <- !app_assoc in *|].
      by apply (pt_child _ _ _ Hinv) in Hc2 as (? & _ & _ & [? _] & _).
    + rewrite Eq in E. destruct q as [|k' q _] using rev_ind; [change [j] with ([] ++ [j]) in E; rewrite app_assoc, app_nil_r in E; by apply app_inj_tail in E as [_ ->]|].
      rewrite app_comm_cons, app_assoc in E. apply app_inj_tail in E as [<- _]. destruct (pt_prefix w0 root G Hinv ((p ++ [i]) ++ [j]) q u) as [c2 Hc2]; [by rewrite <- !app_assoc in *|].
      by apply (pt_child _ _ _ Hinv) in Hc2 as (? & _ & _ & [? _] & _).
Qed.

Lemma items_spec n : forall p t i x, G !! p = Some t -> (length p + n = pt_upper)%nat -> user_index p i ->
  x ∈ entry_items n (km_word w0) p t i <-> (p ++ [i]) `prefix_of` x.1 /\ item_at x.
Proof using Hinv Hreg Hcov.
  induction n as [|n IH]; intros p t i x Hp Hn Hi; (split; [intros Hx; split; [by eapply items_prefix|]|intros [Hpre Hx]]).
  - unfold entry_items in Hx. pose proof (Hreg p t i Hp Hi) as Hr. cbn zeta in Hr. set (e := km_word w0 (t + 8 * i)) in *. destruct (td_present td e) eqn:Ee; [|by apply elem_of_nil in Hx].
    specialize (Hr eq_refl). rewrite decide_True in Hr by lia. cbn [negb] in Hx. rewrite Hr in Hx. unfold leaf_items in Hx. destruct (td_keep td 0 e) eqn:Ek; [by apply elem_of_nil in Hx|].
    apply list_elem_of_singleton in Hx as ->. right. exists p, i, e. split; [done|]. split; [|done]. exists t. destruct Hi. split_and!; try done; lia.
  - destruct Hx as [[Hg _]|(q & k & e & E & (u & Hu & Hlu & Hk & He & Hpr) & Hkeep & E2)].
    { destruct Hpre as [q Eq]. rewrite Eq in Hg. apply (pt_tab _ _ _ Hinv) in Hg as [Hg _]. rewrite !length_app in Hg. cbn in Hg. lia. }
    destruct Hpre as [q' Eq]. rewrite E in Eq. assert (q' = []) as ->. { apply (f_equal length) in Eq. rewrite !length_app in Eq. cbn in Eq. apply length_zero_iff_nil. lia. }
    rewrite app_nil_r in Eq. apply app_inj_tail in Eq as [-> ->]. rewrite Hp in Hu. injection Hu as <-. unfold entry_items. rewrite <- He, Hpr. cbn [negb].
    pose proof (Hreg p t i Hp Hi) as Hr. cbn zeta in Hr. rewrite <- He in Hr. specialize (Hr Hpr). rewrite decide_True in Hr by lia. rewrite Hr. unfold leaf_items. rewrite Hkeep.
    destruct x as [x1 x2]. cbn in *. subst. apply list_elem_of_here.
  - unfold entry_items in Hx. pose proof (Hreg p t i Hp Hi) as Hr. cbn zeta in Hr. set (e := km_word w0 (t + 8 * i)) in *. destruct (td_present td e) eqn:Ee; [|by apply elem_of_nil in Hx].
    specialize (Hr eq_refl). rewrite decide_False in Hr by lia. destruct Hr as [Hr Hc]. replace (pt_upper - length p)%nat with (S n) in Hr by lia. cbn [negb] in Hx. rewrite Hr in Hx.
    apply elem_of_app in Hx as [Hx|Hx]; [|apply list_elem_of_singleton in Hx as ->; by left]. rewrite tree_items_eq in Hx. apply elem_concat in Hx as (j & Hj%elem_of_seqZ & Hx).
    apply (IH (p ++ [i]) (pte_pa e) j x Hc) in Hx as [_ Hx]; [done|rewrite length_app; cbn; lia|split; [lia|by destruct p]].
  - destruct (item_child p i x ltac:(lia) Hpre Hx) as (c & Hc & Hcase).
    pose proof Hc as (t2 & E2 & _ & _ & (Hv & _ & Hpa))%(pt_child _ _ _ Hinv). rewrite Hp in E2. injection E2 as <-. pose proof (Hcov p t i Hp Hi Hv) as Hpr.
    pose proof (Hreg p t i Hp Hi) as Hr. cbn zeta in Hr. specialize (Hr Hpr). rewrite decide_False in Hr by lia. destruct Hr as [Hr _]. replace (pt_upper - length p)%nat with (S n) in Hr by lia.
    unfold entry_items. rewrite Hpr, Hr, Hpa. cbn [negb]. apply elem_of_app. destruct Hcase as [->|(j & Hj & Hpre')]; [right; apply list_elem_of_here|left].
    rewrite tree_items_eq. apply elem_concat. exists j. split; [apply elem_of_seqZ; lia|]. apply (IH (p ++ [i]) c j x Hc); [rewrite length_app; cbn; lia|split; [lia|by destruct p]|done].
Qed.

(** The whole address space. *)
Context {PL : pt_laws}.
Definition space_items : list (list Z * (Z * bool)) := concat (entry_items pt_upper (km_word w0) [] root <$> seqZ 0 pt_user_roots) ++ [([], (root, false))].

Lemma space_items_spec : snd <$> space_items = space_events td w0 root /\ NoDup (fst <$> space_items) /\ forall x, x ∈ space_items <-> item_at x.
Proof using Hinv Hreg Hcov PL.
  pose proof pt_roots_range as Hrr. unfold space_items, space_events. split; [|split].
  - rewrite fmap_app, concat_fmap, <- list_fmap_compose. f_equal. f_equal. apply list_fmap_ext. intros k j _. apply entry_items_events.
  - rewrite fmap_app. apply NoDup_app. split; [|split; [|apply NoDup_singleton]].
    + rewrite <- (Z2Nat.id pt_user_roots) by lia. apply (keys_concat _ []); [intros j x; apply items_prefix|intros j; apply items_nodup].
    + intros q (x & -> & Hx)%list_elem_of_fmap. apply elem_concat in Hx as (j & _ & Hx%items_prefix). cbn. intros E%list_elem_of_singleton. rewrite E in Hx. by apply prefix_nil_inv in Hx.
  - intros x. rewrite elem_of_app, elem_concat. split.
    + intros [(j & Hj%elem_of_seqZ & Hx)|Hx]; [|apply list_elem_of_singleton in Hx as ->; left; split; [apply Hinv|done]].
      apply (items_spec pt_upper [] root j x (pt_root _ _ _ Hinv) eq_refl) in Hx; [apply Hx|]. split; lia.
    + intros Hx. destruct x as [[|j q] [a b]].
      * right. destruct Hx as [[Hg Hb]|(q' & k & e & E & _)]; [|by apply (f_equal length) in E; rewrite length_app in E; cbn in E; lia]. cbn in Hg, Hb. subst b. rewrite (pt_root _ _ _ Hinv) in Hg.
        injection Hg as ->. apply list_elem_of_here.
      * left. assert ([] ++ [j] `prefix_of` (j :: q, (a, b)).1) as Hpre by (by exists q). destruct (item_child [] j _ ltac:(pose proof pt_upper_pos; cbn; lia) Hpre Hx) as (c & Hc & _).
        assert (user_index [] j) as Hi by (by apply (pt_child _ _ _ Hinv [] j c) in Hc as (? & _ & _ & ? & _)). exists j. split; [apply elem_of_seqZ; destruct Hi as [? Hi]; specialize (Hi eq_refl); lia|].
        by apply (items_spec pt_upper [] root j _ (pt_root _ _ _ Hinv) eq_refl Hi).
Qed.

(** Whatever the releases do to the allocator, the walk does it, and writes no other memory. *)
Lemma destroy_space_items ps : run_releases (kst w0) (snd <$> space_items) = Some ps ->
  exists w', destroy_space td w0 root = Some w' /\ kst w' = ps /\ touches G w0 w' [].
Proof using Hinv Hreg Hcov PL.
  rewrite (proj1 space_items_spec). intros E. pose proof pt_roots_range. unfold space_events, run_releases in E. rewrite ofold_app in E.
  destruct (ofold release1 (kst w0) _) as [ps1|] eqn:E1; [|done]. cbn [mbind option_bind ofold] in E. rewrite <- (Z2Nat.id pt_user_roots) in E1 by lia.
  destruct (destroy_loop_spec td w0 root G Hinv Hreg [] root pt_upper (Z.to_nat pt_user_roots) w0 ps1) as (w1 & Ed & Ek & Ht);
    [apply Hinv|done|intros j Hj; split; lia|by intros q u k|exact E1|].
  rewrite Z2Nat.id in Ed by lia. unfold destroy_space. rewrite Ed. cbn [mbind option_bind]. rewrite <- Ek in E. unfold release1, kst in E. cbn [fst snd negb] in E.
  destruct (pmm_free_pages (km_pmm w1) root 1) as [[ok pm]|]; [|done]. cbn [mbind option_bind] in *. injection E as <-. eexists. split; [done|]. by split.
Qed.
End items.

Lemma demo_owned x : x ∈ [1048576; 1052672; 1056768; 1060864] -> owned demo_pmm x.
Proof.
  intros Hx. exists ((x - 1048576) / PAGE_SIZE). rewrite !elem_of_cons, elem_of_nil in Hx.
  destruct Hx as [->|[->|[->|[->|[]]]]]; (split; [vm_compute; reflexivity|]; split; [vm_compute; discriminate|];
    split; [vm_compute; discriminate|]; intros k Hk;
    match type of Hk with ?a <= _ < _ => let a' := eval vm_compute in a in change a with a' in Hk; assert (k = a') as -> by lia end;
    split; vm_compute; reflexivity).
Qed.
