(* ===== verification/Riscv64.v ===== *)
(** * Sv39 address spaces: kernel/mm/riscv64/vmm.c

    The entry format of include/riscv64/pte.h as an instance of [pt_format], and every
    operation of the file on top of it.  The TLB flush has no model: translations are
    what the tables say.  The kernel mappings that [mm_vm_init_user_pgd] copies occupy
    the root entries from [RV_KERNEL_L1_BASE_INDEX] on, outside the tree an address
    space owns. *)

From stdpp Require Import options.
From Stdlib Require Import Lia.
From S2P Require Import Prelude Bitmap Pmm SharedPage PhysMem PageTable Teardown.

(** ** Entries (include/riscv64/pte.h, include/riscv64/mmu.h) *)

Abbreviation RV_PTE_V := 1.
Abbreviation RV_PTE_R := 2.
Abbreviation RV_PTE_W := 4.
Abbreviation RV_PTE_X := 8.
Abbreviation RV_PTE_U := 16.
Abbreviation RV_PTE_A := 64.
Abbreviation RV_PTE_D := 128.
Abbreviation RV_PTE_NOFREE := 256.
Abbreviation RV_PTE_KEEP := 512.
Abbreviation RV_PTE_PPN_SHIFT := 10.
Abbreviation RV_PTE_PPN_MASK := 17592186044415.
Abbreviation RV_KERNEL_VMA_OFF := 18446743798831644672.
Abbreviation RV_KERNEL_L1_BASE_INDEX := 256.

(** Platform attributes: [sg2002] is the macro PLATFORM_SG2002. *)
Definition RV_PTE_ATTR_NORMAL (sg2002 : bool) : Z := if sg2002 then 8070450532247928832 else 0.
Definition RV_PTE_ATTR_IOREMAP (sg2002 : bool) : Z := if sg2002 then 10376293541461622784 else 0.

Definition RV_PTE_TO_PA (e : Z) : Z := Z.shiftl (Z.land (Z.shiftr e RV_PTE_PPN_SHIFT) RV_PTE_PPN_MASK) PAGE_SHIFT.
Definition RV_PTE_FROM_PA (pa flags : Z) : Z := Z.lor (Z.shiftl (Z.shiftr pa PAGE_SHIFT) RV_PTE_PPN_SHIFT) flags.
Definition RV_PTE_IS_LEAF (e : Z) : bool := negb (Z.land e (Z.lor RV_PTE_R (Z.lor RV_PTE_W RV_PTE_X)) =? 0).
Definition RV_PTE_INDEX (va level : Z) : Z := pt_index va level.

Definition rv_pte_to_pa (pte : Z) : Z := RV_PTE_TO_PA pte.
Definition rv_make_table_pte (pa : Z) : Z := RV_PTE_FROM_PA pa RV_PTE_V.
Definition rv_pte_is_leaf (pte : Z) : bool := RV_PTE_IS_LEAF pte.
Definition rv_pte_valid (pte : Z) : bool := negb (Z.land pte RV_PTE_V =? 0).

#[global] Instance sv39 : pt_format := {|
  pte_valid := rv_pte_valid;
  pte_stop := rv_pte_is_leaf;
  pte_pa := rv_pte_to_pa;
  pte_table := rv_make_table_pte;
  pt_upper := 2;
  pt_entry_first := false;
  pt_user_roots := RV_KERNEL_L1_BASE_INDEX;
|}.

(** ** Operations *)

Module Rv.

Definition rv_walk_l0_pte (w : kmem) (page_dir vaddr : Z) (alloc : bool) : option (option Z * kmem) :=
  let l2 := page_dir in
  let idx2 := RV_PTE_INDEX vaddr 2 in
  let idx1 := RV_PTE_INDEX vaddr 1 in
  let idx0 := RV_PTE_INDEX vaddr 0 in
  '(l1, w) ← walk_level alloc w (l2 + 8 * idx2);
  match l1 with
  | None => Some (None, w)
  | Some l1 =>
      '(l0, w) ← walk_level alloc w (l1 + 8 * idx1);
      match l0 with
      | None => Some (None, w)
      | Some l0 => Some (Some (l0 + 8 * idx0), w)
      end
  end.

Definition rv_perm_to_flags (sg2002 : bool) (perm : vm_perm_t) : Z :=
  match perm with
  | VM_PERM_KERNEL => Z.lor (Z.lor RV_PTE_R (Z.lor RV_PTE_W (Z.lor RV_PTE_X (Z.lor RV_PTE_A RV_PTE_D)))) (RV_PTE_ATTR_NORMAL sg2002)
  | VM_PERM_KERNEL_MMIO => Z.lor (Z.lor RV_PTE_R (Z.lor RV_PTE_W (Z.lor RV_PTE_A RV_PTE_D))) (RV_PTE_ATTR_IOREMAP sg2002)
  | VM_PERM_USER => Z.lor (Z.lor RV_PTE_R (Z.lor RV_PTE_W (Z.lor RV_PTE_X (Z.lor RV_PTE_U (Z.lor RV_PTE_A RV_PTE_D))))) (RV_PTE_ATTR_NORMAL sg2002)
  end.

Definition mm_vm_get_pte (w : kmem) (page_dir vaddr : Z) : option Z :=
  '(pte, w) ← rv_walk_l0_pte w page_dir vaddr false;
  match pte with
  | None => Some 0
  | Some pte => Some (km_word w pte)
  end.

Definition mm_vm_map_pages (sg2002 : bool) (w : kmem) (page_dir vaddr paddr count : Z) (perm : vm_perm_t) : option (Z * kmem) :=
  let flags := rv_perm_to_flags sg2002 perm in
  map_loop (fun w va => rv_walk_l0_pte w page_dir va true) (fun _ pa => RV_PTE_FROM_PA pa (Z.lor flags RV_PTE_V))
    w vaddr paddr (Z.to_nat count).

Definition mm_vm_get_paddr (w : kmem) (page_dir vaddr : Z) : option Z :=
  '(pte, w) ← rv_walk_l0_pte w page_dir vaddr false;
  match pte with
  | None => Some 0
  | Some pte =>
      let e := km_word w pte in
      if negb (rv_pte_valid e) || negb (rv_pte_is_leaf e) then Some 0
      else Some (u64 (rv_pte_to_pa e + Z.land vaddr (PAGE_SIZE - 1)))
  end.

Definition rv_keep (e : Z) : bool := negb (Z.land e RV_PTE_KEEP =? 0).
Definition rv_nofree (e : Z) : bool := negb (Z.land e RV_PTE_NOFREE =? 0).

Definition mm_vm_unmap_page (w : kmem) (pgd vaddr : Z) : option (Z * kmem) :=
  unmap_entry (fun w => rv_walk_l0_pte w pgd vaddr false) rv_pte_is_leaf rv_keep rv_nofree w.

Definition mm_vm_set_pte_keep (w : kmem) (pgd vaddr : Z) : option kmem :=
  '(pte, w) ← rv_walk_l0_pte w pgd vaddr false;
  match pte with
  | None => Some w
  | Some pte => Some (store w pte (Z.lor (km_word w pte) RV_PTE_KEEP))
  end.

(** The levels count from the last one; the root loop does not look at the flags. *)
Definition rv_teardown : teardown :=
  mk_teardown rv_pte_valid (fun _ => rv_pte_is_leaf)
    (fun n e => (n <? 2)%nat && rv_keep e) (fun n e => (n <? 2)%nat && rv_nofree e).

(** The recursion has no level argument; from the root's children there are two levels. *)
Definition rv_destroy_table (w : kmem) (table : Z) : option kmem := destroy_table rv_teardown 1 w table.

(** The root entries that differ from the recursion: a leaf is freed whatever its flags. *)
Definition destroy_root_entry (root : Z) (w : kmem) (i : Z) : option kmem :=
  let slot := root + 8 * i in
  let pte := km_word w slot in
  if negb (rv_pte_valid pte) then Some w
  else if rv_pte_is_leaf pte then
    '(_, pm) ← pmm_free_pages (km_pmm w) (rv_pte_to_pa pte) 1;
    Some (store (set_pmm w pm) slot 0)
  else
    let child_pa := rv_pte_to_pa pte in
    w ← rv_destroy_table w child_pa;
    '(_, pm) ← pmm_free_pages (km_pmm w) child_pa 1;
    Some (store (set_pmm w pm) slot 0).

Definition mm_vm_destroy_user_space (w : kmem) (pgd_phys : Z) : option kmem :=
  if pgd_phys =? 0 then Some w
  else
    w ← ofold (destroy_root_entry pgd_phys) w (seqZ 0 RV_KERNEL_L1_BASE_INDEX);
    '(_, pm) ← pmm_free_pages (km_pmm w) pgd_phys 1;
    Some (set_pmm w pm).

(** [RV_KERNEL_MAP_LIST]: two windows of devices, then one or two of RAM. *)
Definition RV_KERNEL_HIGH_INDEX (pa : Z) : Z := RV_KERNEL_L1_BASE_INDEX + Z.shiftr pa 30.
Definition RV_KERNEL_MAP_LIST (ram_base ram_size : Z) : list Z :=
  [0; 1073741824; ram_base] ++ (if 1073741824 <? ram_size then [ram_base + 1073741824] else []).

Definition riscv64_copy_kernel_mappings (ram_base ram_size : Z) (w : kmem) (user_l1 kernel_l1 : Z) : kmem :=
  foldl (fun w pa =>
           let i := RV_KERNEL_HIGH_INDEX pa in store w (user_l1 + 8 * i) (km_word w (kernel_l1 + 8 * i)))
    w (RV_KERNEL_MAP_LIST ram_base ram_size).

(** [satp_pgd] is the root table the register holds. *)
Definition mm_vm_init_user_pgd (ram_base ram_size satp_pgd : Z) (w : kmem) (pgd : Z) : kmem :=
  riscv64_copy_kernel_mappings ram_base ram_size w pgd satp_pgd.

(** The assertion at boot that every kernel mapping is a valid leaf. *)
Definition mm_vm_verify_kernel_mappings (ram_base ram_size satp_pgd : Z) (w : kmem) : bool :=
  forallb (fun pa => let e := km_word w (satp_pgd + 8 * RV_KERNEL_HIGH_INDEX pa) in rv_pte_valid e && RV_PTE_IS_LEAF e)
    (RV_KERNEL_MAP_LIST ram_base ram_size).

(** The copies [mm_vm_copy_to_uva] makes, as (destination, source, length). *)
Fixpoint copy_to_uva_loop (fuel : nat) (w : kmem) (pgd user_vaddr src left : Z) : option (list (Z * Z * Z)) :=
  match fuel with
  | O => None
  | S fuel =>
      if negb (0 <? left) then Some []
      else
        dst_pa ← mm_vm_get_paddr w pgd user_vaddr;
        if dst_pa =? 0 then Some []
        else
          let page_off := Z.land user_vaddr (PAGE_SIZE - 1) in
          let chunk := PAGE_SIZE - page_off in
          let chunk := if left <? chunk then left else chunk in
          l ← copy_to_uva_loop fuel w pgd (u64 (user_vaddr + chunk)) (u64 (src + chunk)) (left - chunk);
          Some ((dst_pa, src, chunk) :: l)
  end.

Definition mm_vm_copy_to_uva (w : kmem) (pgd user_vaddr src_paddr size : Z) : option (list (Z * Z * Z)) :=
  copy_to_uva_loop (Z.to_nat (size / PAGE_SIZE + 3)) w pgd user_vaddr src_paddr size.

(** ** The format's laws *)

Lemma land_shiftl_low x m : 0 <= m < 1024 -> Z.land (Z.shiftl x 10) m = 0.
Proof.
  intros Hm. apply Z.bits_inj'. intros k Hk. rewrite Z.land_spec, Z.bits_0. destruct (Z.ltb_spec k 10).
  - by rewrite Z.shiftl_spec_low.
  - assert (Z.testbit m k = false) as ->; [|apply andb_false_r]. destruct (decide (m = 0)) as [->|]; [apply Z.bits_0|].
    apply Z.bits_above_log2; [lia|]. apply (Z.lt_le_trans _ 10); [|done]. apply Z.log2_lt_pow2; lia.
Qed.

Lemma land_from_pa pa f m : 0 <= m < 1024 -> Z.land (RV_PTE_FROM_PA pa f) m = Z.land f m.
Proof. intros. unfold RV_PTE_FROM_PA. rewrite Z.land_lor_distr_l, land_shiftl_low by done. done. Qed.

Lemma from_pa_to_pa pa f :
  Z.land (Z.shiftr f 10) RV_PTE_PPN_MASK = 0 -> 0 <= pa < 2 ^ 56 -> pa mod PAGE_SIZE = 0 ->
  rv_pte_to_pa (RV_PTE_FROM_PA pa f) = pa.
Proof.
  intros Hf Hpa Hal. unfold rv_pte_to_pa, RV_PTE_TO_PA, RV_PTE_FROM_PA.
  rewrite Z.shiftr_lor, Z.land_lor_distr_l, Hf, Z.lor_0_r.
  rewrite Z.shiftr_shiftl_l by lia. change (RV_PTE_PPN_SHIFT - RV_PTE_PPN_SHIFT) with 0. rewrite Z.shiftl_0_r.
  change RV_PTE_PPN_MASK with (2 ^ 44 - 1). rewrite land_pred_pow2 by lia.
  rewrite Z.shiftr_div_pow2, Z.shiftl_mul_pow2 by lia. change (2 ^ PAGE_SHIFT) with PAGE_SIZE.
  pose proof (Z_div_mod_eq_full pa PAGE_SIZE). rewrite Z.mod_small; [lia|].
  split; [apply Z.div_pos; lia|apply Z.div_lt_upper_bound; lia].
Qed.

#[global] Instance sv39_laws : @pt_laws sv39.
Proof.
  split; cbn [pte_valid pte_stop pte_pa pte_table pt_upper pt_user_roots sv39].
  - done.
  - intros pa. unfold rv_pte_valid, rv_make_table_pte. by rewrite land_from_pa.
  - intros pa _ _. unfold rv_pte_is_leaf, RV_PTE_IS_LEAF, rv_make_table_pte. by rewrite land_from_pa.
  - intros pa Hpa Hal. unfold rv_make_table_pte. apply from_pa_to_pa; [reflexivity|lia|exact Hal].
  - lia.
  - lia.
Qed.

Lemma rv_pa_range e : 0 <= rv_pte_to_pa e < U64_MOD.
Proof.
  unfold rv_pte_to_pa, RV_PTE_TO_PA. change RV_PTE_PPN_MASK with (2 ^ 44 - 1). rewrite land_pred_pow2 by lia.
  rewrite Z.shiftl_mul_pow2 by lia. pose proof (Z.mod_pos_bound (Z.shiftr e RV_PTE_PPN_SHIFT) (2 ^ 44) ltac:(lia)). lia.
Qed.

(** The entries [mm_vm_map_pages] writes. *)
Lemma rv_flags_entry sg perm pa :
  let e := RV_PTE_FROM_PA pa (Z.lor (rv_perm_to_flags sg perm) RV_PTE_V) in
  rv_pte_valid e = true /\ rv_pte_is_leaf e = true /\ rv_keep e = false /\ rv_nofree e = false /\
  (0 <= pa < 2 ^ 56 -> pa mod PAGE_SIZE = 0 -> rv_pte_to_pa e = pa).
Proof.
  intros e. unfold e, rv_pte_valid, rv_pte_is_leaf, RV_PTE_IS_LEAF, rv_keep, rv_nofree. rewrite !land_from_pa by (vm_compute; split; [discriminate|reflexivity]).
  split_and!; [by destruct sg, perm..|]. intros. apply from_pa_to_pa; [by destruct sg, perm|done|done].
Qed.

Lemma rv_walk_eq w pgd va alloc : rv_walk_l0_pte w pgd va alloc = walk_pt alloc w pgd va.
Proof.
  unfold rv_walk_l0_pte, walk_pt, upper_path. cbn [pt_upper sv39 seq rev app fmap list_fmap walk_tables].
  destruct (walk_level alloc w _) as [[[l1|] w1]|]; [|done|done]. cbn [mbind option_bind].
  change (Z.of_nat 1) with 1. unfold RV_PTE_INDEX.
  destruct (walk_level alloc w1 _) as [[[l0|] w2]|]; done.
Qed.

Lemma rv_get_pte w root G va :
  pt_inv w root G -> 0 <= va < 2 ^ 38 -> mm_vm_get_pte w root va = Some (flat w G va).
Proof.
  intros Hinv Hva. unfold mm_vm_get_pte. rewrite rv_walk_eq, (walk_pt_read w root G Hinv) by (by apply user_range).
  cbn [mbind option_bind]. unfold flat. by destruct (G !! upper_path va).
Qed.

Lemma rv_get_paddr w root G va :
  pt_inv w root G -> 0 <= va < 2 ^ 38 ->
  mm_vm_get_paddr w root va =
    Some (if rv_pte_valid (flat w G va) && rv_pte_is_leaf (flat w G va)
          then u64 (rv_pte_to_pa (flat w G va) + va mod PAGE_SIZE) else 0).
Proof.
  intros Hinv Hva. unfold mm_vm_get_paddr. rewrite rv_walk_eq, (walk_pt_read w root G Hinv) by (by apply user_range).
  cbn [mbind option_bind]. unfold flat. destruct (G !! upper_path va) as [t|]; [|done]. cbn [option_map].
  rewrite land_page_mask. by destruct (rv_pte_valid _), (rv_pte_is_leaf _).
Qed.

(** ** Theorems *)

(** Mapping [count] pages at [va] in an Sv39 address space: the call returns; 0
    says that every page of the range translates to its frame, byte by byte; -1 that
    a page was mapped already, memory ran out, or a large page is in the way, and that
    the pages before it are mapped and stay mapped.  No other translation of the address
    space changes, and the tables stay a tree that shares no page with what is free or
    mapped. *)
Theorem rv_map_pages_correct sg w root G va pa count perm :
  pt_inv w root G -> va mod PAGE_SIZE = 0 -> pa mod PAGE_SIZE = 0 -> 0 <= count < 2 ^ 31 ->
  0 <= va -> va + count * PAGE_SIZE <= 2 ^ 38 -> 0 <= pa -> pa + count * PAGE_SIZE <= 2 ^ 56 ->
  targets_ok w G pa count ->
  exists r w' G' k, mm_vm_map_pages sg w root va pa count perm = Some (r, w') /\ pt_inv w' root G' /\ 0 <= k <= count /\
    ((r = 0 /\ k = count) \/ (r = -1 /\ k < count /\ map_stops w' G' (flat w G (va + k * PAGE_SIZE)) (va + k * PAGE_SIZE))) /\
    (forall j off, 0 <= j < k -> 0 <= off < PAGE_SIZE ->
       mm_vm_get_paddr w' root (va + j * PAGE_SIZE + off) = Some (pa + j * PAGE_SIZE + off)) /\
    (forall va', 0 <= va' < 2 ^ 38 -> in_pages va k va' = false -> mm_vm_get_pte w' root va' = mm_vm_get_pte w root va').
Proof.
  intros Hinv Hva Hpa Hcount Hva0 Htop Hpa0 Hptop Htgt.
  set (mk := fun (_ : Z) pa => RV_PTE_FROM_PA pa (Z.lor (rv_perm_to_flags sg perm) RV_PTE_V)).
  destruct (map_loop_spec mk root (Z.to_nat count) w G va pa) as (r & w' & G' & k & E & Hinv' & Hm);
    [done|done|rewrite Z2Nat.id by lia; done|done|lia| |].
  { intros old j Hj. rewrite u64_id by lia. unfold mappable, mk.
    destruct (rv_flags_entry sg perm (pa + j * PAGE_SIZE)) as (_ & _ & _ & _ & Ep). cbn [pte_pa sv39].
    rewrite Ep by (try lia; by rewrite Z_mod_plus_full). apply Htgt. lia. }
  rewrite Z2Nat.id in Hm by lia. exists r, w', G', k. split.
  { unfold mm_vm_map_pages. rewrite <-E. apply map_loop_ext. intros. apply rv_walk_eq. }
  split; [done|]. split; [apply Hm|]. split; [apply Hm|]. pose proof (ma_k _ _ _ _ _ _ _ _ _ _ Hm) as Hk. split.
  - intros j off Hj Hoff. destruct (page_of va j off Hva Hoff) as [Ed Em]. assert (0 <= va + j * PAGE_SIZE + off < 2 ^ 38) as Hr by lia.
    rewrite (rv_get_paddr w' root G') by done. rewrite (ma_flat _ _ _ _ _ _ _ _ _ _ Hm) by done.
    unfold in_pages. rewrite Ed, Em, (proj2 (in_range_spec _ _ _)) by lia. unfold mk.
    destruct (rv_flags_entry sg perm (u64 (pa + (va / PAGE_SIZE + j - va / PAGE_SIZE) * PAGE_SIZE))) as (-> & -> & _ & _ & Ep).
    replace (va / PAGE_SIZE + j - va / PAGE_SIZE) with j in * by lia. rewrite (u64_id (pa + j * PAGE_SIZE)) in * by lia.
    rewrite Ep by (try lia; by rewrite Z_mod_plus_full). cbn [andb]. by rewrite u64_id by lia.
  - intros va' Hva' Hout. rewrite (rv_get_pte w' root G'), (rv_get_pte w root G) by done.
    rewrite (ma_flat _ _ _ _ _ _ _ _ _ _ Hm) by done. by rewrite Hout.
Qed.

(** Unmapping a page of an Sv39 address space: a page that is not mapped is left
    alone and the call returns 0; otherwise the call returns 1, the entry is gone, no
    other entry changes, and the page goes where its flags say: nowhere for a device
    buffer, to the reference count for a shared page, to the allocator otherwise. *)
Theorem rv_unmap_page_correct w m root G va :
  pt_inv w root G -> sp_rep (km_shared w) m -> 0 <= va < 2 ^ 38 -> sole_mapping w G va ->
  exists r w' m', mm_vm_unmap_page w root va = Some (r, w') /\ pt_inv w' root G /\ sp_rep (km_shared w') m' /\
    let e := flat w G va in
    if rv_pte_valid e && rv_pte_is_leaf e
    then r = 1 /\ mm_vm_get_paddr w' root va = Some 0 /\
      (forall va', 0 <= va' < 2 ^ 38 -> va' / PAGE_SIZE <> va / PAGE_SIZE -> mm_vm_get_pte w' root va' = mm_vm_get_pte w root va') /\
      (if rv_keep e then kst w' = kst w
       else run_releases (kst w) [(rv_pte_to_pa e, rv_nofree e)] = Some (kst w'))
    else r = 0 /\ w' = w.
Proof.
  intros Hinv Hrep Hva Hsole.
  destruct (unmap_spec rv_pte_is_leaf rv_keep rv_nofree w m root G va Hinv Hrep Hva rv_pa_range Hsole)
    as (r & w' & m' & E & Hinv' & Hrep' & Hres). exists r, w', m'.
  split. { unfold mm_vm_unmap_page. rewrite <-E. unfold unmap_entry. by rewrite rv_walk_eq. }
  split; [done|]. split; [done|]. cbn zeta. change (pte_valid (flat w G va)) with (rv_pte_valid (flat w G va)) in Hres.
  destruct (rv_pte_valid (flat w G va) && rv_pte_is_leaf (flat w G va)); [|done]. destruct Hres as (-> & Hflat & w1 & Er & Ep & Es).
  split; [done|]. assert (forall v, 0 <= v < 2 ^ 38 -> vpn 2 v = v / PAGE_SIZE) as Hpn by (intros v Hv; exact (proj2 (user_range v Hv))).
  split; [|split].
  - rewrite (rv_get_paddr w' root G) by done. rewrite Hflat, decide_True by done. done.
  - intros va' Hva' Hne. rewrite (rv_get_pte w' root G), (rv_get_pte w root G), Hflat by done.
    rewrite decide_False; [done|]. cbn [pt_upper sv39]. by rewrite !Hpn.
  - apply release_runs in Er. change (pte_pa (flat w G va)) with (rv_pte_to_pa (flat w G va)) in Er.
    assert (kst w' = kst w1) as -> by (unfold kst; by rewrite Ep, Es). done.
Qed.

Lemma destroy_root_eq root w i : destroy_root_entry root w i = destroy_entry rv_teardown 2 root w i.
Proof.
  unfold destroy_root_entry, destroy_entry. cbn [td_present td_leaf td_keep td_nofree rv_teardown].
  destruct (rv_pte_valid _); [|done]. cbn [negb]. destruct (rv_pte_is_leaf _); [|done].
  change ((2 <? 2)%nat) with false. cbn [andb]. unfold release_page. cbn [negb].
  change (pte_pa (km_word w (root + 8 * i))) with (rv_pte_to_pa (km_word w (root + 8 * i))).
  by destruct (pmm_free_pages _ _ _) as [[ok pm]|].
Qed.

(** Destroying an Sv39 address space ends, and gives back every table of the tree,
    the root and every private page it maps; a shared page loses one reference per
    mapping, a device buffer is left to its owner, and no other page becomes free.
    The tree is taken down while it is walked: no table is read after it is freed. *)
Theorem rv_destroy_user_space_correct w m root G :
  pt_inv w root G -> sp_rep (km_shared w) m -> 0 < root < U64_MOD ->
  regular rv_teardown w G -> private_sole rv_teardown w G -> space_owned rv_teardown w G ->
  exists w', mm_vm_destroy_user_space w root = Some w' /\
    run_releases (kst w) (space_events rv_teardown w root) = Some (kst w') /\ space_freed rv_teardown w G (kst w').
Proof.
  intros Hinv Hrep Hroot Hreg Hps Hown.
  assert (leaf_valid rv_teardown w G) as Hval by (intros q k e (u & _ & _ & _ & _ & Hv); exact Hv).
  assert (covers rv_teardown w G) as Hcov by (intros p t i _ _ Hv; exact Hv).
  destruct (destroy_space_spec rv_teardown w root G Hinv Hreg Hval Hps Hcov m Hrep Hown rv_pa_range ltac:(lia)) as (w' & E & H).
  exists w'. split; [|done]. rewrite <-E. unfold mm_vm_destroy_user_space, destroy_space.
  rewrite (proj2 (Z.eqb_neq root 0)) by lia. cbn [pt_upper pt_user_roots sv39].
  by rewrite (ofold_ext _ _ w _ (fun s x => destroy_root_eq root s x)).
Qed.

(** ** An address space with one page, for the examples

    Four pages of the pool are handed out: a table of each level and a frame that is
    mapped at 0x10000. *)

Definition demo_entry : Z := RV_PTE_FROM_PA 1060864 (Z.lor (rv_perm_to_flags false VM_PERM_USER) RV_PTE_V).
Definition demo_words (a : Z) : Z :=
  if a =? 1048576 then rv_make_table_pte 1052672
  else if a =? 1052672 then rv_make_table_pte 1056768
  else if a =? 1056768 + 8 * 16 then demo_entry
  else 0.
Definition demo : kmem := mk_kmem demo_pmm shared_pages_boot demo_words.
Definition demo_tables : gmap (list Z) Z := {[ [] := 1048576; [0] := 1052672; [0; 0] := 1056768 ]}.

Lemma demo_lookup p t :
  demo_tables !! p = Some t <->
  (p = [] /\ t = 1048576) \/ (p = [0] /\ t = 1052672) \/ (p = [0; 0] /\ t = 1056768).
Proof.
  unfold demo_tables. rewrite !lookup_insert_Some, lookup_singleton_Some. split.
  - intros [[<- <-]|[_ [[<- <-]|[_ [<- <-]]]]]; auto.
  - intros [[-> ->]|[[-> ->]|[-> ->]]]; [by left|right; split; [done|by left]|right; split; [done|right; done]].
Qed.

Lemma demo_word t i :
  t = 1048576 \/ t = 1052672 \/ t = 1056768 -> 0 <= i < 512 ->
  km_word demo (t + 8 * i) =
    if t =? 1056768 then (if i =? 16 then demo_entry else 0)
    else if i =? 0 then rv_make_table_pte (t + PAGE_SIZE) else 0.
Proof.
  intros Ht Hi. cbn. unfold demo_words.
  destruct Ht as [->|[->| ->]]; cbn [Z.eqb Pos.eqb]; repeat case_if; try lia; done.
Qed.

Lemma demo_points e t' : 0 <= e < PT_PA_LIMIT -> e mod PAGE_SIZE = 0 -> points_to (rv_make_table_pte e) t' <-> t' = e.
Proof.
  intros He Hal. unfold points_to. pose proof (pte_valid_table e). pose proof (pte_stop_table e He Hal). pose proof (pte_pa_table e He Hal) as Hp.
  cbn in *. rewrite Hp. split; [by intros (_ & _ & ?)|by intros ->].
Qed.

Lemma demo_inv : pt_inv demo 1048576 demo_tables.
Proof.
  assert (forall t', ~ points_to 0 t') as H0 by (intros t' (E & _); done).
  split.
  - apply demo_pmm_inv.
  - vm_compute. discriminate.
  - by apply demo_lookup; left.
  - intros p q t Hp%demo_lookup Hq%demo_lookup.
    destruct Hp as [[-> ->]|[[-> ->]|[-> ->]]], Hq as [[-> E]|[[-> E]|[-> E]]]; try done.
  - intros p t Hp%demo_lookup.
    destruct Hp as [[-> ->]|[[-> ->]|[-> ->]]]; (split; [cbn; lia|split; [done|apply demo_taken; lia]]).
  - intros p i t'. rewrite demo_lookup. setoid_rewrite demo_lookup. split.
    + intros [[E ->]|[[E ->]|[E ->]]].
      * by destruct p.
      * apply (app_inj_tail p [] i 0) in E as [-> ->]. exists 1048576. split; [auto|]. split; [cbn; lia|]. split; [split; [lia|cbn; lia]|].
        rewrite demo_word by (try lia; auto). by apply demo_points.
      * apply (app_inj_tail p [0] i 0) in E as [-> ->]. exists 1052672. split; [auto|]. split; [cbn; lia|]. split; [split; [lia|done]|].
        rewrite demo_word by (try lia; auto). by apply demo_points.
    + intros (t & [[-> ->]|[[-> ->]|[-> ->]]] & Hl & [Hi Hu] & Hpt); [| |cbn in Hl; lia];
        rewrite demo_word in Hpt by (try done; auto); cbn [Z.eqb Pos.eqb] in Hpt;
        (destruct (Z.eqb_spec i 0) as [->|]; [apply demo_points in Hpt as ->; [|done..]; cbn; auto|by destruct (H0 t')]).
  - intros p t i [[-> ->]|[[-> ->]|[-> ->]]]%demo_lookup Hl Hi; [done|done|]. rewrite demo_word by (try done; auto).
    cbn [Z.eqb Pos.eqb]. destruct (Z.eqb_spec i 16) as [->|]; [|done]. intros _.
    assert (pte_pa demo_entry = 1060864) as -> by (vm_compute; reflexivity). split; [apply demo_taken; lia|].
    intros q Hq%demo_lookup. lia.
Qed.

Lemma demo_leaf q k e : leaf_at rv_teardown demo demo_tables q k e -> q = [0; 0] /\ k = 16 /\ e = demo_entry.
Proof.
  intros (u & [[-> ->]|[[-> ->]|[-> ->]]]%demo_lookup & Hl & Hk & -> & Hv); [done|done|].
  rewrite demo_word in Hv |- * by (try done; auto). cbn [Z.eqb Pos.eqb] in *. destruct (Z.eqb_spec k 16) as [->|]; [done|].
  cbn in Hv. done.
Qed.

Lemma rv_map_pages_correct_witness :
  exists r w' G' k, mm_vm_map_pages false demo 1048576 69632 1060864 1 VM_PERM_USER = Some (r, w') /\
    pt_inv w' 1048576 G' /\ 0 <= k <= 1.
Proof.
  destruct (rv_map_pages_correct false demo 1048576 demo_tables 69632 1060864 1 VM_PERM_USER demo_inv)
    as (r & w' & G' & k & E & Hinv & Hk & _); [done|done|lia|lia|lia|lia|lia| |by exists r, w', G', k].
  intros k Hk. assert (k = 0) as -> by lia. split; [apply demo_taken; lia|]. intros q Hq%demo_lookup. lia.
Defined.

Lemma rv_unmap_page_correct_witness :
  exists r w' m', mm_vm_unmap_page demo 1048576 65536 = Some (r, w') /\ pt_inv w' 1048576 demo_tables /\
    sp_rep (km_shared w') m' /\ r = 1 /\ mm_vm_get_paddr w' 1048576 65536 = Some 0.
Proof.
  destruct (rv_unmap_page_correct demo ∅ 1048576 demo_tables 65536 demo_inv) as (r & w' & m' & E & Hinv & Hrep & H);
    [done|lia| |].
  - intros p t i Hp Hl Hi Hv _. destruct (demo_leaf p i (km_word demo (t + 8 * i))) as (-> & -> & _); [by exists t|].
    split; vm_compute; reflexivity.
  - assert (flat demo demo_tables 65536 = demo_entry) as Ef by (vm_compute; reflexivity).
    cbn zeta in H. rewrite Ef in H. assert (rv_pte_valid demo_entry && rv_pte_is_leaf demo_entry = true) as Et by (vm_compute; reflexivity).
    rewrite Et in H. destruct H as (Hr & Hp & _). exists r, w', m'.
    split; [exact E|]. split; [exact Hinv|]. split; [exact Hrep|]. split; [exact Hr|exact Hp].
Defined.

Lemma demo_regular : regular rv_teardown demo demo_tables.
Proof.
  intros p t i [[-> ->]|[[-> ->]|[-> ->]]]%demo_lookup [Hi _]; cbn zeta; rewrite demo_word by (try done; auto); cbn [Z.eqb Pos.eqb length pt_upper sv39].
  1,2: destruct (Z.eqb_spec i 0) as [->|]; [|done]; intros _; rewrite decide_False by lia; split; [vm_compute; reflexivity|]; apply demo_lookup; vm_compute; tauto.
  intros Hv. rewrite decide_True by done. destruct (Z.eqb_spec i 16) as [->|]; [vm_compute; reflexivity|done].
Qed.

Lemma rv_destroy_user_space_correct_witness :
  exists w', mm_vm_destroy_user_space demo 1048576 = Some w' /\ free_at (km_pmm w') 1060864.
Proof.
  destruct (rv_destroy_user_space_correct demo ∅ 1048576 demo_tables demo_inv) as (w' & E & _ & Hsf);
    [done|lia|apply demo_regular| | |].
  - intros q k e q' k' e' (-> & -> & _)%demo_leaf (-> & -> & _)%demo_leaf. done.
  - split.
    + intros p t [[-> ->]|[[-> ->]|[-> ->]]]%demo_lookup; apply demo_owned; set_solver.
    + intros q k e (-> & -> & ->)%demo_leaf _ _. assert (pte_pa demo_entry = 1060864) as -> by (vm_compute; reflexivity).
      apply demo_owned. set_solver.
  - exists w'. split; [done|]. assert (pte_pa demo_entry = 1060864) as Ep by (vm_compute; reflexivity). rewrite <-Ep.
    apply (sf_pages _ _ _ _ Hsf [0; 0] 16 demo_entry); [|vm_compute; reflexivity..].
    exists 1056768. split; [apply demo_lookup; tauto|]. split; [done|]. split; [lia|]. split; vm_compute; reflexivity.
Defined.
End Rv.
