(* ===== verification/AddrSpace.v ===== *)
(** * Address spaces as the system calls see them: include/mm_vm.h

    The interface between the memory system calls and the page tables.  [vm_ops] has the
    functions of mm_vm.h that brk, mmap, munmap and fork use, for one user page at a time;
    [vm_laws] says what they promise: an address space is a set [T] of pages that hold its
    tables and a partial map [V] from page numbers to frames, and each function changes [V] at
    one page, adds tables from free pages, and touches no other memory.  The instance for Sv39
    is at the end. *)

From stdpp Require Import options.
From Stdlib Require Import Lia.
From S2P Require Import Prelude Bitmap Pmm SharedPage PhysMem PageTable Teardown Riscv64.

(** A frame belongs to the mapping, to a reference count, or to the handle of a device buffer. *)
Inductive pkind := Private | Shared | Device.
#[global] Instance pkind_eq_dec : EqDecision pkind.
Proof. solve_decision. Defined.

Definition vmap := Z -> option (Z * pkind).

Class vm_ops := {
  vm_top : Z;
  (** [mm_vm_map_pages(pgd, va, pa, 1, VM_PERM_USER)] *)
  vm_map : kmem -> Z -> Z -> Z -> option (Z * kmem);
  vm_paddr : kmem -> Z -> Z -> option Z;
  vm_unmap : kmem -> Z -> Z -> option (Z * kmem);
  (** the tests and marks of the entry of a page: [CLONE_CHECK_KEEP], [CLONE_CHECK_SHARED],
      [CLONE_MARK_NOFREE], [mm_vm_set_pte_keep] *)
  vm_check_keep : kmem -> Z -> Z -> option bool;
  vm_check_shared : kmem -> Z -> Z -> option bool;
  vm_mark_nofree : kmem -> Z -> Z -> option kmem;
  vm_mark_keep : kmem -> Z -> Z -> option kmem;
  vm_init_pgd : kmem -> Z -> kmem;
  vm_destroy : kmem -> Z -> option kmem;
}.

Definition in_frame (f a : Z) : Prop := f <= a < f + PAGE_SIZE.

(** Nothing but words of the pages [T] changed. *)
Definition words_kept (w w' : kmem) (T : Z -> Prop) : Prop :=
  forall a, (forall t, T t -> ~ in_frame t a) -> km_word w' a = km_word w a.

(** The pages [N] became tables. *)
Record grown (w w' : kmem) (T : Z -> Prop) (N : list Z) : Prop := mk_grown {
  gn_pmm : pmm_inv (km_pmm w') /\ same_range (km_pmm w) (km_pmm w');
  gn_shared : km_shared w' = km_shared w;
  gn_new : NoDup N /\ forall t, t ∈ N -> free_at (km_pmm w) t;
  gn_free y : free_at (km_pmm w') y -> free_at (km_pmm w) y /\ y ∉ N;
  gn_count : pm_free_pages (km_pmm w') = pm_free_pages (km_pmm w) - Z.of_nat (length N);
  gn_words : words_kept w w' (fun t => T t \/ t ∈ N);
}.

Definition vset (V : vmap) (k : Z) (x : option (Z * pkind)) : vmap := fun j => if j =? k then x else V j.
Definition is_page (pa : Z) : Prop := 0 < pa < PT_PA_LIMIT /\ pa mod PAGE_SIZE = 0.

(** What the end of an address space releases: its tables, and the frames of its pages that are not a device's. *)
Inductive item := It_table (t : Z) | It_page (k : Z).
#[global] Instance item_eq_dec : EqDecision item.
Proof. solve_decision. Defined.
Definition released (V : vmap) (x : item) : Z * bool :=
  match x with
  | It_table t => (t, false)
  | It_page k => match V k with Some (f, kd) => (f, bool_decide (kd = Shared)) | None => (0, false) end
  end.
Definition item_of (T : Z -> Prop) (V : vmap) (x : item) : Prop :=
  match x with It_table t => T t | It_page k => exists f kd, V k = Some (f, kd) /\ kd <> Device end.

Class vm_laws `{!vm_ops} := {
  vm_space : kmem -> Z -> (Z -> Prop) -> vmap -> Prop;
  vm_page (k : Z) : Prop := 0 <= k /\ (k + 1) * PAGE_SIZE <= vm_top;
  vm_top_range : vm_top <= U64_MOD - PAGE_SIZE;
  space_pmm w r T V : vm_space w r T V -> pmm_inv (km_pmm w) /\ page_addr (km_pmm w) (pm_total_pages (km_pmm w)) <= PT_PA_LIMIT;
  space_root w r T V : vm_space w r T V -> T r;
  space_table w r T V t : vm_space w r T V -> T t -> t mod PAGE_SIZE = 0 /\ ~ free_at (km_pmm w) t;
  space_page w r T V k f kd : vm_space w r T V -> V k = Some (f, kd) -> vm_page k /\ is_page f /\ ~ free_at (km_pmm w) f /\ ~ T f;
  space_ext w r T T' V V' : vm_space w r T V -> (forall t, T t <-> T' t) -> (forall k, V k = V' k) -> vm_space w r T' V';
  space_frame w w' r T V : vm_space w r T V -> pmm_inv (km_pmm w') -> same_range (km_pmm w) (km_pmm w') ->
    (forall t a, T t -> in_frame t a -> km_word w' a = km_word w a) ->
    (forall y, free_at (km_pmm w') y -> free_at (km_pmm w) y \/ (~ T y /\ forall k kd, V k <> Some (y, kd))) ->
    vm_space w' r T V;
  paddr_law w r T V va : vm_space w r T V -> 0 <= va < vm_top ->
    vm_paddr w r va = Some (match V (va / PAGE_SIZE) with Some (f, _) => f + va mod PAGE_SIZE | None => 0 end);
  map_law w r T V k pa : vm_space w r T V -> vm_page k -> is_page pa -> ~ free_at (km_pmm w) pa -> ~ T pa ->
    exists z w' N, vm_map w r (k * PAGE_SIZE) pa = Some (z, w') /\ grown w w' T N /\
      ((z = 0 /\ V k = None /\ vm_space w' r (fun t => T t \/ t ∈ N) (vset V k (Some (pa, Private)))) \/
       (z = -1 /\ vm_space w' r (fun t => T t \/ t ∈ N) V /\ (V k <> None \/ forall x, ~ free_at (km_pmm w') x)));
  unmap_none w r T V k : vm_space w r T V -> vm_page k -> V k = None -> vm_unmap w r (k * PAGE_SIZE) = Some (0, w);
  unmap_law w r T V k f kd w1 : vm_space w r T V -> V k = Some (f, kd) ->
    release_page w f (bool_decide (kd = Device)) (bool_decide (kd = Shared)) = Some w1 ->
    pmm_inv (km_pmm w1) -> same_range (km_pmm w) (km_pmm w1) -> (forall y, free_at (km_pmm w1) y -> free_at (km_pmm w) y \/ y = f) ->
    ((forall y, free_at (km_pmm w1) y -> free_at (km_pmm w) y) \/ (forall j kd', j <> k -> V j <> Some (f, kd'))) ->
    exists w', vm_unmap w r (k * PAGE_SIZE) = Some (1, w') /\ km_pmm w' = km_pmm w1 /\ km_shared w' = km_shared w1 /\
      words_kept w w' T /\ vm_space w' r T (vset V k None);
  check_law w r T V k f kd : vm_space w r T V -> V k = Some (f, kd) ->
    vm_check_keep w r (k * PAGE_SIZE) = Some (bool_decide (kd = Device)) /\
    (kd <> Device -> vm_check_shared w r (k * PAGE_SIZE) = Some (bool_decide (kd = Shared)));
  mark_nofree_law w r T V k f kd : vm_space w r T V -> V k = Some (f, kd) -> kd <> Device ->
    exists w', vm_mark_nofree w r (k * PAGE_SIZE) = Some w' /\ km_pmm w' = km_pmm w /\ km_shared w' = km_shared w /\
      words_kept w w' T /\ vm_space w' r T (vset V k (Some (f, Shared)));
  mark_keep_law w r T V k f kd : vm_space w r T V -> V k = Some (f, kd) ->
    exists w', vm_mark_keep w r (k * PAGE_SIZE) = Some w' /\ km_pmm w' = km_pmm w /\ km_shared w' = km_shared w /\
      words_kept w w' T /\ vm_space w' r T (vset V k (Some (f, Device)));
  init_law w r : pmm_inv (km_pmm w) -> page_addr (km_pmm w) (pm_total_pages (km_pmm w)) <= PT_PA_LIMIT -> is_page r -> ~ free_at (km_pmm w) r ->
    (forall a, in_frame r a -> km_word w a = 0) ->
    let w' := vm_init_pgd w r in
    km_pmm w' = km_pmm w /\ km_shared w' = km_shared w /\ words_kept w w' (eq r) /\ vm_space w' r (eq r) (fun _ => None);
  destroy_law w r T V : vm_space w r T V -> r <> 0 ->
    exists items, NoDup items /\ (forall x, x ∈ items <-> item_of T V x) /\
      forall ps, run_releases (kst w) (released V <$> items) = Some ps ->
        exists w', vm_destroy w r = Some w' /\ kst w' = ps /\ words_kept w w' T;
}.

(** ** Sv39 *)

Section sv39.
Context (sg2002 : bool) (ram_base ram_size satp_pgd : Z).

(** [CLONE_CHECK_SHARED] and [CLONE_MARK_NOFREE] of kernel/syscall/core/proc_lifecycle.c *)
Definition rv_check_shared (w : kmem) (pgd va : Z) : option bool :=
  pte ← Rv.mm_vm_get_pte w pgd va; Some (negb (Z.land pte RV_PTE_NOFREE =? 0)).
Definition rv_mark_nofree (w : kmem) (pgd va : Z) : option kmem :=
  '(pte, w) ← Rv.rv_walk_l0_pte w pgd va false;
  Some (match pte with None => w | Some pte => store w pte (Z.lor (km_word w pte) RV_PTE_NOFREE) end).
Definition rv_check_keep (w : kmem) (pgd va : Z) : option bool :=
  pte ← Rv.mm_vm_get_pte w pgd va; Some (negb (Z.land pte RV_PTE_KEEP =? 0)).

#[local] Instance sv39_ops : vm_ops := {|
  vm_top := 2 ^ 38;
  vm_map w pgd va pa := Rv.mm_vm_map_pages sg2002 w pgd va pa 1 VM_PERM_USER;
  vm_paddr := Rv.mm_vm_get_paddr;
  vm_unmap := Rv.mm_vm_unmap_page;
  vm_check_keep := rv_check_keep;
  vm_check_shared := rv_check_shared;
  vm_mark_nofree := rv_mark_nofree;
  vm_mark_keep := Rv.mm_vm_set_pte_keep;
  vm_init_pgd := Rv.mm_vm_init_user_pgd ram_base ram_size satp_pgd;
  vm_destroy := Rv.mm_vm_destroy_user_space;
|}.

Definition kind_of (e : Z) : pkind := if Rv.rv_keep e then Device else if Rv.rv_nofree e then Shared else Private.

(** An entry of the last level and what it maps. *)
Definition entry_is (e : Z) (o : option (Z * pkind)) : Prop :=
  match o with
  | None => rv_pte_valid e = false
  | Some (f, kd) => rv_pte_valid e = true /\ rv_pte_is_leaf e = true /\ rv_pte_to_pa e = f /\ is_page f /\ kind_of e = kd
  end.

Record tree_of (w : kmem) (root : Z) (T : Z -> Prop) (V : vmap) (G : gmap (list Z) Z) : Prop := mk_tree_of {
  to_inv : pt_inv w root G;
  to_small : no_large w G;
  to_tab t : T t <-> exists p, G !! p = Some t;
  to_map k : 0 <= k < 2 ^ 26 -> entry_is (flat w G (k * PAGE_SIZE)) (V k);
  to_dom k : V k <> None -> 0 <= k < 2 ^ 26;
}.
Definition sv39_space (w : kmem) (root : Z) (T : Z -> Prop) (V : vmap) : Prop := exists G, tree_of w root T V G.

Lemma page_va k : 0 <= k < 2 ^ 26 -> 0 <= k * PAGE_SIZE < 2 ^ 38.
Proof using. lia. Qed.

Lemma flat_page w G va : 0 <= va < 2 ^ 38 -> flat w G va = flat w G (va / PAGE_SIZE * PAGE_SIZE).
Proof using.
  intros Hva. pose proof (Z_div_mod_eq_full va PAGE_SIZE). pose proof (Z.mod_pos_bound va PAGE_SIZE ltac:(lia)).
  assert (Hva' : 0 <= va / PAGE_SIZE * PAGE_SIZE < 2 ^ 38) by lia.
  destruct (user_range (PF := sv39) va Hva) as [_ E1], (user_range (PF := sv39) _ Hva') as [_ E2].
  assert (vpn pt_upper va = vpn pt_upper (va / PAGE_SIZE * PAGE_SIZE)) as [E3 E4]%vpn_path by (rewrite E1, E2, Z.div_mul; lia).
  unfold flat, upper_path. by rewrite E3, E4.
Qed.

Lemma page_index k l : 0 <= l -> pt_index (k * PAGE_SIZE) l = k / 2 ^ (9 * l) mod 512.
Proof using.
  intros Hl. rewrite pt_index_div by done. rewrite Z.pow_add_r by lia. change (2 ^ PAGE_SHIFT) with PAGE_SIZE.
  rewrite (Z.mul_comm k PAGE_SIZE), Z.div_mul_cancel_l by (lia || (apply Z.pow_nonzero; lia)). done.
Qed.

(** The page of the last level: its place in the tree. *)
Lemma leaf_page w root G p t i : pt_inv w root G -> G !! p = Some t -> length p = pt_upper -> 0 <= i < 512 ->
  exists k, 0 <= k < 2 ^ 26 /\ flat w G (k * PAGE_SIZE) = km_word w (t + 8 * i) /\ upper_path (k * PAGE_SIZE) = p /\ pt_index (k * PAGE_SIZE) 0 = i.
Proof using.
  intros Hinv Hp Hl Hi. destruct p as [|i2 [|i1 [|]]]; try done. clear Hl.
  destruct (proj1 (pt_child _ _ _ Hinv [i2] i1 t) Hp) as (t1 & Hp1 & _ & Hi1 & _).
  destruct (proj1 (pt_child _ _ _ Hinv [] i2 t1) Hp1) as (t0 & _ & _ & Hi2 & _).
  destruct Hi1 as [Hi1 _], Hi2 as [Hi2 Hr]. specialize (Hr eq_refl). change pt_user_roots with 256 in Hr.
  set (k := i2 * 262144 + i1 * 512 + i). assert (Hk : 0 <= k < 2 ^ 26) by lia. exists k. split; [done|].
  unfold flat. change (upper_path (k * PAGE_SIZE)) with [pt_index (k * PAGE_SIZE) 2; pt_index (k * PAGE_SIZE) 1]. rewrite !page_index by lia.
  change (2 ^ (9 * 2)) with 262144. change (2 ^ (9 * 1)) with 512. change (2 ^ (9 * 0)) with 1. rewrite Z.div_1_r.
  assert (k / 262144 mod 512 = i2 /\ k / 512 mod 512 = i1 /\ k mod 512 = i) as (-> & -> & ->).
  { unfold k. split_and!; Z.to_euclidean_division_equations; lia. }
  by rewrite Hp.
Qed.

Lemma mapped_leaf w root T V G k f kd : tree_of w root T V G -> V k = Some (f, kd) ->
  exists t, G !! upper_path (k * PAGE_SIZE) = Some t /\ flat w G (k * PAGE_SIZE) = km_word w (t + 8 * pt_index (k * PAGE_SIZE) 0) /\
    entry_is (km_word w (t + 8 * pt_index (k * PAGE_SIZE) 0)) (Some (f, kd)).
Proof using.
  intros Ht Hk. pose proof (to_dom _ _ _ _ _ Ht k ltac:(by rewrite Hk)) as Hd. pose proof (to_map _ _ _ _ _ Ht k Hd) as He. rewrite Hk in He.
  unfold flat in *. destruct (G !! upper_path (k * PAGE_SIZE)) as [t|]; [by exists t|]. destruct He as [He _]. done.
Qed.

Lemma mapped_facts w root T V k f kd : sv39_space w root T V -> V k = Some (f, kd) ->
  (0 <= k < 2 ^ 26) /\ is_page f /\ ~ free_at (km_pmm w) f /\ ~ T f.
Proof using.
  intros [G Ht] Hk. destruct (mapped_leaf w root T V G k f kd Ht Hk) as (t & Hp & _ & Hv & _ & Hf & Hpg & _).
  split; [apply (to_dom _ _ _ _ _ Ht); by rewrite Hk|]. split; [done|].
  destruct (pt_leaf _ _ _ (to_inv _ _ _ _ _ Ht) _ t _ Hp (length_upper_path _) (pt_index_range _ _) Hv) as [Hnf Hnt].
  change pte_pa with rv_pte_to_pa in *. rewrite Hf in *. split; [done|]. rewrite (to_tab _ _ _ _ _ Ht). intros [q Hq]. by apply (Hnt q).
Qed.

Lemma sv39_frame w w' root T V : sv39_space w root T V -> pmm_inv (km_pmm w') -> same_range (km_pmm w) (km_pmm w') ->
  (forall t a, T t -> in_frame t a -> km_word w' a = km_word w a) ->
  (forall y, free_at (km_pmm w') y -> free_at (km_pmm w) y \/ (~ T y /\ forall k kd, V k <> Some (y, kd))) -> sv39_space w' root T V.
Proof using.
  intros Hs Hpm Hsr Hw Hf. pose proof Hs as [G Ht]. pose proof Ht as [Hinv Hsm Htab Hmap Hdom]. exists G.
  assert (Hword : forall p t i, G !! p = Some t -> 0 <= i < 512 -> km_word w' (t + 8 * i) = km_word w (t + 8 * i)).
  { intros p t i Hp Hi. apply (Hw t); [apply Htab; by exists p|unfold in_frame; lia]. }
  assert (Hflat : forall va, flat w' G va = flat w G va).
  { intros va. unfold flat. destruct (G !! upper_path va) as [t|] eqn:Hp; [|done]. apply (Hword (upper_path va)); [done|apply pt_index_range]. }
  split; [|intros p t i Hp Hl Hi; rewrite (Hword p t i Hp (proj1 Hi)); by apply (Hsm p)|done|intros k Hk; rewrite Hflat; by apply Hmap|done].
  split; [done| | | | | |]; try apply Hinv.
  - destruct Hsr as (E1 & E2 & _). unfold page_addr. rewrite E1, E2. apply Hinv.
  - intros p t Hp. destruct (pt_tab _ _ _ Hinv p t Hp) as (? & ? & Hn). split; [done|]. split; [done|].
    intros [?|[Hc _]]%Hf; [done|]. apply Hc, Htab. by exists p.
  - intros p i t'. rewrite (pt_child _ _ _ Hinv). split; intros (t & Hp & Hl & Hi & Hpt); exists t; (split; [done|]; split; [done|]; split; [done|]);
      [by rewrite (Hword p t i Hp (proj1 Hi))|by rewrite (Hword p t i Hp (proj1 Hi)) in Hpt].
  - intros p t i Hp Hl Hi. rewrite (Hword p t i Hp Hi). intros Hv. destruct (pt_leaf _ _ _ Hinv p t i Hp Hl Hi Hv) as [Hn Hnt]. split; [|done].
    intros [?|[_ Hc]]%Hf; [done|]. destruct (leaf_page w root G p t i Hinv Hp Hl Hi) as (k & Hk & E & _).
    pose proof (Hmap k Hk) as He. rewrite E in He. destruct (V k) as [[f kd]|] eqn:EV; cbn in He; [|change pte_valid with rv_pte_valid in Hv; congruence].
    destruct He as (_ & _ & Hfe & _). apply (Hc k kd). rewrite EV. change pte_pa with rv_pte_to_pa. by rewrite Hfe.
Qed.

Lemma sv39_paddr w root T V va : sv39_space w root T V -> 0 <= va < 2 ^ 38 ->
  Rv.mm_vm_get_paddr w root va = Some (match V (va / PAGE_SIZE) with Some (f, _) => f + va mod PAGE_SIZE | None => 0 end).
Proof using.
  intros [G Ht] Hva. rewrite (Rv.rv_get_paddr w root G va (to_inv _ _ _ _ _ Ht) Hva). rewrite (flat_page w G va Hva).
  pose proof (Z_div_mod_eq_full va PAGE_SIZE). pose proof (Z.mod_pos_bound va PAGE_SIZE ltac:(lia)).
  assert (Hk : 0 <= va / PAGE_SIZE < 2 ^ 26) by lia. pose proof (to_map _ _ _ _ _ Ht _ Hk) as He.
  destruct (V (va / PAGE_SIZE)) as [[f kd]|]; cbn in He; [|by rewrite He]. destruct He as (-> & -> & -> & [Hr _] & _). cbn [andb].
  rewrite u64_id by lia. done.
Qed.

(** The pages that became tables. *)
Lemma new_tables (G G' : gmap (list Z) Z) : G ⊆ G' -> (forall p q t, G' !! p = Some t -> G' !! q = Some t -> p = q) ->
  let N := snd <$> map_to_list (G' ∖ G) in
  NoDup N /\ (forall t, t ∈ N <-> exists p, G' !! p = Some t /\ G !! p = None) /\ (length N + size G = size G')%nat.
Proof using.
  intros Hsub Hinj N.
  assert (Hel : forall t, t ∈ N <-> exists p, G' !! p = Some t /\ G !! p = None).
  { intros t. unfold N. rewrite list_elem_of_fmap. split.
    - intros ([p u] & -> & Hp%elem_of_map_to_list). apply lookup_difference_Some in Hp. by exists p.
    - intros (p & Hp). exists (p, t). split; [done|]. apply elem_of_map_to_list. by apply lookup_difference_Some. }
  split; [|split; [done|]].
  - apply NoDup_fmap_2_strong; [|apply NoDup_map_to_list]. intros [p t] [q u] Hp Hq E. cbn in E. subst u. f_equal.
    apply elem_of_map_to_list, lookup_difference_Some in Hp as [Hp _]. apply elem_of_map_to_list, lookup_difference_Some in Hq as [Hq _]. by apply (Hinj p q t).
  - unfold N. rewrite length_fmap. rewrite <- (map_difference_union G G' Hsub) at 2.
    rewrite map_size_disj_union by (apply map_disjoint_difference_r1; done). rewrite length_map_to_list. lia.
Qed.

Lemma grows_grown w w' root T V G G' : tree_of w root T V G -> pt_inv w' root G' -> pt_grows w w' G G' ->
  exists N, grown w w' T N /\ (forall t, (T t \/ t ∈ N) <-> exists p, G' !! p = Some t).
Proof using.
  intros [Hinv Hsm Htab Hmap Hdom] Hinv' Hgr. pose proof (gr_sub _ _ _ _ Hgr) as Hsub.
  destruct (new_tables G G' Hsub (pt_inj _ _ _ Hinv')) as (Hnd & Hel & Hlen). set (N := snd <$> _) in *.
  assert (HT : forall t, (T t \/ t ∈ N) <-> exists p, G' !! p = Some t).
  { intros t. rewrite Htab, Hel. split.
    - intros [(p & Hp)|(p & Hp & _)]; exists p; [by eapply lookup_weaken|done].
    - intros (p & Hp). destruct (G !! p) as [u|] eqn:E; [|right; by exists p]. left. exists p. rewrite E.
      pose proof (lookup_weaken _ _ _ _ E Hsub). congruence. }
  exists N. split; [|done]. split.
  - split; [apply Hinv'|apply Hgr].
  - apply Hgr.
  - split; [done|]. intros t (p & Hp & Hn)%Hel. destruct (gr_new _ _ _ _ Hgr p t Hp) as [E|?]; [congruence|done].
  - intros y Hy. split; [by apply (gr_free _ _ _ _ Hgr)|]. intros (p & Hp & _)%Hel.
    destruct (pt_tab _ _ _ Hinv' p y Hp) as (_ & _ & Hn). done.
  - pose proof (gr_count _ _ _ _ Hgr). lia.
  - intros a Ha. apply (gr_word _ _ _ _ Hgr). intros q t Hq. assert (Ht : T t \/ t ∈ N) by (apply HT; by exists q).
    specialize (Ha t Ht). unfold in_frame in Ha. lia.
Qed.

Lemma store_grown w w1 T N s v : grown w w1 T N -> (exists t, (T t \/ t ∈ N) /\ in_frame t s) -> grown w (store w1 s v) T N.
Proof using.
  intros [H1 H2 H3 H4 H5 H6] (t & Ht & Hs). split; try done. intros a Ha. rewrite word_store_ne; [by apply H6|]. intros ->. by apply (Ha t).
Qed.

Lemma entry_is_new pa : is_page pa -> entry_is (RV_PTE_FROM_PA pa (Z.lor (Rv.rv_perm_to_flags sg2002 VM_PERM_USER) RV_PTE_V)) (Some (pa, Private)).
Proof using.
  intros [Hr Hal]. destruct (Rv.rv_flags_entry sg2002 VM_PERM_USER pa) as (H1 & H2 & H3 & H4 & H5).
  split; [exact H1|]. split; [exact H2|]. split; [apply H5; [lia|done]|]. split; [done|]. unfold kind_of. by rewrite H3, H4.
Qed.

Lemma sv39_map w root T V k pa : sv39_space w root T V -> 0 <= k < 2 ^ 26 -> is_page pa -> ~ free_at (km_pmm w) pa -> ~ T pa ->
  exists z w' N, Rv.mm_vm_map_pages sg2002 w root (k * PAGE_SIZE) pa 1 VM_PERM_USER = Some (z, w') /\ grown w w' T N /\
    ((z = 0 /\ V k = None /\ sv39_space w' root (fun t => T t \/ t ∈ N) (vset V k (Some (pa, Private)))) \/
     (z = -1 /\ sv39_space w' root (fun t => T t \/ t ∈ N) V /\ (V k <> None \/ forall x, ~ free_at (km_pmm w') x))).
Proof using.
  intros [G Ht] Hk Hpg Hnf HnT. pose proof Ht as [Hinv Hsm Htab Hmap Hdom].
  pose proof (page_va k Hk) as Hva. destruct (user_range (PF := sv39) _ Hva) as [Hu Hpn].
  destruct (walk_tables_alloc root (upper_path (k * PAGE_SIZE)) w G [] root Hinv (pt_root _ _ _ Hinv) (upper_path_ok _ Hu)) as
    (r1 & w1 & G1 & E & Hinv1 & Hgr & Hr1). { cbn [app]. by rewrite length_upper_path. } cbn [app] in Hr1.
  destruct (grows_grown w w1 root T V G G1 Ht Hinv1 Hgr) as (N & Hg & HT).
  pose proof (gr_large _ _ _ _ Hgr Hsm) as Hsm1. pose proof (gr_flat _ _ _ _ Hgr) as Hfl.
  assert (Hwalk : Rv.mm_vm_map_pages sg2002 w root (k * PAGE_SIZE) pa 1 VM_PERM_USER =
    match r1 with
    | None => Some (-1, w1)
    | Some t => if rv_pte_valid (km_word w1 (t + 8 * pt_index (k * PAGE_SIZE) 0)) then Some (-1, w1)
        else Some (0, store w1 (t + 8 * pt_index (k * PAGE_SIZE) 0) (RV_PTE_FROM_PA pa (Z.lor (Rv.rv_perm_to_flags sg2002 VM_PERM_USER) RV_PTE_V)))
    end).
  { unfold Rv.mm_vm_map_pages. change (Z.to_nat 1) with 1%nat. cbn [map_loop]. rewrite Rv.rv_walk_eq. unfold walk_pt. rewrite E. by destruct r1. }
  assert (Hold : tree_of w1 root (fun t => T t \/ t ∈ N) V G1) by (split; [done|done|done|intros j Hj; rewrite Hfl; by apply Hmap|done]).
  destruct r1 as [t|].
  2: { exists (-1), w1, N. split; [done|]. split; [done|]. right. split; [done|]. split; [by exists G1|]. right. destruct Hr1 as [?|Hb]; [done|].
    destruct Hb as (p & i & q & t & Ep & Hp & Hv & Hst). exfalso. rewrite (Hsm1 p t i Hp) in Hst; [done| | |done].
    - rewrite <- (length_upper_path (k * PAGE_SIZE)), Ep, length_app. cbn. lia.
    - apply (upper_path_ok _ Hu p i q Ep). }
  assert (Ee : km_word w1 (t + 8 * pt_index (k * PAGE_SIZE) 0) = flat w G (k * PAGE_SIZE)) by (rewrite <- Hfl; unfold flat; by rewrite Hr1).
  rewrite Ee in Hwalk. pose proof (Hmap k Hk) as He. destruct (rv_pte_valid (flat w G (k * PAGE_SIZE))) eqn:Ev.
  { exists (-1), w1, N. split; [done|]. split; [done|]. right. split; [done|]. split; [by exists G1|]. left. intros Hc. rewrite Hc in He. cbn in He. congruence. }
  exists 0. eexists _, N. split; [done|]. split.
  { apply store_grown; [done|]. exists t. split; [apply HT; by exists (upper_path (k * PAGE_SIZE))|]. pose proof (pt_index_range (k * PAGE_SIZE) 0). unfold in_frame. lia. }
  left. split; [done|]. split; [destruct (V k) as [[? ?]|]; [destruct He as [He _]; congruence|done]|]. exists G1.
  pose proof (entry_is_new pa Hpg) as Hnew. set (e := RV_PTE_FROM_PA pa _) in *. split.
  - apply store_inv; [done|done|]. intros _. change (pte_pa e) with (rv_pte_to_pa e). destruct Hnew as (_ & _ & -> & _).
    split; [intros [? _]%(gn_free _ _ _ _ Hg); done|]. intros q Hq. assert (Hc : T pa \/ pa ∈ N) by (apply HT; by exists q).
    destruct Hc as [?|Hc]; [done|]. by apply Hnf, (proj2 (gn_new _ _ _ _ Hg)).
  - by apply (store_large w1 root).
  - done.
  - intros j Hj. rewrite (store_flat w1 root) by done. destruct (user_range (PF := sv39) _ (page_va j Hj)) as [_ Hpj]. rewrite Hpn, Hpj, !Z.div_mul by lia.
    unfold vset. destruct (Z.eqb_spec j k) as [->|Hne]; [by rewrite decide_True|]. rewrite decide_False by done. rewrite Hfl. by apply Hmap.
  - intros j. unfold vset. destruct (Z.eqb_spec j k) as [->|]; [done|apply Hdom].
Qed.

Lemma entry_stored w root T V G k t e o : tree_of w root T V G -> 0 <= k < 2 ^ 26 -> G !! upper_path (k * PAGE_SIZE) = Some t -> entry_is e o ->
  (forall f kd, o = Some (f, kd) -> ~ free_at (km_pmm w) f /\ ~ T f) ->
  let w' := store w (t + 8 * pt_index (k * PAGE_SIZE) 0) e in tree_of w' root T (vset V k o) G /\ words_kept w w' T.
Proof using.
  intros [Hinv Hsm Htab Hmap Hdom] Hk Ht He Ho w'. destruct (user_range (PF := sv39) _ (page_va k Hk)) as [Hu Hpn]. split.
  - split; [|by apply (store_large w root)|done| |].
    + apply store_inv; [done|done|]. change pte_valid with rv_pte_valid. change pte_pa with rv_pte_to_pa.
      destruct o as [[f kd]|]; [|by rewrite He]. destruct He as (_ & _ & -> & _). intros _. destruct (Ho f kd eq_refl) as [H1 H2]. split; [done|].
      intros q Hq. apply H2, Htab. by exists q.
    + intros j Hj. unfold w'. rewrite (store_flat w root) by done. destruct (user_range (PF := sv39) _ (page_va j Hj)) as [_ Hpj]. rewrite Hpn, Hpj, !Z.div_mul by lia.
      unfold vset. destruct (Z.eqb_spec j k) as [->|Hne]; [by rewrite decide_True|]. rewrite decide_False by done. by apply Hmap.
    + intros j. unfold vset. destruct (Z.eqb_spec j k) as [->|]; [done|apply Hdom].
  - intros a Ha. apply word_store_ne. intros ->. apply (Ha t); [apply Htab; by exists (upper_path (k * PAGE_SIZE))|].
    pose proof (pt_index_range (k * PAGE_SIZE) 0). unfold in_frame. lia.
Qed.

Lemma walk_page w root T V G k : tree_of w root T V G -> 0 <= k < 2 ^ 26 ->
  Rv.rv_walk_l0_pte w root (k * PAGE_SIZE) false = Some (option_map (fun t => t + 8 * pt_index (k * PAGE_SIZE) 0) (G !! upper_path (k * PAGE_SIZE)), w).
Proof using.
  intros Ht Hk. rewrite Rv.rv_walk_eq. apply (walk_pt_read w root G (to_inv _ _ _ _ _ Ht)). apply (user_range (PF := sv39) _ (page_va k Hk)).
Qed.

Lemma sv39_unmap_none w root T V k : sv39_space w root T V -> 0 <= k < 2 ^ 26 -> V k = None -> Rv.mm_vm_unmap_page w root (k * PAGE_SIZE) = Some (0, w).
Proof using.
  intros [G Ht] Hk Hv. unfold Rv.mm_vm_unmap_page, unmap_entry. rewrite (walk_page w root T V G k Ht Hk). cbn [mbind option_bind].
  pose proof (to_map _ _ _ _ _ Ht k Hk) as He. rewrite Hv in He. unfold flat in He. destruct (G !! upper_path (k * PAGE_SIZE)) as [t|]; cbn [option_map]; [|done].
  change pte_valid with rv_pte_valid. unfold entry_is in He. by rewrite He.
Qed.

Lemma release_words w f b1 b2 w1 : release_page w f b1 b2 = Some w1 -> km_word w1 = km_word w.
Proof using.
  unfold release_page. destruct b1; [by intros [= <-]|]. destruct b2; cbn [negb].
  - destruct (shared_page_unref _ _ _) as [[s pm]|]; [|done]. by intros [= <-].
  - destruct (pmm_free_pages _ _ _) as [[ok pm]|]; [|done]. by intros [= <-].
Qed.

Lemma kind_flags e : Rv.rv_keep e = bool_decide (kind_of e = Device) /\ (kind_of e <> Device -> Rv.rv_nofree e = bool_decide (kind_of e = Shared)).
Proof using. unfold kind_of. destruct (Rv.rv_keep e), (Rv.rv_nofree e); done. Qed.

Lemma release_kind w e : release_page w (rv_pte_to_pa e) (Rv.rv_keep e) (Rv.rv_nofree e) =
  release_page w (rv_pte_to_pa e) (bool_decide (kind_of e = Device)) (bool_decide (kind_of e = Shared)).
Proof using. destruct (kind_flags e) as [-> Hn]. unfold release_page. destruct (bool_decide (kind_of e = Device)) eqn:Ed; [done|]. apply bool_decide_eq_false in Ed. by rewrite Hn. Qed.

Lemma sv39_unmap w root T V k f kd w1 : sv39_space w root T V -> V k = Some (f, kd) ->
  release_page w f (bool_decide (kd = Device)) (bool_decide (kd = Shared)) = Some w1 ->
  pmm_inv (km_pmm w1) -> same_range (km_pmm w) (km_pmm w1) -> (forall y, free_at (km_pmm w1) y -> free_at (km_pmm w) y \/ y = f) ->
  ((forall y, free_at (km_pmm w1) y -> free_at (km_pmm w) y) \/ (forall j kd', j <> k -> V j <> Some (f, kd'))) ->
  exists w', Rv.mm_vm_unmap_page w root (k * PAGE_SIZE) = Some (1, w') /\ km_pmm w' = km_pmm w1 /\ km_shared w' = km_shared w1 /\
    words_kept w w' T /\ sv39_space w' root T (vset V k None).
Proof using.
  intros Hs Hv Hrel Hpm Hsr Hfree Hsole. destruct (mapped_facts w root T V k f kd Hs Hv) as (Hk & Hpg & Hnf & HnT). destruct Hs as [G Ht].
  destruct (mapped_leaf w root T V G k f kd Ht Hv) as (t & Hp & _ & H1 & H2 & H3 & _ & H5).
  destruct (entry_stored w root T V G k t 0 None Ht Hk Hp eq_refl ltac:(done)) as [Ht' Hw]. set (slot := t + 8 * pt_index (k * PAGE_SIZE) 0) in *.
  exists (store w1 slot 0). split; [|split; [done|split; [done|split]]].
  - unfold Rv.mm_vm_unmap_page, unmap_entry. rewrite (walk_page w root T V G k Ht Hk), Hp. cbn [mbind option_bind option_map]. fold slot.
    change pte_valid with rv_pte_valid. change pte_pa with rv_pte_to_pa. rewrite H1, H2. cbn [negb orb]. rewrite release_kind, H3, H5, Hrel. done.
  - intros a Ha. rewrite <- (Hw a Ha). cbn. by rewrite (release_words _ _ _ _ _ Hrel).
  - apply (sv39_frame (store w slot 0)); [by exists G|done|done|intros; cbn; by rewrite (release_words _ _ _ _ _ Hrel)|].
    intros y Hy. cbn [km_pmm store set_words] in *. destruct Hsole as [Hno|Hso]; [left; by apply Hno|].
    destruct (Hfree y Hy) as [?| ->]; [by left|]. right. split; [done|]. intros j kd'. unfold vset. destruct (Z.eqb_spec j k); [done|by apply Hso].
Qed.

Lemma land_lor_bit e b m : Z.land b m = 0 -> Z.land (Z.lor e b) m = Z.land e m.
Proof using. intros H. rewrite Z.land_lor_distr_l, H. apply Z.lor_0_r. Qed.

Lemma mark_entry e b : b = RV_PTE_NOFREE \/ b = RV_PTE_KEEP ->
  rv_pte_valid (Z.lor e b) = rv_pte_valid e /\ rv_pte_is_leaf (Z.lor e b) = rv_pte_is_leaf e /\ rv_pte_to_pa (Z.lor e b) = rv_pte_to_pa e /\
  (b = RV_PTE_KEEP -> Rv.rv_keep (Z.lor e b) = true) /\ (b = RV_PTE_NOFREE -> Rv.rv_keep (Z.lor e b) = Rv.rv_keep e /\ Rv.rv_nofree (Z.lor e b) = true).
Proof using.
  intros Hb. unfold rv_pte_valid, rv_pte_is_leaf, RV_PTE_IS_LEAF, rv_pte_to_pa, RV_PTE_TO_PA, Rv.rv_keep, Rv.rv_nofree.
  split; [rewrite land_lor_bit by (destruct Hb as [-> | ->]; done); done|]. split; [rewrite land_lor_bit by (destruct Hb as [-> | ->]; done); done|]. split.
  { rewrite Z.shiftr_lor. replace (Z.shiftr b RV_PTE_PPN_SHIFT) with 0 by (destruct Hb as [-> | ->]; done). by rewrite Z.lor_0_r. }
  assert (Hbit : forall n, 0 <= n -> negb (Z.land (Z.lor e (2 ^ n)) (2 ^ n) =? 0) = true).
  { intros n Hn. apply negb_true_iff, Z.eqb_neq. intros E. apply (f_equal (fun x => Z.testbit x n)) in E.
    rewrite Z.land_spec, Z.lor_spec, Z.pow2_bits_true, orb_true_r, Z.bits_0 in E by done. done. }
  split; [intros ->; by apply (Hbit 9)|]. intros ->. split; [by rewrite land_lor_bit|by apply (Hbit 8)].
Qed.

Lemma sv39_mark b w root T V k f kd : b = RV_PTE_NOFREE \/ b = RV_PTE_KEEP -> sv39_space w root T V -> V k = Some (f, kd) ->
  (b = RV_PTE_NOFREE -> kd <> Device) ->
  exists t, Rv.rv_walk_l0_pte w root (k * PAGE_SIZE) false = Some (Some (t + 8 * pt_index (k * PAGE_SIZE) 0), w) /\
    let w' := store w (t + 8 * pt_index (k * PAGE_SIZE) 0) (Z.lor (km_word w (t + 8 * pt_index (k * PAGE_SIZE) 0)) b) in
    words_kept w w' T /\ sv39_space w' root T (vset V k (Some (f, if b =? RV_PTE_KEEP then Device else Shared))).
Proof using.
  intros Hb Hs Hv Hkd. destruct (mapped_facts w root T V k f kd Hs Hv) as (Hk & Hpg & Hnf & HnT). destruct Hs as [G Ht].
  destruct (mapped_leaf w root T V G k f kd Ht Hv) as (t & Hp & _ & H1 & H2 & H3 & _ & H5). set (e := km_word w _) in *.
  exists t. split; [by rewrite (walk_page w root T V G k Ht Hk), Hp|].
  destruct (mark_entry e b Hb) as (E1 & E2 & E3 & E4 & E5). destruct (entry_stored w root T V G k t (Z.lor e b) (Some (f, if b =? RV_PTE_KEEP then Device else Shared)) Ht Hk Hp) as [Ht' Hw].
  - split; [by rewrite E1|]. split; [by rewrite E2|]. split; [by rewrite E3|]. split; [done|]. unfold kind_of. destruct Hb as [-> | ->]; cbn [Z.eqb Pos.eqb].
    + destruct (E5 eq_refl) as [-> ->]. destruct (Rv.rv_keep e) eqn:Ek; [|done]. exfalso. apply Hkd; [done|]. rewrite <- H5. unfold kind_of. by rewrite Ek.
    + by rewrite (E4 eq_refl).
  - intros f' kd' [= <- _]. done.
  - split; [done|]. by exists G.
Qed.

(** ** The end of an address space *)

Lemma sv39_regular w root T V G : tree_of w root T V G -> regular Rv.rv_teardown w G.
Proof using.
  intros [Hinv Hsm Htab Hmap Hdom] p t i Hp Hi e He. case_decide as Hl.
  - destruct (leaf_page w root G p t i Hinv Hp Hl (proj1 Hi)) as (k & Hk & Ef & _). pose proof (Hmap k Hk) as Hm. rewrite Ef in Hm. fold e in Hm. cbn in He |- *.
    destruct (V k) as [[f kd]|]; cbn in Hm; [by destruct Hm as (_ & ? & _)|congruence].
  - destruct (pt_tab _ _ _ Hinv p t Hp) as (Hlp & _). pose proof (Hsm p t i Hp ltac:(lia) Hi He) as Hst. split; [exact Hst|].
    apply (pt_child _ _ _ Hinv). exists t. split; [done|]. split; [lia|]. split; [done|]. by split.
Qed.

(** The item of a release: the page with this path, or the table. *)
Definition page_at (p : list Z) : Z := foldl (fun n i => n * 512 + i) 0 p.
Definition item_from (x : list Z * (Z * bool)) : item := if decide (length x.1 = 3%nat) then It_page (page_at x.1) else It_table x.2.1.

Lemma page_at_path k : 0 <= k < 2 ^ 26 -> page_at (upper_path (k * PAGE_SIZE) ++ [pt_index (k * PAGE_SIZE) 0]) = k.
Proof using.
  intros Hk. change (upper_path (k * PAGE_SIZE)) with [pt_index (k * PAGE_SIZE) 2; pt_index (k * PAGE_SIZE) 1]. unfold page_at. cbn [app foldl].
  rewrite !page_index by lia. change (2 ^ (9 * 2)) with 262144. change (2 ^ (9 * 1)) with 512. change (2 ^ (9 * 0)) with 1. Z.to_euclidean_division_equations. lia.
Qed.

(** The page of a path of the last level and its entry. *)
Lemma leaf_item w root T V G q k e : tree_of w root T V G -> leaf_at Rv.rv_teardown w G q k e -> let j := page_at (q ++ [k]) in
  0 <= j < 2 ^ 26 /\ q ++ [k] = upper_path (j * PAGE_SIZE) ++ [pt_index (j * PAGE_SIZE) 0] /\
  exists kd, V j = Some (rv_pte_to_pa e, kd) /\ Rv.rv_keep e = bool_decide (kd = Device) /\ (kd <> Device -> Rv.rv_nofree e = bool_decide (kd = Shared)).
Proof using.
  intros [Hinv Hsm Htab Hmap Hdom] (u & Hu & Hl & Hk & -> & Hp) j. destruct (leaf_page w root G q u k Hinv Hu Hl Hk) as (i & Hi & Ef & Eq & Ek).
  assert (j = i) as -> by (unfold j; rewrite <- Eq, <- Ek; by apply page_at_path). split; [done|]. split; [by rewrite Eq, Ek|]. pose proof (Hmap i Hi) as Hm. rewrite Ef in Hm.
  set (e := km_word w (u + 8 * k)) in *. destruct (kind_flags e) as [K1 K2]. destruct (V i) as [[f kd]|]; cbn in Hm; [|cbn in Hp; congruence]. destruct Hm as (_ & _ & <- & _ & <-). by exists (kind_of e).
Qed.

Lemma item_from_spec w root T V G x : tree_of w root T V G -> item_at Rv.rv_teardown w G x -> item_of T V (item_from x) /\ released V (item_from x) = x.2.
Proof using.
  intros Ht Hx. pose proof Ht as [Hinv Hsm Htab Hmap Hdom]. destruct x as [p [a b]]. unfold item_from. cbn [fst snd]. destruct Hx as [[Hg Hb]|(q & k & e & Ep & Hlf & Hk & Eab)]; cbn [fst snd] in *.
  - destruct (pt_tab _ _ _ Hinv p a Hg) as (Hlp & _). change pt_upper with 2%nat in Hlp. rewrite decide_False by lia. cbn. subst b. split; [|done]. apply Htab. by exists p.
  - destruct (leaf_item w root T V G q k e Ht Hlf) as (_ & _ & kd & Ev & E1 & E2). rewrite Ep. assert (length (q ++ [k]) = 3%nat) as El by (destruct Hlf as (u & _ & Hl & _); rewrite length_app, Hl; done).
    rewrite decide_True by done. cbn in Hk. rewrite E1 in Hk. apply bool_decide_eq_false in Hk. cbn [item_of released]. rewrite Ev. split; [by exists (rv_pte_to_pa e), kd|].
    rewrite Eab. cbn. by rewrite E2.
Qed.

Lemma item_from_inj w root T V G x y : tree_of w root T V G -> item_at Rv.rv_teardown w G x -> item_at Rv.rv_teardown w G y -> item_from x = item_from y -> x.1 = y.1.
Proof using.
  intros Ht Hx Hy. pose proof Ht as [Hinv Hsm Htab Hmap Hdom].
  assert (forall z, item_at Rv.rv_teardown w G z -> (G !! z.1 = Some z.2.1 /\ item_from z = It_table z.2.1) \/ exists j, item_from z = It_page j /\ z.1 = upper_path (j * PAGE_SIZE) ++ [pt_index (j * PAGE_SIZE) 0]) as Hcase.
  { intros z [[Hg _]|(q & k & e & Ep & Hlf & _)]; unfold item_from.
    - left. split; [done|]. destruct (pt_tab _ _ _ Hinv z.1 z.2.1 Hg) as (Hlp & _). change pt_upper with 2%nat in Hlp. by rewrite decide_False by lia.
    - right. destruct (leaf_item w root T V G q k e Ht Hlf) as (_ & Eq & _). assert (length z.1 = 3%nat) as El by (rewrite Ep; destruct Hlf as (u & _ & Hl & _); rewrite length_app, Hl; done).
      rewrite decide_True by done. rewrite Ep. by exists (page_at (q ++ [k])). }
  destruct (Hcase x Hx) as [[Gx ->]|(jx & -> & ->)], (Hcase y Hy) as [[Gy ->]|(jy & -> & ->)]; intros E; try discriminate E; injection E as E.
  - rewrite E in Gx. by apply (pt_inj _ _ _ Hinv _ _ _ Gx Gy).
  - by rewrite E.
Qed.

Lemma sv39_destroy w root T V : sv39_space w root T V -> root <> 0 ->
  exists items, NoDup items /\ (forall x, x ∈ items <-> item_of T V x) /\
    forall ps, run_releases (kst w) (released V <$> items) = Some ps ->
      exists w', Rv.mm_vm_destroy_user_space w root = Some w' /\ kst w' = ps /\ words_kept w w' T.
Proof using.
  intros [G Ht] Hr0. pose proof Ht as [Hinv Hsm Htab Hmap Hdom]. pose proof (sv39_regular _ _ _ _ _ Ht) as Hreg. assert (covers Rv.rv_teardown w G) as Hcov by (intros p t i _ _ Hv; exact Hv).
  destruct (space_items_spec Rv.rv_teardown w root G Hinv Hreg Hcov) as (_ & Hnd & Hel). set (l := space_items _ _ _) in *.
  exists (item_from <$> l). split; [|split].
  - apply NoDup_fmap_2_strong; [|by apply (NoDup_fmap_1 fst)]. intros x y Hx%Hel Hy%Hel E. pose proof (item_from_inj w root T V G x y Ht Hx Hy E) as E1.
    destruct (item_from_spec w root T V G x Ht Hx) as [_ E2], (item_from_spec w root T V G y Ht Hy) as [_ E3]. rewrite E in E2. destruct x, y. cbn in *. congruence.
  - intros it. rewrite list_elem_of_fmap. split; [intros (x & -> & Hx%Hel); by apply (item_from_spec w root T V G)|]. destruct it as [t|k]; cbn [item_of].
    + intros (p & Hp)%Htab. exists (p, (t, false)). split; [|apply Hel; left; done]. unfold item_from. cbn [fst snd]. destruct (pt_tab _ _ _ Hinv p t Hp) as (Hlp & _). change pt_upper with 2%nat in Hlp. by rewrite decide_False by lia.
    + intros (f & kd & Ev & Hkd). pose proof (Hdom k ltac:(by rewrite Ev)) as Hk. destruct (mapped_leaf w root T V G k f kd Ht Ev) as (t & Hp & _ & H1 & H2 & H3 & _ & H5).
      set (e := km_word w _) in *. set (q := upper_path (k * PAGE_SIZE)) in *. set (i := pt_index (k * PAGE_SIZE) 0) in *.
      exists (q ++ [i], (rv_pte_to_pa e, Rv.rv_nofree e)). split; [unfold item_from; cbn [fst]; rewrite decide_True by done; f_equal; symmetry; by apply page_at_path|].
      apply Hel. right. exists q, i, e. split; [done|]. split; [exists t; split; [done|]; split; [done|]; split; [apply pt_index_range|done]|]. destruct (kind_flags e) as [K1 _]. cbn. rewrite K1, H5. split; [by apply bool_decide_eq_false|done].
  - intros ps Hps. assert (released V <$> (item_from <$> l) = snd <$> l) as E.
    { rewrite <- list_fmap_compose. apply list_fmap_ext. intros j x Hx. apply (item_from_spec w root T V G x Ht). apply Hel. by apply (list_elem_of_lookup_2 _ j). }
    rewrite E in Hps. destruct (destroy_space_items Rv.rv_teardown w root G Hinv Hreg Hcov ps Hps) as (w' & Ed & Ek & Hw). exists w'. split; [|split; [done|]].
    + rewrite <- Ed. unfold Rv.mm_vm_destroy_user_space, destroy_space. rewrite (proj2 (Z.eqb_neq root 0)) by done. cbn [pt_upper pt_user_roots sv39].
      by rewrite (ofold_ext _ _ w _ (fun s x => Rv.destroy_root_eq root s x)).
    + intros a Ha. apply Hw. intros q u Hq _. specialize (Ha u ltac:(apply Htab; by exists q)). unfold in_frame in Ha. lia.
Qed.

(** ** A new address space *)

Hypothesis Hram : 0 <= ram_base < 2 ^ 38 - 2 ^ 30.

Lemma copy_kernel w pgd l : (forall pa, pa ∈ l -> 0 <= pa < 2 ^ 38) ->
  let w' := foldl (fun w pa => let i := Rv.RV_KERNEL_HIGH_INDEX pa in store w (pgd + 8 * i) (km_word w (satp_pgd + 8 * i))) w l in
  km_pmm w' = km_pmm w /\ km_shared w' = km_shared w /\ forall a, ~ (pgd + 2048 <= a < pgd + PAGE_SIZE) -> km_word w' a = km_word w a.
Proof using.
  revert w. induction l as [|pa l IH]; intros w Hl; [done|]. cbn zeta in *. cbn [foldl].
  destruct (IH (store w (pgd + 8 * Rv.RV_KERNEL_HIGH_INDEX pa) (km_word w (satp_pgd + 8 * Rv.RV_KERNEL_HIGH_INDEX pa)))) as (-> & -> & Hw);
    [intros x Hx; apply Hl; by apply list_elem_of_further|].
  split; [done|]. split; [done|]. intros a Ha. rewrite Hw by done. apply word_store_ne.
  assert (Hpa : 0 <= pa < 2 ^ 38) by (apply Hl, list_elem_of_here). unfold Rv.RV_KERNEL_HIGH_INDEX. rewrite Z.shiftr_div_pow2 by lia.
  assert (0 <= pa / 2 ^ 30 < 256) by (split; [apply Z.div_pos; lia|apply Z.div_lt_upper_bound; lia]). lia.
Qed.

Lemma sv39_init w r : pmm_inv (km_pmm w) -> page_addr (km_pmm w) (pm_total_pages (km_pmm w)) <= PT_PA_LIMIT -> is_page r -> ~ free_at (km_pmm w) r ->
  (forall a, in_frame r a -> km_word w a = 0) ->
  let w' := Rv.mm_vm_init_user_pgd ram_base ram_size satp_pgd w r in
  km_pmm w' = km_pmm w /\ km_shared w' = km_shared w /\ words_kept w w' (eq r) /\ sv39_space w' r (eq r) (fun _ => None).
Proof using Hram.
  intros Hpm Hlim [Hr Hal] Hnf Hz w'.
  assert (Hc : km_pmm w' = km_pmm w /\ km_shared w' = km_shared w /\ forall a, ~ (r + 2048 <= a < r + PAGE_SIZE) -> km_word w' a = km_word w a).
  { apply (copy_kernel w r (Rv.RV_KERNEL_MAP_LIST ram_base ram_size)). unfold Rv.RV_KERNEL_MAP_LIST. intros pa Hpa. rewrite elem_of_app, !elem_of_cons in Hpa.
    destruct (1073741824 <? ram_size); rewrite ?elem_of_cons in Hpa; pose proof (not_elem_of_nil pa); intuition (subst; lia). }
  destruct Hc as (E1 & E2 & Hw). clearbody w'.
  split; [done|]. split; [done|]. split.
  { intros a Ha. apply Hw. specialize (Ha r eq_refl). unfold in_frame in Ha. lia. }
  assert (Hz' : forall i, user_index [] i -> rv_pte_valid (km_word w' (r + 8 * i)) = false).
  { intros i [Hi Hu]. specialize (Hu eq_refl). change pt_user_roots with 256 in Hu. rewrite Hw by lia. rewrite Hz by (unfold in_frame; lia). done. }
  exists {[ [] := r ]}. split.
  - apply pt_inv_fresh; [by rewrite E1|by rewrite E1|exact Hal|by rewrite E1|exact Hz'].
  - intros p t i [<- <-]%lookup_singleton_Some _ Hi Hv. change pte_valid with rv_pte_valid in Hv. by rewrite Hz' in Hv.
  - intros t. split; [intros <-; exists []; apply lookup_singleton_eq|intros (p & Hp); by apply lookup_singleton_Some in Hp as [_ ?]].
  - intros k Hk. unfold flat. rewrite lookup_singleton_ne; [done|]. intros E%(f_equal length). by rewrite length_upper_path in E.
  - done.
Qed.

(** Sv39 keeps the promises. *)
#[local] Program Instance sv39_vm_laws : vm_laws := {| vm_space := sv39_space |}.
Next Obligation. cbn. lia. Qed.
Next Obligation. intros w r T V [G Ht]. split; apply (to_inv _ _ _ _ _ Ht). Qed.
Next Obligation. intros w r T V [G Ht]. apply (to_tab _ _ _ _ _ Ht). exists []. apply (to_inv _ _ _ _ _ Ht). Qed.
Next Obligation.
  intros w r T V t [G Ht] Hx. apply (to_tab _ _ _ _ _ Ht) in Hx as [p Hp]. by destruct (pt_tab _ _ _ (to_inv _ _ _ _ _ Ht) p t Hp) as (_ & ? & ?).
Qed.
Next Obligation. intros w r T V k f kd Hs Hk. destruct (mapped_facts w r T V k f kd Hs Hk) as (? & ? & ? & ?). split; [cbn; lia|done]. Qed.
Next Obligation.
  intros w r T T' V V' [G [H1 H2 H3 H4 H5]] HT HV. exists G. split; try done.
  - intros t. by rewrite <- HT.
  - intros k Hk. rewrite <- HV. by apply H4.
  - intros k. rewrite <- HV. apply H5.
Qed.
Next Obligation. intros w w' r T V. apply sv39_frame. Qed.
Next Obligation. intros w r T V va. apply sv39_paddr. Qed.
Next Obligation. intros w r T V k pa Hs [Hk1 Hk2]. apply sv39_map; [done|cbn in Hk2; lia]. Qed.
Next Obligation. intros w r T V k Hs [Hk1 Hk2]. apply (sv39_unmap_none w r T V); [done|cbn in Hk2; lia]. Qed.
Next Obligation. intros w r T V k f kd w1. apply sv39_unmap. Qed.
Next Obligation.
  intros w r T V k f kd Hs Hk. destruct (mapped_facts w r T V k f kd Hs Hk) as (Hr & _). destruct Hs as [G Ht].
  destruct (mapped_leaf w r T V G k f kd Ht Hk) as (t & Hp & Hfl & _ & _ & _ & _ & H5). destruct (kind_flags (flat w G (k * PAGE_SIZE))) as [E1 E2]. rewrite Hfl in *. rewrite H5 in *. split.
  - change (vm_check_keep w r (k * PAGE_SIZE)) with (rv_check_keep w r (k * PAGE_SIZE)). unfold rv_check_keep. rewrite (Rv.rv_get_pte w r G) by (apply Ht || by apply page_va). cbn [mbind option_bind]. rewrite Hfl. f_equal. exact E1.
  - intros Hd. change (vm_check_shared w r (k * PAGE_SIZE)) with (rv_check_shared w r (k * PAGE_SIZE)). unfold rv_check_shared. rewrite (Rv.rv_get_pte w r G) by (apply Ht || by apply page_va). cbn [mbind option_bind]. rewrite Hfl. f_equal. exact (E2 Hd).
Qed.
Next Obligation.
  intros w r T V k f kd Hs Hk Hd. destruct (sv39_mark RV_PTE_NOFREE w r T V k f kd ltac:(auto) Hs Hk ltac:(auto)) as (t & E & Hw & Hs').
  set (w' := store w _ _) in *. exists w'. split; [|done]. change (rv_mark_nofree w r (k * PAGE_SIZE) = Some w'). unfold rv_mark_nofree. by rewrite E.
Qed.
Next Obligation.
  intros w r T V k f kd Hs Hk. destruct (sv39_mark RV_PTE_KEEP w r T V k f kd ltac:(auto) Hs Hk ltac:(done)) as (t & E & Hw & Hs').
  set (w' := store w _ _) in *. exists w'. split; [|done]. change (Rv.mm_vm_set_pte_keep w r (k * PAGE_SIZE) = Some w'). unfold Rv.mm_vm_set_pte_keep. by rewrite E.
Qed.
Next Obligation. intros w r. apply sv39_init. Qed.
Next Obligation. intros w r T V. apply sv39_destroy. Qed.
End sv39.
