(* ===== verification/UserMem.v ===== *)
(** * Memory of user processes: kernel/syscall/mm, kernel/mm/vm_user.c and fork

    brk, mmap, munmap and the copy of an address space at fork, over the interface of
    AddrSpace: the physical memory [kmem] holds the page tables, the allocator and the reference
    counts of shared pages; a task has the fields of [task_t] these functions use.  The tasks of
    one address space each keep its bounds and bring them up to date together.

    Locks are not taken by this code; each call is one step.  Reading a file into a page is a
    parameter, [vfs_read_to_phys], that writes the page and nothing else.  [None] is a fault of
    the allocator's or the page tables' code, which the theorems exclude. *)

From stdpp Require Import options.
From Stdlib Require Import Lia.
From S2P Require Import Prelude Bitmap Pmm SharedPage PhysMem PageTable Teardown Riscv64 AddrSpace.

Abbreviation USER_STACK_TOP := 1879048192.
Abbreviation USER_STACK_SIZE := 1048576.
Abbreviation USER_INTERP_BASE := 1073741824.
Abbreviation MAP_SHARED := 1.
Abbreviation MAP_FIXED := 16.
Abbreviation MAP_ANONYMOUS := 32.
Abbreviation ENOMEM := 12.
Abbreviation EINVAL := 22.
Abbreviation MMAP_FAILED := (u64 (- 1)).

(** ** Tasks *)

Record utask := mk_ut {
  ut_used : bool;
  ut_user : bool;
  ut_dead : bool;
  ut_shares : bool;
  ut_pgd : Z;
  ut_heap_end : Z;
  ut_mmap_next : Z;
  ut_mmap_base : Z;
  ut_interp_end : Z;
  ut_stack_top : Z;
  ut_stack_size : Z;
}.

Definition set_heap_end (t : utask) (x : Z) : utask :=
  mk_ut (ut_used t) (ut_user t) (ut_dead t) (ut_shares t) (ut_pgd t) x (ut_mmap_next t) (ut_mmap_base t) (ut_interp_end t) (ut_stack_top t) (ut_stack_size t).
Definition set_mmap_next (t : utask) (x : Z) : utask :=
  mk_ut (ut_used t) (ut_user t) (ut_dead t) (ut_shares t) (ut_pgd t) (ut_heap_end t) x (ut_mmap_base t) (ut_interp_end t) (ut_stack_top t) (ut_stack_size t).

(** A live task of the same address space. *)
Definition peer (current t : utask) : bool := ut_used t && ut_user t && negb (ut_dead t) && (ut_pgd t =? ut_pgd current).

Definition shared_max (get : utask -> Z) (ts : list utask) (current : utask) : Z :=
  foldl (fun x t => if peer current t && (x <? get t) then get t else x) (get current) ts.
Definition shared_heap_end : list utask -> utask -> Z := shared_max ut_heap_end.
Definition shared_mmap_next : list utask -> utask -> Z := shared_max ut_mmap_next.

Definition sync_shared_heap_end (ts : list utask) (current : utask) (x : Z) : list utask :=
  (fun t => if peer current t then set_heap_end t x else t) <$> ts.
Definition sync_shared_mmap_next (ts : list utask) (current : utask) (x : Z) : list utask :=
  (fun t => if peer current t && (ut_mmap_next t <? x) then set_mmap_next t x else t) <$> ts.
Definition sync_shared_mmap_next_to (ts : list utask) (current : utask) (x : Z) : list utask :=
  (fun t => if peer current t then set_mmap_next t x else t) <$> ts.

Definition mmap_user_range_ok (start size : Z) : bool :=
  if (size =? 0) || (u64 (start + size) <? start) then false
  else if start <? PAGE_SIZE then false
  else negb (USER_STACK_TOP - USER_STACK_SIZE <? u64 (start + size)).

(** [for (va = start; va < end; va += PAGE_SIZE)]: [inr] leaves the loop. *)
Fixpoint page_loop {S R} (n : nat) (body : S -> Z -> option (S + R)) (s : S) (va : Z) : option (S + R) :=
  match n with
  | O => Some (inl s)
  | S n =>
      r ← body s va;
      match r with
      | inl s => page_loop n body s (u64 (va + PAGE_SIZE))
      | inr r => Some (inr r)
      end
  end.
Definition page_count (start stop : Z) : nat := Z.to_nat ((stop - start + (PAGE_SIZE - 1)) / PAGE_SIZE).

(** [memcpy] of a page *)
Definition copy_words (w : kmem) (dst src n : Z) : kmem :=
  set_words w (fun a => if (dst <=? a) && (a <? dst + n) then km_word w (src + (a - dst)) else km_word w a).

(** What [mmap] is asked to map: an object with [get_phys] and its answer, a pseudo file and
    the answer of its driver for the offset, a regular file, or nothing that can be mapped. *)
Inductive backing := B_phys (buf : option (Z * Z)) | B_token (buf : option (Z * Z)) | B_regular | B_none.

Definition has (flags f : Z) : bool := negb (Z.land flags f =? 0).

Section user.
Context {VO : vm_ops} (vfs_read_to_phys : kmem -> Z -> Z -> Z -> kmem).

(** ** kernel/mm/vm_user.c *)

Definition unmap_body (pgd : Z) (s : Z * kmem) (va : Z) : option (Z * kmem + Z * kmem) :=
  '(r, w) ← vm_unmap s.2 pgd va;
  Some (inl (if r =? 0 then s.1 else u64 (s.1 + 1), w)).
Definition vm_unmap_user_range (w : kmem) (pgd vaddr size : Z) : option (Z * kmem) :=
  if (pgd =? 0) || (size =? 0) then Some (0, w)
  else
    let start := ALIGN_DOWN vaddr PAGE_SIZE in
    let stop := ALIGN_UP (u64 (vaddr + size)) PAGE_SIZE in
    if stop <? start then Some (0, w)
    else
      r ← page_loop (page_count start stop) (unmap_body pgd) (0, w) start;
      Some (match r with inl x => x | inr x => x end).

Definition vm_destroy_user_process (w : kmem) (pgd_phys : Z) : option kmem :=
  if pgd_phys =? 0 then Some w else vm_destroy w pgd_phys.

(** ** kernel/syscall/mm/brk.c *)

Definition free_one_page (w : kmem) (pa : Z) : option kmem := '(_, pm) ← pmm_free_pages (km_pmm w) pa 1; Some (set_pmm w pm).

Definition brk_body (pgd : Z) (w : kmem) (va : Z) : option (kmem + kmem) :=
  '(pa, pm) ← pmm_alloc_pages (km_pmm w) 1;
  let w := set_pmm w pm in
  if pa =? 0 then Some (inr w)
  else
    let w := clear_words w pa PAGE_SIZE in
    '(r, w) ← vm_map w pgd va pa;
    if negb (r =? 0) then w ← free_one_page w pa; Some (inl w) else Some (inl w).

Definition sys_brk (w : kmem) (ts : list utask) (current : utask) (addr : Z) : option (Z * kmem * list utask) :=
  if negb (ut_user current) then Some (u64 (- ENOMEM), w, ts)
  else
    let current_brk := shared_heap_end ts current in
    if addr =? 0 then Some (current_brk, w, ts)
    else if addr <=? current_brk then
      let old_page_end := ALIGN_UP current_brk PAGE_SIZE in
      let new_page_end := ALIGN_UP addr PAGE_SIZE in
      w ← (if new_page_end <? old_page_end then
             '(_, w) ← vm_unmap_user_range w (ut_pgd current) new_page_end (old_page_end - new_page_end); Some w
           else Some w);
      Some (addr, w, sync_shared_heap_end ts current addr)
    else
      let old_page_end := ALIGN_UP current_brk PAGE_SIZE in
      let new_page_end := ALIGN_UP addr PAGE_SIZE in
      r ← page_loop (page_count old_page_end new_page_end) (brk_body (ut_pgd current)) w old_page_end;
      match r with
      | inr w => Some (current_brk, w, ts)
      | inl w => Some (addr, w, sync_shared_heap_end ts current addr)
      end.

(** ** kernel/syscall/mm/mmap.c *)

(** The number of pages given back to the end of the area at most. *)
Fixpoint shrink_next (budget : nat) (w : kmem) (pgd lo new_next : Z) : option Z :=
  match budget with
  | O => Some new_next
  | S budget =>
      if negb (lo <? new_next) then Some new_next
      else
        pa ← vm_paddr w pgd (u64 (new_next - PAGE_SIZE));
        if negb (pa =? 0) then Some new_next else shrink_next budget w pgd lo (u64 (new_next - PAGE_SIZE))
  end.

Definition sys_munmap (w : kmem) (ts : list utask) (current : utask) (addr len : Z) : option (Z * kmem * list utask) :=
  if negb (ut_user current) || (ut_pgd current =? 0) then Some (u64 (- EINVAL), w, ts)
  else if (len =? 0) || negb (Z.land addr (PAGE_SIZE - 1) =? 0) then Some (u64 (- EINVAL), w, ts)
  else
    let size := ALIGN_UP len PAGE_SIZE in
    '(_, w) ← vm_unmap_user_range w (ut_pgd current) addr size;
    let top := u64 (addr + size) in
    let next := shared_mmap_next ts current in
    if next <=? top then
      new_next ← shrink_next 512 w (ut_pgd current) (ut_mmap_base current) addr;
      Some (0, w, if new_next <? next then sync_shared_mmap_next_to ts current new_next else ts)
    else Some (0, w, ts).

Definition buf_body (pgd flags map_addr pa : Z) (w : kmem) (va : Z) : option (kmem + kmem) :=
  w ← (if has flags MAP_FIXED then
         old ← vm_paddr w pgd va;
         if negb (old =? 0) then '(_, w) ← vm_unmap_user_range w pgd va PAGE_SIZE; Some w else Some w
       else Some w);
  '(r, w) ← vm_map w pgd va (u64 (pa + (va - map_addr)));
  if negb (r =? 0) then Some (inr w)
  else w ← vm_mark_keep w pgd va; Some (inl w).

Definition map_contiguous_buf (w : kmem) (ts : list utask) (current : utask) (map_addr map_size pa flags : Z) : option (bool * kmem * list utask) :=
  r ← page_loop (page_count map_addr (map_addr + map_size)) (buf_body (ut_pgd current) flags map_addr pa) w map_addr;
  match r with
  | inr w => Some (false, w, ts)
  | inl w => Some (true, w, if has flags MAP_FIXED then ts else sync_shared_mmap_next ts current (u64 (map_addr + map_size)))
  end.

(** A new page for [va], [zero]: cleared before it is mapped; [inr] the call fails. *)
Definition new_page (zero : bool) (pgd flags : Z) (w : kmem) (va : Z) : option (Z * kmem + kmem) :=
  '(pa, pm) ← pmm_alloc_pages (km_pmm w) 1;
  let w := set_pmm w pm in
  if pa =? 0 then Some (inr w)
  else
    let w := if zero then clear_words w pa PAGE_SIZE else w in
    '(ok, w) ← (if has flags MAP_SHARED then '(ok, s) ← shared_page_ref (km_shared w) pa; Some (ok, set_shared w s) else Some (true, w));
    if negb ok then w ← free_one_page w pa; Some (inr w)
    else
      '(r, w) ← vm_map w pgd va pa;
      if negb (r =? 0) then
        w ← (if has flags MAP_SHARED then '(s, pm) ← shared_page_unref (km_shared w) (km_pmm w) pa; Some (set_shared (set_pmm w pm) s)
             else free_one_page w pa);
        Some (inr w)
      else Some (inl (pa, w)).

Definition anon_body (pgd flags : Z) (w : kmem) (va : Z) : option (kmem + kmem) :=
  old ← (if has flags MAP_FIXED then vm_paddr w pgd va else Some 0);
  if negb (old =? 0) then Some (inl (clear_words w old PAGE_SIZE))
  else
    r ← new_page true pgd flags w va;
    match r with
    | inr w => Some (inr w)
    | inl (pa, w) => if has flags MAP_SHARED then w ← vm_mark_nofree w pgd va; Some (inl w) else Some (inl w)
    end.

Definition file_body (pgd flags map_addr len offset : Z) (w : kmem) (va : Z) : option (kmem + kmem) :=
  let page_off := va - map_addr in
  old ← (if has flags MAP_FIXED then vm_paddr w pgd va else Some 0);
  r ← (if old =? 0 then new_page false pgd flags w va else Some (inl (old, w)));
  match r with
  | inr w => Some (inr w)
  | inl (pa, w) =>
      let w := clear_words w pa PAGE_SIZE in
      let to_read := if len <? u64 (page_off + PAGE_SIZE) then u64 (len - page_off) else PAGE_SIZE in
      let w := if 0 <? to_read then vfs_read_to_phys w (u64 (offset + page_off)) pa to_read else w in
      if has flags MAP_SHARED then
        '(ok, w) ← (if old =? 0 then Some (true, w) else '(ok, s) ← shared_page_ref (km_shared w) pa; Some (ok, set_shared w s));
        if negb ok then Some (inr w) else w ← vm_mark_nofree w pgd va; Some (inl w)
      else Some (inl w)
  end.

(** The search for room below the stack; [need] pages. *)
Fixpoint gap_search (fuel : nat) (w : kmem) (pgd size hi va run cand : Z) : option (option Z) :=
  match fuel with
  | O => None
  | S fuel =>
      if hi <? u64 (va + size) then Some None
      else
        pa ← vm_paddr w pgd va;
        if pa =? 0 then
          let cand := if run =? 0 then va else cand in
          if size / PAGE_SIZE <=? run + 1 then Some (Some cand)
          else gap_search fuel w pgd size hi (u64 (va + PAGE_SIZE)) (run + 1) cand
        else gap_search fuel w pgd size hi (u64 (va + PAGE_SIZE)) 0 cand
  end.

Definition map_pages_at (w : kmem) (ts : list utask) (current : utask) (flags map_addr size : Z) (body : kmem -> Z -> option (kmem + kmem)) :
    option (Z * kmem * list utask) :=
  r ← page_loop (page_count map_addr (map_addr + size)) body w map_addr;
  match r with
  | inr w => Some (MMAP_FAILED, w, ts)
  | inl w => Some (map_addr, w, if has flags MAP_FIXED then ts else sync_shared_mmap_next ts current (u64 (map_addr + size)))
  end.

Definition mmap_file (w : kmem) (ts : list utask) (current : utask) (addr len flags offset : Z) (b : backing) : option (Z * kmem * list utask) :=
  if len =? 0 then Some (u64 (- EINVAL), w, ts)
  else if has flags MAP_FIXED && negb (Z.land addr (PAGE_SIZE - 1) =? 0) then Some (u64 (- EINVAL), w, ts)
  else
    let map_addr := if has flags MAP_FIXED then addr else ALIGN_UP (shared_mmap_next ts current) PAGE_SIZE in
    let map_size := ALIGN_UP len PAGE_SIZE in
    if negb (mmap_user_range_ok map_addr map_size) then Some (u64 (- ENOMEM), w, ts)
    else
      let map_buf pa :=
        '(ok, w, ts) ← map_contiguous_buf w ts current map_addr map_size pa flags;
        Some (if ok : bool then map_addr else u64 (- 1), w, ts) in
      match b with
      | B_phys buf =>
          if negb (offset =? 0) then Some (MMAP_FAILED, w, ts)
          else
            match buf with
            | None => Some (MMAP_FAILED, w, ts)
            | Some (pa, size) =>
                if size =? 0 then Some (MMAP_FAILED, w, ts)
                else if ALIGN_UP size PAGE_SIZE <? map_size then Some (u64 (- EINVAL), w, ts) else map_buf pa
            end
      | B_token (Some (dpa, dsz)) =>
          if offset =? 0 then Some (MMAP_FAILED, w, ts)
          else if ALIGN_UP dsz PAGE_SIZE <? map_size then Some (u64 (- EINVAL), w, ts) else map_buf dpa
      | B_token None | B_none => Some (MMAP_FAILED, w, ts)
      | B_regular => map_pages_at w ts current flags map_addr map_size (file_body (ut_pgd current) flags map_addr len offset)
      end.

Definition GAP_FUEL : nat := Z.to_nat ((USER_STACK_TOP - USER_STACK_SIZE) / PAGE_SIZE + 2).

Definition mmap_anon (w : kmem) (ts : list utask) (current : utask) (addr len flags : Z) : option (Z * kmem * list utask) :=
  if len =? 0 then Some (u64 (- EINVAL), w, ts)
  else if has flags MAP_FIXED && negb (Z.land addr (PAGE_SIZE - 1) =? 0) then Some (u64 (- EINVAL), w, ts)
  else
    let map_addr := if has flags MAP_FIXED then addr else ALIGN_UP (shared_mmap_next ts current) PAGE_SIZE in
    let size := ALIGN_UP len PAGE_SIZE in
    place ← (if negb (has flags MAP_FIXED) && negb (mmap_user_range_ok map_addr size) then
               gap_search GAP_FUEL w (ut_pgd current) size (USER_STACK_TOP - USER_STACK_SIZE) (ALIGN_UP (ut_heap_end current) PAGE_SIZE) 0 0
             else Some (Some map_addr));
    match place with
    | None => Some (u64 (- ENOMEM), w, ts)
    | Some map_addr =>
        if negb (mmap_user_range_ok map_addr size) then Some (u64 (- ENOMEM), w, ts)
        else map_pages_at w ts current flags map_addr size (anon_body (ut_pgd current) flags)
    end.

Definition sys_mmap (w : kmem) (ts : list utask) (current : utask) (addr len flags offset : Z) (b : backing) : option (Z * kmem * list utask) :=
  if negb (ut_user current) then Some (MMAP_FAILED, w, ts)
  else if negb (has flags MAP_ANONYMOUS) then mmap_file w ts current addr len flags offset b
  else mmap_anon w ts current addr len flags.

(** ** The address space of a child: kernel/syscall/core/proc_lifecycle.c *)

(** [CLONE_COPY_RANGE]: [inr] is a failure. *)
Definition copy_body (parent child : Z) (w : kmem) (va : Z) : option (kmem + kmem) :=
  src ← vm_paddr w parent va;
  if src =? 0 then Some (inl w)
  else
    keep ← vm_check_keep w parent va;
    if keep : bool then
      '(r, w) ← vm_map w child va src;
      if negb (r =? 0) then Some (inr w) else w ← vm_mark_keep w child va; Some (inl w)
    else
      shared ← vm_check_shared w parent va;
      if shared : bool then
        '(r, w) ← vm_map w child va src;
        if negb (r =? 0) then Some (inr w)
        else
          w ← vm_mark_nofree w child va;
          '(ok, s) ← shared_page_ref (km_shared w) src;
          let w := set_shared w s in
          Some (if ok : bool then inl w else inr w)
      else
        '(dst, pm) ← pmm_alloc_pages (km_pmm w) 1;
        let w := set_pmm w pm in
        if dst =? 0 then Some (inr w)
        else
          let w := copy_words w dst src PAGE_SIZE in
          '(r, w) ← vm_map w child va dst;
          if negb (r =? 0) then w ← free_one_page w dst; Some (inr w) else Some (inl w).

Definition copy_range (parent child : Z) (r : kmem + kmem) (start stop : Z) : option (kmem + kmem) :=
  match r with
  | inr w => Some (inr w)
  | inl w =>
      let s := ALIGN_DOWN start PAGE_SIZE in
      let e := ALIGN_UP stop PAGE_SIZE in
      page_loop (page_count s e) (copy_body parent child) w s
  end.

(** The child's table, or the tables built until the copy failed. *)
Inductive forked := F_none | F_ok (pgd : Z) | F_undo (pgd : Z).
Definition fork_copy (w : kmem) (parent : utask) : option (forked * kmem) :=
  '(pgd, pm) ← pmm_alloc_pages (km_pmm w) 1;
  let w := set_pmm w pm in
  if pgd =? 0 then Some (F_none, w)
  else
    let w := vm_init_pgd (clear_words w pgd PAGE_SIZE) pgd in
    r ← copy_range (ut_pgd parent) pgd (inl w) 0 (ut_heap_end parent);
    r ← (if ut_mmap_base parent <? ut_mmap_next parent then copy_range (ut_pgd parent) pgd r (ut_mmap_base parent) (ut_mmap_next parent) else Some r);
    r ← copy_range (ut_pgd parent) pgd r (u64 (ut_stack_top parent - ut_stack_size parent)) (ut_stack_top parent);
    r ← (if USER_INTERP_BASE <? ut_interp_end parent then copy_range (ut_pgd parent) pgd r USER_INTERP_BASE (ut_interp_end parent) else Some r);
    Some (match r with inl w => (F_ok pgd, w) | inr w => (F_undo pgd, w) end).

(** The child's table, or [None] for ENOMEM. *)
Definition fork_space (w : kmem) (parent : utask) : option (option Z * kmem) :=
  '(r, w) ← fork_copy w parent;
  match r with
  | F_none => Some (None, w)
  | F_ok pgd => Some (Some pgd, w)
  | F_undo pgd => w ← vm_destroy_user_process w pgd; Some (None, w)
  end.

(** The fields of the child: of a process, and of a thread, which runs on the tables of its parent. *)
Definition child_of (parent : utask) (pgd : Z) : utask :=
  mk_ut true true false false pgd (ut_heap_end parent) (ut_mmap_next parent) (ut_mmap_base parent) (ut_interp_end parent) (ut_stack_top parent) (ut_stack_size parent).
Definition thread_of (parent : utask) (child_stack : Z) : utask :=
  mk_ut true true false true (ut_pgd parent) (ut_heap_end parent) (ut_mmap_next parent) (ut_mmap_base parent) (ut_interp_end parent) child_stack (ut_stack_size parent).

(** ** kernel/task/task.c *)

(** The slot of a dead task is given back; the owner of the tables takes them with it. *)
Definition slot_take_and_free (w : kmem) (t : utask) : option (kmem * utask) :=
  let free pgd := mk_ut false (ut_user t) (ut_dead t) (ut_shares t) pgd (ut_heap_end t) (ut_mmap_next t) (ut_mmap_base t) (ut_interp_end t) (ut_stack_top t) (ut_stack_size t) in
  if ut_user t && negb (ut_shares t) && negb (ut_pgd t =? 0) then
    w ← vm_destroy_user_process w (ut_pgd t); Some (w, free 0)
  else Some (w, free (ut_pgd t)).

(** The slot is claimed first, so that no one else reaps it. *)
Definition task_reap_dead (w : kmem) (t : utask) : option (kmem * utask) :=
  if negb (ut_dead t) then Some (w, t)
  else slot_take_and_free w (mk_ut (ut_used t) (ut_user t) false (ut_shares t) (ut_pgd t) (ut_heap_end t) (ut_mmap_next t) (ut_mmap_base t) (ut_interp_end t) (ut_stack_top t) (ut_stack_size t)).
End user.
