(* ===== verification/UserSpaces.v ===== *)
(** * The memory of all processes

    [ghost]: which pages hold tables of which address space, and what every page of every
    address space maps.  [spaces_inv]: the tables in memory are those of the ghost state;
    [frames_inv]: each frame has the owners its kind says. *)

From stdpp Require Import options.
From Stdlib Require Import Lia.
From S2P Require Import Prelude Bitmap Pmm SharedPage PhysMem PageTable Teardown AddrSpace UserMem.

Record ghost := mk_gh { g_tab : gmap Z Z; g_map : gmap (Z * Z) (Z * pkind) }.

Definition tables_of (g : ghost) (r t : Z) : Prop := g_tab g !! t = Some r.
Definition view (g : ghost) (r : Z) : vmap := fun k => g_map g !! (r, k).
Definition is_space (g : ghost) (r : Z) : Prop := g_tab g !! r = Some r.

Definition add_tabs (g : ghost) (r : Z) (N : list Z) : ghost := mk_gh (foldr (fun t M => <[t := r]> M) (g_tab g) N) (g_map g).
Definition put_map (g : ghost) (x : Z * Z) (v : Z * pkind) : ghost := mk_gh (g_tab g) (<[x := v]> (g_map g)).
Definition del_map (g : ghost) (x : Z * Z) : ghost := mk_gh (g_tab g) (delete x (g_map g)).

Lemma add_tabs_lookup g r N t : g_tab (add_tabs g r N) !! t = if decide (t ∈ N) then Some r else g_tab g !! t.
Proof.
  unfold add_tabs. cbn. induction N as [|u N IH]; cbn; [by rewrite decide_False by apply not_elem_of_nil|].
  destruct (decide (t = u)) as [->|Hne]; [by rewrite lookup_insert_eq, decide_True by apply list_elem_of_here|].
  rewrite lookup_insert_ne, IH by done. destruct (decide (t ∈ N)) as [Hi|Hi].
  - by rewrite decide_True by (by apply list_elem_of_further).
  - rewrite decide_False; [done|]. rewrite elem_of_cons. tauto.
Qed.
Lemma add_tabs_size g r N : NoDup N -> (forall t, t ∈ N -> g_tab g !! t = None) -> (size (g_tab (add_tabs g r N)) = size (g_tab g) + length N)%nat.
Proof.
  unfold add_tabs. cbn. induction N as [|u N IH]; intros Hnd Hn; cbn; [lia|]. apply NoDup_cons in Hnd as [Hu Hnd].
  rewrite map_size_insert_None, IH; [lia|done|intros; apply Hn; by apply list_elem_of_further|].
  change (g_tab (add_tabs g r N) !! u = None). rewrite add_tabs_lookup, decide_False by done. apply Hn, list_elem_of_here.
Qed.

Section spaces.
Context {VO : vm_ops} {VL : vm_laws}.

Record spaces_inv (w : kmem) (g : ghost) : Prop := mk_si {
  si_pmm : pmm_inv (km_pmm w) /\ page_addr (km_pmm w) (pm_total_pages (km_pmm w)) <= PT_PA_LIMIT;
  si_space r : is_space g r -> vm_space w r (tables_of g r) (view g r);
  si_tab t r : g_tab g !! t = Some r -> is_space g r;
  si_page x v : g_map g !! x = Some v -> is_space g x.1;
  si_frame x f kd : g_map g !! x = Some (f, kd) -> g_tab g !! f = None;
}.

Lemma si_table w g t r : spaces_inv w g -> g_tab g !! t = Some r -> t mod PAGE_SIZE = 0 /\ ~ free_at (km_pmm w) t.
Proof using. intros Hs Ht. apply (space_table w r _ _ t (si_space _ _ Hs r (si_tab _ _ Hs t r Ht))). exact Ht. Qed.

Lemma si_mapped w g r k f kd : spaces_inv w g -> g_map g !! (r, k) = Some (f, kd) ->
  vm_page k /\ is_page f /\ ~ free_at (km_pmm w) f /\ g_tab g !! f = None.
Proof using.
  intros Hs Hm. pose proof (si_space _ _ Hs r (si_page _ _ Hs _ _ Hm)) as Hsp. destruct (space_page w r _ _ k f kd Hsp Hm) as (? & ? & ? & _).
  split_and!; try done. by apply (si_frame _ _ Hs (r, k) f kd).
Qed.

(** Pages of the allocator are aligned and do not overlap. *)
Lemma frames_apart a b x : a mod PAGE_SIZE = 0 -> b mod PAGE_SIZE = 0 -> in_frame a x -> in_frame b x -> a = b.
Proof using. unfold in_frame. intros Ha Hb Hx Hy. pose proof (Z_div_mod_eq_full a PAGE_SIZE). pose proof (Z_div_mod_eq_full b PAGE_SIZE). lia. Qed.

(** Memory outside the tables, and the allocator beside what is in use, may change. *)
Lemma spaces_frame w w' g : spaces_inv w g -> pmm_inv (km_pmm w') -> same_range (km_pmm w) (km_pmm w') ->
  (forall t r a, g_tab g !! t = Some r -> in_frame t a -> km_word w' a = km_word w a) ->
  (forall y, free_at (km_pmm w') y -> free_at (km_pmm w) y \/ (g_tab g !! y = None /\ forall x kd, g_map g !! x <> Some (y, kd))) -> spaces_inv w' g.
Proof using.
  intros [[Hpm Hlim] Hsp Htab Hpage Hframe] Hpm' Hsr Hw Hf. split; try done.
  - split; [done|]. destruct Hsr as (E1 & E2 & _). unfold page_addr. by rewrite E1, E2.
  - intros r Hr. apply (space_frame w w'); [by apply Hsp|done|done|intros t a Ht; by apply (Hw t r)|].
    intros y Hy. destruct (Hf y Hy) as [?|[H1 H2]]; [by left|]. right. split; [unfold tables_of; congruence|]. intros k kd. apply H2.
Qed.

Lemma words_spaces w w' g : spaces_inv w g -> km_pmm w' = km_pmm w ->
  (forall t r a, g_tab g !! t = Some r -> in_frame t a -> km_word w' a = km_word w a) -> spaces_inv w' g.
Proof using. intros Hs E Hw. apply (spaces_frame w); rewrite ?E; auto; [apply Hs|apply same_range_refl]. Qed.

(** A change to one address space [r]: its tables grow by [N], one of its pages changes. *)
Lemma one_space w w' g g' r N T' V' : spaces_inv w g -> is_space g r ->
  pmm_inv (km_pmm w') -> same_range (km_pmm w) (km_pmm w') ->
  (forall y, free_at (km_pmm w') y -> free_at (km_pmm w) y \/ (g_tab g !! y = None /\ forall x kd, g_map g' !! x <> Some (y, kd))) ->
  words_kept w w' (fun t => tables_of g r t \/ t ∈ N) -> (forall t, t ∈ N -> free_at (km_pmm w) t) ->
  g_tab g' = g_tab (add_tabs g r N) ->
  vm_space w' r T' V' -> (forall t, T' t <-> tables_of g r t \/ t ∈ N) -> (forall k, V' k = view g' r k) ->
  (forall r' k, r' <> r -> view g' r' k = view g r' k) -> (forall k f kd, view g' r k = Some (f, kd) -> g_tab g !! f = None /\ f ∉ N) -> spaces_inv w' g'.
Proof using.
  intros Hs Hr Hpm Hsr Hf Hw HN Etab Hsp HT HV Hother Hfr. pose proof Hs as [[Hpm0 Hlim] Hspace Htab Hpage Hframe].
  assert (HNnone : forall t, t ∈ N -> g_tab g !! t = None).
  { intros t Ht. destruct (g_tab g !! t) as [r'|] eqn:E; [|done]. by destruct (si_table w g t r' Hs E) as [_ []]; apply HN. }
  assert (Hlk : forall t, g_tab g' !! t = if decide (t ∈ N) then Some r else g_tab g !! t) by (intros; rewrite Etab; apply add_tabs_lookup).
  assert (Hown : forall r', r' <> r -> forall t, tables_of g' r' t <-> tables_of g r' t).
  { intros r' Hne t. unfold tables_of. rewrite Hlk. case_decide as Hi; [rewrite (HNnone t Hi)|done]. split; [by intros [= <-]|done]. }
  assert (Hsame : forall r', is_space g' r' <-> is_space g r').
  { intros r'. unfold is_space. rewrite Hlk. case_decide as Hi; [|done]. rewrite (HNnone r' Hi). split; [|done]. intros [= <-]. unfold is_space in Hr. by rewrite (HNnone r Hi) in Hr. }
  split.
  - split; [done|]. destruct Hsr as (E1 & E2 & _). unfold page_addr. by rewrite E1, E2.
  - intros r' Hr'. apply Hsame in Hr'. destruct (decide (r' = r)) as [->|Hne].
    + apply (space_ext w' r T' _ V'); [done| |done]. intros t. rewrite HT. unfold tables_of. rewrite Hlk. case_decide as Hi; [|tauto]. rewrite (HNnone t Hi). tauto.
    + apply (space_ext w' r' (tables_of g r') _ (view g r')); [|intros t; by rewrite Hown|intros k; by rewrite Hother].
      apply (space_frame w w'); [by apply Hspace|done|done| |].
      * intros t a Ht Ha. apply Hw. intros u Hu Hua. assert (t = u) as ->.
        { apply (frames_apart t u a); [apply (si_table w g t r' Hs Ht)| |done|done].
          destruct Hu as [Hu|Hu]; [apply (si_table w g u r Hs Hu)|apply (free_at_page _ _ Hpm0 (HN u Hu))]. }
        unfold tables_of in *. destruct Hu as [Hu|Hu]; [congruence|]. rewrite (HNnone u Hu) in Ht. done.
      * intros y Hy. destruct (Hf y Hy) as [?|[H1 H2]]; [by left|]. right. split; [unfold tables_of; congruence|].
        intros k kd E. rewrite <- Hother in E by done. by apply (H2 (r', k) kd).
  - intros t r'. rewrite Hlk. case_decide; [intros [= <-]; by apply Hsame|]. intros Ht. apply Hsame. by apply (Htab t).
  - intros [r' k] v Hv. cbn. apply Hsame. destruct (decide (r' = r)) as [->|Hne]; [done|]. change (view g' r' k = Some v) in Hv.
    rewrite Hother in Hv by done. by apply (Hpage (r', k) v).
  - intros [r' k] f kd Hv. rewrite Hlk. change (view g' r' k = Some (f, kd)) in Hv. destruct (decide (r' = r)) as [->|Hne].
    + destruct (Hfr k f kd Hv) as [? ?]. by rewrite decide_False.
    + rewrite Hother in Hv by done. destruct (si_mapped w g r' k f kd Hs Hv) as (_ & _ & Hn & ?). rewrite decide_False; [done|]. intros Hi. by apply Hn, HN.
Qed.

(** The outcome of [vm_map]: new tables [N], and nothing but tables is written. *)
Record map_effect (w w' : kmem) (g : ghost) (r : Z) (N : list Z) : Prop := mk_me {
  me_pmm : pmm_inv (km_pmm w') /\ same_range (km_pmm w) (km_pmm w');
  me_shared : km_shared w' = km_shared w;
  me_new : NoDup N /\ forall t, t ∈ N -> free_at (km_pmm w) t;
  me_free y : free_at (km_pmm w') y -> free_at (km_pmm w) y /\ y ∉ N;
  me_count : pm_free_pages (km_pmm w') = pm_free_pages (km_pmm w) - Z.of_nat (length N);
  me_words : words_kept w w' (fun t => g_tab g !! t <> None \/ t ∈ N);
}.

Lemma view_put g r k v r' j : view (put_map g (r, k) v) r' j = if decide (r' = r) then vset (view g r) k (Some v) j else view g r' j.
Proof using.
  unfold view, put_map, vset. cbn. case_decide as E; [subst r'; destruct (Z.eqb_spec j k) as [->|]; [by rewrite lookup_insert_eq|rewrite lookup_insert_ne; congruence]|].
  rewrite lookup_insert_ne; congruence.
Qed.
Lemma view_del g r k r' j : view (del_map g (r, k)) r' j = if decide (r' = r) then vset (view g r) k None j else view g r' j.
Proof using.
  unfold view, del_map, vset. cbn. case_decide as E; [subst r'; destruct (Z.eqb_spec j k) as [->|]; [by rewrite lookup_delete_eq|rewrite lookup_delete_ne; congruence]|].
  rewrite lookup_delete_ne; congruence.
Qed.

Lemma map_spaces w g r k pa : spaces_inv w g -> is_space g r -> vm_page k -> is_page pa -> ~ free_at (km_pmm w) pa -> g_tab g !! pa = None ->
  exists z w' N, vm_map w r (k * PAGE_SIZE) pa = Some (z, w') /\ map_effect w w' g r N /\
    ((z = 0 /\ g_map g !! (r, k) = None /\ spaces_inv w' (put_map (add_tabs g r N) (r, k) (pa, Private))) \/
     (z = -1 /\ spaces_inv w' (add_tabs g r N) /\ (g_map g !! (r, k) <> None \/ forall x, ~ free_at (km_pmm w') x))).
Proof using.
  intros Hs Hr Hk Hpg Hnf Hnt. pose proof (si_space _ _ Hs r Hr) as Hsp.
  destruct (map_law w r (tables_of g r) (view g r) k pa Hsp Hk Hpg Hnf) as (z & w' & N & E & [Hp Hsh Hn Hfr Hc Hwd] & Hz); [unfold tables_of; congruence|].
  exists z, w', N. split; [done|]. split.
  { split; try done. intros a Ha. apply Hwd. intros t [Ht|Ht]; apply Ha; [left; unfold tables_of in Ht; by rewrite Ht|by right]. }
  assert (HfN : forall f, ~ free_at (km_pmm w) f -> f ∉ N) by (intros f Hnf' Hi; by apply Hnf', Hn).
  destruct Hz as [(-> & Hv & Hsp')|(-> & Hsp' & Hwhy)]; [left|right]; (split; [done|]).
  - split; [done|]. eapply (one_space w w' g _ r N); try exact Hsp'; try done; try apply Hp; try apply Hn.
    + intros y Hy. left. by apply Hfr.
    + intros j. rewrite view_put, decide_True by done. done.
    + intros r' j Hne. by rewrite view_put, decide_False by done.
    + intros j f kd. rewrite view_put, decide_True by done. unfold vset. destruct (j =? k); [intros [= <- _]; split; [done|by apply HfN]|].
      intros Hj. destruct (si_mapped w g r j f kd Hs Hj) as (_ & _ & ? & ?). split; [done|by apply HfN].
  - split; [|done]. eapply (one_space w w' g _ r N); try exact Hsp'; try done; try apply Hp; try apply Hn.
    + intros y Hy. left. by apply Hfr.
    + intros j f kd Hj. destruct (si_mapped w g r j f kd Hs Hj) as (_ & _ & ? & ?). split; [done|by apply HfN].
Qed.

Lemma no_new_tables g r : g_tab g = g_tab (add_tabs g r []).
Proof using. done. Qed.

Lemma mark_spaces w w' g r k f kd kd' : spaces_inv w g -> g_map g !! (r, k) = Some (f, kd) -> km_pmm w' = km_pmm w -> words_kept w w' (tables_of g r) ->
  vm_space w' r (tables_of g r) (vset (view g r) k (Some (f, kd'))) -> spaces_inv w' (put_map g (r, k) (f, kd')).
Proof using.
  intros Hs Hm Epm Hw Hsp. destruct (si_mapped w g r k f kd Hs Hm) as (_ & _ & _ & Hn).
  apply (one_space w w' g _ r [] (tables_of g r) (vset (view g r) k (Some (f, kd')))); rewrite ?Epm; try done.
  - by apply (si_page _ _ Hs (r, k) (f, kd)).
  - apply Hs.
  - intros y Hy. by left.
  - intros a Ha. apply Hw. intros t Ht. apply Ha. by left.
  - intros t Ht. by apply elem_of_nil in Ht.
  - intros t. rewrite elem_of_nil. tauto.
  - intros j. by rewrite view_put, decide_True by done.
  - intros r' j Hne. by rewrite view_put, decide_False by done.
  - intros j f' kd'' Hj. rewrite elem_of_nil. split; [|tauto]. rewrite view_put, decide_True in Hj by done. unfold vset in Hj. destruct (j =? k); [by injection Hj as <- _|].
    by apply (si_frame _ _ Hs (r, j) f' kd'').
Qed.

Lemma unmap_spaces w g r k f kd w1 : spaces_inv w g -> g_map g !! (r, k) = Some (f, kd) ->
  release_page w f (bool_decide (kd = Device)) (bool_decide (kd = Shared)) = Some w1 ->
  pmm_inv (km_pmm w1) -> same_range (km_pmm w) (km_pmm w1) -> (forall y, free_at (km_pmm w1) y -> free_at (km_pmm w) y \/ y = f) ->
  ((forall y, free_at (km_pmm w1) y -> free_at (km_pmm w) y) \/ (forall x kd', x <> (r, k) -> g_map g !! x <> Some (f, kd'))) ->
  exists w', vm_unmap w r (k * PAGE_SIZE) = Some (1, w') /\ km_pmm w' = km_pmm w1 /\ km_shared w' = km_shared w1 /\
    words_kept w w' (fun t => g_tab g !! t <> None) /\ spaces_inv w' (del_map g (r, k)).
Proof using.
  intros Hs Hm Hrel Hpm Hsr Hfree Hsole. pose proof (si_page _ _ Hs _ _ Hm) as Hr. cbn in Hr. pose proof (si_space _ _ Hs r Hr) as Hsp.
  destruct (si_mapped w g r k f kd Hs Hm) as (_ & _ & _ & Hn).
  destruct (unmap_law w r (tables_of g r) (view g r) k f kd w1 Hsp Hm Hrel Hpm Hsr Hfree) as (w' & E & Ep & Es & Hw & Hsp').
  { destruct Hsole as [?|Hso]; [by left|]. right. intros j kd' Hj. apply Hso. congruence. }
  exists w'. split; [done|]. split; [done|]. split; [done|]. split.
  { intros a Ha. apply Hw. intros t Ht. apply Ha. unfold tables_of in Ht. by rewrite Ht. }
  apply (one_space w w' g _ r [] (tables_of g r) (vset (view g r) k None)); rewrite ?Ep; try done.
  - intros y Hy. destruct Hsole as [Hno|Hso]; [left; by apply Hno|]. destruct (Hfree y Hy) as [?| ->]; [by left|]. right. split; [done|].
    intros x kd'. unfold del_map. cbn. rewrite lookup_delete_Some. intros [Hne Hx]. by apply (Hso x kd').
  - intros a Ha. apply Hw. intros t Ht. apply Ha. by left.
  - intros t Ht. by apply elem_of_nil in Ht.
  - intros t. rewrite elem_of_nil. tauto.
  - intros j. by rewrite view_del, decide_True by done.
  - intros r' j Hne. by rewrite view_del, decide_False by done.
  - intros j f' kd' Hj. rewrite elem_of_nil. split; [|tauto]. rewrite view_del, decide_True in Hj by done. unfold vset in Hj. destruct (j =? k); [done|].
    by apply (si_frame _ _ Hs (r, j) f' kd').
Qed.
End spaces.

(** ** Counting mappings *)

Definition cnt (P : Z * pkind -> Prop) `{!forall v, Decision (P v)} (M : gmap (Z * Z) (Z * pkind)) : nat := size (filter (fun xv => P xv.2) M).

Section cnt.
Context (P : Z * pkind -> Prop) `{!forall v, Decision (P v)}.
Lemma cnt_insert M x v : M !! x = None -> cnt P (<[x := v]> M) = (cnt P M + if decide (P v) then 1 else 0)%nat.
Proof.
  intros Hx. unfold cnt. case_decide as Hp.
  - rewrite map_filter_insert_True by done. rewrite map_size_insert_None; [lia|]. apply map_lookup_filter_None. by left.
  - rewrite map_filter_insert_False by done. rewrite delete_id by done. lia.
Qed.
Lemma cnt_delete M x v : M !! x = Some v -> cnt P M = (cnt P (delete x M) + if decide (P v) then 1 else 0)%nat.
Proof. intros Hx. rewrite <- (insert_delete_id M x v Hx) at 1. by rewrite cnt_insert by apply lookup_delete_eq. Qed.
Lemma cnt_zero M : cnt P M = 0%nat <-> forall x v, M !! x = Some v -> ~ P v.
Proof.
  unfold cnt. rewrite map_size_empty_iff. split.
  - intros E x v Hx Hp. assert (Hf : filter (fun xv : Z * Z * (Z * pkind) => P xv.2) M !! x = Some v) by (by apply map_lookup_filter_Some_2). rewrite E in Hf. done.
  - intros Hn. apply map_empty. intros x. destruct (filter _ M !! x) as [v|] eqn:E; [|done]. apply map_lookup_filter_Some in E as [Hx Hp]. by destruct (Hn x v Hx).
Qed.
End cnt.

Definition nshared (g : ghost) (f : Z) : nat := cnt (eq (f, Shared)) (g_map g).
Definition nprivate (g : ghost) : nat := cnt (fun v => v.2 = Private) (g_map g).

(** ** The owners of the frames *)

Record frames_inv (pm : pmm_t) (m : refcounts) (g : ghost) (total : Z) : Prop := mk_fi {
  fi_private x y f kd : g_map g !! x = Some (f, Private) -> g_map g !! y = Some (f, kd) -> x = y;
  fi_kinds x y f kd : g_map g !! x = Some (f, Shared) -> g_map g !! y = Some (f, kd) -> kd = Shared;
  fi_ref f : m !! f = if decide (nshared g f = 0%nat) then None else Some (Z.of_nat (nshared g f));
  fi_owned x f kd : g_map g !! x = Some (f, kd) -> kd <> Device -> owned pm f;
  fi_tables t r : g_tab g !! t = Some r -> owned pm t;
  fi_total : pm_free_pages pm + Z.of_nat (size (g_tab g)) + Z.of_nat (nprivate g) + Z.of_nat (size m) = total;
}.

(** A page in no one's hands yet. *)
Record limbo (w : kmem) (g : ghost) (x : Z) : Prop := mk_limbo {
  li_page : is_page x;
  li_owned : owned (km_pmm w) x;
  li_table : g_tab g !! x = None;
  li_map y kd : g_map g !! y <> Some (x, kd);
}.

Section frames.
Context {VO : vm_ops} {VL : vm_laws}.

Record mem_inv (w : kmem) (m : refcounts) (g : ghost) (total : Z) : Prop := mk_mi {
  mi_spaces : spaces_inv w g;
  mi_frames : frames_inv (km_pmm w) m g total;
  mi_rep : sp_rep (km_shared w) m;
}.

Lemma frames_pmm pm pm' m g n n' : frames_inv pm m g n -> same_range pm pm' ->
  (forall y, free_at pm' y -> free_at pm y \/ (g_tab g !! y = None /\ forall x kd, g_map g !! x <> Some (y, kd))) ->
  n' - n = pm_free_pages pm' - pm_free_pages pm -> frames_inv pm' m g n'.
Proof using.
  intros [H1 H2 H3 H4 H5 H6] Hsr Hf Hn. split; try done.
  - intros x f kd Hx Hk. apply (owned_change pm pm'); [done|by apply (H4 x f kd)|]. intros Hc. destruct (Hf f Hc) as [Hy|[_ Hy]]; [|by apply (Hy x kd)].
    by apply (owned_not_free pm f (H4 x f kd Hx Hk)).
  - intros t r Ht. apply (owned_change pm pm'); [done|by apply (H5 t r)|]. intros Hc. destruct (Hf t Hc) as [Hy|[Hy _]]; [|congruence].
    by apply (owned_not_free pm t (H5 t r Ht)).
  - lia.
Qed.

Lemma alloc_mem w m g n : mem_inv w m g n ->
  (pmm_alloc_pages (km_pmm w) 1 = Some (0, km_pmm w) /\ forall x, ~ free_at (km_pmm w) x) \/
  exists x pm', pmm_alloc_pages (km_pmm w) 1 = Some (x, pm') /\ x <> 0 /\ free_at (km_pmm w) x /\ (forall y, free_at pm' y <-> free_at (km_pmm w) y /\ y <> x) /\
    mem_inv (set_pmm w pm') m g (n - 1) /\ limbo (set_pmm w pm') g x.
Proof using.
  intros [Hs Hf Hrep]. destruct (si_pmm _ _ Hs) as [Hpm Hlim]. destruct (alloc_one (km_pmm w) Hpm) as [?|(x & pm' & E & Hx & Hfx & Hpm' & Hsr & Hc & Hiff)]; [by left|right].
  exists x, pm'. assert (Hfree : forall y, free_at pm' y -> free_at (km_pmm w) y) by (intros y Hy; by apply Hiff).
  split; [done|]. split; [done|]. split; [done|]. split; [done|]. split; [split|split].
  - apply (spaces_frame w); [done|done|done|done|]. intros y Hy. left. by apply Hfree.
  - apply (frames_pmm (km_pmm w) pm' m g n); [done|done|intros y Hy; left; by apply Hfree|lia].
  - done.
  - destruct (free_at_page _ _ Hpm Hfx) as [Hr Hal]. split; [|done]. destruct Hfx as (i & Hi & -> & _). unfold page_addr in *. lia.
  - apply (taken_owned (km_pmm w)); [done|done|done|]. cbn. rewrite Hiff. tauto.
  - destruct (g_tab g !! x) as [r|] eqn:Et; [|done]. by destruct (si_table w g x r Hs Et) as [_ []].
  - intros [r k] kd Hy. by destruct (si_mapped w g r k x kd Hs Hy) as (_ & _ & [] & _).
Qed.

Lemma words_mem w w' m g n : mem_inv w m g n -> km_pmm w' = km_pmm w -> km_shared w' = km_shared w ->
  (forall t r a, g_tab g !! t = Some r -> in_frame t a -> km_word w' a = km_word w a) -> mem_inv w' m g n.
Proof using. intros [Hs Hf Hrep] E1 E2 Hw. split; [by apply (words_spaces w)|by rewrite E1|by rewrite E2]. Qed.

(** Writing a frame that is not a table. *)
Lemma frame_mem w w' m g n f : mem_inv w m g n -> km_pmm w' = km_pmm w -> km_shared w' = km_shared w -> f mod PAGE_SIZE = 0 -> g_tab g !! f = None ->
  (forall a, ~ in_frame f a -> km_word w' a = km_word w a) -> mem_inv w' m g n.
Proof using.
  intros Hi E1 E2 Hal Hf Hw. apply (words_mem w); try done. intros t r a Ht Ha. apply Hw. intros Hc.
  rewrite (frames_apart f t a) in Hf; [congruence|done|apply (si_table w g t r (mi_spaces _ _ _ _ Hi) Ht)|done|done].
Qed.

Lemma free_mem w m g n x : mem_inv w m g n -> limbo w g x -> exists pm', free_one_page w x = Some (set_pmm w pm') /\ mem_inv (set_pmm w pm') m g (n + 1) /\
  (forall y, free_at pm' y <-> free_at (km_pmm w) y \/ y = x).
Proof using.
  intros [Hs Hf Hrep] [[Hpg Hal] Hown Htab Hmap]. destruct (si_pmm _ _ Hs) as [Hpm Hlim].
  destruct (free_one_spec (km_pmm w) x Hpm ltac:(lia)) as (ok & pm' & E & Hpm' & Hsr & Hok). destruct Hown as (i & Hi).
  destruct (pmm_free_pages_accepts (km_pmm w) x 1 i Hpm ltac:(lia) Hi) as (p2 & E2 & _). rewrite E in E2. injection E2 as -> <-. destruct Hok as (_ & Hiff & Hc).
  exists pm'. unfold free_one_page. rewrite E. cbn [mbind option_bind]. split; [done|].
  assert (Hfree : forall y, free_at pm' y -> free_at (km_pmm w) y \/ g_tab g !! y = None /\ forall z kd, g_map g !! z <> Some (y, kd)).
  { intros y [?| ->]%Hiff; [by left|by right]. }
  split; [|done]. split; [by apply (spaces_frame w)|apply (frames_pmm (km_pmm w) pm' m g n); [done|done|done|cbn; lia]|done].
Qed.
End frames.

(** ** Changes to the owners *)

Ltac entry_cases := intros; repeat match goal with H : _ \/ _ |- _ => destruct H | H : _ /\ _ |- _ => destruct H end;
  repeat match goal with H : (_, _) = (_, _) |- _ => injection H; clear H; intros; try subst end; subst; try done; try congruence; try (by eauto);
  match goal with H : forall y kd, _ !! _ <> _, E : _ !! _ = Some _ |- _ => by destruct (H _ _ E) | H : forall y kd, _ !! _ = _ -> _, E : _ !! _ = Some _ |- _ => by apply H in E end.

Section changes.
Context {VO : vm_ops} {VL : vm_laws}.

(** New tables take free pages. *)
Lemma frames_grow w w' g r N m n : spaces_inv w g -> frames_inv (km_pmm w) m g n -> map_effect w w' g r N ->
  (forall t, t ∈ N -> owned (km_pmm w') t) -> frames_inv (km_pmm w') m (add_tabs g r N) n.
Proof using.
  intros Hs [H1 H2 H3 H4 H5 H6] [[_ Hsr] _ [Hnd HN] Hf Hc _] HoN. split; try done.
  - intros x f kd Hx Hk. apply (owned_change (km_pmm w)); [done|by apply (H4 x f kd)|]. intros Hc'. apply (owned_not_free _ _ (H4 x f kd Hx Hk)). by apply Hf.
  - intros t r'. rewrite add_tabs_lookup. case_decide as Hi; [intros _; by apply HoN|]. intros Ht.
    apply (owned_change (km_pmm w)); [done|by apply (H5 t r')|]. intros Hc'. apply (owned_not_free _ _ (H5 t r' Ht)). by apply Hf.
  - rewrite add_tabs_size; [cbn [add_tabs g_map nprivate]; change (nprivate (add_tabs g r N)) with (nprivate g); lia|done|].
    intros t Ht. destruct (g_tab g !! t) as [r'|] eqn:E; [|done]. by destruct (si_table w g t r' Hs E) as [_ []]; apply HN.
Qed.

Lemma nshared_put g x f kd y : g_map g !! x = None ->
  nshared (put_map g x (f, kd)) y = (nshared g y + if decide (kd = Shared /\ y = f) then 1 else 0)%nat.
Proof using.
  intros Hx. unfold nshared, put_map. cbn. rewrite cnt_insert by done. f_equal. repeat case_decide; naive_solver.
Qed.
Lemma nshared_del g x f kd y : g_map g !! x = Some (f, kd) ->
  nshared g y = (nshared (del_map g x) y + if decide (kd = Shared /\ y = f) then 1 else 0)%nat.
Proof using.
  intros Hx. unfold nshared, del_map. cbn. rewrite (cnt_delete _ (g_map g) x (f, kd)) by done. f_equal. repeat case_decide; naive_solver.
Qed.
Lemma nprivate_put g x f kd : g_map g !! x = None -> nprivate (put_map g x (f, kd)) = (nprivate g + if decide (kd = Private) then 1 else 0)%nat.
Proof using. intros Hx. unfold nprivate, put_map. cbn. rewrite cnt_insert by done. done. Qed.
Lemma nprivate_del g x f kd : g_map g !! x = Some (f, kd) -> nprivate g = (nprivate (del_map g x) + if decide (kd = Private) then 1 else 0)%nat.
Proof using. intros Hx. unfold nprivate, del_map. cbn. rewrite (cnt_delete _ (g_map g) x (f, kd)) by done. done. Qed.
Lemma nshared_unmapped g f : (forall y, g_map g !! y <> Some (f, Shared)) -> nshared g f = 0%nat.
Proof using. intros H. apply cnt_zero. intros x v Hx <-. by apply (H x). Qed.
Lemma nshared_mapped g x f : g_map g !! x = Some (f, Shared) -> nshared g f <> 0%nat.
Proof using. intros H E. apply cnt_zero with (x := x) (v := (f, Shared)) in E; done. Qed.

(** A page no one maps becomes the private page of a mapping. *)
Lemma frames_private pm m g n x f : frames_inv pm m g n -> owned pm f -> g_map g !! x = None -> (forall y kd, g_map g !! y <> Some (f, kd)) ->
  frames_inv pm m (put_map g x (f, Private)) (n + 1).
Proof using.
  intros [H1 H2 H3 H4 H5 H6] Ho Hx Hm. split; cbn [put_map g_map g_tab].
  - intros y z h kd. rewrite !lookup_insert_Some. entry_cases.
  - intros y z h kd. rewrite !lookup_insert_Some. entry_cases.
  - intros h. rewrite nshared_put by done. rewrite (decide_False (P := Private = Shared /\ h = f)) by (intros [? ?]; congruence). rewrite Nat.add_0_r. apply H3.
  - intros y h kd. rewrite lookup_insert_Some. entry_cases.
  - done.
  - rewrite nprivate_put, decide_True by done. lia.
Qed.

(** ... or a page with one more reference. *)
Lemma frames_shared pm m g n x f : frames_inv pm m g n -> owned pm f -> g_map g !! x = None -> (forall y kd, g_map g !! y = Some (f, kd) -> kd = Shared) ->
  frames_inv pm (<[f := Z.of_nat (nshared g f) + 1]> m) (put_map g x (f, Shared)) (n + if decide (nshared g f = 0%nat) then 1 else 0).
Proof using.
  intros [H1 H2 H3 H4 H5 H6] Ho Hx Hm. split; cbn [put_map g_map g_tab].
  - intros y z h kd. rewrite !lookup_insert_Some. entry_cases.
  - intros y z h kd. rewrite !lookup_insert_Some. entry_cases.
  - intros h. rewrite nshared_put by done. destruct (decide (h = f)) as [->|Hne].
    + rewrite lookup_insert_eq. rewrite (decide_True (P := Shared = Shared /\ f = f)) by done. rewrite decide_False by lia. f_equal. lia.
    + rewrite lookup_insert_ne by done. rewrite (decide_False (P := Shared = Shared /\ h = f)) by (intros [? ?]; congruence). rewrite Nat.add_0_r. apply H3.
  - intros y h kd. rewrite lookup_insert_Some. entry_cases.
  - done.
  - rewrite nprivate_put, decide_False by done. specialize (H3 f). case_decide.
    + rewrite map_size_insert_None by done. lia.
    + rewrite map_size_insert_Some by (by eexists). lia.
Qed.

(** ... or a page of a device buffer. *)
Lemma frames_device pm m g n x f : frames_inv pm m g n -> g_map g !! x = None -> (forall y kd, g_map g !! y = Some (f, kd) -> kd = Device) ->
  frames_inv pm m (put_map g x (f, Device)) n.
Proof using.
  intros [H1 H2 H3 H4 H5 H6] Hx Hm. split; cbn [put_map g_map g_tab].
  - intros y z h kd. rewrite !lookup_insert_Some. entry_cases.
  - intros y z h kd. rewrite !lookup_insert_Some. entry_cases.
  - intros h. rewrite nshared_put by done. rewrite (decide_False (P := Device = Shared /\ h = f)) by (intros [? ?]; congruence). rewrite Nat.add_0_r. apply H3.
  - intros y h kd. rewrite lookup_insert_Some. entry_cases.
  - done.
  - rewrite nprivate_put, decide_False by done. lia.
Qed.

(** The end of a mapping. *)
Definition after_unmap (m : refcounts) (f : Z) (kd : pkind) : refcounts :=
  match kd with
  | Shared => match m !! f with Some c => if 1 <? c then <[f := c - 1]> m else delete f m | None => m end
  | _ => m
  end.
Lemma frames_del pm m g n x f kd : frames_inv pm m g n -> g_map g !! x = Some (f, kd) ->
  frames_inv pm (after_unmap m f kd) (del_map g x) (n - if decide (kd = Private \/ kd = Shared /\ nshared g f = 1%nat) then 1 else 0).
Proof using.
  intros [H1 H2 H3 H4 H5 H6] Hx. split; cbn [del_map g_map g_tab].
  - intros y z h kd'. rewrite !lookup_delete_Some. entry_cases.
  - intros y z h kd'. rewrite !lookup_delete_Some. entry_cases.
  - intros h. pose proof (nshared_del g x f kd h Hx) as E. specialize (H3 h). rewrite E in H3. unfold after_unmap.
    destruct kd; [rewrite (decide_False (P := Private = Shared /\ h = f)) in H3 by (intros [? ?]; congruence); by rewrite Nat.add_0_r in H3| |rewrite (decide_False (P := Device = Shared /\ h = f)) in H3 by (intros [? ?]; congruence); by rewrite Nat.add_0_r in H3].
    destruct (decide (h = f)) as [->|Hne].
    + rewrite (decide_True (P := Shared = Shared /\ f = f)) in H3 by done. rewrite decide_False in H3 by lia. rewrite H3.
      destruct (Z.ltb_spec 1 (Z.of_nat (nshared (del_map g x) f + 1))), (decide (nshared (del_map g x) f = 0%nat)); try lia; [rewrite lookup_insert_eq; f_equal; lia|by rewrite lookup_delete_eq].
    + rewrite (decide_False (P := Shared = Shared /\ h = f)) in H3 by (intros [? ?]; congruence). rewrite Nat.add_0_r in H3. rewrite <- H3.
      destruct (m !! f) as [c|]; [|done]. destruct (1 <? c); [by rewrite lookup_insert_ne|by rewrite lookup_delete_ne].
  - intros y h kd'. rewrite lookup_delete_Some. entry_cases.
  - done.
  - pose proof (nprivate_del g x f kd Hx) as E. pose proof (nshared_del g x f kd f Hx) as E'. specialize (H3 f). unfold after_unmap. destruct kd.
    + rewrite (decide_True (P := Private = Private)) in E by done. rewrite decide_True by (by left). lia.
    + rewrite (decide_False (P := Shared = Private)) in E by done. rewrite (decide_True (P := Shared = Shared /\ f = f)) in E' by done. rewrite decide_False in H3 by lia. rewrite H3.
      destruct (Z.ltb_spec 1 (Z.of_nat (nshared g f))).
      * rewrite decide_False by (intros [?|[_ ?]]; [done|lia]). rewrite map_size_insert_Some by (by eexists). lia.
      * rewrite decide_True by (right; split; [done|lia]). rewrite map_size_delete_Some by (by eexists).
        assert (size m <> 0%nat). { intros E0%map_size_empty_inv. subst m. by rewrite lookup_empty in H3. } lia.
    + rewrite decide_False in E by done. rewrite decide_False by (intros [?|[? _]]; done). lia.
Qed.
End changes.

(** ** One page at a time *)

Section pages.
Context {VO : vm_ops} {VL : vm_laws}.

Lemma limbo_not_free w g x : limbo w g x -> ~ free_at (km_pmm w) x.
Proof using. intros [_ Ho _ _]. by apply owned_not_free. Qed.

(** [w'] and [g'] differ from [w] and [g] at the pages [K] of the address space [r], and in the frames [W]. *)
Record effect (w : kmem) (g : ghost) (w' : kmem) (g' : ghost) (r : Z) (K W : Z -> Prop) : Prop := mk_ef {
  ef_space r' : is_space g' r' <-> is_space g r';
  ef_view r' k : r' <> r \/ ~ K k -> view g' r' k = view g r' k;
  ef_words x f kd a : x.1 <> r \/ ~ K x.2 -> g_map g !! x = Some (f, kd) -> ~ W f -> in_frame f a -> km_word w' a = km_word w a;
}.

Lemma effect_refl w g r K W : effect w g w g r K W.
Proof using. by split. Qed.
Lemma effect_compose w g w1 g1 w2 g2 r K W : effect w g w1 g1 r K W -> effect w1 g1 w2 g2 r K W -> effect w g w2 g2 r K W.
Proof using.
  intros [A1 A2 A3] [B1 B2 B3]. split.
  - intros r'. by rewrite B1.
  - intros r' k H. by rewrite B2, A2.
  - intros x f kd a H Hx HW Ha. rewrite (B3 x f kd a), (A3 x f kd a); try done. destruct x as [r' k]. change (view g1 r' k = Some (f, kd)). by rewrite A2.
Qed.
Lemma effect_mono w g w' g' r (K K' W W' : Z -> Prop) : effect w g w' g' r K W -> (forall k, K k -> K' k) -> (forall f, W f -> W' f) -> effect w g w' g' r K' W'.
Proof using. intros [A1 A2 A3] HK HW. split; [done|intros r' k [?|?]; apply A2; [by left|right; auto]|intros x f kd a [?|?] ? ?; apply (A3 x f kd a); auto]. Qed.

(** Words of frames in use are not words of tables, old or new. *)
Lemma map_words w w' g r N f a : spaces_inv w g -> map_effect w w' g r N -> f mod PAGE_SIZE = 0 -> ~ free_at (km_pmm w) f -> g_tab g !! f = None ->
  in_frame f a -> km_word w' a = km_word w a.
Proof using.
  intros Hs [_ _ [_ HN] _ _ Hw] Hal Hnf Hnt Ha. apply Hw. intros t Ht Hta. assert (f = t) as <-.
  { apply (frames_apart f t a); [done| |done|done]. destruct Ht as [Ht|Ht].
    - destruct (g_tab g !! t) as [r''|] eqn:E; [|done]. apply (si_table w g t r'' Hs E).
    - apply (free_at_page _ _ (proj1 (si_pmm _ _ Hs)) (HN t Ht)). }
  destruct Ht as [Ht|Ht]; [congruence|]. by apply Hnf, HN.
Qed.
Lemma map_effect_words w w' g r N x f kd a : spaces_inv w g -> map_effect w w' g r N -> g_map g !! x = Some (f, kd) -> in_frame f a -> km_word w' a = km_word w a.
Proof using.
  intros Hs He Hx. destruct x as [r' k]. destruct (si_mapped w g r' k f kd Hs Hx) as (_ & [_ Hal] & Hnf & Hnt). by apply (map_words w w' g r N).
Qed.
Lemma limbo_map_words w w' g r N x a : spaces_inv w g -> map_effect w w' g r N -> limbo w g x -> in_frame x a -> km_word w' a = km_word w a.
Proof using. intros Hs He Hl. apply (map_words w w' g r N); [done|done|apply Hl|by apply (limbo_not_free w g)|apply Hl]. Qed.

Lemma add_tabs_space w g r N : spaces_inv w g -> is_space g r -> (forall t, t ∈ N -> free_at (km_pmm w) t) -> forall r', is_space (add_tabs g r N) r' <-> is_space g r'.
Proof using.
  intros Hs Hr HN r'. unfold is_space. rewrite add_tabs_lookup. case_decide as Hi; [|done]. split.
  - intros [= <-]. exfalso. by destruct (si_table w g r r Hs Hr) as [_ []]; apply HN.
  - intros E. exfalso. by destruct (si_table w g r' r' Hs E) as [_ []]; apply HN.
Qed.

Lemma grow_effect w w' g r N K W : spaces_inv w g -> is_space g r -> map_effect w w' g r N -> effect w g w' (add_tabs g r N) r K W.
Proof using.
  intros Hs Hr He. split; [apply (add_tabs_space w); [done|done|apply He]|done|]. intros x f kd a _ Hx _ Ha. by apply (map_effect_words w w' g r N x f kd).
Qed.

(** A private mapping of a page in no one's hands. *)
Lemma limbo_grow w w' g r N x : limbo w g x -> map_effect w w' g r N -> limbo w' (add_tabs g r N) x.
Proof using.
  intros Hl He. pose proof (limbo_not_free _ _ _ Hl) as Hnf. destruct Hl as [Hp Ho Ht Hm]. split; try done.
  - apply (owned_change (km_pmm w)); [apply He|done|]. intros Hc. by apply Hnf, (me_free _ _ _ _ _ He).
  - rewrite add_tabs_lookup. case_decide as Hi; [|done]. by destruct Hnf; apply (me_new _ _ _ _ _ He).
Qed.
Lemma grow_frames w w' m g r N n : spaces_inv w g -> frames_inv (km_pmm w) m g n -> map_effect w w' g r N -> frames_inv (km_pmm w') m (add_tabs g r N) n.
Proof using.
  intros Hs Hf He. apply (frames_grow w); [done|done|done|]. intros t Ht. apply (taken_owned (km_pmm w)); [apply (si_pmm _ _ Hs)|apply He|by apply (me_new _ _ _ _ _ He)|].
  intros Hc. by destruct (me_free _ _ _ _ _ He t Hc).
Qed.
End pages.

(** ** The end of a mapping *)

Section unmap.
Context {VO : vm_ops} {VL : vm_laws}.

Lemma page_valid f : is_page f -> sp_valid f = true.
Proof using.
  intros [Hr Hal]. unfold sp_valid. rewrite (proj2 (Z.eqb_neq f 0)) by lia. change (PAGE_SIZE - 1) with (Z.ones 12). rewrite Z.land_ones by lia.
  change (2 ^ 12) with PAGE_SIZE. by rewrite Hal.
Qed.

(** What the release of the frame of a mapping does. *)
Lemma release_frame1 ps m g n x f kd : pmm_inv ps.1 -> frames_inv ps.1 m g n -> sp_rep ps.2 m -> is_page f -> g_map g !! x = Some (f, kd) -> kd <> Device ->
  exists pm s, release1 ps (f, bool_decide (kd = Shared)) = Some (pm, s) /\
    pmm_inv pm /\ same_range ps.1 pm /\ sp_rep s (after_unmap m f kd) /\
    (if decide (kd = Private \/ kd = Shared /\ nshared g f = 1%nat)
     then (forall y, free_at pm y <-> free_at ps.1 y \/ y = f) /\ pm_free_pages pm = pm_free_pages ps.1 + 1
     else pm = ps.1).
Proof using.
  intros Hpm Hf Hrep Hp Hx Hk. pose proof (proj1 Hp) as Hr. assert (0 <= f < U64_MOD) as Hr64 by lia.
  destruct (free_one_spec ps.1 f Hpm Hr64) as (ok & pm & E & Hpm' & Hsr & Hok).
  assert ((forall y, free_at pm y <-> free_at ps.1 y \/ y = f) /\ pm_free_pages pm = pm_free_pages ps.1 + 1) as Hfree.
  { destruct (fi_owned _ _ _ _ Hf x f kd Hx Hk) as [i Hi]. destruct (pmm_free_pages_accepts ps.1 f 1 i Hpm ltac:(lia) Hi) as (p2 & E2 & _).
    rewrite E in E2. injection E2 as -> <-. destruct Hok as (_ & ? & ?). done. }
  unfold release1. destruct kd; [..|done]; cbn [fst snd].
  - rewrite bool_decide_false by done. cbn [negb]. rewrite E. cbn [mbind option_bind]. exists pm, ps.2. rewrite decide_True by (by left). auto 6.
  - rewrite bool_decide_true by done. cbn [negb]. destruct (sp_unref_refines ps.2 m ps.1 f Hrep) as (s & m' & pm2 & -> & Es & Hrep').
    cbn [mbind option_bind]. exists pm2, s. split; [done|]. unfold spec_unref in Es. rewrite (page_valid f Hp) in Es. cbn [negb] in Es.
    pose proof (fi_ref _ _ _ _ Hf f) as Ec. rewrite decide_False in Ec by (by apply (nshared_mapped g x)). rewrite Ec in Es. unfold after_unmap. rewrite Ec.
    destruct (Z.ltb_spec 1 (Z.of_nat (nshared g f))).
    + injection Es as <- <-. rewrite decide_False by (intros [?|[_ ?]]; [done|lia]). auto using same_range_refl.
    + rewrite E in Es. cbn in Es. injection Es as <- <-. pose proof (nshared_mapped g x f Hx). rewrite decide_True by (right; split; [done|lia]). auto 6.
Qed.

Lemma release_frame w m g n x f kd : mem_inv w m g n -> g_map g !! x = Some (f, kd) ->
  exists pm s, release_page w f (bool_decide (kd = Device)) (bool_decide (kd = Shared)) = Some (set_shared (set_pmm w pm) s) /\
    pmm_inv pm /\ same_range (km_pmm w) pm /\ sp_rep s (after_unmap m f kd) /\
    (if decide (kd = Private \/ kd = Shared /\ nshared g f = 1%nat)
     then (forall y, free_at pm y <-> free_at (km_pmm w) y \/ y = f) /\ pm_free_pages pm = pm_free_pages (km_pmm w) + 1
     else pm = km_pmm w).
Proof using.
  intros [Hs Hf Hrep] Hx. pose proof (proj1 (si_pmm _ _ Hs)) as Hpm. unfold release_page. destruct (decide (kd = Device)) as [->|Hk].
  - rewrite bool_decide_true by done. exists (km_pmm w), (km_shared w). rewrite decide_False by (intros [?|[? _]]; done). split; [by destruct w|]. auto using same_range_refl.
  - rewrite bool_decide_false by done. destruct x as [r k]. destruct (si_mapped w g r k f kd Hs Hx) as (_ & Hp & _).
    destruct (release_frame1 (kst w) m g n (r, k) f kd Hpm Hf Hrep Hp Hx Hk) as (pm & s & E & H). exists pm, s. split; [|exact H].
    unfold release1, kst in E. cbn [fst snd] in E. destruct (bool_decide (kd = Shared)); cbn [negb] in *.
    + destruct (shared_page_unref _ _ _) as [[s' pm']|]; [|done]. cbn in E. by injection E as -> ->.
    + destruct (pmm_free_pages _ _ _) as [[ok pm']|]; [|done]. cbn in E. by injection E as -> <-.
Qed.

(** The frame of the last shared mapping, or of a private one, has no other mapping. *)
Lemma last_mapping pm m g n x f kd : frames_inv pm m g n -> g_map g !! x = Some (f, kd) -> (kd = Private \/ kd = Shared /\ nshared g f = 1%nat) ->
  forall y kd', y <> x -> g_map g !! y <> Some (f, kd').
Proof using.
  intros Hf Hx Hk y kd' Hne Hy. destruct Hk as [->|[-> Hc]]; [by apply Hne; symmetry; apply (fi_private _ _ _ _ Hf x y f kd')|].
  pose proof (fi_kinds _ _ _ _ Hf x y f kd' Hx Hy) as ->. pose proof (nshared_del g x f Shared f Hx) as E. rewrite decide_True in E by done.
  apply (nshared_mapped (del_map g x) y f); [|lia]. cbn. by rewrite lookup_delete_ne.
Qed.

Lemma frames_pmm_free pm pm' m g n f : frames_inv pm m g n -> same_range pm pm' -> (forall y kd, g_map g !! y <> Some (f, kd)) -> g_tab g !! f = None ->
  (forall y, free_at pm' y <-> free_at pm y \/ y = f) -> pm_free_pages pm' = pm_free_pages pm + 1 -> frames_inv pm' m g (n + 1).
Proof using. intros Hf Hsr Hm Ht Hiff Hc. apply (frames_pmm pm pm' m g n); [done|done| |lia]. intros y [?| ->]%Hiff; [by left|by right]. Qed.

Lemma unmap_mem w m g n r k f kd : mem_inv w m g n -> g_map g !! (r, k) = Some (f, kd) ->
  exists w', vm_unmap w r (k * PAGE_SIZE) = Some (1, w') /\ mem_inv w' (after_unmap m f kd) (del_map g (r, k)) n /\
    words_kept w w' (fun t => g_tab g !! t <> None) /\ (forall y, free_at (km_pmm w') y -> free_at (km_pmm w) y \/ (y = f /\ kd <> Device)) /\
    ((kd = Private \/ kd = Shared /\ nshared g f = 1%nat) -> free_at (km_pmm w') f).
Proof using.
  intros Hi Hx. destruct (release_frame w m g n (r, k) f kd Hi Hx) as (pm & s & Hrel & Hpm & Hsr & Hrep' & Hfr). pose proof Hi as [Hs Hf Hrep].
  pose proof (last_mapping _ _ _ _ _ _ _ Hf Hx) as Hlast.
  destruct (unmap_spaces w g r k f kd _ Hs Hx Hrel) as (w' & E & Ep & Es & Hw & Hs').
  - done.
  - done.
  - cbn. intros y Hy. case_decide; [by apply Hfr|subst pm; by left].
  - cbn. case_decide as Hd; [right; intros y kd' Hy; by apply Hlast|left; subst pm; done].
  - cbn in Ep, Es. exists w'. split; [done|]. split; [|split; [done|]].
    + split; [done| |by rewrite Es]. rewrite Ep. pose proof (frames_del _ _ _ _ _ _ _ Hf Hx) as Hf'. case_decide as Hd.
      * destruct Hfr as [Hiff Hc]. replace n with (n - 1 + 1) by lia. eapply frames_pmm_free; try done; [|by apply (si_frame _ _ Hs (r, k) f kd)].
        intros y kd'. cbn. rewrite lookup_delete_Some. intros [Hne Hy]. by apply (Hlast Hd y kd').
      * subst pm. by rewrite Z.sub_0_r in Hf'.
    + rewrite Ep. case_decide as Hd; [|subst pm; split; [by left|tauto]]. split; [|intros _; apply Hfr; by right].
      intros y [?| ->]%Hfr; [by left|right]. split; [done|]. by destruct Hd as [->|[-> _]].
Qed.

Lemma table_words w w' g x f kd a : spaces_inv w g -> words_kept w w' (fun t => g_tab g !! t <> None) -> g_map g !! x = Some (f, kd) -> in_frame f a -> km_word w' a = km_word w a.
Proof using.
  intros Hs Hw Hx Ha. destruct x as [r k]. destruct (si_mapped w g r k f kd Hs Hx) as (_ & [_ Hal] & Hnf & Hnt). apply Hw. intros t Ht Hta.
  destruct (g_tab g !! t) as [r'|] eqn:E; [|done]. rewrite (frames_apart f t a) in Hnt; [congruence|done|apply (si_table w g t r' Hs E)|done|done].
Qed.

Lemma unmap_effect w w' g r k K W : spaces_inv w g -> words_kept w w' (fun t => g_tab g !! t <> None) -> K k -> effect w g w' (del_map g (r, k)) r K W.
Proof using.
  intros Hs Hw Hk. split; [done| |].
  - intros r' j Hj. rewrite view_del. case_decide; [subst r'|done]. unfold vset. destruct (Z.eqb_spec j k) as [->|]; [|done]. by destruct Hj.
  - intros x f kd a _ Hx _ Ha. by apply (table_words w w' g x f kd).
Qed.

(** The pages that became free were pages of the mappings [K]. *)
Definition frees (w : kmem) (g : ghost) (w' : kmem) (r : Z) (K : Z -> Prop) : Prop :=
  forall y, free_at (km_pmm w') y -> free_at (km_pmm w) y \/ exists k kd, K k /\ view g r k = Some (y, kd) /\ kd <> Device.

(** [vm_unmap] at one page. *)
Lemma unmap_page_mem w m g n r k : mem_inv w m g n -> is_space g r -> vm_page k ->
  exists z w' m', vm_unmap w r (k * PAGE_SIZE) = Some (z, w') /\ z = (if view g r k then 1 else 0) /\ mem_inv w' m' (del_map g (r, k)) n /\
    effect w g w' (del_map g (r, k)) r (eq k) (fun _ => False) /\ frees w g w' r (eq k).
Proof using.
  intros Hi Hr Hk. destruct (view g r k) as [[f kd]|] eqn:E.
  - destruct (unmap_mem w m g n r k f kd Hi E) as (w' & Eu & Hi' & Hw & Hfr & _). exists 1, w', (after_unmap m f kd). split; [done|]. split; [done|]. split; [done|]. split.
    + apply unmap_effect; [apply Hi|done|done].
    + intros y Hy. destruct (Hfr y Hy) as [?|[-> Hd]]; [by left|right]. by exists k, kd.
  - exists 0, w, m. assert (del_map g (r, k) = g) as -> by (unfold del_map; destruct g as [T M]; cbn in *; f_equal; by apply delete_id).
    split; [by apply (unmap_none w r (tables_of g r) (view g r)); [apply (si_space _ _ (mi_spaces _ _ _ _ Hi))| |]|]. split; [done|]. split; [done|]. split; [|by left]. apply effect_refl.
Qed.
End unmap.

(** ** New pages *)

Section fresh.
Context {VO : vm_ops} {VL : vm_laws}.

(** The page [x], mapped at page [k] of [r] and still in no one's hands; with [shared] its reference is taken. *)
Record fresh (w : kmem) (m : refcounts) (g : ghost) (n r k x : Z) (shared : bool) : Prop := mk_fresh {
  fr_spaces : spaces_inv w (put_map g (r, k) (x, Private));
  fr_frames : frames_inv (km_pmm w) m g n;
  fr_limbo : limbo w g x;
  fr_none : g_map g !! (r, k) = None;
  fr_rep : sp_rep (km_shared w) (if shared then <[x := 1]> m else m);
}.

Lemma limbo_uncounted w m g n x : frames_inv (km_pmm w) m g n -> limbo w g x -> m !! x = None /\ nshared g x = 0%nat.
Proof using. intros Hf Hl. assert (nshared g x = 0%nat) as E by (apply nshared_unmapped; intros y; apply Hl). split; [|done]. by rewrite (fi_ref _ _ _ _ Hf x), E, decide_True. Qed.

Lemma fresh_write w w' m g n r k x shared : fresh w m g n r k x shared -> km_pmm w' = km_pmm w -> km_shared w' = km_shared w ->
  (forall a, ~ in_frame x a -> km_word w' a = km_word w a) -> fresh w' m g n r k x shared.
Proof using.
  intros [Hs Hf Hl Hn Hr] E1 E2 Hw. pose proof Hl as [Hp Ho Ht Hm]. split; rewrite ?E1, ?E2; try done; [|split; rewrite ?E1; done].
  apply (words_spaces w); [done|done|]. intros t r' a Htr Ha. apply Hw. intros Hc. cbn in Htr. assert (x = t) as <-; [|congruence].
  apply (frames_apart x t a); [apply Hp|apply (si_table w _ t r' Hs Htr)|done|done].
Qed.

Lemma fresh_private w m g n r k x : fresh w m g n r k x false -> mem_inv w m (put_map g (r, k) (x, Private)) (n + 1).
Proof using. intros [Hs Hf Hl Hn Hr]. split; [done| |done]. apply frames_private; [done|apply Hl|done|apply Hl]. Qed.

Lemma put_twice g x v v' : put_map (put_map g x v) x v' = put_map g x v'.
Proof using. unfold put_map. cbn. by rewrite insert_insert_eq. Qed.

Lemma fresh_shared w m g n r k x : fresh w m g n r k x true ->
  exists w', vm_mark_nofree w r (k * PAGE_SIZE) = Some w' /\ mem_inv w' (<[x := 1]> m) (put_map g (r, k) (x, Shared)) (n + 1) /\
    km_pmm w' = km_pmm w /\ words_kept w w' (fun t => g_tab g !! t <> None).
Proof using.
  intros [Hs Hf Hl Hn Hr]. set (g1 := put_map g (r, k) (x, Private)) in *. assert (g_map g1 !! (r, k) = Some (x, Private)) as Hm by apply lookup_insert_eq.
  pose proof (si_space _ _ Hs r (si_page _ _ Hs _ _ Hm)) as Hsp.
  destruct (mark_nofree_law w r _ _ k x Private Hsp Hm ltac:(done)) as (w' & E & Ep & Es & Hw & Hsp'). exists w'. split; [done|].
  pose proof (mark_spaces w w' g1 r k x Private Shared Hs Hm Ep Hw Hsp') as Hs'. unfold g1 in Hs'. rewrite put_twice in Hs'. split; [split; [done| |by rewrite Es]|].
  - rewrite Ep. destruct (limbo_uncounted w m g n x Hf Hl) as [_ E0]. pose proof (frames_shared (km_pmm w) m g n (r, k) x Hf (li_owned _ _ _ Hl) Hn) as Hf'.
    rewrite E0, decide_True in Hf' by done. apply Hf'. intros y kd Hy. by destruct (li_map _ _ _ Hl y kd).
  - split; [done|]. intros a Ha. apply Hw. intros t Ht. apply Ha. unfold tables_of in Ht. cbn in Ht. by rewrite Ht.
Qed.

(** At most one free page is left. *)
Definition exhausted (w : kmem) : Prop := forall y z, free_at (km_pmm w) y -> free_at (km_pmm w) z -> y = z.


(** The reference of a new page is dropped: the page is free again. *)
Lemma unref_limbo w m g n x : spaces_inv w g -> frames_inv (km_pmm w) m g n -> sp_rep (km_shared w) (<[x := 1]> m) -> limbo w g x ->
  exists s pm, shared_page_unref (km_shared w) (km_pmm w) x = Some (s, pm) /\ mem_inv (set_shared (set_pmm w pm) s) m g (n + 1) /\
    (forall y, free_at pm y <-> free_at (km_pmm w) y \/ y = x).
Proof using.
  intros Hs Hf Hrep Hl. destruct (limbo_uncounted w m g n x Hf Hl) as [Em _]. pose proof Hl as [Hp Ho Ht Hm].
  destruct (sp_unref_refines (km_shared w) _ (km_pmm w) x Hrep) as (s & m' & pm & E & Es & Hrep'). exists s, pm. split; [done|].
  unfold spec_unref in Es. rewrite (page_valid x Hp) in Es. cbn [negb] in Es. rewrite lookup_insert_eq in Es. change (1 <? 1) with false in Es. cbv iota in Es.
  rewrite delete_insert_id in Es by done. destruct (si_pmm _ _ Hs) as [Hpm Hlim]. destruct Hp as [Hr Hal]. assert (0 <= x < U64_MOD) as Hr64 by lia.
  destruct (free_one_spec (km_pmm w) x Hpm Hr64) as (ok & pm2 & E2 & Hpm2 & Hsr & Hok). rewrite E2 in Es. cbn in Es. injection Es as <- <-.
  destruct (free_grows (km_pmm w) x ok pm2 Hpm Hr64 E2) as (_ & _ & Hnew & Hold & Hfx). destruct (Hfx Ho) as [Hfree Hc].
  assert (forall y, free_at pm2 y <-> free_at (km_pmm w) y \/ y = x) as Hiff by (intros y; split; [apply Hnew|intros [?| ->]; auto]).
  split; [|done]. split; [|by apply (frames_pmm_free (km_pmm w) pm2 m g n x)|done]. apply (spaces_frame w); try done. intros y [?| ->]%Hiff; [by left|by right].
Qed.

(** Why a page could not be had. *)
Definition no_page (w : kmem) (m : refcounts) (g : ghost) (r k : Z) (shared : bool) : Prop :=
  exhausted w \/ view g r k <> None \/ (shared = true /\ Z.of_nat (size m) = SHARED_PAGE_MAX).

Definition nothing : Z -> Prop := fun _ => False.

Lemma limbo_words w w' g x : limbo w g x -> km_pmm w' = km_pmm w -> limbo w' g x.
Proof using. intros [? Ho ? ?] E. split; try done. by rewrite E. Qed.

Lemma clear_out w x n a : ~ (x <= a < x + n) -> km_word (clear_words w x n) a = km_word w a.
Proof using. intros H. unfold clear_words. cbn. destruct (Z.leb_spec x a), (Z.ltb_spec a (x + n)); cbn; try done. lia. Qed.
Lemma clear_in w x n a : x <= a < x + n -> km_word (clear_words w x n) a = 0.
Proof using. intros H. unfold clear_words. cbn. by rewrite (proj2 (Z.leb_le _ _)), (proj2 (Z.ltb_lt _ _)) by lia. Qed.

(** The mapping of a page in no one's hands. *)
Lemma fresh_map w m g n r k x (shared : bool) : spaces_inv w g -> frames_inv (km_pmm w) m g n -> limbo w g x ->
  sp_rep (km_shared w) (if shared then <[x := 1]> m else m) -> is_space g r -> vm_page k ->
  exists z w' N, vm_map w r (k * PAGE_SIZE) x = Some (z, w') /\ map_effect w w' g r N /\ let g1 := add_tabs g r N in
    ((z = 0 /\ fresh w' m g1 n r k x shared) \/
     (z = -1 /\ spaces_inv w' g1 /\ frames_inv (km_pmm w') m g1 n /\ limbo w' g1 x /\ sp_rep (km_shared w') (if shared then <[x := 1]> m else m) /\
      (view g r k <> None \/ forall y, ~ free_at (km_pmm w') y))).
Proof using.
  intros Hs Hf Hl Hrep Hr Hk. destruct (map_spaces w g r k x Hs Hr Hk (li_page _ _ _ Hl) (limbo_not_free _ _ _ Hl) (li_table _ _ _ Hl)) as (z & w' & N & E & He & Hz).
  exists z, w', N. split; [done|]. split; [done|]. pose proof (grow_frames w w' m g r N n Hs Hf He) as Hf'. pose proof (limbo_grow w w' g r N x Hl He) as Hl'.
  rewrite <- (me_shared _ _ _ _ _ He) in Hrep. destruct Hz as [(-> & Hv & Hs')|(-> & Hs' & Hwhy)]; [left|right]; (split; [done|]); [by split|done].
Qed.

Definition give_back (shared : bool) (w : kmem) (x : Z) : option kmem :=
  if shared then '(s, pm) ← shared_page_unref (km_shared w) (km_pmm w) x; Some (set_shared (set_pmm w pm) s) else free_one_page w x.
Lemma give_back_spec w m g n x (shared : bool) : spaces_inv w g -> frames_inv (km_pmm w) m g n -> limbo w g x -> sp_rep (km_shared w) (if shared then <[x := 1]> m else m) ->
  exists w', give_back shared w x = Some w' /\ mem_inv w' m g (n + 1) /\ km_word w' = km_word w /\ (forall y, free_at (km_pmm w') y <-> free_at (km_pmm w) y \/ y = x).
Proof using.
  intros Hs Hf Hl Hrep. destruct shared; unfold give_back.
  - destruct (unref_limbo w m g n x Hs Hf Hrep Hl) as (s & pm & -> & Hi & Hiff). eexists. split; [done|]. by split.
  - destruct (free_mem w m g n x ltac:(by split) Hl) as (pm & -> & Hi & Hiff). eexists. split; [done|]. by split.
Qed.

Lemma word_effect w w' g r K : km_word w' = km_word w -> effect w g w' g r K nothing.
Proof using. intros E. split; [done|done|]. intros x f kd a _ _ _ _. by rewrite E. Qed.

(** Memory that is not mapped may be written. *)
Lemma limbo_effect w w' g r x K : spaces_inv w g -> limbo w g x -> (forall a, ~ in_frame x a -> km_word w' a = km_word w a) -> effect w g w' g r K nothing.
Proof using.
  intros Hs Hl Hw. split; [done|done|]. intros y f kd a _ Hy _ Ha. apply Hw. intros Hc. destruct y as [r' k]. destruct (si_mapped w g r' k f kd Hs Hy) as (_ & [_ Hal] & _).
  apply (li_map _ _ _ Hl (r', k) kd). by rewrite (frames_apart x f a (proj2 (li_page _ _ _ Hl)) Hal Hc Ha).
Qed.

End fresh.
