(* ===== verification/UserExit.v ===== *)
(** * The end of an address space

    [vm_destroy] releases the tables of a space and the frames of its pages one after the other; the
    accounts of the frames hold after every release, so that at the end every page of the space is free, or has one mapping less. *)

From stdpp Require Import options.
From Stdlib Require Import Lia.
From S2P Require Import Prelude Bitmap Pmm SharedPage PhysMem PageTable Teardown AddrSpace UserMem UserSpaces.

Definition del_tab (g : ghost) (t : Z) : ghost := mk_gh (delete t (g_tab g)) (g_map g).
Definition drop_item (r : Z) (g : ghost) (x : item) : ghost := match x with It_table t => del_tab g t | It_page k => del_map g (r, k) end.
(** Without the space [r]. *)
Definition del_space (g : ghost) (r : Z) : ghost := mk_gh (filter (fun x => x.2 <> r) (g_tab g)) (filter (fun x => x.1.1 <> r) (g_map g)).

Lemma cnt_ext (P : Z * pkind -> Prop) `{!forall v, Decision (P v)} M M' : (forall x v, P v -> M !! x = Some v <-> M' !! x = Some v) -> cnt P M = cnt P M'.
Proof.
  intros HM. unfold cnt. f_equal. apply map_eq. intros x. apply option_eq. intros v. rewrite !map_lookup_filter_Some. cbn.
  split; intros [Hx Hp]; (split; [by apply (HM x v Hp)|done]).
Qed.

Section exit.
Context {VO : vm_ops} {VL : vm_laws}.

Lemma frames_del_tab pm m g n t r : frames_inv pm m g n -> g_tab g !! t = Some r -> frames_inv pm m (del_tab g t) (n - 1).
Proof using.
  intros [H1 H2 H3 H4 H5 H6] Ht. split; try done.
  - intros u r'. cbn. rewrite lookup_delete_Some. intros [_ Hu]. by apply (H5 u r').
  - unfold del_tab. cbn [g_tab]. change (nprivate (mk_gh _ (g_map g))) with (nprivate g). rewrite map_size_delete_Some by (by eexists).
    assert (size (g_tab g) <> 0%nat). { intros E%map_size_empty_inv. rewrite E, lookup_empty in Ht. done. } lia.
Qed.

(** Device pages have no owner among the frames. *)
Lemma frames_devices pm m g g' n : frames_inv pm m g n -> g_tab g' = g_tab g -> (forall x v, g_map g' !! x = Some v -> g_map g !! x = Some v) ->
  (forall x f kd, g_map g !! x = Some (f, kd) -> kd <> Device -> g_map g' !! x = Some (f, kd)) -> frames_inv pm m g' n.
Proof using.
  intros [H1 H2 H3 H4 H5 H6] Et Hsub Hsup.
  assert (forall f, nshared g' f = nshared g f) as En by (intros f; apply cnt_ext; intros x v <-; split; [apply Hsub|intros Hx; by apply Hsup]).
  assert (nprivate g' = nprivate g) as Ep by (apply cnt_ext; intros x [f kd] Hk; cbn in Hk; subst kd; split; [apply Hsub|intros Hx; by apply Hsup]).
  split; rewrite ?Et.
  - intros x y f kd Hx Hy. by apply (H1 x y f kd); apply Hsub.
  - intros x y f kd Hx Hy. by apply (H2 x y f kd); apply Hsub.
  - intros f. rewrite En. apply H3.
  - intros x f kd Hx. by apply (H4 x f kd), Hsub.
  - intros t r. rewrite ?Et. apply H5.
  - rewrite Ep. done.
Qed.

(** The accounts while a space is taken down. *)
Record accounts (ps : pmm_t * shared_pages) (m : refcounts) (g : ghost) (n : Z) : Prop := mk_ac {
  ac_pmm : pmm_inv ps.1;
  ac_frames : frames_inv ps.1 m g n;
  ac_rep : sp_rep ps.2 m;
  ac_page x f kd : g_map g !! x = Some (f, kd) -> is_page f /\ g_tab g !! f = None;
}.

Lemma owned_addr pm x : pmm_inv pm -> owned pm x -> 0 <= x < U64_MOD.
Proof using. intros Hpm (j & -> & ? & ? & _). pmm_nums Hpm. unfold page_addr. lia. Qed.

(** What one release does. *)
Record dropped (ps : pmm_t * shared_pages) (g : ghost) (ps' : pmm_t * shared_pages) : Prop := mk_dr {
  dr_range : same_range ps.1 ps'.1;
  dr_old y : free_at ps.1 y -> free_at ps'.1 y;
  dr_free y : free_at ps'.1 y -> free_at ps.1 y \/ forall x kd, g_map g !! x = Some (y, kd) -> kd <> Device;
}.

Lemma release_table ps m g n r t : accounts ps m g n -> g_tab g !! t = Some r ->
  exists ps', release1 ps (t, false) = Some ps' /\ accounts ps' m (del_tab g t) n /\ dropped ps g ps' /\ free_at ps'.1 t.
Proof using.
  intros [Hpm Hf Hrep Hpg] Ht. pose proof (fi_tables _ _ _ _ Hf t r Ht) as Ho. pose proof (owned_addr _ _ Hpm Ho) as Ha.
  destruct (free_one ps.1 t) as (ok & pm & E). destruct (free_grows _ _ _ _ Hpm Ha E) as (Hpm' & Hsr & Hnew & Hold & Hown). destruct (Hown Ho) as [Hft Hc].
  unfold release1. cbn [fst snd negb]. rewrite E. cbn [mbind option_bind]. exists (pm, ps.2). split; [done|].
  assert (forall x kd, g_map g !! x <> Some (t, kd)) as Hnm by (intros x kd Hx; destruct (Hpg x t kd Hx); congruence). split; [split; cbn [fst snd]; try done|split; [split; [done|exact Hold|]|exact Hft]].
  - replace n with (n - 1 + 1) by lia. apply (frames_pmm_free ps.1 pm m (del_tab g t) (n - 1) t); try done; [by apply (frames_del_tab _ _ _ _ t r)|apply lookup_delete_eq|].
    intros y. split; [apply Hnew|intros [?| ->]; [by apply Hold|done]].
  - intros x f kd Hx. destruct (Hpg x f kd Hx) as [? Hn]. split; [done|]. cbn. rewrite lookup_delete_None. by right.
  - cbn [fst]. intros y [?| ->]%Hnew; [by left|right]. intros x kd Hx. by destruct (Hnm x kd).
Qed.

Lemma release_mapped ps m g n x f kd : accounts ps m g n -> g_map g !! x = Some (f, kd) -> kd <> Device ->
  exists ps', release1 ps (f, bool_decide (kd = Shared)) = Some ps' /\ accounts ps' (after_unmap m f kd) (del_map g x) n /\ dropped ps g ps' /\ (kd = Private -> free_at ps'.1 f).
Proof using.
  intros [Hpm Hf Hrep Hpg] Hx Hk. destruct (Hpg x f kd Hx) as [Hp Hnt].
  destruct (release_frame1 ps m g n x f kd Hpm Hf Hrep Hp Hx Hk) as (pm & s & E & Hpm' & Hsr & Hrep' & Hfr). exists (pm, s). split; [done|].
  pose proof (frames_del _ _ _ _ _ _ _ Hf Hx) as Hf'. pose proof (last_mapping _ _ _ _ _ _ _ Hf Hx) as Hlast. split; [split; cbn [fst snd]; try done|split; [split; [done| |]|]].
  - case_decide as Hd; [|subst pm; by rewrite Z.sub_0_r in Hf']. destruct Hfr as [Hiff Hc]. replace n with (n - 1 + 1) by lia. eapply frames_pmm_free; try done.
    intros y kd'. cbn. rewrite lookup_delete_Some. intros [Hne Hy]. by apply (Hlast Hd y kd').
  - intros y h kd'. cbn. rewrite lookup_delete_Some. intros [_ Hy]. by apply (Hpg y h kd').
  - cbn [fst]. intros y Hy. case_decide as Hd; [apply Hfr; by left|by subst pm].
  - cbn [fst]. intros y Hy. case_decide as Hd; [|subst pm; by left]. apply Hfr in Hy as [?| ->]; [by left|right]. intros z kd' Hz.
    destruct (decide (z = x)) as [->|Hne]; [congruence|]. by destruct (Hlast Hd z kd').
  - cbn [fst]. intros ->. rewrite decide_True in Hfr by (by left). apply Hfr. by right.
Qed.

Definition item_in (g : ghost) (r : Z) : item -> Prop := item_of (tables_of g r) (view g r).

Lemma drop_item_other g r x y : x <> y -> item_in g r y -> item_in (drop_item r g x) r y /\ released (view (drop_item r g x) r) y = released (view g r) y.
Proof using.
  intros Hne Hy. destruct x as [t|k], y as [u|j]; cbn [drop_item released item_in item_of]; try done.
  - split; [|done]. cbn in *. unfold tables_of, del_tab in *. cbn. rewrite lookup_delete_ne by congruence. done.
  - unfold item_in in *. cbn [item_of] in *. rewrite !view_del, !decide_True by done. unfold vset. rewrite (proj2 (Z.eqb_neq j k)) by congruence. done.
Qed.

(** The page of an item is free, but for a shared page. *)
Definition item_free (g : ghost) (r : Z) (pm : pmm_t) (x : item) : Prop :=
  match x with It_table t => free_at pm t | It_page k => forall f, view g r k = Some (f, Private) -> free_at pm f end.

Lemma release_items r n l : forall ps m g, accounts ps m g n -> NoDup l -> (forall x, x ∈ l -> item_in g r x) ->
  exists ps' m', run_releases ps (released (view g r) <$> l) = Some ps' /\ accounts ps' m' (foldl (drop_item r) g l) n /\ dropped ps g ps' /\ forall x, x ∈ l -> item_free g r ps'.1 x.
Proof using.
  induction l as [|x l IH]; intros ps m g Ha Hnd Hin; [exists ps, m; split; [done|]; split; [done|]; split; [split; [apply same_range_refl|done|by left]|by intros x Hx%elem_of_nil]|].
  apply NoDup_cons in Hnd as [Hx Hnd].
  assert (exists ps1 m1, release1 ps (released (view g r) x) = Some ps1 /\ accounts ps1 m1 (drop_item r g x) n /\ dropped ps g ps1 /\ item_free g r ps1.1 x) as (ps1 & m1 & E1 & Ha1 & Hd1 & Hf1).
  { pose proof (Hin x (list_elem_of_here _ _)) as Hi. destruct x as [t|k]; cbn [released drop_item].
    - destruct (release_table ps m g n r t Ha Hi) as (ps1 & ?). by exists ps1, m.
    - destruct Hi as (f & kd & Ev & Hk). rewrite Ev. destruct (release_mapped ps m g n (r, k) f kd Ha Ev Hk) as (ps1 & E & A & D & Hfr). exists ps1, (after_unmap m f kd).
      split; [done|]. split; [done|]. split; [done|]. intros f' Ef. rewrite Ev in Ef. injection Ef as -> ->. by apply Hfr. }
  assert (forall y, y ∈ l -> item_in (drop_item r g x) r y /\ released (view (drop_item r g x) r) y = released (view g r) y) as Hrest.
  { intros y Hy. apply drop_item_other; [by intros ->|]. apply Hin. by apply list_elem_of_further. }
  destruct (IH ps1 m1 (drop_item r g x) Ha1 Hnd) as (ps' & m' & E' & Ha' & Hd' & Hf'); [intros y Hy; by apply Hrest|].
  exists ps', m'. split; [|split; [done|split]].
  - rewrite fmap_cons. cbn [run_releases ofold]. rewrite E1. cbn [mbind option_bind]. rewrite <- E'. f_equal. apply list_fmap_ext. intros i y Hy. symmetry. apply Hrest. by apply (list_elem_of_lookup_2 _ i).
  - destruct Hd1 as [R1 O1 F1], Hd' as [R2 O2 F2]. split; [by eapply same_range_trans|intros y Hy; by apply O2, O1|]. intros y [Hy|Hn]%F2; [by apply F1|right].
    intros z kd Hz ->. pose proof (ac_page _ _ _ _ Ha z y Device Hz) as [_ Hnt]. apply (Hn z Device); [|done].
    destruct x as [t|k]; cbn; [done|]. rewrite lookup_delete_Some. split; [|done]. intros <-. destruct (Hin (It_page k) (list_elem_of_here _ _)) as (f & kd & Ev & Hk). unfold view in Ev. congruence.
  - intros y [->|Hy]%elem_of_cons; [destruct x as [t|k]; cbn in *; [by apply (dr_old _ _ _ Hd')|intros f Ef; by apply (dr_old _ _ _ Hd'), Hf1]|].
    specialize (Hf' y Hy). assert (x <> y) as Hne by (by intros ->). destruct x as [t|k], y as [u|j]; cbn [item_free drop_item] in *; try done. intros f Ef. apply Hf'. rewrite view_del, decide_True by done.
    unfold vset. by rewrite (proj2 (Z.eqb_neq j k)) by congruence.
Qed.

(** What is left after all items of a space. *)
Lemma dropped_lookup r l : forall g, (forall t, g_tab (foldl (drop_item r) g l) !! t = if decide (It_table t ∈ l) then None else g_tab g !! t) /\
  (forall x, g_map (foldl (drop_item r) g l) !! x = if decide (x.1 = r /\ It_page x.2 ∈ l) then None else g_map g !! x).
Proof using.
  induction l as [|y l IH]; intros g.
  { split; intros x; rewrite decide_False by (rewrite elem_of_nil; tauto); done. }
  cbn [foldl]. destruct (IH (drop_item r g y)) as [Ht Hm]. split; intros x; rewrite ?Ht, ?Hm; clear Ht Hm; destruct y as [t|k]; cbn [drop_item del_tab del_map g_tab g_map].
  - destruct (decide (It_table x ∈ l)) as [Hi|Hi]; [by rewrite decide_True by (by apply list_elem_of_further)|].
    destruct (decide (x = t)) as [->|Hne]; [by rewrite lookup_delete_eq, decide_True by apply list_elem_of_here|]. rewrite lookup_delete_ne by done. rewrite decide_False; [done|]. rewrite elem_of_cons. intros [E|?]; [congruence|done].
  - destruct (decide (It_table x ∈ l)) as [Hi|Hi]; [by rewrite decide_True by (by apply list_elem_of_further)|]. rewrite decide_False; [done|]. rewrite elem_of_cons. intros [E|?]; [congruence|done].
  - destruct (decide (x.1 = r /\ It_page x.2 ∈ l)) as [[Er Hi]|Hi]; [by rewrite decide_True by (split; [done|by apply list_elem_of_further])|]. rewrite decide_False; [done|]. rewrite elem_of_cons. intros [? [E|?]]; [congruence|by apply Hi].
  - destruct (decide (x.1 = r /\ It_page x.2 ∈ l)) as [[Er Hi]|Hi]; [by rewrite decide_True by (split; [done|by apply list_elem_of_further])|].
    destruct (decide (x = (r, k))) as [->|Hne]; [rewrite lookup_delete_eq, decide_True; [done|split; [done|apply list_elem_of_here]]|]. rewrite lookup_delete_ne by done.
    rewrite decide_False; [done|]. rewrite elem_of_cons. intros [Er [E|?]]; [|by apply Hi]. apply Hne. destruct x. cbn in *. congruence.
Qed.

Lemma del_tab_lookup g r t r' : g_tab (del_space g r) !! t = Some r' <-> g_tab g !! t = Some r' /\ r' <> r.
Proof using. unfold del_space. cbn. apply map_lookup_filter_Some. Qed.
Lemma del_view g r r' k : view (del_space g r) r' k = if decide (r' = r) then None else view g r' k.
Proof using.
  unfold view, del_space. cbn. case_decide as E; [apply map_lookup_filter_None; right; intros v _; cbn; tauto|]. apply option_eq. intros v. rewrite map_lookup_filter_Some. cbn. tauto.
Qed.

Lemma drop_all w g r l : spaces_inv w g -> (forall x, x ∈ l <-> item_in g r x) -> let g1 := foldl (drop_item r) g l in
  g_tab (del_space g r) = g_tab g1 /\ (forall x v, g_map (del_space g r) !! x = Some v -> g_map g1 !! x = Some v) /\
  (forall x f kd, g_map g1 !! x = Some (f, kd) -> kd <> Device -> g_map (del_space g r) !! x = Some (f, kd)).
Proof using.
  intros Hs Hl g1. destruct (dropped_lookup r l g) as [Ht Hm]. fold g1 in Ht, Hm. split; [|split].
  - apply map_eq. intros t. apply option_eq. intros r'. rewrite del_tab_lookup, Ht. case_decide as Hi; apply (Hl (It_table t)) in Hi || idtac.
    + split; [|done]. intros [E ?]. cbn in Hi. unfold tables_of in Hi. congruence.
    + split; [by intros [? _]|]. intros E. split; [done|]. intros ->. by apply Hi, (Hl (It_table t)).
  - intros [r' k] v. change (g_map (del_space g r) !! (r', k)) with (view (del_space g r) r' k). rewrite del_view, Hm. case_decide as E; [done|]. intros Hv. rewrite decide_False; [done|]. cbn. tauto.
  - intros [r' k] f kd. rewrite Hm. case_decide as Hi; [done|]. intros Hx Hk. change (view (del_space g r) r' k = Some (f, kd)). rewrite del_view, decide_False; [done|].
    intros ->. apply Hi. split; [done|]. apply (Hl (It_page k)). by exists f, kd.
Qed.

(** The space is gone: its tables and private frames are free, its shared frames have a mapping less; all other spaces are as before. *)
Lemma destroy_mem w m g n r : mem_inv w m g n -> is_space g r -> r <> 0 ->
  exists w' m', vm_destroy w r = Some w' /\ mem_inv w' m' (del_space g r) n /\
    (forall x f kd a, g_map g !! x = Some (f, kd) -> in_frame f a -> km_word w' a = km_word w a) /\
    (forall t, tables_of g r t -> free_at (km_pmm w') t) /\ (forall k f, view g r k = Some (f, Private) -> free_at (km_pmm w') f).
Proof using.
  intros Hi Hr Hr0. pose proof Hi as [Hs Hf Hrep]. pose proof (proj1 (si_pmm _ _ Hs)) as Hpm.
  destruct (destroy_law w r _ _ (si_space _ _ Hs r Hr) Hr0) as (l & Hnd & Hl & Hrun).
  assert (accounts (kst w) m g n) as Ha. { split; try done. intros [r' k] f kd Hx. by destruct (si_mapped w g r' k f kd Hs Hx) as (_ & ? & _ & ?). }
  destruct (release_items r n l (kst w) m g Ha Hnd) as (ps & m' & E & [Hpm' Hf1 Hrep' _] & [Hsr _ Hfree] & Hgone); [intros x; apply Hl|].
  destruct (Hrun ps E) as (w' & Ed & Ek & Hw). exists w', m'. split; [done|].
  assert (km_pmm w' = ps.1) as Ep by (by rewrite <- Ek). assert (km_shared w' = ps.2) as Es by (by rewrite <- Ek).
  destruct (drop_all w g r l Hs Hl) as (Dt & D1 & D2). pose proof (frames_devices ps.1 m' _ (del_space g r) n Hf1 Dt D1 D2) as Hf'.
  assert (words_kept w w' (fun t => g_tab g !! t <> None)) as Hw'. { intros a Hna. apply Hw. intros t Ht. apply Hna. unfold tables_of in Ht. by rewrite Ht. }
  split; [split; [|by rewrite Ep|by rewrite Es]|split; [intros x f kd a Hx Hin; by apply (table_words w w' g x f kd)|rewrite Ep; split]].
  2: { intros t Ht. by apply (Hgone (It_table t)), Hl. }
  2: { intros k f Hv. apply (Hgone (It_page k)); [|done]. apply Hl. by exists f, Private. }
  assert (forall r', is_space (del_space g r) r' <-> is_space g r' /\ r' <> r) as Hsp by (intros r'; apply del_tab_lookup).
  split; rewrite ?Ep.
  - split; [done|]. destruct Hsr as (E1 & E2 & _). unfold page_addr in *. cbn [fst kst] in *. rewrite E1, E2. apply Hs.
  - intros r' [Hr' Hne]%Hsp. apply (space_ext w' r' (tables_of g r') _ (view g r')); [|intros t; unfold tables_of; rewrite del_tab_lookup; tauto|intros k; by rewrite del_view, decide_False].
    apply (space_frame w w'); [by apply (si_space _ _ Hs)|by rewrite Ep|by rewrite Ep| |].
    + intros t a Ht Ha'. apply Hw. intros u Hu Hua. unfold tables_of in *. rewrite (frames_apart t u a) in Ht; [congruence|apply (si_table w g t r' Hs Ht)|apply (si_table w g u r Hs Hu)|done|done].
    + rewrite Ep. intros y Hy. destruct (Hfree y Hy) as [?|Hd]; [by left|right]. split.
      * intros Ht. apply (owned_not_free ps.1 y); [|done]. apply (fi_tables _ _ _ _ Hf' y r'). by apply del_tab_lookup.
      * intros k kd Hk. apply (owned_not_free ps.1 y); [|done]. apply (fi_owned _ _ _ _ Hf' (r', k) y kd); [|by apply (Hd (r', k))]. change (view (del_space g r) r' k = Some (y, kd)). by rewrite del_view, decide_False.
  - intros t r' [Ht Hne]%del_tab_lookup. apply Hsp. split; [by apply (si_tab _ _ Hs t)|done].
  - intros [r' k] v Hv. change (view (del_space g r) r' k = Some v) in Hv. rewrite del_view in Hv. case_decide; [done|]. apply Hsp. split; [by apply (si_page _ _ Hs (r', k) v)|done].
  - intros [r' k] f kd Hv. change (view (del_space g r) r' k = Some (f, kd)) in Hv. rewrite del_view in Hv. case_decide; [done|]. pose proof (si_frame _ _ Hs (r', k) f kd Hv) as Hn.
    unfold del_space. cbn. apply map_lookup_filter_None. by left.
Qed.
End exit.
