(* ===== verification/UserOps.v ===== *)
(** * brk, mmap, munmap and fork keep the memory of all processes

    Each operation of UserMem against the state of UserSpaces: what it maps, what the pages hold
    afterwards, and that everything else stays as it was. *)

From stdpp Require Import options.
From Stdlib Require Import Lia.
From S2P Require Import Prelude Bitmap Pmm SharedPage PhysMem PageTable Teardown Riscv64 AddrSpace UserMem UserSpaces.

(** ** The loop over the pages of a range *)

Lemma page_loop_pages {St R} (body : St -> Z -> option (St + R)) (I : Z -> St -> Prop) (J : Z -> R -> Prop) n k s :
  0 <= k -> (k + Z.of_nat n) * PAGE_SIZE < U64_MOD -> I k s ->
  (forall j s, k <= j < k + Z.of_nat n -> I j s -> exists r, body s (j * PAGE_SIZE) = Some r /\ match r with inl s => I (j + 1) s | inr x => J j x end) ->
  exists r, page_loop n body s (k * PAGE_SIZE) = Some r /\ match r with inl s => I (k + Z.of_nat n) s | inr x => exists j, k <= j < k + Z.of_nat n /\ J j x end.
Proof.
  revert k s. induction n as [|n IH]; intros k s Hk Hn Hi Hb; cbn [page_loop].
  { eexists. split; [done|]. by rewrite Z.add_0_r. }
  destruct (Hb k s ltac:(lia) Hi) as ([s1|x] & -> & Hr); cbn [mbind option_bind].
  - replace (u64 (k * PAGE_SIZE + PAGE_SIZE)) with ((k + 1) * PAGE_SIZE) by (unfold u64; rewrite Z.mod_small by lia; lia).
    destruct (IH (k + 1) s1 ltac:(lia) ltac:(lia) Hr) as (r & E & Hres); [intros; apply Hb; [lia|done]|].
    exists r. split; [done|]. destruct r as [s2|x]; [by replace (k + Z.of_nat (S n)) with (k + 1 + Z.of_nat n) by lia|].
    destruct Hres as (j & Hj & HJ). exists j. split; [lia|done].
  - exists (inr x). split; [done|]. exists k. split; [lia|done].
Qed.

Lemma page_count_pages a b : a <= b -> Z.of_nat (page_count (a * PAGE_SIZE) (b * PAGE_SIZE)) = b - a.
Proof. intros H. unfold page_count. pose proof (Z_div_mod_eq_full (b * PAGE_SIZE - a * PAGE_SIZE + (PAGE_SIZE - 1)) PAGE_SIZE). pose proof (Z.mod_pos_bound (b * PAGE_SIZE - a * PAGE_SIZE + (PAGE_SIZE - 1)) PAGE_SIZE). lia. Qed.

(** The pages [a] to [b]. *)
Definition within (a b : Z) : Z -> Prop := fun k => a <= k < b.

Section ops.
Context {VO : vm_ops} {VL : vm_laws}.

(** ** A new page *)

(** The reference taken for a new page. *)
Definition take_ref (shared : bool) (w : kmem) (x : Z) : option (bool * kmem) :=
  if shared then '(ok, s) ← shared_page_ref (km_shared w) x; Some (ok, set_shared w s) else Some (true, w).
Lemma take_ref_spec w m g n x (shared : bool) : mem_inv w m g n -> limbo w g x ->
  exists ok s, take_ref shared w x = Some (ok, set_shared w s) /\
    if ok : bool then sp_rep s (if shared then <[x := 1]> m else m) else sp_rep s m /\ shared = true /\ Z.of_nat (size m) = SHARED_PAGE_MAX.
Proof using.
  intros [Hs Hf Hrep] Hl. unfold take_ref. destruct shared; [|exists true, (km_shared w); by destruct w].
  destruct (sp_ref_refines (km_shared w) m x Hrep) as (s & -> & Hrep'). cbn [mbind option_bind]. exists (spec_ref m x).1, s. split; [done|].
  unfold spec_ref in *. rewrite (page_valid x (li_page _ _ _ Hl)) in *. cbn [negb] in *. destruct (limbo_uncounted w m g n x Hf Hl) as [E _]. rewrite E in *.
  destruct (Z.eqb_spec (Z.of_nat (size m)) SHARED_PAGE_MAX); by cbn in *.
Qed.

Lemma shared_spaces w s g : spaces_inv w g -> spaces_inv (set_shared w s) g.
Proof using. intros Hs. by apply (words_spaces w). Qed.

(** The page was allocated, and cleared with [zero]. *)
Lemma taken_page (zero : bool) w m g n x pm : mem_inv w m g n -> mem_inv (set_pmm w pm) m g (n - 1) -> limbo (set_pmm w pm) g x ->
  let w2 := if zero then clear_words (set_pmm w pm) x PAGE_SIZE else set_pmm w pm in
  mem_inv w2 m g (n - 1) /\ limbo w2 g x /\ (forall r, effect w g w2 g r nothing nothing) /\ km_pmm w2 = pm /\ (zero = true -> forall a, in_frame x a -> km_word w2 a = 0).
Proof using.
  intros Hi Hi1 Hl w2. assert (forall a, ~ in_frame x a -> km_word w2 a = km_word (set_pmm w pm) a) as Hout.
  { intros a Ha. unfold w2. destruct zero; [|done]. by apply clear_out. }
  assert (km_pmm w2 = pm /\ km_shared w2 = km_shared w) as [Ep Es] by (unfold w2; by destruct zero). split_and!.
  - apply (frame_mem (set_pmm w pm) w2 m g _ x); [done|by rewrite Ep|by rewrite Es|apply Hl|apply Hl|done].
  - by apply (limbo_words (set_pmm w pm)).
  - intros r. apply (effect_compose w g (set_pmm w pm) g); [by apply word_effect|]. apply (limbo_effect (set_pmm w pm) w2 g r x); [apply Hi1|done|done].
  - done.
  - intros -> a Ha. by apply clear_in.
Qed.

Lemma new_page_unfold zero w r flags va : new_page zero r flags w va =
  ('(x, pm) ← pmm_alloc_pages (km_pmm w) 1;
   if x =? 0 then Some (inr (set_pmm w pm))
   else
     '(ok, w) ← take_ref (has flags MAP_SHARED) (if zero then clear_words (set_pmm w pm) x PAGE_SIZE else set_pmm w pm) x;
     if negb ok then w ← free_one_page w x; Some (inr w)
     else '(z, w) ← vm_map w r va x; if negb (z =? 0) then w ← give_back (has flags MAP_SHARED) w x; Some (inr w) else Some (inl (x, w))).
Proof using. done. Qed.

Lemma new_page_mem zero w m g n r k flags : mem_inv w m g n -> is_space g r -> vm_page k ->
  exists res, new_page zero r flags w (k * PAGE_SIZE) = Some res /\
    match res with
    | inr w' => exists g', mem_inv w' m g' n /\ g_map g' = g_map g /\ effect w g w' g' r nothing nothing /\ no_page w' m g r k (has flags MAP_SHARED)
    | inl (x, w') => exists N, fresh w' m (add_tabs g r N) (n - 1) r k x (has flags MAP_SHARED) /\ effect w g w' (add_tabs g r N) r nothing nothing /\
        (zero = true -> forall a, in_frame x a -> km_word w' a = 0)
    end.
Proof using.
  intros Hi Hr Hk. rewrite new_page_unfold. destruct (alloc_mem w m g n Hi) as [[-> Hno]|(x & pm & -> & Hx & _ & Hiff & Hi1 & Hl1)]; cbn [mbind option_bind].
  { exists (inr (set_pmm w (km_pmm w))). split; [done|]. destruct w. exists g. split; [done|]. split; [done|]. split; [apply effect_refl|]. left. intros y z Hy. by destruct (Hno y). }
  rewrite (proj2 (Z.eqb_neq x 0)) by done. destruct (taken_page zero w m g n x pm Hi Hi1 Hl1) as (Hi2 & Hl2 & He2 & Ep2 & Hz). clear Hi1 Hl1.
  set (w2 := if zero then _ else _) in *. clearbody w2. set (sh := has flags MAP_SHARED) in *.
  destruct (take_ref_spec w2 m g (n - 1) x sh Hi2 Hl2) as (ok & s & -> & Hok). cbn [mbind option_bind]. pose proof (shared_spaces w2 s g (mi_spaces _ _ _ _ Hi2)) as Hs3.
  pose proof (effect_compose _ _ _ _ _ _ _ _ _ (He2 r) (word_effect w2 (set_shared w2 s) g r nothing eq_refl)) as He3.
  assert (limbo (set_shared w2 s) g x) as Hl3 by (by apply (limbo_words w2)). destruct ok; cbn [negb].
  - destruct (fresh_map (set_shared w2 s) m g (n - 1) r k x sh Hs3 (mi_frames _ _ _ _ Hi2) Hl3 Hok Hr Hk) as (z & w4 & N & -> & He & Hzz). cbn [mbind option_bind].
    pose proof (effect_compose _ _ _ _ _ _ _ _ _ He3 (grow_effect _ w4 g r N nothing nothing Hs3 Hr He)) as He4.
    destruct Hzz as [[-> Hfr]|(-> & Hs4 & Hf4 & Hl4 & Hr4 & Hwhy)].
    + exists (inl (x, w4)). split; [done|]. exists N. split; [done|]. split; [done|]. intros Hzero a Ha. rewrite <- (Hz Hzero a Ha).
      by apply (limbo_map_words (set_shared w2 s) w4 g r N x).
    + change (-1 =? 0) with false. cbn [negb]. destruct (give_back_spec w4 m _ _ x sh Hs4 Hf4 Hl4 Hr4) as (w5 & -> & Hi5 & Ew & Hiff5). cbn [mbind option_bind].
      exists (inr w5). split; [done|]. exists (add_tabs g r N). replace n with (n - 1 + 1) by lia. split; [done|]. split; [done|]. split.
      * apply (effect_compose _ _ _ _ _ _ _ _ _ He4). by apply word_effect.
      * destruct Hwhy as [?|Hno]; [by right; left|left]. intros y y' [?| ->]%Hiff5 [?| ->]%Hiff5; try done; by destruct (Hno _ ltac:(eassumption)).
  - destruct Hok as (Hrep & Esh & Hfull). destruct (free_mem (set_shared w2 s) m g (n - 1) x) as (pm5 & -> & Hi5 & _); [by split; [|apply Hi2|]|done|].
    cbn [mbind option_bind]. eexists. split; [done|]. exists g. replace n with (n - 1 + 1) by lia. split; [done|]. split; [done|]. split; [|by right; right].
    apply (effect_compose _ _ _ _ _ _ _ _ _ He3). by apply word_effect.
Qed.

(** ** Effects of a new mapping *)

Lemma put_effect w g w' r k v K W : K k -> (forall x f kd a, g_map g !! x = Some (f, kd) -> in_frame f a -> km_word w' a = km_word w a) -> effect w g w' (put_map g (r, k) v) r K W.
Proof using.
  intros Hk Hw. split; [done| |by intros x f kd a _ Hx _; apply (Hw x f kd)].
  intros r' j Hj. rewrite view_put. case_decide; [subst r'|done]. unfold vset. destruct (Z.eqb_spec j k) as [->|]; [|done]. by destruct Hj.
Qed.
Lemma view_put_eq g r k v : view (put_map g (r, k) v) r k = Some v.
Proof using. unfold view. cbn. apply lookup_insert_eq. Qed.

(** The pages [K] of [r] in [w] and [g], and those of [w'] and [g'] after one more page. *)
Lemma effect_step w g w1 g1 w2 g2 r (K K1 K2 W : Z -> Prop) : effect w g w1 g1 r K1 W -> effect w1 g1 w2 g2 r K2 W ->
  (forall k, K1 k -> K k) -> (forall k, K2 k -> K k) -> effect w g w2 g2 r K W.
Proof using. intros H1 H2 HK1 HK2. apply (effect_compose w g w1 g1); eapply effect_mono; eauto. Qed.

(** ** munmap *)

Lemma up_pages k : (k * PAGE_SIZE + (PAGE_SIZE - 1)) / PAGE_SIZE = k.
Proof using. rewrite Z.add_comm, Z.div_add by lia. change ((PAGE_SIZE - 1) / PAGE_SIZE) with 0. lia. Qed.
Lemma up_aligned k : 0 <= k -> k * PAGE_SIZE <= U64_MOD - PAGE_SIZE -> ALIGN_UP (k * PAGE_SIZE) PAGE_SIZE = k * PAGE_SIZE.
Proof using. intros Hk Hm. rewrite ALIGN_UP_page by lia. by rewrite up_pages. Qed.
Lemma down_aligned k : 0 <= k -> k * PAGE_SIZE < U64_MOD -> ALIGN_DOWN (k * PAGE_SIZE) PAGE_SIZE = k * PAGE_SIZE.
Proof using. intros Hk Hm. rewrite ALIGN_DOWN_page by lia. by rewrite Z.div_mul by lia. Qed.

Lemma vm_unmap_user_range_unfold w r a b : r <> 0 -> 0 <= a < b -> b * PAGE_SIZE <= vm_top ->
  vm_unmap_user_range w r (a * PAGE_SIZE) ((b - a) * PAGE_SIZE) =
  (x ← page_loop (page_count (a * PAGE_SIZE) (b * PAGE_SIZE)) (unmap_body r) (0, w) (a * PAGE_SIZE); Some (match x with inl x => x | inr x => x end)).
Proof using VL.
  intros Hr Hab Hb. pose proof vm_top_range. unfold vm_unmap_user_range. rewrite (proj2 (Z.eqb_neq r 0)), (proj2 (Z.eqb_neq ((b - a) * PAGE_SIZE) 0)) by lia. cbn [orb].
  replace (u64 (a * PAGE_SIZE + (b - a) * PAGE_SIZE)) with (b * PAGE_SIZE) by (unfold u64; rewrite Z.mod_small by lia; lia).
  rewrite down_aligned, up_aligned by lia. cbv zeta. by rewrite (proj2 (Z.ltb_ge _ _)) by lia.
Qed.

(** A range of pages below the top. *)
Definition pages_ok (a b : Z) : Prop := 0 <= a <= b /\ b * PAGE_SIZE <= vm_top.
Lemma pages_vm a b k : pages_ok a b -> within a b k -> vm_page k.
Proof using. unfold pages_ok, within, vm_page. nia. Qed.

(** [page_loop] over a range of pages. *)
Lemma range_loop {St R} (body : St -> Z -> option (St + R)) (I : Z -> St -> Prop) (J : Z -> R -> Prop) a b s :
  pages_ok a b -> I a s ->
  (forall j s, within a b j -> I j s -> exists r, body s (j * PAGE_SIZE) = Some r /\ match r with inl s => I (j + 1) s | inr x => J j x end) ->
  exists r, page_loop (page_count (a * PAGE_SIZE) (b * PAGE_SIZE)) body s (a * PAGE_SIZE) = Some r /\
    match r with inl s => I b s | inr x => exists j, within a b j /\ J j x end.
Proof using VL.
  intros [Hab Hb] Ha Hbody. pose proof vm_top_range. pose proof (page_count_pages a b ltac:(lia)) as Hn.
  destruct (page_loop_pages body I J (page_count (a * PAGE_SIZE) (b * PAGE_SIZE)) a s ltac:(lia) ltac:(lia) Ha) as (r & E & Hr).
  { intros j s' Hj. apply Hbody. unfold within. lia. }
  exists r. split; [done|]. rewrite Hn in Hr. replace (a + (b - a)) with b in Hr by lia. exact Hr.
Qed.

Lemma unmap_range_mem w m g n r a b : mem_inv w m g n -> is_space g r -> r <> 0 -> pages_ok a b -> a < b ->
  exists c w' m' g', vm_unmap_user_range w r (a * PAGE_SIZE) ((b - a) * PAGE_SIZE) = Some (c, w') /\ mem_inv w' m' g' n /\
    effect w g w' g' r (within a b) nothing /\ (forall k, within a b k -> view g' r k = None) /\ frees w g w' r (within a b) /\
    g_tab g' = g_tab g /\ g_map g' ⊆ g_map g.
Proof using.
  intros Hi Hr Hr0 Hab Hlt. rewrite vm_unmap_user_range_unfold by (destruct Hab; lia).
  destruct (range_loop (unmap_body r) (fun j s => exists m' g', mem_inv s.2 m' g' n /\ effect w g s.2 g' r (within a j) nothing /\
    (forall k, within a j k -> view g' r k = None) /\ frees w g s.2 r (within a j) /\ g_tab g' = g_tab g /\ g_map g' ⊆ g_map g) (fun _ _ => False) a b (0, w) Hab) as ([[c w']|x] & -> & Hres).
  - exists m, g. split; [done|]. split; [apply effect_refl|]. split; [intros k Hk; unfold within in Hk; lia|]. split; [by left|done].
  - intros j [c w1] Hj (m1 & g1 & Hi1 & He1 & Hv1 & Hfr1 & Ht1 & Hm1). cbn [snd] in *. unfold unmap_body. cbn [fst snd].
    destruct (unmap_page_mem w1 m1 g1 n r j Hi1) as (z & w2 & m2 & -> & _ & Hi2 & He2 & Hfr2); [by apply (ef_space _ _ _ _ _ _ _ He1)|by apply (pages_vm a b)|].
    cbn [mbind option_bind]. eexists. split; [done|]. cbn [snd]. exists m2, (del_map g1 (r, j)). split; [done|]. split; [|split; [|split; [|split; [done|]]]].
    + apply (effect_step w g w1 g1 w2 _ r _ (within a j) (eq j)); [done|done|unfold within; lia|unfold within in *; lia].
    + intros k Hk. rewrite view_del, decide_True by done. unfold vset. destruct (Z.eqb_spec k j); [done|]. apply Hv1. unfold within in *. lia.
    + intros y Hy. destruct (Hfr2 y Hy) as [Hy1|(k & kd & <- & Hk & Hd)]; [destruct (Hfr1 y Hy1) as [?|(k & kd & Hin & ?)]; [by left|right; exists k, kd; split; [unfold within in *; lia|done]]|].
      right. exists j, kd. split; [unfold within in *; lia|]. split; [|done]. rewrite <- Hk. symmetry. apply (ef_view _ _ _ _ _ _ _ He1). right. unfold within. lia.
    + etrans; [apply delete_subseteq|done].
  - cbn in Hres. destruct Hres as (m' & g' & ?). exists c, w', m', g'. by split.
  - by destruct Hres as (? & _ & []).
Qed.

Lemma paddr_mem w g r k : spaces_inv w g -> is_space g r -> vm_page k ->
  vm_paddr w r (k * PAGE_SIZE) = Some (match view g r k with Some (f, _) => f | None => 0 end).
Proof using.
  intros Hs Hr [Hk Hk']. rewrite (paddr_law w r (tables_of g r) (view g r)) by (try lia; by apply (si_space _ _ Hs)).
  rewrite Z.div_mul, Z.mod_mul by lia. destruct (view g r k) as [[f kd]|]; [by rewrite Z.add_0_r|done].
Qed.
Lemma view_frame w g r k f kd : spaces_inv w g -> view g r k = Some (f, kd) -> vm_page k /\ is_page f /\ ~ free_at (km_pmm w) f /\ g_tab g !! f = None.
Proof using. apply si_mapped. Qed.

Lemma shrink_next_mem w g r lo budget a : spaces_inv w g -> is_space g r -> pages_ok 0 a -> 0 <= lo ->
  exists j, shrink_next budget w r lo (a * PAGE_SIZE) = Some (j * PAGE_SIZE) /\ 0 <= j <= a /\ (forall k, within j a k -> view g r k = None) /\
    (j < a -> lo < (j + 1) * PAGE_SIZE).
Proof using.
  intros Hs Hr. revert a. induction budget as [|budget IH]; intros a Ha Hlo; cbn [shrink_next].
  { exists a. split; [done|]. split; [destruct Ha; lia|]. split; [unfold within; lia|lia]. }
  assert (exists j : Z, Some (a * PAGE_SIZE) = Some (j * PAGE_SIZE) /\ 0 <= j <= a /\ (forall k, within j a k -> view g r k = None) /\ (j < a -> lo < (j + 1) * PAGE_SIZE)) as Hstop.
  { exists a. split; [done|]. split; [destruct Ha; lia|]. split; [unfold within; lia|lia]. }
  destruct (Z.ltb_spec lo (a * PAGE_SIZE)) as [Hlt|]; [|done]. cbn [negb]. destruct Ha as [Ha Htop]. pose proof vm_top_range.
  replace (u64 (a * PAGE_SIZE - PAGE_SIZE)) with ((a - 1) * PAGE_SIZE) by (unfold u64; rewrite Z.mod_small by lia; lia).
  rewrite (paddr_mem w g) by (try done; unfold vm_page; lia). cbn [mbind option_bind]. destruct (view g r (a - 1)) as [[f kd]|] eqn:Ev.
  - destruct (view_frame w g r _ _ _ Hs Ev) as (_ & [Hf _] & _). by rewrite (proj2 (Z.eqb_neq f 0)) by lia.
  - cbn [negb Z.eqb]. destruct (IH (a - 1)) as (j & -> & Hj & Hv & Hlo'); [split; lia|done|]. exists j. split; [done|]. split; [lia|]. split.
    + intros k Hk. destruct (decide (k = a - 1)) as [->|]; [done|]. apply Hv. unfold within in *. lia.
    + intros _. destruct (decide (j = a - 1)) as [->|]; [lia|]. apply Hlo'. lia.
Qed.

(** A task with an address space. *)
Record task_of (g : ghost) (t : utask) : Prop := mk_to {
  tk_user : ut_user t = true;
  tk_space : is_space g (ut_pgd t);
  tk_pgd : ut_pgd t <> 0;
  tk_base : 0 <= ut_mmap_base t;
}.

Lemma aligned_page x : 0 <= x -> Z.land x (PAGE_SIZE - 1) = 0 -> x = x / PAGE_SIZE * PAGE_SIZE.
Proof using. intros Hx. change (PAGE_SIZE - 1) with (Z.ones 12). rewrite Z.land_ones by lia. change (2 ^ 12) with PAGE_SIZE. pose proof (Z_div_mod_eq_full x PAGE_SIZE). lia. Qed.

(** The pages of [len] bytes. *)
Definition pages_of (len : Z) : Z := (len + (PAGE_SIZE - 1)) / PAGE_SIZE.
Lemma pages_of_bounds x : x <= pages_of x * PAGE_SIZE < x + PAGE_SIZE.
Proof using. unfold pages_of. pose proof (Z_div_mod_eq_full (x + (PAGE_SIZE - 1)) PAGE_SIZE). pose proof (Z.mod_pos_bound (x + (PAGE_SIZE - 1)) PAGE_SIZE). lia. Qed.
Lemma pages_of_pos len : 0 < len -> 0 < pages_of len.
Proof using. pose proof (pages_of_bounds len). lia. Qed.

(** munmap of a range below the top of the user addresses removes its pages and nothing else: the other pages of
    the process and all other processes keep their mappings and their contents, every frame goes back to
    its owner, and the end of the mmap area moves down only over pages that are not mapped. *)
Theorem sys_munmap_correct w m g n ts t addr len : mem_inv w m g n -> task_of g t -> 0 <= addr -> 0 <= len <= U64_MOD - PAGE_SIZE ->
  addr + pages_of len * PAGE_SIZE <= vm_top ->
  let a := addr / PAGE_SIZE in
  if (len =? 0) || negb (Z.land addr (PAGE_SIZE - 1) =? 0) then sys_munmap w ts t addr len = Some (u64 (- EINVAL), w, ts)
  else exists w' m' g' ts', sys_munmap w ts t addr len = Some (0, w', ts') /\ mem_inv w' m' g' n /\
    effect w g w' g' (ut_pgd t) (within a (a + pages_of len)) nothing /\ (forall k, within a (a + pages_of len) k -> view g' (ut_pgd t) k = None) /\
    (ts' = ts \/ exists j, ts' = sync_shared_mmap_next_to ts t (j * PAGE_SIZE) /\ 0 <= j <= a /\ j * PAGE_SIZE < shared_mmap_next ts t <= addr + pages_of len * PAGE_SIZE /\
      (forall k, within j a k -> view g' (ut_pgd t) k = None) /\ (j < a -> ut_mmap_base t < (j + 1) * PAGE_SIZE)).
Proof using.
  intros Hi [Hu Hsp Hr0 Hbase] Haddr Hlen Htop a. unfold sys_munmap. rewrite Hu, (proj2 (Z.eqb_neq _ 0) Hr0). cbn [negb orb].
  destruct (Z.eqb_spec len 0) as [->|Hl]; [done|]. cbn [orb]. destruct (Z.eqb_spec (Z.land addr (PAGE_SIZE - 1)) 0) as [Hal|]; [|done]. cbn [negb].
  pose proof (aligned_page addr Haddr Hal) as Ea. fold a in Ea. pose proof (pages_of_pos len ltac:(lia)) as Hp. pose proof vm_top_range.
  rewrite ALIGN_UP_page by lia. fold (pages_of len). set (c := pages_of len) in *. rewrite Ea.
  destruct (unmap_range_mem w m g n (ut_pgd t) a (a + c) Hi Hsp Hr0) as (z & w' & m' & g' & E & Hi' & He & Hv & _); [split; lia|lia|].
  replace (a + c - a) with c in E by lia. rewrite E. cbn [mbind option_bind]. clear E.
  replace (u64 (a * PAGE_SIZE + c * PAGE_SIZE)) with ((a + c) * PAGE_SIZE) by (unfold u64; rewrite Z.mod_small by lia; lia).
  destruct (Z.leb_spec (shared_mmap_next ts t) ((a + c) * PAGE_SIZE)) as [Hnext|]; [|exists w', m', g', ts; split; [done|]; eauto].
  destruct (shrink_next_mem w' g' (ut_pgd t) (ut_mmap_base t) 512 a (mi_spaces _ _ _ _ Hi')) as (j & -> & Hj & Hvj & Hlo); [by apply (ef_space _ _ _ _ _ _ _ He)|split; lia|done|].
  cbn [mbind option_bind]. exists w', m', g'. destruct (Z.ltb_spec (j * PAGE_SIZE) (shared_mmap_next ts t)); eexists; (split; [done|]); (split; [done|]); (split; [done|]); (split; [done|]); [right|by left].
  exists j. split; [done|]. split; [done|]. split; [lia|]. done.
Qed.
End ops.

(** ** brk *)

Section brk.
Context {VO : vm_ops} {VL : vm_laws}.

Definition zeroed (w : kmem) (x : Z) : Prop := forall a, in_frame x a -> km_word w a = 0.
Definition shrinks (w w' : kmem) : Prop := forall y, free_at (km_pmm w') y -> free_at (km_pmm w) y.

Lemma put_same g r k v : view g r k = None -> forall r' j, r' <> r \/ ~ (j = k /\ view g r j = None) -> view (put_map g (r, k) v) r' j = view g r' j.
Proof using. intros Hv r' j Hj. rewrite view_put. case_decide; [subst r'|done]. unfold vset. destruct (Z.eqb_spec j k) as [->|]; [|done]. destruct Hj as [?|[]]; done. Qed.

(** A new page of [brk]: mapped and cleared, or the page was mapped before, or there is no memory for a table. *)
Lemma brk_page_mem w m g n r k : mem_inv w m g n -> is_space g r -> vm_page k ->
  exists res, brk_body r w (k * PAGE_SIZE) = Some res /\
    match res with
    | inr w' => w' = w /\ forall y, ~ free_at (km_pmm w) y
    | inl w' => exists g', mem_inv w' m g' n /\ effect w g w' g' r (fun j => j = k /\ view g r j = None) nothing /\ shrinks w w' /\
        match view g r k with
        | Some v => view g' r k = Some v
        | None => (exists x, view g' r k = Some (x, Private) /\ zeroed w' x) \/ (view g' r k = None /\ exhausted w')
        end
    end.
Proof using.
  intros Hi Hr Hk. unfold brk_body. destruct (alloc_mem w m g n Hi) as [[-> Hno]|(x & pm & -> & Hx & Hfx & Hiff & Hi1 & Hl1)]; cbn [mbind option_bind].
  { eexists. split; [done|]. by destruct w. }
  rewrite (proj2 (Z.eqb_neq x 0)) by done. destruct (taken_page true w m g n x pm Hi Hi1 Hl1) as (Hi2 & Hl2 & He2 & Ep2 & Hz). clear Hi1 Hl1. specialize (Hz eq_refl).
  set (w2 := clear_words _ _ _) in *. clearbody w2. pose proof Hi2 as [Hs2 Hf2 Hrep2].
  destruct (fresh_map w2 m g (n - 1) r k x false Hs2 Hf2 Hl2 Hrep2 Hr Hk) as (z & w4 & N & -> & He & Hzz). cbn [mbind option_bind].
  assert (shrinks w w4) as Hsh4. { intros y Hy. apply (me_free _ _ _ _ _ He) in Hy as [Hy _]. rewrite Ep2 in Hy. by apply Hiff in Hy as [? _]. }
  pose proof (effect_compose _ _ _ _ _ _ _ _ _ (He2 r) (grow_effect w2 w4 g r N nothing nothing Hs2 Hr He)) as He4.
  destruct Hzz as [[-> Hfr]|(-> & Hs4 & Hf4 & Hl4 & Hr4 & Hwhy)]; cbn [negb Z.eqb].
  - eexists. split; [done|]. exists (put_map (add_tabs g r N) (r, k) (x, Private)). assert (view g r k = None) as Hv by apply Hfr.
    split; [replace n with (n - 1 + 1) by lia; by apply fresh_private|]. split; [|split; [done|rewrite Hv; left]].
    + destruct He4 as [A1 A2 A3]. split; [done| |].
      * intros r' j Hj. by apply (put_same (add_tabs g r N)).
      * intros y f kd a _ Hy HW Ha. by apply (A3 y f kd a (or_intror (fun H => H)) Hy).
    + exists x. split; [apply view_put_eq|]. intros a Ha. rewrite <- (Hz a Ha). by apply (limbo_map_words w2 w4 g r N x).
  - destruct (give_back_spec w4 m _ _ x false Hs4 Hf4 Hl4 Hr4) as (w5 & E5 & Hi5 & Ew & Hiff5). unfold give_back in E5. rewrite E5. cbn [mbind option_bind].
    eexists. split; [done|]. exists (add_tabs g r N). split; [by replace n with (n - 1 + 1) by lia|]. split; [|split].
    + apply (effect_step _ _ _ _ _ _ _ _ nothing nothing nothing He4); [by apply word_effect|done|done].
    + intros y [Hy| ->]%Hiff5; [by apply Hsh4|done].
    + change (view (add_tabs g r N) r k) with (view g r k). destruct (view g r k) eqn:Ev; [done|]. right. split; [done|].
      destruct Hwhy as [?|Hno]; [done|]. intros y y' [?| ->]%Hiff5 [?| ->]%Hiff5; try done; by destruct (Hno _ ltac:(eassumption)).
Qed.

(** What the pages of the grown heap are afterwards. *)
Definition grown_page (g : ghost) (w' : kmem) (g' : ghost) (r k : Z) : Prop :=
  match view g r k with
  | Some v => view g' r k = Some v
  | None => (exists x, view g' r k = Some (x, Private) /\ zeroed w' x) \/ (view g' r k = None /\ exhausted w')
  end.
Definition unmapped (g : ghost) (r a b : Z) : Z -> Prop := fun k => within a b k /\ view g r k = None.

Lemma exhausted_shrinks w w' : exhausted w -> shrinks w w' -> exhausted w'.
Proof using. intros He Hs y z Hy Hz. apply He; by apply Hs. Qed.
Lemma effect_zeroed w g w' g' r K x k kd : effect w g w' g' r K nothing -> ~ K k -> view g r k = Some (x, kd) -> zeroed w x -> zeroed w' x.
Proof using. intros He Hk Hv Hz a Ha. rewrite (ef_words _ _ _ _ _ _ _ He (r, k) x kd a); [by apply Hz|by right|exact Hv|by intros []|exact Ha]. Qed.

Lemma grow_heap_mem w m g n r a b : mem_inv w m g n -> is_space g r -> pages_ok a b ->
  exists res, page_loop (page_count (a * PAGE_SIZE) (b * PAGE_SIZE)) (brk_body r) w (a * PAGE_SIZE) = Some res /\
    match res with
    | inl w' => exists g', mem_inv w' m g' n /\ effect w g w' g' r (unmapped g r a b) nothing /\ shrinks w w' /\ (forall k, within a b k -> grown_page g w' g' r k)
    | inr w' => exists g' j, mem_inv w' m g' n /\ effect w g w' g' r (unmapped g r a b) nothing /\ shrinks w w' /\ within a b j /\
        (forall k, within a j k -> grown_page g w' g' r k) /\ forall y, ~ free_at (km_pmm w') y
    end.
Proof using.
  intros Hi Hr Hab.
  set (I := fun j w' => exists g', mem_inv w' m g' n /\ effect w g w' g' r (unmapped g r a j) nothing /\ shrinks w w' /\ (forall k, within a j k -> grown_page g w' g' r k)).
  destruct (range_loop (brk_body r) I (fun j w' => I j w' /\ forall y, ~ free_at (km_pmm w') y) a b w Hab) as ([w'|w'] & -> & Hres).
  - exists g. split; [done|]. split; [apply effect_refl|]. split; [by intros y|]. unfold within. lia.
  - intros j w1 Hj (g1 & Hi1 & He1 & Hs1 & Hp1). destruct (brk_page_mem w1 m g1 n r j Hi1) as ([w2|w2] & -> & Hres); [by apply (ef_space _ _ _ _ _ _ _ He1)|by apply (pages_vm a b)| |].
    + eexists. split; [done|]. destruct Hres as (g2 & Hi2 & He2 & Hs2 & Hp2). assert (view g1 r j = view g r j) as Ev.
      { apply (ef_view _ _ _ _ _ _ _ He1). right. unfold unmapped, within. lia. }
      exists g2. split; [done|]. split; [|split; [intros y Hy; by apply Hs1, Hs2|]].
      * apply (effect_step w g w1 g1 w2 g2 r _ _ _ nothing He1 He2); [unfold unmapped, within; intros k [? ?]; split; [lia|done]|].
        intros k [-> Hv]. rewrite Ev in Hv. split; [unfold within in *; lia|done].
      * intros k Hk. destruct (decide (k = j)) as [->|Hne]; [unfold grown_page; rewrite <- Ev; exact Hp2|]. specialize (Hp1 k ltac:(unfold within in *; lia)). unfold grown_page in *.
        assert (view g2 r k = view g1 r k) as Ek by (apply (ef_view _ _ _ _ _ _ _ He2); right; tauto). rewrite Ek. destruct (view g r k); [done|].
        destruct Hp1 as [(x & Hx & Hz)|[Hx Hz]]; [left; exists x; split; [done|]|right; split; [done|by apply (exhausted_shrinks w1)]].
        apply (effect_zeroed w1 g1 w2 g2 r (fun i => i = j /\ view g1 r i = None) x k Private He2); tauto.
    + eexists. split; [done|]. destruct Hres as [-> Hno]. split; [by exists g1|done].
  - eexists. split; [done|]. exact Hres.
  - eexists. split; [done|]. destruct Hres as (j & Hj & (g' & ? & He & ? & ?) & ?). exists g', j. split; [done|]. split; [|done].
    apply (effect_mono _ _ _ _ _ _ _ _ _ He); [|done]. unfold unmapped, within in *. intros k [? ?]. split; [lia|done].
Qed.

(** All tasks of the address space have the new end. *)
Lemma heap_end_synced ts t x : shared_heap_end (sync_shared_heap_end ts t x) (set_heap_end t x) = x.
Proof using.
  unfold shared_heap_end, shared_max, sync_shared_heap_end. change (ut_heap_end (set_heap_end t x)) with x. induction ts as [|u ts IH]; [done|]. cbn [fmap list_fmap foldl].
  destruct (peer t u) eqn:Ep; rewrite <- IH at 2.
  - rewrite (proj2 (Z.ltb_ge x (ut_heap_end (set_heap_end u x)))) by (cbn; lia). by rewrite andb_false_r.
  - change (peer (set_heap_end t x) u) with (peer t u). by rewrite Ep.
Qed.

(** brk: [brk(0)] asks; a smaller end unmaps the pages above it; a larger end maps cleared private pages between the old
    end and the new one, leaves pages that were mapped as they are, and fails with the old end when no page is
    free.  A page of the new heap may be missing only if no more than one page is free afterwards.  Nothing else
    of this process or of the others changes, and all tasks of the address space see the new end. *)
Theorem sys_brk_correct w m g n ts t addr : mem_inv w m g n -> task_of g t ->
  let brk := shared_heap_end ts t in let old := pages_of brk in let new := pages_of addr in let r := ut_pgd t in
  0 <= brk -> 0 <= addr -> old * PAGE_SIZE <= vm_top -> new * PAGE_SIZE <= vm_top ->
  exists ret w' ts' m' g', sys_brk w ts t addr = Some (ret, w', ts') /\ mem_inv w' m' g' n /\
    ((addr = 0 /\ ret = brk /\ w' = w /\ g' = g /\ ts' = ts) \/
     (0 < addr <= brk /\ ret = addr /\ ts' = sync_shared_heap_end ts t addr /\ shared_heap_end ts' (set_heap_end t addr) = addr /\
       effect w g w' g' r (within new old) nothing /\ forall k, within new old k -> view g' r k = None) \/
     (brk < addr /\ ret = addr /\ ts' = sync_shared_heap_end ts t addr /\ shared_heap_end ts' (set_heap_end t addr) = addr /\
       effect w g w' g' r (unmapped g r old new) nothing /\ forall k, within old new k -> grown_page g w' g' r k) \/
     (brk < addr /\ ret = brk /\ ts' = ts /\ effect w g w' g' r (unmapped g r old new) nothing /\ forall y, ~ free_at (km_pmm w') y)).
Proof using.
  intros Hi [Hu Hsp Hr0 Hbase] brk old new r Hb0 Ha0 Hold Hnew. unfold sys_brk. rewrite Hu. cbn [negb]. fold brk. pose proof vm_top_range.
  assert (forall x, 0 <= x -> pages_of x * PAGE_SIZE <= vm_top -> ALIGN_UP x PAGE_SIZE = pages_of x * PAGE_SIZE) as Hup.
  { intros x Hx Hp. apply ALIGN_UP_page. pose proof (pages_of_bounds x). lia. }
  rewrite !Hup by done. fold old new. assert (forall x y, x <= y -> pages_of x <= pages_of y) as Hmono by (intros x y Hxy; apply Z.div_le_mono; lia).
  assert (0 <= new) as Hn0 by (apply Z.div_pos; lia). assert (0 <= old) as Ho0 by (apply Z.div_pos; lia).
  destruct (Z.eqb_spec addr 0) as [->|Hne]; [exists brk, w, ts, m, g; split; [done|]; split; [done|]; by left|]. destruct (Z.leb_spec addr brk) as [Hle|Hgt].
  - specialize (Hmono addr brk Hle). fold old new in Hmono. destruct (Z.ltb_spec (new * PAGE_SIZE) (old * PAGE_SIZE)).
    + destruct (unmap_range_mem w m g n r new old Hi Hsp Hr0) as (c & w' & m' & g' & E & Hi' & He & Hv & _); [split; lia|lia|].
      replace (old * PAGE_SIZE - new * PAGE_SIZE) with ((old - new) * PAGE_SIZE) by lia. fold r. rewrite E. cbn [mbind option_bind].
      eexists _, _, _, m', g'. split; [done|]. split; [done|]. right; left. split; [lia|]. split; [done|]. split; [done|]. split; [apply heap_end_synced|done].
    + cbn [mbind option_bind]. eexists _, _, _, m, g. split; [done|]. split; [done|]. right; left. split; [lia|]. split; [done|]. split; [done|].
      split; [apply heap_end_synced|]. split; [apply effect_refl|]. unfold within. lia.
  - specialize (Hmono brk addr ltac:(lia)). fold old new in Hmono. destruct (grow_heap_mem w m g n r old new Hi Hsp) as ([w'|w'] & E & Hres); [split; lia| |]; fold r; rewrite E; cbn [mbind option_bind].
    + destruct Hres as (g' & Hi' & He & _ & Hp). eexists _, _, _, m, g'. split; [done|]. split; [done|]. right; right; left. split; [done|]. split; [done|]. split; [done|]. split; [apply heap_end_synced|done].
    + destruct Hres as (g' & j & Hi' & He & _ & _ & _ & Hno). eexists _, _, _, m, g'. split; [done|]. split; [done|]. by right; right; right.
Qed.
End brk.
