(* ===== verification/UserMap.v ===== *)
(** * mmap keeps the memory of all processes

    The search for room, the new pages of an anonymous mapping, of a file and of a device buffer. *)

From stdpp Require Import options.
From Stdlib Require Import Lia.
From S2P Require Import Prelude Bitmap Pmm SharedPage PhysMem PageTable Teardown Riscv64 AddrSpace UserMem UserSpaces UserOps.

Abbreviation STACK_PAGE := 458496.

Section search.
Context {VO : vm_ops} {VL : vm_laws}.

(** ** The search for room *)

(** Page [j] is next, the [run] pages before it are free, and no room was passed over. *)
Record searched (g : ghost) (r lo cnt j run cand : Z) : Prop := mk_sd {
  sd_run : 0 <= run < cnt /\ lo <= j - run;
  sd_cand : run <> 0 -> cand = (j - run) * PAGE_SIZE;
  sd_free : forall k, within (j - run) j k -> view g r k = None;
  sd_edge : j - run = lo \/ view g r (j - run - 1) <> None;
  sd_none : forall a, lo <= a -> a + cnt <= j -> exists k, within a (a + cnt) k /\ view g r k <> None;
}.

Lemma searched_mapped g r lo cnt j run cand : searched g r lo cnt j run cand -> view g r j <> None -> searched g r lo cnt (j + 1) 0 cand.
Proof using.
  intros [Hr Hc Hf He Hn] Hv. split; [lia|done|unfold within; lia|right; by replace (j + 1 - 0 - 1) with j by lia|].
  intros a Ha Hj. destruct (decide (a + cnt = j + 1)); [exists j; split; [unfold within; lia|done]|apply Hn; lia].
Qed.
Lemma searched_free g r lo cnt j run cand : searched g r lo cnt j run cand -> view g r j = None -> run + 1 < cnt ->
  searched g r lo cnt (j + 1) (run + 1) (if run =? 0 then j * PAGE_SIZE else cand).
Proof using.
  intros [Hr Hc Hf He Hn] Hv Hlt. replace (j + 1 - (run + 1)) with (j - run) by lia. split; replace (j + 1 - (run + 1)) with (j - run) by lia; [lia| | |done|].
  - intros _. destruct (Z.eqb_spec run 0) as [->|]; [f_equal; lia|by apply Hc].
  - intros k Hk. destruct (decide (k = j)) as [->|]; [done|]. apply Hf. unfold within in *. lia.
  - intros a Ha Hj. destruct (decide (a + cnt = j + 1)) as [E|]; [|apply Hn; lia]. destruct He as [?|He]; [lia|]. exists (j - run - 1). split; [unfold within; lia|done].
Qed.

Lemma gap_search_from w g r lo cnt h : spaces_inv w g -> is_space g r -> 0 <= lo -> h * PAGE_SIZE <= vm_top -> (h + 1 + cnt) * PAGE_SIZE < U64_MOD ->
  forall fuel j run cand, searched g r lo cnt j run cand -> j <= h + 1 \/ j = lo -> (j + cnt) * PAGE_SIZE < U64_MOD -> h - cnt - j + 1 < Z.of_nat fuel -> (0 < fuel)%nat ->
  exists res, gap_search fuel w r (cnt * PAGE_SIZE) (h * PAGE_SIZE) (j * PAGE_SIZE) run cand = Some res /\
    match res with
    | Some c => exists a, c = a * PAGE_SIZE /\ lo <= a /\ a + 2 * cnt - 1 <= h /\ forall k, within a (a + cnt) k -> view g r k = None
    | None => forall a, lo <= a -> a + 2 * cnt - 1 <= h -> exists k, within a (a + cnt) k /\ view g r k <> None
    end.
Proof using.
  intros Hs Hr Hlo Htop Hmax. induction fuel as [|fuel IH]; intros j run cand Hsd Hj Hfit Hfuel Hpos; [lia|]. cbn [gap_search]. pose proof Hsd as [Hrun Hc Hf He Hn].
  replace (u64 (j * PAGE_SIZE + cnt * PAGE_SIZE)) with ((j + cnt) * PAGE_SIZE) by (unfold u64; rewrite Z.mod_small by lia; lia).
  destruct (Z.ltb_spec (h * PAGE_SIZE) ((j + cnt) * PAGE_SIZE)); [eexists; split; [done|]; intros a Ha Hfit'; apply Hn; lia|].
  rewrite (paddr_mem w g) by (try done; unfold vm_page; lia). cbn [mbind option_bind].
  replace (u64 (j * PAGE_SIZE + PAGE_SIZE)) with ((j + 1) * PAGE_SIZE) by (unfold u64; rewrite Z.mod_small by lia; lia).
  destruct (view g r j) as [[f kd]|] eqn:Ev.
  - destruct (view_frame w g r _ _ _ Hs Ev) as (_ & [Hfr _] & _). rewrite (proj2 (Z.eqb_neq f 0)) by lia.
    apply IH; [apply (searched_mapped g r lo cnt j run); [done|congruence]|lia|lia|lia|lia].
  - cbn [Z.eqb]. rewrite Z.div_mul by lia. destruct (Z.leb_spec cnt (run + 1)).
    + eexists. split; [done|]. exists (j - run). split; [destruct (Z.eqb_spec run 0) as [->|]; [f_equal; lia|by apply Hc]|]. split; [lia|]. split; [lia|].
      intros k Hk. destruct (decide (k = j)) as [->|]; [done|]. apply Hf. unfold within in *. lia.
    + apply IH; [by apply searched_free|lia|lia|lia|lia].
Qed.

(** The search ends within its fuel. *)
Lemma gap_search_mem w g r lo cnt : spaces_inv w g -> is_space g r -> 0 <= lo -> 0 < cnt -> STACK_PAGE * PAGE_SIZE <= vm_top -> (lo + STACK_PAGE + 2 + cnt) * PAGE_SIZE < U64_MOD ->
  exists res, gap_search GAP_FUEL w r (cnt * PAGE_SIZE) (USER_STACK_TOP - USER_STACK_SIZE) (lo * PAGE_SIZE) 0 0 = Some res /\
    match res with
    | Some c => exists a, c = a * PAGE_SIZE /\ lo <= a /\ a + 2 * cnt - 1 <= STACK_PAGE /\ forall k, within a (a + cnt) k -> view g r k = None
    | None => forall a, lo <= a -> a + 2 * cnt - 1 <= STACK_PAGE -> exists k, within a (a + cnt) k /\ view g r k <> None
    end.
Proof using.
  intros Hs Hr Hlo Hcnt Htop Hmax. change (USER_STACK_TOP - USER_STACK_SIZE) with (STACK_PAGE * PAGE_SIZE).
  apply (gap_search_from w g r lo cnt STACK_PAGE); [done|done|done|done|lia| |by right|lia| |].
  - split; [lia|done|unfold within; lia|left; lia|]. intros a Ha Hj. lia.
  - unfold GAP_FUEL. rewrite Z2Nat.id by done. change ((USER_STACK_TOP - USER_STACK_SIZE) / PAGE_SIZE) with STACK_PAGE. lia.
  - unfold GAP_FUEL. apply Nat2Z.inj_lt. rewrite Z2Nat.id; done.
Qed.

(** A room that ends within [cnt - 1] pages of the stack is not found, though all its pages be free. *)
Lemma gap_search_misses w g r lo cnt : spaces_inv w g -> is_space g r -> 0 <= lo -> 0 < cnt -> STACK_PAGE * PAGE_SIZE <= vm_top -> (lo + STACK_PAGE + 2 + cnt) * PAGE_SIZE < U64_MOD ->
  STACK_PAGE < lo + 2 * cnt - 1 ->
  gap_search GAP_FUEL w r (cnt * PAGE_SIZE) (USER_STACK_TOP - USER_STACK_SIZE) (lo * PAGE_SIZE) 0 0 = Some None.
Proof using.
  intros Hs Hr Hlo Hcnt Htop Hmax Hno. destruct (gap_search_mem w g r lo cnt Hs Hr Hlo Hcnt Htop Hmax) as ([c|] & -> & Hres); [|done].
  destruct Hres as (a & _ & Ha & Hfit & _). lia.
Qed.
End search.

(** ** Anonymous pages *)

Section anon.
Context {VO : vm_ops} {VL : vm_laws}.

Definition new_kind (flags : Z) : pkind := if has flags MAP_SHARED then Shared else Private.

(** Words of mapped frames stay or are cleared. *)
Definition zeroing (w : kmem) (g : ghost) (w' : kmem) : Prop :=
  forall x f kd a, g_map g !! x = Some (f, kd) -> in_frame f a -> km_word w' a = km_word w a \/ km_word w' a = 0.

(** What the page [k] of a new anonymous mapping is. *)
Definition anon_page (flags : Z) (g : ghost) (w' : kmem) (g' : ghost) (r k : Z) : Prop :=
  match view g r k with
  | Some v => has flags MAP_FIXED = true /\ view g' r k = Some v /\ zeroed w' v.1
  | None => exists x, view g' r k = Some (x, new_kind flags) /\ zeroed w' x
  end.

(** A fresh page becomes the page of its mapping. *)
Lemma fresh_settle flags w m g n r k x : fresh w m g n r k x (has flags MAP_SHARED) ->
  exists w' m', (if has flags MAP_SHARED then vm_mark_nofree w r (k * PAGE_SIZE) else Some w) = Some w' /\
    mem_inv w' m' (put_map g (r, k) (x, new_kind flags)) (n + 1) /\ words_kept w w' (fun t => g_tab g !! t <> None).
Proof using.
  intros Hfr. unfold new_kind. destruct (has flags MAP_SHARED).
  - destruct (fresh_shared w m g n r k x Hfr) as (w' & E & Hi & _ & Hw). by exists w', (<[x := 1]> m).
  - exists w, m. split; [done|]. split; [by apply fresh_private|by intros a].
Qed.

(** Words after it. *)
Lemma settle_words w w' m g n r k x sh : fresh w m g n r k x sh -> words_kept w w' (fun t => g_tab g !! t <> None) ->
  (forall y f kd a, g_map g !! y = Some (f, kd) -> in_frame f a -> km_word w' a = km_word w a) /\ (forall a, in_frame x a -> km_word w' a = km_word w a).
Proof using.
  intros Hfr Hw. pose proof (fr_spaces _ _ _ _ _ _ _ _ Hfr) as Hs. pose proof (fr_none _ _ _ _ _ _ _ _ Hfr) as Hn. split.
  - intros y f kd a Hy. apply (table_words w w' _ y f kd a Hs Hw). cbn. rewrite lookup_insert_ne; [done|]. intros <-. congruence.
  - intros a. apply (table_words w w' _ (r, k) x Private a Hs Hw). apply lookup_insert_eq.
Qed.

(** Writes to the fresh page and its settlement change one page of the address space. *)
Lemma settle_effect w0 g0 w1 w' r N k v : view g0 r k = None -> effect w0 g0 w1 (add_tabs g0 r N) r nothing nothing ->
  (forall y f kd a, g_map g0 !! y = Some (f, kd) -> in_frame f a -> km_word w' a = km_word w1 a) ->
  effect w0 g0 w' (put_map (add_tabs g0 r N) (r, k) v) r (fun j => j = k /\ view g0 r j = None) nothing.
Proof using.
  intros Hv [A1 A2 A3] Hw. split; [done| |].
  - intros r' j Hj. by apply (put_same (add_tabs g0 r N)).
  - intros y f kd a _ Hy HW Ha. rewrite (Hw y f kd a Hy Ha). apply (A3 y f kd a); [right; by intros []|done|done|done].
Qed.

Lemma effect_all w g w' g' r W : effect w g w' g' r nothing W -> (forall y f kd a, g_map g !! y = Some (f, kd) -> ~ W f -> in_frame f a -> km_word w' a = km_word w a).
Proof using. intros He y f kd a Hy HW Ha. apply (ef_words _ _ _ _ _ _ _ He y f kd); [right; by intros []|done|done|done]. Qed.

Definition over (g : ghost) (r k : Z) : Z -> Prop := fun f => exists kd, view g r k = Some (f, kd).

Lemma anon_page_mem w m g n r k flags : mem_inv w m g n -> is_space g r -> vm_page k ->
  exists res, anon_body r flags w (k * PAGE_SIZE) = Some res /\
    match res with
    | inr w' => exists g', mem_inv w' m g' n /\ effect w g w' g' r nothing nothing /\ zeroing w g w' /\ no_page w' m g r k (has flags MAP_SHARED)
    | inl w' => exists m' g', mem_inv w' m' g' n /\ effect w g w' g' r (fun j => j = k /\ view g r j = None) (over g r k) /\ zeroing w g w' /\ anon_page flags g w' g' r k
    end.
Proof using.
  intros Hi Hr Hk. unfold anon_body. pose proof (mi_spaces _ _ _ _ Hi) as Hs.
  assert (exists old, (if has flags MAP_FIXED then vm_paddr w r (k * PAGE_SIZE) else Some 0) = Some old /\
    (old <> 0 -> has flags MAP_FIXED = true /\ exists kd, view g r k = Some (old, kd))) as (old & -> & Hold).
  { destruct (has flags MAP_FIXED); [|by exists 0]. rewrite (paddr_mem w g) by done. eexists. split; [done|]. destruct (view g r k) as [[f kd]|]; [|done]. intros _. split; [done|]. by exists kd. }
  cbn [mbind option_bind]. destruct (Z.eqb_spec old 0) as [->|Hne]; cbn [negb].
  - destruct (new_page_mem true w m g n r k flags Hi Hr Hk) as ([[x w1]|w1] & -> & Hres); cbn [mbind option_bind].
    + destruct Hres as (N & Hfr & He & Hz). specialize (Hz eq_refl). destruct (fresh_settle flags w1 m _ _ r k x Hfr) as (w2 & m2 & E & Hi2 & Hw).
      destruct (settle_words w1 w2 m _ _ r k x _ Hfr Hw) as [Hold' Hnew]. pose proof (fr_none _ _ _ _ _ _ _ _ Hfr) as Hv. change (view g r k = None) in Hv.
      exists (inl w2). split; [by destruct (has flags MAP_SHARED); [rewrite E|injection E as ->]|]. exists m2, (put_map (add_tabs g r N) (r, k) (x, new_kind flags)).
      split; [by replace n with (n - 1 + 1) by lia|]. split; [|split].
      * eapply effect_mono; [by apply (settle_effect w g w1 w2)|done|by intros ? []].
      * intros y f kd a Hy Ha. left. rewrite (Hold' y f kd a Hy Ha). apply (effect_all _ _ _ _ _ _ He y f kd); [done|by intros []|done].
      * unfold anon_page. rewrite Hv. exists x. split; [apply view_put_eq|]. intros a Ha. rewrite Hnew by done. by apply Hz.
    + destruct Hres as (g' & Hi' & _ & He & Hno). exists (inr w1). split; [done|]. exists g'. split; [done|]. split; [done|]. split; [|done].
      intros y f kd a Hy Ha. left. apply (effect_all _ _ _ _ _ _ He y f kd); [done|by intros []|done].
  - destruct (Hold Hne) as [Hfix [kd Hv]]. eexists. split; [done|]. destruct (view_frame w g r k old kd Hs Hv) as (_ & [_ Hal] & _ & Ht). exists m, g.
    assert (forall a, ~ in_frame old a -> km_word (clear_words w old PAGE_SIZE) a = km_word w a) as Hout by (intros a Ha; by apply clear_out).
    split; [by apply (frame_mem w _ m g n old)|]. split; [|split].
    + split; [done|done|]. intros [r' j] f kd' a _ Hy HW Ha. apply Hout. intros Hc. apply HW. exists kd. destruct (si_mapped w g r' j f kd' Hs Hy) as (_ & [_ Hal'] & _).
      by rewrite (frames_apart f old a Hal' Hal Ha Hc).
    + intros y f kd' a Hy Ha. destruct (decide (old <= a < old + PAGE_SIZE)); [right; by apply clear_in|left; by apply Hout].
    + unfold anon_page. rewrite Hv. split; [done|]. split; [done|]. intros a Ha. by apply clear_in.
Qed.

Definition covered (g : ghost) (r a b : Z) : Z -> Prop := fun f => exists k, within a b k /\ over g r k f.

(** An effect on unmapped pages keeps the mappings. *)
Lemma effect_keeps w g w' g' r a b W y v : effect w g w' g' r (unmapped g r a b) W -> g_map g !! y = Some v -> g_map g' !! y = Some v.
Proof using.
  intros He Hy. destruct y as [r' k]. change (view g' r' k = Some v). rewrite (ef_view _ _ _ _ _ _ _ He); [done|]. destruct (decide (r' = r)) as [->|]; [right|by left].
  intros [_ Hn]. unfold view in Hn. congruence.
Qed.
(** One more page. *)
Lemma effect_next w g w1 g1 w2 g2 r a j : a <= j -> effect w g w1 g1 r (unmapped g r a j) (covered g r a j) ->
  effect w1 g1 w2 g2 r (fun i => i = j /\ view g1 r i = None) (over g1 r j) -> effect w g w2 g2 r (unmapped g r a (j + 1)) (covered g r a (j + 1)).
Proof using.
  intros Hj He1 He2. assert (view g1 r j = view g r j) as Ev by (apply (ef_view _ _ _ _ _ _ _ He1); right; unfold unmapped, within; lia).
  apply (effect_compose w g w1 g1).
  - eapply effect_mono; [exact He1|unfold unmapped, within; intros k [? ?]; split; [lia|done]|]. intros f (k & Hk & Ho). exists k. split; [unfold within in *; lia|done].
  - eapply effect_mono; [exact He2| |].
    + intros k [-> Hn]. rewrite Ev in Hn. split; [unfold within; lia|done].
    + intros f [kd Hf]. rewrite Ev in Hf. exists j. split; [unfold within; lia|by exists kd].
Qed.

Lemma anon_range_mem w m g n r flags a b : mem_inv w m g n -> is_space g r -> pages_ok a b ->
  exists res, page_loop (page_count (a * PAGE_SIZE) (b * PAGE_SIZE)) (anon_body r flags) w (a * PAGE_SIZE) = Some res /\
    match res with
    | inl w' => exists m' g', mem_inv w' m' g' n /\ effect w g w' g' r (unmapped g r a b) (covered g r a b) /\ forall k, within a b k -> anon_page flags g w' g' r k
    | inr w' => exists m' g' j, mem_inv w' m' g' n /\ effect w g w' g' r (unmapped g r a b) (covered g r a b) /\ within a b j /\ no_page w' m' g r j (has flags MAP_SHARED)
    end.
Proof using.
  intros Hi Hr Hab.
  set (J := fun j w' m' g' => mem_inv w' m' g' n /\ effect w g w' g' r (unmapped g r a j) (covered g r a j) /\ zeroing w g w').
  destruct (range_loop (anon_body r flags) (fun j w' => exists m' g', J j w' m' g' /\ forall k, within a j k -> anon_page flags g w' g' r k)
    (fun j w' => exists m' g', J j w' m' g' /\ no_page w' m' g r j (has flags MAP_SHARED)) a b w Hab) as ([w'|w'] & -> & Hres).
  - exists m, g. split; [split; [done|split; [apply effect_refl|by left]]|]. unfold within. lia.
  - intros j w1 Hj (m1 & g1 & (Hi1 & He1 & Hz1) & Hp1). assert (a <= j) as Haj by (unfold within in Hj; lia).
    assert (view g1 r j = view g r j) as Ev by (apply (ef_view _ _ _ _ _ _ _ He1); right; unfold unmapped, within; lia).
    assert (forall w2, zeroing w1 g1 w2 -> zeroing w g w2) as Hzz.
    { intros w2 Hz2 y f kd x Hy Hx. destruct (Hz2 y f kd x (effect_keeps _ _ _ _ _ _ _ _ _ _ He1 Hy) Hx) as [->|?]; [by apply (Hz1 y f kd)|by right]. }
    destruct (anon_page_mem w1 m1 g1 n r j flags Hi1) as ([w2|w2] & -> & Hres); [by apply (ef_space _ _ _ _ _ _ _ He1)|by apply (pages_vm a b)| |]; (eexists; split; [done|]).
    + destruct Hres as (m2 & g2 & Hi2 & He2 & Hz2 & Hp2). exists m2, g2. split; [split; [done|split; [by apply (effect_next w g w1 g1)|by apply Hzz]]|].
      intros k Hk. destruct (decide (k = j)) as [->|Hne]; [unfold anon_page in *; by rewrite <- Ev|]. specialize (Hp1 k ltac:(unfold within in *; lia)). unfold anon_page in *.
      assert (view g2 r k = view g1 r k) as Ek by (apply (ef_view _ _ _ _ _ _ _ He2); right; tauto).
      assert (forall x kd, view g1 r k = Some (x, kd) -> zeroed w1 x -> zeroed w2 x) as Hst.
      { intros x kd Hx Hz c Hc. destruct (Hz2 (r, k) x kd c Hx Hc) as [->|?]; [by apply Hz|done]. }
      rewrite Ek. destruct (view g r k) as [[x kd]|]; [destruct Hp1 as (? & Hx & ?); split_and!; try done; by apply (Hst x kd)|].
      destruct Hp1 as (x & Hx & ?). exists x. split; [done|]. by apply (Hst x (new_kind flags)).
    + destruct Hres as (g2 & Hi2 & He2 & Hz2 & Hno). exists m1, g2. split; [split; [done|split; [|by apply Hzz]]|].
      * apply (effect_compose w g w1 g1); [done|]. eapply effect_mono; [exact He2|by intros ? []|by intros ? []].
      * unfold no_page in *. by rewrite <- Ev.
  - eexists. split; [done|]. destruct Hres as (m' & g' & (? & ? & _) & ?). by exists m', g'.
  - eexists. split; [done|]. destruct Hres as (j & Hj & m' & g' & (? & He & _) & ?). exists m', g', j. split; [done|]. split; [|done]. eapply effect_mono; [exact He| |].
    + unfold unmapped, within in *. intros k [? ?]. split; [lia|done].
    + intros f (k & Hk & Ho). exists k. split; [unfold within in *; lia|done].
Qed.

(** ** mmap of anonymous memory *)

Lemma range_ok_pages a c : 0 <= a -> a * PAGE_SIZE < U64_MOD -> 0 < c -> c * PAGE_SIZE < U64_MOD ->
  mmap_user_range_ok (a * PAGE_SIZE) (c * PAGE_SIZE) = true <-> 1 <= a /\ a + c <= STACK_PAGE.
Proof using.
  intros Ha Ham Hc Hcm. unfold mmap_user_range_ok. rewrite (proj2 (Z.eqb_neq (c * PAGE_SIZE) 0)) by lia. cbn [orb]. unfold u64.
  destruct (decide (a * PAGE_SIZE + c * PAGE_SIZE < U64_MOD)) as [Hs|Hs].
  - rewrite Z.mod_small by lia. rewrite (proj2 (Z.ltb_ge _ _)) by lia. destruct (Z.ltb_spec (a * PAGE_SIZE) PAGE_SIZE); [split; [done|lia]|].
    destruct (Z.ltb_spec (USER_STACK_TOP - USER_STACK_SIZE) (a * PAGE_SIZE + c * PAGE_SIZE)); cbn [negb]; (split; [intros; try done; lia|intros; try done; lia]).
  - replace ((a * PAGE_SIZE + c * PAGE_SIZE) mod U64_MOD) with (a * PAGE_SIZE + c * PAGE_SIZE - U64_MOD).
    + rewrite (proj2 (Z.ltb_lt _ _)) by lia. split; [done|lia].
    + apply (Z.mod_unique_pos _ _ 1); lia.
Qed.

Lemma map_pages_anon w m g n ts t flags a c : mem_inv w m g n -> task_of g t -> 1 <= a -> 0 < c -> a + c <= STACK_PAGE -> STACK_PAGE * PAGE_SIZE <= vm_top ->
  let r := ut_pgd t in
  exists ret w' ts' m' g', map_pages_at w ts t flags (a * PAGE_SIZE) (c * PAGE_SIZE) (anon_body r flags) = Some (ret, w', ts') /\ mem_inv w' m' g' n /\
    effect w g w' g' r (unmapped g r a (a + c)) (covered g r a (a + c)) /\
    ((ret = a * PAGE_SIZE /\ ts' = (if has flags MAP_FIXED then ts else sync_shared_mmap_next ts t ((a + c) * PAGE_SIZE)) /\ forall k, within a (a + c) k -> anon_page flags g w' g' r k) \/
     (ret = MMAP_FAILED /\ ts' = ts /\ exists j, within a (a + c) j /\ no_page w' m' g r j (has flags MAP_SHARED))).
Proof using.
  intros Hi [Hu Hsp Hr0 Hbase] Ha Hc Hfit Htop r. unfold map_pages_at. replace (a * PAGE_SIZE + c * PAGE_SIZE) with ((a + c) * PAGE_SIZE) by lia. pose proof vm_top_range.
  destruct (anon_range_mem w m g n r flags a (a + c) Hi Hsp) as ([w'|w'] & -> & Hres); [split; lia| |]; cbn [mbind option_bind].
  - destruct Hres as (m' & g' & Hi' & He & Hp). eexists _, _, _, m', g'. split; [done|]. split; [done|]. split; [done|]. left. split; [done|]. split; [|done].
    unfold u64. by rewrite Z.mod_small by lia.
  - destruct Hres as (m' & g' & j & Hi' & He & Hp). eexists _, _, _, m', g'. split; [done|]. split; [done|]. split; [done|]. right. split; [done|]. split; [done|]. by exists j.
Qed.

(** Where an anonymous mapping goes. *)
Definition anon_place (w : kmem) (ts : list utask) (t : utask) (addr size flags : Z) : option (option Z) :=
  let map_addr := if has flags MAP_FIXED then addr else ALIGN_UP (shared_mmap_next ts t) PAGE_SIZE in
  if negb (has flags MAP_FIXED) && negb (mmap_user_range_ok map_addr size) then
    gap_search GAP_FUEL w (ut_pgd t) size (USER_STACK_TOP - USER_STACK_SIZE) (ALIGN_UP (ut_heap_end t) PAGE_SIZE) 0 0
  else Some (Some map_addr).

Definition room (g : ghost) (r lo c : Z) : Prop := exists a, lo <= a /\ a + 2 * c - 1 <= STACK_PAGE /\ forall k, within a (a + c) k -> view g r k = None.

Lemma anon_place_mem w g ts t addr flags c : spaces_inv w g -> task_of g t -> STACK_PAGE * PAGE_SIZE <= vm_top ->
  0 <= addr < U64_MOD -> addr mod PAGE_SIZE = 0 \/ has flags MAP_FIXED = false -> 0 < c -> 0 <= shared_mmap_next ts t <= U64_MOD - PAGE_SIZE -> 0 < ut_heap_end t ->
  ut_heap_end t + c * PAGE_SIZE + 2 ^ 32 <= U64_MOD ->
  exists res, anon_place w ts t addr (c * PAGE_SIZE) flags = Some res /\
    match res with
    | None => has flags MAP_FIXED = false /\ ~ room g (ut_pgd t) (pages_of (ut_heap_end t)) c
    | Some x => exists a, x = a * PAGE_SIZE /\ 0 <= a /\ x < U64_MOD /\
        if has flags MAP_FIXED then x = addr
        else a = pages_of (shared_mmap_next ts t) /\ 1 <= a /\ a + c <= STACK_PAGE \/
             pages_of (ut_heap_end t) <= a /\ a + 2 * c - 1 <= STACK_PAGE /\ forall k, within a (a + c) k -> view g (ut_pgd t) k = None
    end.
Proof using.
  intros Hs [Hu Hsp Hr0 Hbase] Htop Haddr Hal Hc Hnext Hheap Hmax. unfold anon_place. cbv zeta. pose proof (Z_div_mod_eq_full addr PAGE_SIZE). pose proof (Z.div_pos addr PAGE_SIZE).
  destruct (has flags MAP_FIXED) eqn:Hfix; cbn [negb andb].
  { exists (Some addr). split; [done|]. exists (addr / PAGE_SIZE). destruct Hal as [Hal|]; [|done]. lia. }
  rewrite (ALIGN_UP_page (shared_mmap_next ts t)) by lia. fold (pages_of (shared_mmap_next ts t)). set (a := pages_of (shared_mmap_next ts t)).
  pose proof (pages_of_bounds (shared_mmap_next ts t)) as Hpa. fold a in Hpa. pose proof (range_ok_pages a c ltac:(lia) ltac:(lia) Hc ltac:(lia)) as Hok.
  destruct (mmap_user_range_ok (a * PAGE_SIZE) (c * PAGE_SIZE)); cbn [negb].
  - exists (Some (a * PAGE_SIZE)). split; [done|]. exists a. destruct (proj1 Hok eq_refl). split; [done|]. split; [lia|]. split; [lia|]. by left.
  - pose proof (pages_of_bounds (ut_heap_end t)) as Hph. rewrite ALIGN_UP_page by lia. fold (pages_of (ut_heap_end t)). set (lo := pages_of (ut_heap_end t)) in *.
    destruct (gap_search_mem w g (ut_pgd t) lo c Hs Hsp) as ([x|] & -> & Hres); [lia|lia|lia|lia| |]; (eexists; split; [done|]).
    + destruct Hres as (b & -> & Hlo & Hfit & Hv). exists b. split; [done|]. split; [lia|]. split; [lia|]. by right.
    + split; [done|]. intros (b & Hlo & Hfit & Hv). destruct (Hres b Hlo Hfit) as (k & Hk & Hn). by apply Hn, Hv.
Qed.

Lemma mmap_anon_unfold w ts t addr len flags : mmap_anon w ts t addr len flags =
  if len =? 0 then Some (u64 (- EINVAL), w, ts)
  else if has flags MAP_FIXED && negb (Z.land addr (PAGE_SIZE - 1) =? 0) then Some (u64 (- EINVAL), w, ts)
  else
    place ← anon_place w ts t addr (ALIGN_UP len PAGE_SIZE) flags;
    match place with
    | None => Some (u64 (- ENOMEM), w, ts)
    | Some x => if negb (mmap_user_range_ok x (ALIGN_UP len PAGE_SIZE)) then Some (u64 (- ENOMEM), w, ts) else map_pages_at w ts t flags x (ALIGN_UP len PAGE_SIZE) (anon_body (ut_pgd t) flags)
    end.
Proof using. done. Qed.

(** An anonymous mmap: the call is refused with EINVAL or ENOMEM and changes nothing, or its pages are below the stack and all mapped
    when it succeeds: each new page is cleared, private or shared as asked, and with MAP_FIXED a page that was mapped stays and is
    cleared; without MAP_FIXED none of the pages was mapped before.  Else the call fails because memory, or the table of
    shared pages, is exhausted, or because a page was mapped.  In all cases the other pages and the other processes keep
    mappings and contents, and every frame has its owner. *)
Theorem mmap_anon_correct w m g n ts t addr len flags offset bk : mem_inv w m g n -> task_of g t -> has flags MAP_ANONYMOUS = true ->
  STACK_PAGE * PAGE_SIZE <= vm_top -> 0 <= addr < U64_MOD -> 0 <= len -> 0 <= shared_mmap_next ts t <= U64_MOD - PAGE_SIZE -> 0 < ut_heap_end t ->
  ut_heap_end t + len + 2 ^ 33 <= U64_MOD -> forall vfs_read_to_phys,
  let c := pages_of len in let r := ut_pgd t in
  exists ret w' ts' m' g', sys_mmap vfs_read_to_phys w ts t addr len flags offset bk = Some (ret, w', ts') /\ mem_inv w' m' g' n /\
    ((ret = u64 (- EINVAL) /\ w' = w /\ ts' = ts /\ (len = 0 \/ has flags MAP_FIXED = true /\ addr mod PAGE_SIZE <> 0)) \/
     (ret = u64 (- ENOMEM) /\ w' = w /\ ts' = ts /\
       if has flags MAP_FIXED then addr < PAGE_SIZE \/ STACK_PAGE * PAGE_SIZE < addr + c * PAGE_SIZE else ~ room g r (pages_of (ut_heap_end t)) c) \/
     exists a, 1 <= a /\ a + c <= STACK_PAGE /\ (has flags MAP_FIXED = true -> addr = a * PAGE_SIZE) /\
       effect w g w' g' r (unmapped g r a (a + c)) (covered g r a (a + c)) /\
       ((ret = a * PAGE_SIZE /\ ts' = (if has flags MAP_FIXED then ts else sync_shared_mmap_next ts t ((a + c) * PAGE_SIZE)) /\ forall k, within a (a + c) k -> anon_page flags g w' g' r k) \/
        (ret = MMAP_FAILED /\ ts' = ts /\ exists j, within a (a + c) j /\ no_page w' m' g r j (has flags MAP_SHARED)))).
Proof using.
  intros Hi Ht Hanon Htop Haddr Hlen Hnext Hheap Hmax vfs c r. unfold sys_mmap. rewrite (tk_user _ _ Ht), Hanon. cbn [negb]. rewrite mmap_anon_unfold.
  destruct (Z.eqb_spec len 0) as [->|Hl]; [eexists _, _, _, m, g; split; [done|]; split; [done|]; left; by split_and!; auto|].
  assert (Z.land addr (PAGE_SIZE - 1) = addr mod PAGE_SIZE) as -> by (change (PAGE_SIZE - 1) with (Z.ones 12); by rewrite Z.land_ones by lia).
  destruct (has flags MAP_FIXED && negb (addr mod PAGE_SIZE =? 0)) eqn:Hbad.
  { apply andb_true_iff in Hbad as [Hfix Hm%negb_true_iff%Z.eqb_neq]. eexists _, _, _, m, g. split; [done|]. split; [done|]. left. by split_and!; auto. }
  assert (addr mod PAGE_SIZE = 0 \/ has flags MAP_FIXED = false) as Hal.
  { apply andb_false_iff in Hbad as [?|Hm%negb_false_iff%Z.eqb_eq]; auto. }
  assert (0 < c /\ c * PAGE_SIZE < len + PAGE_SIZE) as [Hc Hcs].
  { pose proof (pages_of_bounds len). unfold c. lia. }
  rewrite ALIGN_UP_page by lia. fold (pages_of len). fold c.
  destruct (anon_place_mem w g ts t addr flags c (mi_spaces _ _ _ _ Hi) Ht Htop Haddr Hal Hc Hnext Hheap ltac:(lia)) as ([x|] & -> & Hpl); cbn [mbind option_bind].
  - destruct Hpl as (a & -> & Ha0 & Hax & Hpl). pose proof (range_ok_pages a c Ha0 Hax Hc ltac:(lia)) as Hok.
    destruct (mmap_user_range_ok (a * PAGE_SIZE) (c * PAGE_SIZE)); cbn [negb].
    + destruct (proj1 Hok eq_refl) as [Ha1 Hfit]. destruct (map_pages_anon w m g n ts t flags a c Hi Ht Ha1 Hc Hfit Htop) as (ret & w' & ts' & m' & g' & E & Hi' & He & Hres).
      exists ret, w', ts', m', g'. split; [done|]. split; [done|]. right; right. exists a. split; [done|]. split; [done|]. split; [|done]. intros Hfix. by rewrite Hfix in Hpl.
    + eexists _, _, _, m, g. split; [done|]. split; [done|]. right; left. split; [done|]. split; [done|]. split; [done|].
      assert (~ (1 <= a /\ a + c <= STACK_PAGE)) as Hout by (intros H; by apply Hok in H). destruct (has flags MAP_FIXED); [lia|]. exfalso. apply Hout.
      destruct Hpl as [(_ & ? & ?)|(? & ? & _)]; [done|]. pose proof (pages_of_pos (ut_heap_end t) Hheap). lia.
  - destruct Hpl as [Hfix Hno]. eexists _, _, _, m, g. split; [done|]. split; [done|]. right; left. split; [done|]. split; [done|]. split; [done|]. by rewrite Hfix.
Qed.
End anon.
