(* ===== verification/UserFile.v ===== *)
(** * mmap of files and device buffers *)

From stdpp Require Import options.
From Stdlib Require Import Lia.
From S2P Require Import Prelude Bitmap Pmm SharedPage PhysMem PageTable Teardown Riscv64 AddrSpace UserMem UserSpaces UserOps UserMap.

(** [vfs_read_to_phys]: the bytes of the file that exist are written, nothing else is. *)
Class reads (vfs_read_to_phys : kmem -> Z -> Z -> Z -> kmem) (file : Z -> Z) (fsize : Z) : Prop := {
  rd_pmm w off pa n : km_pmm (vfs_read_to_phys w off pa n) = km_pmm w;
  rd_shared w off pa n : km_shared (vfs_read_to_phys w off pa n) = km_shared w;
  rd_word w off pa n a : km_word (vfs_read_to_phys w off pa n) a =
    if (pa <=? a) && (a <? pa + n) && (off + (a - pa) <? fsize) then file (off + (a - pa)) else km_word w a;
}.

Section file.
Context {VO : vm_ops} {VL : vm_laws} (vfs_read_to_phys : kmem -> Z -> Z -> Z -> kmem) (file : Z -> Z) (fsize : Z) `{!reads vfs_read_to_phys file fsize}.

(** Byte [i] of a mapping of [len] bytes at [offset]. *)
Definition file_byte (len offset i : Z) : Z := if (i <? len) && (offset + i <? fsize) then file (offset + i) else 0.
Definition holds_file (len offset : Z) (w : kmem) (f i : Z) : Prop := forall a, in_frame f a -> km_word w a = file_byte len offset (i * PAGE_SIZE + (a - f)).

(** The page is cleared and read. *)
Definition fill_page (w : kmem) (pa len offset page_off : Z) : kmem :=
  let w := clear_words w pa PAGE_SIZE in
  let to_read := if len <? u64 (page_off + PAGE_SIZE) then u64 (len - page_off) else PAGE_SIZE in
  if 0 <? to_read then vfs_read_to_phys w (u64 (offset + page_off)) pa to_read else w.

Lemma fill_page_spec w f len offset i : 0 <= i -> i * PAGE_SIZE < len -> 0 <= offset -> offset + len + PAGE_SIZE <= U64_MOD ->
  let w' := fill_page w f len offset (i * PAGE_SIZE) in
  km_pmm w' = km_pmm w /\ km_shared w' = km_shared w /\ (forall a, ~ in_frame f a -> km_word w' a = km_word w a) /\ holds_file len offset w' f i.
Proof using All.
  intros Hi Hlen Hoff Hmax w'. unfold w', fill_page.
  replace (if len <? u64 (i * PAGE_SIZE + PAGE_SIZE) then u64 (len - i * PAGE_SIZE) else PAGE_SIZE) with (Z.min (len - i * PAGE_SIZE) PAGE_SIZE).
  2: { unfold u64. rewrite !Z.mod_small by lia. destruct (Z.ltb_spec len (i * PAGE_SIZE + PAGE_SIZE)); lia. }
  replace (u64 (offset + i * PAGE_SIZE)) with (offset + i * PAGE_SIZE) by (unfold u64; rewrite Z.mod_small by lia; lia).
  rewrite (proj2 (Z.ltb_lt 0 _)) by lia. set (c := Z.min _ _). rewrite rd_pmm, rd_shared. split; [done|]. split; [done|]. split.
  - intros a Ha. unfold in_frame in Ha. rewrite rd_word. destruct (Z.leb_spec f a), (Z.ltb_spec a (f + c)); cbn [andb]; try (by apply clear_out). lia.
  - intros a Ha. rewrite rd_word. unfold in_frame in Ha. unfold file_byte. rewrite (clear_in w f) by lia. rewrite (proj2 (Z.leb_le f a)) by lia.
    replace (offset + i * PAGE_SIZE + (a - f)) with (offset + (i * PAGE_SIZE + (a - f))) by lia.
    replace (a <? f + c) with (i * PAGE_SIZE + (a - f) <? len); [done|]. destruct (Z.ltb_spec a (f + c)), (Z.ltb_spec (i * PAGE_SIZE + (a - f)) len); lia.
Qed.

(** A private page gets a reference and becomes shared. *)
Lemma share_private w m g n r k f : mem_inv w m g n -> view g r k = Some (f, Private) ->
  exists ok s, shared_page_ref (km_shared w) f = Some (ok, s) /\
    if ok : bool
    then exists w', vm_mark_nofree (set_shared w s) r (k * PAGE_SIZE) = Some w' /\ mem_inv w' (<[f := 1]> m) (put_map g (r, k) (f, Shared)) n /\
      words_kept w w' (fun t => g_tab g !! t <> None)
    else mem_inv (set_shared w s) m g n /\ Z.of_nat (size m) = SHARED_PAGE_MAX.
Proof using.
  intros [Hs Hf Hrep] Hv. destruct (view_frame w g r k f Private Hs Hv) as (_ & Hp & _ & _). destruct (sp_ref_refines (km_shared w) m f Hrep) as (s & -> & Hrep').
  assert (nshared g f = 0%nat) as E0. { apply nshared_unmapped. intros y Hy. pose proof (fi_kinds _ _ _ _ Hf y (r, k) f Private Hy Hv). done. }
  pose proof (fi_ref _ _ _ _ Hf f) as Em. rewrite E0, decide_True in Em by done.
  eexists _, s. split; [done|]. unfold spec_ref in *. rewrite (page_valid f Hp), Em in *. cbn [negb] in *.
  destruct (Z.eqb_spec (Z.of_nat (size m)) SHARED_PAGE_MAX); cbn [fst snd] in *; [split; [|done]; split; [by apply shared_spaces|done|done]|].
  pose proof (shared_spaces w s g Hs) as Hs1. pose proof (si_space _ _ Hs1 r (si_page _ _ Hs _ _ Hv)) as Hsp.
  destruct (mark_nofree_law _ r _ _ k f Private Hsp Hv ltac:(done)) as (w' & E & Ep & Es & Hw & Hsp'). exists w'. split; [done|]. split.
  - split; [by apply (mark_spaces (set_shared w s) w' g r k f Private Shared Hs1 Hv Ep Hw Hsp')| |by rewrite Es]. rewrite Ep. cbn [km_pmm set_shared].
    pose proof (frames_del _ _ _ _ _ _ _ Hf Hv) as Hd. rewrite decide_True in Hd by (by left). cbn [after_unmap] in Hd.
    pose proof (nshared_del g (r, k) f Private f Hv) as En. rewrite decide_False in En by (by intros []).
    pose proof (frames_shared _ _ _ _ (r, k) f Hd) as Hsh. rewrite decide_True in Hsh by lia. replace (nshared (del_map g (r, k)) f) with 0%nat in Hsh by lia.
    replace (n - 1 + 1) with n in Hsh by lia. unfold put_map, del_map in *. cbn [g_map g_tab] in *. rewrite insert_delete_eq in Hsh. apply Hsh.
    + by apply (fi_owned _ _ _ _ Hf (r, k) f Private).
    + apply lookup_delete_eq.
    + intros y kd. rewrite lookup_delete_Some. intros [Hne Hy]. destruct Hne. by apply (fi_private _ _ _ _ Hf (r, k) y f kd).
  - intros a Ha. apply (Hw a). intros t Ht. apply Ha. unfold tables_of in Ht. by rewrite Ht.
Qed.

Lemma file_body_unfold r flags map_addr len offset w va : file_body vfs_read_to_phys r flags map_addr len offset w va =
  (old ← (if has flags MAP_FIXED then vm_paddr w r va else Some 0);
   res ← (if old =? 0 then new_page false r flags w va else Some (inl (old, w)));
   match res with
   | inr w => Some (inr w)
   | inl (pa, w) =>
       let w := fill_page w pa len offset (va - map_addr) in
       if has flags MAP_SHARED then
         '(ok, w) ← (if old =? 0 then Some (true, w) else '(ok, s) ← shared_page_ref (km_shared w) pa; Some (ok, set_shared w s));
         if negb ok then Some (inr w) else w ← vm_mark_nofree w r va; Some (inl w)
       else Some (inl w)
   end).
Proof using. done. Qed.

(** Page [k] of a file mapping that starts at page [a]; with MAP_SHARED over a page that was mapped, that page was private. *)
Definition file_page (flags len offset a : Z) (g : ghost) (w' : kmem) (g' : ghost) (r k : Z) : Prop :=
  match view g r k with
  | None => exists x, view g' r k = Some (x, new_kind flags) /\ (forall y kd, g_map g !! y <> Some (x, kd)) /\ holds_file len offset w' x (k - a)
  | Some (f, kd) => has flags MAP_FIXED = true /\
      if decide (kd = Private) then view g' r k = Some (f, new_kind flags) /\ holds_file len offset w' f (k - a) else view g' r k = Some (f, kd)
  end.
Definition may_cover (flags : Z) (g : ghost) (r k : Z) : Prop := has flags MAP_SHARED = true -> forall f kd, view g r k = Some (f, kd) -> kd = Private.

Lemma put_one w g w' r k v (W : Z -> Prop) : (forall y f kd a, g_map g !! y = Some (f, kd) -> ~ W f -> in_frame f a -> km_word w' a = km_word w a) -> effect w g w' (put_map g (r, k) v) r (eq k) W.
Proof using.
  intros Hw. split; [done| |intros y f kd a _ Hy HW Ha; by apply (Hw y f kd)].
  intros r' j Hj. rewrite view_put. case_decide; [subst r'|done]. unfold vset. destruct (Z.eqb_spec j k) as [->|]; [|done]. by destruct Hj.
Qed.

(** A page that was not mapped. *)
Lemma file_new_mem w m g n r k a flags len offset : mem_inv w m g n -> is_space g r -> vm_page k -> a <= k -> (k - a) * PAGE_SIZE < len -> 0 <= offset -> offset + len + PAGE_SIZE <= U64_MOD ->
  exists res, (res ← new_page false r flags w (k * PAGE_SIZE);
    match res with
    | inr w => Some (inr w)
    | inl (pa, w) => let w := fill_page w pa len offset ((k - a) * PAGE_SIZE) in if has flags MAP_SHARED then w ← vm_mark_nofree w r (k * PAGE_SIZE); Some (inl w) else Some (inl w)
    end) = Some (res : kmem + kmem) /\
    match res with
    | inr w' => exists g', mem_inv w' m g' n /\ effect w g w' g' r (eq k) (over g r k) /\ no_page w' m g r k (has flags MAP_SHARED)
    | inl w' => view g r k = None /\ exists m' g' x, mem_inv w' m' g' n /\ effect w g w' g' r (eq k) (over g r k) /\
        view g' r k = Some (x, new_kind flags) /\ (forall y kd, g_map g !! y <> Some (x, kd)) /\ holds_file len offset w' x (k - a)
    end.
Proof using All.
  intros Hi Hr Hk Hak Hlen Hoff Hmax. destruct (new_page_mem false w m g n r k flags Hi Hr Hk) as ([[x w1]|w1] & -> & Hres); cbn [mbind option_bind].
  - destruct Hres as (N & Hfr & He & _). destruct (fill_page_spec w1 x len offset (k - a) ltac:(lia) Hlen Hoff Hmax) as (Ep & Es & Hout & Hin).
    set (w2 := fill_page w1 x len offset ((k - a) * PAGE_SIZE)) in *. pose proof (fresh_write w1 w2 m _ _ r k x _ Hfr Ep Es Hout) as Hfr2. cbv zeta.
    destruct (fresh_settle flags w2 m _ _ r k x Hfr2) as (w3 & m3 & E & Hi3 & Hw). destruct (settle_words w2 w3 m _ _ r k x _ Hfr2 Hw) as [Hold Hnew].
    pose proof (fr_none _ _ _ _ _ _ _ _ Hfr) as Hv. change (view g r k = None) in Hv. pose proof (li_map _ _ _ (fr_limbo _ _ _ _ _ _ _ _ Hfr)) as Hlm. cbn [g_map add_tabs] in Hlm.
    exists (inl w3). split; [by destruct (has flags MAP_SHARED); [rewrite E|injection E as ->]|]. split; [done|]. exists m3, (put_map (add_tabs g r N) (r, k) (x, new_kind flags)), x.
    split; [by replace n with (n - 1 + 1) by lia|]. split; [|split; [apply view_put_eq|split; [done|]]].
    + eapply effect_mono; [apply (settle_effect w g w1 w3 r N k (x, new_kind flags) Hv He)|by intros j [-> _]|by intros ? []].
      intros y f kd b Hy Hb. rewrite (Hold y f kd b Hy Hb). apply Hout. intros Hc. apply (Hlm y kd). destruct y as [r' k'].
      destruct (si_mapped w g r' k' f kd (mi_spaces _ _ _ _ Hi) Hy) as (_ & [_ Hal] & _). by rewrite (frames_apart x f b (proj2 (li_page _ _ _ (fr_limbo _ _ _ _ _ _ _ _ Hfr))) Hal Hc Hb).
    + intros b Hb. rewrite Hnew by done. by apply Hin.
  - destruct Hres as (g' & Hi' & _ & He & Hno). exists (inr w1). split; [done|]. exists g'. split; [done|]. split; [|done]. eapply effect_mono; [exact He|by intros ? []|by intros ? []].
Qed.

(** A page that was mapped, with MAP_FIXED. *)
Lemma file_old_mem w m g n r k a flags len offset f kd : mem_inv w m g n -> view g r k = Some (f, kd) -> has flags MAP_FIXED = true -> may_cover flags g r k ->
  a <= k -> (k - a) * PAGE_SIZE < len -> 0 <= offset -> offset + len + PAGE_SIZE <= U64_MOD ->
  exists res, (let w := fill_page w f len offset ((k - a) * PAGE_SIZE) in
    if has flags MAP_SHARED then
      '(ok, w) ← ('(ok, s) ← shared_page_ref (km_shared w) f; Some (ok, set_shared w s));
      if negb ok then Some (inr w) else w ← vm_mark_nofree w r (k * PAGE_SIZE); Some (inl w)
    else Some (inl w)) = Some (res : kmem + kmem) /\
    match res with
    | inr w' => mem_inv w' m g n /\ effect w g w' g r (eq k) (over g r k) /\ no_page w' m g r k (has flags MAP_SHARED)
    | inl w' => exists m' g', mem_inv w' m' g' n /\ effect w g w' g' r (eq k) (over g r k) /\ file_page flags len offset a g w' g' r k
    end.
Proof using All.
  intros Hi Hv Hfix Hcov Hak Hlen Hoff Hmax. destruct (fill_page_spec w f len offset (k - a) ltac:(lia) Hlen Hoff Hmax) as (Ep & Es & Hout & Hin). cbv zeta.
  set (w1 := fill_page w f len offset ((k - a) * PAGE_SIZE)) in *. destruct (view_frame w g r k f kd (mi_spaces _ _ _ _ Hi) Hv) as (_ & [_ Hal] & _ & Hnt).
  assert (mem_inv w1 m g n) as Hi1 by (by apply (frame_mem w w1 m g n f)).
  assert (forall y h kd' b, g_map g !! y = Some (h, kd') -> ~ over g r k h -> in_frame h b -> km_word w1 b = km_word w b) as Hw1.
  { intros [r' k'] h kd' b Hy HW Hb. apply Hout. intros Hc. apply HW. exists kd. destruct (si_mapped w g r' k' h kd' (mi_spaces _ _ _ _ Hi) Hy) as (_ & [_ Hal'] & _).
    by rewrite (frames_apart h f b Hal' Hal Hb Hc). }
  unfold file_page, may_cover, new_kind in *. rewrite Hv. destruct (has flags MAP_SHARED) eqn:Hsh.
  - pose proof (Hcov eq_refl f kd Hv) as ->. destruct (share_private w1 m g n r k f Hi1 Hv) as (ok & s & -> & Hok). cbn [mbind option_bind]. destruct ok; cbn [negb].
    + destruct Hok as (w2 & -> & Hi2 & Hw2). cbn [mbind option_bind]. eexists. split; [done|]. exists (<[f := 1]> m), (put_map g (r, k) (f, Shared)). split; [done|].
      pose proof (table_words w1 w2 g) as Htw. split; [|split; [done|rewrite decide_True by done; split; [apply view_put_eq|]]].
      * apply put_one. intros y h kd' b Hy HW Hb. rewrite (Htw y h kd' b (mi_spaces _ _ _ _ Hi1) Hw2 Hy Hb). by apply (Hw1 y h kd').
      * intros b Hb. rewrite (Htw (r, k) f Private b (mi_spaces _ _ _ _ Hi1) Hw2 Hv Hb). by apply Hin.
    + destruct Hok as [Hi2 Hfull]. eexists. split; [done|]. split; [done|]. split; [|by right; right]. split; [done|done|]. intros y h kd' b _. apply Hw1.
  - eexists. split; [done|]. exists m, g. split; [done|]. split; [split; [done|done|intros y h kd' b _; apply Hw1]|]. split; [done|]. case_decide; [by subst|done].
Qed.

Lemma file_page_mem w m g n r k a flags len offset : mem_inv w m g n -> is_space g r -> vm_page k -> (has flags MAP_FIXED = true -> may_cover flags g r k) ->
  0 <= a <= k -> (k - a) * PAGE_SIZE < len -> 0 <= offset -> offset + len + PAGE_SIZE <= U64_MOD ->
  exists res, file_body vfs_read_to_phys r flags (a * PAGE_SIZE) len offset w (k * PAGE_SIZE) = Some res /\
    match res with
    | inr w' => exists g', mem_inv w' m g' n /\ effect w g w' g' r (eq k) (over g r k) /\ no_page w' m g r k (has flags MAP_SHARED)
    | inl w' => exists m' g', mem_inv w' m' g' n /\ effect w g w' g' r (eq k) (over g r k) /\ file_page flags len offset a g w' g' r k
    end.
Proof using All.
  intros Hi Hr Hk Hcov Ha Hlen Hoff Hmax. rewrite file_body_unfold. replace (k * PAGE_SIZE - a * PAGE_SIZE) with ((k - a) * PAGE_SIZE) by lia.
  assert (exists old, (if has flags MAP_FIXED then vm_paddr w r (k * PAGE_SIZE) else Some 0) = Some old /\
    (old <> 0 -> has flags MAP_FIXED = true /\ exists kd, view g r k = Some (old, kd))) as (old & -> & Hold).
  { destruct (has flags MAP_FIXED); [|by exists 0]. rewrite (paddr_mem w g) by (try done; apply Hi). eexists. split; [done|]. destruct (view g r k) as [[f kd]|]; [|done]. intros _. split; [done|]. by exists kd. }
  cbn [mbind option_bind]. destruct (Z.eqb_spec old 0) as [->|Hne].
  - destruct (file_new_mem w m g n r k a flags len offset Hi Hr Hk ltac:(lia) Hlen Hoff Hmax) as (res & E & Hres). exists res. split; [exact E|].
    destruct res as [w'|w']; [|exact Hres]. destruct Hres as (Hv & m' & g' & x & ? & ? & ?). exists m', g'. split; [done|]. split; [done|]. unfold file_page. rewrite Hv. by exists x.
  - destruct (Hold Hne) as [Hfix [kd Hv]]. cbn [mbind option_bind].
    destruct (file_old_mem w m g n r k a flags len offset old kd Hi Hv Hfix (Hcov Hfix) ltac:(lia) Hlen Hoff Hmax) as (res & E & Hres). exists res. split; [exact E|].
    destruct res as [w'|w']; [done|]. by exists g.
Qed.

(** The frame of page [k] is not the frame of another page of the mapping that existed before. *)
Lemma file_page_apart flags len offset a pm m g n w1 g1 r k j x : frames_inv pm m g n -> file_page flags len offset a g w1 g1 r k -> k <> j ->
  (match view g r k with Some (f, kd) => kd = Private /\ x = f | None => view g1 r k = Some (x, new_kind flags) end) -> ~ over g r j x.
Proof using.
  intros Hf Hp Hne Hx [kd Hv]. unfold file_page in Hp. destruct (view g r k) as [[f kd']|] eqn:Ev.
  - destruct Hx as [-> ->]. pose proof (fi_private _ _ _ _ Hf (r, k) (r, j) f kd Ev Hv). congruence.
  - destruct Hp as (x' & Hx' & Hn & _). rewrite Hx in Hx'. injection Hx' as <-. by apply (Hn (r, j) kd).
Qed.

Lemma file_page_stable flags len offset a pm m g n w1 g1 w2 g2 r k j : frames_inv pm m g n -> k <> j -> view g1 r j = view g r j ->
  effect w1 g1 w2 g2 r (eq j) (over g1 r j) -> file_page flags len offset a g w1 g1 r k -> file_page flags len offset a g w2 g2 r k.
Proof using.
  intros Hf Hne Ev He Hp. pose proof (fun x => file_page_apart flags len offset a pm m g n w1 g1 r k j x Hf Hp Hne) as Hap.
  assert (view g2 r k = view g1 r k) as Ek by (apply (ef_view _ _ _ _ _ _ _ He); by right; congruence).
  assert (forall x kd, view g1 r k = Some (x, kd) -> ~ over g r j x -> holds_file len offset w1 x (k - a) -> holds_file len offset w2 x (k - a)) as Hst.
  { intros x kd Hx Ho Hh b Hb. rewrite (ef_words _ _ _ _ _ _ _ He (r, k) x kd b); [by apply Hh|right; cbn; congruence|done| |done]. unfold over in *. by rewrite Ev. }
  unfold file_page in *. rewrite Ek. destruct (view g r k) as [[f kd]|].
  - destruct Hp as [Hfix Hp]. split; [done|]. case_decide; [|done]. destruct Hp as [Hv Hh]. split; [done|]. apply (Hst f (new_kind flags)); [done|by apply Hap|done].
  - destruct Hp as (x & Hx & Hn & Hh). exists x. split; [done|]. split; [done|]. apply (Hst x (new_kind flags)); [done|by apply Hap|done].
Qed.

Lemma file_page_next flags len offset a w g w1 g1 w2 g2 r j : a <= j -> effect w g w1 g1 r (within a j) (covered g r a j) ->
  (forall k, within a j k -> file_page flags len offset a g w1 g1 r k) -> file_page flags len offset a g1 w2 g2 r j -> file_page flags len offset a g w2 g2 r j.
Proof using.
  intros Haj He Hp Hj. assert (view g1 r j = view g r j) as Ev by (apply (ef_view _ _ _ _ _ _ _ He); right; unfold within; lia).
  unfold file_page in Hj |- *. rewrite <- Ev. destruct (view g1 r j) as [[f kd]|]; [done|]. destruct Hj as (x & Hx & Hn & Hh). exists x. split; [done|]. split; [|done].
  intros [r' k] kd Hy. destruct (decide (r' = r /\ within a j k)) as [[-> Hk]|Hout].
  - specialize (Hp k Hk). unfold file_page in Hp. unfold view in Hp. rewrite Hy in Hp. destruct Hp as [_ Hp]. case_decide; [destruct Hp as [Hp _]|]; by apply (Hn (r, k)) in Hp.
  - apply (Hn (r', k) kd). change (view g1 r' k = Some (x, kd)). rewrite (ef_view _ _ _ _ _ _ _ He); [done|]. destruct (decide (r' = r)); [right|by left]. tauto.
Qed.

Lemma effect_next_all w g w1 g1 w2 g2 r a j : a <= j -> effect w g w1 g1 r (within a j) (covered g r a j) ->
  effect w1 g1 w2 g2 r (eq j) (over g1 r j) -> effect w g w2 g2 r (within a (j + 1)) (covered g r a (j + 1)).
Proof using.
  intros Hj He1 He2. assert (view g1 r j = view g r j) as Ev by (apply (ef_view _ _ _ _ _ _ _ He1); right; unfold within; lia).
  apply (effect_compose w g w1 g1).
  - eapply effect_mono; [exact He1|unfold within; lia|]. intros f (k & Hk & Ho). exists k. split; [unfold within in *; lia|done].
  - eapply effect_mono; [exact He2|unfold within; lia|]. intros f [kd Hf]. rewrite Ev in Hf. exists j. split; [unfold within; lia|by exists kd].
Qed.

Lemma effect_within w g w' g' r a j b : j <= b -> effect w g w' g' r (within a j) (covered g r a j) -> effect w g w' g' r (within a b) (covered g r a b).
Proof using. intros Hj He. eapply effect_mono; [exact He|unfold within; lia|]. intros f (k & Hk & Ho). exists k. split; [unfold within in *; lia|done]. Qed.

Lemma file_range_mem w m g n r flags len offset a b : mem_inv w m g n -> is_space g r -> pages_ok a b -> (has flags MAP_FIXED = true -> forall k, within a b k -> may_cover flags g r k) ->
  (b - a - 1) * PAGE_SIZE < len -> 0 <= offset -> offset + len + PAGE_SIZE <= U64_MOD ->
  exists res, page_loop (page_count (a * PAGE_SIZE) (b * PAGE_SIZE)) (file_body vfs_read_to_phys r flags (a * PAGE_SIZE) len offset) w (a * PAGE_SIZE) = Some res /\
    match res with
    | inl w' => exists m' g', mem_inv w' m' g' n /\ effect w g w' g' r (within a b) (covered g r a b) /\ forall k, within a b k -> file_page flags len offset a g w' g' r k
    | inr w' => exists m' g' j, mem_inv w' m' g' n /\ effect w g w' g' r (within a b) (covered g r a b) /\ within a b j /\ no_page w' m' g r j (has flags MAP_SHARED)
    end.
Proof using All.
  intros Hi Hr Hab Hcov Hlen Hoff Hmax. set (J := fun j w' m' g' => mem_inv w' m' g' n /\ effect w g w' g' r (within a j) (covered g r a j)).
  destruct (range_loop (file_body vfs_read_to_phys r flags (a * PAGE_SIZE) len offset) (fun j w' => exists m' g', J j w' m' g' /\ forall k, within a j k -> file_page flags len offset a g w' g' r k)
    (fun j w' => exists m' g', J (j + 1) w' m' g' /\ no_page w' m' g r j (has flags MAP_SHARED)) a b w Hab) as ([w'|w'] & -> & Hres).
  - exists m, g. split; [split; [done|apply effect_refl]|]. unfold within. lia.
  - intros j w1 Hj (m1 & g1 & (Hi1 & He1) & Hp1). assert (0 <= a <= j) as Haj by (destruct Hab; unfold within in Hj; lia).
    assert (view g1 r j = view g r j) as Ev by (apply (ef_view _ _ _ _ _ _ _ He1); right; unfold within; lia).
    destruct (file_page_mem w1 m1 g1 n r j a flags len offset Hi1) as ([w2|w2] & -> & Hres); try done; try (eexists; split; [done|]).
    { by apply (ef_space _ _ _ _ _ _ _ He1). } { by apply (pages_vm a b). } { intros Hfix. unfold may_cover. rewrite Ev. by apply (Hcov Hfix). } { unfold within in Hj. lia. }
    + destruct Hres as (m2 & g2 & Hi2 & He2 & Hp2). exists m2, g2. split; [split; [done|apply (effect_next_all w g w1 g1); [lia|done|done]]|].
      intros k Hk. destruct (decide (k = j)) as [->|Hne]; [apply (file_page_next _ _ _ _ w g w1 g1 w2 g2 r j); [lia|done..]|].
      apply (file_page_stable flags len offset a (km_pmm w) m g n w1 g1 w2 g2 r k j (mi_frames _ _ _ _ Hi) Hne Ev He2). apply Hp1. unfold within in *. lia.
    + destruct Hres as (g2 & Hi2 & He2 & Hno). exists m1, g2. split; [split; [done|apply (effect_next_all w g w1 g1); [lia|done|done]]|]. unfold no_page in *. by rewrite <- Ev.
  - eexists. split; [done|]. destruct Hres as (m' & g' & (? & ?) & ?). by exists m', g'.
  - eexists. split; [done|]. destruct Hres as (j & Hj & m' & g' & (? & He) & ?). exists m', g', j. split; [done|]. split; [|done]. apply (effect_within w g w' g' r a (j + 1)); [unfold within in Hj; lia|done].
Qed.

(** ** The arguments of mmap *)

(** What is mapped at [map_addr]. *)
Definition mmap_backing (w : kmem) (ts : list utask) (t : utask) (len flags offset map_addr map_size : Z) (b : backing) : option (Z * kmem * list utask) :=
  let map_buf pa := '(ok, w, ts) ← map_contiguous_buf w ts t map_addr map_size pa flags; Some (if ok : bool then map_addr else u64 (- 1), w, ts) in
  match b with
  | B_phys buf =>
      if negb (offset =? 0) then Some (MMAP_FAILED, w, ts)
      else match buf with
           | None => Some (MMAP_FAILED, w, ts)
           | Some (pa, size) => if size =? 0 then Some (MMAP_FAILED, w, ts) else if ALIGN_UP size PAGE_SIZE <? map_size then Some (u64 (- EINVAL), w, ts) else map_buf pa
           end
  | B_token (Some (dpa, dsz)) => if offset =? 0 then Some (MMAP_FAILED, w, ts) else if ALIGN_UP dsz PAGE_SIZE <? map_size then Some (u64 (- EINVAL), w, ts) else map_buf dpa
  | B_token None | B_none => Some (MMAP_FAILED, w, ts)
  | B_regular => map_pages_at w ts t flags map_addr map_size (file_body vfs_read_to_phys (ut_pgd t) flags map_addr len offset)
  end.

(** The first page of the mapping. *)
Definition first_page (ts : list utask) (t : utask) (addr flags : Z) : Z := if has flags MAP_FIXED then addr / PAGE_SIZE else pages_of (shared_mmap_next ts t).

Lemma mmap_file_cases g w ts t addr len flags offset b : task_of g t -> has flags MAP_ANONYMOUS = false -> 0 <= addr < U64_MOD -> 0 <= len -> len + PAGE_SIZE <= U64_MOD ->
  0 <= shared_mmap_next ts t <= U64_MOD - PAGE_SIZE ->
  let c := pages_of len in let a := first_page ts t addr flags in let call := sys_mmap vfs_read_to_phys w ts t addr len flags offset b in
  (call = Some (u64 (- EINVAL), w, ts) /\ (len = 0 \/ has flags MAP_FIXED = true /\ addr mod PAGE_SIZE <> 0)) \/
  (call = Some (u64 (- ENOMEM), w, ts) /\ ~ (1 <= a /\ a + c <= STACK_PAGE)) \/
  (1 <= a /\ a + c <= STACK_PAGE /\ 0 < len /\ (has flags MAP_FIXED = true -> addr = a * PAGE_SIZE) /\
   call = mmap_backing w ts t len flags offset (a * PAGE_SIZE) (c * PAGE_SIZE) b).
Proof using VL.
  intros Ht Hanon Haddr Hlen Hmax Hnext c a call. unfold call, sys_mmap. rewrite (tk_user _ _ Ht), Hanon. cbn [negb]. unfold mmap_file.
  destruct (Z.eqb_spec len 0) as [->|Hl]; [left; auto|].
  assert (Z.land addr (PAGE_SIZE - 1) = addr mod PAGE_SIZE) as -> by (change (PAGE_SIZE - 1) with (Z.ones 12); by rewrite Z.land_ones by lia).
  destruct (has flags MAP_FIXED && negb (addr mod PAGE_SIZE =? 0)) eqn:Hbad.
  { apply andb_true_iff in Hbad as [Hfix Hm%negb_true_iff%Z.eqb_neq]. left. auto. }
  right. assert ((if has flags MAP_FIXED then addr else ALIGN_UP (shared_mmap_next ts t) PAGE_SIZE) = a * PAGE_SIZE /\ 0 <= a /\ a * PAGE_SIZE < U64_MOD) as (Ea & Ha0 & Ham).
  { unfold a, first_page. destruct (has flags MAP_FIXED); [|rewrite ALIGN_UP_page by lia; pose proof (pages_of_bounds (shared_mmap_next ts t)); unfold pages_of in *; lia].
    cbn [andb] in Hbad. apply negb_false_iff, Z.eqb_eq in Hbad. pose proof (Z_div_mod_eq_full addr PAGE_SIZE). pose proof (Z.div_pos addr PAGE_SIZE). lia. }
  rewrite Ea. pose proof (pages_of_bounds len) as Hpc. rewrite (ALIGN_UP_page len) by lia. fold (pages_of len). fold c in Hpc |- *.
  pose proof (range_ok_pages a c Ha0 Ham ltac:(lia) ltac:(lia)) as Hok. destruct (mmap_user_range_ok (a * PAGE_SIZE) (c * PAGE_SIZE)); cbn [negb].
  - destruct (proj1 Hok eq_refl) as [Ha1 Hfit]. right. split; [done|]. split; [done|]. split; [lia|]. split; [|done]. intros Hfix. by rewrite Hfix in Ea.
  - left. split; [done|]. intros H. by apply Hok in H.
Qed.

(** mmap of a regular file: refused with EINVAL or ENOMEM, or on success every page of the mapping holds the bytes of the file, zero
    behind its end and behind the length asked for, in new pages, private or shared as asked, or with MAP_FIXED in the
    private pages that were there.  Nothing else changes, and every frame has its owner; MAP_SHARED with MAP_FIXED
    needs that no page of the range is shared already or of a device. *)
Theorem mmap_file_correct w m g n ts t addr len flags offset : mem_inv w m g n -> task_of g t -> has flags MAP_ANONYMOUS = false ->
  STACK_PAGE * PAGE_SIZE <= vm_top -> 0 <= addr < U64_MOD -> 0 <= len -> 0 <= offset -> offset + len + PAGE_SIZE <= U64_MOD -> 0 <= shared_mmap_next ts t <= U64_MOD - PAGE_SIZE ->
  let c := pages_of len in let r := ut_pgd t in let fixed := has flags MAP_FIXED in
  (fixed = true -> forall k, within (addr / PAGE_SIZE) (addr / PAGE_SIZE + c) k -> may_cover flags g r k) ->
  let a := first_page ts t addr flags in
  exists ret w' ts' m' g', sys_mmap vfs_read_to_phys w ts t addr len flags offset B_regular = Some (ret, w', ts') /\ mem_inv w' m' g' n /\
    ((ret = u64 (- EINVAL) /\ w' = w /\ ts' = ts /\ (len = 0 \/ fixed = true /\ addr mod PAGE_SIZE <> 0)) \/
     (ret = u64 (- ENOMEM) /\ w' = w /\ ts' = ts /\ ~ (1 <= a /\ a + c <= STACK_PAGE)) \/
     (1 <= a /\ a + c <= STACK_PAGE /\ effect w g w' g' r (within a (a + c)) (covered g r a (a + c)) /\
       ((ret = a * PAGE_SIZE /\ ts' = (if fixed then ts else sync_shared_mmap_next ts t ((a + c) * PAGE_SIZE)) /\ forall k, within a (a + c) k -> file_page flags len offset a g w' g' r k) \/
        (ret = MMAP_FAILED /\ ts' = ts /\ exists j, within a (a + c) j /\ no_page w' m' g r j (has flags MAP_SHARED))))).
Proof using All.
  intros Hi Ht Hanon Htop Haddr Hlen Hoff Hmax Hnext c r fixed Hcov a.
  pose proof (mmap_file_cases g w ts t addr len flags offset B_regular Ht Hanon Haddr Hlen ltac:(lia) Hnext) as H. cbv zeta in H. fold c a in H.
  destruct H as [[E ?]|[[E ?]|(Ha & Hfit & Hl & Hfix & E)]].
  { eexists _, _, _, m, g. split; [exact E|]. split; [done|]. by left. }
  { eexists _, _, _, m, g. split; [exact E|]. split; [done|]. by right; left. }
  rewrite E. unfold mmap_backing, map_pages_at. replace (a * PAGE_SIZE + c * PAGE_SIZE) with ((a + c) * PAGE_SIZE) by lia. fold r. pose proof vm_top_range. pose proof (pages_of_bounds len) as Hpc. fold c in Hpc.
  destruct (file_range_mem w m g n r flags len offset a (a + c) Hi (tk_space _ _ Ht)) as ([w'|w'] & -> & Hres); try done; try lia; cbn [mbind option_bind].
  { split; lia. } { intros Hf k Hk. apply (Hcov Hf k). unfold a, first_page in Hk. by rewrite Hf in Hk. }
  - destruct Hres as (m' & g' & Hi' & He & Hp). eexists _, _, _, m', g'. split; [done|]. split; [done|]. right; right. split; [done|]. split; [done|]. split; [done|]. left.
    split; [done|]. split; [|done]. unfold u64. by rewrite Z.mod_small by lia.
  - destruct Hres as (m' & g' & j & Hi' & He & Hp). eexists _, _, _, m', g'. split; [done|]. split; [done|]. right; right. split; [done|]. split; [done|]. split; [done|]. right. split; [done|]. split; [done|]. by exists j.
Qed.
End file.

(** ** Device buffers *)

Section device.
Context {VO : vm_ops} {VL : vm_laws}.

(** A page of a buffer: in use, no table, and mapped only as what it is. *)
Record device_page (w : kmem) (g : ghost) (p : Z) : Prop := mk_dp {
  dp_page : is_page p;
  dp_used : ~ free_at (km_pmm w) p;
  dp_table : g_tab g !! p = None;
  dp_map y kd : g_map g !! y = Some (p, kd) -> kd = Device;
}.

Lemma device_unmap w g w' g' r K p : device_page w g p -> frees w g w' r K -> g_tab g' !! p = g_tab g !! p -> (forall y v, g_map g' !! y = Some v -> g_map g !! y = Some v) -> device_page w' g' p.
Proof using.
  intros [Hp Hu Ht Hm] Hf Et Eg. split; [done| |by rewrite Et|intros y kd Hy; apply (Hm y), Eg, Hy].
  intros Hc. destruct (Hf p Hc) as [?|(k & kd & _ & Hv & Hd)]; [done|]. by apply Hd, (Hm (r, k)).
Qed.

Lemma device_map w w' g r N k p q : device_page w g q -> map_effect w w' g r N -> device_page w' (put_map (add_tabs g r N) (r, k) (p, Device)) q.
Proof using.
  intros [Hp Hu Ht Hm] He. split; [done| | |].
  - intros Hc. by apply Hu, (me_free _ _ _ _ _ He).
  - cbn [put_map g_tab]. rewrite add_tabs_lookup. case_decide as Hi; [|done]. by destruct Hu; apply (me_new _ _ _ _ _ He).
  - intros y kd. cbn. rewrite lookup_insert_Some. intros [[_ [= _ ->]]|[_ Hy]]; [done|]. by apply (Hm y).
Qed.
Lemma device_grow w w' g r N q : device_page w g q -> map_effect w w' g r N -> device_page w' (add_tabs g r N) q.
Proof using.
  intros [Hp Hu Ht Hm] He. split; [done| | |done].
  - intros Hc. by apply Hu, (me_free _ _ _ _ _ He).
  - rewrite add_tabs_lookup. case_decide as Hi; [|done]. by destruct Hu; apply (me_new _ _ _ _ _ He).
Qed.

(** A page of a buffer is mapped and marked. *)
Lemma device_map_mem w m g n r k p : mem_inv w m g n -> is_space g r -> vm_page k -> device_page w g p ->
  exists z w1 N, vm_map w r (k * PAGE_SIZE) p = Some (z, w1) /\ map_effect w w1 g r N /\
    ((z = 0 /\ view g r k = None /\ exists w', vm_mark_keep w1 r (k * PAGE_SIZE) = Some w' /\ km_pmm w' = km_pmm w1 /\ mem_inv w' m (put_map (add_tabs g r N) (r, k) (p, Device)) n /\
       effect w g w' (put_map (add_tabs g r N) (r, k) (p, Device)) r (eq k) nothing) \/
     (z = -1 /\ mem_inv w1 m (add_tabs g r N) n /\ effect w g w1 (add_tabs g r N) r (eq k) nothing /\ (view g r k <> None \/ exhausted w1))).
Proof using.
  intros Hi Hr Hk [Hp Hu Ht Hm]. pose proof Hi as [Hs Hf Hrep].
  destruct (map_spaces w g r k p Hs Hr Hk Hp Hu Ht) as (z & w1 & N & E & He & Hz). exists z, w1, N. split; [done|]. split; [done|].
  pose proof (grow_frames w w1 m g r N n Hs Hf He) as Hf1. pose proof (grow_effect w w1 g r N (eq k) nothing Hs Hr He) as He1. pose proof Hrep as Hrep1. rewrite <- (me_shared _ _ _ _ _ He) in Hrep1.
  destruct Hz as [(-> & Hv & Hs1)|(-> & Hs1 & Hwhy)]; [left|right]; (split; [done|]).
  - split; [done|]. set (g1 := put_map (add_tabs g r N) (r, k) (p, Private)) in *. assert (g_map g1 !! (r, k) = Some (p, Private)) as Hm1 by apply lookup_insert_eq.
    pose proof (si_space _ _ Hs1 r (si_page _ _ Hs1 _ _ Hm1)) as Hsp. destruct (mark_keep_law w1 r _ _ k p Private Hsp Hm1) as (w' & E' & Ep & Es & Hw & Hsp').
    pose proof (mark_spaces w1 w' g1 r k p Private Device Hs1 Hm1 Ep Hw Hsp') as Hs'. unfold g1 in Hs'. rewrite put_twice in Hs'. exists w'. split; [done|]. split; [done|]. split.
    + split; [done| |by rewrite Es]. rewrite Ep. by apply frames_device.
    + apply (effect_compose w g w1 (add_tabs g r N)); [done|]. apply put_effect; [done|]. intros y f kd b Hy Hb. apply (table_words w1 w' g1 y f kd b Hs1).
      * intros c Hc. apply Hw. intros t Htb. apply Hc. unfold tables_of in Htb. by rewrite Htb.
      * unfold g1. cbn. rewrite lookup_insert_ne; [done|]. intros <-. cbn in Hy. unfold view in Hv. congruence.
      * done.
  - split; [by split|]. split; [done|]. destruct Hwhy as [?|Hno]; [by left|right]. intros y y' Hy. by destruct (Hno y).
Qed.

Lemma device_page_mem w m g n r k a flags pa : mem_inv w m g n -> is_space g r -> r <> 0 -> vm_page k -> 0 <= a <= k -> 0 <= pa -> device_page w g (pa + (k - a) * PAGE_SIZE) ->
  exists res, buf_body r flags (a * PAGE_SIZE) pa w (k * PAGE_SIZE) = Some res /\
    match res with
    | inr w' => exists m' g', mem_inv w' m' g' n /\ effect w g w' g' r (eq k) nothing /\ (has flags MAP_FIXED = false /\ view g r k <> None \/ exhausted w')
    | inl w' => exists m' g', mem_inv w' m' g' n /\ effect w g w' g' r (eq k) nothing /\ view g' r k = Some (pa + (k - a) * PAGE_SIZE, Device) /\
        (forall q, device_page w g q -> device_page w' g' q)
    end.
Proof using.
  intros Hi Hr Hr0 Hk Ha Hpa Hd. unfold buf_body. pose proof (dp_page _ _ _ Hd) as [Hp _]. set (p := pa + (k - a) * PAGE_SIZE) in *.
  replace (u64 (pa + (k * PAGE_SIZE - a * PAGE_SIZE))) with p by (unfold u64, p in *; rewrite Z.mod_small by lia; lia).
  assert (exists w1 m1 g1, (if has flags MAP_FIXED then old ← vm_paddr w r (k * PAGE_SIZE);
      (if negb (old =? 0) then '(_, w) ← vm_unmap_user_range w r (k * PAGE_SIZE) PAGE_SIZE; Some w else Some w) else Some w) = Some w1 /\ mem_inv w1 m1 g1 n /\
    effect w g w1 g1 r (eq k) nothing /\ (forall q, device_page w g q -> device_page w1 g1 q) /\ (view g1 r k <> None -> has flags MAP_FIXED = false /\ view g r k <> None)) as (w1 & m1 & g1 & -> & Hi1 & He1 & Hdv & Hv1).
  { destruct (has flags MAP_FIXED); [|exists w, m, g; split; [done|]; split; [done|]; split; [apply effect_refl|done]].
    rewrite (paddr_mem w g) by (try done; apply Hi). cbn [mbind option_bind].
    destruct (view g r k) as [[f kd]|] eqn:Ev; [|exists w, m, g; split; [done|]; split; [done|]; split; [apply effect_refl|]; split; [done|]; by rewrite Ev].
    destruct (view_frame w g r k f kd (mi_spaces _ _ _ _ Hi) Ev) as (_ & [Hf _] & _). rewrite (proj2 (Z.eqb_neq f 0)) by lia. cbn [negb].
    destruct (unmap_range_mem w m g n r k (k + 1) Hi Hr Hr0) as (c & w1 & m1 & g1 & E & Hi1 & He1 & Hv1 & Hfr1 & Ht1 & Hm1); [destruct Hk; split; lia|lia|].
    replace (k + 1 - k) with 1 in E by lia. change (1 * PAGE_SIZE) with PAGE_SIZE in E. rewrite E. cbn [mbind option_bind]. exists w1, m1, g1. split; [done|]. split; [done|].
    split; [eapply effect_mono; [exact He1|unfold within; lia|done]|]. split; [|rewrite Hv1 by (unfold within; lia); done].
    intros q Hq. apply (device_unmap w g w1 g1 r _ q Hq Hfr1); [by rewrite Ht1|]. intros y v Hy. by apply (lookup_weaken (g_map g1)). }
  cbn [mbind option_bind]. destruct (device_map_mem w1 m1 g1 n r k p Hi1) as (z & w2 & N & -> & He & Hz); [by apply (ef_space _ _ _ _ _ _ _ He1)|done|by apply Hdv|]. cbn [mbind option_bind].
  destruct Hz as [(-> & _ & w3 & -> & Ep & Hi3 & He3)|(-> & Hi2 & He2 & Hwhy)]; cbn [negb Z.eqb mbind option_bind].
  - eexists. split; [done|]. exists m1, (put_map (add_tabs g1 r N) (r, k) (p, Device)). split; [done|]. split; [by apply (effect_compose w g w1 g1)|]. split; [apply view_put_eq|].
    intros q Hq. pose proof (device_map w1 w2 g1 r N k p q (Hdv q Hq) He) as [A B C D]. split; try done. by rewrite Ep.
  - eexists. split; [done|]. exists m1, (add_tabs g1 r N). split; [done|]. split; [by apply (effect_compose w g w1 g1)|]. destruct Hwhy as [?|?]; [left; by apply Hv1|by right].
Qed.

Lemma device_range_mem w m g n r flags pa a b : mem_inv w m g n -> is_space g r -> r <> 0 -> pages_ok a b -> 0 <= pa -> (forall k, within a b k -> device_page w g (pa + (k - a) * PAGE_SIZE)) ->
  exists res, page_loop (page_count (a * PAGE_SIZE) (b * PAGE_SIZE)) (buf_body r flags (a * PAGE_SIZE) pa) w (a * PAGE_SIZE) = Some res /\
    match res with
    | inl w' => exists m' g', mem_inv w' m' g' n /\ effect w g w' g' r (within a b) nothing /\ forall k, within a b k -> view g' r k = Some (pa + (k - a) * PAGE_SIZE, Device)
    | inr w' => exists m' g' j, mem_inv w' m' g' n /\ effect w g w' g' r (within a b) nothing /\ within a b j /\ (has flags MAP_FIXED = false /\ view g r j <> None \/ exhausted w')
    end.
Proof using.
  intros Hi Hr Hr0 Hab Hpa Hdev. set (J := fun j w' m' g' => mem_inv w' m' g' n /\ effect w g w' g' r (within a j) nothing).
  destruct (range_loop (buf_body r flags (a * PAGE_SIZE) pa) (fun j w' => exists m' g', J j w' m' g' /\ (forall q, device_page w g q -> device_page w' g' q) /\
      forall k, within a j k -> view g' r k = Some (pa + (k - a) * PAGE_SIZE, Device))
    (fun j w' => exists m' g', J (j + 1) w' m' g' /\ (has flags MAP_FIXED = false /\ view g r j <> None \/ exhausted w')) a b w Hab) as ([w'|w'] & -> & Hres).
  - exists m, g. split; [split; [done|apply effect_refl]|]. split; [done|]. unfold within. lia.
  - intros j w1 Hj (m1 & g1 & (Hi1 & He1) & Hd1 & Hp1). assert (0 <= a <= j) as Haj by (destruct Hab; unfold within in Hj; lia).
    assert (view g1 r j = view g r j) as Ev by (apply (ef_view _ _ _ _ _ _ _ He1); right; unfold within; lia).
    assert (forall w2 g2, effect w1 g1 w2 g2 r (eq j) nothing -> effect w g w2 g2 r (within a (j + 1)) nothing) as Hnext.
    { intros w2 g2 He2. apply (effect_step w g w1 g1 w2 g2 r _ (within a j) (eq j)); [done|done|unfold within; lia|unfold within; lia]. }
    destruct (device_page_mem w1 m1 g1 n r j a flags pa Hi1) as ([w2|w2] & -> & Hres); try done; try (eexists; split; [done|]).
    { by apply (ef_space _ _ _ _ _ _ _ He1). } { by apply (pages_vm a b). } { by apply Hd1, Hdev. }
    + destruct Hres as (m2 & g2 & Hi2 & He2 & Hv2 & Hd2). exists m2, g2. split; [split; [done|by apply Hnext]|]. split; [auto|].
      intros k Hk. destruct (decide (k = j)) as [->|Hne]; [done|]. rewrite (ef_view _ _ _ _ _ _ _ He2) by (right; congruence). apply Hp1. unfold within in *. lia.
    + destruct Hres as (m2 & g2 & Hi2 & He2 & Hno). exists m2, g2. split; [split; [done|by apply Hnext]|]. by rewrite <- Ev.
  - eexists. split; [done|]. destruct Hres as (m' & g' & (? & ?) & _ & ?). by exists m', g'.
  - eexists. split; [done|]. destruct Hres as (j & Hj & m' & g' & (? & He) & ?). exists m', g', j. split; [done|]. split; [|done]. eapply effect_mono; [exact He|unfold within in *; lia|done].
Qed.

(** The buffer of a descriptor: its answer to [get_phys], or the driver's answer for the offset. *)
Definition buffer_of (b : backing) (offset : Z) : option (Z * Z) :=
  match b with
  | B_phys (Some (pa, size)) => if (offset =? 0) && negb (size =? 0) then Some (pa, size) else None
  | B_token (Some (pa, size)) => if offset =? 0 then None else Some (pa, size)
  | _ => None
  end.

Lemma backing_buffer vfs_read_to_phys w ts t len flags offset map_addr map_size b : b <> B_regular ->
  mmap_backing vfs_read_to_phys w ts t len flags offset map_addr map_size b =
  match buffer_of b offset with
  | None => Some (MMAP_FAILED, w, ts)
  | Some (pa, size) => if ALIGN_UP size PAGE_SIZE <? map_size then Some (u64 (- EINVAL), w, ts)
                       else '(ok, w, ts) ← map_contiguous_buf w ts t map_addr map_size pa flags; Some (if ok : bool then map_addr else u64 (- 1), w, ts)
  end.
Proof using. destruct b as [[[pa size]|]|[[pa size]|]| |]; intros Hb; cbn; try done; destruct (offset =? 0); cbn; try done. by destruct (size =? 0). Qed.

(** mmap of a descriptor that is not a regular file: without a buffer it fails and changes nothing; a buffer that is too small is
    EINVAL; else every page of the mapping is the page of the buffer at its place, marked so that no unmapping frees
    it, with MAP_FIXED in place of the pages that were there, whose frames go back to their owners.  Nothing else changes. *)
Theorem mmap_device_correct vfs_read_to_phys w m g n ts t addr len flags offset b : mem_inv w m g n -> task_of g t -> has flags MAP_ANONYMOUS = false -> b <> B_regular ->
  STACK_PAGE * PAGE_SIZE <= vm_top -> 0 <= addr < U64_MOD -> 0 <= len -> len + PAGE_SIZE <= U64_MOD -> 0 <= shared_mmap_next ts t <= U64_MOD - PAGE_SIZE ->
  let c := pages_of len in let r := ut_pgd t in let a := first_page ts t addr flags in
  (forall pa size, buffer_of b offset = Some (pa, size) -> 0 <= pa /\ 0 <= size <= U64_MOD - PAGE_SIZE /\ forall i, 0 <= i < pages_of size -> device_page w g (pa + i * PAGE_SIZE)) ->
  exists ret w' ts' m' g', sys_mmap vfs_read_to_phys w ts t addr len flags offset b = Some (ret, w', ts') /\ mem_inv w' m' g' n /\
    ((w' = w /\ ts' = ts /\ (ret = u64 (- EINVAL) \/ ret = u64 (- ENOMEM) \/ (ret = MMAP_FAILED /\ buffer_of b offset = None))) \/
     exists pa size, buffer_of b offset = Some (pa, size) /\ 1 <= a /\ a + c <= STACK_PAGE /\ c <= pages_of size /\ effect w g w' g' r (within a (a + c)) nothing /\
       ((ret = a * PAGE_SIZE /\ ts' = (if has flags MAP_FIXED then ts else sync_shared_mmap_next ts t ((a + c) * PAGE_SIZE)) /\
           forall k, within a (a + c) k -> view g' r k = Some (pa + (k - a) * PAGE_SIZE, Device)) \/
        (ret = MMAP_FAILED /\ ts' = ts /\ exists j, within a (a + c) j /\ (has flags MAP_FIXED = false /\ view g r j <> None \/ exhausted w')))).
Proof using.
  intros Hi Ht Hanon Hb Htop Haddr Hlen Hmax Hnext c r a Hbuf.
  pose proof (mmap_file_cases vfs_read_to_phys g w ts t addr len flags offset b Ht Hanon Haddr Hlen Hmax Hnext) as H. cbv zeta in H. fold c a in H.
  destruct H as [[E ?]|[[E ?]|(Ha & Hfit & Hl & Hfix & E)]].
  { eexists _, _, _, m, g. split; [exact E|]. split; [done|]. left. auto. }
  { eexists _, _, _, m, g. split; [exact E|]. split; [done|]. left. auto. }
  rewrite E, (backing_buffer _ _ _ _ _ _ _ _ _ b Hb). destruct (buffer_of b offset) as [[pa size]|]; [|eexists _, _, _, m, g; split; [done|]; split; [done|]; left; split; [done|]; split; [done|]; by right; right].
  destruct (Hbuf pa size eq_refl) as (Hpa & Hsize & Hdev). rewrite ALIGN_UP_page by lia. fold (pages_of size).
  destruct (Z.ltb_spec (pages_of size * PAGE_SIZE) (c * PAGE_SIZE)); [eexists _, _, _, m, g; split; [done|]; split; [done|]; left; auto|].
  unfold map_contiguous_buf. replace (a * PAGE_SIZE + c * PAGE_SIZE) with ((a + c) * PAGE_SIZE) by lia. fold r. pose proof vm_top_range. pose proof (pages_of_bounds len) as Hpc. fold c in Hpc.
  destruct (device_range_mem w m g n r flags pa a (a + c) Hi (tk_space _ _ Ht) (tk_pgd _ _ Ht)) as ([w'|w'] & -> & Hres); try done; cbn [mbind option_bind].
  { split; lia. } { intros k Hk. apply Hdev. unfold within in Hk. lia. }
  - destruct Hres as (m' & g' & Hi' & He & Hp). eexists _, _, _, m', g'. split; [done|]. split; [done|]. right. exists pa, size. split; [done|]. split; [done|]. split; [done|]. split; [lia|]. split; [done|].
    left. split; [done|]. split; [|done]. unfold u64. by rewrite Z.mod_small by lia.
  - destruct Hres as (m' & g' & j & Hi' & He & Hp). eexists _, _, _, m', g'. split; [done|]. split; [done|]. right. exists pa, size. split; [done|]. split; [done|]. split; [done|]. split; [lia|]. split; [done|].
    right. split; [done|]. split; [done|]. by exists j.
Qed.
End device.
