(* ===== verification/UserFork.v ===== *)
(** * fork: the address space of the child *)

From stdpp Require Import options.
From Stdlib Require Import Lia.
From S2P Require Import Prelude Bitmap Pmm SharedPage PhysMem PageTable Teardown Riscv64 AddrSpace UserMem UserSpaces UserExit UserOps UserMap UserFile.

Section fork.
Context {VO : vm_ops} {VL : vm_laws}.

(** ** A new address space *)

Definition new_space (g : ghost) (x : Z) : ghost := mk_gh (<[x := x]> (g_tab g)) (g_map g).

Lemma init_spaces w g x : spaces_inv w g -> limbo w g x -> (forall a, in_frame x a -> km_word w a = 0) ->
  let w' := vm_init_pgd w x in
  km_pmm w' = km_pmm w /\ km_shared w' = km_shared w /\ words_kept w w' (eq x) /\ spaces_inv w' (new_space g x).
Proof using.
  intros Hs Hl Hz w'. destruct (si_pmm _ _ Hs) as [Hpm Hlim].
  destruct (init_law w x Hpm Hlim (li_page _ _ _ Hl) (limbo_not_free _ _ _ Hl) Hz) as (Ep & Es & Hw & Hsp). fold w' in Ep, Es, Hw, Hsp. split; [done|]. split; [done|]. split; [done|].
  pose proof (li_table _ _ _ Hl) as Ht. pose proof (li_map _ _ _ Hl) as Hm.
  assert (forall r, is_space (new_space g x) r <-> r = x \/ is_space g r) as Hnew.
  { intros r. unfold is_space, new_space. cbn. rewrite lookup_insert_Some. split; [intros [[-> _]|[_ ?]]; auto|]. intros [->|Hr]; [by left|]. right. split; [congruence|done]. }
  assert (forall y v, g_map g !! y = Some v -> y.1 <> x) as Hny.
  { intros y v Hy E. pose proof (si_page _ _ Hs y v Hy) as Hr. unfold is_space in Hr. rewrite E in Hr. congruence. }
  split; rewrite ?Ep; [done| | | |].
  - intros r Hr. apply Hnew in Hr. destruct (decide (r = x)) as [->|Hne].
    + apply (space_ext w' x (eq x) _ (fun _ => None)); [done| |].
      * intros t. unfold tables_of, new_space. cbn. rewrite lookup_insert_Some. split; [intros <-; by left|intros [[? _]|[? Htx]]; [done|]].
        pose proof (si_tab _ _ Hs t x Htx) as Hx. unfold is_space in Hx. congruence.
      * intros k. unfold view, new_space. cbn. destruct (g_map g !! (x, k)) as [v|] eqn:E; [|done]. by destruct (Hny (x, k) v E).
    + destruct Hr as [?|Hr]; [done|]. apply (space_ext w' r (tables_of g r) _ (view g r)); [|intros t|done].
      * apply (space_frame w w'); [by apply (si_space _ _ Hs)|by rewrite Ep|rewrite Ep; apply same_range_refl| |rewrite Ep; by left].
        intros t a Htr Ha. apply Hw. intros u <- Hua. rewrite (frames_apart x t a) in Ht; [unfold tables_of in Htr; congruence|apply Hl|apply (si_table w g t r Hs Htr)|done|done].
      * unfold tables_of, new_space. cbn. rewrite lookup_insert_Some. split; [intros Htr; right; split; [congruence|done]|intros [[_ ?]|[_ ?]]; [congruence|done]].
  - intros t r. unfold new_space. cbn. rewrite lookup_insert_Some. intros [[-> ->]|[_ Htr]]; apply Hnew; [by left|right; by apply (si_tab _ _ Hs t)].
  - intros y v Hy. apply Hnew. right. by apply (si_page _ _ Hs y v).
  - intros y f kd Hy. unfold new_space. cbn. rewrite lookup_insert_ne; [by apply (si_frame _ _ Hs y f kd)|]. intros <-. by apply (Hm y kd).
Qed.

(** The state with the child's empty space, and what stays of the state before. *)
Record based (w : kmem) (g : ghost) (w0 : kmem) (g0 : ghost) (child : Z) : Prop := mk_bs {
  bs_new : ~ is_space g child;
  bs_child k : view g0 child k = None;
  bs_space r : is_space g0 r <-> r = child \/ is_space g r;
  bs_view r k : view g0 r k = view g r k;
  bs_words x f kd a : g_map g !! x = Some (f, kd) -> in_frame f a -> km_word w0 a = km_word w a;
}.

Lemma new_space_mem w m g n x : mem_inv w m g (n - 1) -> limbo w g x ->
  let w0 := vm_init_pgd (clear_words w x PAGE_SIZE) x in
  mem_inv w0 m (new_space g x) n /\ based w g w0 (new_space g x) x.
Proof using.
  intros Hi Hl. set (w1 := clear_words w x PAGE_SIZE). pose proof Hi as [Hs Hf Hrep].
  assert (spaces_inv w1 g) as Hs1. { apply (frame_mem w w1 m g (n - 1) x); try done; try apply Hl. intros a Ha. by apply clear_out. }
  assert (limbo w1 g x) as Hl1 by (by apply (limbo_words w)).
  destruct (init_spaces w1 g x Hs1 Hl1) as (Ep & Es & Hw & Hs0); [intros a Ha; by apply clear_in|]. set (w0 := vm_init_pgd w1 x) in *. cbv zeta. pose proof (li_table _ _ _ Hl) as Ht.
  split; [split; [done| |by rewrite Es]|].
  - rewrite Ep. destruct Hf as [H1 H2 H3 H4 H5 H6]. split; try done.
    + intros t r. unfold new_space. cbn. rewrite lookup_insert_Some. intros [[-> _]|[_ Htr]]; [apply Hl|by apply (H5 t r)].
    + unfold new_space. cbn [g_tab]. rewrite map_size_insert_None by done. change (nprivate (mk_gh _ (g_map g))) with (nprivate g). cbn [km_pmm w1 clear_words set_words]. lia.
  - assert (~ is_space g x) as Hnx by (unfold is_space; congruence). split; [done| | |done|].
    + intros k. change (view (new_space g x) x k) with (g_map g !! (x, k)). destruct (g_map g !! (x, k)) as [v|] eqn:E; [|done]. by destruct Hnx; apply (si_page _ _ Hs (x, k) v).
    + intros r. unfold is_space, new_space. cbn. rewrite lookup_insert_Some. split; [intros [[-> _]|[_ ?]]; auto|]. intros [->|Hr]; [by left|]. right. split; [congruence|done].
    + intros y f kd a Hy Ha. destruct y as [r k]. destruct (si_mapped w g r k f kd Hs Hy) as (_ & [_ Hal] & _).
      assert (~ in_frame x a) as Hxa. { intros Hc. apply (li_map _ _ _ Hl (r, k) kd). by rewrite (frames_apart x f a (proj2 (li_page _ _ _ Hl)) Hal Hc Ha). }
      rewrite Hw by (by intros t <-). by apply clear_out.
Qed.

(** ** One page of the child *)

(** Page [k] of the child: the parent's shared or device page, or a private page with the same contents. *)
Definition copied (w' : kmem) (g' : ghost) (parent child k : Z) : Prop :=
  match view g' parent k with
  | None => view g' child k = None
  | Some (f, Private) => exists x, view g' child k = Some (x, Private) /\ forall a, in_frame f a -> km_word w' (x + (a - f)) = km_word w' a
  | Some (f, kd) => view g' child k = Some (f, kd)
  end.

(** The reference count of [f] is at its end. *)
Definition full_count (g : ghost) (f : Z) : Prop := Z.of_nat (nshared g f) = 4294967295.

Lemma mapped_device w m g n x f : mem_inv w m g n -> g_map g !! x = Some (f, Device) -> device_page w g f.
Proof using.
  intros [Hs Hf _] Hx. destruct x as [r k]. destruct (si_mapped w g r k f Device Hs Hx) as (_ & Hp & Hu & Ht). split; try done.
  intros y kd Hy. destruct kd; [|by pose proof (fi_kinds _ _ _ _ Hf y (r, k) f Device Hy Hx)|done]. pose proof (fi_private _ _ _ _ Hf y (r, k) f Device Hy Hx). congruence.
Qed.

(** A shared page of one space is mapped in another: [map], [mark], then the reference. *)
Lemma share_again w m g n r k f x : mem_inv w m g n -> is_space g r -> vm_page k -> g_map g !! x = Some (f, Shared) ->
  exists z w1 N, vm_map w r (k * PAGE_SIZE) f = Some (z, w1) /\ map_effect w w1 g r N /\
    ((z = 0 /\ view g r k = None /\ exists w2 ok s, vm_mark_nofree w1 r (k * PAGE_SIZE) = Some w2 /\ shared_page_ref (km_shared w2) f = Some (ok, s) /\
       if ok : bool
       then exists m', mem_inv (set_shared w2 s) m' (put_map (add_tabs g r N) (r, k) (f, Shared)) n /\
         effect w g (set_shared w2 s) (put_map (add_tabs g r N) (r, k) (f, Shared)) r (eq k) nothing
       else full_count g f) \/
     (z = -1 /\ mem_inv w1 m (add_tabs g r N) n /\ effect w g w1 (add_tabs g r N) r (eq k) nothing /\ (view g r k <> None \/ exhausted w1))).
Proof using.
  intros Hi Hr Hk Hx. pose proof Hi as [Hs Hf Hrep]. destruct x as [r0 k0]. destruct (si_mapped w g r0 k0 f Shared Hs Hx) as (_ & Hp & Hu & Ht).
  destruct (map_spaces w g r k f Hs Hr Hk Hp Hu Ht) as (z & w1 & N & E & He & Hz). exists z, w1, N. split; [done|]. split; [done|].
  pose proof (grow_frames w w1 m g r N n Hs Hf He) as Hf1. pose proof (grow_effect w w1 g r N (eq k) nothing Hs Hr He) as He1. pose proof Hrep as Hrep1. rewrite <- (me_shared _ _ _ _ _ He) in Hrep1.
  destruct Hz as [(-> & Hv & Hs1)|(-> & Hs1 & Hwhy)]; [left|right]; (split; [done|]).
  2: { split; [by split|]. split; [done|]. destruct Hwhy as [?|Hno]; [by left|right]. intros y y' Hy. by destruct (Hno y). }
  split; [done|]. set (g1 := put_map (add_tabs g r N) (r, k) (f, Private)) in *. assert (g_map g1 !! (r, k) = Some (f, Private)) as Hm1 by apply lookup_insert_eq.
  pose proof (si_space _ _ Hs1 r (si_page _ _ Hs1 _ _ Hm1)) as Hsp. destruct (mark_nofree_law w1 r _ _ k f Private Hsp Hm1 ltac:(done)) as (w2 & E2 & Ep & Es & Hw & Hsp').
  pose proof (mark_spaces w1 w2 g1 r k f Private Shared Hs1 Hm1 Ep Hw Hsp') as Hs2. unfold g1 in Hs2. rewrite put_twice in Hs2.
  rewrite <- Es in Hrep1. destruct (sp_ref_refines (km_shared w2) m f Hrep1) as (s & E3 & Hrep2). exists w2, (spec_ref m f).1, s. split; [done|]. split; [done|].
  pose proof (fi_ref _ _ _ _ Hf f) as Em. rewrite decide_False in Em by (by apply (nshared_mapped g (r0, k0))). unfold spec_ref in *. rewrite (page_valid f Hp), Em in *. cbn [negb] in *.
  destruct (Z.eqb_spec (Z.of_nat (nshared g f)) 4294967295) as [Efull|]; cbn [fst snd] in *; [exact Efull|].
  exists (<[f := Z.of_nat (nshared g f) + 1]> m). split.
  - split; [by apply shared_spaces| |done]. cbn [km_pmm set_shared]. rewrite Ep. pose proof (frames_shared (km_pmm w1) m (add_tabs g r N) n (r, k) f Hf1) as Hsh.
    change (nshared (add_tabs g r N) f) with (nshared g f) in Hsh. rewrite decide_False in Hsh by (by apply (nshared_mapped g (r0, k0))). rewrite Z.add_0_r in Hsh.
    apply Hsh; [by apply (fi_owned _ _ _ _ Hf1 (r0, k0) f Shared)|done|]. intros y kd Hy. by apply (fi_kinds _ _ _ _ Hf (r0, k0) y f kd).
  - apply (effect_compose w g w1 (add_tabs g r N)); [done|]. apply put_effect; [done|]. intros y h kd b Hy Hb. apply (table_words w1 (set_shared w2 s) g1 y h kd b Hs1).
    + intros c Hc. apply (Hw c). intros t Htb. apply Hc. unfold tables_of in Htb. by rewrite Htb.
    + unfold g1. cbn. rewrite lookup_insert_ne; [done|]. intros <-. cbn in Hy. unfold view in Hv. congruence.
    + done.
Qed.

Lemma copy_out w x f n a : ~ (x <= a < x + n) -> km_word (copy_words w x f n) a = km_word w a.
Proof using. intros H. unfold copy_words. cbn. destruct (Z.leb_spec x a), (Z.ltb_spec a (x + n)); cbn; try done. lia. Qed.
Lemma copy_in w x f n a : x <= a < x + n -> km_word (copy_words w x f n) a = km_word w (f + (a - x)).
Proof using. intros H. unfold copy_words. cbn. by rewrite (proj2 (Z.leb_le _ _)), (proj2 (Z.ltb_lt _ _)) by lia. Qed.

(** A private page: a new page with the contents of the old one. *)
Lemma copy_private w m g n r k f x0 : mem_inv w m g n -> is_space g r -> vm_page k -> g_map g !! x0 = Some (f, Private) ->
  exists res, ('(dst, pm) ← pmm_alloc_pages (km_pmm w) 1;
    let w := set_pmm w pm in
    if dst =? 0 then Some (inr w)
    else
      let w := copy_words w dst f PAGE_SIZE in
      '(z, w) ← vm_map w r (k * PAGE_SIZE) dst;
      if negb (z =? 0) then w ← free_one_page w dst; Some (inr w) else Some (inl w)) = Some (res : kmem + kmem) /\
    match res with
    | inl w' => exists g' x, mem_inv w' m g' n /\ effect w g w' g' r (eq k) nothing /\ view g r k = None /\ view g' r k = Some (x, Private) /\
        forall a, in_frame f a -> km_word w' (x + (a - f)) = km_word w' a
    | inr w' => exists g', mem_inv w' m g' n /\ effect w g w' g' r (eq k) nothing /\ (view g r k <> None \/ exhausted w')
    end.
Proof using.
  intros Hi Hr Hk Hx0. destruct (alloc_mem w m g n Hi) as [[-> Hno]|(x & pm & -> & Hx & _ & Hiff & Hi1 & Hl1)]; cbn [mbind option_bind].
  { exists (inr (set_pmm w (km_pmm w))). split; [done|]. destruct w. exists g. split; [done|]. split; [apply effect_refl|]. right. intros y z Hy. by destruct (Hno y). }
  cbv zeta. rewrite (proj2 (Z.eqb_neq x 0)) by done. set (w1 := set_pmm w pm) in *. set (w2 := copy_words w1 x f PAGE_SIZE).
  assert (forall a, ~ in_frame x a -> km_word w2 a = km_word w1 a) as Hout by (intros a Ha; by apply copy_out).
  assert (mem_inv w2 m g (n - 1)) as Hi2 by (apply (frame_mem w1 w2 m g _ x); try done; apply Hl1). assert (limbo w2 g x) as Hl2 by (by apply (limbo_words w1)). pose proof Hi2 as [Hs2 Hf2 Hrep2].
  assert (effect w g w2 g r (eq k) nothing) as He2.
  { apply (effect_compose w g w1 g); [by apply word_effect|]. by apply (limbo_effect w1 w2 g r x); [apply Hi1|done|]. }
  destruct (fresh_map w2 m g (n - 1) r k x false Hs2 Hf2 Hl2 Hrep2 Hr Hk) as (z & w3 & N & -> & He & Hzz). cbn [mbind option_bind].
  pose proof (effect_compose _ _ _ _ _ _ _ _ _ He2 (grow_effect w2 w3 g r N (eq k) nothing Hs2 Hr He)) as He3. destruct Hzz as [[-> Hfr]|(-> & Hs3 & Hf3 & Hl3 & Hr3 & Hwhy)]; cbn [negb Z.eqb].
  - eexists. split; [done|]. exists (put_map (add_tabs g r N) (r, k) (x, Private)), x. split; [replace n with (n - 1 + 1) by lia; by apply fresh_private|]. split; [|split; [apply Hfr|split; [apply view_put_eq|]]].
    + apply (effect_compose w g w3 (add_tabs g r N)); [done|]. by apply put_effect.
    + intros a Ha. destruct x0 as [r0 k0]. rewrite (map_effect_words w2 w3 g r N (r0, k0) f Private a Hs2 He Hx0 Ha).
      assert (in_frame x (x + (a - f))) as Hxa by (unfold in_frame in *; lia). rewrite (limbo_map_words w2 w3 g r N x _ Hs2 He Hl2 Hxa).
      unfold w2 at 1. rewrite copy_in by (unfold in_frame in Hxa; lia). replace (f + (x + (a - f) - x)) with a by lia. symmetry. apply Hout. intros Hc.
      apply (li_map _ _ _ Hl2 (r0, k0) Private). destruct (si_mapped w2 g r0 k0 f Private Hs2 Hx0) as (_ & [_ Hal] & _). by rewrite (frames_apart x f a (proj2 (li_page _ _ _ Hl2)) Hal Hc Ha).
  - destruct (give_back_spec w3 m _ _ x false Hs3 Hf3 Hl3 Hr3) as (w5 & E5 & Hi5 & Ew & Hiff5). unfold give_back in E5. rewrite E5. cbn [mbind option_bind]. eexists. split; [done|].
    exists (add_tabs g r N). split; [by replace n with (n - 1 + 1) by lia|]. split; [apply (effect_compose w g w3 (add_tabs g r N)); [done|by apply word_effect]|].
    destruct Hwhy as [?|Hno]; [by left|right]. intros y y' [?| ->]%Hiff5 [?| ->]%Hiff5; try done; by destruct (Hno _ ltac:(eassumption)).
Qed.

Lemma copy_page_mem w m g n parent child k : mem_inv w m g n -> is_space g parent -> is_space g child -> parent <> child -> vm_page k ->
  exists res, copy_body parent child w (k * PAGE_SIZE) = Some res /\
    match res with
    | inl w' => exists m' g', mem_inv w' m' g' n /\ effect w g w' g' child (eq k) nothing /\ (view g child k = None -> copied w' g' parent child k) /\
        (view g child k <> None -> view g parent k = None /\ w' = w /\ g' = g)
    | inr w' => (exists m' g', mem_inv w' m' g' n /\ effect w g w' g' child (eq k) nothing /\ (view g child k <> None /\ view g parent k <> None \/ exhausted w')) \/ exists f, view g parent k = Some (f, Shared) /\ full_count g f
    end.
Proof using.
  intros Hi Hp Hc Hne Hk. unfold copy_body. pose proof (mi_spaces _ _ _ _ Hi) as Hs. rewrite (paddr_mem w g) by done. cbn [mbind option_bind].
  assert (forall w' g', effect w g w' g' child (eq k) nothing -> view g' parent k = view g parent k) as Hpar by (intros w' g' He; apply (ef_view _ _ _ _ _ _ _ He); by left).
  destruct (view g parent k) as [[f kd]|] eqn:Ev.
  2: { eexists. split; [done|]. exists m, g. split; [done|]. split; [apply effect_refl|]. split; [|done]. intros Hn. unfold copied. by rewrite Ev. }
  destruct (view_frame w g parent k f kd Hs Ev) as (_ & [Hfp _] & _). rewrite (proj2 (Z.eqb_neq f 0)) by lia.
  destruct (check_law w parent (tables_of g parent) (view g parent) k f kd (si_space _ _ Hs parent Hp) Ev) as [-> Hchk]. cbn [mbind option_bind]. destruct kd.
  - rewrite bool_decide_false by done. rewrite (Hchk ltac:(done)). cbn [mbind option_bind]. rewrite bool_decide_false by done.
    destruct (copy_private w m g n child k f (parent, k) Hi Hc Hk Ev) as (res & E & Hres). exists res. split; [exact E|]. destruct res as [w'|w'].
    + destruct Hres as (g' & x & Hi' & He & Hn & Hv & Hcp). exists m, g'. split; [done|]. split; [done|]. split; [|done]. intros _. unfold copied. rewrite (Hpar _ _ He). by exists x.
    + left. destruct Hres as (g' & Hi' & He & Hwhy). exists m, g'. split; [done|]. split; [done|]. destruct Hwhy; [by left|by right].
  - rewrite bool_decide_false by done. rewrite (Hchk ltac:(done)). cbn [mbind option_bind]. rewrite bool_decide_true by done.
    destruct (share_again w m g n child k f (parent, k) Hi Hc Hk Ev) as (z & w1 & N & -> & _ & Hz). cbn [mbind option_bind].
    destruct Hz as [(-> & Hn & w2 & ok & s & -> & E & Hok)|(-> & Hi1 & He & Hwhy)]; cbn [negb Z.eqb mbind option_bind]; [rewrite E; cbn [mbind option_bind]; destruct ok|].
    + eexists. split; [done|]. destruct Hok as (m' & Hi' & He). eexists m', _. split; [exact Hi'|]. split; [done|]. split; [|done]. intros _. unfold copied. rewrite (Hpar _ _ He). apply view_put_eq.
    + eexists. split; [done|]. right. by exists f.
    + eexists. split; [done|]. left. exists m, (add_tabs g child N). split; [done|]. split; [done|]. destruct Hwhy; [by left|by right].
  - rewrite bool_decide_true by done. destruct (device_map_mem w m g n child k f Hi Hc Hk (mapped_device _ _ _ _ _ _ Hi Ev)) as (z & w1 & N & -> & _ & Hz). cbn [mbind option_bind].
    destruct Hz as [(-> & Hn & w2 & -> & _ & Hi2 & He)|(-> & Hi1 & He & Hwhy)]; cbn [negb Z.eqb mbind option_bind]; (eexists; split; [done|]).
    + eexists m, _. split; [exact Hi2|]. split; [done|]. split; [|done]. intros _. unfold copied. rewrite (Hpar _ _ He). apply view_put_eq.
    + left. exists m, (add_tabs g child N). split; [done|]. split; [done|]. destruct Hwhy; [by left|by right].
Qed.

(** A later change of another page of the child. *)
Lemma copied_stable w g w' g' parent child K k : parent <> child -> ~ K k -> effect w g w' g' child K nothing -> copied w g parent child k -> copied w' g' parent child k.
Proof using.
  intros Hne Hk He Hc. unfold copied in *. rewrite (ef_view _ _ _ _ _ _ _ He parent k) by (by left). rewrite (ef_view _ _ _ _ _ _ _ He child k) by (by right).
  destruct (view g parent k) as [[f []]|] eqn:Ev; try done. destruct Hc as (x & Hx & Hw). exists x. split; [done|]. intros a Ha.
  rewrite (ef_words _ _ _ _ _ _ _ He (parent, k) f Private a), (ef_words _ _ _ _ _ _ _ He (child, k) x Private); try done; try (by intros []); [by apply Hw|by right| |by left].
  unfold in_frame in *. lia.
Qed.

(** The pages [D] were copied since [w0] and [g0], when the child had no page. *)
Record forking (w0 : kmem) (g0 : ghost) (n parent child : Z) (D : Z -> Prop) (w : kmem) (m : refcounts) (g : ghost) : Prop := mk_fk {
  fk_mem : mem_inv w m g n;
  fk_effect : effect w0 g0 w g child D nothing;
  fk_copied k : D k -> copied w g parent child k;
}.
Definition crowded (w0 : kmem) (g0 : ghost) (n child : Z) : Prop :=
  exists w m g f, mem_inv w m g n /\ effect w0 g0 w g child (fun _ => True) nothing /\ full_count g f /\ nshared g0 f <> 0%nat.
Definition fork_failed (w0 : kmem) (g0 : ghost) (n child : Z) (clash : Prop) (w : kmem) : Prop :=
  (exists m g, mem_inv w m g n /\ effect w0 g0 w g child (fun _ => True) nothing /\ (clash \/ exhausted w)) \/ crowded w0 g0 n child.

(** The space of the child and of the parent at the start. *)
Record start (g0 : ghost) (parent child : Z) : Prop := mk_st {
  st_parent : is_space g0 parent;
  st_child : is_space g0 child;
  st_apart : parent <> child;
  st_empty k : view g0 child k = None;
}.

Lemma copied_none w g parent child k : copied w g parent child k -> view g child k = None -> view g parent k = None.
Proof using. unfold copied. destruct (view g parent k) as [[f []]|]; [|congruence..|done]. intros (x & -> & _). done. Qed.

Lemma copy_range_mem w0 g0 n parent child D w m g a b (Hst : start g0 parent child) `{!forall k, Decision (D k)} : pages_ok a b -> forking w0 g0 n parent child D w m g ->
  exists res, page_loop (page_count (a * PAGE_SIZE) (b * PAGE_SIZE)) (copy_body parent child) w (a * PAGE_SIZE) = Some res /\
    match res with
    | inl w' => (exists m' g', forking w0 g0 n parent child (fun k => D k \/ within a b k) w' m' g') /\ forall k, D k -> within a b k -> view g0 parent k = None
    | inr w' => fork_failed w0 g0 n child (exists k, D k /\ within a b k /\ view g0 parent k <> None) w'
    end.
Proof using.
  intros Hab Hf. destruct Hst as [Hp Hc Hne Hemp].
  destruct (range_loop (copy_body parent child)
    (fun j w' => (exists m' g', forking w0 g0 n parent child (fun k => D k \/ within a j k) w' m' g') /\ forall k, D k -> within a j k -> view g0 parent k = None)
    (fun _ w' => fork_failed w0 g0 n child (exists k, D k /\ within a b k /\ view g0 parent k <> None) w') a b w Hab) as ([w'|w'] & -> & Hres).
  - split; [|intros k _ Hk; unfold within in Hk; lia]. exists m, g. destruct Hf as [A B C]. split; [done|eapply effect_mono; [exact B|by left|done]|]. intros k [?|Hk]; [by apply C|unfold within in Hk; lia].
  - intros j w1 Hj ((m1 & g1 & [Hi1 He1 Hc1]) & Honce). pose proof (ef_space _ _ _ _ _ _ _ He1) as Hsp. assert (a <= j < b) as Haj by exact Hj.
    assert (view g1 parent j = view g0 parent j) as Epar by (apply (ef_view _ _ _ _ _ _ _ He1); by left).
    destruct (copy_page_mem w1 m1 g1 n parent child j Hi1) as ([w2|w2] & -> & Hres); [by apply Hsp|by apply Hsp|done|by apply (pages_vm a b)| |]; (eexists; split; [done|]).
    + destruct Hres as (m2 & g2 & Hi2 & He2 & Hcp & Hold). split.
      * exists m2, g2. split; [done| |].
        -- apply (effect_step w0 g0 w1 g1 w2 g2 child _ _ (eq j) nothing He1 He2); [intros k [?|Hk]; [by left|right; unfold within in *; lia]|intros k <-; right; unfold within; lia].
        -- intros k Hk. destruct (decide (D k \/ within a j k)) as [Hd|Hd].
           ++ destruct (decide (k = j)) as [->|Hkj]; [|apply (copied_stable w1 g1 w2 g2 parent child (eq j)); [done|congruence|done|by apply Hc1]].
              specialize (Hc1 j Hd). destruct (view g1 child j) eqn:Ecj; [|by apply Hcp]. destruct (Hold ltac:(done)) as (_ & -> & ->). done.
           ++ assert (k = j) as -> by (destruct Hk as [?|Hk]; [tauto|unfold within in *; lia]). apply Hcp. rewrite (ef_view _ _ _ _ _ _ _ He1) by (by right). apply Hemp.
      * intros k Hd Hk. destruct (decide (k = j)) as [->|Hkj]; [|apply Honce; [done|unfold within in *; lia]]. rewrite <- Epar.
        destruct (view g1 child j) eqn:Ecj; [by destruct (Hold ltac:(done))|]. apply (copied_none w1 g1 parent child); [apply Hc1; by left|done].
    + destruct Hres as [(m2 & g2 & Hi2 & He2 & Hwhy)|(f & Hvf & Hfull)].
      * left. exists m2, g2. split; [done|]. split; [apply (effect_step w0 g0 w1 g1 w2 g2 child _ _ (eq j) nothing He1 He2); done|].
        destruct Hwhy as [[Hv Hpv]|?]; [left|by right]. exists j. split; [|split; [done|by rewrite <- Epar]]. destruct (decide (D j)) as [?|Hd]; [done|]. destruct Hv.
        rewrite (ef_view _ _ _ _ _ _ _ He1); [apply Hemp|]. right. unfold within. intros [?|?]; [done|lia].
      * right. exists w1, m1, g1, f. split; [done|]. split; [by eapply effect_mono|]. split; [done|]. apply (nshared_mapped g0 (parent, j)). by rewrite Epar in Hvf.
  - eexists. split; [done|]. exact Hres.
  - eexists. split; [done|]. by destruct Hres as (j & _ & ?).
Qed.

(** ** The ranges of the parent *)

Definition fork_ranges (t : utask) : list (Z * Z) :=
  (0, ut_heap_end t) :: (if ut_mmap_base t <? ut_mmap_next t then [(ut_mmap_base t, ut_mmap_next t)] else []) ++
  (u64 (ut_stack_top t - ut_stack_size t), ut_stack_top t) :: (if USER_INTERP_BASE <? ut_interp_end t then [(USER_INTERP_BASE, ut_interp_end t)] else []).
Definition in_pages (x : Z * Z) : Z -> Prop := within (x.1 / PAGE_SIZE) (pages_of x.2).
Definition in_any (l : list (Z * Z)) (k : Z) : Prop := Exists (fun x => in_pages x k) l.
Definition range_ok (x : Z * Z) : Prop := 0 <= x.1 <= x.2 /\ pages_of x.2 * PAGE_SIZE <= vm_top.
(** Two of the ranges have a mapped page in common. *)
Definition clash (V : vmap) (l : list (Z * Z)) : Prop := exists l1 x l2 k, l = l1 ++ x :: l2 /\ in_any l1 k /\ in_pages x k /\ V k <> None.

Fixpoint copy_all (parent child : Z) (r : kmem + kmem) (l : list (Z * Z)) : option (kmem + kmem) :=
  match l with
  | [] => Some r
  | x :: l => r ← copy_range parent child r x.1 x.2; copy_all parent child r l
  end.
Lemma fork_copy_unfold w t : fork_copy w t =
  ('(pgd, pm) ← pmm_alloc_pages (km_pmm w) 1;
   if pgd =? 0 then Some (F_none, set_pmm w pm)
   else
     r ← copy_all (ut_pgd t) pgd (inl (vm_init_pgd (clear_words (set_pmm w pm) pgd PAGE_SIZE) pgd)) (fork_ranges t);
     Some (match r with inl w => (F_ok pgd, w) | inr w => (F_undo pgd, w) end)).
Proof using.
  unfold fork_copy, fork_ranges. destruct (pmm_alloc_pages (km_pmm w) 1) as [[pgd pm]|]; [|done]. cbn [mbind option_bind]. destruct (pgd =? 0); [done|].
  destruct (copy_range _ _ _ 0 _) as [r1|] eqn:E1; [|destruct (_ <? ut_mmap_next t); cbn [app copy_all fst snd mbind option_bind]; by rewrite E1]. cbn [mbind option_bind].
  destruct (ut_mmap_base t <? ut_mmap_next t); cbn [app copy_all fst snd]; rewrite E1; cbn [mbind option_bind].
  1: destruct (copy_range _ _ r1 _ _) as [r2|]; [|done]; cbn [mbind option_bind].
  all: match goal with |- context [copy_range _ _ ?r (u64 _) _] => destruct (copy_range (ut_pgd t) pgd r (u64 (ut_stack_top t - ut_stack_size t)) (ut_stack_top t)) as [r3|]; [|done] end; cbn [mbind option_bind].
  all: destruct (USER_INTERP_BASE <? ut_interp_end t); cbn [copy_all fst snd mbind option_bind]; [|done]; by destruct (copy_range _ _ r3 _ _).
Qed.

Lemma copy_range_pages parent child w x : range_ok x ->
  copy_range parent child (inl w) x.1 x.2 = page_loop (page_count (x.1 / PAGE_SIZE * PAGE_SIZE) (pages_of x.2 * PAGE_SIZE)) (copy_body parent child) w (x.1 / PAGE_SIZE * PAGE_SIZE).
Proof using VL. intros [H1 H2]. pose proof vm_top_range. pose proof (pages_of_bounds x.2). unfold copy_range. rewrite ALIGN_DOWN_page, ALIGN_UP_page by lia. done. Qed.

Lemma copy_all_failed parent child w l : copy_all parent child (inr w) l = Some (inr w).
Proof using. induction l as [|x l IH]; [done|]. cbn. done. Qed.

Lemma copy_all_mem w0 g0 n parent child l l0 w m g : start g0 parent child -> Forall range_ok l -> forking w0 g0 n parent child (in_any l0) w m g -> ~ clash (view g0 parent) l0 ->
  exists res, copy_all parent child (inl w) l = Some res /\
    match res with
    | inl w' => (exists m' g', forking w0 g0 n parent child (in_any (l0 ++ l)) w' m' g') /\ ~ clash (view g0 parent) (l0 ++ l)
    | inr w' => fork_failed w0 g0 n child (clash (view g0 parent) (l0 ++ l)) w'
    end.
Proof using.
  intros Hst. revert l0 w m g. induction l as [|x l IH]; intros l0 w m g Hl Hf Hno; cbn [copy_all]; [eexists; split; [done|]; rewrite app_nil_r; split; [by exists m, g|done]|].
  apply Forall_cons in Hl as [Hx Hl]. rewrite copy_range_pages by done. pose proof vm_top_range. pose proof (pages_of_bounds x.2) as Hpb.
  assert (pages_ok (x.1 / PAGE_SIZE) (pages_of x.2)) as Hok.
  { destruct Hx as [H1 H2]. pose proof (Z_div_mod_eq_full x.1 PAGE_SIZE). pose proof (Z.mod_pos_bound x.1 PAGE_SIZE). pose proof (Z.div_pos x.1 PAGE_SIZE). split; lia. }
  assert (forall k, Decision (in_any l0 k)) as Hdec by (intros k; unfold in_any, in_pages, within; apply _).
  destruct (copy_range_mem w0 g0 n parent child (in_any l0) w m g _ _ Hst Hok Hf) as ([w1|w1] & -> & Hres); cbn [mbind option_bind].
  - destruct Hres as [(m1 & g1 & [A B C]) Honce]. destruct (IH (l0 ++ [x]) w1 m1 g1 Hl) as (res & E & Hr).
    + split; [done|eapply effect_mono; [exact B| |done]|]; intros k; unfold in_any; rewrite Exists_app, Exists_cons, Exists_nil; [unfold in_pages; tauto|]. intros Hk. apply C. unfold in_any, in_pages in *. tauto.
    + intros (l1 & y & l2 & k & El & Hk1 & Hk2 & Hv). destruct l2 as [|z l2 _] using rev_ind.
      * apply app_inj_tail in El as [-> ->]. by apply Hv, Honce.
      * rewrite app_comm_cons, app_assoc in El. apply app_inj_tail in El as [-> _]. apply Hno. by exists l1, y, l2, k.
    + exists res. split; [done|]. by rewrite <- app_assoc in Hr.
  - rewrite copy_all_failed. eexists. split; [done|]. destruct Hres as [(m1 & g1 & Hi1 & He1 & Hwhy)|?]; [left|by right]. exists m1, g1. split; [done|]. split; [done|].
    destruct Hwhy as [(k & Hk & Hin & Hv)|?]; [left|by right]. by exists l0, x, l, k.
Qed.

(** Room in the counts for one more mapping of every page of an address space. *)
Definition count_room (g : ghost) : Prop := forall f, nshared g f <> 0%nat -> Z.of_nat (nshared g f) + vm_top / PAGE_SIZE < 4294967295.

(** A new space adds at most one mapping per page. *)
Lemma nshared_new w m g n w0 g0 child f : mem_inv w m g n -> effect w0 g0 w g child (fun _ => True) nothing -> 0 <= vm_top ->
  Z.of_nat (nshared g f) <= Z.of_nat (nshared g0 f) + vm_top / PAGE_SIZE.
Proof using.
  intros Hi He Htop. unfold nshared, cnt. set (c := vm_top / PAGE_SIZE). assert (0 <= c) as Hc by (apply Z.div_pos; lia).
  rewrite <- !(size_dom (D := gset (Z * Z))). set (A := dom (filter _ (g_map g))). set (B := dom (filter _ (g_map g0))).
  assert (A ⊆ B ∪ list_to_set ((fun k => (child, k)) <$> seqZ 0 c)) as Hsub.
  { intros [r k] (v & Hv)%elem_of_dom. apply map_lookup_filter_Some in Hv as [Hv Hf]. cbn in Hf. subst v. apply elem_of_union. destruct (decide (r = child)) as [->|Hne]; [right|left].
    - apply elem_of_list_to_set, list_elem_of_fmap. exists k. split; [done|]. destruct (si_mapped w g child k f Shared (mi_spaces _ _ _ _ Hi) Hv) as ([Hk1 Hk2] & _). apply elem_of_seqZ.
      assert (k + 1 <= c) by (unfold c; apply Z.div_le_lower_bound; lia). lia.
    - apply elem_of_dom. exists (f, Shared). apply map_lookup_filter_Some. split; [|done]. change (view g0 r k = Some (f, Shared)). rewrite <- (ef_view _ _ _ _ _ _ _ He) by (by left). exact Hv. }
  apply subseteq_size in Hsub. rewrite size_union_alt in Hsub. assert (size (list_to_set ((fun k => (child, k)) <$> seqZ 0 c) ∖ B : gset (Z * Z)) <= Z.to_nat c)%nat as Hs; [|lia].
  etrans; [apply subseteq_size, subseteq_difference_l; reflexivity|]. rewrite size_list_to_set; [by rewrite length_fmap, length_seqZ|]. apply NoDup_fmap_2; [|apply NoDup_seqZ]. by intros x y [= ->].
Qed.

Lemma not_crowded w0 g0 n child : count_room g0 -> 0 <= vm_top -> ~ crowded w0 g0 n child.
Proof using.
  intros Hroom Htop (w & m & g & f & Hi & He & Hfull & Hsh). pose proof (nshared_new w m g n w0 g0 child f Hi He Htop). specialize (Hroom f Hsh). unfold full_count in Hfull. lia.
Qed.

(** What stays of the processes there were: their mappings, and the words of their pages. *)
Definition others_kept (w : kmem) (g : ghost) (w' : kmem) (g' : ghost) (child : Z) : Prop :=
  (forall r, is_space g' r <-> r = child \/ is_space g r) /\ (forall r k, r <> child -> view g' r k = view g r k) /\
  (forall x f kd a, g_map g !! x = Some (f, kd) -> in_frame f a -> km_word w' a = km_word w a).

Lemma based_kept w g w0 g0 w' g' child D : (forall x v, g_map g !! x = Some v -> x.1 <> child) -> based w g w0 g0 child -> effect w0 g0 w' g' child D nothing -> others_kept w g w' g' child.
Proof using.
  intros Hnc [A B C E F] He. split; [|split].
  - intros r. by rewrite (ef_space _ _ _ _ _ _ _ He), C.
  - intros r k Hr. rewrite (ef_view _ _ _ _ _ _ _ He) by (by left). apply E.
  - intros [r k] f kd a Hx Ha. rewrite (ef_words _ _ _ _ _ _ _ He (r, k) f kd a); [by apply (F (r, k) f kd)|left; by apply (Hnc (r, k) (f, kd))| |by intros []|done].
    change (view g0 r k = Some (f, kd)). by rewrite E.
Qed.

(** The copy of the address space: the child's table is new, and every page of the heap, of the mmap area, of the stack and of the
    interpreter is as in the parent: private pages are new pages with the same contents, shared pages are the same
    page with one more reference, device pages the same page; no other page is mapped.  All other processes keep
    their mappings and contents.  It fails if two of the ranges have a mapped page in common, and else only without free pages. *)
Theorem fork_copy_correct w m g n t : mem_inv w m g n -> task_of g t -> Forall range_ok (fork_ranges t) -> count_room g -> 0 <= vm_top ->
  exists res w', fork_copy w t = Some (res, w') /\
    match res with
    | F_none => w' = w /\ forall y, ~ free_at (km_pmm w) y
    | F_ok child => child <> 0 /\ ~ is_space g child /\ ~ clash (view g (ut_pgd t)) (fork_ranges t) /\ exists m' g', mem_inv w' m' g' n /\ others_kept w g w' g' child /\
        (forall k, in_any (fork_ranges t) k -> copied w' g' (ut_pgd t) child k) /\ (forall k, ~ in_any (fork_ranges t) k -> view g' child k = None)
    | F_undo child => child <> 0 /\ ~ is_space g child /\
        exists m' g', mem_inv w' m' g' n /\ others_kept w g w' g' child /\ (clash (view g (ut_pgd t)) (fork_ranges t) \/ exhausted w')
    end.
Proof using.
  intros Hi Ht Hl Hroom Htop. rewrite fork_copy_unfold. destruct (alloc_mem w m g n Hi) as [[-> Hno]|(x & pm & -> & Hx & _ & Hiff & Hi1 & Hl1)]; cbn [mbind option_bind].
  { exists F_none, w. split; [by destruct w|done]. }
  rewrite (proj2 (Z.eqb_neq x 0)) by done. set (w1 := set_pmm w pm) in *. destruct (new_space_mem w1 m g n x Hi1 Hl1) as [Hi0 Hb1]. set (w0 := vm_init_pgd _ x) in *.
  assert (based w g w0 (new_space g x) x) as Hb by (destruct Hb1 as [A B C D E]; by split). pose proof (bs_new _ _ _ _ _ Hb) as Hnx.
  assert (forall y v, g_map g !! y = Some v -> y.1 <> x) as Hnc. { intros y v Hy <-. by apply Hnx, (si_page _ _ (mi_spaces _ _ _ _ Hi) y v). }
  assert (start (new_space g x) (ut_pgd t) x) as Hst.
  { split; [apply (bs_space _ _ _ _ _ Hb); right; apply Ht|apply (bs_space _ _ _ _ _ Hb); by left| |apply Hb]. intros E. apply Hnx. rewrite <- E. apply Ht. }
  destruct (copy_all_mem w0 (new_space g x) n (ut_pgd t) x (fork_ranges t) [] w0 m (new_space g x) Hst Hl) as ([w'|w'] & -> & Hres).
  { split; [done|apply effect_refl|]. intros k Hk. by apply Exists_nil in Hk. }
  { intros (l1 & y & l2 & k & E & _). by destruct l1. }
  - cbn [mbind option_bind app] in *. exists (F_ok x), w'. split; [done|]. split; [done|]. split; [done|]. destruct Hres as [(m' & g' & [A B C]) Hcl]. split; [done|]. exists m', g'. split; [done|].
    split; [by apply (based_kept w g w0 (new_space g x) w' g' x (in_any (fork_ranges t)))|]. split; [done|]. intros k Hk. rewrite (ef_view _ _ _ _ _ _ _ B) by (by right). apply Hb.
  - cbn [mbind option_bind app] in *. exists (F_undo x), w'. split; [done|]. split; [done|]. split; [done|]. destruct Hres as [(m' & g' & A & B & C)|Hcr]; [|by apply (not_crowded w0 (new_space g x) n x) in Hcr].
    exists m', g'. split; [done|]. split; [|done]. by apply (based_kept w g w0 (new_space g x) w' g' x (fun _ => True)).
Qed.

(** A failed copy is taken down: every process, and the accounts, are as before. *)
Definition all_kept (w : kmem) (g : ghost) (w' : kmem) (g' : ghost) : Prop :=
  (forall r, is_space g' r <-> is_space g r) /\ (forall r k, view g' r k = view g r k) /\
  (forall x f kd a, g_map g !! x = Some (f, kd) -> in_frame f a -> km_word w' a = km_word w a).

Theorem fork_space_correct w m g n t : mem_inv w m g n -> task_of g t -> Forall range_ok (fork_ranges t) -> count_room g -> 0 <= vm_top ->
  exists res w' m' g', fork_space w t = Some (res, w') /\ mem_inv w' m' g' n /\
    match res with
    | None => all_kept w g w' g' /\ (clash (view g (ut_pgd t)) (fork_ranges t) \/ exists c w1, fork_copy w t = Some (c, w1) /\ exhausted w1)
    | Some child => child <> 0 /\ ~ is_space g child /\ ~ clash (view g (ut_pgd t)) (fork_ranges t) /\ others_kept w g w' g' child /\
        (forall k, in_any (fork_ranges t) k -> copied w' g' (ut_pgd t) child k) /\ (forall k, ~ in_any (fork_ranges t) k -> view g' child k = None)
    end.
Proof using.
  intros Hi Ht Hl Hroom Htop. destruct (fork_copy_correct w m g n t Hi Ht Hl Hroom Htop) as (c & w1 & E & Hres). unfold fork_space. rewrite E. cbn [mbind option_bind]. destruct c as [|child|child].
  - destruct Hres as [-> Hno]. exists None, w, m, g. split; [done|]. split; [done|]. split; [done|]. right. exists F_none, w. split; [done|]. intros y z Hy. by destruct (Hno y).
  - destruct Hres as (H0 & Hn & Hcl & m' & g' & Hi' & H). by exists (Some child), w1, m', g'.
  - destruct Hres as (H0 & Hn & m1 & g1 & Hi1 & (Hsp & Hv & Hw) & Hwhy). unfold vm_destroy_user_process. rewrite (proj2 (Z.eqb_neq child 0)) by done.
    destruct (destroy_mem w1 m1 g1 n child Hi1 (proj2 (Hsp child) (or_introl eq_refl)) H0) as (w2 & m2 & -> & Hi2 & Hw2 & _). cbn [mbind option_bind].
    exists None, w2, m2, (del_space g1 child). split; [done|]. split; [done|]. assert (forall k, view g child k = None) as Hnone.
    { intros k. destruct (view g child k) as [v|] eqn:Ev; [|done]. destruct Hn. by apply (si_page _ _ (mi_spaces _ _ _ _ Hi) (child, k) v). }
    split; [split; [|split]|].
    + intros r. unfold is_space at 1. rewrite del_tab_lookup. change (is_space g1 r /\ r <> child <-> is_space g r). rewrite Hsp. split; [intros [[?|?] ?]; done|]. intros Hr. split; [by right|]. by intros ->.
    + intros r k. rewrite del_view. case_decide as Er; [subst r; by rewrite Hnone|by apply Hv].
    + intros [r k] f kd a Hx Ha. rewrite (Hw2 (r, k) f kd a); [by apply (Hw (r, k) f kd)| |done]. change (view g1 r k = Some (f, kd)). rewrite Hv; [exact Hx|]. intros ->. specialize (Hnone k). unfold view in Hnone. congruence.
    + destruct Hwhy; [by left|right]. by exists (F_undo child), w1.
Qed.
End fork.
