(* ===== verification/UserSys.v ===== *)
(** * What processes see of brk, mmap, munmap and fork

    [load] reads a user address through the address space of a process; the theorems say what each
    call does to what all processes load, over every implementation of the page tables that
    keeps the laws of AddrSpace; [ustep] has the calls of all processes in any order. *)

From stdpp Require Import options.
From Stdlib Require Import Lia.
From S2P Require Import Prelude Bitmap Pmm SharedPage PhysMem PageTable Teardown Riscv64 AddrSpace UserMem UserSpaces UserExit UserOps UserMap UserFile UserFork.

Section see.
Context {VO : vm_ops} {VL : vm_laws}.

Definition load (w : kmem) (g : ghost) (r va : Z) : option Z :=
  match view g r (va / PAGE_SIZE) with Some (f, _) => Some (km_word w (f + va mod PAGE_SIZE)) | None => None end.

Lemma page_offset f va : in_frame f (f + va mod PAGE_SIZE).
Proof using. unfold in_frame. pose proof (Z.mod_pos_bound va PAGE_SIZE). lia. Qed.

(** An effect on the pages [K] of [r] is not seen elsewhere, but in the frames [W]. *)
Lemma load_effect w g w' g' r K W r' va : effect w g w' g' r K W -> r' <> r \/ ~ K (va / PAGE_SIZE) ->
  (forall f kd, view g r' (va / PAGE_SIZE) = Some (f, kd) -> ~ W f) -> load w' g' r' va = load w g r' va.
Proof using.
  intros He Hk HW. unfold load. rewrite (ef_view _ _ _ _ _ _ _ He) by done. destruct (view g r' (va / PAGE_SIZE)) as [[f kd]|] eqn:Ev; [|done].
  f_equal. apply (ef_words _ _ _ _ _ _ _ He (r', va / PAGE_SIZE) f kd); [done|done|by apply (HW f kd)|apply page_offset].
Qed.

Definition within_bytes (a b va : Z) : bool := (a * PAGE_SIZE <=? va) && (va <? b * PAGE_SIZE).
Lemma within_bytes_spec a b va : within_bytes a b va = true <-> within a b (va / PAGE_SIZE).
Proof using.
  unfold within_bytes, within. rewrite andb_true_iff, Z.leb_le, Z.ltb_lt. pose proof (Z_div_mod_eq_full va PAGE_SIZE). pose proof (Z.mod_pos_bound va PAGE_SIZE). lia.
Qed.
Lemma within_bytes_out a b va : within_bytes a b va = false -> ~ within a b (va / PAGE_SIZE).
Proof using. intros E H. apply within_bytes_spec in H. congruence. Qed.

(** C18. After munmap of a range below the top of the user addresses the process loads nothing from its pages; all its other addresses,
    and all other processes, load what they did; every frame has its owner. *)
Theorem munmap_refines w m g n ts t addr len : mem_inv w m g n -> task_of g t -> 0 <= addr -> addr mod PAGE_SIZE = 0 -> 0 < len <= U64_MOD - PAGE_SIZE ->
  let a := addr / PAGE_SIZE in let b := a + pages_of len in b * PAGE_SIZE <= vm_top ->
  exists w' m' g' ts', sys_munmap w ts t addr len = Some (0, w', ts') /\ mem_inv w' m' g' n /\
    forall r va, load w' g' r va = if bool_decide (r = ut_pgd t) && within_bytes a b va then None else load w g r va.
Proof using.
  intros Hi Ht Haddr Hal Hlen a b Htop. pose proof (Z_div_mod_eq_full addr PAGE_SIZE) as Ea. pose proof (sys_munmap_correct w m g n ts t addr len Hi Ht Haddr ltac:(lia) ltac:(lia)) as H. cbv zeta in H.
  rewrite (proj2 (Z.eqb_neq len 0)) in H by lia. assert (Z.land addr (PAGE_SIZE - 1) = 0) as El by (change (PAGE_SIZE - 1) with (Z.ones 12); by rewrite Z.land_ones by lia).
  rewrite El in H. cbn [orb negb Z.eqb] in H. fold a b in H. destruct H as (w' & m' & g' & ts' & E & Hi' & He & Hv & _). exists w', m', g', ts'. split; [done|]. split; [done|].
  intros r va. destruct (bool_decide_reflect (r = ut_pgd t)) as [->|Hr]; cbn [andb]; [destruct (within_bytes a b va) eqn:Eb|].
  - unfold load. by rewrite Hv by (by apply within_bytes_spec).
  - apply (load_effect w g w' g' (ut_pgd t) (within a b) nothing); [done|right; by apply within_bytes_out|by intros f kd _ []].
  - apply (load_effect w g w' g' (ut_pgd t) (within a b) nothing); [done|by left|by intros f kd _ []].
Qed.

(** C19. brk: the end that is returned is [addr] or, for a question or when no page is free, the old end.  Below an end that moved down
    nothing is loaded; between the old end and a new one the process loads zero where it loaded nothing before, except where memory ran
    out; everything else is loaded as before by this process and by the others. *)
Theorem brk_refines w m g n ts t addr : mem_inv w m g n -> task_of g t ->
  let brk := shared_heap_end ts t in let old := pages_of brk in let new := pages_of addr in let r := ut_pgd t in
  0 <= brk -> 0 < addr -> old * PAGE_SIZE <= vm_top -> new * PAGE_SIZE <= vm_top ->
  exists ret w' ts' m' g', sys_brk w ts t addr = Some (ret, w', ts') /\ mem_inv w' m' g' n /\
    (forall r' va, r' <> r \/ within_bytes (Z.min old new) (Z.max old new) va = false \/ (brk < addr /\ load w g r va <> None) -> load w' g' r' va = load w g r' va) /\
    (addr <= brk -> ret = addr /\ forall va, within_bytes new old va = true -> load w' g' r va = None) /\
    (brk < addr -> ret = addr \/ (ret = brk /\ ts' = ts /\ forall y, ~ free_at (km_pmm w') y)) /\
    (brk < addr -> ret = addr -> forall va, within_bytes old new va = true -> load w g r va = None -> load w' g' r va = Some 0 \/ (load w' g' r va = None /\ exhausted w')).
Proof using.
  intros Hi Ht brk old new r Hb Ha Hold Hnew. destruct (sys_brk_correct w m g n ts t addr Hi Ht Hb ltac:(lia) Hold Hnew) as (ret & w' & ts' & m' & g' & E & Hi' & Hres).
  exists ret, w', ts', m', g'. split; [done|]. split; [done|]. fold brk in Hres. fold old new r in Hres. assert (forall x y, x <= y -> pages_of x <= pages_of y) as Hmono by (intros x y Hxy; apply Z.div_le_mono; lia).
  destruct Hres as [(? & _)|[(Hle & -> & -> & _ & He & Hv)|[(Hgt & -> & -> & _ & He & Hp)|(Hgt & -> & -> & He & Hno)]]]; [lia|..].
  - specialize (Hmono addr brk ltac:(lia)). fold old new in Hmono. rewrite Z.min_r, Z.max_l by lia. split; [|split; [intros _; split; [done|]|split; intros; lia]].
    + intros r' va [?|[Hout|[? _]]]; [| |lia]; apply (load_effect w g w' g' r (within new old) nothing); try done; try (by intros f kd _ []); [by left|right; by apply within_bytes_out].
    + intros va Hva. unfold load. by rewrite Hv by (by apply within_bytes_spec).
  - specialize (Hmono brk addr ltac:(lia)). fold old new in Hmono. rewrite Z.min_l, Z.max_r by lia. split; [|split; [intros; lia|split; [by left|]]].
    + intros r' va Hout. apply (load_effect w g w' g' r (unmapped g r old new) nothing); [done| |by intros f kd _ []].
      destruct (decide (r' = r)) as [->|]; [right|by left]. intros [Hk Hn]. destruct Hout as [?|[Hout|[_ Hl]]]; [done|by apply within_bytes_out in Hout|]. apply Hl. unfold load. by rewrite Hn.
    + intros _ _ va Hva Hl. specialize (Hp (va / PAGE_SIZE) (proj1 (within_bytes_spec _ _ _) Hva)). unfold grown_page in Hp. unfold load in Hl |- *.
      destruct (view g r (va / PAGE_SIZE)) as [[f kd]|]; [done|]. destruct Hp as [(x & -> & Hz)|[-> ?]]; [left; f_equal; apply Hz, page_offset|by right].
  - specialize (Hmono brk addr ltac:(lia)). fold old new in Hmono. rewrite Z.min_l, Z.max_r by lia. split; [|split; [intros; lia|split; [by right|intros; lia]]].
    intros r' va Hout. apply (load_effect w g w' g' r (unmapped g r old new) nothing); [done| |by intros f kd _ []].
    destruct (decide (r' = r)) as [->|]; [right|by left]. intros [Hk Hn]. destruct Hout as [?|[Hout|[_ Hl]]]; [done|by apply within_bytes_out in Hout|]. apply Hl. unfold load. by rewrite Hn.
Qed.

(** An address whose frame is one of those of the range: another mapping of a shared page. *)
Definition aliased (g : ghost) (r a b r' va : Z) : Prop := exists f kd, view g r' (va / PAGE_SIZE) = Some (f, kd) /\ covered g r a b f.

Lemma load_covered w g w' g' r a b K r' va : effect w g w' g' r K (covered g r a b) -> r' <> r \/ ~ K (va / PAGE_SIZE) -> ~ aliased g r a b r' va -> load w' g' r' va = load w g r' va.
Proof using. intros He Hk Ha. apply (load_effect w g w' g' r K (covered g r a b)); [done|done|]. intros f kd Hv Hc. apply Ha. by exists f, kd. Qed.


(** C14. fork: the child loads what the parent loads from the heap, the mmap area, the stack and the interpreter, and nothing from elsewhere;
    all processes there were load what they did.  A fork that fails leaves everything as it was: what was copied so far is given back.  It
    fails if two of the ranges have a mapped page in common, and else only when no page is free.  In each case every frame has its owner. *)
Theorem fork_refines w m g n t : mem_inv w m g n -> task_of g t -> Forall range_ok (fork_ranges t) -> count_room g -> 0 <= vm_top ->
  exists res w' m' g', fork_space w t = Some (res, w') /\ mem_inv w' m' g' n /\ (clash (view g (ut_pgd t)) (fork_ranges t) -> res = None) /\
    match res with
    | Some child => ~ is_space g child /\ (forall r, is_space g' r <-> r = child \/ is_space g r) /\ (forall r va, r <> child -> load w' g' r va = load w g r va) /\
        (forall va, load w' g' child va = if bool_decide (in_any (fork_ranges t) (va / PAGE_SIZE)) then load w g (ut_pgd t) va else None)
    | None => (forall r, is_space g' r <-> is_space g r) /\ (forall r va, load w' g' r va = load w g r va) /\
        (clash (view g (ut_pgd t)) (fork_ranges t) \/ exists c w1, fork_copy w t = Some (c, w1) /\ exhausted w1)
    end.
Proof using.
  intros Hi Ht Hl Hroom Htop. destruct (fork_space_correct w m g n t Hi Ht Hl Hroom Htop) as (res & w' & m' & g' & E & Hi' & Hres). exists res, w', m', g'. split; [done|]. split; [done|].
  destruct res as [child|].
  - destruct Hres as (_ & Hn & Hcl & (Hsp & Hv & Hw) & Hc & Ho). split; [done|]. split; [done|]. split; [done|].
    assert (forall r va, r <> child -> load w' g' r va = load w g r va) as Hload.
    { intros r va Hr. unfold load. rewrite Hv by done. destruct (view g r (va / PAGE_SIZE)) as [[f kd]|] eqn:Ev; [|done]. f_equal. apply (Hw _ f kd _ Ev), page_offset. }
    split; [done|]. intros va. assert (ut_pgd t <> child) as Hne by (intros E'; apply Hn; rewrite <- E'; apply Ht). rewrite <- (Hload (ut_pgd t) va Hne). case_bool_decide as Hin.
    + specialize (Hc _ Hin). unfold copied in Hc. unfold load. destruct (view g' (ut_pgd t) (va / PAGE_SIZE)) as [[f []]|]; [|by rewrite Hc..].
      destruct Hc as (x & -> & Hw'). f_equal. rewrite <- (Hw' _ (page_offset f va)). f_equal. lia.
    + unfold load. by rewrite Ho.
  - destruct Hres as [(Hsp & Hv & Hw) Hwhy]. split; [done|]. split; [done|]. split; [|done]. intros r va. unfold load. rewrite Hv.
    destruct (view g r (va / PAGE_SIZE)) as [[f kd]|] eqn:Ev; [|done]. f_equal. apply (Hw _ f kd _ Ev), page_offset.
Qed.

(** C15. When the slot of a dead process is given back, its address space goes with it: all its tables and private pages are free, all other
    processes load what they did, and every frame has its owner. *)
Theorem reap_refines w m g n t : mem_inv w m g n -> task_of g t -> ut_dead t = true -> ut_shares t = false -> let r := ut_pgd t in
  exists w' t' m' g', task_reap_dead w t = Some (w', t') /\ ut_used t' = false /\ mem_inv w' m' g' n /\
    (forall r', is_space g' r' <-> is_space g r' /\ r' <> r) /\ (forall r' va, r' <> r -> load w' g' r' va = load w g r' va) /\
    (forall x, tables_of g r x -> free_at (km_pmm w') x) /\ (forall k f, view g r k = Some (f, Private) -> free_at (km_pmm w') f).
Proof using.
  intros Hi Ht Hd Hsh r. destruct (destroy_mem w m g n r Hi (tk_space _ _ Ht) (tk_pgd _ _ Ht)) as (w' & m' & E & Hi' & Hw & Hft & Hfp).
  unfold task_reap_dead, slot_take_and_free, vm_destroy_user_process. rewrite Hd. cbn [negb ut_user ut_shares ut_pgd]. rewrite (tk_user _ _ Ht), Hsh. rewrite (proj2 (Z.eqb_neq _ 0) (tk_pgd _ _ Ht)). cbn [negb andb].
  change (ut_pgd t) with r. rewrite E. cbn [mbind option_bind]. eexists w', _, m', (del_space g r). split; [done|]. split; [done|]. split; [done|]. split; [intros r'; apply del_tab_lookup|]. split; [|done].
  intros r' va Hr. unfold load. rewrite del_view, decide_False by done. destruct (view g r' (va / PAGE_SIZE)) as [[f kd]|] eqn:Ev; [|done]. f_equal. apply (Hw _ f kd _ Ev), page_offset.
Qed.

(** A store of a process to a private page is seen by no other page of any process. *)
Theorem private_isolated w m g n r va f v : mem_inv w m g n -> view g r (va / PAGE_SIZE) = Some (f, Private) ->
  let w' := store w (f + va mod PAGE_SIZE) v in
  mem_inv w' m g n /\ load w' g r va = Some v /\
  forall r' va', (r', va' / PAGE_SIZE) <> (r, va / PAGE_SIZE) -> load w' g r' va' = load w g r' va'.
Proof using.
  intros Hi Hv w'. destruct (view_frame w g r _ f Private (mi_spaces _ _ _ _ Hi) Hv) as (_ & [_ Hal] & _ & Ht). pose proof (page_offset f va) as Hin.
  assert (forall a, ~ in_frame f a -> km_word w' a = km_word w a) as Hout. { intros a Ha. unfold w'. rewrite word_store_ne; [done|]. by intros ->. }
  split; [by apply (frame_mem w w' m g n f)|]. split; [unfold load, w'; rewrite Hv; by rewrite word_store_eq|].
  intros r' va' Hne. unfold load. destruct (view g r' (va' / PAGE_SIZE)) as [[f' kd]|] eqn:Ev; [|done]. f_equal. apply Hout. intros Hc. apply Hne.
  destruct (view_frame w g r' _ f' kd (mi_spaces _ _ _ _ Hi) Ev) as (_ & [_ Hal'] & _). rewrite (frames_apart f' f _ Hal' Hal (page_offset f' va') Hc) in Ev.
  symmetry. by apply (fi_private _ _ _ _ (mi_frames _ _ _ _ Hi) (r, va / PAGE_SIZE) (r', va' / PAGE_SIZE) f kd).
Qed.
End see.

Section file.
Context {VO : vm_ops} {VL : vm_laws} (vfs_read_to_phys : kmem -> Z -> Z -> Z -> kmem) (file : Z -> Z) (fsize : Z) `{!reads vfs_read_to_phys file fsize}.


(** ** All processes together *)

Definition alive (t : utask) : bool := ut_used t && ut_user t && negb (ut_dead t).
(** A task whose slot holds the tables: not a thread of another task. *)
Definition owner (t : utask) : bool := ut_used t && ut_user t && negb (ut_shares t).
Definition owned_spaces (ts : list utask) : list Z := ut_pgd <$> filter (fun t => owner t = true) ts.

(** The bounds of a process. *)
Record proc_ok (g : ghost) (t : utask) : Prop := mk_po {
  po_task : task_of g t;
  po_heap : 0 < ut_heap_end t /\ pages_of (ut_heap_end t) * PAGE_SIZE <= vm_top;
  po_next : 0 <= ut_mmap_next t <= STACK_PAGE * PAGE_SIZE;
}.
(** Each address space has one owner, and each owner an address space. *)
Record tasks_ok (g : ghost) (ts : list utask) : Prop := mk_tok {
  to_proc t : t ∈ ts -> alive t = true -> proc_ok g t;
  to_spaces r : is_space g r <-> r ∈ owned_spaces ts;
  to_once : NoDup (owned_spaces ts);
  to_owner t : t ∈ ts -> owner t = true -> task_of g t;
}.
Definition sys_inv (n : Z) (s : kmem * list utask) : Prop := exists m g, mem_inv s.1 m g n /\ tasks_ok g s.2.

Definition dead_task (t : utask) : utask :=
  mk_ut (ut_used t) (ut_user t) true (ut_shares t) (ut_pgd t) (ut_heap_end t) (ut_mmap_next t) (ut_mmap_base t) (ut_interp_end t) (ut_stack_top t) (ut_stack_size t).
(** No reference count is near its end. *)
Definition counts_low (w : kmem) : Prop := forall m f c, sp_rep (km_shared w) m -> m !! f = Some c -> c + vm_top / PAGE_SIZE < 4294967295.

(** One call of some process, a store of its program, its end, or the end of its slot: the tables go with their owner,
    when no thread runs on them any more. *)
Inductive ustep : kmem * list utask -> kmem * list utask -> Prop :=
  | U_brk w ts t addr ret w' ts' : t ∈ ts -> alive t = true -> 0 <= addr -> pages_of addr * PAGE_SIZE <= vm_top ->
      sys_brk w ts t addr = Some (ret, w', ts') -> ustep (w, ts) (w', ts')
  | U_munmap w ts t addr len ret w' ts' : t ∈ ts -> alive t = true -> 0 <= addr -> 0 <= len <= U64_MOD - PAGE_SIZE -> addr + pages_of len * PAGE_SIZE <= vm_top ->
      sys_munmap w ts t addr len = Some (ret, w', ts') -> ustep (w, ts) (w', ts')
  | U_mmap w ts t addr len flags offset bk ret w' ts' : t ∈ ts -> alive t = true -> 0 <= addr < U64_MOD -> 0 <= len -> 0 <= offset -> offset + len + 2 ^ 48 <= U64_MOD ->
      has flags MAP_ANONYMOUS = true \/ bk = B_regular /\ has flags MAP_FIXED && has flags MAP_SHARED = false ->
      sys_mmap vfs_read_to_phys w ts t addr len flags offset bk = Some (ret, w', ts') -> ustep (w, ts) (w', ts')
  | U_fork w ts t res w' : t ∈ ts -> alive t = true -> Forall range_ok (fork_ranges t) -> counts_low w -> fork_space w t = Some (res, w') ->
      ustep (w, ts) (w', match res with Some pgd => child_of t pgd :: ts | None => ts end)
  | U_thread w ts t child_stack : t ∈ ts -> alive t = true -> ustep (w, ts) (w, thread_of t child_stack :: ts)
  | U_store w ts t va pa v : t ∈ ts -> alive t = true -> 0 <= va < vm_top -> vm_paddr w (ut_pgd t) va = Some pa -> pa <> 0 -> ustep (w, ts) (store w pa v, ts)
  | U_exit w l t l' : alive t = true -> ustep (w, l ++ t :: l') (w, l ++ dead_task t :: l')
  | U_reap w l t l' w' t' : ut_used t = true -> (ut_dead t = true -> owner t = true -> forall u, u ∈ l ++ l' -> alive u = true -> ut_pgd u <> ut_pgd t) ->
      task_reap_dead w t = Some (w', t') -> ustep (w, l ++ t :: l') (w', l ++ t' :: l').

Lemma shared_max_bound (P : Z -> Prop) get ts t : P (get t) -> (forall u, u ∈ ts -> peer t u = true -> P (get u)) -> P (shared_max get ts t).
Proof using.
  unfold shared_max. generalize (get t) as x. induction ts as [|u ts IH]; intros x Hx Hts; [done|]. cbn [foldl]. apply IH; [|intros v Hv; apply Hts; by apply list_elem_of_further].
  destruct (peer t u) eqn:Ep; [|done]. cbn [andb]. destruct (x <? get u); [|done]. apply Hts; [apply list_elem_of_here|done].
Qed.

Lemma peer_alive t u : peer t u = true -> alive u = true.
Proof using. unfold peer, alive. intros H%andb_true_iff. by destruct H as [-> _]. Qed.

(** The bounds of all processes of an address space. *)
Lemma shared_bounds g ts t : (forall u, u ∈ ts -> alive u = true -> proc_ok g u) -> proc_ok g t ->
  (0 < shared_heap_end ts t /\ pages_of (shared_heap_end ts t) * PAGE_SIZE <= vm_top) /\ 0 <= shared_mmap_next ts t <= STACK_PAGE * PAGE_SIZE.
Proof using.
  intros Hall Ht. split.
  - apply (shared_max_bound (fun x => 0 < x /\ pages_of x * PAGE_SIZE <= vm_top)); [apply Ht|]. intros u Hu Hp%peer_alive. by apply (Hall u Hu Hp).
  - apply (shared_max_bound (fun x => 0 <= x <= STACK_PAGE * PAGE_SIZE)); [apply Ht|]. intros u Hu Hp%peer_alive. by apply (Hall u Hu Hp).
Qed.

(** The tasks after a call: each keeps its space, and its bounds are good. *)
Record kept (t t' : utask) : Prop := mk_kept {
  kp_alive : alive t' = alive t;
  kp_owner : owner t' = owner t;
  kp_task g : task_of g t -> task_of g t';
  kp_pgd : ut_pgd t' = ut_pgd t;
  kp_heap : ut_heap_end t' = ut_heap_end t \/ (0 < ut_heap_end t' /\ pages_of (ut_heap_end t') * PAGE_SIZE <= vm_top);
  kp_next : ut_mmap_next t' = ut_mmap_next t \/ 0 <= ut_mmap_next t' <= STACK_PAGE * PAGE_SIZE;
}.
Definition tasks_kept (ts ts' : list utask) : Prop := Forall2 kept ts ts'.

Lemma kept_refl t : kept t t.
Proof using. split; auto. Qed.
Lemma tasks_refl ts : tasks_kept ts ts.
Proof using. induction ts; constructor; [apply kept_refl|done]. Qed.
Lemma tasks_fmap ts f : (forall t, kept t (f t)) -> tasks_kept ts (f <$> ts).
Proof using. intros H. apply Forall2_fmap_r. induction ts; constructor; auto. Qed.
Lemma tasks_heap ts t x : 0 < x -> pages_of x * PAGE_SIZE <= vm_top -> tasks_kept ts (sync_shared_heap_end ts t x).
Proof using. intros H1 H2. apply tasks_fmap. intros u. destruct (peer t u); [|apply kept_refl]. split; auto. intros g [A B C D]. by split. Qed.
Lemma tasks_next ts t x : 0 <= x <= STACK_PAGE * PAGE_SIZE -> tasks_kept ts (sync_shared_mmap_next ts t x).
Proof using. intros H. apply tasks_fmap. intros u. destruct (peer t u && _); [|apply kept_refl]. split; auto. intros g [A B C D]. by split. Qed.
Lemma tasks_next_to ts t x : 0 <= x <= STACK_PAGE * PAGE_SIZE -> tasks_kept ts (sync_shared_mmap_next_to ts t x).
Proof using. intros H. apply tasks_fmap. intros u. destruct (peer t u); [|apply kept_refl]. split; auto. intros g [A B C D]. by split. Qed.

Lemma owned_spaces_cons t ts : owned_spaces (t :: ts) = (if owner t then [ut_pgd t] else []) ++ owned_spaces ts.
Proof using. unfold owned_spaces. rewrite filter_cons. destruct (owner t); cbn; [by rewrite decide_True|by rewrite decide_False]. Qed.
Lemma owned_spaces_app l l' : owned_spaces (l ++ l') = owned_spaces l ++ owned_spaces l'.
Proof using. unfold owned_spaces. by rewrite filter_app, fmap_app. Qed.
Lemma owned_spaces_in ts t : t ∈ ts -> owner t = true -> ut_pgd t ∈ owned_spaces ts.
Proof using. intros Ht Ho. apply list_elem_of_fmap_2. by apply list_elem_of_filter. Qed.
Lemma owned_kept ts ts' : tasks_kept ts ts' -> owned_spaces ts' = owned_spaces ts.
Proof using. induction 1 as [|t t' ts ts' [_ Ho _ Hp _ _] _ IH]; [done|]. by rewrite !owned_spaces_cons, Ho, Hp, IH. Qed.

Lemma task_spaces g g' t : (forall r, is_space g' r <-> is_space g r) -> task_of g t -> task_of g' t.
Proof using. intros Hsp [A B C D]. split; try done. by apply Hsp. Qed.
Lemma proc_task g g' t t' : proc_ok g t -> kept t t' -> task_of g' t' -> proc_ok g' t'.
Proof using. intros [A B C] [_ _ _ _ Hh Hn] Ht. split; [done|destruct Hh as [->|?]; done|destruct Hn as [->|?]; done]. Qed.

Lemma tasks_step g g' ts ts' : tasks_ok g ts -> tasks_kept ts ts' -> (forall r, is_space g' r <-> is_space g r) -> tasks_ok g' ts'.
Proof using.
  intros [Hp Hs Ho Hw] Hk Hsp. pose proof (owned_kept ts ts' Hk) as Eo.
  assert (forall t', t' ∈ ts' -> exists t, t ∈ ts /\ kept t t') as Hback.
  { intros t' (i & Hi)%list_elem_of_lookup. destruct (Forall2_lookup_r _ _ _ i t' Hk Hi) as (t & Hti & ?). exists t. split; [by apply (list_elem_of_lookup_2 _ i)|done]. }
  split; rewrite ?Eo; try done.
  - intros t' Ht' Ha. destruct (Hback t' Ht') as (t & Ht & Hkt). specialize (Hp t Ht ltac:(by rewrite <- (kp_alive _ _ Hkt))).
    apply (proc_task g g' t t'); [done|done|]. apply (task_spaces g); [done|]. by apply (kp_task _ _ Hkt), Hp.
  - intros r. by rewrite Hsp.
  - intros t' Ht' Ha. destruct (Hback t' Ht') as (t & Ht & Hkt). apply (task_spaces g); [done|]. apply (kp_task _ _ Hkt). apply Hw; [done|]. by rewrite <- (kp_owner _ _ Hkt).
Qed.

(** ** Safety *)

Context (Htop : STACK_PAGE * PAGE_SIZE <= vm_top) (Hbig : vm_top <= 2 ^ 47).

Lemma brk_step n w ts t addr ret w' ts' : sys_inv n (w, ts) -> t ∈ ts -> alive t = true -> 0 <= addr -> pages_of addr * PAGE_SIZE <= vm_top ->
  sys_brk w ts t addr = Some (ret, w', ts') -> sys_inv n (w', ts').
Proof using VL.
  intros (m & g & Hi & Hok) Ht Ha Haddr Hfit E. cbn [fst snd] in *. pose proof (to_proc _ _ Hok) as Hall. pose proof (Hall t Ht Ha) as Hp. destruct (shared_bounds g ts t Hall Hp) as [[Hb1 Hb2] _].
  destruct (sys_brk_correct w m g n ts t addr Hi (po_task _ _ Hp) ltac:(lia) Haddr Hb2 Hfit) as (ret' & w1 & ts1 & m' & g' & E' & Hi' & Hres). rewrite E in E'. injection E' as <- <- <-.
  exists m', g'. split; [done|]. cbn [snd]. apply (tasks_step g g' ts ts' Hok).
  - destruct Hres as [(_ & _ & _ & _ & ->)|[(? & _ & -> & _)|[(? & _ & -> & _)|(_ & _ & -> & _)]]]; [apply tasks_refl|apply tasks_heap; [lia|done]|apply tasks_heap; [lia|done]|apply tasks_refl].
  - intros r. destruct Hres as [(_ & _ & _ & -> & _)|[(_ & _ & _ & _ & He & _)|[(_ & _ & _ & _ & He & _)|(_ & _ & _ & He & _)]]]; [done|by apply (ef_space _ _ _ _ _ _ _ He)..].
Qed.

Lemma munmap_step n w ts t addr len ret w' ts' : sys_inv n (w, ts) -> t ∈ ts -> alive t = true -> 0 <= addr -> 0 <= len <= U64_MOD - PAGE_SIZE -> addr + pages_of len * PAGE_SIZE <= vm_top ->
  sys_munmap w ts t addr len = Some (ret, w', ts') -> sys_inv n (w', ts').
Proof using VL.
  intros (m & g & Hi & Hok) Ht Ha Haddr Hlen Hfit E. cbn [fst snd] in *. pose proof (to_proc _ _ Hok) as Hall. pose proof (Hall t Ht Ha) as Hp. destruct (shared_bounds g ts t Hall Hp) as [_ Hb].
  pose proof (sys_munmap_correct w m g n ts t addr len Hi (po_task _ _ Hp) Haddr Hlen Hfit) as H. cbv zeta in H. destruct ((len =? 0) || _).
  { rewrite E in H. injection H as -> -> ->. exists m, g. done. }
  destruct H as (w1 & m' & g' & ts1 & E' & Hi' & He & _ & Hts). rewrite E in E'. injection E' as -> <- <-. exists m', g'. split; [done|]. apply (tasks_step g g' ts ts' Hok).
  - destruct Hts as [->|(j & -> & Hj & Hnext & _)]; [apply tasks_refl|apply tasks_next_to; lia].
  - apply (ef_space _ _ _ _ _ _ _ He).
Qed.

Lemma mmap_step n w ts t addr len flags offset bk ret w' ts' : sys_inv n (w, ts) -> t ∈ ts -> alive t = true -> 0 <= addr < U64_MOD -> 0 <= len -> 0 <= offset -> offset + len + 2 ^ 48 <= U64_MOD ->
  has flags MAP_ANONYMOUS = true \/ bk = B_regular /\ has flags MAP_FIXED && has flags MAP_SHARED = false ->
  sys_mmap vfs_read_to_phys w ts t addr len flags offset bk = Some (ret, w', ts') -> sys_inv n (w', ts').
Proof using All.
  intros (m & g & Hi & Hok) Ht Ha Haddr Hlen Hoff Hmax Hkind E. cbn [fst snd] in *. pose proof (to_proc _ _ Hok) as Hall. pose proof (Hall t Ht Ha) as Hp. destruct (shared_bounds g ts t Hall Hp) as [_ Hb].
  pose proof (po_heap _ _ Hp) as [Hh1 Hh2]. pose proof (pages_of_bounds (ut_heap_end t)) as Hpb.
  assert (exists m' g', mem_inv w' m' g' n /\ (forall r, is_space g' r <-> is_space g r) /\ tasks_kept ts ts') as (m' & g' & Hi' & Hsp & Hts).
  2: { exists m', g'. split; [done|]. by apply (tasks_step g g' ts ts' Hok). }
  destruct (has flags MAP_ANONYMOUS) eqn:Hanon.
  - destruct (mmap_anon_correct w m g n ts t addr len flags offset bk Hi (po_task _ _ Hp) Hanon Htop Haddr Hlen ltac:(lia) Hh1 ltac:(lia) vfs_read_to_phys) as (ret' & w1 & ts1 & m' & g' & E' & Hi' & Hres).
    rewrite E in E'. injection E' as <- <- <-. destruct Hres as [(_ & -> & -> & _)|[(_ & -> & -> & _)|(a & Ha1 & Hfit & _ & He & Hres)]]; [exists m, g; split; [done|]; split; [done|apply tasks_refl]..|].
    exists m', g'. split; [done|]. split; [apply (ef_space _ _ _ _ _ _ _ He)|]. destruct Hres as [(_ & -> & _)|(_ & -> & _)]; [|apply tasks_refl]. destruct (has flags MAP_FIXED); [apply tasks_refl|].
    apply tasks_next. pose proof (pages_of_bounds len). lia.
  - destruct Hkind as [?|[-> Hfs]]; [done|].
    destruct (mmap_file_correct vfs_read_to_phys file fsize w m g n ts t addr len flags offset Hi (po_task _ _ Hp) Hanon Htop Haddr Hlen Hoff ltac:(lia) ltac:(lia)) as (ret' & w1 & ts1 & m' & g' & E' & Hi' & Hres).
    { intros Hfix k _ Hsh. rewrite Hfix, Hsh in Hfs. done. }
    rewrite E in E'. injection E' as <- <- <-. cbv zeta in Hres. destruct Hres as [(_ & -> & -> & _)|[(_ & -> & -> & _)|(Ha1 & Hfit & He & Hres)]]; [exists m, g; split; [done|]; split; [done|apply tasks_refl]..|].
    exists m', g'. split; [done|]. split; [apply (ef_space _ _ _ _ _ _ _ He)|]. destruct Hres as [(_ & -> & _)|(_ & -> & _)]; [|apply tasks_refl]. destruct (has flags MAP_FIXED); [apply tasks_refl|].
    apply tasks_next. pose proof (pages_of_bounds len). lia.
Qed.

Lemma low_room w m g n : mem_inv w m g n -> counts_low w -> count_room g.
Proof using.
  intros [_ Hf Hrep] Hlow f Hz. pose proof (fi_ref _ _ _ _ Hf f) as Em. rewrite decide_False in Em by done. by apply (Hlow m f).
Qed.

(** A task with an address space of its own joins. *)
Lemma tasks_new g g' ts t : tasks_ok g ts -> (forall r, is_space g' r <-> r = ut_pgd t \/ is_space g r) -> ~ is_space g (ut_pgd t) -> owner t = true -> proc_ok g' t -> tasks_ok g' (t :: ts).
Proof using.
  intros [A B C D] Hsp Hn Ho Ht. assert (forall u, task_of g u -> task_of g' u) as Hmono by (intros u [U1 U2 U3 U4]; split; try done; apply Hsp; by right).
  assert (owned_spaces (t :: ts) = ut_pgd t :: owned_spaces ts) as Eo by (by rewrite owned_spaces_cons, Ho). split; rewrite ?Eo.
  - intros u [->|Hu]%elem_of_cons Hau; [done|]. destruct (A u Hu Hau) as [U1 U2 U3]. split; [by apply Hmono|done|done].
  - intros r. rewrite Hsp, elem_of_cons, B. done.
  - apply NoDup_cons. split; [|done]. by rewrite <- B.
  - intros u [->|Hu]%elem_of_cons Hau; [apply Ht|]. by apply Hmono, D.
Qed.

Lemma fork_step n w ts t res w' : sys_inv n (w, ts) -> t ∈ ts -> alive t = true -> Forall range_ok (fork_ranges t) -> counts_low w -> fork_space w t = Some (res, w') ->
  sys_inv n (w', match res with Some pgd => child_of t pgd :: ts | None => ts end).
Proof using VL Htop.
  intros (m & g & Hi & Hok) Ht Ha Hl Hlow E. cbn [fst snd] in *. pose proof (to_proc _ _ Hok t Ht Ha) as Hp.
  destruct (fork_space_correct w m g n t Hi (po_task _ _ Hp) Hl (low_room w m g n Hi Hlow) ltac:(lia)) as (res' & w1 & m' & g' & E' & Hi' & Hres). rewrite E in E'. injection E' as <- <-.
  exists m', g'. split; [done|]. cbn [snd]. destruct res as [pgd|]; [|destruct Hres as [[Hsp _] _]; by apply (tasks_step g g' ts ts Hok (tasks_refl ts))].
  destruct Hres as (Hne & Hn & _ & (Hsp & _) & _). apply (tasks_new g); [done|done|done|done|]. split; [split; [done|by apply Hsp; left|done|apply Hp]|apply Hp|apply Hp].
Qed.

Lemma thread_step n w ts t child_stack : sys_inv n (w, ts) -> t ∈ ts -> alive t = true -> sys_inv n (w, thread_of t child_stack :: ts).
Proof using VL.
  intros (m & g & Hi & [A B C D]) Ht Ha. exists m, g. split; [done|]. cbn [snd] in *. pose proof (A t Ht Ha) as Hp.
  assert (owned_spaces (thread_of t child_stack :: ts) = owned_spaces ts) as Eo by (by rewrite owned_spaces_cons). split; rewrite ?Eo; try done.
  - intros u [->|Hu]%elem_of_cons Hau; [|by apply A]. destruct Hp as [[P1 P2 P3 P4] P5 P6]. by split.
  - intros u [->|Hu]%elem_of_cons Hau; [done|by apply D].
Qed.

Lemma store_step n w ts t va pa v : sys_inv n (w, ts) -> t ∈ ts -> alive t = true -> 0 <= va < vm_top -> vm_paddr w (ut_pgd t) va = Some pa -> pa <> 0 -> sys_inv n (store w pa v, ts).
Proof using VL.
  intros (m & g & Hi & Hok) Ht Ha Hva E Hpa. cbn [fst snd] in *. pose proof (to_proc _ _ Hok t Ht Ha) as Hp. pose proof (mi_spaces _ _ _ _ Hi) as Hs.
  rewrite (paddr_law w (ut_pgd t) (tables_of g (ut_pgd t)) (view g (ut_pgd t)) va) in E; [|apply (si_space _ _ Hs), (po_task _ _ Hp)|done].
  destruct (view g (ut_pgd t) (va / PAGE_SIZE)) as [[f kd]|] eqn:Ev; [|by injection E as <-]. injection E as <-. exists m, g. split; [|done].
  destruct (view_frame w g _ _ f kd Hs Ev) as (_ & [_ Hal] & _ & Hnt). apply (frame_mem w _ m g n f); try done. intros a Hna. apply word_store_ne. intros ->. apply Hna, page_offset.
Qed.

(** One task is replaced by one that is not alive. *)
Lemma replace_task g g' l t t' l' : tasks_ok g (l ++ t :: l') -> alive t' = false -> (forall u, u ∈ l ++ l' -> alive u = true -> is_space g' (ut_pgd u)) ->
  (forall r, is_space g' r <-> r ∈ owned_spaces (l ++ t' :: l')) -> NoDup (owned_spaces (l ++ t' :: l')) -> (owner t' = true -> task_of g' t') -> tasks_ok g' (l ++ t' :: l').
Proof using.
  intros [A B C D] Ha Hsp Hown Hnd Ht'.
  assert (forall u, u ∈ l ++ t' :: l' -> u = t' \/ u ∈ l ++ l' /\ u ∈ l ++ t :: l') as Hin by (intros u; rewrite !elem_of_app, !elem_of_cons; tauto).
  split; [|done|done|].
  - intros u [->|[Hu1 Hu2]]%Hin Hau; [congruence|]. destruct (A u Hu2 Hau) as [[P1 P2 P3 P4] P5 P6]. split; [split; try done; by apply Hsp|done|done].
  - intros u Hu Ho. destruct (Hin u Hu) as [->|[Hu1 Hu2]]; [by apply Ht'|]. destruct (D u Hu2 Ho) as [P1 P2 P3 P4]. split; try done. apply Hown. by apply owned_spaces_in.
Qed.

Lemma exit_step n w l t l' : sys_inv n (w, l ++ t :: l') -> alive t = true -> sys_inv n (w, l ++ dead_task t :: l').
Proof using.
  intros (m & g & Hi & Hok) Ha. exists m, g. split; [done|]. cbn [fst snd] in *. pose proof Hok as [A B C D].
  assert (owned_spaces (l ++ dead_task t :: l') = owned_spaces (l ++ t :: l')) as Eo by (by rewrite !owned_spaces_app, !owned_spaces_cons).
  apply (replace_task g g l t); [done|unfold alive, dead_task; cbn; by rewrite andb_false_r| |intros r; by rewrite Eo|by rewrite Eo|].
  - intros u Hu Hau. apply (A u); [|done]. rewrite elem_of_app, elem_of_cons in *. tauto.
  - intros Ho. destruct (D t ltac:(rewrite elem_of_app, elem_of_cons; tauto) Ho) as [P1 P2 P3 P4]. by split.
Qed.

Lemma reap_step n w l t l' w' t' : sys_inv n (w, l ++ t :: l') -> ut_used t = true -> (ut_dead t = true -> owner t = true -> forall u, u ∈ l ++ l' -> alive u = true -> ut_pgd u <> ut_pgd t) ->
  task_reap_dead w t = Some (w', t') -> sys_inv n (w', l ++ t' :: l').
Proof using VL.
  intros (m & g & Hi & Hok) Hused Hlast E. cbn [fst snd] in *. pose proof Hok as [A B C D]. assert (t ∈ l ++ t :: l') as Hin by (rewrite elem_of_app, elem_of_cons; tauto).
  assert (forall u, u ∈ l ++ l' -> u ∈ l ++ t :: l') as Hsub by (intros u; rewrite !elem_of_app, elem_of_cons; tauto).
  destruct (ut_dead t) eqn:Hd; [|unfold task_reap_dead in E; rewrite Hd in E; injection E as <- <-; by exists m, g]. destruct (owner t) eqn:Ho.
  - pose proof (D t Hin Ho) as Ht. assert (ut_shares t = false) as Hsh by (unfold owner in Ho; by destruct (ut_shares t); [rewrite andb_false_r in Ho|]).
    pose proof (destroy_mem w m g n (ut_pgd t) Hi (tk_space _ _ Ht) (tk_pgd _ _ Ht)) as (w1 & m' & E1 & Hi' & _).
    unfold task_reap_dead, slot_take_and_free, vm_destroy_user_process in E. rewrite Hd in E. cbn [negb ut_user ut_shares ut_pgd] in E. rewrite (tk_user _ _ Ht), Hsh, (proj2 (Z.eqb_neq _ 0) (tk_pgd _ _ Ht)), E1 in E.
    cbn [negb andb mbind option_bind] in E. injection E as <- <-. exists m', (del_space g (ut_pgd t)). split; [done|]. cbn [snd]. set (t' := mk_ut false _ _ _ _ _ _ _ _ _ _).
    assert (owned_spaces (l ++ t' :: l') = owned_spaces l ++ owned_spaces l') as Eo by (by rewrite owned_spaces_app, owned_spaces_cons).
    rewrite owned_spaces_app, owned_spaces_cons, Ho in B, C. cbn [app] in B, C. assert (Permutation (owned_spaces l ++ ut_pgd t :: owned_spaces l') (ut_pgd t :: owned_spaces l ++ owned_spaces l')) as Hperm by (symmetry; apply Permutation_middle).
    rewrite Hperm in C. apply NoDup_cons in C as [Hnin Hnd]. assert (forall r, is_space (del_space g (ut_pgd t)) r <-> is_space g r /\ r <> ut_pgd t) as Hsp by (intros r; apply del_tab_lookup).
    apply (replace_task g _ l t); [done|done| | |by rewrite Eo|done].
    + intros u Hu Hau. apply Hsp. split; [apply (A u (Hsub u Hu) Hau)|by apply Hlast].
    + intros r. rewrite Eo, Hsp, B, Hperm, elem_of_cons. split; [intros [[->|?] ?]; done|]. intros Hr. split; [by right|]. by intros ->.
  - assert (ut_user t && negb (ut_shares t) = false) as Hno by (unfold owner in Ho; by rewrite Hused in Ho). unfold task_reap_dead, slot_take_and_free in E. rewrite Hd in E. cbn [negb ut_user ut_shares ut_pgd] in E.
    rewrite Hno in E. cbn [andb] in E. injection E as <- <-. exists m, g. split; [done|]. cbn [snd]. set (t' := mk_ut false _ _ _ _ _ _ _ _ _ _).
    assert (owned_spaces (l ++ t' :: l') = owned_spaces (l ++ t :: l')) as Eo by (by rewrite !owned_spaces_app, !owned_spaces_cons, Ho).
    apply (replace_task g g l t); [done|done| |intros r; by rewrite Eo|by rewrite Eo|done]. intros u Hu Hau. apply (A u (Hsub u Hu) Hau).
Qed.

Lemma ustep_inv n s s' : sys_inv n s -> ustep s s' -> sys_inv n s'.
Proof using All.
  intros Hi Hstep.
  destruct Hstep as [w ts t addr ret w' ts'|w ts t addr len ret w' ts'|w ts t addr len flags offset bk ret w' ts'|w ts t res w'|w ts t stack|w ts t va pa v|w l t l'|w l t l' w' t'].
  - by apply (brk_step n w ts t addr ret).
  - by apply (munmap_step n w ts t addr len ret).
  - by apply (mmap_step n w ts t addr len flags offset bk ret).
  - by apply (fork_step n w ts t).
  - by apply (thread_step n w ts t).
  - by apply (store_step n w ts t va).
  - by apply (exit_step n w l t).
  - by apply (reap_step n w l t).
Qed.
End file.

(** ** A first process over Sv39 *)

Definition demo_ops : vm_ops := sv39_ops false 0 0 0.
Lemma demo_ram : 0 <= 0 < 2 ^ 38 - 2 ^ 30.
Proof. lia. Qed.
Definition demo_laws : @vm_laws demo_ops := sv39_vm_laws false 0 0 0 demo_ram.
#[local] Existing Instance demo_ops.
#[local] Existing Instance demo_laws.

Definition demo_boot : kmem := mk_kmem demo_pmm shared_pages_boot (fun _ => 0).
Definition demo_pages : Z := pm_free_pages demo_pmm + 1.
Definition demo_world : kmem := vm_init_pgd (clear_words demo_boot 1048576 PAGE_SIZE) 1048576.
Definition demo_ghost : ghost := new_space (mk_gh ∅ ∅) 1048576.
Definition demo_task : utask := mk_ut true true false false 1048576 65536 268435456 268435456 0 USER_STACK_TOP USER_STACK_SIZE.

Lemma empty_mem pm : pmm_inv pm -> page_addr pm (pm_total_pages pm) <= PT_PA_LIMIT -> mem_inv (mk_kmem pm shared_pages_boot (fun _ => 0)) ∅ (mk_gh ∅ ∅) (pm_free_pages pm).
Proof.
  intros Hpm Hlim. split.
  - split; [done| | | |]; intros; done.
  - split; try (intros; done). cbn [km_pmm g_tab nprivate g_map]. unfold nprivate, cnt. cbn [g_map]. rewrite map_filter_empty, !map_size_empty. lia.
  - done.
Qed.
Lemma demo_limbo x : x ∈ [1048576; 1052672; 1056768; 1060864] -> limbo demo_boot (mk_gh ∅ ∅) x.
Proof.
  intros Hx. split; [|by apply demo_owned|done|done]. rewrite !elem_of_cons, elem_of_nil in Hx.
  destruct Hx as [->|[->|[->|[->|[]]]]]; split; [lia|done|lia|done|lia|done|lia|done].
Qed.
Lemma demo_pmm_limit : page_addr demo_pmm (pm_total_pages demo_pmm) <= PT_PA_LIMIT.
Proof. vm_compute. discriminate. Qed.
Lemma demo_mem : mem_inv demo_world ∅ demo_ghost demo_pages.
Proof.
  pose proof (empty_mem demo_pmm demo_pmm_inv demo_pmm_limit) as Hi. replace (pm_free_pages demo_pmm) with (demo_pages - 1) in Hi by (unfold demo_pages; lia).
  exact (proj1 (new_space_mem demo_boot ∅ (mk_gh ∅ ∅) demo_pages 1048576 Hi (demo_limbo _ ltac:(apply list_elem_of_here)))).
Qed.
Lemma demo_task_of : task_of demo_ghost demo_task.
Proof. split; [done| |done|done]. unfold is_space, demo_ghost, new_space. cbn [g_tab]. apply lookup_insert_eq. Qed.
Lemma demo_top : STACK_PAGE * PAGE_SIZE <= vm_top.
Proof. change (STACK_PAGE * PAGE_SIZE <= 2 ^ 38). lia. Qed.

Lemma munmap_refines_witness : exists w' m' g' ts', sys_munmap demo_world [demo_task] demo_task 65536 100 = Some (0, w', ts') /\ mem_inv w' m' g' demo_pages.
Proof.
  destruct (munmap_refines demo_world ∅ demo_ghost demo_pages [demo_task] demo_task 65536 100 demo_mem demo_task_of) as (w' & m' & g' & ts' & E & Hi & _); [lia|done|lia| |].
  - change ((65536 / PAGE_SIZE + 1) * PAGE_SIZE <= 2 ^ 38). vm_compute. discriminate.
  - by exists w', m', g', ts'.
Defined.

Lemma brk_refines_witness : exists ret w' ts' m' g', sys_brk demo_world [demo_task] demo_task 70000 = Some (ret, w', ts') /\ mem_inv w' m' g' demo_pages.
Proof.
  destruct (brk_refines demo_world ∅ demo_ghost demo_pages [demo_task] demo_task 70000 demo_mem demo_task_of) as (ret & w' & ts' & m' & g' & E & Hi & _).
  - vm_compute. discriminate.
  - lia.
  - change (16 * PAGE_SIZE <= 2 ^ 38). lia.
  - change (18 * PAGE_SIZE <= 2 ^ 38). lia.
  - exists ret, w', ts', m', g'. split; [exact E|exact Hi].
Defined.

(** A file of ten bytes. *)
Definition demo_read (w : kmem) (off pa n : Z) : kmem :=
  set_words w (fun a => if (pa <=? a) && (a <? pa + n) && (off + (a - pa) <? 10) then 7 else km_word w a).
#[local] Instance demo_reads : reads demo_read (fun _ => 7) 10.
Proof. by split. Defined.

Lemma demo_next : 0 <= shared_mmap_next [demo_task] demo_task <= U64_MOD - PAGE_SIZE.
Proof. vm_compute. split; discriminate. Qed.
Lemma demo_heap : 0 < ut_heap_end demo_task.
Proof. reflexivity. Qed.



Lemma demo_ranges : Forall range_ok (fork_ranges demo_task).
Proof.
  unfold fork_ranges. cbn [ut_mmap_base ut_mmap_next ut_interp_end demo_task Z.ltb Z.compare Pos.compare Pos.compare_cont app]. repeat apply Forall_cons_2; [| |apply Forall_nil_2].
  - split; [cbn; lia|]. change (16 * PAGE_SIZE <= 2 ^ 38). lia.
  - split; [vm_compute; split; discriminate|]. change (458752 * PAGE_SIZE <= 2 ^ 38). lia.
Qed.
Lemma demo_room : count_room demo_ghost.
Proof. intros f Hn. destruct Hn. apply nshared_unmapped. intros y. unfold demo_ghost, new_space. cbn [g_map]. rewrite lookup_empty. discriminate. Qed.
Lemma demo_top_pos : 0 <= vm_top.
Proof. change (0 <= 2 ^ 38). lia. Qed.
Lemma fork_refines_witness : exists res w' m' g', fork_space demo_world demo_task = Some (res, w') /\ mem_inv w' m' g' demo_pages.
Proof.
  destruct (fork_refines demo_world ∅ demo_ghost demo_pages demo_task demo_mem demo_task_of demo_ranges demo_room demo_top_pos) as (res & w' & m' & g' & E & Hi & _).
  exists res, w', m', g'. split; [exact E|exact Hi].
Defined.

Lemma demo_dead : task_of demo_ghost (dead_task demo_task).
Proof. destruct demo_task_of as [A B C D]. split; [exact A|exact B|exact C|exact D]. Qed.
Lemma reap_refines_witness : exists w' t', task_reap_dead demo_world (dead_task demo_task) = Some (w', t') /\ free_at (km_pmm w') 1048576.
Proof.
  destruct (reap_refines demo_world ∅ demo_ghost demo_pages (dead_task demo_task) demo_mem demo_dead eq_refl eq_refl) as (w' & t' & m' & g' & E & _ & _ & _ & _ & Hf & _).
  exists w', t'. split; [exact E|]. apply Hf. unfold tables_of, demo_ghost, new_space. cbn [g_tab ut_pgd dead_task demo_task]. apply lookup_insert_eq.
Defined.

Lemma demo_tasks : tasks_ok demo_ghost [demo_task].
Proof.
  assert (owned_spaces [demo_task] = [1048576]) as Eo by reflexivity. split; rewrite ?Eo.
  - intros t ->%list_elem_of_singleton _. split; [exact demo_task_of| |cbn; lia]. split; [reflexivity|]. change (16 * PAGE_SIZE <= 2 ^ 38). lia.
  - intros r. rewrite list_elem_of_singleton. unfold is_space, demo_ghost, new_space. cbn [g_tab]. rewrite lookup_insert_Some, lookup_empty. split; [intros [[? _]|[_ ?]]; [congruence|discriminate]|]. intros ->. by left.
  - apply NoDup_singleton.
  - intros t ->%list_elem_of_singleton _. exact demo_task_of.
Qed.

Lemma demo_mapped : exists w' g', mem_inv w' ∅ g' (demo_pages + 1) /\ view g' 1048576 (65536 / PAGE_SIZE) = Some (1052672, Private).
Proof.
  assert (limbo demo_world demo_ghost 1052672) as Hl.
  { destruct (demo_limbo 1052672 ltac:(set_solver)) as [Hp Ho _ _]. split; [exact Hp|exact Ho| |].
    - unfold demo_ghost, new_space. cbn [g_tab]. by rewrite lookup_insert_ne by lia.
    - intros y kd. unfold demo_ghost, new_space. cbn [g_map]. rewrite lookup_empty. discriminate. }
  pose proof demo_mem as [Hs Hf Hrep].
  destruct (fresh_map demo_world ∅ demo_ghost demo_pages 1048576 16 1052672 false Hs Hf Hl Hrep (tk_space _ _ demo_task_of)) as (z & w' & N & E & _ & Hz).
  { split; [lia|]. change ((16 + 1) * PAGE_SIZE <= 2 ^ 38). lia. }
  assert (fst <$> vm_map demo_world 1048576 (16 * PAGE_SIZE) 1052672 = Some 0) as E0 by (vm_compute; reflexivity).
  rewrite E in E0. cbn [fmap option_fmap option_map fst] in E0. injection E0 as ->. destruct Hz as [[_ Hfr]|[? _]]; [|discriminate].
  exists w', (put_map (add_tabs demo_ghost 1048576 N) (1048576, 16) (1052672, Private)). split; [by apply fresh_private|]. apply view_put_eq.
Qed.
Lemma private_isolated_witness : exists w g f, view g 1048576 (65536 / PAGE_SIZE) = Some (f, Private) /\ load (store w (f + 65536 mod PAGE_SIZE) 5) g 1048576 65536 = Some 5.
Proof.
  destruct demo_mapped as (w & g & Hi & Hv). exists w, g, 1052672. split; [exact Hv|].
  exact (proj1 (proj2 (private_isolated w ∅ g (demo_pages + 1) 1048576 65536 1052672 5 Hi Hv))).
Defined.

(** ** What the code does beside its comments *)

(** An end near 2^64 is rounded up to 0: nothing is mapped and the call succeeds. *)
Lemma brk_wraps w ts t addr : ut_user t = true -> U64_MOD - PAGE_SIZE < addr < U64_MOD -> 0 <= shared_heap_end ts t < addr -> shared_heap_end ts t <= U64_MOD - PAGE_SIZE ->
  sys_brk w ts t addr = Some (addr, w, sync_shared_heap_end ts t addr).
Proof.
  intros Hu Ha Hb Hb'. unfold sys_brk. rewrite Hu. cbn [negb]. rewrite (proj2 (Z.eqb_neq addr 0)), (proj2 (Z.leb_gt _ _)) by lia.
  assert (ALIGN_UP addr PAGE_SIZE = 0) as ->.
  { unfold ALIGN_UP. rewrite land_lnot_page. replace (u64 (addr + (PAGE_SIZE - 1))) with (addr + (PAGE_SIZE - 1) - U64_MOD) by (apply (Z.mod_unique_pos _ _ 1); lia). by rewrite Z.div_small by lia. }
  rewrite ALIGN_UP_page by lia. assert (page_count ((shared_heap_end ts t + (PAGE_SIZE - 1)) / PAGE_SIZE * PAGE_SIZE) 0 = 0%nat) as ->; [|done].
  unfold page_count. set (x := _ / PAGE_SIZE * PAGE_SIZE). assert (0 <= x) as Hx by (unfold x; pose proof (Z.div_pos (shared_heap_end ts t + (PAGE_SIZE - 1)) PAGE_SIZE); lia).
  pose proof (Z.div_lt_upper_bound (0 - x + (PAGE_SIZE - 1)) PAGE_SIZE 1). lia.
Qed.

Lemma shrink_stop `{!vm_ops} b w pgd lo x : x <= lo -> shrink_next b w pgd lo x = Some x.
Proof. intros Hx. destruct b; [done|]. cbn. by rewrite (proj2 (Z.ltb_ge lo x)) by lia. Qed.

(** munmap of a range that starts below the mmap area and reaches its end moves the end below its start. *)
Lemma munmap_next_below_base w m g n t addr len : mem_inv w m g n -> task_of g t -> alive t = true -> 0 < addr < ut_mmap_base t -> addr mod PAGE_SIZE = 0 -> 0 < len <= U64_MOD - PAGE_SIZE ->
  ut_mmap_base t <= ut_mmap_next t <= addr + pages_of len * PAGE_SIZE -> addr + pages_of len * PAGE_SIZE <= vm_top ->
  exists w', sys_munmap w [t] t addr len = Some (0, w', [set_mmap_next t addr]).
Proof.
  intros Hi Ht Hal Haddr Hm Hlen Hnext Htop. unfold sys_munmap. rewrite (tk_user _ _ Ht), (proj2 (Z.eqb_neq _ 0) (tk_pgd _ _ Ht)), (proj2 (Z.eqb_neq len 0)) by lia. cbn [negb orb].
  assert (Z.land addr (PAGE_SIZE - 1) = 0) as -> by (change (PAGE_SIZE - 1) with (Z.ones 12); by rewrite Z.land_ones by lia). cbn [negb Z.eqb].
  rewrite ALIGN_UP_page by lia. fold (pages_of len). pose proof (pages_of_bounds len) as Hpb. set (c := pages_of len) in *. pose proof (Z_div_mod_eq_full addr PAGE_SIZE) as Ea. set (a := addr / PAGE_SIZE) in *.
  pose proof vm_top_range. destruct (unmap_range_mem w m g n (ut_pgd t) a (a + c) Hi (tk_space _ _ Ht) (tk_pgd _ _ Ht)) as (z & w' & m' & g' & E & _); [split; lia|lia|].
  replace (a * PAGE_SIZE) with addr in E by lia. replace (a + c - a) with c in E by lia. rewrite E. cbn [mbind option_bind].
  replace (u64 (addr + c * PAGE_SIZE)) with (addr + c * PAGE_SIZE) by (unfold u64; rewrite Z.mod_small by lia; lia).
  assert (peer t t = true) as Hp by (unfold peer; unfold alive in Hal; by rewrite Hal, Z.eqb_refl).
  assert (shared_mmap_next [t] t = ut_mmap_next t) as -> by (unfold shared_mmap_next, shared_max; cbn [foldl]; rewrite Hp, Z.ltb_irrefl; done).
  rewrite (proj2 (Z.leb_le _ _)) by lia. rewrite shrink_stop by lia. cbn [mbind option_bind].
  rewrite (proj2 (Z.ltb_lt addr _)) by lia. exists w'. unfold sync_shared_mmap_next_to. cbn [fmap list_fmap]. by rewrite Hp.
Qed.

(** fork in a thread whose stack lies in the mmap area fails: the pages of its stack are copied twice. *)
Lemma fork_in_thread_fails `{!vm_ops} `{!vm_laws} w m g n t k : mem_inv w m g n -> task_of g t -> Forall range_ok (fork_ranges t) -> count_room g -> 0 <= vm_top ->
  0 <= ut_stack_size t <= ut_stack_top t -> ut_stack_top t < U64_MOD -> view g (ut_pgd t) k <> None ->
  ut_mmap_base t <= k * PAGE_SIZE -> (k + 1) * PAGE_SIZE <= ut_mmap_next t -> ut_stack_top t - ut_stack_size t <= k * PAGE_SIZE -> (k + 1) * PAGE_SIZE <= ut_stack_top t ->
  exists w', fork_space w t = Some (None, w').
Proof.
  intros Hi Ht Hl Hroom Htop Hst Hst2 Hv H1 H2 H3 H4. destruct (fork_space_correct w m g n t Hi Ht Hl Hroom Htop) as (res & w' & m' & g' & E & _ & Hres). destruct res as [child|]; [|by exists w'].
  exfalso. destruct Hres as (_ & _ & Hno & _). apply Hno. unfold fork_ranges. rewrite (proj2 (Z.ltb_lt _ _)) by lia. eexists [_; _], _, _, k. split; [done|].
  assert (forall a b, a <= k * PAGE_SIZE -> (k + 1) * PAGE_SIZE <= b -> in_pages (a, b) k) as Hp.
  { intros a b Ha Hb. unfold in_pages, within. cbn [fst snd]. pose proof (pages_of_bounds b). pose proof (Z_div_mod_eq_full a PAGE_SIZE). pose proof (Z.mod_pos_bound a PAGE_SIZE). lia. }
  split; [apply Exists_cons_tl, Exists_cons_hd; by apply Hp|]. split; [|done]. apply Hp; [|done]. unfold u64. rewrite Z.mod_small by lia. lia.
Qed.

(** The tables go with their owner even when a thread still runs on them: the root of the live thread is free. *)
Lemma reap_under_threads w m g n t u : mem_inv w m g n -> task_of g t -> ut_dead t = true -> ut_shares t = false -> alive u = true -> ut_pgd u = ut_pgd t ->
  exists w' t', task_reap_dead w t = Some (w', t') /\ free_at (km_pmm w') (ut_pgd u).
Proof.
  intros Hi Ht Hd Hsh _ Hu. destruct (destroy_mem w m g n (ut_pgd t) Hi (tk_space _ _ Ht) (tk_pgd _ _ Ht)) as (w' & m' & E & _ & _ & Hf & _).
  unfold task_reap_dead, slot_take_and_free, vm_destroy_user_process. rewrite Hd. cbn [negb ut_user ut_shares ut_pgd]. rewrite (tk_user _ _ Ht), Hsh, (proj2 (Z.eqb_neq _ 0) (tk_pgd _ _ Ht)), E. cbn [negb andb mbind option_bind].
  eexists _, _. split; [done|]. rewrite Hu. apply Hf. exact (tk_space _ _ Ht).
Qed.
