(* ===== verification/Elf.v ===== *)
(** * Program images: kernel/loader/elf_image.c, include/elf.h

    The loader reads the headers of an ELF file in kernel memory, maps its segments into an address space and relocates
    it.  A read outside of the file and a write outside of the pages of a segment are
    [None]: the code does not check the offsets and sizes of the file, and the theorems say for which files it
    stays inside.  Memory of processes is kept by bytes. *)

From stdpp Require Import options.
From Stdlib Require Import Lia.
From S2P Require Import Prelude Bitmap Pmm SharedPage PhysMem PageTable Teardown AddrSpace UserMem.

Abbreviation ET_EXEC := 2.
Abbreviation ET_DYN := 3.
Abbreviation PT_LOAD := 1.
Abbreviation PT_DYNAMIC := 2.
Abbreviation PT_INTERP := 3.
Abbreviation PT_PHDR := 6.
Abbreviation DT_SYMTAB := 6.
Abbreviation DT_RELA := 7.
Abbreviation DT_RELASZ := 8.
Abbreviation DT_RELAENT := 9.
Abbreviation DT_SYMENT := 11.
Abbreviation USER_CODE_BASE := 65536.
Abbreviation EHDR_SIZE := 64.
Abbreviation PHDR_SIZE := 56.

(** ** Files *)

Record efile := mk_efile { ef_size : Z; ef_byte : Z -> Z }.

Fixpoint le (n : nat) (b : Z -> Z) (off : Z) : Z :=
  match n with O => 0 | S n => b off + 256 * le n b (off + 1) end.
Definition read (f : efile) (off : Z) (n : nat) : Z := le n (ef_byte f) off.
Definition inside (f : efile) (off n : Z) : bool := (0 <=? off) && (off + n <=? ef_size f).
Definition rd (f : efile) (off : Z) (n : nat) : option Z := if inside f off (Z.of_nat n) then Some (read f off n) else None.

(** The header: [elf64_ehdr_t], the fields in use *)
Record elf64_ehdr_t := mk_ehdr {
  e_type : Z;
  e_machine : Z;
  e_entry : Z;
  e_phoff : Z;
  e_phentsize : Z;
  e_phnum : Z;
}.
Definition ehdr (f : efile) : elf64_ehdr_t :=
  mk_ehdr (read f 16 2) (read f 18 2) (read f 24 8) (read f 32 8) (read f 54 2) (read f 56 2).

(** The checks in their order; [machine] is that of the build. *)
Definition elf_check (machine : Z) (f : efile) : Z :=
  let h := ehdr f in
  if ef_size f <? EHDR_SIZE then -1
  else if negb ((read f 0 1 =? 127) && (read f 1 1 =? 69) && (read f 2 1 =? 76) && (read f 3 1 =? 70)) then -2
  else if negb (read f 4 1 =? 2) then -3
  else if negb (read f 5 1 =? 1) then -4
  else if negb (e_machine h =? machine) then -5
  else if negb (e_type h =? ET_EXEC) && negb (e_type h =? ET_DYN) then -6
  else if (e_phnum h =? 0) || negb (e_phentsize h =? PHDR_SIZE) then -7
  else 0.

(** Field of program header [i]: [elf64_phdr_t] *)
Definition ph_at (h : elf64_ehdr_t) (i off : Z) : Z := u64 (e_phoff h + PHDR_SIZE * i + off).
Definition p_type f h i : option Z := rd f (ph_at h i 0) 4.
Definition p_offset f h i : option Z := rd f (ph_at h i 8) 8.
Definition p_vaddr f h i : option Z := rd f (ph_at h i 16) 8.
Definition p_filesz f h i : option Z := rd f (ph_at h i 32) 8.
Definition p_memsz f h i : option Z := rd f (ph_at h i 40) 8.

Record segment := mk_seg { sg_vaddr : Z; sg_filesz : Z; sg_memsz : Z; sg_offset : Z }.
Definition read_segment (f : efile) (h : elf64_ehdr_t) (i : Z) : option segment :=
  if negb (inside f (ph_at h i 0) PHDR_SIZE) then None
  else
    vaddr ← p_vaddr f h i; filesz ← p_filesz f h i; memsz ← p_memsz f h i; offset ← p_offset f h i;
    Some (mk_seg vaddr filesz memsz offset).

(** The loops that stop at the first header of a type *)
Fixpoint find_type (n : nat) (f : efile) (h : elf64_ehdr_t) (t i : Z) : option (option Z) :=
  match n with
  | O => Some None
  | S n => ty ← p_type f h i; if ty =? t then Some (Some i) else find_type n f h t (i + 1)
  end.

(** The result: [elf_image_info_t] *)
Record elf_image_info_t := mk_info {
  entry_point : Z;
  min_vaddr : Z;
  max_vaddr : Z;
  phdr_uaddr : Z;
  image_base : Z;
  phnum : Z;
  phent : Z;
  interp_path : list Z;
}.

(** ** Writes to the memory of a process *)

Definition copy_file (w : kmem) (f : efile) (dst off n : Z) : kmem :=
  set_words w (fun a => if (dst <=? a) && (a <? dst + n) then ef_byte f (off + (a - dst)) else km_word w a).
(** The bytes of a 64-bit word *)
Definition byte_of (v i : Z) : Z := Z.shiftr v (8 * i) mod 256.
Definition store64 (w : kmem) (pa v : Z) : kmem :=
  set_words w (fun a => if (pa <=? a) && (a <? pa + 8) then byte_of v (a - pa) else km_word w a).

Definition s32 (x : Z) : Z := if u32 x <? 2147483648 then u32 x else u32 x - U32_MOD.

Section load.
Context {VO : vm_ops}.

(** [mm_vm_map_pages] of [n] pages *)
Fixpoint vm_map_pages (n : nat) (w : kmem) (pgd va pa : Z) : option (Z * kmem) :=
  match n with
  | O => Some (0, w)
  | S n =>
      '(r, w) ← vm_map w pgd va pa;
      if negb (r =? 0) then Some (r, w) else vm_map_pages n w pgd (u64 (va + PAGE_SIZE)) (u64 (pa + PAGE_SIZE))
  end.

Definition elf_load_segment (f : efile) (w : kmem) (pgd : Z) (s : segment) : option (Z * kmem) :=
  let vaddr_start := ALIGN_DOWN (sg_vaddr s) PAGE_SIZE in
  let vaddr_end := ALIGN_UP (u64 (sg_vaddr s + sg_memsz s)) PAGE_SIZE in
  let total_pages := u64 (vaddr_end - vaddr_start) / PAGE_SIZE in
  '(base, pm) ← pmm_alloc_pages (km_pmm w) (u32 total_pages);
  let w := set_pmm w pm in
  if base =? 0 then Some (-1, w)
  else
    '(r, w) ← vm_map_pages (Z.to_nat (s32 total_pages)) w pgd vaddr_start base;
    if negb (r =? 0) then
      '(_, pm) ← pmm_free_pages (km_pmm w) base (u32 total_pages); Some (-2, set_pmm w pm)
    else
      let room := u32 total_pages * PAGE_SIZE in
      let seg_bytes := u64 (total_pages * PAGE_SIZE) in
      if room <? seg_bytes then None
      else
        let w := clear_words w base seg_bytes in
        if 0 <? sg_filesz s then
          let at_ := u64 (sg_vaddr s - vaddr_start) in
          if (room <? at_ + sg_filesz s) || negb (inside f (sg_offset s) (sg_filesz s)) then None
          else Some (0, copy_file w f (base + at_) (sg_offset s) (sg_filesz s))
        else Some (0, w).

Definition elf_load_segment_with_base (f : efile) (w : kmem) (pgd : Z) (s : segment) (base : Z) : option (Z * kmem) :=
  elf_load_segment f w pgd (mk_seg (u64 (sg_vaddr s + base)) (sg_filesz s) (sg_memsz s) (sg_offset s)).

(** The path of the interpreter, up to 127 bytes *)
Definition interp_scan (f : efile) (h : elf64_ehdr_t) : option (list Z) :=
  o ← find_type (Z.to_nat (e_phnum h)) f h PT_INTERP 0;
  match o with
  | None => Some []
  | Some i =>
      filesz ← p_filesz f h i; offset ← p_offset f h i;
      let plen := if 128 <=? filesz then 127 else filesz in
      if inside f offset plen then Some ((fun k => ef_byte f (offset + k)) <$> seqZ 0 plen) else None
  end.

(** All segments; the bounds of what was mapped.  [inr]: a segment could not be loaded. *)
Fixpoint load_segments (n : nat) (f : efile) (h : elf64_ehdr_t) (pgd base i : Z) (w : kmem) (lo hi : Z) : option ((kmem * Z * Z) + kmem) :=
  match n with
  | O => Some (inl (w, lo, hi))
  | S n =>
      t ← p_type f h i;
      if t =? PT_LOAD then
        s ← read_segment f h i;
        '(rc, w) ← elf_load_segment_with_base f w pgd s base;
        if rc <? 0 then Some (inr w)
        else
          let start := u64 (sg_vaddr s + base) in
          let stop := u64 (start + sg_memsz s) in
          load_segments n f h pgd base (i + 1) w (if start <? lo then start else lo) (if hi <? stop then stop else hi)
      else load_segments n f h pgd base (i + 1) w lo hi
  end.

(** ** Relocation *)

(** The types of the build: the value, or 0xffffffff *)
Record reloc_types := mk_rt { rt_relative : Z; rt_jump_slot : Z; rt_glob_dat : Z; rt_abs64 : Z }.
Definition riscv_types : reloc_types := mk_rt 3 5 6 2.

Record dynamic := mk_dyn { dy_rela : Z; dy_relasz : Z; dy_relaent : Z; dy_symtab : Z; dy_syment : Z }.
Fixpoint dyn_scan (n : nat) (f : efile) (off : Z) (d : dynamic) : option dynamic :=
  match n with
  | O => Some d
  | S n =>
      tag ← rd f off 8;
      let value := rd f (u64 (off + 8)) 8 in
      d ← (if tag =? DT_RELA then v ← value; Some (mk_dyn v (dy_relasz d) (dy_relaent d) (dy_symtab d) (dy_syment d))
           else if tag =? DT_RELASZ then v ← value; Some (mk_dyn (dy_rela d) v (dy_relaent d) (dy_symtab d) (dy_syment d))
           else if tag =? DT_RELAENT then v ← value; Some (mk_dyn (dy_rela d) (dy_relasz d) v (dy_symtab d) (dy_syment d))
           else if tag =? DT_SYMTAB then v ← value; Some (mk_dyn (dy_rela d) (dy_relasz d) (dy_relaent d) v (dy_syment d))
           else if tag =? DT_SYMENT then v ← value; Some (mk_dyn (dy_rela d) (dy_relasz d) (dy_relaent d) (dy_symtab d) v)
           else Some d);
      dyn_scan n f (u64 (off + 16)) d
  end.

(** The offset in the file of an address of a segment *)
Fixpoint file_offset (n : nat) (f : efile) (h : elf64_ehdr_t) (i addr : Z) : option (option Z) :=
  match n with
  | O => Some None
  | S n =>
      t ← p_type f h i;
      if t =? PT_LOAD then
        vaddr ← p_vaddr f h i;
        if addr <? vaddr then file_offset n f h (i + 1) addr
        else
          filesz ← p_filesz f h i;
          if addr <? u64 (vaddr + filesz) then offset ← p_offset f h i; Some (Some (u64 (addr - vaddr + offset)))
          else file_offset n f h (i + 1) addr
      else file_offset n f h (i + 1) addr
  end.

(** The value of the symbol of an entry *)
Definition sym_value (f : efile) (dynsym : option Z) (syment info : Z) : option Z :=
  let idx := Z.shiftr info 32 in
  match dynsym with
  | Some o => if idx =? 0 then Some 0 else rd f (u64 (o + u64 (idx * syment) + 8)) 8
  | None => Some 0
  end.

(** Entry [r] of the table at [o] of the file *)
Definition reloc_entry (rt : reloc_types) (f : efile) (pgd bias syment : Z) (dynsym : option Z) (at_ : Z) (w : kmem) : option kmem :=
  info ← rd f (u64 (at_ + 8)) 8;
  let ty := u32 info in
  if (ty =? rt_relative rt) || (ty =? rt_jump_slot rt) || (ty =? rt_glob_dat rt) || (ty =? rt_abs64 rt) then
    r_offset ← rd f at_ 8;
    let target := u64 (bias + r_offset) in
    let page := ALIGN_DOWN target PAGE_SIZE in
    paddr ← vm_paddr w pgd page;
    if paddr =? 0 then Some w
    else
      sym ← (if ty =? rt_relative rt then Some 0 else sym_value f dynsym syment info);
      addend ← rd f (u64 (at_ + 16)) 8;
      Some (store64 w (u64 (paddr + (target - page))) (u64 (bias + sym + addend)))
  else Some w.

Fixpoint reloc_loop (n : nat) (rt : reloc_types) (f : efile) (h : elf64_ehdr_t) (pgd bias : Z) (d : dynamic) (syment : Z) (dynsym : option Z) (r : Z) (w : kmem) : option kmem :=
  match n with
  | O => Some w
  | S n =>
      o ← file_offset (Z.to_nat (e_phnum h)) f h 0 (dy_rela d);
      w ← (match o with
           | Some o => if o =? 0 then Some w else reloc_entry rt f pgd bias syment dynsym (u64 (o + r * dy_relaent d)) w
           | None => Some w
           end);
      reloc_loop n rt f h pgd bias d syment dynsym (r + 1) w
  end.

(** The first PT_DYNAMIC: its entries, then the table of relocations *)
Definition relocate_dynamic (rt : reloc_types) (f : efile) (h : elf64_ehdr_t) (pgd base i : Z) (w : kmem) : option kmem :=
  offset ← p_offset f h i; filesz ← p_filesz f h i;
  d ← dyn_scan (Z.to_nat (filesz / 16)) f offset (mk_dyn 0 0 0 0 0);
  dynsym ← (if negb (dy_symtab d =? 0) then file_offset (Z.to_nat (e_phnum h)) f h 0 (dy_symtab d) else Some None);
  let syment := if dy_syment d =? 0 then 24 else dy_syment d in
  if negb (dy_rela d =? 0) && negb (dy_relasz d =? 0) && negb (dy_relaent d =? 0) then
    let bias := if e_type h =? ET_DYN then base else 0 in
    reloc_loop (Z.to_nat (dy_relasz d / dy_relaent d)) rt f h pgd bias d syment dynsym 0 w
  else Some w.
Definition relocate (rt : reloc_types) (f : efile) (h : elf64_ehdr_t) (pgd base : Z) (w : kmem) : option kmem :=
  o ← find_type (Z.to_nat (e_phnum h)) f h PT_DYNAMIC 0;
  match o with None => Some w | Some i => relocate_dynamic rt f h pgd base i w end.

(** ** The image *)

(** The address of the program headers in the process *)
Fixpoint find_first_load (n : nat) (f : efile) (h : elf64_ehdr_t) (i : Z) : option Z :=
  match n with
  | O => Some 0
  | S n =>
      t ← p_type f h i;
      if t =? PT_LOAD then
        o ← p_offset f h i;
        if o =? 0 then v ← p_vaddr f h i; Some (u64 (v + e_phoff h)) else find_first_load n f h (i + 1)
      else find_first_load n f h (i + 1)
  end.
Definition phdr_address (f : efile) (h : elf64_ehdr_t) (base : Z) : option Z :=
  if e_type h =? ET_DYN then Some (u64 (base + e_phoff h))
  else
    o ← find_type (Z.to_nat (e_phnum h)) f h PT_PHDR 0;
    a ← (match o with None => Some 0 | Some i => p_vaddr f h i end);
    a ← (if a =? 0 then find_first_load (Z.to_nat (e_phnum h)) f h 0 else Some a);
    Some (if a =? 0 then u64 (base + e_phoff h) else a).

(** [inl]: the code of the error *)
Definition elf_image_load_impl (machine : Z) (rt : reloc_types) (f : efile) (w : kmem) (pgd force_base : Z) : option ((Z + elf_image_info_t) * kmem) :=
  let rc := elf_check machine f in
  if negb (rc =? 0) then Some (inl rc, w)
  else
    let h := ehdr f in
    let n := Z.to_nat (e_phnum h) in
    let base := if negb (force_base =? 0) then force_base else if e_type h =? ET_DYN then USER_CODE_BASE else 0 in
    let entry := if negb (base =? 0) then u64 (e_entry h + base) else e_entry h in
    path ← (if force_base =? 0 then interp_scan f h else Some []);
    let skip := negb (force_base =? 0) || negb (default 0 (head path) =? 0) in
    r ← load_segments n f h pgd base 0 w (u64 (- 1)) 0;
    match r with
    | inr w => Some (inl (-8), w)
    | inl (w, lo, hi) =>
        w ← (if skip then Some w else relocate rt f h pgd base w);
        a ← phdr_address f h base;
        Some (inr (mk_info entry lo hi a base (e_phnum h) (e_phentsize h) path), w)
    end.
Definition elf_image_load (machine : Z) (rt : reloc_types) (f : efile) (w : kmem) (pgd : Z) : option ((Z + elf_image_info_t) * kmem) :=
  elf_image_load_impl machine rt f w pgd 0.
Definition elf_image_load_at (machine : Z) (rt : reloc_types) (f : efile) (w : kmem) (pgd force_base : Z) : option ((Z + elf_image_info_t) * kmem) :=
  elf_image_load_impl machine rt f w pgd force_base.
End load.
