(* ===== verification/ElfLoad.v ===== *)
(** * What the loader of program images does to the memory of processes *)

From stdpp Require Import options.
From Stdlib Require Import Lia.
From S2P Require Import Prelude Bitmap Pmm SharedPage PhysMem PageTable Teardown Riscv64 AddrSpace UserMem UserSpaces UserExit UserOps UserMap UserFile UserFork UserSys Elf.

(** ** Runs of pages *)

Definition run_page (x i : Z) : Z := x + i * PAGE_SIZE.

(** The allocator hands out a run of pages that were all free. *)
Lemma alloc_run pm c : pmm_inv pm -> 0 < c < U32_MOD ->
  (pmm_alloc_pages pm c = Some (0, pm) /\ no_run (pm_bitmap pm) 0 c) \/
  exists x pm', pmm_alloc_pages pm c = Some (x, pm') /\ x <> 0 /\ pmm_inv pm' /\ same_range pm pm' /\ pm_free_pages pm' = pm_free_pages pm - c /\
    (forall i, 0 <= i < c -> free_at pm (run_page x i) /\ ~ free_at pm' (run_page x i)) /\ (forall y, free_at pm' y -> free_at pm y) /\
    run_page x c <= page_addr pm (pm_total_pages pm).
Proof.
  intros Hinv Hc. destruct (pmm_alloc_pages_spec pm c Hinv Hc) as [?|(i & pm' & E & (Hi0 & Hi1 & Hrun & Hbits & Hfree & Heq) & Hinv')]; [by left|right].
  assert (same_range pm pm') as Hsr by (rewrite Heq; done). exists (page_addr pm i), pm'.
  assert (forall j, 0 <= j < c -> free_at pm (run_page (page_addr pm i) j)) as Hfj.
  { intros j Hj. exists (i + j). split; [lia|]. split; [unfold run_page, page_addr; lia|]. apply Hrun. lia. }
  destruct (free_at_page _ _ Hinv (Hfj 0 ltac:(lia))) as [H0 _]. unfold run_page in H0.
  split_and!; [done|lia|done|done|done| | |unfold run_page, page_addr; lia].
  - intros j Hj. split; [by apply Hfj|]. intros (k & Hk & Ek & Hb). unfold run_page, page_addr in Ek. destruct Hsr as (Hs & _). rewrite Hs in Ek.
    rewrite Hbits in Hb by lia. rewrite (proj2 (in_range_spec i c k)) in Hb by lia. done.
  - intros y (k & Hk & -> & Hb). destruct Hsr as (Hs & Ht & _). rewrite Ht in Hk. exists k. split; [done|]. split; [unfold page_addr; by rewrite Hs|].
    rewrite Hbits in Hb by lia. by apply orb_false_elim in Hb as [_ ?].
Qed.

(** A run of pages in use goes back. *)
Lemma free_run_spec pm x c : pmm_inv pm -> 0 < c < U32_MOD -> (forall i, 0 <= i < c -> owned pm (run_page x i)) ->
  exists pm', pmm_free_pages pm x c = Some (true, pm') /\ pmm_inv pm' /\ same_range pm pm' /\ pm_free_pages pm' = pm_free_pages pm + c /\
    (forall i, 0 <= i < c -> free_at pm' (run_page x i)) /\
    (forall y, free_at pm' y -> free_at pm y \/ exists i, 0 <= i < c /\ y = run_page x i).
Proof.
  intros Hinv Hc Ho. destruct (Ho 0 ltac:(lia)) as (i & Ex & Hi & _). unfold run_page in Ex. rewrite Z.mul_0_l, Z.add_0_r in Ex. subst x.
  assert (forall j, 0 <= j < c -> releasable pm (page_addr pm (i + j)) 1 (i + j)) as Hj.
  { intros j Hj. destruct (Ho j Hj) as (k & Ek & Hk). assert (k = i + j) as -> by (unfold run_page, page_addr in Ek; lia). split; [done|apply Hk]. }
  destruct (pmm_free_pages_accepts pm (page_addr pm i) c i Hinv Hc) as (pm' & E & (Hbits & Hfree & Heq) & Hinv').
  { split; [done|]. split; [done|]. split; [destruct (Hj (c - 1) ltac:(lia)) as (_ & _ & ? & _); lia|].
    intros k Hk. destruct (Hj (k - i) ltac:(lia)) as (_ & _ & _ & H). apply H. lia. }
  assert (same_range pm pm') as Hsr by (rewrite Heq; done). exists pm'. split_and!; [done..| |].
  - intros j Hj0. destruct (Hj j Hj0) as (_ & _ & Ht & _). destruct Hsr as (Hs & Ht' & _). exists (i + j). rewrite Ht'. split; [lia|].
    split; [unfold run_page, page_addr; rewrite Hs; lia|]. rewrite Hbits by lia. by rewrite (proj2 (in_range_spec i c (i + j))) by lia.
  - intros y (k & Hk & -> & Hb). destruct Hsr as (Hs & Ht & _). rewrite Ht in Hk. rewrite Hbits in Hb by lia. destruct (in_range i c k) eqn:Er.
    + apply in_range_spec in Er. right. exists (k - i). split; [lia|]. unfold run_page, page_addr. rewrite Hs. lia.
    + left. exists k. split; [done|]. split; [unfold page_addr; by rewrite Hs|done].
Qed.

Section runs.
Context {VO : vm_ops} {VL : vm_laws}.

(** [c] pages from [x] on, in no one's hands. *)
Record run (w : kmem) (m : refcounts) (g : ghost) (n x c : Z) : Prop := mk_run {
  rn_mem : mem_inv w m g n;
  rn_limbo i : 0 <= i < c -> limbo w g (run_page x i);
}.

Lemma alloc_run_mem w m g n c : mem_inv w m g n -> 0 < c < U32_MOD ->
  (pmm_alloc_pages (km_pmm w) c = Some (0, km_pmm w) /\ no_run (pm_bitmap (km_pmm w)) 0 c) \/
  exists x pm', pmm_alloc_pages (km_pmm w) c = Some (x, pm') /\ x <> 0 /\ run (set_pmm w pm') m g (n - c) x c.
Proof using.
  intros [Hs Hf Hrep] Hc. destruct (si_pmm _ _ Hs) as [Hpm Hlim].
  destruct (alloc_run (km_pmm w) c Hpm Hc) as [?|(x & pm' & E & Hx & Hpm' & Hsr & Hcnt & Hrun & Hfree & Htop)]; [by left|right].
  exists x, pm'. split; [done|]. split; [done|]. split; [split|].
  - apply (spaces_frame w); [done|done|done|done|]. intros y Hy. left. by apply Hfree.
  - apply (frames_pmm (km_pmm w) pm' m g n); [done|done|intros y Hy; left; by apply Hfree|lia].
  - done.
  - intros i Hi. destruct (Hrun i Hi) as [Hfi Hni]. destruct (free_at_page _ _ Hpm Hfi) as [Hr Hal]. split.
    + split; [|done]. unfold run_page in *. lia.
    + by apply (taken_owned (km_pmm w)).
    + destruct (g_tab g !! run_page x i) as [r|] eqn:Et; [|done]. by destruct (si_table w g _ r Hs Et) as [_ []].
    + intros [r k] kd Hy. by destruct (si_mapped w g r k _ kd Hs Hy) as (_ & _ & [] & _).
Qed.

Lemma fresh_other w m g n r k x y : fresh w m g n r k x false -> limbo w g y -> y <> x -> limbo w (put_map g (r, k) (x, Private)) y.
Proof using.
  intros Hfr [Hp Ho Ht Hm] Hne. split; try done. intros z kd. cbn. rewrite lookup_insert_Some. intros [[_ [= E _]]|[_ E]]; [done|by apply (Hm z kd)].
Qed.

(** An address of the run is an address of one of its pages. *)
Lemma run_address x c a : 0 <= a - x -> a < run_page x c -> exists i, 0 <= i < c /\ in_frame (run_page x i) a /\ i = (a - x) / PAGE_SIZE.
Proof using.
  intros H0 Hc. exists ((a - x) / PAGE_SIZE). unfold in_frame, run_page in *. pose proof (Z_div_mod_eq_full (a - x) PAGE_SIZE).
  pose proof (Z.mod_pos_bound (a - x) PAGE_SIZE ltac:(lia)). lia.
Qed.

Lemma map_run_words w w' g r N x c : spaces_inv w g -> map_effect w w' g r N -> (forall i, 0 <= i < c -> limbo w g (run_page x i)) ->
  forall a, x <= a < run_page x c -> km_word w' a = km_word w a.
Proof using.
  intros Hs He Hl a Ha. destruct (run_address x c a ltac:(lia) ltac:(lia)) as (i & Hi & Hin & _). by apply (limbo_map_words w w' g r N (run_page x i)); [| |apply Hl|].
Qed.

(** The pages [k] to [k + c] of [r] map the run at [x]. *)
Definition maps_run (g : ghost) (r k x c : Z) : Prop := forall i, 0 <= i < c -> view g r (k + i) = Some (run_page x i, Private).

Lemma load_run w g r k x c va : maps_run g r k x c -> k * PAGE_SIZE <= va < (k + c) * PAGE_SIZE -> load w g r va = Some (km_word w (x + (va - k * PAGE_SIZE))).
Proof using.
  intros Hm Hva. pose proof (Z_div_mod_eq_full va PAGE_SIZE). pose proof (Z.mod_pos_bound va PAGE_SIZE ltac:(lia)).
  unfold load. replace (va / PAGE_SIZE) with (k + (va / PAGE_SIZE - k)) by lia. rewrite Hm by lia. do 2 f_equal. unfold run_page. lia.
Qed.

(** Mapping a run: all of it, or its first [j] pages. *)
Lemma map_run w m g n r k x c : run w m g n x (Z.of_nat c) -> is_space g r -> (forall i, 0 <= i < Z.of_nat c -> vm_page (k + i)) -> 0 <= k ->
  exists z w' g' j, vm_map_pages c w r (k * PAGE_SIZE) x = Some (z, w') /\ 0 <= j <= Z.of_nat c /\ mem_inv w' m g' (n + j) /\
    effect w g w' g' r (within k (k + j)) nothing /\ maps_run g' r k x j /\ (forall i, 0 <= i < j -> view g r (k + i) = None) /\
    (forall i, j <= i < Z.of_nat c -> limbo w' g' (run_page x i)) /\ (forall a, x <= a < run_page x (Z.of_nat c) -> km_word w' a = km_word w a) /\
    (z = 0 /\ j = Z.of_nat c \/ z = -1 /\ j < Z.of_nat c /\ (view g r (k + j) <> None \/ forall y, ~ free_at (km_pmm w') y)).
Proof using.
  revert w g n k x. induction c as [|c IH]; intros w g n k x [Hi Hl] Hr Hk Hk0; cbn [vm_map_pages].
  { exists 0, w, g, 0. split; [done|]. split; [lia|]. rewrite Z.add_0_r. split; [done|]. split; [apply effect_refl|].
    split; [intros i ?; lia|]. split; [intros; lia|]. split; [intros; lia|]. split; [done|]. by left. }
  pose proof (Hl 0 ltac:(lia)) as Hl0. pose proof (Hk 0 ltac:(lia)) as Hk1. unfold run_page in Hl0. rewrite Z.mul_0_l, Z.add_0_r in Hl0. rewrite Z.add_0_r in Hk1.
  destruct (fresh_map w m g n r k x false (mi_spaces _ _ _ _ Hi) (mi_frames _ _ _ _ Hi) Hl0 (mi_rep _ _ _ _ Hi) Hr Hk1) as (z & w1 & N & -> & He & Hz). cbn [mbind option_bind].
  assert (forall i, 0 <= i < Z.of_nat (S c) -> limbo w1 (add_tabs g r N) (run_page x i)) as Hl1 by (intros i Hi'; apply (limbo_grow w); auto).
  pose proof (grow_effect w w1 g r N nothing nothing (mi_spaces _ _ _ _ Hi) Hr He) as Hg.
  destruct Hz as [[-> Hfr]|(-> & Hs1 & Hf1 & _ & Hr1 & Hwhy)].
  - change (negb (0 =? 0)) with false. cbv iota. set (g1 := put_map (add_tabs g r N) (r, k) (x, Private)).
    assert (effect w g w1 g1 r (eq k) nothing) as He1.
    { apply (effect_compose w g w1 (add_tabs g r N)); [eapply effect_mono; [exact Hg|by intros ? []|done]|]. by apply put_effect. }
    pose proof (fresh_private _ _ _ _ _ _ _ Hfr) as Hi1. pose proof Hk1 as [_ Hk2]. pose proof vm_top_range as Htop.
    replace (u64 (k * PAGE_SIZE + PAGE_SIZE)) with ((k + 1) * PAGE_SIZE) by (rewrite u64_id by lia; lia).
    destruct (li_page _ _ _ Hl0) as [Hx _]. rewrite (u64_id (x + PAGE_SIZE)) by lia.
    assert (forall i, run_page (x + PAGE_SIZE) i = run_page x (i + 1)) as Ex by (intros; unfold run_page; lia).
    pose proof (map_run_words w w1 g r N x (Z.of_nat (S c)) (mi_spaces _ _ _ _ Hi) He Hl) as Hw1.
    destruct (IH w1 g1 (n + 1) (k + 1) (x + PAGE_SIZE)) as (z & w' & g' & j & E & Hj & Him & He' & Hm & Hnone & Hlim & Hww & Hz).
    + split; [exact Hi1|]. intros i Hi'. rewrite Ex. apply (fresh_other w1 m _ n); [exact Hfr|apply Hl1; lia|unfold run_page; lia].
    + by apply (ef_space _ _ _ _ _ _ _ He1).
    + intros i Hi'. replace (k + 1 + i) with (k + (i + 1)) by lia. apply Hk. lia.
    + lia.
    + assert (forall i, 0 <= i -> view g1 r (k + 1 + i) = view g r (k + 1 + i)) as Hv by (intros; apply (ef_view _ _ _ _ _ _ _ He1); right; lia).
      clear IH. exists z, w', g', (j + 1). split; [exact E|]. split; [lia|]. split; [by replace (n + (j + 1)) with (n + 1 + j) by lia|].
      split; [apply (effect_step w g w1 g1 w' g' r _ _ _ _ He1 He'); unfold within; intros; lia|]. split; [|split; [|split; [|split]]].
      * intros i Hi'. destruct (decide (i = 0)) as [->|].
        -- unfold run_page. rewrite Z.mul_0_l, !Z.add_0_r. rewrite (ef_view _ _ _ _ _ _ _ He') by (right; unfold within; lia). apply view_put_eq.
        -- replace (k + i) with (k + 1 + (i - 1)) by lia. rewrite Hm by lia. rewrite Ex. do 3 f_equal. lia.
      * intros i Hi'. destruct (decide (i = 0)) as [->|]; [rewrite Z.add_0_r; apply (fr_none _ _ _ _ _ _ _ _ Hfr)|].
        replace (k + i) with (k + 1 + (i - 1)) by lia. rewrite <- Hv by lia. apply Hnone. lia.
      * intros i Hi'. replace i with (i - 1 + 1) by lia. rewrite <- Ex. apply Hlim. lia.
      * intros a Ha. rewrite <- Hw1 by done. destruct (decide (x + PAGE_SIZE <= a)).
        -- apply Hww. rewrite Ex. replace (Z.of_nat c + 1) with (Z.of_nat (S c)) by lia. lia.
        -- apply (ef_words _ _ _ _ _ _ _ He' (r, k) x Private); [right; unfold within; cbn; lia|apply view_put_eq|by intros []|unfold in_frame; lia].
      * destruct Hz as [[-> ->]|(-> & Hlt & Hwhy)]; [left; split; [done|lia]|right]. split; [done|]. split; [lia|].
        rewrite Hv in Hwhy by lia. by replace (k + (j + 1)) with (k + 1 + j) by lia.
  - exists (-1), w1, (add_tabs g r N), 0. split; [done|]. split; [lia|]. rewrite !Z.add_0_r. split; [by split|].
    split; [eapply effect_mono; [exact Hg|by intros ? []|done]|]. split; [intros i ?; lia|]. split; [intros; lia|]. split; [intros; apply Hl1; lia|]. split; [apply (map_run_words w w1 g r N x); [apply Hi|done|done]|].
    right. split; [done|]. split; [lia|done].
Qed.
End runs.

(** ** Segments *)

Section segments.
Context {VO : vm_ops} {VL : vm_laws}.

Definition seg_first (s : segment) : Z := sg_vaddr s / PAGE_SIZE.
Definition seg_last (s : segment) : Z := pages_of (sg_vaddr s + sg_memsz s).
Definition seg_pages (s : segment) : Z -> Prop := within (seg_first s) (seg_last s).

(** What the loader relies on: the segment has a page, lies below the end of the user addresses, and its bytes are in the file and
    in the segment. *)
Record seg_ok (f : efile) (s : segment) : Prop := mk_so {
  so_vaddr : 0 <= sg_vaddr s;
  so_pages : 0 < seg_last s - seg_first s < 2 ^ 31;
  so_top : seg_last s * PAGE_SIZE <= vm_top;
  so_memsz : 0 <= sg_filesz s <= sg_memsz s;
  so_file : 0 <= sg_offset s /\ sg_offset s + sg_filesz s <= ef_size f;
}.

(** The byte a process finds at [va] of a page of the segment. *)
Definition seg_byte (f : efile) (s : segment) (va : Z) : Z :=
  if (sg_vaddr s <=? va) && (va <? sg_vaddr s + sg_filesz s) then ef_byte f (sg_offset s + (va - sg_vaddr s)) else 0.

(** The frames of the segment, cleared and filled. *)
Definition fill_segment (f : efile) (w : kmem) (s : segment) (x : Z) : kmem :=
  let w := clear_words w x ((seg_last s - seg_first s) * PAGE_SIZE) in
  if 0 <? sg_filesz s then copy_file w f (x + sg_vaddr s mod PAGE_SIZE) (sg_offset s) (sg_filesz s) else w.

Lemma fill_segment_words f w s x a : seg_ok f s ->
  km_word (fill_segment f w s x) a =
    if (x <=? a) && (a <? run_page x (seg_last s - seg_first s)) then seg_byte f s (seg_first s * PAGE_SIZE + (a - x)) else km_word w a.
Proof using.
  intros [Hv Hp Ht Hm Ho]. unfold fill_segment, seg_byte, run_page. unfold seg_first in *. pose proof (Z_div_mod_eq_full (sg_vaddr s) PAGE_SIZE) as Ev.
  pose proof (Z.mod_pos_bound (sg_vaddr s) PAGE_SIZE ltac:(lia)) as Hb. pose proof (pages_of_bounds (sg_vaddr s + sg_memsz s)) as Hl. fold (seg_last s) in Hl.
  assert (sg_offset s + (a - (x + sg_vaddr s mod PAGE_SIZE)) = sg_offset s + (sg_vaddr s / PAGE_SIZE * PAGE_SIZE + (a - x) - sg_vaddr s)) as Eo by lia.
  destruct (Z.ltb_spec 0 (sg_filesz s)) as [Hf|Hf]; cbn [copy_file clear_words set_words km_word].
  - rewrite Eo. destruct (Z.leb_spec (x + sg_vaddr s mod PAGE_SIZE) a), (Z.ltb_spec a (x + sg_vaddr s mod PAGE_SIZE + sg_filesz s)); cbn [andb];
      destruct (Z.leb_spec x a), (Z.ltb_spec a (x + (seg_last s - sg_vaddr s / PAGE_SIZE) * PAGE_SIZE)); cbn [andb]; try lia; try done;
      destruct (Z.leb_spec (sg_vaddr s) (sg_vaddr s / PAGE_SIZE * PAGE_SIZE + (a - x))), (Z.ltb_spec (sg_vaddr s / PAGE_SIZE * PAGE_SIZE + (a - x)) (sg_vaddr s + sg_filesz s)); cbn [andb]; try lia; done.
  - destruct (Z.leb_spec x a), (Z.ltb_spec a (x + (seg_last s - sg_vaddr s / PAGE_SIZE) * PAGE_SIZE)); cbn [andb]; try done;
      destruct (Z.leb_spec (sg_vaddr s) (sg_vaddr s / PAGE_SIZE * PAGE_SIZE + (a - x))), (Z.ltb_spec (sg_vaddr s / PAGE_SIZE * PAGE_SIZE + (a - x)) (sg_vaddr s + sg_filesz s)); cbn [andb]; try lia; done.
Qed.

(** The function without its wraps *)
Lemma elf_load_segment_unfold f w r s : seg_ok f s -> let c := seg_last s - seg_first s in
  elf_load_segment f w r s =
    ('(x, pm) ← pmm_alloc_pages (km_pmm w) c;
     if x =? 0 then Some (-1, set_pmm w pm)
     else
       '(z, w) ← vm_map_pages (Z.to_nat c) (set_pmm w pm) r (seg_first s * PAGE_SIZE) x;
       if negb (z =? 0) then '(_, pm) ← pmm_free_pages (km_pmm w) x c; Some (-2, set_pmm w pm)
       else Some (0, fill_segment f w s x)).
Proof using VL.
  intros Hok c. pose proof Hok as [Hv Hp Ht Hm [Ho1 Ho2]]. pose proof vm_top_range as Htop.
  pose proof (Z_div_mod_eq_full (sg_vaddr s) PAGE_SIZE) as Ev. pose proof (Z.mod_pos_bound (sg_vaddr s) PAGE_SIZE ltac:(lia)) as Hb.
  pose proof (pages_of_bounds (sg_vaddr s + sg_memsz s)) as Hl. fold (seg_last s) in Hl.
  assert (ALIGN_DOWN (sg_vaddr s) PAGE_SIZE = seg_first s * PAGE_SIZE) as Ed by (rewrite ALIGN_DOWN_page by lia; unfold seg_first; lia).
  assert (ALIGN_UP (u64 (sg_vaddr s + sg_memsz s)) PAGE_SIZE = seg_last s * PAGE_SIZE) as Eu by (rewrite u64_id by lia; rewrite ALIGN_UP_page by lia; unfold seg_last, pages_of; lia).
  unfold elf_load_segment. rewrite Ed, Eu. replace (seg_last s * PAGE_SIZE - seg_first s * PAGE_SIZE) with (c * PAGE_SIZE) by (unfold c; lia).
  assert (0 <= seg_first s) by (unfold seg_first; apply Z.div_pos; lia). rewrite (u64_id (c * PAGE_SIZE)) by lia. rewrite Z.div_mul by lia.
  assert (u32 c = c) as Ec by (unfold u32; apply Z.mod_small; lia). assert (s32 c = c) as Es by (unfold s32; rewrite Ec, (proj2 (Z.ltb_lt c _)) by lia; done).
  rewrite Ec, Es, (u64_id (c * PAGE_SIZE)) by lia. rewrite Z.ltb_irrefl. rewrite (u64_id (sg_vaddr s - _)) by (unfold seg_first in *; lia).
  destruct (pmm_alloc_pages _ _) as [[x pm]|]; [|done]. cbn [mbind option_bind]. destruct (x =? 0); [done|].
  destruct (vm_map_pages _ _ _ _ _) as [[z w1]|]; [|done]. cbn [mbind option_bind]. destruct (negb (z =? 0)); [done|]. unfold fill_segment. fold c.
  destruct (Z.ltb_spec 0 (sg_filesz s)); [|done]. replace (sg_vaddr s - seg_first s * PAGE_SIZE) with (sg_vaddr s mod PAGE_SIZE) by (unfold seg_first; lia).
  rewrite (proj2 (Z.ltb_ge _ _)) by (unfold c, seg_first in *; lia). unfold inside. rewrite (proj2 (Z.leb_le 0 _)), (proj2 (Z.leb_le _ (ef_size f))) by lia. done.
Qed.

(** Writing the frames of pages that are mapped once *)
Lemma write_run w w' m g n r k x c : mem_inv w m g n -> maps_run g r k x c -> km_pmm w' = km_pmm w -> km_shared w' = km_shared w ->
  (forall a, ~ (x <= a < run_page x c) -> km_word w' a = km_word w a) -> mem_inv w' m g n /\ effect w g w' g r (within k (k + c)) nothing.
Proof using.
  intros Hi Hm E1 E2 Hw. pose proof Hi as [Hs Hf _].
  assert (forall y a, y mod PAGE_SIZE = 0 -> in_frame y a -> x <= a < run_page x c -> exists i, 0 <= i < c /\ y = run_page x i) as Hin.
  { intros y a Hal Ha Hr. destruct (run_address x c a ltac:(lia) ltac:(lia)) as (i & Hic & Hia & _). exists i. split; [done|].
    destruct (si_mapped w g r (k + i) _ _ Hs (Hm i Hic)) as (_ & [_ Hal'] & _). by apply (frames_apart y _ a). }
  split.
  - apply (words_mem w); try done. intros t r' a Ht Ha. apply Hw. intros Hr. destruct (Hin t a) as (i & Hic & ->); [apply (si_table w g t r' Hs Ht)|done|done|].
    destruct (si_mapped w g r (k + i) _ _ Hs (Hm i Hic)) as (_ & _ & _ & Hn). congruence.
  - split; [done|done|]. intros [r' k'] h kd a Hout Hx _ Ha. apply Hw. intros Hr. destruct (si_mapped w g r' k' h kd Hs Hx) as (_ & [_ Hal] & _).
    destruct (Hin h a Hal Ha Hr) as (i & Hic & ->). pose proof (fi_private _ _ _ _ Hf _ _ _ _ (Hm i Hic) Hx) as [= <- <-]. destruct Hout as [?|Ho]; [done|]. apply Ho. unfold within. cbn. lia.
Qed.

(** Writing pages in no one's hands *)
Lemma run_write w w' m g n x c : run w m g n x c -> km_pmm w' = km_pmm w -> km_shared w' = km_shared w -> (forall a, ~ (x <= a < run_page x c) -> km_word w' a = km_word w a) ->
  run w' m g n x c /\ forall r K, effect w g w' g r K nothing.
Proof using.
  intros [Hi Hl] E1 E2 Hw. pose proof Hi as [Hs _ _].
  assert (forall y a, y mod PAGE_SIZE = 0 -> in_frame y a -> x <= a < run_page x c -> limbo w g y) as Hin.
  { intros y a Hal Ha Hr. destruct (run_address x c a ltac:(lia) ltac:(lia)) as (i & Hic & Hia & _). pose proof (Hl i Hic) as Hli. by rewrite (frames_apart y _ a Hal (proj2 (li_page _ _ _ Hli)) Ha Hia). }
  split.
  - split; [|intros i Hic; by apply (limbo_words w); [apply Hl|]]. apply (words_mem w); try done. intros t r a Ht Ha. apply Hw. intros Hr.
    pose proof (li_table _ _ _ (Hin t a (proj1 (si_table w g t r Hs Ht)) Ha Hr)). congruence.
  - intros r K. split; [done|done|]. intros [r' k'] h kd a _ Hx _ Ha. apply Hw. intros Hr. destruct (si_mapped w g r' k' h kd Hs Hx) as (_ & [_ Hal] & _).
    by apply (li_map _ _ _ (Hin h a Hal Ha Hr) (r', k') kd).
Qed.

(** After a failure the run is free again, but its first [j] pages are still mapped. *)
Definition half_mapped (w : kmem) (g : ghost) (r k x j c : Z) : Prop :=
  maps_run g r k x j /\ forall i, 0 <= i < c -> free_at (km_pmm w) (run_page x i).

Lemma run_owned pm m g n x j c r k w : mem_inv w m g n -> km_pmm w = pm -> maps_run g r k x j -> (forall i, j <= i < c -> limbo w g (run_page x i)) -> forall i, 0 <= i < c -> owned pm (run_page x i).
Proof using.
  intros Hi <- Hm Hl i Hic. destruct (decide (i < j)) as [Hlt|]; [|apply (Hl i); lia]. by apply (fi_owned _ _ _ _ (mi_frames _ _ _ _ Hi) (r, k + i) _ Private); [apply Hm; lia|].
Qed.

(** No memory for [c] pages: no such run is free, or nothing but the run that was given back. *)
Definition no_memory (w : kmem) (c : Z) : Prop :=
  no_run (pm_bitmap (km_pmm w)) 0 c \/ exists x, forall y, free_at (km_pmm w) y -> exists i, 0 <= i < c /\ y = run_page x i.

(** A run is mapped, or it goes back to the allocator. *)
Lemma map_or_free w m g n r k x c : run w m g (n - c) x c -> is_space g r -> 0 < c < 2 ^ 31 -> 0 <= k -> (k + c) * PAGE_SIZE <= vm_top ->
  exists z w' g', vm_map_pages (Z.to_nat c) w r (k * PAGE_SIZE) x = Some (z, w') /\ effect w g w' g' r (within k (k + c)) nothing /\
    (z = 0 /\ mem_inv w' m g' n /\ maps_run g' r k x c /\ (forall j, within k (k + c) j -> view g r j = None) /\ (forall a, x <= a < run_page x c -> km_word w' a = km_word w a) \/
     z = -1 /\ exists pm j, pmm_free_pages (km_pmm w') x c = Some (true, pm) /\ 0 <= j < c /\ half_mapped (set_pmm w' pm) g' r k x j c /\
       (view g r (k + j) <> None \/ no_memory (set_pmm w' pm) c)).
Proof using.
  intros Hrun Hr Hc Hk Htop. assert (Z.of_nat (Z.to_nat c) = c) as Ec by lia.
  destruct (map_run w m g (n - c) r k x (Z.to_nat c)) as (z & w1 & g1 & j & E & Hj & Hi1 & He1 & Hm & Hnone & Hl & Hw & Hz); rewrite ?Ec; [done|done|intros i Hic; split; lia|done|].
  rewrite Ec in *. exists z, w1, g1. split; [done|]. split; [eapply effect_mono; [exact He1|unfold within; intros; lia|done]|]. destruct Hz as [[-> ->]|(-> & Hlt & Hwhy)]; [left|right].
  - split; [done|]. split; [by replace n with (n - c + c) by lia|]. split; [done|]. split; [|done]. intros i [Hi3 Hi4]. replace i with (k + (i - k)) by lia. apply Hnone. lia.
  - split; [done|]. pose proof (proj1 (si_pmm _ _ (mi_spaces _ _ _ _ Hi1))) as Hpm1.
    destruct (free_run_spec (km_pmm w1) x c Hpm1 ltac:(lia) (run_owned _ m g1 _ x j c r k w1 Hi1 eq_refl Hm Hl)) as (pm2 & E2 & _ & _ & _ & Hfr & Honly).
    exists pm2, j. split; [done|]. split; [lia|]. split; [by split|]. destruct Hwhy as [?|Hno]; [by left|right; right]. exists x. intros y Hy. destruct (Honly y Hy) as [Hc'|?]; [by destruct (Hno y)|done].
Qed.

(** The segment in the address space [r]. *)
Record seg_loaded (f : efile) (w : kmem) (g : ghost) (w' : kmem) (g' : ghost) (r : Z) (s : segment) : Prop := mk_sl {
  sl_free k : seg_pages s k -> view g r k = None;
  sl_run : exists x, maps_run g' r (seg_first s) x (seg_last s - seg_first s);
  sl_bytes va : seg_pages s (va / PAGE_SIZE) -> load w' g' r va = Some (seg_byte f s va);
}.

Lemma load_segment_mem f w m g n r s : mem_inv w m g n -> is_space g r -> seg_ok f s ->
  let k := seg_first s in let c := seg_last s - k in
  exists rc w' g', elf_load_segment f w r s = Some (rc, w') /\ effect w g w' g' r (seg_pages s) nothing /\
    (rc = 0 /\ mem_inv w' m g' n /\ seg_loaded f w g w' g' r s \/
     rc = -1 /\ w' = w /\ g' = g /\ no_memory w' c \/
     rc = -2 /\ exists x j, 0 <= j < c /\ half_mapped w' g' r k x j c /\ (view g r (k + j) <> None \/ no_memory w' c)).
Proof using.
  intros Hi Hr Hok k c. rewrite (elf_load_segment_unfold f w r s Hok). fold k c. pose proof Hok as [Hv Hp Ht _ _]. fold k c in Hp.
  assert (0 <= k) by (unfold k, seg_first; apply Z.div_pos; lia). destruct (alloc_run_mem w m g n c Hi ltac:(lia)) as [[-> Hnr]|(x & pm & -> & Hx & Hrun)]; cbn [mbind option_bind].
  { exists (-1), w, g. split; [by destruct w|]. split; [apply effect_refl|]. right; left. split; [done|]. split; [done|]. split; [done|]. by left. }
  rewrite (proj2 (Z.eqb_neq x 0)) by done. replace (seg_last s) with (k + c) in Ht by (unfold c; lia).
  destruct (map_or_free (set_pmm w pm) m g n r k x c Hrun Hr Hp ltac:(done) Ht) as (z & w1 & g1 & -> & He1 & Hz). cbn [mbind option_bind].
  pose proof (effect_compose w g _ g w1 g1 r _ _ (word_effect w (set_pmm w pm) g r _ eq_refl) He1) as He. replace (k + c) with (seg_last s) in He, Hz by (unfold c; lia).
  destruct Hz as [(-> & Hi1 & Hm & Hnone & _)|(-> & pm2 & j & -> & Hj & Hhalf & Hwhy)].
  - change (negb (0 =? 0)) with false. cbv iota. set (w2 := fill_segment f w1 s x).
    pose proof (fill_segment_words f w1 s x) as Hfw. fold k c in Hfw. assert (km_pmm w2 = km_pmm w1 /\ km_shared w2 = km_shared w1) as [Ep Es] by (unfold w2, fill_segment; by destruct (0 <? sg_filesz s)).
    destruct (write_run w1 w2 m g1 _ r k x c Hi1 Hm Ep Es) as [Hi2 He2].
    { intros a Ha. unfold w2. rewrite (Hfw a Hok). destruct (Z.leb_spec x a), (Z.ltb_spec a (run_page x c)); try done. lia. }
    replace (k + c) with (seg_last s) in He2 by (unfold c; lia). exists 0, w2, g1. split; [done|]. split; [exact (effect_compose _ _ _ _ _ _ _ _ _ He He2)|]. left. split; [done|]. split; [done|]. split.
    + done.
    + by exists x.
    + intros va [Hva1 Hva2]. fold k in Hva1. pose proof (Z_div_mod_eq_full va PAGE_SIZE). pose proof (Z.mod_pos_bound va PAGE_SIZE ltac:(lia)).
      rewrite (load_run w2 g1 r k x c) by (done || (unfold c; lia)). f_equal. unfold w2. rewrite (Hfw _ Hok). unfold run_page.
      rewrite (proj2 (Z.leb_le _ _)), (proj2 (Z.ltb_lt _ _)) by (unfold c in *; lia). cbn [andb]. f_equal. lia.
  - change (negb (-1 =? 0)) with true. cbv iota. cbn [mbind option_bind]. exists (-2), (set_pmm w1 pm2), g1. split; [done|].
    split; [exact (effect_compose _ _ _ _ _ _ _ _ _ He (word_effect w1 (set_pmm w1 pm2) g1 r _ eq_refl))|]. right; right. split; [done|]. by exists x, j.
Qed.
End segments.

(** ** All segments *)

(** The PT_LOAD headers of the file, moved to [base]. *)
Fixpoint image_segments (n : nat) (f : efile) (h : elf64_ehdr_t) (base i : Z) : option (list segment) :=
  match n with
  | O => Some []
  | S n =>
      t ← p_type f h i;
      if t =? PT_LOAD then
        s ← read_segment f h i; l ← image_segments n f h base (i + 1);
        Some (mk_seg (u64 (sg_vaddr s + base)) (sg_filesz s) (sg_memsz s) (sg_offset s) :: l)
      else image_segments n f h base (i + 1)
  end.

#[global] Instance seg_pages_dec s k : Decision (seg_pages s k).
Proof. unfold seg_pages, within. apply _. Defined.

(** What the process loads once the segments are in place of [L] *)
Fixpoint placed (f : efile) (segs : list segment) (L : Z -> option Z) (va : Z) : option Z :=
  match segs with
  | [] => L va
  | s :: segs => if decide (seg_pages s (va / PAGE_SIZE)) then Some (seg_byte f s va) else placed f segs L va
  end.
Definition image_pages (segs : list segment) (k : Z) : Prop := exists s, s ∈ segs /\ seg_pages s k.

Lemma placed_out f segs L va : ~ image_pages segs (va / PAGE_SIZE) -> placed f segs L va = L va.
Proof.
  induction segs as [|s segs IH]; intros Hn; cbn; [done|]. rewrite decide_False.
  - apply IH. intros (s' & Hs & Hp). apply Hn. exists s'. split; [by apply list_elem_of_further|done].
  - intros Hp. apply Hn. exists s. split; [apply list_elem_of_here|done].
Qed.
Lemma placed_ext f segs L L' va : (~ image_pages segs (va / PAGE_SIZE) -> L va = L' va) -> placed f segs L va = placed f segs L' va.
Proof.
  induction segs as [|s segs IH]; intros HL; cbn; [apply HL; by intros (s & Hs%elem_of_nil & _)|]. case_decide as Hd; [done|]. apply IH. intros Hn. apply HL.
  intros (s' & [->|Hs]%elem_of_cons & Hp); [done|]. apply Hn. by exists s'.
Qed.

Section image.
Context {VO : vm_ops} {VL : vm_laws}.

Definition all_private (g : ghost) (r : Z) : Prop := forall k x kd, view g r k = Some (x, kd) -> kd = Private.

Record image_loaded (f : efile) (w : kmem) (g : ghost) (w' : kmem) (g' : ghost) (r : Z) (segs : list segment) : Prop := mk_il {
  il_free k : image_pages segs k -> view g r k = None;
  il_private : all_private g r -> all_private g' r;
  il_bytes va : load w' g' r va = placed f segs (load w g r) va;
}.

Lemma image_loaded_nil f w g r : image_loaded f w g w g r [].
Proof using. split; [by intros k (s & Hs%elem_of_nil & _)|done|done]. Qed.

Lemma seg_private f w g w' g' r s K : seg_loaded f w g w' g' r s -> effect w g w' g' r K nothing -> (forall k, K k -> seg_pages s k) -> all_private g r -> all_private g' r.
Proof using.
  intros [_ [y Hm] _] He HK Hp k x kd Hv. destruct (decide (seg_pages s k)) as [[H1 H2]|Hn].
  - replace k with (seg_first s + (k - seg_first s)) in Hv by lia. rewrite Hm in Hv by lia. by injection Hv as _ <-.
  - apply (Hp k x). rewrite <- Hv. symmetry. apply (ef_view _ _ _ _ _ _ _ He). right. auto.
Qed.

Lemma image_loaded_cons f w g w1 g1 w' g' r s segs : seg_loaded f w g w1 g1 r s -> effect w g w1 g1 r (seg_pages s) nothing ->
  image_loaded f w1 g1 w' g' r segs -> image_loaded f w g w' g' r (s :: segs).
Proof using.
  intros Hs He [Hfree Hpriv Hb].
  assert (forall k, seg_pages s k -> ~ image_pages segs k) as Hdis.
  { intros k Hk Hc%Hfree. destruct (sl_run _ _ _ _ _ _ _ Hs) as [x Hm]. destruct Hk as [Hk1 Hk2].
    replace k with (seg_first s + (k - seg_first s)) in Hc by lia. rewrite Hm in Hc by lia. done. }
  split.
  - intros k (s' & [->|Hs']%elem_of_cons & Hp); [by apply (sl_free _ _ _ _ _ _ _ Hs)|]. rewrite <- (ef_view _ _ _ _ _ _ _ He); [apply Hfree; by exists s'|].
    right. intros Hc. apply (Hdis k Hc). by exists s'.
  - intros Hp. apply Hpriv. by apply (seg_private f w g w1 g1 r s (seg_pages s)).
  - intros va. rewrite Hb. cbn [placed]. case_decide as Hd.
    + rewrite placed_out by (by apply Hdis). by apply (sl_bytes _ _ _ _ _ _ _ Hs).
    + apply placed_ext. intros _. apply (load_effect w g w1 g1 r (seg_pages s) nothing); [done|by right|by intros ? ? _ []].
Qed.

(** Why the segments could not be loaded. *)
Definition not_loaded (w : kmem) (g : ghost) (r : Z) (segs : list segment) : Prop :=
  (exists s, s ∈ segs /\ no_memory w (seg_last s - seg_first s)) \/
  exists l s l' k, segs = l ++ s :: l' /\ seg_pages s k /\ (view g r k <> None \/ image_pages l k).

Lemma not_loaded_cons w g w1 g1 w' r s segs : effect w g w1 g1 r (seg_pages s) nothing -> not_loaded w' g1 r segs -> not_loaded w' g r (s :: segs).
Proof using.
  intros He [(s' & Hs & Hn)|(l & s' & l' & k & -> & Hk & Hwhy)]; [left; exists s'; split; [by apply list_elem_of_further|done]|right].
  exists (s :: l), s', l', k. split; [done|]. split; [done|]. destruct (decide (seg_pages s k)) as [Hd|Hd].
  { right. exists s. split; [apply list_elem_of_here|done]. }
  rewrite <- (ef_view _ _ _ _ _ _ _ He) by (by right). destruct Hwhy as [?|(s2 & Hs2 & ?)]; [by left|right]. exists s2. split; [by apply list_elem_of_further|done].
Qed.

Lemma load_segments_mem f h r base m total cnt : forall i w g lo hi segs, mem_inv w m g total -> is_space g r ->
  image_segments cnt f h base i = Some segs -> Forall (seg_ok f) segs ->
  exists res g', load_segments cnt f h r base i w lo hi = Some res /\
    match res with
    | inl (w', lo', hi') => mem_inv w' m g' total /\ effect w g w' g' r (image_pages segs) nothing /\ image_loaded f w g w' g' r segs /\
        lo' = fold_left Z.min (sg_vaddr <$> segs) lo /\ hi' = fold_left Z.max ((fun s => sg_vaddr s + sg_memsz s) <$> segs) hi
    | inr w' => effect w g w' g' r (image_pages segs) nothing /\ not_loaded w' g r segs
    end.
Proof using.
  induction cnt as [|cnt IH]; intros i w g lo hi segs Hi Hr Es Hok; cbn [image_segments load_segments] in *.
  { injection Es as <-. exists (inl (w, lo, hi)), g. split; [done|]. split; [done|]. split; [apply effect_refl|]. split; [apply image_loaded_nil|done]. }
  destruct (p_type f h i) as [t|]; [|done]. cbn [mbind option_bind] in *. destruct (t =? PT_LOAD); [|by apply IH].
  destruct (read_segment f h i) as [s0|]; [|done]. cbn [mbind option_bind] in *. destruct (image_segments cnt f h base (i + 1)) as [l|] eqn:El; [|done].
  cbn [mbind option_bind] in Es. injection Es as <-. apply Forall_cons in Hok as [Hs Hl]. unfold elf_load_segment_with_base. set (s := mk_seg _ _ _ _) in *.
  destruct (load_segment_mem f w m g total r s Hi Hr Hs) as (rc & w1 & g1 & -> & He & Hrc). cbn [mbind option_bind].
  assert (effect w g w1 g1 r (image_pages (s :: l)) nothing) as He1.
  { eapply effect_mono; [exact He| |done]. intros k Hk. exists s. split; [apply list_elem_of_here|done]. }
  destruct Hrc as [(-> & Hi1 & Hsl)|Hrc].
  - change (0 <? 0) with false. cbv iota. destruct (IH (i + 1) w1 g1 (if sg_vaddr s <? lo then sg_vaddr s else lo) (if hi <? sg_vaddr s + sg_memsz s then sg_vaddr s + sg_memsz s else hi) l Hi1) as (res & g' & E & Hres);
      [by apply (ef_space _ _ _ _ _ _ _ He)|done|done|]. exists res, g'. split.
    { rewrite <- E. change (u64 (sg_vaddr s0 + base)) with (sg_vaddr s). change (sg_memsz s0) with (sg_memsz s). pose proof (pages_of_bounds (sg_vaddr s + sg_memsz s)).
      pose proof vm_top_range. destruct Hs as [? ? ? ? ?]. unfold seg_last in *. rewrite (u64_id (sg_vaddr s + sg_memsz s)) by lia. done. }
    assert (forall w' g', effect w1 g1 w' g' r (image_pages l) nothing -> effect w g w' g' r (image_pages (s :: l)) nothing) as Hcomp.
    { intros w' g'' H2. apply (effect_step w g w1 g1 w' g'' r _ _ _ _ He1 H2); [done|]. intros k (s' & Hs' & ?). exists s'. split; [by apply list_elem_of_further|done]. }
    destruct res as [[[w' lo'] hi']|w']; [|destruct Hres as [He2 Hn]; split; [by apply Hcomp|by apply (not_loaded_cons w g w1 g1)]]. destruct Hres as (? & He2 & Hil & -> & ->). split; [done|]. split; [by apply Hcomp|].
    split; [by apply (image_loaded_cons f w g w1 g1)|]. cbn [fmap list_fmap fold_left]. split; f_equal; [destruct (Z.ltb_spec (sg_vaddr s) lo)|destruct (Z.ltb_spec hi (sg_vaddr s + sg_memsz s))]; lia.
  - assert ((rc <? 0) = true) as -> by (destruct Hrc as [(-> & _)|(-> & _)]; done). exists (inr w1), g1. split; [done|]. split; [done|].
    destruct Hrc as [(_ & _ & _ & Hn)|(_ & x & j & Hj & _ & [Hv|Hn])]; [left; exists s; split; [apply list_elem_of_here|done]|right|left; exists s; split; [apply list_elem_of_here|done]].
    exists [], s, l, (seg_first s + j). split; [done|]. split; [unfold seg_pages, within; lia|by left].
Qed.
End image.

(** ** Sv39 *)

(** Page by page or in one call: [mm_vm_map_pages] does the same. *)
Lemma sv39_map_pages sg ram_base ram_size satp n : forall w pgd va pa,
  @vm_map_pages (sv39_ops sg ram_base ram_size satp) n w pgd va pa = Rv.mm_vm_map_pages sg w pgd va pa (Z.of_nat n) VM_PERM_USER.
Proof.
  unfold Rv.mm_vm_map_pages. rewrite Nat2Z.id. set (mk := fun _ pa => RV_PTE_FROM_PA pa _). induction n as [|n IH]; intros w pgd va pa; [done|]. cbn [vm_map_pages map_loop vm_map sv39_ops].
  unfold Rv.mm_vm_map_pages. change (Z.to_nat 1) with 1%nat. fold mk. cbn [map_loop]. destruct (Rv.rv_walk_l0_pte w pgd va true) as [[[pte|] w1]|]; cbn [mbind option_bind]; [|done|done].
  destruct (pte_valid _); cbn [mbind option_bind]; [done|]. change (negb (0 =? 0)) with false. cbv iota. rewrite <- IH. done.
Qed.
