(* ===== verification/ElfReloc.v ===== *)
(** * Relocation, and what a process sees of a loaded image *)

From stdpp Require Import options.
From Stdlib Require Import Lia.
From S2P Require Import Prelude Bitmap Pmm SharedPage PhysMem PageTable Teardown Riscv64 AddrSpace UserMem UserSpaces UserExit UserOps UserMap UserFile UserFork UserSys Elf ElfLoad.

Section image.
Context {VO : vm_ops} {VL : vm_laws}.

(** ** Relocation *)

(** A 64-bit store by a process; nothing is stored where nothing is mapped. *)
Definition vstore64 (L : Z -> option Z) (va v : Z) : Z -> option Z := fun a => if (va <=? a) && (a <? va + 8) then (fun _ => byte_of v (a - va)) <$> L a else L a.
Definition patched (L : Z -> option Z) (ws : list (Z * Z)) : Z -> option Z := fold_left (fun L tv => vstore64 L tv.1 tv.2) ws L.

Lemma patched_ext ws : forall L L', (forall a, L a = L' a) -> forall a, patched L ws a = patched L' ws a.
Proof using.
  induction ws as [|[t v] ws IH]; intros L L' HL a; cbn; [apply HL|]. apply IH. intros b. unfold vstore64. by rewrite HL.
Qed.

(** The store of an entry that is mapped stays in its page. *)
Definition target_ok (va : Z) : Prop := 0 <= va /\ va < vm_top /\ va mod PAGE_SIZE <= PAGE_SIZE - 8.

(** The store an entry asks for *)
Definition entry_writes (rt : reloc_types) (f : efile) (bias syment : Z) (dynsym : option Z) (at_ : Z) : option (list (Z * Z)) :=
  info ← rd f (u64 (at_ + 8)) 8;
  let ty := u32 info in
  if (ty =? rt_relative rt) || (ty =? rt_jump_slot rt) || (ty =? rt_glob_dat rt) || (ty =? rt_abs64 rt) then
    r_offset ← rd f at_ 8;
    sym ← (if ty =? rt_relative rt then Some 0 else sym_value f dynsym syment info);
    addend ← rd f (u64 (at_ + 16)) 8;
    Some [(u64 (bias + r_offset), u64 (bias + sym + addend))]
  else Some [].
Fixpoint table_writes (n : nat) (rt : reloc_types) (f : efile) (bias syment : Z) (dynsym : option Z) (o ent r : Z) : option (list (Z * Z)) :=
  match n with
  | O => Some []
  | S n => ws ← entry_writes rt f bias syment dynsym (u64 (o + r * ent)); l ← table_writes n rt f bias syment dynsym o ent (r + 1); Some (ws ++ l)
  end.
(** The stores of the first PT_DYNAMIC *)
Definition dynamic_writes (rt : reloc_types) (f : efile) (h : elf64_ehdr_t) (base i : Z) : option (list (Z * Z)) :=
  let phs := Z.to_nat (e_phnum h) in
  offset ← p_offset f h i; filesz ← p_filesz f h i;
  d ← dyn_scan (Z.to_nat (filesz / 16)) f offset (mk_dyn 0 0 0 0 0);
  dynsym ← (if negb (dy_symtab d =? 0) then file_offset phs f h 0 (dy_symtab d) else Some None);
  if negb (dy_rela d =? 0) && negb (dy_relasz d =? 0) && negb (dy_relaent d =? 0) then
    o ← file_offset phs f h 0 (dy_rela d);
    match o with
    | Some o =>
        if o =? 0 then Some []
        else table_writes (Z.to_nat (dy_relasz d / dy_relaent d)) rt f (if e_type h =? ET_DYN then base else 0) (if dy_syment d =? 0 then 24 else dy_syment d) dynsym o (dy_relaent d) 0
    | None => Some []
    end
  else Some [].
Definition image_writes (rt : reloc_types) (f : efile) (h : elf64_ehdr_t) (base : Z) : option (list (Z * Z)) :=
  o ← find_type (Z.to_nat (e_phnum h)) f h PT_DYNAMIC 0;
  match o with None => Some [] | Some i => dynamic_writes rt f h base i end.

(** A store through the page of its target *)
Definition write_through (w : kmem) (r target v : Z) : option kmem :=
  let page := ALIGN_DOWN target PAGE_SIZE in
  paddr ← vm_paddr w r page; if paddr =? 0 then Some w else Some (store64 w (u64 (paddr + (target - page))) v).

Definition patches (w : kmem) (g : ghost) (w' : kmem) (r : Z) (ws : list (Z * Z)) : Prop :=
  (forall va, load w' g r va = patched (load w g r) ws va) /\ forall r' va, r' <> r -> load w' g r' va = load w g r' va.

Lemma patches_app w g w1 w2 r ws ws' : patches w g w1 r ws -> patches w1 g w2 r ws' -> patches w g w2 r (ws ++ ws').
Proof using.
  intros [A1 A2] [B1 B2]. split; [|intros r' va Hne; by rewrite B2, A2]. intros va. rewrite B1. unfold patched. rewrite fold_left_app. by apply patched_ext.
Qed.
Lemma patches_nil w g r : patches w g w r [].
Proof using. done. Qed.

(** A write to the frame of a private page is seen at that page only. *)
Lemma private_load w w' m g n r k x r' va : mem_inv w m g n -> view g r k = Some (x, Private) -> (forall a, ~ in_frame x a -> km_word w' a = km_word w a) ->
  (r', va / PAGE_SIZE) <> (r, k) -> load w' g r' va = load w g r' va.
Proof using.
  intros Hi Ev Hout Hne. unfold load. destruct (view g r' (va / PAGE_SIZE)) as [[y kd]|] eqn:Ey; [|done]. f_equal. apply Hout. intros Hc.
  destruct (view_frame w g r k x _ (mi_spaces _ _ _ _ Hi) Ev) as (_ & [_ Hal] & _). destruct (view_frame w g r' _ y kd (mi_spaces _ _ _ _ Hi) Ey) as (_ & [_ Haly] & _).
  rewrite <- (frames_apart x y _ Hal Haly Hc (page_offset y va)) in Ey. apply Hne. symmetry. by apply (fi_private _ _ _ _ (mi_frames _ _ _ _ Hi) _ _ x kd).
Qed.

Lemma write_through_mem w m g n r target v : mem_inv w m g n -> is_space g r -> all_private g r -> target_ok target ->
  exists w', write_through w r target v = Some w' /\ mem_inv w' m g n /\ patches w g w' r [(target, v)].
Proof using.
  intros Hi Hr Hp (H0 & Htop & Hoff). pose proof vm_top_range. pose proof (Z_div_mod_eq_full target PAGE_SIZE) as Et. pose proof (Z.mod_pos_bound target PAGE_SIZE ltac:(lia)).
  assert (0 <= target / PAGE_SIZE) by (apply Z.div_pos; lia). set (k := target / PAGE_SIZE) in *. unfold write_through. rewrite ALIGN_DOWN_page by lia. fold k.
  rewrite (paddr_law w r _ _ (k * PAGE_SIZE) (si_space _ _ (mi_spaces _ _ _ _ Hi) r Hr)) by lia. rewrite Z.div_mul, Z_mod_mult by lia.
  assert (forall a, (target <=? a) && (a <? target + 8) = true -> a / PAGE_SIZE = k) as Hpg.
  { intros a [?%Z.leb_le ?%Z.ltb_lt]%andb_true_iff. symmetry. apply (Z.div_unique a PAGE_SIZE k (a - k * PAGE_SIZE)); lia. }
  destruct (view g r k) as [[x kd]|] eqn:Ev; cbn [mbind option_bind].
  - rewrite Z.add_0_r. destruct (view_frame w g r k x kd (mi_spaces _ _ _ _ Hi) Ev) as (_ & [Hx Hal] & _ & Hnt). pose proof (Hp k x kd Ev) as ->.
    rewrite (proj2 (Z.eqb_neq x 0)) by lia. rewrite u64_id by lia. replace (x + (target - k * PAGE_SIZE)) with (x + target mod PAGE_SIZE) by lia.
    set (w' := store64 w (x + target mod PAGE_SIZE) v). exists w'. split; [done|].
    assert (forall a, ~ in_frame x a -> km_word w' a = km_word w a) as Hout.
    { intros a Ha. unfold w', store64, in_frame in *. cbn. destruct (Z.leb_spec (x + target mod PAGE_SIZE) a), (Z.ltb_spec a (x + target mod PAGE_SIZE + 8)); try done. lia. }
    split; [by apply (frame_mem w w' m g n x)|]. split.
    + intros va. cbn [patched fold_left fst snd]. unfold vstore64. pose proof (Z_div_mod_eq_full va PAGE_SIZE) as Ea. pose proof (Z.mod_pos_bound va PAGE_SIZE ltac:(lia)).
      destruct (decide (va / PAGE_SIZE = k)) as [Ek|Hk].
      * unfold load. rewrite Ek, Ev. cbn [fmap option_fmap option_map]. unfold w', store64. cbn [km_word set_words].
        replace (x + va mod PAGE_SIZE - (x + target mod PAGE_SIZE)) with (va - target) by lia.
        destruct (Z.leb_spec (x + target mod PAGE_SIZE) (x + va mod PAGE_SIZE)), (Z.ltb_spec (x + va mod PAGE_SIZE) (x + target mod PAGE_SIZE + 8)), (Z.leb_spec target va), (Z.ltb_spec va (target + 8)); cbn [andb]; try done; lia.
      * destruct ((target <=? va) && (va <? target + 8)) eqn:Eb; [by destruct Hk; apply Hpg|]. apply (private_load w w' m g n r k x); [done|done|done|congruence].
    + intros r' va Hne. apply (private_load w w' m g n r k x); [done|done|done|congruence].
  - exists w. split; [done|]. split; [done|]. split; [|done]. intros va. cbn [patched fold_left fst snd]. unfold vstore64. destruct ((target <=? va) && (va <? target + 8)) eqn:Eb; [|done].
    unfold load. by rewrite (Hpg va Eb), Ev.
Qed.

Definition writes_ok (ws : list (Z * Z)) : Prop := Forall (fun tv => target_ok tv.1) ws.

Lemma reloc_entry_mem rt f bias syment dynsym at_ w m g n r ws : mem_inv w m g n -> is_space g r -> all_private g r ->
  entry_writes rt f bias syment dynsym at_ = Some ws -> writes_ok ws ->
  exists w', reloc_entry rt f r bias syment dynsym at_ w = Some w' /\ mem_inv w' m g n /\ patches w g w' r ws.
Proof using.
  intros Hi Hr Hp E Hok. unfold entry_writes, reloc_entry in *. destruct (rd f (u64 (at_ + 8)) 8) as [info|]; [|done]. cbn [mbind option_bind] in *.
  destruct (_ || _ || _ || _); [|injection E as <-; exists w; split; [done|]; split; [done|apply patches_nil]].
  destruct (rd f at_ 8) as [off|]; [|done]. cbn [mbind option_bind] in *. destruct (if _ =? rt_relative rt then _ else _) as [sym|]; [|done]. cbn [mbind option_bind] in *.
  destruct (rd f (u64 (at_ + 16)) 8) as [addend|]; [|done]. cbn [mbind option_bind] in *. injection E as <-. apply Forall_cons in Hok as [Ht _]. cbn [fst] in Ht.
  destruct (write_through_mem w m g n r _ (u64 (bias + sym + addend)) Hi Hr Hp Ht) as (w' & E & H). exists w'. split; [exact E|exact H].
Qed.

Lemma reloc_loop_mem rt f h r bias d syment dynsym m n g o cnt : is_space g r -> all_private g r ->
  file_offset (Z.to_nat (e_phnum h)) f h 0 (dy_rela d) = Some (Some o) -> o <> 0 -> forall i w ws, mem_inv w m g n ->
  table_writes cnt rt f bias syment dynsym o (dy_relaent d) i = Some ws -> writes_ok ws ->
  exists w', reloc_loop cnt rt f h r bias d syment dynsym i w = Some w' /\ mem_inv w' m g n /\ patches w g w' r ws.
Proof using.
  intros Hr Hp Eo Ho. induction cnt as [|cnt IH]; intros i w ws Hi E Hok; cbn [table_writes reloc_loop] in *.
  { injection E as <-. exists w. split; [done|]. split; [done|apply patches_nil]. }
  rewrite Eo. cbn [mbind option_bind]. rewrite (proj2 (Z.eqb_neq o 0)) by done. destruct (entry_writes _ _ _ _ _ _) as [ws1|] eqn:E1; [|done]. cbn [mbind option_bind] in E.
  destruct (table_writes _ _ _ _ _ _ _ _ _) as [l|] eqn:El; [|done]. cbn [mbind option_bind] in E. injection E as <-. apply Forall_app in Hok as [Hok1 Hok2].
  destruct (reloc_entry_mem rt f bias syment dynsym _ w m g n r ws1 Hi Hr Hp E1 Hok1) as (w1 & -> & Hi1 & Hp1). cbn [mbind option_bind].
  destruct (IH (i + 1) w1 l Hi1 El Hok2) as (w2 & E2 & Hi2 & Hp2). exists w2. split; [done|]. split; [done|]. by apply (patches_app w g w1).
Qed.

(** No table in the file: every round of the loop is skipped. *)
Lemma reloc_loop_skip rt f h r bias d syment dynsym cnt o : file_offset (Z.to_nat (e_phnum h)) f h 0 (dy_rela d) = Some o -> default 0 o = 0 ->
  forall i w, reloc_loop cnt rt f h r bias d syment dynsym i w = Some w.
Proof using.
  intros Eo Ho. induction cnt as [|cnt IH]; intros i w; cbn [reloc_loop]; [done|]. rewrite Eo. cbn [mbind option_bind].
  destruct o as [o|]; cbn in Ho; [subst o; change (0 =? 0) with true; cbv iota|]; cbn [mbind option_bind]; apply IH.
Qed.

Lemma relocate_dynamic_mem rt f h r base i w m g n ws : mem_inv w m g n -> is_space g r -> all_private g r -> dynamic_writes rt f h base i = Some ws -> writes_ok ws ->
  exists w', relocate_dynamic rt f h r base i w = Some w' /\ mem_inv w' m g n /\ patches w g w' r ws.
Proof using.
  intros Hi Hr Hp E Hok. unfold dynamic_writes, relocate_dynamic in *. destruct (p_offset f h i) as [off|]; [|done]. cbn [mbind option_bind] in *.
  destruct (p_filesz f h i) as [sz|]; [|done]. cbn [mbind option_bind] in *. destruct (dyn_scan _ _ _ _) as [d|]; [|done]. cbn [mbind option_bind] in *.
  destruct (if negb (dy_symtab d =? 0) then _ else _) as [dynsym|]; [|done]. cbn [mbind option_bind] in *.
  destruct (_ && _ && _); [|injection E as <-; exists w; split; [done|]; split; [done|apply patches_nil]].
  destruct (file_offset _ f h 0 (dy_rela d)) as [o|] eqn:Eo; [|done]. cbn [mbind option_bind] in E. destruct (decide (default 0 o = 0)) as [Hz|Hz].
  - rewrite (reloc_loop_skip rt f h r _ d _ dynsym _ o Eo Hz). assert (ws = []) as ->.
    { destruct o as [o|]; cbn in *; [subst o|]; by injection E. }
    exists w. split; [done|]. split; [done|apply patches_nil].
  - destruct o as [o|]; [|done]. cbn in Hz. rewrite (proj2 (Z.eqb_neq o 0)) in E by done. by apply (reloc_loop_mem rt f h r _ d _ dynsym m n g o).
Qed.

Lemma relocate_mem rt f h r base w m g n ws : mem_inv w m g n -> is_space g r -> all_private g r -> image_writes rt f h base = Some ws -> writes_ok ws ->
  exists w', relocate rt f h r base w = Some w' /\ mem_inv w' m g n /\ patches w g w' r ws.
Proof using.
  intros Hi Hr Hp E Hok. unfold image_writes, relocate in *. destruct (find_type _ f h PT_DYNAMIC 0) as [[i|]|]; [|..|done]; cbn [mbind option_bind] in *; [by apply relocate_dynamic_mem|].
  injection E as <-. exists w. split; [done|]. split; [done|apply patches_nil].
Qed.

(** ** The image *)

Definition load_base (f : efile) (force_base : Z) : Z := if negb (force_base =? 0) then force_base else if e_type (ehdr f) =? ET_DYN then USER_CODE_BASE else 0.
(** The interpreter, when it is given a base, and a program that names one are not relocated. *)
Definition self_relocates (force_base : Z) (path : list Z) : bool := (force_base =? 0) && (default 0 (head path) =? 0).

(** A file the loader reads inside of, with what it says. *)
Record image_ok (machine : Z) (rt : reloc_types) (f : efile) (force_base : Z) (segs : list segment) (path : list Z) (ws : list (Z * Z)) (phdrs : Z) : Prop := mk_io {
  io_header : elf_check machine f = 0;
  io_segments : image_segments (Z.to_nat (e_phnum (ehdr f))) f (ehdr f) (load_base f force_base) 0 = Some segs;
  io_fit : Forall (seg_ok f) segs;
  io_interp : (if force_base =? 0 then interp_scan f (ehdr f) else Some []) = Some path;
  io_writes : (if self_relocates force_base path then image_writes rt f (ehdr f) (load_base f force_base) else Some []) = Some ws;
  io_targets : writes_ok ws;
  io_phdrs : phdr_address f (ehdr f) (load_base f force_base) = Some phdrs;
}.

Definition image_info (f : efile) (force_base : Z) (segs : list segment) (path : list Z) (phdrs : Z) : elf_image_info_t :=
  let base := load_base f force_base in
  mk_info (if base =? 0 then e_entry (ehdr f) else u64 (e_entry (ehdr f) + base)) (fold_left Z.min (sg_vaddr <$> segs) (U64_MOD - 1))
    (fold_left Z.max ((fun s => sg_vaddr s + sg_memsz s) <$> segs) 0) phdrs base (e_phnum (ehdr f)) (e_phentsize (ehdr f)) path.

Lemma elf_load_mem machine rt f force_base segs path ws phdrs w m g n r : image_ok machine rt f force_base segs path ws phdrs ->
  mem_inv w m g n -> is_space g r -> all_private g r ->
  exists res w' g', elf_image_load_impl machine rt f w r force_base = Some (res, w') /\ (forall r', is_space g' r' <-> is_space g r') /\
    (forall r' va, r' <> r -> load w' g' r' va = load w g r' va) /\
    match res with
    | inl rc => rc = -8 /\ not_loaded w' g r segs
    | inr info => info = image_info f force_base segs path phdrs /\ mem_inv w' m g' n /\ all_private g' r /\ (forall va, load w' g' r va = patched (placed f segs (load w g r)) ws va)
    end.
Proof using.
  intros [Hh Hs Hfit Hint Hw Ht Hph] Hi Hr Hp. unfold elf_image_load_impl, image_info. rewrite Hh. change (negb (0 =? 0)) with false. cbv iota zeta. fold (load_base f force_base). set (base := load_base f force_base) in *.
  rewrite Hint. cbn [mbind option_bind]. destruct (load_segments_mem f (ehdr f) r base m n (Z.to_nat (e_phnum (ehdr f))) 0 w g (u64 (- 1)) 0 segs Hi Hr Hs Hfit) as (res & g' & -> & Hres). cbn [mbind option_bind].
  destruct res as [[[w1 lo] hi]|w1].
  - destruct Hres as (Hi1 & He & [_ Hp1 Hb] & -> & ->).
    assert (exists w2, (if negb (force_base =? 0) || negb (default 0 (head path) =? 0) then Some w1 else relocate rt f (ehdr f) r base w1) = Some w2 /\
      mem_inv w2 m g' n /\ patches w1 g' w2 r ws) as (w2 & -> & Hi2 & Hpat).
    { unfold self_relocates in Hw. rewrite <- negb_andb. destruct ((force_base =? 0) && (default 0 (head path) =? 0)); cbn [negb].
      - apply relocate_mem; auto. by apply (ef_space _ _ _ _ _ _ _ He).
      - injection Hw as <-. exists w1. split; [done|]. split; [done|apply patches_nil]. }
    cbn [mbind option_bind]. rewrite Hph. cbn [mbind option_bind]. eexists (inr _), w2, g'. split; [done|]. split; [apply He|]. split.
    + intros r' va Hne. rewrite (proj2 Hpat) by done. apply (load_effect w g w1 g' r (image_pages segs) nothing); [done|by left|by intros ? ? _ []].
    + split; [by destruct (base =? 0)|]. split; [done|]. split; [by apply Hp1|]. intros va. rewrite (proj1 Hpat). by apply patched_ext.
  - destruct Hres as [He Hn]. exists (inl (-8)), w1, g'. split; [done|]. split; [apply He|]. split; [|done]. intros r' va Hne. apply (load_effect w g w1 g' r (image_pages segs) nothing); [done|by left|by intros ? ? _ []].
Qed.

End image.

(** ** A program over Sv39 *)

#[local] Existing Instance demo_ops.
#[local] Existing Instance demo_laws.

(** A position-independent program of one segment with one relocation, of the word at 248 *)
Definition demo_bytes : list Z :=
  [127; 69; 76; 70; 2; 1; 1; 0; 0; 0; 0; 0; 0; 0; 0; 0; 3; 0; 243; 0; 1; 0; 0; 0; 64; 0; 0; 0; 0; 0; 0; 0; 64; 0; 0; 0; 0; 0; 0; 0; 0; 0; 0; 0; 0; 0; 0;
   0; 0; 0; 0; 0; 64; 0; 56; 0; 2; 0; 0; 0; 0; 0; 0; 0; 1; 0; 0; 0; 7; 0; 0; 0; 0; 0; 0; 0; 0; 0; 0; 0; 0; 0; 0; 0; 0; 0; 0; 0; 0; 0; 0; 0; 0; 0; 0; 0;
   0; 1; 0; 0; 0; 0; 0; 0; 44; 1; 0; 0; 0; 0; 0; 0; 0; 16; 0; 0; 0; 0; 0; 0; 2; 0; 0; 0; 6; 0; 0; 0; 176; 0; 0; 0; 0; 0; 0; 0; 176; 0; 0; 0; 0; 0; 0; 0;
   176; 0; 0; 0; 0; 0; 0; 0; 48; 0; 0; 0; 0; 0; 0; 0; 48; 0; 0; 0; 0; 0; 0; 0; 8; 0; 0; 0; 0; 0; 0; 0; 7; 0; 0; 0; 0; 0; 0; 0; 224; 0; 0; 0; 0; 0; 0; 0;
   8; 0; 0; 0; 0; 0; 0; 0; 24; 0; 0; 0; 0; 0; 0; 0; 9; 0; 0; 0; 0; 0; 0; 0; 24; 0; 0; 0; 0; 0; 0; 0; 248; 0; 0; 0; 0; 0; 0; 0; 3; 0; 0; 0; 0; 0; 0; 0;
   64; 0; 0; 0; 0; 0; 0; 0; 0; 0; 0; 0; 0; 0; 0; 0].
Definition demo_elf : efile := mk_efile 256 (fun i => nth (Z.to_nat i) demo_bytes 0).
Definition demo_segs : list segment := [mk_seg 65536 256 300 0].
Definition demo_writes : list (Z * Z) := [(65784, 65600)].

Lemma demo_seg_ok s : s ∈ demo_segs -> seg_ok demo_elf s.
Proof. intros ->%list_elem_of_singleton. split; cbn; try lia; [vm_compute; split; reflexivity|]. change (17 * PAGE_SIZE <= 2 ^ 38). lia. Qed.
Lemma demo_image : image_ok 243 riscv_types demo_elf 0 demo_segs [] demo_writes 65600.
Proof.
  split; [vm_compute; reflexivity..| |vm_compute; reflexivity|vm_compute; reflexivity| |vm_compute; reflexivity].
  - apply Forall_forall. exact demo_seg_ok.
  - constructor; [|constructor]. cbn [fst]. split; [lia|]. split; [change (65784 < 2 ^ 38); lia|vm_compute; discriminate].
Qed.
Lemma demo_private : all_private demo_ghost 1048576.
Proof. intros k x kd Hv. unfold view, demo_ghost, new_space in Hv. cbn [g_map] in Hv. by rewrite lookup_empty in Hv. Qed.


(** The load of this program succeeds. *)
Lemma demo_loads : (fun x => match fst x with inl rc => rc | inr info => entry_point info end) <$> elf_image_load_impl 243 riscv_types demo_elf demo_world 1048576 0 = Some 65600.
Proof. vm_compute. reflexivity. Qed.

(** ** What the code does beside its comments *)

(** The offset of the program headers is not checked against the size of the file: they are read wherever it points. *)
Lemma elf_reads_outside `{!vm_ops} machine rt f w pgd : elf_check machine f = 0 -> 0 < e_phnum (ehdr f) -> inside f (ph_at (ehdr f) 0 0) 4 = false -> elf_image_load machine rt f w pgd = None.
Proof.
  intros Hc Hn Hin. unfold elf_image_load, elf_image_load_impl. rewrite Hc. cbn [Z.eqb negb]. unfold interp_scan. replace (Z.to_nat (e_phnum (ehdr f))) with (S (Z.to_nat (e_phnum (ehdr f) - 1))) by lia.
  cbn [find_type]. unfold p_type, rd. change (Z.of_nat 4) with 4. by rewrite Hin.
Qed.

(** A segment without a page asks the allocator for none, which is an assertion there. *)
Lemma empty_segment_panics `{!vm_ops} f w pgd s : 0 <= sg_vaddr s < U64_MOD - PAGE_SIZE -> sg_vaddr s mod PAGE_SIZE = 0 -> sg_memsz s = 0 -> elf_load_segment f w pgd s = None.
Proof.
  intros Hv Hal Hm. pose proof (Z_div_mod_eq_full (sg_vaddr s) PAGE_SIZE) as Ev. unfold elf_load_segment. rewrite Hm, Z.add_0_r. rewrite (u64_id (sg_vaddr s)) by lia.
  assert ((sg_vaddr s + (PAGE_SIZE - 1)) / PAGE_SIZE = sg_vaddr s / PAGE_SIZE) as Eu by (rewrite Ev, Hal, Z.add_0_r, (Z.mul_comm PAGE_SIZE), up_pages, Z.div_mul by lia; done).
  rewrite ALIGN_DOWN_page, ALIGN_UP_page by lia. rewrite Eu, Z.sub_diag. done.
Qed.

(** The part in the file may be longer than the segment: it is copied over what follows its frames. *)
Lemma long_segment_overflows : elf_load_segment (mk_efile 8192 (fun _ => 7)) demo_world 1048576 (mk_seg 65536 5000 100 0) = None.
Proof. vm_compute. reflexivity. Qed.

(** Two segments with a page in common: the frame of the page before it goes back to the allocator and stays mapped. *)
Definition overlapping : option (Z * kmem) :=
  '(_, w) ← elf_load_segment demo_elf demo_world 1048576 (mk_seg 69632 0 4096 0); elf_load_segment demo_elf w 1048576 (mk_seg 65536 0 8192 0).
Lemma overlap_stays_mapped : exists w, overlapping = Some (-2, w) /\ vm_paddr w 1048576 65536 = Some 1077248 /\ free_at (km_pmm w) 1077248.
Proof.
  assert ((fun x => (fst x, vm_paddr (snd x) 1048576 65536, bitmap_test (pm_bitmap (km_pmm (snd x))) 7, pm_total_pages (km_pmm (snd x)), pm_start_addr (km_pmm (snd x)))) <$> overlapping = Some (-2, Some 1077248, false, 64, 1048576)) as E by (vm_compute; reflexivity).
  destruct overlapping as [[rc w]|]; [|discriminate]. cbn [fmap option_fmap option_map fst snd] in E. injection E as -> Ep Eb Et Es. exists w. split; [done|]. split; [done|].
  exists 7. unfold page_addr. rewrite Et, Es. split; [lia|]. split; [lia|done].
Qed.
