(* ===== verification/Exec.v ===== *)
(** * New programs: kernel/task/exec.c

    [task_execve] builds an address space from a program and its interpreter, maps a stack and writes the arguments to it.
    Addresses of the stack are offsets [p] from the start of its top page: the strings may reach below it, into pages that are
    neighbours in physical memory too. *)

From stdpp Require Import options.
From Stdlib Require Import Lia.
From Stdlib Require Import Ascii String.
From S2P Require Import Prelude Bitmap Pmm SharedPage PhysMem PageTable Teardown AddrSpace UserMem Elf.

Abbreviation USER_MMAP_BASE_PIE := 1342177280.
Abbreviation USER_MMAP_BASE_EXEC := 805306368.
Abbreviation MAX_ARGS := 128%nat.

(** ** The initial stack *)

Definition put_bytes (w : kmem) (pa : Z) (l : list Z) : kmem :=
  set_words w (fun a => if (pa <=? a) && (a <? pa + Z.of_nat (length l)) then nth (Z.to_nat (a - pa)) l 0 else km_word w a).

Fixpoint bytes_of (s : string) : list Z :=
  match s with EmptyString => [] | String c s => Z.of_nat (nat_of_ascii c) :: bytes_of s end.
Definition default_arg0 (pathname : option (list Z)) : list Z := default (bytes_of "/init") pathname.
Definition default_envp : list (list Z) := [bytes_of "PATH=/bin:/usr/bin:/sbin:/usr/sbin"; bytes_of "HOME=/"; bytes_of "TERM=vt100"].

(** One round of the loops over the strings; [us] has the addresses so far. *)
Definition push_str (pa top : Z) (s : list Z) (st : kmem * Z * list Z) : kmem * Z * list Z :=
  let '(w, p, us) := st in
  let p := p - (Z.of_nat (length s) + 1) in
  (put_bytes w (pa + p) (s ++ [0]), p, u64 (top + p) :: us).
Definition push64 (pa : Z) (st : kmem * Z) (v : Z) : kmem * Z := (store64 st.1 (pa + (st.2 - 8)) v, st.2 - 8).

(** The words above the arguments, from the highest address down *)
Definition auxv (entry rand phdr_uaddr phnum phent at_base : Z) : list Z :=
  [0; 0; rand; 25; 4096; 6; entry; 9] ++ (if negb (at_base =? 0) then [at_base; 7] else []) ++
  (if negb (phdr_uaddr =? 0) then [phnum; 5; phent; 4; phdr_uaddr; 3] else []).

(** The strings that are used: [default] for a NULL pointer, and no more than fit the arrays *)
Definition arg_strings (a : option (list (list Z))) (dflt : list (list Z)) : list (list Z) := take (MAX_ARGS - 1) (default dflt a).

Section exec.
Context {VO : vm_ops}.

(** [None] for the stack pointer: the page is not mapped. *)
Definition elf_setup_stack (w : kmem) (pgd stack_top entry : Z) (pathname : option (list Z)) (argv envp : option (list (list Z))) (phdr_uaddr phnum phent at_base : Z) : option (option Z * kmem) :=
  let top := u64 (stack_top - PAGE_SIZE) in
  pa ← vm_paddr w pgd top;
  if pa =? 0 then Some (None, w)
  else
    let av := arg_strings argv [default_arg0 pathname] in
    let ev := arg_strings envp default_envp in
    let '(w, p, evs) := foldr (push_str pa top) (w, PAGE_SIZE, []) ev in
    let '(w, p, avs) := foldr (push_str pa top) (w, p, []) av in
    let p := p - 16 in
    let w := store64 w (pa + p) (Z.lxor 7879705993858060852 entry) in
    let w := store64 w (pa + p + 8) (Z.lxor 11915017570996746222 stack_top) in
    let rand := u64 (top + p) in
    let p := p - p mod 8 in
    let '(w, p) := foldl (push64 pa) (w, p) (auxv entry rand phdr_uaddr phnum phent at_base ++ [0] ++ rev evs ++ [0] ++ rev avs ++ [Z.of_nat (length av)]) in
    Some (Some (u64 (top + p)), w).

(** ** The address space *)

Record program := mk_prog { pr_task : utask; pr_entry : Z; pr_sp : Z }.

(** The stack: allocated, cleared, mapped *)
Definition exec_stack (w : kmem) (pgd : Z) : option (Z * kmem) :=
  let stack_bottom := ALIGN_DOWN (USER_STACK_TOP - USER_STACK_SIZE) PAGE_SIZE in
  let stack_pages := (USER_STACK_TOP - stack_bottom) / PAGE_SIZE in
  '(base, pm) ← pmm_alloc_pages (km_pmm w) (u32 stack_pages);
  let w := set_pmm w pm in
  if base =? 0 then Some (-2, w)
  else
    let w := clear_words w base (stack_pages * PAGE_SIZE) in
    '(r, w) ← vm_map_pages (Z.to_nat (s32 stack_pages)) w pgd stack_bottom base;
    if negb (r =? 0) then '(_, pm) ← pmm_free_pages (km_pmm w) base (u32 stack_pages); Some (-3, set_pmm w pm)
    else Some (0, w).

(** Entry, base of the interpreter for the program, end of what is loaded, end of the interpreter *)
Record exec_plan := mk_plan { pl_entry : Z; pl_at_base : Z; pl_loaded_end : Z; pl_interp_end : Z }.
Definition exec_interp (machine : Z) (rt : reloc_types) (w : kmem) (pgd : Z) (info : elf_image_info_t) (interp : option efile) : option ((Z + exec_plan) * kmem) :=
  let alone := mk_plan (entry_point info) 0 (max_vaddr info) 0 in
  match interp with
  | None => Some (inr alone, w)
  | Some f =>
      if 0 <? ef_size f then
        '(res, w) ← elf_image_load_at machine rt f w pgd USER_INTERP_BASE;
        match res with
        | inl rc => Some (inl rc, w)
        | inr ii =>
            Some (inr (mk_plan (entry_point ii) (min_vaddr ii) (if max_vaddr info <? max_vaddr ii then max_vaddr ii else max_vaddr info) (ALIGN_UP (max_vaddr ii) PAGE_SIZE)), w)
        end
      else Some (inr alone, w)
  end.

(** The fields of the new process; [user_sp] is also the end of the stack it is given. *)
Definition exec_task (pgd user_sp : Z) (info : elf_image_info_t) (pl : exec_plan) : utask :=
  let mmap_base := if min_vaddr info =? USER_CODE_BASE then USER_MMAP_BASE_PIE else USER_MMAP_BASE_EXEC in
  let loaded_end := ALIGN_UP (pl_loaded_end pl) PAGE_SIZE in
  let mmap_base := if mmap_base <? loaded_end then loaded_end else mmap_base in
  mk_ut true true false false pgd (ALIGN_UP (max_vaddr info) PAGE_SIZE) mmap_base mmap_base (pl_interp_end pl) user_sp USER_STACK_SIZE.

(** From the stack on: the stack, the arguments, the process; [slot]: there is a slot for it. *)
Definition exec_finish (slot : bool) (w : kmem) (pgd : Z) (info : elf_image_info_t) (pl : exec_plan) (pathname : option (list Z)) (argv envp : option (list (list Z))) : option ((Z + program) * kmem) :=
  '(rc, w) ← exec_stack w pgd;
  if negb (rc =? 0) then Some (inl rc, w)
  else
    '(sp, w) ← elf_setup_stack w pgd USER_STACK_TOP (entry_point info) pathname argv envp (phdr_uaddr info) (phnum info) (phent info) (pl_at_base pl);
    match sp with
    | None => Some (inl (-4), w)
    | Some sp => if negb slot then Some (inl (-5), w) else Some (inr (mk_prog (exec_task pgd sp info pl) (pl_entry pl) sp), w)
    end.

(** Up to the creation of the process.  [inl]: the code of the error. *)
Definition task_execve (machine : Z) (rt : reloc_types) (slot : bool) (w : kmem) (pathname : option (list Z)) (f : efile) (interp : option efile) (argv envp : option (list (list Z))) : option ((Z + program) * kmem) :=
  '(pgd, pm) ← pmm_alloc_pages (km_pmm w) 1;
  let w := set_pmm w pm in
  if pgd =? 0 then Some (inl (-1), w)
  else
    let w := vm_init_pgd (clear_words w pgd PAGE_SIZE) pgd in
    '(res, w) ← elf_image_load machine rt f w pgd;
    match res with
    | inl rc => Some (inl rc, w)
    | inr info =>
        '(res, w) ← exec_interp machine rt w pgd info interp;
        match res with
        | inl rc => Some (inl rc, w)
        | inr pl => exec_finish slot w pgd info pl pathname argv envp
        end
    end.
End exec.
