(* ===== verification/ExecStack.v ===== *)
(** * The initial stack of a program

    The words and strings [elf_setup_stack] writes to physical memory are those the program loads through its address space. *)

From stdpp Require Import options.
From Stdlib Require Import Lia.
From S2P Require Import Prelude Bitmap Pmm SharedPage PhysMem PageTable Teardown Riscv64 AddrSpace UserMem UserSpaces UserExit UserOps UserMap UserFile UserFork UserSys Elf ElfLoad ElfReloc Exec.

(** ** Words and their bytes *)

Lemma byte_of_div v i : 0 <= i -> byte_of v i = v / 2 ^ (8 * i) mod 256.
Proof. intros Hi. unfold byte_of. by rewrite Z.shiftr_div_pow2 by lia. Qed.

Lemma le_bytes v n : forall b a i, 0 <= i -> (forall j, 0 <= j < Z.of_nat n -> b (a + j) = byte_of v (i + j)) -> le n b a = v / 2 ^ (8 * i) mod 2 ^ (8 * Z.of_nat n).
Proof.
  induction n as [|n IH]; intros b a i Hi Hb; cbn [le].
  { change (8 * Z.of_nat 0) with 0. by rewrite Z.mod_1_r. }
  rewrite (IH b (a + 1) (i + 1)); [|lia|intros j Hj; rewrite <- Z.add_assoc, Hb by lia; f_equal; lia].
  pose proof (Hb 0 ltac:(lia)) as H0. rewrite !Z.add_0_r in H0. rewrite H0, byte_of_div by done.
  replace (8 * (i + 1)) with (8 * i + 8) by lia. replace (8 * Z.of_nat (S n)) with (8 + 8 * Z.of_nat n) by lia. rewrite !Z.pow_add_r by lia. change (2 ^ 8) with 256.
  rewrite <- Z.div_div by lia. rewrite Z.rem_mul_r by lia. lia.
Qed.

(** ** Writes to a range *)

Record touches (w w' : kmem) (lo hi : Z) : Prop := mk_touches {
  tc_pmm : km_pmm w' = km_pmm w;
  tc_shared : km_shared w' = km_shared w;
  tc_words a : ~ (lo <= a < hi) -> km_word w' a = km_word w a;
}.
Lemma touches_same w lo hi : touches w w lo hi.
Proof. by split. Qed.
Lemma touches_trans w w1 w2 lo mid hi : touches w w1 mid hi -> touches w1 w2 lo mid -> lo <= mid <= hi -> touches w w2 lo hi.
Proof. intros [A1 A2 A3] [B1 B2 B3] H. split; [congruence|congruence|]. intros a Ha. rewrite B3, A3 by lia. done. Qed.
Lemma touches_mono w w' lo hi lo' hi' : touches w w' lo hi -> lo' <= lo -> hi <= hi' -> touches w w' lo' hi'.
Proof. intros [A1 A2 A3] H1 H2. split; [done|done|]. intros a Ha. apply A3. lia. Qed.

Lemma put_bytes_touches w pa l : touches w (put_bytes w pa l) pa (pa + Z.of_nat (length l)).
Proof. split; [done|done|]. intros a Ha. unfold put_bytes. cbn. destruct (Z.leb_spec pa a), (Z.ltb_spec a (pa + Z.of_nat (length l))); try done. lia. Qed.
Lemma put_bytes_word w pa l i c : l !! i = Some c -> km_word (put_bytes w pa l) (pa + Z.of_nat i) = c.
Proof.
  intros Hl. pose proof (lookup_lt_Some _ _ _ Hl). unfold put_bytes. cbn. rewrite (proj2 (Z.leb_le _ _)), (proj2 (Z.ltb_lt _ _)) by lia. cbn [andb].
  replace (pa + Z.of_nat i - pa) with (Z.of_nat i) by lia. rewrite Nat2Z.id. by apply nth_lookup_Some.
Qed.
Lemma store64_touches w pa v : touches w (store64 w pa v) pa (pa + 8).
Proof. split; [done|done|]. intros a Ha. unfold store64. cbn. destruct (Z.leb_spec pa a), (Z.ltb_spec a (pa + 8)); try done. lia. Qed.
Lemma store64_word w pa v i : 0 <= i < 8 -> km_word (store64 w pa v) (pa + i) = byte_of v i.
Proof. intros Hi. unfold store64. cbn. rewrite (proj2 (Z.leb_le _ _)), (proj2 (Z.ltb_lt _ _)) by lia. cbn [andb]. f_equal. lia. Qed.

(** ** Strings and words of the stack *)

Definition str_size (l : list (list Z)) : Z := foldr (fun s n => Z.of_nat (length s) + 1 + n) 0 l.
Lemma str_size_nonneg l : 0 <= str_size l.
Proof. induction l as [|s l IH]; cbn [str_size foldr]; [done|]. fold (str_size l). lia. Qed.

(** The string [s] and its end at the address [u]: offset [o] of the page at [pa], between [lo] and [hi] *)
Definition string_at (w : kmem) (pa top lo hi u : Z) (s : list Z) : Prop :=
  exists o, u = u64 (top + o) /\ lo <= o /\ o + Z.of_nat (length s) + 1 <= hi /\ forall i c, (s ++ [0]) !! i = Some c -> km_word w (pa + o + Z.of_nat i) = c.

Lemma string_at_kept w w' pa top lo hi lo' hi' u s : string_at w pa top lo hi u s -> lo' <= lo -> hi <= hi' -> (forall a, pa + lo <= a < pa + hi -> km_word w' a = km_word w a) -> string_at w' pa top lo' hi' u s.
Proof.
  intros (o & Hu & Hlo & Hhi & Hb) H1 H2 Hw. exists o. split; [done|]. split; [lia|]. split; [lia|]. intros i c Hc. rewrite Hw; [by apply Hb|].
  pose proof (lookup_lt_Some _ _ _ Hc) as Hl. rewrite length_app in Hl. cbn in Hl. lia.
Qed.

Lemma push_strs_spec pa top l w p : exists w' us, foldr (push_str pa top) (w, p, []) l = (w', p - str_size l, us) /\
  touches w w' (pa + (p - str_size l)) (pa + p) /\ Forall2 (string_at w' pa top (p - str_size l) p) us l.
Proof.
  induction l as [|s l IH]; cbn [foldr str_size].
  { exists w, []. split; [f_equal; f_equal; lia|]. split; [apply touches_same|constructor]. }
  fold (str_size l). destruct IH as (w1 & us & -> & Ht & Hus). cbn [push_str]. set (q := p - str_size l) in *. set (o := q - (Z.of_nat (length s) + 1)).
  pose proof (str_size_nonneg l). replace (p - (Z.of_nat (length s) + 1 + str_size l)) with o by (unfold o, q; lia).
  pose proof (put_bytes_touches w1 (pa + o) (s ++ [0])) as Hp. rewrite length_app in Hp. cbn [length] in Hp. replace (pa + o + Z.of_nat (length s + 1)) with (pa + q) in Hp by (unfold o; lia).
  eexists _, _. split; [done|]. split; [apply (touches_trans w w1 _ _ (pa + q)); [done|done|unfold o, q; lia]|]. constructor.
  - exists o. split; [done|]. split; [lia|]. split; [unfold o, q; lia|]. intros i c Hc. by apply put_bytes_word.
  - eapply Forall2_impl; [exact Hus|]. intros u s' Hs. apply (string_at_kept w1 _ pa top q p); [done|unfold o; lia|lia|]. intros a Ha. apply (tc_words _ _ _ _ Hp). lia.
Qed.

Lemma push64s_spec pa vs : forall w p, exists w', foldl (push64 pa) (w, p) vs = (w', p - 8 * Z.of_nat (length vs)) /\
  touches w w' (pa + (p - 8 * Z.of_nat (length vs))) (pa + p) /\
  forall j v i, vs !! j = Some v -> 0 <= i < 8 -> km_word w' (pa + (p - 8 * (Z.of_nat j + 1)) + i) = byte_of v i.
Proof.
  induction vs as [|v vs IH]; intros w p; cbn [foldl length].
  { exists w. split; [f_equal; lia|]. split; [apply touches_same|]. done. }
  change (push64 pa (w, p) v) with (store64 w (pa + (p - 8)) v, p - 8). pose proof (store64_touches w (pa + (p - 8)) v) as Hs. destruct (IH (store64 w (pa + (p - 8)) v) (p - 8)) as (w' & E & Ht & Hb). exists w'.
  replace (p - 8 * Z.of_nat (S (length vs))) with (p - 8 - 8 * Z.of_nat (length vs)) by lia. split; [exact E|].
  split; [apply (touches_trans w (store64 w (pa + (p - 8)) v) _ _ (pa + (p - 8))); [eapply touches_mono; [exact Hs|lia|lia]|exact Ht|lia]|].
  intros [|j] v' i Hj Hi.
  - injection Hj as <-. rewrite (tc_words _ _ _ _ Ht) by lia. replace (8 * (Z.of_nat 0 + 1)) with 8 by lia. by apply store64_word.
  - replace (p - 8 * (Z.of_nat (S j) + 1)) with (p - 8 - 8 * (Z.of_nat j + 1)) by lia. by apply Hb.
Qed.

(** ** The stack as the process sees it *)

(** A 64-bit load, and a string with its end *)
Definition load64 (L : Z -> option Z) (va : Z) : option Z :=
  if bool_decide (Forall (fun i => is_Some (L (va + i))) (seqZ 0 8)) then Some (le 8 (fun a => default 0 (L a)) va) else None.
Definition loads_string (L : Z -> option Z) (va : Z) (s : list Z) : Prop := forall i c, (s ++ [0]) !! i = Some c -> L (va + Z.of_nat i) = Some c.

(** What a program expects at its stack pointer: the count of the arguments, their addresses, those of the environment, each list with its end, and the
    auxiliary vector, with [rand] the address of its random bytes. *)
Record stack_for (L : Z -> option Z) (sp : Z) (av ev : list (list Z)) (aux : Z -> list Z) : Prop := mk_sf {
  sf_aligned : sp mod 8 = 0;
  sf_words : exists avs evs rand, Forall2 (loads_string L) avs av /\ Forall2 (loads_string L) evs ev /\
    (forall j v, (Z.of_nat (length av) :: avs ++ [0] ++ evs ++ [0] ++ aux rand) !! j = Some v -> load64 L (sp + 8 * Z.of_nat j) = Some (u64 v)) /\
    forall i, 0 <= i < 16 -> L (rand + i) <> None;
}.

(** The bytes the stack takes, without those of its alignment *)
Definition stack_need (av ev : list (list Z)) (aux : list Z) : Z := str_size av + str_size ev + 16 + 8 * (Z.of_nat (length av) + Z.of_nat (length ev) + 3 + Z.of_nat (length aux)).

Section stack.
Context {VO : vm_ops} {VL : vm_laws}.

Lemma load64_bytes (L : Z -> option Z) va v : (forall i, 0 <= i < 8 -> L (va + i) = Some (byte_of v i)) -> load64 L va = Some (u64 v).
Proof using.
  intros H. unfold load64. rewrite bool_decide_true.
  - f_equal. rewrite (le_bytes v 8 _ va 0); [by rewrite Z.div_1_r|done|]. intros j Hj. by rewrite H by lia.
  - apply Forall_forall. intros i [? ?]%elem_of_seqZ. rewrite H by lia. done.
Qed.

(** The bytes of the run at [x], by their offset from its top page *)
Lemma stack_load w g r k x c o : maps_run g r k x c -> (1 - c) * PAGE_SIZE <= o < PAGE_SIZE -> load w g r ((k + c - 1) * PAGE_SIZE + o) = Some (km_word w (run_page x (c - 1) + o)).
Proof using. intros Hm Ho. rewrite (load_run w g r k x c) by (done || lia). do 2 f_equal. unfold run_page. lia. Qed.

Lemma stack_strings w g r k x c lo us l : maps_run g r k x c -> 0 <= k -> (k + c) * PAGE_SIZE <= U64_MOD -> (1 - c) * PAGE_SIZE <= lo ->
  Forall2 (string_at w (run_page x (c - 1)) ((k + c - 1) * PAGE_SIZE) lo PAGE_SIZE) us l -> Forall2 (loads_string (load w g r)) us l.
Proof using.
  intros Hm Hk Htop Hlo Hf. eapply Forall2_impl; [exact Hf|]. intros u s (o & -> & Ho & Hhi & Hb) i c' Hc. pose proof (lookup_lt_Some _ _ _ Hc) as Hl. rewrite length_app in Hl. cbn in Hl.
  rewrite u64_id by lia. rewrite <- Z.add_assoc. rewrite (stack_load w g r k x c) by (done || lia). f_equal. rewrite Z.add_assoc. by apply Hb.
Qed.

Lemma stack_words w g r k x c p q vs : maps_run g r k x c -> (1 - c) * PAGE_SIZE <= p -> p + 8 * Z.of_nat (length vs) <= q -> q <= PAGE_SIZE -> p = q - 8 * Z.of_nat (length vs) ->
  (forall j v i, vs !! j = Some v -> 0 <= i < 8 -> km_word w (run_page x (c - 1) + (q - 8 * (Z.of_nat j + 1)) + i) = byte_of v i) ->
  forall j v, rev vs !! j = Some v -> load64 (load w g r) ((k + c - 1) * PAGE_SIZE + p + 8 * Z.of_nat j) = Some (u64 v).
Proof using.
  intros Hm Hp Hpq Hq Ep Hb j v Hj. rewrite rev_alt in Hj. apply reverse_lookup_Some in Hj as [Hj Hl]. apply load64_bytes. intros i Hi.
  replace ((k + c - 1) * PAGE_SIZE + p + 8 * Z.of_nat j + i) with ((k + c - 1) * PAGE_SIZE + (p + 8 * Z.of_nat j + i)) by lia.
  rewrite (stack_load w g r k x c) by (done || lia). f_equal. rewrite <- (Hb _ v i Hj Hi). f_equal. lia.
Qed.

(** The words below the strings, in the order of their addresses *)
Lemma stack_order (rv avs evs : list Z) (n : Z) : rev (rv ++ [0] ++ rev evs ++ [0] ++ rev avs ++ [n]) = n :: avs ++ [0] ++ evs ++ [0] ++ rev rv.
Proof using. rewrite !rev_app_distr, !rev_involutive. cbn. by rewrite <- !app_assoc. Qed.

Lemma setup_stack_mem w m g n r k x c entry pathname argv envp phdrs num ent at_base : mem_inv w m g n -> is_space g r -> maps_run g r k x c -> 0 < c -> 0 <= k -> (k + c) * PAGE_SIZE <= vm_top ->
  let av := arg_strings argv [default_arg0 pathname] in let ev := arg_strings envp default_envp in
  let aux := fun rand => rev (auxv entry rand phdrs num ent at_base) in stack_need av ev (aux 0) + 7 <= c * PAGE_SIZE ->
  exists sp w', elf_setup_stack w r ((k + c) * PAGE_SIZE) entry pathname argv envp phdrs num ent at_base = Some (Some sp, w') /\ mem_inv w' m g n /\
    effect w g w' g r (within k (k + c)) nothing /\ stack_for (load w' g r) sp av ev aux /\
    (k + c) * PAGE_SIZE - stack_need av ev (aux 0) - 7 <= sp <= (k + c) * PAGE_SIZE - stack_need av ev (aux 0).
Proof using.
  intros Hi Hr Hm Hc Hk Htop av ev aux Hfit. pose proof vm_top_range as Hv. set (pa := run_page x (c - 1)). set (top := (k + c - 1) * PAGE_SIZE).
  unfold elf_setup_stack. replace (u64 ((k + c) * PAGE_SIZE - PAGE_SIZE)) with top by (rewrite u64_id by lia; unfold top; lia).
  assert (view g r (k + c - 1) = Some (pa, Private)) as Hview by (replace (k + c - 1) with (k + (c - 1)) by lia; apply Hm; lia).
  pose proof (paddr_mem w g r (k + c - 1) (mi_spaces _ _ _ _ Hi) Hr ltac:(split; lia)) as Epa. fold top in Epa. rewrite Epa, Hview. clear Epa. cbn [mbind option_bind].
  destruct (view_frame w g r _ pa Private (mi_spaces _ _ _ _ Hi) Hview) as (_ & [Hpa _] & _). rewrite (proj2 (Z.eqb_neq pa 0)) by lia. fold av ev.
  destruct (push_strs_spec pa top ev w PAGE_SIZE) as (w1 & evs & -> & Ht1 & Hevs). set (p1 := PAGE_SIZE - str_size ev) in *.
  destruct (push_strs_spec pa top av w1 p1) as (w2 & avs & -> & Ht2 & Havs). set (p2 := p1 - str_size av) in *. set (p3 := p2 - 16).
  pose proof (Forall2_length _ _ _ Hevs) as Lev. pose proof (Forall2_length _ _ _ Havs) as Lav. pose proof (str_size_nonneg ev). pose proof (str_size_nonneg av).
  pose proof (store64_touches w2 (pa + p3) (Z.lxor 7879705993858060852 entry)) as Ht3. set (w3 := store64 w2 (pa + p3) _) in *.
  pose proof (store64_touches w3 (pa + p3 + 8) (Z.lxor 11915017570996746222 ((k + c) * PAGE_SIZE))) as Ht4. set (w4 := store64 w3 (pa + p3 + 8) _) in *.
  pose proof (Z.mod_pos_bound p3 8 ltac:(lia)) as Hal. set (p5 := p3 - p3 mod 8). set (rand := u64 (top + p3)).
  set (vs := auxv entry rand phdrs num ent at_base ++ [0] ++ rev evs ++ [0] ++ rev avs ++ [Z.of_nat (length av)]).
  destruct (push64s_spec pa vs w4 p5) as (w5 & -> & Ht5 & Hb5). set (p6 := p5 - 8 * Z.of_nat (length vs)) in *.
  assert (Z.of_nat (length vs) = Z.of_nat (length av) + Z.of_nat (length ev) + 3 + Z.of_nat (length (aux 0))) as Lvs.
  { unfold vs, aux. rewrite !length_app, !length_rev, Lev, Lav. cbn [length]. assert (length (auxv entry rand phdrs num ent at_base) = length (auxv entry 0 phdrs num ent at_base)) as -> by (unfold auxv; by rewrite !length_app). lia. }
  unfold stack_need in *. assert (PAGE_SIZE - stack_need av ev (aux 0) - 7 <= p6 <= PAGE_SIZE - stack_need av ev (aux 0)) as Hp6 by (unfold stack_need, p6, p5, p3, p2, p1 in *; lia).
  unfold stack_need in Hp6. assert (u64 (top + p6) = top + p6) as Esp by (apply u64_id; unfold top; lia).
  assert (touches w w5 (pa + p6) (pa + PAGE_SIZE)) as Ht.
  { apply (touches_trans w w1 w5 _ (pa + p1)); [exact Ht1| |unfold p6, p5, p3, p2, p1 in *; lia]. apply (touches_trans w1 w2 w5 _ (pa + p2)); [exact Ht2| |unfold p6, p5, p3, p2 in *; lia].
    apply (touches_trans w2 w4 w5 _ (pa + p5)); [|exact Ht5|unfold p6, p5, p3 in *; lia]. split; [done|done|]. intros a Ha. rewrite (tc_words _ _ _ _ Ht4), (tc_words _ _ _ _ Ht3) by (unfold p5, p3 in *; lia). done. }
  assert (forall a, pa + p2 <= a -> km_word w5 a = km_word w2 a) as Hk2.
  { intros a Ha. rewrite (tc_words _ _ _ _ Ht5), (tc_words _ _ _ _ Ht4), (tc_words _ _ _ _ Ht3) by (unfold p5, p3 in *; lia). done. }
  destruct (write_run w w5 m g n r k x c Hi Hm (tc_pmm _ _ _ _ Ht) (tc_shared _ _ _ _ Ht)) as [Hi5 He5].
  { intros a Ha. apply (tc_words _ _ _ _ Ht). unfold pa, run_page in *. lia. }
  exists (top + p6), w5. rewrite Esp. split; [done|]. split; [done|]. split; [done|]. split; [|unfold top; lia]. split.
  - unfold top, p6, p5. pose proof (Z_div_mod_eq_full p3 8). replace ((k + c - 1) * PAGE_SIZE + (p3 - p3 mod 8 - 8 * Z.of_nat (length vs))) with (((k + c - 1) * 512 + p3 / 8 - Z.of_nat (length vs)) * 8) by lia. apply Z_mod_mult.
  - exists avs, evs, rand. split; [|split; [|split]].
    + apply (stack_strings w5 g r k x c p2); [done|done|lia|unfold p6, p5, p3 in *; lia|]. eapply Forall2_impl; [exact Havs|]. intros u s Hs. apply (string_at_kept w2 w5 _ _ p2 p1); [done|lia|unfold p1; lia|]. intros a Ha. apply Hk2. lia.
    + apply (stack_strings w5 g r k x c p1); [done|done|lia|unfold p6, p5, p3, p2 in *; lia|]. eapply Forall2_impl; [exact Hevs|]. intros u s Hs. apply (string_at_kept w1 w5 _ _ p1 PAGE_SIZE); [done|lia|lia|].
      intros a Ha. rewrite Hk2 by (unfold p2 in *; lia). apply (tc_words _ _ _ _ Ht2). lia.
    + intros j v Hj. assert (rev vs !! j = Some v) as Hj' by (unfold vs; rewrite stack_order; exact Hj). apply (stack_words w5 g r k x c p6 p5 vs); try done; unfold p6, p5, p3, p2, p1 in *; lia.
    + intros i Hi'. unfold rand. rewrite u64_id by (unfold top, p6, p5, p3 in *; lia). rewrite <- Z.add_assoc. unfold top. rewrite (stack_load w5 g r k x c) by (done || (unfold p6, p5, p3, p2, p1 in *; lia)). done.
Qed.
End stack.
