(* ===== verification/ExecProc.v ===== *)
(** * New programs in the memory of all processes

    What a program that was started finds in its address space, and that the calls of all processes, execve among them, keep the
    invariants of UserSys. *)

From stdpp Require Import options.
From Stdlib Require Import Lia.
From S2P Require Import Prelude Bitmap Pmm SharedPage PhysMem PageTable Teardown Riscv64 AddrSpace UserMem UserSpaces UserExit UserOps UserMap UserFile UserFork UserSys Elf ElfLoad ElfReloc Exec ExecStack.

(** ** The address space *)

(** What the program and its interpreter put in place of [L] *)
Definition with_interp (interp : option efile) (isegs : list segment) (L : Z -> option Z) : Z -> option Z :=
  match interp with Some f => if 0 <? ef_size f then placed f isegs L else L | None => L end.
Definition plan_of (info : elf_image_info_t) (interp : option efile) (isegs : list segment) : exec_plan :=
  let alone := mk_plan (entry_point info) 0 (max_vaddr info) 0 in
  match interp with
  | Some f =>
      if 0 <? ef_size f then
        let ii := image_info f USER_INTERP_BASE isegs [] 0 in mk_plan (entry_point ii) (min_vaddr ii) (Z.max (max_vaddr info) (max_vaddr ii)) (ALIGN_UP (max_vaddr ii) PAGE_SIZE)
      else alone
  | None => alone
  end.

Section exec.
Context {VO : vm_ops} {VL : vm_laws} (machine : Z) (rt : reloc_types).

Definition interp_ok (interp : option efile) (isegs : list segment) : Prop :=
  match interp with Some f => 0 < ef_size f -> exists phdrs, image_ok machine rt f USER_INTERP_BASE isegs [] [] phdrs | None => True end.

Lemma exec_interp_mem info interp isegs w m g n r : interp_ok interp isegs -> mem_inv w m g n -> is_space g r -> all_private g r ->
  exists res w' g', exec_interp machine rt w r info interp = Some (res, w') /\ (forall r', is_space g' r' <-> is_space g r') /\ (forall r' va, r' <> r -> load w' g' r' va = load w g r' va) /\
    match res with
    | inl rc => rc = -8
    | inr pl => pl = plan_of info interp isegs /\ mem_inv w' m g' n /\ (forall va, load w' g' r va = with_interp interp isegs (load w g r) va)
    end.
Proof using.
  intros Hok Hi Hr Hp. unfold exec_interp, plan_of, with_interp, interp_ok in *. destruct interp as [f|]; [|by eexists (inr _), w, g].
  destruct (Z.ltb_spec 0 (ef_size f)) as [Hf|]; [|by eexists (inr _), w, g]. destruct (Hok Hf) as [phdrs Him]. unfold elf_image_load_at.
  destruct (elf_load_mem machine rt f USER_INTERP_BASE isegs [] [] phdrs w m g n r Him Hi Hr Hp) as (res & w' & g' & -> & Hsp & Ho & Hres). cbn [mbind option_bind]. destruct res as [rc|ii].
  - destruct Hres as [-> _]. by exists (inl (-8)), w', g'.
  - destruct Hres as (-> & Hi' & _ & Hl). eexists (inr _), w', g'. split; [done|]. split; [done|]. split; [done|]. split; [|by split].
    change (max_vaddr (image_info f USER_INTERP_BASE isegs [] phdrs)) with (max_vaddr (image_info f USER_INTERP_BASE isegs [] 0)). cbn [entry_point min_vaddr image_info]. f_equal.
    destruct (Z.ltb_spec (max_vaddr info) (max_vaddr (image_info f USER_INTERP_BASE isegs [] 0))); lia.
Qed.

Abbreviation STACK_PAGES := 256.
Lemma exec_stack_mem w m g n r : mem_inv w m g n -> is_space g r -> USER_STACK_TOP <= vm_top ->
  exists rc w' g', exec_stack w r = Some (rc, w') /\ effect w g w' g' r (within STACK_PAGE (STACK_PAGE + STACK_PAGES)) nothing /\
    (rc = 0 /\ mem_inv w' m g' n /\ (exists x, maps_run g' r STACK_PAGE x STACK_PAGES) \/ rc = -2 \/ rc = -3).
Proof using.
  intros Hi Hr Htop. unfold exec_stack. change (ALIGN_DOWN (USER_STACK_TOP - USER_STACK_SIZE) PAGE_SIZE) with (STACK_PAGE * PAGE_SIZE).
  change ((USER_STACK_TOP - STACK_PAGE * PAGE_SIZE) / PAGE_SIZE) with STACK_PAGES. change (u32 STACK_PAGES) with STACK_PAGES. change (s32 STACK_PAGES) with STACK_PAGES.
  destruct (alloc_run_mem w m g n STACK_PAGES Hi ltac:(lia)) as [[-> Hnr]|(x & pm & -> & Hx & Hrun)]; cbn [mbind option_bind].
  { exists (-2), w, g. split; [by destruct w|]. split; [apply effect_refl|]. by right; left. }
  rewrite (proj2 (Z.eqb_neq x 0)) by done. set (w1 := clear_words (set_pmm w pm) x (STACK_PAGES * PAGE_SIZE)).
  destruct (run_write (set_pmm w pm) w1 m g (n - STACK_PAGES) x STACK_PAGES Hrun) as [Hrun1 He1]; [done|done|intros a Ha; apply clear_out; unfold run_page in Ha; lia|].
  destruct (map_or_free w1 m g n r STACK_PAGE x STACK_PAGES Hrun1 Hr ltac:(lia) ltac:(done) Htop) as (z & w2 & g2 & -> & He2 & Hz). cbn [mbind option_bind].
  pose proof (effect_compose _ _ _ _ _ _ _ _ _ (word_effect w (set_pmm w pm) g r (within STACK_PAGE (STACK_PAGE + STACK_PAGES)) eq_refl) (effect_compose _ _ _ _ _ _ _ _ _ (He1 r _) He2)) as He.
  destruct Hz as [(-> & Hi2 & Hm & _)|(-> & pm2 & j & -> & _)]; cbn [negb Z.eqb mbind option_bind].
  - exists 0, w2, g2. split; [done|]. split; [done|]. left. split; [done|]. split; [done|]. by exists x.
  - exists (-3), (set_pmm w2 pm2), g2. split; [done|]. split; [exact (effect_compose _ _ _ _ _ _ _ _ _ He (word_effect w2 (set_pmm w2 pm2) g2 r _ eq_refl))|]. by right; right.
Qed.

Lemma based_load w g w0 g0 c r va : based w g w0 g0 c -> load w0 g0 r va = load w g r va.
Proof using.
  intros Hb. unfold load. rewrite (bs_view _ _ _ _ _ Hb). destruct (view g r (va / PAGE_SIZE)) as [[f kd]|] eqn:Ev; [|done]. f_equal. apply (bs_words _ _ _ _ _ Hb _ f kd _ Ev), page_offset.
Qed.

(** The auxiliary vector of the program, from its lowest address *)
Definition exec_aux (f : efile) (interp : option efile) (segs isegs : list segment) (path : list Z) (phdrs rand : Z) : list Z :=
  let info := image_info f 0 segs path phdrs in rev (auxv (entry_point info) rand (phdr_uaddr info) (phnum info) (phent info) (pl_at_base (plan_of info interp isegs))).

(** The bytes its stack takes *)
Definition exec_need (f : efile) (interp : option efile) (pathname : option (list Z)) (argv envp : option (list (list Z))) (segs isegs : list segment) (path : list Z) (phdrs : Z) : Z :=
  stack_need (arg_strings argv [default_arg0 pathname]) (arg_strings envp default_envp) (exec_aux f interp segs isegs path phdrs 0).

(** A program that can be started: its images, its arguments, and the room for its stack *)
Record exec_ok (f : efile) (interp : option efile) (pathname : option (list Z)) (argv envp : option (list (list Z)))
    (segs isegs : list segment) (path : list Z) (ws : list (Z * Z)) (phdrs : Z) : Prop := mk_eo {
  eo_image : image_ok machine rt f 0 segs path ws phdrs;
  eo_interp : interp_ok interp isegs;
  eo_args : exec_need f interp pathname argv envp segs isegs path phdrs + 7 <= USER_STACK_SIZE;
  eo_top : USER_STACK_TOP <= vm_top;
}.

(** The address space [r] of a program that was started, below and above its stack *)
Definition exec_loads (f : efile) (interp : option efile) (segs isegs : list segment) (ws : list (Z * Z)) : Z -> option Z :=
  with_interp interp isegs (patched (placed f segs (fun _ => None)) ws).

Lemma with_interp_ext interp isegs L L' : (forall va, L va = L' va) -> forall va, with_interp interp isegs L va = with_interp interp isegs L' va.
Proof using. intros H va. unfold with_interp. destruct interp as [f|]; [|apply H]. destruct (0 <? ef_size f); [|apply H]. apply placed_ext. auto. Qed.

Lemma exec_finish_mem slot w m g n r info pl pathname argv envp : mem_inv w m g n -> is_space g r -> USER_STACK_TOP <= vm_top ->
  let av := arg_strings argv [default_arg0 pathname] in let ev := arg_strings envp default_envp in
  let aux := fun rand => rev (auxv (entry_point info) rand (phdr_uaddr info) (phnum info) (phent info) (pl_at_base pl)) in
  stack_need av ev (aux 0) + 7 <= USER_STACK_SIZE ->
  exists res w' g', exec_finish slot w r info pl pathname argv envp = Some (res, w') /\ (forall r', is_space g' r' <-> is_space g r') /\
    (forall r' va, r' <> r -> load w' g' r' va = load w g r' va) /\
    match res with
    | inl rc => rc = -2 \/ rc = -3 \/ rc = -5 /\ slot = false /\ mem_inv w' m g' n
    | inr pr => slot = true /\ mem_inv w' m g' n /\ pr = mk_prog (exec_task r (pr_sp pr) info pl) (pl_entry pl) (pr_sp pr) /\
        (forall va, within_bytes STACK_PAGE (STACK_PAGE + STACK_PAGES) va = false -> load w' g' r va = load w g r va) /\ (forall va, within_bytes STACK_PAGE (STACK_PAGE + STACK_PAGES) va = true -> load w' g' r va <> None) /\
        stack_for (load w' g' r) (pr_sp pr) av ev aux /\ USER_STACK_TOP - stack_need av ev (aux 0) - 7 <= pr_sp pr <= USER_STACK_TOP - stack_need av ev (aux 0)
    end.
Proof using.
  intros Hi Hr Htop av ev aux Hfit. unfold exec_finish. destruct (exec_stack_mem w m g n r Hi Hr Htop) as (rc & w1 & g1 & -> & He1 & Hrc). cbn [mbind option_bind].
  assert (forall w' g', effect w g w' g' r (within STACK_PAGE (STACK_PAGE + STACK_PAGES)) nothing -> (forall r', is_space g' r' <-> is_space g r') /\ (forall r' va, r' <> r -> load w' g' r' va = load w g r' va) /\
    (forall va, within_bytes STACK_PAGE (STACK_PAGE + STACK_PAGES) va = false -> load w' g' r va = load w g r va)) as Heff.
  { intros w' g' He. split; [apply He|]. split; intros; apply (load_effect w g w' g' r (within STACK_PAGE (STACK_PAGE + STACK_PAGES)) nothing); try done; [by left|by intros ? ? _ []|right; by apply within_bytes_out|by intros ? ? _ []]. }
  destruct Hrc as [(-> & Hi1 & x & Hm)|Hrc].
  - change (negb (0 =? 0)) with false. cbv iota. change USER_STACK_TOP with ((STACK_PAGE + STACK_PAGES) * PAGE_SIZE) at 1.
    destruct (setup_stack_mem w1 m g1 n r STACK_PAGE x STACK_PAGES (entry_point info) pathname argv envp (phdr_uaddr info) (phnum info) (phent info) (pl_at_base pl) Hi1) as (sp & w2 & -> & Hi2 & He2 & Hst & Hsp); try done.
    { by apply (ef_space _ _ _ _ _ _ _ He1). }
    cbn [mbind option_bind]. destruct (Heff w2 g1 (effect_compose _ _ _ _ _ _ _ _ _ He1 He2)) as (A & B & C). destruct slot; cbn [negb].
    + eexists (inr _), w2, g1. split; [done|]. split; [done|]. split; [done|]. cbn [pr_sp]. assert (forall va, within_bytes STACK_PAGE (STACK_PAGE + STACK_PAGES) va = true -> load w2 g1 r va <> None); [|auto 10].
      intros va Hva. apply andb_true_iff in Hva as [?%Z.leb_le ?%Z.ltb_lt]. by rewrite (load_run w2 g1 r STACK_PAGE x STACK_PAGES) by done.
    + exists (inl (-5)), w2, g1. split; [done|]. split; [done|]. split; [done|]. auto.
  - assert (negb (rc =? 0) = true) as -> by (destruct Hrc as [-> | ->]; done). destruct (Heff w1 g1 He1) as (A & B & _). exists (inl rc), w1, g1. split; [done|]. split; [done|]. split; [done|].
    destruct Hrc; auto.
Qed.

(** The process [pr] in its new address space: the others there were, its fields, what it loads outside of its stack, its stack *)
Record started (w : kmem) (m : refcounts) (g : ghost) (n : Z) (f : efile) (interp : option efile) (pathname : option (list Z)) (argv envp : option (list (list Z)))
    (segs isegs : list segment) (path : list Z) (ws : list (Z * Z)) (phdrs : Z) (pr : program) (w' : kmem) (g' : ghost) : Prop := mk_st {
  st_mem : mem_inv w' m g' n;
  st_new : ~ is_space g (ut_pgd (pr_task pr));
  st_spaces r : is_space g' r <-> r = ut_pgd (pr_task pr) \/ is_space g r;
  st_task : task_of g' (pr_task pr);
  st_fields : let info := image_info f 0 segs path phdrs in let pl := plan_of info interp isegs in
    pr = mk_prog (exec_task (ut_pgd (pr_task pr)) (pr_sp pr) info pl) (pl_entry pl) (pr_sp pr);
  st_image va : within_bytes STACK_PAGE (STACK_PAGE + STACK_PAGES) va = false -> load w' g' (ut_pgd (pr_task pr)) va = exec_loads f interp segs isegs ws va;
  st_room va : within_bytes STACK_PAGE (STACK_PAGE + STACK_PAGES) va = true -> load w' g' (ut_pgd (pr_task pr)) va <> None;
  st_stack : stack_for (load w' g' (ut_pgd (pr_task pr))) (pr_sp pr) (arg_strings argv [default_arg0 pathname]) (arg_strings envp default_envp) (exec_aux f interp segs isegs path phdrs);
  st_sp : let need := exec_need f interp pathname argv envp segs isegs path phdrs in USER_STACK_TOP - need - 7 <= pr_sp pr <= USER_STACK_TOP - need;
}.

Lemma task_execve_mem slot f interp pathname argv envp segs isegs path ws phdrs w m g n : exec_ok f interp pathname argv envp segs isegs path ws phdrs -> mem_inv w m g n ->
  exists res w' g', task_execve machine rt slot w pathname f interp argv envp = Some (res, w') /\
    (forall r va, is_space g r -> load w' g' r va = load w g r va) /\
    match res with
    | inl rc => rc ∈ [-1; -8; -2; -3] \/ rc = -5 /\ slot = false /\ mem_inv w' m g' n /\ exists r, ~ is_space g r /\ is_space g' r
    | inr pr => started w m g n f interp pathname argv envp segs isegs path ws phdrs pr w' g'
    end.
Proof using.
  intros [Him Hint Hargs Htop] Hi. set (info := image_info f 0 segs path phdrs). set (pl := plan_of info interp isegs). unfold task_execve. destruct (alloc_mem w m g n Hi) as [[-> Hno]|(r & pm & -> & Hx & _ & _ & Hi1 & Hl1)]; cbn [mbind option_bind].
  { exists (inl (-1)), w, g. split; [by destruct w|]. split; [done|]. left. apply list_elem_of_here. }
  rewrite (proj2 (Z.eqb_neq r 0)) by done. destruct (new_space_mem (set_pmm w pm) m g n r Hi1 Hl1) as [Hi0 Hb]. set (w0 := vm_init_pgd _ r) in *. set (g0 := new_space g r) in *.
  assert (is_space g0 r) as Hr0 by (apply (bs_space _ _ _ _ _ Hb); by left). assert (forall r', is_space g r' -> r' <> r) as Hne by (intros r' Hr' ->; by apply (bs_new _ _ _ _ _ Hb)).
  assert (forall r' va, load w0 g0 r' va = load w g r' va) as Hl0 by (intros; by rewrite (based_load (set_pmm w pm) g w0 g0 r)).
  assert (forall va, load w0 g0 r va = None) as Hnone by (intros; unfold load; by rewrite (bs_child _ _ _ _ _ Hb)).
  unfold elf_image_load. destruct (elf_load_mem machine rt f 0 segs path ws phdrs w0 m g0 n r Him Hi0 Hr0) as (res & w1 & g1 & -> & Hs1 & Ho1 & Hres); [intros k x kd Hv; by rewrite (bs_child _ _ _ _ _ Hb) in Hv|]. cbn [mbind option_bind].
  destruct res as [rc|info'].
  { destruct Hres as [-> _]. exists (inl (-8)), w1, g1. split; [done|]. split; [intros; rewrite Ho1 by auto; apply Hl0|]. left. rewrite !elem_of_cons. auto. }
  destruct Hres as (-> & Hi1' & Hp1 & L1). fold info.
  destruct (exec_interp_mem info interp isegs w1 m g1 n r Hint Hi1' (proj2 (Hs1 r) Hr0) Hp1) as (res & w2 & g2 & -> & Hs2 & Ho2 & Hres). cbn [mbind option_bind]. destruct res as [rc|pl'].
  { subst rc. exists (inl (-8)), w2, g2. split; [done|]. split; [intros; rewrite Ho2, Ho1 by auto; apply Hl0|]. left. rewrite !elem_of_cons. auto. }
  destruct Hres as (-> & Hi2 & L2). fold pl.
  destruct (exec_finish_mem slot w2 m g2 n r info pl pathname argv envp Hi2) as (res & w3 & g3 & -> & Hs3 & Ho3 & Hres); [by rewrite Hs2, Hs1|done|exact Hargs|].
  assert (forall r', is_space g3 r' <-> r' = r \/ is_space g r') as Hsp by (intros r'; rewrite Hs3, Hs2, Hs1; apply Hb).
  exists res, w3, g3. split; [done|]. split; [intros; rewrite Ho3, Ho2, Ho1 by auto; apply Hl0|]. destruct res as [rc|pr].
  - destruct Hres as [-> |[-> |(-> & -> & Hi3)]]; [left; rewrite !elem_of_cons; auto|left; rewrite !elem_of_cons; auto|right]. split; [done|]. split; [done|]. split; [done|]. exists r. split; [apply Hb|]. apply Hsp. by left.
  - destruct Hres as (_ & Hi3 & Epr & L3 & Hroom & Hst & Hbnd). assert (ut_pgd (pr_task pr) = r) as Er by (by rewrite Epr). split; rewrite ?Er; try done; [apply Hb| |].
    + rewrite Epr. split; cbn [pr_task exec_task ut_user ut_pgd ut_mmap_base]; [done|apply Hsp; by left|done|]. repeat case_if; lia.
    + intros va Hva. rewrite L3, L2 by done. apply with_interp_ext. intros va'. rewrite L1. apply patched_ext. intros a. apply placed_ext. intros _. apply Hnone.
Qed.

End exec.

(** ** All processes together *)

(** The ends of images and the addresses that follow them *)
Lemma max_bounds (l : list Z) : forall x B, 0 <= x <= B -> Forall (fun e => 0 < e <= B) l -> (l <> [] \/ 0 < x) -> 0 < fold_left Z.max l x <= B.
Proof.
  induction l as [|e l IH]; intros x B Hx Hl Hne; cbn; [destruct Hne as [?|?]; [done|lia]|]. apply Forall_cons in Hl as [He Hl]. apply IH; [lia|done|right; lia].
Qed.

Section steps.
Context {VO : vm_ops} {VL : vm_laws} (vfs_read_to_phys : kmem -> Z -> Z -> Z -> kmem) (file : Z -> Z) (fsize : Z) `{!reads vfs_read_to_phys file fsize} (machine : Z) (rt : reloc_types).

(** A program whose images end below the stack *)
Definition below_stack (segs : list segment) : Prop := Forall (fun s => seg_last s <= STACK_PAGE) segs.

Inductive pstep : kmem * list utask -> kmem * list utask -> Prop :=
  | P_user s s' : ustep vfs_read_to_phys s s' -> pstep s s'
  | P_exec w ts f interp pathname argv envp segs isegs path ws phdrs pr w' : exec_ok machine rt f interp pathname argv envp segs isegs path ws phdrs ->
      segs <> [] -> below_stack segs -> below_stack isegs -> task_execve machine rt true w pathname f interp argv envp = Some (inr pr, w') -> pstep (w, ts) (w', pr_task pr :: ts).

Lemma segment_ends f l : Forall (seg_ok f) l -> below_stack l -> Forall (fun e => 0 < e <= STACK_PAGE * PAGE_SIZE) ((fun s => sg_vaddr s + sg_memsz s) <$> l).
Proof using.
  intros Hok Hl. apply Forall_fmap, Forall_forall. intros s Hs. destruct (proj1 (Forall_forall _ _) Hok s Hs) as [Hv Hp Ht _ _]. pose proof (proj1 (Forall_forall _ _) Hl s Hs) as Hl'. cbn in Hl'.
  cbn. pose proof (pages_of_bounds (sg_vaddr s + sg_memsz s)). fold (seg_last s) in *. assert (0 <= seg_first s) by (apply Z.div_pos; lia). lia.
Qed.
Lemma align_below x B : 0 <= x <= B * PAGE_SIZE -> B * PAGE_SIZE <= U64_MOD - PAGE_SIZE -> ALIGN_UP x PAGE_SIZE = pages_of x * PAGE_SIZE /\ x <= pages_of x * PAGE_SIZE <= B * PAGE_SIZE.
Proof using.
  intros Hx HB. pose proof (pages_of_bounds x). split; [|nia]. rewrite ALIGN_UP_page by lia. done.
Qed.

(** The ends of a program: of its image, of all that is loaded, of the interpreter *)
Lemma exec_ends f interp pathname argv envp segs isegs path ws phdrs : exec_ok machine rt f interp pathname argv envp segs isegs path ws phdrs -> segs <> [] -> below_stack segs -> below_stack isegs ->
  let info := image_info f 0 segs path phdrs in let pl := plan_of info interp isegs in let B := STACK_PAGE * PAGE_SIZE in
  0 < max_vaddr info <= B /\ 0 < pl_loaded_end pl <= B /\ 0 <= pl_interp_end pl <= B.
Proof using.
  intros [Him Hint _ Htop] Hne Hb Hib info pl B.
  assert (0 < max_vaddr info <= B) as Hmax by (apply max_bounds; [unfold B; lia|by apply (segment_ends f); [apply Him|]|left; by destruct segs]).
  split; [done|]. unfold pl, plan_of, interp_ok in *. destruct interp as [fi|]; [|split; [done|cbn; unfold B; lia]]. destruct (Z.ltb_spec 0 (ef_size fi)) as [Hf|]; [|split; [done|cbn; unfold B; lia]].
  destruct (Hint Hf) as [phi Hi2]. cbn [pl_loaded_end pl_interp_end]. assert (0 <= max_vaddr (image_info fi USER_INTERP_BASE isegs [] 0) <= B) as Hi.
  { cbn [max_vaddr image_info]. destruct isegs as [|s l]; [cbn; unfold B; lia|]. pose proof (max_bounds ((fun s => sg_vaddr s + sg_memsz s) <$> s :: l) 0 B ltac:(unfold B; lia)) as H. destruct H; [by apply (segment_ends fi); [apply Hi2|]|by left|lia]. }
  destruct (align_below (max_vaddr (image_info fi USER_INTERP_BASE isegs [] 0)) STACK_PAGE Hi ltac:(lia)) as [-> ?]. unfold B in *. lia.
Qed.

(** The fields of the new process are those of a process: its heap and its mmap area start above its images and below its stack. *)
Lemma started_proc w m g n f interp pathname argv envp segs isegs path ws phdrs pr w' g' : exec_ok machine rt f interp pathname argv envp segs isegs path ws phdrs ->
  segs <> [] -> below_stack segs -> below_stack isegs -> started w m g n f interp pathname argv envp segs isegs path ws phdrs pr w' g' -> proc_ok g' (pr_task pr).
Proof using.
  intros Hex Hne Hb Hib Hst. destruct (exec_ends _ _ _ _ _ _ _ _ _ _ Hex Hne Hb Hib) as (Hmax & Hend & _). pose proof (eo_top _ _ _ _ _ _ _ _ _ _ _ _ Hex) as Htop.
  split; [apply Hst| |]; rewrite (st_fields _ _ _ _ _ _ _ _ _ _ _ _ _ _ _ _ _ Hst); cbn [pr_task exec_task ut_heap_end ut_mmap_next].
  - destruct (align_below (max_vaddr (image_info f 0 segs path phdrs)) STACK_PAGE ltac:(lia) ltac:(lia)) as [-> ?]. unfold pages_of at 2. rewrite up_pages. lia.
  - destruct (align_below _ STACK_PAGE (conj (Z.lt_le_incl _ _ (proj1 Hend)) (proj2 Hend)) ltac:(lia)) as [-> ?]. repeat case_if; lia.
Qed.

Context (Htop : STACK_PAGE * PAGE_SIZE <= vm_top) (Hbig : vm_top <= 2 ^ 47).

Lemma exec_step n w ts f interp pathname argv envp segs isegs path ws phdrs pr w' : sys_inv n (w, ts) -> exec_ok machine rt f interp pathname argv envp segs isegs path ws phdrs ->
  segs <> [] -> below_stack segs -> below_stack isegs -> task_execve machine rt true w pathname f interp argv envp = Some (inr pr, w') -> sys_inv n (w', pr_task pr :: ts).
Proof using VL.
  intros (m & g & Hi & Hok) Hex Hne Hb Hib E. cbn [fst snd] in *. destruct (task_execve_mem machine rt true f interp pathname argv envp segs isegs path ws phdrs w m g n Hex Hi) as (res & w1 & g' & E' & _ & Hres).
  rewrite E in E'. injection E' as <- <-. exists m, g'. split; [apply Hres|]. apply (tasks_new g); [done|apply Hres|apply Hres| |by apply (started_proc w m g n f interp pathname argv envp segs isegs path ws phdrs pr w')].
  pose proof (st_fields _ _ _ _ _ _ _ _ _ _ _ _ _ _ _ _ _ Hres) as Ef. by rewrite Ef.
Qed.

End steps.

(** ** What the code does beside its comments *)

(** A process is given its stack pointer as the end of its stack, and fork copies up to there: with arguments of a page or more the child of a
    new program has no top page of the stack, where the strings of its environment are. *)
Lemma fork_drops_arguments `{!vm_ops} `{!vm_laws} machine rt w m g n f interp pathname argv envp segs isegs path ws phdrs pr w1 g1 child w2 va :
  exec_ok machine rt f interp pathname argv envp segs isegs path ws phdrs -> segs <> [] -> below_stack segs -> below_stack isegs ->
  started w m g n f interp pathname argv envp segs isegs path ws phdrs pr w1 g1 -> count_room g1 -> Forall range_ok (fork_ranges (pr_task pr)) ->
  PAGE_SIZE <= exec_need f interp pathname argv envp segs isegs path phdrs -> USER_STACK_TOP - PAGE_SIZE <= va < USER_STACK_TOP ->
  fork_space w1 (pr_task pr) = Some (Some child, w2) -> load w1 g1 (ut_pgd (pr_task pr)) va <> None /\ exists g2, is_space g2 child /\ load w2 g2 child va = None.
Proof.
  intros Hex Hne Hb Hib Hst Hroom Hl Hneed Hva E. pose proof (eo_top _ _ _ _ _ _ _ _ _ _ _ _ Hex) as Htop. split.
  { apply (st_room _ _ _ _ _ _ _ _ _ _ _ _ _ _ _ _ _ Hst). apply andb_true_iff. split; [apply Z.leb_le; lia|apply Z.ltb_lt; lia]. }
  destruct (fork_space_correct w1 m g1 n (pr_task pr) (st_mem _ _ _ _ _ _ _ _ _ _ _ _ _ _ _ _ _ Hst) (st_task _ _ _ _ _ _ _ _ _ _ _ _ _ _ _ _ _ Hst) Hl Hroom ltac:(lia)) as (res & w' & m' & g2 & E' & _ & Hres).
  rewrite E in E'. injection E' as <- <-. destruct Hres as (_ & _ & _ & (Hsp & _) & _ & Ho). exists g2. split; [apply Hsp; by left|]. unfold load. rewrite Ho; [done|].
  destruct (exec_ends machine rt _ _ _ _ _ _ _ _ _ _ Hex Hne Hb Hib) as (Hmax & Hend & Hint). pose proof (st_sp _ _ _ _ _ _ _ _ _ _ _ _ _ _ _ _ _ Hst) as Hsp'. cbv zeta in *.
  assert (va / PAGE_SIZE = STACK_PAGE + 255) as -> by (symmetry; apply (Z.div_unique va PAGE_SIZE _ (va - (STACK_PAGE + 255) * PAGE_SIZE)); lia).
  rewrite (st_fields _ _ _ _ _ _ _ _ _ _ _ _ _ _ _ _ _ Hst). unfold fork_ranges, in_any. cbn [pr_task exec_task ut_heap_end ut_mmap_base ut_mmap_next ut_stack_top ut_stack_size ut_interp_end].
  rewrite Z.ltb_irrefl. cbn [app]. rewrite !Exists_cons. unfold in_pages, within. cbn [fst snd].
  destruct (align_below (max_vaddr (image_info f 0 segs path phdrs)) STACK_PAGE ltac:(lia) ltac:(lia)) as [-> ?]. pose proof (pages_of_bounds (pr_sp pr)).
  unfold pages_of at 1. rewrite up_pages. intros [?|[?|Hx]]; [lia|lia|]. destruct (USER_INTERP_BASE <? _); [|by apply Exists_nil in Hx]. apply Exists_cons in Hx as [[_ Hx]|Hx%Exists_nil]; [|done]. cbn [fst snd] in Hx.
  pose proof (pages_of_bounds (pl_interp_end (plan_of (image_info f 0 segs path phdrs) interp isegs))). lia.
Qed.

(** ** A program over Sv39 *)

#[local] Existing Instance demo_ops.
#[local] Existing Instance demo_laws.
#[local] Existing Instance demo_reads.

Lemma demo_exec : exec_ok 243 riscv_types demo_elf None None None None demo_segs [] [] demo_writes 65600.
Proof. split; [exact demo_image|exact I|vm_compute; discriminate|change (USER_STACK_TOP <= 2 ^ 38); lia]. Qed.




(** The stack pointer is aligned to 8 bytes only: with the arguments a, b and c it is odd by 8, while the ABIs of the three architectures ask for 16. *)
Lemma stack_aligned_by_8 : exists w sp w', elf_setup_stack w 1048576 69632 65600 None (Some [[97]; [98]; [99]]) None 65600 2 56 0 = Some (Some sp, w') /\ sp mod 16 = 8.
Proof.
  assert ((fun x : option Z * kmem => match fst x with Some sp => sp mod 16 | None => -1 end) <$> ('(_, w) ← elf_load_segment demo_elf demo_world 1048576 (mk_seg 65536 0 4096 0); elf_setup_stack w 1048576 69632 65600 None (Some [[97]; [98]; [99]]) None 65600 2 56 0) = Some 8) as E by (vm_compute; reflexivity).
  destruct (elf_load_segment demo_elf demo_world 1048576 (mk_seg 65536 0 4096 0)) as [[rc w]|]; [|discriminate]. cbn [mbind option_bind] in E. exists w.
  destruct (elf_setup_stack w 1048576 69632 65600 None (Some [[97]; [98]; [99]]) None 65600 2 56 0) as [[[sp|] w']|]; [|discriminate|discriminate]. exists sp, w'. split; [done|]. cbn in E. by injection E.
Qed.
