(* ===== verification/X86.v ===== *)
(** * Four-level address spaces of x86_64: kernel/mm/x86_64/vmm.c

    The entries of include/x86_64/mmu.h as an instance of [pt_format] and the operations
    of the file.  The upper half of the root, [PML4[256..511]], points to tables of the
    kernel that all address spaces share: it is outside the tree an address space owns.
    [invlpg] has no model.  [mm_vm_copy_user_space] is not modelled: fork copies page by
    page through these operations. *)

From stdpp Require Import options.
From Stdlib Require Import Lia.
From S2P Require Import Prelude Bitmap Pmm SharedPage PhysMem PageTable Teardown.

(** ** Entries *)

Abbreviation PTE_PRESENT := 1.
Abbreviation PTE_WRITABLE := 2.
Abbreviation PTE_USER := 4.
Abbreviation PTE_PWT := 8.
Abbreviation PTE_PCD := 16.
Abbreviation PTE_ACCESSED := 32.
Abbreviation PTE_DIRTY := 64.
Abbreviation PTE_HUGE := 128.
Abbreviation PTE_GLOBAL := 256.
Abbreviation PTE_NOFREE := 512.
Abbreviation PTE_KEEP := 1024.
Abbreviation PTE_NX := 9223372036854775808.
Abbreviation PTE_ADDR_MASK := 4503599627366400.
Abbreviation X86_PML4_KERNEL_START := 256.
Abbreviation X86_PML4_ENTRIES := 512.

Definition x86_pte_to_pa (pte : Z) : Z := Z.land pte PTE_ADDR_MASK.
Definition x86_make_table_pte (pa : Z) : Z :=
  Z.lor (Z.lor (Z.lor (Z.land pa PTE_ADDR_MASK) PTE_PRESENT) PTE_WRITABLE) PTE_USER.
Definition x86_pte_is_leaf (pte : Z) (level : Z) : bool :=
  if (0 <? level) && negb (Z.land pte PTE_HUGE =? 0) then true
  else if level =? 0 then negb (Z.land pte PTE_PRESENT =? 0)
  else false.
Definition x86_present (pte : Z) : bool := negb (Z.land pte PTE_PRESENT =? 0).

(** The walk asks [x86_pte_is_leaf] at levels 3, 2 and 1 only, where the answer is that of level 1. *)
#[global] Instance x86_pt : pt_format := {|
  pte_valid := x86_present;
  pte_stop := fun e => x86_pte_is_leaf e 1;
  pte_pa := x86_pte_to_pa;
  pte_table := x86_make_table_pte;
  pt_upper := 3;
  pt_entry_first := false;
  pt_user_roots := X86_PML4_KERNEL_START;
|}.

Lemma x86_leaf_levels e level : 0 < level -> x86_pte_is_leaf e level = x86_pte_is_leaf e 1.
Proof.
  intros. unfold x86_pte_is_leaf. rewrite (proj2 (Z.ltb_lt 0 level)), (proj2 (Z.eqb_neq level 0)) by lia. done.
Qed.

(** ** Operations *)

Module X86.

Definition GET_PML4_INDEX (va : Z) : Z := pt_index va 3.
Definition GET_PDPT_INDEX (va : Z) : Z := pt_index va 2.
Definition GET_PD_INDEX (va : Z) : Z := pt_index va 1.
Definition GET_PT_INDEX (va : Z) : Z := pt_index va 0.

Definition x86_walk_pt (w : kmem) (page_dir vaddr : Z) (alloc : bool) : option (option Z * kmem) :=
  let pml4 := page_dir in
  let idx_pml4 := GET_PML4_INDEX vaddr in
  let idx_pdpt := GET_PDPT_INDEX vaddr in
  let idx_pd := GET_PD_INDEX vaddr in
  let idx_pt := GET_PT_INDEX vaddr in
  '(pdpt, w) ← walk_level alloc w (pml4 + 8 * idx_pml4);
  match pdpt with
  | None => Some (None, w)
  | Some pdpt =>
      '(pd, w) ← walk_level alloc w (pdpt + 8 * idx_pdpt);
      match pd with
      | None => Some (None, w)
      | Some pd =>
          '(pt, w) ← walk_level alloc w (pd + 8 * idx_pd);
          match pt with
          | None => Some (None, w)
          | Some pt => Some (Some (pt + 8 * idx_pt), w)
          end
      end
  end.

Definition x86_perm_to_flags (perm : vm_perm_t) : Z :=
  match perm with
  | VM_PERM_KERNEL =>
      Z.lor PTE_PRESENT (Z.lor PTE_WRITABLE (Z.lor PTE_GLOBAL (Z.lor PTE_NX (Z.lor PTE_ACCESSED PTE_DIRTY))))
  | VM_PERM_KERNEL_MMIO =>
      Z.lor PTE_PRESENT (Z.lor PTE_WRITABLE (Z.lor PTE_PCD (Z.lor PTE_PWT (Z.lor PTE_NX (Z.lor PTE_ACCESSED PTE_DIRTY)))))
  | VM_PERM_USER => Z.lor PTE_PRESENT (Z.lor PTE_WRITABLE (Z.lor PTE_USER (Z.lor PTE_ACCESSED PTE_DIRTY)))
  end.

Definition mm_vm_map_pages (w : kmem) (page_dir vaddr paddr count : Z) (perm : vm_perm_t) : option (Z * kmem) :=
  let flags := x86_perm_to_flags perm in
  map_loop (fun w va => x86_walk_pt w page_dir va true) (fun _ pa => Z.lor (Z.land pa PTE_ADDR_MASK) flags)
    w vaddr paddr (Z.to_nat count).

Definition mm_vm_get_paddr (w : kmem) (page_dir vaddr : Z) : option Z :=
  '(pte, w) ← x86_walk_pt w page_dir vaddr false;
  match pte with
  | None => Some 0
  | Some pte =>
      if negb (x86_present (km_word w pte)) then Some 0
      else Some (u64 (x86_pte_to_pa (km_word w pte) + Z.land vaddr 4095))
  end.

Definition x86_keep (e : Z) : bool := negb (Z.land e PTE_KEEP =? 0).
Definition x86_nofree (e : Z) : bool := negb (Z.land e PTE_NOFREE =? 0).

Definition mm_vm_unmap_page (w : kmem) (pgd vaddr : Z) : option (Z * kmem) :=
  unmap_entry (fun w => x86_walk_pt w pgd vaddr false) (fun _ => true) x86_keep x86_nofree w.

Definition mm_vm_set_pte_keep (w : kmem) (pgd vaddr : Z) : option kmem :=
  '(pte, w) ← x86_walk_pt w pgd vaddr false;
  match pte with
  | None => Some w
  | Some pte => Some (store w pte (Z.lor (km_word w pte) PTE_KEEP))
  end.

(** [x86_destroy_table]; the level of the code is the level here plus one.  At the root
    no entry is taken for a large page. *)
Definition x86_teardown : teardown :=
  mk_teardown x86_present
    (fun n e => (n =? 0)%nat || ((n <? 3)%nat && negb (Z.land e PTE_HUGE =? 0)))
    (fun _ => x86_keep) (fun _ => x86_nofree).

Definition x86_destroy_table (w : kmem) (table level : Z) : option kmem :=
  destroy_table x86_teardown (Z.to_nat (level - 1)) w table.

Definition destroy_root_entry (pml4 : Z) (w : kmem) (i : Z) : option kmem :=
  let slot := pml4 + 8 * i in
  let pte := km_word w slot in
  if negb (x86_present pte) then Some w
  else
    let child_pa := x86_pte_to_pa pte in
    w ← x86_destroy_table w child_pa 3;
    '(_, pm) ← pmm_free_pages (km_pmm w) child_pa 1;
    Some (store (set_pmm w pm) slot 0).

Definition mm_vm_destroy_user_space (w : kmem) (pgd_phys : Z) : option kmem :=
  if pgd_phys =? 0 then Some w
  else
    w ← ofold (destroy_root_entry pgd_phys) w (seqZ 0 X86_PML4_KERNEL_START);
    '(_, pm) ← pmm_free_pages (km_pmm w) pgd_phys 1;
    Some (set_pmm w pm).

Definition x86_copy_kernel_mappings (w : kmem) (user_pml4 kernel_pml4 : Z) : kmem :=
  for_range X86_PML4_KERNEL_START X86_PML4_ENTRIES
    (fun w i => store w (user_pml4 + 8 * i) (km_word w (kernel_pml4 + 8 * i))) w.

Definition mm_vm_init_user_pgd (g_kernel_pgd_phys : Z) (w : kmem) (pgd : Z) : kmem :=
  if g_kernel_pgd_phys =? 0 then w else x86_copy_kernel_mappings w pgd g_kernel_pgd_phys.

(** ** The format's laws *)

Lemma x86_land_entry pa f m : Z.land PTE_ADDR_MASK m = 0 -> Z.land (Z.lor (Z.land pa PTE_ADDR_MASK) f) m = Z.land f m.
Proof. intros Hm. rewrite Z.land_lor_distr_l, <-Z.land_assoc, Hm, Z.land_0_r. done. Qed.

Lemma x86_entry_pa pa f :
  Z.land f PTE_ADDR_MASK = 0 -> 0 <= pa < 2 ^ 52 -> pa mod PAGE_SIZE = 0 ->
  x86_pte_to_pa (Z.lor (Z.land pa PTE_ADDR_MASK) f) = pa.
Proof.
  intros Hf Hpa Hal. unfold x86_pte_to_pa. rewrite Z.land_lor_distr_l, Hf, Z.lor_0_r, <-Z.land_assoc, Z.land_diag.
  change PTE_ADDR_MASK with (Z.land (2 ^ 52 - 1) (Z.lnot (PAGE_SIZE - 1))). rewrite Z.land_assoc, land_pred_pow2 by lia.
  rewrite (Z.mod_small pa) by lia. rewrite land_lnot_page. pose proof (Z_div_mod_eq_full pa PAGE_SIZE). lia.
Qed.

Lemma x86_table_entry pa : x86_make_table_pte pa = Z.lor (Z.land pa PTE_ADDR_MASK) 7.
Proof. unfold x86_make_table_pte. by rewrite <-!Z.lor_assoc. Qed.

#[global] Instance x86_laws : @pt_laws x86_pt.
Proof.
  split; cbn [pte_valid pte_stop pte_pa pte_table pt_upper pt_user_roots x86_pt].
  - done.
  - intros pa. unfold x86_present. rewrite x86_table_entry, x86_land_entry by reflexivity. reflexivity.
  - intros pa _ _. unfold x86_pte_is_leaf. rewrite x86_table_entry, x86_land_entry by reflexivity. reflexivity.
  - intros pa Hpa Hal. rewrite x86_table_entry. apply x86_entry_pa; [reflexivity|lia|exact Hal].
  - lia.
  - lia.
Qed.

Lemma x86_pa_range e : 0 <= x86_pte_to_pa e < U64_MOD.
Proof.
  unfold x86_pte_to_pa. rewrite Z.land_comm. pose proof (land_range 52 PTE_ADDR_MASK e ltac:(lia) ltac:(lia)). lia.
Qed.

Lemma x86_flags_entry perm pa :
  let e := Z.lor (Z.land pa PTE_ADDR_MASK) (x86_perm_to_flags perm) in
  x86_present e = true /\ x86_keep e = false /\ x86_nofree e = false /\
  (0 <= pa < 2 ^ 52 -> pa mod PAGE_SIZE = 0 -> x86_pte_to_pa e = pa).
Proof.
  intros e. unfold e, x86_present, x86_keep, x86_nofree. rewrite !x86_land_entry by reflexivity.
  split_and!; [by destruct perm..|]. intros. apply x86_entry_pa; [by destruct perm|done|done].
Qed.

Lemma x86_walk_eq w pgd va alloc : x86_walk_pt w pgd va alloc = walk_pt alloc w pgd va.
Proof.
  unfold x86_walk_pt, walk_pt, upper_path. cbn [pt_upper x86_pt seq rev app fmap list_fmap walk_tables].
  unfold GET_PML4_INDEX, GET_PDPT_INDEX, GET_PD_INDEX, GET_PT_INDEX.
  destruct (walk_level alloc w _) as [[[l2|] w1]|]; [|done|done]. cbn [mbind option_bind].
  destruct (walk_level alloc w1 _) as [[[l1|] w2]|]; [|done|done]. cbn [mbind option_bind].
  destruct (walk_level alloc w2 _) as [[[l0|] w3]|]; done.
Qed.

Lemma x86_get_paddr w root G va :
  pt_inv w root G -> 0 <= va < 2 ^ 47 ->
  mm_vm_get_paddr w root va =
    Some (if x86_present (flat w G va) then u64 (x86_pte_to_pa (flat w G va) + va mod PAGE_SIZE) else 0).
Proof.
  intros Hinv Hva. unfold mm_vm_get_paddr. rewrite x86_walk_eq, (walk_pt_read w root G Hinv) by (by apply user_range).
  cbn [mbind option_bind]. unfold flat. destruct (G !! upper_path va) as [t|]; [|done]. cbn [option_map].
  change 4095 with (PAGE_SIZE - 1). rewrite land_page_mask. by destruct (x86_present _).
Qed.

(** ** Theorems *)

(** Mapping [count] pages at [va] in a four-level address space: the call returns; 0
    says that every page of the range translates to its frame; -1 that a page was
    mapped already, memory ran out, or a large page is in the way, with the pages
    before it mapped.  Every other user address translates as before, and the tables
    stay a tree that shares no page with what is free or mapped. *)
Theorem x86_map_pages_correct w root G va pa count perm :
  pt_inv w root G -> va mod PAGE_SIZE = 0 -> pa mod PAGE_SIZE = 0 -> 0 <= count < 2 ^ 31 ->
  0 <= va -> va + count * PAGE_SIZE <= 2 ^ 47 -> 0 <= pa -> pa + count * PAGE_SIZE <= 2 ^ 52 ->
  targets_ok w G pa count ->
  exists r w' G' k, mm_vm_map_pages w root va pa count perm = Some (r, w') /\ pt_inv w' root G' /\ 0 <= k <= count /\
    ((r = 0 /\ k = count) \/ (r = -1 /\ k < count /\ map_stops w' G' (flat w G (va + k * PAGE_SIZE)) (va + k * PAGE_SIZE))) /\
    (forall j off, 0 <= j < k -> 0 <= off < PAGE_SIZE ->
       mm_vm_get_paddr w' root (va + j * PAGE_SIZE + off) = Some (pa + j * PAGE_SIZE + off)) /\
    (forall va', 0 <= va' < 2 ^ 47 -> in_pages va k va' = false -> mm_vm_get_paddr w' root va' = mm_vm_get_paddr w root va').
Proof.
  intros Hinv Hva Hpa Hcount Hva0 Htop Hpa0 Hptop Htgt.
  set (mk := fun (_ : Z) pa => Z.lor (Z.land pa PTE_ADDR_MASK) (x86_perm_to_flags perm)).
  destruct (map_loop_spec mk root (Z.to_nat count) w G va pa) as (r & w' & G' & k & E & Hinv' & Hm);
    [done|done|rewrite Z2Nat.id by lia; done|done|lia| |].
  { intros old j Hj. rewrite u64_id by lia. unfold mappable, mk.
    destruct (x86_flags_entry perm (pa + j * PAGE_SIZE)) as (_ & _ & _ & Ep). cbn [pte_pa x86_pt].
    rewrite Ep by (try lia; by rewrite Z_mod_plus_full). apply Htgt. lia. }
  rewrite Z2Nat.id in Hm by lia. exists r, w', G', k. split.
  { unfold mm_vm_map_pages. rewrite <-E. apply map_loop_ext. intros. apply x86_walk_eq. }
  split; [done|]. split; [apply Hm|]. split; [apply Hm|]. pose proof (ma_k _ _ _ _ _ _ _ _ _ _ Hm) as Hk. split.
  - intros j off Hj Hoff. destruct (page_of va j off Hva Hoff) as [Ed Em]. assert (0 <= va + j * PAGE_SIZE + off < 2 ^ 47) as Hr by lia.
    rewrite (x86_get_paddr w' root G') by done. rewrite (ma_flat _ _ _ _ _ _ _ _ _ _ Hm) by done.
    unfold in_pages. rewrite Ed, Em, (proj2 (in_range_spec _ _ _)) by lia. unfold mk.
    destruct (x86_flags_entry perm (u64 (pa + (va / PAGE_SIZE + j - va / PAGE_SIZE) * PAGE_SIZE))) as (-> & _ & _ & Ep).
    replace (va / PAGE_SIZE + j - va / PAGE_SIZE) with j in * by lia. rewrite (u64_id (pa + j * PAGE_SIZE)) in * by lia.
    rewrite Ep by (try lia; by rewrite Z_mod_plus_full). by rewrite u64_id by lia.
  - intros va' Hva' Hout. rewrite (x86_get_paddr w' root G'), (x86_get_paddr w root G) by done.
    rewrite (ma_flat _ _ _ _ _ _ _ _ _ _ Hm) by done. by rewrite Hout.
Qed.

Lemma x86_destroy_root_eq root w i : destroy_root_entry root w i = destroy_entry x86_teardown 3 root w i.
Proof. unfold destroy_root_entry, destroy_entry. cbn. by destruct (x86_present _). Qed.

(** Destroying a four-level address space gives back every table of the user half,
    the root and every private page, once each; a shared page loses one reference per
    mapping, a device buffer stays with its owner, nothing else becomes free, and the
    kernel's tables in the upper half are not touched. *)
Theorem x86_destroy_user_space_correct w m root G :
  pt_inv w root G -> sp_rep (km_shared w) m -> 0 < root < U64_MOD ->
  regular x86_teardown w G -> private_sole x86_teardown w G -> space_owned x86_teardown w G ->
  exists w', mm_vm_destroy_user_space w root = Some w' /\
    run_releases (kst w) (space_events x86_teardown w root) = Some (kst w') /\ space_freed x86_teardown w G (kst w').
Proof.
  intros Hinv Hrep Hroot Hreg Hps Hown.
  assert (leaf_valid x86_teardown w G) as Hval by (intros q k e (u & _ & _ & _ & _ & Hv); exact Hv).
  assert (covers x86_teardown w G) as Hcov by (intros p t i _ _ Hv; exact Hv).
  destruct (destroy_space_spec x86_teardown w root G Hinv Hreg Hval Hps Hcov m Hrep Hown x86_pa_range ltac:(lia)) as (w' & E & H).
  exists w'. split; [|done]. rewrite <-E. unfold mm_vm_destroy_user_space, destroy_space.
  rewrite (proj2 (Z.eqb_neq root 0)) by lia. cbn [pt_upper pt_user_roots x86_pt].
  by rewrite (ofold_ext _ _ w _ (fun s x => x86_destroy_root_eq root s x)).
Qed.

(** ** An empty address space, for the examples *)

Definition x86_demo : kmem := mk_kmem demo_pmm shared_pages_boot (fun _ => 0).

Lemma x86_demo_inv : pt_inv x86_demo 1048576 {[ [] := 1048576 ]}.
Proof.
  apply pt_inv_fresh; [apply demo_pmm_inv|vm_compute; discriminate|done|apply demo_taken; lia|done].
Qed.

Lemma x86_map_pages_correct_witness :
  exists r w' G' k, mm_vm_map_pages x86_demo 1048576 65536 1052672 2 VM_PERM_USER = Some (r, w') /\
    pt_inv w' 1048576 G' /\ 0 <= k <= 2.
Proof.
  destruct (x86_map_pages_correct x86_demo 1048576 {[ [] := 1048576 ]} 65536 1052672 2 VM_PERM_USER x86_demo_inv)
    as (r & w' & G' & k & E & Hinv & Hk & _); [done|done|lia|lia|lia|lia|lia| |].
  - intros k Hk. split; [apply demo_taken; lia|]. intros q [_ E]%lookup_singleton_Some. lia.
  - exists r, w', G', k. split; [exact E|]. split; [exact Hinv|exact Hk].
Defined.

Lemma x86_destroy_user_space_correct_witness :
  exists w', mm_vm_destroy_user_space x86_demo 1048576 = Some w' /\ free_at (km_pmm w') 1048576.
Proof.
  destruct (x86_destroy_user_space_correct x86_demo ∅ 1048576 {[ [] := 1048576 ]} x86_demo_inv) as (w' & E & _ & Hsf);
    [reflexivity|lia| | | |].
  - intros p t i _ _ e Hv. discriminate Hv.
  - intros q k e q' k' e' (u & _ & _ & _ & -> & Hv). discriminate Hv.
  - split.
    + intros p t [<- <-]%lookup_singleton_Some. apply demo_owned. constructor.
    + intros q k e (u & _ & _ & _ & -> & Hv). discriminate Hv.
  - exists w'. split; [exact E|]. apply (sf_tables _ _ _ _ Hsf []). apply lookup_singleton_eq.
Defined.
End X86.
