(* ===== verification/Aarch64.v ===== *)
(** * Four-level address spaces of AArch64: kernel/mm/aarch64/vmm.c

    Entries are the bit fields of the union [pte_t] of include/aarch64/mmu.h.  The user
    tables hold no kernel mappings (TTBR0/TTBR1), and the destruction looks at the first
    root entry only ([PAGE_TABLE_MAX_ENTRIES_L0]), so the tree an address space owns is
    the one below that entry.  The functions of the file that only the unit tests call
    ([memory_alloc_page], [create_uvm], [destory_4level], [memory_copy_uvm_4level]) and
    the TLB instructions are not modelled. *)

From stdpp Require Import options.
From Stdlib Require Import Lia.
From S2P Require Import Prelude Bitmap Pmm SharedPage PhysMem PageTable Teardown.

(** ** Bit fields *)

Definition get_field (e off width : Z) : Z := Z.land (Z.shiftr e off) (Z.ones width).
Definition set_field (e off width v : Z) : Z :=
  Z.lor (Z.land e (Z.lnot (Z.shiftl (Z.ones width) off))) (Z.shiftl (Z.land v (Z.ones width)) off).

Lemma get_field_bits e off width k :
  0 <= off -> 0 <= width -> 0 <= k -> Z.testbit (get_field e off width) k = (k <? width) && Z.testbit e (k + off).
Proof.
  intros. unfold get_field. rewrite Z.land_spec, Z.shiftr_spec by done. rewrite Z.testbit_ones by done.
  rewrite (proj2 (Z.leb_le 0 k)) by done. apply andb_comm.
Qed.

Lemma set_field_bits e off width v k :
  0 <= off -> 0 <= width -> 0 <= k ->
  Z.testbit (set_field e off width v) k =
    if (off <=? k) && (k <? off + width) then Z.testbit v (k - off) else Z.testbit e k.
Proof.
  intros. unfold set_field. rewrite Z.lor_spec, Z.land_spec, Z.lnot_spec by done.
  rewrite !Z.shiftl_spec by done. destruct (Z.leb_spec off k).
  - rewrite Z.land_spec, !Z.testbit_ones by done. rewrite (proj2 (Z.leb_le 0 (k - off))) by lia.
    replace (k - off <? width) with (k <? off + width) by lia. destruct (k <? off + width); cbn; [|by rewrite andb_true_r, andb_false_r, orb_false_r].
    by rewrite andb_false_r, andb_true_r.
  - rewrite !(Z.testbit_neg_r _ (k - off)) by lia. cbn. by rewrite andb_true_r, orb_false_r.
Qed.

Lemma get_set_same e off width v : 0 <= off -> 0 <= width -> get_field (set_field e off width v) off width = Z.land v (Z.ones width).
Proof.
  intros. apply Z.bits_inj'. intros k Hk. rewrite get_field_bits, set_field_bits by lia.
  rewrite Z.land_spec, Z.testbit_ones by done. rewrite (proj2 (Z.leb_le 0 k)) by done.
  destruct (Z.ltb_spec k width); cbn; [|by rewrite andb_false_r].
  rewrite (proj2 (Z.leb_le off (k + off))), (proj2 (Z.ltb_lt (k + off) _)) by lia. cbn. rewrite andb_true_r. f_equal. lia.
Qed.

Lemma get_set_other e off width v off' width' :
  0 <= off -> 0 <= width -> 0 <= off' -> 0 <= width' -> off + width <= off' \/ off' + width' <= off ->
  get_field (set_field e off width v) off' width' = get_field e off' width'.
Proof.
  intros. apply Z.bits_inj'. intros k Hk. rewrite !get_field_bits, set_field_bits by lia.
  destruct (Z.ltb_spec k width'); cbn; [|done].
  destruct (Z.leb_spec off (k + off')), (Z.ltb_spec (k + off') (off + width)); cbn; try done. lia.
Qed.

(** ** Entries *)

(** The fields of [table] and [l3_page]. *)
Definition is_valid (e : Z) : Z := get_field e 0 1.
Definition is_table (e : Z) : Z := get_field e 1 1.
Definition pfn (e : Z) : Z := get_field e 12 36.
Definition next_table_addr (e : Z) : Z := get_field e 12 36.

Abbreviation A64_PTE_NOFREE := 36028797018963968.
Abbreviation A64_PTE_KEEP := 72057594037927936.
Abbreviation DEVICE_MEM_START := 134217728.
Abbreviation DEVICE_MEM_END := 167772160.
Abbreviation AARCH64_KERNEL_VMA_OFF := 18446462598732840960.

Definition a64_valid (e : Z) : bool := negb (is_valid e =? 0).
Definition a64_table_bit (e : Z) : bool := negb (is_table e =? 0).
Definition a64_pa (e : Z) : Z := Z.shiftl (pfn e) 12.
Definition a64_table_pte (pa : Z) : Z := Z.lor (Z.shiftl (Z.shiftr pa 12) 12) 3.

#[global] Instance a64_pt : pt_format := {|
  pte_valid := a64_valid;
  pte_stop := fun _ => false;
  pte_pa := a64_pa;
  pte_table := a64_table_pte;
  pt_upper := 3;
  pt_entry_first := true;
  pt_user_roots := 1;
|}.

Module A64.

(** ** Operations *)

Definition find_pte (w : kmem) (page_dir vaddr : Z) (alloc : bool) : option (option Z * kmem) :=
  '(pud, w) ← walk_level alloc w (page_dir + 8 * pt_index vaddr 3);
  match pud with
  | None => Some (None, w)
  | Some pud =>
      '(pmd, w) ← walk_level alloc w (pud + 8 * pt_index vaddr 2);
      match pmd with
      | None => Some (None, w)
      | Some pmd =>
          '(pte_base, w) ← walk_level alloc w (pmd + 8 * pt_index vaddr 1);
          match pte_base with
          | None => Some (None, w)
          | Some pte_base => Some (Some (pte_base + 8 * pt_index vaddr 0), w)
          end
      end
  end.

(** The permission fields: AF, SH, AP, UXN, PXN, attr_index. *)
Definition set_perm (e : Z) (perm : vm_perm_t) : Z :=
  let '(ap, pxn, attr) :=
    match perm with
    | VM_PERM_USER => (1, 1, 1)
    | VM_PERM_KERNEL => (0, 0, 1)
    | VM_PERM_KERNEL_MMIO => (0, 0, 0)
    end in
  let e := set_field e 10 1 1 in
  let e := set_field e 8 2 3 in
  let e := set_field e 6 2 ap in
  let e := set_field e 54 1 0 in
  let e := set_field e 53 1 pxn in
  set_field e 2 3 attr.

Definition make_page (perm : vm_perm_t) (e paddr : Z) : Z :=
  let e := set_field e 0 1 1 in
  let e := set_field e 1 1 1 in
  let e := set_field e 12 36 (Z.land (Z.shiftr paddr 12) 68719476735) in
  set_perm e perm.

Definition memory_create_map (w : kmem) (page_dir vaddr paddr count : Z) (perm : vm_perm_t) : option (Z * kmem) :=
  map_loop (fun w va => find_pte w page_dir va true) (make_page perm) w vaddr paddr (Z.to_nat count).

Definition memory_get_paddr (w : kmem) (page_dir vaddr : Z) : option Z :=
  '(pte, w) ← find_pte w page_dir vaddr false;
  match pte with
  | None => Some 0
  | Some pte =>
      let e := km_word w pte in
      if negb (a64_valid e) || negb (a64_table_bit e) then Some 0
      else Some (u64 (Z.shiftl (pfn e) 12 + Z.land vaddr (PAGE_SIZE - 1)))
  end.

Definition memory_get_pte_raw (w : kmem) (page_dir vaddr : Z) : option Z :=
  '(pte, w) ← find_pte w page_dir vaddr false;
  match pte with
  | None => Some 0
  | Some pte => Some (km_word w pte)
  end.

(** [memory_set_pte_nofree] and [memory_set_pte_keep] differ in [bit]. *)
Definition set_pte_bit (bit : Z) (w : kmem) (page_dir vaddr : Z) : option kmem :=
  '(pte, w) ← find_pte w page_dir vaddr false;
  match pte with
  | None => Some w
  | Some pte => Some (store w pte (Z.lor (km_word w pte) bit))
  end.

Definition memory_set_pte_nofree (w : kmem) (page_dir vaddr : Z) : option kmem := set_pte_bit A64_PTE_NOFREE w page_dir vaddr.
Definition memory_set_pte_keep (w : kmem) (page_dir vaddr : Z) : option kmem := set_pte_bit A64_PTE_KEEP w page_dir vaddr.

Definition a64_keep (e : Z) : bool := negb (Z.land e A64_PTE_KEEP =? 0).
Definition a64_nofree (e : Z) : bool := negb (Z.land e A64_PTE_NOFREE =? 0).

Definition memory_free_page (w : kmem) (page_dir addr : Z) : option kmem :=
  '(_, w) ← unmap_entry (fun w => find_pte w page_dir addr false) a64_table_bit a64_keep a64_nofree w;
  Some w.

Definition mm_vm_unmap_page (w : kmem) (pgd vaddr : Z) : option (Z * kmem) :=
  pa ← memory_get_paddr w pgd vaddr;
  if pa =? 0 then Some (0, w)
  else w ← memory_free_page w pgd vaddr; Some (1, w).

(** The physical range that is never released, from the addresses of the linker symbols
    [__kernel_start] and [__heap_flag]. *)
Definition in_kernel_window (kernel_start heap_flag : Z) (page_phys : Z) : bool :=
  let start := kernel_start in
  let end_ := ALIGN_UP (u64 (heap_flag + 9437184)) PAGE_SIZE in
  let start := if AARCH64_KERNEL_VMA_OFF <? start then start - AARCH64_KERNEL_VMA_OFF else start in
  let end_ := if AARCH64_KERNEL_VMA_OFF <? end_ then end_ - AARCH64_KERNEL_VMA_OFF else end_ in
  ((start <=? page_phys) && (page_phys <? end_)) ||
  ((DEVICE_MEM_START <=? page_phys) && (page_phys <? DEVICE_MEM_END)).

(** [_destroy_page_table_vm]; level 3 of the code is level 0 here. *)
Definition a64_teardown (kernel_start heap_flag : Z) : teardown :=
  mk_teardown (fun e => a64_valid e && a64_table_bit e) (fun n _ => (n =? 0)%nat)
    (fun _ e => in_kernel_window kernel_start heap_flag (a64_pa e) || a64_keep e) (fun _ => a64_nofree).

Definition destroy_uvm_4level (kernel_start heap_flag : Z) (w : kmem) (page_dir : Z) : option kmem :=
  w ← ofold (destroy_entry (a64_teardown kernel_start heap_flag) 3 page_dir) w (seqZ 0 1);
  '(_, pm) ← pmm_free_pages (km_pmm w) page_dir 1;
  Some (set_pmm w pm).

Definition mm_vm_destroy_user_space (kernel_start heap_flag : Z) (w : kmem) (pgd_phys : Z) : option kmem :=
  if pgd_phys =? 0 then Some w else destroy_uvm_4level kernel_start heap_flag w pgd_phys.

(** ** The format's laws *)

Lemma pfn_div e : pfn e = e / PAGE_SIZE mod 2 ^ 36.
Proof. unfold pfn, get_field. rewrite Z.land_ones by lia. by rewrite Z.shiftr_div_pow2 by lia. Qed.

Lemma a64_pa_range e : 0 <= a64_pa e < U64_MOD.
Proof.
  unfold a64_pa. rewrite pfn_div, Z.shiftl_mul_pow2 by lia. pose proof (Z.mod_pos_bound (e / PAGE_SIZE) (2 ^ 36) ltac:(lia)). lia.
Qed.

Lemma a64_table_eq pa : 0 <= pa -> pa mod PAGE_SIZE = 0 -> a64_table_pte pa = pa + 3.
Proof.
  intros Hpa Hal. unfold a64_table_pte. rewrite Z.shiftr_div_pow2, Z.shiftl_mul_pow2 by lia. change (2 ^ 12) with PAGE_SIZE.
  pose proof (Z_div_mod_eq_full pa PAGE_SIZE). replace (pa / PAGE_SIZE * PAGE_SIZE) with pa by lia.
  symmetry. apply Z.add_nocarry_lor.
  change 3 with (2 ^ 2 - 1). rewrite land_pred_pow2 by lia. change (2 ^ 2) with 4.
  rewrite (Z_div_mod_eq_full pa PAGE_SIZE), Hal, Z.add_0_r. replace (PAGE_SIZE * (pa / PAGE_SIZE)) with (1024 * (pa / PAGE_SIZE) * 4) by lia.
  apply Z_mod_mult.
Qed.

Lemma a64_table_valid pa : a64_valid (a64_table_pte pa) = true.
Proof.
  unfold a64_valid, is_valid, get_field, a64_table_pte. rewrite Z.shiftr_0_r. change (Z.ones 1) with 1.
  rewrite Z.land_lor_distr_l. change (Z.land 3 1) with 1. assert (forall x, (Z.lor x 1 =? 0) = false) as ->; [|done].
  intros x. apply Z.eqb_neq. intros E. apply (f_equal (fun z => Z.testbit z 0)) in E. rewrite Z.lor_spec, Z.bits_0, orb_true_r in E. done.
Qed.

#[global] Instance a64_laws : @pt_laws a64_pt.
Proof.
  split; cbn [pte_valid pte_stop pte_pa pte_table pt_upper pt_user_roots a64_pt].
  - done.
  - apply a64_table_valid.
  - done.
  - intros pa Hpa Hal. rewrite a64_table_eq by lia. unfold a64_pa. rewrite pfn_div, Z.shiftl_mul_pow2 by lia.
    pose proof (Z_div_mod_eq_full pa PAGE_SIZE) as Hd. rewrite Hal in Hd.
    replace (pa + 3) with (3 + pa / PAGE_SIZE * PAGE_SIZE) by lia. rewrite Z.div_add by lia. change (3 / PAGE_SIZE) with 0.
    rewrite Z.mod_small; [lia|]. split; [lia|]. apply Z.div_lt_upper_bound; lia.
  - lia.
  - lia.
Qed.

(** The page entries. *)
Lemma make_page_fields perm e pa :
  a64_valid (make_page perm e pa) = true /\ a64_table_bit (make_page perm e pa) = true /\
  pfn (make_page perm e pa) = pa / PAGE_SIZE mod 2 ^ 36.
Proof.
  unfold a64_valid, a64_table_bit, is_valid, is_table, pfn, make_page, set_perm.
  destruct perm; cbv beta iota zeta;
    rewrite !(get_set_other _ 2 3), !(get_set_other _ 53 1), !(get_set_other _ 54 1), !(get_set_other _ 6 2), !(get_set_other _ 8 2), !(get_set_other _ 10 1) by lia;
    rewrite !(get_set_other _ 12 36 _ 0 1), !(get_set_other _ 12 36 _ 1 1), !(get_set_other _ 1 1 _ 0 1) by lia;
    rewrite !get_set_same by lia; (split; [done|split; [done|]]);
    change 68719476735 with (Z.ones 36); rewrite <-Z.land_assoc, Z.land_diag, Z.land_ones by lia; by rewrite Z.shiftr_div_pow2 by lia.
Qed.

Lemma make_page_pa perm e pa : 0 <= pa < PT_PA_LIMIT -> pa mod PAGE_SIZE = 0 -> a64_pa (make_page perm e pa) = pa.
Proof.
  intros Hpa Hal. unfold a64_pa. destruct (make_page_fields perm e pa) as (_ & _ & ->). rewrite Z.shiftl_mul_pow2 by lia.
  pose proof (Z_div_mod_eq_full pa PAGE_SIZE) as Hd. rewrite Hal in Hd. rewrite Z.mod_small; [lia|].
  split; [apply Z.div_pos; lia|apply Z.div_lt_upper_bound; lia].
Qed.

Lemma find_pte_eq w pgd va alloc : find_pte w pgd va alloc = walk_pt alloc w pgd va.
Proof.
  unfold find_pte, walk_pt, upper_path. cbn [pt_upper a64_pt seq rev app fmap list_fmap walk_tables].
  destruct (walk_level alloc w _) as [[[l2|] w1]|]; [|done|done]. cbn [mbind option_bind].
  destruct (walk_level alloc w1 _) as [[[l1|] w2]|]; [|done|done]. cbn [mbind option_bind].
  destruct (walk_level alloc w2 _) as [[[l0|] w3]|]; done.
Qed.

Lemma a64_get_paddr w root G va :
  pt_inv w root G -> 0 <= va < 2 ^ 39 ->
  memory_get_paddr w root va =
    Some (if a64_valid (flat w G va) && a64_table_bit (flat w G va) then u64 (a64_pa (flat w G va) + va mod PAGE_SIZE) else 0).
Proof.
  intros Hinv Hva. unfold memory_get_paddr. rewrite find_pte_eq, (walk_pt_read w root G Hinv) by (by apply user_range).
  cbn [mbind option_bind]. unfold flat. destruct (G !! upper_path va) as [t|]; [|done]. cbn [option_map].
  rewrite land_page_mask. by destruct (a64_valid _), (a64_table_bit _).
Qed.

(** ** Theorems *)

(** Mapping [count] pages at [va] in an AArch64 address space, whatever the unused
    bits of the old entries: 0 says that every page of the range translates to its frame,
    -1 that a page was mapped already or memory ran out, with the pages before it
    mapped.  Every other address below 2^39 translates as before, and the tables stay a
    tree that shares no page with what is free or mapped. *)
Theorem a64_create_map_correct w root G va pa count perm :
  pt_inv w root G -> va mod PAGE_SIZE = 0 -> pa mod PAGE_SIZE = 0 -> 0 <= count < 2 ^ 31 ->
  0 <= va -> va + count * PAGE_SIZE <= 2 ^ 39 -> 0 <= pa -> pa + count * PAGE_SIZE <= 2 ^ 48 ->
  targets_ok w G pa count ->
  exists r w' G' k, memory_create_map w root va pa count perm = Some (r, w') /\ pt_inv w' root G' /\ 0 <= k <= count /\
    ((r = 0 /\ k = count) \/
     (r = -1 /\ k < count /\ (a64_valid (flat w G (va + k * PAGE_SIZE)) = true \/ forall x, ~ free_at (km_pmm w') x))) /\
    (forall j off, 0 <= j < k -> 0 <= off < PAGE_SIZE ->
       memory_get_paddr w' root (va + j * PAGE_SIZE + off) = Some (pa + j * PAGE_SIZE + off)) /\
    (forall va', 0 <= va' < 2 ^ 39 -> in_pages va k va' = false -> memory_get_paddr w' root va' = memory_get_paddr w root va').
Proof.
  intros Hinv Hva Hpa Hcount Hva0 Htop Hpa0 Hptop Htgt.
  destruct (map_loop_spec (make_page perm) root (Z.to_nat count) w G va pa) as (r & w' & G' & k & E & Hinv' & Hm);
    [done|done|rewrite Z2Nat.id by lia; done|done|lia| |].
  { intros old j Hj. rewrite u64_id by lia. unfold mappable. cbn [pte_pa a64_pt].
    rewrite make_page_pa by (try lia; by rewrite Z_mod_plus_full). apply Htgt. lia. }
  rewrite Z2Nat.id in Hm by lia. exists r, w', G', k. split.
  { unfold memory_create_map. rewrite <-E. apply map_loop_ext. intros. apply find_pte_eq. }
  split; [done|]. split; [apply Hm|]. split.
  { destruct (ma_result _ _ _ _ _ _ _ _ _ _ Hm) as [?|(? & ? & [?|[?|(? & ? & ? & ? & _ & _ & _ & ?)]])]; [by left|right; auto..|done]. }
  pose proof (ma_k _ _ _ _ _ _ _ _ _ _ Hm) as Hk. split.
  - intros j off Hj Hoff. destruct (page_of va j off Hva Hoff) as [Ed Em]. assert (0 <= va + j * PAGE_SIZE + off < 2 ^ 39) as Hr by lia.
    rewrite (a64_get_paddr w' root G') by done. rewrite (ma_flat _ _ _ _ _ _ _ _ _ _ Hm) by done.
    unfold in_pages. rewrite Ed, Em, (proj2 (in_range_spec _ _ _)) by lia.
    replace (va / PAGE_SIZE + j - va / PAGE_SIZE) with j by lia. rewrite (u64_id (pa + j * PAGE_SIZE)) by lia.
    destruct (make_page_fields perm (flat w G (va + j * PAGE_SIZE + off)) (pa + j * PAGE_SIZE)) as (-> & -> & _).
    rewrite make_page_pa by (try lia; by rewrite Z_mod_plus_full). cbn [andb]. by rewrite u64_id by lia.
  - intros va' Hva' Hout. rewrite (a64_get_paddr w' root G'), (a64_get_paddr w root G) by done.
    rewrite (ma_flat _ _ _ _ _ _ _ _ _ _ Hm) by done. by rewrite Hout.
Qed.

Section leak.
Context (kernel_start heap_flag : Z).

(** A private page of the process whose frame lies between [__kernel_start] and 9 MiB
    past [__heap_flag] is never given back: the destruction of the address space takes
    it for memory of the kernel.  The allocator reserves that range only up to
    [__kernel_end], so it does hand such frames out, and each one is lost at exit. *)
Theorem a64_window_page_leaks w m root G q k e :
  pt_inv w root G -> sp_rep (km_shared w) m -> 0 < root < U64_MOD ->
  regular (a64_teardown kernel_start heap_flag) w G -> private_sole (a64_teardown kernel_start heap_flag) w G ->
  space_owned (a64_teardown kernel_start heap_flag) w G -> covers (a64_teardown kernel_start heap_flag) w G ->
  leaf_at (a64_teardown kernel_start heap_flag) w G q k e -> a64_keep e = false -> a64_nofree e = false ->
  owned (km_pmm w) (a64_pa e) -> in_kernel_window kernel_start heap_flag (a64_pa e) = true ->
  exists w', mm_vm_destroy_user_space kernel_start heap_flag w root = Some w' /\
    ~ free_at (km_pmm w') (a64_pa e) /\ forall p t, G !! p = Some t -> free_at (km_pmm w') t.
Proof.
  intros Hinv Hrep Hroot Hreg Hps Hown Hcov Hlf _ _ Hoe Hwin. set (td := a64_teardown kernel_start heap_flag) in *.
  assert (leaf_valid td w G) as Hval.
  { intros q' k' e' (u & _ & _ & _ & _ & Hv). cbn in Hv. by apply andb_prop in Hv as [? _]. }
  destruct (destroy_space_spec td w root G Hinv Hreg Hval Hps Hcov m Hrep Hown a64_pa_range ltac:(lia)) as (w' & E & _ & Hsf).
  exists w'. split; [|split].
  - unfold mm_vm_destroy_user_space, destroy_uvm_4level. by rewrite (proj2 (Z.eqb_neq root 0)) by lia.
  - intros [Hf|[[p Hp]|(q' & k' & e' & Hlf' & Hk' & Ey)]]%(sf_only _ _ _ _ Hsf).
    + by apply owned_not_free in Hoe.
    + by apply (table_not_leaf td w root G Hinv Hval p q k e).
    + cbn in Hk'. change (pte_pa e') with (a64_pa e') in Ey. rewrite <-Ey, Hwin in Hk'. done.
  - intros p t Hp. by apply (sf_tables _ _ _ _ Hsf p).
Qed.
End leak.

(** ** Examples

    One page at 0x10000 whose frame, the fourth of the pool, is in the window of a
    kernel that starts at the pool. *)

Definition a64_entry : Z := make_page VM_PERM_USER 0 1064960.
Definition a64_pmm : pmm_t := (default (0, pool64) (pmm_alloc_pages pool64 5)).2.
Definition a64_words (a : Z) : Z :=
  if a =? 1048576 then a64_table_pte 1052672
  else if a =? 1052672 then a64_table_pte 1056768
  else if a =? 1056768 then a64_table_pte 1060864
  else if a =? 1060864 + 8 * 16 then a64_entry
  else 0.
Definition a64_demo : kmem := mk_kmem a64_pmm shared_pages_boot a64_words.
Definition a64_tables : gmap (list Z) Z := {[ [] := 1048576; [0] := 1052672; [0; 0] := 1056768; [0; 0; 0] := 1060864 ]}.

Lemma a64_pmm_inv : pmm_inv a64_pmm.
Proof.
  unfold a64_pmm. destruct (pmm_alloc_pages_spec pool64 5 pool64_inv ltac:(lia)) as [[E _]|(i & p' & E & _ & Hinv)].
  - exfalso. assert (fst <$> pmm_alloc_pages pool64 5 = Some 1048576) as E' by (vm_compute; reflexivity). rewrite E in E'. done.
  - by rewrite E.
Qed.

Lemma a64_owned x : x ∈ [1048576; 1052672; 1056768; 1060864; 1064960] -> owned a64_pmm x.
Proof.
  intros Hx. exists ((x - 1048576) / PAGE_SIZE). rewrite !elem_of_cons, elem_of_nil in Hx.
  destruct Hx as [->|[->|[->|[->|[->|[]]]]]]; (split; [vm_compute; reflexivity|]; split; [vm_compute; discriminate|];
    split; [vm_compute; discriminate|]; intros k Hk;
    match type of Hk with ?a <= _ < _ => let a' := eval vm_compute in a in change a with a' in Hk; assert (k = a') as -> by lia end;
    split; vm_compute; reflexivity).
Qed.

Lemma a64_lookup p t :
  a64_tables !! p = Some t <->
  (p = [] /\ t = 1048576) \/ (p = [0] /\ t = 1052672) \/ (p = [0; 0] /\ t = 1056768) \/ (p = [0; 0; 0] /\ t = 1060864).
Proof.
  unfold a64_tables. rewrite !lookup_insert_Some, lookup_singleton_Some. split.
  - intros [[<- <-]|[_ [[<- <-]|[_ [[<- <-]|[_ [<- <-]]]]]]]; tauto.
  - intros [[-> ->]|[[-> ->]|[[-> ->]|[-> ->]]]]; [by left|right; split; [done|]..]; [by left|right; split; [done|]..]; [by left|right; done].
Qed.

Lemma a64_word t i :
  t = 1048576 \/ t = 1052672 \/ t = 1056768 \/ t = 1060864 -> 0 <= i < 512 ->
  km_word a64_demo (t + 8 * i) =
    if t =? 1060864 then (if i =? 16 then a64_entry else 0)
    else if i =? 0 then a64_table_pte (t + PAGE_SIZE) else 0.
Proof.
  intros Ht Hi. cbn. unfold a64_words.
  destruct Ht as [->|[->|[->| ->]]]; cbn [Z.eqb Pos.eqb]; repeat case_if; try lia; done.
Qed.

Lemma a64_points e t' : 0 <= e < PT_PA_LIMIT -> e mod PAGE_SIZE = 0 -> points_to (a64_table_pte e) t' <-> t' = e.
Proof.
  intros He Hal. unfold points_to. pose proof (pte_valid_table e). pose proof (pte_stop_table e He Hal). pose proof (pte_pa_table e He Hal) as Hp.
  cbn in *. rewrite Hp. split; [by intros (_ & _ & ?)|by intros ->].
Qed.

Lemma a64_demo_inv : pt_inv a64_demo 1048576 a64_tables.
Proof.
  assert (forall t', ~ points_to 0 t') as H0 by (intros t' (E & _); done).
  assert (forall x, x ∈ [1048576; 1052672; 1056768; 1060864; 1064960] -> ~ free_at (km_pmm a64_demo) x) as Hnf.
  { intros x Hx. by apply owned_not_free, a64_owned. }
  split.
  - apply a64_pmm_inv.
  - vm_compute. discriminate.
  - by apply a64_lookup; left.
  - intros p q t Hp%a64_lookup Hq%a64_lookup.
    destruct Hp as [[-> ->]|[[-> ->]|[[-> ->]|[-> ->]]]], Hq as [[-> E]|[[-> E]|[[-> E]|[-> E]]]]; done.
  - intros p t [[-> ->]|[[-> ->]|[[-> ->]|[-> ->]]]]%a64_lookup; (split; [cbn; lia|split; [done|apply Hnf; set_solver]]).
  - intros p i t'. rewrite a64_lookup. setoid_rewrite a64_lookup. split.
    + assert (forall q t, t = 1048576 \/ t = 1052672 \/ t = 1056768 -> (length q < 3)%nat ->
        user_index q 0 /\ points_to (km_word a64_demo (t + 8 * 0)) (t + PAGE_SIZE)) as Hc.
      { intros q t Ht Hq. split; [split; [lia|cbn; lia]|]. rewrite a64_word by (try lia; tauto).
        destruct Ht as [->|[->| ->]]; cbn [Z.eqb Pos.eqb]; by apply a64_points. }
      intros [[E ->]|[[E ->]|[[E ->]|[E ->]]]]; [by destruct p|..].
      * apply (app_inj_tail p [] i 0) in E as [-> ->]. exists 1048576. split; [tauto|]. split; [cbn; lia|]. apply (Hc [] 1048576); [tauto|cbn; lia].
      * apply (app_inj_tail p [0] i 0) in E as [-> ->]. exists 1052672. split; [tauto|]. split; [cbn; lia|]. apply (Hc [0] 1052672); [tauto|cbn; lia].
      * apply (app_inj_tail p [0; 0] i 0) in E as [-> ->]. exists 1056768. split; [tauto|]. split; [cbn; lia|]. apply (Hc [0; 0] 1056768); [tauto|cbn; lia].
    + intros (t & [[-> ->]|[[-> ->]|[[-> ->]|[-> ->]]]] & Hl & [Hi Hu] & Hpt); [| | |cbn in Hl; lia];
        rewrite a64_word in Hpt by (try done; tauto); cbn [Z.eqb Pos.eqb] in Hpt;
        (destruct (Z.eqb_spec i 0) as [->|]; [apply a64_points in Hpt as ->; [|done..]; cbn; tauto|by destruct (H0 t')]).
  - intros p t i [[-> ->]|[[-> ->]|[[-> ->]|[-> ->]]]]%a64_lookup Hl Hi; [done..|]. rewrite a64_word by (try done; tauto).
    cbn [Z.eqb Pos.eqb]. destruct (Z.eqb_spec i 16) as [->|]; [|done]. intros _.
    assert (pte_pa a64_entry = 1064960) as -> by (vm_compute; reflexivity). split; [apply Hnf; set_solver|].
    intros q Hq%a64_lookup. lia.
Qed.

Lemma a64_leaf ks hf q k e : leaf_at (a64_teardown ks hf) a64_demo a64_tables q k e -> q = [0; 0; 0] /\ k = 16 /\ e = a64_entry.
Proof.
  intros (u & [[-> ->]|[[-> ->]|[[-> ->]|[-> ->]]]]%a64_lookup & Hl & Hk & -> & Hv); [done..|].
  rewrite a64_word in Hv |- * by (try done; tauto). cbn [Z.eqb Pos.eqb] in *. destruct (Z.eqb_spec k 16) as [->|]; [done|].
  cbn in Hv. done.
Qed.

Lemma a64_create_map_correct_witness :
  exists r w' G' k, memory_create_map a64_demo 1048576 69632 1064960 1 VM_PERM_USER = Some (r, w') /\
    pt_inv w' 1048576 G' /\ 0 <= k <= 1.
Proof.
  destruct (a64_create_map_correct a64_demo 1048576 a64_tables 69632 1064960 1 VM_PERM_USER a64_demo_inv)
    as (r & w' & G' & k & E & Hinv & Hk & _); [done|done|lia|lia|lia|lia|lia| |].
  - intros k Hk. assert (k = 0) as -> by lia. split; [apply owned_not_free, a64_owned; set_solver|]. intros q Hq%a64_lookup. lia.
  - exists r, w', G', k. split; [exact E|]. split; [exact Hinv|exact Hk].
Defined.

Lemma a64_demo_regular ks hf : regular (a64_teardown ks hf) a64_demo a64_tables.
Proof.
  intros p t i [[-> ->]|[[-> ->]|[[-> ->]|[-> ->]]]]%a64_lookup [Hi _]; cbn zeta; rewrite a64_word by (try done; tauto); cbn [Z.eqb Pos.eqb length pt_upper a64_pt].
  1,2,3: destruct (Z.eqb_spec i 0) as [->|]; [|done]; intros _; rewrite decide_False by lia; split; [vm_compute; reflexivity|]; apply a64_lookup; vm_compute; tauto.
  intros Hv. rewrite decide_True by done. destruct (Z.eqb_spec i 16) as [->|]; [vm_compute; reflexivity|done].
Qed.

(** The kernel starts at the pool and [__heap_flag] is 16 KiB on. *)
Lemma a64_window_page_leaks_witness :
  exists w', mm_vm_destroy_user_space 1048576 1064960 a64_demo 1048576 = Some w' /\ ~ free_at (km_pmm w') 1064960.
Proof.
  assert (a64_pa a64_entry = 1064960) as Epa by (vm_compute; reflexivity).
  destruct (a64_window_page_leaks 1048576 1064960 a64_demo ∅ 1048576 a64_tables [0; 0; 0] 16 a64_entry a64_demo_inv)
    as (w' & E & Hn & _).
  - reflexivity.
  - lia.
  - apply a64_demo_regular.
  - intros q k e q' k' e' (-> & -> & _)%a64_leaf (-> & -> & _)%a64_leaf. done.
  - split.
    + intros p t [[-> ->]|[[-> ->]|[[-> ->]|[-> ->]]]]%a64_lookup; apply a64_owned; set_solver.
    + intros q k e (-> & -> & ->)%a64_leaf _ _. change (pte_pa a64_entry) with (a64_pa a64_entry). rewrite Epa. apply a64_owned. set_solver.
  - intros p t i [[-> ->]|[[-> ->]|[[-> ->]|[-> ->]]]]%a64_lookup [Hi _]; rewrite a64_word by (try done; tauto); cbn [Z.eqb Pos.eqb];
      (match goal with |- context [i =? ?n] => destruct (Z.eqb_spec i n) as [->|]; [intros _; vm_compute; reflexivity|intros Hv; cbn in Hv; discriminate Hv] end).
  - exists 1060864. split; [apply a64_lookup; tauto|]. split; [done|]. split; [lia|]. split; vm_compute; reflexivity.
  - vm_compute. reflexivity.
  - vm_compute. reflexivity.
  - rewrite Epa. apply a64_owned. set_solver.
  - rewrite Epa. vm_compute. reflexivity.
  - exists w'. split; [exact E|]. rewrite Epa in Hn. exact Hn.
Defined.
End A64.
