(* ===== verification/Gstage.v ===== *)
(** * Guest memory of the RISC-V hypervisor: kernel/mm/riscv64/gstage.c

    The second translation stage of a virtual machine: a root and four tables of the
    first level in static memory, tables of the last level and guest pages from the page
    allocator.  Every operation on the tables holds [map_lock], so it is one step.

    [gs_inv] is the invariant of a context; [hw_walk] is the walk the hart does from
    [hgatp].  The theorems show that the hart translates a guest address exactly when and
    as the software tables say, that demand mapping gives each guest page a page of its
    own and changes no other translation, and that the destruction of the machine gives
    every page back. *)

From stdpp Require Import options.
From Stdlib Require Import Lia ZifyBool.
From S2P Require Import Prelude Bitmap Pmm SharedPage PhysMem PageTable Teardown Riscv64.

(** ** Geometry (include/riscv64/gstage.h) *)

Abbreviation GSTAGE_ROOT_SIZE := 16384.
Abbreviation GSTAGE_ROOT_ENTRIES := 2048.
Abbreviation GSTAGE_L0_ENTRIES := 512.
Abbreviation GSTAGE_L1_TABLES := 4.
Abbreviation GSTAGE_BLOCK_SIZE := 2097152.
Abbreviation GSTAGE_MAX_VMS := 32.
Abbreviation HGATP_MODE_SV39X4 := 9223372036854775808.
Abbreviation HGATP_VMID_SHIFT := 44.
Abbreviation HGATP_PPN_MASK := 17592186044415.

(** V, R, W, X, U, A and D. *)
Abbreviation GSTAGE_RAM_FLAGS := 223.

(** [l0_tbl] is the array of [GSTAGE_MAX_L0_TABLES] pointers; 0 is NULL. *)
Record gstage_ctx_t := mk_gstage {
  gs_slot : Z;
  gs_vmid : Z;
  gs_ram_base : Z;
  gs_ram_size : Z;
  gs_ram_end : Z;
  gs_hgatp : Z;
  gs_root : Z;
  gs_l1 : list Z;
  gs_l0_tbl : list Z;
  gs_nr_premap : Z;
  gs_nr_fault : Z;
}.

Definition set_l0_tbl (g : gstage_ctx_t) (l : list Z) : gstage_ctx_t :=
  mk_gstage (gs_slot g) (gs_vmid g) (gs_ram_base g) (gs_ram_size g) (gs_ram_end g) (gs_hgatp g) (gs_root g)
    (gs_l1 g) l (gs_nr_premap g) (gs_nr_fault g).

(** The static arrays [g_gstage_root] and [g_gstage_l1], and [GSTAGE_MAX_L0_TABLES]. *)
Record gstage_static := mk_static { st_root : Z; st_l1 : Z; st_max_l0 : nat }.

Definition root_of (st : gstage_static) (slot : Z) : Z := st_root st + slot * GSTAGE_ROOT_SIZE.
Definition l1_of (st : gstage_static) (slot i : Z) : Z := st_l1 st + (slot * GSTAGE_L1_TABLES + i) * PAGE_SIZE.

(** ** Operations *)

Definition root_index (gpa : Z) : Z := Z.land (Z.shiftr gpa 30) (GSTAGE_ROOT_ENTRIES - 1).
Definition l1_index (gpa : Z) : Z := RV_PTE_INDEX gpa 1.
Definition l0_index (gpa : Z) : Z := RV_PTE_INDEX gpa 0.

Definition ram_blk_index (g : gstage_ctx_t) (gpa : Z) : Z :=
  if (gpa <? gs_ram_base g) || (gs_ram_end g <=? gpa) then -1
  else
    let idx := u64 (gpa - gs_ram_base g) / GSTAGE_BLOCK_SIZE in
    if idx <? Z.of_nat (length (gs_l0_tbl g)) then idx else -1.

Definition l0_at (g : gstage_ctx_t) (idx : Z) : Z := aget 0 (gs_l0_tbl g) idx.

(** The table of the block of [gpa], 0 for NULL. *)
Definition l0_ensure (w : kmem) (g : gstage_ctx_t) (gpa : Z) : option (Z * kmem * gstage_ctx_t) :=
  let idx := ram_blk_index g gpa in
  if idx <? 0 then Some (0, w, g)
  else if negb (l0_at g idx =? 0) then Some (l0_at g idx, w, g)
  else
    let ri := root_index gpa in
    if GSTAGE_L1_TABLES <=? ri then Some (0, w, g)
    else
      '(pa, pm) ← pmm_alloc_pages (km_pmm w) 1;
      let w := set_pmm w pm in
      if pa =? 0 then Some (0, w, g)
      else
        let w := clear_words w pa PAGE_SIZE in
        let li := l1_index gpa in
        let w := store w (aget 0 (gs_l1 g) ri + 8 * li) (RV_PTE_FROM_PA pa RV_PTE_V) in
        Some (pa, w, set_l0_tbl g (aset (gs_l0_tbl g) idx pa)).

Definition rv_gstage_ipa_is_ram (g : gstage_ctx_t) (gpa : Z) : bool :=
  (gs_ram_base g <=? gpa) && (gpa <? gs_ram_end g).

(** A new guest page behind entry [slot], 0 when memory is out. *)
Definition fill_entry (w : kmem) (slot : Z) (zero : bool) : option (Z * kmem) :=
  '(pa, pm) ← pmm_alloc_pages (km_pmm w) 1;
  let w := set_pmm w pm in
  if pa =? 0 then Some (0, w)
  else
    let w := if zero then clear_words w pa PAGE_SIZE else w in
    Some (pa, store w slot (RV_PTE_FROM_PA pa GSTAGE_RAM_FLAGS)).

Definition rv_gstage_map_page (w : kmem) (g : gstage_ctx_t) (gpa : Z) (zero : bool) : option (Z * kmem * gstage_ctx_t) :=
  let li := l0_index gpa in
  '(t, w, g) ← l0_ensure w g gpa;
  if t =? 0 then Some (0, w, g)
  else if rv_pte_valid (km_word w (t + 8 * li)) then Some (RV_PTE_TO_PA (km_word w (t + 8 * li)), w, g)
  else '(pa, w) ← fill_entry w (t + 8 * li) zero; Some (pa, w, g).

(** The loop of [rv_gstage_map_block] over the entries [l] with the count [n] so far. *)
Fixpoint block_loop (w : kmem) (t : Z) (zero : bool) (n : Z) (l : list Z) : option (Z * kmem) :=
  match l with
  | [] => Some (n, w)
  | i :: l =>
      if rv_pte_valid (km_word w (t + 8 * i)) then block_loop w t zero n l
      else
        '(pa, w) ← fill_entry w (t + 8 * i) zero;
        if pa =? 0 then Some (n, w) else block_loop w t zero (n + 1) l
  end.

Definition rv_gstage_map_block (w : kmem) (g : gstage_ctx_t) (gpa : Z) (zero : bool) : option (Z * kmem * gstage_ctx_t) :=
  let base := Z.land gpa (Z.lnot (GSTAGE_BLOCK_SIZE - 1)) in
  '(t, w, g) ← l0_ensure w g base;
  if t =? 0 then Some (0, w, g)
  else '(n, w) ← block_loop w t zero 0 (seqZ 0 GSTAGE_L0_ENTRIES); Some (n, w, g).

(** The loop of [rv_gstage_map_range] from offset [off], at most [fuel] rounds. *)
Fixpoint range_loop (fuel : nat) (w : kmem) (g : gstage_ctx_t) (gpa size : Z) (zero : bool) (off n : Z) : option (Z * kmem * gstage_ctx_t) :=
  match fuel with
  | O => None
  | S fuel =>
      if off <? size then
        '(pa, w, g) ← rv_gstage_map_page w g (u64 (gpa + off)) zero;
        if pa =? 0 then Some (n, w, g)
        else range_loop fuel w g gpa size zero (u64 (off + PAGE_SIZE)) (n + 1)
      else Some (n, w, g)
  end.

Definition rv_gstage_map_range (w : kmem) (g : gstage_ctx_t) (gpa size : Z) (zero : bool) : option (Z * kmem * gstage_ctx_t) :=
  range_loop (Z.to_nat (size / PAGE_SIZE + 2)) w g gpa size zero 0 0.

(** [None] stands for the return value 0. *)
Definition rv_gstage_lookup (w : kmem) (g : gstage_ctx_t) (gpa : Z) : option Z :=
  if negb (rv_gstage_ipa_is_ram g gpa) then None
  else
    let idx := ram_blk_index g gpa in
    if idx <? 0 then None
    else
      let t := l0_at g idx in
      if t =? 0 then None
      else
        let e := km_word w (t + 8 * l0_index gpa) in
        if negb (rv_pte_valid e) || negb (RV_PTE_IS_LEAF e) then None
        else Some (Z.lor (RV_PTE_TO_PA e) (Z.land gpa (PAGE_SIZE - 1))).

(** The fault of a virtual CPU inside the RAM window (hext_run.c): the return code. *)
Abbreviation EL2_RESUME := 0.
Abbreviation EL2_EXIT := 4.

Definition add_fault (g : gstage_ctx_t) (n : Z) : gstage_ctx_t :=
  mk_gstage (gs_slot g) (gs_vmid g) (gs_ram_base g) (gs_ram_size g) (gs_ram_end g) (gs_hgatp g) (gs_root g)
    (gs_l1 g) (gs_l0_tbl g) (gs_nr_premap g) (u64 (gs_nr_fault g + n)).

Definition handle_ram_fault (w : kmem) (g : gstage_ctx_t) (gpa : Z) : option (Z * kmem * gstage_ctx_t) :=
  '(n, w, g) ← rv_gstage_map_block w g gpa true;
  if n =? 0 then
    match rv_gstage_lookup w g gpa with
    | None => Some (EL2_EXIT, w, g)
    | Some _ => Some (EL2_RESUME, w, g)
    end
  else Some (EL2_RESUME, w, add_fault g n).

(** ** Life of a context *)

(** The register after [rv_gstage_activate] on a hart whose register holds [cur]. *)
Definition rv_gstage_activate (g : gstage_ctx_t) (cur : Z) : Z :=
  if gs_hgatp g =? 0 then cur else if cur =? gs_hgatp g then cur else gs_hgatp g.

Definition rv_gstage_vm_init (st : gstage_static) (w : kmem) (g : gstage_ctx_t) (slot vmid ram_base ram_size cur : Z)
  : kmem * gstage_ctx_t * Z :=
  if GSTAGE_MAX_VMS <=? slot then (w, g, cur)
  else
    let root := root_of st slot in
    let w := clear_words w root GSTAGE_ROOT_SIZE in
    let w := clear_words w (l1_of st slot 0) (GSTAGE_L1_TABLES * PAGE_SIZE) in
    let l1 := (fun i => l1_of st slot i) <$> seqZ 0 GSTAGE_L1_TABLES in
    let w := for_range 0 GSTAGE_L1_TABLES
               (fun w i => store w (root + 8 * i) (RV_PTE_FROM_PA (l1_of st slot i) RV_PTE_V)) w in
    let vmid := Z.land vmid 16383 in
    let hgatp := Z.lor (Z.lor HGATP_MODE_SV39X4 (Z.shiftl vmid HGATP_VMID_SHIFT))
                   (Z.land (Z.shiftr root PAGE_SHIFT) HGATP_PPN_MASK) in
    let g := mk_gstage slot vmid ram_base ram_size (u64 (ram_base + ram_size)) hgatp root l1
               (replicate (st_max_l0 st) 0) 0 0 in
    (w, g, rv_gstage_activate g cur).

(** The page behind entry [j] of the table [t]. *)
Definition free_entry (t : Z) (w : kmem) (j : Z) : option kmem :=
  let e := km_word w (t + 8 * j) in
  if rv_pte_valid e then
    '(_, pm) ← pmm_free_pages (km_pmm w) (RV_PTE_TO_PA e) 1;
    Some (store (set_pmm w pm) (t + 8 * j) 0)
  else Some w.

(** The pages behind the valid entries of the table [t], then the table. *)
Definition destroy_l0 (w : kmem) (t : Z) : option kmem :=
  w ← ofold (free_entry t) w (seqZ 0 GSTAGE_L0_ENTRIES);
  '(_, pm) ← pmm_free_pages (km_pmm w) (Z.land t (Z.lnot (PAGE_SIZE - 1))) 1;
  Some (set_pmm w pm).

(** The context is cleared at the end. *)
Definition gstage_zero (n : nat) : gstage_ctx_t := mk_gstage 0 0 0 0 0 0 0 (replicate 4 0) (replicate n 0) 0 0.

Definition rv_gstage_vm_destroy (st : gstage_static) (w : kmem) (g : gstage_ctx_t) : option (kmem * gstage_ctx_t) :=
  w ← ofold (fun w t => if t =? 0 then Some w else destroy_l0 w t) w (gs_l0_tbl g);
  let w := clear_words w (gs_root g) GSTAGE_ROOT_SIZE in
  let w := clear_words w (l1_of st (gs_slot g) 0) (GSTAGE_L1_TABLES * PAGE_SIZE) in
  Some (w, gstage_zero (st_max_l0 st)).

(** * Properties *)

(** ** The walk of the hart

    Sv39x4 (RISC-V privileged architecture, hypervisor extension): 11 index bits at the
    root, 9 at the two other levels; a leaf above the last level is a large page. *)

Definition hw_leaf (e level gpa : Z) : Z := RV_PTE_TO_PA e + gpa mod 2 ^ (PAGE_SHIFT + 9 * level).

Definition hw_walk (m : Z -> Z) (root gpa : Z) : option Z :=
  let e2 := m (root + 8 * (gpa / 2 ^ 30 mod 2048)) in
  if negb (rv_pte_valid e2) then None
  else if RV_PTE_IS_LEAF e2 then Some (hw_leaf e2 2 gpa)
  else
    let e1 := m (RV_PTE_TO_PA e2 + 8 * (gpa / 2 ^ 21 mod 512)) in
    if negb (rv_pte_valid e1) then None
    else if RV_PTE_IS_LEAF e1 then Some (hw_leaf e1 1 gpa)
    else
      let e0 := m (RV_PTE_TO_PA e1 + 8 * (gpa / 2 ^ 12 mod 512)) in
      if rv_pte_valid e0 && RV_PTE_IS_LEAF e0 then Some (hw_leaf e0 0 gpa) else None.

(** The root the register selects. *)
Definition hgatp_root (hgatp : Z) : Z := Z.shiftl (Z.land hgatp HGATP_PPN_MASK) PAGE_SHIFT.

(** ** The invariant *)

(** [x] is a page of the static tables. *)
Definition static_page (g : gstage_ctx_t) (x : Z) : Prop :=
  x ∈ gs_l1 g \/ exists k, 0 <= k < 4 /\ x = gs_root g + k * PAGE_SIZE.

(** A page the machine may hold: the allocator has handed it out. *)
Definition good_page (w : kmem) (g : gstage_ctx_t) (x : Z) : Prop :=
  x mod PAGE_SIZE = 0 /\ 0 < x < PT_PA_LIMIT /\ owned (km_pmm w) x /\ ~ static_page g x.

Definition first_block (g : gstage_ctx_t) : Z := gs_ram_base g / GSTAGE_BLOCK_SIZE.

(** The entry of block [b] of the guest address space in the first level. *)
Definition l1_slot (g : gstage_ctx_t) (b : Z) : Z := aget 0 (gs_l1 g) (b / 512) + 8 * (b mod 512).

(** What the first level must hold for block [b]. *)
Definition l1_entry (g : gstage_ctx_t) (b : Z) : Z :=
  if (first_block g <=? b) && (b <? first_block g + Z.of_nat (length (gs_l0_tbl g))) && negb (l0_at g (b - first_block g) =? 0)
  then RV_PTE_FROM_PA (l0_at g (b - first_block g)) RV_PTE_V else 0.

Record gs_window (g : gstage_ctx_t) : Prop := mk_gs_window {
  gw_base : 0 <= gs_ram_base g /\ gs_ram_base g mod GSTAGE_BLOCK_SIZE = 0;
  gw_end : gs_ram_end g = gs_ram_base g + Z.of_nat (length (gs_l0_tbl g)) * GSTAGE_BLOCK_SIZE;
  gw_low : gs_ram_end g <= 2 ^ 32;
  gw_l1 : length (gs_l1 g) = 4%nat /\ NoDup (gs_l1 g);
  gw_static : forall x, static_page g x -> x mod PAGE_SIZE = 0 /\ 0 < x < PT_PA_LIMIT;
  gw_apart : forall k, 0 <= k < 4 -> gs_root g + k * PAGE_SIZE ∉ gs_l1 g;
}.

Record gs_inv (w : kmem) (g : gstage_ctx_t) : Prop := mk_gs_inv {
  gi_pmm : pmm_inv (km_pmm w);
  gi_limit : page_addr (km_pmm w) (pm_total_pages (km_pmm w)) <= PT_PA_LIMIT;
  gi_window : gs_window g;
  gi_static : forall x, static_page g x -> ~ free_at (km_pmm w) x;
  gi_root : forall i, 0 <= i < 2048 ->
    km_word w (gs_root g + 8 * i) = if i <? 4 then RV_PTE_FROM_PA (aget 0 (gs_l1 g) i) RV_PTE_V else 0;
  gi_l1 : forall b, 0 <= b < 2048 -> km_word w (l1_slot g b) = l1_entry g b;
  gi_l0 : forall i t, gs_l0_tbl g !! i = Some t -> t <> 0 -> good_page w g t;
  gi_l0_inj : forall i j t, gs_l0_tbl g !! i = Some t -> gs_l0_tbl g !! j = Some t -> t <> 0 -> i = j;
  gi_leaf : forall i t k, gs_l0_tbl g !! i = Some t -> t <> 0 -> 0 <= k < 512 ->
    km_word w (t + 8 * k) = 0 \/
    exists x, km_word w (t + 8 * k) = RV_PTE_FROM_PA x GSTAGE_RAM_FLAGS /\ good_page w g x /\ x ∉ gs_l0_tbl g;
  gi_leaf_inj : forall i t k j u l, gs_l0_tbl g !! i = Some t -> t <> 0 -> 0 <= k < 512 ->
    gs_l0_tbl g !! j = Some u -> u <> 0 -> 0 <= l < 512 ->
    km_word w (t + 8 * k) <> 0 -> km_word w (t + 8 * k) = km_word w (u + 8 * l) -> i = j /\ k = l;
}.

(** ** Entries *)

Lemma nonleaf_entry x :
  x mod PAGE_SIZE = 0 -> 0 < x < PT_PA_LIMIT ->
  rv_pte_valid (RV_PTE_FROM_PA x RV_PTE_V) = true /\ RV_PTE_IS_LEAF (RV_PTE_FROM_PA x RV_PTE_V) = false /\
  RV_PTE_TO_PA (RV_PTE_FROM_PA x RV_PTE_V) = x.
Proof.
  intros Hm Hx. unfold rv_pte_valid, RV_PTE_IS_LEAF. rewrite !Rv.land_from_pa by (vm_compute; split; [discriminate|reflexivity]).
  split; [done|]. split; [done|]. apply Rv.from_pa_to_pa; [done|lia|done].
Qed.

Lemma leaf_entry x :
  x mod PAGE_SIZE = 0 -> 0 < x < PT_PA_LIMIT ->
  rv_pte_valid (RV_PTE_FROM_PA x GSTAGE_RAM_FLAGS) = true /\ RV_PTE_IS_LEAF (RV_PTE_FROM_PA x GSTAGE_RAM_FLAGS) = true /\
  RV_PTE_TO_PA (RV_PTE_FROM_PA x GSTAGE_RAM_FLAGS) = x.
Proof.
  intros Hm Hx. unfold rv_pte_valid, RV_PTE_IS_LEAF. rewrite !Rv.land_from_pa by (vm_compute; split; [discriminate|reflexivity]).
  split; [done|]. split; [done|]. apply Rv.from_pa_to_pa; [done|lia|done].
Qed.

Lemma index_div gpa :
  root_index gpa = gpa / 2 ^ 30 mod 2048 /\ l1_index gpa = gpa / 2 ^ 21 mod 512 /\ l0_index gpa = gpa / 2 ^ 12 mod 512.
Proof.
  unfold root_index, l1_index, l0_index, RV_PTE_INDEX. rewrite !pt_index_div by lia.
  change (GSTAGE_ROOT_ENTRIES - 1) with (2 ^ 11 - 1). rewrite land_pred_pow2, Z.shiftr_div_pow2 by lia. done.
Qed.

(** The page of an aligned page and an offset. *)
Lemma lor_offset x gpa : x mod PAGE_SIZE = 0 -> Z.lor x (Z.land gpa (PAGE_SIZE - 1)) = x + gpa mod PAGE_SIZE.
Proof.
  intros Hx. rewrite land_page_mask. assert (x = Z.shiftl (x / PAGE_SIZE) 12) as E.
  { rewrite Z.shiftl_mul_pow2 by lia. pose proof (Z.div_mod x PAGE_SIZE ltac:(lia)). lia. }
  rewrite E. change PAGE_SIZE with (2 ^ 12) at 2 4. rewrite <- !Z.land_ones by lia.
  rewrite Z.add_nocarry_lxor, Z.lxor_lor; [done| |].
  all: apply Z.bits_inj_0; intros k; rewrite Z.land_spec, Z.land_spec, Z.testbit_ones by lia.
  all: destruct (decide (0 <= k)) as [Hk|Hk]; [rewrite Z.shiftl_spec by lia|by rewrite Z.testbit_neg_r by lia].
  all: destruct (decide (k < 12)); [rewrite (Z.testbit_neg_r _ (k - 12)) by lia; done|].
  all: replace (k <? 12) with false by (symmetry; apply Z.ltb_ge; lia); by rewrite !andb_false_r.
Qed.

(** ** The window *)

Lemma ram_blk_out g gpa : rv_gstage_ipa_is_ram g gpa = false -> ram_blk_index g gpa = -1.
Proof.
  unfold rv_gstage_ipa_is_ram, ram_blk_index. intros H.
  replace ((gpa <? gs_ram_base g) || (gs_ram_end g <=? gpa)) with true by lia. done.
Qed.

Lemma ram_blk_in g gpa :
  gs_window g -> rv_gstage_ipa_is_ram g gpa = true ->
  let b := gpa / GSTAGE_BLOCK_SIZE in
  ram_blk_index g gpa = b - first_block g /\ 0 <= b - first_block g < Z.of_nat (length (gs_l0_tbl g)) /\ 0 <= b < 2048.
Proof.
  intros Hw Hin b. destruct Hw as [[Hb Hm] He Hl _ _ _].
  assert (gs_ram_base g <= gpa < gs_ram_end g) as Hg by (unfold rv_gstage_ipa_is_ram in Hin; lia).
  assert (gs_ram_base g = first_block g * GSTAGE_BLOCK_SIZE) as Eb
    by (unfold first_block; pose proof (Z.div_mod (gs_ram_base g) GSTAGE_BLOCK_SIZE ltac:(lia)); lia).
  assert ((gpa - gs_ram_base g) / GSTAGE_BLOCK_SIZE = b - first_block g) as Ed.
  { rewrite Eb. replace (gpa - _) with (gpa + (- first_block g) * GSTAGE_BLOCK_SIZE) by lia. rewrite Z.div_add by lia. unfold b. lia. }
  assert (0 <= b - first_block g < Z.of_nat (length (gs_l0_tbl g))) as Hr.
  { rewrite <- Ed. split; [apply Z.div_pos; lia|]. apply Z.div_lt_upper_bound; lia. }
  split_and!; [|lia..| |].
  - unfold ram_blk_index. replace ((gpa <? gs_ram_base g) || (gs_ram_end g <=? gpa)) with false by lia.
    rewrite u64_id by lia. rewrite Ed. by replace (_ <? _) with true by lia.
  - unfold b. apply Z.div_pos; lia.
  - unfold b. apply Z.div_lt_upper_bound; lia.
Qed.

(** A block of the window and only such a block is in the window. *)
Lemma block_in_window g gpa :
  gs_window g ->
  rv_gstage_ipa_is_ram g gpa =
  (first_block g <=? gpa / GSTAGE_BLOCK_SIZE) && (gpa / GSTAGE_BLOCK_SIZE <? first_block g + Z.of_nat (length (gs_l0_tbl g))).
Proof.
  intros Hw. destruct (rv_gstage_ipa_is_ram g gpa) eqn:E.
  - destruct (ram_blk_in g gpa Hw E) as (_ & Hr & _). symmetry. lia.
  - destruct Hw as [[Hb Hm] He Hl _ _ _].
    assert (gs_ram_base g = first_block g * GSTAGE_BLOCK_SIZE) as Eb
      by (unfold first_block; pose proof (Z.div_mod (gs_ram_base g) GSTAGE_BLOCK_SIZE ltac:(lia)); lia).
    pose proof (Z.div_mod gpa GSTAGE_BLOCK_SIZE ltac:(lia)). pose proof (Z.mod_pos_bound gpa GSTAGE_BLOCK_SIZE ltac:(lia)).
    unfold rv_gstage_ipa_is_ram in E. symmetry. lia.
Qed.

Lemma block_levels gpa :
  0 <= gpa < 2 ^ 32 ->
  gpa / GSTAGE_BLOCK_SIZE / 512 = root_index gpa /\ gpa / GSTAGE_BLOCK_SIZE mod 512 = l1_index gpa /\ 0 <= root_index gpa < 4.
Proof.
  intros Hg. destruct (index_div gpa) as (-> & -> & _). rewrite Z.div_div by lia.
  change (GSTAGE_BLOCK_SIZE * 512) with (2 ^ 30). assert (0 <= gpa / 2 ^ 30 < 4) by (split; [apply Z.div_pos|apply Z.div_lt_upper_bound]; lia).
  rewrite (Z.mod_small (gpa / 2 ^ 30)) by lia. done.
Qed.

Lemma l1_static g i : gs_window g -> 0 <= i < 4 -> aget 0 (gs_l1 g) i ∈ gs_l1 g.
Proof.
  intros Hw Hi. destruct (gw_l1 g Hw) as [Hlen _].
  eapply list_elem_of_lookup_2. apply (aget_lookup 0 (gs_l1 g) i). lia.
Qed.

Lemma l0_lookup g i : 0 <= i < Z.of_nat (length (gs_l0_tbl g)) -> gs_l0_tbl g !! Z.to_nat i = Some (l0_at g i).
Proof. intros. unfold l0_at. apply aget_lookup. lia. Qed.

(** ** The hart and the software agree *)

Lemma hart_walk w g gpa : gs_inv w g -> 0 <= gpa < 2 ^ 41 -> hw_walk (km_word w) (gs_root g) gpa = rv_gstage_lookup w g gpa.
Proof.
  intros Hinv Hg. pose proof (gi_window _ _ Hinv) as Hw.
  assert (0 <= gpa / 2 ^ 30 < 2048) by (split; [apply Z.div_pos|apply Z.div_lt_upper_bound]; lia).
  unfold hw_walk, rv_gstage_lookup. rewrite (gi_root _ _ Hinv) by (rewrite Z.mod_small by lia; lia). rewrite Z.mod_small by lia.
  destruct (Z.ltb_spec (gpa / 2 ^ 30) 4) as [Hlow|Hhigh]; cycle 1.
  { replace (rv_gstage_ipa_is_ram g gpa) with false; [done|]. pose proof (gw_low _ Hw).
    assert (2 ^ 30 * 4 <= gpa) by (transitivity (2 ^ 30 * (gpa / 2 ^ 30)); [lia|apply Z.mul_div_le; lia]).
    unfold rv_gstage_ipa_is_ram. lia. }
  assert (0 <= gpa < 2 ^ 32) as Hg32.
  { split; [lia|]. pose proof (Z.div_mod gpa (2 ^ 30) ltac:(lia)). pose proof (Z.mod_pos_bound gpa (2 ^ 30) ltac:(lia)). lia. }
  destruct (block_levels gpa Hg32) as (Eri & Eli & Hri). destruct (index_div gpa) as (Er & El & Ez).
  rewrite Z.mod_small in Er by lia. rewrite <- Er, <- El, <- Ez.
  pose proof (l1_static g (root_index gpa) Hw Hri) as Hs. destruct (gw_static _ Hw _ (or_introl Hs)) as [Hm Hlt].
  destruct (nonleaf_entry _ Hm Hlt) as (-> & -> & ->). cbn [negb].
  set (b := gpa / GSTAGE_BLOCK_SIZE) in *. assert (0 <= b < 2048) as Hb by (split; [apply Z.div_pos|apply Z.div_lt_upper_bound]; lia).
  pose proof (gi_l1 _ _ Hinv b Hb) as El1. unfold l1_slot in El1. rewrite Eri, Eli in El1. rewrite El1. clear El1.
  pose proof (block_in_window g gpa Hw) as Eb. fold b in Eb. unfold l1_entry. rewrite <- Eb.
  destruct (rv_gstage_ipa_is_ram g gpa) eqn:Ein; [|done]. destruct (ram_blk_in g gpa Hw Ein) as (-> & Hr & _). fold b in Hr |- *.
  rewrite (proj2 (Z.ltb_ge _ 0)) by lia. cbn [andb negb]. destruct (Z.eqb_spec (l0_at g (b - first_block g)) 0) as [E0|Hne]; [done|].
  cbn [negb]. destruct (gi_l0 _ _ Hinv _ _ (l0_lookup g _ Hr) Hne) as (Hm' & Hlt' & _). destruct (nonleaf_entry _ Hm' Hlt') as (-> & -> & ->).
  assert (0 <= l0_index gpa < 512) as Hk by (rewrite Ez; apply Z.mod_pos_bound; lia).
  destruct (gi_leaf _ _ Hinv _ _ _ (l0_lookup g _ Hr) Hne Hk) as [->|(x & -> & (Hxm & Hx & _) & _)]; [done|].
  cbn [negb]. destruct (leaf_entry x Hxm Hx) as (Hv & Hleaf & Hpa). rewrite Hv, Hleaf. cbn [negb andb orb].
  unfold hw_leaf. rewrite Hpa, lor_offset by done. done.
Qed.

(** ** What the tables say of a guest page *)

(** Entry [k] of block [i] of the window, 0 when the block has no table. *)
Definition gs_entry (w : kmem) (g : gstage_ctx_t) (i k : Z) : Z :=
  if l0_at g i =? 0 then 0 else km_word w (l0_at g i + 8 * k).

(** A page the tables of the machine are in. *)
Definition held (g : gstage_ctx_t) (p : Z) : Prop := static_page g p \/ (p ∈ gs_l0_tbl g /\ p <> 0).

(** No table of the machine uses [x], as a table or as a guest page. *)
Definition unused (w : kmem) (g : gstage_ctx_t) (x : Z) : Prop :=
  (x ∉ gs_l0_tbl g) /\
  forall i t k, gs_l0_tbl g !! i = Some t -> t <> 0 -> 0 <= k < 512 -> km_word w (t + 8 * k) <> RV_PTE_FROM_PA x GSTAGE_RAM_FLAGS.

Lemma held_page w g p : gs_inv w g -> held g p -> p mod PAGE_SIZE = 0 /\ ~ free_at (km_pmm w) p.
Proof.
  intros Hinv [Hs|[Hi Hne]].
  - split; [by apply (gw_static _ (gi_window _ _ Hinv))|by apply (gi_static _ _ Hinv)].
  - apply list_elem_of_lookup in Hi as [i Hi]. destruct (gi_l0 _ _ Hinv i p Hi Hne) as (? & _ & ?%owned_not_free & _). done.
Qed.

Lemma root_word g i : 0 <= i < 2048 -> exists p, static_page g p /\ gs_root g + 8 * i = p + 8 * (i mod 512).
Proof.
  intros Hi. exists (gs_root g + i / 512 * PAGE_SIZE). split; [right; exists (i / 512); split; [|done]|].
  - split; [apply Z.div_pos|apply Z.div_lt_upper_bound]; lia.
  - pose proof (Z.div_mod i 512 ltac:(lia)). lia.
Qed.

Lemma l1_word g b : gs_window g -> 0 <= b < 2048 -> exists p, static_page g p /\ p ∈ gs_l1 g /\ l1_slot g b = p + 8 * (b mod 512).
Proof.
  intros Hw Hb. exists (aget 0 (gs_l1 g) (b / 512)). assert (0 <= b / 512 < 4) by (split; [apply Z.div_pos|apply Z.div_lt_upper_bound]; lia).
  pose proof (l1_static g (b / 512) Hw ltac:(lia)). split; [by left|]. done.
Qed.

Lemma mod512 b : 0 <= b mod 512 < 512.
Proof. apply Z.mod_pos_bound. lia. Qed.
#[local] Hint Resolve mod512 : core.

Lemma good_page_mono w w' g x :
  same_range (km_pmm w) (km_pmm w') -> (forall y, free_at (km_pmm w') y -> free_at (km_pmm w) y) -> good_page w g x -> good_page w' g x.
Proof.
  intros Hsr H (? & ? & Ho & ?). split; [done|]. split; [done|]. split; [|done]. eapply owned_change; [done..|].
  intros Hf. by apply (owned_not_free _ _ Ho), H.
Qed.

(** A change of memory away from the tables, and allocations, keep the invariant. *)
Lemma gs_inv_frame w w' g :
  gs_inv w g -> pmm_inv (km_pmm w') -> same_range (km_pmm w) (km_pmm w') ->
  (forall y, free_at (km_pmm w') y -> free_at (km_pmm w) y) ->
  (forall p k, held g p -> 0 <= k < 512 -> km_word w' (p + 8 * k) = km_word w (p + 8 * k)) ->
  gs_inv w' g.
Proof.
  intros Hinv Hp Hsr Hfree Hmem. pose proof Hsr as (Es & Et & _).
  assert (forall i t k, gs_l0_tbl g !! i = Some t -> t <> 0 -> 0 <= k < 512 -> km_word w' (t + 8 * k) = km_word w (t + 8 * k)) as Hl0.
  { intros i t k Hi Hne Hk. apply Hmem; [|done]. right. split; [by eapply list_elem_of_lookup_2|done]. }
  destruct Hinv as [_ Hlim Hw Hst Hroot Hl1 Ht Hinj Hleaf Hlinj]. split; [done| |done|..].
  - unfold page_addr in *. by rewrite Es, Et.
  - intros x Hx Hf. by apply (Hst x Hx), Hfree.
  - intros i Hi. destruct (root_word g i Hi) as (p & Hsp & E). rewrite <- (Hroot i Hi), E. apply Hmem; [by left|done].
  - intros b Hb. destruct (l1_word g b Hw Hb) as (p & Hsp & _ & E). rewrite <- (Hl1 b Hb), E. apply Hmem; [by left|done].
  - intros i t Hi Hne. eapply good_page_mono; eauto.
  - done.
  - intros i t k Hi Hne Hk. rewrite (Hl0 i t k) by done. destruct (Hleaf i t k Hi Hne Hk) as [->|(x & E & Hg & Hx)]; [by left|right].
    exists x. split; [done|]. split; [|done]. eapply good_page_mono; eauto.
  - intros i t k j u l Hi Hne Hk Hj Hne' Hl. rewrite (Hl0 i t k), (Hl0 j u l) by done. by apply Hlinj.
Qed.

Lemma gs_entry_frame w w' g i k :
  (forall p k, held g p -> 0 <= k < 512 -> km_word w' (p + 8 * k) = km_word w (p + 8 * k)) ->
  0 <= i < Z.of_nat (length (gs_l0_tbl g)) -> 0 <= k < 512 -> gs_entry w' g i k = gs_entry w g i k.
Proof.
  intros H Hi Hk. unfold gs_entry. destruct (Z.eqb_spec (l0_at g i) 0); [done|]. apply H; [|done].
  right. split; [|done]. eapply list_elem_of_lookup_2, l0_lookup, Hi.
Qed.

(** A page just allocated, its words arbitrary. *)
Lemma fresh_page w w' g x pm' :
  gs_inv w g -> free_at (km_pmm w) x -> pmm_inv pm' -> same_range (km_pmm w) pm' ->
  (forall y, free_at pm' y <-> free_at (km_pmm w) y /\ y <> x) -> km_pmm w' = pm' ->
  (forall a, a < x \/ x + PAGE_SIZE <= a -> km_word w' a = km_word w a) ->
  gs_inv w' g /\ good_page w' g x /\ unused w' g x /\
  (forall i k, 0 <= i < Z.of_nat (length (gs_l0_tbl g)) -> 0 <= k < 512 -> gs_entry w' g i k = gs_entry w g i k).
Proof.
  intros Hinv Hx Hp Hsr Hfree Ep Hout. destruct (free_at_page _ _ (gi_pmm _ _ Hinv) Hx) as [Hx0 Hxm].
  assert (forall p k, held g p -> 0 <= k < 512 -> km_word w' (p + 8 * k) = km_word w (p + 8 * k)) as Hmem.
  { intros p k Hh Hk. destruct (held_page w g p Hinv Hh) as [Hpm Hnf]. apply Hout. apply aligned_outside; [done..|]. by intros ->. }
  assert (x < PT_PA_LIMIT) as Hlim.
  { pose proof (gi_limit _ _ Hinv) as Hl. destruct Hx as (i & Hi & -> & _). unfold page_addr in *. lia. }
  split_and!.
  - apply (gs_inv_frame w); [done|by rewrite Ep|by rewrite Ep| |done]. intros y. rewrite Ep, Hfree. tauto.
  - split_and!; [done|lia|done| |].
    + rewrite Ep. apply (taken_owned (km_pmm w)); [apply (gi_pmm _ _ Hinv)|done|done|]. rewrite Hfree. by intros [_ ?].
    + intros Hs. by apply (gi_static _ _ Hinv x Hs).
  - split.
    + intros (i & Hi)%list_elem_of_lookup. destruct (gi_l0 _ _ Hinv i x Hi ltac:(lia)) as (_ & _ & ?%owned_not_free & _). done.
    + intros i t k Hi Hne Hk E. rewrite (Hmem t k (or_intror (conj (list_elem_of_lookup_2 _ _ _ Hi) Hne)) Hk) in E.
      destruct (gi_leaf _ _ Hinv i t k Hi Hne Hk) as [E0|(y & E' & (Hym & Hy & Hnf%owned_not_free & _) & _)].
      * rewrite E0 in E. destruct (leaf_entry x Hxm ltac:(lia)) as (Hv & _). by rewrite <- E in Hv.
      * rewrite E' in E. destruct (leaf_entry x Hxm ltac:(lia)) as (_ & _ & Ex). destruct (leaf_entry y Hym Hy) as (_ & _ & Ey).
        rewrite E, Ex in Ey. by subst y.
  - intros i k Hi Hk. by apply gs_entry_frame.
Qed.

(** ** A guest page behind an entry *)

Section fill.
Context (w : kmem) (g : gstage_ctx_t) (i : nat) (t k x : Z).
Context (Hinv : gs_inv w g) (Hi : gs_l0_tbl g !! i = Some t) (Ht : t <> 0) (Hk : 0 <= k < 512).
Context (Hgood : good_page w g x) (Hun : unused w g x).

Let w' := store w (t + 8 * k) (RV_PTE_FROM_PA x GSTAGE_RAM_FLAGS).

Lemma fill_other p l : p mod PAGE_SIZE = 0 -> 0 <= l < 512 -> p <> t \/ l <> k -> km_word w' (p + 8 * l) = km_word w (p + 8 * l).
Proof using Hinv Hi Ht Hk.
  intros Hp Hl Hne. apply word_store_ne. intros E. destruct (gi_l0 _ _ Hinv i t Hi Ht) as (Htm & _).
  destruct (aligned_disjoint p t l k Hp Htm Hl Hk E). lia.
Qed.

Lemma fill_static p l : static_page g p -> 0 <= l < 512 -> km_word w' (p + 8 * l) = km_word w (p + 8 * l).
Proof using Hinv Hi Ht Hk.
  intros Hs Hl. apply fill_other; [by apply (gw_static _ (gi_window _ _ Hinv))|done|]. left. intros ->.
  by destruct (gi_l0 _ _ Hinv i t Hi Ht) as (_ & _ & _ & ?).
Qed.

Lemma fill_word j u l : gs_l0_tbl g !! j = Some u -> u <> 0 -> 0 <= l < 512 ->
  (j = i /\ l = k /\ km_word w' (u + 8 * l) = RV_PTE_FROM_PA x GSTAGE_RAM_FLAGS) \/
  (~ (j = i /\ l = k) /\ km_word w' (u + 8 * l) = km_word w (u + 8 * l)).
Proof using Hinv Hi Ht Hk.
  intros Hj Hu Hl. destruct (decide (j = i /\ l = k)) as [[-> ->]|Hne].
  - left. simplify_eq. split; [done|]. split; [done|]. apply word_store_eq.
  - right. split; [done|]. apply fill_other; [by apply (gi_l0 _ _ Hinv j u)|done|].
    destruct (decide (l = k)); [left|by right]. intros ->. apply Hne. split; [|done]. by apply (gi_l0_inj _ _ Hinv _ _ t).
Qed.

Lemma fill_inv : gs_inv w' g.
Proof using Hinv Hi Ht Hk Hgood Hun.
  pose proof fill_word as Hword. pose proof fill_static as Hstat.
  destruct Hinv as [Hp Hlim Hw Hst Hroot Hl1 Hl0 Hinj Hleaf Hlinj]. split; [exact Hp|exact Hlim|exact Hw|exact Hst|..].
  - intros r Hr. destruct (root_word g r Hr) as (p & Hsp & E). rewrite <- (Hroot r Hr), E. by apply Hstat.
  - intros b Hb. destruct (l1_word g b Hw Hb) as (p & Hsp & _ & E). rewrite <- (Hl1 b Hb), E. by apply Hstat.
  - exact Hl0.
  - exact Hinj.
  - intros j u l Hj Hu Hl. destruct (Hword j u l Hj Hu Hl) as [(_ & _ & ->)|[_ ->]]; [|by apply (Hleaf j)].
    right. exists x. split; [done|]. split; [exact Hgood|apply Hun].
  - intros j u l j' u' l' Hj Hu Hl Hj' Hu' Hl'. destruct Hun as [_ Hno].
    destruct (Hword j u l Hj Hu Hl) as [(-> & -> & ->)|[_ ->]], (Hword j' u' l' Hj' Hu' Hl') as [(-> & -> & ->)|[_ ->]]; [done|..].
    + intros _ E. by destruct (Hno j' u' l').
    + intros _ E. by destruct (Hno j u l).
    + by apply Hlinj.
Qed.

Lemma fill_entries j l : 0 <= j < Z.of_nat (length (gs_l0_tbl g)) -> 0 <= l < 512 ->
  gs_entry w' g j l = if (j =? Z.of_nat i) && (l =? k) then RV_PTE_FROM_PA x GSTAGE_RAM_FLAGS else gs_entry w g j l.
Proof using Hinv Hi Ht Hk.
  intros Hj Hl. unfold gs_entry. pose proof (l0_lookup g j Hj) as Hlk. destruct (Z.eqb_spec (l0_at g j) 0) as [E0|Hu].
  - destruct (Z.eqb_spec j (Z.of_nat i)) as [->|]; [|done]. rewrite Nat2Z.id, Hi in Hlk. injection Hlk as Hlk. congruence.
  - destruct (fill_word _ _ l Hlk Hu Hl) as [(E & -> & ->)|[Hne ->]].
    + replace (j =? Z.of_nat i) with true by lia. by rewrite Z.eqb_refl.
    + destruct (Z.eqb_spec j (Z.of_nat i)), (Z.eqb_spec l k); [|done..]. destruct Hne. split; [lia|done].
Qed.

End fill.

(** ** A table behind an entry of the first level *)

Section link.
Context (w : kmem) (g : gstage_ctx_t) (b x : Z).
Context (Hinv : gs_inv w g) (Hb : 0 <= b < 2048) (Hi : 0 <= b - first_block g < Z.of_nat (length (gs_l0_tbl g))).
Context (Hnone : l0_at g (b - first_block g) = 0) (Hgood : good_page w g x) (Hun : unused w g x).
Context (Hzero : forall k, 0 <= k < 512 -> km_word w (x + 8 * k) = 0).

Let w' := store w (l1_slot g b) (RV_PTE_FROM_PA x RV_PTE_V).
Let g' := set_l0_tbl g (aset (gs_l0_tbl g) (b - first_block g) x).

Lemma link_other p k : p mod PAGE_SIZE = 0 -> 0 <= k < 512 -> p ∉ gs_l1 g -> km_word w' (p + 8 * k) = km_word w (p + 8 * k).
Proof using Hinv Hb.
  intros Hp Hk Hne. apply word_store_ne. intros E. pose proof (gi_window _ _ Hinv) as Hw.
  destruct (l1_word g b Hw Hb) as (q & Hs & Hq & Eq). rewrite Eq in E. destruct (gw_static _ Hw q Hs) as [Hqm _].
  destruct (aligned_disjoint p q k (b mod 512) Hp Hqm Hk (mod512 b) E) as [-> _]. done.
Qed.

Lemma link_l1 c : 0 <= c < 2048 -> km_word w' (l1_slot g c) = if c =? b then RV_PTE_FROM_PA x RV_PTE_V else km_word w (l1_slot g c).
Proof using Hinv Hb.
  intros Hc. destruct (Z.eqb_spec c b) as [->|Hne]; [apply word_store_eq|]. apply word_store_ne. intros E. apply Hne.
  pose proof (gi_window _ _ Hinv) as Hw. destruct (gw_l1 _ Hw) as [Hlen Hnd]. unfold l1_slot in E.
  assert (forall d, 0 <= d < 2048 -> 0 <= d / 512 < 4) as Hd by (intros; split; [apply Z.div_pos|apply Z.div_lt_upper_bound]; lia).
  assert (forall d, 0 <= d < 2048 -> aget 0 (gs_l1 g) (d / 512) mod PAGE_SIZE = 0) as Hal.
  { intros d Hd'. apply (gw_static _ Hw). left. apply l1_static; [done|by apply Hd]. }
  destruct (aligned_disjoint _ _ _ _ (Hal c Hc) (Hal b Hb) (mod512 c) (mod512 b) E) as [E1 E2].
  assert (c / 512 = b / 512) as E3; [|pose proof (Z.div_mod c 512 ltac:(lia)); pose proof (Z.div_mod b 512 ltac:(lia)); lia].
  pose proof (Hd c Hc). pose proof (Hd b Hb).
  assert (Z.to_nat (c / 512) = Z.to_nat (b / 512)); [|lia]. eapply NoDup_lookup; [exact Hnd|apply (aget_lookup 0); lia|].
  rewrite E1. apply (aget_lookup 0). lia.
Qed.

Lemma link_lookup j t : gs_l0_tbl g' !! j = Some t -> t <> 0 ->
  (Z.of_nat j = b - first_block g /\ t = x) \/ (Z.of_nat j <> b - first_block g /\ gs_l0_tbl g !! j = Some t).
Proof using Hi.
  cbn [gs_l0_tbl set_l0_tbl g']. unfold aset. intros Hj Hne. destruct (decide (j = Z.to_nat (b - first_block g))) as [->|Hj'].
  - rewrite list_lookup_insert_eq in Hj by lia. left. split; [lia|]. by injection Hj.
  - rewrite list_lookup_insert_ne in Hj by done. right. split; [lia|done].
Qed.

Lemma link_word t k : 0 <= k < 512 -> t = x \/ (exists j, gs_l0_tbl g !! j = Some t /\ t <> 0) -> km_word w' (t + 8 * k) = km_word w (t + 8 * k).
Proof using Hinv Hb Hgood.
  intros Hk [->|(j & Hj & Hne)].
  - destruct Hgood as (Hxm & _ & _ & Hns). apply link_other; [done..|]. intros Hc. apply Hns. by left.
  - destruct (gi_l0 _ _ Hinv j t Hj Hne) as (Htm & _ & _ & Hns). apply link_other; [done..|]. intros Hc. apply Hns. by left.
Qed.

Lemma link_l1_entry c : l1_entry g' c = if c =? b then RV_PTE_FROM_PA x RV_PTE_V else l1_entry g c.
Proof using Hi Hgood.
  unfold l1_entry, l0_at. change (first_block g') with (first_block g). cbn [gs_l0_tbl set_l0_tbl g']. rewrite length_aset.
  destruct (Z.eqb_spec c b) as [->|Hne].
  - rewrite aget_aset_eq by lia. destruct Hgood as (_ & Hx & _). replace (_ && _ && _) with true by lia. done.
  - destruct (Z.leb_spec (first_block g) c); [|done]. rewrite aget_aset_ne by lia. done.
Qed.

Lemma link_gs_window : gs_window g'.
Proof using Hinv.
  destruct (gi_window _ _ Hinv) as [Hba He Hl H1 Hs Ha]. split; try done. cbn [gs_l0_tbl set_l0_tbl g']. rewrite length_aset. done.
Qed.

Lemma link_gs_inv : gs_inv w' g'.
Proof using Hinv Hb Hi Hnone Hgood Hun Hzero.
  pose proof link_lookup as Hlook. pose proof link_word as Hword. pose proof link_l1 as Hl1'. pose proof link_l1_entry as Hent.
  pose proof Hgood as (Hxm & Hx0 & Hxf & Hxs). destruct Hun as [Hxl0 Hxleaf].
  assert (forall j u k, gs_l0_tbl g !! j = Some u -> u <> 0 -> 0 <= k < 512 -> km_word w' (u + 8 * k) = km_word w (u + 8 * k)) as Hold
    by (intros; apply Hword; [done|right; eauto]).
  assert (forall k, 0 <= k < 512 -> km_word w' (x + 8 * k) = 0) as Hnew by (intros k Hk; rewrite Hword by auto; by apply Hzero).
  split.
  - apply (gi_pmm _ _ Hinv).
  - apply (gi_limit _ _ Hinv).
  - apply link_gs_window.
  - apply (gi_static _ _ Hinv).
  - intros r Hr. change (gs_root g') with (gs_root g). change (gs_l1 g') with (gs_l1 g). rewrite <- (gi_root _ _ Hinv r Hr).
    replace (gs_root g + 8 * r) with (gs_root g + r / 512 * PAGE_SIZE + 8 * (r mod 512)) by (pose proof (Z.div_mod r 512 ltac:(lia)); lia).
    assert (0 <= r / 512 < 4) as Hq by (split; [apply Z.div_pos|apply Z.div_lt_upper_bound]; lia). pose proof (gi_window _ _ Hinv) as Hw.
    apply link_other; [|done|by apply (gw_apart _ Hw)]. apply (gw_static _ Hw). right. by exists (r / 512).
  - intros c Hc. change (l1_slot g' c) with (l1_slot g c). rewrite (Hl1' c Hc), (Hent c).
    destruct (c =? b); [done|]. by apply (gi_l1 _ _ Hinv).
  - intros j t Hj Hne. destruct (Hlook j t Hj Hne) as [[_ ->]|[_ Hj']]; [exact Hgood|]. exact (gi_l0 _ _ Hinv j t Hj' Hne).
  - intros j l t Hj Hl Hne. destruct (Hlook j t Hj Hne) as [[Ej ->]|[_ Hj']], (Hlook l _ Hl Hne) as [[El E]|[_ Hl']].
    + lia.
    + destruct Hxl0. by eapply list_elem_of_lookup_2.
    + destruct Hxl0. rewrite <- E. by eapply list_elem_of_lookup_2.
    + by apply (gi_l0_inj _ _ Hinv j l t).
  - intros j t k Hj Hne Hk. destruct (Hlook j t Hj Hne) as [[_ ->]|[_ Hj']]; [left; by apply Hnew|].
    rewrite (Hold j t k) by done. destruct (gi_leaf _ _ Hinv j t k Hj' Hne Hk) as [E|(y & E & Hy & Hyl)]; [by left|right].
    exists y. split; [done|]. split; [exact Hy|]. intros [l Hl]%list_elem_of_lookup. destruct Hy as (_ & Hy0 & _).
    destruct (Hlook l y Hl ltac:(lia)) as [[_ ->]|[_ Hl']]; [by apply (Hxleaf j t k)|]. apply Hyl. by eapply list_elem_of_lookup_2.
  - intros j t k l u m Hj Ht Hk Hl Hu Hm. destruct (Hlook j t Hj Ht) as [[_ ->]|[_ Hj']]; [by rewrite Hnew|].
    destruct (Hlook l u Hl Hu) as [[_ ->]|[_ Hl']]; [intros Hz E; by rewrite E, Hnew in Hz|].
    rewrite (Hold j t k), (Hold l u m) by done. by apply (gi_leaf_inj _ _ Hinv).
Qed.

Lemma link_gs_entries j k : 0 <= j < Z.of_nat (length (gs_l0_tbl g)) -> 0 <= k < 512 -> gs_entry w' g' j k = gs_entry w g j k.
Proof using Hinv Hb Hi Hnone Hgood Hun Hzero.
  intros Hj Hk. unfold gs_entry. unfold l0_at at 1 2. cbn [gs_l0_tbl set_l0_tbl g']. destruct (decide (j = b - first_block g)) as [->|Hne].
  - rewrite aget_aset_eq by lia. destruct Hgood as (_ & Hx0 & _). rewrite Hnone, Z.eqb_refl. replace (x =? 0) with false by lia.
    rewrite link_word by auto. by apply Hzero.
  - rewrite aget_aset_ne by lia. change (aget 0 (gs_l0_tbl g) j) with (l0_at g j). destruct (Z.eqb_spec (l0_at g j) 0); [done|].
    apply link_word; [done|]. right. exists (Z.to_nat j). split; [by apply l0_lookup|done].
Qed.

End link.

(** ** Operations on the tables *)

(** The block and the entry of a guest address. *)
Definition blk (g : gstage_ctx_t) (gpa : Z) : Z := gpa / GSTAGE_BLOCK_SIZE - first_block g.

Definition entry_of (w : kmem) (g : gstage_ctx_t) (gpa : Z) : Z := gs_entry w g (blk g gpa) (l0_index gpa).

Lemma l0_index_range gpa : 0 <= l0_index gpa < 512.
Proof. apply pt_index_range. Qed.

(** An entry is empty or a guest page. *)
Lemma entry_cases w g i k :
  gs_inv w g -> 0 <= i < Z.of_nat (length (gs_l0_tbl g)) -> 0 <= k < 512 ->
  gs_entry w g i k = 0 \/ exists x, gs_entry w g i k = RV_PTE_FROM_PA x GSTAGE_RAM_FLAGS /\ good_page w g x.
Proof.
  intros Hinv Hi Hk. unfold gs_entry. destruct (Z.eqb_spec (l0_at g i) 0); [by left|].
  destruct (gi_leaf _ _ Hinv _ _ k (l0_lookup g i Hi) ltac:(done) Hk) as [->|(x & -> & Hx & _)]; [by left|right; eauto].
Qed.

Lemma leaf_nonzero x : x mod PAGE_SIZE = 0 -> 0 < x < PT_PA_LIMIT -> RV_PTE_FROM_PA x GSTAGE_RAM_FLAGS <> 0.
Proof. intros Hm Hx E. destruct (leaf_entry x Hm Hx) as [Hv _]. by rewrite E in Hv. Qed.

Lemma lookup_entry w g gpa :
  gs_inv w g ->
  rv_gstage_lookup w g gpa =
  if rv_gstage_ipa_is_ram g gpa then
    if entry_of w g gpa =? 0 then None else Some (RV_PTE_TO_PA (entry_of w g gpa) + gpa mod PAGE_SIZE)
  else None.
Proof.
  intros Hinv. unfold rv_gstage_lookup. destruct (rv_gstage_ipa_is_ram g gpa) eqn:Ein; [|done]. cbn [negb].
  destruct (ram_blk_in g gpa (gi_window _ _ Hinv) Ein) as (-> & Hr & _). fold (blk g gpa) in *.
  rewrite (proj2 (Z.ltb_ge _ 0)) by lia. pose proof (entry_cases w g _ _ Hinv Hr (l0_index_range gpa)) as Hc.
  unfold entry_of. unfold gs_entry in *. destruct (l0_at g (blk g gpa) =? 0); [done|].
  destruct Hc as [->|(x & -> & Hxm & Hx & _)]; [done|]. destruct (leaf_entry x Hxm Hx) as (Hv & Hl & Hp).
  rewrite Hv, Hl, Hp. cbn [negb orb]. rewrite (proj2 (Z.eqb_neq _ 0)) by by apply leaf_nonzero. by rewrite lor_offset.
Qed.

(** The machine keeps its window and holds what it held, and takes only free pages. *)
Record gs_grows (w : kmem) (g : gstage_ctx_t) (w' : kmem) (g' : gstage_ctx_t) : Prop := mk_gs_grows {
  gg_inv : gs_inv w' g';
  gg_ctx : exists l, g' = set_l0_tbl g l /\ length l = length (gs_l0_tbl g);
  gg_free : forall y, free_at (km_pmm w') y -> free_at (km_pmm w) y;
}.

Lemma gs_grows_refl w g : gs_inv w g -> gs_grows w g w g.
Proof. intros H. split; [done| |done]. exists (gs_l0_tbl g). split; [by destruct g|done]. Qed.

Lemma gs_grows_trans w1 g1 w2 g2 w3 g3 : gs_grows w1 g1 w2 g2 -> gs_grows w2 g2 w3 g3 -> gs_grows w1 g1 w3 g3.
Proof.
  intros [_ (l & -> & El) Hf] [Hi (l' & -> & El') Hf']. split; [done| |auto]. exists l'. split; [done|]. cbn in El'. congruence.
Qed.

(** The entry a page number of the guest selects. *)
Lemma same_entry g gpa gpa' : blk g gpa = blk g gpa' -> l0_index gpa = l0_index gpa' -> gpa / PAGE_SIZE = gpa' / PAGE_SIZE.
Proof.
  intros Hb Hi. destruct (index_div gpa) as (_ & _ & E). destruct (index_div gpa') as (_ & _ & E'). rewrite E, E' in Hi.
  unfold blk in Hb. change GSTAGE_BLOCK_SIZE with (2 ^ 12 * 512) in Hb. rewrite <- !Z.div_div in Hb by lia.
  pose proof (Z.div_mod (gpa / 2 ^ 12) 512 ltac:(lia)). pose proof (Z.div_mod (gpa' / 2 ^ 12) 512 ltac:(lia)).
  change PAGE_SIZE with (2 ^ 12). lia.
Qed.

Lemma same_page g gpa gpa' : gpa / PAGE_SIZE = gpa' / PAGE_SIZE -> blk g gpa = blk g gpa' /\ l0_index gpa = l0_index gpa'.
Proof.
  intros E. destruct (index_div gpa) as (_ & _ & ->). destruct (index_div gpa') as (_ & _ & ->). unfold blk.
  change GSTAGE_BLOCK_SIZE with (PAGE_SIZE * 512). rewrite <- !Z.div_div by lia. change (2 ^ 12) with PAGE_SIZE. by rewrite E.
Qed.

Lemma lookup_page w g gpa y :
  gs_inv w g -> rv_gstage_lookup w g gpa = Some y ->
  exists x, good_page w g x /\ rv_gstage_ipa_is_ram g gpa = true /\ y = x + gpa mod PAGE_SIZE /\
    entry_of w g gpa = RV_PTE_FROM_PA x GSTAGE_RAM_FLAGS.
Proof.
  intros Hinv. rewrite lookup_entry by done. destruct (rv_gstage_ipa_is_ram g gpa) eqn:Hin; [|done].
  destruct (ram_blk_in g gpa (gi_window _ _ Hinv) Hin) as (_ & Hr & _). fold (blk g gpa) in Hr.
  destruct (entry_cases w g _ _ Hinv Hr (l0_index_range gpa)) as [E|(x & E & Hx)]; fold (entry_of w g gpa) in E; rewrite E; [done|].
  pose proof Hx as (Hm & Hl & _). rewrite (proj2 (Z.eqb_neq _ 0)) by by apply leaf_nonzero. destruct (leaf_entry x Hm Hl) as (_ & _ & ->).
  intros [= <-]. by exists x.
Qed.

Lemma lookup_range w g gpa y : gs_inv w g -> rv_gstage_lookup w g gpa = Some y -> 0 <= gpa < 2 ^ 41.
Proof.
  intros Hinv H. destruct (lookup_page w g gpa y Hinv H) as (x & _ & Hin & _). destruct (gi_window _ _ Hinv) as [[? _] _ ? _ _ _].
  unfold rv_gstage_ipa_is_ram in Hin. lia.
Qed.

(** Two entries of one page are one entry. *)
Lemma entry_inj w g i k j l :
  gs_inv w g -> 0 <= i < Z.of_nat (length (gs_l0_tbl g)) -> 0 <= k < 512 -> 0 <= j < Z.of_nat (length (gs_l0_tbl g)) -> 0 <= l < 512 ->
  gs_entry w g i k <> 0 -> gs_entry w g i k = gs_entry w g j l -> i = j /\ k = l.
Proof.
  intros Hinv Hi Hk Hj Hl. unfold gs_entry. destruct (Z.eqb_spec (l0_at g i) 0) as [|Ht]; [done|].
  destruct (Z.eqb_spec (l0_at g j) 0) as [|Hu]; [done|]. intros Hne E.
  destruct (gi_leaf_inj _ _ Hinv _ _ k _ _ l (l0_lookup g i Hi) Ht Hk (l0_lookup g j Hj) Hu Hl Hne E). split; [lia|done].
Qed.

Lemma lookup_inj w g gpa gpa' y :
  gs_inv w g -> rv_gstage_lookup w g gpa = Some y -> rv_gstage_lookup w g gpa' = Some y -> gpa = gpa'.
Proof.
  intros Hinv H H'. pose proof (gi_window _ _ Hinv) as Hw.
  destruct (lookup_page w g gpa y Hinv H) as (x & (Hm & Hx & _) & Hin & Ey & E).
  destruct (lookup_page w g gpa' y Hinv H') as (x' & (Hm' & Hx' & _) & Hin' & Ey' & E').
  pose proof (Z.div_mod x PAGE_SIZE ltac:(lia)). pose proof (Z.div_mod x' PAGE_SIZE ltac:(lia)).
  pose proof (Z.mod_pos_bound gpa PAGE_SIZE ltac:(lia)). pose proof (Z.mod_pos_bound gpa' PAGE_SIZE ltac:(lia)).
  assert (x = x') as <- by lia. rewrite <- E in E'. destruct (ram_blk_in g gpa Hw Hin) as (_ & Hr & _). destruct (ram_blk_in g gpa' Hw Hin') as (_ & Hr' & _).
  destruct (entry_inj w g _ _ _ _ Hinv Hr (l0_index_range gpa) Hr' (l0_index_range gpa')) as [Eb Ek]; [|done|].
  { fold (blk g gpa). fold (entry_of w g gpa). rewrite E. by apply leaf_nonzero. }
  pose proof (same_entry g gpa gpa' Eb Ek). pose proof (Z.div_mod gpa PAGE_SIZE ltac:(lia)). pose proof (Z.div_mod gpa' PAGE_SIZE ltac:(lia)). lia.
Qed.

(** C20. The hart, walking the three levels from the root of the machine, translates a
    guest physical address (of the 41 bits of Sv39x4) exactly when the software lookup
    finds it, and to the same host address; nothing outside the RAM window is ever
    translated; no two guest addresses share a host address; and a host page that is
    translated to is never free. *)
Theorem gstage_hart_agrees w g gpa :
  gs_inv w g -> 0 <= gpa < 2 ^ 41 ->
  hw_walk (km_word w) (gs_root g) gpa = rv_gstage_lookup w g gpa /\
  (rv_gstage_ipa_is_ram g gpa = false -> hw_walk (km_word w) (gs_root g) gpa = None) /\
  (forall gpa' y, 0 <= gpa' < 2 ^ 41 -> hw_walk (km_word w) (gs_root g) gpa = Some y ->
     hw_walk (km_word w) (gs_root g) gpa' = Some y -> gpa = gpa') /\
  (forall y, hw_walk (km_word w) (gs_root g) gpa = Some y -> ~ free_at (km_pmm w) (y / PAGE_SIZE * PAGE_SIZE)).
Proof.
  intros Hinv Hg. rewrite (hart_walk w g gpa) by done. split; [done|]. split; [|split].
  - intros Hout. unfold rv_gstage_lookup. by rewrite Hout.
  - intros gpa' y Hg'. rewrite (hart_walk w g gpa') by done. intros H H'. by eapply lookup_inj.
  - intros y H. destruct (lookup_page w g gpa y Hinv H) as (x & Hx & _ & -> & _). destruct Hx as (Hm & _ & Hf%owned_not_free & _).
    replace ((x + gpa mod PAGE_SIZE) / PAGE_SIZE * PAGE_SIZE) with x; [done|].
    pose proof (Z.mod_pos_bound gpa PAGE_SIZE ltac:(lia)). pose proof (Z.div_mod x PAGE_SIZE ltac:(lia)).
    rewrite <- Z.add_0_r at 1. symmetry. rewrite Z.add_0_r. replace (x + gpa mod PAGE_SIZE) with (gpa mod PAGE_SIZE + x / PAGE_SIZE * PAGE_SIZE) by lia.
    rewrite Z.div_add, Z.div_small by lia. lia.
Qed.

Lemma l0_ensure_spec w g gpa :
  gs_inv w g -> rv_gstage_ipa_is_ram g gpa = true ->
  exists t w' g', l0_ensure w g gpa = Some (t, w', g') /\ gs_grows w g w' g' /\ ((forall x, ~ free_at (km_pmm w) x) -> w' = w /\ g' = g) /\
    (forall i k, 0 <= i < Z.of_nat (length (gs_l0_tbl g)) -> 0 <= k < 512 -> gs_entry w' g' i k = gs_entry w g i k) /\
    (if t =? 0 then w' = w /\ g' = g /\ (forall x, ~ free_at (km_pmm w) x) /\ l0_at g (blk g gpa) = 0
     else l0_at g' (blk g gpa) = t /\ (l0_at g (blk g gpa) <> 0 -> w' = w /\ g' = g)).
Proof.
  intros Hinv Hin. pose proof (gi_window _ _ Hinv) as Hw. destruct (ram_blk_in g gpa Hw Hin) as (Eb & Hr & Hb).
  unfold l0_ensure. rewrite Eb. fold (blk g gpa) in *. rewrite (proj2 (Z.ltb_ge _ 0)) by lia.
  destruct (Z.eqb_spec (l0_at g (blk g gpa)) 0) as [E0|Hne]; cbn [negb]; cycle 1.
  { exists (l0_at g (blk g gpa)), w, g. rewrite (proj2 (Z.eqb_neq _ 0)) by done. split_and!; try done. by apply gs_grows_refl. }
  assert (0 <= gpa < 2 ^ 32) as Hg32.
  { destruct Hw as [[? _] _ ? _ _ _]. unfold rv_gstage_ipa_is_ram in Hin. lia. }
  destruct (block_levels gpa Hg32) as (Er & El & Hri). rewrite (proj2 (Z.leb_gt _ _)) by lia.
  destruct (alloc_one (km_pmm w) (gi_pmm _ _ Hinv)) as [[-> Hno]|(x & pm' & -> & Hx0 & Hx & Hp' & Hsr & _ & Hfree)].
  { cbn. exists 0, w, g. split_and!; try done; [by destruct w|by apply gs_grows_refl]. }
  cbn [mbind option_bind]. rewrite (proj2 (Z.eqb_neq x 0)) by done. rewrite <- Er, <- El.
  set (w1 := clear_words (set_pmm w pm') x PAGE_SIZE).
  destruct (fresh_page w w1 g x pm' Hinv Hx Hp' Hsr Hfree eq_refl) as (Hinv1 & Hgood & Hun & He1).
  { intros a Ha. unfold w1. by rewrite word_clear_out. }
  assert (forall k, 0 <= k < 512 -> km_word w1 (x + 8 * k) = 0) as Hz by (intros k Hk; apply word_clear_in; lia).
  fold (l1_slot g (gpa / GSTAGE_BLOCK_SIZE)).
  eexists _, _, _. split; [reflexivity|]. rewrite (proj2 (Z.eqb_neq x 0)) by done. split; [|split; [intros Hno; by destruct (Hno x)|split_and!]].
  - split; [exact (link_gs_inv w1 g _ x Hinv1 Hb Hr E0 Hgood Hun Hz)| |intros y Hy; apply Hfree in Hy; tauto].
    eexists. split; [reflexivity|]. apply length_aset.
  - intros i k Hi Hk. rewrite <- (He1 i k Hi Hk). exact (link_gs_entries w1 g _ x Hinv1 Hb Hr E0 Hgood Hun Hz i k Hi Hk).
  - unfold l0_at. cbn. apply aget_aset_eq. lia.
  - done.
Qed.

Lemma fill_entry_spec w g i k zero :
  gs_inv w g -> 0 <= i < Z.of_nat (length (gs_l0_tbl g)) -> l0_at g i <> 0 -> 0 <= k < 512 ->
  exists x w', fill_entry w (l0_at g i + 8 * k) zero = Some (x, w') /\ gs_grows w g w' g /\
    if x =? 0 then w' = w /\ forall y, ~ free_at (km_pmm w) y
    else free_at (km_pmm w) x /\ ~ free_at (km_pmm w') x /\
      (zero = true -> forall j, 0 <= j < 512 -> km_word w' (x + 8 * j) = 0) /\ x mod PAGE_SIZE = 0 /\ 0 < x < PT_PA_LIMIT /\
      forall j l, 0 <= j < Z.of_nat (length (gs_l0_tbl g)) -> 0 <= l < 512 ->
        gs_entry w' g j l = if (j =? i) && (l =? k) then RV_PTE_FROM_PA x GSTAGE_RAM_FLAGS else gs_entry w g j l.
Proof.
  intros Hinv Hi Hne Hk. unfold fill_entry. set (t := l0_at g i) in *. pose proof (l0_lookup g i Hi) as Ht. fold t in Ht.
  destruct (alloc_one (km_pmm w) (gi_pmm _ _ Hinv)) as [[-> Hno]|(x & pm' & -> & Hx0 & Hx & Hp' & Hsr & _ & Hfree)].
  { cbn. exists 0, w. split; [by destruct w|]. split; [by apply gs_grows_refl|done]. }
  cbn [mbind option_bind]. rewrite (proj2 (Z.eqb_neq x 0)) by done. set (w1 := if zero then _ else _).
  destruct (fresh_page w w1 g x pm' Hinv Hx Hp' Hsr Hfree) as (Hinv1 & Hgood & Hun & He1); [by destruct zero| |].
  { intros a Ha. unfold w1. destruct zero; [by rewrite word_clear_out|done]. }
  assert (km_pmm w1 = pm') as Ep by by destruct zero.
  pose proof Hgood as (Hxm & Hxl & Hnf%owned_not_free & Hns). destruct (gi_l0 _ _ Hinv _ _ Ht Hne) as (Htm & _ & Htf%owned_not_free & _).
  eexists _, _. split; [reflexivity|]. rewrite (proj2 (Z.eqb_neq x 0)) by done. split_and!; [|done|exact Hnf| |done|lia|lia|].
  - split; [exact (fill_inv w1 g _ t k x Hinv1 Ht Hne Hk ltac:(done) Hun)|exists (gs_l0_tbl g); split; [by destruct g|done]|].
    intros y Hy. change (free_at (km_pmm w1) y) in Hy. rewrite Ep in Hy. apply Hfree in Hy. tauto.
  - intros -> j Hj. rewrite word_store_ne; [apply word_clear_in; lia|]. intros E.
    destruct (aligned_disjoint x t j k Hxm Htm Hj Hk E) as [-> _]. done.
  - intros j l Hj Hl. rewrite (fill_entries w1 g _ t k x Hinv1 Ht Hne Hk j l Hj Hl), Z2Nat.id, He1 by lia. done.
Qed.

(** The lookups after one new entry. *)
Lemma lookup_after w g w' g' gpa x :
  gs_inv w g -> gs_grows w g w' g' -> rv_gstage_ipa_is_ram g gpa = true -> x mod PAGE_SIZE = 0 -> 0 < x < PT_PA_LIMIT ->
  (forall j l, 0 <= j < Z.of_nat (length (gs_l0_tbl g)) -> 0 <= l < 512 ->
     gs_entry w' g' j l = if (j =? blk g gpa) && (l =? l0_index gpa) then RV_PTE_FROM_PA x GSTAGE_RAM_FLAGS else gs_entry w g j l) ->
  forall gpa', rv_gstage_lookup w' g' gpa' =
    if gpa' / PAGE_SIZE =? gpa / PAGE_SIZE then Some (x + gpa' mod PAGE_SIZE) else rv_gstage_lookup w g gpa'.
Proof.
  intros Hinv [Hinv' (l & -> & El) _] Hin Hxm Hx He gpa'. rewrite !lookup_entry by done. pose proof (gi_window _ _ Hinv) as Hw.
  change (rv_gstage_ipa_is_ram (set_l0_tbl g l) gpa') with (rv_gstage_ipa_is_ram g gpa').
  unfold entry_of. change (blk (set_l0_tbl g l)) with (blk g). pose proof (block_in_window g gpa' Hw) as Eb'.
  pose proof (block_in_window g gpa Hw) as Eb. rewrite Hin in Eb. fold (blk g gpa') in *.
  destruct (Z.eqb_spec (gpa' / PAGE_SIZE) (gpa / PAGE_SIZE)) as [E|Hne].
  - destruct (same_page g _ _ E) as [E1 E2]. assert (rv_gstage_ipa_is_ram g gpa' = true) as Hin' by (unfold blk in E1; lia).
    rewrite Hin'. destruct (ram_blk_in g gpa' Hw Hin') as (_ & Hr & _). fold (blk g gpa') in Hr.
    rewrite He by (try apply l0_index_range; done). rewrite E1, E2, !Z.eqb_refl. cbn [andb].
    destruct (leaf_entry x Hxm Hx) as (_ & _ & Hp). rewrite (proj2 (Z.eqb_neq _ 0)) by by apply leaf_nonzero. by rewrite Hp.
  - destruct (rv_gstage_ipa_is_ram g gpa') eqn:Hin'; [|done]. destruct (ram_blk_in g gpa' Hw Hin') as (_ & Hr & _). fold (blk g gpa') in Hr.
    rewrite He by (try apply l0_index_range; done).
    destruct (Z.eqb_spec (blk g gpa') (blk g gpa)) as [E1|], (Z.eqb_spec (l0_index gpa') (l0_index gpa)) as [E2|]; try done.
    destruct Hne. by apply (same_entry g).
Qed.

Lemma lookup_same w g w' g' :
  gs_inv w g -> gs_grows w g w' g' ->
  (forall j l, 0 <= j < Z.of_nat (length (gs_l0_tbl g)) -> 0 <= l < 512 -> gs_entry w' g' j l = gs_entry w g j l) ->
  forall gpa, rv_gstage_lookup w' g' gpa = rv_gstage_lookup w g gpa.
Proof.
  intros Hinv [Hinv' (l & -> & El) _] He gpa. rewrite !lookup_entry by done. pose proof (gi_window _ _ Hinv) as Hw.
  change (rv_gstage_ipa_is_ram (set_l0_tbl g l) gpa) with (rv_gstage_ipa_is_ram g gpa).
  destruct (rv_gstage_ipa_is_ram g gpa) eqn:Hin; [|done]. destruct (ram_blk_in g gpa Hw Hin) as (_ & Hr & _).
  unfold entry_of. change (blk (set_l0_tbl g l)) with (blk g). by rewrite He by (try apply l0_index_range; done).
Qed.

(** Demand mapping of one guest page.  An address that is translated keeps its host
    page and nothing changes; otherwise either no host page is free and no translation
    changes, or exactly the translations of that guest page appear, onto a host page that
    was free, is no longer, and was cleared if asked for.  Outside the RAM window nothing
    happens. *)
Theorem gstage_map_page_correct w g gpa zero :
  gs_inv w g ->
  exists pa w' g', rv_gstage_map_page w g gpa zero = Some (pa, w', g') /\ gs_grows w g w' g' /\
    if rv_gstage_ipa_is_ram g gpa then
      match rv_gstage_lookup w g gpa with
      | Some y => y = pa + gpa mod PAGE_SIZE /\ w' = w /\ g' = g
      | None =>
          if pa =? 0 then
            (forall x, ~ free_at (km_pmm w') x) /\ forall gpa', rv_gstage_lookup w' g' gpa' = rv_gstage_lookup w g gpa'
          else
            free_at (km_pmm w) pa /\ ~ free_at (km_pmm w') pa /\
            (zero = true -> forall j, 0 <= j < 512 -> km_word w' (pa + 8 * j) = 0) /\
            forall gpa', rv_gstage_lookup w' g' gpa' =
              if gpa' / PAGE_SIZE =? gpa / PAGE_SIZE then Some (pa + gpa' mod PAGE_SIZE) else rv_gstage_lookup w g gpa'
      end
    else pa = 0 /\ w' = w /\ g' = g.
Proof.
  intros Hinv. pose proof (gi_window _ _ Hinv) as Hw. unfold rv_gstage_map_page. destruct (rv_gstage_ipa_is_ram g gpa) eqn:Hin; cycle 1.
  { unfold l0_ensure. rewrite ram_blk_out by done. cbn. exists 0, w, g. split; [done|]. split; [by apply gs_grows_refl|done]. }
  destruct (ram_blk_in g gpa Hw Hin) as (_ & Hr & _). fold (blk g gpa) in Hr. pose proof (l0_index_range gpa) as Hk.
  destruct (l0_ensure_spec w g gpa Hinv Hin) as (t & w1 & g1 & -> & Hg1 & Hex & He1 & Ht). cbn [mbind option_bind].
  destruct (Z.eqb_spec t 0) as [->|Ht0].
  { destruct Ht as (-> & -> & Hno & E0). exists 0, w, g. split; [done|]. split; [done|]. rewrite lookup_entry, Hin by done.
    unfold entry_of, gs_entry. by rewrite E0. }
  destruct Ht as [Et Hsame]. pose proof (gg_inv _ _ _ _ Hg1) as Hinv1. destruct (gg_ctx _ _ _ _ Hg1) as (l & Eg & El).
  assert (0 <= blk g gpa < Z.of_nat (length (gs_l0_tbl g1))) as Hr1 by (rewrite Eg; cbn; lia).
  assert (km_word w1 (t + 8 * l0_index gpa) = entry_of w g gpa) as Ee.
  { unfold entry_of. rewrite <- He1 by done. unfold gs_entry. rewrite Et. by rewrite (proj2 (Z.eqb_neq t 0)). }
  rewrite Ee, lookup_entry, Hin by done. destruct (entry_cases w g _ _ Hinv Hr Hk) as [E|(x & E & Hxm & Hx & _)].
  - fold (entry_of w g gpa) in E. rewrite E, Z.eqb_refl. cbn [rv_pte_valid negb Z.land Z.eqb].
    destruct (fill_entry_spec w1 g1 (blk g gpa) (l0_index gpa) zero Hinv1 Hr1 ltac:(congruence) Hk) as (x & w2 & Ef & Hg2 & Hres).
    rewrite Et in Ef. rewrite Ef. cbn [mbind option_bind]. exists x, w2, g1. split; [done|]. pose proof (gs_grows_trans _ _ _ _ _ _ Hg1 Hg2) as Hg12.
    split; [done|]. destruct (Z.eqb_spec x 0).
    + destruct Hres as [-> Hno]. split; [done|]. by apply lookup_same.
    + destruct Hres as (Hf & Hnf & Hz & Hxm & Hx & He2). split; [by apply (gg_free _ _ _ _ Hg1)|]. split; [done|]. split; [done|].
      apply lookup_after; [done..|]. intros j m Hj Hm. rewrite He2, He1 by (rewrite ?Eg; cbn; lia || done). done.
  - fold (entry_of w g gpa) in E. rewrite E. destruct (leaf_entry x Hxm Hx) as (-> & _ & Ep).
    rewrite (proj2 (Z.eqb_neq _ 0)) by by apply leaf_nonzero. rewrite Ep. exists x, w1, g1. split; [done|]. split; [done|]. split; [done|].
    apply Hsame. intros E0. unfold entry_of, gs_entry in E. rewrite E0, Z.eqb_refl in E. by destruct (leaf_nonzero x Hxm Hx).
Qed.

(** ** A range of guest pages *)

Lemma map_page_grows w g gpa zero :
  gs_inv w g -> exists pa w' g', rv_gstage_map_page w g gpa zero = Some (pa, w', g') /\ gs_grows w g w' g'.
Proof.
  intros Hinv. unfold rv_gstage_map_page. destruct (rv_gstage_ipa_is_ram g gpa) eqn:Hin; cycle 1.
  { unfold l0_ensure. rewrite ram_blk_out by done. cbn. exists 0, w, g. split; [done|by apply gs_grows_refl]. }
  destruct (ram_blk_in g gpa (gi_window _ _ Hinv) Hin) as (_ & Hr & _). fold (blk g gpa) in Hr.
  destruct (l0_ensure_spec w g gpa Hinv Hin) as (t & w1 & g1 & -> & Hg1 & _ & _ & Ht). cbn [mbind option_bind].
  destruct (Z.eqb_spec t 0) as [->|Ht0]; [by exists 0, w1, g1|]. destruct Ht as [Et _]. destruct (rv_pte_valid _); [by eexists _, w1, g1|].
  destruct (gg_ctx _ _ _ _ Hg1) as (l & Eg & El). pose proof (gg_inv _ _ _ _ Hg1) as Hinv1.
  assert (0 <= blk g gpa < Z.of_nat (length (gs_l0_tbl g1))) as Hr1 by (rewrite Eg; cbn; lia).
  destruct (fill_entry_spec w1 g1 (blk g gpa) (l0_index gpa) zero Hinv1 Hr1 ltac:(congruence) (l0_index_range gpa)) as (x & w2 & Ef & Hg2 & _).
  rewrite Et in Ef. rewrite Ef. exists x, w2, g1. split; [done|]. by eapply gs_grows_trans.
Qed.

(** The loop over a range ends, for a range that does not reach the top of the address
    arithmetic, and keeps the invariant. *)
Lemma map_range_total w g gpa size zero :
  gs_inv w g -> 0 <= size <= U64_MOD - PAGE_SIZE ->
  exists n w' g', rv_gstage_map_range w g gpa size zero = Some (n, w', g') /\ gs_grows w g w' g'.
Proof.
  intros Hinv Hs. unfold rv_gstage_map_range.
  assert (forall fuel w g off n, gs_inv w g -> 0 <= off -> size - off < (Z.of_nat fuel - 1) * PAGE_SIZE -> (1 <= fuel)%nat ->
    exists n' w' g', range_loop fuel w g gpa size zero off n = Some (n', w', g') /\ gs_grows w g w' g') as Hloop.
  { clear w g Hinv. induction fuel as [|fuel IH]; intros w g off n Hinv Ho Hf H1; [lia|]. cbn [range_loop].
    destruct (Z.ltb_spec off size); [|exists n, w, g; split; [done|by apply gs_grows_refl]].
    destruct (map_page_grows w g (u64 (gpa + off)) zero Hinv) as (pa & w1 & g1 & -> & Hg1). cbn [mbind option_bind].
    destruct (pa =? 0); [by exists n, w1, g1|]. rewrite (u64_id (off + PAGE_SIZE)) by lia.
    destruct (IH w1 g1 (off + PAGE_SIZE) (n + 1) (gg_inv _ _ _ _ Hg1)) as (n' & w' & g' & E & Hg'); [lia..|].
    exists n', w', g'. split; [done|]. by eapply gs_grows_trans. }
  apply Hloop; [done|lia| |].
  - pose proof (Z.div_mod size PAGE_SIZE ltac:(lia)). pose proof (Z.mod_pos_bound size PAGE_SIZE ltac:(lia)).
    pose proof (Z.div_pos size PAGE_SIZE ltac:(lia) ltac:(lia)). rewrite Z2Nat.id by lia. lia.
  - pose proof (Z.div_pos size PAGE_SIZE ltac:(lia) ltac:(lia)). lia.
Qed.

(** ** A whole block *)

Lemma block_loop_spec g i zero :
  0 <= i < Z.of_nat (length (gs_l0_tbl g)) -> l0_at g i <> 0 ->
  forall l w n, Forall (fun k => 0 <= k < 512) l -> gs_inv w g ->
  exists n' w', block_loop w (l0_at g i) zero n l = Some (n', w') /\ gs_grows w g w' g /\ n <= n' /\
    (n' = n -> w' = w) /\ ((forall x, ~ free_at (km_pmm w) x) -> n' = n) /\
    (forall j m, 0 <= j < Z.of_nat (length (gs_l0_tbl g)) -> 0 <= m < 512 -> gs_entry w g j m <> 0 \/ j <> i -> gs_entry w' g j m = gs_entry w g j m) /\
    ((forall m, m ∈ l -> gs_entry w' g i m <> 0) \/ forall x, ~ free_at (km_pmm w') x).
Proof.
  intros Hi Hne l. induction l as [|k l IH]; intros w n Hl Hinv.
  { exists n, w. cbn. split_and!; try done; [by apply gs_grows_refl|]. left. intros m Hm. by apply not_elem_of_nil in Hm. }
  inversion_clear Hl as [|? ? Hk Hl']. cbn [block_loop].
  assert (km_word w (l0_at g i + 8 * k) = gs_entry w g i k) as -> by (unfold gs_entry; by rewrite (proj2 (Z.eqb_neq _ 0))).
  destruct (entry_cases w g i k Hinv Hi Hk) as [E|(x & E & Hxm & Hx & _)]; rewrite E; cycle 1.
  { destruct (leaf_entry x Hxm Hx) as (-> & _ & _). destruct (IH w n Hl' Hinv) as (n' & w' & Eb & Hg & Hn & Hsame & Hnone & Hold & Hall).
    exists n', w'. split_and!; try done. destruct Hall as [Hall|]; [left|by right]. intros m [->|Hm]%elem_of_cons; [|by apply Hall].
    rewrite Hold, E by (try done; left; rewrite E; by apply leaf_nonzero). by apply leaf_nonzero. }
  cbn [rv_pte_valid negb Z.land Z.eqb].
  destruct (fill_entry_spec w g i k zero Hinv Hi Hne Hk) as (x & w1 & -> & Hg1 & Hres). cbn [mbind option_bind].
  destruct (Z.eqb_spec x 0) as [->|Hx0].
  { destruct Hres as [-> Hno]. exists n, w. split_and!; try done. by right. }
  destruct Hres as (Hxf & _ & _ & Hxm & Hx & He).
  destruct (IH w1 (n + 1) Hl' (gg_inv _ _ _ _ Hg1)) as (n' & w' & Eb & Hg & Hn & _ & _ & Hold & Hall).
  assert (gs_entry w1 g i k = RV_PTE_FROM_PA x GSTAGE_RAM_FLAGS) as Ek by (rewrite He, !Z.eqb_refl by done; done).
  exists n', w'. split_and!; [done|by eapply gs_grows_trans|lia|lia|intros Hno; by destruct (Hno x)| |].
  - intros j m Hj Hm Hcase. assert ((j =? i) && (m =? k) = false) as Ef.
    { destruct Hcase as [Hz|]; [|lia]. destruct (Z.eqb_spec j i) as [->|]; [|done]. destruct (Z.eqb_spec m k) as [->|]; [by destruct Hz|done]. }
    rewrite Hold; [by rewrite He, Ef by done|done..|]. rewrite He, Ef by done. done.
  - destruct Hall as [Hall|]; [left|by right]. intros m [->|Hm]%elem_of_cons; [|by apply Hall].
    rewrite Hold, Ek by (try done; left; rewrite Ek; by apply leaf_nonzero). by apply leaf_nonzero.
Qed.

(** The first address of the block. *)
Lemma block_base g gpa :
  gs_window g -> rv_gstage_ipa_is_ram g gpa = true ->
  let base := Z.land gpa (Z.lnot (GSTAGE_BLOCK_SIZE - 1)) in rv_gstage_ipa_is_ram g base = true /\ blk g base = blk g gpa.
Proof.
  intros Hw Hin base. assert (base = gpa / GSTAGE_BLOCK_SIZE * GSTAGE_BLOCK_SIZE) as E by exact (land_lnot_ones gpa 21 ltac:(lia)).
  assert (base / GSTAGE_BLOCK_SIZE = gpa / GSTAGE_BLOCK_SIZE) as Ed by (rewrite E; apply Z.div_mul; lia).
  unfold blk. rewrite Ed. split; [|done]. rewrite (block_in_window g base Hw), Ed, <- (block_in_window g gpa Hw). done.
Qed.

Lemma map_block_spec w g gpa zero :
  gs_inv w g -> rv_gstage_ipa_is_ram g gpa = true ->
  exists n w' g', rv_gstage_map_block w g gpa zero = Some (n, w', g') /\ gs_grows w g w' g' /\ ((forall x, ~ free_at (km_pmm w) x) -> n = 0 /\ w' = w /\ g' = g) /\
    (forall j m, 0 <= j < Z.of_nat (length (gs_l0_tbl g)) -> 0 <= m < 512 -> gs_entry w g j m <> 0 \/ j <> blk g gpa -> gs_entry w' g' j m = gs_entry w g j m) /\
    ((forall m, 0 <= m < 512 -> gs_entry w' g' (blk g gpa) m <> 0) \/ forall x, ~ free_at (km_pmm w') x).
Proof.
  intros Hinv Hin. pose proof (gi_window _ _ Hinv) as Hw. destruct (block_base g gpa Hw Hin) as [Hinb Eb]. unfold rv_gstage_map_block.
  set (base := Z.land gpa _) in *. destruct (ram_blk_in g base Hw Hinb) as (_ & Hr & _). fold (blk g base) in Hr. rewrite Eb in Hr.
  destruct (l0_ensure_spec w g base Hinv Hinb) as (t & w1 & g1 & -> & Hg1 & Hex & He1 & Ht). rewrite Eb in Ht. cbn [mbind option_bind].
  destruct (Z.eqb_spec t 0) as [->|Ht0].
  { destruct Ht as (-> & -> & Hno & E0). exists 0, w, g. split_and!; try done. by right. }
  destruct Ht as [Et _]. destruct (gg_ctx _ _ _ _ Hg1) as (l & Eg & El).
  assert (length (gs_l0_tbl g1) = length (gs_l0_tbl g)) as Elen by (rewrite Eg; done).
  destruct (block_loop_spec g1 (blk g gpa) zero ltac:(rewrite Elen; done) ltac:(congruence) (seqZ 0 512) w1 0) as (n & w2 & E2 & Hg2 & _ & Hsame & Hno & Hold & Hall).
  { apply Forall_forall. intros k Hk%elem_of_seqZ. lia. }
  { apply (gg_inv _ _ _ _ Hg1). }
  rewrite Et in E2. rewrite E2. cbn [mbind option_bind]. exists n, w2, g1. split; [done|]. split; [by eapply gs_grows_trans|].
  split. { intros Hw0. destruct (Hex Hw0) as [-> ->]. specialize (Hno Hw0). split; [done|]. split; [by apply Hsame|done]. } split.
  - intros j m Hj Hm Hc. rewrite Hold; [by apply He1|by rewrite Elen|done|by rewrite He1].
  - destruct Hall as [Hall|]; [left|by right]. intros m Hm. apply Hall, elem_of_seqZ. lia.
Qed.

Lemma add_fault_inv w g n : gs_inv w g -> gs_inv w (add_fault g n).
Proof. intros [Hp Hl [] Hs Hr H1 H0 Hi Hf Hj]. split; try done. Qed.

Lemma map_block_lookups w g gpa zero :
  gs_inv w g -> rv_gstage_ipa_is_ram g gpa = true ->
  exists n w' g', rv_gstage_map_block w g gpa zero = Some (n, w', g') /\ gs_grows w g w' g' /\ ((forall x, ~ free_at (km_pmm w) x) -> n = 0 /\ w' = w /\ g' = g) /\
    (forall gpa', rv_gstage_lookup w g gpa' <> None \/ gpa' / GSTAGE_BLOCK_SIZE <> gpa / GSTAGE_BLOCK_SIZE ->
       rv_gstage_lookup w' g' gpa' = rv_gstage_lookup w g gpa') /\
    ((forall gpa', gpa' / GSTAGE_BLOCK_SIZE = gpa / GSTAGE_BLOCK_SIZE -> rv_gstage_lookup w' g' gpa' <> None) \/
     forall x, ~ free_at (km_pmm w') x).
Proof.
  intros Hinv Hin. pose proof (gi_window _ _ Hinv) as Hw.
  destruct (map_block_spec w g gpa zero Hinv Hin) as (n & w' & g' & E & Hg & Hn & Hold & Hall). exists n, w', g'.
  split; [done|]. split; [done|]. split; [done|]. pose proof (gg_inv _ _ _ _ Hg) as Hinv'. destruct (gg_ctx _ _ _ _ Hg) as (l & -> & El). split.
  - intros gpa'. rewrite !lookup_entry by done. change (rv_gstage_ipa_is_ram (set_l0_tbl g l) gpa') with (rv_gstage_ipa_is_ram g gpa').
    destruct (rv_gstage_ipa_is_ram g gpa') eqn:Hin'; [|done]. destruct (ram_blk_in g gpa' Hw Hin') as (_ & Hr & _). fold (blk g gpa') in Hr. intros Hc.
    unfold entry_of at 1 2. change (blk (set_l0_tbl g l) gpa') with (blk g gpa'). rewrite Hold; [done|done|apply l0_index_range|].
    fold (entry_of w g gpa'). destruct Hc as [Hc|Hc]; [left|right; unfold blk; lia]. intros E0. by rewrite E0 in Hc.
  - destruct Hall as [Hall|]; [left|by right]. intros gpa' Eb. rewrite lookup_entry by done.
    change (rv_gstage_ipa_is_ram (set_l0_tbl g l) gpa') with (rv_gstage_ipa_is_ram g gpa').
    rewrite (block_in_window g gpa' Hw), Eb, <- (block_in_window g gpa Hw), Hin. unfold entry_of.
    replace (blk (set_l0_tbl g l) gpa') with (blk g gpa) by (unfold blk; by rewrite Eb).
    by rewrite (proj2 (Z.eqb_neq _ 0)) by apply Hall, l0_index_range.
Qed.

Lemma ram_fault_spec w g gpa :
  gs_inv w g -> rv_gstage_ipa_is_ram g gpa = true ->
  exists code w' g', handle_ram_fault w g gpa = Some (code, w', g') /\ gs_inv w' g' /\ gs_root g' = gs_root g /\
    (code = EL2_RESUME \/ code = EL2_EXIT) /\
    (forall gpa', rv_gstage_lookup w g gpa' <> None \/ gpa' / GSTAGE_BLOCK_SIZE <> gpa / GSTAGE_BLOCK_SIZE ->
       rv_gstage_lookup w' g' gpa' = rv_gstage_lookup w g gpa') /\
    (code = EL2_RESUME ->
       (forall gpa', gpa' / GSTAGE_BLOCK_SIZE = gpa / GSTAGE_BLOCK_SIZE -> hw_walk (km_word w') (gs_root g') gpa' <> None) \/
       forall x, ~ free_at (km_pmm w') x) /\
    (code = EL2_EXIT -> rv_gstage_lookup w' g' gpa = None /\ forall x, ~ free_at (km_pmm w') x) /\
    ((forall x, ~ free_at (km_pmm w) x) -> code = EL2_EXIT <-> rv_gstage_lookup w g gpa = None).
Proof.
  intros Hinv Hin. unfold handle_ram_fault.
  destruct (map_block_lookups w g gpa true Hinv Hin) as (n & w' & g1 & -> & Hg & Hn & Hkeep & Hall). cbn [mbind option_bind].
  pose proof (gg_inv _ _ _ _ Hg) as Hinv1. destruct (gg_ctx _ _ _ _ Hg) as (l & Eg & _). assert (gs_root g1 = gs_root g) as Er by by rewrite Eg.
  assert (forall gpa', gpa' / GSTAGE_BLOCK_SIZE = gpa / GSTAGE_BLOCK_SIZE -> rv_gstage_lookup w' g1 gpa' <> None ->
            hw_walk (km_word w') (gs_root g1) gpa' <> None) as Hhw.
  { intros gpa' _ Hne. destruct (rv_gstage_lookup w' g1 gpa') as [y|] eqn:Ey; [|done].
    rewrite hart_walk, Ey by (try done; by apply (lookup_range w' g1 gpa' y)). done. }
  destruct (Z.eqb_spec n 0) as [->|Hn0].
  - destruct (rv_gstage_lookup w' g1 gpa) as [y|] eqn:Ey.
    + exists EL2_RESUME, w', g1. split_and!; try done; [by left|..].
      * intros _. destruct Hall as [Hall|]; [left; eauto|by right].
      * intros Hno. split; [done|]. intros E0. destruct (Hn Hno) as (_ & -> & ->). congruence.
    + exists EL2_EXIT, w', g1. split_and!; try done; [by right| |].
      * intros _. split; [done|]. destruct Hall as [Hall|]; [|done]. by destruct (Hall gpa).
      * intros _. split; [|done]. intros _. destruct (rv_gstage_lookup w g gpa) eqn:E0; [|done]. rewrite Hkeep in Ey by (left; congruence). congruence.
  - exists EL2_RESUME, w', (add_fault g1 n). split_and!; [done|by apply add_fault_inv|done|by left|done| |done|].
    + intros _. destruct Hall as [Hall|]; [left; eauto|by right].
    + intros Hno. by destruct (Hn Hno).
Qed.

(** C21. A RAM fault of a virtual CPU.  The handler keeps every translation there was and
    those of other blocks.  If it resumes the guest, the hart translates every address of
    the block of 2 MiB, or host memory is out; if it stops the machine, the address has no
    translation and host memory is out.  Once memory is out it stops the machine exactly
    if the address has no translation, so that no fault repeats for ever. *)
Theorem gstage_fault_correct w g gpa :
  gs_inv w g -> rv_gstage_ipa_is_ram g gpa = true ->
  exists code w' g', handle_ram_fault w g gpa = Some (code, w', g') /\ gs_inv w' g' /\ gs_root g' = gs_root g /\
    (code = EL2_RESUME \/ code = EL2_EXIT) /\
    (forall gpa', rv_gstage_lookup w g gpa' <> None \/ gpa' / GSTAGE_BLOCK_SIZE <> gpa / GSTAGE_BLOCK_SIZE ->
       rv_gstage_lookup w' g' gpa' = rv_gstage_lookup w g gpa') /\
    (code = EL2_RESUME ->
       (forall gpa', gpa' / GSTAGE_BLOCK_SIZE = gpa / GSTAGE_BLOCK_SIZE -> hw_walk (km_word w') (gs_root g') gpa' <> None) \/
       forall x, ~ free_at (km_pmm w') x) /\
    (code = EL2_EXIT -> rv_gstage_lookup w' g' gpa = None /\ forall x, ~ free_at (km_pmm w') x) /\
    ((forall x, ~ free_at (km_pmm w) x) -> code = EL2_EXIT <-> rv_gstage_lookup w g gpa = None).
Proof. apply ram_fault_spec. Qed.

(** ** Destruction *)

Definition free_all (pm : pmm_t) (l : list Z) : option pmm_t :=
  ofold (fun pm x => '(_, pm) ← pmm_free_pages pm x 1; Some pm) pm l.

Lemma free_all_spec l : forall pm,
  pmm_inv pm -> NoDup l -> (forall x, x ∈ l -> owned pm x /\ 0 <= x < U64_MOD) ->
  exists pm', free_all pm l = Some pm' /\ pmm_inv pm' /\ same_range pm pm' /\
    (forall y, free_at pm' y <-> free_at pm y \/ y ∈ l) /\ pm_free_pages pm' = pm_free_pages pm + Z.of_nat (length l).
Proof.
  induction l as [|x l IH]; intros pm Hinv Hnd Hown.
  { exists pm. cbn. split_and!; try done; [|lia]. intros y. split; [by left|]. by intros [?|?%not_elem_of_nil]. }
  apply NoDup_cons in Hnd as [Hx Hnd]. destruct (Hown x ltac:(by left)) as [Hox Hrx].
  destruct (free_one_spec pm x Hinv Hrx) as (ok & pm1 & E & Hinv1 & Hsr1 & _).
  destruct (free_grows pm x ok pm1 Hinv Hrx E) as (_ & _ & Hnew & Hold & Hf). destruct (Hf Hox) as [Hfx Hc].
  destruct (IH pm1 Hinv1 Hnd) as (pm' & E' & Hinv' & Hsr' & Hfree & Hc').
  { intros y Hy. destruct (Hown y ltac:(by right)) as [Hoy Hry]. split; [|done]. eapply owned_change; [done|done|].
    intros [Hfy| ->]%Hnew; [|done]. by apply owned_not_free in Hoy. }
  exists pm'. cbn [free_all ofold]. rewrite E. cbn [mbind option_bind]. split_and!; [done|done|by eapply same_range_trans| |cbn [length]; lia].
  intros y. rewrite Hfree, elem_of_cons. split.
  - intros [[?|?]%Hnew|?]; auto.
  - intros [?|[->|?]]; auto.
Qed.

(** The guest pages behind the entries [ks] of the table [t]. *)
Definition pages_of (m : Z -> Z) (t : Z) (ks : list Z) : list Z :=
  omap (fun k => if rv_pte_valid (m (t + 8 * k)) then Some (RV_PTE_TO_PA (m (t + 8 * k))) else None) ks.

(** All pages of the tables [ts], in the order in which they are freed. *)
Definition pages_all (m : Z -> Z) (ts : list Z) : list Z :=
  concat ((fun t => if t =? 0 then [] else pages_of m t (seqZ 0 GSTAGE_L0_ENTRIES) ++ [t]) <$> ts).

Lemma pages_of_ext m m' t ks : (forall k, k ∈ ks -> m' (t + 8 * k) = m (t + 8 * k)) -> pages_of m' t ks = pages_of m t ks.
Proof.
  intros H. induction ks as [|k ks IH]; [done|]. cbn. rewrite (H k) by by left. destruct (rv_pte_valid _); [f_equal|]; apply IH; intros; apply H; by right.
Qed.

Lemma elem_pages_of y m t ks : y ∈ pages_of m t ks <-> exists k, k ∈ ks /\ rv_pte_valid (m (t + 8 * k)) = true /\ y = RV_PTE_TO_PA (m (t + 8 * k)).
Proof.
  unfold pages_of. rewrite list_elem_of_omap. split; intros (k & Hk & E); exists k; split; try done.
  - destruct (rv_pte_valid _); [|done]. by injection E.
  - destruct E as [-> ->]. done.
Qed.

Lemma l0_loop_frees t ks : forall w pm',
  NoDup ks -> free_all (km_pmm w) (pages_of (km_word w) t ks) = Some pm' ->
  exists w', ofold (free_entry t) w ks = Some w' /\ km_pmm w' = pm' /\
    forall a, (forall k, k ∈ ks -> a <> t + 8 * k) -> km_word w' a = km_word w a.
Proof.
  induction ks as [|k ks IH]; intros w pm' Hnd Ef.
  { exists w. cbn in Ef. injection Ef as <-. done. }
  apply NoDup_cons in Hnd as [Hk Hnd]. cbn [ofold]. destruct (free_entry t w k) as [w1|] eqn:Ee; unfold free_entry in Ee; cbn [mbind option_bind]; unfold pages_of in Ef; cbn [omap list_omap] in Ef.
  all: destruct (rv_pte_valid (km_word w (t + 8 * k))).
  all: try (cbn [free_all ofold] in Ef; destruct (pmm_free_pages _ _ _) as [[ok pm]|]; cbn [mbind option_bind] in *; [|done]).
  all: simplify_eq.
  -
    destruct (IH (store (set_pmm w pm) (t + 8 * k) 0) pm' Hnd) as (w' & E & Ep & Hw).
    { cbn [km_pmm store set_words set_pmm]. rewrite (pages_of_ext (km_word w)); [exact Ef|].
      intros j Hj. rewrite word_store_ne; [done|]. intros E. assert (j = k) by lia. by subst j. }
    exists w'. split; [exact E|]. split; [done|]. intros a Ha. rewrite Hw by (intros; apply Ha; by right). rewrite word_store_ne; [done|]. apply Ha. by left.
  - destruct (IH w1 pm' Hnd Ef) as (w' & E & Ep & Hw). exists w'. split; [done|]. split; [done|]. intros a Ha. apply Hw. intros. apply Ha. by right.
Qed.

Lemma free_all_app pm l1 l2 : free_all pm (l1 ++ l2) = (pm ← free_all pm l1; free_all pm l2).
Proof. apply ofold_app. Qed.

Lemma destroy_l0_frees t w pm' :
  t mod PAGE_SIZE = 0 -> free_all (km_pmm w) (pages_of (km_word w) t (seqZ 0 GSTAGE_L0_ENTRIES) ++ [t]) = Some pm' ->
  exists w', destroy_l0 w t = Some w' /\ km_pmm w' = pm' /\
    forall a, a < t \/ t + PAGE_SIZE <= a -> km_word w' a = km_word w a.
Proof.
  intros Ht. rewrite free_all_app. destruct (free_all (km_pmm w) _) as [pm1|] eqn:E1; cbn [mbind option_bind]; [|done]. intros E2.
  destruct (l0_loop_frees t _ w pm1 (NoDup_seqZ _ _) E1) as (w1 & Ew & Ep & Hw). unfold destroy_l0. rewrite Ew. cbn [mbind option_bind].
  rewrite land_lnot_page. replace (t / PAGE_SIZE * PAGE_SIZE) with t by (pose proof (Z.div_mod t PAGE_SIZE ltac:(lia)); lia).
  rewrite Ep. cbn [free_all ofold] in E2. destruct (pmm_free_pages pm1 t 1) as [[ok pm2]|]; [|done]. cbn [mbind option_bind] in *. injection E2 as ->.
  exists (set_pmm w1 pm'). split; [done|]. split; [done|]. intros a Ha. cbn. apply Hw. intros k Hk%elem_of_seqZ. lia.
Qed.

(** Tables that are all different and share no page. *)
Record tables_ok (m : Z -> Z) (ts : list Z) : Prop := mk_tables_ok {
  to_page : forall t, t ∈ ts -> t <> 0 -> t mod PAGE_SIZE = 0;
  to_inj : forall i j t, ts !! i = Some t -> ts !! j = Some t -> t <> 0 -> i = j;
  to_leaf : forall t k, t ∈ ts -> t <> 0 -> 0 <= k < 512 -> rv_pte_valid (m (t + 8 * k)) = true -> RV_PTE_TO_PA (m (t + 8 * k)) ∉ ts;
  to_leaf_inj : forall i t k j u l, ts !! i = Some t -> t <> 0 -> 0 <= k < 512 -> rv_pte_valid (m (t + 8 * k)) = true ->
    ts !! j = Some u -> u <> 0 -> 0 <= l < 512 -> rv_pte_valid (m (u + 8 * l)) = true ->
    RV_PTE_TO_PA (m (t + 8 * k)) = RV_PTE_TO_PA (m (u + 8 * l)) -> i = j /\ k = l;
}.

Lemma tables_ok_tail m t ts : tables_ok m (t :: ts) -> tables_ok m ts.
Proof.
  intros [Hp Hi Hl Hj]. split.
  - intros u Hu. apply Hp. by right.
  - intros i j u H1 H2 Hne. by injection (Hi (S i) (S j) u H1 H2 Hne).
  - intros u k Hu Hne Hk Hv Hin. apply (Hl u k); [by right|done..|by right].
  - intros i u k j v l H1 H2 H3 H4 H5 H6 H7 H8 E. destruct (Hj (S i) u k (S j) v l) as [Es ->]; try done. by injection Es.
Qed.

Lemma destroy_tables_frees ts : forall w pm',
  tables_ok (km_word w) ts -> free_all (km_pmm w) (pages_all (km_word w) ts) = Some pm' ->
  exists w', ofold (fun w t => if t =? 0 then Some w else destroy_l0 w t) w ts = Some w' /\ km_pmm w' = pm' /\
    forall a, (forall t, t ∈ ts -> t <> 0 -> a < t \/ t + PAGE_SIZE <= a) -> km_word w' a = km_word w a.
Proof.
  induction ts as [|t ts IH]; intros w pm' Hok Ef.
  { exists w. cbn in Ef. injection Ef as <-. done. }
  pose proof (tables_ok_tail _ _ _ Hok) as Hok'. cbn [ofold]. unfold pages_all in Ef. rewrite fmap_cons in Ef. cbn [concat] in Ef.
  destruct (Z.eqb_spec t 0) as [->|Ht]; cbn [mbind option_bind].
  - destruct (IH w pm' Hok' Ef) as (w' & E & Ep & Hw). exists w'. split; [done|]. split; [done|]. intros a Ha. apply Hw. intros. apply Ha; [by right|done].
  - rewrite free_all_app in Ef. destruct (free_all (km_pmm w) _) as [pm1|] eqn:E1; [|done]. cbn [mbind option_bind] in Ef.
    destruct (destroy_l0_frees t w pm1) as (w1 & E & Ep & Hw1); [apply (to_page _ _ Hok); [by left|done]|done|]. rewrite E. cbn [mbind option_bind].
    assert (forall u k, u ∈ ts -> u <> 0 -> 0 <= k < 512 -> km_word w1 (u + 8 * k) = km_word w (u + 8 * k)) as Hsame.
    { intros u k Hu Hne Hk. apply Hw1. apply aligned_outside; [apply (to_page _ _ Hok); [by right|done]|apply (to_page _ _ Hok); [by left|done]|done|].
      intros ->. apply list_elem_of_lookup in Hu as [i Hi]. by pose proof (to_inj _ _ Hok (S i) 0%nat t Hi eq_refl Hne). }
    destruct (IH w1 pm') as (w' & E' & Ep' & Hw').
    + destruct Hok' as [Hp Hi Hl Hj]. split; [done|done|..].
      * intros u k Hu Hne Hk. rewrite Hsame by done. by apply Hl.
      * intros i u k j v l H1 H2 H3 H4 H5 H6 H7 H8. pose proof (list_elem_of_lookup_2 _ _ _ H1). pose proof (list_elem_of_lookup_2 _ _ _ H5).
        rewrite (Hsame u), (Hsame v) in * by done. by apply Hj.
    + rewrite Ep, <- Ef. f_equal. unfold pages_all. f_equal. apply list_fmap_ext. intros i u Hu. destruct (Z.eqb_spec u 0) as [|Hne]; [done|].
      f_equal. apply pages_of_ext. intros k Hk%elem_of_seqZ. apply Hsame; [by eapply list_elem_of_lookup_2|done|lia].
    + exists w'. split; [done|]. split; [done|]. intros a Ha. rewrite Hw' by (intros; apply Ha; [by right|done]). apply Hw1, Ha; [by left|done].
Qed.

Lemma elem_pages_all y m ts :
  y ∈ pages_all m ts <->
  (y ∈ ts /\ y <> 0) \/ exists t k, t ∈ ts /\ t <> 0 /\ 0 <= k < 512 /\ rv_pte_valid (m (t + 8 * k)) = true /\ y = RV_PTE_TO_PA (m (t + 8 * k)).
Proof.
  unfold pages_all. induction ts as [|t ts IH].
  { cbn. split; [by intros ?%not_elem_of_nil|]. intros [[?%not_elem_of_nil _]|(t & k & ?%not_elem_of_nil & _)]; done. }
  rewrite fmap_cons. cbn [concat]. rewrite elem_of_app, IH. split.
  - intros [Hy|[[Hy Hne]|(u & k & Hu & Hr)]]; [|left; split; [by right|done]|right; exists u, k; split; [by right|done]].
    destruct (Z.eqb_spec t 0) as [|Hne]; [by apply not_elem_of_nil in Hy|]. apply elem_of_app in Hy as [Hy| ->%list_elem_of_singleton].
    + right. apply elem_pages_of in Hy as (k & Hk%elem_of_seqZ & Hv & ->). exists t, k. split_and!; try done; [by left|lia..].
    + left. split; [by left|done].
  - intros [[[->|Hy]%elem_of_cons Hne]|(u & k & [->|Hu]%elem_of_cons & Hne & Hr)].
    + left. rewrite (proj2 (Z.eqb_neq _ 0)) by done. apply elem_of_app. right. by apply list_elem_of_singleton.
    + right. left. done.
    + left. rewrite (proj2 (Z.eqb_neq _ 0)) by done. apply elem_of_app. left. apply elem_pages_of. exists k. split; [apply elem_of_seqZ; lia|]. apply Hr.
    + right. right. by exists u, k.
Qed.

Lemma NoDup_pages_of m t ks :
  NoDup ks -> (forall k l, k ∈ ks -> l ∈ ks -> rv_pte_valid (m (t + 8 * k)) = true -> rv_pte_valid (m (t + 8 * l)) = true ->
    RV_PTE_TO_PA (m (t + 8 * k)) = RV_PTE_TO_PA (m (t + 8 * l)) -> k = l) -> NoDup (pages_of m t ks).
Proof.
  induction ks as [|k ks IH]; intros Hnd Hinj; [constructor|]. apply NoDup_cons in Hnd as [Hk Hnd].
  assert (NoDup (pages_of m t ks)) as Hp by (apply IH; [done|]; intros; apply Hinj; [by right..|done|done|done]).
  unfold pages_of in *. cbn. destruct (rv_pte_valid (m (t + 8 * k))) eqn:Hv; [|done]. apply NoDup_cons. split; [|done].
  intros (l & Hl & Hvl & E)%elem_pages_of. assert (k = l) as <-; [|done]. apply Hinj; [by left|by right|done..].
Qed.

Lemma NoDup_pages_all m ts : tables_ok m ts -> NoDup (pages_all m ts).
Proof.
  induction ts as [|t ts IH]; intros Hok; [constructor|]. pose proof (IH (tables_ok_tail _ _ _ Hok)) as Hnd.
  unfold pages_all in *. rewrite fmap_cons. cbn [concat]. destruct (Z.eqb_spec t 0) as [|Hne]; [done|].
  assert (t ∉ ts) as Hnt.
  { intros [i Hi]%list_elem_of_lookup. by pose proof (to_inj _ _ Hok (S i) 0%nat t Hi eq_refl Hne). }
  apply NoDup_app. split_and!; [|..|done].
  - apply NoDup_app. split_and!; [|..|apply NoDup_singleton].
    + apply NoDup_pages_of; [apply NoDup_seqZ|]. intros k l Hk%elem_of_seqZ Hl%elem_of_seqZ Hv Hv' E.
      by destruct (to_leaf_inj _ _ Hok 0%nat t k 0%nat t l eq_refl Hne ltac:(lia) Hv eq_refl Hne ltac:(lia) Hv' E).
    + intros y (k & Hk%elem_of_seqZ & Hv & ->)%elem_pages_of Hy%list_elem_of_singleton.
      apply (to_leaf _ _ Hok t k); [by left|done|lia|done|]. rewrite Hy. by left.
  - intros y Hy Hy'. apply elem_pages_all in Hy'. apply elem_of_app in Hy as [(k & Hk%elem_of_seqZ & Hv & Ey)%elem_pages_of|Ey%list_elem_of_singleton].
    + destruct Hy' as [[Hin _]|(u & l & Hu & Hue & Hl & Hvl & E)].
      * apply (to_leaf _ _ Hok t k); [by left|done|lia|done|]. rewrite <- Ey. by right.
      * apply list_elem_of_lookup in Hu as [i Hi]. rewrite Ey in E.
        by destruct (to_leaf_inj _ _ Hok 0%nat t k (S i) u l eq_refl Hne ltac:(lia) Hv Hi Hue Hl Hvl E).
    + subst y. destruct Hy' as [[Hin _]|(u & l & Hu & Hue & Hl & Hvl & E)]; [done|].
      apply (to_leaf _ _ Hok u l); [by right|done|done|done|]. rewrite <- E. by left.
Qed.

Lemma valid_leaf w g i t k :
  gs_inv w g -> gs_l0_tbl g !! i = Some t -> t <> 0 -> 0 <= k < 512 -> rv_pte_valid (km_word w (t + 8 * k)) = true ->
  exists x, km_word w (t + 8 * k) = RV_PTE_FROM_PA x GSTAGE_RAM_FLAGS /\ RV_PTE_TO_PA (km_word w (t + 8 * k)) = x /\ good_page w g x /\
    x ∉ gs_l0_tbl g.
Proof.
  intros Hinv Hi Ht Hk Hv. destruct (gi_leaf _ _ Hinv i t k Hi Ht Hk) as [E|(x & E & Hx & Hn)]; [by rewrite E in Hv|].
  exists x. split; [done|]. split; [|done]. rewrite E. destruct Hx as (Hm & Hl & _). by apply leaf_entry.
Qed.

Lemma gs_tables_ok w g : gs_inv w g -> tables_ok (km_word w) (gs_l0_tbl g).
Proof.
  intros Hinv. split.
  - intros t [i Hi]%list_elem_of_lookup Hne. by apply (gi_l0 _ _ Hinv i t).
  - apply (gi_l0_inj _ _ Hinv).
  - intros t k [i Hi]%list_elem_of_lookup Hne Hk Hv. by destruct (valid_leaf w g i t k Hinv Hi Hne Hk Hv) as (x & _ & -> & _ & ?).
  - intros i t k j u l H1 H2 H3 H4 H5 H6 H7 H8 E.
    destruct (valid_leaf w g i t k Hinv H1 H2 H3 H4) as (x & Ex & Ex' & Hx & _). destruct (valid_leaf w g j u l Hinv H5 H6 H7 H8) as (y & Ey & Ey' & _).
    assert (x = y) as <- by congruence. apply (gi_leaf_inj _ _ Hinv i t k j u l); try done; [|congruence].
    rewrite Ex. destruct Hx as (? & ? & _). by apply leaf_nonzero.
Qed.

(** A guest page is the translation of the first address of a page. *)
Lemma leaf_lookup w g i t k :
  gs_inv w g -> gs_l0_tbl g !! i = Some t -> t <> 0 -> 0 <= k < 512 -> rv_pte_valid (km_word w (t + 8 * k)) = true ->
  exists gpa, rv_gstage_lookup w g gpa = Some (RV_PTE_TO_PA (km_word w (t + 8 * k))).
Proof.
  intros Hinv Hi Ht Hk Hv. pose proof (gi_window _ _ Hinv) as Hw. exists (gs_ram_base g + Z.of_nat i * GSTAGE_BLOCK_SIZE + k * PAGE_SIZE).
  set (gpa := _ + _ + _). pose proof (lookup_lt_Some _ _ _ Hi) as Hlen.
  assert (rv_gstage_ipa_is_ram g gpa = true) as Hin. { pose proof (gw_end _ Hw). unfold rv_gstage_ipa_is_ram, gpa. lia. }
  assert (gs_ram_base g = first_block g * GSTAGE_BLOCK_SIZE) as Eb.
  { unfold first_block. pose proof (Z.div_mod (gs_ram_base g) GSTAGE_BLOCK_SIZE ltac:(lia)). destruct (gw_base _ Hw). lia. }
  assert (blk g gpa = Z.of_nat i) as Ebl.
  { unfold blk, gpa. rewrite Eb. replace (_ + _ + _) with (k * PAGE_SIZE + (first_block g + Z.of_nat i) * GSTAGE_BLOCK_SIZE) by lia.
    rewrite Z.div_add, Z.div_small by lia. lia. }
  assert (gpa = k * PAGE_SIZE + (first_block g + Z.of_nat i) * 512 * PAGE_SIZE) as Eg by (unfold gpa; rewrite Eb; lia).
  assert (l0_index gpa = k) as Ek.
  { destruct (index_div gpa) as (_ & _ & ->). change (2 ^ 12) with PAGE_SIZE. rewrite Eg, <- Z.mul_add_distr_r, Z.div_mul by lia.
    rewrite Z.mod_add, Z.mod_small by lia. done. }
  rewrite lookup_entry, Hin by done. assert (l0_at g (Z.of_nat i) = t) as Et by (unfold l0_at, aget; by rewrite Nat2Z.id, Hi).
  unfold entry_of, gs_entry. rewrite Ebl, Ek, Et, (proj2 (Z.eqb_neq t 0)) by done. destruct (valid_leaf w g i t k Hinv Hi Ht Hk Hv) as (x & E & E' & (Hm & Hx & _) & _).
  rewrite E', E, (proj2 (Z.eqb_neq _ 0)) by by apply leaf_nonzero.
  f_equal. rewrite Eg, <- Z.mul_add_distr_r, Z.mod_mul by lia. lia.
Qed.

Lemma lookup_leaf w g gpa y :
  gs_inv w g -> y mod PAGE_SIZE = 0 -> rv_gstage_lookup w g gpa = Some y ->
  exists t k, t ∈ gs_l0_tbl g /\ t <> 0 /\ 0 <= k < 512 /\ rv_pte_valid (km_word w (t + 8 * k)) = true /\ y = RV_PTE_TO_PA (km_word w (t + 8 * k)).
Proof.
  intros Hinv Hy Hl. destruct (lookup_page w g gpa y Hinv Hl) as (x & (Hm & Hx & _) & Hin & Ey & E).
  destruct (ram_blk_in g gpa (gi_window _ _ Hinv) Hin) as (_ & Hr & _). fold (blk g gpa) in Hr.
  pose proof (leaf_nonzero x Hm Hx) as Hnz. rewrite <- E in Hnz. unfold entry_of, gs_entry in E, Hnz.
  destruct (Z.eqb_spec (l0_at g (blk g gpa)) 0) as [|Ht]; [done|]. exists (l0_at g (blk g gpa)), (l0_index gpa).
  split; [eapply list_elem_of_lookup_2, l0_lookup, Hr|]. split; [done|]. split; [apply l0_index_range|].
  rewrite E. destruct (leaf_entry x Hm Hx) as (Hv & _ & ->). split; [done|].
  pose proof (Z.mod_pos_bound gpa PAGE_SIZE ltac:(lia)). pose proof (Z.div_mod x PAGE_SIZE ltac:(lia)). pose proof (Z.div_mod y PAGE_SIZE ltac:(lia)). lia.
Qed.

(** C22. The destruction of a machine succeeds and gives back exactly its tables of the
    last level and its guest pages: those and the pages free before are the free pages
    after it, and the count grows by their number.  From then on the hart finds no
    translation from the root of the machine, and no memory outside the tables has
    changed. *)
Theorem gstage_destroy_correct st w g :
  gs_inv w g ->
  exists w' freed, rv_gstage_vm_destroy st w g = Some (w', gstage_zero (st_max_l0 st)) /\ pmm_inv (km_pmm w') /\ NoDup freed /\
    (forall y, y ∈ freed <-> (y ∈ gs_l0_tbl g /\ y <> 0) \/ (y mod PAGE_SIZE = 0 /\ exists gpa, rv_gstage_lookup w g gpa = Some y)) /\
    (forall y, free_at (km_pmm w') y <-> free_at (km_pmm w) y \/ y ∈ freed) /\
    pm_free_pages (km_pmm w') = pm_free_pages (km_pmm w) + Z.of_nat (length freed) /\
    (forall gpa, hw_walk (km_word w') (gs_root g) gpa = None) /\
    (forall a, (forall t, t ∈ gs_l0_tbl g -> t <> 0 -> a < t \/ t + PAGE_SIZE <= a) ->
       a < gs_root g \/ gs_root g + GSTAGE_ROOT_SIZE <= a ->
       a < l1_of st (gs_slot g) 0 \/ l1_of st (gs_slot g) 4 <= a -> km_word w' a = km_word w a).
Proof.
  intros Hinv. pose proof (gs_tables_ok w g Hinv) as Hok. set (freed := pages_all (km_word w) (gs_l0_tbl g)).
  assert (forall y, y ∈ freed -> owned (km_pmm w) y /\ 0 <= y < U64_MOD) as Hown.
  { intros y [[[i Hi]%list_elem_of_lookup Hne]|(t & k & [i Hi]%list_elem_of_lookup & Hne & Hk & Hv & ->)]%elem_pages_all.
    - destruct (gi_l0 _ _ Hinv i y Hi Hne) as (_ & ? & ? & _). split; [done|lia].
    - destruct (valid_leaf w g i t k Hinv Hi Hne Hk Hv) as (x & _ & -> & (_ & ? & ? & _) & _). split; [done|lia]. }
  pose proof (NoDup_pages_all _ _ Hok) as Hnd.
  destruct (free_all_spec freed (km_pmm w) (gi_pmm _ _ Hinv) Hnd Hown) as (pm' & Ef & Hinv' & _ & Hfree & Hc).
  destruct (destroy_tables_frees _ w pm' Hok Ef) as (w1 & E1 & Ep & Hw1). unfold rv_gstage_vm_destroy. rewrite E1. cbn [mbind option_bind].
  eexists _, freed. split; [reflexivity|]. cbn [km_pmm clear_words set_words]. rewrite Ep. split_and!; try done.
  - intros y. unfold freed. rewrite elem_pages_all. apply Morphisms_Prop.or_iff_morphism; [done|]. split.
    + intros (t & k & [i Hi]%list_elem_of_lookup & Hne & Hk & Hv & ->). split; [|by apply (leaf_lookup w g i)].
      destruct (valid_leaf w g i t k Hinv Hi Hne Hk Hv) as (x & _ & -> & (? & _) & _). done.
    + intros (Hm & gpa & Hl). by apply lookup_leaf in Hl.
  - intros gpa. unfold hw_walk. pose proof (Z.mod_pos_bound (gpa / 2 ^ 30) 2048 ltac:(lia)) as Hr.
    assert (km_word (clear_words (clear_words w1 (gs_root g) GSTAGE_ROOT_SIZE) (l1_of st (gs_slot g) 0) (GSTAGE_L1_TABLES * PAGE_SIZE))
              (gs_root g + 8 * (gpa / 2 ^ 30 mod 2048)) = 0) as ->; [|done].
    cbn [km_word clear_words set_words]. case_if; [done|]. case_if; [done|lia].
  - intros a Ha Hr Hl. rewrite word_clear_out by (unfold l1_of in *; lia). rewrite word_clear_out by lia. by apply Hw1.
Qed.

(** ** Initialisation *)

(** The static arrays: aligned, apart, and not among the pages the allocator hands out. *)
Record static_ok (st : gstage_static) (pm : pmm_t) : Prop := mk_static_ok {
  so_root : 0 < st_root st /\ st_root st mod GSTAGE_ROOT_SIZE = 0 /\ st_root st + GSTAGE_MAX_VMS * GSTAGE_ROOT_SIZE <= PT_PA_LIMIT;
  so_l1 : 0 < st_l1 st /\ st_l1 st mod PAGE_SIZE = 0 /\ st_l1 st + GSTAGE_MAX_VMS * GSTAGE_L1_TABLES * PAGE_SIZE <= PT_PA_LIMIT;
  so_apart : st_root st + GSTAGE_MAX_VMS * GSTAGE_ROOT_SIZE <= st_l1 st \/
             st_l1 st + GSTAGE_MAX_VMS * GSTAGE_L1_TABLES * PAGE_SIZE <= st_root st;
  so_taken : forall x, st_root st <= x < st_root st + GSTAGE_MAX_VMS * GSTAGE_ROOT_SIZE \/
                       st_l1 st <= x < st_l1 st + GSTAGE_MAX_VMS * GSTAGE_L1_TABLES * PAGE_SIZE -> ~ free_at pm x;
}.

(** The window the configuration asserts at compile time: whole blocks below 4 GiB. *)
Definition window_ok (st : gstage_static) (ram_base ram_size : Z) : Prop :=
  0 <= ram_base /\ ram_base mod GSTAGE_BLOCK_SIZE = 0 /\ ram_size = Z.of_nat (st_max_l0 st) * GSTAGE_BLOCK_SIZE /\ ram_base + ram_size <= 2 ^ 32.

Lemma hgatp_root_of vmid root :
  0 <= vmid < 16384 -> 0 <= root < 2 ^ 56 -> root mod PAGE_SIZE = 0 ->
  hgatp_root (Z.lor (Z.lor HGATP_MODE_SV39X4 (Z.shiftl vmid HGATP_VMID_SHIFT)) (Z.land (Z.shiftr root PAGE_SHIFT) HGATP_PPN_MASK)) = root.
Proof.
  intros Hv Hr Hm. unfold hgatp_root. rewrite !Z.land_lor_distr_l. change (Z.land HGATP_MODE_SV39X4 HGATP_PPN_MASK) with 0.
  change HGATP_PPN_MASK with (2 ^ 44 - 1). rewrite !land_pred_pow2, Z.mod_mod by lia.
  rewrite (Z.shiftl_mul_pow2 vmid), Z.mod_mul, !Z.lor_0_l, Z.shiftr_div_pow2, Z.shiftl_mul_pow2 by lia.
  change (2 ^ PAGE_SHIFT) with PAGE_SIZE. rewrite Z.mod_small by (split; [apply Z.div_pos|apply Z.div_lt_upper_bound]; lia).
  pose proof (Z.div_mod root PAGE_SIZE ltac:(lia)). lia.
Qed.

Lemma hgatp_vmid_of vmid x :
  0 <= vmid < 16384 ->
  Z.land (Z.shiftr (Z.lor (Z.lor HGATP_MODE_SV39X4 (Z.shiftl vmid HGATP_VMID_SHIFT)) (Z.land x HGATP_PPN_MASK)) HGATP_VMID_SHIFT) 16383 = vmid.
Proof.
  intros Hv. rewrite !Z.shiftr_lor, !Z.land_lor_distr_l. change (Z.land (Z.shiftr HGATP_MODE_SV39X4 HGATP_VMID_SHIFT) 16383) with 0.
  rewrite Z.shiftr_shiftl_l, Z.shiftl_0_r by lia. change 16383 with (2 ^ 14 - 1). change HGATP_PPN_MASK with (2 ^ 44 - 1).
  rewrite !land_pred_pow2, Z.mod_small, Z.shiftr_div_pow2 by lia. rewrite Z.div_small by (apply Z.mod_pos_bound; lia).
  by rewrite Z.mod_0_l, Z.lor_0_l, Z.lor_0_r by lia.
Qed.

Lemma root_loop w root (f : Z -> Z) :
  let w' := for_range 0 4 (fun w i => store w (root + 8 * i) (f i)) w in
  km_pmm w' = km_pmm w /\ (forall i, 0 <= i < 4 -> km_word w' (root + 8 * i) = f i) /\
  (forall a, (forall i, 0 <= i < 4 -> a <> root + 8 * i) -> km_word w' a = km_word w a).
Proof.
  cbn zeta. apply (for_range_ind (fun n w' => km_pmm w' = km_pmm w /\ (forall i, 0 <= i < n -> km_word w' (root + 8 * i) = f i) /\
    (forall a, (forall i, 0 <= i < n -> a <> root + 8 * i) -> km_word w' a = km_word w a))); [lia|split_and!; [done|lia|done]|].
  intros n w1 Hn (Ep & Hin & Hout). split_and!; [done|..].
  - intros i Hi. destruct (decide (i = n)) as [->|]; [apply word_store_eq|]. rewrite word_store_ne by lia. apply Hin. lia.
  - intros a Ha. rewrite word_store_ne by (apply Ha; lia). apply Hout. intros. apply Ha. lia.
Qed.

Section init.
Context (st : gstage_static) (w : kmem) (g0 : gstage_ctx_t) (slot vmid ram_base ram_size cur : Z).
Context (Hp : pmm_inv (km_pmm w)) (Hlim : page_addr (km_pmm w) (pm_total_pages (km_pmm w)) <= PT_PA_LIMIT).
Context (Hst : static_ok st (km_pmm w)) (Hwin : window_ok st ram_base ram_size) (Hslot : 0 <= slot < GSTAGE_MAX_VMS).

Let res := rv_gstage_vm_init st w g0 slot vmid ram_base ram_size cur.
Let w' := res.1.1.
Let g := res.1.2.

Lemma init_fields :
  gs_root g = root_of st slot /\ gs_l1 g = (fun i => l1_of st slot i) <$> seqZ 0 4 /\ gs_l0_tbl g = replicate (st_max_l0 st) 0 /\
  gs_ram_base g = ram_base /\ gs_ram_end g = ram_base + ram_size /\ km_pmm w' = km_pmm w.
Proof using Hwin Hslot.
  unfold w', g, res, rv_gstage_vm_init. rewrite (proj2 (Z.leb_gt _ _)) by lia. cbn [fst snd]. split_and!; try done.
  cbn. destruct Hwin as (? & _ & ? & ?). apply u64_id. lia.
Qed.

Lemma init_static x : static_page g x ->
  (exists i, 0 <= i < 4 /\ x = l1_of st slot i) \/ (exists k, 0 <= k < 4 /\ x = root_of st slot + k * PAGE_SIZE).
Proof using Hwin Hslot.
  destruct init_fields as (Er & El & _). unfold static_page. rewrite Er, El. intros [Hx|Hx]; [left|by right].
  apply list_elem_of_fmap in Hx as (i & -> & Hi%elem_of_seqZ). exists i. split; [lia|done].
Qed.

Lemma init_l1 i : 0 <= i < 4 -> aget 0 (gs_l1 g) i = l1_of st slot i.
Proof using Hwin Hslot.
  intros Hi. destruct init_fields as (_ & -> & _). unfold aget. rewrite list_lookup_fmap, lookup_seqZ_lt by lia. cbn. f_equal. lia.
Qed.

Lemma init_words a :
  km_word w' a =
    if (root_of st slot <=? a) && (a <? root_of st slot + 32) && ((a - root_of st slot) mod 8 =? 0)
    then RV_PTE_FROM_PA (l1_of st slot ((a - root_of st slot) / 8)) RV_PTE_V
    else if (root_of st slot <=? a) && (a <? root_of st slot + GSTAGE_ROOT_SIZE) || (l1_of st slot 0 <=? a) && (a <? l1_of st slot 4) then 0
    else km_word w a.
Proof using Hwin Hslot.
  unfold w', res, rv_gstage_vm_init. rewrite (proj2 (Z.leb_gt _ _)) by lia. cbn [fst snd].
  set (w2 := clear_words (clear_words w _ _) _ _). destruct (root_loop w2 (root_of st slot) (fun i => RV_PTE_FROM_PA (l1_of st slot i) RV_PTE_V)) as (_ & Hin & Hout).
  pose proof (Z.div_mod (a - root_of st slot) 8 ltac:(lia)) as Hd. pose proof (Z.mod_pos_bound (a - root_of st slot) 8 ltac:(lia)) as Hm. case_if.
  - rewrite <- (Hin ((a - root_of st slot) / 8)) by lia. f_equal. lia.
  - rewrite Hout by (intros i Hi ->; lia). unfold w2. cbn [km_word clear_words set_words]. unfold l1_of in *. repeat case_if; lia || done.
Qed.

Lemma init_window : gs_window g.
Proof using Hwin Hslot Hst.
  destruct init_fields as (Er & El & E0 & Eb & Ee & _). destruct Hwin as (Hb & Hm & Hsz & Hl). destruct Hst as [(? & ? & ?) (? & ? & ?) Hap _].
  split.
  - by rewrite Eb.
  - rewrite Ee, Eb, E0, length_replicate. lia.
  - rewrite Ee. lia.
  - rewrite El. split; [done|]. apply NoDup_fmap_2; [|apply NoDup_seqZ]. intros i j Hij. unfold l1_of in Hij. lia.
  - intros x Hx. pose proof (Z.div_mod (st_root st) 16384 ltac:(lia)). pose proof (Z.div_mod (st_l1 st) PAGE_SIZE ltac:(lia)).
    destruct (init_static x Hx) as [(i & Hi & ->)|(k & Hk & ->)]; unfold root_of, l1_of; (split; [|lia]); apply Z.mod_divide; try lia.
    + exists (st_l1 st / PAGE_SIZE + (slot * 4 + i)). lia.
    + exists (st_root st / 16384 * 4 + slot * 4 + k). lia.
  - intros k Hk. rewrite Er, El. intros (i & E & Hi%elem_of_seqZ)%list_elem_of_fmap. unfold root_of, l1_of in E. lia.
Qed.

Lemma init_inv : gs_inv w' g.
Proof using Hwin Hslot Hst Hp Hlim.
  pose proof init_fields as (Er & El & E0 & Eb & Ee & Epm). pose proof init_words as Hwd. pose proof init_window as Hw.
  pose proof Hst as [(? & ? & ?) (? & ? & ?) Hap Htk].
  assert (forall i t, gs_l0_tbl g !! i = Some t -> t <> 0 -> False) as Hno.
  { intros i t. rewrite E0. intros [-> _]%lookup_replicate. done. }
  split; [by rewrite Epm|by rewrite Epm|done|..].
  - intros x Hx. rewrite Epm. apply Htk. unfold root_of, l1_of in *. destruct (init_static x Hx) as [(i & Hi & ->)|(k & Hk & ->)]; unfold root_of, l1_of; lia.
  - intros i Hi. rewrite Hwd, Er. replace (root_of st slot + 8 * i - root_of st slot) with (i * 8) by lia. rewrite Z.mod_mul, Z.div_mul by lia.
    destruct (Z.ltb_spec i 4).
    + rewrite (init_l1 i) by lia. replace (_ && _ && _) with true by lia. done.
    + replace (_ && _ && _) with false by lia. replace (_ && _ || _ && _) with true by lia. done.
  - intros b Hb. assert (0 <= b / 512 < 4) as Hq by (split; [apply Z.div_pos|apply Z.div_lt_upper_bound]; lia). pose proof (mod512 b).
    unfold l1_slot. rewrite (init_l1 _ Hq), Hwd. replace (l1_entry g b) with 0.
    + unfold root_of, l1_of in *. replace (_ && _ && _) with false by lia. replace (_ && _ || _ && _) with true by lia. done.
    + unfold l1_entry. destruct (_ && _) eqn:Ec; [|done]. destruct (Hno (Z.to_nat (b - first_block g)) (l0_at g (b - first_block g))); [apply l0_lookup|]; lia.
  - intros i t Hi Ht. by destruct (Hno i t).
  - intros i j t Hi _ Ht. by destruct (Hno i t).
  - intros i t k Hi Ht. by destruct (Hno i t).
  - intros i t k j u l Hi Ht. by destruct (Hno i t).
Qed.

Lemma init_spec :
  gs_inv w' g /\ res.2 = gs_hgatp g /\ hgatp_root (gs_hgatp g) = root_of st slot /\ gs_vmid g = vmid mod 16384 /\
  Z.land (Z.shiftr (gs_hgatp g) HGATP_VMID_SHIFT) 16383 = gs_vmid g /\
  forall gpa, 0 <= gpa < 2 ^ 41 -> hw_walk (km_word w') (hgatp_root (gs_hgatp g)) gpa = None.
Proof using Hwin Hslot Hst Hp Hlim.
  pose proof init_inv as Hinv. pose proof init_fields as (Er & _ & E0 & _).
  assert (exists v, v = Z.land vmid 16383 /\ gs_vmid g = v /\ gs_hgatp g = Z.lor (Z.lor HGATP_MODE_SV39X4 (Z.shiftl v HGATP_VMID_SHIFT)) (Z.land (Z.shiftr (root_of st slot) PAGE_SHIFT) HGATP_PPN_MASK) /\
            res.2 = rv_gstage_activate g cur) as (v & Ev & Evm & Eh & Eact).
  { eexists. split; [reflexivity|]. unfold g, res, rv_gstage_vm_init. rewrite (proj2 (Z.leb_gt _ _)) by lia. done. }
  change 16383 with (2 ^ 14 - 1) in Ev. rewrite land_pred_pow2 in Ev by lia. assert (0 <= v < 16384) as Hv by (rewrite Ev; apply Z.mod_pos_bound; lia).
  pose proof Hst as [(? & Hal & ?) _ _ _].
  assert (hgatp_root (gs_hgatp g) = root_of st slot) as Ehr.
  { rewrite Eh. apply hgatp_root_of; [lia|unfold root_of; lia|]. unfold root_of. pose proof (Z.div_mod (st_root st) 16384 ltac:(lia)).
    apply Z.mod_divide; [lia|]. exists (st_root st / 16384 * 4 + slot * 4). lia. }
  split; [done|]. split.
  { rewrite Eact. unfold rv_gstage_activate. case_if; [|case_if; [done|done]]. exfalso. rewrite E in Ehr. change (hgatp_root 0) with 0 in Ehr. unfold root_of in Ehr. lia. }
  split; [done|]. split; [by rewrite Evm, Ev|]. split.
  - rewrite Eh, Evm. by apply hgatp_vmid_of.
  - intros gpa Hg. rewrite Ehr, <- Er. rewrite hart_walk by done. rewrite lookup_entry by done. destruct (rv_gstage_ipa_is_ram g gpa) eqn:Hin; [|done].
    destruct (ram_blk_in g gpa (gi_window _ _ Hinv) Hin) as (_ & Hr & _). fold (blk g gpa) in Hr. pose proof (l0_lookup g _ Hr) as Hl. rewrite E0 in Hl.
    apply lookup_replicate in Hl as [Hl _]. unfold entry_of, gs_entry. by rewrite Hl.
Qed.

End init.

(** The creation of the second stage of a machine, in the slots and the RAM window
    the configuration admits, establishes the invariant of the tables; the register of
    the hart selects the root of this machine and its number; and no guest address is
    translated, so that every first access traps. *)
Theorem gstage_vm_init_correct st w g0 slot vmid ram_base ram_size cur w' g hgatp :
  pmm_inv (km_pmm w) -> page_addr (km_pmm w) (pm_total_pages (km_pmm w)) <= PT_PA_LIMIT ->
  static_ok st (km_pmm w) -> window_ok st ram_base ram_size -> 0 <= slot < GSTAGE_MAX_VMS ->
  rv_gstage_vm_init st w g0 slot vmid ram_base ram_size cur = (w', g, hgatp) ->
  gs_inv w' g /\ hgatp = gs_hgatp g /\ hgatp_root hgatp = root_of st slot /\
  Z.land (Z.shiftr hgatp HGATP_VMID_SHIFT) 16383 = vmid mod 16384 /\
  forall gpa, 0 <= gpa < 2 ^ 41 -> hw_walk (km_word w') (hgatp_root hgatp) gpa = None.
Proof.
  intros Hp Hl Hst Hw Hs E. destruct (init_spec st w g0 slot vmid ram_base ram_size cur Hp Hl Hst Hw Hs) as (Hi & Eh & Er & Ev & Ev' & Hn).
  rewrite E in *. cbn [fst snd] in *. subst hgatp. rewrite <- Ev. done.
Qed.

(** ** A machine of two blocks at 0xA0000000 on the pool of 64 pages *)

Definition demo_static : gstage_static := mk_static 16384 16777216 2.
Definition demo_base : Z := 2684354560.
Definition demo_vm : kmem * gstage_ctx_t * Z :=
  rv_gstage_vm_init demo_static kmem64 (gstage_zero 2) 0 257 demo_base 4194304 0.

Lemma demo_static_ok : static_ok demo_static (km_pmm kmem64).
Proof.
  split; [by vm_compute|by vm_compute|by left; vm_compute|]. intros x Hx (i & Hi & -> & _).
  change (pm_total_pages (km_pmm kmem64)) with 64 in Hi. unfold page_addr in Hx. change (pm_start_addr (km_pmm kmem64)) with 1048576 in Hx.
  change (st_root demo_static) with 16384 in Hx. change (st_l1 demo_static) with 16777216 in Hx. lia.
Qed.

Lemma demo_window_ok : window_ok demo_static demo_base 4194304.
Proof. split_and!; vm_compute; done. Qed.

Lemma demo_limit : page_addr (km_pmm kmem64) (pm_total_pages (km_pmm kmem64)) <= PT_PA_LIMIT.
Proof. vm_compute. done. Qed.

Lemma demo_vm_inv : gs_inv demo_vm.1.1 demo_vm.1.2.
Proof. exact (init_inv demo_static kmem64 (gstage_zero 2) 0 257 demo_base 4194304 0 pool64_inv demo_limit demo_static_ok demo_window_ok ltac:(lia)). Qed.

(** The machine after it has taken all memory for its first block. *)
Definition demo_full : Z * kmem * gstage_ctx_t :=
  default (0, demo_vm.1.1, demo_vm.1.2) (rv_gstage_map_block demo_vm.1.1 demo_vm.1.2 demo_base true).

Lemma demo_full_inv : gs_inv demo_full.1.2 demo_full.2.
Proof.
  destruct (map_block_spec demo_vm.1.1 demo_vm.1.2 demo_base true demo_vm_inv eq_refl) as (n & w' & g' & E & Hg & _).
  unfold demo_full. rewrite E. exact (gg_inv _ _ _ _ Hg).
Qed.

Lemma gstage_hart_agrees_witness :
  hw_walk (km_word demo_full.1.2) (gs_root demo_full.2) (demo_base + 5) = Some 1052677 /\
  hw_walk (km_word demo_full.1.2) (gs_root demo_full.2) (demo_base - 1) = None.
Proof.
  destruct (gstage_hart_agrees _ _ (demo_base + 5) demo_full_inv ltac:(vm_compute; done)) as [-> _].
  destruct (gstage_hart_agrees _ _ (demo_base - 1) demo_full_inv ltac:(vm_compute; done)) as [_ [Hout _]].
  split; [vm_compute; done|]. apply Hout. vm_compute. done.
Defined.

Lemma gstage_map_page_correct_witness :
  exists w' g', rv_gstage_map_page demo_vm.1.1 demo_vm.1.2 (demo_base + 4096) true = Some (1052672, w', g') /\
    rv_gstage_lookup w' g' (demo_base + 4101) = Some 1052677 /\ rv_gstage_lookup w' g' demo_base = None.
Proof.
  destruct (gstage_map_page_correct demo_vm.1.1 demo_vm.1.2 (demo_base + 4096) true demo_vm_inv) as (pa & w' & g' & E & _ & Hres).
  assert (pa = 1052672) as ->.
  { assert (option_map (fun r => r.1.1) (rv_gstage_map_page demo_vm.1.1 demo_vm.1.2 (demo_base + 4096) true) = Some 1052672) as E' by (vm_compute; done).
    rewrite E in E'. by injection E'. }
  change (rv_gstage_ipa_is_ram demo_vm.1.2 (demo_base + 4096)) with true in Hres.
  replace (rv_gstage_lookup demo_vm.1.1 demo_vm.1.2 (demo_base + 4096)) with (@None Z) in Hres by (vm_compute; done).
  destruct Hres as (_ & _ & _ & Hl). exists w', g'. split; [exact E|]. split; rewrite Hl; [done|vm_compute; done].
Defined.

Lemma gstage_fault_correct_witness :
  exists w' g', handle_ram_fault demo_vm.1.1 demo_vm.1.2 (demo_base + 8192) = Some (EL2_RESUME, w', g') /\ gs_inv w' g' /\ gs_nr_fault g' = 63.
Proof.
  destruct (gstage_fault_correct demo_vm.1.1 demo_vm.1.2 (demo_base + 8192) demo_vm_inv eq_refl) as (code & w' & g' & E & Hi & _).
  assert (option_map (fun r => (r.1.1, gs_nr_fault r.2)) (handle_ram_fault demo_vm.1.1 demo_vm.1.2 (demo_base + 8192)) = Some (EL2_RESUME, 63)) as E'
    by (vm_compute; done).
  rewrite E in E'. injection E' as -> E'. exists w', g'. split; [exact E|]. split; [exact Hi|exact E'].
Defined.

Lemma gstage_destroy_correct_witness :
  exists w', rv_gstage_vm_destroy demo_static demo_full.1.2 demo_full.2 = Some (w', gstage_zero 2) /\
    free_at (km_pmm w') 1048576 /\ hw_walk (km_word w') (gs_root demo_full.2) demo_base = None.
Proof.
  destruct (gstage_destroy_correct demo_static _ _ demo_full_inv) as (w' & freed & E & _ & _ & Hin & Hf & _ & Hw & _).
  exists w'. split; [exact E|]. split; [|apply Hw]. apply Hf. right. apply Hin. left. split; [|done].
  replace (gs_l0_tbl demo_full.2) with [1048576; 0] by (vm_compute; done). by left.
Defined.

Lemma gstage_vm_init_correct_witness :
  gs_inv demo_vm.1.1 demo_vm.1.2 /\ hw_walk (km_word demo_vm.1.1) (hgatp_root demo_vm.2) demo_base = None.
Proof.
  destruct (gstage_vm_init_correct demo_static kmem64 (gstage_zero 2) 0 257 demo_base 4194304 0 demo_vm.1.1 demo_vm.1.2 demo_vm.2
    pool64_inv demo_limit demo_static_ok demo_window_ok ltac:(lia)) as (Hi & _ & _ & _ & Hn).
  - unfold demo_vm. by destruct (rv_gstage_vm_init _ _ _ _ _ _ _ _) as [[w' g'] h].
  - split; [done|]. apply Hn. vm_compute. done.
Defined.
