(* ===== verification/VmPool.v ===== *)
(** * The pool of virtual machines: kernel/vmm/vm.c

    Slots with a state, a machine number and a count of live virtual CPUs, all under
    [g_vm_pool_lock].  [vm_free] takes the lock twice and takes the machine down in
    between, so it is two steps.  The second half of the file puts the operations
    together as their callers do (vcpu.c, loader/guest_loader.c): a loader that creates
    the tasks of the virtual CPUs, the tasks that end, and the last one that takes the
    machine down. *)

From stdpp Require Import options.
From Stdlib Require Import Lia ZifyBool.
From S2P Require Import Prelude.

Abbreviation MAX_VMS := 32.
Abbreviation VM_FREE := 0.
Abbreviation VM_LOADING := 1.
Abbreviation VM_RUNNING := 2.
Abbreviation VM_DYING := 4.

(** The fields of [vm_t] that the pool uses. *)
Record vm_t := mk_vm { vm_state : Z; vm_slot : Z; vm_vmid : Z; vm_nr_vcpu_alive : Z }.

Record vm_pool := mk_pool { g_vm_pool : list vm_t; g_next_vmid : Z }.

Definition vm_zero : vm_t := mk_vm VM_FREE 0 0 0.
Definition vm_at (p : vm_pool) (i : Z) : vm_t := aget vm_zero (g_vm_pool p) i.
Definition vm_put (p : vm_pool) (i : Z) (v : vm_t) : vm_pool := mk_pool (aset (g_vm_pool p) i v) (g_next_vmid p).

(** At boot. *)
Definition vm_pool_boot : vm_pool := mk_pool (replicate 32 vm_zero) 1.

(** ** Operations *)

(** The first slot from [i] on that [f] selects. *)
Fixpoint first_slot (f : vm_t -> bool) (i : Z) (l : list vm_t) : option Z :=
  match l with
  | [] => None
  | v :: l => if f v then Some i else first_slot f (i + 1) l
  end.

Definition vm_alloc (p : vm_pool) : option Z * vm_pool :=
  match first_slot (fun v => vm_state v =? VM_FREE) 0 (g_vm_pool p) with
  | Some i =>
      let found := mk_vm VM_LOADING i (g_next_vmid p) 0 in
      (Some i, mk_pool (aset (g_vm_pool p) i found) (if 255 <=? g_next_vmid p then 1 else g_next_vmid p + 1))
  | None => (None, p)
  end.

Definition vm_get (p : vm_pool) (vmid : Z) : option Z :=
  first_slot (fun v => negb (vm_state v =? VM_FREE) && (vm_vmid v =? vmid)) 0 (g_vm_pool p).

Definition vm_state_set (p : vm_pool) (i state : Z) : vm_pool :=
  let v := vm_at p i in
  if negb (vm_state v =? VM_FREE) && negb (vm_state v =? VM_DYING)
  then vm_put p i (mk_vm state (vm_slot v) (vm_vmid v) (vm_nr_vcpu_alive v))
  else p.

Definition set_alive (v : vm_t) (n : Z) : vm_t := mk_vm (vm_state v) (vm_slot v) (vm_vmid v) n.

Definition vm_vcpu_started (p : vm_pool) (i : Z) : vm_pool :=
  let v := vm_at p i in
  if negb (vm_state v =? VM_FREE) && negb (vm_state v =? VM_DYING)
  then vm_put p i (set_alive v (vm_nr_vcpu_alive v + 1))
  else p.

Definition vm_vcpu_start_abort (p : vm_pool) (i : Z) : vm_pool :=
  let v := vm_at p i in
  if 0 <? vm_nr_vcpu_alive v then vm_put p i (set_alive v (vm_nr_vcpu_alive v - 1)) else p.

(** The critical section of [vm_vcpu_stopped]; the result says that the caller is the last
    and calls [vm_free]. *)
Definition vm_vcpu_stopped (p : vm_pool) (i : Z) : bool * vm_pool :=
  let v := vm_at p i in
  if negb (vm_state v =? VM_FREE) then
    let n := if 0 <? vm_nr_vcpu_alive v then vm_nr_vcpu_alive v - 1 else vm_nr_vcpu_alive v in
    (n =? 0, vm_put p i (set_alive v n))
  else (false, p).

(** The first critical section of [vm_free]: the result says that the caller takes the
    machine down. *)
Definition vm_free_begin (p : vm_pool) (i : Z) : bool * vm_pool :=
  let v := vm_at p i in
  if (vm_state v =? VM_FREE) || (vm_state v =? VM_DYING) || negb (vm_nr_vcpu_alive v =? 0) then (false, p)
  else (true, vm_put p i (mk_vm VM_DYING (vm_slot v) (vm_vmid v) (vm_nr_vcpu_alive v))).

(** The second one, after the second stage and the devices are gone. *)
Definition vm_free_end (p : vm_pool) (i : Z) : vm_pool := vm_put p i vm_zero.

Definition vm_count_used (p : vm_pool) : Z := lsum (fun v => if vm_state v =? VM_FREE then 0 else 1) (g_vm_pool p).

Definition vmm_guest_running (p : vm_pool) : bool := 0 <? vm_count_used p.

(** ** The callers

    For each slot: the loader that creates its tasks, with the number created so far; how
    many tasks run; how many found that they are the last; how many are taking the machine
    down.  [vcpu_task_create] counts, marks the machine running and creates the task. *)

Inductive maker :=
  | mk_idle
  | mk_loading (created : Z)
  | mk_counted (created : Z)
  | mk_marked (created : Z).

Record vmw := mk_vmw {
  vw_pool : vm_pool;
  vw_maker : Z -> maker;
  vw_tasks : Z -> Z;
  vw_last : Z -> Z;
  vw_free : Z -> Z;
}.

Definition vmw_boot : vmw := mk_vmw vm_pool_boot (fun _ => mk_idle) (fun _ => 0) (fun _ => 0) (fun _ => 0).

(** Under [strict], the creation of a task does not fail and no task of a machine ends
    before its loader is done.  When it fails, the loader undoes the count and its caller
    calls [vm_free]. *)
Inductive vstep (strict : bool) : vmw -> vmw -> Prop :=
  | vs_alloc p mk t la fr i p' :
      vm_alloc p = (Some i, p') ->
      vstep strict (mk_vmw p mk t la fr) (mk_vmw p' (upd mk i (mk_loading 0)) t la fr)
  | vs_count p mk t la fr i n :
      mk i = mk_loading n ->
      vstep strict (mk_vmw p mk t la fr) (mk_vmw (vm_vcpu_started p i) (upd mk i (mk_counted n)) t la fr)
  | vs_mark p mk t la fr i n :
      mk i = mk_counted n ->
      vstep strict (mk_vmw p mk t la fr) (mk_vmw (vm_state_set p i VM_RUNNING) (upd mk i (mk_marked n)) t la fr)
  | vs_create p mk t la fr i n :
      mk i = mk_marked n ->
      vstep strict (mk_vmw p mk t la fr) (mk_vmw p (upd mk i (mk_loading (n + 1))) (upd t i (t i + 1)) la fr)
  | vs_fail p mk t la fr i n :
      strict = false -> mk i = mk_marked n ->
      vstep strict (mk_vmw p mk t la fr) (mk_vmw (vm_vcpu_start_abort p i) (upd mk i mk_idle) t (upd la i (la i + 1)) fr)
  | vs_loaded p mk t la fr i n :
      mk i = mk_loading n -> 0 < n ->
      vstep strict (mk_vmw p mk t la fr) (mk_vmw p (upd mk i mk_idle) t la fr)
  | vs_stop p mk t la fr i last p' :
      0 < t i -> (strict = true -> mk i = mk_idle) -> vm_vcpu_stopped p i = (last, p') ->
      vstep strict (mk_vmw p mk t la fr) (mk_vmw p' mk (upd t i (t i - 1)) (if last then upd la i (la i + 1) else la) fr)
  | vs_begin p mk t la fr i go p' :
      0 < la i -> vm_free_begin p i = (go, p') ->
      vstep strict (mk_vmw p mk t la fr) (mk_vmw p' mk t (upd la i (la i - 1)) (if go then upd fr i (fr i + 1) else fr))
  | vs_end p mk t la fr i :
      0 < fr i ->
      vstep strict (mk_vmw p mk t la fr) (mk_vmw (vm_free_end p i) mk t la (upd fr i (fr i - 1))).

(** * Properties *)

(** ** The invariant of a slot *)

(** Tasks counted but not created yet. *)
Definition pending (m : maker) : Z :=
  match m with mk_counted _ | mk_marked _ => 1 | _ => 0 end.

Definition loader_ok (m : maker) (tasks : Z) : Prop :=
  match m with mk_idle => True | mk_loading n | mk_counted n | mk_marked n => tasks = n end.

Definition slot_inv (v : vm_t) (m : maker) (t la fr : Z) : Prop :=
  0 <= t /\ loader_ok m t /\ vm_nr_vcpu_alive v = t + pending m /\
  ((vm_state v = VM_FREE /\ m = mk_idle /\ t = 0 /\ la = 0 /\ fr = 0) \/
   (vm_state v = VM_LOADING /\ (m = mk_loading 0 \/ m = mk_counted 0) /\ la = 0 /\ fr = 0) \/
   (vm_state v = VM_RUNNING /\ fr = 0 /\
      ((m <> mk_idle /\ m <> mk_loading 0 /\ la = 0) \/ (m = mk_idle /\ 0 < t /\ la = 0) \/ (m = mk_idle /\ t = 0 /\ la = 1))) \/
   (vm_state v = VM_DYING /\ m = mk_idle /\ t = 0 /\ la = 0 /\ fr = 1)).

Definition vmw_inv (s : vmw) : Prop :=
  length (g_vm_pool (vw_pool s)) = 32%nat /\
  forall i, if (0 <=? i) && (i <? MAX_VMS)
            then slot_inv (vm_at (vw_pool s) i) (vw_maker s i) (vw_tasks s i) (vw_last s i) (vw_free s i)
            else vw_maker s i = mk_idle /\ vw_tasks s i = 0 /\ vw_last s i = 0 /\ vw_free s i = 0.

Lemma vm_at_put_eq p i v : 0 <= i < Z.of_nat (length (g_vm_pool p)) -> vm_at (vm_put p i v) i = v.
Proof. intros. apply aget_aset_eq. lia. Qed.
Lemma vm_at_put_ne p i j v : 0 <= i -> 0 <= j -> i <> j -> vm_at (vm_put p i v) j = vm_at p j.
Proof. intros. apply aget_aset_ne; lia. Qed.

(** [p'] differs from [p] in slot [i] at most. *)
Definition touches (p p' : vm_pool) (i : Z) : Prop :=
  length (g_vm_pool p') = length (g_vm_pool p) /\ forall j, 0 <= j -> j <> i -> vm_at p' j = vm_at p j.

Lemma touches_refl p i : touches p p i.
Proof. done. Qed.
Lemma touches_set p i v n : 0 <= i -> touches p (mk_pool (aset (g_vm_pool p) i v) n) i.
Proof. intros. split; [apply length_aset|]. intros j Hj Hne. apply aget_aset_ne; lia. Qed.
Lemma touches_put p i v : 0 <= i -> touches p (vm_put p i v) i.
Proof. intros. by apply touches_set. Qed.

(** What an operation on slot [i] has to show. *)
Lemma vmw_inv_slot p mk t la fr p' mk' t' la' fr' i :
  vmw_inv (mk_vmw p mk t la fr) -> 0 <= i < MAX_VMS -> touches p p' i ->
  (forall j, j <> i -> mk' j = mk j /\ t' j = t j /\ la' j = la j /\ fr' j = fr j) ->
  slot_inv (vm_at p' i) (mk' i) (t' i) (la' i) (fr' i) ->
  vmw_inv (mk_vmw p' mk' t' la' fr').
Proof.
  intros [Hlen Hall] Hi [Hlen' Hat] Hne Hslot. split; cbn [vw_pool vw_maker vw_tasks vw_last vw_free] in *; [congruence|].
  intros j. specialize (Hall j). destruct (decide (j = i)) as [->|Hji].
  - by rewrite (proj2 (andb_true_iff _ _)) by lia.
  - destruct (Hne j Hji) as (-> & -> & -> & ->). destruct ((0 <=? j) && (j <? MAX_VMS)) eqn:E; [|done]. rewrite Hat by lia. done.
Qed.

Lemma first_slot_some f l : forall i k, first_slot f i l = Some k -> exists v, i <= k /\ l !! Z.to_nat (k - i) = Some v /\ f v = true.
Proof.
  induction l as [|v l IH]; intros i k; [done|]. cbn. destruct (f v) eqn:E.
  - intros [= <-]. exists v. rewrite Z.sub_diag. split; [lia|done].
  - intros H. destruct (IH _ _ H) as (u & Hk & Hl & Hu). exists u. split; [lia|]. split; [|done].
    replace (Z.to_nat (k - i)) with (S (Z.to_nat (k - (i + 1)))) by lia. done.
Qed.

Lemma vm_alloc_some p i p' :
  vm_alloc p = (Some i, p') ->
  0 <= i < Z.of_nat (length (g_vm_pool p)) /\ vm_state (vm_at p i) = VM_FREE /\
  exists n, p' = mk_pool (aset (g_vm_pool p) i (mk_vm VM_LOADING i (g_next_vmid p) 0)) n.
Proof.
  unfold vm_alloc. destruct (first_slot _ _ _) as [k|] eqn:E; [|done]. intros [= <- <-].
  apply first_slot_some in E as (v & Hk & Hl & Hv). rewrite Z.sub_0_r in Hl. pose proof (lookup_lt_Some _ _ _ Hl).
  split; [lia|]. split; [|by eexists]. unfold vm_at, aget. rewrite Hl. cbn. lia.
Qed.

(** A slot a maker, a task or a release is at is one of the pool. *)
Lemma vmw_slot s i :
  vmw_inv s -> vw_maker s i <> mk_idle \/ vw_tasks s i <> 0 \/ vw_last s i <> 0 \/ vw_free s i <> 0 ->
  0 <= i < MAX_VMS /\ 0 <= i < Z.of_nat (length (g_vm_pool (vw_pool s))) /\
  slot_inv (vm_at (vw_pool s) i) (vw_maker s i) (vw_tasks s i) (vw_last s i) (vw_free s i).
Proof.
  intros [Hlen Hall] Hne. specialize (Hall i). destruct ((0 <=? i) && (i <? MAX_VMS)) eqn:E.
  - rewrite Hlen. split; [lia|]. split; [lia|done].
  - destruct Hall as (? & ? & ? & ?). destruct Hne as [?|[?|[?|?]]]; done.
Qed.

Ltac slot_cases H :=
  destruct H as (? & ? & ? & [(? & ? & ? & ? & ?)|[(? & [?|?] & ? & ?)|[(? & ? & [(? & ? & ?)|[(? & ? & ?)|(? & ? & ?)]])|(? & ? & ? & ? & ?)]]]).

(** A live slot: neither free nor dying. *)
Definition live (v : vm_t) : Prop := vm_state v = VM_LOADING \/ vm_state v = VM_RUNNING.

Lemma live_guard v : live v -> negb (vm_state v =? VM_FREE) && negb (vm_state v =? VM_DYING) = true.
Proof. intros [-> | ->]; done. Qed.

Lemma maker_live v m t la fr : slot_inv v m t la fr -> m <> mk_idle -> live v /\ la = 0 /\ fr = 0.
Proof. intros H Hm. unfold live. slot_cases H; try congruence; auto. Qed.

Section steps.
Context (v : vm_t) (t la fr : Z).

Lemma slot_count n : slot_inv v (mk_loading n) t la fr -> slot_inv (set_alive v (vm_nr_vcpu_alive v + 1)) (mk_counted n) t la fr.
Proof using Type.
  intros H. slot_cases H; simplify_eq; cbn [loader_ok pending] in *; (split_and!; [lia|cbn; lia|cbn; lia|]); cbn [vm_state set_alive].
  - right. left. auto.
  - right. right. left. split; [done|]. split; [done|]. left. done.
Qed.

Lemma slot_mark n : slot_inv v (mk_counted n) t la fr -> slot_inv (mk_vm VM_RUNNING (vm_slot v) (vm_vmid v) (vm_nr_vcpu_alive v)) (mk_marked n) t la fr.
Proof using Type.
  intros H. slot_cases H; simplify_eq; cbn [loader_ok pending] in *; (split_and!; [lia|cbn; lia|cbn; lia|]); cbn [vm_state].
  all: right; right; left; split; [done|]; split; [done|]; left; done.
Qed.

Lemma slot_create n : slot_inv v (mk_marked n) t la fr -> slot_inv v (mk_loading (n + 1)) (t + 1) la fr.
Proof using Type.
  intros H. slot_cases H; simplify_eq; cbn [loader_ok pending] in *; split_and!; try (cbn; lia).
  right. right. left. split; [done|]. split; [done|]. left. split; [done|]. split; [|done]. intros E. injection E as E. lia.
Qed.

Lemma slot_loaded n : slot_inv v (mk_loading n) t la fr -> 0 < n -> slot_inv v mk_idle t la fr.
Proof using Type.
  intros H Hn. slot_cases H; simplify_eq; cbn [loader_ok pending] in *; try lia. split_and!; [lia|done|cbn; lia|].
  right. right. left. split; [done|]. split; [done|]. right. left. split; [done|]. split; [lia|done].
Qed.

Lemma slot_stop : slot_inv v mk_idle t la fr -> 0 < t ->
  vm_state v = VM_RUNNING /\ vm_nr_vcpu_alive v = t /\
  slot_inv (set_alive v (t - 1)) mk_idle (t - 1) (if t - 1 =? 0 then la + 1 else la) fr.
Proof using Type.
  intros H Ht. slot_cases H; simplify_eq; cbn [loader_ok pending] in *; try lia. split; [done|]. split; [lia|].
  split_and!; [lia|done|cbn; lia|]. cbn [vm_state set_alive]. right. right. left. split; [done|]. split; [done|].
  destruct (Z.eqb_spec (t - 1) 0); [right; right|right; left]; (split; [done|]; lia).
Qed.

Lemma slot_begin m : slot_inv v m t la fr -> 0 < la ->
  vm_state v = VM_RUNNING /\ vm_nr_vcpu_alive v = 0 /\
  slot_inv (mk_vm VM_DYING (vm_slot v) (vm_vmid v) (vm_nr_vcpu_alive v)) m t (la - 1) (fr + 1).
Proof using Type.
  intros H Hla. slot_cases H; simplify_eq; try lia. cbn [loader_ok pending] in *. split; [done|]. split; [lia|].
  split_and!; [lia|done|cbn; lia|]. right. right. right. split_and!; [done|done|done|lia|lia].
Qed.

Lemma slot_end m : slot_inv v m t la fr -> 0 < fr -> slot_inv vm_zero m t la (fr - 1).
Proof using Type.
  intros H Hfr. slot_cases H; simplify_eq; try lia. split_and!; [lia|done|cbn in *; lia|]. left. split_and!; [done|done|done|done|lia].
Qed.
End steps.

Lemma vmw_step_inv s s' : vmw_inv s -> vstep true s s' -> vmw_inv s'.
Proof.
  intros Hinv Hstep. destruct Hstep as [p mk t la fr i p' E|p mk t la fr i n E|p mk t la fr i n E|p mk t la fr i n E|? ? ? ? ? ? ? [=]
    |p mk t la fr i n E Hn|p mk t la fr i last p' Ht Hmk E|p mk t la fr i go p' Hla E|p mk t la fr i Hfr].
  { destruct (vm_alloc_some p i p' E) as (Hi & Hst & n & ->). pose proof Hinv as [Hlen Hall]. cbn in Hlen. assert (0 <= i < MAX_VMS) as Hr by lia.
    eapply vmw_inv_slot; [exact Hinv|exact Hr|apply touches_set; lia|intros j Hj; by rewrite upd_ne|].
    rewrite upd_eq. unfold vm_at. cbn [g_vm_pool]. rewrite aget_aset_eq by lia. specialize (Hall i).
    rewrite (proj2 (andb_true_iff _ _)) in Hall by lia. cbn [vw_pool vw_maker vw_tasks vw_last vw_free] in Hall.
    slot_cases Hall; try congruence. split_and!; [lia|cbn; lia|cbn; lia|]. right. left. split_and!; auto. }
  all: destruct (vmw_slot _ i Hinv) as (Hi & Hl & Hs); [cbn [vw_maker vw_tasks vw_last vw_free]; rewrite ?E; first [by left|right; lia]|];
    cbn [vw_pool vw_maker vw_tasks vw_last vw_free] in Hl, Hs; try rewrite E in Hs.
  - destruct (maker_live _ _ _ _ _ Hs ltac:(done)) as [Hv _]. unfold vm_vcpu_started. rewrite live_guard by done.
    eapply vmw_inv_slot; [exact Hinv|exact Hi|apply touches_put; lia|intros j Hj; by rewrite upd_ne|].
    rewrite upd_eq, vm_at_put_eq by done. by apply slot_count.
  - destruct (maker_live _ _ _ _ _ Hs ltac:(done)) as [Hv _]. unfold vm_state_set. rewrite live_guard by done.
    eapply vmw_inv_slot; [exact Hinv|exact Hi|apply touches_put; lia|intros j Hj; by rewrite upd_ne|].
    rewrite upd_eq, vm_at_put_eq by done. by apply slot_mark.
  - eapply vmw_inv_slot; [exact Hinv|exact Hi|apply touches_refl|intros j Hj; by rewrite !upd_ne|]. rewrite !upd_eq. by apply slot_create.
  - eapply vmw_inv_slot; [exact Hinv|exact Hi|apply touches_refl|intros j Hj; by rewrite upd_ne|]. rewrite upd_eq. by apply (slot_loaded _ _ _ _ n).
  - specialize (Hmk eq_refl). rewrite Hmk in Hs. destruct (slot_stop _ _ _ _ Hs Ht) as (Hst & Hal & Hs').
    unfold vm_vcpu_stopped in E. rewrite Hst, Hal in E. cbn [negb Z.eqb] in E. rewrite (proj2 (Z.ltb_lt 0 _)) in E by lia. injection E as <- <-.
    eapply vmw_inv_slot; [exact Hinv|exact Hi|apply touches_put; lia|intros j Hj; rewrite upd_ne by done; destruct (_ =? 0); by rewrite ?upd_ne|].
    rewrite upd_eq, vm_at_put_eq, Hmk by done. destruct (t i - 1 =? 0); [rewrite upd_eq|]; done.
  - destruct (slot_begin _ _ _ _ _ Hs Hla) as (Hst & Hal & Hs'). unfold vm_free_begin in E. rewrite Hst, Hal in E. cbn [negb Z.eqb orb] in E. injection E as <- <-.
    eapply vmw_inv_slot; [exact Hinv|exact Hi|apply touches_put; lia|intros j Hj; by rewrite !upd_ne|].
    rewrite !upd_eq, vm_at_put_eq by done. by rewrite Hal in Hs'.
  - eapply vmw_inv_slot; [exact Hinv|exact Hi|apply touches_put; lia|intros j Hj; by rewrite upd_ne|].
    rewrite upd_eq. unfold vm_free_end. rewrite vm_at_put_eq by done. by eapply slot_end.
Qed.

Lemma slot_facts v m t la fr :
  slot_inv v m t la fr ->
  vm_nr_vcpu_alive v = t + pending m /\ (0 < t \/ m <> mk_idle -> live v /\ fr = 0) /\
  (0 <= fr <= 1 /\ (fr = 1 -> vm_state v = VM_DYING /\ t = 0 /\ m = mk_idle)) /\
  (vm_state v <> VM_FREE <-> m <> mk_idle \/ 0 < t \/ la = 1 \/ fr = 1).
Proof.
  intros H. unfold live. slot_cases H; (split; [done|]); (split; [|split; [split; [lia|intros; first [lia|done]]|]]).
  all: try (intros [Hc|Hc]; first [lia|congruence|split; [auto|done]]).
  all: split; intros Hc; try lia.
  all: try (destruct Hc as [Hc|[Hc|[Hc|Hc]]]; first [lia|congruence]).
  all: try (left; congruence).
  all: right; lia.
Qed.

Lemma vmw_boot_inv : vmw_inv vmw_boot.
Proof.
  split; [done|]. intros i. cbn [vw_pool vw_maker vw_tasks vw_last vw_free vmw_boot]. destruct (_ && _) eqn:E; [|done].
  assert (vm_at vm_pool_boot i = vm_zero) as ->.
  { unfold vm_at, aget. cbn [g_vm_pool vm_pool_boot]. destruct (replicate 32 vm_zero !! Z.to_nat i) eqn:E'; [|done]. by apply lookup_replicate in E' as [-> _]. }
  split_and!; [lia|done|done|]. left. done.
Qed.



(** ** What the callers do not exclude *)

(** C40. A stop request reaches a machine while its loader still creates tasks: a task that
    waits at its gate ends, is the last that was counted and takes the machine down; the
    loader then goes on to create a task of a virtual CPU of the machine, which runs on a
    slot that has been given back and that the next [vm_alloc] hands out. *)
Theorem vm_early_stop_runs_freed_slot :
  exists s p', star (vstep false) vmw_boot s /\ vw_tasks s 0 = 1 /\ vm_state (vm_at (vw_pool s) 0) = VM_FREE /\
    vm_alloc (vw_pool s) = (Some 0, p').
Proof.
  eexists _, _. split; [|split; [|split; [|]]].
  - eapply star_step; [by apply (vs_alloc false _ _ _ _ _ 0)|]. eapply star_step; [by apply (vs_count false _ _ _ _ _ 0 0)|].
    eapply star_step; [by apply (vs_mark false _ _ _ _ _ 0 0)|]. eapply star_step; [by apply (vs_create false _ _ _ _ _ 0 0)|].
    eapply star_step; [by apply (vs_stop false _ _ _ _ _ 0)|]. eapply star_step; [by apply (vs_begin false _ _ _ _ _ 0)|].
    eapply star_step; [by apply (vs_end false _ _ _ _ _ 0)|]. eapply star_step; [by apply (vs_count false _ _ _ _ _ 0 1)|].
    eapply star_step; [by apply (vs_mark false _ _ _ _ _ 0 1)|]. apply star_one. by apply (vs_create false _ _ _ _ _ 0 1).
  - vm_compute. reflexivity.
  - vm_compute. reflexivity.
  - vm_compute. reflexivity.
Qed.

(** The first machine stays; the second slot is used and given back over and over. *)
Definition one_vm (next : Z) : vm_pool := mk_pool (mk_vm VM_LOADING 0 1 0 :: replicate 31 vm_zero) next.

Definition second_idle (k : Z) (s : vmw) : Prop :=
  vw_pool s = one_vm k /\ vw_maker s 1 = mk_idle /\ vw_tasks s 1 = 0 /\ vw_last s 1 = 0 /\ vw_free s 1 = 0.

Lemma second_cycle k s :
  second_idle k s -> exists s', star (vstep true) s s' /\ second_idle (if 255 <=? k then 1 else k + 1) s'.
Proof.
  destruct s as [p mk t la fr]. intros (Hp & Hm & Ht & Hl & Hf). cbn [vw_pool vw_maker vw_tasks vw_last vw_free] in *. subst p.
  eexists. split.
  - eapply star_step; [by apply (vs_alloc true _ _ _ _ _ 1)|]. eapply star_step; [by apply (vs_count true _ _ _ _ _ 1 0)|].
    eapply star_step; [by apply (vs_mark true _ _ _ _ _ 1 0)|]. eapply star_step; [by apply (vs_create true _ _ _ _ _ 1 0)|].
    eapply star_step; [by apply (vs_loaded true _ _ _ _ _ 1 1)|].
    eapply star_step; [apply (vs_stop true _ _ _ _ _ 1 true); [by rewrite upd_eq, Ht|done|reflexivity]|].
    eapply star_step; [apply (vs_begin true _ _ _ _ _ 1 true); [by rewrite upd_eq, Hl|reflexivity]|].
    apply star_one. apply (vs_end true _ _ _ _ _ 1). by rewrite upd_eq, Hf.
  - split_and!; cbn [vw_pool vw_maker vw_tasks vw_last vw_free]; rewrite ?upd_eq, ?Ht, ?Hl, ?Hf; reflexivity.
Qed.

Lemma second_cycles n k s :
  second_idle k s -> 1 <= k -> k + Z.of_nat n <= 255 -> exists s', star (vstep true) s s' /\ second_idle (k + Z.of_nat n) s'.
Proof.
  revert k s. induction n as [|n IH]; intros k s Hs Hk Hn.
  - exists s. split; [constructor|]. by replace (k + Z.of_nat 0) with k by lia.
  - destruct (second_cycle k s Hs) as (s1 & H1 & Hs1). rewrite (proj2 (Z.leb_gt _ _)) in Hs1 by lia.
    destruct (IH (k + 1) s1 Hs1 ltac:(lia) ltac:(lia)) as (s' & H' & Hs'). exists s'. split; [by eapply star_trans|].
    by replace (k + Z.of_nat (S n)) with (k + 1 + Z.of_nat n) by lia.
Qed.

(** Machine numbers are not unique: they wrap at 255 and [vm_alloc] does not look at
    the machines alive.  After a machine has lived through 255 others, two machines in use
    have the number 1, and [vm_get], through which every request names a machine, reaches
    only the older. *)
Theorem vmid_collision :
  exists s p', star (vstep true) vmw_boot s /\ vm_alloc (vw_pool s) = (Some 1, p') /\
    live (vm_at p' 0) /\ live (vm_at p' 1) /\ vm_vmid (vm_at p' 0) = 1 /\ vm_vmid (vm_at p' 1) = 1 /\ vm_get p' 1 = Some 0.
Proof.
  eassert (star (vstep true) vmw_boot _) as H0 by (apply star_one; by apply (vs_alloc true _ _ _ _ _ 0)).
  match type of H0 with star _ _ ?s0 => assert (second_idle 2 s0) as Hs0 by done end.
  destruct (second_cycles 253 2 _ Hs0 ltac:(lia) ltac:(lia)) as (s1 & H1 & Hs1). destruct (second_cycle _ s1 Hs1) as (s2 & H2 & Hs2).
  destruct Hs2 as (Hp & _). exists s2. eexists. split; [by eapply star_trans; [exact H0|eapply star_trans]|]. rewrite Hp. unfold live.
  split; [vm_compute; reflexivity|]. split_and!; vm_compute; auto.
Qed.
