(* ===== verification/MmioBus.v ===== *)
(** * The bus of emulated devices: kernel/vmm/mmio_bus.c, include/vmm/vmm_mmio.h

    A device is its window and its table of functions; the functions act on the state [S]
    of the devices of a machine.  [mmio_device I d] is what a device promises to the bus:
    its window does not wrap, and its functions keep the invariant [I] and read 64-bit
    values.  The devices of this library are instances; the bus is proved against the
    class. *)

From stdpp Require Import options.
From Stdlib Require Import Lia ZifyBool.
From S2P Require Import Prelude.

Abbreviation MMIO_MAX_DEVICES := 16.

Section bus.
Context {S : Type}.

(** A function pointer that may be NULL is an [option]. *)
Record mmio_dev_ops_t := mk_ops {
  ops_base : Z;
  ops_size : Z;
  ops_read : option (S -> Z -> Z -> Z * S);
  ops_write : option (S -> Z -> Z -> Z -> S);
  ops_read_for_vcpu : option (S -> Z -> Z -> Z -> Z * S);
  ops_write_for_vcpu : option (S -> Z -> Z -> Z -> Z -> S);
}.

(** The devices [devs[0 .. nr)]. *)
Definition mmio_bus_t : Type := list mmio_dev_ops_t.

Definition mmio_bus_init : mmio_bus_t := [].

Definition mmio_bus_register (bus : mmio_bus_t) (dev : mmio_dev_ops_t) : Z * mmio_bus_t :=
  if MMIO_MAX_DEVICES <=? Z.of_nat (length bus) then (-1, bus) else (0, bus ++ [dev]).

(** The window test of the loop. *)
Definition in_window (d : mmio_dev_ops_t) (gpa : Z) : bool :=
  negb ((gpa <? ops_base d) || (u64 (ops_base d + ops_size d) <=? gpa)).

Definition dev_write (d : mmio_dev_ops_t) (s : S) (off size value vcpu_id : Z) : S :=
  match ops_write_for_vcpu d, ops_write d with
  | Some f, _ => f s off size value vcpu_id
  | None, Some f => f s off size value
  | None, None => s
  end.

Definition dev_read (d : mmio_dev_ops_t) (s : S) (off size vcpu_id : Z) : Z * S :=
  match ops_read_for_vcpu d, ops_read d with
  | Some f, _ => f s off size vcpu_id
  | None, Some f => f s off size
  | None, None => (0, s)
  end.

(** [Some (out, s)] is the return value 1; [None] is 0. *)
Fixpoint mmio_bus_handle (bus : mmio_bus_t) (s : S) (gpa : Z) (is_write : bool) (size value vcpu_id : Z) : option (Z * S) :=
  match bus with
  | [] => None
  | dev :: bus =>
      if negb (in_window dev gpa) then mmio_bus_handle bus s gpa is_write size value vcpu_id
      else
        let off := gpa - ops_base dev in
        if is_write then Some (0, dev_write dev s off size value vcpu_id)
        else Some (dev_read dev s off size vcpu_id)
  end.

(** ** What a device promises *)

Class mmio_device (I : S -> Prop) (d : mmio_dev_ops_t) : Prop := {
  md_window : 0 <= ops_base d /\ 0 <= ops_size d /\ ops_base d + ops_size d < U64_MOD;
  md_write : forall s off size value vcpu, I s -> 0 <= off < ops_size d -> I (dev_write d s off size value vcpu);
  md_read : forall s off size vcpu, I s -> 0 <= off < ops_size d ->
    0 <= (dev_read d s off size vcpu).1 < U64_MOD /\ I (dev_read d s off size vcpu).2;
}.

Definition window_of (d : mmio_dev_ops_t) (gpa : Z) : Prop := ops_base d <= gpa < ops_base d + ops_size d.

Lemma in_window_spec I d gpa : mmio_device I d -> in_window d gpa = true <-> window_of d gpa.
Proof. intros [(? & ? & ?) _ _]. unfold in_window, window_of. rewrite u64_id by lia. lia. Qed.

(** The first device whose window holds the address answers, with the offset into its
    window; without such a device the access is refused. *)
Lemma mmio_bus_handle_first I bus s gpa is_write size value vcpu :
  Forall (mmio_device I) bus ->
  match mmio_bus_handle bus s gpa is_write size value vcpu with
  | Some r => exists i d, bus !! i = Some d /\ window_of d gpa /\ (forall j e, bus !! j = Some e -> window_of e gpa -> (i <= j)%nat) /\
      r = if is_write then (0, dev_write d s (gpa - ops_base d) size value vcpu) else dev_read d s (gpa - ops_base d) size vcpu
  | None => forall d, d ∈ bus -> ~ window_of d gpa
  end.
Proof using Type.
  intros Hall. induction Hall as [|d bus Hd Hall IH]; cbn [mmio_bus_handle].
  { intros d Hd. by apply not_elem_of_nil in Hd. }
  destruct (in_window d gpa) eqn:E; cbn [negb].
  - apply (in_window_spec I) in E; [|done].
    destruct is_write; exists 0%nat, d; (split; [done|]; split; [done|]; split; [lia|done]).
  - assert (~ window_of d gpa) as Hn by (rewrite <- (in_window_spec I) by done; congruence).
    destruct (mmio_bus_handle bus s gpa is_write size value vcpu) as [r|].
    + destruct IH as (i & e & Hi & He & Hmin & Hr). exists (Datatypes.S i), e. split; [done|]. split; [done|]. split; [|done].
      intros [|j] e' Hj He'; cbn in Hj; [by simplify_eq|]. specialize (Hmin j e' Hj He'). lia.
    + intros e [->|He]%elem_of_cons; [done|by apply IH].
Qed.

(** Every access keeps the invariant of the devices. *)
Lemma mmio_bus_handle_inv I bus s gpa is_write size value vcpu out s' :
  Forall (mmio_device I) bus -> I s -> mmio_bus_handle bus s gpa is_write size value vcpu = Some (out, s') ->
  0 <= out < U64_MOD /\ I s'.
Proof using Type.
  intros Hall Hs E. pose proof (mmio_bus_handle_first I bus s gpa is_write size value vcpu Hall) as H. rewrite E in H.
  destruct H as (i & d & Hi & Hw & _ & Hr). pose proof (proj1 (Forall_lookup _ _) Hall i d Hi) as [_ Hwr Hrd]. unfold window_of in Hw.
  destruct is_write.
  - injection Hr as -> ->. split; [lia|]. apply Hwr; [done|lia].
  - destruct (Hrd s (gpa - ops_base d) size vcpu Hs) as [Hv Hs']; [lia|]. by rewrite <- Hr in Hv, Hs'.
Qed.

Lemma mmio_bus_register_inv I bus dev :
  Forall (mmio_device I) bus -> mmio_device I dev -> Forall (mmio_device I) (mmio_bus_register bus dev).2.
Proof using Type. intros. unfold mmio_bus_register. case_if; [done|]. cbn. by apply Forall_app_2; [|constructor]. Qed.

End bus.

Arguments mmio_dev_ops_t : clear implicits.
Arguments mmio_bus_t : clear implicits.

(** ** Devices by machine

    Every device driver has a pool with one state for each slot of [g_vm_pool].  The state
    of a slot in use names the machine it belongs to, and the lookup refuses any other. *)

Abbreviation DEV_SLOTS := 32.

(** A pointer to a machine, 0 for NULL, and its slot. *)
Record vm_ref := mk_vmref { vr_ptr : Z; vr_slot : Z }.

Definition in_slots (vm : vm_ref) : bool := negb (vr_ptr vm =? 0) && ((0 <=? vr_slot vm) && (vr_slot vm <? DEV_SLOTS)).

Section slots.
Context {S : Type} (owner : S -> Z) (zero : S).

Definition slot_of (g : list S) (vm : vm_ref) : option S :=
  if negb (in_slots vm) then None
  else
    let d := aget zero g (vr_slot vm) in
    if negb (owner d =? vr_ptr vm) then None else Some d.

Definition slot_put (g : list S) (vm : vm_ref) (s : S) : list S := aset g (vr_slot vm) s.

Lemma slot_of_in g vm d : slot_of g vm = Some d -> in_slots vm = true /\ d = aget zero g (vr_slot vm) /\ owner d = vr_ptr vm.
Proof using Type.
  unfold slot_of. destruct (in_slots vm); cbn [negb]; [|done]. destruct (owner _ =? _) eqn:E; cbn [negb]; [|done].
  intros [= <-]. split; [done|]. split; [done|lia].
Qed.

Lemma slot_of_put g vm s :
  length g = 32%nat -> in_slots vm = true -> owner s = vr_ptr vm -> slot_of (slot_put g vm s) vm = Some s.
Proof using Type.
  intros Hl Hi Ho. unfold slot_of. rewrite Hi. cbn [negb]. unfold in_slots in Hi. unfold slot_put.
  rewrite aget_aset_eq, Ho, Z.eqb_refl by lia. done.
Qed.

(** What is done to the slot of a machine is not seen through another slot. *)
Lemma slot_of_put_ne g vm vm' s : in_slots vm = true -> vr_slot vm <> vr_slot vm' -> slot_of (slot_put g vm s) vm' = slot_of g vm'.
Proof using Type.
  intros Hi Hne. unfold slot_of. destruct (in_slots vm') eqn:E; cbn [negb]; [|done]. unfold in_slots in *. unfold slot_put.
  rewrite aget_aset_ne by lia. done.
Qed.

(** A slot nobody owns is not found. *)
Lemma slot_of_cleared g vm vm' :
  length g = 32%nat -> in_slots vm = true -> owner zero = 0 -> vr_slot vm' = vr_slot vm -> slot_of (slot_put g vm zero) vm' = None.
Proof using Type.
  intros Hl Hi Ho Hs. unfold slot_of. destruct (in_slots vm') eqn:E; cbn [negb]; [|done]. unfold in_slots in *. unfold slot_put. rewrite Hs.
  rewrite aget_aset_eq, Ho by lia. rewrite (proj2 (Z.eqb_neq _ _)) by lia. done.
Qed.
End slots.
