(* ===== verification/Vplic.v ===== *)
(** * The virtual interrupt controller: kernel/vmm/vdev/vplic.c, include/vmm/vmm_vplic.h

    A PLIC of 64 sources whose context N is the virtual CPU N: the pending bits belong to
    the sources, the enable, active and threshold registers to the contexts.  Each slot of
    the pool has a lock, so every operation is one step.  A machine is known by its
    pointer and its slot; [vplic_of] finds the slot only for its owner.

    [deliverable] and [best] say what a controller must deliver; the theorems show that
    the bit loop finds it, that the state stays well formed under every guest access, and
    that no source is claimed more often than it was raised. *)

From stdpp Require Import options.
From Stdlib Require Import Lia ZifyBool.
From S2P Require Import Prelude Bitmap MmioBus.

Abbreviation VPLIC_BASE := 201326592.
Abbreviation VPLIC_SIZE := 4194304.
Abbreviation VPLIC_MAX_IRQS := 64.
Abbreviation VPLIC_MAX_VCPUS := 12.
Abbreviation PENDING_OFFSET := 4096.
Abbreviation ENABLE_OFFSET := 8192.
Abbreviation ENABLE_STRIDE := 128.
Abbreviation CONTEXT_OFFSET := 2097152.
Abbreviation CONTEXT_STRIDE := 4096.
Abbreviation CONTEXT_THRESHOLD_OFF := 0.
Abbreviation CONTEXT_CLAIM_COMPLETE := 4.
Abbreviation VALID_IRQ_MASK := 18446744073709551614.

Record vplic_state_t := mk_vplic {
  vp_owner : Z;
  vp_priority : list Z;
  vp_pending : Z;
  vp_active : list Z;
  vp_enable : list Z;
  vp_threshold : list Z;
  vp_nr_vcpus : Z;
}.

(** [memset(&d->st, 0, sizeof(d->st))] *)
Definition vplic_zero : vplic_state_t :=
  mk_vplic 0 (replicate 64 0) 0 (replicate 12 0) (replicate 12 0) (replicate 12 0) 0.

Definition set_pending (s : vplic_state_t) (p : Z) : vplic_state_t :=
  mk_vplic (vp_owner s) (vp_priority s) p (vp_active s) (vp_enable s) (vp_threshold s) (vp_nr_vcpus s).
Definition set_active (s : vplic_state_t) (a : list Z) : vplic_state_t :=
  mk_vplic (vp_owner s) (vp_priority s) (vp_pending s) a (vp_enable s) (vp_threshold s) (vp_nr_vcpus s).
Definition set_enable (s : vplic_state_t) (e : list Z) : vplic_state_t :=
  mk_vplic (vp_owner s) (vp_priority s) (vp_pending s) (vp_active s) e (vp_threshold s) (vp_nr_vcpus s).
Definition set_threshold (s : vplic_state_t) (t : list Z) : vplic_state_t :=
  mk_vplic (vp_owner s) (vp_priority s) (vp_pending s) (vp_active s) (vp_enable s) t (vp_nr_vcpus s).
Definition set_priority (s : vplic_state_t) (p : list Z) : vplic_state_t :=
  mk_vplic (vp_owner s) p (vp_pending s) (vp_active s) (vp_enable s) (vp_threshold s) (vp_nr_vcpus s).

(** [~x] of a 64-bit word. *)
Definition not64 (x : Z) : Z := u64 (Z.lnot x).

(** ** Delivery *)

Definition candidates (s : vplic_state_t) (vcpu_id : Z) : Z :=
  Z.land (Z.land (Z.land (vp_pending s) (aget 0 (vp_enable s) vcpu_id)) (not64 (aget 0 (vp_active s) vcpu_id))) VALID_IRQ_MASK.

(** One round of the loop over the candidates: the candidates left, the best source so
    far and its priority. *)
Definition best_body (priority : list Z) (st : Z * Z * Z) : (Z * Z * Z) + Z :=
  let '(cand, best_irq, best_prio) := st in
  if cand =? 0 then inr best_irq
  else
    let t := Z.land cand (u64 (u64 (Z.lnot cand) + 1)) in
    let irq := bit_index 64 t 0 in
    let cand := Z.land cand (u64 (cand - 1)) in
    let prio := aget 0 priority irq in
    if best_prio <? prio then inl (cand, irq, prio) else inl (cand, best_irq, best_prio).

Definition vplic_next_deliverable_locked (s : vplic_state_t) (vcpu_id : Z) : option Z :=
  if (vp_nr_vcpus s <=? vcpu_id) || (VPLIC_MAX_VCPUS <=? vcpu_id) then Some 0
  else loop 65 (best_body (vp_priority s)) (candidates s vcpu_id, 0, aget 0 (vp_threshold s) vcpu_id).

Definition vplic_claim_locked (s : vplic_state_t) (vcpu_id : Z) : option (Z * vplic_state_t) :=
  if VPLIC_MAX_VCPUS <=? vcpu_id then Some (0, s)
  else
    irq ← vplic_next_deliverable_locked s vcpu_id;
    if irq =? 0 then Some (0, s)
    else
      let s := set_pending s (Z.land (vp_pending s) (not64 (Z.shiftl 1 irq))) in
      let s := set_active s (aset (vp_active s) vcpu_id (Z.lor (aget 0 (vp_active s) vcpu_id) (Z.shiftl 1 irq))) in
      Some (irq, s).

Definition vplic_complete_locked (s : vplic_state_t) (vcpu_id irq : Z) : vplic_state_t :=
  if (VPLIC_MAX_VCPUS <=? vcpu_id) || (irq =? 0) || (VPLIC_MAX_IRQS <=? irq) then s
  else set_active s (aset (vp_active s) vcpu_id (Z.land (aget 0 (vp_active s) vcpu_id) (not64 (Z.shiftl 1 irq)))).

Definition set_pending_locked (s : vplic_state_t) (irq : Z) : vplic_state_t :=
  if (irq =? 0) || (VPLIC_MAX_IRQS <=? irq) then s
  else set_pending s (Z.lor (vp_pending s) (Z.shiftl 1 irq)).

(** ** Registers *)

(** 32 bits of a 64-bit register. *)
Definition half (x word : Z) : Z := Z.land (Z.shiftr x (word * 32)) 4294967295.

Definition vplic_read (s : vplic_state_t) (off size : Z) : option (Z * vplic_state_t) :=
  if off <? VPLIC_MAX_IRQS * 4 then
    let irq := off / 4 in
    Some (if irq <? VPLIC_MAX_IRQS then aget 0 (vp_priority s) irq else 0, s)
  else if (PENDING_OFFSET <=? off) && (off <? PENDING_OFFSET + 8) then
    let word := (off - PENDING_OFFSET) / 4 in
    Some (if 2 <=? word then 0 else half (vp_pending s) word, s)
  else if (ENABLE_OFFSET <=? off) && (off <? ENABLE_OFFSET + ENABLE_STRIDE * VPLIC_MAX_VCPUS) then
    let ctx := (off - ENABLE_OFFSET) / ENABLE_STRIDE in
    let word := (off - ENABLE_OFFSET) mod ENABLE_STRIDE / 4 in
    Some (if (ctx <? vp_nr_vcpus s) && (word <? 2) then half (aget 0 (vp_enable s) ctx) word else 0, s)
  else if CONTEXT_OFFSET <=? off then
    let ctx := (off - CONTEXT_OFFSET) / CONTEXT_STRIDE in
    let reg := (off - CONTEXT_OFFSET) mod CONTEXT_STRIDE in
    if ctx <? vp_nr_vcpus s then
      if reg =? CONTEXT_THRESHOLD_OFF then Some (aget 0 (vp_threshold s) ctx, s)
      else if reg =? CONTEXT_CLAIM_COMPLETE then vplic_claim_locked s ctx
      else Some (0, s)
    else Some (0, s)
  else Some (0, s).

Definition vplic_write (s : vplic_state_t) (off size value : Z) : vplic_state_t :=
  let v := u32 value in
  if off <? VPLIC_MAX_IRQS * 4 then
    let irq := off / 4 in
    if (0 <? irq) && (irq <? VPLIC_MAX_IRQS) then set_priority s (aset (vp_priority s) irq v) else s
  else if (ENABLE_OFFSET <=? off) && (off <? ENABLE_OFFSET + ENABLE_STRIDE * VPLIC_MAX_VCPUS) then
    let ctx := (off - ENABLE_OFFSET) / ENABLE_STRIDE in
    let word := (off - ENABLE_OFFSET) mod ENABLE_STRIDE / 4 in
    if (ctx <? vp_nr_vcpus s) && (word <? 2) then
      let shift := word * 32 in
      let e := Z.land (aget 0 (vp_enable s) ctx) (not64 (u64 (Z.shiftl 4294967295 shift))) in
      set_enable s (aset (vp_enable s) ctx (Z.lor e (Z.land (u64 (Z.shiftl v shift)) VALID_IRQ_MASK)))
    else s
  else if CONTEXT_OFFSET <=? off then
    let ctx := (off - CONTEXT_OFFSET) / CONTEXT_STRIDE in
    let reg := (off - CONTEXT_OFFSET) mod CONTEXT_STRIDE in
    if ctx <? vp_nr_vcpus s then
      if reg =? CONTEXT_THRESHOLD_OFF then set_threshold s (aset (vp_threshold s) ctx v)
      else if reg =? CONTEXT_CLAIM_COMPLETE then vplic_complete_locked s ctx v
      else s
    else s
  else s.

(** ** The pool *)

Definition vplic_of (g : list vplic_state_t) (vm : vm_ref) : option vplic_state_t := slot_of vp_owner vplic_zero g vm.
Definition vplic_put (g : list vplic_state_t) (vm : vm_ref) (s : vplic_state_t) : list vplic_state_t := slot_put g vm s.

Definition vplic_set_pending (g : list vplic_state_t) (vm : vm_ref) (irq : Z) : list vplic_state_t :=
  match vplic_of g vm with None => g | Some s => vplic_put g vm (set_pending_locked s irq) end.

Definition vplic_next_deliverable (g : list vplic_state_t) (vm : vm_ref) (vcpu_id : Z) : option Z :=
  match vplic_of g vm with None => Some 0 | Some s => vplic_next_deliverable_locked s vcpu_id end.

Definition vplic_claim (g : list vplic_state_t) (vm : vm_ref) (vcpu_id : Z) : option (Z * list vplic_state_t) :=
  match vplic_of g vm with
  | None => Some (0, g)
  | Some s => '(irq, s) ← vplic_claim_locked s vcpu_id; Some (irq, vplic_put g vm s)
  end.

Definition vplic_complete (g : list vplic_state_t) (vm : vm_ref) (vcpu_id irq : Z) : list vplic_state_t :=
  match vplic_of g vm with None => g | Some s => vplic_put g vm (vplic_complete_locked s vcpu_id irq) end.

(** The state [vplic_init] leaves in the slot; [None] is the return value -1. *)
Definition vplic_init (g : list vplic_state_t) (vm : vm_ref) (nr_vcpus : Z) : option (list vplic_state_t) :=
  if negb (in_slots vm) then None
  else
    let nr_vcpus := if nr_vcpus <? 1 then 1 else nr_vcpus in
    let nr_vcpus := if VPLIC_MAX_VCPUS <? nr_vcpus then VPLIC_MAX_VCPUS else nr_vcpus in
    Some (vplic_put g vm
            (mk_vplic (vr_ptr vm) (replicate 64 0) 0 (replicate 12 0) (replicate 12 0) (replicate 12 0) nr_vcpus)).

Definition vplic_destroy (g : list vplic_state_t) (vm : vm_ref) : list vplic_state_t :=
  if negb (in_slots vm) then g else vplic_put g vm vplic_zero.

(** * Properties *)

(** ** Bits *)

Lemma testbit_u64 x k : 0 <= k < 64 -> Z.testbit (u64 x) k = Z.testbit x k.
Proof. intros. unfold u64. change U64_MOD with (2 ^ 64). by rewrite Z.mod_pow2_bits_low by lia. Qed.

Lemma testbit_not64 x k : 0 <= k < 64 -> Z.testbit (not64 x) k = negb (Z.testbit x k).
Proof. intros. unfold not64. rewrite testbit_u64 by done. by rewrite Z.lnot_spec by lia. Qed.

Lemma testbit_one_shift irq k : 0 <= irq -> 0 <= k -> Z.testbit (Z.shiftl 1 irq) k = (k =? irq).
Proof. intros. rewrite Z.shiftl_mul_pow2, Z.mul_1_l, Z.pow2_bits_eqb by lia. apply Z.eqb_sym. Qed.

Lemma testbit_valid k : 0 <= k < 64 -> Z.testbit VALID_IRQ_MASK k = negb (k =? 0).
Proof.
  intros. change VALID_IRQ_MASK with (not64 (Z.shiftl 1 0)). rewrite testbit_not64, testbit_one_shift by lia. done.
Qed.

Lemma testbit_high x k : 0 <= x < U64_MOD -> 64 <= k -> Z.testbit x k = false.
Proof.
  intros Hx Hk. destruct (decide (x = 0)) as [->|]; [apply Z.bits_0|]. apply Z.bits_above_log2; [lia|].
  apply Z.log2_lt_pow2; [lia|]. apply Z.lt_le_trans with (2 ^ 64); [lia|]. apply Z.pow_le_mono_r; lia.
Qed.

Lemma land_range64 x y : 0 <= x < U64_MOD -> 0 <= Z.land x y < U64_MOD.
Proof. intros. apply (land_range 64); [lia|done]. Qed.

Lemma shift_range irq : 0 <= irq < 64 -> 0 <= Z.shiftl 1 irq < U64_MOD.
Proof.
  intros. rewrite Z.shiftl_mul_pow2, Z.mul_1_l by lia. change U64_MOD with (2 ^ 64).
  split; [apply Z.pow_nonneg; lia|apply Z.pow_lt_mono_r; lia].
Qed.

(** ** The invariant *)

(** A register of source bits: a 64-bit word without source 0. *)
Definition irq_word (x : Z) : Prop := 0 <= x < U64_MOD /\ Z.testbit x 0 = false.

Record vplic_inv (s : vplic_state_t) : Prop := mk_vplic_inv {
  vi_nr : 0 <= vp_nr_vcpus s <= VPLIC_MAX_VCPUS;
  vi_priority : length (vp_priority s) = 64%nat /\ Forall (fun p => 0 <= p < U32_MOD) (vp_priority s);
  vi_pending : irq_word (vp_pending s);
  vi_active : length (vp_active s) = 12%nat /\ Forall irq_word (vp_active s);
  vi_enable : length (vp_enable s) = 12%nat /\ Forall irq_word (vp_enable s);
  vi_threshold : length (vp_threshold s) = 12%nat /\ Forall (fun t => 0 <= t < U32_MOD) (vp_threshold s);
}.

Lemma irq_word_0 : irq_word 0.
Proof. split; [lia|done]. Qed.

Lemma irq_word_lor x irq : irq_word x -> 0 < irq < 64 -> irq_word (Z.lor x (Z.shiftl 1 irq)).
Proof.
  intros [Hx H0] Hi. split; [apply (lor_range 64); [done|done|apply shift_range; lia]|].
  rewrite Z.lor_spec, H0, testbit_one_shift, orb_false_l by lia. lia.
Qed.

Lemma irq_word_land x y : irq_word x -> irq_word (Z.land x y).
Proof. intros [Hx H0]. split; [by apply land_range64|]. by rewrite Z.land_spec, H0. Qed.

Lemma aget_Forall {A} (P : A -> Prop) (d : A) l i : P d -> Forall P l -> P (aget d l i).
Proof. intros Hd Hl. unfold aget. destruct (l !! Z.to_nat i) eqn:E; [|done]. cbn. by eapply Forall_lookup. Qed.

Lemma aset_Forall {A} (P : A -> Prop) l i (x : A) : Forall P l -> P x -> Forall P (aset l i x).
Proof. intros. by apply Forall_insert. Qed.

Lemma active_word s v : vplic_inv s -> irq_word (aget 0 (vp_active s) v).
Proof. intros H. apply aget_Forall; [apply irq_word_0|apply (vi_active _ H)]. Qed.
Lemma enable_word s v : vplic_inv s -> irq_word (aget 0 (vp_enable s) v).
Proof. intros H. apply aget_Forall; [apply irq_word_0|apply (vi_enable _ H)]. Qed.
Lemma threshold_range s v : vplic_inv s -> 0 <= aget 0 (vp_threshold s) v < U32_MOD.
Proof. intros H. apply (aget_Forall (fun t => 0 <= t < U32_MOD)); [lia|apply (vi_threshold _ H)]. Qed.
Lemma priority_range s v : vplic_inv s -> 0 <= aget 0 (vp_priority s) v < U32_MOD.
Proof. intros H. apply (aget_Forall (fun t => 0 <= t < U32_MOD)); [lia|apply (vi_priority _ H)]. Qed.

(** ** Delivery *)

(** Source [irq] may be delivered to context [v]. *)
Definition deliverable (s : vplic_state_t) (v irq : Z) : Prop :=
  0 < irq < VPLIC_MAX_IRQS /\ Z.testbit (vp_pending s) irq = true /\ Z.testbit (aget 0 (vp_enable s) v) irq = true /\
  Z.testbit (aget 0 (vp_active s) v) irq = false /\ aget 0 (vp_threshold s) v < aget 0 (vp_priority s) irq.

(** The highest priority, the lowest number among equals. *)
Definition best (s : vplic_state_t) (v irq : Z) : Prop :=
  deliverable s v irq /\
  forall k, deliverable s v k ->
    aget 0 (vp_priority s) k < aget 0 (vp_priority s) irq \/
    (aget 0 (vp_priority s) k = aget 0 (vp_priority s) irq /\ irq <= k).

Lemma candidates_bit s v k :
  0 <= k < 64 ->
  Z.testbit (candidates s v) k =
  Z.testbit (vp_pending s) k && Z.testbit (aget 0 (vp_enable s) v) k && negb (Z.testbit (aget 0 (vp_active s) v) k) && negb (k =? 0).
Proof. intros Hk. unfold candidates. by rewrite !Z.land_spec, testbit_not64, testbit_valid by done. Qed.

(** The sources seen so far: those of [c0] that are no longer in [c]. *)
Definition seen (c0 c k : Z) : Prop := 0 <= k < 64 /\ Z.testbit c0 k = true /\ Z.testbit c k = false.

Record best_inv (pr : list Z) (th c0 : Z) (st : Z * Z * Z) : Prop := mk_best_inv {
  bi_range : 0 <= st.1.1 < U64_MOD;
  bi_sub : forall k, 0 <= k < 64 -> Z.testbit st.1.1 k = true -> Z.testbit c0 k = true;
  bi_order : forall k l, seen c0 st.1.1 k -> 0 <= l < 64 -> Z.testbit st.1.1 l = true -> k < l;
  bi_best : (st.1.2 = 0 /\ st.2 = th /\ forall k, seen c0 st.1.1 k -> aget 0 pr k <= th) \/
    (seen c0 st.1.1 st.1.2 /\ st.2 = aget 0 pr st.1.2 /\ th < st.2 /\
     forall k, seen c0 st.1.1 k -> aget 0 pr k < st.2 \/ (aget 0 pr k = st.2 /\ st.1.2 <= k));
}.

Lemma best_body_step pr cand bi bp irq :
  0 < cand < U64_MOD -> lowbit cand irq ->
  best_body pr (cand, bi, bp) =
  inl (if bp <? aget 0 pr irq then (Z.land cand (cand - 1), irq, aget 0 pr irq) else (Z.land cand (cand - 1), bi, bp)).
Proof.
  intros Hc Hl. unfold best_body. rewrite (proj2 (Z.eqb_neq cand 0)) by lia. pose proof (lowbit_lt cand irq 64 Hc ltac:(lia) Hl).
  rewrite (lowbit_isolate_u64 cand irq), bit_index_pow2 by (done || lia). change (0 + irq) with irq. rewrite land_u64_r by lia.
  by destruct (bp <? _).
Qed.

(** What is seen after the lowest candidate. *)
Lemma seen_clear c0 c irq k :
  0 < c < U64_MOD -> lowbit c irq -> Z.testbit c0 irq = true -> seen c0 (Z.land c (c - 1)) k <-> seen c0 c k \/ k = irq.
Proof.
  intros Hc Hl H0. pose proof (lowbit_lt c irq 64 Hc ltac:(lia) Hl) as Hi. unfold seen. split.
  - intros (Hk & H & Hb). rewrite (lowbit_clear c irq k Hl) in Hb by lia. destruct (Z.eqb_spec k irq); [by right|left].
    rewrite andb_true_r in Hb. done.
  - intros [(Hk & H & Hb)| ->].
    + split; [done|]. split; [done|]. rewrite (lowbit_clear c irq k Hl) by lia. by rewrite Hb.
    + split; [lia|]. split; [done|]. rewrite (lowbit_clear c irq irq Hl) by lia. by rewrite Z.eqb_refl, andb_false_r.
Qed.

Lemma best_step pr th c0 cand bi bp irq :
  best_inv pr th c0 (cand, bi, bp) -> 0 < cand < U64_MOD -> lowbit cand irq ->
  best_inv pr th c0 (if bp <? aget 0 pr irq then (Z.land cand (cand - 1), irq, aget 0 pr irq) else (Z.land cand (cand - 1), bi, bp)).
Proof.
  intros [Hr Hs Ho Hb] Hc Hl. cbn [fst snd] in *. pose proof (lowbit_lt cand irq 64 Hc ltac:(lia) Hl) as Hi.
  assert (Z.testbit cand irq = true) as Hci by (rewrite (lowbit_testbit cand irq irq Hl) by lia; apply Z.eqb_refl).
  pose proof (Hs irq Hi Hci) as H0. pose proof (fun k => seen_clear c0 cand irq k Hc Hl H0) as Hseen.
  assert (forall k, seen c0 cand k -> k < irq) as Hlt by (intros k Hk; by apply Ho).
  set (c' := Z.land cand (cand - 1)) in *.
  assert (forall bi' bp', ((bi' = 0 /\ bp' = th /\ forall k, seen c0 c' k -> aget 0 pr k <= th) \/
    (seen c0 c' bi' /\ bp' = aget 0 pr bi' /\ th < bp' /\ forall k, seen c0 c' k -> aget 0 pr k < bp' \/ (aget 0 pr k = bp' /\ bi' <= k))) ->
    best_inv pr th c0 (c', bi', bp')) as Hmk.
  { intros bi' bp' Hbest. split; cbn [fst snd]; [apply land_range64; lia| | |done].
    - intros k Hk Ht. unfold c' in Ht. rewrite (lowbit_clear cand irq k Hl) in Ht by lia. apply andb_prop in Ht as [Ht _]. by apply Hs.
    - intros k l Hk Hl' Ht. unfold c' in Ht. rewrite (lowbit_clear cand irq l Hl) in Ht by lia. apply andb_prop in Ht as [Ht Hn].
      apply Hseen in Hk as [Hk| ->]; [by apply Ho|].
      destruct (decide (l < irq)); [|lia]. rewrite (lowbit_testbit cand irq l Hl) in Ht by lia. lia. }
  destruct (Z.ltb_spec bp (aget 0 pr irq)) as [Hgt|Hle]; apply Hmk.
  - right. split; [apply Hseen; by right|]. split; [done|]. split; [destruct Hb as [(_ & -> & _)|(_ & _ & ? & _)]; lia|].
    intros k [Hk| ->]%Hseen; [left|right; lia]. destruct Hb as [(_ & -> & Hb)|(_ & _ & _ & Hb)]; [specialize (Hb k Hk); lia|].
    destruct (Hb k Hk); lia.
  - destruct Hb as [(-> & -> & Hb)|(Hbs & Hbp & Hth & Hb)]; [left|right].
    + split; [done|]. split; [done|]. intros k [Hk| ->]%Hseen; [by apply Hb|lia].
    + split; [apply Hseen; by left|]. split; [done|]. split; [done|]. intros k [Hk| ->]%Hseen; [by apply Hb|].
      pose proof (Hlt bi Hbs). lia.
Qed.

Lemma next_deliverable_spec s v :
  vplic_inv s -> 0 <= v ->
  exists irq, vplic_next_deliverable_locked s v = Some irq /\
    if (v <? vp_nr_vcpus s) && negb (irq =? 0) then best s v irq
    else irq = 0 /\ (v < vp_nr_vcpus s -> forall k, ~ deliverable s v k).
Proof.
  intros Hinv Hv. pose proof (vi_nr _ Hinv) as Hnr. unfold vplic_next_deliverable_locked.
  destruct (Z.ltb_spec v (vp_nr_vcpus s)) as [Hlt|Hge]; cycle 1.
  { rewrite (proj2 (orb_true_iff _ _)) by lia. exists 0. split; [done|]. split; [done|]. lia. }
  rewrite (proj2 (orb_false_iff _ _)) by lia. set (c0 := candidates s v). set (th := aget 0 (vp_threshold s) v).
  assert (0 <= c0 < U64_MOD) as Hc0 by (do 3 apply land_range64; apply (vi_pending _ Hinv)).
  assert (forall k, deliverable s v k <-> seen c0 0 k /\ th < aget 0 (vp_priority s) k) as Hdel.
  { intros k. unfold deliverable, seen. fold th. rewrite Z.bits_0. split.
    - intros (Hk & H1 & H2 & H3 & H4). unfold c0. rewrite candidates_bit, H1, H2, H3 by lia. cbn [negb andb]. split_and!; try done; lia.
    - intros ((Hk & Hc & _) & Ht). unfold c0 in Hc. rewrite candidates_bit in Hc by lia. zbool. split_and!; try done; lia. }
  destruct (loop_total (best_inv (vp_priority s) th c0)
      (fun irq => (irq = 0 /\ forall k, ~ deliverable s v k) \/ best s v irq)
      (fun st => count_bits (Z.testbit st.1.1) 64) (best_body (vp_priority s))) with (fuel := 65%nat) (s := (c0, 0, th)) as (irq & E & Hq).
  - intros [[c bi] bp] Hb. pose proof (bi_range _ _ _ _ Hb) as Hr. cbn [fst] in Hr. destruct (decide (c = 0)) as [->|Hnz].
    + cbn. destruct (bi_best _ _ _ _ Hb) as [(E & _ & Hbest)|(Hbs & Ebp & Hth & Hbest)]; cbn [fst snd] in *; [left|right].
      * split; [done|]. intros k [Hk Hp]%Hdel. specialize (Hbest k Hk). lia.
      * split; [apply Hdel; split; [done|lia]|]. intros k [Hk Hp]%Hdel. rewrite <- Ebp. by apply Hbest.
    + destruct (lowbit_exists c) as [i Hl]; [lia|]. rewrite (best_body_step _ c bi bp i) by (done || lia).
      pose proof (count_lowbit c i ltac:(lia) Hl). pose proof (count_bits_bound (Z.testbit (Z.land c (c - 1))) 64).
      split; [apply best_step; [done|lia|done]|]. destruct (bp <? _); cbn [fst snd]; lia.
  - split; cbn [fst snd]; [done|done| |].
    + intros k l (_ & H1 & H2). congruence.
    + left. split; [done|]. split; [done|]. intros k (_ & H1 & H2). congruence.
  - pose proof (count_bits_bound (Z.testbit c0) 64). cbn [fst]. lia.
  - exists irq. split; [done|]. cbn [andb]. destruct Hq as [[-> Hn]|Hbest]; [done|].
    destruct (Z.eqb_spec irq 0) as [->|]; [destruct Hbest as [[? _] _]; lia|done].
Qed.

(** C27. The bit loop finds what a PLIC must deliver: for a context that exists, the
    pending, enabled source that is not in service and has the highest priority above the
    threshold, the lowest number among equals; and 0 exactly when there is none. *)
Theorem vplic_delivers_best s v :
  vplic_inv s -> 0 <= v < vp_nr_vcpus s ->
  exists irq, vplic_next_deliverable_locked s v = Some irq /\
    (irq <> 0 -> best s v irq) /\ (irq = 0 <-> forall k, ~ deliverable s v k).
Proof.
  intros Hinv Hv. destruct (next_deliverable_spec s v Hinv ltac:(lia)) as (irq & E & H). exists irq. split; [done|].
  rewrite (proj2 (Z.ltb_lt _ _)) in H by lia. cbn [andb] in H. destruct (Z.eqb_spec irq 0) as [->|Hne]; cbn [negb] in H.
  - split; [done|]. split; [|done]. intros _. apply H. lia.
  - split; [done|]. split; [done|]. intros Hn. by destruct (Hn irq (proj1 H)).
Qed.

(** ** Claims and completions *)

Lemma claim_spec s v :
  vplic_inv s -> 0 <= v ->
  exists irq s', vplic_claim_locked s v = Some (irq, s') /\
    if irq =? 0 then s' = s
    else v < vp_nr_vcpus s /\ best s v irq /\
      s' = set_active (set_pending s (Z.land (vp_pending s) (not64 (Z.shiftl 1 irq))))
             (aset (vp_active s) v (Z.lor (aget 0 (vp_active s) v) (Z.shiftl 1 irq))).
Proof.
  intros Hinv Hv. pose proof (vi_nr _ Hinv). unfold vplic_claim_locked. destruct (Z.leb_spec 12 v); [by exists 0, s|].
  destruct (next_deliverable_spec s v Hinv Hv) as (irq & -> & H1). cbn [mbind option_bind].
  destruct (Z.eqb_spec irq 0) as [Hz|Hne]; [by exists 0, s|]. eexists irq, _. split; [reflexivity|].
  rewrite (proj2 (Z.eqb_neq irq 0)) by done. destruct (Z.ltb_spec v (vp_nr_vcpus s)); cbn [andb negb] in H1; [done|]. lia.
Qed.

Lemma claim_inv s v irq s' : vplic_inv s -> 0 <= v -> vplic_claim_locked s v = Some (irq, s') -> vplic_inv s' /\ 0 <= irq < 64.
Proof.
  intros Hinv Hv E. destruct (claim_spec s v Hinv Hv) as (irq0 & s0 & E0 & H). rewrite E in E0. simplify_eq.
  destruct (Z.eqb_spec irq0 0) as [->|Hne]; [subst s0; split; [done|lia]|]. destruct H as (Hlt & [(Hi & _) _] & ->). split; [|lia].
  pose proof Hinv as [Hn Hp Hpe Ha He Ht]. split; cbn; [done|done|by apply irq_word_land| |done|done].
  rewrite length_aset. split; [apply Ha|]. apply aset_Forall; [apply Ha|]. apply irq_word_lor; [by apply active_word|lia].
Qed.

Lemma complete_inv s v irq : vplic_inv s -> vplic_inv (vplic_complete_locked s v irq).
Proof.
  intros Hinv. unfold vplic_complete_locked. case_if; [done|]. pose proof Hinv as [Hn Hp Hpe Ha He Ht]. split; cbn; try done.
  rewrite length_aset. split; [apply Ha|]. apply aset_Forall; [apply Ha|]. by apply irq_word_land, active_word.
Qed.

Lemma raise_inv s irq : vplic_inv s -> 0 <= irq -> vplic_inv (set_pending_locked s irq).
Proof.
  intros Hinv Hi. unfold set_pending_locked. case_if; [done|]. pose proof Hinv as [Hn Hp Hpe Ha He Ht]. split; cbn; try done.
  apply irq_word_lor; [done|lia].
Qed.

Lemma half_range x w : 0 <= half x w < U32_MOD.
Proof. unfold half. rewrite Z.land_comm. apply (land_range 32); lia. Qed.

Lemma valid_word x : 0 <= x < U64_MOD -> irq_word (Z.land x VALID_IRQ_MASK).
Proof. intros. split; [by apply land_range64|]. by rewrite Z.land_spec, testbit_valid, andb_false_r by lia. Qed.

Lemma irq_word_lor_word x y : irq_word x -> irq_word y -> irq_word (Z.lor x y).
Proof. intros [Hx Hx0] [Hy Hy0]. split; [by apply (lor_range 64)|]. by rewrite Z.lor_spec, Hx0, Hy0. Qed.

Lemma write_inv s off size v : vplic_inv s -> vplic_inv (vplic_write s off size v).
Proof.
  intros Hinv. unfold vplic_write. pose proof Hinv as [Hn Hp Hpe Ha He Ht]. pose proof (u32_range v) as Hv.
  repeat case_if; try done; try by apply complete_inv.
  - split; cbn; try done. rewrite length_aset. split; [apply Hp|]. apply aset_Forall; [apply Hp|done].
  - split; cbn; try done. rewrite length_aset. split; [apply He|]. apply aset_Forall; [apply He|].
    apply irq_word_lor_word; [by apply irq_word_land, enable_word|apply valid_word, u64_range].
  - split; cbn; try done. rewrite length_aset. split; [apply Ht|]. apply aset_Forall; [apply Ht|done].
Qed.

Lemma read_spec s off size :
  vplic_inv s -> 0 <= off ->
  exists r s', vplic_read s off size = Some (r, s') /\ 0 <= r < U32_MOD /\ vplic_inv s'.
Proof.
  intros Hinv Ho. unfold vplic_read. repeat case_if; eauto using priority_range, half_range, threshold_range.
  all: try (eexists _, _; split; [reflexivity|]; split; [|done]; first [lia|by apply priority_range|by apply half_range|by apply threshold_range]).
  assert (0 <= (off - CONTEXT_OFFSET) / CONTEXT_STRIDE) as Hc by (apply Z.div_pos; lia).
  destruct (claim_spec s _ Hinv Hc) as (irq & s' & E' & _). destruct (claim_inv s _ irq s' Hinv Hc E'). exists irq, s'. split; [done|]. split; [lia|done].
Qed.

(** ** Runs

    What a machine and its devices can do to the controller, with a tally of how often
    each source was raised and claimed. *)

Record tally := mk_tally { tl_state : vplic_state_t; tl_raised : Z -> Z; tl_claimed : Z -> Z }.

(** The read at [off] is a claim. *)
Definition is_claim (s : vplic_state_t) (off : Z) : bool :=
  (CONTEXT_OFFSET <=? off) && ((off - CONTEXT_OFFSET) / CONTEXT_STRIDE <? vp_nr_vcpus s) &&
  ((off - CONTEXT_OFFSET) mod CONTEXT_STRIDE =? CONTEXT_CLAIM_COMPLETE).

Definition count_claim (f : Z -> Z) (irq : Z) : Z -> Z := if irq =? 0 then f else upd f irq (f irq + 1).

Inductive vplic_step : tally -> tally -> Prop :=
  | vps_raise s r c irq :
      0 <= irq -> vplic_step (mk_tally s r c) (mk_tally (set_pending_locked s irq) (upd r irq (r irq + 1)) c)
  | vps_read s r c off size v s' :
      0 <= off < VPLIC_SIZE -> vplic_read s off size = Some (v, s') ->
      vplic_step (mk_tally s r c) (mk_tally s' r (if is_claim s off then count_claim c v else c))
  | vps_write s r c off size v :
      0 <= off < VPLIC_SIZE -> vplic_step (mk_tally s r c) (mk_tally (vplic_write s off size v) r c)
  | vps_claim s r c v irq s' :
      0 <= v -> vplic_claim_locked s v = Some (irq, s') -> vplic_step (mk_tally s r c) (mk_tally s' r (count_claim c irq))
  | vps_complete s r c v irq :
      vplic_step (mk_tally s r c) (mk_tally (vplic_complete_locked s v irq) r c).

Definition tally_inv (t : tally) : Prop :=
  vplic_inv (tl_state t) /\
  forall irq, 0 <= irq -> tl_claimed t irq + Z.b2z (Z.testbit (vp_pending (tl_state t)) irq) <= tl_raised t irq.

Lemma write_pending s off size v : vp_pending (vplic_write s off size v) = vp_pending s.
Proof. unfold vplic_write, vplic_complete_locked. repeat case_if; done. Qed.

Lemma complete_pending s v irq : vp_pending (vplic_complete_locked s v irq) = vp_pending s.
Proof. unfold vplic_complete_locked. by case_if. Qed.

Lemma claim_tally s v irq s' r c :
  vplic_inv s -> 0 <= v -> vplic_claim_locked s v = Some (irq, s') ->
  (forall k, 0 <= k -> c k + Z.b2z (Z.testbit (vp_pending s) k) <= r k) ->
  forall k, 0 <= k -> count_claim c irq k + Z.b2z (Z.testbit (vp_pending s') k) <= r k.
Proof.
  intros Hinv Hv E Ht k Hk. specialize (Ht k Hk). destruct (claim_spec s v Hinv Hv) as (irq0 & s0 & E0 & H). rewrite E in E0. simplify_eq.
  unfold count_claim. destruct (Z.eqb_spec irq0 0) as [Hz|Hne]; [by subst s0|]. destruct H as (_ & [(Hi & Hp & _) _] & ->).
  cbn [vp_pending set_active set_pending]. rewrite Z.land_spec. destruct (decide (k = irq0)) as [->|Hki].
  - rewrite upd_eq, testbit_not64, testbit_one_shift, Z.eqb_refl, andb_false_r by lia. rewrite Hp in Ht. cbn in *. lia.
  - rewrite upd_ne by done. destruct (decide (k < 64)).
    + rewrite testbit_not64, testbit_one_shift by lia. rewrite (proj2 (Z.eqb_neq _ _)) by done. by rewrite andb_true_r.
    + rewrite (testbit_high (vp_pending s) k) in Ht |- * by (first [apply (vi_pending _ Hinv)|lia]). done.
Qed.

Lemma vplic_step_inv t t' : tally_inv t -> vplic_step t t' -> tally_inv t'.
Proof.
  intros [Hinv Ht] Hs. destruct Hs as [s r c irq Hi|s r c off size v s' Ho E|s r c off size v Ho|s r c v irq s' Hv E|s r c v irq];
    cbn [tl_state tl_raised tl_claimed] in *; unfold tally_inv; cbn [tl_state tl_raised tl_claimed].
  - split; [by apply raise_inv|]. intros k Hk. specialize (Ht k Hk). unfold set_pending_locked. destruct (decide (k = irq)) as [->|Hne].
    + rewrite upd_eq. case_if; [lia|]. cbn [vp_pending set_pending].
      destruct (Z.testbit (Z.lor _ _) irq), (Z.testbit (vp_pending s) irq); cbn in *; lia.
    + rewrite upd_ne by done. case_if; [done|]. cbn [vp_pending set_pending].
      rewrite Z.lor_spec, testbit_one_shift, (proj2 (Z.eqb_neq _ _)), orb_false_r by lia. done.
  - destruct (read_spec s off size Hinv ltac:(lia)) as (v0 & s0 & E0 & _ & Hinv'). rewrite E in E0. simplify_eq. split; [done|].
    destruct (is_claim s off) eqn:Ec.
    + assert (0 <= (off - CONTEXT_OFFSET) / CONTEXT_STRIDE) as Hc by (apply Z.div_pos; unfold is_claim in Ec; lia).
      apply (claim_tally s ((off - CONTEXT_OFFSET) / CONTEXT_STRIDE) v0 s0 r c); try done. rewrite <- E. unfold is_claim in Ec. zbool. symmetry.
      unfold vplic_read. rewrite (proj2 (Z.ltb_ge off _)) by lia. rewrite (proj2 (andb_false_iff _ _)) by lia.
      rewrite (proj2 (andb_false_iff _ (off <? _))) by lia. rewrite (proj2 (Z.leb_le _ off)), (proj2 (Z.ltb_lt _ (vp_nr_vcpus s))) by lia.
      rewrite (proj2 (Z.eqb_neq _ CONTEXT_THRESHOLD_OFF)) by lia. by rewrite (proj2 (Z.eqb_eq _ _)) by lia.
    + assert (s0 = s) as ->; [|done]. revert E. unfold vplic_read. repeat case_if; intros [= _ ->] || intros E'; try done.
      unfold is_claim in Ec. lia.
  - split; [by apply write_inv|]. by rewrite write_pending.
  - split; [by eapply claim_inv|]. by eapply claim_tally.
  - split; [by apply complete_inv|]. by rewrite complete_pending.
Qed.

(** The state [vplic_init] gives a machine of [nr] virtual CPUs. *)
Definition vplic_fresh (ptr nr : Z) : vplic_state_t :=
  mk_vplic ptr (replicate 64 0) 0 (replicate 12 0) (replicate 12 0) (replicate 12 0) nr.

Lemma vplic_fresh_inv ptr nr : 0 <= nr <= 12 -> vplic_inv (vplic_fresh ptr nr).
Proof.
  intros. split; cbn; [done|..|apply irq_word_0| | |]; (split; [done|]); repeat constructor; lia.
Qed.

(** C28. In every run of a controller from its initialisation, under any accesses of the
    guest and any interrupts of the devices, the state stays well formed and no source is
    claimed more often than it was raised.  A claim takes a source that was deliverable to
    its context, and from then on no context can be given the source until it is raised
    again. *)
Theorem vplic_claims_once ptr nr t v irq s' :
  0 <= nr <= VPLIC_MAX_VCPUS -> star vplic_step (mk_tally (vplic_fresh ptr nr) (fun _ => 0) (fun _ => 0)) t ->
  0 <= v -> vplic_claim_locked (tl_state t) v = Some (irq, s') ->
  vplic_inv (tl_state t) /\ (forall k, 0 <= k -> tl_claimed t k <= tl_raised t k) /\
  (irq <> 0 -> deliverable (tl_state t) v irq /\ tl_claimed t irq < tl_raised t irq /\ forall u, ~ deliverable s' u irq).
Proof.
  intros Hnr Hs Hv E. assert (tally_inv t) as [Hinv Ht].
  { refine (star_invariant _ _ vplic_step_inv _ _ _ Hs). split; [by apply vplic_fresh_inv|]. intros k _. cbn. by rewrite Z.bits_0. }
  split; [done|]. split.
  - intros k Hk. specialize (Ht k Hk). destruct (Z.testbit _ _); cbn in Ht; lia.
  - intros Hne. destruct (claim_spec _ v Hinv Hv) as (irq0 & s0 & E0 & H). rewrite E in E0. simplify_eq.
    rewrite (proj2 (Z.eqb_neq irq0 0)) in H by done. destruct H as (_ & [Hd _] & ->). pose proof Hd as (Hi & Hp & _). split; [done|]. split.
    + specialize (Ht irq0 ltac:(lia)). rewrite Hp in Ht. cbn in Ht. lia.
    + intros u (_ & Hp' & _). cbn [vp_pending set_active set_pending] in Hp'.
      rewrite Z.land_spec, testbit_not64, testbit_one_shift, Z.eqb_refl, andb_false_r in Hp' by lia. done.
Qed.

(** Source 10 enabled with priority 1 in both contexts of a machine of two CPUs. *)
Definition demo_plic : vplic_state_t :=
  vplic_write (vplic_write (vplic_write (vplic_fresh 1 2) 40 4 1) 8192 4 1024) 8320 4 1024.

Lemma demo_plic_run r c : star vplic_step (mk_tally (vplic_fresh 1 2) r c) (mk_tally demo_plic r c).
Proof.
  eapply star_step; [apply (vps_write _ _ _ 40 4 1); lia|]. eapply star_step; [apply (vps_write _ _ _ 8192 4 1024); lia|].
  apply star_one, (vps_write _ _ _ 8320 4 1024). lia.
Qed.

Lemma vplic_delivers_best_witness :
  exists irq, vplic_next_deliverable_locked (set_pending_locked demo_plic 10) 0 = Some irq /\ irq = 10 /\ best (set_pending_locked demo_plic 10) 0 irq.
Proof.
  destruct (vplic_delivers_best (set_pending_locked demo_plic 10) 0) as (irq & E & Hb & _).
  - apply raise_inv; [|lia]. unfold demo_plic. by do 3 apply write_inv; apply vplic_fresh_inv.
  - vm_compute. done.
  - assert (irq = 10) as -> by (vm_compute in E; congruence). exists 10. split; [exact E|]. split; [done|]. by apply Hb.
Defined.

Lemma vplic_claims_once_witness :
  exists s', vplic_claim_locked (set_pending_locked demo_plic 10) 1 = Some (10, s') /\ ~ deliverable s' 0 10.
Proof.
  destruct (vplic_claim_locked (set_pending_locked demo_plic 10) 1) as [[irq s']|] eqn:E; [|vm_compute in E; done].
  assert (irq = 10) as -> by (vm_compute in E; congruence). exists s'. split; [done|].
  edestruct (vplic_claims_once 1 2 (mk_tally (set_pending_locked demo_plic 10) (upd (fun _ => 0) 10 1) (fun _ => 0)) 1 10 s') as (_ & _ & H); [lia| |lia|exact E|].
  - eapply star_trans; [apply demo_plic_run|]. apply star_one. apply (vps_raise demo_plic (fun _ => 0)). lia.
  - apply H. done.
Defined.
