(* ===== verification/Vlapic.v ===== *)
(** * The local interrupt controller of an x86_64 machine: kernel/vmm/vdev/vlapic.c

    Every virtual CPU has a local APIC in a pool indexed by the slot of its machine and its
    number; [vlapic_of] finds it only for the owner.  A 256-bit set of vectors is eight
    32-bit words: IRR holds what waits, ISR what was delivered and not ended.  Timers count
    the time the CPU spends in the guest.  The guest starts other CPUs and sends interrupts
    to them through ICR.

    A [while] loop whose end depends on times is run with fuel from the times themselves;
    the theorems show that it ends.  The scheduling interrupt that follows the delivery to
    another CPU has no model. *)

From stdpp Require Import options.
From Stdlib Require Import Lia ZifyBool.
From S2P Require Import Prelude MmioBus.

Abbreviation VLAPIC_REG_ID := 2.
Abbreviation VLAPIC_REG_VERSION := 3.
Abbreviation VLAPIC_REG_TPR := 8.
Abbreviation VLAPIC_REG_APR := 9.
Abbreviation VLAPIC_REG_PPR := 10.
Abbreviation VLAPIC_REG_EOI := 11.
Abbreviation VLAPIC_REG_RRR := 12.
Abbreviation VLAPIC_REG_LDR := 13.
Abbreviation VLAPIC_REG_DFR := 14.
Abbreviation VLAPIC_REG_SVR := 15.
Abbreviation VLAPIC_REG_ISR := 16.
Abbreviation VLAPIC_REG_TMR := 24.
Abbreviation VLAPIC_REG_IRR := 32.
Abbreviation VLAPIC_REG_ESR := 40.
Abbreviation VLAPIC_REG_ICR_LO := 48.
Abbreviation VLAPIC_REG_ICR_HI := 49.
Abbreviation VLAPIC_REG_LVT_TIMER := 50.
Abbreviation VLAPIC_REG_TIMER_INIT := 56.
Abbreviation VLAPIC_REG_TIMER_CUR := 57.
Abbreviation VLAPIC_REG_TIMER_DCR := 62.
Abbreviation VLAPIC_REG_COUNT := 64.
Abbreviation VLAPIC_MAX_VCPUS := 12.
Abbreviation VLAPIC_MMIO_BASE := 4276092928.
Abbreviation VLAPIC_BASE_ENABLE := 2048.
Abbreviation VLAPIC_PERIODIC_MIN_NS := 200000.
Abbreviation LVT_MASKED := 65536.
Abbreviation LVT_MODE_MASK := 393216.
Abbreviation LVT_MODE_PERIODIC := 131072.
Abbreviation SVR_ENABLE := 256.
Abbreviation ICR_DELIVERY_MASK := 1792.
Abbreviation ICR_MODE_FIXED := 0.
Abbreviation ICR_MODE_LOWEST := 256.
Abbreviation ICR_MODE_INIT := 1280.
Abbreviation ICR_MODE_SIPI := 1536.
Abbreviation ICR_DEST_LOGICAL := 2048.
Abbreviation ICR_DEST_MASK := 1835008.
Abbreviation ICR_DEST_SELF := 262144.
Abbreviation ICR_DEST_ALL := 524288.
Abbreviation ICR_DEST_ALL_BUT_SELF := 786432.

Definition LVT_VECTOR (v : Z) : Z := Z.land v 255.

(** ** State *)

Record vlapic_state_t := mk_va {
  va_r : list Z;
  va_isr : list Z;
  va_tmr : list Z;
  va_irr : list Z;
  va_exec_ns : Z;
  va_deadline : Z;
  va_interval : Z;
  va_shift : Z;
  va_active : bool;
  va_periodic : bool;
  va_apic_base : Z;
  va_enabled : bool;
}.

Record vlapic_slot_t := mk_vslot { vs_owner : Z; vs_st : vlapic_state_t }.

(** [memset(v, 0, sizeof( *v))] *)
Definition va_zero : vlapic_state_t :=
  mk_va (replicate 64 0) (replicate 8 0) (replicate 8 0) (replicate 8 0) 0 0 0 0 false false 0 false.
Definition slot_zero : vlapic_slot_t := mk_vslot 0 va_zero.

Definition set_r (v : vlapic_state_t) (i x : Z) : vlapic_state_t :=
  mk_va (aset (va_r v) i x) (va_isr v) (va_tmr v) (va_irr v) (va_exec_ns v) (va_deadline v) (va_interval v) (va_shift v)
    (va_active v) (va_periodic v) (va_apic_base v) (va_enabled v).
Definition set_sets (v : vlapic_state_t) (isr tmr irr : list Z) : vlapic_state_t :=
  mk_va (va_r v) isr tmr irr (va_exec_ns v) (va_deadline v) (va_interval v) (va_shift v) (va_active v) (va_periodic v)
    (va_apic_base v) (va_enabled v).
Definition set_timer (v : vlapic_state_t) (deadline interval shift : Z) (active periodic : bool) : vlapic_state_t :=
  mk_va (va_r v) (va_isr v) (va_tmr v) (va_irr v) (va_exec_ns v) deadline interval shift active periodic
    (va_apic_base v) (va_enabled v).
Definition set_exec (v : vlapic_state_t) (ns : Z) : vlapic_state_t :=
  mk_va (va_r v) (va_isr v) (va_tmr v) (va_irr v) ns (va_deadline v) (va_interval v) (va_shift v) (va_active v)
    (va_periodic v) (va_apic_base v) (va_enabled v).
Definition set_base (v : vlapic_state_t) (base : Z) : vlapic_state_t :=
  mk_va (va_r v) (va_isr v) (va_tmr v) (va_irr v) (va_exec_ns v) (va_deadline v) (va_interval v) (va_shift v)
    (va_active v) (va_periodic v) base (va_enabled v).

Definition reg (v : vlapic_state_t) (i : Z) : Z := aget 0 (va_r v) i.

(** ** Sets of vectors *)

Definition builtin_clz (x : Z) : Z := 31 - Z.log2 x.

(** [for (int i = n - 1; i >= 0; i--) if (word(i)) return ...; return -1;] *)
Fixpoint scan_down (word : Z -> Z) (n : nat) : Z :=
  match n with
  | O => -1
  | S n => let w := word (Z.of_nat n) in if w =? 0 then scan_down word n else Z.of_nat n * 32 + (31 - builtin_clz w)
  end.

Definition vec_highest (bits : list Z) : Z := scan_down (aget 0 bits) 8.
Definition isr_highest (v : vlapic_state_t) : Z := vec_highest (va_isr v).

Definition priority_class (vec : Z) : Z := u8 (Z.shiftr vec 4).

(** [bits[vec / 32] |= 1u << (vec % 32)] and [&= ~(...)] *)
Definition vec_set (bits : list Z) (vec : Z) : list Z :=
  aset bits (vec / 32) (Z.lor (aget 0 bits (vec / 32)) (Z.shiftl 1 (vec mod 32))).
Definition vec_clear (bits : list Z) (vec : Z) : list Z :=
  aset bits (vec / 32) (Z.land (aget 0 bits (vec / 32)) (u32 (Z.lnot (Z.shiftl 1 (vec mod 32))))).

Definition update_ppr (v : vlapic_state_t) : vlapic_state_t :=
  let tpr := u8 (Z.land (reg v VLAPIC_REG_TPR) 255) in
  let top := isr_highest v in
  let isrv := if 0 <=? top then priority_class top else 0 in
  set_r v VLAPIC_REG_PPR (if isrv <? tpr then tpr else isrv).

Definition accept_state (v : vlapic_state_t) (vector : Z) (level_triggered : bool) : vlapic_state_t :=
  if (vector =? 0) || (255 <? vector) then v
  else
    let v := set_sets v (vec_set (va_isr v) vector) (va_tmr v) (va_irr v) in
    let v := if level_triggered then set_sets v (va_isr v) (vec_set (va_tmr v) vector) (va_irr v) else v in
    update_ppr v.

Definition process_eoi (v : vlapic_state_t) : vlapic_state_t :=
  let top := isr_highest v in
  if top <? 0 then v
  else update_ppr (set_sets v (vec_clear (va_isr v) top) (vec_clear (va_tmr v) top) (va_irr v)).

(** ** Timer *)

Definition dcr_to_shift (dcr : Z) : Z :=
  match Z.land dcr 11 with
  | 0 => 1 | 1 => 2 | 2 => 3 | 3 => 4 | 8 => 5 | 9 => 6 | 10 => 7 | 11 => 0
  | _ => 0
  end.

Definition timer_stop (v : vlapic_state_t) : vlapic_state_t :=
  set_timer v (va_deadline v) (va_interval v) (va_shift v) false (va_periodic v).

Definition timer_start (v : vlapic_state_t) : vlapic_state_t :=
  let init := reg v VLAPIC_REG_TIMER_INIT in
  let lvt := reg v VLAPIC_REG_LVT_TIMER in
  let periodic := Z.land lvt LVT_MODE_MASK =? LVT_MODE_PERIODIC in
  let v := set_timer v (va_deadline v) (va_interval v) (va_shift v) false periodic in
  if init =? 0 then v
  else if negb (Z.land lvt LVT_MASKED =? 0) then v
  else
    let ticks := u64 (Z.shiftl init (va_shift v)) in
    let ticks := if periodic && (ticks <? VLAPIC_PERIODIC_MIN_NS) then VLAPIC_PERIODIC_MIN_NS else ticks in
    set_timer v (u64 (va_exec_ns v + ticks)) ticks (va_shift v) true periodic.

Definition sw_enabled (v : vlapic_state_t) : bool :=
  va_enabled v && negb (Z.land (reg v VLAPIC_REG_SVR) SVR_ENABLE =? 0).

(** [vlapic_raise_irq] on the state it finds. *)
Definition raise_state (v : vlapic_state_t) (vector : Z) : vlapic_state_t :=
  if (vector <? 16) || (255 <? vector) then v
  else if negb (sw_enabled v) then v
  else set_sets v (va_isr v) (va_tmr v) (vec_set (va_irr v) vector).

(** [do deadline += interval; while (deadline <= exec);] *)
Definition catch_body (interval exec : Z) (deadline : Z) : Z + Z :=
  let deadline := u64 (deadline + interval) in
  if deadline <=? exec then inl deadline else inr deadline.
Definition catch_fuel (interval exec deadline : Z) : nat := Z.to_nat ((exec - deadline) / interval + 2).

Definition timer_fire (v : vlapic_state_t) : option vlapic_state_t :=
  let vec := LVT_VECTOR (reg v VLAPIC_REG_LVT_TIMER) in
  let v := raise_state v vec in
  if va_periodic v then
    d ← loop (catch_fuel (va_interval v) (va_exec_ns v) (va_deadline v)) (catch_body (va_interval v) (va_exec_ns v)) (va_deadline v);
    Some (set_timer v d (va_interval v) (va_shift v) (va_active v) (va_periodic v))
  else Some (set_timer v (va_deadline v) (va_interval v) (va_shift v) false (va_periodic v)).

(** [while (t_active && exec_ns >= deadline) timer_fire();] with the flag [fired]. *)
Fixpoint poll_loop (fuel : nat) (fired : bool) (v : vlapic_state_t) : option (bool * vlapic_state_t) :=
  match fuel with
  | O => None
  | S fuel =>
      if va_active v && (va_deadline v <=? va_exec_ns v) then v ← timer_fire v; poll_loop fuel true v
      else Some (fired, v)
  end.

Definition poll_state (v : vlapic_state_t) : option (bool * vlapic_state_t) :=
  if negb (sw_enabled v) then Some (false, v)
  else if negb (va_active v) then Some (false, v)
  else poll_loop 2 false v.

Definition take_state (v : vlapic_state_t) : option Z * vlapic_state_t :=
  let top := scan_down (fun i => Z.land (aget 0 (va_irr v) i) (u32 (Z.lnot (aget 0 (va_isr v) i)))) 8 in
  if top <? 0 then (None, v)
  else (Some top, set_sets v (va_isr v) (va_tmr v) (vec_clear (va_irr v) top)).

(** ** The pool *)

Definition pool_t := list (list vlapic_slot_t).

Definition slot_at (g : pool_t) (vm : vm_ref) (vcpu_id : Z) : vlapic_slot_t :=
  aget slot_zero (aget [] g (vr_slot vm)) (vcpu_id mod VLAPIC_MAX_VCPUS).
Definition slot_set (g : pool_t) (vm : vm_ref) (vcpu_id : Z) (d : vlapic_slot_t) : pool_t :=
  aset g (vr_slot vm) (aset (aget [] g (vr_slot vm)) (vcpu_id mod VLAPIC_MAX_VCPUS) d).

Definition vlapic_of (g : pool_t) (vm : vm_ref) (vcpu_id : Z) : option vlapic_state_t :=
  if negb (in_slots vm) then None
  else
    let d := slot_at g vm vcpu_id in
    if negb (vs_owner d =? vr_ptr vm) then None else Some (vs_st d).

(** A write through the pointer [vlapic_of] gave. *)
Definition vlapic_put (g : pool_t) (vm : vm_ref) (vcpu_id : Z) (v : vlapic_state_t) : pool_t :=
  slot_set g vm vcpu_id (mk_vslot (vs_owner (slot_at g vm vcpu_id)) v).

Definition on_state (g : pool_t) (vm : vm_ref) (vcpu_id : Z) (f : vlapic_state_t -> vlapic_state_t) : pool_t :=
  match vlapic_of g vm vcpu_id with None => g | Some v => vlapic_put g vm vcpu_id (f v) end.

Definition vlapic_add_exec_ns g vm vcpu_id (ns : Z) : pool_t :=
  on_state g vm vcpu_id (fun v => if ns =? 0 then v else set_exec v (u64 (va_exec_ns v + ns))).

Definition vlapic_accept_interrupt g vm vcpu_id (vector : Z) (level_triggered : bool) : pool_t :=
  on_state g vm vcpu_id (fun v => accept_state v vector level_triggered).

Definition vlapic_raise_irq g vm vcpu_id (vector : Z) : pool_t :=
  on_state g vm vcpu_id (fun v => raise_state v vector).

Definition vlapic_timer_poll g vm vcpu_id : option (bool * pool_t) :=
  match vlapic_of g vm vcpu_id with
  | None => Some (false, g)
  | Some v => '(fired, v) ← poll_state v; Some (fired, vlapic_put g vm vcpu_id v)
  end.

Definition vlapic_take_pending g vm vcpu_id : option Z * pool_t :=
  match vlapic_of g vm vcpu_id with
  | None => (None, g)
  | Some v => let '(vec, v) := take_state v in (vec, vlapic_put g vm vcpu_id v)
  end.

Definition vlapic_sw_enabled g vm vcpu_id : bool :=
  match vlapic_of g vm vcpu_id with None => false | Some v => sw_enabled v end.

Definition vlapic_apic_base g vm vcpu_id : Z :=
  match vlapic_of g vm vcpu_id with None => 0 | Some v => va_apic_base v end.

Definition vlapic_set_apic_base g vm vcpu_id (base : Z) : pool_t := on_state g vm vcpu_id (fun v => set_base v base).

(** The state after reset. *)
Definition init_state (vcpu_id : Z) : vlapic_state_t :=
  let v := va_zero in
  let v := set_r v VLAPIC_REG_ID (u32 (Z.shiftl (Z.land vcpu_id 255) 24)) in
  let v := set_r v VLAPIC_REG_VERSION (Z.lor 20 (Z.shiftl 6 16)) in
  let v := set_r v VLAPIC_REG_DFR 4026531840 in
  let v := set_r v VLAPIC_REG_LDR (if vcpu_id <? 8 then u32 (Z.shiftl 1 (24 + vcpu_id)) else 0) in
  let v := set_base v (Z.lor (Z.lor VLAPIC_MMIO_BASE VLAPIC_BASE_ENABLE) (if vcpu_id =? 0 then Z.shiftl 1 8 else 0)) in
  let v := update_ppr v in
  mk_va (va_r v) (va_isr v) (va_tmr v) (va_irr v) (va_exec_ns v) (va_deadline v) (va_interval v) (va_shift v)
    (va_active v) (va_periodic v) (va_apic_base v) true.

Definition vlapic_init g vm vcpu_id : pool_t :=
  if negb (in_slots vm) then g else slot_set g vm vcpu_id (mk_vslot (vr_ptr vm) (init_state vcpu_id)).

Definition vlapic_destroy g vm : pool_t :=
  if negb (in_slots vm) then g
  else for_range 0 VLAPIC_MAX_VCPUS (fun g i => slot_set g vm i slot_zero) g.

(** ** Registers *)

(** [reg_read]: the value and the state, for PPR is brought up to date. *)
Definition reg_read (v : vlapic_state_t) (idx : Z) : Z * vlapic_state_t :=
  if idx =? VLAPIC_REG_ID then (reg v VLAPIC_REG_ID, v)
  else if (idx =? VLAPIC_REG_VERSION) || (idx =? VLAPIC_REG_APR) || (idx =? VLAPIC_REG_RRR) then (0, v)
  else if idx =? VLAPIC_REG_PPR then let v := update_ppr v in (reg v VLAPIC_REG_PPR, v)
  else if (VLAPIC_REG_ISR <=? idx) && (idx <? VLAPIC_REG_ISR + 8) then (aget 0 (va_isr v) (idx - VLAPIC_REG_ISR), v)
  else if (VLAPIC_REG_TMR <=? idx) && (idx <? VLAPIC_REG_TMR + 8) then (aget 0 (va_tmr v) (idx - VLAPIC_REG_TMR), v)
  else if (VLAPIC_REG_IRR <=? idx) && (idx <? VLAPIC_REG_IRR + 8) then (aget 0 (va_irr v) (idx - VLAPIC_REG_IRR), v)
  else if idx =? VLAPIC_REG_TIMER_CUR then
    let left := if va_active v && (va_exec_ns v <? va_deadline v) then va_deadline v - va_exec_ns v else 0 in
    (u32 (Z.shiftr left (va_shift v)), v)
  else if idx <? VLAPIC_REG_COUNT then (reg v idx, v)
  else (0, v).

(** What [vmm_vcpu_start] and [vmm_vcpu_kick] (kernel/vmm/vcpu.c) use of a virtual CPU. *)
Abbreviation VCPU_STATE_OFFLINE := 0.
Abbreviation VCPU_STATE_RUNNING := 1.

Record xvcpu_t := mk_xv {
  xv_state : Z;
  xv_ap_reset : bool;
  xv_rip : Z;
  xv_rflags : Z;
  xv_launched : bool;
  xv_vmcs_ready : bool;
  xv_pending_event : Z;
  xv_intr_window : bool;
}.
Definition xv_zero : xvcpu_t := mk_xv VCPU_STATE_OFFLINE false 0 0 false false 0 false.

(** The x86_64 part; the registers it clears beyond these and the completion that lets the
    task of the CPU go have no model. *)
Definition vmm_vcpu_start (v : xvcpu_t) (entry : Z) : bool * xvcpu_t :=
  if entry =? 0 then (false, v)
  else if negb (Z.land entry 4095 =? 0) || (1048576 <=? entry) then (false, v)
  else if negb (xv_state v =? VCPU_STATE_OFFLINE) then (false, v)
  else (true, mk_xv VCPU_STATE_RUNNING true entry 2 false false 0 false).

(** A machine: its local APICs are in the pool, its CPUs are those it has. *)
Record lapic_world := mk_lw { lw_pool : pool_t; lw_vcpus : list xvcpu_t }.
Definition nr_vcpus (x : lapic_world) : Z := Z.of_nat (length (lw_vcpus x)).

(** [for (i = 0; i < nr_vcpus && n < max; i++) if (keep(i)) out[n++] = i;] *)
Definition collect (keep : Z -> bool) (nr : Z) : list Z :=
  take (Z.to_nat VLAPIC_MAX_VCPUS) (List.filter keep (seqZ 0 nr)).

Definition icr_collect_targets (x : lapic_world) (vm : vm_ref) (src lo hi : Z) : list Z :=
  let shorthand := Z.land lo ICR_DEST_MASK in
  let dest := Z.land (Z.shiftr hi 24) 255 in
  if shorthand =? ICR_DEST_SELF then [src]
  else if (shorthand =? ICR_DEST_ALL) || (shorthand =? ICR_DEST_ALL_BUT_SELF) then
    collect (fun i => negb ((shorthand =? ICR_DEST_ALL_BUT_SELF) && (i =? src))) (nr_vcpus x)
  else if negb (shorthand =? 0) then []
  else if negb (Z.land lo ICR_DEST_LOGICAL =? 0) then
    collect (fun i => match vlapic_of (lw_pool x) vm i with
                      | None => false
                      | Some t => negb (Z.land (Z.shiftr (reg t VLAPIC_REG_LDR) 24) dest =? 0)
                      end) (nr_vcpus x)
  else if dest =? 255 then collect (fun _ => true) (nr_vcpus x)
  else if dest <? nr_vcpus x then [dest]
  else [].

(** [vmm_vm_vcpu]: there is such a CPU. *)
Definition has_vcpu (x : lapic_world) (i : Z) : bool := (0 <=? i) && (i <? nr_vcpus x).

Definition vmm_vcpu_inject_vector (x : lapic_world) (vm : vm_ref) (target vector : Z) : lapic_world :=
  if has_vcpu x target then mk_lw (vlapic_raise_irq (lw_pool x) vm target vector) (lw_vcpus x) else x.

Definition start_target (vec : Z) (x : lapic_world) (target : Z) : lapic_world :=
  if has_vcpu x target then
    mk_lw (lw_pool x) (aset (lw_vcpus x) target (vmm_vcpu_start (aget xv_zero (lw_vcpus x) target) (Z.shiftl vec 12)).2)
  else x.

(** [case VLAPIC_REG_ICR_LO] of [reg_write]. *)
Definition write_icr (x : lapic_world) (vm : vm_ref) (vcpu_id val : Z) : lapic_world :=
  let mode := Z.land val ICR_DELIVERY_MASK in
  let vec := LVT_VECTOR val in
  let hi := match vlapic_of (lw_pool x) vm vcpu_id with Some v => reg v VLAPIC_REG_ICR_HI | None => 0 end in
  let x := mk_lw (on_state (lw_pool x) vm vcpu_id (fun v => set_r v VLAPIC_REG_ICR_LO val)) (lw_vcpus x) in
  let targets := icr_collect_targets x vm vcpu_id val hi in
  if (mode =? ICR_MODE_INIT) || (mode =? ICR_MODE_SIPI) then
    if mode =? ICR_MODE_SIPI then foldl (start_target vec) x targets else x
  else if negb (mode =? ICR_MODE_FIXED) && negb (mode =? ICR_MODE_LOWEST) then x
  else
    let targets := if (mode =? ICR_MODE_LOWEST) && (1 <? Z.of_nat (length targets)) then take 1 targets else targets in
    foldl (fun x t => vmm_vcpu_inject_vector x vm t vec) x targets.

(** The other registers of [reg_write]: they touch the APIC of the writer only. *)
Definition write_local (v : vlapic_state_t) (idx val : Z) : vlapic_state_t :=
  if idx =? VLAPIC_REG_ID then v
  else if idx =? VLAPIC_REG_TPR then update_ppr (set_r v VLAPIC_REG_TPR (Z.land val 255))
  else if idx =? VLAPIC_REG_EOI then process_eoi v
  else if idx =? VLAPIC_REG_SVR then
    let v := set_r v VLAPIC_REG_SVR val in
    if Z.land val SVR_ENABLE =? 0 then let v := timer_stop v in set_sets v (va_isr v) (va_tmr v) (replicate 8 0)
    else if negb (reg v VLAPIC_REG_TIMER_INIT =? 0) && (Z.land (reg v VLAPIC_REG_LVT_TIMER) LVT_MASKED =? 0) then timer_start v
    else v
  else if idx =? VLAPIC_REG_ESR then set_r v VLAPIC_REG_ESR 0
  else if idx =? VLAPIC_REG_ICR_HI then set_r v VLAPIC_REG_ICR_HI val
  else if idx =? VLAPIC_REG_LVT_TIMER then
    let v := set_r v VLAPIC_REG_LVT_TIMER val in
    if negb (Z.land val LVT_MASKED =? 0) then timer_stop v else timer_start v
  else if idx =? VLAPIC_REG_TIMER_INIT then timer_start (set_r v VLAPIC_REG_TIMER_INIT val)
  else if idx =? VLAPIC_REG_TIMER_DCR then
    let v := set_r v VLAPIC_REG_TIMER_DCR val in
    set_timer v (va_deadline v) (va_interval v) (dcr_to_shift val) (va_active v) (va_periodic v)
  else if idx <? VLAPIC_REG_COUNT then set_r v idx val
  else v.

Definition reg_write (x : lapic_world) (vm : vm_ref) (vcpu_id idx val : Z) : lapic_world :=
  if idx =? VLAPIC_REG_ICR_LO then write_icr x vm vcpu_id val
  else mk_lw (on_state (lw_pool x) vm vcpu_id (fun v => write_local v idx val)) (lw_vcpus x).

(** Whether the access was taken, the value of [*val] after it and the machine. *)
Definition vlapic_mmio_handle (x : lapic_world) (vm : vm_ref) (vcpu_id addr : Z) (is_write : bool) (size val : Z) : bool * Z * lapic_world :=
  let off := Z.land addr 4095 in
  let idx := Z.shiftr off 4 in
  match vlapic_of (lw_pool x) vm vcpu_id with
  | None => (false, val, x)
  | Some v =>
      if negb (Z.land off 15 =? 0) then (false, val, x)
      else if negb (size =? 4) then (false, val, x)
      else if VLAPIC_REG_COUNT <=? idx then (true, val, x)
      else if is_write then (true, val, reg_write x vm vcpu_id idx (u32 val))
      else
        let '(r, v) := reg_read v idx in
        (true, r, mk_lw (vlapic_put (lw_pool x) vm vcpu_id v) (lw_vcpus x))
  end.

(** * Sets of vectors *)

Definition words_ok (bits : list Z) : Prop := length bits = 8%nat /\ Forall (fun w => 0 <= w < U32_MOD) bits.
Definition vec_in (bits : list Z) (x : Z) : bool := Z.testbit (aget 0 bits (x / 32)) (x mod 32).

Lemma words_ok_at bits i : words_ok bits -> 0 <= i < 8 -> 0 <= aget 0 bits i < U32_MOD.
Proof.
  intros [Hl Hf] Hi. pose proof (aget_lookup 0 bits i ltac:(lia)) as E. exact (proj1 (Forall_lookup _ _) Hf _ _ E).
Qed.

Lemma words_ok_set bits i w : words_ok bits -> 0 <= w < U32_MOD -> words_ok (aset bits i w).
Proof. intros [Hl Hf] Hw. split; [by rewrite length_aset|by apply Forall_insert]. Qed.

Lemma words_ok_zero : words_ok (replicate 8 0).
Proof. split; [done|]. repeat (apply Forall_cons; split; [lia|]). done. Qed.

Lemma vec_in_zero x : 0 <= x < 256 -> vec_in (replicate 8 0) x = false.
Proof.
  intros Hx. unfold vec_in, aget. destruct (replicate 8 0 !! Z.to_nat (x / 32)) eqn:E; cbn [default]; [|apply Z.bits_0].
  apply lookup_replicate in E as [-> _]. apply Z.bits_0.
Qed.

Lemma pow2_bit k : 0 <= k < 32 -> 0 <= Z.shiftl 1 k < U32_MOD.
Proof. intros. rewrite Z.shiftl_1_l. split; [lia|]. change U32_MOD with (2 ^ 32). apply Z.pow_lt_mono_r; lia. Qed.

Lemma land_u32_range w x : 0 <= w < U32_MOD -> 0 <= Z.land w x < U32_MOD.
Proof. apply (land_range 32). lia. Qed.

Lemma vec_index x : 0 <= x < 256 -> 0 <= x / 32 < 8 /\ 0 <= x mod 32 < 32.
Proof. intros. pose proof (Z.mod_pos_bound x 32). split; [|lia]. split; [apply Z.div_pos; lia|apply Z.div_lt_upper_bound; lia]. Qed.

Lemma words_ok_vec_set bits x : words_ok bits -> 0 <= x < 256 -> words_ok (vec_set bits x).
Proof.
  intros Hb Hx. destruct (vec_index x Hx). apply words_ok_set; [done|]. apply (lor_range 32); [done|by apply words_ok_at|by apply pow2_bit].
Qed.

Lemma words_ok_vec_clear bits x : words_ok bits -> 0 <= x < 256 -> words_ok (vec_clear bits x).
Proof. intros Hb Hx. destruct (vec_index x Hx). apply words_ok_set; [done|]. apply land_u32_range. by apply words_ok_at. Qed.

Lemma same_vec x y : 0 <= x -> 0 <= y -> x / 32 = y / 32 -> (x mod 32 =? y mod 32) = (x =? y).
Proof.
  intros. pose proof (Z.div_mod x 32 ltac:(lia)). pose proof (Z.div_mod y 32 ltac:(lia)). lia.
Qed.

Lemma vec_in_set bits x y : words_ok bits -> 0 <= x < 256 -> 0 <= y < 256 -> vec_in (vec_set bits x) y = (x =? y) || vec_in bits y.
Proof.
  intros [Hl _] Hx Hy. destruct (vec_index x Hx), (vec_index y Hy). unfold vec_in, vec_set.
  destruct (decide (x / 32 = y / 32)) as [E|E].
  - rewrite <-E, aget_aset_eq by lia. rewrite Z.lor_spec, Z.shiftl_1_l, Z.pow2_bits_eqb by lia.
    rewrite same_vec by lia. apply orb_comm.
  - rewrite aget_aset_ne by lia. assert ((x =? y) = false) as -> by (apply Z.eqb_neq; congruence). done.
Qed.

Lemma testbit_u32_lnot w k : 0 <= k < 32 -> Z.testbit (u32 (Z.lnot w)) k = negb (Z.testbit w k).
Proof. intros. unfold u32. change U32_MOD with (2 ^ 32). rewrite Z.mod_pow2_bits_low, Z.lnot_spec by lia. done. Qed.

Lemma vec_in_clear bits x y : words_ok bits -> 0 <= x < 256 -> 0 <= y < 256 -> vec_in (vec_clear bits x) y = negb (x =? y) && vec_in bits y.
Proof.
  intros [Hl _] Hx Hy. destruct (vec_index x Hx), (vec_index y Hy). unfold vec_in, vec_clear.
  destruct (decide (x / 32 = y / 32)) as [E|E].
  - rewrite <-E, aget_aset_eq by lia. rewrite Z.land_spec, testbit_u32_lnot, Z.shiftl_1_l, Z.pow2_bits_eqb by lia.
    rewrite same_vec by lia. apply andb_comm.
  - rewrite aget_aset_ne by lia. assert ((x =? y) = false) as -> by (apply Z.eqb_neq; congruence). done.
Qed.

(** The search from the top finds the highest vector. *)
Lemma log2_top w : 0 < w < U32_MOD -> 0 <= Z.log2 w < 32 /\ Z.testbit w (Z.log2 w) = true /\ forall k, Z.log2 w < k -> Z.testbit w k = false.
Proof.
  intros Hw. split; [split; [apply Z.log2_nonneg|apply Z.log2_lt_pow2; lia]|].
  split; [apply Z.bit_log2; lia|]. intros. apply Z.bits_above_log2; lia.
Qed.

Lemma scan_down_spec word n :
  (forall i, 0 <= i < Z.of_nat n -> 0 <= word i < U32_MOD) ->
  let t := scan_down word n in
  t = -1 /\ (forall x, 0 <= x < 32 * Z.of_nat n -> Z.testbit (word (x / 32)) (x mod 32) = false) \/
  0 <= t < 32 * Z.of_nat n /\ Z.testbit (word (t / 32)) (t mod 32) = true /\
    forall x, t < x < 32 * Z.of_nat n -> Z.testbit (word (x / 32)) (x mod 32) = false.
Proof.
  induction n as [|n IH]; intros Hw; cbn [scan_down]; [left; split; [done|lia]|].
  assert (forall x, 32 * Z.of_nat n <= x < 32 * Z.of_nat (S n) -> x / 32 = Z.of_nat n /\ x mod 32 = x - 32 * Z.of_nat n) as Hdm.
  { intros x Hx. assert (x / 32 = Z.of_nat n) as E by (symmetry; apply (Z.div_unique_pos x 32 _ (x - 32 * Z.of_nat n)); lia).
    split; [done|]. pose proof (Z.div_mod x 32). lia. }
  destruct (Z.eqb_spec (word (Z.of_nat n)) 0) as [E|E].
  - destruct IH as [[Et H]|(Ht & Hb & H)]; [intros; apply Hw; lia|left|right].
    + split; [done|]. intros x Hx. destruct (decide (x < 32 * Z.of_nat n)); [apply H; lia|].
      destruct (Hdm x ltac:(lia)) as [-> _]. rewrite E. apply Z.bits_0.
    + split; [lia|]. split; [done|]. intros x Hx. destruct (decide (x < 32 * Z.of_nat n)); [apply H; lia|].
      destruct (Hdm x ltac:(lia)) as [-> _]. rewrite E. apply Z.bits_0.
  - right. unfold builtin_clz. set (l := Z.log2 (word (Z.of_nat n))).
    destruct (log2_top (word (Z.of_nat n))) as (Hl & Hb & Ha); [pose proof (Hw (Z.of_nat n)); lia|]. fold l in Hl, Hb, Ha.
    replace (Z.of_nat n * 32 + (31 - (31 - l))) with (32 * Z.of_nat n + l) by lia.
    split; [lia|]. destruct (Hdm (32 * Z.of_nat n + l) ltac:(lia)) as [-> ->]. split; [by replace (_ + l - _) with l by lia|].
    intros x Hx. destruct (Hdm x ltac:(lia)) as [-> ->]. apply Ha. lia.
Qed.

Lemma vec_highest_spec bits :
  words_ok bits ->
  vec_highest bits = -1 /\ (forall x, 0 <= x < 256 -> vec_in bits x = false) \/
  0 <= vec_highest bits < 256 /\ vec_in bits (vec_highest bits) = true /\ forall x, vec_highest bits < x < 256 -> vec_in bits x = false.
Proof. intros Hb. apply (scan_down_spec (aget 0 bits) 8). intros. apply words_ok_at; [done|lia]. Qed.

(** * The state is well formed *)

Record va_ok (v : vlapic_state_t) : Prop := mk_va_ok {
  vo_r : length (va_r v) = 64%nat;
  vo_sets : words_ok (va_isr v) /\ words_ok (va_tmr v) /\ words_ok (va_irr v);
  vo_times : 0 <= va_exec_ns v < U64_MOD /\ 0 <= va_deadline v < U64_MOD /\ 0 <= va_interval v < U64_MOD;
  vo_shift : 0 <= va_shift v <= 7;
  vo_periodic : va_active v = true -> va_periodic v = true -> VLAPIC_PERIODIC_MIN_NS <= va_interval v;
  vo_low : forall x, 0 <= x < 16 -> vec_in (va_irr v) x = false;
}.

Lemma va_ok_set_r v i x : va_ok v -> va_ok (set_r v i x).
Proof. intros [? ? ? ? ? ?]. split; try done. cbn [set_r va_r]. by rewrite length_aset. Qed.

Lemma va_ok_exec v ns : va_ok v -> 0 <= ns < U64_MOD -> va_ok (set_exec v ns).
Proof. intros [? ? Ht ? ? ?] Hn. split; try done. cbn [set_exec va_exec_ns va_deadline va_interval]. tauto. Qed.

Lemma va_ok_update_ppr v : va_ok v -> va_ok (update_ppr v).
Proof. apply va_ok_set_r. Qed.

Lemma va_ok_sets v isr tmr irr :
  va_ok v -> words_ok isr -> words_ok tmr -> words_ok irr -> (forall x, 0 <= x < 16 -> vec_in irr x = false) -> va_ok (set_sets v isr tmr irr).
Proof. intros [? ? ? ? ? ?]. by split. Qed.

Lemma update_ppr_same v :
  va_isr (update_ppr v) = va_isr v /\ va_irr (update_ppr v) = va_irr v /\ va_tmr (update_ppr v) = va_tmr v.
Proof. done. Qed.

Lemma dcr_shift_range dcr : 0 <= dcr_to_shift dcr <= 7.
Proof.
  unfold dcr_to_shift. destruct (Z.land dcr 11) as [|p|p]; [lia| |lia].
  repeat (match goal with |- context [match ?p with xI _ => _ | xO _ => _ | xH => _ end] => destruct p end); lia.
Qed.

Lemma shift_ticks n s : 0 <= n < U32_MOD -> 0 <= s <= 7 -> Z.shiftl n s = n * 2 ^ s /\ 0 <= n * 2 ^ s < U32_MOD * 128.
Proof.
  intros Hn Hs. rewrite Z.shiftl_mul_pow2 by lia. assert (0 < 2 ^ s <= 2 ^ 7) by (split; [lia|apply Z.pow_le_mono_r; lia]). nia.
Qed.

Lemma va_ok_timer_stop v : va_ok v -> va_ok (timer_stop v).
Proof. intros [? ? ? ? ? ?]. split; done. Qed.

Lemma va_ok_timer_start v : va_ok v -> va_ok (timer_start v).
Proof.
  intros [Hr Hs Ht Hsh Hp Hl]. unfold timer_start. set (per := Z.land _ _ =? _). cbv zeta. case_if; [by split|]. case_if; [by split|].
  set (t := u64 _). pose proof (u64_range (Z.shiftl (reg v VLAPIC_REG_TIMER_INIT) (va_shift v))) as Htk. fold t in Htk.
  split; try done; cbn [set_timer va_deadline va_interval va_exec_ns va_shift va_active va_periodic] in *.
  - split; [tauto|]. split; [apply u64_range|]. case_if; lia.
  - intros _ ->. cbn [andb]. case_if; lia.
Qed.

Lemma raise_state_cases v x :
  raise_state v x = v /\ (16 <= x <= 255 -> sw_enabled v = false) \/
  16 <= x <= 255 /\ sw_enabled v = true /\ raise_state v x = set_sets v (va_isr v) (va_tmr v) (vec_set (va_irr v) x).
Proof.
  unfold raise_state. destruct ((x <? 16) || (255 <? x)) eqn:E; [left; split; [done|lia]|]. destruct (sw_enabled v); cbn [negb]; [right|left]; split; try done; lia.
Qed.

Lemma va_ok_raise v x : va_ok v -> va_ok (raise_state v x).
Proof.
  intros Hv. destruct (raise_state_cases v x) as [[-> _]|(Hx & _ & ->)]; [done|]. destruct (vo_sets v Hv) as (? & ? & ?).
  apply va_ok_sets; [done..|by apply words_ok_vec_set; [|lia]|]. intros y Hy. rewrite vec_in_set by (done || lia).
  rewrite (vo_low v Hv) by lia. apply orb_false_iff. split; [lia|done].
Qed.

Lemma va_ok_accept v x l : va_ok v -> 0 <= x -> va_ok (accept_state v x l).
Proof.
  intros Hv Hx. destruct (vo_sets v Hv) as (? & ? & ?). unfold accept_state. destruct ((x =? 0) || (255 <? x)) eqn:E; [done|].
  apply va_ok_update_ppr. destruct l; repeat (apply va_ok_sets || apply words_ok_vec_set); try done; try lia; apply (vo_low v Hv).
Qed.

Lemma va_ok_eoi v : va_ok v -> va_ok (process_eoi v).
Proof.
  intros Hv. destruct (vo_sets v Hv) as (Hi & ? & ?). unfold process_eoi, isr_highest. case_if; [done|].
  destruct (vec_highest_spec (va_isr v) Hi) as [[Ht _]|[Ht _]]; [lia|].
  apply va_ok_update_ppr, va_ok_sets; try done; try (by apply words_ok_vec_clear). apply (vo_low v Hv).
Qed.

(** ** The timer *)

Lemma catch_up_spec interval exec d :
  0 < interval -> 0 <= d <= exec -> exec + interval < U64_MOD ->
  exists d', loop (catch_fuel interval exec d) (catch_body interval exec) d = Some d' /\
    exec < d' <= exec + interval /\ (d' - d) mod interval = 0.
Proof.
  intros Hi Hd Hb. set (I d' := 0 <= d' <= exec /\ (d' - d) mod interval = 0).
  apply (loop_total I (fun d' => exec < d' <= exec + interval /\ (d' - d) mod interval = 0) (fun d' => (exec - d') / interval)).
  - intros d' [Hd' Hm]. unfold catch_body. rewrite u64_id by lia.
    assert ((d' + interval - d) mod interval = 0) as Hm'.
    { replace (d' + interval - d) with (d' - d + 1 * interval) by lia. by rewrite Z_mod_plus_full. }
    case_if; [|split; [lia|done]]. split; [split; [lia|done]|].
    replace (exec - d') with (exec - (d' + interval) + 1 * interval) by lia. rewrite Z.div_add by lia.
    pose proof (Z.div_pos (exec - (d' + interval)) interval). lia.
  - split; [lia|]. rewrite Z.sub_diag. by apply Z.mod_0_l; lia.
  - unfold catch_fuel. pose proof (Z.div_pos (exec - d) interval). lia.
Qed.

(** What a timer that expires leaves: the vector waits, and the timer is set to the first
    multiple of its period in the future, or stopped. *)
Definition fired_state (v v' : vlapic_state_t) : Prop :=
  let w := raise_state v (LVT_VECTOR (reg v VLAPIC_REG_LVT_TIMER)) in
  v' = set_timer w (va_deadline v') (va_interval v) (va_shift v) (va_periodic v) (va_periodic v) /\
  if va_periodic v then va_exec_ns v < va_deadline v' <= va_exec_ns v + va_interval v /\ (va_deadline v' - va_deadline v) mod va_interval v = 0
  else va_deadline v' = va_deadline v.

Lemma raise_state_timer v x :
  va_exec_ns (raise_state v x) = va_exec_ns v /\ va_deadline (raise_state v x) = va_deadline v /\ va_interval (raise_state v x) = va_interval v /\
  va_shift (raise_state v x) = va_shift v /\ va_active (raise_state v x) = va_active v /\ va_periodic (raise_state v x) = va_periodic v.
Proof. destruct (raise_state_cases v x) as [[-> _]|(_ & _ & ->)]; done. Qed.

Lemma timer_fire_spec v :
  va_ok v -> va_active v = true -> va_deadline v <= va_exec_ns v -> va_exec_ns v + va_interval v < U64_MOD ->
  exists v', timer_fire v = Some v' /\ fired_state v v' /\ va_ok v' /\ va_exec_ns v' = va_exec_ns v.
Proof.
  intros Hv Ha Hd Hb. unfold timer_fire, fired_state. set (x := LVT_VECTOR _).
  pose proof (va_ok_raise v x Hv) as Hw. destruct (raise_state_timer v x) as (E1 & E2 & E3 & E4 & E5 & E6).
  set (w := raise_state v x) in *. cbv zeta. rewrite E1, E2, E3, E4, E5, E6, Ha. destruct (va_periodic v) eqn:Ep.
  - destruct (catch_up_spec (va_interval v) (va_exec_ns v) (va_deadline v)) as (d & Ed & Hd' & Hm).
    { pose proof (vo_periodic v Hv Ha Ep). lia. } { pose proof (vo_times v Hv). lia. } { done. }
    rewrite Ed. cbn. eexists. split; [done|]. cbn. split; [done|]. split; [|done]. destruct Hw. split; cbn in *; try done.
    + pose proof (vo_times v Hv). rewrite E1. lia.
    + lia.
    + intros _ _. by apply (vo_periodic v Hv).
  - eexists. split; [done|]. cbn. split; [done|]. split; [|done]. destruct Hw. split; cbn in *; try done.
    + rewrite E1. by apply (vo_times v Hv).
    + lia.
Qed.

Lemma poll_state_spec v :
  va_ok v -> va_exec_ns v + va_interval v < U64_MOD ->
  exists fired v', poll_state v = Some (fired, v') /\ va_ok v' /\
    fired = sw_enabled v && va_active v && (va_deadline v <=? va_exec_ns v) /\ if fired then fired_state v v' else v' = v.
Proof.
  intros Hv Hb. unfold poll_state. destruct (sw_enabled v) eqn:Es; cbn [negb andb]; [|by exists false, v].
  destruct (va_active v) eqn:Ea; cbn [negb andb]; [|by exists false, v]. cbn [poll_loop]. rewrite Ea. cbn [andb].
  destruct (Z.leb_spec (va_deadline v) (va_exec_ns v)) as [Hd|Hd]; [|by exists false, v].
  destruct (timer_fire_spec v Hv Ea Hd Hb) as (v' & E & Hf & Hv' & Ee). rewrite E. cbn [mbind option_bind].
  exists true, v'. assert (va_active v' && (va_deadline v' <=? va_exec_ns v') = false) as ->; [|done].
  destruct Hf as [Ev Hp]. destruct (va_periodic v).
  - rewrite Ee. rewrite (proj2 (Z.leb_gt _ _)) by lia. apply andb_false_r.
  - rewrite Ev. done.
Qed.

(** ** Delivery *)

Lemma take_word v i k :
  va_ok v -> 0 <= i < 8 -> 0 <= k < 32 ->
  let w := Z.land (aget 0 (va_irr v) i) (u32 (Z.lnot (aget 0 (va_isr v) i))) in
  0 <= w < U32_MOD /\ Z.testbit w k = Z.testbit (aget 0 (va_irr v) i) k && negb (Z.testbit (aget 0 (va_isr v) i) k).
Proof.
  intros Hv Hi Hk. destruct (vo_sets v Hv) as (_ & _ & Hr). split; [apply land_u32_range; by apply words_ok_at|].
  rewrite Z.land_spec, testbit_u32_lnot by lia. done.
Qed.

(** The highest vector that waits and is not in service is taken, and only it. *)
Lemma take_state_spec v :
  va_ok v ->
  match take_state v with
  | (None, v') => v' = v /\ forall x, 0 <= x < 256 -> vec_in (va_irr v) x = true -> vec_in (va_isr v) x = true
  | (Some t, v') =>
      16 <= t < 256 /\ vec_in (va_irr v) t = true /\ vec_in (va_isr v) t = false /\
      (forall x, t < x < 256 -> vec_in (va_irr v) x = true -> vec_in (va_isr v) x = true) /\
      v' = set_sets v (va_isr v) (va_tmr v) (vec_clear (va_irr v) t)
  end.
Proof.
  intros Hv. unfold take_state.
  set (word := fun i => Z.land (aget 0 (va_irr v) i) (u32 (Z.lnot (aget 0 (va_isr v) i)))).
  assert (forall x, 0 <= x < 256 -> Z.testbit (word (x / 32)) (x mod 32) = vec_in (va_irr v) x && negb (vec_in (va_isr v) x)) as Hb.
  { intros x Hx. destruct (vec_index x Hx). by apply (take_word v). }
  destruct (scan_down_spec word 8) as [[-> H]|(Ht & Hs & H)].
  { intros i Hi. by apply (take_word v i 0); [|lia|lia]. }
  - cbn. split; [done|]. intros x Hx Hr. specialize (H x ltac:(lia)). rewrite Hb, Hr in H by lia. by apply negb_false_iff.
  - destruct (Z.ltb_spec (scan_down word 8) 0); [lia|]. set (t := scan_down word 8) in *. rewrite Hb in Hs by lia.
    apply andb_prop in Hs as [Hs1 Hs2]. split; [|split; [done|split; [by apply negb_true_iff|split; [|done]]]].
    + split; [|lia]. destruct (decide (t < 16)); [|lia]. rewrite (vo_low v Hv) in Hs1 by lia. done.
    + intros x Hx Hr. specialize (H x ltac:(lia)). rewrite Hb, Hr in H by lia. by apply negb_false_iff.
Qed.

Lemma va_ok_take v t v' : va_ok v -> take_state v = (t, v') -> va_ok v'.
Proof.
  intros Hv E. pose proof (take_state_spec v Hv) as H. rewrite E in H. destruct (vo_sets v Hv) as (? & ? & ?). destruct t as [t|].
  - destruct H as (Ht & _ & _ & _ & ->). apply va_ok_sets; [done..|by apply words_ok_vec_clear; [|lia]|].
    intros y Hy. rewrite vec_in_clear by (done || lia). by rewrite (vo_low v Hv), andb_false_r.
  - destruct H as [-> _]. done.
Qed.

Lemma va_ok_write v idx val : va_ok v -> va_ok (write_local v idx val).
Proof.
  intros Hv. unfold write_local. repeat case_if; eauto using va_ok_set_r, va_ok_update_ppr, va_ok_eoi, va_ok_timer_start, va_ok_timer_stop.
  - apply va_ok_sets; [by apply va_ok_timer_stop, va_ok_set_r|..]; try by apply (va_ok_set_r v VLAPIC_REG_SVR val).
    + apply words_ok_zero.
    + intros. by apply vec_in_zero; lia.
  - destruct (va_ok_set_r v VLAPIC_REG_TIMER_DCR val Hv). split; try done. apply dcr_shift_range.
Qed.

(** * Runs

    One local APIC and its surroundings.  [lr_event] is the vector that was taken and waits
    for the guest to accept interrupts ([pending_event] of kernel/vmm/x86_64/vmx.c).  The
    counters say how often a vector came to wait, was taken, was ended by the guest, and was
    dropped because the guest switched its APIC off. *)

Record lapic_run := mk_lrun {
  lr_v : vlapic_state_t;
  lr_event : option Z;
  lr_raised : Z -> Z;
  lr_taken : Z -> Z;
  lr_ended : Z -> Z;
  lr_dropped : Z -> Z;
}.

Definition inc (f : Z -> Z) (x : Z) : Z -> Z := upd f x (f x + 1).
Definition b2z (b : bool) : Z := if b then 1 else 0.

(** A vector comes to wait when it did not wait before. *)
Definition count_raise (v v' : vlapic_state_t) (f : Z -> Z) : Z -> Z :=
  fun x => f x + b2z (vec_in (va_irr v') x && negb (vec_in (va_irr v) x)).
Definition count_drop (v v' : vlapic_state_t) (f : Z -> Z) : Z -> Z :=
  fun x => f x + b2z (vec_in (va_irr v) x && negb (vec_in (va_irr v') x)).
Definition count_end (v : vlapic_state_t) (idx : Z) (f : Z -> Z) : Z -> Z :=
  if (idx =? VLAPIC_REG_EOI) && (0 <=? isr_highest v) then inc f (isr_highest v) else f.

Inductive lapic_step : lapic_run -> lapic_run -> Prop :=
  | ls_raise v ev r t e d vec :
      lapic_step (mk_lrun v ev r t e d) (mk_lrun (raise_state v vec) ev (count_raise v (raise_state v vec) r) t e d)
  | ls_poll v ev r t e d fired v' :
      poll_state v = Some (fired, v') -> lapic_step (mk_lrun v ev r t e d) (mk_lrun v' ev (count_raise v v' r) t e d)
  | ls_take v r t e d vec v' :
      sw_enabled v = true -> take_state v = (Some vec, v') -> lapic_step (mk_lrun v None r t e d) (mk_lrun v' (Some vec) r (inc t vec) e d)
  | ls_accept v vec r t e d :
      lapic_step (mk_lrun v (Some vec) r t e d) (mk_lrun (accept_state v vec false) None r t e d)
  | ls_write v ev r t e d idx val :
      lapic_step (mk_lrun v ev r t e d)
        (mk_lrun (write_local v idx val) ev r t (count_end v idx e) (count_drop v (write_local v idx val) d))
  | ls_time v ev r t e d ns :
      lapic_step (mk_lrun v ev r t e d) (mk_lrun (set_exec v (u64 (va_exec_ns v + ns))) ev r t e d).

Definition in_flight (ev : option Z) (x : Z) : bool := bool_decide (ev = Some x).

Record lapic_inv (s : lapic_run) : Prop := mk_li {
  li_ok : va_ok (lr_v s);
  li_event : forall x, lr_event s = Some x -> 16 <= x < 256 /\ vec_in (va_isr (lr_v s)) x = false;
  li_served : forall x, 0 <= x < 256 -> lr_taken s x = lr_ended s x + b2z (vec_in (va_isr (lr_v s)) x) + b2z (in_flight (lr_event s) x);
  li_waiting : forall x, 0 <= x < 256 -> lr_raised s x = lr_taken s x + lr_dropped s x + b2z (vec_in (va_irr (lr_v s)) x);
}.

Lemma b2z_grow (a b : bool) : (b = true -> a = true) -> b2z a = b2z b + b2z (a && negb b).
Proof. destruct a, b; intros H; try done. by specialize (H eq_refl). Qed.

(** ISR is kept and IRR grows. *)
Definition grows (v v' : vlapic_state_t) : Prop :=
  va_isr v' = va_isr v /\ forall x, 0 <= x < 256 -> vec_in (va_irr v) x = true -> vec_in (va_irr v') x = true.

Lemma raise_grows v x : va_ok v -> grows v (raise_state v x).
Proof.
  intros Hv. destruct (raise_state_cases v x) as [[-> _]|(Hx & _ & ->)]; [done|]. split; [done|]. intros y Hy H. cbn [set_sets va_irr].
  destruct (vo_sets v Hv) as (_ & _ & ?). rewrite vec_in_set by (done || lia). rewrite H. apply orb_true_r.
Qed.

Lemma catch_range interval exec fuel : forall d d', loop fuel (catch_body interval exec) d = Some d' -> 0 <= d' < U64_MOD.
Proof.
  induction fuel as [|fuel IH]; intros d d'; cbn [loop]; [done|]. unfold catch_body at 1. case_if; [apply IH|]. intros [= <-]. apply u64_range.
Qed.

Lemma timer_fire_keeps v v' : va_ok v -> timer_fire v = Some v' -> va_ok v' /\ grows v v'.
Proof.
  intros Hv. unfold timer_fire. set (x := LVT_VECTOR _). pose proof (va_ok_raise v x Hv) as Hw. pose proof (raise_grows v x Hv) as Hg.
  set (w := raise_state v x) in *. destruct (va_periodic w) eqn:Ep.
  - destruct (loop _ _ _) as [d|] eqn:E; [|done]. intros [= <-]. split; [|done]. apply catch_range in E.
    destruct Hw as [? ? Ht ? Hp ?]. split; try done; cbn; [tauto|]. intros Ha _. by apply Hp.
  - intros [= <-]. split; [|done]. destruct Hw. by split.
Qed.

Lemma poll_keeps v fired v' : va_ok v -> poll_state v = Some (fired, v') -> va_ok v' /\ grows v v'.
Proof.
  intros Hv. unfold poll_state. case_if; [by intros [= <- <-]|]. case_if; [by intros [= <- <-]|]. clear E E0.
  generalize 2%nat, false. intros n. revert v Hv. induction n as [|n IH]; intros v Hv b; cbn [poll_loop]; [done|].
  case_if; [|by intros [= <- <-]]. destruct (timer_fire v) as [w|] eqn:Ew; [|done]. cbn [mbind option_bind].
  destruct (timer_fire_keeps v w Hv Ew) as [Hw [Gi Gr]]. intros Hn. destruct (IH w Hw true Hn) as [Hv' [Gi' Gr']]. split; [done|].
  split; [congruence|]. intros x Hx Hb. by apply Gr', Gr.
Qed.

Lemma timer_start_sets v : va_isr (timer_start v) = va_isr v /\ va_irr (timer_start v) = va_irr v.
Proof. unfold timer_start. cbv zeta. case_if; [done|]. by case_if. Qed.

Lemma write_local_sets v idx val :
  va_isr (write_local v idx val) = (if (idx =? VLAPIC_REG_EOI) && (0 <=? isr_highest v) then vec_clear (va_isr v) (isr_highest v) else va_isr v) /\
  (va_irr (write_local v idx val) = va_irr v \/ va_irr (write_local v idx val) = replicate 8 0).
Proof.
  unfold write_local. destruct (Z.eqb_spec idx VLAPIC_REG_EOI) as [->|Hne].
  - cbn -[process_eoi isr_highest Z.leb vec_clear]. unfold process_eoi.
    destruct (Z.ltb_spec (isr_highest v) 0), (Z.leb_spec 0 (isr_highest v)); try lia; split; try done; by left.
  - cbn [andb]. set (w1 := set_r v VLAPIC_REG_SVR val). set (w2 := set_r v VLAPIC_REG_LVT_TIMER val). set (w3 := set_r v VLAPIC_REG_TIMER_INIT val).
    pose proof (timer_start_sets w1) as [S1 R1]. pose proof (timer_start_sets w2) as [S2 R2]. pose proof (timer_start_sets w3) as [S3 R3].
    repeat case_if; try (split; [done|by left]); try (by split; [|left]); by split; [|right].
Qed.

Lemma count_raise_inv v v' ev r t e d : grows v v' -> va_ok v' -> lapic_inv (mk_lrun v ev r t e d) -> lapic_inv (mk_lrun v' ev (count_raise v v' r) t e d).
Proof.
  intros [Gi Gr] Hv' [Hv He Hs Hw]. split; cbn [lr_v lr_event lr_raised lr_taken lr_ended lr_dropped] in *; try done; rewrite ?Gi; try done.
  intros x Hx. unfold count_raise. rewrite (Hw x Hx), (b2z_grow (vec_in (va_irr v') x) (vec_in (va_irr v) x)); [lia|by apply Gr].
Qed.

Lemma take_inv v r t e d vec v' :
  take_state v = (Some vec, v') -> lapic_inv (mk_lrun v None r t e d) -> lapic_inv (mk_lrun v' (Some vec) r (inc t vec) e d).
Proof.
  intros E [Hv He Hs Hw]. cbn [lr_v lr_event lr_raised lr_taken lr_ended lr_dropped] in *. pose proof (va_ok_take v _ _ Hv E) as Hv'.
  pose proof (take_state_spec v Hv) as H. rewrite E in H. destruct H as (Hvec & Hr & Hi & _ & ->). destruct (vo_sets v Hv) as (_ & _ & Hok).
  split; cbn [lr_v lr_event lr_raised lr_taken lr_ended lr_dropped set_sets va_isr va_irr]; try done.
  - intros x [= <-]. done.
  - intros x Hx. specialize (Hs x Hx). unfold inc, in_flight in *. destruct (decide (x = vec)) as [->|Hne].
    + rewrite upd_eq, bool_decide_true by done. rewrite bool_decide_false in Hs by done. cbn [b2z] in *. lia.
    + rewrite upd_ne, bool_decide_false by (done || congruence). rewrite bool_decide_false in Hs by done. done.
  - intros x Hx. specialize (Hw x Hx). rewrite vec_in_clear by (done || lia). unfold inc. destruct (Z.eqb_spec vec x) as [<-|Hne]; cbn [negb andb].
    + rewrite upd_eq. rewrite Hr in Hw. cbn [b2z] in *. lia.
    + rewrite upd_ne by done. lia.
Qed.

Lemma accept_state_sets v vec :
  16 <= vec < 256 -> va_isr (accept_state v vec false) = vec_set (va_isr v) vec /\ va_irr (accept_state v vec false) = va_irr v.
Proof. intros. unfold accept_state. destruct ((vec =? 0) || (255 <? vec)) eqn:E; [lia|done]. Qed.

Lemma accept_inv v vec r t e d : lapic_inv (mk_lrun v (Some vec) r t e d) -> lapic_inv (mk_lrun (accept_state v vec false) None r t e d).
Proof.
  intros [Hv He Hs Hw]. cbn [lr_v lr_event lr_raised lr_taken lr_ended lr_dropped] in *. destruct (He vec eq_refl) as [Hvec Hi].
  destruct (accept_state_sets v vec Hvec) as [Ei Er]. destruct (vo_sets v Hv) as (Hok & _ & _).
  split; cbn [lr_v lr_event lr_raised lr_taken lr_ended lr_dropped]; rewrite ?Ei, ?Er; try done.
  - by apply va_ok_accept; [|lia].
  - intros x Hx. specialize (Hs x Hx). rewrite vec_in_set by (done || lia). unfold in_flight in *. destruct (Z.eqb_spec vec x) as [<-|Hne]; cbn [orb].
    + rewrite Hi, bool_decide_true in Hs by done. rewrite bool_decide_false by done. cbn [b2z] in *. lia.
    + rewrite bool_decide_false in Hs by congruence. rewrite bool_decide_false by done. done.
Qed.

Lemma reg_write_inv v ev r t e d idx val :
  lapic_inv (mk_lrun v ev r t e d) ->
  lapic_inv (mk_lrun (write_local v idx val) ev r t (count_end v idx e) (count_drop v (write_local v idx val) d)).
Proof.
  intros [Hv He Hs Hw]. cbn [lr_v lr_event lr_raised lr_taken lr_ended lr_dropped] in *.
  pose proof (write_local_sets v idx val) as [Ei Er]. pose proof (va_ok_write v idx val Hv) as Hv'. set (v' := write_local v idx val) in *.
  destruct (vo_sets v Hv) as (Hok & _ & _). unfold count_end. split; cbn [lr_v lr_event lr_raised lr_taken lr_ended lr_dropped]; try done.
  - intros x Hx. destruct (He x Hx) as [Hr Hf]. split; [done|]. rewrite Ei. case_if; [|done]. rewrite vec_in_clear; [|done| |lia].
    + by rewrite Hf, andb_false_r.
    + destruct (vec_highest_spec _ Hok) as [[? _]|[? _]]; unfold isr_highest in *; lia.
  - intros x Hx. specialize (Hs x Hx). rewrite Ei. case_if; [|done]. unfold isr_highest in *.
    destruct (vec_highest_spec _ Hok) as [[? _]|(Ht & Hb & _)]; [lia|]. set (top := vec_highest (va_isr v)) in *.
    rewrite vec_in_clear by (done || lia). unfold inc. destruct (Z.eqb_spec top x) as [<-|Hne]; cbn [negb andb].
    + rewrite upd_eq. rewrite Hb in Hs. cbn [b2z] in *. lia.
    + rewrite upd_ne by done. done.
  - intros x Hx. specialize (Hw x Hx). unfold count_drop. destruct Er as [->| ->].
    + rewrite andb_negb_r. cbn [b2z]. lia.
    + rewrite vec_in_zero by lia. rewrite andb_true_r. cbn [b2z]. lia.
Qed.

Lemma lapic_step_inv s s' : lapic_inv s -> lapic_step s s' -> lapic_inv s'.
Proof.
  intros Hi Hstep. destruct Hstep as [v ev r t e d vec|v ev r t e d f v' E|v r t e d vec v' _ E|v vec r t e d|v ev r t e d idx val|v ev r t e d ns].
  - apply count_raise_inv; [apply raise_grows, Hi|apply va_ok_raise, Hi|done].
  - destruct (poll_keeps v f v' (li_ok _ Hi) E) as [Hv' Hg]. by apply count_raise_inv.
  - by eapply take_inv.
  - by apply accept_inv.
  - by apply reg_write_inv.
  - destruct Hi as [Hv He Hs Hw]. split; try done. apply va_ok_exec; [done|apply u64_range].
Qed.

Definition zero_run (vcpu_id : Z) : lapic_run := mk_lrun (init_state vcpu_id) None (fun _ => 0) (fun _ => 0) (fun _ => 0) (fun _ => 0).

Lemma va_ok_init vcpu_id : va_ok (init_state vcpu_id).
Proof.
  unfold init_state. set (v := update_ppr _). assert (va_ok v) as Hv.
  { apply va_ok_update_ppr. assert (va_ok va_zero) as H0.
    { split; try done; cbn; try lia; [split_and!; apply words_ok_zero|]. intros. by apply vec_in_zero; lia. }
    assert (forall w b, va_ok w -> va_ok (set_base w b)) as Hb by (intros w b [? ? ? ? ? ?]; by split).
    apply Hb. by repeat apply va_ok_set_r. }
  destruct Hv. by split.
Qed.

Lemma zero_run_inv vcpu_id : lapic_inv (zero_run vcpu_id).
Proof.
  split; cbn [zero_run lr_v lr_event lr_raised lr_taken lr_ended lr_dropped]; [apply va_ok_init|done|..].
  - intros x Hx. rewrite (vec_in_zero x Hx : vec_in (va_isr (init_state vcpu_id)) x = false). done.
  - intros x Hx. rewrite (vec_in_zero x Hx : vec_in (va_irr (init_state vcpu_id)) x = false). done.
Qed.

(** C32. Interrupts of a local APIC are exactly accounted for.  In every run of guest, timer and
    devices from reset: a vector came to wait as often as it was taken, dropped because the
    guest switched its APIC off, or still waits; it was taken as often as it was ended, or is
    in service or on its way to the guest, at most one of both; and what is taken next is the
    highest waiting vector that is not in service, if there is one. *)
Theorem vlapic_accounts vcpu_id s x :
  star lapic_step (zero_run vcpu_id) s -> 0 <= x < 256 ->
  lr_raised s x = lr_taken s x + lr_dropped s x + b2z (vec_in (va_irr (lr_v s)) x) /\
  lr_taken s x = lr_ended s x + b2z (vec_in (va_isr (lr_v s)) x) + b2z (in_flight (lr_event s) x) /\
  vec_in (va_isr (lr_v s)) x && in_flight (lr_event s) x = false /\
  match (take_state (lr_v s)).1 with
  | None => vec_in (va_irr (lr_v s)) x = true -> vec_in (va_isr (lr_v s)) x = true
  | Some t => vec_in (va_irr (lr_v s)) t = true /\ vec_in (va_isr (lr_v s)) t = false /\
              (t < x -> vec_in (va_irr (lr_v s)) x = true -> vec_in (va_isr (lr_v s)) x = true)
  end.
Proof.
  intros Hrun Hx. assert (lapic_inv s) as Hi by (eapply star_invariant; [apply lapic_step_inv|apply zero_run_inv|done]).
  split; [by apply li_waiting|]. split; [by apply li_served|]. split.
  - unfold in_flight. case_bool_decide as E; [|apply andb_false_r]. by destruct (li_event s Hi x E) as [_ ->].
  - pose proof (take_state_spec (lr_v s) (li_ok s Hi)) as H. destruct (take_state (lr_v s)) as [[t|] v']; cbn [fst].
    + destruct H as (_ & H1 & H2 & H3 & _). split; [done|]. split; [done|]. intros Ht. apply H3. lia.
    + by apply (proj2 H).
Qed.

(** A guest that enables its APIC, is sent two vectors and takes the higher one. *)
Definition demo_state : vlapic_state_t := raise_state (raise_state (write_local (init_state 0) VLAPIC_REG_SVR 511) 49) 236.

Lemma demo_run : exists r t e d, star lapic_step (zero_run 0) (mk_lrun (take_state demo_state).2 (Some 236) r t e d).
Proof.
  do 4 eexists. eapply star_step; [apply (ls_write _ _ _ _ _ _ VLAPIC_REG_SVR 511)|]. eapply star_step; [apply (ls_raise _ _ _ _ _ _ 49)|].
  eapply star_step; [apply (ls_raise _ _ _ _ _ _ 236)|]. apply star_one. apply ls_take; vm_compute; reflexivity.
Qed.

Lemma vlapic_accounts_witness : exists s, vec_in (va_irr (lr_v s)) 49 = true /\ lr_event s = Some 236 /\ lr_raised s 236 = lr_taken s 236 + lr_dropped s 236.
Proof.
  destruct demo_run as (r & t & e & d & Hrun). exists (mk_lrun (take_state demo_state).2 (Some 236) r t e d).
  split; [vm_compute; reflexivity|]. split; [done|].
  destruct (vlapic_accounts 0 _ 236 Hrun ltac:(lia)) as [H _]. rewrite H.
  assert (vec_in (va_irr (lr_v (mk_lrun (take_state demo_state).2 (Some 236) r t e d))) 236 = false) as -> by (vm_compute; reflexivity). cbn [b2z]. lia.
Defined.

(** * Timers *)

(** C33. The timer of a local APIC.  Asked before every entry of the guest, it answers after
    finitely many steps; it fires exactly if the APIC is on and the time has come.  A periodic
    timer is then set to the first multiple of its period in the future, however many periods
    have passed, and its vector waits once; a one-shot timer is off. *)
Theorem vlapic_timer_correct g vm i v :
  vlapic_of g vm i = Some v -> va_ok v -> va_exec_ns v + va_interval v < U64_MOD ->
  exists fired v', vlapic_timer_poll g vm i = Some (fired, vlapic_put g vm i v') /\
    fired = sw_enabled v && va_active v && (va_deadline v <=? va_exec_ns v) /\
    (fired = false -> v' = v) /\
    (fired = true -> va_irr v' = va_irr (raise_state v (LVT_VECTOR (reg v VLAPIC_REG_LVT_TIMER))) /\ va_isr v' = va_isr v /\ va_r v' = va_r v /\
       va_active v' = va_periodic v /\
       (va_periodic v = true -> va_exec_ns v < va_deadline v' <= va_exec_ns v + va_interval v /\ (va_deadline v' - va_deadline v) mod va_interval v = 0)).
Proof.
  intros E Hv Hb. unfold vlapic_timer_poll. rewrite E. destruct (poll_state_spec v Hv Hb) as (fired & v' & -> & _ & Ef & Hf).
  cbn. exists fired, v'. split; [done|]. split; [done|]. destruct fired; (split; [done|]); [|done]. intros _. destruct Hf as [Ev Hp].
  set (y := LVT_VECTOR _) in *. assert (va_isr (raise_state v y) = va_isr v /\ va_r (raise_state v y) = va_r v) as [Ei Er].
  { destruct (raise_state_cases v y) as [[-> _]|(_ & _ & ->)]; done. }
  split; [by rewrite Ev|]. split; [by rewrite Ev|]. split; [by rewrite Ev|]. split; [by rewrite Ev|]. intros H. by rewrite H in Hp.
Qed.

(** The current count.  A guest that writes an initial count to an unmasked timer reads back
    that count, and after [d] nanoseconds in the guest the count of the time left, rounded down
    in the unit of the divider. *)
Theorem vlapic_count_roundtrip v n d :
  va_ok v -> 0 < n < U32_MOD -> Z.land (reg v VLAPIC_REG_LVT_TIMER) LVT_MASKED = 0 ->
  (Z.land (reg v VLAPIC_REG_LVT_TIMER) LVT_MODE_MASK = LVT_MODE_PERIODIC -> VLAPIC_PERIODIC_MIN_NS <= n * 2 ^ va_shift v) ->
  0 <= d -> va_exec_ns v + d + n * 2 ^ va_shift v < U64_MOD ->
  let w := write_local v VLAPIC_REG_TIMER_INIT n in
  (reg_read (set_exec w (u64 (va_exec_ns w + d))) VLAPIC_REG_TIMER_CUR).1 = Z.max 0 (n * 2 ^ va_shift v - d) / 2 ^ va_shift v /\
  (d = 0 -> (reg_read (set_exec w (u64 (va_exec_ns w + d))) VLAPIC_REG_TIMER_CUR).1 = n).
Proof.
  intros Hv Hn Hm Hp Hd Hb w. pose proof (vo_shift v Hv) as Hs. pose proof (vo_times v Hv) as Ht. destruct (shift_ticks n (va_shift v)) as [Esh Hr]; [lia|lia|].
  assert (reg (set_r v VLAPIC_REG_TIMER_INIT n) VLAPIC_REG_TIMER_INIT = n) as Ei.
  { unfold reg, set_r. cbn [va_r]. apply aget_aset_eq. rewrite (vo_r v Hv). lia. }
  assert (reg (set_r v VLAPIC_REG_TIMER_INIT n) VLAPIC_REG_LVT_TIMER = reg v VLAPIC_REG_LVT_TIMER) as El.
  { unfold reg, set_r. cbn [va_r]. by apply aget_aset_ne. }
  assert (va_active w = true /\ va_exec_ns w = va_exec_ns v /\ va_shift w = va_shift v /\ va_deadline w = va_exec_ns v + n * 2 ^ va_shift v) as (Ea & Ee & Ess & Ed).
  { subst w. change (write_local v VLAPIC_REG_TIMER_INIT n) with (timer_start (set_r v VLAPIC_REG_TIMER_INIT n)). unfold timer_start.
    rewrite Ei, El, Hm, (proj2 (Z.eqb_neq n 0)) by lia. cbn [Z.eqb negb]. cbn [set_timer set_r va_shift va_exec_ns va_deadline va_active].
    rewrite Esh, (u64_id (n * _)) by lia. split_and!; try done.
    destruct (Z.eqb_spec (Z.land (reg v VLAPIC_REG_LVT_TIMER) LVT_MODE_MASK) LVT_MODE_PERIODIC) as [E|_]; cbn [andb].
    - rewrite (proj2 (Z.ltb_ge _ _)) by (by apply Hp). apply u64_id. lia.
    - apply u64_id. lia. }
  assert ((reg_read (set_exec w (u64 (va_exec_ns w + d))) VLAPIC_REG_TIMER_CUR).1 = Z.max 0 (n * 2 ^ va_shift v - d) / 2 ^ va_shift v) as Hmain.
  { unfold reg_read. cbn [Z.eqb Z.leb Z.ltb Z.compare Pos.eqb Pos.compare Pos.compare_cont andb orb fst]. cbn [set_exec va_active va_exec_ns va_deadline va_shift].
    rewrite Ea, Ee, Ess, Ed, (u64_id (_ + d)) by lia. cbn [andb]. rewrite Z.shiftr_div_pow2 by lia.
    assert ((if va_exec_ns v + d <? va_exec_ns v + n * 2 ^ va_shift v then va_exec_ns v + n * 2 ^ va_shift v - (va_exec_ns v + d) else 0) = Z.max 0 (n * 2 ^ va_shift v - d)) as ->
      by (destruct (Z.ltb_spec (va_exec_ns v + d) (va_exec_ns v + n * 2 ^ va_shift v)); lia).
    apply u32_id. split; [apply Z.div_pos; lia|]. apply Z.div_lt_upper_bound; [lia|]. nia. }
  split; [done|]. intros ->. rewrite Hmain, Z.sub_0_r, Z.max_r by lia. apply Z.div_mul. lia.
Qed.

Lemma vlapic_count_roundtrip_witness :
  (reg_read (set_exec (write_local (init_state 0) VLAPIC_REG_TIMER_INIT 1000000) 250000) VLAPIC_REG_TIMER_CUR).1 = 750000.
Proof.
  assert (va_ok (init_state 0)) as Hv by apply va_ok_init.
  destruct (vlapic_count_roundtrip (init_state 0) 1000000 250000 Hv) as [H _]; [lia|vm_compute; reflexivity|vm_compute; done|lia|vm_compute; reflexivity|].
  transitivity (Z.max 0 (1000000 * 2 ^ va_shift (init_state 0) - 250000) / 2 ^ va_shift (init_state 0)); [|vm_compute; reflexivity]. rewrite <-H.
  vm_compute. reflexivity.
Defined.

(** A machine with one CPU whose periodic timer of 1 ms has missed three periods. *)
Definition demo_vm : vm_ref := mk_vmref 4096 1.
Definition demo_pool : pool_t := vlapic_init (replicate 32 (replicate 12 slot_zero)) demo_vm 0.
Definition late_state : vlapic_state_t :=
  let v := write_local (init_state 0) VLAPIC_REG_SVR 511 in
  let v := write_local v VLAPIC_REG_LVT_TIMER (LVT_MODE_PERIODIC + 236) in
  set_exec (write_local v VLAPIC_REG_TIMER_INIT 1000000) 3500000.

Lemma vlapic_timer_correct_witness :
  exists v', vlapic_timer_poll (vlapic_put demo_pool demo_vm 0 late_state) demo_vm 0 = Some (true, vlapic_put (vlapic_put demo_pool demo_vm 0 late_state) demo_vm 0 v') /\
    3500000 < va_deadline v' <= 4500000.
Proof.
  assert (va_ok late_state) as Hv.
  { apply va_ok_exec; [|lia]. do 3 apply va_ok_write. apply va_ok_init. }
  destruct (vlapic_timer_correct (vlapic_put demo_pool demo_vm 0 late_state) demo_vm 0 late_state) as (fired & v' & E & Ef & _ & Ht); [vm_compute; reflexivity|done|vm_compute; reflexivity|].
  assert (fired = true) as -> by (rewrite Ef; vm_compute; reflexivity). exists v'. split; [done|].
  destruct (Ht eq_refl) as (_ & _ & _ & _ & Hp). destruct Hp as [Hp _]; [vm_compute; reflexivity|].
  assert (va_exec_ns late_state = 3500000 /\ va_interval late_state = 1000000) as [E1 E2] by (split; vm_compute; reflexivity). rewrite E1, E2 in Hp. exact Hp.
Defined.

(** * Interrupts between CPUs *)

Definition pool_ok (g : pool_t) : Prop := length g = 32%nat /\ Forall (fun row => length row = 12%nat) g.

Lemma pool_row g vm : pool_ok g -> in_slots vm = true -> 0 <= vr_slot vm < Z.of_nat (length g) /\ length (aget [] g (vr_slot vm)) = 12%nat.
Proof.
  intros [Hl Hf] Hi. unfold in_slots in Hi. assert (0 <= vr_slot vm < Z.of_nat (length g)) as Hs by lia. split; [done|].
  exact (proj1 (Forall_lookup _ _) Hf _ _ (aget_lookup [] g (vr_slot vm) Hs)).
Qed.

Lemma pool_ok_set g vm i d : pool_ok g -> in_slots vm = true -> pool_ok (slot_set g vm i d).
Proof.
  intros Hg Hi. destruct (pool_row g vm Hg Hi) as [_ Hr]. destruct Hg as [Hl Hf]. split; [by unfold slot_set; rewrite length_aset|].
  apply Forall_insert; [done|]. by rewrite length_aset.
Qed.

Lemma vlapic_of_in g vm i v : vlapic_of g vm i = Some v -> in_slots vm = true /\ vs_st (slot_at g vm i) = v /\ vs_owner (slot_at g vm i) = vr_ptr vm.
Proof. unfold vlapic_of. destruct (in_slots vm); cbn [negb]; [|done]. case_if; [done|]. intros [= <-]. done. Qed.

Lemma pool_ok_put g vm i v w : pool_ok g -> vlapic_of g vm i = Some v -> pool_ok (vlapic_put g vm i w).
Proof. intros Hg H. apply vlapic_of_in in H as (? & _). by apply pool_ok_set. Qed.

Lemma vslot_at_set g vm i j d :
  pool_ok g -> in_slots vm = true -> 0 <= i < 12 -> 0 <= j < 12 -> slot_at (slot_set g vm i d) vm j = if j =? i then d else slot_at g vm j.
Proof.
  intros Hg Hi Hi' Hj. destruct (pool_row g vm Hg Hi) as [Hs Hr]. unfold slot_at, slot_set. rewrite aget_aset_eq by done.
  rewrite !Z.mod_small by lia. destruct (Z.eqb_spec j i) as [->|]; [apply aget_aset_eq; lia|apply aget_aset_ne; lia].
Qed.

Lemma vlapic_of_put g vm i j v w :
  pool_ok g -> vlapic_of g vm i = Some v -> 0 <= i < 12 -> 0 <= j < 12 ->
  vlapic_of (vlapic_put g vm i w) vm j = if j =? i then Some w else vlapic_of g vm j.
Proof.
  intros Hg H Hi Hj. pose proof (vlapic_of_in _ _ _ _ H) as (Hs & _ & Ho). unfold vlapic_of, vlapic_put. rewrite Hs. cbn [negb].
  rewrite vslot_at_set by done. destruct (Z.eqb_spec j i) as [->|]; [|done]. cbn [vs_owner vs_st]. by rewrite Ho, Z.eqb_refl.
Qed.

(** What is done to a machine is not seen in another slot. *)
Lemma vlapic_of_put_other g vm vm' i j w :
  pool_ok g -> in_slots vm = true -> vr_slot vm' <> vr_slot vm -> vlapic_of (vlapic_put g vm i w) vm' j = vlapic_of g vm' j.
Proof.
  intros Hg Hs Hne. unfold vlapic_of. destruct (in_slots vm') eqn:Hs'; cbn [negb]; [|done].
  assert (slot_at (vlapic_put g vm i w) vm' j = slot_at g vm' j) as ->; [|done]. unfold slot_at, vlapic_put, slot_set.
  unfold in_slots in *. rewrite aget_aset_ne by lia. done.
Qed.

(** Which CPUs a command names. *)
Definition addressed (x : lapic_world) (vm : vm_ref) (src lo hi i : Z) : bool :=
  let dest := Z.land (Z.shiftr hi 24) 255 in
  let sh := Z.land lo ICR_DEST_MASK in
  if sh =? ICR_DEST_SELF then i =? src
  else if sh =? ICR_DEST_ALL then true
  else if sh =? ICR_DEST_ALL_BUT_SELF then negb (i =? src)
  else if negb (sh =? 0) then false
  else if negb (Z.land lo ICR_DEST_LOGICAL =? 0) then
    match vlapic_of (lw_pool x) vm i with
    | None => false
    | Some t => negb (Z.land (Z.shiftr (reg t VLAPIC_REG_LDR) 24) dest =? 0)
    end
  else (dest =? 255) || (dest =? i).

(** [receives]: in fixed mode all of them, in lowest-priority mode the first. *)
Definition receives (x : lapic_world) (vm : vm_ref) (src lo hi i : Z) : bool :=
  let mode := Z.land lo ICR_DELIVERY_MASK in
  addressed x vm src lo hi i &&
  ((mode =? ICR_MODE_FIXED) || (mode =? ICR_MODE_LOWEST) && forallb (fun j => negb (addressed x vm src lo hi j)) (seqZ 0 i)).

Lemma filter_none {A} (f : A -> bool) l : (forall y, y ∈ l -> f y = false) -> List.filter f l = [].
Proof.
  induction l as [|y l IH]; intros H; [done|]. cbn [List.filter]. rewrite H by apply list_elem_of_here. apply IH. intros. apply H. by apply list_elem_of_further.
Qed.

Lemma filter_seqZ_one f n a : 0 <= a < n -> (forall i, 0 <= i < n -> f i = (i =? a)) -> List.filter f (seqZ 0 n) = [a].
Proof.
  intros Ha Hf. replace n with (a + (1 + (n - a - 1))) by lia. rewrite seqZ_app, seqZ_app by lia. rewrite !List.filter_app.
  rewrite (filter_none f (seqZ 0 a)), (filter_none f (seqZ (0 + a + 1) _)).
  - rewrite seqZ_cons, seqZ_nil, Z.add_0_l by lia. cbn [List.filter app]. rewrite Hf by lia. by rewrite Z.eqb_refl.
  - intros y [? ?]%elem_of_seqZ. rewrite Hf by lia. lia.
  - intros y [? ?]%elem_of_seqZ. rewrite Hf by lia. lia.
Qed.

Lemma collect_filter keep nr : 0 <= nr <= 12 -> collect keep nr = List.filter keep (seqZ 0 nr).
Proof.
  intros Hn. unfold collect. apply take_ge. etransitivity; [apply List.filter_length_le|]. rewrite length_seqZ. lia.
Qed.

Lemma filter_ext_seqZ f f' n : (forall i, 0 <= i < n -> f i = f' i) -> List.filter f (seqZ 0 n) = List.filter f' (seqZ 0 n).
Proof. intros H. apply List.filter_ext_in. intros i Hi. apply list_elem_of_In, elem_of_seqZ in Hi. apply H. lia. Qed.

Lemma targets_addressed x vm src lo hi :
  nr_vcpus x <= 12 -> 0 <= src < nr_vcpus x -> icr_collect_targets x vm src lo hi = List.filter (addressed x vm src lo hi) (seqZ 0 (nr_vcpus x)).
Proof.
  intros Hn Hs. unfold icr_collect_targets, addressed. set (sh := Z.land lo ICR_DEST_MASK).
  destruct (Z.eqb_spec sh ICR_DEST_SELF) as [E|_]; [by symmetry; apply filter_seqZ_one|].
  destruct (Z.eqb_spec sh ICR_DEST_ALL) as [->|_]; cbn [orb]; [by rewrite collect_filter by lia|].
  destruct (Z.eqb_spec sh ICR_DEST_ALL_BUT_SELF) as [->|_]; [by rewrite collect_filter by lia|].
  case_if; [by symmetry; apply filter_none|]. case_if; [by rewrite collect_filter by lia|].
  set (dest := Z.land (Z.shiftr hi 24) 255). destruct (Z.eqb_spec dest 255); [by rewrite collect_filter by lia|]. cbn [orb].
  destruct (Z.ltb_spec dest (nr_vcpus x)).
  - symmetry. apply filter_seqZ_one; [|intros; apply Z.eqb_sym]. split; [by apply Z.land_nonneg; right|done].
  - symmetry. apply filter_none. intros y [? ?]%elem_of_seqZ. lia.
Qed.

(** ** The effect of a command *)

Lemma elem_of_other (i t : Z) L : i <> t -> i ∈ t :: L <-> i ∈ L.
Proof. rewrite elem_of_cons. tauto. Qed.

(** [L]: the CPUs a list of targets names get what [f] does to one. *)
Lemma inject_all vm vec L : forall x,
  pool_ok (lw_pool x) -> nr_vcpus x <= 12 -> List.NoDup L -> (forall i, i ∈ L -> 0 <= i < nr_vcpus x) ->
  (forall i, 0 <= i < nr_vcpus x -> is_Some (vlapic_of (lw_pool x) vm i)) ->
  let x' := foldl (fun x t => vmm_vcpu_inject_vector x vm t vec) x L in
  lw_vcpus x' = lw_vcpus x /\ pool_ok (lw_pool x') /\
  (forall vm' j, vr_slot vm' <> vr_slot vm -> vlapic_of (lw_pool x') vm' j = vlapic_of (lw_pool x) vm' j) /\
  forall i v, 0 <= i < nr_vcpus x -> vlapic_of (lw_pool x) vm i = Some v ->
    vlapic_of (lw_pool x') vm i = Some (if bool_decide (i ∈ L) then raise_state v vec else v).
Proof.
  induction L as [|t L IH]; intros x Hg Hn Hd HL Hall; cbn [foldl].
  { split; [done|]. split; [done|]. split; [done|]. intros i v Hi E. by rewrite bool_decide_false by apply not_elem_of_nil. }
  apply List.NoDup_cons_iff in Hd as [Ht Hd]. rewrite <-list_elem_of_In in Ht. pose proof (HL t (list_elem_of_here t L)) as Htr.
  destruct (Hall t Htr) as [vt Et]. set (y := vmm_vcpu_inject_vector x vm t vec).
  assert (y = mk_lw (vlapic_put (lw_pool x) vm t (raise_state vt vec)) (lw_vcpus x)) as Ey.
  { unfold y, vmm_vcpu_inject_vector, has_vcpu. destruct ((0 <=? t) && (t <? nr_vcpus x)) eqn:E; [|lia]. unfold vlapic_raise_irq, on_state. by rewrite Et. }
  assert (nr_vcpus y = nr_vcpus x) as En by (by rewrite Ey).
  assert (forall j, 0 <= j < 12 -> vlapic_of (lw_pool y) vm j = if j =? t then Some (raise_state vt vec) else vlapic_of (lw_pool x) vm j) as Hy.
  { intros j Hj. rewrite Ey. cbn [lw_pool]. apply (vlapic_of_put _ _ _ _ vt); (done || lia). }
  pose proof (vlapic_of_in _ _ _ _ Et) as (Hs & _).
  destruct (IH y) as (H1 & H2 & H3 & H4).
  { rewrite Ey. by eapply pool_ok_put. } { lia. } { done. }
  { intros i Hi. rewrite En. apply HL. by apply list_elem_of_further. }
  { intros i Hi. rewrite En in Hi. rewrite Hy by lia. case_if; [done|by apply Hall]. }
  split; [by rewrite H1, Ey|]. split; [done|]. split.
  - intros vm' j Hne. rewrite H3 by done. rewrite Ey. by apply vlapic_of_put_other.
  - intros i v Hi E. rewrite En in H4. destruct (Z.eqb_spec i t) as [->|Hne].
    + rewrite (H4 t (raise_state vt vec)); [|done|by rewrite Hy, Z.eqb_refl by lia]. rewrite bool_decide_false by done.
      rewrite bool_decide_true by apply list_elem_of_here. congruence.
    + rewrite (H4 i v); [|done|by rewrite Hy, (proj2 (Z.eqb_neq i t)) by lia]. f_equal.
      by rewrite (bool_decide_ext (i ∈ t :: L) (i ∈ L)) by (by apply elem_of_other).
Qed.

Lemma inject_exactly x vm vec L (r : Z -> bool) :
  pool_ok (lw_pool x) -> nr_vcpus x <= 12 -> List.NoDup L -> (forall i, i ∈ L <-> 0 <= i < nr_vcpus x /\ r i = true) ->
  (forall i, 0 <= i < nr_vcpus x -> is_Some (vlapic_of (lw_pool x) vm i)) ->
  let x' := foldl (fun x t => vmm_vcpu_inject_vector x vm t vec) x L in
  lw_vcpus x' = lw_vcpus x /\
  (forall vm' j, vr_slot vm' <> vr_slot vm -> vlapic_of (lw_pool x') vm' j = vlapic_of (lw_pool x) vm' j) /\
  forall i v, 0 <= i < nr_vcpus x -> vlapic_of (lw_pool x) vm i = Some v -> vlapic_of (lw_pool x') vm i = Some (if r i then raise_state v vec else v).
Proof.
  intros Hg Hn Hd Hr Hall x'. subst x'. destruct (inject_all vm vec L x Hg Hn Hd) as (H1 & _ & H3 & H4); [intros i Hi; by apply Hr|done|].
  split; [done|]. split; [done|]. intros i v Hi E. rewrite (H4 i v Hi E). destruct (r i) eqn:Er.
  - by rewrite bool_decide_true by (by apply Hr).
  - rewrite bool_decide_false; [done|]. intros [_ ?]%Hr. congruence.
Qed.

Lemma start_all vec L : forall x,
  List.NoDup L -> (forall i, i ∈ L -> 0 <= i < nr_vcpus x) ->
  let x' := foldl (start_target vec) x L in
  lw_pool x' = lw_pool x /\ nr_vcpus x' = nr_vcpus x /\
  forall i, 0 <= i < nr_vcpus x ->
    aget xv_zero (lw_vcpus x') i =
      (if bool_decide (i ∈ L) then (vmm_vcpu_start (aget xv_zero (lw_vcpus x) i) (Z.shiftl vec 12)).2 else aget xv_zero (lw_vcpus x) i).
Proof.
  induction L as [|t L IH]; intros x Hd HL; cbn [foldl].
  { split; [done|]. split; [done|]. intros. by rewrite bool_decide_false by apply not_elem_of_nil. }
  apply List.NoDup_cons_iff in Hd as [Ht Hd]. rewrite <-list_elem_of_In in Ht. pose proof (HL t (list_elem_of_here t L)) as Htr.
  set (y := start_target vec x t).
  assert (y = mk_lw (lw_pool x) (aset (lw_vcpus x) t (vmm_vcpu_start (aget xv_zero (lw_vcpus x) t) (Z.shiftl vec 12)).2)) as Ey.
  { unfold y, start_target, has_vcpu. destruct ((0 <=? t) && (t <? nr_vcpus x)) eqn:E; [done|lia]. }
  assert (nr_vcpus y = nr_vcpus x) as En by (rewrite Ey; unfold nr_vcpus; cbn [lw_vcpus]; by rewrite length_aset).
  destruct (IH y) as (H1 & H2 & H3); [done|intros i Hi; rewrite En; apply HL; by apply list_elem_of_further|].
  split; [by rewrite H1, Ey|]. split; [lia|]. intros i Hi. rewrite H3 by lia. rewrite Ey. cbn [lw_vcpus]. unfold nr_vcpus in *.
  destruct (Z.eqb_spec i t) as [->|Hne].
  - rewrite aget_aset_eq by lia. rewrite bool_decide_false by done. by rewrite bool_decide_true by apply list_elem_of_here.
  - rewrite aget_aset_ne by lia.
    by rewrite (bool_decide_ext (i ∈ t :: L) (i ∈ L)) by (by apply elem_of_other).
Qed.

Lemma NoDup_targets f n : List.NoDup (List.filter f (seqZ 0 n)).
Proof. apply List.NoDup_filter, NoDup_ListNoDup, NoDup_seqZ. Qed.

Lemma elem_of_targets f n i : i ∈ List.filter f (seqZ 0 n) <-> 0 <= i < n /\ f i = true.
Proof. rewrite list_elem_of_In, List.filter_In, <-list_elem_of_In, elem_of_seqZ. intuition lia. Qed.

(** The first element of a filtered range. *)
Lemma elem_of_first f n i :
  i ∈ take 1 (List.filter f (seqZ 0 n)) <-> 0 <= i < n /\ f i = true /\ forallb (fun j => negb (f j)) (seqZ 0 i) = true.
Proof.
  assert (forall m a, 0 <= m -> i ∈ take 1 (List.filter f (seqZ a m)) <-> a <= i < a + m /\ f i = true /\ forall j, a <= j < i -> f j = false) as H.
  { intros m a Hm. revert a. pattern m. apply natlike_ind; [|clear m Hm; intros m Hm IH|done]; intros a.
    - rewrite seqZ_nil by lia. cbn. split; [by intros ?%elem_of_nil|lia].
    - rewrite seqZ_cons by lia. rewrite Z.pred_succ. cbn [List.filter]. destruct (f a) eqn:Ef.
      + cbn [take]. rewrite list_elem_of_singleton. split; [intros ->; split; [lia|split; [done|lia]]|].
        intros (Hi & Hfi & Hj). destruct (decide (i = a)); [done|]. rewrite (Hj a) in Ef by lia. done.
      + rewrite IH. split; intros (Hi & Hfi & Hj).
        * split; [lia|]. split; [done|]. intros j Hj'. destruct (decide (j = a)) as [->|]; [done|]. apply Hj. lia.
        * assert (i <> a) by congruence. split; [lia|]. split; [done|]. intros j Hj'. apply Hj. lia. }
  destruct (decide (0 <= n)) as [Hn|Hn].
  - rewrite H by done. rewrite forallb_forall. split; intros (Hi & Hfi & Hj); split; try lia; (split; [done|]).
    + intros j Hj'%list_elem_of_In%elem_of_seqZ. apply negb_true_iff, Hj. lia.
    + intros j Hj'. apply negb_true_iff, Hj, list_elem_of_In, elem_of_seqZ. lia.
  - rewrite seqZ_nil by lia. cbn. split; [by intros ?%elem_of_nil|lia].
Qed.

Lemma take_all_or_one {A} (b : bool) (l : list A) : (if b && (1 <? Z.of_nat (length l)) then take 1 l else l) = if b then take 1 l else l.
Proof. destruct b; [|done]. cbn [andb]. case_if; [done|]. symmetry. apply take_ge. lia. Qed.

(** What the guest does to its other CPUs with ICR.  After a CPU has written the register, the
    vector waits at exactly the CPUs the command names (in lowest-priority mode, at the first of
    them); a start-up command starts exactly the named CPUs that are offline, at the page the
    vector gives; nothing else of the machine changes but the register itself, and nothing at
    all of another machine. *)
Theorem vlapic_icr_correct x vm src val v :
  pool_ok (lw_pool x) -> nr_vcpus x <= 12 -> 0 <= src < nr_vcpus x -> 0 <= val < U32_MOD ->
  (forall i, 0 <= i < nr_vcpus x -> is_Some (vlapic_of (lw_pool x) vm i)) -> vlapic_of (lw_pool x) vm src = Some v ->
  let hi := reg v VLAPIC_REG_ICR_HI in
  let x' := reg_write x vm src VLAPIC_REG_ICR_LO val in
  let mode := Z.land val ICR_DELIVERY_MASK in
  (forall i t, 0 <= i < nr_vcpus x -> vlapic_of (lw_pool x) vm i = Some t ->
     let t1 := if i =? src then set_r t VLAPIC_REG_ICR_LO val else t in
     vlapic_of (lw_pool x') vm i = Some (if receives x vm src val hi i then raise_state t1 (LVT_VECTOR val) else t1)) /\
  (forall i, 0 <= i < nr_vcpus x ->
     aget xv_zero (lw_vcpus x') i =
       if (mode =? ICR_MODE_SIPI) && addressed x vm src val hi i then (vmm_vcpu_start (aget xv_zero (lw_vcpus x) i) (Z.shiftl (LVT_VECTOR val) 12)).2
       else aget xv_zero (lw_vcpus x) i) /\
  (forall vm' j, vr_slot vm' <> vr_slot vm -> vlapic_of (lw_pool x') vm' j = vlapic_of (lw_pool x) vm' j).
Proof.
  intros Hg Hn Hs Hval Hall Ev hi x' mode. subst x'. unfold reg_write. cbn [Z.eqb Pos.eqb]. unfold write_icr. rewrite Ev. fold hi.
  unfold on_state. rewrite Ev. set (y := mk_lw (vlapic_put (lw_pool x) vm src (set_r v VLAPIC_REG_ICR_LO val)) (lw_vcpus x)).
  pose proof (vlapic_of_in _ _ _ _ Ev) as (Hin & _).
  assert (forall i, 0 <= i < 12 -> vlapic_of (lw_pool y) vm i = if i =? src then Some (set_r v VLAPIC_REG_ICR_LO val) else vlapic_of (lw_pool x) vm i) as Hy.
  { intros i Hi. apply (vlapic_of_put _ _ _ _ v); (done || lia). }
  assert (forall i, 0 <= i < nr_vcpus x -> addressed y vm src val hi i = addressed x vm src val hi i) as Ha.
  { intros i Hi. unfold addressed. rewrite Hy by lia. destruct (Z.eqb_spec i src) as [->|]; [|done]. rewrite Ev.
    assert (reg (set_r v VLAPIC_REG_ICR_LO val) VLAPIC_REG_LDR = reg v VLAPIC_REG_LDR) as ->; [|done]. by apply aget_aset_ne. }
  assert (forall vm' j, vr_slot vm' <> vr_slot vm -> vlapic_of (lw_pool y) vm' j = vlapic_of (lw_pool x) vm' j) as Ho by (intros; by apply vlapic_of_put_other).
  assert (forall i t, 0 <= i < nr_vcpus x -> vlapic_of (lw_pool x) vm i = Some t ->
    vlapic_of (lw_pool y) vm i = Some (if i =? src then set_r t VLAPIC_REG_ICR_LO val else t)) as Hy1.
  { intros i t Hi Et. rewrite Hy by lia. destruct (Z.eqb_spec i src) as [->|]; [congruence|done]. }
  rewrite targets_addressed by done. change (nr_vcpus y) with (nr_vcpus x).
  rewrite (filter_ext_seqZ (addressed y vm src val hi) (addressed x vm src val hi)) by done. set (L := List.filter _ _).
  unfold receives. fold mode.
  destruct (Z.eqb_spec mode ICR_MODE_SIPI) as [Em|Em]; [rewrite Em; cbn [Z.eqb Pos.eqb orb andb]|].
  { destruct (start_all (LVT_VECTOR val) L y (NoDup_targets _ _)) as (H1 & _ & H3); [intros i Hi; apply elem_of_targets in Hi; apply Hi|].
    rewrite H1. split; [|split; [|done]].
    - intros i t Hi Et. rewrite andb_false_r. by apply Hy1.
    - intros i Hi. rewrite H3 by done. change (lw_vcpus y) with (lw_vcpus x). destruct (addressed x vm src val hi i) eqn:E.
      + by rewrite bool_decide_true by (by apply elem_of_targets).
      + rewrite bool_decide_false; [done|]. intros [_ ?]%elem_of_targets. congruence. }
  destruct (Z.eqb_spec mode ICR_MODE_INIT) as [Em'|Em']; [rewrite Em'; cbn [Z.eqb Pos.eqb orb andb]|cbn [orb andb]].
  { split; [|done]. intros i t Hi Et. rewrite andb_false_r. by apply Hy1. }
  destruct (Z.eqb_spec mode ICR_MODE_FIXED) as [Ef|Ef], (Z.eqb_spec mode ICR_MODE_LOWEST) as [El|El]; cbn [negb orb andb].
  { congruence. }
  3: { split; [|done]. intros i t Hi Et. rewrite andb_false_r. by apply Hy1. }
  - destruct (inject_exactly y vm (LVT_VECTOR val) L (addressed x vm src val hi)) as (H1 & H3 & H4); try done; try apply NoDup_targets.
    { by eapply pool_ok_put. } { apply elem_of_targets. } { intros i Hi. destruct (Hall i Hi) as [t Et]. by rewrite (Hy1 i t Hi Et). }
    split; [|split; [by rewrite H1|intros; by rewrite H3, Ho]]. intros i t Hi Et. rewrite andb_true_r. by apply H4; [|apply Hy1].
  - assert ((if 1 <? Z.of_nat (length L) then take 1 L else L) = take 1 L) as -> by apply (take_all_or_one true L).
    destruct (inject_exactly y vm (LVT_VECTOR val) (take 1 L) (fun i => addressed x vm src val hi i && forallb (fun j => negb (addressed x vm src val hi j)) (seqZ 0 i)))
      as (H1 & H3 & H4); try done.
    { by eapply pool_ok_put. }
    { apply NoDup_ListNoDup. eapply sublist_NoDup; [apply NoDup_ListNoDup, (NoDup_targets (addressed x vm src val hi) (nr_vcpus x))|apply sublist_take]. }
    { intros i. unfold L. rewrite elem_of_first, andb_true_iff. done. }
    { intros i Hi. destruct (Hall i Hi) as [t Et]. by rewrite (Hy1 i t Hi Et). }
    split; [|split; [by rewrite H1|intros; by rewrite H3, Ho]]. intros i t Hi Et. by apply H4; [|apply Hy1].
Qed.

(** Two CPUs; the first sends vector 253 to the second. *)
Definition demo_two : lapic_world :=
  let g := vlapic_init (vlapic_init (replicate 32 (replicate 12 slot_zero)) demo_vm 0) demo_vm 1 in
  let g := on_state (on_state g demo_vm 0 (fun v => write_local v VLAPIC_REG_SVR 511)) demo_vm 1 (fun v => write_local v VLAPIC_REG_SVR 511) in
  mk_lw (on_state g demo_vm 0 (fun v => set_r v VLAPIC_REG_ICR_HI 16777216)) [xv_zero; xv_zero].

Lemma vlapic_icr_correct_witness :
  exists t, vlapic_of (lw_pool (reg_write demo_two demo_vm 0 VLAPIC_REG_ICR_LO 253)) demo_vm 1 = Some t /\ vec_in (va_irr t) 253 = true.
Proof.
  destruct (vlapic_of (lw_pool demo_two) demo_vm 0) as [v|] eqn:Ev; [|vm_compute in Ev; done].
  destruct (vlapic_of (lw_pool demo_two) demo_vm 1) as [t|] eqn:Et; [|vm_compute in Et; done].
  destruct (vlapic_icr_correct demo_two demo_vm 0 253 v) as (H & _ & _).
  { split; [vm_compute; reflexivity|]. apply Forall_forall. assert (forallb (fun row => (length row =? 12)%nat) (lw_pool demo_two) = true) as Hb by (vm_compute; reflexivity).
    rewrite forallb_forall in Hb. intros row Hr. apply Nat.eqb_eq, Hb. by apply list_elem_of_In. }
  { vm_compute. done. } { vm_compute. done. } { lia. }
  { intros i Hi. change (nr_vcpus demo_two) with 2 in Hi. assert (i = 0 \/ i = 1) as [->| ->] by lia; [rewrite Ev|rewrite Et]; done. }
  { done. }
  eexists. split; [apply (H 1 t); [vm_compute; done|done]|]. vm_compute in Ev. injection Ev as <-. vm_compute in Et. injection Et as <-. vm_compute. reflexivity.
Defined.

(** The version register is set up to say version 20 with seven local vectors, and reads as 0. *)
Lemma version_reads_zero vcpu_id : reg (init_state vcpu_id) VLAPIC_REG_VERSION = 393236 /\ (reg_read (init_state vcpu_id) VLAPIC_REG_VERSION).1 = 0.
Proof. done. Qed.

(** A vector in service gives a priority of its class without the shift by four: the priority
    register says 14 while vector 236 is served, and a task priority of 32 hides it. *)
Lemma ppr_not_scaled :
  reg (accept_state (init_state 0) 236 false) VLAPIC_REG_PPR = 14 /\
  reg (write_local (accept_state (init_state 0) 236 false) VLAPIC_REG_TPR 32) VLAPIC_REG_PPR = 32.
Proof. vm_compute. done. Qed.

(** After the machine is gone nobody finds its APICs, and those of others are untouched. *)
Lemma vlapic_destroy_spec g vm :
  pool_ok g -> in_slots vm = true ->
  (forall vm' j, vr_slot vm' = vr_slot vm -> vlapic_of (vlapic_destroy g vm) vm' j = None) /\
  (forall vm' j, vr_slot vm' <> vr_slot vm -> vlapic_of (vlapic_destroy g vm) vm' j = vlapic_of g vm' j).
Proof.
  intros Hg Hs. unfold vlapic_destroy. rewrite Hs. cbn [negb].
  assert (forall vm' i d, vr_slot vm' <> vr_slot vm -> forall g j, in_slots vm' = true -> slot_at (slot_set g vm i d) vm' j = slot_at g vm' j) as Hne.
  { intros vm' i d Hne g' j Hs'. unfold slot_at, slot_set. unfold in_slots in *. rewrite aget_aset_ne by lia. done. }
  pose proof (for_range_ind (fun k g' => pool_ok g' /\ (forall j, 0 <= j < k -> slot_at g' vm j = slot_zero) /\
    forall vm' j, vr_slot vm' <> vr_slot vm -> in_slots vm' = true -> slot_at g' vm' j = slot_at g vm' j) 0 12 (fun g i => slot_set g vm i slot_zero) g) as H.
  destruct H as (_ & Hz & Ho); [lia|split; [done|split; [lia|done]]|..].
  - intros i g' Hi (Hg' & Hz & Ho). split; [by apply pool_ok_set|]. split.
    + intros j Hj. rewrite vslot_at_set by (done || lia). case_if; [done|apply Hz; lia].
    + intros vm' j Hv Hs'. rewrite Hne by done. by apply Ho.
  - set (g' := for_range _ _ _ _) in *. split; intros vm' j Hv; unfold vlapic_of; destruct (in_slots vm') eqn:Hs'; cbn [negb]; try done.
    + assert (slot_at g' vm' j = slot_zero) as ->.
      { unfold slot_at. rewrite Hv. pose proof (Z.mod_pos_bound j 12 ltac:(lia)) as Hj. pose proof (Hz (j mod 12) Hj) as E.
        unfold slot_at in E. by rewrite (Z.mod_small (j mod 12)) in E by lia. }
      unfold in_slots in Hs'. cbn [vs_owner slot_zero]. case_if; [done|lia].
    + by rewrite Ho.
Qed.
