(* ===== verification/Vgic3.v ===== *)
(** * The virtual GICv3 of an aarch64 machine: kernel/vmm/vdev/vgicv3

    The distributor holds the shared interrupts (32..1023), a redistributor per virtual CPU
    the private ones (0..15 from other CPUs, 16..31 from its own devices).  Each interrupt is
    enabled or not, waiting or not, active or not.  The guest acknowledges and ends interrupts
    at the hardware, which knows only those in the list registers: before a CPU enters the
    guest [vmm_vgic3_lr_switch_in] takes the list registers from the CPU that used them last
    and [vmm_vgic3_sync_entry] loads what can be delivered; after it left, [vmm_vgic3_sync_exit]
    reads back what the guest did.  [lr] is the copy of the list registers, 0 for an empty one.

    The list registers and the three other registers used here are the state of the hardware
    ([ich]): [gicv3_read_elrsr] has a bit for every empty list register, as in the GICv3
    architecture, and [guest_ack] and [guest_eoi] are what the guest can do to them.

    Arrays whose index the code checks are functions.  An access behind the end of [prio0] is
    [None]. *)

From stdpp Require Import options.
From Stdlib Require Import Lia ZifyBool.
From S2P Require Import Prelude.

Abbreviation VGIC3_MAX_IRQS := 1024.
Abbreviation VGIC3_MAX_WORDS := 32.
Abbreviation VGIC3_MAX_VCPUS := 12.
Abbreviation VGIC3_MAX_LRS := 16.
Abbreviation VGIC3D_REG_SIZE := 65536.
Abbreviation VGIC3R_STRIDE := 131072.
Abbreviation VGIC3R_SGI_OFF := 65536.
Abbreviation VGIC3_DEFAULT_PRIO := 160.
Abbreviation VGIC3_MAX_LR_CPUS := 8.
Abbreviation VIRQ_VTIMER := 27.
Abbreviation SGI_MASK := 65535.
Abbreviation GICR_WAKER_PROCESSOR_SLEEP := 2.
Abbreviation ICH_HCR_EN := 1.
Abbreviation ICH_HCR_UIEN := 2.
Abbreviation ICH_HCR_TDIR := 16384.
Abbreviation ICH_LR_STATE_SHIFT := 62.
Abbreviation ICH_LR_STATE_MASK := 13835058055282163712.
Abbreviation ICH_LR_ST_PENDING := 1.
Abbreviation ICH_LR_ST_ACTIVE := 2.
Abbreviation ICH_LR_GROUP1 := 1152921504606846976.
Abbreviation ICH_LR_PRIO_SHIFT := 48.
Abbreviation ICH_LR_VINTID_MASK := 4294967295.
Abbreviation GIC_RWP := 2147483648.

(** ** State *)

Record vgic3_vcpu_t := mk_v3c {
  enabled0 : Z;
  pending0 : Z;
  active0 : Z;
  sgi_sources : Z -> Z;
  prio0 : Z -> Z;
  rd_ctlr : Z;
  rd_waker : Z;
  rd_propbaser : Z;
  rd_pendbaser : Z;
  sgi_igroupr0 : Z;
  sgi_igrpmodr0 : Z;
  sgi_icfgr : Z -> Z;
  lr : Z -> Z;
  ich_vmcr : Z;
  ich_ap1r0 : Z;
}.

Record vgic3_t := mk_v3 {
  nr_vcpus : Z;
  dist_enabled : Z;
  enabled : Z -> Z;
  spi_pending : Z -> Z -> Z;
  spi_active : Z -> Z -> Z;
  dist_regs : Z -> Z;
  vcpu : Z -> vgic3_vcpu_t;
}.

(** The hardware of one physical CPU; [hw_nr_lrs] list registers are there. *)
Record ich := mk_ich { hw_lr : Z -> Z; hw_vmcr : Z; hw_ap1r0 : Z; hw_hcr : Z; hw_nr_lrs : Z }.

Definition set_irqs (c : vgic3_vcpu_t) (e p a : Z) : vgic3_vcpu_t :=
  mk_v3c e p a (sgi_sources c) (prio0 c) (rd_ctlr c) (rd_waker c) (rd_propbaser c) (rd_pendbaser c) (sgi_igroupr0 c)
    (sgi_igrpmodr0 c) (sgi_icfgr c) (lr c) (ich_vmcr c) (ich_ap1r0 c).
Definition set_sources (c : vgic3_vcpu_t) (irq x : Z) : vgic3_vcpu_t :=
  mk_v3c (enabled0 c) (pending0 c) (active0 c) (upd (sgi_sources c) irq x) (prio0 c) (rd_ctlr c) (rd_waker c) (rd_propbaser c)
    (rd_pendbaser c) (sgi_igroupr0 c) (sgi_igrpmodr0 c) (sgi_icfgr c) (lr c) (ich_vmcr c) (ich_ap1r0 c).
Definition set_prio0 (c : vgic3_vcpu_t) (p : Z -> Z) : vgic3_vcpu_t :=
  mk_v3c (enabled0 c) (pending0 c) (active0 c) (sgi_sources c) p (rd_ctlr c) (rd_waker c) (rd_propbaser c)
    (rd_pendbaser c) (sgi_igroupr0 c) (sgi_igrpmodr0 c) (sgi_icfgr c) (lr c) (ich_vmcr c) (ich_ap1r0 c).
Definition set_rd (c : vgic3_vcpu_t) (ctlr waker propbaser pendbaser : Z) : vgic3_vcpu_t :=
  mk_v3c (enabled0 c) (pending0 c) (active0 c) (sgi_sources c) (prio0 c) ctlr waker propbaser pendbaser (sgi_igroupr0 c)
    (sgi_igrpmodr0 c) (sgi_icfgr c) (lr c) (ich_vmcr c) (ich_ap1r0 c).
Definition set_sgi (c : vgic3_vcpu_t) (igroupr0 igrpmodr0 : Z) (icfgr : Z -> Z) : vgic3_vcpu_t :=
  mk_v3c (enabled0 c) (pending0 c) (active0 c) (sgi_sources c) (prio0 c) (rd_ctlr c) (rd_waker c) (rd_propbaser c) (rd_pendbaser c)
    igroupr0 igrpmodr0 icfgr (lr c) (ich_vmcr c) (ich_ap1r0 c).
Definition set_lr (c : vgic3_vcpu_t) (i x : Z) : vgic3_vcpu_t :=
  mk_v3c (enabled0 c) (pending0 c) (active0 c) (sgi_sources c) (prio0 c) (rd_ctlr c) (rd_waker c) (rd_propbaser c) (rd_pendbaser c)
    (sgi_igroupr0 c) (sgi_igrpmodr0 c) (sgi_icfgr c) (upd (lr c) i x) (ich_vmcr c) (ich_ap1r0 c).
Definition set_ich (c : vgic3_vcpu_t) (vmcr ap1r0 : Z) : vgic3_vcpu_t :=
  mk_v3c (enabled0 c) (pending0 c) (active0 c) (sgi_sources c) (prio0 c) (rd_ctlr c) (rd_waker c) (rd_propbaser c) (rd_pendbaser c)
    (sgi_igroupr0 c) (sgi_igrpmodr0 c) (sgi_icfgr c) (lr c) vmcr ap1r0.

Definition set_vcpu (g : vgic3_t) (v : Z) (c : vgic3_vcpu_t) : vgic3_t :=
  mk_v3 (nr_vcpus g) (dist_enabled g) (enabled g) (spi_pending g) (spi_active g) (dist_regs g) (upd (vcpu g) v c).
Definition set_spi (g : vgic3_t) (e : Z -> Z) (p a : Z -> Z -> Z) : vgic3_t :=
  mk_v3 (nr_vcpus g) (dist_enabled g) e p a (dist_regs g) (vcpu g).
Definition set_dist (g : vgic3_t) (en : Z) (regs : Z -> Z) : vgic3_t :=
  mk_v3 (nr_vcpus g) en (enabled g) (spi_pending g) (spi_active g) regs (vcpu g).
Definition upd2 (f : Z -> Z -> Z) (i j x : Z) : Z -> Z -> Z := upd f i (upd (f i) j x).

(** ** Helpers *)

Definition valid_vcpu (g : vgic3_t) (v : Z) : bool := v <? nr_vcpus g.
Definition valid_irq (irq : Z) : bool := irq <? VGIC3_MAX_IRQS.
Definition irq_bit (irq : Z) : Z := u32 (Z.shiftl 1 (Z.land irq 31)).

(** ** Hardware *)

Definition lr_vintid (lr : Z) : Z := u32 (Z.land lr ICH_LR_VINTID_MASK).
Definition lr_state (lr : Z) : Z := u32 (Z.land (Z.shiftr lr ICH_LR_STATE_SHIFT) 3).

Definition gicv3_write_lr (h : ich) (i x : Z) : ich :=
  if (i <? 0) || (16 <=? i) then h else mk_ich (upd (hw_lr h) i x) (hw_vmcr h) (hw_ap1r0 h) (hw_hcr h) (hw_nr_lrs h).
Definition gicv3_read_lr (h : ich) (i : Z) : Z := if (0 <=? i) && (i <? 16) then hw_lr h i else 0.

(** A bit for every list register without an interrupt. *)
Definition gicv3_read_elrsr (h : ich) : Z :=
  for_range 0 (hw_nr_lrs h) (fun w i => if lr_state (hw_lr h i) =? 0 then Z.lor w (Z.shiftl 1 i) else w) 0.

(** The guest acknowledges the interrupt in a list register, and ends it. *)
Definition with_state (lr st : Z) : Z := Z.lor (Z.ldiff lr ICH_LR_STATE_MASK) (Z.shiftl st ICH_LR_STATE_SHIFT).
Definition guest_ack (h : ich) (i : Z) : ich :=
  if lr_state (hw_lr h i) =? ICH_LR_ST_PENDING then gicv3_write_lr h i (with_state (hw_lr h i) ICH_LR_ST_ACTIVE) else h.
Definition guest_eoi (h : ich) (i : Z) : ich :=
  if Z.testbit (lr_state (hw_lr h i)) 1 then gicv3_write_lr h i (with_state (hw_lr h i) (Z.land (lr_state (hw_lr h i)) 1)) else h.

(** [_gicv3.nr_lrs > VGIC3_MAX_LRS ? VGIC3_MAX_LRS : _gicv3.nr_lrs] *)
Definition nr_lrs (h : ich) : Z := if VGIC3_MAX_LRS <? hw_nr_lrs h then VGIC3_MAX_LRS else hw_nr_lrs h.

Definition vmm_vgic3_hw_init (h : ich) : ich :=
  mk_ich (hw_lr h) (hw_vmcr h) (hw_ap1r0 h) (Z.ldiff (Z.lor (hw_hcr h) (Z.lor ICH_HCR_EN ICH_HCR_TDIR)) ICH_HCR_UIEN) (hw_nr_lrs h).

(** ** List registers *)

Definition vgic3_lr_value (g : vgic3_t) (v irq : Z) : Z :=
  let prio :=
    if irq <? 32 then prio0 (vcpu g v) irq
    else if irq <? VGIC3D_REG_SIZE - 1024 then dist_regs g (1024 + irq) else VGIC3_DEFAULT_PRIO in
  Z.lor (Z.lor (Z.lor (Z.shiftl ICH_LR_ST_PENDING ICH_LR_STATE_SHIFT) ICH_LR_GROUP1) (Z.shiftl prio ICH_LR_PRIO_SHIFT)) (Z.land irq ICH_LR_VINTID_MASK).

Definition lr_has_irq (h : ich) (g : vgic3_t) (v irq : Z) : bool :=
  existsb (fun i => negb (lr (vcpu g v) i =? 0) && (lr_vintid (lr (vcpu g v) i) =? irq)) (seqZ 0 (hw_nr_lrs h `min` VGIC3_MAX_LRS)).
Definition lr_empty_slot (h : ich) (g : vgic3_t) (v : Z) : Z :=
  match List.find (fun i => lr (vcpu g v) i =? 0) (seqZ 0 (nr_lrs h)) with Some i => i | None => -1 end.

(** ** Initialisation *)

Definition vcpu_reset : vgic3_vcpu_t :=
  mk_v3c SGI_MASK 0 0 (fun _ => 0) (fun _ => VGIC3_DEFAULT_PRIO) 0 GICR_WAKER_PROCESSOR_SLEEP 0 0 4294967295 0 (fun _ => 0) (fun _ => 0)
    (Z.lor (Z.shiftl 255 24) (Z.shiftl 1 1)) 0.
Definition vmm_vgic3_init (n : Z) : vgic3_t :=
  let n := if n <? 1 then 1 else n in
  let n := if VGIC3_MAX_VCPUS <? n then VGIC3_MAX_VCPUS else n in
  mk_v3 n 0 (fun _ => 0) (fun _ _ => 0) (fun _ _ => 0) (fun _ => 0) (fun _ => vcpu_reset).

(** ** Enabled, waiting, active *)

Definition vmm_vgic3_set_dist_enabled (g : vgic3_t) (en : bool) : vgic3_t := set_dist g (if en then 1 else 0) (dist_regs g).

Definition vmm_vgic3_set_sgi_pending (g : vgic3_t) (v source irq : Z) : vgic3_t :=
  if negb (valid_vcpu g v) || (16 <=? irq) then g
  else
    let source := if VGIC3_MAX_VCPUS <=? source then 0 else source in
    let c := vcpu g v in
    let c := set_sources c irq (Z.lor (sgi_sources c irq) (u16 (Z.shiftl 1 source))) in
    set_vcpu g v (set_irqs c (enabled0 c) (Z.lor (pending0 c) (irq_bit irq)) (active0 c)).

Definition vmm_vgic3_set_pending (g : vgic3_t) (v irq : Z) : vgic3_t :=
  if negb (valid_irq irq) || negb (valid_vcpu g v) then g
  else if irq <? 16 then vmm_vgic3_set_sgi_pending g v 0 irq
  else if irq <? 32 then
    let c := vcpu g v in set_vcpu g v (set_irqs c (enabled0 c) (Z.lor (pending0 c) (irq_bit irq)) (active0 c))
  else set_spi g (enabled g) (upd2 (spi_pending g) v (irq / 32) (Z.lor (spi_pending g v (irq / 32)) (irq_bit irq))) (spi_active g).

Definition vmm_vgic3_inject_timer (g : vgic3_t) (v : Z) : vgic3_t := vmm_vgic3_set_pending g v VIRQ_VTIMER.

Definition vmm_vgic3_set_enabled (g : vgic3_t) (v irq : Z) (en : bool) : vgic3_t :=
  if negb (valid_irq irq) || (irq <? 16) then g
  else if irq <? 32 then
    if negb (valid_vcpu g v) then g
    else
      let c := vcpu g v in
      set_vcpu g v (set_irqs c (if en then Z.lor (enabled0 c) (irq_bit irq) else Z.ldiff (enabled0 c) (irq_bit irq)) (pending0 c) (active0 c))
  else if en then set_spi g (upd (enabled g) (irq / 32) (Z.lor (enabled g (irq / 32)) (irq_bit irq))) (spi_pending g) (spi_active g)
  else set_spi g (upd (enabled g) (irq / 32) (Z.ldiff (enabled g (irq / 32)) (irq_bit irq))) (spi_pending g) (spi_active g).

Definition vmm_vgic3_enabled_word (g : vgic3_t) (v word : Z) : Z :=
  if VGIC3_MAX_WORDS <=? word then 0
  else if word =? 0 then if valid_vcpu g v then Z.lor (enabled0 (vcpu g v)) SGI_MASK else SGI_MASK
  else enabled g word.
Definition vmm_vgic3_pending_word (g : vgic3_t) (v word : Z) : Z :=
  if (VGIC3_MAX_WORDS <=? word) || negb (valid_vcpu g v) then 0
  else if word =? 0 then pending0 (vcpu g v) else spi_pending g v word.
Definition vmm_vgic3_active_word (g : vgic3_t) (v word : Z) : Z :=
  if (VGIC3_MAX_WORDS <=? word) || negb (valid_vcpu g v) then 0
  else if word =? 0 then active0 (vcpu g v) else spi_active g v word.

Definition vmm_vgic3_clear_pending_word (g : vgic3_t) (v word bits : Z) : vgic3_t :=
  if (VGIC3_MAX_WORDS <=? word) || negb (valid_vcpu g v) then g
  else if word =? 0 then let c := vcpu g v in set_vcpu g v (set_irqs c (enabled0 c) (Z.ldiff (pending0 c) bits) (active0 c))
  else set_spi g (enabled g) (upd2 (spi_pending g) v word (Z.ldiff (spi_pending g v word) bits)) (spi_active g).
Definition vmm_vgic3_clear_active_word (g : vgic3_t) (v word bits : Z) : vgic3_t :=
  if (VGIC3_MAX_WORDS <=? word) || negb (valid_vcpu g v) then g
  else if word =? 0 then let c := vcpu g v in set_vcpu g v (set_irqs c (enabled0 c) (pending0 c) (Z.ldiff (active0 c) bits))
  else set_spi g (enabled g) (spi_pending g) (upd2 (spi_active g) v word (Z.ldiff (spi_active g v word) bits)).

Definition set_active (g : vgic3_t) (v irq : Z) : vgic3_t :=
  if irq <? 32 then let c := vcpu g v in set_vcpu g v (set_irqs c (enabled0 c) (pending0 c) (Z.lor (active0 c) (irq_bit irq)))
  else set_spi g (enabled g) (spi_pending g) (upd2 (spi_active g) v (irq / 32) (Z.lor (spi_active g v (irq / 32)) (irq_bit irq))).
Definition clear_active (g : vgic3_t) (v irq : Z) : vgic3_t :=
  if irq <? 32 then let c := vcpu g v in set_vcpu g v (set_irqs c (enabled0 c) (pending0 c) (Z.ldiff (active0 c) (irq_bit irq)))
  else set_spi g (enabled g) (spi_pending g) (upd2 (spi_active g) v (irq / 32) (Z.ldiff (spi_active g v (irq / 32)) (irq_bit irq))).
Definition clear_pending (g : vgic3_t) (v irq : Z) : vgic3_t :=
  if irq <? 32 then
    let c := vcpu g v in
    let c := set_irqs c (enabled0 c) (Z.ldiff (pending0 c) (irq_bit irq)) (active0 c) in
    set_vcpu g v (if irq <? 16 then set_sources c irq 0 else c)
  else set_spi g (enabled g) (upd2 (spi_pending g) v (irq / 32) (Z.ldiff (spi_pending g v (irq / 32)) (irq_bit irq))) (spi_active g).

(** [for (i = 0; i < n; i++)] up to the list register with the interrupt *)
Definition deactivates (g : vgic3_t) (v irq i : Z) : bool :=
  let x := lr (vcpu g v) i in negb (x =? 0) && (lr_vintid x =? irq) && negb (Z.land (lr_state x) ICH_LR_ST_ACTIVE =? 0).
Definition vmm_vgic3_deactivate (g : vgic3_t) (h : ich) (v irq : Z) : vgic3_t * ich :=
  if negb (valid_irq irq) || negb (valid_vcpu g v) then (g, h)
  else
    match List.find (deactivates g v irq) (seqZ 0 (nr_lrs h)) with
    | Some i =>
        let x := lr (vcpu g v) i in
        let '(g, h) :=
          if negb (Z.land (lr_state x) ICH_LR_ST_PENDING =? 0) then
            let x := Z.lor (Z.ldiff x ICH_LR_STATE_MASK) (Z.shiftl ICH_LR_ST_PENDING ICH_LR_STATE_SHIFT) in
            let g := set_vcpu g v (set_lr (vcpu g v) i x) in
            let g :=
              if irq <? 32 then let c := vcpu g v in set_vcpu g v (set_irqs c (enabled0 c) (Z.lor (pending0 c) (irq_bit irq)) (active0 c))
              else set_spi g (enabled g) (upd2 (spi_pending g) v (irq / 32) (Z.lor (spi_pending g v (irq / 32)) (irq_bit irq))) (spi_active g) in
            (g, gicv3_write_lr h i x)
          else (set_vcpu g v (set_lr (vcpu g v) i 0), gicv3_write_lr h i 0) in
        (clear_active g v irq, h)
    | None => (clear_active g v irq, h)
    end.

(** ** Entry and exit *)

(** [while (w)] over the bits of a word, lowest first; [next] is the index of the lowest bit
    and the rest.  [inr] leaves the loop. *)
Fixpoint each_bit {S} (fuel : nat) (next : Z -> Z * Z) (body : S -> Z -> S + S) (w : Z) (s : S) : S + S :=
  match fuel with
  | O => inl s
  | Datatypes.S fuel =>
      if w =? 0 then inl s
      else let '(i, w) := next w in match body s i with inl s => each_bit fuel next body w s | inr s => inr s end
  end.
Definition both {S} (r : S + S) : S := match r with inl s => s | inr s => s end.

(** [__builtin_ctz(act)] and [act &= act - 1] *)
Definition builtin_ctz (x : Z) : Z := bit_index 32 (Z.land x (- x)) 0.
Definition ctz_next (act : Z) : Z * Z := (builtin_ctz act, Z.land act (u32 (act - 1))).
(** [bit = ready & (~ready + 1u)], its number and [ready &= ~bit] *)
Definition low_next (ready : Z) : Z * Z :=
  let bit := Z.land ready (u32 (u32 (Z.lnot ready) + 1)) in (bit_index 32 bit 0, Z.ldiff ready bit).

Definition load_lr (v : Z) (s : vgic3_t * ich) (slot x : Z) : vgic3_t * ich :=
  (set_vcpu s.1 v (set_lr (vcpu s.1 v) slot x), gicv3_write_lr s.2 slot x).

Definition load_active (v : Z) (s : vgic3_t * ich) (irq : Z) : (vgic3_t * ich) + (vgic3_t * ich) :=
  if lr_has_irq s.2 s.1 v irq then inl s
  else
    let slot := lr_empty_slot s.2 s.1 v in
    if slot <? 0 then inr s
    else
      let x := vgic3_lr_value s.1 v irq in
      inl (load_lr v s slot (Z.lor (Z.ldiff x ICH_LR_STATE_MASK) (Z.shiftl ICH_LR_ST_ACTIVE ICH_LR_STATE_SHIFT))).

Definition load_pending (v : Z) (s : vgic3_t * ich) (irq : Z) : (vgic3_t * ich) + (vgic3_t * ich) :=
  if lr_has_irq s.2 s.1 v irq then inl s
  else
    let slot := lr_empty_slot s.2 s.1 v in
    if slot <? 0 then inr s
    else
      let '(g, h) := load_lr v s slot (vgic3_lr_value s.1 v irq) in
      let c := vcpu g v in
      inl (if irq <? 16 then set_vcpu g v (set_sources (set_irqs c (enabled0 c) (Z.ldiff (pending0 c) (irq_bit irq)) (active0 c)) irq 0) else g, h).

Definition reclaim (v : Z) (h : ich) (g : vgic3_t) : vgic3_t :=
  let elrsr := gicv3_read_elrsr h in
  for_range 0 (nr_lrs h) (fun g i => if Z.land (Z.shiftr elrsr i) 1 =? 0 then g else set_vcpu g v (set_lr (vcpu g v) i 0)) g.
Definition reload (v : Z) (s : vgic3_t * ich) : vgic3_t * ich :=
  for_range 0 VGIC3_MAX_WORDS
    (fun s word => both (each_bit 33 ctz_next (fun s i => load_active v s (word * 32 + i)) (vmm_vgic3_active_word s.1 v word) s)) s.
Definition ready_word (g : vgic3_t) (v word : Z) : Z :=
  Z.ldiff (Z.land (vmm_vgic3_pending_word g v word) (vmm_vgic3_enabled_word g v word)) (vmm_vgic3_active_word g v word).
Definition queue_word (v : Z) (s : vgic3_t * ich) (word : Z) : (vgic3_t * ich) + (vgic3_t * ich) :=
  each_bit 33 low_next (fun s i => load_pending v s (u32 (word * 32 + i))) (ready_word s.1 v word) s.
Definition queue (v : Z) (s : vgic3_t * ich) : vgic3_t * ich :=
  both (for_range 0 VGIC3_MAX_WORDS (fun s word => match s with inl s => queue_word v s word | inr s => inr s end) (inl s)).

Definition vmm_vgic3_sync_entry (g : vgic3_t) (h : ich) (v : Z) : vgic3_t * ich :=
  if negb (valid_vcpu g v) then (g, h) else queue v (reload v (reclaim v h g, h)).

Definition exit_lr (v : Z) (h : ich) (g : vgic3_t) (i : Z) : vgic3_t :=
  let prev := lr (vcpu g v) i in
  if prev =? 0 then g
  else
    let irq := lr_vintid prev in
    if negb (Z.land (Z.shiftr (gicv3_read_elrsr h) i) 1 =? 0) then
      let g := clear_active g v irq in set_vcpu g v (set_lr (vcpu g v) i 0)
    else
      let hw := gicv3_read_lr h i in
      let g :=
        if negb (Z.land (lr_state hw) ICH_LR_ST_ACTIVE =? 0) then set_active (if 16 <=? irq then clear_pending g v irq else g) v irq else g in
      set_vcpu g v (set_lr (vcpu g v) i hw).
Definition vmm_vgic3_sync_exit (g : vgic3_t) (h : ich) (v : Z) : vgic3_t :=
  if negb (valid_vcpu g v) then g else for_range 0 (nr_lrs h) (exit_lr v h) g.

(** ** One physical CPU

    Its list registers belong to one virtual CPU, given by its machine and its number there;
    [g_lr_owner_vcpu] is the entry of this CPU. *)

Record pcpu := mk_pcpu { vms : Z -> vgic3_t; hw : ich; g_lr_owner_vcpu : option (Z * Z); cpu_id : Z }.

(** A CPU whose list registers are taken away: what the guest did not acknowledge of the
    interrupts from other CPUs waits again. *)
Definition put_back (v : Z) (g : vgic3_t) (i : Z) : vgic3_t :=
  let c := vcpu g v in
  let x := lr c i in
  if x =? 0 then g
  else
    let irq := lr_vintid x in
    if (irq <? 16) && negb (Z.land (lr_state x) ICH_LR_ST_PENDING =? 0) && (Z.land (lr_state x) ICH_LR_ST_ACTIVE =? 0) then
      set_vcpu g v (set_irqs c (enabled0 c) (Z.lor (pending0 c) (irq_bit irq)) (active0 c))
    else g.
Definition switch_out (g : vgic3_t) (h : ich) (v : Z) : vgic3_t * ich :=
  let g := vmm_vgic3_sync_exit g h v in
  let g := set_vcpu g v (set_ich (vcpu g v) (hw_vmcr h) (hw_ap1r0 h)) in
  let g := for_range 0 (nr_lrs h) (put_back v) g in
  (g, for_range 0 (nr_lrs h) (fun h i => gicv3_write_lr h i 0) h).
Definition load_ich (h : ich) (c : vgic3_vcpu_t) : ich := mk_ich (hw_lr h) (ich_vmcr c) (ich_ap1r0 c) (hw_hcr h) (hw_nr_lrs h).

(** The list registers change hands. *)
Definition take_lrs (s : pcpu) (m v : Z) : pcpu :=
  let s :=
    match g_lr_owner_vcpu s with
    | Some (pm, pv) => let '(g, h) := switch_out (vms s pm) (hw s) pv in mk_pcpu (upd (vms s) pm g) h (g_lr_owner_vcpu s) (cpu_id s)
    | None => s
    end in
  mk_pcpu (vms s) (load_ich (hw s) (vcpu (vms s m) v)) (Some (m, v)) (cpu_id s).
Definition vmm_vgic3_lr_switch_in (s : pcpu) (m v : Z) : pcpu :=
  let s := if (cpu_id s <? VGIC3_MAX_LR_CPUS) && negb (bool_decide (g_lr_owner_vcpu s = Some (m, v))) then take_lrs s m v else s in
  let '(g, h) := vmm_vgic3_sync_entry (vms s m) (hw s) v in
  mk_pcpu (upd (vms s) m g) h (g_lr_owner_vcpu s) (cpu_id s).

(** ** An interrupt from another CPU: [ICC_SGI1R_EL1], kernel/vmm/aarch64/el2_run.c

    [nr] is the number of CPUs of the machine. *)
Definition sgi_target (self tlist : Z) (irm : bool) (i : Z) : bool := if irm then negb (i =? self) else negb (Z.land (Z.shiftr tlist i) 1 =? 0).
Definition handle_sgi1r (g : vgic3_t) (nr self val : Z) : vgic3_t :=
  let intid := Z.land (Z.shiftr val 24) 15 in
  let tlist := Z.land val 65535 in
  let aff1 := Z.land (Z.shiftr val 16) 255 in
  let aff2 := Z.land (Z.shiftr val 32) 255 in
  let aff3 := Z.land (Z.shiftr val 48) 255 in
  let irm := negb (Z.land (Z.shiftr val 40) 1 =? 0) in
  let rs := Z.land (Z.shiftr val 44) 15 in
  if 16 <=? intid then g
  else if negb (aff1 =? 0) || negb (aff2 =? 0) || negb (aff3 =? 0) || negb (rs =? 0) then g
  else for_range 0 nr (fun g i => if sgi_target self tlist irm i then vmm_vgic3_set_sgi_pending g i self intid else g) g.

(** ** The distributor: vgicd3.c *)

Abbreviation GICD_CTLR := 0.
Abbreviation GICD_TYPER := 4.
Abbreviation GICD_IIDR := 8.
Abbreviation GICD_ISENABLER := 256.
Abbreviation GICD_ICENABLER := 384.
Abbreviation GICD_ISPENDR := 512.
Abbreviation GICD_ICPENDR := 640.
Abbreviation GICD_ISACTIVER := 768.
Abbreviation GICD_ICACTIVER := 896.
Abbreviation GICD_ITARGETSR := 2048.
Abbreviation GICD_PIDR2 := 65512.

Definition word_index (off base : Z) : option Z := if (off <? base) || (base + 128 <=? off) then None else Some ((off - base) / 4).
Definition reg_read (g : vgic3_t) (off size : Z) : Z :=
  for_range 0 size (fun value i => if u32 (off + i) <? VGIC3D_REG_SIZE then Z.lor value (Z.shiftl (dist_regs g (u32 (off + i))) (8 * i)) else value) 0.
Definition reg_write (g : vgic3_t) (off size value : Z) : vgic3_t :=
  for_range 0 size (fun g i => if u32 (off + i) <? VGIC3D_REG_SIZE then set_dist g (dist_enabled g) (upd (dist_regs g) (u32 (off + i)) (u8 (Z.shiftr value (8 * i)))) else g) g.

(** [word_index(off, a, &word) || word_index(off, b, &word)] *)
Definition word_of (off a b : Z) : option Z := match word_index off a with Some w => Some w | None => word_index off b end.

Definition vgic3d_read (g : vgic3_t) (off size v : Z) : Z :=
  if off =? GICD_CTLR then Z.ldiff (reg_read g GICD_CTLR size) GIC_RWP
  else if off =? GICD_TYPER then Z.lor (Z.lor (Z.land (VGIC3_MAX_IRQS / 32 - 1) 31) (Z.shiftl (Z.land (u32 (nr_vcpus g - 1)) 7) 5)) (Z.shiftl 15 19)
  else if off =? GICD_IIDR then 33686587
  else if off =? GICD_PIDR2 then 48
  else
    match word_of off GICD_ISENABLER GICD_ICENABLER with
    | Some w => vmm_vgic3_enabled_word g v w
    | None =>
        match word_of off GICD_ISPENDR GICD_ICPENDR with
        | Some w => vmm_vgic3_pending_word g v w
        | None =>
            match word_of off GICD_ISACTIVER GICD_ICACTIVER with
            | Some w => vmm_vgic3_active_word g v w
            | None => if (GICD_ITARGETSR <=? off) && (off <? GICD_ITARGETSR + 1024) then 0 else reg_read g (u32 off) size
            end
        end
    end.

(** [for (bit = 0; bit < 32; bit++) if (value32 & (1u << bit)) ...] *)
Definition for_bits {S} (value : Z) (f : S -> Z -> S) (s : S) : S :=
  for_range 0 32 (fun s bit => if Z.land value (u32 (Z.shiftl 1 bit)) =? 0 then s else f s bit) s.

Definition vgic3d_write (g : vgic3_t) (off size value v : Z) : vgic3_t :=
  let value32 := u32 value in
  if off =? GICD_CTLR then
    let ctlr := Z.ldiff value32 GIC_RWP in
    reg_write (vmm_vgic3_set_dist_enabled g (negb (Z.land ctlr 1 =? 0))) GICD_CTLR size ctlr
  else
    match word_index off GICD_ISENABLER with
    | Some w => for_bits value32 (fun g bit => vmm_vgic3_set_enabled g v (w * 32 + bit) true) g
    | None =>
    match word_index off GICD_ICENABLER with
    | Some w => for_bits value32 (fun g bit => vmm_vgic3_set_enabled g v (w * 32 + bit) false) g
    | None =>
    match word_index off GICD_ISPENDR with
    | Some w => for_bits value32 (fun g bit => vmm_vgic3_set_pending g v (w * 32 + bit)) g
    | None =>
    match word_index off GICD_ICPENDR with
    | Some w => vmm_vgic3_clear_pending_word g v w value32
    | None =>
    match word_index off GICD_ICACTIVER with
    | Some w => vmm_vgic3_clear_active_word g v w value32
    | None =>
    match word_index off GICD_ISACTIVER with
    | Some w =>
        for_bits value32 (fun g bit => set_spi g (enabled g) (spi_pending g)
          (upd2 (spi_active g) v w (Z.lor (spi_active g v w) (u32 (Z.shiftl 1 bit))))) g
    | None => if (GICD_ITARGETSR <=? off) && (off <? GICD_ITARGETSR + 1024) then g else reg_write g (u32 off) size value
    end end end end end end.

(** ** The redistributors: vgicr3.c *)

Definition redist_cpu (off : Z) (g : vgic3_t) (v : Z) : Z :=
  let cpu := u32 (off / VGIC3R_STRIDE) in
  if cpu <? nr_vcpus g then cpu else if v <? nr_vcpus g then v else 0.

(** [prio0[i]], an array of 32 *)
Definition prio_get (c : vgic3_vcpu_t) (i : Z) : option Z := if i <? 32 then Some (prio0 c i) else None.
Definition prio_set (c : vgic3_vcpu_t) (i x : Z) : option vgic3_vcpu_t := if i <? 32 then Some (set_prio0 c (upd (prio0 c) i x)) else None.
Definition read_prio (c : vgic3_vcpu_t) (n : Z) : option Z :=
  for_range 0 4 (fun v i => v ← v; p ← prio_get c (n * 4 + i); Some (Z.lor v (Z.shiftl p (8 * i)))) (Some 0).
Definition write_prio (c : vgic3_vcpu_t) (n value : Z) : option vgic3_vcpu_t :=
  for_range 0 4 (fun c i => c ← c; prio_set c (n * 4 + i) (u8 (Z.shiftr value (8 * i)))) (Some c).
Definition is_prio (r : Z) : bool := existsb (Z.eqb r) [1024; 1028; 1032; 1036; 1040; 1044; 1048; 1052].

Definition vgic3r_read (g : vgic3_t) (off v : Z) : option Z :=
  let word := Z.land off (VGIC3R_STRIDE - 1) in
  let cpu := redist_cpu off g v in
  let c := vcpu g cpu in
  if VGIC3R_SGI_OFF <=? word then
    let r := word - VGIC3R_SGI_OFF in
    if r =? 128 then Some (sgi_igroupr0 c)
    else if (r =? 256) || (r =? 384) then Some (vmm_vgic3_enabled_word g cpu 0)
    else if (r =? 512) || (r =? 640) then Some (vmm_vgic3_pending_word g cpu 0)
    else if (r =? 768) || (r =? 896) then Some (vmm_vgic3_active_word g cpu 0)
    else if is_prio r then read_prio c (u32 (word - 1024) / 4)
    else if r =? 3072 then Some (sgi_icfgr c 0)
    else if r =? 3076 then Some (sgi_icfgr c 1)
    else if r =? 3328 then Some (sgi_igrpmodr0 c)
    else if word =? 131048 - VGIC3R_SGI_OFF then Some 48 else Some 0
  else if word =? 0 then Some (Z.ldiff (rd_ctlr c) (Z.lor GIC_RWP 1))
  else if word =? 4 then Some 33686587
  else if word =? 8 then Some (Z.lor (Z.lor (Z.shiftl cpu 8) (Z.shiftl cpu 32)) (if cpu =? u32 (nr_vcpus g - 1) then 16 else 0))
  else if word =? 20 then Some (Z.land (rd_waker c) GICR_WAKER_PROCESSOR_SLEEP)
  else if word =? 112 then Some (rd_propbaser c)
  else if word =? 120 then Some (rd_pendbaser c)
  else if word =? 16 then Some 0
  else if word =? 65512 then Some 48 else Some 0.

Definition vgic3r_write (g : vgic3_t) (off value v : Z) : option vgic3_t :=
  let word := Z.land off (VGIC3R_STRIDE - 1) in
  let value32 := u32 value in
  let cpu := redist_cpu off g v in
  let c := vcpu g cpu in
  if VGIC3R_SGI_OFF <=? word then
    let r := word - VGIC3R_SGI_OFF in
    if r =? 128 then Some (set_vcpu g cpu (set_sgi c value32 (sgi_igrpmodr0 c) (sgi_icfgr c)))
    else if r =? 256 then Some (for_bits value32 (fun g bit => vmm_vgic3_set_enabled g cpu bit true) g)
    else if r =? 384 then Some (for_bits value32 (fun g bit => vmm_vgic3_set_enabled g cpu bit false) g)
    else if r =? 512 then Some (for_bits value32 (fun g bit => vmm_vgic3_set_pending g cpu bit) g)
    else if r =? 640 then Some (vmm_vgic3_clear_pending_word g cpu 0 value32)
    else if r =? 768 then
      Some (for_bits value32 (fun g bit => let c := vcpu g cpu in
              set_vcpu g cpu (set_irqs c (enabled0 c) (pending0 c) (Z.lor (active0 c) (u32 (Z.shiftl 1 bit))))) g)
    else if r =? 896 then Some (vmm_vgic3_clear_active_word g cpu 0 value32)
    else if is_prio r then c ← write_prio c (u32 (word - 1024) / 4) value; Some (set_vcpu g cpu c)
    else if r =? 3072 then Some (set_vcpu g cpu (set_sgi c (sgi_igroupr0 c) (sgi_igrpmodr0 c) (upd (sgi_icfgr c) 0 value32)))
    else if r =? 3076 then Some (set_vcpu g cpu (set_sgi c (sgi_igroupr0 c) (sgi_igrpmodr0 c) (upd (sgi_icfgr c) 1 value32)))
    else if r =? 3328 then Some (set_vcpu g cpu (set_sgi c (sgi_igroupr0 c) value32 (sgi_icfgr c)))
    else Some g
  else if word =? 0 then Some (set_vcpu g cpu (set_rd c (Z.ldiff value32 GIC_RWP) (rd_waker c) (rd_propbaser c) (rd_pendbaser c)))
  else if word =? 20 then Some (set_vcpu g cpu (set_rd c (rd_ctlr c) (Z.land value32 GICR_WAKER_PROCESSOR_SLEEP) (rd_propbaser c) (rd_pendbaser c)))
  else if word =? 112 then Some (set_vcpu g cpu (set_rd c (rd_ctlr c) (rd_waker c) value (rd_pendbaser c)))
  else if word =? 120 then Some (set_vcpu g cpu (set_rd c (rd_ctlr c) (rd_waker c) (rd_propbaser c) value))
  else Some g.

(** ** Views

    What is known of an interrupt of a CPU. *)

Definition word_in (w : Z -> Z) (irq : Z) : bool := Z.testbit (w (irq / 32)) (irq mod 32).
Definition waits (g : vgic3_t) (v irq : Z) : bool := word_in (fun w => if w =? 0 then pending0 (vcpu g v) else spi_pending g v w) irq.
Definition acts (g : vgic3_t) (v irq : Z) : bool := word_in (fun w => if w =? 0 then active0 (vcpu g v) else spi_active g v w) irq.
Definition permits (g : vgic3_t) (v irq : Z) : bool := (irq <? 16) || word_in (fun w => if w =? 0 then enabled0 (vcpu g v) else enabled g w) irq.
Definition slots (g : vgic3_t) (v : Z) : Z -> Z := lr (vcpu g v).

(** Words of 32 bits, list registers of 64. *)
Definition vgic_wf (g : vgic3_t) : Prop :=
  1 <= nr_vcpus g <= VGIC3_MAX_VCPUS /\
  (forall v, 0 <= enabled0 (vcpu g v) < 2 ^ 32 /\ 0 <= pending0 (vcpu g v) < 2 ^ 32 /\ 0 <= active0 (vcpu g v) < 2 ^ 32) /\
  (forall w, 0 <= enabled g w < 2 ^ 32) /\ (forall v w, 0 <= spi_pending g v w < 2 ^ 32 /\ 0 <= spi_active g v w < 2 ^ 32) /\
  (forall v i, 0 <= prio0 (vcpu g v) i < 256) /\ (forall i, 0 <= dist_regs g i < 256).

Lemma irq_split irq : irq = irq / 32 * 32 + irq mod 32.
Proof. pose proof (Z.div_mod irq 32). lia. Qed.
Lemma irq_mod irq : 0 <= irq mod 32 < 32.
Proof. apply Z.mod_pos_bound. lia. Qed.

Lemma irq_bit_spec irq : irq_bit irq = 2 ^ (irq mod 32).
Proof.
  unfold irq_bit. change 31 with (2 ^ 5 - 1). rewrite land_pred_pow2 by lia. change (2 ^ 5) with 32. pose proof (irq_mod irq).
  rewrite Z.shiftl_1_l, u32_id; [done|]. pose proof (Z.pow_lt_mono_r 2 (irq mod 32) 32). lia.
Qed.
Lemma testbit_irq_bit irq k : 0 <= k -> Z.testbit (irq_bit irq) k = (k =? irq mod 32).
Proof. intros Hk. pose proof (irq_mod irq). rewrite irq_bit_spec, Z.pow2_bits_eqb by lia. apply Z.eqb_sym. Qed.

Lemma same_irq irq k : (k / 32 =? irq / 32) && (k mod 32 =? irq mod 32) = (k =? irq).
Proof. pose proof (irq_split irq). pose proof (irq_split k). pose proof (irq_mod irq). pose proof (irq_mod k). lia. Qed.

(** Changing one bit of one word. *)
Lemma word_in_set (w w' : Z -> Z) irq k : w' (irq / 32) = Z.lor (w (irq / 32)) (irq_bit irq) -> (forall j, j <> irq / 32 -> w' j = w j) ->
  word_in w' k = word_in w k || (k =? irq).
Proof.
  intros H1 H2. unfold word_in. pose proof (irq_mod k). rewrite <- (same_irq irq k). destruct (Z.eqb_spec (k / 32) (irq / 32)) as [E|E].
  - rewrite E, H1, Z.lor_spec, testbit_irq_bit by lia. done.
  - rewrite H2 by done. by rewrite orb_false_r.
Qed.
Lemma word_in_clear (w w' : Z -> Z) irq k : w' (irq / 32) = Z.ldiff (w (irq / 32)) (irq_bit irq) -> (forall j, j <> irq / 32 -> w' j = w j) ->
  word_in w' k = word_in w k && negb (k =? irq).
Proof.
  intros H1 H2. unfold word_in. pose proof (irq_mod k). rewrite <- (same_irq irq k). destruct (Z.eqb_spec (k / 32) (irq / 32)) as [E|E].
  - rewrite E, H1, Z.ldiff_spec, testbit_irq_bit by lia. done.
  - rewrite H2 by done. by rewrite andb_true_r.
Qed.
Lemma word_in_ext (w w' : Z -> Z) k : (forall j, w' j = w j) -> word_in w' k = word_in w k.
Proof. intros H. unfold word_in. by rewrite H. Qed.

(** Everything but the waiting and active interrupts and the list registers of one CPU stays. *)
Record framed (v : Z) (g g' : vgic3_t) : Prop := mk_framed {
  fr_nr : nr_vcpus g' = nr_vcpus g;
  fr_permits : forall x k, permits g' x k = permits g x k;
  fr_value : forall x k, vgic3_lr_value g' x k = vgic3_lr_value g x k;
  fr_ich : forall x, x <> v -> ich_vmcr (vcpu g' x) = ich_vmcr (vcpu g x) /\ ich_ap1r0 (vcpu g' x) = ich_ap1r0 (vcpu g x);
  fr_others : forall x, x <> v -> (forall k, waits g' x k = waits g x k /\ acts g' x k = acts g x k) /\ slots g' x = slots g x;
  fr_wf : vgic_wf g -> vgic_wf g'
}.

Lemma framed_refl v g : framed v g g.
Proof. by split. Qed.
Lemma framed_trans v g1 g2 g3 : framed v g1 g2 -> framed v g2 g3 -> framed v g1 g3.
Proof.
  intros [a1 a2 a3 a4 a5 a6] [b1 b2 b3 b4 b5 b6]. split; [congruence|congruence|congruence| | |auto].
  - intros x Hx. destruct (a4 x Hx), (b4 x Hx). split; congruence.
  - intros x Hx. destruct (a5 x Hx) as [H1 H2], (b5 x Hx) as [H3 H4]. split; [|congruence].
    intros k. destruct (H1 k), (H3 k). split; congruence.
Qed.

Lemma lor_word a b : 0 <= a < 2 ^ 32 -> 0 <= b < 2 ^ 32 -> 0 <= Z.lor a b < 2 ^ 32.
Proof. by apply lor_range. Qed.
Lemma ldiff_range a b : 0 <= a < 2 ^ 32 -> 0 <= Z.ldiff a b < 2 ^ 32.
Proof. intros Ha. rewrite Z.ldiff_land. apply land_range; lia. Qed.
Lemma irq_bit_range irq : 0 <= irq_bit irq < 2 ^ 32.
Proof. apply u32_range. Qed.
#[local] Hint Resolve lor_word ldiff_range irq_bit_range : core.

Lemma irq_low irq : 0 <= irq -> irq < 32 -> irq / 32 = 0.
Proof. intros. apply Z.div_small. lia. Qed.
Lemma irq_high irq : 32 <= irq -> irq / 32 <> 0.
Proof. intros. pose proof (Z.div_le_mono 32 irq 32). change (32 / 32) with 1 in *. lia. Qed.

(** What an operation does to the interrupts of a CPU. *)
Record effect (v : Z) (g g' : vgic3_t) (W A : Z -> bool) (L : Z -> Z) : Prop := mk_effect {
  ef_frame : framed v g g';
  ef_waits : forall k, 0 <= k -> waits g' v k = W k;
  ef_acts : forall k, 0 <= k -> acts g' v k = A k;
  ef_slots : forall i, slots g' v i = L i
}.

(** [upd] at the same index and at another one. *)
Ltac upds :=
  repeat match goal with
  | |- context [upd ?f ?i ?x ?j] => destruct (decide (j = i)) as [->|?]; [rewrite (upd_eq f i x)|rewrite (upd_ne f i j x) by done]
  end.

Lemma framed_vcpu g v c : enabled0 c = enabled0 (vcpu g v) -> prio0 c = prio0 (vcpu g v) ->
  (vgic_wf g -> 0 <= pending0 c < 2 ^ 32 /\ 0 <= active0 c < 2 ^ 32) -> framed v g (set_vcpu g v c).
Proof.
  intros He Hp Hr. split; [done|..].
  - intros x k. unfold permits, set_vcpu. cbn. upds; [by rewrite He|done].
  - intros x k. unfold vgic3_lr_value, set_vcpu. cbn. upds; [by rewrite Hp|done].
  - intros x Hx. cbn. by rewrite upd_ne.
  - intros x Hx. unfold waits, acts, slots. cbn. rewrite upd_ne by done. done.
  - intros Hwf. destruct (Hr Hwf) as [H1 H2]. destruct Hwf as (Hn & Hv & Hen & Hs & Hpr & Hd). split; [done|]. split; [|split; [done|split; [done|split; [|done]]]].
    + intros y. cbn. upds; [rewrite He; split; [apply Hv|done]|apply Hv].
    + intros y i. cbn. upds; [rewrite Hp|]; apply Hpr.
Qed.

Lemma framed_spi g v P A : (forall x, x <> v -> P x = spi_pending g x /\ A x = spi_active g x) ->
  (vgic_wf g -> forall w, 0 <= P v w < 2 ^ 32 /\ 0 <= A v w < 2 ^ 32) -> framed v g (set_spi g (enabled g) P A).
Proof.
  intros Ho Hr. split; [done..| |].
  - intros x Hx. destruct (Ho x Hx) as [H1 H2]. unfold waits, acts, slots. cbn. by rewrite H1, H2.
  - intros Hwf. specialize (Hr Hwf). destruct Hwf as (Hn & Hv & Hen & Hs & Hpr & Hd). split; [done|]. split; [done|]. split; [done|]. split; [|done].
    intros x w. destruct (decide (x = v)) as [->|Hx]; [apply Hr|]. destruct (Ho x Hx) as [H1 H2]. cbn. rewrite H1, H2. apply Hs.
Qed.

Lemma wf_words g v : vgic_wf g -> 0 <= pending0 (vcpu g v) < 2 ^ 32 /\ 0 <= active0 (vcpu g v) < 2 ^ 32 /\
  forall w, 0 <= spi_pending g v w < 2 ^ 32 /\ 0 <= spi_active g v w < 2 ^ 32.
Proof. intros (_ & Hv & _ & Hs & _). destruct (Hv v) as (_ & ? & ?). split; [done|]. split; [done|]. apply Hs. Qed.

Lemma waits_low g v c k : waits (set_vcpu g v c) v k = word_in (fun w => if w =? 0 then pending0 c else spi_pending g v w) k.
Proof. unfold waits. cbn. by rewrite upd_eq. Qed.
Lemma acts_low g v c k : acts (set_vcpu g v c) v k = word_in (fun w => if w =? 0 then active0 c else spi_active g v w) k.
Proof. unfold acts. cbn. by rewrite upd_eq. Qed.
Lemma slots_low g v c : slots (set_vcpu g v c) v = lr c.
Proof. unfold slots. cbn. by rewrite upd_eq. Qed.

Definition only {B} (f : Z -> B) (irq : Z) (x : B) : Z -> B := fun k => if k =? irq then x else f k.

Lemma word_only (w : Z -> Z) irq k (b : bool) w' : 0 <= irq ->
  w' (irq / 32) = (if b then Z.lor else Z.ldiff) (w (irq / 32)) (irq_bit irq) -> (forall j, j <> irq / 32 -> w' j = w j) ->
  word_in w' k = only (word_in w) irq b k.
Proof.
  intros Hi H1 H2. unfold only. destruct b.
  - rewrite (word_in_set w w' irq) by done. destruct (k =? irq); [apply orb_true_r|apply orb_false_r].
  - rewrite (word_in_clear w w' irq) by done. destruct (k =? irq); [apply andb_false_r|apply andb_true_r].
Qed.

(** Setting or clearing an active bit, a waiting bit. *)
Lemma acts_effect (b : bool) g v irq : 0 <= irq ->
  effect v g ((if b then set_active else clear_active) g v irq) (waits g v) (only (acts g v) irq b) (slots g v).
Proof.
  intros Hi. set (g' := _ g v irq).
  assert (Hg' : g' = if irq <? 32 then set_vcpu g v (set_irqs (vcpu g v) (enabled0 (vcpu g v)) (pending0 (vcpu g v)) ((if b then Z.lor else Z.ldiff) (active0 (vcpu g v)) (irq_bit irq)))
    else set_spi g (enabled g) (spi_pending g) (upd2 (spi_active g) v (irq / 32) ((if b then Z.lor else Z.ldiff) (spi_active g v (irq / 32)) (irq_bit irq)))).
  { subst g'. by destruct b. }
  clearbody g'. subst g'. case_if.
  - split; [|intros k Hk; by rewrite waits_low|intros k Hk; rewrite acts_low|by rewrite slots_low].
    + apply framed_vcpu; try done. intros Hwf. destruct (wf_words g v Hwf) as (H1 & H2 & _). cbn. split; [done|]. destruct b; auto.
    + apply word_only; [done|by rewrite irq_low by lia|]. intros j Hj. rewrite irq_low in Hj by lia. by destruct (Z.eqb_spec j 0).
  - split; [|done|intros k Hk|done].
    + apply framed_spi; [intros x Hx; unfold upd2; rewrite upd_ne by done; done|]. intros Hwf w. destruct (wf_words g v Hwf) as (_ & _ & Hs).
      split; [apply Hs|]. unfold upd2. rewrite upd_eq. destruct (Hs (irq / 32)), (Hs w). upds; [destruct b; auto|done].
    + pose proof (irq_high irq ltac:(lia)) as Hh. unfold acts. cbn. unfold upd2. rewrite upd_eq. apply word_only; [done| |].
      * destruct (Z.eqb_spec (irq / 32) 0); [done|]. by rewrite upd_eq.
      * intros j Hj. by rewrite upd_ne.
Qed.

(** A bit of [pending0], with any change to the sources. *)
Lemma pending0_effect (b : bool) g v irq c : 0 <= irq < 32 ->
  enabled0 c = enabled0 (vcpu g v) -> prio0 c = prio0 (vcpu g v) ->
  active0 c = active0 (vcpu g v) -> lr c = lr (vcpu g v) -> pending0 c = (if b then Z.lor else Z.ldiff) (pending0 (vcpu g v)) (irq_bit irq) ->
  effect v g (set_vcpu g v c) (only (waits g v) irq b) (acts g v) (slots g v).
Proof.
  intros Hi He Hp Hact Hlr Hpend. split; [|intros k Hk; rewrite waits_low|intros k Hk; by rewrite acts_low, Hact|intros i; by rewrite slots_low, Hlr].
  - apply framed_vcpu; try done. intros Hwf. destruct (wf_words g v Hwf) as (H1 & H2 & _). rewrite Hact, Hpend. split; [|done]. destruct b; auto.
  - apply word_only; [lia|by rewrite irq_low by lia|]. intros j Hj. rewrite irq_low in Hj by lia. by destruct (Z.eqb_spec j 0).
Qed.

Lemma spi_pending_effect (b : bool) g v irq : 32 <= irq ->
  effect v g (set_spi g (enabled g) (upd2 (spi_pending g) v (irq / 32) ((if b then Z.lor else Z.ldiff) (spi_pending g v (irq / 32)) (irq_bit irq))) (spi_active g))
    (only (waits g v) irq b) (acts g v) (slots g v).
Proof.
  intros Hi. split; [|intros k Hk|done|done].
  - apply framed_spi; [intros x Hx; unfold upd2; rewrite upd_ne by done; done|]. intros Hwf w. destruct (wf_words g v Hwf) as (_ & _ & Hs).
    split; [|apply Hs]. unfold upd2. rewrite upd_eq. destruct (Hs (irq / 32)), (Hs w). upds; [destruct b; auto|done].
  - pose proof (irq_high irq ltac:(lia)) as Hh. unfold waits. cbn. unfold upd2. rewrite upd_eq. apply word_only; [lia| |].
    + destruct (Z.eqb_spec (irq / 32) 0); [done|]. by rewrite upd_eq.
    + intros j Hj. by rewrite upd_ne.
Qed.

Lemma clear_pending_effect g v irq : 0 <= irq -> effect v g (clear_pending g v irq) (only (waits g v) irq false) (acts g v) (slots g v).
Proof.
  intros Hi. unfold clear_pending. case_if; [|apply (spi_pending_effect false); lia].
  apply (pending0_effect false); [lia|case_if; done..].
Qed.
Lemma set_sgi_pending_effect g v source irq : valid_vcpu g v = true -> 0 <= irq < 16 ->
  effect v g (vmm_vgic3_set_sgi_pending g v source irq) (only (waits g v) irq true) (acts g v) (slots g v).
Proof. intros Hv Hi. unfold vmm_vgic3_set_sgi_pending. rewrite Hv. case_if; [lia|]. by apply (pending0_effect true); [lia|..]. Qed.
Lemma set_pending_effect g v irq : valid_vcpu g v = true -> 0 <= irq < VGIC3_MAX_IRQS ->
  effect v g (vmm_vgic3_set_pending g v irq) (only (waits g v) irq true) (acts g v) (slots g v).
Proof.
  intros Hv Hi. unfold vmm_vgic3_set_pending, valid_irq. rewrite Hv. case_if; [lia|]. case_if; [apply set_sgi_pending_effect; [done|lia]|].
  case_if; [by apply (pending0_effect true); [lia|..]|apply (spi_pending_effect true); lia].
Qed.

Lemma set_lr_effect g v i x : effect v g (set_vcpu g v (set_lr (vcpu g v) i x)) (waits g v) (acts g v) (only (slots g v) i x).
Proof.
  split; [|intros k Hk; by rewrite waits_low|intros k Hk; by rewrite acts_low|].
  - apply framed_vcpu; try done. intros Hwf. destruct (wf_words g v Hwf) as (H1 & H2 & _). done.
  - intros k. rewrite slots_low. cbn. unfold only, slots. destruct (Z.eqb_spec k i) as [->|]; [by rewrite upd_eq|by rewrite upd_ne].
Qed.

Lemma effect_trans v g1 g2 g3 W1 A1 L1 W A L : effect v g1 g2 W1 A1 L1 -> effect v g2 g3 W A L ->
  forall W' A' L', (forall k, 0 <= k -> (forall k, 0 <= k -> waits g2 v k = W1 k) -> W k = W' k) ->
                   (forall k, 0 <= k -> (forall k, 0 <= k -> acts g2 v k = A1 k) -> A k = A' k) ->
                   (forall i, (forall i, slots g2 v i = L1 i) -> L i = L' i) -> effect v g1 g3 W' A' L'.
Proof.
  intros [f1 w1 a1 l1] [f2 w2 a2 l2] W' A' L' HW HA HL. split; [by eapply framed_trans| | |].
  - intros k Hk. rewrite w2 by done. by apply HW.
  - intros k Hk. rewrite a2 by done. by apply HA.
  - intros i. rewrite l2. by apply HL.
Qed.

(** ** Values of list registers *)

Lemma with_state_testbit x st k : 0 <= x -> 0 <= st -> 0 <= k ->
  Z.testbit (with_state x st) k = if (62 <=? k) then (if 64 <=? k then Z.testbit x k else false) || Z.testbit st (k - 62) else Z.testbit x k.
Proof.
  intros Hx Hst Hk. unfold with_state. rewrite Z.lor_spec, Z.ldiff_spec, Z.shiftl_spec by lia.
  change ICH_LR_STATE_MASK with (Z.shiftl 3 62). rewrite Z.shiftl_spec by lia.
  destruct (Z.leb_spec 62 k).
  - change 3 with (Z.ones 2). rewrite Z.testbit_ones_nonneg by lia. destruct (Z.leb_spec 64 k), (Z.ltb_spec (k - 62) 2); lia.
  - rewrite !(Z.testbit_neg_r _ (k - 62)) by lia. by rewrite andb_true_r, orb_false_r.
Qed.

Lemma lr_vintid_bits x k : 0 <= k -> Z.testbit (lr_vintid x) k = (k <? 32) && Z.testbit x k.
Proof.
  intros Hk. unfold lr_vintid, u32. change U32_MOD with (2 ^ 32). change ICH_LR_VINTID_MASK with (Z.ones 32). rewrite !Z.land_ones, Z.mod_mod by lia.
  destruct (Z.ltb_spec k 32); [by rewrite Z.mod_pow2_bits_low|by rewrite Z.mod_pow2_bits_high by lia].
Qed.
Lemma lr_state_bits x k : 0 <= k -> Z.testbit (lr_state x) k = (k <? 2) && Z.testbit x (k + 62).
Proof.
  intros Hk. unfold lr_state, u32. change 3 with (Z.ones 2). rewrite Z.land_ones by lia.
  rewrite Z.mod_small by (pose proof (Z.mod_pos_bound (Z.shiftr x 62) (2 ^ 2)); lia).
  destruct (Z.ltb_spec k 2); [rewrite Z.mod_pow2_bits_low, Z.shiftr_spec by lia; done|by rewrite Z.mod_pow2_bits_high by lia].
Qed.
Lemma lr_state_range x : 0 <= lr_state x < 4.
Proof. unfold lr_state. change 3 with (Z.ones 2). rewrite Z.land_ones by lia. pose proof (Z.mod_pos_bound (Z.shiftr x 62) (2 ^ 2)). rewrite u32_id; lia. Qed.

Lemma vintid_with_state x st : 0 <= x -> 0 <= st -> lr_vintid (with_state x st) = lr_vintid x.
Proof.
  intros Hx Hs. apply Z.bits_inj'. intros k Hk. rewrite !lr_vintid_bits, with_state_testbit by done.
  destruct (Z.ltb_spec k 32); [|done]. case_if; [lia|done].
Qed.
Lemma state_with_state x st : 0 <= x < 2 ^ 64 -> 0 <= st < 4 -> lr_state (with_state x st) = st.
Proof.
  intros Hx Hs. apply Z.bits_inj'. intros k Hk. rewrite lr_state_bits, with_state_testbit by lia.
  replace (k + 62 - 62) with k by lia. destruct (Z.ltb_spec k 2) as [H|H]; cbn [andb].
  - case_if; [|lia]. case_if; [lia|done].
  - symmetry. destruct (decide (st = 0)) as [->|]; [apply Z.testbit_0_l|]. apply Z.bits_above_log2; [lia|].
    apply Z.log2_lt_pow2; [lia|]. apply Z.lt_le_trans with (2 ^ 2); [lia|]. apply Z.pow_le_mono_r; lia.
Qed.

Lemma prio_range g v irq : vgic_wf g -> 0 <= irq ->
  0 <= (if irq <? 32 then prio0 (vcpu g v) irq else if irq <? VGIC3D_REG_SIZE - 1024 then dist_regs g (1024 + irq) else VGIC3_DEFAULT_PRIO) < 256.
Proof. intros (_ & _ & _ & _ & Hp & Hd) Hi. repeat case_if; [apply Hp|apply Hd|lia]. Qed.

Lemma testbit_below p n k : 0 <= p < 2 ^ n -> 0 <= n <= k -> Z.testbit p k = false.
Proof.
  intros Hp Hk. destruct (decide (p = 0)) as [->|]; [apply Z.testbit_0_l|]. apply Z.bits_above_log2; [lia|].
  apply Z.log2_lt_pow2; [lia|]. apply Z.lt_le_trans with (2 ^ n); [lia|]. apply Z.pow_le_mono_r; lia.
Qed.

Lemma lr_value_testbit g v irq k : vgic_wf g -> 0 <= irq < VGIC3_MAX_IRQS -> 0 <= k ->
  Z.testbit (vgic3_lr_value g v irq) k = if k <? 48 then Z.testbit irq k else if k <? 56 then Z.testbit (vgic3_lr_value g v irq) k else (k =? 60) || (k =? 62).
Proof.
  intros Hwf Hi Hk. unfold vgic3_lr_value. pose proof (prio_range g v irq Hwf ltac:(lia)) as Hp. set (prio := if _ <? _ then _ else _) in *. clearbody prio.
  change ICH_LR_VINTID_MASK with (Z.ones 32). rewrite Z.land_ones, (Z.mod_small irq) by lia.
  change (Z.shiftl ICH_LR_ST_PENDING ICH_LR_STATE_SHIFT) with (2 ^ 62). change ICH_LR_GROUP1 with (2 ^ 60).
  rewrite !Z.lor_spec, !Z.pow2_bits_eqb, Z.shiftl_spec by lia.
  destruct (Z.ltb_spec k 48) as [H|H].
  - rewrite (Z.testbit_neg_r prio) by lia. lia.
  - rewrite (testbit_below irq 10 k) by lia. destruct (Z.ltb_spec k 56); [done|].
    rewrite (testbit_below prio 8 (k - 48)) by lia. lia.
Qed.

Lemma lr_value_range g v irq : vgic_wf g -> 0 <= irq < VGIC3_MAX_IRQS -> 0 < vgic3_lr_value g v irq < 2 ^ 64.
Proof.
  intros Hwf Hi. assert (H62 : Z.testbit (vgic3_lr_value g v irq) 62 = true) by (rewrite lr_value_testbit by (done || lia); done).
  pose proof (prio_range g v irq Hwf ltac:(lia)) as Hp.
  assert (0 <= vgic3_lr_value g v irq).
  { unfold vgic3_lr_value. set (prio := if _ <? _ then _ else _) in *. rewrite !Z.lor_nonneg, !Z.shiftl_nonneg, Z.land_nonneg. lia. }
  assert (vgic3_lr_value g v irq <> 0) by (intros E; rewrite E, Z.testbit_0_l in H62; done). split; [lia|].
  apply Z.log2_lt_pow2; [lia|]. apply Z.lt_nge. intros Hge.
  pose proof (Z.bit_log2 (vgic3_lr_value g v irq) ltac:(lia)) as Hb. rewrite lr_value_testbit in Hb by (done || lia). repeat case_if_in Hb; lia.
Qed.

Lemma lr_value_vintid g v irq : vgic_wf g -> 0 <= irq < VGIC3_MAX_IRQS -> lr_vintid (vgic3_lr_value g v irq) = irq.
Proof.
  intros Hwf Hi. apply Z.bits_inj'. intros k Hk. rewrite lr_vintid_bits, lr_value_testbit by done.
  destruct (Z.ltb_spec k 32); [case_if; [done|lia]|]. symmetry. apply (testbit_below irq 10); lia.
Qed.
Lemma lr_value_state g v irq : vgic_wf g -> 0 <= irq < VGIC3_MAX_IRQS -> lr_state (vgic3_lr_value g v irq) = 1.
Proof.
  intros Hwf Hi. apply Z.bits_inj'. intros k Hk. rewrite lr_state_bits, lr_value_testbit by (done || lia).
  change 1 with (2 ^ 0). rewrite Z.pow2_bits_eqb by lia. repeat case_if; lia.
Qed.

(** ** Empty list registers *)

Definition hw_wf (h : ich) : Prop := 1 <= hw_nr_lrs h <= VGIC3_MAX_LRS /\ forall i, 0 <= hw_lr h i < 2 ^ 64.

Lemma nr_lrs_hw h : hw_wf h -> nr_lrs h = hw_nr_lrs h.
Proof. intros [H _]. unfold nr_lrs. case_if; lia. Qed.

Lemma elrsr_spec h i : hw_wf h -> 0 <= i < nr_lrs h -> (Z.land (Z.shiftr (gicv3_read_elrsr h) i) 1 =? 0) = negb (lr_state (hw_lr h i) =? 0).
Proof.
  intros Hh Hi. rewrite nr_lrs_hw in Hi by done. destruct Hh as [Hn _].
  assert (Hbit : forall m, 0 <= m <= hw_nr_lrs h -> forall k, 0 <= k -> Z.testbit (for_range 0 m (fun w i => if lr_state (hw_lr h i) =? 0 then Z.lor w (Z.shiftl 1 i) else w) 0) k = (k <? m) && (lr_state (hw_lr h k) =? 0)).
  { intros m Hm. apply (for_range_ind (fun j w => forall k, 0 <= k -> Z.testbit w k = (k <? j) && (lr_state (hw_lr h k) =? 0))); [lia| |].
    - intros k Hk. rewrite Z.testbit_0_l. lia.
    - intros j w Hj Hw k Hk. destruct (Z.eqb_spec (lr_state (hw_lr h j)) 0) as [E|E].
      + rewrite Z.lor_spec, Z.shiftl_1_l, Z.pow2_bits_eqb, Hw by lia. destruct (Z.eqb_spec j k) as [->|]; lia.
      + rewrite Hw by done. destruct (decide (k = j)) as [->|]; lia. }
  change 1 with (Z.ones 1). rewrite Z.land_ones by lia. change (2 ^ 1) with 2. rewrite <- Z.bit0_mod, Z.shiftr_spec, Z.add_0_l by lia.
  unfold gicv3_read_elrsr. rewrite Hbit by lia. destruct (Z.ltb_spec i (hw_nr_lrs h)); [|lia]. by destruct (lr_state (hw_lr h i) =? 0).
Qed.

(** ** Loops over the bits of a word *)

(** [next] takes the lowest bit away. *)
Definition takes_low (next : Z -> Z * Z) : Prop :=
  forall w, 0 < w < 2 ^ 32 -> exists i w', next w = (i, w') /\ 0 <= i < 32 /\ Z.testbit w i = true /\ 0 <= w' < w /\
    forall k, 0 <= k -> Z.testbit w' k = Z.testbit w k && negb (k =? i).

Lemma land_u32_r u x : 0 <= u < 2 ^ 32 -> Z.land u (u32 x) = Z.land u x.
Proof.
  intros Hu. unfold u32. change U32_MOD with (2 ^ 32). rewrite <- Z.land_ones by lia.
  rewrite (Z.land_comm x), Z.land_assoc, Z.land_ones by lia. by rewrite (Z.mod_small u) by lia.
Qed.

Lemma clear_smaller w w' i : 0 <= w -> Z.testbit w i = true -> 0 <= i -> (forall k, 0 <= k -> Z.testbit w' k = Z.testbit w k && negb (k =? i)) -> w' = w - 2 ^ i.
Proof.
  intros Hw Hi H0 H. assert (w' = Z.ldiff w (2 ^ i)) as ->.
  { apply Z.bits_inj'. intros k Hk. rewrite H, Z.ldiff_spec, Z.pow2_bits_eqb by done. by rewrite (Z.eqb_sym i). }
  symmetry. apply Z.sub_nocarry_ldiff. apply Z.bits_inj'. intros k Hk. rewrite Z.ldiff_spec, Z.pow2_bits_eqb, Z.testbit_0_l by done.
  destruct (Z.eqb_spec i k) as [->|]; [by rewrite Hi|done].
Qed.

Lemma takes_low_of next : (forall w i, 0 < w < 2 ^ 32 -> lowbit w i -> exists w', next w = (i, w') /\ forall k, 0 <= k -> Z.testbit w' k = Z.testbit w k && negb (k =? i)) -> takes_low next.
Proof.
  intros H w Hw. destruct (lowbit_exists w) as [i Hi]; [lia|]. destruct (H w i Hw Hi) as (w' & E & Hw').
  pose proof (lowbit_lt w i 32 ltac:(lia) ltac:(lia) Hi) as Hr.
  assert (Hb : Z.testbit w i = true) by (rewrite (lowbit_testbit w i i Hi) by lia; lia).
  pose proof (clear_smaller w w' i ltac:(lia) Hb ltac:(lia) Hw') as ->. exists i, (w - 2 ^ i). split; [done|]. split; [done|]. split; [done|].
  split; [|done]. pose proof (Z.pow_pos_nonneg 2 i). split; [|lia]. destruct Hi as (_ & a & ->). assert (0 <= a) by nia. nia.
Qed.

Lemma ctz_takes_low : takes_low ctz_next.
Proof.
  apply takes_low_of. intros w i Hw Hi. unfold ctz_next, builtin_ctz. rewrite (lowbit_isolate w i Hi).
  pose proof (lowbit_lt w i 32 ltac:(lia) ltac:(lia) Hi). rewrite bit_index_pow2 by lia. rewrite land_u32_r by lia.
  eexists. split; [done|]. intros k Hk. by apply lowbit_clear.
Qed.

Lemma low_takes_low : takes_low low_next.
Proof.
  apply takes_low_of. intros w i Hw Hi. unfold low_next. pose proof (lowbit_lt w i 32 ltac:(lia) ltac:(lia) Hi).
  assert (Hb : Z.land w (u32 (u32 (Z.lnot w) + 1)) = 2 ^ i).
  { rewrite land_u32_r, <- (lowbit_isolate w i Hi), <- (land_u32_r w (- w)), <- (land_u32_r w (u32 (Z.lnot w) + 1)) by lia. f_equal.
    unfold u32. rewrite Zplus_mod_idemp_l. f_equal. unfold Z.lnot. lia. }
  rewrite Hb, bit_index_pow2 by lia. eexists. split; [done|]. intros k Hk. rewrite Z.ldiff_spec, Z.pow2_bits_eqb by lia. by rewrite (Z.eqb_sym i).
Qed.

(** The number of set bits bounds the steps. *)
Fixpoint popcount (n : nat) (w : Z) : nat := match n with O => O | S n => (if Z.testbit w (Z.of_nat n) then 1 else 0) + popcount n w end.
Lemma popcount_clear n w w' i : 0 <= i < Z.of_nat n -> Z.testbit w i = true -> (forall k, 0 <= k -> Z.testbit w' k = Z.testbit w k && negb (k =? i)) ->
  popcount n w = S (popcount n w').
Proof.
  intros Hi Hb H. induction n as [|n IH]; [lia|]. cbn [popcount]. rewrite H by lia. destruct (Z.eqb_spec (Z.of_nat n) i) as [E|E].
  - rewrite E, Hb. cbn. f_equal. clear IH. assert (Hn : Z.of_nat n <= i) by lia. clear Hi E. induction n as [|n IH]; [done|]. cbn.
    rewrite H by lia. destruct (Z.eqb_spec (Z.of_nat n) i); [lia|]. rewrite andb_true_r. f_equal. apply IH. lia.
  - rewrite andb_true_r, IH by lia. lia.
Qed.
Lemma popcount_le n w : (popcount n w <= n)%nat.
Proof. induction n as [|n IH]; cbn; [lia|]. case_match; lia. Qed.

(** [I w s]: in state [s] the bits of [w] are still to be treated. *)
Lemma each_bit_rule {S} (I : Z -> S -> Prop) (Q : S -> Prop) next (body : S -> Z -> S + S) : takes_low next ->
  (forall w w' i s, 0 <= i < 32 -> Z.testbit w i = true -> (forall k, 0 <= k -> Z.testbit w' k = Z.testbit w k && negb (k =? i)) -> I w s ->
     match body s i with inl s' => I w' s' | inr s' => Q s' end) ->
  forall w s, 0 <= w < 2 ^ 32 -> I w s ->
  match each_bit 33 next body w s with inl s' => I 0 s' | inr s' => Q s' end.
Proof.
  intros Hnext Hbody.
  assert (Hgen : forall fuel w s, 0 <= w < 2 ^ 32 -> (popcount 32 w < fuel)%nat -> I w s -> match each_bit fuel next body w s with inl s' => I 0 s' | inr s' => Q s' end).
  { induction fuel as [|fuel IH]; intros w s Hw Hf HI; [lia|]. cbn [each_bit]. destruct (Z.eqb_spec w 0) as [->|]; [done|].
    destruct (Hnext w ltac:(lia)) as (i & w' & -> & Hi & Hb & Hw' & Hbits). specialize (Hbody w w' i s Hi Hb Hbits HI).
    destruct (body s i) as [s'|s']; [|done]. apply IH; [lia| |done]. pose proof (popcount_clear 32 w w' i ltac:(lia) Hb Hbits). lia. }
  intros w s Hw HI. apply Hgen; [done| |done]. pose proof (popcount_le 32 w). lia.
Qed.
