(* ===== verification/Vgic3Sync.v ===== *)
(** * The list registers of the virtual GICv3: entry to and exit from the guest

    A virtual CPU of Vgic3 that owns the list registers.  [outstanding] and [taken] say what
    the guest still has to acknowledge and what it has acknowledged and not ended, whether the
    hardware or the software knows of it; [tight] and [coherent] say how the copies of the list
    registers and the hardware agree outside the guest and in it.  The lemmas follow
    vmm_vgic3_sync_entry, vmm_vgic3_sync_exit and the switch of the list registers to another
    CPU; Vgic3Cpu puts them together. *)

From stdpp Require Import options.
From Stdlib Require Import Lia ZifyBool.
From S2P Require Import Prelude Vgic3.

(** ** What the guest has to get and what it has got *)

Section owner.
Context (h : ich) (g : vgic3_t) (v : Z).

(** A list register with the interrupt, and what the hardware knows of it. *)
Definition in_lr (irq : Z) : Prop := exists i, 0 <= i < nr_lrs h /\ slots g v i <> 0 /\ lr_vintid (slots g v i) = irq.
Definition hw_bit (b irq : Z) : Prop :=
  exists i, 0 <= i < nr_lrs h /\ slots g v i <> 0 /\ lr_vintid (slots g v i) = irq /\ Z.testbit (lr_state (hw_lr h i)) b = true.
Definition full : Prop := forall i, 0 <= i < nr_lrs h -> slots g v i <> 0.

(** Raised and not acknowledged; acknowledged and not ended. *)
Definition outstanding (irq : Z) : Prop := waits g v irq = true \/ hw_bit 0 irq.
Definition taken (irq : Z) : Prop := hw_bit 1 irq \/ (acts g v irq = true /\ ~ in_lr irq).

Definition good_lr (m : Z) : Prop :=
  0 < m < 2 ^ 64 /\ (lr_state m = 1 \/ lr_state m = 2) /\ 0 <= lr_vintid m < VGIC3_MAX_IRQS /\ acts g v (lr_vintid m) = (lr_state m =? 2) /\
  (lr_state m = 1 -> 16 <= lr_vintid m -> waits g v (lr_vintid m) = true).

(** The copies are the list registers, no interrupt is in two of them. *)
Definition unique : Prop :=
  forall i j, 0 <= i < nr_lrs h -> 0 <= j < nr_lrs h -> slots g v i <> 0 -> slots g v j <> 0 -> lr_vintid (slots g v i) = lr_vintid (slots g v j) -> i = j.
Definition tight : Prop :=
  (forall i, 0 <= i < nr_lrs h -> (slots g v i = 0 /\ lr_state (hw_lr h i) = 0) \/ (hw_lr h i = slots g v i /\ good_lr (slots g v i))) /\ unique.

(** The same where only list registers in use count. *)
Definition synced : Prop :=
  (forall i, 0 <= i < nr_lrs h -> lr_state (hw_lr h i) = 0 \/ (hw_lr h i = slots g v i /\ good_lr (slots g v i))) /\
  (forall i j, 0 <= i < nr_lrs h -> 0 <= j < nr_lrs h -> lr_state (hw_lr h i) <> 0 -> lr_state (hw_lr h j) <> 0 ->
     lr_vintid (slots g v i) = lr_vintid (slots g v j) -> i = j).

Lemma in_lr_spec irq : hw_wf h -> lr_has_irq h g v irq = true <-> in_lr irq.
Proof using.
  intros Hh. unfold lr_has_irq, in_lr. rewrite nr_lrs_hw by done. destruct Hh as [Hn _]. replace (hw_nr_lrs h `min` 16) with (hw_nr_lrs h) by lia.
  rewrite existsb_exists. split.
  - intros (i & Hi & Hb). apply list_elem_of_In, elem_of_seqZ in Hi. exists i. unfold slots. split; [lia|]. lia.
  - intros (i & Hi & Hs & Hv). exists i. split; [apply list_elem_of_In, elem_of_seqZ; lia|]. unfold slots in *. lia.
Qed.

Lemma empty_slot_spec : (lr_empty_slot h g v < 0 /\ full) \/ (0 <= lr_empty_slot h g v < nr_lrs h /\ slots g v (lr_empty_slot h g v) = 0).
Proof using.
  unfold lr_empty_slot, full, slots. destruct (List.find _ _) as [i|] eqn:Hf.
  - right. apply find_some in Hf as [Hi%list_elem_of_In%elem_of_seqZ Hs]. lia.
  - left. split; [lia|]. intros i Hi. pose proof (find_none _ _ Hf i) as Hn. cbn in Hn. rewrite <- Z.eqb_neq. apply Hn, list_elem_of_In, elem_of_seqZ. lia.
Qed.
End owner.

(** Loading an interrupt into an empty list register. *)
Lemma write_lr_hw h i x : 0 <= i < 16 -> hw_lr (gicv3_write_lr h i x) = upd (hw_lr h) i x.
Proof. intros Hi. unfold gicv3_write_lr. case_if; [lia|done]. Qed.
Lemma write_lr_nr h i x : hw_nr_lrs (gicv3_write_lr h i x) = hw_nr_lrs h.
Proof. unfold gicv3_write_lr. by case_if. Qed.
Lemma write_lr_ich h i x : hw_vmcr (gicv3_write_lr h i x) = hw_vmcr h /\ hw_ap1r0 (gicv3_write_lr h i x) = hw_ap1r0 h /\ hw_hcr (gicv3_write_lr h i x) = hw_hcr h.
Proof. unfold gicv3_write_lr. by case_if. Qed.
Lemma write_lr_wf h i x : hw_wf h -> 0 <= x < 2 ^ 64 -> hw_wf (gicv3_write_lr h i x).
Proof.
  intros [Hn Hr] Hx. split; [by rewrite write_lr_nr|]. intros k. unfold gicv3_write_lr. case_if; [apply Hr|]. cbn. unfold upd. case_if; [done|apply Hr].
Qed.
Lemma nr_lrs_write h i x : nr_lrs (gicv3_write_lr h i x) = nr_lrs h.
Proof. unfold nr_lrs. by rewrite write_lr_nr. Qed.
Lemma nr_lrs_16 h : hw_wf h -> nr_lrs h <= 16.
Proof. intros H. rewrite nr_lrs_hw by done. destruct H. lia. Qed.

(** Only the list registers and the waiting interrupts from other CPUs change. *)
Definition relisted (v : Z) (g g' : vgic3_t) : Prop :=
  framed v g g' /\ (forall k, 0 <= k -> acts g' v k = acts g v k) /\ forall k, 16 <= k -> waits g' v k = waits g v k.

Lemma good_lr_relisted v g g' m : relisted v g g' -> good_lr g v m -> good_lr g' v m.
Proof. intros (_ & Ha & Hw) (? & ? & ? & Hact & Hwt). split_and!; try done; [lia..|by rewrite Ha by lia|]. intros ? ?. rewrite Hw by done. auto. Qed.

Lemma place_tight h g v i x g' h' : hw_wf h -> tight h g v -> 0 <= i < nr_lrs h -> slots g v i = 0 -> ~ in_lr h g v (lr_vintid x) -> good_lr g v x ->
  relisted v g g' -> (forall k, slots g' v k = only (slots g v) i x k) -> h' = gicv3_write_lr h i x -> tight h' g' v.
Proof.
  intros Hh [Ht Hu] Hi Hs Hn Hx Hg Hsl ->. pose proof (nr_lrs_16 h Hh). split; rewrite ?nr_lrs_write.
  - intros k Hk. rewrite write_lr_hw by lia. rewrite Hsl. unfold only, upd. destruct (Z.eqb_spec k i) as [->|Hki].
    + right. split; [done|]. by eapply good_lr_relisted.
    + destruct (Ht k Hk) as [?|[? ?]]; [by left|]. right. split; [done|]. by eapply good_lr_relisted.
  - intros j k Hj Hk. rewrite nr_lrs_write in *. rewrite !Hsl. unfold only. destruct (Z.eqb_spec j i) as [->|], (Z.eqb_spec k i) as [->|]; intros H1 H2 E; [done| | |by apply Hu].
    + destruct Hn. exists k. done.
    + destruct Hn. exists j. done.
Qed.

Lemma place_in_lr h g v i x g' h' irq : (forall k, slots g' v k = only (slots g v) i x k) -> nr_lrs h' = nr_lrs h -> 0 <= i < nr_lrs h -> slots g v i = 0 -> x <> 0 ->
  in_lr h' g' v irq <-> in_lr h g v irq \/ irq = lr_vintid x.
Proof.
  intros Hsl Hnr Hi Hs Hx. unfold in_lr. rewrite Hnr. split.
  - intros (k & Hk & Hk0 & Hv). rewrite Hsl in Hk0, Hv. unfold only in *. destruct (Z.eqb_spec k i) as [->|]; [by right|]. left. by exists k.
  - intros [(k & Hk & Hk0 & Hv) | ->].
    + exists k. rewrite Hsl. unfold only. destruct (Z.eqb_spec k i) as [->|]; [done|]. done.
    + exists i. rewrite Hsl. unfold only. rewrite Z.eqb_refl. done.
Qed.

Lemma place_hw_bit h g v i x g' b irq : hw_wf h -> (forall k, slots g' v k = only (slots g v) i x k) -> 0 <= i < nr_lrs h -> slots g v i = 0 -> x <> 0 ->
  hw_bit (gicv3_write_lr h i x) g' v b irq <-> hw_bit h g v b irq \/ (irq = lr_vintid x /\ Z.testbit (lr_state x) b = true).
Proof.
  intros Hh Hsl Hi Hs Hx. pose proof (nr_lrs_16 h Hh). unfold hw_bit. rewrite nr_lrs_write, write_lr_hw by lia. split.
  - intros (k & Hk & Hk0 & Hv & Hb). rewrite Hsl in Hk0, Hv. unfold only, upd in *. destruct (Z.eqb_spec k i) as [->|]; [by right|]. left. by exists k.
  - intros [(k & Hk & Hk0 & Hv & Hb)|[-> Hb]].
    + exists k. rewrite Hsl. unfold only, upd. destruct (Z.eqb_spec k i) as [->|]; [done|]. done.
    + exists i. rewrite Hsl. unfold only, upd. rewrite Z.eqb_refl. done.
Qed.

(** ** Entry *)

Definition covers (v : Z) (s : vgic3_t * ich) (irq : Z) : Prop := in_lr s.2 s.1 v irq \/ full s.2 s.1 v.

(** What the loops of [vmm_vgic3_sync_entry] keep, from [g0] and [h0] on. *)
Record loading (v : Z) (g0 : vgic3_t) (h0 : ich) (s : vgic3_t * ich) : Prop := mk_loading {
  ld_rel : relisted v g0 s.1;
  ld_hw : hw_wf s.2;
  ld_nr : hw_nr_lrs s.2 = hw_nr_lrs h0;
  ld_ich : hw_vmcr s.2 = hw_vmcr h0 /\ hw_ap1r0 s.2 = hw_ap1r0 h0 /\ hw_hcr s.2 = hw_hcr h0;
  ld_tight : tight s.2 s.1 v;
  ld_out : forall k, 0 <= k -> outstanding s.2 s.1 v k <-> outstanding h0 g0 v k;
  ld_taken : forall k, 0 <= k -> taken s.2 s.1 v k <-> taken h0 g0 v k;
  ld_level : forall k, 16 <= k -> waits s.1 v k = waits g0 v k;
  ld_covers : forall k, covers v (g0, h0) k -> covers v s k
}.

Lemma relisted_refl v g : relisted v g g.
Proof. split; [apply framed_refl|done]. Qed.
Lemma relisted_trans v g1 g2 g3 : relisted v g1 g2 -> relisted v g2 g3 -> relisted v g1 g3.
Proof. intros (f1 & a1 & w1) (f2 & a2 & w2). split; [by eapply framed_trans|]. split; intros k Hk; [by rewrite a2, a1|by rewrite w2, w1]. Qed.

Lemma loading_refl v g h : hw_wf h -> tight h g v -> loading v g h (g, h).
Proof. by intros Hh Ht; split. Qed.

Lemma loading_trans v g0 h0 s1 s2 : loading v g0 h0 s1 -> loading v s1.1 s1.2 s2 -> loading v g0 h0 s2.
Proof.
  intros [a1 a2 a3 (a4 & a4' & a4'') a5 a6 a7 a8 a9] [b1 b2 b3 (b4 & b4' & b4'') b5 b6 b7 b8 b9]. split; try done; try congruence.
  - by eapply relisted_trans.
  - split_and!; congruence.
  - intros k Hk. by rewrite b6, a6.
  - intros k Hk. by rewrite b7, a7.
  - intros k Hk. by rewrite b8, a8.
  - intros k Hk. apply b9. destruct s1. by apply a9.
Qed.

Lemma place_covers h g v i x g' h' k : (forall k, slots g' v k = only (slots g v) i x k) -> nr_lrs h' = nr_lrs h -> 0 <= i < nr_lrs h -> slots g v i = 0 -> x <> 0 ->
  covers v (g, h) k -> covers v (g', h') k.
Proof.
  intros Hsl Hnr Hi Hs Hx [H|H]; [left|by destruct (H i Hi)]. cbn in *. rewrite (place_in_lr h g v i x g' h') by done. by left.
Qed.

Lemma taken_pending (B A N P E : Prop) : ~ P -> (E -> ~ A) -> (B \/ (E /\ P)) \/ (A /\ ~ (N \/ E)) <-> B \/ (A /\ ~ N).
Proof. tauto. Qed.
Lemma taken_active (B A N P : Prop) (k irq : Z) : P -> (k = irq -> A /\ ~ N) -> (B \/ (k = irq /\ P)) \/ (A /\ ~ (N \/ k = irq)) <-> B \/ (A /\ ~ N).
Proof. destruct (Z.eq_dec k irq); tauto. Qed.

(** One more list register: [c] is the rest of what happens to the CPU's state. *)
Lemma loading_place v g h i irq x g' : vgic_wf g -> hw_wf h -> tight h g v -> 0 <= i < nr_lrs h -> slots g v i = 0 -> ~ in_lr h g v irq ->
  good_lr g v x -> lr_vintid x = irq -> relisted v g g' -> (forall k, slots g' v k = only (slots g v) i x k) ->
  (if lr_state x =? 2 then forall k, 0 <= k -> waits g' v k = waits g v k
   else waits g v irq = true /\ forall k, 0 <= k -> waits g' v k = if (k =? irq) && (irq <? 16) then false else waits g v k) ->
  loading v g h (g', gicv3_write_lr h i x) /\ in_lr (gicv3_write_lr h i x) g' v irq.
Proof.
  intros Hwf Hh Ht Hi Hs Hn Hx Hv Hrel Hsl Hw. assert (Hx0 : x <> 0) by (destruct Hx; lia). pose proof (nr_lrs_write h i x) as Hnr.
  assert (Hin : forall k, in_lr (gicv3_write_lr h i x) g' v k <-> in_lr h g v k \/ k = irq) by (intros k; rewrite (place_in_lr h g v i x), Hv by done; done).
  assert (Hbit : forall b k, hw_bit (gicv3_write_lr h i x) g' v b k <-> hw_bit h g v b k \/ (k = irq /\ Z.testbit (lr_state x) b = true))
    by (intros b k; rewrite (place_hw_bit h g v i x), Hv by done; done).
  assert (Hst : lr_state x = 1 \/ lr_state x = 2) by apply Hx. assert (Hir : 0 <= irq) by (destruct Hx as (_ & _ & ? & _); lia).
  split; [|apply Hin; by right]. split; cbn [fst snd].
  - done.
  - apply write_lr_wf; [done|]. destruct Hx as [? _]. lia.
  - apply write_lr_nr.
  - apply write_lr_ich.
  - rewrite <- Hv in Hn. exact (place_tight h g v i x _ _ Hh Ht Hi Hs Hn Hx Hrel Hsl eq_refl).
  - intros k Hk. unfold outstanding. rewrite Hbit. destruct Hst as [E|E]; rewrite E in *; cbn in Hw.
    + destruct Hw as [Hirq Hw]. rewrite Hw by done. change (Z.testbit 1 0) with true. destruct (Z.eqb_spec k irq) as [->|]; [|cbn; tauto]. rewrite Hirq. cbn. destruct (irq <? 16); tauto.
    + rewrite Hw by done. change (Z.testbit 2 0) with false. pose proof diff_false_true. tauto.
  - intros k Hk. unfold taken. rewrite Hbit, Hin, (proj1 (proj2 Hrel)) by done. destruct Hx as (_ & _ & _ & Ha & _). rewrite Hv in Ha.
    destruct Hst as [E|E]; rewrite E in *.
    + apply taken_pending; [done|intros ->; by rewrite Ha].
    + apply taken_active; [done|intros ->; by rewrite Ha].
  - intros k Hk. destruct Hst as [E|E]; rewrite E in Hw; cbn in Hw; [destruct Hw as [_ Hw]|]; rewrite Hw by lia; [|done].
    destruct (Z.eqb_spec k irq) as [->|]; [|done]. case_if; [lia|done].
  - intros k. exact (place_covers h g v i x _ _ k Hsl Hnr Hi Hs Hx0).
Qed.

Lemma good_lr_value g v irq : vgic_wf g -> 0 <= irq < VGIC3_MAX_IRQS -> acts g v irq = false -> waits g v irq = true -> good_lr g v (vgic3_lr_value g v irq).
Proof.
  intros Hwf Hi Ha Hw. pose proof (lr_value_range g v irq Hwf Hi). split; [done|]. rewrite lr_value_state, lr_value_vintid by done.
  split; [by left|]. split; [done|]. by rewrite Ha.
Qed.
Lemma good_lr_active g v irq : vgic_wf g -> 0 <= irq < VGIC3_MAX_IRQS -> acts g v irq = true ->
  good_lr g v (with_state (vgic3_lr_value g v irq) ICH_LR_ST_ACTIVE) /\ lr_vintid (with_state (vgic3_lr_value g v irq) ICH_LR_ST_ACTIVE) = irq /\
  lr_state (with_state (vgic3_lr_value g v irq) ICH_LR_ST_ACTIVE) = 2.
Proof.
  intros Hwf Hi Ha. pose proof (lr_value_range g v irq Hwf Hi) as Hr. set (x := vgic3_lr_value g v irq) in *.
  assert (Hv : lr_vintid (with_state x 2) = irq) by (rewrite vintid_with_state by lia; by apply lr_value_vintid).
  assert (Hs : lr_state (with_state x 2) = 2) by (apply state_with_state; lia).
  assert (Hb : forall k, 64 <= k -> Z.testbit (with_state x 2) k = false).
  { intros k Hk. rewrite with_state_testbit by lia. case_if; [|lia]. case_if; [|lia]. rewrite (testbit_below x 64), (testbit_below 2 2) by lia. done. }
  assert (Hnn : 0 <= with_state x 2) by (unfold with_state; rewrite Z.lor_nonneg, Z.ldiff_nonneg, Z.shiftl_nonneg; lia).
  assert (Hne : with_state x 2 <> 0) by (intros E; rewrite E in Hs; by vm_compute in Hs).
  split; [|done]. unfold good_lr. rewrite Hv, Hs. split; [|split; [by right|split; [done|by rewrite Ha]]]. split; [lia|].
  apply Z.log2_lt_pow2; [lia|]. apply Z.lt_nge. intros Hge. pose proof (Z.bit_log2 (with_state x 2) ltac:(lia)) as Hbit. rewrite Hb in Hbit by done. done.
Qed.

Lemma load_active_ok v g h irq : vgic_wf g -> hw_wf h -> tight h g v -> 0 <= irq < VGIC3_MAX_IRQS -> acts g v irq = true ->
  match load_active v (g, h) irq with
  | inl s => loading v g h s /\ covers v s irq /\ (forall k, 0 <= k -> waits s.1 v k = waits g v k)
  | inr s => s = (g, h) /\ full h g v
  end.
Proof.
  intros Hwf Hh Ht Hi Ha. unfold load_active. cbn [fst snd]. destruct (lr_has_irq h g v irq) eqn:Hhas.
  - apply in_lr_spec in Hhas; [|done]. split; [by apply loading_refl|]. split; [by left|done].
  - assert (Hn : ~ in_lr h g v irq) by (rewrite <- in_lr_spec by done; by rewrite Hhas).
    destruct (empty_slot_spec h g v) as [[Hs Hf]|[Hs He]]; destruct (Z.ltb_spec (lr_empty_slot h g v) 0); try lia; [done|].
    destruct (good_lr_active g v irq Hwf Hi Ha) as (Hgood & Hvi & Hst). unfold load_lr. cbn [fst snd]. fold (with_state (vgic3_lr_value g v irq) ICH_LR_ST_ACTIVE).
    set (x := with_state _ _) in *. destruct (set_lr_effect g v (lr_empty_slot h g v) x) as [Hf Hw Hac Hsl].
    assert (Hrel : relisted v g (set_vcpu g v (set_lr (vcpu g v) (lr_empty_slot h g v) x))) by (split; [done|split; intros; [by rewrite Hac|by rewrite Hw by lia]]).
    destruct (loading_place v g h (lr_empty_slot h g v) irq x _ Hwf Hh Ht Hs He Hn Hgood Hvi Hrel Hsl) as [Hl Hin]; [rewrite Hst; exact Hw|].
    split; [done|]. split; [by left|done].
Qed.

Lemma load_pending_ok v g h irq : vgic_wf g -> hw_wf h -> tight h g v -> 0 <= irq < VGIC3_MAX_IRQS -> acts g v irq = false -> waits g v irq = true ->
  match load_pending v (g, h) irq with
  | inl s => loading v g h s /\ covers v s irq /\ (forall k, 0 <= k -> k <> irq -> waits s.1 v k = waits g v k)
  | inr s => s = (g, h) /\ full h g v
  end.
Proof.
  intros Hwf Hh Ht Hi Ha Hwt. unfold load_pending. cbn [fst snd]. destruct (lr_has_irq h g v irq) eqn:Hhas.
  - apply in_lr_spec in Hhas; [|done]. split; [by apply loading_refl|]. split; [by left|done].
  - assert (Hn : ~ in_lr h g v irq) by (rewrite <- in_lr_spec by done; by rewrite Hhas).
    destruct (empty_slot_spec h g v) as [[Hs Hf]|[Hs He]]; destruct (Z.ltb_spec (lr_empty_slot h g v) 0); try lia; [done|].
    pose proof (good_lr_value g v irq Hwf Hi Ha Hwt) as Hgood. unfold load_lr. cbn [fst snd].
    set (x := vgic3_lr_value g v irq) in *. set (i := lr_empty_slot h g v) in *.
    destruct (set_lr_effect g v i x) as [Hf Hw Hac Hsl]. set (g1 := set_vcpu g v (set_lr (vcpu g v) i x)) in *.
    set (g2 := if irq <? 16 then _ else g1).
    assert (He2 : effect v g g2 (fun k => if (k =? irq) && (irq <? 16) then false else waits g v k) (acts g v) (only (slots g v) i x)).
    { subst g2. destruct (Z.ltb_spec irq 16).
      - assert (Heff : effect v g1 (set_vcpu g1 v (set_sources (set_irqs (vcpu g1 v) (enabled0 (vcpu g1 v)) (Z.ldiff (pending0 (vcpu g1 v)) (irq_bit irq)) (active0 (vcpu g1 v))) irq 0))
          (only (waits g1 v) irq false) (acts g1 v) (slots g1 v)) by (apply (pending0_effect false); [lia|done..]).
        destruct Heff as [Hf' Hw' Hac' Hsl']. split; [by eapply framed_trans| | |].
        + intros k Hk. rewrite Hw' by done. unfold only. rewrite andb_true_r. case_if; [done|by apply Hw].
        + intros k Hk. rewrite Hac', Hac by done. done.
        + intros k. by rewrite Hsl', Hsl.
      - split; [done| |done|done]. intros k Hk. rewrite andb_false_r. by apply Hw. }
    destruct He2 as [Hf2 Hw2 Hac2 Hsl2].
    assert (Hrel : relisted v g g2) by (split; [done|split; intros; [by rewrite Hac2|rewrite Hw2 by lia; case_if; [lia|done]]]).
    destruct (loading_place v g h i irq x g2 Hwf Hh Ht Hs He Hn Hgood (lr_value_vintid g v irq Hwf Hi) Hrel Hsl2) as [Hl Hin].
    { unfold x. rewrite lr_value_state by done. done. }
    split; [done|]. split; [by left|]. intros k Hk Hne. cbn [fst]. rewrite Hw2 by done. destruct (Z.eqb_spec k irq); [done|done].
Qed.

Lemma word_in_bit w j b : 0 <= b < 32 -> word_in w (j * 32 + b) = Z.testbit (w j) b.
Proof.
  intros Hb. unfold word_in. rewrite Z.div_add_l, (Z.div_small b), Z.add_0_r by lia. by rewrite Z.add_comm, Z_mod_plus_full, Z.mod_small by lia.
Qed.
Lemma active_word_spec g v j b : valid_vcpu g v = true -> 0 <= j < 32 -> 0 <= b < 32 -> Z.testbit (vmm_vgic3_active_word g v j) b = acts g v (j * 32 + b).
Proof. intros Hv Hj Hb. unfold vmm_vgic3_active_word, acts. rewrite word_in_bit, Hv by done. case_if; [lia|]. done. Qed.
Lemma pending_word_spec g v j b : valid_vcpu g v = true -> 0 <= j < 32 -> 0 <= b < 32 -> Z.testbit (vmm_vgic3_pending_word g v j) b = waits g v (j * 32 + b).
Proof. intros Hv Hj Hb. unfold vmm_vgic3_pending_word, waits. rewrite word_in_bit, Hv by done. case_if; [lia|]. done. Qed.
Lemma enabled_word_spec g v j b : valid_vcpu g v = true -> 0 <= j < 32 -> 0 <= b < 32 -> Z.testbit (vmm_vgic3_enabled_word g v j) b = permits g v (j * 32 + b).
Proof.
  intros Hv Hj Hb. unfold vmm_vgic3_enabled_word, permits. rewrite word_in_bit, Hv by done. case_if; [lia|]. destruct (Z.eqb_spec j 0) as [->|].
  - rewrite Z.lor_spec. change SGI_MASK with (Z.ones 16). rewrite Z.testbit_ones_nonneg by lia. rewrite orb_comm. cbn. by replace (b <? 16) with (0 + b <? 16).
  - destruct (Z.ltb_spec (j * 32 + b) 16); [lia|done].
Qed.
Lemma active_word_range g v j : vgic_wf g -> 0 <= vmm_vgic3_active_word g v j < 2 ^ 32.
Proof. intros Hwf. destruct (wf_words g v Hwf) as (_ & ? & Hs). unfold vmm_vgic3_active_word. repeat case_if; [lia|done|apply Hs]. Qed.
Lemma ready_word_range g v j : vgic_wf g -> 0 <= ready_word g v j < 2 ^ 32.
Proof.
  intros Hwf. destruct (wf_words g v Hwf) as (? & _ & Hs). unfold ready_word. apply ldiff_range, land_range; [lia|].
  unfold vmm_vgic3_pending_word. repeat case_if; [lia|done|apply Hs].
Qed.
Definition ready (g : vgic3_t) (v irq : Z) : bool := waits g v irq && permits g v irq && negb (acts g v irq).
Lemma ready_word_spec g v j b : valid_vcpu g v = true -> 0 <= j < 32 -> 0 <= b < 32 -> Z.testbit (ready_word g v j) b = ready g v (j * 32 + b).
Proof. intros Hv Hj Hb. unfold ready_word, ready. by rewrite Z.ldiff_spec, Z.land_spec, pending_word_spec, enabled_word_spec, active_word_spec. Qed.

Section entry.
Context (v : Z) (g0 : vgic3_t) (h0 : ich).
Hypothesis (Hwf : vgic_wf g0) (Hv : valid_vcpu g0 v = true).

Lemma loading_wf s : loading v g0 h0 s -> vgic_wf s.1 /\ valid_vcpu s.1 v = true.
Proof using Hwf Hv. intros [[Hf _] _ _ _ _ _ _ _ _]. split; [by apply Hf|]. unfold valid_vcpu. by rewrite (fr_nr _ _ _ Hf). Qed.

Definition reloading (s : vgic3_t * ich) : Prop := loading v g0 h0 s /\ forall k, 0 <= k -> waits s.1 v k = waits g0 v k.

(** Within a word: the bits of [w] are still to be loaded. *)
Definition reload_inv (j : Z) (s : vgic3_t * ich) (w : Z) (s' : vgic3_t * ich) : Prop :=
  reloading s' /\ (forall k, covers v s k -> covers v s' k) /\
  (forall b, 0 <= b < 32 -> acts g0 v (j * 32 + b) = true -> Z.testbit w b = true \/ covers v s' (j * 32 + b)) /\
  (forall b, 0 <= b < 32 -> Z.testbit w b = true -> acts g0 v (j * 32 + b) = true).

Lemma reload_step j s w w' i s1 : 0 <= j < 32 -> 0 <= i < 32 -> Z.testbit w i = true ->
  (forall k, 0 <= k -> Z.testbit w' k = Z.testbit w k && negb (k =? i)) -> reload_inv j s w s1 ->
  match load_active v s1 (j * 32 + i) with
  | inl s2 => reload_inv j s w' s2
  | inr s2 => reloading s2 /\ (forall k, covers v s k -> covers v s2 k) /\ full s2.2 s2.1 v
  end.
Proof using Hwf Hv.
  intros Hj Hi Hb Hw' (H1 & H2 & H3 & H4). destruct (loading_wf s1 (proj1 H1)) as [Hwf1 Hv1]. pose proof H1 as [Hl1 Hwt1].
  pose proof Hl1 as [Hrel Hh1 _ _ Ht1 _ _ _ _]. destruct s1 as [g1 h1]. cbn [fst snd] in *.
  assert (Ha : acts g1 v (j * 32 + i) = true) by (rewrite (proj1 (proj2 Hrel)) by lia; by apply H4).
  pose proof (load_active_ok v g1 h1 (j * 32 + i) Hwf1 Hh1 Ht1 ltac:(lia) Ha) as Hok.
  destruct (load_active v (g1, h1) (j * 32 + i)) as [s2|s2]; [destruct Hok as (Hl & Hc & Hw)|by destruct Hok as [-> Hf]].
  pose proof (ld_covers _ _ _ _ Hl) as Hcov. split; [split; [by apply (loading_trans v g0 h0 (g1, h1))|by intros; rewrite Hw, Hwt1]|]. split; [auto|]. split.
  - intros b Hb1 Hab. rewrite Hw' by lia. destruct (decide (b = i)) as [->|]; [by right|]. destruct (H3 b Hb1 Hab) as [->|]; [left; lia|right; auto].
  - intros b Hb1 Hb2. rewrite Hw' in Hb2 by lia. apply H4; [done|lia].
Qed.

Lemma reload_word s j : 0 <= j < 32 -> reloading s ->
  let s' := both (each_bit 33 ctz_next (fun s i => load_active v s (j * 32 + i)) (vmm_vgic3_active_word s.1 v j) s) in
  reloading s' /\ (forall k, covers v s k -> covers v s' k) /\ forall b, 0 <= b < 32 -> acts g0 v (j * 32 + b) = true -> covers v s' (j * 32 + b).
Proof using Hwf Hv.
  intros Hj Hs. destruct (loading_wf s (proj1 Hs)) as [Hwfs Hvs].
  pose proof (each_bit_rule (reload_inv j s) _ ctz_next (fun s i => load_active v s (j * 32 + i)) ctz_takes_low
    (fun w w' i s1 Hi Hb Hw' HI => reload_step j s w w' i s1 Hj Hi Hb Hw' HI) _ s (active_word_range s.1 v j Hwfs)) as Hrule.
  assert (HI : reload_inv j s (vmm_vgic3_active_word s.1 v j) s).
  { split; [done|]. split; [done|]. split; intros b Hb; rewrite active_word_spec by done; destruct Hs as [[(_ & Ha & _) _ _ _ _ _ _ _ _] _]; rewrite Ha by lia; auto. }
  specialize (Hrule HI). destruct (each_bit _ _ _ _ s) as [s'|s']; cbn [both].
  - destruct Hrule as (H1 & H2 & H3 & _). split; [done|]. split; [done|]. intros b Hb Hab. destruct (H3 b Hb Hab) as [H|H]; [by rewrite Z.testbit_0_l in H|done].
  - destruct Hrule as (H1 & H2 & H3). split; [done|]. split; [done|]. intros b _ _. by right.
Qed.

Lemma reload_ok s : reloading s -> reloading (reload v s) /\ forall k, 0 <= k < VGIC3_MAX_IRQS -> acts g0 v k = true -> covers v (reload v s) k.
Proof using Hwf Hv.
  intros Hs. unfold reload.
  apply (for_range_ind (fun j s' => reloading s' /\ forall k, 0 <= k < j * 32 -> acts g0 v k = true -> covers v s' k) 0 32); [lia|split; [done|lia]|].
  intros j s1 Hj [H1 H2]. destruct (reload_word s1 j Hj H1) as (H3 & H4 & H5). split; [done|]. intros k Hk Hak.
  destruct (decide (k < j * 32)); [apply H4, H2; [lia|done]|]. replace k with (j * 32 + (k - j * 32)) by lia. apply H5; [lia|]. by replace (j * 32 + (k - j * 32)) with k by lia.
Qed.

(** The waiting interrupts from number [n] on are still as they were. *)
Definition queueing (n : Z) (s : vgic3_t * ich) : Prop := loading v g0 h0 s /\ forall k, n <= k -> 0 <= k -> waits s.1 v k = waits g0 v k.

Definition queue_inv (j : Z) (s : vgic3_t * ich) (w : Z) (s' : vgic3_t * ich) : Prop :=
  queueing ((j + 1) * 32) s' /\ (forall k, covers v s k -> covers v s' k) /\
  (forall b, 0 <= b < 32 -> ready g0 v (j * 32 + b) = true -> Z.testbit w b = true \/ covers v s' (j * 32 + b)) /\
  (forall b, 0 <= b < 32 -> Z.testbit w b = true -> ready g0 v (j * 32 + b) = true /\ waits s'.1 v (j * 32 + b) = true).

Lemma queue_step j s w w' i s1 : 0 <= j < 32 -> 0 <= i < 32 -> Z.testbit w i = true ->
  (forall k, 0 <= k -> Z.testbit w' k = Z.testbit w k && negb (k =? i)) -> queue_inv j s w s1 ->
  match load_pending v s1 (u32 (j * 32 + i)) with
  | inl s2 => queue_inv j s w' s2
  | inr s2 => loading v g0 h0 s2 /\ full s2.2 s2.1 v
  end.
Proof using Hwf Hv.
  intros Hj Hi Hb Hw' (H1 & H2 & H3 & H4). rewrite u32_id by lia. destruct (loading_wf s1 (proj1 H1)) as [Hwf1 Hv1]. pose proof H1 as [Hl1 Hwt1].
  pose proof Hl1 as [Hrel Hh1 _ _ Ht1 _ _ _ _]. destruct s1 as [g1 h1]. cbn [fst snd] in *. destruct (H4 i Hi Hb) as [Hr Hwi].
  assert (Ha : acts g1 v (j * 32 + i) = false) by (rewrite (proj1 (proj2 Hrel)) by lia; unfold ready in Hr; lia).
  pose proof (load_pending_ok v g1 h1 (j * 32 + i) Hwf1 Hh1 Ht1 ltac:(lia) Ha Hwi) as Hok.
  destruct (load_pending v (g1, h1) (j * 32 + i)) as [s2|s2]; [destruct Hok as (Hl & Hc & Hw)|by destruct Hok as [-> Hf]].
  pose proof (ld_covers _ _ _ _ Hl) as Hcov. split; [split; [by apply (loading_trans v g0 h0 (g1, h1))|intros; rewrite Hw, Hwt1 by lia; done]|]. split; [auto|]. split.
  - intros b Hb1 Hab. rewrite Hw' by lia. destruct (decide (b = i)) as [->|]; [by right|]. destruct (H3 b Hb1 Hab) as [->|]; [left; lia|right; auto].
  - intros b Hb1 Hb2. rewrite Hw' in Hb2 by lia. destruct (Z.eqb_spec b i) as [->|Hne]; [by rewrite andb_false_r in Hb2|]. rewrite andb_true_r in Hb2.
    destruct (H4 b Hb1 Hb2) as [Hr' Hw'']. split; [done|]. rewrite Hw; [done|clear - Hj Hb1; lia|]. intros E. apply Hne. clear - E. lia.
Qed.

Lemma queue_word_ok s j : 0 <= j < 32 -> queueing (j * 32) s ->
  match queue_word v s j with
  | inl s' => queueing ((j + 1) * 32) s' /\ (forall k, covers v s k -> covers v s' k) /\ forall b, 0 <= b < 32 -> ready g0 v (j * 32 + b) = true -> covers v s' (j * 32 + b)
  | inr s' => loading v g0 h0 s' /\ full s'.2 s'.1 v
  end.
Proof using Hwf Hv.
  intros Hj Hs. destruct (loading_wf s (proj1 Hs)) as [Hwfs Hvs].
  pose proof (each_bit_rule (queue_inv j s) _ low_next (fun s i => load_pending v s (u32 (j * 32 + i))) low_takes_low
    (fun w w' i s1 Hi Hb Hw' HI => queue_step j s w w' i s1 Hj Hi Hb Hw' HI) _ s (ready_word_range s.1 v j Hwfs)) as Hrule.
  assert (Hready : forall b, 0 <= b < 32 -> ready s.1 v (j * 32 + b) = ready g0 v (j * 32 + b)).
  { intros b Hb. destruct Hs as [[(Hf & Ha & _) _ _ _ _ _ _ _ _] Hw]. unfold ready. rewrite Ha, Hw, (fr_permits _ _ _ Hf) by lia. done. }
  assert (HI : queue_inv j s (ready_word s.1 v j) s).
  { split; [split; [apply Hs|intros; apply Hs; lia]|]. split; [done|].
    split; intros b Hb; rewrite ready_word_spec by done; intros Hr; [left; by rewrite Hready|]. pose proof Hr as Hr'. rewrite Hready in Hr' by done. split; [done|]. unfold ready in Hr. lia. }
  specialize (Hrule HI). unfold queue_word. destruct (each_bit _ _ _ _ s) as [s'|s']; [|done].
  destruct Hrule as (H1 & H2 & H3 & _). split; [done|]. split; [done|]. intros b Hb Hab. destruct (H3 b Hb Hab) as [H|H]; [by rewrite Z.testbit_0_l in H|done].
Qed.

Definition queue_post (j : Z) (r : (vgic3_t * ich) + (vgic3_t * ich)) : Prop :=
  match r with
  | inl s => queueing (j * 32) s /\ forall k, 0 <= k < j * 32 -> ready g0 v k = true -> covers v s k
  | inr s => loading v g0 h0 s /\ full s.2 s.1 v
  end.

Lemma queue_ok s : queueing 0 s -> loading v g0 h0 (queue v s) /\ forall k, 0 <= k < VGIC3_MAX_IRQS -> ready g0 v k = true -> covers v (queue v s) k.
Proof using Hwf Hv.
  intros Hs. unfold queue.
  assert (Hrule : queue_post 32 (for_range 0 32 (fun s word => match s with inl s => queue_word v s word | inr s => inr s end) (inl s))).
  { apply (for_range_ind queue_post); [lia|split; [done|lia]|].
    intros j [s1|s1] Hj; [|done]. intros [H1 H2]. pose proof (queue_word_ok s1 j Hj H1) as Hw. destruct (queue_word v s1 j) as [s2|s2]; [|done].
    destruct Hw as (H3 & H4 & H5). split; [done|]. intros k Hk Hrk. destruct (decide (k < j * 32)); [apply H4, H2; [lia|done]|].
    replace k with (j * 32 + (k - j * 32)) by lia. apply H5; [lia|]. by replace (j * 32 + (k - j * 32)) with k by lia. }
  destruct (for_range _ _ _ _) as [s'|s']; cbn [both]; [destruct Hrule as [[H1 _] H2]; split; [done|]; intros; apply H2; [lia|done]|].
  destruct Hrule as [H1 H2]. split; [done|]. intros k _ _. by right.
Qed.
End entry.

Lemma reclaim_effect v h g : hw_wf h ->
  effect v g (reclaim v h g) (waits g v) (acts g v) (fun i => if (0 <=? i) && (i <? nr_lrs h) && (lr_state (hw_lr h i) =? 0) then 0 else slots g v i).
Proof.
  intros Hh. unfold reclaim. pose proof (nr_lrs_hw h Hh) as Hn. destruct (Hh) as [Hr _].
  apply (for_range_ind (fun j g' => effect v g g' (waits g v) (acts g v) (fun i => if (0 <=? i) && (i <? j) && (lr_state (hw_lr h i) =? 0) then 0 else slots g v i))); [lia| |].
  - split; [apply framed_refl|done|done|]. intros i. case_if; [lia|done].
  - intros j g' Hj He. rewrite elrsr_spec by done. destruct (Z.eqb_spec (lr_state (hw_lr h j)) 0) as [E|E]; cbn [negb].
    + eapply effect_trans; [exact He|apply set_lr_effect|intros; auto|intros; auto|]. intros i Hs. unfold only. rewrite Hs.
      destruct (Z.eqb_spec i j) as [->|]; [case_if; [done|lia]|]. repeat case_if; (done || lia).
    + destruct He as [H1 H2 H3 H4]. split; [done..|]. intros i. rewrite H4. destruct (decide (i = j)) as [->|]; [|repeat case_if; (done || lia)].
      repeat case_if; (done || lia).
Qed.

(** What entry gives: the list registers are the copies, nothing is lost or invented, and what
    can be delivered is in a list register unless all are in use. *)
Definition entered (v : Z) (g1 : vgic3_t) (h : ich) (s : vgic3_t * ich) : Prop :=
  loading v g1 h s /\ forall k, 0 <= k < VGIC3_MAX_IRQS -> ready g1 v k || acts g1 v k = true -> covers v s k.

Lemma sync_entry_ok v g h : vgic_wf g -> hw_wf h -> valid_vcpu g v = true -> synced h g v ->
  entered v (reclaim v h g) h (vmm_vgic3_sync_entry g h v).
Proof.
  intros Hwf Hh Hv [Hs Hu]. unfold vmm_vgic3_sync_entry. rewrite Hv. cbn [negb].
  destruct (reclaim_effect v h g Hh) as [Hf Hw Ha Hsl]. set (g1 := reclaim v h g) in *.
  assert (Hwf1 : vgic_wf g1) by by apply Hf.
  assert (Hv1 : valid_vcpu g1 v = true) by (unfold valid_vcpu; by rewrite (fr_nr _ _ _ Hf)).
  assert (Hin : forall i, 0 <= i < nr_lrs h -> slots g1 v i = if lr_state (hw_lr h i) =? 0 then 0 else slots g v i).
  { intros i Hi. rewrite Hsl. repeat case_if; (done || lia). }
  assert (Ht : tight h g1 v).
  { split.
    - intros i Hi. rewrite Hin by done. destruct (Z.eqb_spec (lr_state (hw_lr h i)) 0) as [E|E]; [by left|]. right.
      destruct (Hs i Hi) as [?|[Hx Hg]]; [done|]. split; [done|]. apply (good_lr_relisted v g); [split; [done|split; [done|intros; by rewrite Hw by lia]]|done].
    - intros i j Hi Hj. rewrite !Hin by done. destruct (Z.eqb_spec (lr_state (hw_lr h i)) 0), (Z.eqb_spec (lr_state (hw_lr h j)) 0); [done..|]. intros _ _ E. by apply Hu. }
  destruct (reload_ok v g1 h Hwf1 Hv1 (g1, h)) as [[Hl2 Hw2] Hc2]; [split; [by apply loading_refl|done]|].
  set (s2 := reload v (g1, h)) in *. destruct (loading_wf v g1 h Hwf1 Hv1 s2 Hl2) as [Hwf2 Hv2].
  destruct (queue_ok v s2.1 s2.2 Hwf2 Hv2 s2) as [Hl3 Hc3].
  { split; [|done]. destruct Hl2 as [_ Hh2 _ _ Ht2 _ _ _ _]. pose proof (loading_refl v s2.1 s2.2 Hh2 Ht2) as Hr. by rewrite <- surjective_pairing in Hr. }
  split; [by eapply loading_trans|]. intros k Hk Hr. destruct (acts g1 v k) eqn:Hak.
  - pose proof (ld_covers _ _ _ _ Hl3 k) as Hcov. rewrite <- surjective_pairing in Hcov. by apply Hcov, Hc2.
  - rewrite orb_false_r in Hr. apply Hc3; [done|]. destruct Hl2 as [(Hf2 & Ha2 & _) _ _ _ _ _ _ _ _]. unfold ready in *.
    rewrite Hw2, Ha2, (fr_permits _ _ _ Hf2) by lia. done.
Qed.

(** Entry of the CPU that has the list registers. *)
Lemma reclaim_tight v h g : hw_wf h -> tight h g v -> forall i, 0 <= i < nr_lrs h -> slots (reclaim v h g) v i = slots g v i.
Proof.
  intros Hh [Ht _] i Hi. destruct (reclaim_effect v h g Hh) as [_ _ _ Hsl]. rewrite Hsl. case_if; [|done].
  destruct (Ht i Hi) as [[? _]|[Hx (_ & Hst & _)]]; [done|]. rewrite Hx in *. lia.
Qed.

Lemma hw_bit_slots h g g' v b k : (forall i, 0 <= i < nr_lrs h -> slots g' v i = slots g v i) -> hw_bit h g' v b k <-> hw_bit h g v b k.
Proof. intros H. unfold hw_bit. split; intros (i & Hi & ?); exists i; rewrite H in * by done; done. Qed.
Lemma in_lr_slots h g g' v k : (forall i, 0 <= i < nr_lrs h -> slots g' v i = slots g v i) -> in_lr h g' v k <-> in_lr h g v k.
Proof. intros H. unfold in_lr. split; intros (i & Hi & ?); exists i; rewrite H in * by done; done. Qed.

Lemma tight_synced h g v : tight h g v -> synced h g v.
Proof.
  intros [Ht Hu]. split; [intros i Hi; destruct (Ht i Hi) as [[_ ?]|?]; auto|].
  intros i j Hi Hj H1 H2 E. apply Hu; try done.
  - destruct (Ht i Hi) as [[_ ?]|[_ [? _]]]; [done|lia].
  - destruct (Ht j Hj) as [[_ ?]|[_ [? _]]]; [done|lia].
Qed.

(** ** Exit *)

(** While the guest runs the list registers change their state only. *)
Definition coherent (h : ich) (g : vgic3_t) (v : Z) : Prop :=
  (forall i, 0 <= i < nr_lrs h ->
     (slots g v i = 0 /\ lr_state (hw_lr h i) = 0) \/
     (good_lr g v (slots g v i) /\ lr_vintid (hw_lr h i) = lr_vintid (slots g v i) /\ lr_state (hw_lr h i) <> 3 /\
      (lr_state (hw_lr h i) = 1 -> lr_state (slots g v i) = 1))) /\ unique h g v.

Lemma tight_coherent h g v : tight h g v -> coherent h g v.
Proof.
  intros [Ht Hu]. split; [|done]. intros i Hi. destruct (Ht i Hi) as [?|[Hx Hg]]; [by left|]. right. rewrite Hx. split_and!; try done.
  destruct Hg as (_ & ? & _). lia.
Qed.

(** What [exit_lr] makes of a copy [m] and a list register [x]. *)
Definition after (x m : Z) : Z := if (m =? 0) || (lr_state x =? 0) then 0 else x.

Lemma exit_lr_effect h g v i : hw_wf h -> coherent h g v -> 0 <= i < nr_lrs h -> slots g v i <> 0 ->
  let x := hw_lr h i in let irq := lr_vintid (slots g v i) in
  forall g', slots g' v i = slots g v i -> (lr_state x = 1 -> acts g' v irq = false) ->
  effect v g' (exit_lr v h g' i)
    (if (lr_state x =? 2) && (16 <=? irq) then only (waits g' v) irq false else waits g' v)
    (only (acts g' v) irq (lr_state x =? 2)) (only (slots g' v) i (after x (slots g v i))).
Proof.
  intros Hh [Hc _] Hi Hs x irq g' Hg' Hact. pose proof (nr_lrs_16 h Hh).
  destruct (Hc i Hi) as [[? _]|(Hgood & Hvi & H3 & H1)]; [done|]. fold x in H3, H1, Hvi. pose proof (lr_state_range x) as Hr.
  assert (Hirq : 0 <= irq) by (destruct Hgood as (_ & _ & ? & _); unfold irq; lia).
  unfold exit_lr, after. fold (slots g' v i). rewrite Hg'. fold irq. destruct (Z.eqb_spec (slots g v i) 0); [done|]. rewrite elrsr_spec by done. fold x.
  destruct (Z.eqb_spec (lr_state x) 0) as [E|E]; cbn [negb orb].
  - rewrite E. cbn [Z.eqb andb]. pose proof (acts_effect false g' v irq Hirq) as He. cbn [Z.eqb] in *.
    eapply effect_trans; [exact He|apply set_lr_effect|intros; auto|intros; auto|]. intros k Hk. unfold only. by rewrite Hk.
  - unfold gicv3_read_lr. case_if; [|lia]. fold x. destruct (Z.eqb_spec (lr_state x) 2) as [E2|E2].
    + rewrite E2. change (negb (Z.land 2 ICH_LR_ST_ACTIVE =? 0)) with true. cbn [andb].
      assert (Hp : effect v g' (if 16 <=? irq then clear_pending g' v irq else g') (if 16 <=? irq then only (waits g' v) irq false else waits g' v) (acts g' v) (slots g' v)).
      { case_if; [by apply clear_pending_effect|]. split; [apply framed_refl|done..]. }
      set (g2 := if 16 <=? irq then clear_pending g' v irq else g') in *.
      destruct Hp as [f1 w1 a1 l1], (acts_effect true g2 v irq Hirq) as [f2 w2 a2 l2], (set_lr_effect (set_active g2 v irq) v i x) as [f3 w3 a3 l3].
      split; [by eapply framed_trans; [eapply framed_trans|]| | |].
      * intros k Hk. by rewrite w3, w2, w1.
      * intros k Hk. rewrite a3, a2 by done. unfold only. case_if; [done|by apply a1].
      * intros k. rewrite l3. unfold only. by rewrite l2, l1.
    + assert (E1 : lr_state x = 1) by lia. rewrite E1. change (negb (Z.land 1 ICH_LR_ST_ACTIVE =? 0)) with false. cbn [andb].
      destruct (set_lr_effect g' v i x) as [Hf Hw Ha Hsl]. split; [done|done| |done].
      intros k Hk. rewrite Ha by done. unfold only. destruct (Z.eqb_spec k irq) as [->|]; [by apply Hact|done].
Qed.

(** The first [j] list registers are read back. *)
Record exiting (h : ich) (g : vgic3_t) (v j : Z) (g' : vgic3_t) : Prop := mk_exiting {
  ex_frame : framed v g g';
  ex_slots : forall i, slots g' v i = if (0 <=? i) && (i <? j) then after (hw_lr h i) (slots g v i) else slots g v i;
  ex_acts : forall i, 0 <= i < j -> slots g v i <> 0 -> acts g' v (lr_vintid (slots g v i)) = (lr_state (hw_lr h i) =? 2);
  ex_acts' : forall k, 0 <= k -> (forall i, 0 <= i < j -> slots g v i <> 0 -> lr_vintid (slots g v i) <> k) -> acts g' v k = acts g v k;
  ex_waits : forall i, 0 <= i < j -> slots g v i <> 0 ->
    waits g' v (lr_vintid (slots g v i)) = if (lr_state (hw_lr h i) =? 2) && (16 <=? lr_vintid (slots g v i)) then false else waits g v (lr_vintid (slots g v i));
  ex_waits' : forall k, 0 <= k -> (forall i, 0 <= i < j -> slots g v i <> 0 -> lr_vintid (slots g v i) <> k) -> waits g' v k = waits g v k
}.

Lemma exiting_step h g v j g' : hw_wf h -> coherent h g v -> 0 <= j < nr_lrs h -> exiting h g v j g' -> exiting h g v (j + 1) (exit_lr v h g' j).
Proof.
  intros Hh Hc Hj [Hf Hsl Ha Ha' Hw Hw']. destruct (Hc) as [Hok Hu].
  assert (Hsj : slots g' v j = slots g v j) by (rewrite Hsl; case_if; [lia|done]).
  destruct (decide (slots g v j = 0)) as [E0|E0].
  - assert (exit_lr v h g' j = g') as -> by (unfold exit_lr; fold (slots g' v j); rewrite Hsj, E0; done).
    assert (Hlt : forall i, 0 <= i < j + 1 -> slots g v i <> 0 -> 0 <= i < j) by (intros i Hi Hs; destruct (decide (i = j)) as [->|]; [done|lia]).
    split; [done| |intros; apply Ha; auto|intros; apply Ha'; [done|intros i Hi; apply H0; lia]|intros; apply Hw; auto|intros; apply Hw'; [done|intros i Hi; apply H0; lia]].
    intros i. rewrite Hsl. destruct (decide (i = j)) as [->|]; [|repeat case_if; (done || lia)]. repeat case_if; try lia; unfold after; by rewrite E0.
  - destruct (Hok j Hj) as [[? _]|(Hgood & _ & _ & H1)]; [done|]. set (irq := lr_vintid (slots g v j)) in *.
    assert (Hirq : 0 <= irq) by (destruct Hgood as (_ & _ & ? & _); unfold irq; lia).
    assert (Hnew : forall i, 0 <= i < j -> slots g v i <> 0 -> lr_vintid (slots g v i) <> irq) by (intros i Hi Hs E; pose proof (Hu i j ltac:(lia) Hj Hs E0 E); lia).
    destruct (exit_lr_effect h g v j Hh Hc Hj E0 g' Hsj) as [Hf2 Hw2 Ha2 Hs2].
    { intros E1. rewrite Ha' by done. destruct Hgood as (_ & _ & _ & Hact & _). unfold irq. rewrite Hact, H1 by done. done. }
    fold irq in Hw2, Ha2.
    assert (Hpos : forall i, 0 <= i < j + 1 -> slots g v i <> 0 -> 0 <= lr_vintid (slots g v i)).
    { intros i Hi Hs. destruct (Hok i ltac:(lia)) as [[? _]|((_ & _ & ? & _) & _)]; [done|lia]. }
    split; [by eapply framed_trans|..].
    + intros i. rewrite Hs2. unfold only. rewrite Hsl. destruct (Z.eqb_spec i j) as [->|]; repeat case_if; (done || lia).
    + intros i Hi Hs. rewrite Ha2 by auto. unfold only. destruct (decide (i = j)) as [->|]; [by rewrite Z.eqb_refl|].
      destruct (Z.eqb_spec (lr_vintid (slots g v i)) irq) as [E|]; [by apply Hnew in E; [|lia|]|]. apply Ha; [lia|done].
    + intros k Hk Hno. rewrite Ha2 by done. unfold only. destruct (Z.eqb_spec k irq) as [->|]; [by destruct (Hno j); [lia|..]|]. apply Ha'; [done|]. intros i Hi. apply Hno. lia.
    + intros i Hi Hs. rewrite Hw2 by auto. destruct (decide (i = j)) as [->|].
      * fold irq. destruct (_ && _); [unfold only; by rewrite Z.eqb_refl|]. by apply Hw'.
      * assert (lr_vintid (slots g v i) <> irq) by (apply Hnew; [lia|done]).
        destruct ((lr_state (hw_lr h j) =? 2) && _); [unfold only; destruct (Z.eqb_spec (lr_vintid (slots g v i)) irq); [done|]|]; apply Hw; (lia || done).
    + intros k Hk Hno. rewrite Hw2 by done. assert (k <> irq) by (intros ->; by destruct (Hno j); [lia|..]).
      destruct (_ && _); [unfold only; destruct (Z.eqb_spec k irq); [done|]|]; (apply Hw'; [done|]; intros i Hi; apply Hno; lia).
Qed.

Lemma sync_exit_exiting h g v : hw_wf h -> valid_vcpu g v = true -> coherent h g v -> exiting h g v (nr_lrs h) (vmm_vgic3_sync_exit g h v).
Proof.
  intros Hh Hv Hc. unfold vmm_vgic3_sync_exit. rewrite Hv. cbn [negb]. pose proof (nr_lrs_hw h Hh). destruct (Hh) as [? _].
  apply (for_range_ind (exiting h g v)); [lia| |intros j g' Hj He; by apply exiting_step].
  split; [apply framed_refl|intros i; case_if; [lia|done]|lia|done|lia|done].
Qed.

(** What exit gives: the copies are the list registers, the active bits are what the guest has
    taken, and of what waits only what the guest acknowledged is gone. *)
Record exited (h : ich) (g : vgic3_t) (v : Z) (g' : vgic3_t) : Prop := mk_exited {
  xt_frame : framed v g g';
  xt_tight : tight h g' v;
  xt_acts : forall k, 0 <= k -> acts g' v k = true <-> taken h g v k;
  xt_taken : forall k, 0 <= k -> taken h g' v k <-> taken h g v k;
  xt_bit : forall b k, hw_bit h g' v b k <-> hw_bit h g v b k;
  xt_waits : forall k, 0 <= k -> waits g' v k = true <-> waits g v k = true /\ ~ (16 <= k /\ hw_bit h g v 1 k)
}.

Lemma decide_in_lr h g v k : hw_wf h -> {in_lr h g v k} + {~ in_lr h g v k}.
Proof. intros Hh. destruct (lr_has_irq h g v k) eqn:E; [left|right]; rewrite <- in_lr_spec by done; congruence. Qed.

Lemma testbit_state x : lr_state x <> 3 -> Z.testbit (lr_state x) 1 = (lr_state x =? 2) /\ Z.testbit (lr_state x) 0 = (lr_state x =? 1).
Proof.
  intros H. pose proof (lr_state_range x). assert (lr_state x = 0 \/ lr_state x = 1 \/ lr_state x = 2) as [E|[E|E]] by lia; rewrite E; done.
Qed.

Lemma in_slot_bit h g v b i : coherent h g v -> 0 <= i < nr_lrs h -> slots g v i <> 0 ->
  hw_bit h g v b (lr_vintid (slots g v i)) <-> Z.testbit (lr_state (hw_lr h i)) b = true.
Proof.
  intros [_ Hu] Hi Hs. split; [|intros; by exists i]. intros (j & Hj & Hsj & E & Hb). by rewrite <- (Hu j i Hj Hi Hsj Hs E).
Qed.

Lemma sync_exit_ok h g v : vgic_wf g -> hw_wf h -> valid_vcpu g v = true -> coherent h g v -> exited h g v (vmm_vgic3_sync_exit g h v).
Proof.
  intros Hwf Hh Hv Hc. destruct (sync_exit_exiting h g v Hh Hv Hc) as [Hf Hsl Ha Ha' Hw Hw']. set (g' := vmm_vgic3_sync_exit g h v) in *.
  pose proof Hc as [Hok Hu].
  assert (Hs : forall i, 0 <= i < nr_lrs h -> slots g' v i = after (hw_lr h i) (slots g v i)) by (intros i Hi; rewrite Hsl; case_if; [done|lia]).
  assert (Hne : forall i, 0 <= i < nr_lrs h -> slots g' v i <> 0 -> slots g v i <> 0 /\ lr_state (hw_lr h i) <> 0 /\ slots g' v i = hw_lr h i /\ lr_vintid (slots g' v i) = lr_vintid (slots g v i)).
  { intros i Hi. rewrite Hs by done. unfold after. destruct (Z.eqb_spec (slots g v i) 0), (Z.eqb_spec (lr_state (hw_lr h i)) 0); cbn [orb]; try done.
    intros _. destruct (Hok i Hi) as [[? _]|(_ & ? & _)]; done. }
  assert (Hkeep : forall i, 0 <= i < nr_lrs h -> slots g v i <> 0 -> lr_state (hw_lr h i) <> 0 -> slots g' v i <> 0 /\ lr_vintid (slots g' v i) = lr_vintid (slots g v i)).
  { intros i Hi H1 H2. assert (E : slots g' v i = hw_lr h i) by (rewrite Hs by done; unfold after; destruct (Z.eqb_spec (slots g v i) 0), (Z.eqb_spec (lr_state (hw_lr h i)) 0); done).
    rewrite E. destruct (Hok i Hi) as [[? _]|(_ & ? & _)]; [done|]. split; [|done]. intros E0. rewrite E0 in H2. by vm_compute in H2. }
  assert (Hbit : forall b k, hw_bit h g' v b k <-> hw_bit h g v b k).
  { intros b k. split; intros (i & Hi & H1 & H2 & H3); exists i; (split; [done|]).
    - destruct (Hne i Hi H1) as (? & _ & _ & E). rewrite <- E. done.
    - destruct (Hkeep i Hi H1) as [? E]; [intros E0; by rewrite E0, Z.testbit_0_l in H3|]. rewrite E. done. }
  assert (Hacts : forall k, 0 <= k -> acts g' v k = true <-> taken h g v k).
  { intros k Hk. unfold taken. destruct (decide_in_lr h g v k Hh) as [(i & Hi & H1 & <-)|Hn].
    - rewrite Ha, in_slot_bit by done. destruct (Hok i Hi) as [[? _]|(_ & _ & H3 & _)]; [done|]. rewrite (proj1 (testbit_state _ H3)).
      split; [by left|]. intros [?|[_ []]]; [done|]. by exists i.
    - rewrite Ha' by (done || (intros i Hi H1 E; apply Hn; by exists i)). split; [by right|]. intros [(i & ? & ? & ? & _)|[? _]]; [|done]. destruct Hn. by exists i. }
  split; [done| |done| |done|].
  - split; [intros i Hi|].
    + destruct (decide (slots g' v i = 0)) as [E|E].
      * left. split; [done|]. destruct (Hok i Hi) as [[_ ?]|([? _] & _)]; [done|]. destruct (decide (lr_state (hw_lr h i) = 0)); [done|]. destruct (Hkeep i Hi); [lia|done..].
      * right. destruct (Hne i Hi E) as (H1 & H2 & H3 & H4). split; [done|]. destruct (Hok i Hi) as [[? _]|((Hr & _ & Hv' & _ & Hlev) & Hvi & Hst & H1')]; [done|].
        pose proof (lr_state_range (hw_lr h i)). pose proof (proj2 Hh i). rewrite H3. unfold good_lr. rewrite Hvi, Ha by done.
        split_and!; try (done || lia). intros E1 H16. rewrite Hw by done. rewrite E1. apply Hlev; [by apply H1'|done].
    + intros i j Hi Hj H1 H2 E. destruct (Hne i Hi H1) as (? & _ & _ & E1), (Hne j Hj H2) as (? & _ & _ & E2). apply Hu; try done. congruence.
  - intros k Hk. unfold taken at 1. rewrite Hbit, Hacts by done. split; [|intros Ht].
    + intros [?|[? _]]; [by left|done].
    + destruct (decide_in_lr h g' v k Hh) as [Hin|]; [|by right]. left. destruct Ht as [?|[_ Hn]]; [done|]. destruct Hn. destruct Hin as (i & Hi & H1 & E).
      destruct (Hne i Hi H1) as (? & _ & _ & E'). exists i. by rewrite <- E', E.
  - intros k Hk. destruct (decide_in_lr h g v k Hh) as [(i & Hi & H1 & <-)|Hn].
    + rewrite Hw, in_slot_bit by done. destruct (Hok i Hi) as [[? _]|(_ & _ & H3 & _)]; [done|]. rewrite (proj1 (testbit_state _ H3)).
      destruct (lr_state (hw_lr h i) =? 2), (Z.leb_spec 16 (lr_vintid (slots g v i))); cbn [andb]; intuition lia.
    + rewrite Hw' by (done || (intros i Hi H1 E; apply Hn; by exists i)). split; [|by intros [? _]]. intros ?. split; [done|]. intros [_ (i & ? & ? & ? & _)]. destruct Hn. by exists i.
Qed.

(** ** Switching *)

Lemma set_ich_effect g v a b : effect v g (set_vcpu g v (set_ich (vcpu g v) a b)) (waits g v) (acts g v) (slots g v).
Proof.
  split; [|intros k Hk; by rewrite waits_low|intros k Hk; by rewrite acts_low|intros i; by rewrite slots_low].
  apply framed_vcpu; try done. intros Hwf. destruct (wf_words g v Hwf) as (H1 & H2 & _). done.
Qed.

(** The interrupts from other CPUs that wait in the first [j] list registers. *)
Definition held (g : vgic3_t) (v j k : Z) : Prop :=
  exists i, 0 <= i < j /\ slots g v i <> 0 /\ lr_vintid (slots g v i) = k /\ k < 16 /\ lr_state (slots g v i) = 1.

Record putting (g : vgic3_t) (v j : Z) (g' : vgic3_t) : Prop := mk_putting {
  pt_frame : framed v g g';
  pt_acts : forall k, 0 <= k -> acts g' v k = acts g v k;
  pt_slots : forall i, slots g' v i = slots g v i;
  pt_ich : ich_vmcr (vcpu g' v) = ich_vmcr (vcpu g v) /\ ich_ap1r0 (vcpu g' v) = ich_ap1r0 (vcpu g v);
  pt_waits : forall k, 0 <= k -> waits g' v k = true <-> waits g v k = true \/ held g v j k
}.

Lemma putting_step h g v j g' : tight h g v -> 0 <= j < nr_lrs h -> putting g v j g' -> putting g v (j + 1) (put_back v g' j).
Proof.
  intros [Ht _] Hj [Hf Ha Hs Hi Hw]. unfold put_back. fold (slots g' v j). rewrite Hs.
  assert (Hheld : forall k, held g v (j + 1) k <-> held g v j k \/ (slots g v j <> 0 /\ lr_vintid (slots g v j) = k /\ k < 16 /\ lr_state (slots g v j) = 1)).
  { intros k. split.
    - intros (i & Hi' & H). destruct (decide (i = j)) as [->|]; [by right|]. left. exists i. split; [lia|done].
    - intros [(i & Hi' & H)|H]; [exists i|exists j]; (split; [lia|done]). }
  assert (Hsame : (slots g v j = 0 \/ 16 <= lr_vintid (slots g v j) \/ lr_state (slots g v j) = 2) -> putting g v (j + 1) g').
  { intros Hno. split; [done..|]. intros k Hk. rewrite Hw, Hheld by done. intuition lia. }
  destruct (Z.eqb_spec (slots g v j) 0) as [E0|E0]; [by apply Hsame; left|].
  destruct (Ht j Hj) as [[? _]|[_ (_ & Hst & Hvi & _)]]; [done|]. destruct Hst as [Hst|Hst]; rewrite Hst.
  - change (negb (Z.land 1 ICH_LR_ST_PENDING =? 0)) with true. change (Z.land 1 ICH_LR_ST_ACTIVE =? 0) with true. rewrite !andb_true_r.
    destruct (Z.ltb_spec (lr_vintid (slots g v j)) 16); [|by apply Hsame; right; left]. set (irq := lr_vintid (slots g v j)) in *.
    assert (He : effect v g' (set_vcpu g' v (set_irqs (vcpu g' v) (enabled0 (vcpu g' v)) (Z.lor (pending0 (vcpu g' v)) (irq_bit irq)) (active0 (vcpu g' v))))
      (only (waits g' v) irq true) (acts g' v) (slots g' v)) by (apply (pending0_effect true); [lia|done..]).
    destruct He as [Hf2 Hw2 Ha2 Hs2]. split; [by eapply framed_trans|intros; by rewrite Ha2, Ha|intros; by rewrite Hs2, Hs|cbn; by rewrite upd_eq|].
    intros k Hk. rewrite Hw2, Hheld by done. unfold only. destruct (Z.eqb_spec k irq) as [->|]; [tauto|]. rewrite Hw by done. intuition congruence.
  - change (negb (Z.land 2 ICH_LR_ST_PENDING =? 0)) with false. rewrite andb_false_r. apply Hsame. by right; right.
Qed.

Lemma held_bit h g v k : tight h g v -> held g v (nr_lrs h) k <-> k < 16 /\ hw_bit h g v 0 k.
Proof.
  intros [Ht _]. split.
  - intros (i & Hi & H0 & Hv & Hk & Hst). split; [done|]. exists i. destruct (Ht i Hi) as [[? _]|[-> _]]; [done|]. by rewrite Hst.
  - intros [Hk (i & Hi & H0 & Hv & Hb)]. exists i. split_and!; try done; [lia..|]. destruct (Ht i Hi) as [[? _]|[Hx (_ & Hst & _)]]; [done|]. rewrite Hx in Hb.
    destruct Hst as [E|E]; [done|]. by rewrite E in Hb.
Qed.

Lemma clear_lrs h : hw_wf h -> let h' := for_range 0 (nr_lrs h) (fun h i => gicv3_write_lr h i 0) h in
  hw_wf h' /\ hw_nr_lrs h' = hw_nr_lrs h /\ (hw_vmcr h' = hw_vmcr h /\ hw_ap1r0 h' = hw_ap1r0 h /\ hw_hcr h' = hw_hcr h) /\ forall i, 0 <= i < nr_lrs h -> hw_lr h' i = 0.
Proof.
  intros Hh. pose proof (nr_lrs_hw h Hh). pose proof (nr_lrs_16 h Hh). destruct (Hh) as [? _].
  apply (for_range_ind (fun j h' => hw_wf h' /\ hw_nr_lrs h' = hw_nr_lrs h /\ (hw_vmcr h' = hw_vmcr h /\ hw_ap1r0 h' = hw_ap1r0 h /\ hw_hcr h' = hw_hcr h) /\
    forall i, 0 <= i < j -> hw_lr h' i = 0)); [lia|split_and!; (done || lia)|].
  intros j h' Hj (E1 & E2 & (E3 & E4 & E5) & E6). destruct (write_lr_ich h' j 0) as (? & ? & ?). split; [by apply write_lr_wf|]. split; [by rewrite write_lr_nr|]. split; [split_and!; congruence|].
  intros i Hi. rewrite write_lr_hw by lia. unfold upd. case_if; [done|]. apply E6. lia.
Qed.

(** What a CPU that loses the list registers keeps in its own state. *)
Record parked (h : ich) (g : vgic3_t) (v : Z) (g' : vgic3_t) (h' : ich) : Prop := mk_parked {
  pk_frame : framed v g g';
  pk_acts : forall k, 0 <= k -> acts g' v k = true <-> taken h g v k;
  pk_waits : forall k, 0 <= k -> waits g' v k = true <-> (waits g v k = true /\ ~ (16 <= k /\ hw_bit h g v 1 k)) \/ (k < 16 /\ hw_bit h g v 0 k);
  pk_ich : ich_vmcr (vcpu g' v) = hw_vmcr h /\ ich_ap1r0 (vcpu g' v) = hw_ap1r0 h;
  pk_hw : hw_wf h' /\ hw_nr_lrs h' = hw_nr_lrs h /\ hw_hcr h' = hw_hcr h;
  pk_empty : forall i, 0 <= i < nr_lrs h' -> hw_lr h' i = 0
}.

Lemma switch_out_ok h g v : vgic_wf g -> hw_wf h -> valid_vcpu g v = true -> coherent h g v ->
  parked h g v (switch_out g h v).1 (switch_out g h v).2.
Proof.
  intros Hwf Hh Hv Hc. destruct (sync_exit_ok h g v Hwf Hh Hv Hc) as [Hf1 Ht1 Ha1 _ Hb1 Hw1].
  unfold switch_out. set (g1 := vmm_vgic3_sync_exit g h v) in *. cbn [fst snd].
  destruct (set_ich_effect g1 v (hw_vmcr h) (hw_ap1r0 h)) as [Hf2 Hw2 Ha2 Hs2]. set (g2 := set_vcpu g1 v _) in *.
  assert (Ht2 : tight h g2 v).
  { destruct Ht1 as [Ht Hu]. split; [|intros i j Hi Hj; rewrite !Hs2; by apply Hu]. intros i Hi. rewrite Hs2.
    destruct (Ht i Hi) as [?|[? ?]]; [by left|]. right. split; [done|]. apply (good_lr_relisted v g1); [|done]. split; [done|]. split; intros; [by rewrite Ha2|by rewrite Hw2 by lia]. }
  pose proof (nr_lrs_hw h Hh) as Hn. destruct (Hh) as [Hn' _].
  assert (Hp : putting g2 v (nr_lrs h) (for_range 0 (nr_lrs h) (put_back v) g2)).
  { apply (for_range_ind (putting g2 v)); [lia| |intros j g' Hj; by apply (putting_step h)]. split; [apply framed_refl|done..|].
    intros k Hk. split; [by left|]. intros [?|(i & ? & _)]; [done|lia]. }
  destruct Hp as [Hf3 Ha3 Hs3 Hi3 Hw3]. destruct (clear_lrs h Hh) as (Hc1 & Hc2 & (Hc3 & Hc4 & Hc5) & Hc6).
  set (h' := for_range 0 (nr_lrs h) (fun h i => gicv3_write_lr h i 0) h) in *. split.
  - by eapply framed_trans; [eapply framed_trans|].
  - intros k Hk. by rewrite Ha3, Ha2, Ha1.
  - intros k Hk. rewrite Hw3, Hw2, Hw1, (held_bit h g2) by done. by rewrite (hw_bit_slots h g1 g2), Hb1 by (intros; apply Hs2).
  - destruct Hi3 as [-> ->]. subst g2. cbn. by rewrite upd_eq.
  - done.
  - intros i Hi. apply Hc6. unfold nr_lrs in *. by rewrite Hc2 in Hi.
Qed.
