(* ===== verification/Vgic3Cpu.v ===== *)
(** * One physical CPU and the virtual GICv3s of its machines

    The steps of a physical CPU: an interrupt is raised, a virtual CPU enters the guest, the
    guest acknowledges and ends interrupts, it leaves, a deactivation is trapped.  No interrupt
    is in two list registers, the list registers belong to the CPU that runs, and nothing is
    lost or invented on the way. *)

From stdpp Require Import options.
From Stdlib Require Import Lia ZifyBool.
From S2P Require Import Prelude Vgic3 Vgic3Sync.

(** ** The physical CPU over time *)

Definition owns (s : pcpu) (m v : Z) : Prop := g_lr_owner_vcpu s = Some (m, v).
#[global] Instance owns_dec s m v : Decision (owns s m v).
Proof. unfold owns. apply _. Defined.

Definition outstanding_of (s : pcpu) (m v k : Z) : Prop := if decide (owns s m v) then outstanding (hw s) (vms s m) v k else waits (vms s m) v k = true.
Definition taken_of (s : pcpu) (m v k : Z) : Prop := if decide (owns s m v) then taken (hw s) (vms s m) v k else acts (vms s m) v k = true.

(** [running]: a guest is running on the CPU. *)
Record consistent (s : pcpu) (running : bool) : Prop := mk_consistent {
  cs_wf : forall m, vgic_wf (vms s m);
  cs_hw : hw_wf (hw s);
  cs_cpu : cpu_id s < VGIC3_MAX_LR_CPUS;
  cs_owner : match g_lr_owner_vcpu s with
             | Some (m, v) => valid_vcpu (vms s m) v = true /\ if running then coherent (hw s) (vms s m) v else tight (hw s) (vms s m) v
             | None => running = false /\ forall i, 0 <= i < nr_lrs (hw s) -> lr_state (hw_lr (hw s) i) = 0
             end
}.

(** Entry: [s] before, [s'] after, for CPU [v] of machine [m]. *)
Record entry_ok (s s' : pcpu) (m v : Z) : Prop := mk_entry_ok {
  en_owns : owns s' m v;
  en_cons : consistent s' true;
  en_tight : tight (hw s') (vms s' m) v;
  en_out : forall x y k, 0 <= k < 16 -> outstanding_of s' x y k <-> outstanding_of s x y k;
  en_level : forall x y k, 16 <= k -> (outstanding_of s' x y k -> outstanding_of s x y k) /\ (outstanding_of s x y k -> outstanding_of s' x y k \/ taken_of s x y k);
  en_taken : forall x y k, 0 <= k -> taken_of s' x y k <-> taken_of s x y k;
  en_ready : forall k, 0 <= k < VGIC3_MAX_IRQS -> (taken_of s' m v k \/ (waits (vms s m) v k = true /\ permits (vms s m) v k = true)) ->
    in_lr (hw s') (vms s' m) v k \/ full (hw s') (vms s' m) v
}.

(** The list registers are empty, nothing is lost. *)
Record vacant (s s1 : pcpu) (m v : Z) : Prop := mk_vacant {
  vc_wf : forall x, vgic_wf (vms s1 x);
  vc_hw : hw_wf (hw s1) /\ hw_nr_lrs (hw s1) = hw_nr_lrs (hw s);
  vc_empty : forall i, 0 <= i < nr_lrs (hw s1) -> lr_state (hw_lr (hw s1) i) = 0;
  vc_nr : forall x, nr_vcpus (vms s1 x) = nr_vcpus (vms s x);
  vc_permits : forall x y k, permits (vms s1 x) y k = permits (vms s x) y k;
  vc_waits : forall x y k, 0 <= k < 16 -> waits (vms s1 x) y k = true <-> outstanding_of s x y k;
  vc_level : forall x y k, 16 <= k -> (waits (vms s1 x) y k = true -> outstanding_of s x y k) /\ (outstanding_of s x y k -> waits (vms s1 x) y k = true \/ taken_of s x y k);
  vc_acts : forall x y k, 0 <= k -> acts (vms s1 x) y k = true <-> taken_of s x y k;
  vc_others : forall x y k, ~ owns s x y -> 0 <= k -> waits (vms s1 x) y k = waits (vms s x) y k
}.

Lemma hw_bit_state h g v b k : (forall i, 0 <= i < nr_lrs h -> lr_state (hw_lr h i) = 0) -> ~ hw_bit h g v b k.
Proof. intros H (i & Hi & _ & _ & Hb). by rewrite H, Z.testbit_0_l in Hb. Qed.

Lemma decide_hw_bit h g v b k : {hw_bit h g v b k} + {~ hw_bit h g v b k}.
Proof.
  destruct (existsb (fun i => negb (slots g v i =? 0) && (lr_vintid (slots g v i) =? k) && Z.testbit (lr_state (hw_lr h i)) b) (seqZ 0 (nr_lrs h))) eqn:E.
  - left. apply existsb_exists in E as (i & Hi%list_elem_of_In%elem_of_seqZ & Hb). exists i. split; [lia|]. destruct (Z.testbit _ b); [lia|]. by rewrite andb_false_r in Hb.
  - right. intros (i & Hi & H1 & H2 & H3). enough (true = false) by done. rewrite <- E. symmetry. apply existsb_exists. exists i.
    split; [apply list_elem_of_In, elem_of_seqZ; lia|]. rewrite H3. lia.
Qed.

(** What is pending in a list register is not active, and a device's interrupt still waits. *)
Lemma tight_pending h g v k : tight h g v -> hw_bit h g v 0 k -> ~ hw_bit h g v 1 k /\ (16 <= k -> waits g v k = true).
Proof.
  intros Ht (i & Hi & H0 & <- & Hb). rewrite in_slot_bit by (done || by apply tight_coherent). destruct (proj1 Ht i Hi) as [[? _]|[Hx (_ & Hst & _ & _ & Hw)]]; [done|].
  rewrite Hx in *. destruct Hst as [E|E]; [|by rewrite E in Hb]. rewrite E. split; [done|]. by apply Hw.
Qed.

Lemma take_lrs_ok s m v : consistent s false -> ~ owns s m v -> vacant s (take_lrs s m v) m v.
Proof.
  intros [Hwf Hh Hcpu Ho] Hno. unfold take_lrs, owns in *. destruct (g_lr_owner_vcpu s) as [[pm pv]|] eqn:Eo.
  - destruct Ho as [Hv Ht]. destruct (switch_out_ok (hw s) (vms s pm) pv (Hwf pm) Hh Hv (tight_coherent _ _ _ Ht)) as [Hf Ha Hw Hi (Hh1 & Hn1 & Hc1) He].
    destruct (switch_out (vms s pm) (hw s) pv) as [g' h']. cbn [fst snd] in *.
    assert (Hown : forall x y, owns s x y <-> x = pm /\ y = pv) by (intros x y; unfold owns; rewrite Eo; split; [by intros [= -> ->]|by intros [-> ->]]).
    assert (Hoth : forall x y k, ~ (x = pm /\ y = pv) -> waits (upd (vms s) pm g' x) y k = waits (vms s x) y k /\ acts (upd (vms s) pm g' x) y k = acts (vms s x) y k).
    { intros x y k Hxy. destruct (decide (x = pm)) as [->|]; [rewrite upd_eq; apply Hf; intros ->; by apply Hxy|by rewrite upd_ne]. }
    split; cbn [vms hw load_ich hw_lr].
    + intros x. destruct (decide (x = pm)) as [->|]; [rewrite upd_eq; by apply Hf|by rewrite upd_ne].
    + by split.
    + intros i Hi'. rewrite He by done. done.
    + intros x. destruct (decide (x = pm)) as [->|]; [rewrite upd_eq; apply Hf|by rewrite upd_ne].
    + intros x y k. destruct (decide (x = pm)) as [->|]; [rewrite upd_eq; apply Hf|by rewrite upd_ne].
    + intros x y k Hk. unfold outstanding_of. destruct (decide (owns s x y)) as [Hxy|Hxy]; rewrite Hown in Hxy.
      * destruct Hxy as [-> ->]. rewrite upd_eq, Hw by lia. unfold outstanding. intuition lia.
      * destruct (Hoth x y k Hxy) as [-> _]. done.
    + intros x y k Hk. unfold outstanding_of, taken_of. destruct (decide (owns s x y)) as [Hxy|Hxy]; rewrite Hown in Hxy.
      * destruct Hxy as [-> ->]. rewrite upd_eq, Hw by lia. unfold outstanding, taken. split; [intuition lia|]. intros [H|H].
        -- destruct (decide_hw_bit (hw s) (vms s pm) pv 1 k) as [?|?]; [right; by left|left; left; split; [done|tauto]].
        -- destruct (tight_pending _ _ _ _ Ht H) as [Hna Hwa]. left. left. split; [by apply Hwa|tauto].
      * destruct (Hoth x y k Hxy) as [-> _]. split; [done|by left].
    + intros x y k Hk. unfold taken_of. destruct (decide (owns s x y)) as [Hxy|Hxy]; rewrite Hown in Hxy.
      * destruct Hxy as [-> ->]. by rewrite upd_eq, Ha.
      * destruct (Hoth x y k Hxy) as [_ ->]. done.
    + intros x y k Hxy Hk. rewrite Hown in Hxy. by apply Hoth.
  - destruct Ho as [_ He]. split; cbn [vms hw load_ich hw_lr]; try done; unfold outstanding_of, taken_of; intros x y k Hk; (destruct (decide (owns s x y)) as [Hxy|]; [by unfold owns in Hxy; rewrite Eo in Hxy|]); try done.
    split; [done|by left].
Qed.

Lemma tight_ext h g h' g' v : nr_lrs h' = nr_lrs h -> (forall i, hw_lr h' i = hw_lr h i) -> tight h g v ->
  relisted v g g' -> (forall i, 0 <= i < nr_lrs h -> slots g' v i = slots g v i) -> tight h' g' v.
Proof.
  intros Hn Hl [Ht Hu] Hr Hs. split; rewrite ?Hn.
  - intros i Hi. rewrite Hl, Hs by done. destruct (Ht i Hi) as [?|[? ?]]; [by left|]. right. split; [done|]. by eapply good_lr_relisted.
  - intros i j Hi Hj. rewrite Hn in *. rewrite !Hs by done. by apply Hu.
Qed.

(** [vmm_vgic3_sync_entry] for the owner of the list registers. *)
Lemma entry_common s1 m v : (forall x, vgic_wf (vms s1 x)) -> hw_wf (hw s1) -> valid_vcpu (vms s1 m) v = true -> synced (hw s1) (vms s1 m) v ->
  owns s1 m v -> cpu_id s1 < VGIC3_MAX_LR_CPUS ->
  let s' := let '(g, h) := vmm_vgic3_sync_entry (vms s1 m) (hw s1) v in mk_pcpu (upd (vms s1) m g) h (g_lr_owner_vcpu s1) (cpu_id s1) in
  let g1 := reclaim v (hw s1) (vms s1 m) in
  owns s' m v /\ consistent s' true /\ tight (hw s') (vms s' m) v /\
  (forall k, 0 <= k -> (outstanding (hw s') (vms s' m) v k <-> outstanding (hw s1) g1 v k) /\ (taken (hw s') (vms s' m) v k <-> taken (hw s1) g1 v k)) /\
  (forall x y k, 0 <= k -> ~ (x = m /\ y = v) -> waits (vms s' x) y k = waits (vms s1 x) y k /\ acts (vms s' x) y k = acts (vms s1 x) y k) /\
  (forall k, 0 <= k < VGIC3_MAX_IRQS -> taken (hw s') (vms s' m) v k \/ (waits (vms s1 m) v k = true /\ permits (vms s1 m) v k = true) ->
     in_lr (hw s') (vms s' m) v k \/ full (hw s') (vms s' m) v).
Proof.
  intros Hwf Hh Hv Hs Ho Hcpu. pose proof (sync_entry_ok v (vms s1 m) (hw s1) (Hwf m) Hh Hv Hs) as [Hl Hc].
  destruct (reclaim_effect v (hw s1) (vms s1 m) Hh) as [Hf0 Hw0 Ha0 _]. set (g1 := reclaim v (hw s1) (vms s1 m)) in *.
  destruct (vmm_vgic3_sync_entry (vms s1 m) (hw s1) v) as [g' h']. destruct Hl as [(Hf & Ha & Hw) Hh' Hn Hi Ht Hout Htk Hlev Hcov]. cbn [fst snd] in *.
  cbn zeta. cbn [vms hw]. rewrite !upd_eq.
  assert (Hff : framed v (vms s1 m) g') by by eapply framed_trans.
  split; [done|]. split.
  { split; [|done|done|unfold owns in Ho; cbn; rewrite Ho, upd_eq; split; [|by apply tight_coherent]].
    - intros x. cbn. destruct (decide (x = m)) as [->|]; [rewrite upd_eq; apply Hff, Hwf|by rewrite upd_ne].
    - unfold valid_vcpu. by rewrite (fr_nr _ _ _ Hff). }
  split; [done|]. split; [auto|]. split.
  - intros x y k Hk Hxy. destruct (decide (x = m)) as [->|]; [rewrite upd_eq; apply Hff; intros ->; by apply Hxy|by rewrite upd_ne].
  - intros k Hk [Hta|[Hwt Hp]].
    + destruct Hta as [(i & ? & ? & ? & _)|[Hak Hnk]]; [left; by exists i|]. apply (Hc k Hk). rewrite <- Ha by lia. rewrite Hak. apply orb_true_r.
    + apply (Hc k Hk). unfold ready. rewrite Hw0, (fr_permits _ _ _ Hf0), Hwt, Hp by lia. by destruct (acts g1 v k).
Qed.

Lemma owns_iff s m v : owns s m v -> forall x y, owns s x y <-> x = m /\ y = v.
Proof. unfold owns. intros H x y. rewrite H. split; [by intros [= -> ->]|by intros [-> ->]]. Qed.

Section switch.
Context (s : pcpu) (m v : Z).
Hypothesis (Hcons : consistent s false) (Hv : valid_vcpu (vms s m) v = true).

Lemma switch_in_same : owns s m v -> entry_ok s (vmm_vgic3_lr_switch_in s m v) m v.
Proof using Hcons Hv.
  pose proof Hcons as [Hwf Hh Hcpu Ho]. intros Hown. unfold vmm_vgic3_lr_switch_in. rewrite (bool_decide_true (g_lr_owner_vcpu s = Some (m, v)) Hown), andb_false_r.
  pose proof Hown as Hown'. unfold owns in Hown'. rewrite Hown' in Ho. destruct Ho as [_ Ht].
  pose proof (entry_common s m v Hwf Hh Hv (tight_synced _ _ _ Ht) Hown Hcpu) as (E1 & E2 & E3 & E4 & E5 & E6).
  pose proof (reclaim_tight v (hw s) (vms s m) Hh Ht) as Hrs. destruct (reclaim_effect v (hw s) (vms s m) Hh) as [_ Hrw Hra _].
  set (s' := let '(g, h) := _ in _) in *. set (g1 := reclaim v (hw s) (vms s m)) in *.
  assert (Hall : forall x y k, 0 <= k -> (outstanding_of s' x y k <-> outstanding_of s x y k) /\ (taken_of s' x y k <-> taken_of s x y k)).
  { intros x y k Hk. unfold outstanding_of, taken_of.
    destruct (decide (owns s' x y)) as [A|A], (decide (owns s x y)) as [B|B]; rewrite (owns_iff s' m v E1) in A; rewrite (owns_iff s m v Hown) in B; try done.
    - destruct A as [-> ->]. destruct (E4 k Hk) as [-> ->]. unfold outstanding, taken.
      by rewrite (hw_bit_slots _ (vms s m) g1 v 0 k Hrs), (hw_bit_slots _ (vms s m) g1 v 1 k Hrs), (in_lr_slots _ (vms s m) g1 v k Hrs), Hrw, Hra.
    - destruct (E5 x y k Hk A) as [-> ->]. done. }
  split; [done|done|done|intros; apply Hall; lia|intros x y k Hk; destruct (Hall x y k ltac:(lia)) as [-> _]; tauto|intros; by apply Hall|].
  intros k Hk Hr. apply E6; [done|]. unfold taken_of in Hr. by destruct (decide (owns s' m v)).
Qed.

Lemma switch_in_other : ~ owns s m v -> entry_ok s (vmm_vgic3_lr_switch_in s m v) m v.
Proof using Hcons Hv.
  pose proof Hcons as [Hwf Hh Hcpu Ho]. intros Hown. unfold vmm_vgic3_lr_switch_in. rewrite (bool_decide_false (g_lr_owner_vcpu s = Some (m, v)) Hown).
  destruct (Z.ltb_spec (cpu_id s) VGIC3_MAX_LR_CPUS); [|lia]. cbn [negb andb].
  destruct (take_lrs_ok s m v Hcons Hown) as [V1 [V2 _] V3 V4 V5 V6 V7 V8 V9].
  assert (Hown1 : owns (take_lrs s m v) m v) by done.
  assert (Hcpu1 : cpu_id (take_lrs s m v) < VGIC3_MAX_LR_CPUS) by (unfold take_lrs; cbn [cpu_id]; destruct (g_lr_owner_vcpu s) as [[pm pv]|]; [destruct (switch_out (vms s pm) (hw s) pv)|]; exact Hcpu).
  set (s1 := take_lrs s m v) in *. clearbody s1.
  assert (Hv1 : valid_vcpu (vms s1 m) v = true) by (unfold valid_vcpu; by rewrite V4).
  assert (Hs1 : synced (hw s1) (vms s1 m) v) by (split; [by left; auto|intros i j Hi Hj H1; by rewrite V3 in H1]).
  pose proof (entry_common s1 m v V1 V2 Hv1 Hs1 Hown1 Hcpu1) as (E1 & E2 & E3 & E4 & E5 & E6).
  destruct (reclaim_effect v (hw s1) (vms s1 m) V2) as [_ Hrw Hra Hrs].
  set (s' := let '(g, h) := _ in _) in *. set (g1 := reclaim v (hw s1) (vms s1 m)) in *.
  assert (Hall : forall x y k, 0 <= k -> (outstanding_of s' x y k <-> waits (vms s1 x) y k = true) /\ (taken_of s' x y k <-> acts (vms s1 x) y k = true)).
  { intros x y k Hk. unfold outstanding_of, taken_of. destruct (decide (owns s' x y)) as [A|A]; rewrite (owns_iff s' m v E1) in A; [|by destruct (E5 x y k Hk A) as [-> ->]].
    destruct A as [-> ->]. destruct (E4 k Hk) as [-> ->]. unfold outstanding, taken. rewrite Hrw, Hra by done.
    assert (Hni : ~ in_lr (hw s1) g1 v k) by (intros (i & Hi & H0 & _); rewrite Hrs, V3 in H0 by done; case_if_in H0; [done|lia]).
    pose proof (hw_bit_state (hw s1) g1 v 0 k V3). pose proof (hw_bit_state (hw s1) g1 v 1 k V3). tauto. }
  split; [done|done|done| | | |].
  - intros x y k Hk. rewrite (proj1 (Hall x y k ltac:(lia))). by apply V6.
  - intros x y k Hk. rewrite (proj1 (Hall x y k ltac:(lia))). by apply V7.
  - intros x y k Hk. rewrite (proj2 (Hall x y k Hk)). by apply V8.
  - intros k Hk Hr. apply E6; [done|]. unfold taken_of in Hr. destruct (decide (owns s' m v)); [|done]. rewrite V5, V9 by (done || lia). done.
Qed.

Lemma switch_in_ok : entry_ok s (vmm_vgic3_lr_switch_in s m v) m v.
Proof using Hcons Hv. destruct (decide (owns s m v)); [by apply switch_in_same|by apply switch_in_other]. Qed.
End switch.

(** ** Steps *)

Inductive label := Raise (m v irq : Z) | Sgi (m v source irq : Z) | Enable (m v irq : Z) (en : bool) | Enter (m v : Z) | Ack (i : Z) | Eoi (i : Z) | Exit | Dir (irq : Z).

Definition with_vm (s : pcpu) (m : Z) (g : vgic3_t) : pcpu := mk_pcpu (upd (vms s) m g) (hw s) (g_lr_owner_vcpu s) (cpu_id s).
Definition with_hw (s : pcpu) (h : ich) : pcpu := mk_pcpu (vms s) h (g_lr_owner_vcpu s) (cpu_id s).

(** Interrupts are raised, enabled and disabled at any time; the guest runs between entry and exit; a deactivation
    is treated after exit. *)
Inductive vstep : label -> pcpu * bool -> pcpu * bool -> Prop :=
  | V_raise s r m v irq : valid_vcpu (vms s m) v = true -> 0 <= irq < VGIC3_MAX_IRQS ->
      vstep (Raise m v irq) (s, r) (with_vm s m (vmm_vgic3_set_pending (vms s m) v irq), r)
  | V_sgi s r m v source irq : valid_vcpu (vms s m) v = true -> 0 <= irq < 16 ->
      vstep (Sgi m v source irq) (s, r) (with_vm s m (vmm_vgic3_set_sgi_pending (vms s m) v source irq), r)
  | V_enable s r m v irq en : 0 <= irq -> vstep (Enable m v irq en) (s, r) (with_vm s m (vmm_vgic3_set_enabled (vms s m) v irq en), r)
  | V_enter s m v : valid_vcpu (vms s m) v = true -> vstep (Enter m v) (s, false) (vmm_vgic3_lr_switch_in s m v, true)
  | V_ack s i : 0 <= i < nr_lrs (hw s) -> vstep (Ack i) (s, true) (with_hw s (guest_ack (hw s) i), true)
  | V_eoi s i : 0 <= i < nr_lrs (hw s) -> vstep (Eoi i) (s, true) (with_hw s (guest_eoi (hw s) i), true)
  | V_exit s m v : owns s m v -> vstep Exit (s, true) (with_vm s m (vmm_vgic3_sync_exit (vms s m) (hw s) v), false)
  | V_dir s m v irq : owns s m v -> 0 <= irq ->
      vstep (Dir irq) (s, false) (let '(g, h) := vmm_vgic3_deactivate (vms s m) (hw s) v irq in with_hw (with_vm s m g) h, false).

Inductive reachable : pcpu * bool -> Prop :=
  | R_init vms h cpu : (forall m, vgic_wf (vms m)) -> hw_wf h -> cpu < VGIC3_MAX_LR_CPUS ->
      (forall i, 0 <= i < nr_lrs h -> lr_state (hw_lr h i) = 0) -> reachable (mk_pcpu vms h None cpu, false)
  | R_step l a b : reachable a -> vstep l a b -> reachable b.

(** *** Raising *)

Lemma good_lr_more g g' v m : (forall k, 0 <= k -> acts g' v k = acts g v k) -> (forall k, 16 <= k -> waits g v k = true -> waits g' v k = true) -> good_lr g v m -> good_lr g' v m.
Proof. intros Ha Hw (H1 & H2 & H3 & H4 & H5). split_and!; try done; [lia..|by rewrite Ha by lia|auto]. Qed.

Lemma raised_ok h g g' v (running : bool) : (forall k, 0 <= k -> acts g' v k = acts g v k) -> (forall i, slots g' v i = slots g v i) ->
  (forall k, 16 <= k -> waits g v k = true -> waits g' v k = true) ->
  (if running then coherent h g v else tight h g v) -> if running then coherent h g' v else tight h g' v.
Proof.
  intros Ha Hs Hw Hc. assert (Hgood : forall m, good_lr g v m -> good_lr g' v m) by (intros m; by apply good_lr_more).
  destruct running; destruct Hc as [H1 H2]; (split; [|intros i j Hi Hj; rewrite !Hs; by apply H2]); intros i Hi; rewrite !Hs.
  - destruct (H1 i Hi) as [?|(? & ?)]; [by left|]. right. split; [by apply Hgood|done].
  - destruct (H1 i Hi) as [?|(? & ?)]; [by left|]. right. split; [done|by apply Hgood].
Qed.

Lemma only_true_mono W irq k : W k = true -> only W irq true k = true.
Proof. intros H. unfold only. by case_if. Qed.

(** An interrupt of CPU [v] of machine [m] is raised. *)
Lemma raise_ok s r m v irq g' : consistent s r -> 0 <= irq -> effect v (vms s m) g' (only (waits (vms s m) v) irq true) (acts (vms s m) v) (slots (vms s m) v) ->
  consistent (with_vm s m g') r /\
  forall x y k, 0 <= k -> (outstanding_of (with_vm s m g') x y k <-> outstanding_of s x y k \/ (x = m /\ y = v /\ k = irq)) /\ (taken_of (with_vm s m g') x y k <-> taken_of s x y k).
Proof.
  intros [Hwf Hh Hcpu Ho] Hirq [Hf Hw Ha Hs].
  assert (Hview : forall x y, (forall k, 0 <= k -> waits (vms (with_vm s m g') x) y k = (if bool_decide (x = m /\ y = v) then only (waits (vms s m) v) irq true k else waits (vms s x) y k)) /\
    (forall k, 0 <= k -> acts (vms (with_vm s m g') x) y k = acts (vms s x) y k) /\ (forall i, slots (vms (with_vm s m g') x) y i = slots (vms s x) y i)).
  { intros x y. cbn. destruct (decide (x = m)) as [->|]; [rewrite upd_eq|rewrite upd_ne, bool_decide_false by (done || (intros [? _]; done)); done].
    destruct (decide (y = v)) as [->|Hy]; [rewrite bool_decide_true by done; done|]. rewrite bool_decide_false by (intros [_ ?]; done).
    destruct (fr_others _ _ _ Hf y Hy) as [H1 H2]. split_and!; [intros; apply H1|intros; apply H1|by rewrite H2]. }
  split.
  - split; [|done|done|].
    + intros x. cbn. destruct (decide (x = m)) as [->|]; [rewrite upd_eq; apply Hf, Hwf|by rewrite upd_ne].
    + cbn [g_lr_owner_vcpu with_vm]. destruct (g_lr_owner_vcpu s) as [[om ov]|]; [|done]. destruct Ho as [Hv Ht]. destruct (Hview om ov) as (W & A & L). split.
      * unfold valid_vcpu in *. cbn. destruct (decide (om = m)) as [->|]; [rewrite upd_eq; by rewrite (fr_nr _ _ _ Hf)|by rewrite upd_ne].
      * eapply raised_ok; [exact A|exact L| |exact Ht]. intros k Hk E. rewrite W by lia. case_bool_decide as Hb; [destruct Hb as [-> ->]; by apply only_true_mono|done].
  - intros x y k Hk. destruct (Hview x y) as (W & A & L). unfold outstanding_of, taken_of. change (owns (with_vm s m g') x y) with (owns s x y). cbn [hw with_vm].
    assert (Hwk : waits (vms (with_vm s m g') x) y k = true <-> waits (vms s x) y k = true \/ (x = m /\ y = v /\ k = irq)).
    { rewrite W by done. case_bool_decide as Hb; [|tauto]. destruct Hb as [-> ->]. unfold only. destruct (Z.eqb_spec k irq) as [->|]; [tauto|intuition done]. }
    destruct (decide (owns s x y)); [|by rewrite Hwk, A]. unfold outstanding, taken.
    rewrite !(hw_bit_slots (hw s) (vms s x) (vms (with_vm s m g') x)), (in_lr_slots (hw s) (vms s x)), Hwk, A by (done || (intros; apply L)). tauto.
Qed.

(** *** The guest at the hardware *)

Lemma with_state_range x st : 0 <= x < 2 ^ 64 -> 0 <= st < 4 -> 0 <= with_state x st < 2 ^ 64.
Proof.
  intros Hx Hst. assert (Hnn : 0 <= with_state x st) by (unfold with_state; rewrite Z.lor_nonneg, Z.ldiff_nonneg, Z.shiftl_nonneg; lia). split; [done|].
  destruct (decide (with_state x st = 0)) as [->|]; [lia|]. apply Z.log2_lt_pow2; [lia|]. apply Z.lt_nge. intros Hge.
  pose proof (Z.bit_log2 (with_state x st) ltac:(lia)) as Hb. rewrite with_state_testbit in Hb by lia. case_if_in Hb; [|lia]. case_if_in Hb; [|lia].
  rewrite (testbit_below x 64), (testbit_below st 2) in Hb by lia. done.
Qed.

(** A list register changes its state from [st] to [st']. *)
Definition moves (h h' : ich) (i st st' : Z) : Prop :=
  lr_state (hw_lr h i) = st /\ h' = gicv3_write_lr h i (with_state (hw_lr h i) st').

Lemma guest_ack_moves h i : guest_ack h i = h \/ moves h (guest_ack h i) i 1 2.
Proof. unfold guest_ack. case_if; [by right|by left]. Qed.
Lemma guest_eoi_moves h i : lr_state (hw_lr h i) <> 3 -> guest_eoi h i = h \/ moves h (guest_eoi h i) i 2 0.
Proof.
  intros H3. unfold guest_eoi. rewrite (proj1 (testbit_state _ H3)). destruct (Z.eqb_spec (lr_state (hw_lr h i)) 2) as [E|]; [|by left]. right. split; [done|]. by rewrite E.
Qed.

Lemma moves_coherent h g v h' i st st' : hw_wf h -> coherent h g v -> 0 <= i < nr_lrs h -> moves h h' i st st' -> (st = 1 /\ st' = 2) \/ (st = 2 /\ st' = 0) ->
  slots g v i <> 0 /\ hw_wf h' /\ nr_lrs h' = nr_lrs h /\ coherent h' g v /\
  forall b k, hw_bit h' g v b k <-> if k =? lr_vintid (slots g v i) then Z.testbit st' b = true else hw_bit h g v b k.
Proof.
  intros Hh [Hc Hu] Hi [Hst ->] Hss. pose proof (nr_lrs_16 h Hh). pose proof (proj2 Hh i) as Hr. set (x := hw_lr h i) in *.
  assert (Hst' : 0 <= st' < 4) by lia. pose proof (with_state_range x st' Hr Hst').
  assert (Hs0 : slots g v i <> 0) by (destruct (Hc i Hi) as [[_ ?]|([? _] & _)]; [fold x in H1; lia|lia]).
  assert (Hvi : lr_vintid (with_state x st') = lr_vintid (slots g v i)).
  { rewrite vintid_with_state by lia. by destruct (Hc i Hi) as [[? _]|(_ & ? & _)]. }
  assert (Hsx : lr_state (with_state x st') = st') by (by apply state_with_state).
  split; [done|]. split; [by apply write_lr_wf|]. split; [apply nr_lrs_write|]. split.
  - split; [|intros j k; rewrite nr_lrs_write; by apply Hu]. intros j Hj. rewrite nr_lrs_write in Hj. rewrite write_lr_hw by lia. unfold upd.
    destruct (Z.eqb_spec j i) as [->|]; [|by apply Hc]. right. destruct (Hc i Hi) as [[? _]|(Hg & _)]; [done|]. rewrite Hvi, Hsx. split_and!; try done; lia.
  - intros b k. unfold hw_bit. rewrite nr_lrs_write, write_lr_hw by lia. unfold upd. destruct (Z.eqb_spec k (lr_vintid (slots g v i))) as [->|Hk].
    + split; [|intros Hb; exists i; by rewrite Z.eqb_refl, Hsx]. intros (j & Hj & H1 & E & Hb). rewrite (Hu j i Hj Hi H1 Hs0 E), Z.eqb_refl, Hsx in Hb. done.
    + split; intros (j & Hj & H1 & E & Hb); exists j; (destruct (Z.eqb_spec j i) as [->|]; [congruence|done]).
Qed.

Lemma in_lr_hw h h' g v k : nr_lrs h' = nr_lrs h -> in_lr h' g v k <-> in_lr h g v k.
Proof. intros E. unfold in_lr. by rewrite E. Qed.

(** A move in a list register of the owner; all other CPUs see nothing. *)
Lemma guest_move_ok s m v h' i st st' : consistent s true -> owns s m v -> 0 <= i < nr_lrs (hw s) -> moves (hw s) h' i st st' -> (st = 1 /\ st' = 2) \/ (st = 2 /\ st' = 0) ->
  let irq := lr_vintid (slots (vms s m) v i) in
  consistent (with_hw s h') true /\ 0 <= irq /\
  (forall x y k, 0 <= k -> ~ (x = m /\ y = v /\ k = irq) -> (outstanding_of (with_hw s h') x y k <-> outstanding_of s x y k) /\ (taken_of (with_hw s h') x y k <-> taken_of s x y k)) /\
  (outstanding_of (with_hw s h') m v irq -> outstanding_of s m v irq) /\
  (st = 1 -> outstanding_of s m v irq /\ taken_of (with_hw s h') m v irq) /\
  (st = 2 -> (outstanding_of s m v irq -> outstanding_of (with_hw s h') m v irq) /\ taken_of s m v irq /\ ~ taken_of (with_hw s h') m v irq).
Proof.
  intros [Hwf Hh Hcpu Ho] Hown Hi Hmv Hss irq. pose proof Hown as Hown'. unfold owns in Hown'. rewrite Hown' in Ho. destruct Ho as [Hv Hc].
  destruct (moves_coherent _ _ _ _ _ _ _ Hh Hc Hi Hmv Hss) as (Hs0 & Hh' & Hn & Hc' & Hb). fold irq in Hb.
  assert (Hirq : 0 <= irq) by (destruct (proj1 Hc i Hi) as [[? _]|((_ & _ & ? & _) & _)]; [done|unfold irq; lia]).
  assert (Hin : in_lr (hw s) (vms s m) v irq) by by exists i.
  assert (Hold : forall b, hw_bit (hw s) (vms s m) v b irq <-> Z.testbit st b = true) by (intros b; unfold irq; rewrite in_slot_bit by done; by rewrite (proj1 Hmv)).
  assert (Hnew : forall b, hw_bit h' (vms s m) v b irq <-> Z.testbit st' b = true) by (intros b; rewrite Hb, Z.eqb_refl; done).
  assert (Hown2 : owns (with_hw s h') m v) by done.
  split; [split; [done|done|done|cbn; by rewrite Hown']|]. split; [done|].
  unfold outstanding_of, taken_of. split.
  - intros x y k Hk Hne. change (owns (with_hw s h') x y) with (owns s x y). destruct (decide (owns s x y)) as [Hxy|]; [|done]. apply (owns_iff s m v Hown) in Hxy as [-> ->].
    unfold outstanding, taken. cbn [hw vms with_hw]. rewrite !Hb, (in_lr_hw (hw s) h') by done. destruct (Z.eqb_spec k irq) as [->|]; [by destruct Hne|done].
  - destruct (decide (owns (with_hw s h') m v)); [|done]. destruct (decide (owns s m v)); [|done]. unfold outstanding, taken. cbn [hw vms with_hw].
    rewrite !Hnew, !Hold, (in_lr_hw (hw s) h') by done. destruct Hss as [[-> ->]|[-> ->]]; cbn; intuition (done || lia).
Qed.

(** *** Enabling and disabling *)

Record same_views (g g' : vgic3_t) : Prop := mk_same_views {
  sv_nr : nr_vcpus g' = nr_vcpus g;
  sv_waits : forall y k, waits g' y k = waits g y k;
  sv_acts : forall y k, acts g' y k = acts g y k;
  sv_slots : forall y, slots g' y = slots g y;
  sv_wf : vgic_wf g -> vgic_wf g'
}.

Lemma set_enabled_views g v irq en : same_views g (vmm_vgic3_set_enabled g v irq en).
Proof.
  pose proof (irq_bit_range irq) as Hb. unfold vmm_vgic3_set_enabled. case_if; [done|]. case_if; [case_if; [done|]|].
  - assert (Hc : forall y, let c := vcpu (set_vcpu g v (set_irqs (vcpu g v) (if en then Z.lor (enabled0 (vcpu g v)) (irq_bit irq) else Z.ldiff (enabled0 (vcpu g v)) (irq_bit irq)) (pending0 (vcpu g v)) (active0 (vcpu g v)))) y in
      pending0 c = pending0 (vcpu g y) /\ active0 c = active0 (vcpu g y) /\ lr c = lr (vcpu g y) /\ prio0 c = prio0 (vcpu g y) /\
      (vgic_wf g -> 0 <= enabled0 c < 2 ^ 32)).
    { intros y. cbn. destruct (decide (y = v)) as [->|]; [rewrite upd_eq; cbn; split_and!; try done|rewrite upd_ne by done; split_and!; try done; intros (_ & Hwf & _); apply Hwf].
      intros (_ & Hwf & _). destruct en; [apply lor_word|apply ldiff_range]; try done; apply Hwf. }
    split; [done|intros y k; apply word_in_ext; intros j; destruct (j =? 0); [apply Hc|done]|intros y k; apply word_in_ext; intros j; destruct (j =? 0); [apply Hc|done]|apply Hc|].
    intros Hwf. pose proof Hwf as (H1 & H2 & H3 & H4 & H5 & H6). split; [done|]. split; [|split; [done|split; [done|split; [|done]]]]; [intros y|intros y i]; destruct (Hc y) as (Hp & Ha & _ & Hq & He); rewrite ?Hp, ?Ha, ?Hq; [|done].
    split; [by apply He|apply H2].
  - assert (Hs : forall e, (vgic_wf g -> forall w, 0 <= e w < 2 ^ 32) -> same_views g (set_spi g e (spi_pending g) (spi_active g))).
    { intros e He. split; try done. intros Hwf. pose proof Hwf as (H1 & H2 & H3 & H4 & H5 & H6). exact (conj H1 (conj H2 (conj (He Hwf) (conj H4 (conj H5 H6))))). }
    destruct en; apply Hs; intros (_ & _ & He & _) w; unfold upd; case_if; try done; [by apply lor_word|by apply ldiff_range].
Qed.

Lemma views_ok s r m g' : consistent s r -> same_views (vms s m) g' ->
  consistent (with_vm s m g') r /\
  forall x y k, (outstanding_of (with_vm s m g') x y k <-> outstanding_of s x y k) /\ (taken_of (with_vm s m g') x y k <-> taken_of s x y k).
Proof.
  intros [Hwf Hh Hcpu Ho] Hg.
  assert (Hv : forall x, same_views (vms s x) (vms (with_vm s m g') x)) by (intros x; cbn; destruct (decide (x = m)) as [->|]; [by rewrite upd_eq|by rewrite upd_ne]).
  split.
  - split; [intros x; apply (sv_wf _ _ (Hv x)), Hwf|done|done|]. cbn [g_lr_owner_vcpu with_vm hw]. destruct (g_lr_owner_vcpu s) as [[om ov]|]; [|done].
    destruct Ho as [Hval Ht], (Hv om) as [H1 H2 H3 H4 _]. split; [unfold valid_vcpu; by rewrite H1|].
    eapply raised_ok; [| | |exact Ht]; intros; [apply H3|by rewrite H4|by rewrite H2].
  - intros x y k. destruct (Hv x) as [_ H2 H3 H4 _]. unfold outstanding_of, taken_of. change (owns (with_vm s m g') x y) with (owns s x y). cbn [hw with_vm].
    destruct (decide (owns s x y)); [|by rewrite H2, H3]. unfold outstanding, taken.
    by rewrite !(hw_bit_slots (hw s) (vms s x) (vms (with_vm s m g') x)), (in_lr_slots (hw s) (vms s x)), H2, H3 by (intros; by rewrite H4).
Qed.

(** *** Deactivation *)

Lemma deactivates_spec h g v irq i : tight h g v -> 0 <= i < nr_lrs h ->
  deactivates g v irq i = true <-> slots g v i <> 0 /\ lr_vintid (slots g v i) = irq /\ lr_state (slots g v i) = 2.
Proof.
  intros [Ht _] Hi. unfold deactivates. cbn zeta. fold (slots g v i). destruct (Ht i Hi) as [[-> _]|[_ (Hp & Hst & _)]]; [split; [done|by intros [? _]]|].
  destruct Hst as [-> | ->]; [change (Z.land 1 _) with 0|change (Z.land 2 _) with 2]; split; intros; lia.
Qed.

(** The outcome of [vmm_vgic3_deactivate]. *)
Record released (h : ich) (g : vgic3_t) (v irq : Z) (g' : vgic3_t) (h' : ich) : Prop := mk_released {
  rl_frame : framed v g g';
  rl_hw : hw_wf h' /\ nr_lrs h' = nr_lrs h;
  rl_tight : tight h' g' v;
  rl_waits : forall k, 0 <= k -> waits g' v k = waits g v k;
  rl_bit : forall k, hw_bit h' g' v 0 k <-> hw_bit h g v 0 k;
  rl_taken : forall k, 0 <= k -> taken h' g' v k <-> taken h g v k /\ ~ (k = irq /\ irq < VGIC3_MAX_IRQS)
}.

(** The interrupt is not active in a list register. *)
Lemma release_software h g v irq : hw_wf h -> tight h g v -> 0 <= irq ->
  (forall i, 0 <= i < nr_lrs h -> slots g v i <> 0 -> lr_vintid (slots g v i) = irq -> lr_state (slots g v i) = 1) -> irq < VGIC3_MAX_IRQS ->
  released h g v irq (clear_active g v irq) h.
Proof.
  intros Hh Ht Hirq Hno Hlt. destruct (acts_effect false g v irq Hirq) as [Hf Hw Ha Hs]. change (if false then _ else _) with (clear_active g v irq) in *.
  pose proof Ht as [Hc Hu].
  assert (Hbit : forall b k, hw_bit h (clear_active g v irq) v b k <-> hw_bit h g v b k) by (intros; apply hw_bit_slots; intros; apply Hs).
  split; [done|done| |done|apply Hbit|].
  - split; [|intros i j; rewrite !Hs; by apply Hu]. intros i Hi. rewrite !Hs. destruct (Hc i Hi) as [?|(Hx & Hp & Hst & Hr & Hact & Hl)]; [by left|right; split; [done|]].
    split_and!; try done; try lia; [|intros; rewrite Hw by lia; auto]. rewrite Ha by lia. unfold only. case_if; [|done].
    pose proof (Hno i Hi ltac:(lia) ltac:(done)) as ->. done.
  - intros k Hk. unfold taken. rewrite Hbit, (in_lr_slots h g), Ha by (done || intros; apply Hs). unfold only. case_if; [subst k|intuition].
    split; [|tauto]. intros [(i & Hi & H0 & E & Hb)|[? _]]; [|done]. destruct (Hc i Hi) as [[? _]|[Hx _]]; [done|]. rewrite Hx, (Hno i Hi H0 E) in Hb. done.
Qed.

(** It is: the list register becomes free. *)
Lemma release_lr h g v irq i : hw_wf h -> tight h g v -> 0 <= irq < VGIC3_MAX_IRQS -> 0 <= i < nr_lrs h ->
  slots g v i <> 0 -> lr_vintid (slots g v i) = irq -> lr_state (slots g v i) = 2 ->
  released h g v irq (clear_active (set_vcpu g v (set_lr (vcpu g v) i 0)) v irq) (gicv3_write_lr h i 0).
Proof.
  intros Hh [Hc Hu] Hirq Hi Hs0 Hvi Hst2. pose proof (nr_lrs_16 h Hh). destruct (set_lr_effect g v i 0) as [Hf1 Hw1 Ha1 Hs1]. set (g1 := set_vcpu g v _) in *.
  destruct (acts_effect false g1 v irq ltac:(lia)) as [Hf Hw Ha Hs]. change (if false then _ else _) with (clear_active g1 v irq) in *. set (g' := clear_active g1 v irq) in *.
  assert (Hsl : forall j, slots g' v j = only (slots g v) i 0 j) by (intros; by rewrite Hs, Hs1).
  assert (Hact : forall k, 0 <= k -> acts g' v k = only (acts g v) irq false k) by (intros; rewrite Ha by done; unfold only; case_if; [done|by rewrite Ha1]).
  assert (Hlr : forall j, hw_lr (gicv3_write_lr h i 0) j = only (hw_lr h) i 0 j) by (intros; rewrite write_lr_hw by lia; done).
  assert (Hoth : forall j, 0 <= j < nr_lrs h -> j <> i -> slots g v j <> 0 -> lr_vintid (slots g v j) <> irq) by (intros j Hj Hne Hj0 E; apply Hne, Hu; try done; by rewrite Hvi).
  assert (Hbit : forall b k, hw_bit (gicv3_write_lr h i 0) g' v b k <-> hw_bit h g v b k /\ k <> irq).
  { intros b k. unfold hw_bit. rewrite nr_lrs_write. split.
    - intros (j & Hj & H0 & E & Hb). rewrite Hsl, Hlr in *. unfold only in *. case_if_in H0; [done|]. split; [by exists j|]. subst k. by apply Hoth.
    - intros [(j & Hj & H0 & E & Hb) Hne]. exists j. rewrite Hsl, Hlr. unfold only. case_if; [congruence|done]. }
  assert (Hin : forall k, in_lr (gicv3_write_lr h i 0) g' v k <-> in_lr h g v k /\ k <> irq).
  { intros k. unfold in_lr. rewrite nr_lrs_write. split.
    - intros (j & Hj & H0 & E). rewrite Hsl in *. unfold only in *. case_if_in H0; [done|]. split; [by exists j|]. subst k. by apply Hoth.
    - intros [(j & Hj & H0 & E) Hne]. exists j. rewrite Hsl. unfold only. case_if; [congruence|done]. }
  assert (Hst : lr_state (hw_lr h i) = 2) by (destruct (Hc i Hi) as [[? _]|[-> _]]; done).
  split; [by eapply framed_trans|split; [by apply write_lr_wf|apply nr_lrs_write]| |intros; by rewrite Hw, Hw1| |].
  - split; [intros j Hj|intros j l Hj Hl]; rewrite ?nr_lrs_write in *; rewrite !Hsl; [rewrite Hlr|]; unfold only.
    + case_if; [by left|]. destruct (Hc j Hj) as [?|(Hx & Hp & Hst' & Hr & Hac & Hl)]; [by left|right; split; [done|]].
      split_and!; try done; try lia; [|intros; rewrite Hw, Hw1 by lia; auto]. rewrite Hact by lia. unfold only. case_if; [|done]. exfalso; apply (Hoth j Hj); [done|lia|done].
    + case_if; [done|]. case_if; [done|]. by apply Hu.
  - intros k. rewrite Hbit. split; [tauto|]. intros Hb. split; [done|]. intros ->. rewrite <- Hvi, in_slot_bit, Hst in Hb by (done || by apply tight_coherent). done.
  - intros k Hk. unfold taken. rewrite Hbit, Hin, Hact by done. unfold only. case_if; intuition lia.
Qed.

Lemma deactivate_ok h g v irq : vgic_wf g -> hw_wf h -> valid_vcpu g v = true -> tight h g v -> 0 <= irq ->
  released h g v irq (vmm_vgic3_deactivate g h v irq).1 (vmm_vgic3_deactivate g h v irq).2.
Proof.
  intros Hwf Hh Hv Ht Hirq. unfold vmm_vgic3_deactivate, valid_irq. rewrite Hv, orb_false_r. destruct (Z.ltb_spec irq VGIC3_MAX_IRQS); cbn [negb fst snd].
  2: { split; [apply framed_refl|done..|]. intros k Hk. intuition lia. }
  destruct (List.find _ _) as [i|] eqn:Hfind; cbn [fst snd].
  - apply find_some in Hfind as [Hi%list_elem_of_In%elem_of_seqZ Hd]. apply (deactivates_spec h) in Hd as (Hs0 & Hvi & Hst); [|done|lia].
    fold (slots g v i). rewrite Hst. cbn [negb Z.land fst snd]. apply release_lr; done || lia.
  - apply release_software; try done. intros i Hi Hs0 Hvi. pose proof (find_none _ _ Hfind i) as Hn.
    assert (Hin : In i (seqZ 0 (nr_lrs h))) by (apply list_elem_of_In, elem_of_seqZ; lia). specialize (Hn Hin). cbn in Hn.
    destruct (proj1 Ht i Hi) as [[? _]|[_ (_ & Hst & _)]]; [done|]. destruct Hst as [|Hst]; [done|]. rewrite (proj2 (deactivates_spec h g v irq i Ht Hi)) in Hn by done. done.
Qed.

(** *** Leaving the guest *)

(** What changes is the machine of the owner, for its CPU, and the hardware. *)
Lemma owner_step s m v (r r' : bool) g' h' : consistent s r -> owns s m v -> framed v (vms s m) g' -> hw_wf h' ->
  (if r' then coherent h' g' v else tight h' g' v) ->
  let s' := with_hw (with_vm s m g') h' in
  consistent s' r' /\
  (forall x y k, ~ (x = m /\ y = v) -> (outstanding_of s' x y k <-> outstanding_of s x y k) /\ (taken_of s' x y k <-> taken_of s x y k)) /\
  (forall k, outstanding_of s' m v k = outstanding h' g' v k /\ taken_of s' m v k = taken h' g' v k /\
     outstanding_of s m v k = outstanding (hw s) (vms s m) v k /\ taken_of s m v k = taken (hw s) (vms s m) v k).
Proof.
  intros [Hwf Hh Hcpu Ho] Hown Hf Hh' Hc s'. pose proof Hown as Hown'. unfold owns in Hown'. rewrite Hown' in Ho. destruct Ho as [Hv _].
  assert (Hown2 : owns s' m v) by done. split; [|split].
  - split; [|done|done|cbn; rewrite Hown', upd_eq; split; [|done]].
    + intros x. cbn. destruct (decide (x = m)) as [->|]; [rewrite upd_eq; apply Hf, Hwf|by rewrite upd_ne].
    + unfold valid_vcpu in *. by rewrite (fr_nr _ _ _ Hf).
  - intros x y k Hxy. unfold outstanding_of, taken_of. rewrite !(decide_False (P := owns _ x y)) by (rewrite (owns_iff _ m v); done).
    cbn. destruct (decide (x = m)) as [->|]; [rewrite upd_eq|by rewrite upd_ne]. destruct (fr_others _ _ _ Hf y) as [E _]; [naive_solver|]. by destruct (E k) as [-> ->].
  - intros k. unfold outstanding_of, taken_of. rewrite !(decide_True (P := owns _ m v)) by done. cbn. by rewrite upd_eq.
Qed.

(** ** What a step does to the interrupts

    [acked] and [ended] are the interrupts that a step of the guest acknowledges or ends. *)

Definition lr_irq (s : pcpu) (i : Z) : option (Z * Z * Z) :=
  match g_lr_owner_vcpu s with Some (m, v) => Some (m, v, lr_vintid (slots (vms s m) v i)) | None => None end.
Definition raised (l : label) : option (Z * Z * Z) := match l with Raise m v irq => Some (m, v, irq) | Sgi m v _ irq => Some (m, v, irq) | _ => None end.
Definition acked (l : label) (s : pcpu) : option (Z * Z * Z) :=
  match l with Ack i => if lr_state (hw_lr (hw s) i) =? 1 then lr_irq s i else None | _ => None end.
Definition ended (l : label) (s : pcpu) : option (Z * Z * Z) :=
  match l with
  | Eoi i => if lr_state (hw_lr (hw s) i) =? 2 then lr_irq s i else None
  | Dir irq => match g_lr_owner_vcpu s with Some (m, v) => if irq <? VGIC3_MAX_IRQS then Some (m, v, irq) else None | None => None end
  | _ => None
  end.

(** An interrupt from another CPU is outstanding until it is acknowledged, one from a device
    at most until it is ended; an interrupt is taken between its acknowledgement and its end. *)
Record accounted (l : label) (s s' : pcpu) : Prop := mk_accounted {
  ac_source : forall m v k, 0 <= k -> outstanding_of s' m v k -> outstanding_of s m v k \/ raised l = Some (m, v, k);
  ac_sgi : forall m v k, 0 <= k < 16 -> outstanding_of s m v k \/ raised l = Some (m, v, k) -> outstanding_of s' m v k \/ acked l s = Some (m, v, k);
  ac_level : forall m v k, 16 <= k -> outstanding_of s m v k \/ raised l = Some (m, v, k) -> outstanding_of s' m v k \/ taken_of s' m v k;
  ac_acked : forall m v k, 0 <= k -> acked l s = Some (m, v, k) -> outstanding_of s m v k /\ taken_of s' m v k;
  ac_taken : forall m v k, 0 <= k -> taken_of s' m v k <-> (taken_of s m v k /\ ended l s <> Some (m, v, k)) \/ acked l s = Some (m, v, k)
}.

Lemma accounted_quiet l s s' : raised l = None -> acked l s = None -> ended l s = None ->
  (forall m v k, 0 <= k -> outstanding_of s' m v k -> outstanding_of s m v k) ->
  (forall m v k, 0 <= k -> outstanding_of s m v k -> outstanding_of s' m v k \/ (16 <= k /\ taken_of s' m v k)) ->
  (forall m v k, 0 <= k -> taken_of s' m v k <-> taken_of s m v k) -> accounted l s s'.
Proof.
  intros Hr Ha He H1 H2 H3. split; rewrite ?Hr, ?Ha, ?He.
  - intros m v k Hk Ho. left. auto.
  - intros m v k Hk [Ho|?]; [|done]. left. destruct (H2 m v k ltac:(lia) Ho) as [?|[? _]]; [done|lia].
  - intros m v k Hk [Ho|?]; [|done]. destruct (H2 m v k ltac:(lia) Ho) as [?|[_ ?]]; auto.
  - done.
  - intros m v k Hk. rewrite H3 by done. split; [intros; left; split; done|intros [[? _]|?]; done].
Qed.

Lemma accounted_raise l s s' m v irq : raised l = Some (m, v, irq) -> acked l s = None -> ended l s = None ->
  (forall x y k, 0 <= k -> (outstanding_of s' x y k <-> outstanding_of s x y k \/ (x = m /\ y = v /\ k = irq)) /\ (taken_of s' x y k <-> taken_of s x y k)) ->
  accounted l s s'.
Proof.
  intros Hr Ha He H. split; rewrite ?Hr, ?Ha, ?He.
  - intros x y k Hk Ho. apply H in Ho as [?|(-> & -> & ->)]; auto.
  - intros x y k Hk Ho. left. apply H; [lia|]. destruct Ho as [?|[= -> -> ->]]; auto.
  - intros x y k Hk Ho. left. apply H; [lia|]. destruct Ho as [?|[= -> -> ->]]; auto.
  - done.
  - intros x y k Hk. rewrite (proj2 (H x y k Hk)). split; [intros; left; split; done|intros [[? _]|?]; done].
Qed.

Lemma same_hw_accounted l s : raised l = None -> acked l s = None -> ended l s = None -> accounted l s (with_hw s (hw s)).
Proof. intros Hr Ha He. apply accounted_quiet; try done. intros m v k _ Ho. by left. Qed.
Lemma same_hw_consistent s r : consistent s r -> consistent (with_hw s (hw s)) r.
Proof. by intros [? ? ? ?]. Qed.

Lemma lr_irq_owner s m v i : owns s m v -> lr_irq s i = Some (m, v, lr_vintid (slots (vms s m) v i)).
Proof. unfold owns, lr_irq. by intros ->. Qed.

Lemma ack_ok s i : consistent s true -> 0 <= i < nr_lrs (hw s) ->
  consistent (with_hw s (guest_ack (hw s) i)) true /\ accounted (Ack i) s (with_hw s (guest_ack (hw s) i)).
Proof.
  intros Hc Hi. pose proof (cs_owner _ _ Hc) as Ho. destruct (g_lr_owner_vcpu s) as [[m v]|] eqn:Eo; [|by destruct Ho]. clear Ho.
  destruct (Z.eqb_spec (lr_state (hw_lr (hw s) i)) 1) as [Est|Est].
  - assert (Hmv : moves (hw s) (guest_ack (hw s) i) i 1 2) by (split; [done|]; unfold guest_ack; by rewrite Est).
    destruct (guest_move_ok s m v _ i 1 2 Hc Eo Hi Hmv ltac:(auto)) as (Hc' & Hirq & Hoth & Hback & Hack & _). specialize (Hack eq_refl) as [Hout Htk].
    split; [done|]. set (irq := lr_vintid _) in *.
    assert (Ea : acked (Ack i) s = Some (m, v, irq)) by (cbn; rewrite Est; by apply lr_irq_owner).
    assert (Hx : forall x y k, {x = m /\ y = v /\ k = irq} + {~ (x = m /\ y = v /\ k = irq)}) by (intros; apply decide; apply _).
    split; rewrite ?Ea; cbn [raised ended].
    + intros x y k Hk H. left. destruct (Hx x y k) as [(-> & -> & ->)|Hne]; [done|by apply (Hoth x y k Hk Hne)].
    + intros x y k Hk [H|?]; [|done]. destruct (Hx x y k) as [(-> & -> & ->)|Hne]; [by right|left; apply (Hoth x y k); [lia|done..]].
    + intros x y k Hk [H|?]; [|done]. destruct (Hx x y k) as [(-> & -> & ->)|Hne]; [by right|left; apply (Hoth x y k); [lia|done..]].
    + by intros x y k Hk [= <- <- <-].
    + intros x y k Hk. destruct (Hx x y k) as [(-> & -> & ->)|Hne]; [by split; [right|]|]. rewrite (proj2 (Hoth x y k Hk Hne)).
      split; [intros; left; split; done|intros [[? _]|[= <- <- <-]]; [done|by destruct Hne]].
  - assert (Eg : guest_ack (hw s) i = hw s) by (unfold guest_ack; by rewrite (proj2 (Z.eqb_neq _ _) Est)). rewrite Eg.
    split; [by apply same_hw_consistent|]. apply same_hw_accounted; try done. cbn. by rewrite (proj2 (Z.eqb_neq _ _) Est).
Qed.

Lemma eoi_ok s i : consistent s true -> 0 <= i < nr_lrs (hw s) ->
  consistent (with_hw s (guest_eoi (hw s) i)) true /\ accounted (Eoi i) s (with_hw s (guest_eoi (hw s) i)).
Proof.
  intros Hc Hi. pose proof (cs_owner _ _ Hc) as Ho. destruct (g_lr_owner_vcpu s) as [[m v]|] eqn:Eo; [|by destruct Ho]. destruct Ho as [_ [Hco _]].
  assert (H3 : lr_state (hw_lr (hw s) i) <> 3) by (destruct (Hco i Hi) as [[_ ?]|(_ & _ & ? & _)]; lia). clear Hco.
  destruct (Z.eqb_spec (lr_state (hw_lr (hw s) i)) 2) as [Est|Est].
  - assert (Hmv : moves (hw s) (guest_eoi (hw s) i) i 2 0) by (split; [done|]; unfold guest_eoi; by rewrite Est).
    destruct (guest_move_ok s m v _ i 2 0 Hc Eo Hi Hmv ltac:(auto)) as (Hc' & Hirq & Hoth & Hback & _ & Hend). specialize (Hend eq_refl) as (Hfwd & Htk & Hno).
    split; [done|]. set (irq := lr_vintid _) in *.
    assert (Ee : ended (Eoi i) s = Some (m, v, irq)) by (cbn; rewrite Est; by apply lr_irq_owner).
    assert (Hx : forall x y k, {x = m /\ y = v /\ k = irq} + {~ (x = m /\ y = v /\ k = irq)}) by (intros; apply decide; apply _).
    assert (Hall : forall x y k, 0 <= k -> outstanding_of (with_hw s (guest_eoi (hw s) i)) x y k <-> outstanding_of s x y k).
    { intros x y k Hk. destruct (Hx x y k) as [(-> & -> & ->)|Hne]; [by split|by apply (Hoth x y k Hk Hne)]. }
    split; rewrite ?Ee; cbn [raised acked].
    + intros x y k Hk H. left. by apply Hall.
    + intros x y k Hk [H|?]; [|done]. left. apply Hall; [lia|done].
    + intros x y k Hk [H|?]; [|done]. left. apply Hall; [lia|done].
    + done.
    + intros x y k Hk. destruct (Hx x y k) as [(-> & -> & ->)|Hne]; [split; [done|by intros [[_ ?]|?]]|]. rewrite (proj2 (Hoth x y k Hk Hne)).
      split; [intros; left; split; [done|]; intros [= <- <- <-]; by apply Hne|by intros [[? _]|?]].
  - assert (Eg : guest_eoi (hw s) i = hw s) by (destruct (guest_eoi_moves (hw s) i H3) as [?|[? _]]; done). rewrite Eg.
    split; [by apply same_hw_consistent|]. apply same_hw_accounted; try done. cbn. by rewrite (proj2 (Z.eqb_neq _ _) Est).
Qed.

Lemma exit_ok s m v : consistent s true -> owns s m v ->
  let s' := with_vm s m (vmm_vgic3_sync_exit (vms s m) (hw s) v) in consistent s' false /\ accounted Exit s s'.
Proof.
  intros Hc Hown s'. pose proof Hc as [Hwf Hh Hcpu Ho]. pose proof Hown as Hown'. unfold owns in Hown'. rewrite Hown' in Ho. destruct Ho as [Hv Hco].
  destruct (sync_exit_ok (hw s) (vms s m) v (Hwf m) Hh Hv Hco) as [Hf Ht Ha Htk Hb Hw]. set (g' := vmm_vgic3_sync_exit _ _ _) in *.
  destruct (owner_step s m v true false g' (hw s) Hc Hown Hf Hh Ht) as (Hc' & Hoth & Hme). change (with_hw (with_vm s m g') (hw s)) with s' in *.
  assert (Hx : forall x y, {x = m /\ y = v} + {~ (x = m /\ y = v)}) by (intros; apply decide; apply _).
  assert (Htak : forall x y k, 0 <= k -> taken_of s' x y k <-> taken_of s x y k).
  { intros x y k Hk. destruct (Hx x y) as [[-> ->]|Hne]; [|by apply Hoth]. destruct (Hme k) as (_ & -> & _ & ->). by apply Htk. }
  split; [done|]. apply accounted_quiet; try done; intros x y k Hk; destruct (Hx x y) as [[-> ->]|Hne].
  - destruct (Hme k) as (-> & _ & -> & _). unfold outstanding. rewrite Hb, Hw by done. tauto.
  - by apply Hoth.
  - rewrite Htak by done. destruct (Hme k) as (-> & _ & -> & ->). unfold outstanding, taken. rewrite Hb, Hw by done.
    destruct (decide_hw_bit (hw s) (vms s m) v 1 k), (decide (16 <= k)); tauto.
  - intros Ho. left. by apply Hoth.
Qed.

Lemma dir_ok s m v irq : consistent s false -> owns s m v -> 0 <= irq ->
  let s' := let '(g, h) := vmm_vgic3_deactivate (vms s m) (hw s) v irq in with_hw (with_vm s m g) h in consistent s' false /\ accounted (Dir irq) s s'.
Proof.
  intros Hc Hown Hirq. pose proof Hc as [Hwf Hh Hcpu Ho]. pose proof Hown as Hown'. unfold owns in Hown'. rewrite Hown' in Ho. destruct Ho as [Hv Ht].
  destruct (deactivate_ok (hw s) (vms s m) v irq (Hwf m) Hh Hv Ht Hirq) as [Hf [Hh' Hn] Ht' Hw Hb Htk].
  destruct (vmm_vgic3_deactivate (vms s m) (hw s) v irq) as [g' h']. cbn [fst snd] in *.
  destruct (owner_step s m v false false g' h' Hc Hown Hf Hh' Ht') as (Hc' & Hoth & Hme). cbn zeta. set (s' := with_hw (with_vm s m g') h') in *.
  assert (Hx : forall x y, {x = m /\ y = v} + {~ (x = m /\ y = v)}) by (intros; apply decide; apply _).
  assert (Hout : forall x y k, 0 <= k -> outstanding_of s' x y k <-> outstanding_of s x y k).
  { intros x y k Hk. destruct (Hx x y) as [[-> ->]|Hne]; [|by apply Hoth]. destruct (Hme k) as (-> & _ & -> & _). unfold outstanding. by rewrite Hw, Hb. }
  assert (He : forall x y k, ended (Dir irq) s = Some (x, y, k) <-> (x = m /\ y = v) /\ k = irq /\ irq < VGIC3_MAX_IRQS).
  { intros x y k. cbn [ended]. rewrite Hown'. destruct (Z.ltb_spec irq VGIC3_MAX_IRQS); [|split; [done|lia]]. split; [by intros [= -> -> ->]|by intros ([-> ->] & -> & _)]. }
  split; [done|]. split; cbn [raised acked].
  - intros x y k Hk Ho. left. by apply Hout.
  - intros x y k Hk [Ho|?]; [|done]. left. apply Hout; [lia|done].
  - intros x y k Hk [Ho|?]; [|done]. left. apply Hout; [lia|done].
  - done.
  - intros x y k Hk. rewrite He. destruct (Hx x y) as [[-> ->]|Hne]; [|rewrite (proj2 (Hoth x y k Hne)); intuition done].
    destruct (Hme k) as (_ & -> & _ & ->). rewrite Htk by done. intuition done.
Qed.

Lemma enter_accounted s s' m v : entry_ok s s' m v -> accounted (Enter m v) s s'.
Proof.
  intros He. apply accounted_quiet; try done.
  - intros x y k Hk. destruct (decide (k < 16)); [apply (en_out _ _ _ _ He); lia|apply (en_level _ _ _ _ He); lia].
  - intros x y k Hk Ho. destruct (decide (k < 16)); [left; apply (en_out _ _ _ _ He); [lia|done]|].
    destruct (proj2 (en_level _ _ _ _ He x y k ltac:(lia)) Ho) as [?|?]; [by left|right]. split; [lia|]. by apply (en_taken _ _ _ _ He).
  - intros x y k Hk. by apply (en_taken _ _ _ _ He).
Qed.

Lemma step_ok l s r s' r' : consistent s r -> vstep l (s, r) (s', r') -> consistent s' r' /\ accounted l s s'.
Proof.
  intros Hc Hs. inversion Hs; subst.
  - destruct (raise_ok s r' m v irq (vmm_vgic3_set_pending (vms s m) v irq) Hc ltac:(lia) (set_pending_effect _ _ _ ltac:(done) ltac:(done))) as [Hc' Hv'].
    split; [done|]. by apply (accounted_raise _ _ _ m v irq).
  - destruct (raise_ok s r' m v irq (vmm_vgic3_set_sgi_pending (vms s m) v source irq) Hc ltac:(lia) (set_sgi_pending_effect _ _ _ _ ltac:(done) ltac:(done))) as [Hc' Hv'].
    split; [done|]. by apply (accounted_raise _ _ _ m v irq).
  - destruct (views_ok s r' m _ Hc (set_enabled_views (vms s m) v irq en)) as [Hc' Hv']. split; [done|].
    apply accounted_quiet; try done; intros x y k Hk; [apply Hv'|intros ?; left; by apply Hv'|apply Hv'].
  - pose proof (switch_in_ok s m v Hc ltac:(done)) as He. split; [apply (en_cons _ _ _ _ He)|by apply enter_accounted].
  - by apply ack_ok.
  - by apply eoi_ok.
  - by apply exit_ok.
  - by apply dir_ok.
Qed.

Lemma reachable_consistent s r : reachable (s, r) -> consistent s r.
Proof.
  enough (Hall : forall a, reachable a -> consistent a.1 a.2) by (intros H; by apply (Hall (s, r))).
  intros a Ha. induction Ha as [f h cpu Hwf Hh Hcpu He|l [s1 r1] [s2 r2] _ IH Hs]; [by split|]. by apply (step_ok l s1 r1).
Qed.

(** ** Theorems *)

Lemma init_wf n : vgic_wf (vmm_vgic3_init n).
Proof.
  unfold vmm_vgic3_init. split; [cbn; repeat case_if; lia|]. split; [cbn; intros; lia|]. split_and!; cbn; intros; lia.
Qed.



(** C31. An entry delivers: afterwards every interrupt the CPU waits for and has enabled, and every
    one its guest has taken and not ended, is in a list register of the hardware, active if it is
    taken and pending if not, unless all the list registers are in use. *)
Theorem vgic3_delivery s m v k : reachable (s, false) -> valid_vcpu (vms s m) v = true -> 0 <= k < VGIC3_MAX_IRQS ->
  taken_of s m v k \/ (waits (vms s m) v k = true /\ permits (vms s m) v k = true) ->
  let s' := vmm_vgic3_lr_switch_in s m v in
  owns s' m v /\
  ((exists i, 0 <= i < nr_lrs (hw s') /\ lr_vintid (hw_lr (hw s') i) = k /\
     ((lr_state (hw_lr (hw s') i) = 2 /\ taken_of s m v k) \/ (lr_state (hw_lr (hw s') i) = 1 /\ ~ taken_of s m v k))) \/
   (forall i, 0 <= i < nr_lrs (hw s') -> lr_state (hw_lr (hw s') i) <> 0)).
Proof.
  intros Hr Hv Hk Hw s'. pose proof (switch_in_ok s m v (reachable_consistent _ _ Hr) Hv) as [Hown _ Ht _ _ Htk Hready]. fold s' in Hown, Ht, Htk, Hready.
  assert (Hst : forall i, 0 <= i < nr_lrs (hw s') -> slots (vms s' m) v i <> 0 -> hw_lr (hw s') i = slots (vms s' m) v i /\ (lr_state (hw_lr (hw s') i) = 1 \/ lr_state (hw_lr (hw s') i) = 2)).
  { intros i Hi H0. destruct (proj1 Ht i Hi) as [[? _]|[Hx (_ & ? & _)]]; [done|]. split; [done|by rewrite Hx]. }
  split; [done|]. destruct (Hready k Hk) as [(i & Hi & H0 & E)|Hfull]; [rewrite Htk by lia; done| |].
  - left. destruct (Hst i Hi H0) as [Hx Hs12]. exists i. split; [done|]. split; [by rewrite Hx|]. rewrite <- (Htk m v k) by lia. unfold taken_of. rewrite decide_True by done.
    assert (Hb : hw_bit (hw s') (vms s' m) v 1 k <-> Z.testbit (lr_state (hw_lr (hw s') i)) 1 = true) by (rewrite <- E; apply in_slot_bit; [by apply tight_coherent|done..]).
    unfold taken. rewrite Hb. destruct Hs12 as [-> | ->]; [right|left]; (split; [done|]); [|by left]. intros [?|[_ []]]; [done|]. by exists i.
  - right. intros i Hi. destruct (Hst i Hi (Hfull i Hi)) as [_ ?]. lia.
Qed.

(** ** A scenario

    Two machines share a CPU with four list registers. *)

Definition demo_start : pcpu := mk_pcpu (fun _ => vmm_vgic3_init 2) (mk_ich (fun _ => 0) 0 0 0 4) None 0.

(** [step] as a function, for evaluation *)
Definition run1 (s : pcpu) (l : label) : pcpu :=
  match l with
  | Raise m v irq => with_vm s m (vmm_vgic3_set_pending (vms s m) v irq)
  | Sgi m v source irq => with_vm s m (vmm_vgic3_set_sgi_pending (vms s m) v source irq)
  | Enable m v irq en => with_vm s m (vmm_vgic3_set_enabled (vms s m) v irq en)
  | Enter m v => vmm_vgic3_lr_switch_in s m v
  | Ack i => with_hw s (guest_ack (hw s) i)
  | Eoi i => with_hw s (guest_eoi (hw s) i)
  | Exit => match g_lr_owner_vcpu s with Some (m, v) => with_vm s m (vmm_vgic3_sync_exit (vms s m) (hw s) v) | None => s end
  | Dir irq => match g_lr_owner_vcpu s with Some (m, v) => let '(g, h) := vmm_vgic3_deactivate (vms s m) (hw s) v irq in with_hw (with_vm s m g) h | None => s end
  end.
Definition run (s : pcpu) (ls : list label) : pcpu := fold_left run1 ls s.

(** CPU 1 of machine 0 gets interrupt 3 from CPU 0, its guest acknowledges it, leaves, and
    machine 1 uses the list registers in between. *)
Definition demo_pending : pcpu := run1 demo_start (Sgi 0 1 0 3).
Definition demo_entered : pcpu := run1 demo_pending (Enter 0 1).
Definition demo_taken : pcpu := run1 demo_entered (Ack 0).
Definition demo_left : pcpu := with_vm demo_taken 0 (vmm_vgic3_sync_exit (vms demo_taken 0) (hw demo_taken) 1).
Definition demo_other : pcpu := run1 demo_left (Enter 1 0).
Definition demo_away : pcpu := with_vm demo_other 1 (vmm_vgic3_sync_exit (vms demo_other 1) (hw demo_other) 0).

Lemma demo_start_reachable : reachable (demo_start, false).
Proof. apply R_init; [intros; apply init_wf|split; cbn; intros; lia|done|done]. Qed.
Lemma demo_pending_reachable : reachable (demo_pending, false).
Proof. eapply R_step; [apply demo_start_reachable|]. apply (V_sgi demo_start false 0 1 0 3); [done|lia]. Qed.
Lemma demo_entered_reachable : reachable (demo_entered, true).
Proof. refine (R_step _ _ _ demo_pending_reachable (V_enter demo_pending 0 1 _)). vm_compute. done. Qed.
Lemma demo_lrs : nr_lrs (hw demo_entered) = 4 /\ nr_lrs (hw demo_taken) = 4.
Proof. vm_compute. done. Qed.
Lemma demo_taken_reachable : reachable (demo_taken, true).
Proof. refine (R_step _ _ _ demo_entered_reachable (V_ack demo_entered 0 _)). rewrite (proj1 demo_lrs). lia. Qed.
Lemma demo_left_reachable : reachable (demo_left, false).
Proof. refine (R_step _ _ _ demo_taken_reachable (V_exit demo_taken 0 1 _)). vm_compute. done. Qed.
Lemma demo_other_reachable : reachable (demo_other, true).
Proof. refine (R_step _ _ _ demo_left_reachable (V_enter demo_left 1 0 _)). vm_compute. done. Qed.
Lemma demo_away_reachable : reachable (demo_away, false).
Proof. refine (R_step _ _ _ demo_other_reachable (V_exit demo_other 1 0 _)). vm_compute. done. Qed.



Lemma vgic3_delivery_witness : taken_of demo_away 0 1 3 /\
  exists i, lr_vintid (hw_lr (hw (vmm_vgic3_lr_switch_in demo_away 0 1)) i) = 3 /\ lr_state (hw_lr (hw (vmm_vgic3_lr_switch_in demo_away 0 1)) i) = 2.
Proof.
  assert (Ht : taken_of demo_away 0 1 3) by (vm_compute; done). split; [done|].
  assert (Hv : valid_vcpu (vms demo_away 0) 1 = true) by (vm_compute; done).
  destruct (vgic3_delivery demo_away 0 1 3 demo_away_reachable Hv ltac:(lia) (or_introl Ht)) as [_ [(i & _ & E & [[H _]|[_ H]])|H]]; [exists i; exact (conj E H)|destruct (H Ht)|].
  assert (H3 : lr_state (hw_lr (hw (vmm_vgic3_lr_switch_in demo_away 0 1)) 3) = 0 /\ nr_lrs (hw (vmm_vgic3_lr_switch_in demo_away 0 1)) = 4) by (vm_compute; split; reflexivity).
  destruct H3 as [H3 H4]. rewrite H4 in H. destruct (H 3 ltac:(clear; lia) H3).
Defined.

(** ** Boundaries *)

(** A device interrupt that the guest acknowledges and ends before it leaves stays waiting and
    is delivered again at the next entry, without having been raised again. *)
Lemma device_delivered_twice :
  let s := run demo_start [Enable 0 0 27 true; Raise 0 0 27; Enter 0 0; Ack 0; Eoi 0; Exit] in
  waits (vms s 0) 0 27 = true /\ acts (vms s 0) 0 27 = false /\
  lr_vintid (hw_lr (hw (run s [Enter 0 0])) 0) = 27 /\ lr_state (hw_lr (hw (run s [Enter 0 0])) 0) = 1.
Proof. vm_compute. done. Qed.

(** A device interrupt raised again while its first instance is active does not survive the next
    exit: it is not delivered after the first instance ended. *)
Lemma device_raise_lost :
  let s := run demo_start [Enable 0 0 40 true; Raise 0 0 40; Enter 0 0; Ack 0; Exit; Raise 0 0 40] in
  acts (vms s 0) 0 40 = true /\ waits (vms s 0) 0 40 = true /\
  let s' := run s [Enter 0 0; Exit; Enter 0 0; Eoi 0; Exit; Enter 0 0] in
  waits (vms s' 0) 0 40 = false /\ acts (vms s' 0) 0 40 = false /\ forall i, 0 <= i < 4 -> lr_state (hw_lr (hw s') i) = 0.
Proof. cbn zeta. split; [vm_compute; done|]. split; [vm_compute; done|]. split; [vm_compute; done|]. split; [vm_compute; done|]. intros i Hi. assert (i = 0 \/ i = 1 \/ i = 2 \/ i = 3) as [-> |[-> |[-> | ->]]] by lia; vm_compute; done. Qed.

(** A machine that is set up again in the place of one whose CPU owned the list registers does
    not get them cleared: the interrupt of the old machine is active in the new one. *)
Lemma stale_after_reinit :
  let s := with_vm demo_left 0 (vmm_vgic3_init 2) in
  lr_state (hw_lr (hw (run s [Enter 0 1])) 0) = 2 /\ lr_vintid (hw_lr (hw (run s [Enter 0 1])) 0) = 3.
Proof. vm_compute. done. Qed.

(** Every access to a priority register of a redistributor is behind the end of [prio0]. *)
Lemma priority_out_of_bounds g off value v : is_prio (Z.land off (VGIC3R_STRIDE - 1) - VGIC3R_SGI_OFF) = true ->
  vgic3r_read g off v = None /\ vgic3r_write g off value v = None.
Proof.
  intros H. unfold vgic3r_read, vgic3r_write. set (w := Z.land off (VGIC3R_STRIDE - 1)) in *.
  apply existsb_exists in H as (r & Hr & E). apply Z.eqb_eq in E. replace w with (r + VGIC3R_SGI_OFF) by lia. clear E w.
  cbn in Hr. repeat destruct Hr as [<-|Hr]; done.
Qed.

(** The identification register of the frame of the private interrupts reads as 0, and setting
    the active bits 0..31 at the distributor leaves the private interrupts inactive. *)
Lemma sgi_pidr2_zero g v : vgic3r_read g 131048 v = Some 0.
Proof. done. Qed.
Lemma isactiver0_ineffective g v value irq : 0 <= irq < 32 -> acts (vgic3d_write g GICD_ISACTIVER 4 value v) v irq = acts g v irq.
Proof.
  intros Hi. unfold acts, word_in. rewrite (irq_low irq) by lia. cbn -[for_bits Z.testbit]. f_equal.
  unfold for_bits. apply (for_range_ind (fun _ g' => active0 (vcpu g' v) = active0 (vcpu g v))); [lia|done|]. intros i g' _ IH. by case_if.
Qed.
