(* ===== verification/Ring.v ===== *)
(** * Byte rings: the queues of the consoles

    The consoles of the virtual machines (vuart16550.c, vpl011.c) keep their input and
    their output in arrays with a head, a tail and a count.  Their code writes the three
    assignments out at every use; the definitions below are those assignments, for the
    capacity [cap] of the array.  [ring_queue] is the queue a ring stands for, and the
    lemmas show that putting a byte appends it and dropping one removes the oldest. *)

From stdpp Require Import options.
From Stdlib Require Import Lia ZifyBool.
From S2P Require Import Prelude.

Record ring := mk_ring { rg_buf : list Z; rg_head : Z; rg_tail : Z; rg_count : Z }.

Section ring.
Context (cap : Z).

Definition ring_zero : ring := mk_ring (replicate (Z.to_nat cap) 0) 0 0 0.

(** [buf[head] = c; head = (head + 1) % cap; count++;] *)
Definition ring_put (r : ring) (c : Z) : ring :=
  mk_ring (aset (rg_buf r) (rg_head r) c) (u32 (rg_head r + 1) mod cap) (rg_tail r) (u32 (rg_count r + 1)).

(** [tail = (tail + 1) % cap; count--;] *)
Definition ring_drop (r : ring) : ring :=
  mk_ring (rg_buf r) (rg_head r) (u32 (rg_tail r + 1) mod cap) (u32 (rg_count r - 1)).

(** [buf[tail]] *)
Definition ring_first (r : ring) : Z := aget 0 (rg_buf r) (rg_tail r).

(** [head = tail = count = 0;] *)
Definition ring_clear (r : ring) : ring := mk_ring (rg_buf r) 0 0 0.

(** ** The queue of a ring *)

Definition ring_at (r : ring) (i : Z) : Z := aget 0 (rg_buf r) ((rg_tail r + i) mod cap).
Definition ring_queue (r : ring) : list Z := ring_at r <$> seqZ 0 (rg_count r).

Definition byte (c : Z) : Prop := 0 <= c < 256.

Record ring_inv (r : ring) : Prop := mk_ring_inv {
  ri_length : Z.of_nat (length (rg_buf r)) = cap;
  ri_bytes : Forall byte (rg_buf r);
  ri_tail : 0 <= rg_tail r < cap;
  ri_count : 0 <= rg_count r <= cap;
  ri_head : rg_head r = (rg_tail r + rg_count r) mod cap;
}.

Context (Hcap : 0 < cap < 2 ^ 31).

Lemma ring_zero_inv : ring_inv ring_zero /\ ring_queue ring_zero = [].
Proof using Hcap.
  split; [|done]. split; cbn; [rewrite length_replicate; lia| |lia|lia|by rewrite Zmod_0_l].
  apply Forall_replicate. unfold byte. lia.
Qed.

Lemma ring_queue_length r : ring_inv r -> Z.of_nat (length (ring_queue r)) = rg_count r.
Proof using Type. intros [_ _ _ ? _]. unfold ring_queue. rewrite length_fmap, length_seqZ. lia. Qed.

Lemma ring_head_range r : ring_inv r -> 0 <= rg_head r < cap.
Proof using Hcap. intros [_ _ _ _ ->]. apply Z.mod_pos_bound. lia. Qed.

Lemma ring_first_byte r : ring_inv r -> byte (ring_first r).
Proof using Type.
  intros [Hl Hb Ht _ _]. unfold ring_first. eapply Forall_lookup_1; [exact Hb|]. apply (aget_lookup 0). lia.
Qed.

Lemma ring_put_spec r c :
  ring_inv r -> byte c -> rg_count r < cap ->
  ring_inv (ring_put r c) /\ ring_queue (ring_put r c) = ring_queue r ++ [c].
Proof using Hcap.
  intros Hinv Hc Hn. pose proof (ring_head_range r Hinv) as Hh. destruct Hinv as [Hl Hb Ht Hct Hhd]. split.
  - split; cbn [ring_put rg_buf rg_head rg_tail rg_count]; rewrite ?u32_id by lia; [by rewrite length_aset| |done|lia|].
    + apply Forall_insert; done.
    + rewrite Hhd. rewrite Zplus_mod_idemp_l. f_equal. lia.
  - unfold ring_queue. cbn [ring_put rg_count]. rewrite u32_id by lia. rewrite (seqZ_app 0 (rg_count r) 1), fmap_app by lia. f_equal.
    + apply list_fmap_ext. intros k i Hi. apply lookup_seqZ in Hi. unfold ring_at. cbn [ring_put rg_buf rg_tail].
      pose proof (Z.mod_pos_bound (rg_tail r + i) cap ltac:(lia)). apply aget_aset_ne; [lia|lia|]. rewrite Hhd.
      intros E. assert ((rg_tail r + rg_count r) - (rg_tail r + i) = cap * ((rg_tail r + rg_count r) / cap - (rg_tail r + i) / cap)) as He.
      { pose proof (Z.div_mod (rg_tail r + rg_count r) cap). pose proof (Z.div_mod (rg_tail r + i) cap). lia. }
      assert ((rg_tail r + rg_count r) / cap - (rg_tail r + i) / cap = 0 \/ 1 <= (rg_tail r + rg_count r) / cap - (rg_tail r + i) / cap
        \/ (rg_tail r + rg_count r) / cap - (rg_tail r + i) / cap <= -1) as [?|[?|?]] by lia; nia.
    + rewrite seqZ_cons by lia. cbn [fmap list_fmap]. f_equal. unfold ring_at. cbn [ring_put rg_buf rg_tail].
      rewrite Z.add_0_l, <- Hhd. apply aget_aset_eq. lia.
Qed.

Lemma ring_drop_spec r :
  ring_inv r -> 0 < rg_count r -> ring_inv (ring_drop r) /\ ring_queue r = ring_first r :: ring_queue (ring_drop r).
Proof using Hcap.
  intros [Hl Hb Ht Hct Hhd] Hn. split.
  - split; cbn [ring_drop rg_buf rg_head rg_tail rg_count]; rewrite ?u32_id by lia; [done|done|apply Z.mod_pos_bound; lia|lia|].
    rewrite Hhd, Zplus_mod_idemp_l. f_equal. lia.
  - unfold ring_queue. cbn [ring_drop rg_count]. rewrite u32_id by lia. rewrite seqZ_cons by lia. cbn [fmap list_fmap]. f_equal.
    + unfold ring_at, ring_first. rewrite Z.add_0_r, Z.mod_small by lia. done.
    + change (Z.succ 0) with (0 + 1). replace (Z.pred (rg_count r)) with (rg_count r - 1) by lia.
      rewrite <- (fmap_add_seqZ 1 0), <- list_fmap_compose.
      apply list_fmap_ext. intros k i _. cbn [compose]. unfold ring_at. cbn [ring_drop rg_buf rg_tail]. rewrite u32_id by lia. rewrite Zplus_mod_idemp_l. do 2 f_equal. lia.
Qed.

Lemma ring_clear_spec r : ring_inv r -> ring_inv (ring_clear r) /\ ring_queue (ring_clear r) = [].
Proof using Hcap. intros [Hl Hb _ _ _]. split; [|done]. split; cbn; [done|done|lia|lia|by rewrite Zmod_0_l]. Qed.

(** The count of the ring says whether the queue is empty. *)
Lemma ring_empty r : ring_inv r -> rg_count r = 0 <-> ring_queue r = [].
Proof using Type. intros H. rewrite <- (ring_queue_length r H). destruct (ring_queue r); cbn; split; (done || lia). Qed.
End ring.
