(* ===== verification/Console.v ===== *)
(** * What a console promises: include/vmm/vmm_console.h, kernel/vmm/vmm_console.c

    A console device joins two byte queues: the input, from the host to the guest, and the
    output, from the guest to the host.  [vmm_console.h] picks the driver of the
    architecture at compile time; here the choice is an instance of the class
    [console_ops], and [console_laws] says what a driver promises to the callers on the
    host side.  The pump of the host console is proved against the class. *)

From stdpp Require Import options.
From Stdlib Require Import Lia ZifyBool.
From S2P Require Import Prelude MmioBus Ring.

(** The states of the devices by slot, the field [console_owned] of the machines by
    pointer, and the bytes that went to [klog_write], the last one last. *)
Record con_world (S : Type) := mk_cw { cw_slots : list S; cw_owned : Z -> Z; cw_klog : list Z }.
Arguments mk_cw {S}.
Arguments cw_slots {S}.
Arguments cw_owned {S}.
Arguments cw_klog {S}.

Definition set_slots {S} (w : con_world S) (g : list S) : con_world S := mk_cw g (cw_owned w) (cw_klog w).
Definition set_owned {S} (w : con_world S) (p v : Z) : con_world S := mk_cw (cw_slots w) (upd (cw_owned w) p v) (cw_klog w).
Definition klog_write {S} (w : con_world S) (l : list Z) : con_world S := mk_cw (cw_slots w) (cw_owned w) (cw_klog w ++ l).

(** The functions of vmm_console.h. *)
Class console_ops (S : Type) := {
  vmm_console_tx_set_enabled : con_world S -> vm_ref -> bool -> con_world S;
  vmm_console_tx_channel_enabled : con_world S -> vm_ref -> Z;
  vmm_console_tx_pop : con_world S -> vm_ref -> option Z * con_world S;
  vmm_console_tx_has_data : con_world S -> vm_ref -> bool;
  vmm_console_putchar : con_world S -> vm_ref -> Z -> con_world S;
  vmm_console_push_rx : con_world S -> vm_ref -> Z -> con_world S;
  vmm_console_irq_asserted : con_world S -> vm_ref -> bool;
  vmm_console_rx_flush : con_world S -> vm_ref -> con_world S;
}.

(** The accesses of the guest, from the table of functions of the device: what is read,
    and with the flag [console_owned] what is written, with the bytes for [klog_write]. *)
Class console_mmio (S : Type) := {
  guest_read : S -> Z -> Z -> Z * S;
  guest_write : Z -> S -> Z -> Z -> Z -> S * list Z;
}.

(** ** Operations on the slot of a machine

    Every function of a driver looks up the slot of the machine, returns when there is
    none, and works on the state under the lock of the slot. *)

Section slot.
Context {S : Type} (owner : S -> Z) (zero : S).

Definition cw_of (w : con_world S) (vm : vm_ref) : option S := slot_of owner zero (cw_slots w) vm.

Definition on_slot (w : con_world S) (vm : vm_ref) (f : S -> S) : con_world S :=
  match cw_of w vm with None => w | Some s => set_slots w (slot_put (cw_slots w) vm (f s)) end.
End slot.

(** ** The pump

    The host serial port is a driver outside this model: [serial_getc_nb] and the pair
    [serial_rx_ready], [serial_getc] act on its state.  The loop runs for as long as the
    port has bytes. *)

Section pump.
Context {S P : Type} `{console_ops S}.
Context (serial_getc_nb : P -> option Z * P) (serial_rx_ready : P -> bool) (serial_getc : P -> Z * P).

Definition pump_body (vm : vm_ref) (x : con_world S * P) : con_world S * P + con_world S * P :=
  let '(w, p) := x in
  match serial_getc_nb p with
  | (Some c, p) => inl (vmm_console_push_rx w vm (u8 c), p)
  | (None, p) =>
      if negb (serial_rx_ready p) then inr (w, p)
      else let '(c, p) := serial_getc p in inl (vmm_console_push_rx w vm (u8 c), p)
  end.

Definition vmm_console_pump (fuel : nat) (w : con_world S) (p : P) (vm : vm_ref) : option (con_world S * P) :=
  if negb (vmm_console_tx_channel_enabled w vm =? 0) then Some (w, p)
  else loop fuel (pump_body vm) (w, p).
End pump.

(** ** What a driver promises *)

(** The output after [c] when [cap] bytes fit: a full queue loses its oldest byte or the
    new one. *)
Definition appended (cap : Z) (q : list Z) (c : Z) (q' : list Z) : Prop :=
  if Z.of_nat (length q) <? cap then q' = q ++ [c] else q' = q \/ q' = tail q ++ [c].

Section at_slot.
Context {S : Type} (owner : S -> Z) (zero : S) (inv : S -> Prop).

Definition cw_ok (w : con_world S) : Prop := length (cw_slots w) = 32%nat /\ Forall inv (cw_slots w).

(** [w'] is [w] but for the slot of [vm], whose state went from [s] to some [s'] with
    [R s s']; without a slot nothing changes. *)
Definition at_slot (vm : vm_ref) (w w' : con_world S) (R : S -> S -> Prop) : Prop :=
  match cw_of owner zero w vm with
  | None => w' = w
  | Some s =>
      cw_ok w' /\ (exists s', cw_of owner zero w' vm = Some s' /\ R s s') /\
      forall vm', vr_slot vm' <> vr_slot vm -> cw_of owner zero w' vm' = cw_of owner zero w vm'
  end.

Lemma cw_of_inv w vm s : cw_ok w -> cw_of owner zero w vm = Some s -> in_slots vm = true /\ inv s /\ owner s = vr_ptr vm.
Proof using Type.
  intros [Hl Hall] (Hi & -> & Ho)%slot_of_in. split; [done|]. split; [|done]. unfold in_slots in Hi.
  eapply Forall_lookup_1; [exact Hall|]. apply aget_lookup. lia.
Qed.

(** Putting a state with the same owner into the slot of the machine. *)
Lemma put_at_slot vm w w' s s' (R : S -> S -> Prop) :
  cw_ok w -> cw_of owner zero w vm = Some s -> owner s' = owner s -> inv s' -> R s s' ->
  cw_slots w' = slot_put (cw_slots w) vm s' -> at_slot vm w w' R.
Proof using Type.
  intros Hok E Ho Hs HR Ew. destruct (cw_of_inv _ _ _ Hok E) as (Hi & _ & Hown). unfold at_slot. rewrite E. destruct Hok as [Hl Hall].
  unfold cw_ok, cw_of. rewrite Ew. split; [|split].
  - split; [unfold slot_put; by rewrite length_aset|]. by apply Forall_insert.
  - exists s'. split; [|done]. apply slot_of_put; congruence.
  - intros vm' Hne. by apply slot_of_put_ne.
Qed.

Lemma slot_put_put (w : con_world S) vm s s' :
  set_slots (set_slots w (slot_put (cw_slots w) vm s)) (slot_put (cw_slots (set_slots w (slot_put (cw_slots w) vm s))) vm s') =
  set_slots w (slot_put (cw_slots w) vm s').
Proof using Type. unfold set_slots, slot_put, aset. cbn. by rewrite list_insert_insert_eq. Qed.

Lemma on_slot_put (w : con_world S) vm s f :
  length (cw_slots w) = 32%nat -> in_slots vm = true -> owner s = vr_ptr vm ->
  on_slot owner zero (set_slots w (slot_put (cw_slots w) vm s)) vm f = set_slots w (slot_put (cw_slots w) vm (f s)).
Proof using Type.
  intros Hl Hi Ho. unfold on_slot, cw_of. cbn [cw_slots set_slots]. rewrite slot_of_put by done. apply slot_put_put.
Qed.

Lemma on_slot_at vm w f (R : S -> S -> Prop) :
  cw_ok w -> (forall s, inv s -> owner (f s) = owner s /\ inv (f s) /\ R s (f s)) ->
  cw_owned (on_slot owner zero w vm f) = cw_owned w /\ cw_klog (on_slot owner zero w vm f) = cw_klog w /\
  at_slot vm w (on_slot owner zero w vm f) R.
Proof using Type.
  intros Hok Hf. unfold on_slot. destruct (cw_of owner zero w vm) as [s|] eqn:E; [|unfold at_slot; by rewrite E].
  destruct (cw_of_inv _ _ _ Hok E) as (_ & Hs & _). destruct (Hf s Hs) as (Ho & Hi & HR). split; [done|]. split; [done|].
  by apply (put_at_slot vm w _ s (f s)).
Qed.
End at_slot.

(** ** Consoles with two rings

    What both drivers share: where the state keeps its rings, and that replacing a ring
    leaves the rest alone. *)

Section rings.
Context {S : Type} (owner : S -> Z) (zero : S) (inv : S -> Prop) (rx tx : S -> ring) (rxcap txcap : Z) (set_tx : S -> ring -> S).
Context (Hrxcap : 0 < rxcap < 2 ^ 31) (Htxcap : 0 < txcap < 2 ^ 31).
Context (Hrx : forall s, inv s -> ring_inv rxcap (rx s)) (Htx : forall s, inv s -> ring_inv txcap (tx s)).
Context (Hset_tx : forall s r, inv s -> ring_inv txcap r ->
  owner (set_tx s r) = owner s /\ inv (set_tx s r) /\ rx (set_tx s r) = rx s /\ tx (set_tx s r) = r).

Abbreviation rxq s := (ring_queue rxcap (rx s)).
Abbreviation txq s := (ring_queue txcap (tx s)).

Lemma rings_pop_law w vm r :
  cw_ok inv w ->
  r = match cw_of owner zero w vm with
      | None => (None, w)
      | Some s => if 0 <? rg_count (tx s) then (Some (ring_first (tx s)), on_slot owner zero w vm (fun s => set_tx s (ring_drop txcap (tx s)))) else (None, w)
      end ->
  cw_owned r.2 = cw_owned w /\ cw_klog r.2 = cw_klog w /\ r.1 = (s ← cw_of owner zero w vm; head (txq s)) /\
  at_slot owner zero inv vm w r.2 (fun s s' => rxq s' = rxq s /\ txq s' = tail (txq s)).
Proof using Htxcap Htx Hset_tx.
  intros Hok ->. unfold at_slot, on_slot. destruct (cw_of owner zero w vm) as [s|] eqn:E; cbn [mbind option_bind]; [|done].
  destruct (cw_of_inv _ _ _ _ _ _ Hok E) as (_ & Hs & _). pose proof (Htx s Hs) as Ht.
  destruct (Z.ltb_spec 0 (rg_count (tx s))) as [Hn|Hn]; cbn [fst snd].
  - destruct (ring_drop_spec txcap Htxcap _ Ht Hn) as [Hd Hq]. destruct (Hset_tx s _ Hs Hd) as (Ho & Hi & Er & Et).
    split; [done|]. split; [done|]. split; [by rewrite Hq|].
    pose proof (put_at_slot owner zero inv vm w (set_slots w (slot_put (cw_slots w) vm (set_tx s (ring_drop txcap (tx s))))) s _
      (fun s s' => rxq s' = rxq s /\ txq s' = tail (txq s)) Hok E Ho Hi) as H. unfold at_slot in H. rewrite E in H. apply H; [|done].
    by rewrite Er, Et, Hq.
  - assert (txq s = []) as Hq by (apply ring_empty; [done|]; pose proof (ri_count _ _ Ht); lia).
    split; [done|]. split; [done|]. split; [by rewrite Hq|]. split; [done|]. split; [|done]. exists s. by rewrite Hq.
Qed.

Lemma rings_enable_law w vm (en : bool) r :
  cw_ok inv w -> vr_ptr vm <> 0 ->
  r = match cw_of owner zero w vm with
      | None => if vr_ptr vm =? 0 then w else set_owned w (vr_ptr vm) (if en then 1 else 0)
      | Some s =>
          let w := set_owned w (vr_ptr vm) (if en then 1 else 0) in
          if negb en then on_slot owner zero w vm (fun s => set_tx s (ring_clear (tx s))) else w
      end ->
  cw_owned r = upd (cw_owned w) (vr_ptr vm) (if en then 1 else 0) /\ cw_klog r = cw_klog w /\
  at_slot owner zero inv vm (set_owned w (vr_ptr vm) (if en then 1 else 0)) r
    (fun s s' => rxq s' = rxq s /\ txq s' = if (en : bool) then txq s else []).
Proof using Htxcap Htx Hset_tx.
  intros Hok Hp ->. rewrite (proj2 (Z.eqb_neq _ 0)) by done.
  set (w1 := set_owned w (vr_ptr vm) (if en then 1 else 0)). assert (cw_ok inv w1) as Hok1 by done.
  assert (cw_of owner zero w1 vm = cw_of owner zero w vm) as E1 by done.
  destruct (cw_of owner zero w vm) as [s|] eqn:E.
  2: { split; [done|]. split; [done|]. unfold at_slot. by rewrite E1. }
  destruct en; cbn [negb].
  - split; [done|]. split; [done|]. unfold at_slot. rewrite E1. split; [done|]. split; [|done]. eauto.
  - apply (on_slot_at owner zero inv vm w1); [done|]. intros s0 Hs. destruct (ring_clear_spec _ Htxcap _ (Htx s0 Hs)) as [Hc Hq].
    destruct (Hset_tx s0 _ Hs Hc) as (Ho & Hi & Er & Et). by rewrite Er, Et.
Qed.

Lemma rings_bound s : inv s -> Z.of_nat (length (rxq s)) <= rxcap /\ Z.of_nat (length (txq s)) <= txcap.
Proof using Hrx Htx.
  intros Hs. rewrite (ring_queue_length rxcap), (ring_queue_length txcap) by auto. pose proof (ri_count _ _ (Hrx s Hs)). pose proof (ri_count _ _ (Htx s Hs)). lia.
Qed.

Lemma rings_has_law w vm :
  cw_ok inv w ->
  match cw_of owner zero w vm with None => false | Some s => 0 <? rg_count (tx s) end =
  match cw_of owner zero w vm with None => false | Some s => negb (bool_decide (txq s = [])) end.
Proof using Htx.
  intros Hok. destruct (cw_of owner zero w vm) as [s|] eqn:E; [|done].
  destruct (cw_of_inv _ _ _ _ _ _ Hok E) as (_ & Hs & _). pose proof (ri_count _ _ (Htx s Hs)).
  pose proof (ring_empty _ _ (Htx s Hs)) as He. case_bool_decide as Hq; cbn [negb].
  - rewrite (proj2 He Hq). done.
  - assert (rg_count (tx s) <> 0) by (intros Hz; by apply Hq, He). lia.
Qed.

(** Taking a byte of the input. *)
Lemma rings_take s s' v :
  inv s -> rx s' = (if 0 <? rg_count (rx s) then ring_drop rxcap (rx s) else rx s) ->
  v = (if 0 <? rg_count (rx s) then ring_first (rx s) else 0) ->
  ring_inv rxcap (rx s') /\ byte v /\ rxq s' = tail (rxq s) /\ v = default 0 (head (rxq s)).
Proof using Hrxcap Hrx.
  intros Hs -> ->. pose proof (Hrx s Hs) as Hr. destruct (Z.ltb_spec 0 (rg_count (rx s))) as [Hn|Hn].
  - destruct (ring_drop_spec rxcap Hrxcap _ Hr Hn) as [Hd ->]. split; [done|]. split; [by eapply ring_first_byte|done].
  - assert (rxq s = []) as -> by (apply ring_empty; [done|]; pose proof (ri_count _ _ Hr); lia). split; [done|]. by split.
Qed.
End rings.

(** A driver: the owner of a state, its invariant, the two queues and what fits into them,
    and which accesses of the guest take a byte from the input or send one. *)
Class console_laws (S : Type) `{console_ops S} `{console_mmio S} := {
  cl_owner : S -> Z;
  cl_zero : S;
  cl_inv : S -> Prop;
  cl_rx : S -> list Z;
  cl_tx : S -> list Z;
  cl_rx_cap : Z;
  cl_tx_cap : Z;
  cl_takes : S -> Z -> Z -> bool;
  cl_sends : S -> Z -> Z -> bool;
  cl_put_sends : bool;
  cl_ok := cw_ok cl_inv;
  cl_of := cw_of cl_owner cl_zero;
  cl_at := at_slot cl_owner cl_zero cl_inv;
  cl_bound s : cl_inv s -> Z.of_nat (length (cl_rx s)) <= cl_rx_cap /\ Z.of_nat (length (cl_tx s)) <= cl_tx_cap;
  cl_push w vm c : cl_ok w -> byte c ->
    cw_owned (vmm_console_push_rx w vm c) = cw_owned w /\ cw_klog (vmm_console_push_rx w vm c) = cw_klog w /\
    cl_at vm w (vmm_console_push_rx w vm c) (fun s s' =>
      cl_tx s' = cl_tx s /\ cl_rx s' = if Z.of_nat (length (cl_rx s)) <? cl_rx_cap then cl_rx s ++ [c] else cl_rx s);
  cl_pop w vm : cl_ok w ->
    cw_owned (vmm_console_tx_pop w vm).2 = cw_owned w /\ cw_klog (vmm_console_tx_pop w vm).2 = cw_klog w /\
    (vmm_console_tx_pop w vm).1 = (s ← cl_of w vm; head (cl_tx s)) /\
    cl_at vm w (vmm_console_tx_pop w vm).2 (fun s s' => cl_rx s' = cl_rx s /\ cl_tx s' = tail (cl_tx s));
  cl_flush w vm : cl_ok w ->
    cw_owned (vmm_console_rx_flush w vm) = cw_owned w /\ cw_klog (vmm_console_rx_flush w vm) = cw_klog w /\
    cl_at vm w (vmm_console_rx_flush w vm) (fun s s' => cl_tx s' = cl_tx s /\ cl_rx s' = []);
  cl_enable w vm en : cl_ok w -> vr_ptr vm <> 0 ->
    cw_owned (vmm_console_tx_set_enabled w vm en) = upd (cw_owned w) (vr_ptr vm) (if en then 1 else 0) /\
    cw_klog (vmm_console_tx_set_enabled w vm en) = cw_klog w /\
    cl_at vm (set_owned w (vr_ptr vm) (if en then 1 else 0)) (vmm_console_tx_set_enabled w vm en) (fun s s' =>
      cl_rx s' = cl_rx s /\ cl_tx s' = if (en : bool) then cl_tx s else []);
  cl_channel w vm : vmm_console_tx_channel_enabled w vm = if vr_ptr vm =? 0 then 0 else cw_owned w (vr_ptr vm);
  cl_has w vm : cl_ok w ->
    vmm_console_tx_has_data w vm = match cl_of w vm with None => false | Some s => negb (bool_decide (cl_tx s = [])) end;
  cl_read s off size : cl_inv s ->
    let '(v, s') := guest_read s off size in
    cl_owner s' = cl_owner s /\ cl_inv s' /\ cl_tx s' = cl_tx s /\ 0 <= v < U64_MOD /\
    if cl_takes s off size then cl_rx s' = tail (cl_rx s) /\ v = default 0 (head (cl_rx s)) else cl_rx s' = cl_rx s;
  cl_write owned s off size v : cl_inv s ->
    let '(s', l) := guest_write owned s off size v in
    cl_owner s' = cl_owner s /\ cl_inv s' /\ cl_rx s' = cl_rx s /\
    if cl_sends s off size then
      if owned =? 0 then cl_tx s' = cl_tx s /\ l = [u8 v] else appended cl_tx_cap (cl_tx s) (u8 v) (cl_tx s') /\ l = []
    else cl_tx s' = cl_tx s /\ l = [];
  cl_put w vm c : cl_ok w -> byte c ->
    if cl_put_sends then
      cw_owned (vmm_console_putchar w vm c) = cw_owned w /\
      (cw_owned w (vr_ptr vm) = 0 ->
         cl_at vm w (vmm_console_putchar w vm c) (fun s s' => cl_rx s' = cl_rx s /\ cl_tx s' = cl_tx s)) /\
      (cw_owned w (vr_ptr vm) <> 0 -> cw_klog (vmm_console_putchar w vm c) = cw_klog w /\
         cl_at vm w (vmm_console_putchar w vm c) (fun s s' => cl_rx s' = cl_rx s /\ appended cl_tx_cap (cl_tx s) c (cl_tx s')))
    else vmm_console_putchar w vm c = klog_write w [c];
}.
Arguments cl_rx_cap S {_ _ _}.
Arguments cl_tx_cap S {_ _ _}.
Arguments cl_put_sends S {_ _ _}.

(** ** Runs

    [con_act w vm e w'] is one operation on the console of [vm], by the host or by the
    guest, with the event [e] it amounts to: a byte offered to a queue, and whether it
    fits; a byte taken; a queue emptied, and whether it had bytes. *)

Inductive con_event :=
  | ev_none
  | ev_offer_rx (c : Z) (fits : bool)
  | ev_take_rx (c : Z)
  | ev_clear_rx (any : bool)
  | ev_offer_tx (c : Z) (fits : bool)
  | ev_take_tx (c : Z)
  | ev_clear_tx (any : bool).

(** A queue seen from its ends: the bytes offered, the bytes taken, and whether any was
    lost. *)
Record chan := mk_chan { ch_sent : list Z; ch_recv : list Z; ch_lost : bool }.

Definition ch_offer (h : chan) (c : Z) (fits : bool) : chan := mk_chan (ch_sent h ++ [c]) (ch_recv h) (ch_lost h || negb fits).
Definition ch_take (h : chan) (c : Z) : chan := mk_chan (ch_sent h) (ch_recv h ++ [c]) (ch_lost h).
Definition ch_clear (h : chan) (any : bool) : chan := mk_chan (ch_sent h) (ch_recv h) (ch_lost h || any).

Definition rx_chan (h : chan) (e : con_event) : chan :=
  match e with ev_offer_rx c f => ch_offer h c f | ev_take_rx c => ch_take h c | ev_clear_rx a => ch_clear h a | _ => h end.
Definition tx_chan (h : chan) (e : con_event) : chan :=
  match e with ev_offer_tx c f => ch_offer h c f | ev_take_tx c => ch_take h c | ev_clear_tx a => ch_clear h a | _ => h end.

(** What was taken and what is queued is in order among what was offered, and is all of it
    when nothing was lost. *)
Definition chan_ok (h : chan) (q : list Z) : Prop :=
  (ch_recv h ++ q) `sublist_of` ch_sent h /\ (ch_lost h = false -> ch_recv h ++ q = ch_sent h).

Lemma chan_offer h q c : chan_ok h q -> chan_ok (ch_offer h c true) (q ++ [c]).
Proof.
  intros [Hs He]. split; cbn [ch_offer ch_sent ch_recv ch_lost]; rewrite app_assoc; [by apply sublist_app|].
  rewrite orb_false_r. intros Hl. by rewrite He.
Qed.

Lemma chan_shrink h q q' h' :
  chan_ok h q -> ch_recv h' = ch_recv h -> ch_sent h `sublist_of` ch_sent h' -> ch_lost h' = true -> q' `sublist_of` q -> chan_ok h' q'.
Proof. intros [Hs _] E Hsent Hl Hq. split; [|congruence]. rewrite E. do 2 (etrans; [|eassumption]). by apply sublist_app. Qed.

Lemma chan_take h q c : chan_ok h (c :: q) -> chan_ok (ch_take h c) q.
Proof. unfold chan_ok. cbn [ch_take ch_sent ch_recv ch_lost]. by rewrite <- app_assoc. Qed.

Lemma chan_clear h q : chan_ok h q -> chan_ok (ch_clear h (negb (bool_decide (q = [])))) [].
Proof.
  intros Hq. case_bool_decide as Eq; cbn [negb].
  - subst q. destruct Hq as [Hs He]. split; cbn [ch_clear ch_sent ch_recv ch_lost]; [done|]. by rewrite orb_false_r.
  - apply (chan_shrink h q); [done|done|done|cbn; by rewrite orb_true_r|apply sublist_nil_l].
Qed.

(** An offer to a queue of [cap] bytes that may drop the new byte or the oldest. *)
Lemma chan_appended cap h q c q' : chan_ok h q -> appended cap q c q' -> chan_ok (ch_offer h c (Z.of_nat (length q) <? cap)) q'.
Proof.
  unfold appended. intros Hq. destruct (_ <? cap); [intros ->; by apply chan_offer|].
  destruct (chan_offer h q c Hq) as [Hs _].
  intros H. apply (chan_shrink (ch_offer h c true) (q ++ [c])); [by apply chan_offer|done|done|cbn; by rewrite orb_true_r|].
  destruct H as [-> | ->]; [by apply sublist_inserts_r|]. apply sublist_app; [|done]. destruct q; [done|]. by apply sublist_cons.
Qed.

Section runs.
Context {S : Type} `{console_laws S}.

Abbreviation fits q cap := (Z.of_nat (length q) <? cap).
Abbreviation some_left q := (negb (bool_decide (q = []))).

Inductive con_act (vm : vm_ref) (w : con_world S) (s : S) : con_event -> con_world S -> Prop :=
  | ca_push c : byte c -> con_act vm w s (ev_offer_rx c (fits (cl_rx s) (cl_rx_cap S))) (vmm_console_push_rx w vm c)
  | ca_pop c w' : vmm_console_tx_pop w vm = (Some c, w') -> con_act vm w s (ev_take_tx c) w'
  | ca_pop_none w' : vmm_console_tx_pop w vm = (None, w') -> con_act vm w s ev_none w'
  | ca_flush : con_act vm w s (ev_clear_rx (some_left (cl_rx s))) (vmm_console_rx_flush w vm)
  | ca_enable : con_act vm w s ev_none (vmm_console_tx_set_enabled w vm true)
  | ca_disable : con_act vm w s (ev_clear_tx (some_left (cl_tx s))) (vmm_console_tx_set_enabled w vm false)
  | ca_putchar c : byte c ->
      con_act vm w s (if (cl_put_sends S) && negb (cw_owned w (vr_ptr vm) =? 0) then ev_offer_tx c (fits (cl_tx s) (cl_tx_cap S)) else ev_none)
        (vmm_console_putchar w vm c)
  | ca_read off size v s' :
      guest_read s off size = (v, s') ->
      con_act vm w s (if cl_takes s off size && some_left (cl_rx s) then ev_take_rx v else ev_none)
        (set_slots w (slot_put (cw_slots w) vm s'))
  | ca_write off size v s' l :
      guest_write (cw_owned w (vr_ptr vm)) s off size v = (s', l) ->
      con_act vm w s (if cl_sends s off size && negb (cw_owned w (vr_ptr vm) =? 0) then ev_offer_tx (u8 v) (fits (cl_tx s) (cl_tx_cap S)) else ev_none)
        (klog_write (set_slots w (slot_put (cw_slots w) vm s')) l).

(** The console of [vm] after an operation: its queues moved as the event says. *)
Definition moved (e : con_event) (s s' : S) : Prop :=
  (forall h, chan_ok h (cl_rx s) -> chan_ok (rx_chan h e) (cl_rx s')) /\
  (forall h, chan_ok h (cl_tx s) -> chan_ok (tx_chan h e) (cl_tx s')).

Lemma at_impl vm w w' s (R Q : S -> S -> Prop) :
  cl_of w vm = Some s -> (forall s', R s s' -> Q s s') -> cl_at vm w w' R -> cl_at vm w w' Q.
Proof using Type. unfold cl_at, at_slot, cl_of. intros -> HRQ (? & (s' & ? & ?) & ?). split; [done|]. split; [|done]. exists s'. auto. Qed.

(** The flag [console_owned] is not in the slot. *)
Lemma at_owned vm w p v w' s R : cl_of w vm = Some s -> cl_at vm (set_owned w p v) w' R -> cl_at vm w w' R.
Proof using Type. unfold cl_at, at_slot, cl_of. intros E. change (cw_of cl_owner cl_zero (set_owned w p v) vm) with (cw_of cl_owner cl_zero w vm). by rewrite E. Qed.

Lemma moved_rx e s s' :
  cl_tx s' = cl_tx s -> (forall h, tx_chan h e = h) -> (forall h, chan_ok h (cl_rx s) -> chan_ok (rx_chan h e) (cl_rx s')) -> moved e s s'.
Proof using Type. intros Et He Hr. split; [done|]. intros h. by rewrite Et, He. Qed.
Lemma moved_tx e s s' :
  cl_rx s' = cl_rx s -> (forall h, rx_chan h e = h) -> (forall h, chan_ok h (cl_tx s) -> chan_ok (tx_chan h e) (cl_tx s')) -> moved e s s'.
Proof using Type. intros Er He Ht. split; [|done]. intros h. by rewrite Er, He. Qed.
Lemma moved_none s s' : cl_rx s' = cl_rx s -> cl_tx s' = cl_tx s -> moved ev_none s s'.
Proof using Type. intros Er Et. split; intros h; by rewrite ?Er, ?Et. Qed.

Lemma con_act_spec vm w s e w' :
  cl_ok w -> cl_of w vm = Some s -> con_act vm w s e w' -> cl_at vm w w' (moved e).
Proof using Type.
  intros Hok E Hact. destruct (cw_of_inv _ _ _ _ _ _ Hok E) as (Hin & Hs & _).
  assert (vr_ptr vm <> 0) as Hp by (unfold in_slots in Hin; lia).
  destruct Hact as [c Hc|c w' Ew|w' Ew| | | |c Hc|off size v s' Er|off size v s' l Er].
  - destruct (cl_push w vm c Hok Hc) as (_ & _ & Hat). eapply at_impl; [exact E| |exact Hat]. intros s' [Et Er]. apply moved_rx; [done|done|].
    intros h Hh. apply (chan_appended (cl_rx_cap S)); [done|]. unfold appended. rewrite Er. destruct (_ <? _); auto.
  - destruct (cl_pop w vm Hok) as (_ & _ & Ec & Hat). rewrite Ew in Ec, Hat. cbn [fst snd] in *. rewrite E in Ec. cbn in Ec.
    eapply at_impl; [exact E| |exact Hat]. intros s' [Er Et]. apply moved_tx; [done|done|]. intros h Hh. rewrite Et. apply chan_take.
    destruct (cl_tx s); simplify_eq/=. done.
  - destruct (cl_pop w vm Hok) as (_ & _ & Ec & Hat). rewrite Ew in Ec, Hat. cbn [fst snd] in *. rewrite E in Ec. cbn in Ec.
    eapply at_impl; [exact E| |exact Hat]. intros s' [Er Et]. apply moved_none; [done|]. rewrite Et. by destruct (cl_tx s).
  - destruct (cl_flush w vm Hok) as (_ & _ & Hat). eapply at_impl; [exact E| |exact Hat]. intros s' [Et Er]. apply moved_rx; [done|done|].
    intros h Hh. rewrite Er. by apply chan_clear.
  - destruct (cl_enable w vm true Hok Hp) as (_ & _ & Hat%(at_owned _ _ _ _ _ _ _ E)). eapply at_impl; [exact E| |exact Hat]. intros s' [Er Et]. by apply moved_none.
  - destruct (cl_enable w vm false Hok Hp) as (_ & _ & Hat%(at_owned _ _ _ _ _ _ _ E)). eapply at_impl; [exact E| |exact Hat]. intros s' [Er Et]. apply moved_tx; [done|done|].
    intros h Hh. rewrite Et. by apply chan_clear.
  - pose proof (cl_put w vm c Hok Hc) as Hput. destruct (cl_put_sends S); cbn [andb].
    2: { rewrite Hput. unfold cl_at, at_slot. unfold cl_of in E. rewrite E. split; [done|]. split; [|done]. exists s. split; [done|]. by apply moved_none. }
    destruct Hput as (_ & Hp0 & Hp1). destruct (Z.eqb_spec (cw_owned w (vr_ptr vm)) 0) as [Ho|Ho]; cbn [negb].
    + eapply at_impl; [exact E| |exact (Hp0 Ho)]. intros s' [Er Et]. by apply moved_none.
    + eapply at_impl; [exact E| |exact (proj2 (Hp1 Ho))]. intros s' [Er Et]. apply moved_tx; [done|done|]. intros h Hh. by apply (chan_appended (cl_tx_cap S)).
  - pose proof (cl_read s off size Hs) as Hr. rewrite Er in Hr. destruct Hr as (Ho & Hi & Et & _ & Hrx).
    eapply put_at_slot; [exact Hok|exact E|done|done| |reflexivity]. destruct (cl_takes s off size); cbn [andb]; [|by apply moved_none].
    destruct Hrx as [Erx ->]. case_bool_decide as Hq; cbn [negb].
    { apply moved_none; [|done]. by rewrite Erx, Hq. }
    apply moved_rx; [done|done|]. intros h Hh. rewrite Erx. apply chan_take. by destruct (cl_rx s).
  - pose proof (cl_write (cw_owned w (vr_ptr vm)) s off size v Hs) as Hw. rewrite Er in Hw. destruct Hw as (Ho & Hi & Erx & Htx).
    eapply put_at_slot; [exact Hok|exact E|done|done| |reflexivity].
    destruct (cl_sends s off size); cbn [andb]; [|destruct Htx; by apply moved_none].
    destruct (cw_owned w (vr_ptr vm) =? 0); cbn [negb]; destruct Htx as [Htx _]; [by apply moved_none|].
    apply moved_tx; [done|done|]. intros h Hh. by apply (chan_appended (cl_tx_cap S)).
Qed.

(** A run of the consoles, watched at [vm]. *)
Record con_run := mk_crun { cr_world : con_world S; cr_rx : chan; cr_tx : chan }.

Inductive con_step (vm : vm_ref) : con_run -> con_run -> Prop :=
  | cs_own w rx tx s e w' :
      cl_of w vm = Some s -> con_act vm w s e w' -> con_step vm (mk_crun w rx tx) (mk_crun w' (rx_chan rx e) (tx_chan tx e))
  | cs_other w rx tx vm' s e w' :
      vr_slot vm' <> vr_slot vm -> cl_of w vm' = Some s -> con_act vm' w s e w' -> con_step vm (mk_crun w rx tx) (mk_crun w' rx tx).

Definition run_inv (vm : vm_ref) (r : con_run) : Prop :=
  cl_ok (cr_world r) /\ exists s, cl_of (cr_world r) vm = Some s /\ chan_ok (cr_rx r) (cl_rx s) /\ chan_ok (cr_tx r) (cl_tx s).

Lemma con_step_inv vm r r' : run_inv vm r -> con_step vm r r' -> run_inv vm r'.
Proof using Type.
  intros (Hok & s & E & Hrx & Htx) Hstep. destruct Hstep as [w rx tx s0 e w' E0 Hact|w rx tx vm' s0 e w' Hne E0 Hact]; cbn [cr_world cr_rx cr_tx] in *;
    pose proof (con_act_spec _ w s0 e w' Hok E0 Hact) as Hat; unfold cl_at, at_slot in Hat; unfold cl_of in E, E0; rewrite E0 in Hat;
    destruct Hat as (Hok' & (s' & E' & [Hr Ht]) & Hoth); (split; [done|]).
  - simplify_eq. exists s'. split; [done|]. split; [by apply Hr|by apply Ht].
  - exists s. split; [|done]. cbn. unfold cl_of. by rewrite Hoth.
Qed.

(** The consoles carry their bytes in order: whatever the machines and the host do. *)
Lemma con_run_ok vm w s r :
  cl_ok w -> cl_of w vm = Some s -> cl_rx s = [] -> cl_tx s = [] ->
  star (con_step vm) (mk_crun w (mk_chan [] [] false) (mk_chan [] [] false)) r -> run_inv vm r.
Proof using Type.
  intros Hok E Er Et Hs. refine (star_invariant _ _ (con_step_inv vm) _ _ _ Hs). split; [done|]. exists s. split; [done|]. rewrite Er, Et. done.
Qed.
End runs.

(** ** What the callers see of a machine *)

Section frames.
Context {S : Type} `{console_laws S}.

(** What only the console of [vm] and its flag may change. *)
Definition con_frame (vm : vm_ref) (w w' : con_world S) : Prop :=
  cl_ok w' /\ (forall vm', vr_slot vm' <> vr_slot vm -> cl_of w' vm' = cl_of w vm') /\
  (forall p, p <> vr_ptr vm -> cw_owned w' p = cw_owned w p) /\ cw_klog w' = cw_klog w.

(** The console of [vm], if the machine has one, went from [s] to [s'] with [R s s']. *)
Definition con_moved (vm : vm_ref) (w w' : con_world S) (R : S -> S -> Prop) : Prop :=
  match cl_of w vm with None => cl_of w' vm = None | Some s => exists s', cl_of w' vm = Some s' /\ R s s' end.

Lemma con_moved_trans vm w1 w2 w3 (R1 R2 R3 : S -> S -> Prop) :
  con_moved vm w1 w2 R1 -> con_moved vm w2 w3 R2 -> (forall a b c, R1 a b -> R2 b c -> R3 a c) -> con_moved vm w1 w3 R3.
Proof using Type.
  unfold con_moved. destruct (cl_of w1 vm) as [s|]; [intros (s2 & E2 & H12)|intros E2]; rewrite E2; [intros (s3 & E3 & H23) Ht|done]. eauto.
Qed.

Lemma con_frame_trans vm w1 w2 w3 : con_frame vm w1 w2 -> con_frame vm w2 w3 -> con_frame vm w1 w3.
Proof using Type.
  intros (_ & Ho & Hw & Hk) (Hok & Ho' & Hw' & Hk'). split; [done|]. split; [intros; by rewrite Ho', Ho|]. split; [intros; by rewrite Hw', Hw|congruence].
Qed.

(** A law of the console as a frame and a move; [w] is the world before, up to its flags. *)
Lemma at_frame vm w0 w w' R :
  cl_ok w -> cw_slots w0 = cw_slots w -> cl_at vm w0 w' R ->
  (forall p, p <> vr_ptr vm -> cw_owned w' p = cw_owned w p) -> cw_klog w' = cw_klog w ->
  con_frame vm w w' /\ con_moved vm w w' R.
Proof using Type.
  intros Hok E0 Hat Hw Hk. assert (forall vm', cl_of w0 vm' = cl_of w vm') as Hof by (intros; unfold cl_of, cw_of; by rewrite E0).
  unfold con_frame, con_moved, cl_at, at_slot in *. fold (cl_of w0 vm) in Hat. rewrite <- !Hof.
  destruct (cl_of w0 vm) as [s|] eqn:E.
  - destruct Hat as (? & ? & Hoth). split; [|done]. split; [done|]. split; [|done]. intros vm' Hne. rewrite <- Hof. by apply Hoth.
  - subst w'. split; [|done]. split; [unfold cl_ok, cw_ok in *; by rewrite E0|]. done.
Qed.

Lemma push_frame w vm c :
  cl_ok w -> byte c ->
  con_frame vm w (vmm_console_push_rx w vm c) /\
  con_moved vm w (vmm_console_push_rx w vm c) (fun s s' =>
    cl_tx s' = cl_tx s /\ cl_rx s' = if Z.of_nat (length (cl_rx s)) <? (cl_rx_cap S) then cl_rx s ++ [c] else cl_rx s).
Proof using Type.
  intros Hok Hc. destruct (cl_push w vm c Hok Hc) as (Hw & Hk & Hat). apply (at_frame vm w); [done|done|done| |done]. intros. by rewrite Hw.
Qed.

Lemma pop_frame w vm :
  cl_ok w ->
  con_frame vm w (vmm_console_tx_pop w vm).2 /\
  con_moved vm w (vmm_console_tx_pop w vm).2 (fun s s' => cl_rx s' = cl_rx s /\ cl_tx s' = tail (cl_tx s)).
Proof using Type.
  intros Hok. destruct (cl_pop w vm Hok) as (Hw & Hk & _ & Hat). apply (at_frame vm w); [done|done|done| |done]. intros. by rewrite Hw.
Qed.

Lemma disable_frame w vm :
  cl_ok w -> vr_ptr vm <> 0 ->
  con_frame vm w (vmm_console_tx_set_enabled w vm false) /\
  con_moved vm w (vmm_console_tx_set_enabled w vm false) (fun s s' => cl_rx s' = cl_rx s /\ cl_tx s' = []) /\
  cw_owned (vmm_console_tx_set_enabled w vm false) (vr_ptr vm) = 0.
Proof using Type.
  intros Hok Hp. destruct (cl_enable w vm false Hok Hp) as (Hw & Hk & Hat). 
  destruct (at_frame vm (set_owned w (vr_ptr vm) 0) w _ _ Hok eq_refl Hat) as [Hf Hm]; [intros; by rewrite Hw, upd_ne|done|].
  split; [done|]. split; [done|]. by rewrite Hw, upd_eq.
Qed.

Lemma flush_frame w vm :
  cl_ok w ->
  con_frame vm w (vmm_console_rx_flush w vm) /\
  con_moved vm w (vmm_console_rx_flush w vm) (fun s s' => cl_tx s' = cl_tx s /\ cl_rx s' = []) /\
  cw_owned (vmm_console_rx_flush w vm) = cw_owned w.
Proof using Type.
  intros Hok. destruct (cl_flush w vm Hok) as (Hw & Hk & Hat). 
  destruct (at_frame vm w w _ _ Hok eq_refl Hat) as [Hf Hm]; [intros; by rewrite Hw|done|]. done.
Qed.

(** Several bytes into the input: what fits is appended in order, the rest is dropped. *)
Lemma push_all_frame vm buf : forall w,
  cl_ok w -> Forall byte buf ->
  let w' := foldl (fun w c => vmm_console_push_rx w vm c) w buf in
  con_frame vm w w' /\
  con_moved vm w w' (fun s s' => cl_tx s' = cl_tx s /\ cl_rx s' = take (Z.to_nat (cl_rx_cap S)) (cl_rx s ++ buf)).
Proof using Type.
  induction buf as [|c buf IH]; intros w Hok Hb; cbn [foldl].
  - split; [done|]. unfold con_moved. destruct (cl_of w vm) as [s|] eqn:E; [|done]. exists s. split; [done|]. split; [done|].
    destruct (cw_of_inv _ _ _ _ _ _ Hok E) as (_ & Hs & _). pose proof (cl_bound s Hs). rewrite app_nil_r, take_ge by lia. done.
  - inversion_clear Hb as [|? ? Hc Hb']. destruct (push_frame w vm c Hok Hc) as [Hf Hm]. destruct (IH _ (proj1 Hf) Hb') as [Hf' Hm'].
    split; [by eapply con_frame_trans|]. eapply con_moved_trans; [exact Hm|exact Hm'|]. intros s1 s2 s3 [Et Er] [Et' Er'].
    split; [congruence|]. rewrite Er', Er. destruct (Z.ltb_spec (Z.of_nat (length (cl_rx s1))) (cl_rx_cap S)); [by rewrite <- app_assoc|].
    by rewrite !take_app_le by lia.
Qed.

(** The pump moves what the port has into the input of a machine whose console is not with
    a helper, and leaves the others alone.  The port hands out the bytes of a queue [pq];
    its non-blocking read may be missing and then never gives a byte. *)
Lemma pump_spec {P} (getc_nb : P -> option Z * P) (ready : P -> bool) (getc : P -> Z * P) (pq : P -> list Z) :
  (forall p, let '(c, p') := getc_nb p in match c with Some c => pq p = c :: pq p' | None => pq p' = pq p end) ->
  (forall p, ready p = negb (bool_decide (pq p = []))) ->
  (forall p, pq p <> [] -> let '(c, p') := getc p in pq p = c :: pq p') ->
  forall fuel w p vm, cl_ok w -> (length (pq p) < fuel)%nat ->
  exists w' p', vmm_console_pump getc_nb ready getc fuel w p vm = Some (w', p') /\
  if vmm_console_tx_channel_enabled w vm =? 0 then
    pq p' = [] /\ con_frame vm w w' /\
    con_moved vm w w' (fun s s' => cl_tx s' = cl_tx s /\ cl_rx s' = take (Z.to_nat (cl_rx_cap S)) (cl_rx s ++ (u8 <$> pq p)))
  else w' = w /\ p' = p.
Proof using Type.
  intros Hnb Hready Hgetc fuel w p vm Hok Hfuel. unfold vmm_console_pump. destruct (_ =? 0); cbn [negb]; [|eauto].
  assert (forall n w p, cl_ok w -> (length (pq p) < n)%nat ->
    exists w' p', loop n (pump_body getc_nb ready getc vm) (w, p) = Some (w', p') /\ pq p' = [] /\
    w' = foldl (fun w c => vmm_console_push_rx w vm c) w (u8 <$> pq p)) as Hloop.
  { clear -Hnb Hready Hgetc. intros n. induction n as [|n IH]; intros w p Hok Hn; [lia|]. cbn [loop pump_body].
    pose proof (Hnb p) as Hc1. destruct (getc_nb p) as [[c|] p1].
    - rewrite Hc1 in Hn. cbn in Hn. rewrite Hc1. cbn [fmap list_fmap foldl].
      apply IH; [apply (push_frame w vm); [done|apply u8_range]|lia].
    - rewrite Hready, Hc1. case_bool_decide as Hq; cbn [negb]; [by exists w, p1; rewrite Hc1, Hq|].
      rewrite <- Hc1 in Hq, Hn |- *. pose proof (Hgetc p1 Hq) as Hc2. destruct (getc p1) as [c p2]. rewrite Hc2 in Hn |- *. cbn in Hn. cbn [fmap list_fmap foldl].
      apply IH; [apply (push_frame w vm); [done|apply u8_range]|lia]. }
  destruct (Hloop fuel w p Hok Hfuel) as (w' & p' & E & Hp & ->). exists (foldl (fun w c => vmm_console_push_rx w vm c) w (u8 <$> pq p)), p'.
  split; [done|]. split; [done|]. apply push_all_frame; [done|]. apply Forall_fmap, Forall_true. intros. apply u8_range.
Qed.
End frames.
