(* ===== verification/Uart16550.v ===== *)
(** * The virtual 16550A UART: kernel/vmm/vdev/console/vuart16550.c, include/vmm/vmm_uart16550.h

    The console of the riscv64 and x86_64 guests.  The registers are bytes, the input and
    the output are rings of 4096 and 8192 bytes.  A full input ring drops the new byte, a
    full output ring the oldest one.  The file ends with the instances: the driver is a
    console, and a device the bus can carry. *)

From stdpp Require Import options.
From Stdlib Require Import Lia ZifyBool.
From S2P Require Import Prelude MmioBus Ring Console.

Abbreviation UART16550_BASE := 268435456.
Abbreviation UART16550_SIZE := 256.
Abbreviation UART16550_IRQ := 10.
Abbreviation RX_FIFO_SIZE := 4096.
Abbreviation TX_FIFO_SIZE := 8192.
Abbreviation UART_RBR_THR_DLL := 0.
Abbreviation UART_IER_DLM := 1.
Abbreviation UART_IIR_FCR := 2.
Abbreviation UART_LCR := 3.
Abbreviation UART_MCR := 4.
Abbreviation UART_LSR := 5.
Abbreviation UART_MSR := 6.
Abbreviation UART_SCR := 7.
Abbreviation IER_RX_AVAILABLE := 1.
Abbreviation IER_THR_EMPTY := 2.
Abbreviation IIR_NO_INTERRUPT := 1.
Abbreviation IIR_THR_EMPTY := 2.
Abbreviation IIR_RX_AVAILABLE := 4.
Abbreviation IIR_FIFO_ENABLED := 192.
Abbreviation LSR_DATA_READY := 1.
Abbreviation LSR_THRE := 32.
Abbreviation LSR_TEMT := 64.
Abbreviation LCR_DLAB := 128.
Abbreviation FCR_ENABLE_FIFO := 1.

Record uart16550_state_t := mk_uart {
  ua_owner : Z;
  ua_ier : Z;
  ua_lcr : Z;
  ua_mcr : Z;
  ua_scr : Z;
  ua_fcr : Z;
  ua_dll : Z;
  ua_dlm : Z;
  ua_rx : ring;
  ua_rx_drops : Z;
  ua_tx : ring;
}.

(** [memset(&d->st, 0, sizeof(d->st))] *)
Definition uart16550_zero : uart16550_state_t :=
  mk_uart 0 0 0 0 0 0 0 0 (ring_zero RX_FIFO_SIZE) 0 (ring_zero TX_FIFO_SIZE).

Definition set_rx (s : uart16550_state_t) (r : ring) (drops : Z) : uart16550_state_t :=
  mk_uart (ua_owner s) (ua_ier s) (ua_lcr s) (ua_mcr s) (ua_scr s) (ua_fcr s) (ua_dll s) (ua_dlm s) r drops (ua_tx s).
Definition set_tx (s : uart16550_state_t) (r : ring) : uart16550_state_t :=
  mk_uart (ua_owner s) (ua_ier s) (ua_lcr s) (ua_mcr s) (ua_scr s) (ua_fcr s) (ua_dll s) (ua_dlm s) (ua_rx s) (ua_rx_drops s) r.
(** The registers by their order in the structure: ier, lcr, mcr, scr, fcr, dll, dlm. *)
Definition set_regs (s : uart16550_state_t) (ier lcr mcr scr fcr dll dlm : Z) : uart16550_state_t :=
  mk_uart (ua_owner s) ier lcr mcr scr fcr dll dlm (ua_rx s) (ua_rx_drops s) (ua_tx s).

Definition uart16550_of : con_world uart16550_state_t -> vm_ref -> option uart16550_state_t := cw_of ua_owner uart16550_zero.
Definition on_uart : con_world uart16550_state_t -> vm_ref -> (uart16550_state_t -> uart16550_state_t) -> con_world uart16550_state_t :=
  on_slot ua_owner uart16550_zero.

(** ** The host side *)

Definition rx_irq_asserted_locked (s : uart16550_state_t) : bool :=
  if (0 <? rg_count (ua_rx s)) && negb (Z.land (ua_ier s) IER_RX_AVAILABLE =? 0) then true
  else negb (Z.land (ua_ier s) IER_THR_EMPTY =? 0).

Definition push_rx_locked (c : Z) (s : uart16550_state_t) : uart16550_state_t :=
  if RX_FIFO_SIZE <=? rg_count (ua_rx s) then set_rx s (ua_rx s) (u32 (ua_rx_drops s + 1))
  else set_rx s (ring_put RX_FIFO_SIZE (ua_rx s) c) (ua_rx_drops s).

Definition uart16550_push_rx (w : con_world uart16550_state_t) (vm : vm_ref) (c : Z) : con_world uart16550_state_t :=
  on_uart w vm (push_rx_locked c).

Definition uart16550_irq_asserted (w : con_world uart16550_state_t) (vm : vm_ref) : bool :=
  match uart16550_of w vm with None => false | Some s => rx_irq_asserted_locked s end.

Definition uart16550_rx_flush (w : con_world uart16550_state_t) (vm : vm_ref) : con_world uart16550_state_t :=
  on_uart w vm (fun s => set_rx s (ring_clear (ua_rx s)) 0).

Definition uart16550_tx_set_enabled (w : con_world uart16550_state_t) (vm : vm_ref) (enabled : bool) : con_world uart16550_state_t :=
  let flag := if enabled then 1 else 0 in
  match uart16550_of w vm with
  | None => if vr_ptr vm =? 0 then w else set_owned w (vr_ptr vm) flag
  | Some s =>
      let w := set_owned w (vr_ptr vm) flag in
      if negb enabled then on_uart w vm (fun s => set_tx s (ring_clear (ua_tx s))) else w
  end.

Definition uart16550_tx_channel_enabled (w : con_world uart16550_state_t) (vm : vm_ref) : Z :=
  match uart16550_of w vm with
  | None => if vr_ptr vm =? 0 then 0 else cw_owned w (vr_ptr vm)
  | Some _ => cw_owned w (vr_ptr vm)
  end.

(** The byte, where the function returns 1. *)
Definition uart16550_tx_pop (w : con_world uart16550_state_t) (vm : vm_ref) : option Z * con_world uart16550_state_t :=
  match uart16550_of w vm with
  | None => (None, w)
  | Some s =>
      if 0 <? rg_count (ua_tx s)
      then (Some (ring_first (ua_tx s)), on_uart w vm (fun s => set_tx s (ring_drop TX_FIFO_SIZE (ua_tx s))))
      else (None, w)
  end.

Definition uart16550_tx_has_data (w : con_world uart16550_state_t) (vm : vm_ref) : bool :=
  match uart16550_of w vm with None => false | Some s => 0 <? rg_count (ua_tx s) end.

(** [owned] is [s->owner->console_owned]; the list is what goes to [klog_write]. *)
Definition uart_put_char (owned : Z) (s : uart16550_state_t) (c : Z) : uart16550_state_t * list Z :=
  if owned =? 0 then (s, [c])
  else
    let tx := if TX_FIFO_SIZE <=? rg_count (ua_tx s) then ring_drop TX_FIFO_SIZE (ua_tx s) else ua_tx s in
    (set_tx s (ring_put TX_FIFO_SIZE tx c), []).

Definition uart16550_putchar (w : con_world uart16550_state_t) (vm : vm_ref) (c : Z) : con_world uart16550_state_t :=
  match uart16550_of w vm with
  | None => w
  | Some s =>
      let '(s, l) := uart_put_char (cw_owned w (vr_ptr vm)) s c in
      klog_write (set_slots w (slot_put (cw_slots w) vm s)) l
  end.

(** ** The guest side *)

Definition dlab (s : uart16550_state_t) : bool := negb (Z.land (ua_lcr s) LCR_DLAB =? 0).

Definition uart16550_read (s : uart16550_state_t) (off size : Z) : Z * uart16550_state_t :=
  if negb (size =? 1) && negb (size =? 4) then (0, s)
  else if off =? UART_RBR_THR_DLL then
    if dlab s then (ua_dll s, s)
    else if 0 <? rg_count (ua_rx s) then (ring_first (ua_rx s), set_rx s (ring_drop RX_FIFO_SIZE (ua_rx s)) (ua_rx_drops s))
    else (0, s)
  else if off =? UART_IER_DLM then (if dlab s then ua_dlm s else ua_ier s, s)
  else if off =? UART_IIR_FCR then
    let ret :=
      if (0 <? rg_count (ua_rx s)) && negb (Z.land (ua_ier s) IER_RX_AVAILABLE =? 0) then IIR_RX_AVAILABLE
      else if negb (Z.land (ua_ier s) IER_THR_EMPTY =? 0) then IIR_THR_EMPTY
      else IIR_NO_INTERRUPT in
    (if negb (Z.land (ua_fcr s) FCR_ENABLE_FIFO =? 0) then Z.lor ret IIR_FIFO_ENABLED else ret, s)
  else if off =? UART_LCR then (ua_lcr s, s)
  else if off =? UART_MCR then (ua_mcr s, s)
  else if off =? UART_LSR then
    let ret := Z.lor LSR_THRE LSR_TEMT in
    (if 0 <? rg_count (ua_rx s) then Z.lor ret LSR_DATA_READY else ret, s)
  else if off =? UART_MSR then (0, s)
  else if off =? UART_SCR then (ua_scr s, s)
  else (0, s).

Definition uart16550_write (owned : Z) (s : uart16550_state_t) (off size value : Z) : uart16550_state_t * list Z :=
  let v := u8 value in
  let '(mk_uart _ ier lcr mcr scr fcr dll dlm _ _ _) := s in
  if negb (size =? 1) && negb (size =? 4) then (s, [])
  else if off =? UART_RBR_THR_DLL then
    if dlab s then (set_regs s ier lcr mcr scr fcr v dlm, []) else uart_put_char owned s v
  else if off =? UART_IER_DLM then
    if dlab s then (set_regs s ier lcr mcr scr fcr dll v, []) else (set_regs s v lcr mcr scr fcr dll dlm, [])
  else if off =? UART_IIR_FCR then (set_regs s ier lcr mcr scr v dll dlm, [])
  else if off =? UART_LCR then (set_regs s ier v mcr scr fcr dll dlm, [])
  else if off =? UART_MCR then (set_regs s ier lcr v scr fcr dll dlm, [])
  else if off =? UART_SCR then (set_regs s ier lcr mcr v fcr dll dlm, [])
  else (s, []).

Definition uart16550_port_read (s : uart16550_state_t) (off : Z) : Z * uart16550_state_t := uart16550_read s off 1.
Definition uart16550_port_write (owned : Z) (s : uart16550_state_t) (off value : Z) : uart16550_state_t * list Z :=
  uart16550_write owned s off 1 (u8 value).

(** ** Initialisation

    [None] is the return value -1 for a machine without a slot; the registration of the
    device on the bus is [mmio_bus_register]. *)

Definition uart16550_init (w : con_world uart16550_state_t) (vm : vm_ref) : option (con_world uart16550_state_t) :=
  if negb (in_slots vm) then None
  else Some (set_slots w (slot_put (cw_slots w) vm
              (mk_uart (vr_ptr vm) 0 0 0 0 0 0 0 (ring_zero RX_FIFO_SIZE) 0 (ring_zero TX_FIFO_SIZE)))).

Definition uart16550_destroy (w : con_world uart16550_state_t) (vm : vm_ref) : con_world uart16550_state_t :=
  if negb (in_slots vm) then w else set_slots w (slot_put (cw_slots w) vm uart16550_zero).

#[export] Instance uart16550_ops : console_ops uart16550_state_t := {
  vmm_console_tx_set_enabled := uart16550_tx_set_enabled;
  vmm_console_tx_channel_enabled := uart16550_tx_channel_enabled;
  vmm_console_tx_pop := uart16550_tx_pop;
  vmm_console_tx_has_data := uart16550_tx_has_data;
  vmm_console_putchar := uart16550_putchar;
  vmm_console_push_rx := uart16550_push_rx;
  vmm_console_irq_asserted := uart16550_irq_asserted;
  vmm_console_rx_flush := uart16550_rx_flush;
}.

#[export] Instance uart16550_mmio : console_mmio uart16550_state_t := {
  guest_read := uart16550_read;
  guest_write := uart16550_write;
}.

(** * Properties *)

Record uart_inv (s : uart16550_state_t) : Prop := mk_uart_inv {
  ui_ier : byte (ua_ier s);
  ui_lcr : byte (ua_lcr s);
  ui_mcr : byte (ua_mcr s);
  ui_scr : byte (ua_scr s);
  ui_fcr : byte (ua_fcr s);
  ui_dll : byte (ua_dll s);
  ui_dlm : byte (ua_dlm s);
  ui_rx : ring_inv RX_FIFO_SIZE (ua_rx s);
  ui_tx : ring_inv TX_FIFO_SIZE (ua_tx s);
}.

Definition uart_rx (s : uart16550_state_t) : list Z := ring_queue RX_FIFO_SIZE (ua_rx s).
Definition uart_tx (s : uart16550_state_t) : list Z := ring_queue TX_FIFO_SIZE (ua_tx s).

Lemma u8_byte v : byte (u8 v).
Proof. apply u8_range. Qed.

Lemma rx_cap : 0 < RX_FIFO_SIZE < 2 ^ 31.
Proof. lia. Qed.
Lemma tx_cap : 0 < TX_FIFO_SIZE < 2 ^ 31.
Proof. lia. Qed.

Lemma uart_fresh_inv p : uart_inv (mk_uart p 0 0 0 0 0 0 0 (ring_zero RX_FIFO_SIZE) 0 (ring_zero TX_FIFO_SIZE)).
Proof. split; cbn [ua_ier ua_lcr ua_mcr ua_scr ua_fcr ua_dll ua_dlm ua_rx ua_tx]; unfold byte; try lia; apply ring_zero_inv; lia. Qed.

Lemma set_rx_inv s r d : uart_inv s -> ring_inv RX_FIFO_SIZE r -> uart_inv (set_rx s r d).
Proof. intros [] ?. by split. Qed.
Lemma set_tx_inv s r : uart_inv s -> ring_inv TX_FIFO_SIZE r -> uart_inv (set_tx s r).
Proof. intros [] ?. by split. Qed.

Create HintDb uart.
#[local] Hint Resolve set_rx_inv set_tx_inv u8_byte ui_rx ui_tx rx_cap tx_cap : uart.

Lemma push_rx_spec c s :
  uart_inv s -> byte c -> uart_inv (push_rx_locked c s) /\
  uart_rx (push_rx_locked c s) = if Z.of_nat (length (uart_rx s)) <? RX_FIFO_SIZE then uart_rx s ++ [c] else uart_rx s.
Proof.
  intros Hs Hc. pose proof (ui_rx s Hs) as Hr. unfold push_rx_locked, uart_rx. rewrite ring_queue_length by done.
  destruct (Z.leb_spec RX_FIFO_SIZE (rg_count (ua_rx s))) as [Hf|Hf].
  - rewrite (proj2 (Z.ltb_ge _ _)) by done. split; [auto with uart|done].
  - rewrite (proj2 (Z.ltb_lt _ _)) by done. destruct (ring_put_spec RX_FIFO_SIZE rx_cap _ c Hr Hc Hf). split; [auto with uart|done].
Qed.

Lemma put_char_spec owned s c :
  uart_inv s -> byte c ->
  let '(s', l) := uart_put_char owned s c in
  ua_owner s' = ua_owner s /\ uart_inv s' /\ uart_rx s' = uart_rx s /\
  if owned =? 0 then uart_tx s' = uart_tx s /\ l = [c] else appended TX_FIFO_SIZE (uart_tx s) c (uart_tx s') /\ l = [].
Proof.
  intros Hs Hc. pose proof (ui_tx s Hs) as Ht. unfold uart_put_char. destruct (owned =? 0); [done|]. unfold appended, uart_tx.
  rewrite ring_queue_length by done. cbn [ua_tx set_tx].
  destruct (Z.leb_spec TX_FIFO_SIZE (rg_count (ua_tx s))) as [Hf|Hf].
  - rewrite (proj2 (Z.ltb_ge _ _)) by done. destruct (ring_drop_spec TX_FIFO_SIZE tx_cap _ Ht) as [Hd Hq]; [lia|].
    assert (rg_count (ring_drop TX_FIFO_SIZE (ua_tx s)) < TX_FIFO_SIZE) as Hn.
    { pose proof (ri_count _ _ Ht). cbn. rewrite u32_id by lia. lia. }
    destruct (ring_put_spec TX_FIFO_SIZE tx_cap _ c Hd Hc Hn) as [Hp Hq']. split; [done|]. split; [auto with uart|]. split; [done|].
    split; [|done]. right. by rewrite Hq', Hq.
  - rewrite (proj2 (Z.ltb_lt _ _)) by done. destruct (ring_put_spec TX_FIFO_SIZE tx_cap _ c Ht Hc Hf).
    split; [done|]. split; [auto with uart|]. done.
Qed.

(** Which accesses of the guest take a byte of the input, and which send one. *)
Definition uart_data (s : uart16550_state_t) (off size : Z) : bool :=
  ((size =? 1) || (size =? 4)) && (off =? UART_RBR_THR_DLL) && negb (dlab s).

Lemma uart_read_spec s off size :
  uart_inv s ->
  let '(v, s') := uart16550_read s off size in
  ua_owner s' = ua_owner s /\ uart_inv s' /\ uart_tx s' = uart_tx s /\ byte v /\
  if uart_data s off size then uart_rx s' = tail (uart_rx s) /\ v = default 0 (head (uart_rx s)) else uart_rx s' = uart_rx s.
Proof.
  intros Hs. pose proof Hs as [? ? ? ? ? ? ? Hr ?]. unfold uart16550_read, uart_data.
  destruct (negb (size =? 1) && negb (size =? 4)) eqn:E0.
  { replace ((size =? 1) || (size =? 4)) with false by lia. cbn [andb]. split_and!; done. }
  replace ((size =? 1) || (size =? 4)) with true by lia. cbn [andb].
  destruct (off =? UART_RBR_THR_DLL); cbn [andb].
  { destruct (dlab s); cbn [negb]; [done|].
    pose proof (rings_take uart_inv ua_rx RX_FIFO_SIZE rx_cap ui_rx s) as Htake. unfold uart_rx.
    destruct (0 <? rg_count (ua_rx s)).
    - destruct (Htake (set_rx s (ring_drop RX_FIFO_SIZE (ua_rx s)) (ua_rx_drops s)) _ Hs eq_refl eq_refl) as (? & ? & ? & ?).
      split; [done|]. split; [auto with uart|done].
    - by destruct (Htake s _ Hs eq_refl eq_refl) as (? & ? & ? & ?). }
  repeat case_if; (split; [done|]); (split; [done|]); (split; [done|]); (split; [|done]);
    first [done | unfold byte; cbn; lia].
Qed.

Ltac regs := split; cbn [set_regs ua_ier ua_lcr ua_mcr ua_scr ua_fcr ua_dll ua_dlm ua_rx ua_tx]; auto with uart.

Lemma uart_write_spec owned s off size v :
  uart_inv s ->
  let '(s', l) := uart16550_write owned s off size v in
  ua_owner s' = ua_owner s /\ uart_inv s' /\ uart_rx s' = uart_rx s /\
  if uart_data s off size then
    if owned =? 0 then uart_tx s' = uart_tx s /\ l = [u8 v] else appended TX_FIFO_SIZE (uart_tx s) (u8 v) (uart_tx s') /\ l = []
  else uart_tx s' = uart_tx s /\ l = [].
Proof.
  intros Hs. pose proof (put_char_spec owned s (u8 v) Hs (u8_byte v)) as Hp. unfold uart16550_write, uart_data.
  destruct Hs as [? ? ? ? ? ? ? Hr Ht], s. cbn [ua_ier ua_lcr ua_mcr ua_scr ua_fcr ua_dll ua_dlm ua_rx ua_tx] in *.
  destruct (negb (size =? 1) && negb (size =? 4)) eqn:E0.
  { replace ((size =? 1) || (size =? 4)) with false by lia. cbn [andb]. split_and!; done. }
  replace ((size =? 1) || (size =? 4)) with true by lia. cbn [andb].
  destruct (off =? UART_RBR_THR_DLL); cbn [andb].
  { destruct (dlab _); cbn [negb]; [|done]. split; [done|]. split; [regs|done]. }
  repeat case_if; (split; [done|]); (split; [regs|done]).
Qed.

(** ** The driver keeps the promises of a console *)

Lemma uart_push_law w vm c :
  cw_ok uart_inv w -> byte c ->
  cw_owned (uart16550_push_rx w vm c) = cw_owned w /\ cw_klog (uart16550_push_rx w vm c) = cw_klog w /\
  at_slot ua_owner uart16550_zero uart_inv vm w (uart16550_push_rx w vm c) (fun s s' =>
    uart_tx s' = uart_tx s /\ uart_rx s' = if Z.of_nat (length (uart_rx s)) <? RX_FIFO_SIZE then uart_rx s ++ [c] else uart_rx s).
Proof.
  intros Hok Hc. apply on_slot_at; [done|]. intros s Hs. destruct (push_rx_spec c s Hs Hc) as [Hi Hq]. split; [|split; [done|split; [|done]]].
  all: unfold push_rx_locked; by case_if.
Qed.

Lemma uart_flush_law w vm :
  cw_ok uart_inv w ->
  cw_owned (uart16550_rx_flush w vm) = cw_owned w /\ cw_klog (uart16550_rx_flush w vm) = cw_klog w /\
  at_slot ua_owner uart16550_zero uart_inv vm w (uart16550_rx_flush w vm) (fun s s' => uart_tx s' = uart_tx s /\ uart_rx s' = []).
Proof.
  intros Hok. apply on_slot_at; [done|]. intros s Hs. destruct (ring_clear_spec _ rx_cap _ (ui_rx s Hs)). split; [done|]. split; [auto with uart|done].
Qed.

Lemma uart_set_tx s r :
  uart_inv s -> ring_inv TX_FIFO_SIZE r ->
  ua_owner (set_tx s r) = ua_owner s /\ uart_inv (set_tx s r) /\ ua_rx (set_tx s r) = ua_rx s /\ ua_tx (set_tx s r) = r.
Proof. auto with uart. Qed.

#[export] Program Instance uart16550_laws : console_laws uart16550_state_t := {
  cl_owner := ua_owner;
  cl_zero := uart16550_zero;
  cl_inv := uart_inv;
  cl_rx := uart_rx;
  cl_tx := uart_tx;
  cl_rx_cap := RX_FIFO_SIZE;
  cl_tx_cap := TX_FIFO_SIZE;
  cl_takes := uart_data;
  cl_sends := uart_data;
  cl_put_sends := true;
  cl_bound := rings_bound uart_inv ua_rx ua_tx RX_FIFO_SIZE TX_FIFO_SIZE ui_rx ui_tx;
  cl_push := uart_push_law;
  cl_pop w vm Hok := rings_pop_law ua_owner uart16550_zero uart_inv ua_rx ua_tx RX_FIFO_SIZE TX_FIFO_SIZE set_tx tx_cap ui_tx uart_set_tx w vm _ Hok eq_refl;
  cl_flush := uart_flush_law;
  cl_enable w vm en Hok Hp :=
    rings_enable_law ua_owner uart16550_zero uart_inv ua_rx ua_tx RX_FIFO_SIZE TX_FIFO_SIZE set_tx tx_cap ui_tx uart_set_tx w vm en _ Hok Hp eq_refl;
  cl_has w vm := rings_has_law ua_owner uart16550_zero uart_inv ua_tx TX_FIFO_SIZE ui_tx w vm;
  cl_write := uart_write_spec;
}.
Next Obligation.
  intros w vm. cbn. unfold uart16550_tx_channel_enabled. destruct (uart16550_of w vm) as [s|] eqn:E; [|done].
  apply slot_of_in in E as (Hi & _). unfold in_slots in Hi. by destruct (vr_ptr vm =? 0).
Qed.
Next Obligation.
  intros s off size Hs. pose proof (uart_read_spec s off size Hs) as H. cbn in *. destruct (uart16550_read s off size) as [v s'].
  destruct H as (? & ? & ? & Hb & ?). split_and!; try done; unfold byte in Hb; lia.
Qed.
Next Obligation.
  intros w vm c Hok Hc. cbn. unfold uart16550_putchar. destruct (uart16550_of w vm) as [s|] eqn:E; unfold uart16550_of in E.
  2: { split; [done|]. unfold at_slot. rewrite E. done. }
  destruct (cw_of_inv _ _ _ _ _ _ Hok E) as (_ & Hs & _). pose proof (put_char_spec (cw_owned w (vr_ptr vm)) s c Hs Hc) as H.
  destruct (uart_put_char (cw_owned w (vr_ptr vm)) s c) as [s' l]. destruct H as (Ho & Hi & Hr & H). split; [done|].
  split; intros Hw; [rewrite Hw in H; cbn [Z.eqb] in H|rewrite (proj2 (Z.eqb_neq _ 0)) in H by done]; destruct H as [Ht ->].
  - eapply put_at_slot; [done|exact E|done|done| |reflexivity]. done.
  - split; [cbn; by rewrite app_nil_r|]. eapply put_at_slot; [done|exact E|done|done| |reflexivity]. done.
Qed.
