(* ===== verification/Vpl011.v ===== *)
(** * The virtual PL011 UART: kernel/vmm/vdev/console/vpl011.c, include/vmm/vmm_vpl011.h

    The console of the aarch64 guests: two 32-bit registers, an input ring of 256 bytes
    and an output ring of 8192.  Both rings drop the new byte when they are full.  The
    file ends with the instances that make the driver a console. *)

From stdpp Require Import options.
From Stdlib Require Import Lia ZifyBool.
From S2P Require Import Prelude MmioBus Ring Console.

Abbreviation VPL011_BASE := 150994944.
Abbreviation VPL011_SIZE := 4096.
Abbreviation VPL011_RX_FIFO_SIZE := 256.
Abbreviation VPL011_TX_FIFO_SIZE := 8192.
Abbreviation UARTDR := 0.
Abbreviation UARTFR := 24.
Abbreviation UARTCR := 48.
Abbreviation UARTIMSC := 56.
Abbreviation UARTRIS := 60.
Abbreviation UARTMIS := 64.
Abbreviation UARTICR := 68.
Abbreviation PERIPHID0 := 4064.
Abbreviation PERIPHID1 := 4068.
Abbreviation PERIPHID2 := 4072.
Abbreviation PERIPHID3 := 4076.
Abbreviation PCELLID0 := 4080.
Abbreviation PCELLID1 := 4084.
Abbreviation PCELLID2 := 4088.
Abbreviation PCELLID3 := 4092.
Abbreviation FR_TXFE := 128.
Abbreviation FR_RXFF := 64.
Abbreviation FR_RXFE := 16.
Abbreviation INT_RX := 16.

Record vpl011_state_t := mk_pl011 {
  pl_owner : Z;
  pl_cr : Z;
  pl_imsc : Z;
  pl_rx : ring;
  pl_tx : ring;
  pl_rx_dropped : Z;
  pl_tx_dropped : Z;
}.

(** [memset(&d->st, 0, sizeof(d->st))] *)
Definition vpl011_zero : vpl011_state_t :=
  mk_pl011 0 0 0 (ring_zero VPL011_RX_FIFO_SIZE) (ring_zero VPL011_TX_FIFO_SIZE) 0 0.

Definition pl_set_rx (s : vpl011_state_t) (r : ring) : vpl011_state_t :=
  mk_pl011 (pl_owner s) (pl_cr s) (pl_imsc s) r (pl_tx s) (pl_rx_dropped s) (pl_tx_dropped s).
Definition pl_set_tx (s : vpl011_state_t) (r : ring) : vpl011_state_t :=
  mk_pl011 (pl_owner s) (pl_cr s) (pl_imsc s) (pl_rx s) r (pl_rx_dropped s) (pl_tx_dropped s).
Definition pl_set_dropped (s : vpl011_state_t) (rx tx : Z) : vpl011_state_t :=
  mk_pl011 (pl_owner s) (pl_cr s) (pl_imsc s) (pl_rx s) (pl_tx s) rx tx.
Definition pl_set_regs (s : vpl011_state_t) (cr imsc : Z) : vpl011_state_t :=
  mk_pl011 (pl_owner s) cr imsc (pl_rx s) (pl_tx s) (pl_rx_dropped s) (pl_tx_dropped s).

Definition vpl011_of : con_world vpl011_state_t -> vm_ref -> option vpl011_state_t := cw_of pl_owner vpl011_zero.
Definition on_pl011 : con_world vpl011_state_t -> vm_ref -> (vpl011_state_t -> vpl011_state_t) -> con_world vpl011_state_t :=
  on_slot pl_owner vpl011_zero.

(** ** The host side *)

Definition pl_rx_irq_asserted_locked (s : vpl011_state_t) : bool :=
  (0 <? rg_count (pl_rx s)) && negb (Z.land (pl_imsc s) INT_RX =? 0).

Definition vpl011_rx_irq_asserted (w : con_world vpl011_state_t) (vm : vm_ref) : bool :=
  match vpl011_of w vm with None => false | Some s => pl_rx_irq_asserted_locked s end.

(** The warning for the first dropped byte is not modelled. *)
Definition pl_push_rx_locked (c : Z) (s : vpl011_state_t) : vpl011_state_t :=
  if VPL011_RX_FIFO_SIZE <=? rg_count (pl_rx s) then pl_set_dropped s (u64 (pl_rx_dropped s + 1)) (pl_tx_dropped s)
  else pl_set_rx s (ring_put VPL011_RX_FIFO_SIZE (pl_rx s) c).

Definition vpl011_push_rx (w : con_world vpl011_state_t) (vm : vm_ref) (c : Z) : con_world vpl011_state_t :=
  on_pl011 w vm (pl_push_rx_locked c).

Definition vpl011_rx_flush (w : con_world vpl011_state_t) (vm : vm_ref) : con_world vpl011_state_t :=
  on_pl011 w vm (fun s => pl_set_rx s (ring_clear (pl_rx s))).

Definition vpl011_tx_set_enabled (w : con_world vpl011_state_t) (vm : vm_ref) (enabled : bool) : con_world vpl011_state_t :=
  let flag := if enabled then 1 else 0 in
  match vpl011_of w vm with
  | None => if vr_ptr vm =? 0 then w else set_owned w (vr_ptr vm) flag
  | Some s =>
      let w := set_owned w (vr_ptr vm) flag in
      if negb enabled then on_pl011 w vm (fun s => pl_set_tx s (ring_clear (pl_tx s))) else w
  end.

Definition vpl011_tx_channel_enabled (w : con_world vpl011_state_t) (vm : vm_ref) : Z :=
  match vpl011_of w vm with
  | None => if vr_ptr vm =? 0 then 0 else cw_owned w (vr_ptr vm)
  | Some _ => cw_owned w (vr_ptr vm)
  end.

Definition vpl011_tx_has_data (w : con_world vpl011_state_t) (vm : vm_ref) : bool :=
  match vpl011_of w vm with None => false | Some s => 0 <? rg_count (pl_tx s) end.

(** The byte, where the function returns 1. *)
Definition vpl011_tx_pop (w : con_world vpl011_state_t) (vm : vm_ref) : option Z * con_world vpl011_state_t :=
  match vpl011_of w vm with
  | None => (None, w)
  | Some s =>
      if rg_count (pl_tx s) =? 0 then (None, w)
      else (Some (ring_first (pl_tx s)), on_pl011 w vm (fun s => pl_set_tx s (ring_drop VPL011_TX_FIFO_SIZE (pl_tx s))))
  end.

(** ** The guest side *)

(** [owned] is [s->owner->console_owned]; the list is what goes to [klog_write]. *)
Definition put_char_locked (owned : Z) (s : vpl011_state_t) (c : Z) : vpl011_state_t * list Z :=
  if owned =? 0 then (s, [c])
  else if VPL011_TX_FIFO_SIZE <=? rg_count (pl_tx s) then (pl_set_dropped s (pl_rx_dropped s) (u64 (pl_tx_dropped s + 1)), [])
  else (pl_set_tx s (ring_put VPL011_TX_FIFO_SIZE (pl_tx s) c), []).

Definition vpl011_read (s : vpl011_state_t) (off size : Z) : Z * vpl011_state_t :=
  if off =? UARTDR then
    if 0 <? rg_count (pl_rx s) then (ring_first (pl_rx s), pl_set_rx s (ring_drop VPL011_RX_FIFO_SIZE (pl_rx s)))
    else (0, s)
  else if off =? UARTFR then
    let fr := FR_TXFE in
    let fr := if rg_count (pl_rx s) =? 0 then Z.lor fr FR_RXFE else fr in
    let fr := if VPL011_RX_FIFO_SIZE <=? rg_count (pl_rx s) then Z.lor fr FR_RXFF else fr in
    (fr, s)
  else if off =? UARTCR then (pl_cr s, s)
  else if off =? UARTIMSC then (pl_imsc s, s)
  else if off =? UARTRIS then (if pl_rx_irq_asserted_locked s then INT_RX else 0, s)
  else if off =? UARTMIS then (if pl_rx_irq_asserted_locked s then INT_RX else 0, s)
  else if off =? PERIPHID0 then (17, s)
  else if off =? PERIPHID1 then (16, s)
  else if off =? PERIPHID2 then (20, s)
  else if off =? PERIPHID3 then (0, s)
  else if off =? PCELLID0 then (13, s)
  else if off =? PCELLID1 then (240, s)
  else if off =? PCELLID2 then (5, s)
  else if off =? PCELLID3 then (177, s)
  else (0, s).

Definition vpl011_write (owned : Z) (s : vpl011_state_t) (off size value : Z) : vpl011_state_t * list Z :=
  if off =? UARTDR then put_char_locked owned s (u8 value)
  else if off =? UARTCR then (pl_set_regs s (u32 value) (pl_imsc s), [])
  else if off =? UARTIMSC then (pl_set_regs s (pl_cr s) (u32 value), [])
  else if off =? UARTICR then (s, [])
  else (s, []).

(** ** Initialisation: as in the 16550, with [UARTEN | TXE | RXE] set *)

Definition vpl011_init (w : con_world vpl011_state_t) (vm : vm_ref) : option (con_world vpl011_state_t) :=
  if negb (in_slots vm) then None
  else Some (set_slots w (slot_put (cw_slots w) vm
              (mk_pl011 (vr_ptr vm) 769 0 (ring_zero VPL011_RX_FIFO_SIZE) (ring_zero VPL011_TX_FIFO_SIZE) 0 0))).

Definition vpl011_destroy (w : con_world vpl011_state_t) (vm : vm_ref) : con_world vpl011_state_t :=
  if negb (in_slots vm) then w else set_slots w (slot_put (cw_slots w) vm vpl011_zero).

#[export] Instance vpl011_ops : console_ops vpl011_state_t := {
  vmm_console_tx_set_enabled := vpl011_tx_set_enabled;
  vmm_console_tx_channel_enabled := vpl011_tx_channel_enabled;
  vmm_console_tx_pop := vpl011_tx_pop;
  vmm_console_tx_has_data := vpl011_tx_has_data;
  vmm_console_putchar w _ c := klog_write w [c];
  vmm_console_push_rx := vpl011_push_rx;
  vmm_console_irq_asserted := vpl011_rx_irq_asserted;
  vmm_console_rx_flush := vpl011_rx_flush;
}.

#[export] Instance vpl011_mmio : console_mmio vpl011_state_t := {
  guest_read := vpl011_read;
  guest_write := vpl011_write;
}.

(** * Properties *)

Record pl011_inv (s : vpl011_state_t) : Prop := mk_pl011_inv {
  pi_cr : 0 <= pl_cr s < U32_MOD;
  pi_imsc : 0 <= pl_imsc s < U32_MOD;
  pi_rx : ring_inv VPL011_RX_FIFO_SIZE (pl_rx s);
  pi_tx : ring_inv VPL011_TX_FIFO_SIZE (pl_tx s);
}.

Definition pl_rxq (s : vpl011_state_t) : list Z := ring_queue VPL011_RX_FIFO_SIZE (pl_rx s).
Definition pl_txq (s : vpl011_state_t) : list Z := ring_queue VPL011_TX_FIFO_SIZE (pl_tx s).

Lemma pl_rx_cap : 0 < VPL011_RX_FIFO_SIZE < 2 ^ 31.
Proof. lia. Qed.
Lemma pl_tx_cap : 0 < VPL011_TX_FIFO_SIZE < 2 ^ 31.
Proof. lia. Qed.

Lemma pl011_fresh_inv p : pl011_inv (mk_pl011 p 769 0 (ring_zero VPL011_RX_FIFO_SIZE) (ring_zero VPL011_TX_FIFO_SIZE) 0 0).
Proof. split; cbn [pl_cr pl_imsc pl_rx pl_tx]; try lia; apply ring_zero_inv; lia. Qed.

Lemma pl_set_rx_inv s r : pl011_inv s -> ring_inv VPL011_RX_FIFO_SIZE r -> pl011_inv (pl_set_rx s r).
Proof. intros [] ?. by split. Qed.

Lemma pl_set_tx_spec s r :
  pl011_inv s -> ring_inv VPL011_TX_FIFO_SIZE r ->
  pl_owner (pl_set_tx s r) = pl_owner s /\ pl011_inv (pl_set_tx s r) /\ pl_rx (pl_set_tx s r) = pl_rx s /\ pl_tx (pl_set_tx s r) = r.
Proof. intros [] ?. split; [done|]. by split; [split|]. Qed.

Lemma pl_set_dropped_inv s a b : pl011_inv s -> pl011_inv (pl_set_dropped s a b).
Proof. intros []. by split. Qed.

Lemma pl_push_law w vm c :
  cw_ok pl011_inv w -> byte c ->
  cw_owned (vpl011_push_rx w vm c) = cw_owned w /\ cw_klog (vpl011_push_rx w vm c) = cw_klog w /\
  at_slot pl_owner vpl011_zero pl011_inv vm w (vpl011_push_rx w vm c) (fun s s' =>
    pl_txq s' = pl_txq s /\ pl_rxq s' = if Z.of_nat (length (pl_rxq s)) <? VPL011_RX_FIFO_SIZE then pl_rxq s ++ [c] else pl_rxq s).
Proof.
  intros Hok Hc. apply on_slot_at; [done|]. intros s Hs. pose proof (pi_rx s Hs) as Hr. unfold pl_push_rx_locked, pl_rxq.
  rewrite ring_queue_length by done. destruct (Z.leb_spec VPL011_RX_FIFO_SIZE (rg_count (pl_rx s))) as [Hf|Hf].
  - rewrite (proj2 (Z.ltb_ge _ _)) by done. split; [done|]. split; [by apply pl_set_dropped_inv|done].
  - rewrite (proj2 (Z.ltb_lt _ _)) by done. destruct (ring_put_spec _ pl_rx_cap _ c Hr Hc Hf).
    split; [done|]. split; [by apply pl_set_rx_inv|done].
Qed.

Lemma pl_flush_law w vm :
  cw_ok pl011_inv w ->
  cw_owned (vpl011_rx_flush w vm) = cw_owned w /\ cw_klog (vpl011_rx_flush w vm) = cw_klog w /\
  at_slot pl_owner vpl011_zero pl011_inv vm w (vpl011_rx_flush w vm) (fun s s' => pl_txq s' = pl_txq s /\ pl_rxq s' = []).
Proof.
  intros Hok. apply on_slot_at; [done|]. intros s Hs. destruct (ring_clear_spec _ pl_rx_cap _ (pi_rx s Hs)).
  split; [done|]. split; [by apply pl_set_rx_inv|done].
Qed.

Lemma pl_put_char_spec owned s c :
  pl011_inv s -> byte c ->
  let '(s', l) := put_char_locked owned s c in
  pl_owner s' = pl_owner s /\ pl011_inv s' /\ pl_rxq s' = pl_rxq s /\
  if owned =? 0 then pl_txq s' = pl_txq s /\ l = [c] else appended VPL011_TX_FIFO_SIZE (pl_txq s) c (pl_txq s') /\ l = [].
Proof.
  intros Hs Hc. pose proof (pi_tx s Hs) as Ht. unfold put_char_locked. destruct (owned =? 0); [done|]. unfold appended, pl_txq.
  rewrite ring_queue_length by done. destruct (Z.leb_spec VPL011_TX_FIFO_SIZE (rg_count (pl_tx s))) as [Hf|Hf].
  - rewrite (proj2 (Z.ltb_ge _ _)) by done. split; [done|]. split; [by apply pl_set_dropped_inv|]. auto.
  - rewrite (proj2 (Z.ltb_lt _ _)) by done. destruct (ring_put_spec _ pl_tx_cap _ c Ht Hc Hf) as [Hp Hq].
    split; [done|]. split; [by apply pl_set_tx_spec|]. done.
Qed.

Definition pl_data (s : vpl011_state_t) (off size : Z) : bool := off =? UARTDR.

Lemma pl_read_spec s off size :
  pl011_inv s ->
  let '(v, s') := vpl011_read s off size in
  pl_owner s' = pl_owner s /\ pl011_inv s' /\ pl_txq s' = pl_txq s /\ 0 <= v < U32_MOD /\
  if pl_data s off size then pl_rxq s' = tail (pl_rxq s) /\ v = default 0 (head (pl_rxq s)) else pl_rxq s' = pl_rxq s.
Proof.
  intros Hs. unfold vpl011_read, pl_data. destruct (off =? UARTDR).
  { pose proof (rings_take pl011_inv pl_rx VPL011_RX_FIFO_SIZE pl_rx_cap pi_rx s) as Htake. unfold pl_rxq.
    destruct (0 <? rg_count (pl_rx s)).
    - destruct (Htake (pl_set_rx s (ring_drop VPL011_RX_FIFO_SIZE (pl_rx s))) _ Hs eq_refl eq_refl) as (? & Hb & ? & ?). unfold byte in Hb.
      split; [done|]. split; [by apply pl_set_rx_inv|]. split; [done|]. split; [lia|done].
    - destruct (Htake s _ Hs eq_refl eq_refl) as (? & ? & ? & ?). split_and!; done. }
  pose proof (pi_cr s Hs). pose proof (pi_imsc s Hs).
  cbv zeta. repeat case_if; (split; [done|]); (split; [done|]); (split; [done|]); (split; [first [done|cbn; lia]|done]).
Qed.

Lemma pl_write_spec owned s off size v :
  pl011_inv s ->
  let '(s', l) := vpl011_write owned s off size v in
  pl_owner s' = pl_owner s /\ pl011_inv s' /\ pl_rxq s' = pl_rxq s /\
  if pl_data s off size then
    if owned =? 0 then pl_txq s' = pl_txq s /\ l = [u8 v] else appended VPL011_TX_FIFO_SIZE (pl_txq s) (u8 v) (pl_txq s') /\ l = []
  else pl_txq s' = pl_txq s /\ l = [].
Proof.
  intros Hs. unfold vpl011_write, pl_data. destruct (off =? UARTDR); [apply pl_put_char_spec; [done|apply u8_range]|].
  destruct Hs. pose proof (u32_range v). repeat case_if; (split; [done|]); (split; [by split|done]).
Qed.

#[export] Program Instance vpl011_laws : console_laws vpl011_state_t := {
  cl_owner := pl_owner;
  cl_zero := vpl011_zero;
  cl_inv := pl011_inv;
  cl_rx := pl_rxq;
  cl_tx := pl_txq;
  cl_rx_cap := VPL011_RX_FIFO_SIZE;
  cl_tx_cap := VPL011_TX_FIFO_SIZE;
  cl_takes := pl_data;
  cl_sends := pl_data;
  cl_put_sends := false;
  cl_bound := rings_bound pl011_inv pl_rx pl_tx _ _ pi_rx pi_tx;
  cl_push := pl_push_law;
  cl_flush := pl_flush_law;
  cl_enable w vm en Hok Hp :=
    rings_enable_law pl_owner vpl011_zero pl011_inv pl_rx pl_tx _ _ pl_set_tx pl_tx_cap pi_tx pl_set_tx_spec w vm en _ Hok Hp eq_refl;
  cl_has w vm := rings_has_law pl_owner vpl011_zero pl011_inv pl_tx _ pi_tx w vm;
  cl_write := pl_write_spec;
}.
Next Obligation.
  intros w vm Hok. apply (rings_pop_law pl_owner vpl011_zero pl011_inv pl_rx pl_tx _ _ pl_set_tx pl_tx_cap pi_tx pl_set_tx_spec); [done|].
  cbn. unfold vpl011_tx_pop. fold vpl011_of. destruct (vpl011_of w vm) as [s|] eqn:E; [|done].
  destruct (cw_of_inv _ _ _ _ _ _ Hok E) as (_ & Hs & _). pose proof (ri_count _ _ (pi_tx s Hs)).
  destruct (Z.eqb_spec (rg_count (pl_tx s)) 0) as [Hz|Hz]; [by rewrite Hz|]. by rewrite (proj2 (Z.ltb_lt _ _)) by lia.
Qed.
Next Obligation.
  intros w vm. cbn. unfold vpl011_tx_channel_enabled. destruct (vpl011_of w vm) as [s|] eqn:E; [|done].
  apply slot_of_in in E as (Hi & _). unfold in_slots in Hi. by destruct (vr_ptr vm =? 0).
Qed.
Next Obligation.
  intros s off size Hs. pose proof (pl_read_spec s off size Hs) as H. cbn in *. destruct (vpl011_read s off size) as [v s'].
  destruct H as (? & ? & ? & Hb & ?). split_and!; try done; lia.
Qed.
Next Obligation. done. Qed.
