(* ===== verification/Consoles.v ===== *)
(** * The consoles carry bytes: runs of both drivers

    The theorem puts the host side and the guest side of the drivers together: whatever
    the machines and the host do, in any order, each console delivers its input and its
    output in order. *)

From stdpp Require Import options.
From Stdlib Require Import Lia ZifyBool.
From S2P Require Import Prelude MmioBus Ring Console Uart16550 Vpl011.

(** A run that starts when the console of [vm] has been initialised. *)
Definition con_start {S} (w : con_world S) : con_run := mk_crun w (mk_chan [] [] false) (mk_chan [] [] false).

Lemma init_slot_ok {S} (owner : S -> Z) (zero : S) inv (w : con_world S) vm s :
  cw_ok inv w -> in_slots vm = true -> owner s = vr_ptr vm -> inv s ->
  cw_ok inv (set_slots w (slot_put (cw_slots w) vm s)) /\ cw_of owner zero (set_slots w (slot_put (cw_slots w) vm s)) vm = Some s.
Proof.
  intros [Hl Hall] Hi Ho Hs. split; [|by apply slot_of_put]. split; cbn; [unfold slot_put; by rewrite length_aset|]. by apply Forall_insert.
Qed.

(** C37. The consoles deliver in order.  From the initialisation of the console of a machine,
    under any sequence of register accesses by the guests and of reads, writes, flushes and
    switches of the channel by the host, for this machine and for others: the bytes the
    guest has read followed by those in the input ring are a subsequence of the bytes
    pushed, and all of them unless the ring was full or flushed; the same holds for the
    output.  No byte is invented, repeated, reordered or taken from another machine. *)
Theorem console_streams vm :
  (forall w w' r, cl_ok w -> uart16550_init w vm = Some w' -> star (con_step vm) (con_start w') r -> run_inv vm r) /\
  (forall w w' r, cl_ok w -> vpl011_init w vm = Some w' -> star (con_step vm) (con_start w') r -> run_inv vm r).
Proof.
  split; intros w w' r Hok E Hrun; [unfold uart16550_init in E|unfold vpl011_init in E];
    (destruct (in_slots vm) eqn:Hi; cbn [negb] in E; [|done]); injection E as <-.
  - destruct (init_slot_ok ua_owner uart16550_zero uart_inv w vm _ Hok Hi (eq_refl : ua_owner (mk_uart (vr_ptr vm) 0 0 0 0 0 0 0 _ 0 _) = _) (uart_fresh_inv _)) as [Hok' E'].
    eapply con_run_ok; [exact Hok'|exact E'| | |exact Hrun]; [apply (ring_zero_inv RX_FIFO_SIZE)|apply (ring_zero_inv TX_FIFO_SIZE)]; lia.
  - destruct (init_slot_ok pl_owner vpl011_zero pl011_inv w vm _ Hok Hi (eq_refl : pl_owner (mk_pl011 (vr_ptr vm) 769 0 _ _ 0 0) = _) (pl011_fresh_inv _)) as [Hok' E'].
    eapply con_run_ok; [exact Hok'|exact E'| | |exact Hrun]; [apply (ring_zero_inv VPL011_RX_FIFO_SIZE)|apply (ring_zero_inv VPL011_TX_FIFO_SIZE)]; lia.
Qed.

(** The host types two characters on the 16550 console of machine 0, the guest reads one. *)
Lemma console_streams_witness :
  exists w' r, uart16550_init (mk_cw (replicate 32 uart16550_zero) (fun _ => 0) []) (mk_vmref 1 0) = Some w' /\
  star (con_step (mk_vmref 1 0)) (con_start w') r /\ ch_sent (cr_rx r) = [104; 105] /\ ch_recv (cr_rx r) = [104] /\ run_inv (mk_vmref 1 0) r.
Proof.
  set (w0 := mk_cw (replicate 32 uart16550_zero) (fun _ => 0) []).
  set (r0 := mk_uart 1 0 0 0 0 0 0 0 (ring_zero RX_FIFO_SIZE) 0 (ring_zero TX_FIFO_SIZE)).
  set (r1 := push_rx_locked 104 r0). set (r2 := push_rx_locked 105 r1). set (r3 := (uart16550_read r2 0 1).2).
  set (w s := set_slots w0 (slot_put (cw_slots w0) (mk_vmref 1 0) s)).
  assert (forall s, ua_owner s = 1 -> cl_of (w s) (mk_vmref 1 0) = Some s) as Hof by (intros; by apply slot_of_put).
  assert (con_act (mk_vmref 1 0) (w r0) r0 (ev_offer_rx 104 true) (w r1)) as H1.
  { assert (vmm_console_push_rx (w r0) (mk_vmref 1 0) 104 = w r1) as <- by (by apply on_slot_put).
    assert ((Z.of_nat (length (cl_rx r0)) <? cl_rx_cap uart16550_state_t) = true) as <- by (vm_compute; reflexivity).
    apply (ca_push (mk_vmref 1 0) (w r0) r0 104). unfold byte. lia. }
  assert (con_act (mk_vmref 1 0) (w r1) r1 (ev_offer_rx 105 true) (w r2)) as H2.
  { assert (vmm_console_push_rx (w r1) (mk_vmref 1 0) 105 = w r2) as <- by (by apply on_slot_put).
    assert ((Z.of_nat (length (cl_rx r1)) <? cl_rx_cap uart16550_state_t) = true) as <- by (vm_compute; reflexivity).
    apply (ca_push (mk_vmref 1 0) (w r1) r1 105). unfold byte. lia. }
  assert (con_act (mk_vmref 1 0) (w r2) r2 (ev_take_rx 104) (w r3)) as H3.
  { assert (set_slots (w r2) (slot_put (cw_slots (w r2)) (mk_vmref 1 0) r3) = w r3) as <- by apply slot_put_put.
    assert ((if cl_takes r2 0 1 && negb (bool_decide (cl_rx r2 = [])) then ev_take_rx 104 else ev_none) = ev_take_rx 104) as <- by (vm_compute; reflexivity).
    apply (ca_read (mk_vmref 1 0) (w r2) r2 0 1 104 r3). vm_compute. reflexivity. }
  assert (star (con_step (mk_vmref 1 0)) (con_start (w r0)) (mk_crun (w r3) (mk_chan [104; 105] [104] false) (mk_chan [] [] false))) as Hrun.
  { eapply star_step; [exact (cs_own _ (w r0) _ _ r0 _ _ (Hof r0 eq_refl) H1)|]. eapply star_step; [exact (cs_own _ (w r1) _ _ r1 _ _ (Hof r1 eq_refl) H2)|].
    apply star_one. exact (cs_own _ (w r2) _ _ r2 _ _ (Hof r2 eq_refl) H3). }
  exists (w r0), (mk_crun (w r3) (mk_chan [104; 105] [104] false) (mk_chan [] [] false)).
  split; [reflexivity|]. split; [exact Hrun|]. split; [reflexivity|]. split; [reflexivity|].
  refine (proj1 (console_streams (mk_vmref 1 0)) w0 (w r0) _ _ eq_refl Hrun). split; [reflexivity|]. apply Forall_replicate, uart_fresh_inv.
Defined.
