(* ===== verification/VmmDev.v ===== *)
(** * The control device of the hypervisor: kernel/fs/pseudofs/vmm_dev.c

    [/dev/vmm] is one device for all processes.  A process that boots or attaches to a
    machine becomes the owner of the session: the foreground machine gets what it writes
    and gives what it reads, and when the owner closes the device the machine is stopped,
    unless the owner detached.  The machines are those of vm.c, their consoles any driver
    with [console_laws].  The loader of the guest image and the release of the devices of
    a machine are parameters. *)

From stdpp Require Import options.
From Stdlib Require Import Lia ZifyBool.
From S2P Require Import Prelude VmPool MmioBus Ring Console Uart16550.

Abbreviation PFS_EINVAL := 22.
Abbreviation PFS_ENOENT := 2.
Abbreviation PFS_ENOSYS := 38.
Abbreviation PFS_EIO := 5.
Abbreviation PFS_EAGAIN := 11.
Abbreviation PFS_EBUSY := 16.
Abbreviation MAX_VCPUS := 12.
Abbreviation VMM_BOOT_F_NEW := 1.
Abbreviation EPOLLIN := 1.
Abbreviation EPOLLOUT := 4.
Abbreviation EPOLLHUP := 16.

(** A pointer argument of an ioctl: NULL, unreadable, or a value with whether the result
    can be written back. *)
Inductive uarg (A : Type) :=
  | u_null
  | u_fault
  | u_val (x : A) (writable : bool).
Arguments u_null {A}.
Arguments u_fault {A}.
Arguments u_val {A}.

Record vmm_boot_req := mk_breq { br_vmid : Z; br_nr_vcpus : Z; br_flags : Z; br_rsv : Z }.
Record vmm_list_req := mk_lreq { lr_max : Z; lr_count : Z; lr_fg_vmid : Z; lr_info : list (Z * Z) }.

Inductive vmm_ioc :=
  | VMM_IOC_BOOT
  | VMM_IOC_BOOT_EX (argp : uarg Z)
  | VMM_IOC_BOOT_CFG (argp : uarg vmm_boot_req)
  | VMM_IOC_LIST (argp : uarg Z)
  | VMM_IOC_ATTACH (argp : uarg Z)
  | VMM_IOC_STOP_VM (argp : uarg Z)
  | VMM_IOC_GET_STATUS (argp : uarg unit)
  | VMM_IOC_DETACH
  | VMM_IOC_STOP
  | VMM_IOC_other.

(** What an ioctl writes to its argument. *)
Inductive ioc_out :=
  | out_none
  | out_word (x : Z)
  | out_boot (r : vmm_boot_req)
  | out_list (r : vmm_list_req).

(** The address of slot [i] of [g_vm_pool]. *)
Definition vm_addr (i : Z) : Z := i + 1.

Section device.
Context {S : Type} `{console_ops S}.

(** The globals of the file, the pool, the consoles, and by slot the fields [stop_req] and
    [nr_vcpus] of the machines. *)
Record dev_world := mk_dw {
  g_vmm_detached : Z;
  g_vmm_fg_vmid : Z;
  g_vmm_owner_pid : Z;
  dw_pool : vm_pool;
  dw_con : con_world S;
  dw_stop_req : Z -> Z;
  dw_nr_vcpus : Z -> Z;
}.

Definition set_session (d : dev_world) (detached fg owner : Z) : dev_world :=
  mk_dw detached fg owner (dw_pool d) (dw_con d) (dw_stop_req d) (dw_nr_vcpus d).
Definition set_con (d : dev_world) (w : con_world S) : dev_world :=
  mk_dw (g_vmm_detached d) (g_vmm_fg_vmid d) (g_vmm_owner_pid d) (dw_pool d) w (dw_stop_req d) (dw_nr_vcpus d).

Definition vm_of (d : dev_world) (i : Z) : vm_ref := mk_vmref (vm_addr i) (vm_slot (vm_at (dw_pool d) i)).

(** [vm_request_stop]: the flag; the kicks that make the virtual CPUs see it sooner are
    not modelled.  The argument may be NULL. *)
Definition vm_request_stop (d : dev_world) (vm : option Z) : dev_world :=
  match vm with
  | None => d
  | Some i => mk_dw (g_vmm_detached d) (g_vmm_fg_vmid d) (g_vmm_owner_pid d) (dw_pool d) (dw_con d) (upd (dw_stop_req d) i 1) (dw_nr_vcpus d)
  end.

(** A current task has an id; there may be none. *)
Definition vmm_dev_is_owner (d : dev_world) (cur : option Z) : bool :=
  match cur with
  | Some pid => negb (g_vmm_owner_pid d =? 0) && (pid =? g_vmm_owner_pid d)
  | None => false
  end.

Definition vmm_dev_claim (d : dev_world) (cur : option Z) : dev_world :=
  match cur with
  | Some pid => set_session d (g_vmm_detached d) (g_vmm_fg_vmid d) pid
  | None => d
  end.

Definition vm_get_fg (d : dev_world) : option Z := vm_get (dw_pool d) (u32 (g_vmm_fg_vmid d)).

Definition is_running (d : dev_world) (i : Z) : bool := vm_state (vm_at (dw_pool d) i) =? VM_RUNNING.

(** ** Reading and writing *)

(** The bytes go to the input of the foreground machine one by one. *)
Definition vmm_dev_write (d : dev_world) (buf : option (list Z)) : Z * dev_world :=
  match buf with
  | None => (- PFS_EINVAL, d)
  | Some buf =>
      match vm_get_fg d with
      | None => (- PFS_EIO, d)
      | Some fg => (i32 (Z.of_nat (length buf)), set_con d (foldl (fun w c => vmm_console_push_rx w (vm_of d fg) c) (dw_con d) buf))
      end
  end.

(** [while (n < len && vmm_console_tx_pop(fg, buf + n)) n++;] *)
Fixpoint pop_loop (len : nat) (w : con_world S) (vm : vm_ref) : list Z * con_world S :=
  match len with
  | O => ([], w)
  | Datatypes.S len =>
      match vmm_console_tx_pop w vm with
      | (None, w) => ([], w)
      | (Some c, w) => let '(l, w) := pop_loop len w vm in (c :: l, w)
      end
  end.

(** The return value and the bytes in the buffer, [None] for a NULL buffer. *)
Definition vmm_dev_read (d : dev_world) (buf : option nat) : Z * list Z * dev_world :=
  match buf with
  | None => (- PFS_EINVAL, [], d)
  | Some len =>
      match vm_get_fg d with
      | None => (- PFS_EAGAIN, [], d)
      | Some fg =>
          let '(l, w) := pop_loop len (dw_con d) (vm_of d fg) in
          if Z.of_nat (length l) =? 0 then (- PFS_EAGAIN, [], set_con d w) else (i32 (Z.of_nat (length l)), l, set_con d w)
      end
  end.

Definition vmm_dev_poll (d : dev_world) : Z :=
  let ev := EPOLLOUT in
  let ev := match vm_get_fg d with
            | Some fg => if vmm_console_tx_has_data (dw_con d) (vm_of d fg) then Z.lor ev EPOLLIN else ev
            | None => ev
            end in
  if negb (g_vmm_fg_vmid d =? 0) then
    match vm_get_fg d with
    | None => Z.lor ev EPOLLHUP
    | Some fg =>
        let st := vm_state (vm_at (dw_pool d) fg) in
        if (st =? VM_FREE) || (st =? VM_DYING) then Z.lor ev EPOLLHUP else ev
    end
  else ev.

Definition vmm_dev_close (d : dev_world) (cur : option Z) : dev_world :=
  if negb (vmm_dev_is_owner d cur) then d
  else
    let d := set_session d (g_vmm_detached d) (g_vmm_fg_vmid d) 0 in
    if negb (g_vmm_detached d =? 0) then set_session d 0 (g_vmm_fg_vmid d) (g_vmm_owner_pid d)
    else
      let fg := vm_get_fg d in
      let d := set_session d (g_vmm_detached d) 0 (g_vmm_owner_pid d) in
      match fg with
      | None => d
      | Some i =>
          let d := set_con d (vmm_console_tx_set_enabled (dw_con d) (vm_of d i) false) in
          let d := set_con d (vmm_console_rx_flush (dw_con d) (vm_of d i)) in
          vm_request_stop d (Some i)
      end.

(** ** Booting *)

(** The first running machine by number, from [v] on. *)
Fixpoint scan_running (n : nat) (d : dev_world) (v : Z) : option Z :=
  match n with
  | O => None
  | Datatypes.S n =>
      match vm_get (dw_pool d) v with
      | Some i => if is_running d i then Some i else scan_running n d (v + 1)
      | None => scan_running n d (v + 1)
      end
  end.

(** [vm_alloc]: the slot, whose other fields the memset clears, and the configuration the
    caller then writes. *)
Definition boot_alloc (d : dev_world) : option Z * dev_world :=
  match vm_alloc (dw_pool d) with
  | (None, _) => (None, d)
  | (Some i, p) =>
      (Some i, mk_dw (g_vmm_detached d) (g_vmm_fg_vmid d) (g_vmm_owner_pid d) p (set_owned (dw_con d) (vm_addr i) 0)
                 (upd (dw_stop_req d) i 0) (upd (dw_nr_vcpus d) i 0))
  end.

Section loader.
Context (guest_loader_check_vcpus : Z -> bool) (guest_loader_run_linux : dev_world -> Z -> Z -> Z * dev_world).
Context (vmm_arch_vm_destroy : con_world S -> vm_ref -> con_world S) (GUEST_LINUX_NR_VCPUS : Z).

(** [vm_free] without another caller in between. *)
Definition vm_free (d : dev_world) (i : Z) : dev_world :=
  match vm_free_begin (dw_pool d) i with
  | (false, _) => d
  | (true, p) =>
      let w := vmm_arch_vm_destroy (dw_con d) (vm_of d i) in
      mk_dw (g_vmm_detached d) (g_vmm_fg_vmid d) (g_vmm_owner_pid d) (vm_free_end p i) (set_owned w (vm_addr i) 0)
        (upd (dw_stop_req d) i 0) (upd (dw_nr_vcpus d) i 0)
  end.

(** The result: the return value, and the machine and its number of CPUs where it is 0. *)
Definition boot_attach (d : dev_world) (cur : option Z) (want_vcpus : Z) : Z * (Z * Z) * dev_world :=
  let fg := match vm_get_fg d with
            | Some i => if is_running d i then Some i else scan_running 255 d 1
            | None => scan_running 255 d 1
            end in
  match fg with
  | None => (- PFS_EBUSY, (0, 0), d)
  | Some i =>
      let vmid := vm_vmid (vm_at (dw_pool d) i) in
      if negb (want_vcpus =? 0) && negb (u32 (dw_nr_vcpus d i) =? want_vcpus) then (- PFS_EINVAL, (0, 0), d)
      else
        let d := set_session d (g_vmm_detached d) (i32 vmid) (g_vmm_owner_pid d) in
        let d := vmm_dev_claim d cur in
        let d := set_con d (vmm_console_tx_set_enabled (dw_con d) (vm_of d i) true) in
        (0, (vmid, u32 (dw_nr_vcpus d i)), d)
  end.

Definition boot_new (d : dev_world) (cur : option Z) (want_vcpus : Z) : Z * (Z * Z) * dev_world :=
  let nr_vcpus := if want_vcpus =? 0 then GUEST_LINUX_NR_VCPUS else want_vcpus in
  if negb (guest_loader_check_vcpus nr_vcpus) then (- PFS_EINVAL, (0, 0), d)
  else
    match boot_alloc d with
    | (None, d) => (- PFS_EBUSY, (0, 0), d)
    | (Some i, d) =>
        let d := set_con d (vmm_console_tx_set_enabled (dw_con d) (vm_of d i) true) in
        let '(rc, d) := guest_loader_run_linux d i nr_vcpus in
        if negb (rc =? 0) then
          let d := set_con d (vmm_console_tx_set_enabled (dw_con d) (vm_of d i) false) in
          (- PFS_EIO, (0, 0), vm_free d i)
        else
          let vmid := vm_vmid (vm_at (dw_pool d) i) in
          let d := set_session d (g_vmm_detached d) (i32 vmid) (g_vmm_owner_pid d) in
          let d := vmm_dev_claim d cur in
          (0, (vmid, u32 (dw_nr_vcpus d i)), d)
    end.

Definition vmm_dev_boot (d : dev_world) (cur : option Z) (force_new : bool) (want_vcpus : Z) : Z * (Z * Z) * dev_world :=
  let d := set_session d 0 (g_vmm_fg_vmid d) (g_vmm_owner_pid d) in
  if MAX_VCPUS <? want_vcpus then (- PFS_EINVAL, (0, 0), d)
  else if negb force_new && vmm_guest_running (dw_pool d) then boot_attach d cur want_vcpus
  else boot_new d cur want_vcpus.

(** ** Control *)

(** The machines by number, from [v] on. *)
Fixpoint list_vms (n : nat) (d : dev_world) (v : Z) : list (Z * Z) :=
  match n with
  | O => []
  | Datatypes.S n =>
      match vm_get (dw_pool d) v with
      | None => list_vms n d (v + 1)
      | Some i =>
          let p := vm_at (dw_pool d) i in
          if vm_state p =? VM_FREE then list_vms n d (v + 1) else (vm_vmid p, vm_state p) :: list_vms n d (v + 1)
      end
  end.

Definition ioctl_attach (d : dev_world) (cur : option Z) (vmid : Z) : Z * dev_world :=
  match vm_get (dw_pool d) vmid with
  | None => (- PFS_ENOENT, d)
  | Some i =>
      if vm_state (vm_at (dw_pool d) i) =? VM_FREE then (- PFS_ENOENT, d)
      else if negb (is_running d i) then (- PFS_EBUSY, d)
      else
        let d := set_session d (g_vmm_detached d) (i32 vmid) (g_vmm_owner_pid d) in
        let d := vmm_dev_claim d cur in
        (0, set_con d (vmm_console_tx_set_enabled (dw_con d) (vm_of d i) true))
  end.

Definition ioctl_stop_vm (d : dev_world) (vmid : Z) : Z * dev_world :=
  match vm_get (dw_pool d) vmid with
  | None => (- PFS_ENOENT, d)
  | Some i => if vm_state (vm_at (dw_pool d) i) =? VM_FREE then (- PFS_ENOENT, d) else (0, vm_request_stop d (Some i))
  end.

(** The guards on the argument shared by the requests. *)
Definition with_arg {A} (d : dev_world) (argp : uarg A) (k : A -> bool -> Z * ioc_out * dev_world) : Z * ioc_out * dev_world :=
  match argp with
  | u_null | u_fault => (- PFS_EINVAL, out_none, d)
  | u_val x wr => k x wr
  end.

(** The copy back to the caller. *)
Definition reply (wr : bool) (o : ioc_out) (d : dev_world) : Z * ioc_out * dev_world :=
  if wr then (0, o, d) else (- PFS_EINVAL, out_none, d).

Definition vmm_dev_ioctl (d : dev_world) (cur : option Z) (req : vmm_ioc) : Z * ioc_out * dev_world :=
  match req with
  | VMM_IOC_BOOT => let '(rc, _, d) := vmm_dev_boot d cur false 0 in (rc, out_none, d)
  | VMM_IOC_BOOT_EX argp =>
      with_arg d argp (fun _ wr =>
        let '(rc, (vmid, _), d) := vmm_dev_boot d cur true 0 in
        if negb (rc =? 0) then (rc, out_none, d) else reply wr (out_word vmid) d)
  | VMM_IOC_BOOT_CFG argp =>
      with_arg d argp (fun b wr =>
        if negb (br_rsv b =? 0) || negb (Z.land (br_flags b) (u32 (Z.lnot VMM_BOOT_F_NEW)) =? 0) then (- PFS_EINVAL, out_none, d)
        else
          let '(rc, (vmid, nr), d) := vmm_dev_boot d cur (negb (Z.land (br_flags b) VMM_BOOT_F_NEW =? 0)) (br_nr_vcpus b) in
          if negb (rc =? 0) then (rc, out_none, d) else reply wr (out_boot (mk_breq vmid nr 0 0)) d)
  | VMM_IOC_LIST argp =>
      with_arg d argp (fun max wr =>
        let cap := if 32 <? max then 32 else max in
        let l := list_vms 255 d 1 in
        reply wr (out_list (mk_lreq max (Z.of_nat (length l)) (u32 (g_vmm_fg_vmid d)) (take (Z.to_nat cap) l))) d)
  | VMM_IOC_ATTACH argp => with_arg d argp (fun vmid _ => let '(rc, d) := ioctl_attach d cur vmid in (rc, out_none, d))
  | VMM_IOC_STOP_VM argp => with_arg d argp (fun vmid _ => let '(rc, d) := ioctl_stop_vm d vmid in (rc, out_none, d))
  | VMM_IOC_GET_STATUS argp =>
      match argp with
      | u_null => (- PFS_EINVAL, out_none, d)
      | u_fault => (- PFS_EINVAL, out_none, d)
      | u_val _ wr => reply wr (out_word (if vmm_guest_running (dw_pool d) then 1 else 0)) d
      end
  | VMM_IOC_DETACH =>
      if negb (vmm_dev_is_owner d cur) then (- PFS_EINVAL, out_none, d)
      else (0, out_none, set_session d 1 (g_vmm_fg_vmid d) (g_vmm_owner_pid d))
  | VMM_IOC_STOP => (0, out_none, vm_request_stop d (vm_get_fg d))
  | VMM_IOC_other => (- PFS_ENOSYS, out_none, d)
  end.
End loader.
End device.

Arguments dev_world : clear implicits.

(** * Properties *)

Section props.
Context {S : Type} `{console_laws S}.

(** The loop of [vmm_dev_read] takes the first bytes of the output. *)
Lemma pop_loop_spec vm len : forall w,
  cl_ok w ->
  let '(l, w') := pop_loop len w vm in
  con_frame vm w w' /\ l = match cl_of w vm with None => [] | Some s => take len (cl_tx s) end /\
  con_moved vm w w' (fun s s' => cl_rx s' = cl_rx s /\ cl_tx s' = drop len (cl_tx s)).
Proof using Type.
  induction len as [|len IH]; intros w Hok; cbn [pop_loop].
  - split; [done|]. unfold con_moved. destruct (cl_of w vm) as [s|]; [|done]. split; [done|]. by exists s.
  - destruct (pop_frame w vm Hok) as [Hf Hm]. destruct (cl_pop w vm Hok) as (_ & _ & Ec & _). fold (cl_of w vm) in Ec.
    destruct (vmm_console_tx_pop w vm) as [[c|] w1]; cbn [fst snd] in *.
    + destruct (cl_of w vm) as [s|] eqn:E; cbn [mbind option_bind] in Ec; [|done]. specialize (IH w1 (proj1 Hf)).
      destruct (pop_loop len w1 vm) as [l w2]. destruct IH as (Hf' & -> & Hm'). split; [by eapply con_frame_trans|].
      unfold con_moved in Hm. rewrite E in Hm. destruct Hm as (s1 & E1 & Er & Et). rewrite E1. unfold con_moved in *. rewrite E1 in Hm'. rewrite E.
      destruct Hm' as (s2 & E2 & Er' & Et'). destruct (cl_tx s) as [|c' q] eqn:Eq; [done|]. injection Ec as <-. cbn in Et.
      split; [cbn; by rewrite Et|]. exists s2. split; [done|]. rewrite Er', Et', Er, Et. done.
    + split; [done|]. destruct (cl_of w vm) as [s|] eqn:E; cbn [mbind option_bind] in Ec.
      * unfold con_moved in *. rewrite E in Hm |- *. destruct Hm as (s1 & E1 & Er & Et). destruct (cl_tx s); [|done].
        split; [done|]. exists s1. rewrite Et. done.
      * split; [done|]. unfold con_moved in *. by rewrite E in Hm |- *.
Qed.

Lemma vm_get_addr p vmid i : vm_get p vmid = Some i -> 0 <= i /\ vm_addr i <> 0.
Proof using Type. intros (v & ? & _)%first_slot_some. unfold vm_addr. lia. Qed.
End props.

Section claims.
Context {S : Type} `{console_laws S}.

(** Closing the device, on every path.  A process that does not own the session changes
    nothing.  The owner ends the session; after a detach that is all, and the detach is
    used up.  Otherwise the foreground machine, and no other, is asked to stop, its console
    goes back to the host with both queues empty, and the consoles of the other machines
    are untouched. *)
Theorem vmm_dev_close_correct (d : dev_world S) (cur : option Z) :
  cl_ok (dw_con d) ->
  let d' := vmm_dev_close d cur in
  if negb (vmm_dev_is_owner d cur) then d' = d
  else
    g_vmm_owner_pid d' = 0 /\ g_vmm_detached d' = 0 /\ dw_pool d' = dw_pool d /\ dw_nr_vcpus d' = dw_nr_vcpus d /\
    if negb (g_vmm_detached d =? 0) then g_vmm_fg_vmid d' = g_vmm_fg_vmid d /\ dw_con d' = dw_con d /\ dw_stop_req d' = dw_stop_req d
    else
      g_vmm_fg_vmid d' = 0 /\
      match vm_get_fg d with
      | None => dw_con d' = dw_con d /\ dw_stop_req d' = dw_stop_req d
      | Some i =>
          dw_stop_req d' = upd (dw_stop_req d) i 1 /\ con_frame (vm_of d i) (dw_con d) (dw_con d') /\
          con_moved (vm_of d i) (dw_con d) (dw_con d') (fun _ s' => cl_rx s' = [] /\ cl_tx s' = []) /\ cw_owned (dw_con d') (vm_addr i) = 0
      end.
Proof using Type.
  intros Hok. cbv zeta. unfold vmm_dev_close. destruct (vmm_dev_is_owner d cur); cbn [negb]; [|done].
  cbn [set_session g_vmm_detached g_vmm_fg_vmid g_vmm_owner_pid]. destruct (Z.eqb_spec (g_vmm_detached d) 0) as [Hd|Hd]; cbn [negb]; [|done].
  unfold vm_get_fg. cbn [set_session g_vmm_fg_vmid dw_pool]. destruct (vm_get (dw_pool d) (u32 (g_vmm_fg_vmid d))) as [i|] eqn:E; [|done].
  destruct (vm_get_addr _ _ _ E) as [_ Hi]. cbn [vm_request_stop g_vmm_owner_pid g_vmm_detached g_vmm_fg_vmid dw_pool dw_con dw_stop_req dw_nr_vcpus set_con set_session].
  do 6 (split; [done|]). change (vm_of _ i) with (vm_of d i).
  destruct (disable_frame (dw_con d) (vm_of d i) Hok Hi) as (Hf1 & Hm1 & Hz). destruct (flush_frame _ (vm_of d i) (proj1 Hf1)) as (Hf2 & Hm2 & Hw).
  split; [by eapply con_frame_trans|]. split; [|by rewrite Hw].
  eapply con_moved_trans; [exact Hm1|exact Hm2|]. intros a b c [? ?] [? ?]. split; congruence.
Qed.

(** Reading and writing the device.  A write puts the bytes into the input of the
    foreground machine in order, as many as fit, and reports all of them; a read gives the
    first bytes of its output in order and removes exactly these, or EAGAIN when there are
    none.  Without a foreground machine a write fails with EIO and a read with EAGAIN.
    Neither touches another machine. *)
Theorem vmm_dev_io_correct (d : dev_world S) (buf : list Z) (len : nat) :
  cl_ok (dw_con d) -> Forall byte buf -> Z.of_nat (length buf) < 2 ^ 31 -> Z.of_nat len < 2 ^ 31 ->
  match vm_get_fg d with
  | None => vmm_dev_write d (Some buf) = (- PFS_EIO, d) /\ vmm_dev_read d (Some len) = (- PFS_EAGAIN, [], d)
  | Some i =>
      (exists w, vmm_dev_write d (Some buf) = (Z.of_nat (length buf), set_con d w) /\ con_frame (vm_of d i) (dw_con d) w /\
         con_moved (vm_of d i) (dw_con d) w (fun s s' => cl_tx s' = cl_tx s /\ cl_rx s' = take (Z.to_nat (cl_rx_cap S)) (cl_rx s ++ buf))) /\
      (exists l w, vmm_dev_read d (Some len) = (if bool_decide (l = []) then - PFS_EAGAIN else Z.of_nat (length l), l, set_con d w) /\
         l = match cl_of (dw_con d) (vm_of d i) with None => [] | Some s => take len (cl_tx s) end /\ con_frame (vm_of d i) (dw_con d) w /\
         con_moved (vm_of d i) (dw_con d) w (fun s s' => cl_rx s' = cl_rx s /\ cl_tx s' = drop len (cl_tx s)))
  end.
Proof using Type.
  intros Hok Hb Hlb Hlen. unfold vmm_dev_write, vmm_dev_read. destruct (vm_get_fg d) as [i|]; [|done]. split.
  - destruct (push_all_frame (vm_of d i) buf (dw_con d) Hok Hb) as [Hf Hm]. eexists. split; [rewrite i32_id by lia; reflexivity|]. done.
  - pose proof (pop_loop_spec (vm_of d i) len (dw_con d) Hok) as Hl. destruct (pop_loop len (dw_con d) (vm_of d i)) as [l w].
    destruct Hl as (Hf & El & Hm). exists l, w. split; [|done].
    assert (Z.of_nat (length l) < 2 ^ 31) as Hll.
    { rewrite El. destruct (cl_of _ _); [rewrite length_take; lia|cbn; lia]. }
    rewrite i32_id by lia. case_bool_decide as Hl; [by rewrite Hl|]. destruct l; [done|]. done.
Qed.

(** A detach outlives its session.  When the owner detaches and, before it closes the
    device, another process attaches to a machine, the close of the first is ignored and
    the close of the second, which never detached, is taken for a detach: the machine
    keeps running, although the same calls without the detach of the first stop it. *)
Theorem detach_leaks_to_next_session (d : dev_world S) (check : Z -> bool) run destroy dflt (a b vmid i : Z) :
  a <> 0 -> b <> 0 -> a <> b -> g_vmm_owner_pid d = a -> 1 <= vmid <= 255 ->
  vm_get (dw_pool d) vmid = Some i -> is_running d i = true -> g_vmm_detached d = 0 -> dw_stop_req d i = 0 ->
  let ioctl := vmm_dev_ioctl check run destroy dflt in
  exists d1 d2 d2',
    ioctl d (Some a) VMM_IOC_DETACH = (0, out_none, d1) /\
    ioctl d1 (Some b) (VMM_IOC_ATTACH (u_val vmid true)) = (0, out_none, d2) /\
    ioctl d (Some b) (VMM_IOC_ATTACH (u_val vmid true)) = (0, out_none, d2') /\
    vmm_dev_is_owner (vmm_dev_close d2 (Some a)) (Some b) = true /\
    dw_stop_req (vmm_dev_close (vmm_dev_close d2 (Some a)) (Some b)) i = 0 /\
    dw_stop_req (vmm_dev_close (vmm_dev_close d2' (Some a)) (Some b)) i = 1.
Proof using Type.
  intros Ha Hb Hab Ho Hv Hg Hr Hdet Hst. cbv zeta. unfold vmm_dev_ioctl, vmm_dev_is_owner. rewrite Ho, Z.eqb_refl.
  rewrite (proj2 (Z.eqb_neq a 0)) by done. cbn [negb andb].
  assert (vm_state (vm_at (dw_pool d) i) = VM_RUNNING) as Hrun by (unfold is_running in Hr; lia).
  do 3 eexists. split; [reflexivity|]. unfold with_arg, ioctl_attach, is_running. cbn [set_session dw_pool]. rewrite Hg, Hrun. cbn [Z.eqb Pos.eqb negb].
  split; [reflexivity|]. split; [reflexivity|].
  cbn [vmm_dev_claim]. unfold vmm_dev_close, vmm_dev_is_owner. cbn [set_con set_session g_vmm_owner_pid g_vmm_detached g_vmm_fg_vmid dw_pool].
  rewrite (proj2 (Z.eqb_neq a b)), (proj2 (Z.eqb_neq b 0)), Z.eqb_refl by done. cbn [negb andb].
  cbn [g_vmm_owner_pid g_vmm_detached g_vmm_fg_vmid set_session set_con]. rewrite Hdet. cbn [Z.eqb negb].
  rewrite (proj2 (Z.eqb_neq b 0)), Z.eqb_refl by done. split; [done|]. split; [done|].
  unfold vm_get_fg. cbn [g_vmm_fg_vmid dw_pool set_session set_con]. rewrite i32_id, u32_id, Hg by lia. cbn. apply upd_eq.
Qed.
End claims.

(** ** A machine in slot 0 that runs, in the foreground of process 7 *)

Definition demo_vm0 : vm_ref := mk_vmref 1 0.
Definition demo_con : con_world uart16550_state_t :=
  mk_cw (mk_uart 1 0 0 0 0 0 0 0 (ring_zero RX_FIFO_SIZE) 0 (ring_zero TX_FIFO_SIZE) :: replicate 31 uart16550_zero) (fun _ => 1) [].
Definition demo_dev : dev_world uart16550_state_t :=
  mk_dw 0 1 7 (mk_pool (mk_vm VM_RUNNING 0 1 1 :: replicate 31 vm_zero) 2) demo_con (fun _ => 0) (fun _ => 1).

Lemma demo_con_ok : cl_ok demo_con.
Proof. split; [done|]. constructor; [apply uart_fresh_inv|]. apply Forall_replicate, uart_fresh_inv. Qed.

Lemma vmm_dev_close_correct_witness :
  vmm_dev_is_owner demo_dev (Some 7) = true /\ dw_stop_req (vmm_dev_close demo_dev (Some 7)) 0 = 1 /\
  cw_owned (dw_con (vmm_dev_close demo_dev (Some 7))) 1 = 0.
Proof.
  pose proof (vmm_dev_close_correct demo_dev (Some 7) demo_con_ok) as H. cbv zeta in H.
  assert (vmm_dev_is_owner demo_dev (Some 7) = true) as Ho by reflexivity. split; [exact Ho|]. rewrite Ho in H. cbn [negb] in H.
  destruct H as (_ & _ & _ & _ & H). assert (g_vmm_detached demo_dev = 0) as Hd by reflexivity. rewrite Hd in H. cbn [Z.eqb negb] in H.
  destruct H as [_ H]. assert (vm_get_fg demo_dev = Some 0) as Hg by reflexivity. rewrite Hg in H. destruct H as (Hs & _ & _ & Hz).
  rewrite Hs. split; [reflexivity|exact Hz].
Defined.

Lemma vmm_dev_io_correct_witness :
  exists w, vmm_dev_write demo_dev (Some [104; 105]) = (2, set_con demo_dev w) /\
  exists s, cl_of w demo_vm0 = Some s /\ cl_rx s = [104; 105].
Proof.
  pose proof (vmm_dev_io_correct demo_dev [104; 105] 1 demo_con_ok) as H.
  assert (vm_get_fg demo_dev = Some 0) as Hg by reflexivity. rewrite Hg in H.
  destruct H as [(w & E & _ & Hm) _]; [repeat constructor; unfold byte; lia|cbn; lia|lia|]. exists w. split; [exact E|].
  unfold con_moved in Hm. assert (exists s, cl_of (dw_con demo_dev) (vm_of demo_dev 0) = Some s /\ cl_rx s = []) as (s & Es & Er).
  { eexists. split; [reflexivity|]. apply (proj2 (ring_zero_inv RX_FIFO_SIZE rx_cap)). }
  rewrite Es in Hm. destruct Hm as (s' & Es' & _ & Er'). exists s'. split; [exact Es'|]. rewrite Er', Er. reflexivity.
Defined.

Lemma detach_leaks_to_next_session_witness :
  exists d1 d2 : dev_world uart16550_state_t,
    vmm_dev_ioctl (fun _ => true) (fun d _ _ => (0, d)) (fun w _ => w) 1 demo_dev (Some 7) VMM_IOC_DETACH = (0, out_none, d1) /\
    vmm_dev_ioctl (fun _ => true) (fun d _ _ => (0, d)) (fun w _ => w) 1 d1 (Some 8) (VMM_IOC_ATTACH (u_val 1 true)) = (0, out_none, d2) /\
    dw_stop_req (vmm_dev_close (vmm_dev_close d2 (Some 7)) (Some 8)) 0 = 0.
Proof.
  destruct (detach_leaks_to_next_session demo_dev (fun _ => true) (fun d _ _ => (0, d)) (fun w _ => w) 1 7 8 1 0)
    as (d1 & d2 & d2' & H1 & H2 & _ & _ & H3 & _); [lia|lia|lia|reflexivity|lia|reflexivity|reflexivity|reflexivity|reflexivity|].
  exists d1, d2. split; [exact H1|]. split; [exact H2|exact H3].
Defined.
