(* ===== verification/HextMmio.v ===== *)
(** * Emulated accesses of riscv64 guests: kernel/vmm/riscv64/hext_run.c

    A guest access outside RAM faults in the second stage.  The handler fetches the
    instruction through the guest's own page table and the second stage, decodes it,
    gives the access to the bus of emulated devices, writes a loaded value back and steps
    the program counter over the instruction.

    The instruction formats of the architecture are written down as [mem_inst] and
    [encode], independently of the decoder; the theorems compare the two, and say what an
    access does to the registers and the devices of the machine. *)

From stdpp Require Import options.
From Stdlib Require Import Lia ZifyBool.
From S2P Require Import Prelude Pmm PhysMem PageTable Riscv64 Gstage MmioBus Ring Console Uart16550 Vplic.

Abbreviation RV_SATP_MODE_SV39_NUM := 8.
Abbreviation RV_SATP_MODE_SV48_NUM := 9.
Abbreviation RV_SATP_MODE_SV57_NUM := 10.
Abbreviation RV_SATP_PPN_MASK := 17592186044415.
Abbreviation RV_GSTAGE_HTVAL_SHIFT := 2.
Abbreviation RV_PAGE_OFFSET_MASK := 4095.

(** ** The machine *)

(** The registers of the guest's supervisor mode that the hart swaps in. *)
Record vs_csrs := mk_vs { vs_epc : Z; vs_status : Z; vs_tvec : Z; vs_scratch : Z; vs_ie : Z }.

(** What the SBI calls of the machine leave for a virtual CPU. *)
Record sbi_t := mk_sbi {
  sb_timer_deadline : Z;
  sb_ipi_pending : Z;
  sb_ipi_seq : Z;
  sb_ipi_seq_at_entry : Z;
  sb_ipi_injected : Z;
  sb_remote_fence : Z;
}.

(** [vcpu_t]: its number, its registers, what the hart saved at the trap, and its state. *)
Record vcpu_t := mk_vcpu {
  vc_id : Z;
  vc_r : list Z;
  vc_pc : Z;
  vc_vsatp : Z;
  vc_vs : vs_csrs;
  vc_scause_save : Z;
  vc_stval_save : Z;
  vc_htval_save : Z;
  vc_htinst_save : Z;
  vc_hstatus_save : Z;
  vc_sbi : sbi_t;
  vc_state : Z;
}.

Definition set_regs (v : vcpu_t) (r : list Z) (pc : Z) : vcpu_t :=
  mk_vcpu (vc_id v) r pc (vc_vsatp v) (vc_vs v) (vc_scause_save v) (vc_stval_save v) (vc_htval_save v) (vc_htinst_save v)
    (vc_hstatus_save v) (vc_sbi v) (vc_state v).
Definition set_reg (v : vcpu_t) (reg x : Z) : vcpu_t := set_regs v (aset (vc_r v) reg x) (vc_pc v).
Definition set_pc (v : vcpu_t) (pc : Z) : vcpu_t := set_regs v (vc_r v) pc.

(** The emulated devices of a machine, the flag [console_owned], and what its console sent
    to [klog_write]. *)
Record rv_devs := mk_devs { rd_uart : uart16550_state_t; rd_plic : vplic_state_t; rd_owned : Z; rd_klog : list Z }.

Definition g_uart16550_ops : mmio_dev_ops_t rv_devs :=
  mk_ops UART16550_BASE UART16550_SIZE
    (Some (fun d off size => let '(v, u) := uart16550_read (rd_uart d) off size in (v, mk_devs u (rd_plic d) (rd_owned d) (rd_klog d))))
    (Some (fun d off size v => let '(u, l) := uart16550_write (rd_owned d) (rd_uart d) off size v in
                               mk_devs u (rd_plic d) (rd_owned d) (rd_klog d ++ l)))
    None None.

(** A read of the controller always gives a value ([Vplic.read_spec]). *)
Definition g_vplic_ops : mmio_dev_ops_t rv_devs :=
  mk_ops VPLIC_BASE VPLIC_SIZE
    (Some (fun d off size => match vplic_read (rd_plic d) off size with
                             | Some (v, p) => (v, mk_devs (rd_uart d) p (rd_owned d) (rd_klog d))
                             | None => (0, d)
                             end))
    (Some (fun d off size v => mk_devs (rd_uart d) (vplic_write (rd_plic d) off size v) (rd_owned d) (rd_klog d)))
    None None.

(** The bus [vmm_arch_vm_init] builds: the console, then the interrupt controller. *)
Definition rv_bus : mmio_bus_t rv_devs :=
  (mmio_bus_register (mmio_bus_register mmio_bus_init g_uart16550_ops).2 g_vplic_ops).2.

(** ** Reading guest memory *)

(** The byte at a physical address of the memory of 64-bit words. *)
Definition byte_at (w : kmem) (a : Z) : Z := Z.land (Z.shiftr (km_word w (a - a mod 8)) (8 * (a mod 8))) 255.

(** [n] bytes from [a], the first one lowest. *)
Fixpoint phys_read (w : kmem) (a : Z) (n : nat) : Z :=
  match n with O => 0 | S n => byte_at w a + 256 * phys_read w (a + 1) n end.

(** [None] stands for the return value 0. *)
Definition guest_read_u64 (w : kmem) (g : gstage_ctx_t) (gpa : Z) : option Z :=
  hpa ← rv_gstage_lookup w g gpa; Some (phys_read w hpa 8).
Definition guest_read_u32 (w : kmem) (g : gstage_ctx_t) (gpa : Z) : option Z :=
  hpa ← rv_gstage_lookup w g gpa; Some (phys_read w hpa 4).
Definition guest_read_u16 (w : kmem) (g : gstage_ctx_t) (gpa : Z) : option Z :=
  hpa ← rv_gstage_lookup w g gpa; Some (phys_read w hpa 2).

(** The walk of the guest's page table from the level below [n] down. *)
Fixpoint va_walk (n : nat) (w : kmem) (g : gstage_ctx_t) (va table_gpa : Z) : option Z :=
  match n with
  | O => None
  | S level =>
      let vpn := RV_PTE_INDEX va (Z.of_nat level) in
      match guest_read_u64 w g (u64 (table_gpa + vpn * 8)) with
      | None => None
      | Some pte =>
          if Z.land pte RV_PTE_V =? 0 then None
          else if negb (Z.land pte RV_PTE_W =? 0) && (Z.land pte RV_PTE_R =? 0) then None
          else if negb (Z.land pte (Z.lor RV_PTE_R RV_PTE_X) =? 0) then
            let ppn := Z.land (Z.shiftr pte RV_PTE_PPN_SHIFT) RV_PTE_PPN_MASK in
            Some (Z.lor (Z.shiftl ppn PAGE_SHIFT) (Z.land va (Z.shiftl 1 (PAGE_SHIFT + 9 * Z.of_nat level) - 1)))
          else va_walk level w g va (RV_PTE_TO_PA pte)
      end
  end.

Definition guest_va_to_gpa (w : kmem) (g : gstage_ctx_t) (v : vcpu_t) (va : Z) : option Z :=
  let satp := vc_vsatp v in
  let mode := Z.shiftr satp 60 in
  let walk levels :=
    if satp =? 0 then Some va
    else va_walk levels w g va (u64 (Z.shiftl (Z.land satp RV_SATP_PPN_MASK) PAGE_SHIFT)) in
  if mode =? RV_SATP_MODE_SV39_NUM then walk 3%nat
  else if mode =? RV_SATP_MODE_SV48_NUM then walk 4%nat
  else if mode =? RV_SATP_MODE_SV57_NUM then walk 5%nat
  else Some va.

(** ** Decoding *)

Record mmio_access_t := mk_acc { ac_write : bool; ac_size : Z; ac_reg : Z; ac_len : Z }.

Definition decode_compressed_mmio (inst : Z) (is_store : bool) : option mmio_access_t :=
  let opcode := Z.land inst 3 in
  let funct3 := Z.land (Z.shiftr inst 13) 7 in
  if negb is_store then
    if (opcode =? 0) && ((funct3 =? 2) || (funct3 =? 3))
    then Some (mk_acc false (if funct3 =? 2 then 4 else 8) (Z.land (Z.shiftr inst 2) 7 + 8) 2)
    else if (opcode =? 2) && ((funct3 =? 2) || (funct3 =? 3))
    then Some (mk_acc false (if funct3 =? 2 then 4 else 8) (Z.land (Z.shiftr inst 7) 31) 2)
    else None
  else
    if (opcode =? 0) && ((funct3 =? 6) || (funct3 =? 7))
    then Some (mk_acc true (if funct3 =? 6 then 4 else 8) (Z.land (Z.shiftr inst 2) 7 + 8) 2)
    else if (opcode =? 2) && ((funct3 =? 6) || (funct3 =? 7))
    then Some (mk_acc true (if funct3 =? 6 then 4 else 8) (Z.land (Z.shiftr inst 2) 31) 2)
    else None.

(** The sizes by [funct3]; [None] is the default case. *)
Definition load_size (funct3 : Z) : option Z :=
  if (funct3 =? 0) || (funct3 =? 4) then Some 1
  else if (funct3 =? 1) || (funct3 =? 5) then Some 2
  else if (funct3 =? 2) || (funct3 =? 6) then Some 4
  else if funct3 =? 3 then Some 8
  else None.

Definition store_size (funct3 : Z) : option Z :=
  if funct3 =? 0 then Some 1 else if funct3 =? 1 then Some 2 else if funct3 =? 2 then Some 4 else if funct3 =? 3 then Some 8 else None.

Definition decode_mmio_access (inst : Z) (is_store : bool) : option mmio_access_t :=
  if negb (Z.land inst 3 =? 3) then decode_compressed_mmio (u16 inst) is_store
  else
    let w := u32 inst in
    let opcode := Z.land w 127 in
    let funct3 := Z.land (Z.shiftr w 12) 7 in
    if (opcode =? 3) && negb is_store then
      size ← load_size funct3; Some (mk_acc false size (Z.land (Z.shiftr w 7) 31) 4)
    else if (opcode =? 35) && is_store then
      size ← store_size funct3; Some (mk_acc true size (Z.land (Z.shiftr w 20) 31) 4)
    else None.

(** ** The handler *)

(** The instruction in memory, if it can be read. *)
Definition fetch (w : kmem) (g : gstage_ctx_t) (v : vcpu_t) : option Z :=
  pc_gpa ← guest_va_to_gpa w g v (vc_pc v);
  lo ← guest_read_u16 w g pc_gpa;
  if negb (Z.land lo 3 =? 3) then Some lo else guest_read_u32 w g pc_gpa.

Definition mmio_instruction (w : kmem) (g : gstage_ctx_t) (v : vcpu_t) : option Z :=
  match fetch w g v with
  | Some inst => Some inst
  | None => if negb (vc_htinst_save v =? 0) then Some (vc_htinst_save v) else None
  end.

Definition gstage_fault_gpa (v : vcpu_t) : Z :=
  Z.lor (u64 (Z.shiftl (vc_htval_save v) RV_GSTAGE_HTVAL_SHIFT)) (Z.land (vc_stval_save v) RV_PAGE_OFFSET_MASK).

Definition handle_gstage_fault (w : kmem) (g : gstage_ctx_t) (bus : mmio_bus_t rv_devs) (d : rv_devs) (v : vcpu_t) (code : Z)
  : Z * vcpu_t * rv_devs :=
  let gpa := gstage_fault_gpa v in
  let is_store := code =? 23 in
  match mmio_instruction w g v with
  | None => (EL2_EXIT, v, d)
  | Some inst =>
      match decode_mmio_access inst is_store with
      | None => (EL2_EXIT, v, d)
      | Some acc =>
          let value := if ac_write acc then aget 0 (vc_r v) (ac_reg acc) else 0 in
          match mmio_bus_handle bus d gpa (ac_write acc) (ac_size acc) value (vc_id v) with
          | None => (EL2_EXIT, v, d)
          | Some (out, d) =>
              let v := if negb (ac_write acc) && negb (ac_reg acc =? 0) then set_reg v (ac_reg acc) out else v in
              (EL2_RESUME, set_pc v (u64 (vc_pc v + ac_len acc)), d)
          end
      end
  end.

(** * The instruction set

    The loads and stores of RV64I and RV64C with integer registers, by the fields of their
    formats. *)

Inductive mem_inst :=
  | LOAD (funct3 rd rs1 imm : Z)
  | STORE (funct3 rs2 rs1 imm_hi imm_lo : Z)
  | CL (funct3 rd rs1 imm_hi imm_lo : Z)
  | CS (funct3 rs2 rs1 imm_hi imm_lo : Z)
  | CLSP (funct3 rd imm_hi imm_lo : Z)
  | CSSP (funct3 rs2 imm : Z).

Definition bits (n x : Z) : Prop := 0 <= x < 2 ^ n.

(** [C.LW] and [C.LD] have the functions 2 and 3, the stores 6 and 7. *)
Definition wf_inst (i : mem_inst) : Prop :=
  match i with
  | LOAD f rd rs1 imm => 0 <= f <= 6 /\ bits 5 rd /\ bits 5 rs1 /\ bits 12 imm
  | STORE f rs2 rs1 ih il => 0 <= f <= 3 /\ bits 5 rs2 /\ bits 5 rs1 /\ bits 7 ih /\ bits 5 il
  | CL f rd rs1 ih il => 2 <= f <= 3 /\ bits 3 rd /\ bits 3 rs1 /\ bits 3 ih /\ bits 2 il
  | CS f rs2 rs1 ih il => 6 <= f <= 7 /\ bits 3 rs2 /\ bits 3 rs1 /\ bits 3 ih /\ bits 2 il
  | CLSP f rd ih il => 2 <= f <= 3 /\ bits 5 rd /\ bits 1 ih /\ bits 5 il
  | CSSP f rs2 imm => 6 <= f <= 7 /\ bits 5 rs2 /\ bits 6 imm
  end.

Definition encode (i : mem_inst) : Z :=
  match i with
  | LOAD f rd rs1 imm => imm * 2 ^ 20 + rs1 * 2 ^ 15 + f * 2 ^ 12 + rd * 2 ^ 7 + 3
  | STORE f rs2 rs1 ih il => ih * 2 ^ 25 + rs2 * 2 ^ 20 + rs1 * 2 ^ 15 + f * 2 ^ 12 + il * 2 ^ 7 + 35
  | CL f rd rs1 ih il => f * 2 ^ 13 + ih * 2 ^ 10 + rs1 * 2 ^ 7 + il * 2 ^ 5 + rd * 2 ^ 2
  | CS f rs2 rs1 ih il => f * 2 ^ 13 + ih * 2 ^ 10 + rs1 * 2 ^ 7 + il * 2 ^ 5 + rs2 * 2 ^ 2
  | CLSP f rd ih il => f * 2 ^ 13 + ih * 2 ^ 12 + rd * 2 ^ 7 + il * 2 ^ 2 + 2
  | CSSP f rs2 imm => f * 2 ^ 13 + imm * 2 ^ 7 + rs2 * 2 ^ 2 + 2
  end.

Definition is_store_inst (i : mem_inst) : bool :=
  match i with STORE _ _ _ _ _ | CS _ _ _ _ _ | CSSP _ _ _ => true | _ => false end.

(** The number of bytes: 1, 2, 4 or 8 by the low two bits of the function. *)
Definition inst_size (i : mem_inst) : Z :=
  match i with LOAD f _ _ _ | STORE f _ _ _ _ | CL f _ _ _ _ | CS f _ _ _ _ | CLSP f _ _ _ | CSSP f _ _ => 2 ^ (f mod 4) end.

(** The register that is loaded or stored; the compressed formats name x8 to x15 by three
    bits. *)
Definition inst_reg (i : mem_inst) : Z :=
  match i with LOAD _ r _ _ | STORE _ r _ _ _ | CLSP _ r _ _ | CSSP _ r _ => r | CL _ r _ _ _ | CS _ r _ _ _ => r + 8 end.

Definition inst_len (i : mem_inst) : Z := match i with LOAD _ _ _ _ | STORE _ _ _ _ _ => 4 | _ => 2 end.

Definition inst_access (i : mem_inst) : mmio_access_t := mk_acc (is_store_inst i) (inst_size i) (inst_reg i) (inst_len i).

(** Instructions of 32 bits have 3 in the low bits; the others are in the low half word. *)
Definition inst_word (inst : Z) : Z := if inst mod 4 =? 3 then inst else inst mod 2 ^ 16.

(** * Properties *)

(** ** The decoder *)

Ltac zdiv := Z.div_mod_to_equations; lia.

Lemma land_3 x : Z.land x 3 = x mod 4.
Proof. apply (Z.land_ones x 2). lia. Qed.
Lemma land_7 x : Z.land x 7 = x mod 8.
Proof. apply (Z.land_ones x 3). lia. Qed.
Lemma land_31 x : Z.land x 31 = x mod 32.
Proof. apply (Z.land_ones x 5). lia. Qed.
Lemma land_127 x : Z.land x 127 = x mod 128.
Proof. apply (Z.land_ones x 7). lia. Qed.

Lemma size_word_double k f : f = k \/ f = k + 1 -> k = 2 \/ k = 6 -> (if f =? k then 4 else 8) = 2 ^ (f mod 4).
Proof. intros [-> | ->] [-> | ->]; reflexivity. Qed.

(** The fields of a half word in the two layouts of the compressed formats. *)
Lemma fields_reg inst :
  0 <= inst < 2 ^ 16 -> inst mod 4 = 0 ->
  inst = inst / 8192 mod 8 * 2 ^ 13 + inst / 1024 mod 8 * 2 ^ 10 + inst / 128 mod 8 * 2 ^ 7 + inst / 32 mod 4 * 2 ^ 5 + inst / 4 mod 8 * 2 ^ 2.
Proof. intros. zdiv. Qed.
Lemma fields_lsp inst :
  0 <= inst < 2 ^ 16 -> inst mod 4 = 2 ->
  inst = inst / 8192 mod 8 * 2 ^ 13 + inst / 4096 mod 2 * 2 ^ 12 + inst / 128 mod 32 * 2 ^ 7 + inst / 4 mod 32 * 2 ^ 2 + 2.
Proof. intros. zdiv. Qed.
Lemma fields_ssp inst :
  0 <= inst < 2 ^ 16 -> inst mod 4 = 2 ->
  inst = inst / 8192 mod 8 * 2 ^ 13 + inst / 128 mod 64 * 2 ^ 7 + inst / 4 mod 32 * 2 ^ 2 + 2.
Proof. intros. zdiv. Qed.

(** What the decoder reads of an encoding. *)
Lemma encode_fields i :
  wf_inst i -> inst_len i = 2 ->
  0 <= encode i < 2 ^ 16 /\
  match i with
  | LOAD _ _ _ _ | STORE _ _ _ _ _ => False
  | CL f r _ _ _ | CS f r _ _ _ => encode i mod 4 = 0 /\ encode i / 8192 mod 8 = f /\ encode i / 4 mod 8 = r
  | CLSP f r _ _ => encode i mod 4 = 2 /\ encode i / 8192 mod 8 = f /\ encode i / 128 mod 32 = r
  | CSSP f r _ => encode i mod 4 = 2 /\ encode i / 8192 mod 8 = f /\ encode i / 4 mod 32 = r
  end.
Proof. destruct i; unfold wf_inst, bits; cbn [inst_len]; intros Hw Hl; try done; cbn [encode]; split; zdiv. Qed.

Ltac fields := unfold wf_inst, bits; split_and!; first [lia | apply Z.mod_pos_bound; lia | zdiv].

Lemma decode_compressed_iff inst st acc :
  0 <= inst < 2 ^ 16 ->
  decode_compressed_mmio inst st = Some acc <->
  exists i, wf_inst i /\ inst_len i = 2 /\ is_store_inst i = st /\ encode i = inst /\ acc = inst_access i.
Proof.
  intros Hr. unfold decode_compressed_mmio. rewrite land_3, !land_7, !land_31, !Z.shiftr_div_pow2 by lia.
  change (2 ^ 13) with 8192. change (2 ^ 2) with 4. change (2 ^ 7) with 128. split.
  - destruct st; cbn [negb];
      (destruct (inst mod 4 =? 0) eqn:E0; [|destruct (inst mod 4 =? 2) eqn:E2]); cbn [andb]; try done.
    all: match goal with |- context [if ?b then _ else _] => destruct b eqn:Ef end; try done; try (rewrite (proj2 (Z.eqb_neq _ 2)) by lia; done).
    all: intros [= <-].
    + exists (CS (inst / 8192 mod 8) (inst / 4 mod 8) (inst / 128 mod 8) (inst / 1024 mod 8) (inst / 32 mod 4)).
      rewrite (size_word_double 6) by lia. split; [fields|]. split; [done|]. split; [done|]. split; [symmetry; apply fields_reg; lia|done].
    + exists (CSSP (inst / 8192 mod 8) (inst / 4 mod 32) (inst / 128 mod 64)).
      rewrite (size_word_double 6) by lia. split; [fields|]. split; [done|]. split; [done|]. split; [symmetry; apply fields_ssp; lia|done].
    + exists (CL (inst / 8192 mod 8) (inst / 4 mod 8) (inst / 128 mod 8) (inst / 1024 mod 8) (inst / 32 mod 4)).
      rewrite (size_word_double 2) by lia. split; [fields|]. split; [done|]. split; [done|]. split; [symmetry; apply fields_reg; lia|done].
    + exists (CLSP (inst / 8192 mod 8) (inst / 128 mod 32) (inst / 4096 mod 2) (inst / 4 mod 32)).
      rewrite (size_word_double 2) by lia. split; [fields|]. split; [done|]. split; [done|]. split; [symmetry; apply fields_lsp; lia|done].
  - intros (i & Hw & Hl & <- & <- & ->). destruct (encode_fields i Hw Hl) as [_ He]. destruct i; try done; destruct He as (E0 & Ef & Er);
      rewrite E0, ?Ef, Er; cbn [is_store_inst negb]; unfold wf_inst in Hw; cbn [Z.eqb Pos.eqb andb].
    all: match goal with |- context [if ?b then Some _ else _] => replace b with true by lia end.
    all: unfold inst_access; cbn [is_store_inst inst_size inst_reg inst_len]; first [rewrite (size_word_double 2) by lia | rewrite (size_word_double 6) by lia]; done.
Qed.

Lemma load_size_spec f : 0 <= f <= 7 -> load_size f = if f =? 7 then None else Some (2 ^ (f mod 4)).
Proof.
  intros. assert (f = 0 \/ f = 1 \/ f = 2 \/ f = 3 \/ f = 4 \/ f = 5 \/ f = 6 \/ f = 7) as Hf by lia.
  repeat (destruct Hf as [->|Hf]; [reflexivity|]). by subst f.
Qed.
Lemma store_size_spec f : 0 <= f <= 7 -> store_size f = if 3 <? f then None else Some (2 ^ (f mod 4)).
Proof.
  intros. assert (f = 0 \/ f = 1 \/ f = 2 \/ f = 3 \/ f = 4 \/ f = 5 \/ f = 6 \/ f = 7) as Hf by lia.
  repeat (destruct Hf as [->|Hf]; [reflexivity|]). by subst f.
Qed.

Lemma fields_load inst :
  0 <= inst < 2 ^ 32 -> inst mod 128 = 3 ->
  inst = inst / 2 ^ 20 * 2 ^ 20 + inst / 2 ^ 15 mod 32 * 2 ^ 15 + inst / 4096 mod 8 * 2 ^ 12 + inst / 128 mod 32 * 2 ^ 7 + 3.
Proof. intros. zdiv. Qed.
Lemma fields_store inst :
  0 <= inst < 2 ^ 32 -> inst mod 128 = 35 ->
  inst = inst / 2 ^ 25 * 2 ^ 25 + inst / 1048576 mod 32 * 2 ^ 20 + inst / 2 ^ 15 mod 32 * 2 ^ 15 + inst / 4096 mod 8 * 2 ^ 12 + inst / 128 mod 32 * 2 ^ 7 + 35.
Proof. intros. zdiv. Qed.

Lemma encode_fields_long i :
  wf_inst i -> inst_len i = 4 ->
  0 <= encode i < 2 ^ 32 /\ encode i mod 4 = 3 /\
  match i with
  | LOAD f r _ _ => encode i mod 128 = 3 /\ encode i / 4096 mod 8 = f /\ encode i / 128 mod 32 = r
  | STORE f r _ _ _ => encode i mod 128 = 35 /\ encode i / 4096 mod 8 = f /\ encode i / 1048576 mod 32 = r
  | _ => False
  end.
Proof. destruct i; unfold wf_inst, bits; cbn [inst_len]; intros Hw Hl; try done; cbn [encode]; (split; [|split]); zdiv. Qed.

Lemma decode_long_iff inst st acc :
  0 <= inst < 2 ^ 32 -> inst mod 4 = 3 ->
  decode_mmio_access inst st = Some acc <->
  exists i, wf_inst i /\ inst_len i = 4 /\ is_store_inst i = st /\ encode i = inst /\ acc = inst_access i.
Proof.
  intros Hr H3. unfold decode_mmio_access. rewrite land_3, H3. cbn [Z.eqb Pos.eqb negb]. rewrite u32_id by lia. cbv zeta.
  rewrite land_127, land_7, !land_31, !Z.shiftr_div_pow2 by lia. change (2 ^ 12) with 4096. change (2 ^ 7) with 128. change (2 ^ 20) with 1048576.
  rewrite load_size_spec, store_size_spec by zdiv. split.
  - destruct (inst mod 128 =? 3) eqn:El; [|destruct (inst mod 128 =? 35) eqn:Es]; destruct st; cbn [andb negb]; try done.
    + rewrite (proj2 (Z.eqb_neq _ 35)) by lia. done.
    + destruct (inst / 4096 mod 8 =? 7) eqn:Ef; cbn [mbind option_bind]; [done|]. intros [= <-].
      exists (LOAD (inst / 4096 mod 8) (inst / 128 mod 32) (inst / 2 ^ 15 mod 32) (inst / 2 ^ 20)).
      split; [fields|]. split; [done|]. split; [done|]. split; [symmetry; apply fields_load; lia|done].
    + destruct (3 <? inst / 4096 mod 8) eqn:Ef; cbn [mbind option_bind]; [done|]. intros [= <-].
      exists (STORE (inst / 4096 mod 8) (inst / 1048576 mod 32) (inst / 2 ^ 15 mod 32) (inst / 2 ^ 25) (inst / 128 mod 32)).
      split; [fields|]. split; [done|]. split; [done|]. split; [symmetry; apply fields_store; lia|done].
  - intros (i & Hw & Hl & <- & <- & ->). destruct (encode_fields_long i Hw Hl) as (_ & _ & He). destruct i; try done; destruct He as (Eo & Ef & Er);
      rewrite Eo, Ef, Er; cbn [is_store_inst negb Z.eqb Pos.eqb andb]; unfold wf_inst in Hw.
    + rewrite (proj2 (Z.eqb_neq _ 7)) by lia. done.
    + rewrite (proj2 (Z.ltb_ge 3 _)) by lia. done.
Qed.

Lemma decode_iff inst st acc :
  0 <= inst < 2 ^ 32 ->
  decode_mmio_access inst st = Some acc <->
  exists i, wf_inst i /\ is_store_inst i = st /\ encode i = inst_word inst /\ acc = inst_access i.
Proof.
  intros Hr. unfold inst_word. destruct (Z.eqb_spec (inst mod 4) 3) as [H3|H3].
  - rewrite (decode_long_iff inst st acc) by done. split; intros (i & Hw & H).
    + exists i. tauto.
    + exists i. destruct H as (Hs & He & Ha). split; [done|]. split; [|done].
      destruct (decide (inst_len i = 4)) as [|Hl]; [done|]. destruct (encode_fields i Hw) as [_ Hf]; [by destruct i|].
      rewrite He in Hf. destruct i; lia.
  - unfold decode_mmio_access. rewrite land_3, (proj2 (Z.eqb_neq _ 3)) by done. cbn [negb]. change (u16 inst) with (inst mod 2 ^ 16).
    rewrite (decode_compressed_iff (inst mod 2 ^ 16) st acc) by (apply Z.mod_pos_bound; lia). split; intros (i & Hw & H).
    + exists i. tauto.
    + exists i. destruct H as (Hs & He & Ha). split; [done|]. split; [|done].
      destruct (decide (inst_len i = 2)) as [|Hl]; [done|]. destruct (encode_fields_long i Hw) as (_ & Hm & _); [by destruct i|].
      rewrite He in Hm. exfalso. apply H3. rewrite <- Hm. zdiv.
Qed.



(** ** The devices *)

Definition rd_inv (d : rv_devs) : Prop := uart_inv (rd_uart d) /\ vplic_inv (rd_plic d).

#[export] Instance uart16550_device : mmio_device rd_inv g_uart16550_ops.
Proof.
  split; [cbn; lia|..]; intros d off size.
  - intros v vcpu [Hu Hp] _. unfold dev_write. cbn [g_uart16550_ops ops_write_for_vcpu ops_write].
    pose proof (Uart16550.uart_write_spec (rd_owned d) (rd_uart d) off size v Hu) as H. destruct (uart16550_write _ _ _ _ _) as [u l].
    by destruct H as (_ & ? & _).
  - intros vcpu [Hu Hp] _. unfold dev_read. cbn [g_uart16550_ops ops_read_for_vcpu ops_read].
    pose proof (Uart16550.uart_read_spec (rd_uart d) off size Hu) as H. destruct (uart16550_read _ _ _) as [x u].
    destruct H as (_ & ? & _ & Hb & _). unfold byte in Hb. split; [cbn; lia|done].
Qed.

#[export] Instance vplic_device : mmio_device rd_inv g_vplic_ops.
Proof.
  split; [cbn; lia|..]; intros d off size.
  - intros v vcpu [Hu Hp] _. split; [done|]. by apply write_inv.
  - intros vcpu [Hu Hp] Ho. unfold dev_read. cbn [g_vplic_ops ops_read_for_vcpu ops_read].
    destruct (Vplic.read_spec (rd_plic d) off size Hp) as (x & p & -> & Hx & Hp'); [by apply Ho|]. split; [cbn; lia|done].
Qed.

Lemma rv_bus_devices : rv_bus = [g_uart16550_ops; g_vplic_ops] /\ Forall (mmio_device rd_inv) rv_bus.
Proof. split; [done|]. constructor; [apply _|]. constructor; [apply _|done]. Qed.

(** The windows of the bus. *)
Definition device_gpa (gpa : Z) : Prop := window_of g_uart16550_ops gpa \/ window_of g_vplic_ops gpa.

(** ** The handler *)

Definition regs_ok (v : vcpu_t) : Prop := length (vc_r v) = 32%nat /\ Forall (fun x => 0 <= x < U64_MOD) (vc_r v).

Lemma byte_at_range w a : 0 <= byte_at w a < 256.
Proof. unfold byte_at. change 255 with (Z.ones 8). rewrite Z.land_ones by lia. apply Z.mod_pos_bound. lia. Qed.

Lemma phys_read_range w n : forall a, 0 <= phys_read w a n < 256 ^ Z.of_nat n.
Proof.
  induction n as [|n IH]; intros a; cbn [phys_read]; [lia|]. specialize (IH (a + 1)). pose proof (byte_at_range w a).
  rewrite Nat2Z.inj_succ, Z.pow_succ_r by lia. lia.
Qed.

Lemma mmio_instruction_range w g v inst : 0 <= vc_htinst_save v < 2 ^ 32 -> mmio_instruction w g v = Some inst -> 0 <= inst < 2 ^ 32.
Proof.
  intros Hh. unfold mmio_instruction, fetch, guest_read_u16, guest_read_u32. destruct (guest_va_to_gpa _ _ _ _) as [gpa|]; cbn [mbind option_bind].
  2: { case_if; congruence. }
  destruct (rv_gstage_lookup w g gpa) as [hpa|]; cbn [mbind option_bind]; [|case_if; congruence].
  pose proof (phys_read_range w 2 hpa : 0 <= _ < 65536). pose proof (phys_read_range w 4 hpa : 0 <= _ < 4294967296).
  case_if; intros E'; apply (inj Some) in E' as <-; lia.
Qed.

Lemma inst_reg_range i : wf_inst i -> 0 <= inst_reg i < 32.
Proof. destruct i; unfold wf_inst, bits; cbn [inst_reg]; lia. Qed.

Lemma set_reg_ok v r x : regs_ok v -> 0 <= x < U64_MOD -> regs_ok (set_reg v r x).
Proof. intros [Hl Hall] Hx. split; cbn; [by rewrite length_aset|]. by apply Forall_insert. Qed.

(** The instruction at fault, when it is a load or store of the direction of the cause. *)
Definition faulting (w : kmem) (g : gstage_ctx_t) (v : vcpu_t) (code : Z) (i : mem_inst) : Prop :=
  exists inst, mmio_instruction w g v = Some inst /\ wf_inst i /\ is_store_inst i = (code =? 23) /\ encode i = inst_word inst.

(** What the handler does once the instruction is known. *)
Definition access_result (d : rv_devs) (v : vcpu_t) (i : mem_inst) (out : Z) (d' : rv_devs) (v' : vcpu_t) : Prop :=
  mmio_bus_handle rv_bus d (gstage_fault_gpa v) (is_store_inst i) (inst_size i)
    (if is_store_inst i then aget 0 (vc_r v) (inst_reg i) else 0) (vc_id v) = Some (out, d') /\
  v' = set_pc (if is_store_inst i || (inst_reg i =? 0) then v else set_reg v (inst_reg i) out) (u64 (vc_pc v + inst_len i)).

Lemma fault_known w g d v code i :
  0 <= vc_htinst_save v < 2 ^ 32 -> faulting w g v code i ->
  match mmio_bus_handle rv_bus d (gstage_fault_gpa v) (is_store_inst i) (inst_size i)
          (if is_store_inst i then aget 0 (vc_r v) (inst_reg i) else 0) (vc_id v) with
  | None => handle_gstage_fault w g rv_bus d v code = (EL2_EXIT, v, d)
  | Some (out, d') => exists v', handle_gstage_fault w g rv_bus d v code = (EL2_RESUME, v', d') /\ access_result d v i out d' v'
  end.
Proof.
  intros Hh (inst & Em & Hw & Hs & He). unfold handle_gstage_fault, access_result. rewrite Em.
  assert (decode_mmio_access inst (code =? 23) = Some (inst_access i)) as ->.
  { apply decode_iff; [by eapply mmio_instruction_range|]. by exists i. }
  cbn [inst_access ac_write ac_size ac_reg ac_len]. destruct (mmio_bus_handle _ _ _ _ _ _ _) as [[out d']|]; [|done].
  eexists. split; [reflexivity|]. split; [done|]. by destruct (is_store_inst i), (inst_reg i =? 0).
Qed.

Lemma fault_unknown w g d v code :
  0 <= vc_htinst_save v < 2 ^ 32 -> (forall i, ~ faulting w g v code i) -> handle_gstage_fault w g rv_bus d v code = (EL2_EXIT, v, d).
Proof.
  intros Hh Hno. unfold handle_gstage_fault. destruct (mmio_instruction w g v) as [inst|] eqn:Em; [|done].
  destruct (decode_mmio_access inst (code =? 23)) as [acc|] eqn:Ed; [|done]. exfalso.
  apply decode_iff in Ed as (i & Hw & Hs & He & _); [|by eapply mmio_instruction_range]. apply (Hno i). by exists inst.
Qed.

Lemma fault_dec w g v code :
  0 <= vc_htinst_save v < 2 ^ 32 -> (exists i, faulting w g v code i) \/ (forall i, ~ faulting w g v code i).
Proof.
  intros Hh. destruct (mmio_instruction w g v) as [inst|] eqn:Em; [|right; intros i (inst & ? & _); congruence].
  pose proof (mmio_instruction_range _ _ _ _ Hh Em) as Hr. destruct (decode_mmio_access inst (code =? 23)) as [acc|] eqn:Ed.
  - left. apply (decode_iff inst _ _ Hr) in Ed as (i & Hw & Hs & He & _). exists i. by exists inst.
  - right. intros i (inst0 & E0 & Hw & Hs & He). assert (inst0 = inst) as -> by congruence.
    assert (decode_mmio_access inst (code =? 23) = Some (inst_access i)) by (apply decode_iff; [done|by exists i]). congruence.
Qed.

Lemma bus_answers d gpa st size value id :
  mmio_bus_handle rv_bus d gpa st size value id <> None <-> device_gpa gpa.
Proof.
  destruct rv_bus_devices as [Eb Hb]. pose proof (mmio_bus_handle_first rd_inv rv_bus d gpa st size value id Hb) as H.
  destruct (mmio_bus_handle rv_bus d gpa st size value id) as [r|].
  - split; [intros _|done]. destruct H as (k & dv & Hk & Hwin & _). rewrite Eb in Hk. unfold device_gpa.
    destruct k as [|[|]]; cbn in Hk; simplify_eq; auto.
  - split; [done|]. intros [Hu|Hp] _; eapply H; [|exact Hu| |exact Hp]; rewrite Eb; set_solver.
Qed.

Lemma mmio_fault_spec w g d v code :
  rd_inv d -> regs_ok v -> 0 <= vc_htinst_save v < 2 ^ 32 ->
  exists rc v' d', handle_gstage_fault w g rv_bus d v code = (rc, v', d') /\ rd_inv d' /\ regs_ok v' /\
    (rc = EL2_EXIT /\ v' = v /\ d' = d \/ rc = EL2_RESUME /\ exists i out, faulting w g v code i /\ access_result d v i out d' v') /\
    (rc = EL2_RESUME <-> (exists i, faulting w g v code i) /\ device_gpa (gstage_fault_gpa v)).
Proof.
  intros Hd Hv Hh. destruct (fault_dec w g v code Hh) as [[i Hi]|Hno].
  2: { exists EL2_EXIT, v, d. rewrite fault_unknown by done. do 3 (split; [done|]). split; [by left|]. split; [done|]. intros [[i Hi] _]. by destruct (Hno i). }
  pose proof (fault_known w g d v code i Hh Hi) as Hk.
  pose proof (bus_answers d (gstage_fault_gpa v) (is_store_inst i) (inst_size i) (if is_store_inst i then aget 0 (vc_r v) (inst_reg i) else 0) (vc_id v)) as Ha.
  destruct (mmio_bus_handle _ _ _ _ _ _ _) as [[out d']|] eqn:Eb.
  - destruct Hk as (v' & E & Hres). exists EL2_RESUME, v', d'. split; [done|].
    destruct (mmio_bus_handle_inv rd_inv rv_bus d _ _ _ _ _ _ _ (proj2 rv_bus_devices) Hd Eb) as [Hout Hd'].
    split; [done|]. split; [|split; [eauto 10|]].
    + destruct Hres as [_ ->]. change (regs_ok (if is_store_inst i || (inst_reg i =? 0) then v else set_reg v (inst_reg i) out)). case_if; [done|]. by apply set_reg_ok.
    + split; [intros _|done]. split; [eauto|]. by apply Ha.
  - exists EL2_EXIT, v, d. do 3 (split; [done|]). split; [by left|]. split; [done|]. intros [_ Hg%Ha]. done.
Qed.

(** An access of a guest to a device.  The machine goes on exactly when the instruction
    at fault is a load or store and the address belongs to a device of the bus; otherwise
    nothing changes.  When it goes on, the access went to the device with the width and the
    value of the instruction, the program counter is behind the instruction, and only the
    register of a load other than x0 has changed, to the value the device gave.  In every
    case the registers stay 64-bit words and the devices well formed, whatever the guest
    does. *)
Theorem mmio_fault_correct w g d v code :
  rd_inv d -> regs_ok v -> 0 <= vc_htinst_save v < 2 ^ 32 ->
  exists rc v' d', handle_gstage_fault w g rv_bus d v code = (rc, v', d') /\ rd_inv d' /\ regs_ok v' /\
    (rc = EL2_EXIT /\ v' = v /\ d' = d \/ rc = EL2_RESUME /\ exists i out, faulting w g v code i /\ access_result d v i out d' v') /\
    (rc = EL2_RESUME <-> (exists i, faulting w g v code i) /\ device_gpa (gstage_fault_gpa v)).
Proof. apply mmio_fault_spec. Qed.

(** ** What the instruction set asks of a load *)

(** [x] of [n] bits as a 64-bit word, by its sign. *)
Definition sext (n x : Z) : Z := if x <? 2 ^ (n - 1) then x else x + U64_MOD - 2 ^ n.

(** The register after a load of [x]: the functions 0 to 2 and the compressed word load
    extend the sign, the functions 4 to 6 extend with zeros. *)
Definition loaded (i : mem_inst) (x : Z) : Z :=
  match i with
  | LOAD f _ _ _ => if f <? 3 then sext (8 * inst_size i) x else x
  | CL f _ _ _ _ | CLSP f _ _ _ => if f =? 2 then sext 32 x else x
  | _ => x
  end.

(** A signed load from a device is not sign-extended.  Where the instruction is a word
    load and the device gives a word with bit 31 set, the handler leaves that word in the
    register with zeros above it, while the instruction set asks for ones. *)
Theorem mmio_word_load_not_sign_extended w g d v code rd rs1 imm out d' v' :
  regs_ok v -> rd <> 0 -> wf_inst (LOAD 2 rd rs1 imm) -> 2 ^ 31 <= out < 2 ^ 32 ->
  0 <= vc_htinst_save v < 2 ^ 32 -> faulting w g v code (LOAD 2 rd rs1 imm) ->
  mmio_bus_handle rv_bus d (gstage_fault_gpa v) false 4 0 (vc_id v) = Some (out, d') ->
  handle_gstage_fault w g rv_bus d v code = (EL2_RESUME, v', d') ->
  aget 0 (vc_r v') rd = out /\ loaded (LOAD 2 rd rs1 imm) out = out + (2 ^ 64 - 2 ^ 32).
Proof.
  intros [Hl _] Hrd Hw Hout Hh Hi Eb E. pose proof (fault_known w g d v code _ Hh Hi) as H. cbn [is_store_inst inst_size inst_reg] in H.
  change (2 ^ (2 mod 4)) with 4 in H. rewrite Eb in H. destruct H as (v1 & E1 & [_ ->]). rewrite E in E1. simplify_eq.
  unfold wf_inst, bits in Hw. cbn [is_store_inst inst_reg orb]. rewrite (proj2 (Z.eqb_neq rd 0)) by done. split.
  - cbn. apply aget_aset_eq. lia.
  - unfold loaded. cbn [Z.ltb Z.compare Pos.compare Pos.compare_cont inst_size]. change (8 * 2 ^ (2 mod 4)) with 32. unfold sext.
    change (2 ^ (32 - 1)) with 2147483648. rewrite (proj2 (Z.ltb_ge _ _)) by lia. lia.
Qed.

(** ** A guest that loads the enable register of the interrupt controller

    Source 31 is enabled for CPU 0; the instruction is [lw a0, 0(a1)] at a place the handler
    cannot read, so it takes the copy the hart left in htinst. *)

Definition demo_plic31 : vplic_state_t := vplic_write (vplic_fresh 1 1) 8192 4 (2 ^ 31).
Definition demo_devs : rv_devs :=
  mk_devs (mk_uart 1 0 0 0 0 0 0 0 (ring_zero RX_FIFO_SIZE) 0 (ring_zero TX_FIFO_SIZE)) demo_plic31 0 [].
Definition demo_cpu : vcpu_t := mk_vcpu 0 (replicate 32 0) 0 0 (mk_vs 0 0 0 0 0) 21 0 ((VPLIC_BASE + 8192) / 4) (encode (LOAD 2 10 11 0)) 0 (mk_sbi 0 0 0 0 0 0) 1.
Definition demo_mem : kmem := demo_full.1.2.
Definition demo_ctx : gstage_ctx_t := demo_full.2.

Lemma demo_devs_inv : rd_inv demo_devs.
Proof. split; [apply uart_fresh_inv|]. by apply write_inv, vplic_fresh_inv. Qed.

Lemma demo_cpu_ok : regs_ok demo_cpu.
Proof. split; [reflexivity|]. apply Forall_replicate. lia. Qed.

Lemma demo_faulting : faulting demo_mem demo_ctx demo_cpu 21 (LOAD 2 10 11 0).
Proof. exists (encode (LOAD 2 10 11 0)). split; [vm_compute; reflexivity|]. split; [unfold wf_inst, bits; lia|]. split; reflexivity. Qed.

Lemma mmio_fault_correct_witness :
  exists v' d', handle_gstage_fault demo_mem demo_ctx rv_bus demo_devs demo_cpu 21 = (EL2_RESUME, v', d') /\ rd_inv d' /\ regs_ok v'.
Proof.
  destruct (mmio_fault_correct demo_mem demo_ctx demo_devs demo_cpu 21 demo_devs_inv demo_cpu_ok) as (rc & v' & d' & E & Hd & Hv & _ & Hiff);
    [vm_compute; split; congruence|].
  assert (rc = EL2_RESUME) as ->.
  { apply Hiff. split; [exists (LOAD 2 10 11 0); exact demo_faulting|]. right. vm_compute. split; congruence. }
  exists v', d'. split; [exact E|]. split; [exact Hd|exact Hv].
Defined.

Lemma mmio_word_load_not_sign_extended_witness :
  exists v' d', handle_gstage_fault demo_mem demo_ctx rv_bus demo_devs demo_cpu 21 = (EL2_RESUME, v', d') /\
    aget 0 (vc_r v') 10 = 2147483648 /\ loaded (LOAD 2 10 11 0) 2147483648 = 18446744071562067968.
Proof.
  destruct (handle_gstage_fault demo_mem demo_ctx rv_bus demo_devs demo_cpu 21) as [[rc v'] d'] eqn:E.
  assert ((handle_gstage_fault demo_mem demo_ctx rv_bus demo_devs demo_cpu 21).1.1 = EL2_RESUME) as Er by (vm_compute; reflexivity).
  rewrite E in Er. cbn [fst] in Er. subst rc. exists v', d'. split; [reflexivity|].
  destruct (mmio_bus_handle rv_bus demo_devs (gstage_fault_gpa demo_cpu) false 4 0 0) as [[out d1]|] eqn:Eb; [|vm_compute in Eb; congruence].
  assert (option_map fst (mmio_bus_handle rv_bus demo_devs (gstage_fault_gpa demo_cpu) false 4 0 0) = Some 2147483648) as Eo by (vm_compute; reflexivity).
  rewrite Eb in Eo. injection Eo as ->.
  assert ((handle_gstage_fault demo_mem demo_ctx rv_bus demo_devs demo_cpu 21).2 = d1) as Ed.
  { pose proof (fault_known demo_mem demo_ctx demo_devs demo_cpu 21 _ ltac:(vm_compute; split; congruence) demo_faulting) as H.
    cbn [is_store_inst inst_size inst_reg] in H. change (2 ^ (2 mod 4)) with 4 in H. change (vc_id demo_cpu) with 0 in H. rewrite Eb in H. destruct H as (v1 & -> & _). reflexivity. }
  rewrite E in Ed. cbn [snd] in Ed. subst d1.
  destruct (mmio_word_load_not_sign_extended demo_mem demo_ctx demo_devs demo_cpu 21 10 11 0 2147483648 d' v') as [H1 H2];
    [exact demo_cpu_ok|lia|unfold wf_inst, bits; lia|lia|vm_compute; split; congruence|exact demo_faulting|exact Eb|exact E|].
  split; [exact H1|]. rewrite H2. reflexivity.
Defined.
