(* ===== verification/HextSbi.v ===== *)
(** * Exits of riscv64 guests: kernel/vmm/riscv64/hext_run.c, kernel/vmm/vcpu.c

    Everything a guest can do to leave guest mode: interrupts, WFI, the calls of the
    Supervisor Binary Interface, faults of the second stage.  [vmm_arch_exit_handler] is
    put together here from the faults of Gstage.v and HextMmio.v and from the SBI calls.
    The second half of the file is the protocol by which one virtual CPU interrupts
    another. *)

From stdpp Require Import options.
From Stdlib Require Import Lia ZifyBool.
From S2P Require Import Prelude Pmm PhysMem PageTable Riscv64 Gstage MmioBus Ring Console Uart16550 Vplic HextMmio.

Abbreviation EL2_VMEXIT := 1.
Abbreviation MAX_VCPUS := 12.
Abbreviation VCPU_STATE_OFFLINE := 0.
Abbreviation VCPU_STATE_RUNNING := 1.
Abbreviation HSTATUS_SPVP := 256.
Abbreviation GUEST_ECALL_DONE := 1481310208.
Abbreviation GUEST_ECALL_PRINT := 1481310209.
Abbreviation SBI_SUCCESS := 0.
Abbreviation SBI_ERR_FAILED := 18446744073709551615.
Abbreviation SBI_ERR_NOT_SUPPORTED := 18446744073709551614.
Abbreviation SBI_ERR_INVALID_PARAM := 18446744073709551613.
Abbreviation SBI_ERR_ALREADY_AVAILABLE := 18446744073709551610.
Abbreviation SBI_LEGACY_SET_TIMER := 0.
Abbreviation SBI_LEGACY_CONSOLE_PUTCHAR := 1.
Abbreviation SBI_LEGACY_CONSOLE_GETCHAR := 2.
Abbreviation SBI_LEGACY_SHUTDOWN := 8.
Abbreviation SBI_EXT_BASE := 16.
Abbreviation SBI_EXT_TIME := 1414090053.
Abbreviation SBI_EXT_RFENCE := 1380339267.
Abbreviation SBI_EXT_IPI := 7557193.
Abbreviation SBI_EXT_HSM := 4739917.
Abbreviation SBI_EXT_SRST := 1397904212.
Abbreviation RV_REMOTE_FENCE_I := 1.
Abbreviation RV_REMOTE_SFENCE_VMA := 2.

(** The machine: its virtual CPUs, how many are in use, its devices. *)
Record rv_vm := mk_rvm { rm_vcpus : list vcpu_t; rm_nr_vcpus : Z; rm_devs : rv_devs }.

Definition vcpu_zero : vcpu_t :=
  mk_vcpu 0 (replicate 32 0) 0 0 (mk_vs 0 0 0 0 0) 0 0 0 0 0 (mk_sbi 0 0 0 0 0 0) VCPU_STATE_OFFLINE.
Definition cpu (m : rv_vm) (i : Z) : vcpu_t := aget vcpu_zero (rm_vcpus m) i.
Definition put_cpu (m : rv_vm) (i : Z) (v : vcpu_t) : rv_vm := mk_rvm (aset (rm_vcpus m) i v) (rm_nr_vcpus m) (rm_devs m).
Definition put_devs (m : rv_vm) (d : rv_devs) : rv_vm := mk_rvm (rm_vcpus m) (rm_nr_vcpus m) d.

Definition set_sbi (v : vcpu_t) (s : sbi_t) : vcpu_t :=
  mk_vcpu (vc_id v) (vc_r v) (vc_pc v) (vc_vsatp v) (vc_vs v) (vc_scause_save v) (vc_stval_save v) (vc_htval_save v) (vc_htinst_save v)
    (vc_hstatus_save v) s (vc_state v).
Definition set_deadline (v : vcpu_t) (t : Z) : vcpu_t :=
  let s := vc_sbi v in
  set_sbi v (mk_sbi t (sb_ipi_pending s) (sb_ipi_seq s) (sb_ipi_seq_at_entry s) (sb_ipi_injected s) (sb_remote_fence s)).
Definition set_ipi (v : vcpu_t) (pending seq at_entry injected : Z) : vcpu_t :=
  set_sbi v (mk_sbi (sb_timer_deadline (vc_sbi v)) pending seq at_entry injected (sb_remote_fence (vc_sbi v))).
Definition set_fence (v : vcpu_t) (f : Z) : vcpu_t :=
  let s := vc_sbi v in
  set_sbi v (mk_sbi (sb_timer_deadline s) (sb_ipi_pending s) (sb_ipi_seq s) (sb_ipi_seq_at_entry s) (sb_ipi_injected s) f).

(** ** Calls to other harts *)

Definition sbi_hart_in_mask (mask base hart : Z) : bool :=
  if base =? U64_MOD - 1 then true
  else if hart <? base then false
  else
    let bit := hart - base in
    if 64 <=? bit then false else negb (Z.land (Z.shiftr mask bit) 1 =? 0).

(** The critical section of [sbi_send_ipi_to]. *)
Definition send_ipi (v : vcpu_t) : vcpu_t :=
  let s := vc_sbi v in set_ipi v 1 (u64 (sb_ipi_seq s + 1)) (sb_ipi_seq_at_entry s) (sb_ipi_injected s).
Definition sbi_send_ipi_to (m : rv_vm) (hart : Z) : rv_vm := put_cpu m hart (send_ipi (cpu m hart)).

(** The critical section of [sbi_request_fence_to]. *)
Definition request_fence (req : Z) (v : vcpu_t) : vcpu_t := set_fence v (Z.lor (sb_remote_fence (vc_sbi v)) req).
Definition sbi_request_fence_to (m : rv_vm) (hart req : Z) : rv_vm := put_cpu m hart (request_fence req (cpu m hart)).

(** [for (i = 0; i < nr_vcpus; i++) if (sbi_hart_in_mask(mask, base, i)) f(i);] *)
Definition for_mask (m : rv_vm) (mask base : Z) (f : rv_vm -> Z -> rv_vm) : rv_vm :=
  foldl (fun m i => if sbi_hart_in_mask mask base i then f m i else m) m (seqZ 0 (rm_nr_vcpus m)).

Definition sbi_ipi_handler (m : rv_vm) (func mask base : Z) : Z * rv_vm :=
  if negb (func =? 0) then (SBI_ERR_NOT_SUPPORTED, m) else (SBI_SUCCESS, for_mask m mask base sbi_send_ipi_to).

Definition sbi_rfence_handler (m : rv_vm) (func mask base : Z) : Z * rv_vm :=
  let go req := (SBI_SUCCESS, for_mask m mask base (fun m i => sbi_request_fence_to m i req)) in
  if func =? 0 then go RV_REMOTE_FENCE_I
  else if (func =? 1) || (func =? 2) then go RV_REMOTE_SFENCE_VMA
  else if (3 <=? func) && (func <=? 6) then (SBI_SUCCESS, m)
  else (SBI_ERR_NOT_SUPPORTED, m).

(** The riscv64 part of [vmm_vcpu_start] (vcpu.c); the completion that lets the task of the
    CPU go is not modelled.  [false] is the return value -1. *)
Definition vmm_vcpu_start (v : vcpu_t) (entry context_id : Z) : bool * vcpu_t :=
  if entry =? 0 then (false, v)
  else if negb (vc_state v =? VCPU_STATE_OFFLINE) then (false, v)
  else
    let r := aset (aset (replicate 32 0) 10 (u64 (vc_id v))) 11 context_id in
    (true, mk_vcpu (vc_id v) r entry 0 (mk_vs entry 0 0 0 0) 0 0 0 0 HSTATUS_SPVP (mk_sbi 0 0 0 0 0 0) VCPU_STATE_RUNNING).

(** The error and the value of [*out]. *)
Definition sbi_hsm_handler (m : rv_vm) (self func hartid start opaque : Z) : Z * Z * rv_vm :=
  if rm_nr_vcpus m <=? hartid then (SBI_ERR_INVALID_PARAM, 0, m)
  else if func =? 0 then
    if hartid =? self then (SBI_ERR_ALREADY_AVAILABLE, 0, m)
    else if negb (vc_state (cpu m hartid) =? VCPU_STATE_OFFLINE) then (SBI_ERR_ALREADY_AVAILABLE, 0, m)
    else
      match vmm_vcpu_start (cpu m hartid) start opaque with
      | (false, _) => (SBI_ERR_FAILED, 0, m)
      | (true, v) => (SBI_SUCCESS, 0, put_cpu m hartid v)
      end
  else if func =? 1 then (SBI_ERR_NOT_SUPPORTED, 0, m)
  else if func =? 2 then (SBI_SUCCESS, if vc_state (cpu m hartid) =? VCPU_STATE_OFFLINE then 1 else 0, m)
  else (SBI_ERR_NOT_SUPPORTED, 0, m).

(** ** The SBI *)

Definition sbi_known_extension (ext : Z) : bool :=
  (ext =? SBI_EXT_BASE) || (ext =? SBI_EXT_TIME) || (ext =? SBI_EXT_RFENCE) || (ext =? SBI_EXT_IPI) || (ext =? SBI_EXT_HSM) ||
  (ext =? SBI_EXT_SRST) || (ext =? SBI_LEGACY_SET_TIMER) || (ext =? SBI_LEGACY_CONSOLE_PUTCHAR) ||
  (ext =? SBI_LEGACY_CONSOLE_GETCHAR) || (ext =? SBI_LEGACY_SHUTDOWN).

(** The value of a base call; [None] is the default case. *)
Definition sbi_base (func arg0 : Z) : option Z :=
  if func =? 0 then Some 2
  else if func =? 1 then Some 1096176722
  else if func =? 2 then Some 1
  else if (func =? 4) || (func =? 5) || (func =? 6) then Some 0
  else if func =? 3 then Some (if sbi_known_extension arg0 then 1 else 0)
  else None.

(** The character goes where the guest's own writes to the console go. *)
Definition sbi_console_putchar (m : rv_vm) (byte : Z) : rv_vm :=
  let d := rm_devs m in
  let '(u, l) := uart_put_char (rd_owned d) (rd_uart d) byte in
  put_devs m (mk_devs u (rd_plic d) (rd_owned d) (rd_klog d ++ l)).

(** [vcpu->r[10] = a0; vcpu->r[11] = a1;] *)
Definition sbi_ret (m : rv_vm) (k a0 a1 : Z) : rv_vm := put_cpu m k (set_reg (set_reg (cpu m k) 10 a0) 11 a1).

Definition handle_vs_ecall (m : rv_vm) (k : Z) : Z * rv_vm :=
  let r := vc_r (cpu m k) in
  let ext := aget 0 r 17 in
  let func := aget 0 r 16 in
  let arg0 := aget 0 r 10 in
  let m := put_cpu m k (set_pc (cpu m k) (u64 (vc_pc (cpu m k) + 4))) in
  if ext =? GUEST_ECALL_PRINT then (EL2_RESUME, m)
  else if ext =? GUEST_ECALL_DONE then (EL2_VMEXIT, m)
  else if ext =? SBI_LEGACY_SET_TIMER then (EL2_RESUME, put_cpu m k (set_deadline (cpu m k) arg0))
  else if ext =? SBI_LEGACY_CONSOLE_PUTCHAR then (EL2_RESUME, sbi_console_putchar m (u8 arg0))
  else if ext =? SBI_LEGACY_CONSOLE_GETCHAR then (EL2_RESUME, put_cpu m k (set_reg (cpu m k) 10 (U64_MOD - 1)))
  else if ext =? SBI_LEGACY_SHUTDOWN then (EL2_VMEXIT, m)
  else if ext =? SBI_EXT_BASE then
    match sbi_base func arg0 with
    | None => (EL2_RESUME, sbi_ret m k SBI_ERR_NOT_SUPPORTED 0)
    | Some value => (EL2_RESUME, sbi_ret m k SBI_SUCCESS value)
    end
  else if ext =? SBI_EXT_TIME then
    if func =? 0 then (EL2_RESUME, sbi_ret (put_cpu m k (set_deadline (cpu m k) arg0)) k SBI_SUCCESS 0)
    else (EL2_RESUME, sbi_ret m k SBI_ERR_NOT_SUPPORTED 0)
  else if ext =? SBI_EXT_IPI then
    let '(err, m) := sbi_ipi_handler m func arg0 (aget 0 r 11) in (EL2_RESUME, sbi_ret m k err 0)
  else if ext =? SBI_EXT_HSM then
    let '(err, out, m) := sbi_hsm_handler m (vc_id (cpu m k)) func arg0 (aget 0 r 11) (aget 0 r 12) in (EL2_RESUME, sbi_ret m k err out)
  else if ext =? SBI_EXT_RFENCE then
    let '(err, m) := sbi_rfence_handler m func arg0 (aget 0 r 11) in (EL2_RESUME, sbi_ret m k err 0)
  else if ext =? SBI_EXT_SRST then
    if func =? 0 then (EL2_VMEXIT, sbi_ret m k SBI_SUCCESS 0) else (EL2_RESUME, sbi_ret m k SBI_ERR_NOT_SUPPORTED 0)
  else (EL2_RESUME, sbi_ret m k SBI_ERR_NOT_SUPPORTED 0).

(** ** The exit handler *)

(** The guest's WFI; the sleep until there is work is not modelled. *)
Definition handle_wfi (m : rv_vm) (k : Z) : Z * rv_vm := (EL2_RESUME, put_cpu m k (set_pc (cpu m k) (u64 (vc_pc (cpu m k) + 4)))).

(** The memory, the second stage and the machine after an exit of CPU [k].  A host
    interrupt is dispatched by the host; [None] is the exhaustion of a loop of the page
    allocator. *)
Definition vmm_arch_exit_handler (w : kmem) (g : gstage_ctx_t) (m : rv_vm) (k : Z) : option (Z * kmem * gstage_ctx_t * rv_vm) :=
  let v := cpu m k in
  let cause := vc_scause_save v in
  let code := Z.land cause (U64_MOD / 2 - 1) in
  if negb (Z.shiftr cause 63 =? 0) then Some (EL2_RESUME, w, g, m)
  else if (code =? 2) || (code =? 22) then let '(rc, m) := handle_wfi m k in Some (rc, w, g, m)
  else if code =? 10 then let '(rc, m) := handle_vs_ecall m k in Some (rc, w, g, m)
  else if (code =? 20) || (code =? 21) || (code =? 23) then
    let gpa := gstage_fault_gpa v in
    if rv_gstage_ipa_is_ram g gpa then '(rc, w, g) ← handle_ram_fault w g gpa; Some (rc, w, g, m)
    else if code =? 20 then Some (EL2_EXIT, w, g, m)
    else let '(rc, v, d) := handle_gstage_fault w g rv_bus (rm_devs m) v code in Some (rc, w, g, put_devs (put_cpu m k v) d)
  else Some (EL2_EXIT, w, g, m).

(** ** Interrupts between virtual CPUs *)

(** The bit VSSIP written to the hart at entry, and the CPU. *)
Definition vcpu_software_irq_on_entry (v : vcpu_t) : bool * vcpu_t :=
  let s := vc_sbi v in
  let pending := negb (sb_ipi_pending s =? 0) in
  (pending, set_ipi v (sb_ipi_pending s) (sb_ipi_seq s) (sb_ipi_seq s) (if pending then 1 else 0)).

(** [vssip] is the bit of [hvip] at exit. *)
Definition vmm_arch_save_guest_ctx (v : vcpu_t) (vssip : bool) : vcpu_t :=
  let s := vc_sbi v in
  let pending := if negb (sb_ipi_injected s =? 0) && (sb_ipi_seq s =? sb_ipi_seq_at_entry s) && negb vssip then 0 else sb_ipi_pending s in
  set_ipi v pending (sb_ipi_seq s) (sb_ipi_seq_at_entry s) 0.

(** A virtual CPU and the harts that send to it: the bit of the hart, whether the guest
    runs, and three counts: the interrupts sent, those sent at the last entry, and those
    the guest has seen.  Senders, entry and exit hold the lock of the CPU; the guest runs
    without it.  The exit handler clears the bit. *)
Record ipi_run := mk_ipi { ir_v : vcpu_t; ir_vssip : bool; ir_guest : bool; ir_sent : Z; ir_entry : Z; ir_seen : Z }.

Inductive ipi_step : ipi_run -> ipi_run -> Prop :=
  | is_send v b gst sent ent seen :
      (gst = true -> sent + 1 - ent < U64_MOD) ->
      ipi_step (mk_ipi v b gst sent ent seen) (mk_ipi (send_ipi v) b gst (sent + 1) ent seen)
  | is_enter v b sent ent seen b' v' :
      vcpu_software_irq_on_entry v = (b', v') ->
      ipi_step (mk_ipi v b false sent ent seen) (mk_ipi v' b' true sent sent seen)
  | is_take v sent ent seen :
      ipi_step (mk_ipi v true true sent ent seen) (mk_ipi v false true sent ent ent)
  | is_exit v b sent ent seen :
      ipi_step (mk_ipi v b true sent ent seen) (mk_ipi (vmm_arch_save_guest_ctx v b) false false sent ent seen).

(** * Properties *)

Definition cpu_ok (v : vcpu_t) : Prop := regs_ok v /\ 0 <= vc_htinst_save v < 2 ^ 32 /\ 0 <= vc_id v < MAX_VCPUS.

Definition vm_ok (m : rv_vm) : Prop :=
  length (rm_vcpus m) = 12%nat /\ 1 <= rm_nr_vcpus m <= MAX_VCPUS /\ Forall cpu_ok (rm_vcpus m) /\ rd_inv (rm_devs m).

(** What an exit of one CPU may do to another: leave it a request, or start it. *)
Definition cpu_kept (v v' : vcpu_t) : Prop := v' = set_sbi v (vc_sbi v') \/ vc_state v = VCPU_STATE_OFFLINE.

(** From [m] to [m'] by an exit of CPU [k]. *)
Definition vm_next (k : Z) (m m' : rv_vm) : Prop :=
  vm_ok m' /\ rm_nr_vcpus m' = rm_nr_vcpus m /\ forall j, 0 <= j < MAX_VCPUS -> j <> k -> cpu_kept (cpu m j) (cpu m' j).

Lemma cpu_kept_refl v : cpu_kept v v.
Proof. left. by destruct v. Qed.

Lemma cpu_kept_trans v1 v2 v3 : cpu_kept v1 v2 -> cpu_kept v2 v3 -> cpu_kept v1 v3.
Proof. intros [E|]; [|by right]. rewrite E. intros [->|H]; [by left|]. right. exact H. Qed.

Lemma vm_next_refl k m : vm_ok m -> vm_next k m m.
Proof. intros. split; [done|]. split; [done|]. intros. apply cpu_kept_refl. Qed.

Lemma vm_next_trans k m1 m2 m3 : vm_next k m1 m2 -> vm_next k m2 m3 -> vm_next k m1 m3.
Proof.
  intros (_ & E & H) (Hok & E' & H'). split; [done|]. split; [congruence|]. intros j Hj Hne. eapply cpu_kept_trans; [by apply H|by apply H'].
Qed.

Lemma cpu_at_ok m i : vm_ok m -> 0 <= i < MAX_VCPUS -> cpu_ok (cpu m i).
Proof. intros (Hl & _ & Hall & _) Hi. eapply Forall_lookup_1; [exact Hall|]. apply aget_lookup. lia. Qed.

Lemma vm_ok_put m i v : vm_ok m -> cpu_ok v -> vm_ok (put_cpu m i v).
Proof. intros (Hl & Hn & Hall & Hd) Hv. split; [cbn; by rewrite length_aset|]. split; [done|]. split; [|done]. by apply Forall_insert. Qed.

Lemma cpu_put_eq m i v : vm_ok m -> 0 <= i < MAX_VCPUS -> cpu (put_cpu m i v) i = v.
Proof. intros (Hl & _) Hi. apply aget_aset_eq. lia. Qed.
Lemma cpu_put_ne m i j v : 0 <= i -> 0 <= j -> i <> j -> cpu (put_cpu m i v) j = cpu m j.
Proof. intros. by apply aget_aset_ne. Qed.

(** Writing the CPU itself, and leaving a request with any CPU. *)
Lemma vm_next_self k m v : vm_ok m -> 0 <= k < MAX_VCPUS -> cpu_ok v -> vm_next k m (put_cpu m k v).
Proof.
  intros Hm Hk Hv. split; [by apply vm_ok_put|]. split; [done|]. intros j Hj Hne. rewrite cpu_put_ne by lia. apply cpu_kept_refl.
Qed.

Lemma vm_next_put k m i v : vm_ok m -> 0 <= i < MAX_VCPUS -> cpu_ok v -> cpu_kept (cpu m i) v -> vm_next k m (put_cpu m i v).
Proof.
  intros Hm Hi Hv Hk. split; [by apply vm_ok_put|]. split; [done|]. intros j Hj Hne. destruct (decide (i = j)) as [->|].
  - by rewrite cpu_put_eq.
  - rewrite cpu_put_ne by lia. apply cpu_kept_refl.
Qed.

Lemma set_sbi_ok v s : cpu_ok v -> cpu_ok (set_sbi v s).
Proof. done. Qed.

Lemma cpu_ok_regs v v' : cpu_ok v -> regs_ok v' -> vc_id v' = vc_id v -> vc_htinst_save v' = vc_htinst_save v -> cpu_ok v'.
Proof. intros (_ & ? & ?) ? Ei Eh. unfold cpu_ok. by rewrite Ei, Eh. Qed.

Lemma sbi_ret_next k m a0 a1 : vm_ok m -> 0 <= k < MAX_VCPUS -> 0 <= a0 < U64_MOD -> 0 <= a1 < U64_MOD -> vm_next k m (sbi_ret m k a0 a1).
Proof.
  intros Hm Hk H0 H1. apply vm_next_self; [done|done|]. pose proof (cpu_at_ok m k Hm Hk) as Hc.
  eapply cpu_ok_regs; [exact Hc| |done|done]. apply set_reg_ok; [|done]. apply set_reg_ok; [apply Hc|done].
Qed.

Lemma for_mask_next k m mask base f :
  vm_ok m -> (forall m' i, vm_ok m' -> rm_nr_vcpus m' = rm_nr_vcpus m -> 0 <= i < rm_nr_vcpus m -> vm_next k m' (f m' i)) -> vm_next k m (for_mask m mask base f).
Proof.
  intros Hm Hf. unfold for_mask. assert (forall l m', (forall i, i ∈ l -> 0 <= i < rm_nr_vcpus m) -> vm_next k m m' ->
    vm_next k m (foldl (fun m i => if sbi_hart_in_mask mask base i then f m i else m) m' l)) as H.
  { induction l as [|i l IH]; intros m' Hl Hm'; cbn [foldl]; [done|]. apply IH; [intros j Hj; apply Hl, elem_of_cons; by right|].
    case_if; [|done]. eapply vm_next_trans; [exact Hm'|]. apply Hf; [apply Hm'|apply Hm'|apply Hl, elem_of_cons; by left]. }
  apply H; [intros i Hi; by apply elem_of_seqZ in Hi|by apply vm_next_refl].
Qed.

Lemma uart_put_inv owned u c : uart_inv u -> byte c -> uart_inv (uart_put_char owned u c).1.
Proof. intros Hu Hc. pose proof (put_char_spec owned u c Hu Hc) as H. destruct (uart_put_char owned u c). apply H. Qed.

Lemma putchar_next k m c : vm_ok m -> vm_next k m (sbi_console_putchar m (u8 c)).
Proof.
  intros (Hl & Hn & Hall & Hu & Hp). unfold sbi_console_putchar.
  pose proof (uart_put_inv (rd_owned (rm_devs m)) _ (u8 c) Hu (u8_range c)) as Hu'. destruct (uart_put_char _ _ _) as [u l].
  split; [|split; [done|intros; apply cpu_kept_refl]]. done.
Qed.

Lemma vcpu_start_ok v entry ctx v' :
  cpu_ok v -> 0 <= ctx < U64_MOD -> vmm_vcpu_start v entry ctx = (true, v') -> cpu_ok v' /\ vc_state v = VCPU_STATE_OFFLINE.
Proof.
  intros (_ & _ & Hid) Hc. unfold vmm_vcpu_start. case_if; [done|]. destruct (Z.eqb_spec (vc_state v) VCPU_STATE_OFFLINE); cbn [negb]; [|done].
  intros [= <-]. split; [|done]. split; [|cbn; lia]. split; [reflexivity|]. cbn [vc_r]. apply Forall_insert; [|done]. apply Forall_insert; [|rewrite u64_id by lia; lia].
  repeat (apply Forall_cons; split; [lia|]). done.
Qed.

Lemma hsm_next k m self func hartid start opaque :
  vm_ok m -> 0 <= hartid -> 0 <= opaque < U64_MOD ->
  let '(err, out, m') := sbi_hsm_handler m self func hartid start opaque in
  vm_next k m m' /\ 0 <= err < U64_MOD /\ 0 <= out < U64_MOD.
Proof.
  intros Hm Hh Ho. pose proof (vm_next_refl k m Hm) as Hr. unfold sbi_hsm_handler. destruct (Z.leb_spec (rm_nr_vcpus m) hartid); [split; [done|lia]|].
  assert (0 <= hartid < MAX_VCPUS) as Hi by (destruct Hm as (_ & ? & _); lia).
  case_if; [|repeat case_if; split; try done; lia]. case_if; [split; [done|lia]|]. case_if; [split; [done|lia]|].
  destruct (vmm_vcpu_start (cpu m hartid) start opaque) as [[] v] eqn:Es; [|split; [done|lia]].
  destruct (vcpu_start_ok _ _ _ _ (cpu_at_ok m hartid Hm Hi) Ho Es) as [Hv Hoff]. split; [|lia]. apply vm_next_put; [done|done|done|by right].
Qed.

Lemma ipi_next k m func mask base :
  vm_ok m -> let '(err, m') := sbi_ipi_handler m func mask base in vm_next k m m' /\ 0 <= err < U64_MOD.
Proof.
  intros Hm. unfold sbi_ipi_handler. case_if; (split; [|lia]); [by apply vm_next_refl|]. apply for_mask_next; [done|].
  intros m' i Hm' Enr Hi. assert (0 <= i < MAX_VCPUS) by (destruct Hm as (_ & ? & _); lia).
  apply vm_next_put; [done|done|by apply set_sbi_ok, cpu_at_ok|by left].
Qed.

Lemma rfence_next k m func mask base :
  vm_ok m -> let '(err, m') := sbi_rfence_handler m func mask base in vm_next k m m' /\ 0 <= err < U64_MOD.
Proof.
  intros Hm. assert (forall req, vm_next k m (for_mask m mask base (fun m i => sbi_request_fence_to m i req))) as H.
  { intros req. apply for_mask_next; [done|]. intros m' i Hm' Enr Hi. assert (0 <= i < MAX_VCPUS) by (destruct Hm as (_ & ? & _); lia).
    apply vm_next_put; [done|done|by apply set_sbi_ok, cpu_at_ok|by left]. }
  unfold sbi_rfence_handler. repeat case_if; (split; [|lia]); first [apply H|by apply vm_next_refl].
Qed.

Lemma reg_range m k i : vm_ok m -> 0 <= k < MAX_VCPUS -> 0 <= i < 32 -> 0 <= aget 0 (vc_r (cpu m k)) i < U64_MOD.
Proof.
  intros Hm Hk Hi. destruct (cpu_at_ok m k Hm Hk) as ([Hl Hall] & _). eapply (Forall_lookup_1 _ _ _ _ Hall). apply aget_lookup. lia.
Qed.

Lemma sbi_base_range func arg0 x : sbi_base func arg0 = Some x -> 0 <= x < U64_MOD.
Proof. unfold sbi_base. repeat case_if; intros; simplify_eq; lia. Qed.

(** The calls: the machine goes on or ends, and stays well formed. *)
Lemma ecall_next m k :
  vm_ok m -> 0 <= k < MAX_VCPUS ->
  let '(rc, m') := handle_vs_ecall m k in vm_next k m m' /\ (rc = EL2_RESUME \/ rc = EL2_VMEXIT).
Proof.
  intros Hm Hk. unfold handle_vs_ecall. pose proof (fun i => reg_range m k i Hm Hk) as Hreg.
  pose proof (Hreg 10 ltac:(lia)) as H10. pose proof (Hreg 11 ltac:(lia)) as H11. pose proof (Hreg 12 ltac:(lia)) as H12.
  generalize dependent (aget 0 (vc_r (cpu m k)) 17). generalize dependent (aget 0 (vc_r (cpu m k)) 16). intros func ext.
  set (a0 := aget 0 (vc_r (cpu m k)) 10) in *. set (a1 := aget 0 (vc_r (cpu m k)) 11) in *. set (a2 := aget 0 (vc_r (cpu m k)) 12) in *.
  pose proof (cpu_at_ok m k Hm Hk) as Hc.
  assert (vm_next k m (put_cpu m k (set_pc (cpu m k) (u64 (vc_pc (cpu m k) + 4))))) as H1.
  { apply vm_next_self; [done|done|]. eapply cpu_ok_regs; [exact Hc|apply Hc|done|done]. }
  set (m1 := put_cpu m k _) in *. assert (vm_ok m1) as Hm1 by apply H1. pose proof (cpu_at_ok m1 k Hm1 Hk) as Hc1.
  assert (forall m', vm_next k m1 m' -> vm_next k m m') as Hthen by (intros; by eapply vm_next_trans).
  assert (forall x y, 0 <= x < U64_MOD -> 0 <= y < U64_MOD -> vm_next k m (sbi_ret m1 k x y)) as Hret.
  { intros. apply Hthen. by apply sbi_ret_next. }
  assert (forall v, cpu_ok v -> vm_next k m (put_cpu m1 k v)) as Hput by (intros; apply Hthen; by apply vm_next_self).
  case_if; [auto|]. case_if; [auto|]. case_if; [split; [by apply Hput, set_sbi_ok|auto]|].
  case_if; [split; [by apply Hthen, putchar_next|auto]|].
  case_if; [split; [|auto]; apply Hput; eapply cpu_ok_regs; [exact Hc1|apply set_reg_ok; [apply Hc1|lia]|done|done]|].
  case_if; [auto|]. case_if; [destruct (sbi_base func a0) as [x|] eqn:Eb; [apply sbi_base_range in Eb|]; (split; [apply Hret; lia|auto])|].
  case_if.
  { case_if; [|split; [apply Hret; lia|auto]]. split; [|auto]. eapply vm_next_trans; [apply Hput, set_sbi_ok, Hc1|].
    apply sbi_ret_next; [by apply vm_ok_put, set_sbi_ok|done|lia|lia]. }
  case_if. { pose proof (ipi_next k m1 func a0 a1 Hm1) as H. destruct (sbi_ipi_handler m1 func a0 a1) as [err m2]. destruct H as [H2 He].
    split; [|auto]. eapply vm_next_trans; [by apply Hthen|]. apply sbi_ret_next; [apply H2|done|done|lia]. }
  case_if. { pose proof (hsm_next k m1 (vc_id (cpu m1 k)) func a0 a1 a2 Hm1 ltac:(lia) H12) as H. destruct (sbi_hsm_handler _ _ _ _ _ _) as [[err out] m2].
    destruct H as (H2 & He & Hout). split; [|auto]. eapply vm_next_trans; [by apply Hthen|]. apply sbi_ret_next; [apply H2|done|done|done]. }
  case_if. { pose proof (rfence_next k m1 func a0 a1 Hm1) as H. destruct (sbi_rfence_handler m1 func a0 a1) as [err m2]. destruct H as [H2 He].
    split; [|auto]. eapply vm_next_trans; [by apply Hthen|]. apply sbi_ret_next; [apply H2|done|done|lia]. }
  case_if; [case_if|]; (split; [apply Hret; lia|auto]).
Qed.


(** ** No interrupt is lost and none is repeated *)

Definition ipi_inv (r : ipi_run) : Prop :=
  let s := vc_sbi (ir_v r) in
  0 <= ir_seen r <= ir_entry r /\ ir_entry r <= ir_sent r /\ sb_ipi_seq s = ir_sent r mod U64_MOD /\
  if ir_guest r then
    sb_ipi_seq_at_entry s = ir_entry r mod U64_MOD /\ ir_sent r - ir_entry r < U64_MOD /\
    if sb_ipi_injected s =? 0 then ir_vssip r = false /\ ir_seen r = ir_entry r /\ (sb_ipi_pending s <> 0 <-> ir_entry r < ir_sent r)
    else sb_ipi_pending s <> 0 /\ if ir_vssip r then ir_seen r < ir_entry r else ir_seen r = ir_entry r
  else sb_ipi_pending s <> 0 <-> ir_seen r < ir_sent r.

Lemma mod_eq_near a b : a <= b -> b - a < U64_MOD -> b mod U64_MOD = a mod U64_MOD -> b = a.
Proof. intros Hle Hlt E. pose proof (Z.div_mod a U64_MOD). pose proof (Z.div_mod b U64_MOD). nia. Qed.

Lemma ipi_step_inv r r' : ipi_inv r -> ipi_step r r' -> ipi_inv r'.
Proof.
  intros Hinv Hstep. destruct Hstep as [v b gst sent ent seen Hb|v b sent ent seen b' v' E|v sent ent seen|v b sent ent seen]; unfold ipi_inv in *;
    cbn [ir_v ir_vssip ir_guest ir_sent ir_entry ir_seen] in *; destruct Hinv as (H1 & H2 & Hseq & H).
  - split; [lia|]. split; [lia|]. split.
    { cbn. rewrite Hseq. unfold u64. by rewrite Zplus_mod_idemp_l. }
    cbn [send_ipi set_ipi set_sbi vc_sbi sb_ipi_seq_at_entry sb_ipi_injected sb_ipi_pending]. destruct gst; [|lia].
    destruct H as (He & Hd & H). split; [done|]. split; [by apply Hb|]. case_if; destruct H; (split; [done|]); [split; [tauto|lia]|done].
  - injection E as <- <-. cbn [set_ipi set_sbi vc_sbi sb_ipi_seq sb_ipi_seq_at_entry sb_ipi_injected sb_ipi_pending].
    split; [lia|]. split; [lia|]. split; [done|]. split; [done|]. split; [lia|].
    destruct (Z.eqb_spec (sb_ipi_pending (vc_sbi v)) 0) as [Hp|Hp]; cbn [negb Z.eqb].
    + assert (~ seen < sent) by (intros Hlt; by apply H). split; [done|]. split; [lia|]. split; [done|lia].
    + split; [done|]. by apply H.
  - destruct H as (He & Hd & H). split; [lia|]. split; [done|]. split; [done|]. split; [done|]. split; [done|].
    case_if; [destruct H; done|]. split; [apply H|done].
  - destruct H as (He & Hd & H). split; [lia|]. split; [done|]. split; [done|].
    cbn [vmm_arch_save_guest_ctx set_ipi set_sbi vc_sbi sb_ipi_pending]. rewrite He, Hseq.
    destruct (Z.eqb_spec (sb_ipi_injected (vc_sbi v)) 0) as [Hi|Hi]; cbn [negb andb].
    + destruct H as (_ & -> & H). done.
    + destruct H as [Hp H]. destruct b; cbn [negb]; rewrite ?andb_false_r, ?andb_true_r; [split; [lia|done]|]. subst seen.
      destruct (Z.eqb_spec (sent mod U64_MOD) (ent mod U64_MOD)) as [Em|Em]; [apply mod_eq_near in Em; lia|].
      split; [intros _|done]. destruct (decide (ent = sent)) as [->|]; [done|lia].
Qed.

(** C25. Interrupts between virtual CPUs are neither lost nor repeated.  From the start of a
    CPU, under every interleaving of the harts that send to it with its entries, its exits
    and what its guest does: when the CPU enters its guest, it does so with the interrupt
    raised exactly if one was sent that the guest has not seen, whether it was sent before
    the last entry or while the guest ran. *)
Theorem ipi_delivered_exactly v entry ctx v0 r b v1 :
  vmm_vcpu_start v entry ctx = (true, v0) -> star ipi_step (mk_ipi v0 false false 0 0 0) r ->
  ir_guest r = false -> vcpu_software_irq_on_entry (ir_v r) = (b, v1) ->
  (b = true <-> ir_seen r < ir_sent r) /\ sb_ipi_injected (vc_sbi v1) = (if b then 1 else 0).
Proof.
  intros Hstart Hrun Hg E. assert (ipi_inv r) as Hinv.
  { refine (star_invariant _ _ ipi_step_inv _ _ _ Hrun). unfold vmm_vcpu_start in Hstart. case_if_in Hstart; [done|].
    destruct (vc_state v =? VCPU_STATE_OFFLINE); cbn [negb] in Hstart; [|done]. injection Hstart as <-.
    split; [cbn; lia|]. split; [cbn; lia|]. split; [done|]. split; [done|cbn; lia]. }
  destruct Hinv as (_ & _ & _ & H). rewrite Hg in H. injection E as <- <-. split; [|done]. rewrite <- H. lia.
Qed.

(** ** A machine of two CPUs *)

Definition demo_ap (id : Z) : vcpu_t :=
  mk_vcpu id (replicate 32 0) 0 0 (mk_vs 0 0 0 0 0) 21 0 ((VPLIC_BASE + 8192) / 4) (encode (LOAD 2 10 11 0)) 0 (mk_sbi 0 0 0 0 0 0) VCPU_STATE_OFFLINE.
Definition demo_rvm : rv_vm := mk_rvm (demo_ap <$> seqZ 0 12) 2 demo_devs.

Lemma demo_rvm_ok : vm_ok demo_rvm.
Proof.
  split; [reflexivity|]. split; [cbn; lia|]. split; [|exact demo_devs_inv]. apply Forall_fmap, Forall_seqZ. intros i Hi. cbn.
  split; [split; [reflexivity|]|].
  - apply Forall_replicate. lia.
  - split; [vm_compute; split; congruence|cbn; lia].
Qed.


(** An interrupt that arrives while the guest handles an earlier one is raised at the next
    entry. *)
Lemma ipi_delivered_exactly_witness :
  exists v0 r, vmm_vcpu_start (demo_ap 1) 4096 7 = (true, v0) /\ star ipi_step (mk_ipi v0 false false 0 0 0) r /\
    ir_sent r = 2 /\ ir_seen r = 1 /\ (vcpu_software_irq_on_entry (ir_v r)).1 = true.
Proof.
  destruct (vmm_vcpu_start (demo_ap 1) 4096 7) as [ok v0] eqn:Es.
  assert (ok = true) as -> by (vm_compute in Es; congruence).
  set (v1 := send_ipi v0). set (v2 := (vcpu_software_irq_on_entry v1).2). set (v3 := send_ipi v2). set (v4 := vmm_arch_save_guest_ctx v3 false).
  assert (vcpu_software_irq_on_entry v1 = (true, v2)) as E2 by (vm_compute in Es; injection Es as <-; reflexivity).
  assert (star ipi_step (mk_ipi v0 false false 0 0 0) (mk_ipi v4 false false 2 1 1)) as Hrun.
  { eapply star_step; [apply is_send; congruence|]. eapply star_step; [apply is_enter; exact E2|].
    eapply star_step; [apply is_take|]. eapply star_step; [apply is_send; lia|]. apply star_one. apply is_exit. }
  exists v0, (mk_ipi v4 false false 2 1 1). split; [reflexivity|]. split; [exact Hrun|]. split; [reflexivity|]. split; [reflexivity|].
  destruct (vcpu_software_irq_on_entry v4) as [b v5] eqn:E5.
  destruct (ipi_delivered_exactly (demo_ap 1) 4096 7 v0 (mk_ipi v4 false false 2 1 1) b v5 Es Hrun eq_refl E5) as [H _].
  cbn [ir_v]. rewrite E5. apply H. cbn. lia.
Defined.
