(* ===== verification/FdPool.v ===== *)
(** * Descriptors: kernel/syscall/fs/fd_pool.c, the descriptor system calls of
      kernel/syscall/fs/file_ops.c, and the file reference counts of kernel/fs/vfs/vfs.c

    [fdw] is the part of the kernel that descriptors share: the pool of 128
    descriptor objects, the heap of open files with their reference counts, the
    epoll instances, and the log of calls that leave this component (the [close] of
    a file, the [dup] and [close] of a driver's [fd_ops], a [task_unblock]).  A
    task's own part, its descriptor table and close-on-exec bits, is [ftask].  An
    operation is a function on these; the lines under [g_fd_pool_lock] are one step.

    [fd_inv] is the ownership invariant: every used pool slot has exactly one
    descriptor in one table, and every file has as many references as slots. *)

From stdpp Require Import gmap options.
From Stdlib Require Import Lia.
From S2P Require Import Prelude.

Abbreviation FD_POOL_SIZE := 128.
Abbreviation TASK_MAX_FD := 256.
Abbreviation EPOLL_MAX_INSTANCES := 16.
Abbreviation EPOLL_MAX_ITEMS := 64.
Abbreviation FD_WAIT_MAX := 4.
Abbreviation EBADF := 9.
Abbreviation EINVAL := 22.
Abbreviation ENFILE := 23.
Abbreviation EMFILE := 24.
Abbreviation EPOLL_CLOEXEC := 524288.
Abbreviation F_DUPFD := 0.
Abbreviation F_GETFD := 1.
Abbreviation F_SETFD := 2.
Abbreviation F_GETFL := 3.
Abbreviation F_SETFL := 4.
Abbreviation F_DUPFD_CLOEXEC := 1030.
Abbreviation SETFL_MASK := 11264.

Inductive fd_type_t := FDT_FREE | FDT_ALLOCATED | FDT_VFS | FDT_ION | FDT_EPOLL | FDT_DMABUF.

#[export] Instance fd_type_eq_dec : EqDecision fd_type_t.
Proof. solve_decision. Defined.

(** An open file: the fields that this component uses.  Files live on a heap and
    are named by their address. *)
Record vfs_file_t := mk_file { vf_flags : Z; vf_refcnt : Z; vf_path : list Z }.

(** [fo_u] is the union of [ion.handle], [epoll.ep_idx] and [dmabuf.idx];
    [fo_wq] is the used part of the wait queue, as (epoll instance, item). *)
Record fd_obj_t := mk_obj {
  fo_type : fd_type_t;
  fo_flags : Z;
  fo_path : list Z;
  fo_file : option Z;
  fo_ops : option Z;
  fo_priv : Z;
  fo_u : Z;
  fo_wq : list (Z * Z);
}.

Record epoll_item_t := mk_item {
  ei_fd : Z;
  ei_pool_idx : Z;
  ei_events : Z;
  ei_data : Z;
  ei_ready : bool;
}.

(** [ep_items] is the used part of the array: its length is [item_count]. *)
Record epoll_instance_t := mk_epoll {
  ep_in_use : bool;
  ep_items : list epoll_item_t;
  ep_ready_count : Z;
  ep_blocked_task : option Z;
}.

Inductive fd_event :=
  | EvFileClose (f : Z)
  | EvOpsDup (ops priv : Z)
  | EvOpsClose (ops priv : Z)
  | EvWake (t : Z).

Record fdw := mk_fdw {
  w_pool : list fd_obj_t;
  w_files : gmap Z vfs_file_t;
  w_epolls : list epoll_instance_t;
  w_log : list fd_event;
}.

Record ftask := mk_ftask {
  ft_fd_table : list Z;
  ft_fd_cloexec : list Z;
  ft_is_user_process : bool;
}.

(** What the operations read of the rest of the kernel: whether a driver's
    [fd_ops] has a [dup] and what that returns for the private data, whether it has
    a [close], and whether a task is in state TASK_BLOCKED. *)
Class FdEnv := {
  ops_dup : Z -> option (Z -> Z);
  ops_close : Z -> bool;
  task_blocked : Z -> bool;
}.

Definition obj_zero : fd_obj_t := mk_obj FDT_FREE 0 [] None None 0 0 [].
Definition item_zero : epoll_item_t := mk_item 0 0 0 0 false.
Definition epoll_zero : epoll_instance_t := mk_epoll false [] 0 None.

Definition slot_at (w : fdw) (i : Z) : fd_obj_t := aget obj_zero (w_pool w) i.
Definition set_slot (w : fdw) (i : Z) (o : fd_obj_t) : fdw :=
  mk_fdw (aset (w_pool w) i o) (w_files w) (w_epolls w) (w_log w).
Definition set_files (w : fdw) (fs : gmap Z vfs_file_t) : fdw := mk_fdw (w_pool w) fs (w_epolls w) (w_log w).
Definition set_epoll (w : fdw) (i : Z) (e : epoll_instance_t) : fdw :=
  mk_fdw (w_pool w) (w_files w) (aset (w_epolls w) i e) (w_log w).
Definition log (w : fdw) (e : fd_event) : fdw := mk_fdw (w_pool w) (w_files w) (w_epolls w) (w_log w ++ [e]).

Definition obj_set_type (o : fd_obj_t) (t : fd_type_t) : fd_obj_t :=
  mk_obj t (fo_flags o) (fo_path o) (fo_file o) (fo_ops o) (fo_priv o) (fo_u o) (fo_wq o).
Definition obj_set_file (o : fd_obj_t) (f : option Z) : fd_obj_t :=
  mk_obj (fo_type o) (fo_flags o) (fo_path o) f (fo_ops o) (fo_priv o) (fo_u o) (fo_wq o).
Definition obj_set_wq (o : fd_obj_t) (wq : list (Z * Z)) : fd_obj_t :=
  mk_obj (fo_type o) (fo_flags o) (fo_path o) (fo_file o) (fo_ops o) (fo_priv o) (fo_u o) wq.
Definition ep_set_items (e : epoll_instance_t) (items : list epoll_item_t) (ready : Z) : epoll_instance_t :=
  mk_epoll (ep_in_use e) items ready (ep_blocked_task e).

Definition in_pool (idx : Z) : bool := (0 <=? idx) && (idx <? FD_POOL_SIZE).

(** ** Open files: vfs.c *)

Definition vfs_ref (w : fdw) (f : Z) : fdw :=
  set_files w (alter (fun v => mk_file (vf_flags v) (u32 (vf_refcnt v + 1)) (vf_path v)) f (w_files w)).

Definition vfs_close (w : fdw) (f : Z) : fdw :=
  match w_files w !! f with
  | None => w
  | Some v =>
      let n := u32 (vf_refcnt v - 1) in
      if 0 <? n then set_files w (<[f := mk_file (vf_flags v) n (vf_path v)]> (w_files w))
      else log (set_files w (delete f (w_files w))) (EvFileClose f)
  end.

(** ** Wait queues and epoll instances: epoll.c *)

Definition wq_register (wq : list (Z * Z)) (ep item_idx : Z) : option (list (Z * Z)) :=
  if FD_WAIT_MAX <=? Z.of_nat (length wq) then None else Some (wq ++ [(ep, item_idx)]).

(** [a[i] = a[--n]]: drop entry [i], moving the last entry into its place. *)
Definition swap_remove {A} (l : list A) (i : nat) : list A :=
  match last l with
  | Some x => take (pred (length l)) (<[i := x]> l)
  | None => l
  end.

Definition wq_unregister (wq : list (Z * Z)) (ep item_idx : Z) : list (Z * Z) :=
  match list_find (fun x => x = (ep, item_idx)) wq with
  | Some (i, _) => swap_remove wq i
  | None => wq
  end.

Definition epoll_at (w : fdw) (i : Z) : epoll_instance_t := aget epoll_zero (w_epolls w) i.

Definition epoll_get (w : fdw) (idx : Z) : option epoll_instance_t :=
  if (idx <? 0) || (EPOLL_MAX_INSTANCES <=? idx) then None
  else if negb (ep_in_use (epoll_at w idx)) then None
  else Some (epoll_at w idx).

(** [wq_unregister(&g_fd_pool[pool_idx].wq, ep, item)] and the registration *)
Definition slot_unregister (w : fdw) (pool_idx ep item : Z) : fdw :=
  set_slot w pool_idx (obj_set_wq (slot_at w pool_idx) (wq_unregister (fo_wq (slot_at w pool_idx)) ep item)).
Definition slot_register (w : fdw) (pool_idx ep item : Z) : fdw :=
  match wq_register (fo_wq (slot_at w pool_idx)) ep item with
  | Some wq => set_slot w pool_idx (obj_set_wq (slot_at w pool_idx) wq)
  | None => w
  end.

(** One round of the loop of [fd_close_notify]: take the first waiter off the
    queue and its item out of the epoll instance. *)
Definition close_notify_one (w : fdw) (pool_idx : Z) : fdw :=
  match fo_wq (slot_at w pool_idx) with
  | [] => w
  | (ep, item_idx) :: _ =>
      let w := set_slot w pool_idx (obj_set_wq (slot_at w pool_idx) (swap_remove (fo_wq (slot_at w pool_idx)) 0)) in
      let e := epoll_at w ep in
      let count := Z.of_nat (length (ep_items e)) in
      if ep_in_use e && (0 <=? item_idx) && (item_idx <? count) then
        let item := aget item_zero (ep_items e) item_idx in
        if ei_pool_idx item =? pool_idx then
          let ready := if ei_ready item then ep_ready_count e - 1 else ep_ready_count e in
          let last := count - 1 in
          if item_idx <? last then
            let moved := aget item_zero (ep_items e) last in
            let w := slot_unregister w (ei_pool_idx moved) ep last in
            let w := set_epoll w ep (ep_set_items e (take (Z.to_nat last) (aset (ep_items e) item_idx moved)) ready) in
            slot_register w (ei_pool_idx moved) ep item_idx
          else set_epoll w ep (ep_set_items e (take (Z.to_nat last) (ep_items e)) ready)
        else w
      else w
  end.

Fixpoint close_notify_loop (fuel : nat) (w : fdw) (pool_idx : Z) : fdw :=
  match fuel with
  | O => w
  | S fuel' =>
      match fo_wq (slot_at w pool_idx) with
      | [] => w
      | _ => close_notify_loop fuel' (close_notify_one w pool_idx) pool_idx
      end
  end.

(** Each round takes a waiter off the queue or an item out of an instance. *)
Definition notify_measure (w : fdw) (pool_idx : Z) : nat :=
  Z.to_nat (Z.of_nat (length (fo_wq (slot_at w pool_idx))) +
            lsum (fun e => Z.of_nat (length (ep_items e))) (w_epolls w)).

Definition fd_close_notify (w : fdw) (pool_idx : Z) : fdw :=
  if negb (in_pool pool_idx) then w
  else close_notify_loop (notify_measure w pool_idx) w pool_idx.

Section operations.
Context `{FdEnv}.

Definition epoll_destroy (w : fdw) (ep_idx : Z) : fdw :=
  match epoll_get w ep_idx with
  | None => w
  | Some e =>
      let unregister w i :=
        let pool_idx := ei_pool_idx (aget item_zero (ep_items e) i) in
        if in_pool pool_idx && negb (bool_decide (fo_type (slot_at w pool_idx) = FDT_FREE))
        then slot_unregister w pool_idx ep_idx i else w in
      let w := for_range 0 (Z.of_nat (length (ep_items e))) unregister w in
      let '(w, blocked) :=
        match ep_blocked_task e with
        | Some t => if task_blocked t then (log w (EvWake t), None) else (w, Some t)
        | None => (w, None)
        end in
      set_epoll w ep_idx (mk_epoll false (ep_items e) (ep_ready_count e) blocked)
  end.

(** ** The pool: fd_pool.c *)

Definition fd_pool_alloc (w : fdw) : Z * fdw :=
  match list_find (fun o => fo_type o = FDT_FREE) (w_pool w) with
  | Some (i, o) => (Z.of_nat i, set_slot w (Z.of_nat i) (obj_set_file (obj_set_type o FDT_ALLOCATED) None))
  | None => (-1, w)
  end.

Definition fd_pool_free (w : fdw) (idx : Z) : fdw :=
  if (idx <? 0) || (FD_POOL_SIZE <=? idx) then w
  else
    let o := slot_at w idx in
    set_slot w idx (mk_obj FDT_FREE (fo_flags o) (fo_path o) None None 0 (fo_u o) []).

Definition fd_obj_ref (w : fdw) (idx : Z) : Z * fdw :=
  if (idx <? 0) || (FD_POOL_SIZE <=? idx) then (-1, w)
  else
    let o := slot_at w idx in
    if bool_decide (fo_type o = FDT_FREE) then (-1, w)
    else
      match fo_file o with
      | Some f => (0, vfs_ref w f)
      | None =>
          match fo_ops o with
          | Some ops =>
              match ops_dup ops with
              | Some dup => (dup (fo_priv o), log w (EvOpsDup ops (fo_priv o)))
              | None => (0, w)
              end
          | None => (0, w)
          end
      end.

Definition fd_obj_close (w : fdw) (idx : Z) : fdw :=
  if (idx <? 0) || (FD_POOL_SIZE <=? idx) then w
  else
    let o := slot_at w idx in
    if bool_decide (fo_type o = FDT_FREE) then w
    else
      match fo_file o with
      | Some f => let w := vfs_close w f in set_slot w idx (obj_set_file (slot_at w idx) None)
      | None =>
          if bool_decide (fo_type o = FDT_EPOLL) then epoll_destroy w (fo_u o)
          else
            match fo_ops o with
            | Some ops => if ops_close ops then log w (EvOpsClose ops (fo_priv o)) else w
            | None => w
            end
      end.

(** The copied path stops at its terminator or after 127 bytes. *)
Definition copy_path (p : list Z) : list Z := take 127 p.

Definition fd_obj_attach_vfs (w : fdw) (idx : Z) (f : Z) : fdw :=
  if (idx <? 0) || (FD_POOL_SIZE <=? idx) then w
  else
    match w_files w !! f with
    | None => w
    | Some v =>
        let o := slot_at w idx in
        set_slot w idx (mk_obj FDT_VFS (vf_flags v) (copy_path (vf_path v)) (Some f) None 0 (fo_u o) (fo_wq o))
    end.

(** [for (i = lo; i < TASK_MAX_FD; i++) if (fd_table[i] == -1)]: the first free
    descriptor from [lo] on, or -1. *)
Definition first_fd (tbl : list Z) (lo : Z) : Z :=
  default (-1) (head (filter (fun i => aget 0 tbl i = -1) (seqZ lo (TASK_MAX_FD - lo)))).

Definition set_fd (t : ftask) (fd v : Z) : ftask :=
  mk_ftask (aset (ft_fd_table t) fd v) (ft_fd_cloexec t) (ft_is_user_process t).

Definition task_alloc_fd (t : ftask) (pool_idx : Z) : Z * ftask :=
  let fd := first_fd (ft_fd_table t) 3 in
  if fd <? 0 then (-1, t) else (fd, set_fd t fd (i16 pool_idx)).

Definition task_take_fd (t : ftask) (fd : Z) : Z * ftask :=
  if (fd <? 0) || (TASK_MAX_FD <=? fd) then (-1, t)
  else (aget (-1) (ft_fd_table t) fd, set_fd t fd (-1)).

Definition task_get_fd (w : fdw) (t : ftask) (fd : Z) : option Z :=
  if (fd <? 0) || (TASK_MAX_FD <=? fd) then None
  else
    let idx := aget (-1) (ft_fd_table t) fd in
    if (idx <? 0) || (FD_POOL_SIZE <=? idx) then None
    else if bool_decide (fo_type (slot_at w idx) = FDT_FREE) then None
    else Some idx.

(** [task_alloc_ion_fd] and [task_alloc_dmabuf_fd] differ in the type and the path. *)
Definition task_alloc_ops_fd (type : fd_type_t) (path : list Z) (w : fdw) (t : ftask) (u ops priv : Z) : Z * fdw * ftask :=
  let '(pool, w) := fd_pool_alloc w in
  if pool <? 0 then (-1, w, t)
  else
    let o := slot_at w pool in
    let w := set_slot w pool (mk_obj type 0 (copy_path path) (fo_file o) (Some ops) priv u (fo_wq o)) in
    let '(fd, t) := task_alloc_fd t pool in
    if fd <? 0 then (-1, fd_pool_free w pool, t) else (fd, w, t).

Definition ion_path : list Z := [47; 100; 101; 118; 47; 105; 111; 110; 95; 98; 117; 102; 102; 101; 114].
Definition dmabuf_path : list Z := [47; 100; 101; 118; 47; 100; 109; 97; 98; 117; 102].
Definition task_alloc_ion_fd := task_alloc_ops_fd FDT_ION ion_path.
Definition task_alloc_dmabuf_fd := task_alloc_ops_fd FDT_DMABUF dmabuf_path.

Definition task_get_ops_u (type : fd_type_t) (w : fdw) (t : ftask) (fd : Z) : option Z :=
  idx ← task_get_fd w t fd;
  if bool_decide (fo_type (slot_at w idx) = type) then Some (fo_u (slot_at w idx)) else None.
Definition task_get_ion_handle := task_get_ops_u FDT_ION.
Definition task_get_dmabuf_idx := task_get_ops_u FDT_DMABUF.

(** ** System calls: file_ops.c, proc_lifecycle.c, exec.c *)

(** [pool[n] = *src; pool[n].wq.waiter_count = 0] in a fresh slot [n]. *)
Definition pool_copy (w : fdw) (src : Z) : Z * fdw :=
  let '(n, w) := fd_pool_alloc w in
  if n <? 0 then (-1, w) else (n, set_slot w n (obj_set_wq (slot_at w src) [])).

(** A descriptor object for the UART in a fresh slot. *)
Definition pool_uart (w : fdw) : Z * fdw :=
  let '(n, w) := fd_pool_alloc w in
  if n <? 0 then (-1, w)
  else
    let o := slot_at w n in
    (n, set_slot w n (mk_obj FDT_ALLOCATED 0 [] None (fo_ops o) (fo_priv o) (fo_u o) (fo_wq o))).

Definition set_cloexec (t : ftask) (fd : Z) (on : bool) : ftask :=
  let b := aget 0 (ft_fd_cloexec t) (fd / 8) in
  let b := if on then Z.lor b (u8 (Z.shiftl 1 (fd mod 8)))
           else Z.land b (u8 (Z.lnot (Z.shiftl 1 (fd mod 8)))) in
  mk_ftask (ft_fd_table t) (aset (ft_fd_cloexec t) (fd / 8) b) (ft_is_user_process t).

Definition get_cloexec (t : ftask) (fd : Z) : bool :=
  Z.odd (Z.shiftr (aget 0 (ft_fd_cloexec t) (fd / 8)) (fd mod 8)).

(** [fd_close_notify(idx); fd_obj_close(idx); fd_pool_free(idx);] *)
Definition close_slot (w : fdw) (idx : Z) : fdw :=
  fd_pool_free (fd_obj_close (fd_close_notify w idx) idx) idx.

(** The end of [openat_handler], from the file that [vfs_open] returned. *)
Definition openat_install (w : fdw) (t : ftask) (f : Z) : Z * fdw * ftask :=
  let '(pool, w) := fd_pool_alloc w in
  if pool <? 0 then (- EMFILE, vfs_close w f, t)
  else
    let w := fd_obj_attach_vfs w pool f in
    let '(fd, t) := task_alloc_fd t pool in
    if fd <? 0 then (- EMFILE, fd_pool_free (vfs_close w f) pool, t) else (fd, w, t).

Definition close_handler (w : fdw) (t : ftask) (fd : Z) : Z * fdw * ftask :=
  if (fd <? 0) || (TASK_MAX_FD <=? fd) then (- EBADF, w, t)
  else
    let '(idx, t) := task_take_fd t fd in
    if (idx <? 0) || (FD_POOL_SIZE <=? idx) then (0, w, t)
    else (0, close_slot w idx, t).

Definition dup_to_fd (w : fdw) (t : ftask) (oldfd newfd flags : Z) : Z * fdw * ftask :=
  if (oldfd <? 0) || (TASK_MAX_FD <=? oldfd) then (- EBADF, w, t)
  else if (newfd <? 0) || (TASK_MAX_FD <=? newfd) then (- EBADF, w, t)
  else
    let src := task_get_fd w t oldfd in
    if (2 <? oldfd) && negb (bool_decide (is_Some src)) then (- EBADF, w, t)
    else
      let '(old_idx, t) := task_take_fd t newfd in
      let w := if in_pool old_idx then close_slot w old_idx else w in
      match src with
      | None =>
          let '(n, w) := pool_uart w in
          if n <? 0 then (- EMFILE, w, t)
          else (newfd, w, set_cloexec (set_fd t newfd (i16 n)) newfd (negb (Z.land flags 524288 =? 0)))
      | Some i =>
          let '(n, w) := pool_copy w i in
          if n <? 0 then (- EMFILE, w, t)
          else
            let '(rc, w) := fd_obj_ref w n in
            if negb (rc =? 0) then (- EBADF, fd_pool_free w n, t)
            else (newfd, w, set_cloexec (set_fd t newfd (i16 n)) newfd (negb (Z.land flags 524288 =? 0)))
      end.

Definition dup_handler (w : fdw) (t : ftask) (oldfd : Z) : Z * fdw * ftask :=
  if (oldfd <? 0) || (TASK_MAX_FD <=? oldfd) then (- EBADF, w, t)
  else if (2 <? oldfd) && negb (bool_decide (is_Some (task_get_fd w t oldfd))) then (- EBADF, w, t)
  else
    let newfd := first_fd (ft_fd_table t) 3 in
    if newfd <? 0 then (- EMFILE, w, t) else dup_to_fd w t oldfd newfd 0.

Definition dup3_handler (w : fdw) (t : ftask) (oldfd newfd flags : Z) : Z * fdw * ftask :=
  if oldfd =? newfd then (- EINVAL, w, t) else dup_to_fd w t oldfd newfd flags.

(** F_SETFL also writes the flags of the file, which every duplicate shares. *)
Definition fcntl_setfl (w : fdw) (i val : Z) : fdw :=
  let o := slot_at w i in
  let flags := Z.lor (Z.land (fo_flags o) (Z.lnot SETFL_MASK)) (Z.land val SETFL_MASK) in
  let w := set_slot w i (mk_obj (fo_type o) flags (fo_path o) (fo_file o) (fo_ops o) (fo_priv o) (fo_u o) (fo_wq o)) in
  match fo_file o with
  | Some f => set_files w (alter (fun v => mk_file flags (vf_refcnt v) (vf_path v)) f (w_files w))
  | None => w
  end.

Definition fcntl_dupfd (w : fdw) (t : ftask) (obj : option Z) (cmd minfd : Z) : Z * fdw * ftask :=
  let lo := if Z.max minfd 0 <? 3 then 3 else Z.max minfd 0 in
  let nf := first_fd (ft_fd_table t) lo in
  match obj with
  | None =>
      if nf <? 0 then (- EMFILE, w, t)
      else
        let '(n, w) := pool_uart w in
        if n <? 0 then (- EMFILE, w, t)
        else (nf, w, set_cloexec (set_fd t nf (i16 n)) nf (cmd =? F_DUPFD_CLOEXEC))
  | Some i =>
      let '(n, w) := pool_copy w i in
      if n <? 0 then (- EMFILE, w, t)
      else
        let '(_, w) := fd_obj_ref w n in
        if nf <? 0 then (- EMFILE, fd_pool_free w n, t)
        else (nf, w, set_cloexec (set_fd t nf (i16 n)) nf (cmd =? F_DUPFD_CLOEXEC))
  end.

Definition fcntl_handler (w : fdw) (t : ftask) (fd cmd arg : Z) : Z * fdw * ftask :=
  if (fd <? 0) || (TASK_MAX_FD <=? fd) then (- EBADF, w, t)
  else
    let obj := task_get_fd w t fd in
    if negb (bool_decide (is_Some obj)) && (3 <=? fd) then (- EBADF, w, t)
    else if cmd =? F_GETFD then (Z.b2z (get_cloexec t fd), w, t)
    else if cmd =? F_SETFD then (0, w, set_cloexec t fd (Z.odd arg))
    else if cmd =? F_GETFL then (match obj with Some i => u32 (fo_flags (slot_at w i)) | None => 0 end, w, t)
    else if cmd =? F_SETFL then (0, match obj with Some i => fcntl_setfl w i arg | None => w end, t)
    else if (cmd =? F_DUPFD) || (cmd =? F_DUPFD_CLOEXEC) then fcntl_dupfd w t obj cmd arg
    else (0, w, t).

Definition epoll_instance_alloc (w : fdw) : Z * fdw :=
  match list_find (fun e => ep_in_use e = false) (w_epolls w) with
  | Some (i, _) => (Z.of_nat i, set_epoll w (Z.of_nat i) (mk_epoll true [] 0 None))
  | None => (-1, w)
  end.

Definition epoll_instance_free (w : fdw) (idx : Z) : fdw :=
  if (0 <=? idx) && (idx <? EPOLL_MAX_INSTANCES) then
    let e := epoll_at w idx in
    set_epoll w idx (mk_epoll false (ep_items e) (ep_ready_count e) (ep_blocked_task e))
  else w.

Definition epoll_create1_handler (w : fdw) (t : ftask) (flags : Z) : Z * fdw * ftask :=
  if negb (Z.land flags (Z.lnot EPOLL_CLOEXEC) =? 0) then (- EINVAL, w, t)
  else
    let '(ep, w) := epoll_instance_alloc w in
    if ep <? 0 then (- ENFILE, w, t)
    else
      let '(pool, w) := fd_pool_alloc w in
      if pool <? 0 then (- ENFILE, epoll_instance_free w ep, t)
      else
        let o := slot_at w pool in
        let w := set_slot w pool (mk_obj FDT_EPOLL 0 [] (fo_file o) (fo_ops o) (fo_priv o) (i16 ep) []) in
        let '(fd, t) := task_alloc_fd t pool in
        if fd <? 0 then (- EMFILE, epoll_instance_free (fd_pool_free w pool) ep, t)
        else (fd, w, if negb (Z.land flags EPOLL_CLOEXEC =? 0) then set_cloexec t fd true else t).

(** One descriptor of [fork]: the child's table entry for the parent's [k]. *)
Definition fork_fd (parent : ftask) (s : fdw * ftask) (k : Z) : fdw * ftask :=
  let '(w, child) := s in
  let pidx := aget (-1) (ft_fd_table parent) k in
  if (pidx <? 0) || (FD_POOL_SIZE <=? pidx) then (w, set_fd child k (-1))
  else if bool_decide (fo_type (slot_at w pidx) = FDT_FREE) then (w, set_fd child k (-1))
  else
    let '(n, w) := pool_copy w pidx in
    if n <? 0 then (w, set_fd child k (-1))
    else (let '(_, w) := fd_obj_ref w n in w, set_fd child k (i16 n)).

(** The descriptor part of [fork]: the table, then the close-on-exec bits. *)
Definition fork_fds (w : fdw) (child parent : ftask) : fdw * ftask :=
  let '(w, child) := for_range 0 TASK_MAX_FD (fork_fd parent) (w, child) in
  (w, mk_ftask (ft_fd_table child) (ft_fd_cloexec parent) (ft_is_user_process child)).

Definition inherit_fd (parent : ftask) (s : fdw * ftask) (fd : Z) : fdw * ftask :=
  let '(w, child) := s in
  if get_cloexec parent fd then (w, set_fd child fd (-1))
  else
    let pidx := aget (-1) (ft_fd_table parent) fd in
    if (pidx <? 0) || (FD_POOL_SIZE <=? pidx) then (w, set_fd child fd (-1))
    else if bool_decide (fo_type (slot_at w pidx) = FDT_FREE) || bool_decide (fo_type (slot_at w pidx) = FDT_EPOLL)
    then (w, set_fd child fd (-1))
    else
      let '(n, w) := pool_copy w pidx in
      if n <? 0 then (w, set_fd child fd (-1))
      else
        let '(rc, w) := fd_obj_ref w n in
        if negb (rc =? 0) then (fd_pool_free w n, set_fd child fd (-1))
        else (w, set_fd child fd (i16 n)).

Definition fd_table_inherit (w : fdw) (child parent : ftask) : fdw * ftask :=
  if negb (ft_is_user_process parent) then
    (w, for_range 0 TASK_MAX_FD (fun c fd => set_fd c fd (-1)) child)
  else for_range 0 TASK_MAX_FD (inherit_fd parent) (w, child).

(** The clean-up of an exiting process and of [exec_wrapper_close_fds]: no
    [fd_close_notify] here. *)
Definition exit_fd (s : fdw * ftask) (fd : Z) : fdw * ftask :=
  let '(w, t) := s in
  let '(idx, t) := task_take_fd t fd in
  if (idx <? 0) || (FD_POOL_SIZE <=? idx) then (w, t)
  else (fd_pool_free (fd_obj_close w idx) idx, t).

Definition exit_fds (w : fdw) (t : ftask) : fdw * ftask := for_range 0 TASK_MAX_FD exit_fd (w, t).
End operations.

(** ** The ownership ledger

    [refs idx ts] counts the descriptors of all tasks that name slot [idx] and
    [uses f w] the slots that hold file [f].  While a system call runs, [h] is what
    it holds of the slots and [g] of the file references. *)

Definition ind (a b : Z) : Z := Z.b2z (a =? b).
Definition table_refs (idx : Z) (t : list Z) : Z := lsum (fun e => ind e idx) t.
Definition refs (idx : Z) (ts : list ftask) : Z := lsum (fun t => table_refs idx (ft_fd_table t)) ts.
Definition holds (f : Z) (o : fd_obj_t) : Z := Z.b2z (bool_decide (fo_file o = Some f)).
Definition uses (f : Z) (w : fdw) : Z := lsum (holds f) (w_pool w).
Definition used (o : fd_obj_t) : Z := Z.b2z (negb (bool_decide (fo_type o = FDT_FREE))).
Definition refcnt (w : fdw) (f : Z) : Z := match w_files w !! f with Some v => vf_refcnt v | None => 0 end.

#[local] Arguments uses : simpl never.
#[local] Arguments refs : simpl never.
#[local] Arguments table_refs : simpl never.

Record world_ok (w : fdw) (g : Z -> Z) : Prop := {
  wo_pool : length (w_pool w) = Z.to_nat FD_POOL_SIZE;
  wo_files : forall f, uses f w + g f = refcnt w f;
  wo_live : forall f v, w_files w !! f = Some v -> 0 < vf_refcnt v;
  wo_free : forall i, 0 <= i < FD_POOL_SIZE -> fo_type (slot_at w i) = FDT_FREE -> fo_file (slot_at w i) = None;
}.

Definition entry_ok (e : Z) : Prop := e = -1 \/ 0 <= e < FD_POOL_SIZE.
Definition table_ok (t : ftask) : Prop :=
  Z.of_nat (length (ft_fd_table t)) = TASK_MAX_FD /\ Forall entry_ok (ft_fd_table t).

(** Slot [i] is in use exactly when one descriptor, or the running call, holds it. *)
Definition owned (w : fdw) (ts : list ftask) (h : Z -> Z) : Prop :=
  forall i, 0 <= i < FD_POOL_SIZE -> refs i ts + h i = used (slot_at w i).

Record ledger (w : fdw) (ts : list ftask) (h g : Z -> Z) : Prop := {
  lg_world : world_ok w g;
  lg_tables : Forall table_ok ts;
  lg_owned : owned w ts h;
}.

Definition zero (_ : Z) : Z := 0.
Definition fd_inv (w : fdw) (ts : list ftask) : Prop := ledger w ts zero zero.

Lemma ind_eq a b : ind a b = if decide (a = b) then 1 else 0.
Proof. unfold ind. destruct (Z.eqb_spec a b), (decide (a = b)); done. Qed.

Lemma ind_range a b : 0 <= ind a b <= 1.
Proof. rewrite ind_eq. case_decide; lia. Qed.

Lemma holds_range f o : 0 <= holds f o <= 1.
Proof. unfold holds. destruct (bool_decide _); cbn; lia. Qed.

Lemma table_refs_nonneg i t : 0 <= table_refs i t.
Proof. apply lsum_nonneg. intros. apply ind_range. Qed.

Lemma refs_nonneg i ts : 0 <= refs i ts.
Proof. apply lsum_nonneg. intros. apply table_refs_nonneg. Qed.

Lemma uses_bound f w : length (w_pool w) = Z.to_nat FD_POOL_SIZE -> 0 <= uses f w <= FD_POOL_SIZE.
Proof.
  intros Hl. split; [apply lsum_nonneg; intros; apply holds_range|].
  pose proof (lsum_le_length (holds f) (w_pool w)). unfold uses. rewrite Hl in *. 
  enough (forall x, holds f x <= 1) by (specialize (H ltac:(done)); lia). intros. apply holds_range.
Qed.

Lemma slot_at_set w i o j :
  length (w_pool w) = Z.to_nat FD_POOL_SIZE -> 0 <= i < FD_POOL_SIZE -> 0 <= j ->
  slot_at (set_slot w i o) j = if decide (j = i) then o else slot_at w j.
Proof.
  intros Hl Hi Hj. unfold slot_at. cbn. case_decide as E; [subst; apply aget_aset_eq; lia|apply aget_aset_ne; lia].
Qed.

Lemma uses_set w i o f :
  length (w_pool w) = Z.to_nat FD_POOL_SIZE -> 0 <= i < FD_POOL_SIZE ->
  uses f (set_slot w i o) = uses f w - holds f (slot_at w i) + holds f o.
Proof. intros Hl Hi. apply lsum_aset. rewrite Hl. lia. Qed.

Lemma uses_ge w i f :
  length (w_pool w) = Z.to_nat FD_POOL_SIZE -> 0 <= i < FD_POOL_SIZE -> holds f (slot_at w i) <= uses f w.
Proof.
  intros Hl Hi. eapply lsum_lookup; [intros; apply holds_range|]. apply aget_lookup. rewrite Hl. lia.
Qed.

(** *** Steps that only touch wait queues and epoll instances *)

Definition core (w : fdw) : list (fd_type_t * option Z) * gmap Z vfs_file_t :=
  (map (fun o => (fo_type o, fo_file o)) (w_pool w), w_files w).

Lemma core_length w w' : core w' = core w -> length (w_pool w') = length (w_pool w).
Proof. intros [= E _]. apply (f_equal length) in E. by rewrite !length_map in E. Qed.

Lemma core_slot w w' i :
  core w' = core w -> fo_type (slot_at w' i) = fo_type (slot_at w i) /\ fo_file (slot_at w' i) = fo_file (slot_at w i).
Proof.
  intros [= E _]. apply (f_equal (fun l => l !! Z.to_nat i)) in E. rewrite !list_lookup_fmap in E.
  unfold slot_at, aget. destruct (w_pool w' !! _), (w_pool w !! _); cbn in *; by simplify_eq.
Qed.

Lemma core_uses w w' f : core w' = core w -> uses f w' = uses f w.
Proof.
  intros [= E _]. unfold uses.
  assert (forall l, lsum (holds f) l = lsum (fun c => Z.b2z (bool_decide (c.2 = Some f))) (map (fun o => (fo_type o, fo_file o)) l)) as Hl.
  { induction l as [|o l IH]; [done|]. cbn [map]. rewrite !lsum_cons, IH. done. }
  by rewrite !Hl, E.
Qed.

Lemma ledger_core w w' ts h g : core w' = core w -> ledger w ts h g -> ledger w' ts h g.
Proof.
  intros E [[Hp Hf Hl Hfr] Ht Ho].
  assert (w_files w' = w_files w) as Ew by (by injection E).
  assert (forall f, refcnt w' f = refcnt w f) as Er by (intros; unfold refcnt; by rewrite Ew).
  split; [split|done|].
  - by rewrite (core_length w w' E).
  - intros f. by rewrite (core_uses w w' f E), Er, Hf.
  - by rewrite Ew.
  - intros i Hi. destruct (core_slot w w' i E) as [-> ->]. auto.
  - intros i Hi. unfold used. destruct (core_slot w w' i E) as [-> _]. by apply Ho.
Qed.

Lemma core_set_same w i o :
  fo_type o = fo_type (slot_at w i) -> fo_file o = fo_file (slot_at w i) -> core (set_slot w i o) = core w.
Proof.
  intros Ht Hf. unfold core. cbn. f_equal. unfold aset. 
  destruct (w_pool w !! Z.to_nat i) as [o'|] eqn:E.
  - change (map ?f ?l) with (fmap f l). rewrite list_fmap_insert. apply list_insert_id.
    rewrite list_lookup_fmap, E. cbn. unfold slot_at, aget in *. rewrite E in *. cbn in *. by rewrite Ht, Hf.
  - rewrite list_insert_ge; [done|]. by apply lookup_ge_None.
Qed.

Lemma core_set_wq w i wq : core (set_slot w i (obj_set_wq (slot_at w i) wq)) = core w.
Proof. by apply core_set_same. Qed.

Lemma core_set_epoll w i e : core (set_epoll w i e) = core w.
Proof. done. Qed.

Lemma core_register w p e i : core (slot_register w p e i) = core w.
Proof. unfold slot_register. destruct (wq_register _ _ _); [apply core_set_wq|done]. Qed.

Lemma core_unregister w p e i : core (slot_unregister w p e i) = core w.
Proof. apply core_set_wq. Qed.

Lemma core_close_notify_one w i : core (close_notify_one w i) = core w.
Proof.
  unfold close_notify_one. destruct (fo_wq (slot_at w i)) as [|[ep item] wq]; [done|]. cbn zeta.
  repeat case_if; rewrite ?core_register, ?core_set_epoll, ?core_unregister; apply core_set_wq.
Qed.

Lemma core_fd_close_notify w i : core (fd_close_notify w i) = core w.
Proof.
  unfold fd_close_notify. case_if; [done|]. generalize (notify_measure w i). intros fuel. clear E. revert w.
  induction fuel as [|fuel IH]; intros w; cbn [close_notify_loop]; [done|].
  destruct (fo_wq (slot_at w i)) eqn:E; [done|]. by rewrite IH, core_close_notify_one.
Qed.

Lemma core_log w e : core (log w e) = core w.
Proof. done. Qed.

Lemma core_epoll_destroy `{FdEnv} w ep : core (epoll_destroy w ep) = core w.
Proof.
  unfold epoll_destroy. destruct (epoll_get w ep) as [e|]; [|done]. cbn zeta.
  match goal with |- context [for_range 0 ?n ?body w] => assert (core (for_range 0 n body w) = core w) as Hc end.
  { apply (for_range_ind (fun _ w' => core w' = core w)); [lia|done|]. intros i w' _ <-.
    case_if; [apply core_unregister|done]. }
  destruct (ep_blocked_task e) as [t|]; [destruct (task_blocked t)|]; by rewrite core_set_epoll, ?core_log.
Qed.

(** *** Pool operations on the ledger *)

(** What a call has to account for when it rewrites slot [i]. *)
Lemma ledger_set w ts h g h' g' i o :
  ledger w ts h g -> 0 <= i < FD_POOL_SIZE -> (fo_type o = FDT_FREE -> fo_file o = None) ->
  (forall f, g' f = g f + holds f (slot_at w i) - holds f o) ->
  (forall j, 0 <= j < FD_POOL_SIZE -> h' j = h j + ind j i * (used o - used (slot_at w i))) ->
  ledger (set_slot w i o) ts h' g'.
Proof.
  intros [[Hp Hf Hl Hfr] Ht Ho] Hi Hfree Hg Hh. split; [split|done|].
  - cbn. by rewrite length_aset.
  - intros f. rewrite uses_set by done. change (refcnt (set_slot w i o) f) with (refcnt w f).
    specialize (Hg f). specialize (Hf f). lia.
  - done.
  - intros j Hj. rewrite slot_at_set by (done || lia). case_decide; auto.
  - intros j Hj. rewrite slot_at_set by (done || lia). specialize (Hh j Hj). specialize (Ho j Hj).
    rewrite ind_eq in Hh. case_decide; subst; lia.
Qed.

Lemma used_free o : fo_type o = FDT_FREE -> used o = 0.
Proof. intros E. unfold used. by rewrite bool_decide_eq_true_2. Qed.

Lemma used_busy o : fo_type o <> FDT_FREE -> used o = 1.
Proof. intros E. unfold used. by rewrite bool_decide_eq_false_2. Qed.

Lemma holds_None f o : fo_file o = None -> holds f o = 0.
Proof. intros E. unfold holds. by rewrite E. Qed.

(** The state of the pool when a call holds a fresh slot [n]. *)
Definition fresh_slot (w w' : fdw) (n : Z) : Prop :=
  0 <= n < FD_POOL_SIZE /\ fo_type (slot_at w n) = FDT_FREE /\
  fo_type (slot_at w' n) = FDT_ALLOCATED /\ fo_file (slot_at w' n) = None /\
  w_files w' = w_files w /\ w_epolls w' = w_epolls w /\ w_log w' = w_log w /\
  forall j, 0 <= j -> j <> n -> slot_at w' j = slot_at w j.

Definition plus (h : Z -> Z) (n : Z) : Z -> Z := fun i => h i + ind i n.

Lemma fd_pool_alloc_spec w ts h g :
  ledger w ts h g ->
  (exists n w', fd_pool_alloc w = (n, w') /\ fresh_slot w w' n /\ ledger w' ts (plus h n) g) \/
  (fd_pool_alloc w = (-1, w) /\ forall i, 0 <= i < FD_POOL_SIZE -> fo_type (slot_at w i) <> FDT_FREE).
Proof.
  intros Hlg. pose proof (wo_pool _ _ (lg_world _ _ _ _ Hlg)) as Hp.
  unfold fd_pool_alloc. destruct (list_find _ _) as [[i o]|] eqn:E.
  - left. apply list_find_Some in E as (Hi & Ho & _). pose proof (lookup_lt_Some _ _ _ Hi) as Hlt.
    assert (slot_at w (Z.of_nat i) = o) as Hat by (unfold slot_at, aget; by rewrite Nat2Z.id, Hi).
    assert (0 <= Z.of_nat i < FD_POOL_SIZE) as Hr by lia.
    pose proof (wo_free _ _ (lg_world _ _ _ _ Hlg) _ Hr) as Hnone. rewrite Hat in Hnone.
    eexists _, _. split; [done|]. split.
    + unfold fresh_slot. rewrite !slot_at_set by (done || lia). rewrite decide_True by done. cbn.
      split_and!; try lia; try done; [by rewrite Hat|]. intros j Hj Hne. rewrite slot_at_set by (done || lia). by rewrite decide_False.
    + eapply ledger_set; try done.
      * intros f. rewrite Hat, holds_None, (holds_None f (obj_set_file _ _)) by auto. lia.
      * intros j Hj. unfold plus. rewrite Hat, (used_free o), used_busy by done. lia.
  - right. split; [done|]. intros i Hi Hfree. apply list_find_None in E. rewrite Forall_forall in E.
    apply (E (slot_at w i)); [|done]. eapply list_elem_of_lookup_2. apply (aget_lookup obj_zero). rewrite Hp. lia.
Qed.

Definition minus (h : Z -> Z) (n : Z) : Z -> Z := fun i => h i - ind i n.

Lemma ledger_ext w ts h h' g g' :
  ledger w ts h g -> (forall i, 0 <= i < FD_POOL_SIZE -> h' i = h i) -> (forall f, g' f = g f) -> ledger w ts h' g'.
Proof.
  intros [[Hp Hf Hl Hfr] Ht Ho] Hh Hg. split; [split|done|]; try done.
  - intros f. by rewrite Hg.
  - intros i Hi. rewrite Hh by done. by apply Ho.
Qed.

Lemma in_pool_out idx : (idx <? 0) || (FD_POOL_SIZE <=? idx) = negb (in_pool idx).
Proof.
  unfold in_pool. destruct (Z.ltb_spec idx 0), (Z.leb_spec FD_POOL_SIZE idx), (Z.leb_spec 0 idx), (Z.ltb_spec idx FD_POOL_SIZE);
    done || lia.
Qed.

Lemma in_pool_true idx : in_pool idx = true <-> 0 <= idx < FD_POOL_SIZE.
Proof. unfold in_pool. rewrite andb_true_iff, Z.leb_le, Z.ltb_lt. done. Qed.

(** A freed slot gives up the file reference it still holds. *)
Lemma fd_pool_free_gen w ts h g n :
  ledger w ts h g -> 0 <= n < FD_POOL_SIZE -> fo_type (slot_at w n) <> FDT_FREE ->
  ledger (fd_pool_free w n) ts (minus h n) (fun f => g f + holds f (slot_at w n)).
Proof.
  intros Hlg Hn Hbusy. unfold fd_pool_free. rewrite in_pool_out. rewrite (proj2 (in_pool_true n)) by done. cbn [negb].
  eapply ledger_set; try done.
  - intros f. rewrite (holds_None f (mk_obj _ _ _ _ _ _ _ _)) by done. lia.
  - intros j Hj. unfold minus. rewrite (used_busy (slot_at w n)), (used_free (mk_obj _ _ _ _ _ _ _ _)) by done. lia.
Qed.

Lemma fd_pool_free_spec w ts h g n :
  ledger w ts h g -> 0 <= n < FD_POOL_SIZE -> fo_type (slot_at w n) <> FDT_FREE -> fo_file (slot_at w n) = None ->
  ledger (fd_pool_free w n) ts (minus h n) g.
Proof.
  intros Hlg Hn Hbusy Hnone. eapply ledger_ext; [by apply fd_pool_free_gen|done|].
  intros f. cbn beta. rewrite holds_None by done. lia.
Qed.

Lemma refcnt_bound w ts h g f : ledger w ts h g -> (forall f, -1 <= g f <= 1) -> -1 <= refcnt w f <= FD_POOL_SIZE + 1.
Proof.
  intros [[Hp Hf _ _] _ _] Hg. pose proof (uses_bound f w Hp). specialize (Hf f). specialize (Hg f). lia.
Qed.

(** Taking and dropping a reference to an open file. *)
Lemma vfs_ref_spec w ts h g f :
  ledger w ts h g -> (forall f, -1 <= g f <= 1) -> w_files w !! f <> None ->
  ledger (vfs_ref w f) ts h (plus g f).
Proof.
  intros Hlg Hg Hlive. pose proof (refcnt_bound w ts h g f Hlg Hg) as Hb. pose proof Hlg as [[Hp Hf Hl Hfr] Ht Ho].
  destruct (w_files w !! f) as [v|] eqn:E; [|done]. unfold refcnt in Hb. rewrite E in Hb. pose proof (Hl f v E).
  split; [split|done|done]; try done.
  - intros f'. change (uses f' (vfs_ref w f)) with (uses f' w). unfold refcnt, vfs_ref, plus. cbn.
    specialize (Hf f'). unfold refcnt in Hf. rewrite ind_eq. case_decide; subst.
    + rewrite lookup_alter_eq, E in *. cbn. rewrite u32_id by lia. lia.
    + rewrite lookup_alter_ne by done. lia.
  - intros f' v'. cbn. intros Hv. destruct (decide (f' = f)); subst.
    + rewrite lookup_alter_eq, E in Hv. cbn in Hv. injection Hv as <-. cbn. rewrite u32_id by lia. lia.
    + rewrite lookup_alter_ne in Hv by done. eauto.
Qed.

Lemma vfs_close_spec w ts h g f :
  ledger w ts h g -> (forall f, -1 <= g f <= 1) -> w_files w !! f <> None ->
  ledger (vfs_close w f) ts h (minus g f) /\ w_pool (vfs_close w f) = w_pool w.
Proof.
  intros Hlg Hg Hlive. pose proof (refcnt_bound w ts h g f Hlg Hg) as Hb. pose proof Hlg as [[Hp Hf Hl Hfr] Ht Ho].
  unfold vfs_close. destruct (w_files w !! f) as [v|] eqn:E; [|done]. unfold refcnt in Hb. rewrite E in Hb.
  pose proof (Hl f v E). rewrite u32_id by lia. cbn zeta.
  assert (forall f', f' <> f -> minus g f f' = g f') as Hm by (intros; unfold minus; rewrite ind_eq, decide_False; lia || done).
  assert (minus g f f = g f - 1) as Hm' by (unfold minus; rewrite ind_eq, decide_True; done).
  pose proof (Hf f) as Hff. unfold refcnt in Hff. rewrite E in Hff. cbn in Hff.
  case_if; (split; [|done]); (split; [split|done|done]; try done); cbn.
  - intros f'. change (uses f' (set_files w ?m)) with (uses f' w). unfold refcnt. cbn. specialize (Hf f'). unfold refcnt in Hf.
    destruct (decide (f' = f)) as [->|Hne]; [rewrite lookup_insert_eq, Hm'; cbn; lia|].
    rewrite lookup_insert_ne, Hm by done. lia.
  - intros f' v' Hv. destruct (decide (f' = f)) as [->|]; [rewrite lookup_insert_eq in Hv; injection Hv as <-; cbn; lia|].
    rewrite lookup_insert_ne in Hv by done. eauto.
  - intros f'. change (uses f' (log (set_files w ?m) ?e)) with (uses f' w). unfold refcnt. cbn. specialize (Hf f'). unfold refcnt in Hf.
    destruct (decide (f' = f)) as [->|Hne]; [rewrite lookup_delete_eq, Hm'; cbn; lia|].
    rewrite lookup_delete_ne, Hm by done. lia.
  - intros f' v' Hv. apply lookup_delete_Some in Hv as [_ Hv]. eauto.
Qed.

Lemma slot_file_live w ts h i f :
  ledger w ts h zero -> 0 <= i < FD_POOL_SIZE -> fo_file (slot_at w i) = Some f -> w_files w !! f <> None.
Proof.
  intros [[Hp Hf _ _] _ _] Hi Hfile Hnone. pose proof (uses_ge w i f Hp Hi) as Hge.
  specialize (Hf f). unfold refcnt, zero in Hf. rewrite Hnone in Hf. unfold holds in Hge.
  rewrite bool_decide_eq_true_2 in Hge by done. cbn in Hge. lia.
Qed.

Lemma holds_Some f f' o : fo_file o = Some f -> holds f' o = ind f' f.
Proof.
  intros E. unfold holds. rewrite E, ind_eq. case_decide; subst.
  - by rewrite bool_decide_eq_true_2.
  - rewrite bool_decide_eq_false_2; [done|congruence].
Qed.

Section ops_spec.
Context `{FdEnv}.

(** Closing the object of a slot drops its reference and empties the slot. *)
Lemma fd_obj_close_spec w ts h i :
  ledger w ts h zero -> 0 <= i < FD_POOL_SIZE -> fo_type (slot_at w i) <> FDT_FREE ->
  let w' := fd_obj_close w i in
  ledger w' ts h zero /\ fo_type (slot_at w' i) = fo_type (slot_at w i) /\ fo_file (slot_at w' i) = None.
Proof using Type.
  intros Hlg Hi Hbusy. unfold fd_obj_close. destruct (Z.ltb_spec i 0), (Z.leb_spec FD_POOL_SIZE i); cbn [orb]; try lia.
  rewrite bool_decide_eq_false_2 by done. destruct (fo_file (slot_at w i)) as [f|] eqn:Ef.
  - pose proof (slot_file_live _ _ _ _ _ Hlg Hi Ef) as Hlive.
    destruct (vfs_close_spec w ts h zero f Hlg) as [Hlg' Hpool]; [unfold zero; lia|done|].
    assert (slot_at (vfs_close w f) i = slot_at w i) as Hat by (unfold slot_at; by rewrite Hpool).
    pose proof (wo_pool _ _ (lg_world _ _ _ _ Hlg')) as Hp. split.
    + rewrite Hat. eapply ledger_set; try done.
      * intros f'. rewrite Hat. rewrite (holds_Some f), holds_None by done. unfold minus, zero. lia.
      * intros j Hj. rewrite Hat. unfold used. cbn. lia.
    + cbn zeta. rewrite slot_at_set, decide_True by (done || lia). by rewrite Hat.
  - case_bool_decide.
    + pose proof (core_epoll_destroy w (fo_u (slot_at w i))) as Hc.
      destruct (core_slot _ _ i Hc) as [-> ->]. split; [by eapply ledger_core|done].
    + destruct (fo_ops (slot_at w i)) as [ops|]; [destruct (ops_close ops)|]; try done. split; [|done].
      by apply (ledger_core w).
Qed.

Lemma release_spec w ts h i :
  ledger w ts h zero -> 0 <= i < FD_POOL_SIZE -> fo_type (slot_at w i) <> FDT_FREE ->
  ledger (fd_pool_free (fd_obj_close w i) i) ts (minus h i) zero.
Proof using Type.
  intros Hlg Hi Hbusy. destruct (fd_obj_close_spec w ts h i Hlg Hi Hbusy) as (Hlg' & Ht & Hnone).
  apply fd_pool_free_spec; try done. by rewrite Ht.
Qed.

Lemma close_slot_spec w ts h i :
  ledger w ts h zero -> 0 <= i < FD_POOL_SIZE -> fo_type (slot_at w i) <> FDT_FREE ->
  ledger (close_slot w i) ts (minus h i) zero.
Proof using Type.
  intros Hlg Hi Hbusy. unfold close_slot. pose proof (core_fd_close_notify w i) as Hc.
  apply release_spec; [by eapply ledger_core|done|]. by destruct (core_slot _ _ i Hc) as [-> _].
Qed.

(** Copying a slot and taking the reference that the copy needs. *)
Lemma pool_copy_spec w ts h i :
  ledger w ts h zero -> 0 <= i < FD_POOL_SIZE -> fo_type (slot_at w i) <> FDT_FREE ->
  (pool_copy w i = (-1, w) /\ forall j, 0 <= j < FD_POOL_SIZE -> fo_type (slot_at w j) <> FDT_FREE) \/
  exists n w1, pool_copy w i = (n, w1) /\ 0 <= n < FD_POOL_SIZE /\ fo_type (slot_at w n) = FDT_FREE /\
    let '(rc, w2) := fd_obj_ref w1 n in
    ledger w2 ts (plus h n) zero /\ fo_type (slot_at w2 n) = fo_type (slot_at w i) /\
    fo_file (slot_at w2 n) = fo_file (slot_at w i) /\ (rc <> 0 -> fo_file (slot_at w2 n) = None).
Proof using Type.
  intros Hlg Hi Hbusy. unfold pool_copy.
  destruct (fd_pool_alloc_spec w ts h zero Hlg) as [(n & w' & -> & Hfresh & Hlg')|[-> Hfull]]; [right|by left].
  destruct Hfresh as (Hn & Hfree & Hty & Hnone & Hfiles & _ & _ & Hothers).
  destruct (Z.ltb_spec n 0); [lia|]. assert (n <> i) as Hne by congruence.
  assert (slot_at w' i = slot_at w i) as Hat by (apply Hothers; lia || done).
  pose proof (wo_pool _ _ (lg_world _ _ _ _ Hlg')) as Hp. rewrite Hat.
  set (o := obj_set_wq (slot_at w i) []).
  eexists n, _. split; [done|]. split; [done|]. split; [done|].
  unfold fd_obj_ref. destruct (Z.ltb_spec n 0), (Z.leb_spec FD_POOL_SIZE n); cbn [orb]; try lia.
  assert (slot_at (set_slot w' n o) n = o) as Hnew by (rewrite slot_at_set, decide_True by (done || lia); done).
  rewrite Hnew. rewrite bool_decide_eq_false_2 by done.
  assert (ledger (set_slot w' n o) ts (plus h n) (fun f => - holds f o)) as Hset.
  { eapply ledger_set; try done.
    - intros f. rewrite (holds_None f (slot_at w' n)) by done. unfold zero. lia.
    - intros j Hj. rewrite !used_busy by (congruence || done). lia. }
  change (fo_file o) with (fo_file (slot_at w i)). destruct (fo_file (slot_at w i)) as [f|] eqn:Ef.
  - change (slot_at (vfs_ref ?w f) n) with (slot_at w n). rewrite Hnew. split_and!; [|done..].
    eapply ledger_ext; [apply (vfs_ref_spec _ _ _ _ f) in Hset; [exact Hset| |]|done|].
    + intros f'. pose proof (holds_range f' o). lia.
    + cbn. rewrite Hfiles. exact (slot_file_live w ts h i f Hlg Hi Ef).
    + intros f'. unfold plus, zero. rewrite (holds_Some f f' o) by done. lia.
  - assert (ledger (set_slot w' n o) ts (plus h n) zero) as Hset'.
    { eapply ledger_ext; [exact Hset|done|]. intros f. cbn beta. rewrite holds_None by done. done. }
    change (fo_ops o) with (fo_ops (slot_at w i)). destruct (fo_ops (slot_at w i)) as [ops|].
    + destruct (ops_dup ops) as [dup|].
      * change (slot_at (log ?w ?e) n) with (slot_at w n). rewrite Hnew. split_and!; [by apply (ledger_core (set_slot w' n o))|done..].
      * rewrite Hnew. done.
    + rewrite Hnew. done.
Qed.

Lemma pool_uart_spec w ts h :
  ledger w ts h zero ->
  pool_uart w = (-1, w) \/
  exists n w', pool_uart w = (n, w') /\ 0 <= n < FD_POOL_SIZE /\ fo_type (slot_at w n) = FDT_FREE /\ ledger w' ts (plus h n) zero.
Proof using Type.
  intros Hlg. unfold pool_uart.
  destruct (fd_pool_alloc_spec w ts h zero Hlg) as [(n & w' & -> & Hfresh & Hlg')|[-> _]]; [right|by left].
  destruct Hfresh as (Hn & Hfree & Hty & Hnone & _). destruct (Z.ltb_spec n 0); [lia|].
  eexists n, _. split_and!; [done|lia|lia|done|]. eapply ledger_set; try done.
  - intros f. rewrite !holds_None by done. lia.
  - intros j Hj. rewrite !used_busy by (cbn; congruence). lia.
Qed.
End ops_spec.

(** *** Descriptor tables on the ledger *)

Lemma table_refs_set i tbl fd v :
  0 <= fd < Z.of_nat (length tbl) ->
  table_refs i (aset tbl fd v) = table_refs i tbl - ind (aget (-1) tbl fd) i + ind v i.
Proof. intros Hfd. unfold table_refs. by rewrite (lsum_aset _ (-1)). Qed.

Lemma ind_none i : 0 <= i -> ind (-1) i = 0.
Proof. intros. rewrite ind_eq. by rewrite decide_False by lia. Qed.

Lemma ind_sym a b : ind a b = ind b a.
Proof. unfold ind. by rewrite Z.eqb_sym. Qed.

Lemma table_ok_set_fd t fd v : table_ok t -> entry_ok v -> table_ok (set_fd t fd v).
Proof. intros [Hl He] Hv. split; cbn; [by rewrite length_aset|]. by apply Forall_insert. Qed.

Lemma table_ok_cloexec t fd b : table_ok t -> table_ok (set_cloexec t fd b).
Proof. done. Qed.

Lemma table_entry t fd : table_ok t -> 0 <= fd < TASK_MAX_FD -> entry_ok (aget (-1) (ft_fd_table t) fd).
Proof.
  intros [Hl He] Hfd. rewrite Forall_forall in He. apply He.
  eapply list_elem_of_lookup_2, aget_lookup. lia.
Qed.

Section tables.
Context (w : fdw) (ts : list ftask) (k : nat) (t : ftask) (h g : Z -> Z).
Hypothesis Hlg : ledger w ts h g.
Hypothesis Hk : ts !! k = Some t.

Lemma running_ok : table_ok t.
Proof using Hlg Hk. destruct Hlg as [_ Ht _]. rewrite Forall_forall in Ht. apply Ht. by eapply list_elem_of_lookup_2. Qed.

Lemma ledger_table t' h' :
  table_ok t' ->
  (forall i, 0 <= i < FD_POOL_SIZE -> h' i = h i + table_refs i (ft_fd_table t) - table_refs i (ft_fd_table t')) ->
  ledger w (<[k := t']> ts) h' g.
Proof using Hlg Hk.
  intros Hok Hh. destruct Hlg as [Hw Ht Ho]. split; [done|by apply Forall_insert|].
  intros i Hi. unfold refs. rewrite (lsum_insert _ _ _ t) by done. specialize (Ho i Hi). unfold refs in Ho.
  rewrite Hh by done. lia.
Qed.

(** A descriptor in use names a slot in use. *)
Lemma entry_used fd idx :
  0 <= fd < TASK_MAX_FD -> aget (-1) (ft_fd_table t) fd = idx -> 0 <= idx -> (forall i, 0 <= h i) ->
  0 <= idx < FD_POOL_SIZE /\ fo_type (slot_at w idx) <> FDT_FREE.
Proof using Hlg Hk.
  intros Hfd He Hidx Hh. pose proof running_ok as Hok. pose proof (table_entry t fd Hok Hfd) as Hent. rewrite He in Hent.
  destruct Hent as [?|Hr]; [lia|]. split; [done|]. intros Hfree.
  pose proof (lg_owned _ _ _ _ Hlg idx Hr) as Ho. rewrite used_free in Ho by done.
  assert (1 <= refs idx ts); [|specialize (Hh idx); lia].
  assert (1 <= table_refs idx (ft_fd_table t)) as Ht.
  { pose proof (lsum_lookup (fun e => ind e idx) (ft_fd_table t) (Z.to_nat fd) idx) as Hs. cbn beta in Hs. rewrite ind_eq, decide_True in Hs by done.
    apply Hs; [intros; apply ind_range|]. rewrite <-He. apply aget_lookup. destruct Hok. lia. }
  pose proof (lsum_lookup (fun t => table_refs idx (ft_fd_table t)) ts k t) as Hs.
  unfold refs. specialize (Hs ltac:(intros; apply table_refs_nonneg) Hk). cbn beta in Hs. lia.
Qed.

Lemma ledger_take fd idx t' :
  0 <= fd < TASK_MAX_FD -> task_take_fd t fd = (idx, t') ->
  idx = aget (-1) (ft_fd_table t) fd /\ t' = set_fd t fd (-1) /\
  ledger w (<[k := t']> ts) (if decide (0 <= idx) then plus h idx else h) g.
Proof using Hlg Hk.
  intros Hfd Htake. unfold task_take_fd in Htake. destruct (Z.ltb_spec fd 0), (Z.leb_spec TASK_MAX_FD fd); cbn [orb] in *; try lia.
  injection Htake as <- <-. split; [done|]. split; [done|]. pose proof running_ok as Hok.
  apply ledger_table; [apply table_ok_set_fd; [done|by left]|]. intros i Hi. cbn.
  rewrite table_refs_set, (ind_none i) by (destruct Hok; lia).
  pose proof (table_entry t fd Hok Hfd) as [->|He].
  - rewrite decide_False, ind_none by lia. lia.
  - rewrite decide_True by lia. unfold plus. rewrite (ind_sym i). lia.
Qed.

Lemma ledger_put fd n b :
  0 <= fd < TASK_MAX_FD -> aget (-1) (ft_fd_table t) fd = -1 -> 0 <= n < FD_POOL_SIZE ->
  ledger w (<[k := set_cloexec (set_fd t fd (i16 n)) fd b]> ts) (minus h n) g /\
  ledger w (<[k := set_fd t fd (i16 n)]> ts) (minus h n) g.
Proof using Hlg Hk.
  intros Hfd Hempty Hn. pose proof running_ok as Hok. rewrite i16_id by lia.
  assert (table_ok (set_fd t fd n)) as Hok' by (apply table_ok_set_fd; [done|by right]).
  split; (apply ledger_table; [done|]); intros i Hi; cbn;
    rewrite table_refs_set, Hempty, (ind_none i) by (destruct Hok; lia);
    unfold minus; rewrite (ind_sym i); lia.
Qed.

(** The slot that an open descriptor names. *)
Lemma task_get_fd_Some fd i :
  task_get_fd w t fd = Some i ->
  0 <= fd < TASK_MAX_FD /\ aget (-1) (ft_fd_table t) fd = i /\ 0 <= i < FD_POOL_SIZE /\ fo_type (slot_at w i) <> FDT_FREE.
Proof using Type.
  unfold task_get_fd. destruct (Z.ltb_spec fd 0), (Z.leb_spec TASK_MAX_FD fd); cbn [orb]; try done.
  intros Hg. case_if_in Hg; [done|]. case_bool_decide; [done|]. injection Hg as <-. auto with lia.
Qed.
End tables.

Lemma first_fd_spec tbl lo :
  0 <= lo -> Z.of_nat (length tbl) = TASK_MAX_FD ->
  first_fd tbl lo = -1 \/ (lo <= first_fd tbl lo < TASK_MAX_FD /\ aget (-1) tbl (first_fd tbl lo) = -1).
Proof.
  intros Hlo Hlen. unfold first_fd. destruct (filter _ _) as [|fd l] eqn:E; [by left|right]. cbn.
  assert (fd ∈ filter (fun i => aget 0 tbl i = -1) (seqZ lo (TASK_MAX_FD - lo))) as Hin by (rewrite E; set_solver).
  apply list_elem_of_filter in Hin as [Hfd Hin]. apply elem_of_seqZ in Hin. split; [lia|].
  assert (tbl !! Z.to_nat fd = Some (aget 0 tbl fd)) as Hl by (apply aget_lookup; lia).
  unfold aget in *. rewrite Hl in *. done.
Qed.

(** ** Every system call keeps the invariant *)

Lemma plus_minus h n i : minus (plus h n) n i = h i.
Proof. unfold plus, minus. lia. Qed.

Lemma plus_nonneg n : forall i, 0 <= plus zero n i.
Proof. intros i. unfold plus, zero. pose proof (ind_range i n). lia. Qed.

Section handlers.
Context `{FdEnv}.
Context (w : fdw) (ts : list ftask) (k : nat) (t : ftask).
Hypothesis Hinv : fd_inv w ts.
Hypothesis Hk : ts !! k = Some t.

Lemma take_close fd idx t' :
  0 <= fd < TASK_MAX_FD -> task_take_fd t fd = (idx, t') ->
  (in_pool idx = true -> fd_inv (close_slot w idx) (<[k := t']> ts) /\ fd_inv (fd_pool_free (fd_obj_close w idx) idx) (<[k := t']> ts)) /\
  (in_pool idx = false -> idx = -1 /\ fd_inv w (<[k := t']> ts)).
Proof using Hinv Hk.
  intros Hfd Htake. pose proof (running_ok w ts k t zero zero Hinv Hk) as Hok.
  destruct (ledger_take w ts k t zero zero Hinv Hk fd idx t' Hfd Htake) as (Hidx & -> & Hlg).
  pose proof (table_entry t fd Hok Hfd) as He. rewrite <-Hidx in He. unfold in_pool.
  destruct (decide (0 <= idx)) as [Hpos|Hneg].
  - destruct He as [?|Hr]; [lia|]. split; [intros _|intros ?; zbool; destruct (Z.leb_spec 0 idx), (Z.ltb_spec idx FD_POOL_SIZE); done || lia].
    destruct (entry_used w ts k t zero zero Hinv Hk fd idx) as [_ Hbusy]; [done..|].
    split; (eapply ledger_ext; [apply close_slot_spec || apply release_spec; done| |done]); intros i _; by rewrite plus_minus.
  - destruct He as [->|?]; [|lia]. split; [done|]. intros _. split; [done|]. exact Hlg.
Qed.

Lemma close_handler_inv fd r w' t' :
  close_handler w t fd = (r, w', t') -> fd_inv w' (<[k := t']> ts).
Proof using Hinv Hk.
  unfold close_handler. destruct (Z.ltb_spec fd 0), (Z.leb_spec TASK_MAX_FD fd); cbn [orb];
    [intros [= _ <- <-]; by rewrite list_insert_id..|].
  destruct (task_take_fd t fd) as [idx t1] eqn:Et. destruct (take_close fd idx t1 ltac:(lia) Et) as [Hin Hout].
  rewrite in_pool_out. destruct (in_pool idx); cbn [negb]; intros [= _ <- <-]; [by apply Hin|by apply Hout].
Qed.

(** The file that [vfs_open] made is in the hands of the caller. *)
Lemma open_file_ledger f v :
  w_files w !! f = None ->
  ledger (set_files w (<[f := mk_file (vf_flags v) 1 (vf_path v)]> (w_files w))) ts zero (fun f' => ind f' f).
Proof using Hinv.
  intros Hfresh. destruct Hinv as [[Hp Hf Hl Hfr] Ht Ho]. split; [split|done|done]; try done.
  - intros f'. change (uses f' (set_files w ?m)) with (uses f' w). specialize (Hf f'). unfold refcnt in *. cbn.
    unfold zero in Hf. rewrite ind_eq. case_decide; subst.
    + rewrite lookup_insert_eq, Hfresh in *. cbn in *. lia.
    + rewrite lookup_insert_ne by done. lia.
  - intros f' v'. cbn. intros [[_ <-]|[_ Hv]]%lookup_insert_Some; [done|eauto].
Qed.

Lemma openat_install_inv f v r w' t' :
  w_files w !! f = None ->
  openat_install (set_files w (<[f := mk_file (vf_flags v) 1 (vf_path v)]> (w_files w))) t f = (r, w', t') ->
  fd_inv w' (<[k := t']> ts).
Proof using Hinv Hk.
  intros Hfresh. pose proof (open_file_ledger f v Hfresh) as Hlg0. set (w0 := set_files w _) in *.
  unfold openat_install.
  destruct (fd_pool_alloc_spec w0 ts zero _ Hlg0) as [(n & w1 & -> & Hfr & Hlg1)|[-> _]].
  2: { cbn. intros [= _ <- <-]. rewrite list_insert_id by done.
       destruct (vfs_close_spec w0 ts zero _ f Hlg0) as [Hlg _]; [intros; pose proof (ind_range f0 f); lia|unfold w0; cbn; by rewrite lookup_insert_eq|].
       eapply ledger_ext; [exact Hlg|done|]. intros. unfold minus, zero. lia. }
  destruct Hfr as (Hn & Hfree & Hty & Hnone & Hfiles & _). destruct (Z.ltb_spec n 0); [lia|].
  unfold fd_obj_attach_vfs. destruct (Z.ltb_spec n 0), (Z.leb_spec FD_POOL_SIZE n); cbn [orb]; try lia.
  assert (w_files w1 !! f = Some (mk_file (vf_flags v) 1 (vf_path v))) as Ef by (rewrite Hfiles; unfold w0; cbn; by rewrite lookup_insert_eq).
  rewrite Ef. cbn [vf_flags vf_path]. set (o := mk_obj FDT_VFS _ _ _ _ _ _ _).
  assert (ledger (set_slot w1 n o) ts (plus zero n) zero) as Hlg2.
  { eapply ledger_set; try done.
    - intros f'. rewrite (holds_None _ (slot_at w1 n)) by done. rewrite (holds_Some f) by done. unfold zero. lia.
    - intros j Hj. rewrite !used_busy by (cbn; congruence). lia. }
  pose proof (running_ok _ _ _ _ _ _ Hinv Hk) as Hok. unfold task_alloc_fd.
  destruct (first_fd_spec (ft_fd_table t) 3) as [->|[Hfd Hempty]]; [lia|apply Hok| |].
  - cbn. intros [= _ <- <-]. rewrite list_insert_id by done.
    destruct (vfs_close_spec (set_slot w1 n o) ts (plus zero n) zero f Hlg2) as [Hlg3 Hpool]; [unfold zero; lia|by cbn; rewrite Ef|].
    assert (slot_at (vfs_close (set_slot w1 n o) f) n = o) as Hat.
    { unfold slot_at at 1. rewrite Hpool. fold (slot_at (set_slot w1 n o) n).
      rewrite slot_at_set, decide_True by (done || lia || apply Hlg1). done. }
    eapply ledger_ext; [apply fd_pool_free_gen; [exact Hlg3|done|by rewrite Hat]| |].
    + intros i _. by rewrite plus_minus.
    + intros f'. cbn beta. rewrite Hat, (holds_Some f) by done. unfold minus, zero. lia.
  - assert ((first_fd (ft_fd_table t) 3 <? 0) = false) as Hlt by lia. rewrite Hlt, Hlt. intros [= _ <- <-].
    destruct (ledger_put _ _ _ _ _ _ Hlg2 Hk (first_fd (ft_fd_table t) 3) n false) as [_ Hput]; [lia|done|done|].
    eapply ledger_ext; [exact Hput| |done]. intros i _. by rewrite plus_minus.
Qed.

(** The first half of [dup_to_fd]: the old object of [newfd] is closed. *)
Lemma dup_take newfd old_idx t1 :
  0 <= newfd < TASK_MAX_FD -> task_take_fd t newfd = (old_idx, t1) ->
  fd_inv (if in_pool old_idx then close_slot w old_idx else w) (<[k := t1]> ts) /\
  aget (-1) (ft_fd_table t1) newfd = -1 /\
  forall fd, 0 <= fd -> fd <> newfd -> aget (-1) (ft_fd_table t1) fd = aget (-1) (ft_fd_table t) fd.
Proof using Hinv Hk.
  intros Hfd Et. destruct (take_close newfd old_idx t1 Hfd Et) as [Hin Hout].
  pose proof (running_ok _ _ _ _ _ _ Hinv Hk) as [Hlen _].
  destruct (ledger_take _ _ _ _ _ _ Hinv Hk newfd old_idx t1 Hfd Et) as (_ & -> & _). split.
  - destruct (in_pool old_idx); [by apply Hin|by apply Hout].
  - cbn. split; [apply aget_aset_eq; lia|]. intros fd ??. apply aget_aset_ne; lia || done.
Qed.
End handlers.

Section handlers2.
Context `{FdEnv}.

(** A slot made for descriptor [fd], which is free, goes into the table. *)
Lemma install_inv w ts k t fd n b :
  ledger w ts (plus zero n) zero -> ts !! k = Some t -> 0 <= fd < TASK_MAX_FD ->
  aget (-1) (ft_fd_table t) fd = -1 -> 0 <= n < FD_POOL_SIZE ->
  fd_inv w (<[k := set_cloexec (set_fd t fd (i16 n)) fd b]> ts).
Proof using Type.
  intros Hlg Hk Hfd He Hn. destruct (ledger_put _ _ _ _ _ _ Hlg Hk fd n b Hfd He Hn) as [Hput _].
  eapply ledger_ext; [exact Hput| |done]. intros i _. by rewrite plus_minus.
Qed.

Lemma drop_copy_inv w ts n :
  ledger w ts (plus zero n) zero -> 0 <= n < FD_POOL_SIZE -> fo_type (slot_at w n) <> FDT_FREE ->
  fo_file (slot_at w n) = None -> fd_inv (fd_pool_free w n) ts.
Proof using Type.
  intros Hlg Hn Hb Hf. eapply ledger_ext; [by apply fd_pool_free_spec| |done]. intros i _. by rewrite plus_minus.
Qed.

Lemma dup_to_fd_inv w ts k t oldfd newfd flags r w' t' :
  fd_inv w ts -> ts !! k = Some t -> (oldfd <> newfd \/ task_get_fd w t oldfd = None) ->
  dup_to_fd w t oldfd newfd flags = (r, w', t') -> fd_inv w' (<[k := t']> ts).
Proof using Type.
  intros Hinv Hk Hne. unfold dup_to_fd.
  destruct ((oldfd <? 0) || _); [intros [= _ <- <-]; by rewrite list_insert_id|].
  destruct (Z.ltb_spec newfd 0), (Z.leb_spec TASK_MAX_FD newfd); cbn [orb];
    [intros [= _ <- <-]; by rewrite list_insert_id..|].
  destruct ((2 <? oldfd) && _); [intros [= _ <- <-]; by rewrite list_insert_id|].
  destruct (task_take_fd t newfd) as [old_idx t1] eqn:Et.
  destruct (dup_take w ts k t Hinv Hk newfd old_idx t1) as (Hinv1 & Hempty & Hsame); [lia|done|].
  set (w1 := if in_pool old_idx then _ else w) in *.
  assert (<[k := t1]> ts !! k = Some t1) as Hk1 by (apply list_lookup_insert_eq; by eapply lookup_lt_Some).
  destruct (task_get_fd w t oldfd) as [i|] eqn:Eg.
  - destruct Hne as [Hne|?]; [|done]. apply task_get_fd_Some in Eg as (Hold & He & Hi & _).
    destruct (entry_used _ _ _ _ _ _ Hinv1 Hk1 oldfd i) as [_ Hbusy]; [done|rewrite Hsame by lia; done|lia|done|].
    destruct (pool_copy_spec w1 _ zero i Hinv1 Hi Hbusy) as [[-> _]|(n & w2 & -> & Hn & _ & Hcopy)]; [by intros [= _ <- <-]|].
    destruct (Z.ltb_spec n 0); [lia|]. destruct (fd_obj_ref w2 n) as [rc w3]. destruct Hcopy as (Hlg & Hty & _ & Hrc).
    destruct (Z.eqb_spec rc 0); cbn [negb]; intros [= _ <- <-].
    + rewrite <-(list_insert_insert_eq ts k _ t1). by apply install_inv.
    + apply drop_copy_inv; try done; [by rewrite Hty|by apply Hrc].
  - destruct (pool_uart_spec w1 _ zero Hinv1) as [->|(n & w2 & -> & Hn & _ & Hlg)]; [by intros [= _ <- <-]|].
    destruct (Z.ltb_spec n 0); [lia|]. intros [= _ <- <-].
    rewrite <-(list_insert_insert_eq ts k _ t1). by apply install_inv.
Qed.

Lemma dup_handler_inv w ts k t oldfd r w' t' :
  fd_inv w ts -> ts !! k = Some t -> dup_handler w t oldfd = (r, w', t') -> fd_inv w' (<[k := t']> ts).
Proof using Type.
  intros Hinv Hk. unfold dup_handler. pose proof (running_ok _ _ _ _ _ _ Hinv Hk) as [Hlen _].
  destruct ((oldfd <? 0) || _); [intros [= _ <- <-]; by rewrite list_insert_id|].
  destruct ((2 <? oldfd) && _); [intros [= _ <- <-]; by rewrite list_insert_id|].
  destruct (first_fd_spec (ft_fd_table t) 3) as [->|[Hfd Hempty]]; [lia|done|by intros [= _ <- <-]; rewrite list_insert_id|].
  destruct (Z.ltb_spec (first_fd (ft_fd_table t) 3) 0); [lia|]. apply dup_to_fd_inv; [done..|].
  destruct (task_get_fd w t oldfd) as [i|] eqn:E; [left|by right].
  apply task_get_fd_Some in E as (_ & He & Hi & _). intros ->. lia.
Qed.

Lemma dup3_handler_inv w ts k t oldfd newfd flags r w' t' :
  fd_inv w ts -> ts !! k = Some t -> dup3_handler w t oldfd newfd flags = (r, w', t') -> fd_inv w' (<[k := t']> ts).
Proof using Type.
  intros Hinv Hk. unfold dup3_handler. destruct (Z.eqb_spec oldfd newfd); [intros [= _ <- <-]; by rewrite list_insert_id|].
  apply dup_to_fd_inv; auto.
Qed.

(** The descriptor that F_DUPFD looks for. *)
Definition dupfd_target (t : ftask) (minfd : Z) : Z :=
  first_fd (ft_fd_table t) (if Z.max minfd 0 <? 3 then 3 else Z.max minfd 0).

Lemma fcntl_dupfd_inv w ts k t fd cmd minfd r w' t' :
  fd_inv w ts -> ts !! k = Some t -> dupfd_target t minfd <> -1 ->
  fcntl_dupfd w t (task_get_fd w t fd) cmd minfd = (r, w', t') -> fd_inv w' (<[k := t']> ts).
Proof using Type.
  intros Hinv Hk Hroom. unfold fcntl_dupfd. unfold dupfd_target in Hroom. cbn zeta.
  set (lo := if Z.max minfd 0 <? 3 then 3 else Z.max minfd 0) in *.
  assert (0 <= lo) as Hlo by (unfold lo; case_if; lia). pose proof (running_ok _ _ _ _ _ _ Hinv Hk) as [Hlen _].
  destruct (first_fd_spec (ft_fd_table t) lo Hlo Hlen) as [?|[Hfd Hempty]]; [done|].
  assert ((first_fd (ft_fd_table t) lo <? 0) = false) as -> by lia.
  destruct (task_get_fd w t fd) as [i|] eqn:E.
  - apply task_get_fd_Some in E as (_ & _ & Hi & Hbusy).
    destruct (pool_copy_spec w ts zero i Hinv Hi Hbusy) as [[-> _]|(n & w2 & -> & Hn & _ & Hcopy)];
      [intros [= _ <- <-]; by rewrite list_insert_id|].
    destruct (Z.ltb_spec n 0); [lia|]. destruct (fd_obj_ref w2 n) as [rc w3]. destruct Hcopy as (Hlg & _).
    intros [= _ <- <-]. apply install_inv; done || lia.
  - destruct (pool_uart_spec w ts zero Hinv) as [->|(n & w2 & -> & Hn & _ & Hlg)]; [intros [= _ <- <-]; by rewrite list_insert_id|].
    destruct (Z.ltb_spec n 0); [lia|]. intros [= _ <- <-]. apply install_inv; done || lia.
Qed.

Lemma fcntl_setfl_core w i val ts h :
  ledger w ts h zero -> 0 <= i < FD_POOL_SIZE -> ledger (fcntl_setfl w i val) ts h zero.
Proof using Type.
  intros Hlg Hi. unfold fcntl_setfl. cbn zeta. set (flags := Z.lor _ _). set (o := mk_obj _ _ _ _ _ _ _ _).
  assert (ledger (set_slot w i o) ts h zero) as Hset by (eapply ledger_core; [by apply core_set_same|done]).
  destruct (fo_file (slot_at w i)) as [f|]; [|done]. destruct Hset as [[Hp Hf Hl Hfr] Ht Ho].
  split; [split|done|done]; try done.
  - intros f'. change (uses f' (set_files ?w ?m)) with (uses f' w). rewrite Hf. unfold refcnt. cbn.
    destruct (decide (f' = f)) as [->|]; [rewrite lookup_alter_eq|by rewrite lookup_alter_ne]. by destruct (w_files w !! f).
  - intros f' v. cbn. destruct (decide (f' = f)) as [->|]; [rewrite lookup_alter_eq|rewrite lookup_alter_ne by done; apply Hl].
    destruct (w_files w !! f) as [v'|] eqn:E; [|done]. intros [= <-]. cbn. by apply (Hl f).
Qed.

Lemma fcntl_handler_inv w ts k t fd cmd arg r w' t' :
  fd_inv w ts -> ts !! k = Some t ->
  (cmd = F_DUPFD \/ cmd = F_DUPFD_CLOEXEC -> dupfd_target t arg <> -1) ->
  fcntl_handler w t fd cmd arg = (r, w', t') -> fd_inv w' (<[k := t']> ts).
Proof using Type.
  intros Hinv Hk Hroom. unfold fcntl_handler.
  destruct ((fd <? 0) || _); [intros [= _ <- <-]; by rewrite list_insert_id|].
  destruct (negb _ && _); [intros [= _ <- <-]; by rewrite list_insert_id|].
  destruct (Z.eqb_spec cmd F_GETFD); [intros [= _ <- <-]; by rewrite list_insert_id|].
  destruct (Z.eqb_spec cmd F_SETFD).
  { intros [= _ <- <-]. apply (ledger_table _ _ _ _ _ _ Hinv Hk); [by apply (running_ok _ _ _ _ _ _ Hinv Hk)|].
    intros i _. cbn. lia. }
  destruct (Z.eqb_spec cmd F_GETFL); [intros [= _ <- <-]; by rewrite list_insert_id|].
  destruct (Z.eqb_spec cmd F_SETFL).
  { intros [= _ <- <-]. rewrite list_insert_id by done. destruct (task_get_fd w t fd) as [i|] eqn:E; [|done].
    apply task_get_fd_Some in E as (_ & _ & Hi & _). by apply fcntl_setfl_core. }
  destruct (Z.eqb_spec cmd F_DUPFD), (Z.eqb_spec cmd F_DUPFD_CLOEXEC); cbn [orb];
    try (apply fcntl_dupfd_inv; by auto). intros [= _ <- <-]; by rewrite list_insert_id.
Qed.
End handlers2.

(** *** Process creation and exit *)

Section processes.
Context `{FdEnv}.

(** The table of a child of which the first [k] descriptors are filled in. *)
Definition filled (w : fdw) (ts : list ftask) (k : Z) (c : ftask) : Prop :=
  Z.of_nat (length (ft_fd_table c)) = TASK_MAX_FD /\ Forall entry_ok (take (Z.to_nat k) (ft_fd_table c)) /\
  ledger w ts (fun i => table_refs i (take (Z.to_nat k) (ft_fd_table c))) zero.

Lemma take_aset (tbl : list Z) k v :
  0 <= k < Z.of_nat (length tbl) -> take (Z.to_nat (k + 1)) (aset tbl k v) = take (Z.to_nat k) tbl ++ [v].
Proof using Type.
  intros Hk. unfold aset. replace (Z.to_nat (k + 1)) with (S (Z.to_nat k)) by lia.
  rewrite (take_S_r _ _ v) by (apply list_lookup_insert_eq; lia). by rewrite take_insert_ge.
Qed.

Lemma filled_none w ts k c : 0 <= k < TASK_MAX_FD -> filled w ts k c -> filled w ts (k + 1) (set_fd c k (-1)).
Proof using Type.
  intros Hk (Hl & He & Hlg). split; [cbn; by rewrite length_aset|]. cbn. rewrite take_aset by lia. split.
  - apply Forall_app_2; [done|]. apply Forall_singleton. by left.
  - eapply ledger_ext; [exact Hlg| |done]. intros i Hi. cbn beta. unfold table_refs. rewrite lsum_app.
    change (lsum (fun e => ind e i) [-1]) with (ind (-1) i + 0). rewrite ind_none by lia. lia.
Qed.

Lemma filled_slot w w' ts k c n :
  0 <= k < TASK_MAX_FD -> filled w ts k c -> 0 <= n < FD_POOL_SIZE ->
  ledger w' ts (plus (fun i => table_refs i (take (Z.to_nat k) (ft_fd_table c))) n) zero ->
  filled w' ts (k + 1) (set_fd c k (i16 n)).
Proof using Type.
  intros Hk (Hl & He & _) Hn Hlg. rewrite i16_id by lia. split; [cbn; by rewrite length_aset|]. cbn. rewrite take_aset by lia. split.
  - apply Forall_app_2; [done|]. apply Forall_singleton. by right.
  - eapply ledger_ext; [exact Hlg| |done]. intros i Hi. cbn beta. unfold table_refs, plus. rewrite lsum_app.
    change (lsum (fun e => ind e i) [n]) with (ind n i + 0). rewrite (ind_sym n). lia.
Qed.

Lemma fork_fd_filled parent ts k s :
  0 <= k < TASK_MAX_FD -> filled s.1 ts k s.2 -> let s' := fork_fd parent s k in filled s'.1 ts (k + 1) s'.2.
Proof using Type.
  destruct s as [w c]. cbn [fst snd]. intros Hk Hfill. pose proof Hfill as (_ & _ & Hlg). unfold fork_fd.
  rewrite in_pool_out. destruct (in_pool _) eqn:Ein; cbn [negb]; [|by apply filled_none]. apply in_pool_true in Ein.
  case_bool_decide; [by apply filled_none|].
  destruct (pool_copy_spec w ts _ (aget (-1) (ft_fd_table parent) k) Hlg Ein) as [[-> _]|(n & w2 & -> & Hn & _ & Hcopy)]; [done|by apply filled_none|].
  destruct (Z.ltb_spec n 0); [lia|]. destruct (fd_obj_ref w2 n) as [rc w3]. destruct Hcopy as [Hlg3 _].
  by eapply filled_slot.
Qed.

Lemma inherit_fd_filled parent ts k s :
  0 <= k < TASK_MAX_FD -> filled s.1 ts k s.2 -> let s' := inherit_fd parent s k in filled s'.1 ts (k + 1) s'.2.
Proof using Type.
  destruct s as [w c]. cbn [fst snd]. intros Hk Hfill. pose proof Hfill as (_ & _ & Hlg). unfold inherit_fd.
  destruct (get_cloexec parent k); [by apply filled_none|].
  rewrite in_pool_out. destruct (in_pool _) eqn:Ein; cbn [negb]; [|by apply filled_none]. apply in_pool_true in Ein.
  case_bool_decide as Hfr; cbn [orb]; [by apply filled_none|]. case_bool_decide; cbn [orb]; [by apply filled_none|].
  destruct (pool_copy_spec w ts _ (aget (-1) (ft_fd_table parent) k) Hlg Ein) as [[-> _]|(n & w2 & -> & Hn & _ & Hcopy)]; [done|by apply filled_none|].
  destruct (Z.ltb_spec n 0); [lia|]. destruct (fd_obj_ref w2 n) as [rc w3]. destruct Hcopy as (Hlg3 & Hty & _ & Hrc).
  destruct (Z.eqb_spec rc 0); cbn [negb]; [by eapply filled_slot|]. apply filled_none; [done|].
  destruct Hfill as (Hl & He & _). split; [done|]. split; [done|].
  eapply ledger_ext; [apply fd_pool_free_spec; [exact Hlg3|done|by rewrite Hty|by apply Hrc]| |done].
  intros i _. by rewrite plus_minus.
Qed.

(** A child whose table is complete is a task like the others. *)
Lemma filled_task w ts c c' :
  filled w ts TASK_MAX_FD c -> ft_fd_table c' = ft_fd_table c -> fd_inv w (ts ++ [c']).
Proof using Type.
  intros (Hl & He & Hlg) E. rewrite take_ge in * by lia. destruct Hlg as [Hw Ht Ho]. split; [done| |].
  - apply Forall_app_2; [done|]. apply Forall_singleton. by rewrite <-E in *.
  - intros i Hi. specialize (Ho i Hi). unfold refs in *. rewrite lsum_app, lsum_cons, E. cbn [lsum foldr]. unfold zero.
    change (lsum _ []) with 0. lia.
Qed.

Lemma filled_start w ts c :
  fd_inv w ts -> Z.of_nat (length (ft_fd_table c)) = TASK_MAX_FD -> filled w ts 0 c.
Proof using Type. intros Hinv Hl. split; [done|]. split; [done|]. exact Hinv. Qed.

Lemma fork_inv w ts parent c :
  fd_inv w ts -> Z.of_nat (length (ft_fd_table c)) = TASK_MAX_FD ->
  let s := fork_fds w c parent in fd_inv s.1 (ts ++ [s.2]).
Proof using Type.
  intros Hinv Hl. unfold fork_fds.
  pose proof (for_range_ind (fun k s => filled s.1 ts k s.2) 0 TASK_MAX_FD (fork_fd parent) (w, c)) as Hind.
  destruct (for_range _ _ _ _) as [w' c']. cbn [fst snd] in *. eapply filled_task; [apply Hind|done]; [lia|by apply filled_start|].
  intros k s Hk Hs. by apply fork_fd_filled.
Qed.

Lemma inherit_inv w ts parent c :
  fd_inv w ts -> Z.of_nat (length (ft_fd_table c)) = TASK_MAX_FD ->
  let s := fd_table_inherit w c parent in fd_inv s.1 (ts ++ [s.2]).
Proof using Type.
  intros Hinv Hl. unfold fd_table_inherit. destruct (ft_is_user_process parent); cbn [negb].
  - eapply filled_task; [|done].
    apply (for_range_ind (fun k s => filled s.1 ts k s.2)); [lia|by apply filled_start|].
    intros k s Hk Hs. by apply inherit_fd_filled.
  - cbn [fst snd]. eapply filled_task; [|done].
    apply (for_range_ind (fun k s => filled w ts k s)); [lia|by apply filled_start|].
    intros k s Hk Hs. by apply filled_none.
Qed.

Lemma exit_inv w ts k t :
  fd_inv w ts -> ts !! k = Some t ->
  let s := exit_fds w t in
  fd_inv s.1 (<[k := s.2]> ts) /\ forall fd, 0 <= fd < TASK_MAX_FD -> aget (-1) (ft_fd_table s.2) fd = -1.
Proof using Type.
  intros Hinv Hk. unfold exit_fds. pose proof (lookup_lt_Some _ _ _ Hk) as Hlt.
  apply (for_range_ind (fun n s => fd_inv s.1 (<[k := s.2]> ts) /\
    forall fd, 0 <= fd < n -> aget (-1) (ft_fd_table s.2) fd = -1)); [lia| |].
  - cbn. rewrite list_insert_id by done. split; [done|]. intros; lia.
  - intros fd [w1 t1] Hfd [Hinv1 Hdone]. cbn [fst snd] in *. unfold exit_fd.
    assert (<[k := t1]> ts !! k = Some t1) as Hk1 by (by apply list_lookup_insert_eq).
    destruct (task_take_fd t1 fd) as [idx t2] eqn:Et.
    destruct (take_close w1 _ k t1 Hinv1 Hk1 fd idx t2 Hfd Et) as [Hin Hout].
    destruct (ledger_take _ _ _ _ _ _ Hinv1 Hk1 fd idx t2 Hfd Et) as (_ & -> & _).
    pose proof (running_ok _ _ _ _ _ _ Hinv1 Hk1) as [Hlen _]. rewrite list_insert_insert_eq in *. rewrite in_pool_out.
    assert (forall j, 0 <= j < fd + 1 -> aget (-1) (ft_fd_table (set_fd t1 fd (-1))) j = -1) as Hd'.
    { intros j Hj. cbn. destruct (decide (j = fd)) as [->|]; [apply aget_aset_eq; lia|].
      rewrite aget_aset_ne by lia. apply Hdone. lia. }
    destruct (in_pool idx); cbn [negb]; (split; [|exact Hd']); [by apply Hin|by apply Hout].
Qed.
End processes.

(** ** Reachable states *)

Section reachable.
Context `{FdEnv}.

Lemma alloc_ops_fd_inv type path w ts k t u ops priv r w' t' :
  fd_inv w ts -> ts !! k = Some t -> type <> FDT_FREE ->
  task_alloc_ops_fd type path w t u ops priv = (r, w', t') -> fd_inv w' (<[k := t']> ts).
Proof using Type.
  intros Hinv Hk Hty. unfold task_alloc_ops_fd.
  destruct (fd_pool_alloc_spec w ts zero zero Hinv) as [(n & w1 & -> & Hfr & Hlg1)|[-> _]]; [|intros [= _ <- <-]; by rewrite list_insert_id].
  destruct Hfr as (Hn & _ & Hal & Hnone & _). destruct (Z.ltb_spec n 0); [lia|]. cbn zeta. set (o := mk_obj _ _ _ _ _ _ _ _).
  assert (ledger (set_slot w1 n o) ts (plus zero n) zero) as Hlg2.
  { eapply ledger_set; try done.
    - intros f. rewrite !holds_None by done. lia.
    - intros j Hj. rewrite !used_busy by (cbn; congruence). lia. }
  pose proof (running_ok _ _ _ _ _ _ Hinv Hk) as Hok. unfold task_alloc_fd.
  destruct (first_fd_spec (ft_fd_table t) 3) as [->|[Hfd Hempty]]; [lia|apply Hok| |].
  - cbn. intros [= _ <- <-]. rewrite list_insert_id by done.
    assert (slot_at (set_slot w1 n o) n = o) as Hat by (rewrite slot_at_set, decide_True by (done || lia || apply Hlg1); done).
    apply drop_copy_inv; rewrite ?Hat; done.
  - assert ((first_fd (ft_fd_table t) 3 <? 0) = false) as Hlt by lia. rewrite Hlt, Hlt. intros [= _ <- <-].
    destruct (ledger_put _ _ _ _ _ _ Hlg2 Hk (first_fd (ft_fd_table t) 3) n false) as [_ Hput]; [lia|done|done|].
    eapply ledger_ext; [exact Hput| |done]. intros i _. by rewrite plus_minus.
Qed.

Lemma core_epoll_instance_alloc w : core (epoll_instance_alloc w).2 = core w.
Proof using Type. unfold epoll_instance_alloc. by destruct (list_find _ _) as [[??]|]. Qed.

Lemma core_epoll_instance_free w i : core (epoll_instance_free w i) = core w.
Proof using Type. unfold epoll_instance_free. by case_if. Qed.

Lemma epoll_create1_inv w ts k t flags r w' t' :
  fd_inv w ts -> ts !! k = Some t -> epoll_create1_handler w t flags = (r, w', t') -> fd_inv w' (<[k := t']> ts).
Proof using Type.
  intros Hinv0 Hk. unfold epoll_create1_handler. case_if; [intros [= _ <- <-]; by rewrite list_insert_id|].
  pose proof (core_epoll_instance_alloc w) as Hc. destruct (epoll_instance_alloc w) as [ep w0]. cbn [snd] in Hc.
  assert (fd_inv w0 ts) as Hinv by (by eapply ledger_core).
  case_if; [intros [= _ <- <-]; by rewrite list_insert_id|].
  destruct (fd_pool_alloc_spec w0 ts zero zero Hinv) as [(n & w1 & -> & Hfr & Hlg1)|[-> _]].
  2: { intros [= _ <- <-]. rewrite list_insert_id by done. eapply ledger_core; [apply core_epoll_instance_free|done]. }
  destruct Hfr as (Hn & _ & Hal & Hnone & _). destruct (Z.ltb_spec n 0); [lia|]. cbn zeta. set (o := mk_obj _ _ _ _ _ _ _ _).
  assert (ledger (set_slot w1 n o) ts (plus zero n) zero) as Hlg2.
  { eapply ledger_set; try done.
    - intros f. rewrite !holds_None by done. lia.
    - intros j Hj. rewrite !used_busy by (cbn; congruence). lia. }
  pose proof (running_ok _ _ _ _ _ _ Hinv Hk) as Hok. unfold task_alloc_fd.
  destruct (first_fd_spec (ft_fd_table t) 3) as [->|[Hfd Hempty]]; [lia|apply Hok| |].
  - cbn. intros [= _ <- <-]. rewrite list_insert_id by done. eapply ledger_core; [apply core_epoll_instance_free|].
    assert (slot_at (set_slot w1 n o) n = o) as Hat by (rewrite slot_at_set, decide_True by (done || lia || apply Hlg1); done).
    apply drop_copy_inv; rewrite ?Hat; done.
  - assert ((first_fd (ft_fd_table t) 3 <? 0) = false) as Hlt by lia. rewrite Hlt, Hlt. intros [= _ <- <-].
    destruct (ledger_put _ _ _ _ _ _ Hlg2 Hk (first_fd (ft_fd_table t) 3) n true) as [Hput1 Hput2]; [lia|done|done|].
    eapply ledger_ext; [destruct (negb _); [exact Hput1|exact Hput2]| |done]. intros i _. by rewrite plus_minus.
Qed.

(** Any task runs any of the system calls.  [fork] and [exec] start from a child
    whose table holds anything.  F_DUPFD is called while a descriptor is free. *)
Inductive fd_step : fdw * list ftask -> fdw * list ftask -> Prop :=
  | fs_open w ts k t f v r w' t' :
      ts !! k = Some t -> w_files w !! f = None ->
      openat_install (set_files w (<[f := mk_file (vf_flags v) 1 (vf_path v)]> (w_files w))) t f = (r, w', t') ->
      fd_step (w, ts) (w', <[k := t']> ts)
  | fs_driver w ts k t type path u ops priv r w' t' :
      ts !! k = Some t -> type = FDT_ION \/ type = FDT_DMABUF ->
      task_alloc_ops_fd type path w t u ops priv = (r, w', t') -> fd_step (w, ts) (w', <[k := t']> ts)
  | fs_epoll w ts k t flags r w' t' :
      ts !! k = Some t -> epoll_create1_handler w t flags = (r, w', t') -> fd_step (w, ts) (w', <[k := t']> ts)
  | fs_close w ts k t fd r w' t' :
      ts !! k = Some t -> close_handler w t fd = (r, w', t') -> fd_step (w, ts) (w', <[k := t']> ts)
  | fs_dup w ts k t fd r w' t' :
      ts !! k = Some t -> dup_handler w t fd = (r, w', t') -> fd_step (w, ts) (w', <[k := t']> ts)
  | fs_dup3 w ts k t oldfd newfd flags r w' t' :
      ts !! k = Some t -> dup3_handler w t oldfd newfd flags = (r, w', t') -> fd_step (w, ts) (w', <[k := t']> ts)
  | fs_fcntl w ts k t fd cmd arg r w' t' :
      ts !! k = Some t -> (cmd = F_DUPFD \/ cmd = F_DUPFD_CLOEXEC -> dupfd_target t arg <> -1) ->
      fcntl_handler w t fd cmd arg = (r, w', t') -> fd_step (w, ts) (w', <[k := t']> ts)
  | fs_fork w ts k t c :
      ts !! k = Some t -> Z.of_nat (length (ft_fd_table c)) = TASK_MAX_FD ->
      fd_step (w, ts) ((fork_fds w c t).1, ts ++ [(fork_fds w c t).2])
  | fs_exec w ts k t c :
      ts !! k = Some t -> Z.of_nat (length (ft_fd_table c)) = TASK_MAX_FD ->
      fd_step (w, ts) ((fd_table_inherit w c t).1, ts ++ [(fd_table_inherit w c t).2])
  | fs_exit w ts k t :
      ts !! k = Some t -> fd_step (w, ts) ((exit_fds w t).1, <[k := (exit_fds w t).2]> ts).

Definition fd_world0 : fdw :=
  mk_fdw (replicate (Z.to_nat FD_POOL_SIZE) obj_zero) ∅ (replicate (Z.to_nat EPOLL_MAX_INSTANCES) epoll_zero) [].
Definition ftask0 : ftask := mk_ftask (replicate (Z.to_nat TASK_MAX_FD) (-1)) (replicate 32 0) true.

Lemma fd_inv_init : fd_inv fd_world0 [ftask0].
Proof using Type.
  assert (forall i, 0 <= i < FD_POOL_SIZE -> slot_at fd_world0 i = obj_zero) as Hs.
  { intros i Hi. unfold slot_at, aget. cbn -[replicate]. by rewrite lookup_replicate_2 by lia. }
  split; [split| |].
  - apply length_replicate.
  - intros f. unfold refcnt. cbn -[replicate]. rewrite lookup_empty. unfold zero, uses.
    rewrite lsum_zero; [done|]. apply Forall_replicate. done.
  - intros f v. cbn -[replicate]. by rewrite lookup_empty.
  - intros i Hi _. by rewrite Hs.
  - apply Forall_singleton. split; [done|]. apply Forall_replicate. by left.
  - intros i Hi. rewrite Hs by done. change (refs i [ftask0]) with (table_refs i (ft_fd_table ftask0) + 0).
    unfold table_refs. rewrite lsum_zero; [done|]. apply Forall_replicate. apply ind_none. lia.
Qed.

Lemma fd_step_inv s s' : fd_inv s.1 s.2 -> fd_step s s' -> fd_inv s'.1 s'.2.
Proof using Type.
  intros Hinv Hstep. destruct Hstep; cbn [fst snd] in *.
  - by eapply openat_install_inv.
  - eapply alloc_ops_fd_inv; try done. by intros ->; destruct_or?.
  - by eapply epoll_create1_inv.
  - by eapply close_handler_inv.
  - by eapply dup_handler_inv.
  - by eapply dup3_handler_inv.
  - by eapply fcntl_handler_inv.
  - by apply fork_inv.
  - by apply inherit_inv.
  - by apply exit_inv.
Qed.
End reachable.

(** ** Closing a watched descriptor *)

Lemma length_swap_remove {A} (l : list A) i : l <> [] -> length (swap_remove l i) = pred (length l).
Proof.
  intros Hl. unfold swap_remove. destruct (last l) as [x|] eqn:E; [|by apply last_None in E].
  rewrite length_take, length_insert. lia.
Qed.

Lemma length_wq_unregister wq ep i : (length (wq_unregister wq ep i) <= length wq)%nat.
Proof.
  unfold wq_unregister. destruct (list_find _ _) as [[j x]|] eqn:E; [|done].
  apply list_find_Some in E as (Hj & _). rewrite length_swap_remove; [lia|]. by intros ->.
Qed.

Definition items_total (w : fdw) : Z := lsum (fun e => Z.of_nat (length (ep_items e))) (w_epolls w).

Lemma wq_set w i o j :
  length (w_pool w) = Z.to_nat FD_POOL_SIZE -> 0 <= j < FD_POOL_SIZE ->
  (length (fo_wq (slot_at (set_slot w i o) j)) <= Nat.max (length (fo_wq (slot_at w j))) (length (fo_wq o)))%nat /\
  (Z.to_nat i <> Z.to_nat j -> slot_at (set_slot w i o) j = slot_at w j).
Proof.
  intros Hl Hj. unfold slot_at, aget, set_slot, aset. cbn [w_pool].
  destruct (decide (Z.to_nat i = Z.to_nat j)) as [->|Hne].
  - rewrite list_lookup_insert_eq by lia. cbn. split; [lia|done].
  - rewrite list_lookup_insert_ne by done. split; [lia|done].
Qed.

Lemma wq_unregister_slot w p ep i j :
  length (w_pool w) = Z.to_nat FD_POOL_SIZE -> 0 <= j < FD_POOL_SIZE ->
  (length (fo_wq (slot_at (slot_unregister w p ep i) j)) <= length (fo_wq (slot_at w j)))%nat.
Proof.
  intros Hl Hj. unfold slot_unregister. destruct (wq_set w p (obj_set_wq (slot_at w p) (wq_unregister (fo_wq (slot_at w p)) ep i)) j Hl Hj) as [Hle Hne].
  destruct (decide (Z.to_nat p = Z.to_nat j)) as [E|]; [|by rewrite Hne].
  assert (slot_at w p = slot_at w j) as Ep by (unfold slot_at, aget; by rewrite E).
  cbn in Hle. rewrite Ep in *. pose proof (length_wq_unregister (fo_wq (slot_at w j)) ep i). lia.
Qed.

Lemma wq_register_slot w p ep i j :
  length (w_pool w) = Z.to_nat FD_POOL_SIZE -> 0 <= j < FD_POOL_SIZE ->
  (length (fo_wq (slot_at (slot_register w p ep i) j)) <= S (length (fo_wq (slot_at w j))))%nat.
Proof.
  intros Hl Hj. unfold slot_register, wq_register. case_if; [lia|].
  destruct (wq_set w p (obj_set_wq (slot_at w p) (fo_wq (slot_at w p) ++ [(ep, i)])) j Hl Hj) as [Hle Hne].
  destruct (decide (Z.to_nat p = Z.to_nat j)) as [Ej|]; [|rewrite Hne by done; lia].
  assert (slot_at w p = slot_at w j) as Ep by (unfold slot_at, aget; by rewrite Ej).
  cbn in Hle. rewrite Ep, length_app in *. cbn in *. lia.
Qed.

(** Descriptor [fd] of task [k] names slot [i]. *)
Definition names (ts : list ftask) (k : nat) (fd i : Z) : Prop :=
  exists t, ts !! k = Some t /\ 0 <= fd < TASK_MAX_FD /\ aget (-1) (ft_fd_table t) fd = i.

Lemma names_lookup ts k fd i :
  Forall table_ok ts -> names ts k fd i ->
  exists t, ts !! k = Some t /\ ft_fd_table t !! Z.to_nat fd = Some i /\ 1 <= table_refs i (ft_fd_table t).
Proof.
  intros Hok (t & Hk & Hfd & He). exists t. split; [done|].
  rewrite Forall_forall in Hok. destruct (Hok t) as [Hl _]; [by eapply list_elem_of_lookup_2|].
  assert (ft_fd_table t !! Z.to_nat fd = Some i) as Hi by (rewrite <-He; apply aget_lookup; lia). split; [done|].
  pose proof (lsum_lookup (fun e => ind e i) _ _ _ (fun e => proj1 (ind_range e i)) Hi) as Hs. cbn beta in Hs.
  rewrite ind_eq, decide_True in Hs by done. done.
Qed.

Lemma names_refs ts k fd i : Forall table_ok ts -> names ts k fd i -> 1 <= refs i ts.
Proof.
  intros Hok Hn. destruct (names_lookup _ _ _ _ Hok Hn) as (t & Hk & _ & Ht).
  pose proof (lsum_lookup (fun t => table_refs i (ft_fd_table t)) ts k t (fun t => table_refs_nonneg i _) Hk).
  cbn beta in *. unfold refs. lia.
Qed.

Lemma names_unique ts i k1 fd1 k2 fd2 :
  Forall table_ok ts -> refs i ts <= 1 -> names ts k1 fd1 i -> names ts k2 fd2 i -> k1 = k2 /\ fd1 = fd2.
Proof.
  intros Hok Hr H1 H2.
  destruct (names_lookup _ _ _ _ Hok H1) as (t1 & Hk1 & He1 & Ht1).
  destruct (names_lookup _ _ _ _ Hok H2) as (t2 & Hk2 & He2 & Ht2).
  destruct (decide (k1 = k2)) as [<-|Hne].
  - split; [done|]. assert (t2 = t1) as -> by congruence.
    destruct (decide (fd1 = fd2)) as [|Hne]; [done|exfalso].
    assert (Z.to_nat fd1 <> Z.to_nat fd2) as Hne' by (destruct H1 as (? & _ & ? & _), H2 as (? & _ & ? & _); lia).
    pose proof (lsum_lookup2 (fun e => ind e i) _ _ _ _ _ (fun e => proj1 (ind_range e i)) He1 He2 Hne') as Hs.
    pose proof (lsum_lookup (fun t => table_refs i (ft_fd_table t)) ts k1 t1 (fun t => table_refs_nonneg i _) Hk1) as Hs'.
    cbn beta in *. rewrite ind_eq, decide_True in Hs by done. unfold refs, table_refs in *. lia.
  - pose proof (lsum_lookup2 (fun t => table_refs i (ft_fd_table t)) ts k1 k2 t1 t2 (fun t => table_refs_nonneg i _) Hk1 Hk2 Hne).
    cbn beta in *. unfold refs in *. lia.
Qed.

Lemma refs_names ts i : Forall table_ok ts -> 0 < refs i ts -> exists k fd, names ts k fd i.
Proof.
  intros Hok Hr. apply lsum_pos in Hr as (k & t & Hk & Ht); [|intros; apply table_refs_nonneg].
  apply lsum_pos in Ht as (fd & e & He & Hi); [|intros; apply ind_range].
  rewrite ind_eq in Hi. case_decide; [subst e|lia].
  rewrite Forall_forall in Hok. destruct (Hok t) as [Hl _]; [by eapply list_elem_of_lookup_2|].
  pose proof (lookup_lt_Some _ _ _ He). exists k, (Z.of_nat fd), t. split; [done|]. split; [lia|].
  unfold aget. by rewrite Nat2Z.id, He.
Qed.

Lemma uses_slot w f :
  length (w_pool w) = Z.to_nat FD_POOL_SIZE -> 0 < uses f w ->
  exists i, 0 <= i < FD_POOL_SIZE /\ fo_file (slot_at w i) = Some f.
Proof.
  intros Hl Hu. apply lsum_pos in Hu as (i & o & Hi & Ho); [|intros; apply holds_range].
  pose proof (lookup_lt_Some _ _ _ Hi). exists (Z.of_nat i). split; [lia|]. unfold slot_at, aget. rewrite Nat2Z.id, Hi. cbn.
  unfold holds in Ho. by case_bool_decide.
Qed.


(** ** More properties of the system calls *)

Definition pools_ok (w : fdw) : Prop :=
  length (w_pool w) = Z.to_nat FD_POOL_SIZE /\ length (w_epolls w) = Z.to_nat EPOLL_MAX_INSTANCES.

Lemma pools_ok_slot w i o : pools_ok w -> pools_ok (set_slot w i o).
Proof. intros [??]. split; cbn; by rewrite ?length_aset. Qed.

Lemma pools_ok_epoll w i e : pools_ok w -> pools_ok (set_epoll w i e).
Proof. intros [??]. split; cbn; by rewrite ?length_aset. Qed.

Lemma items_total_set w i e :
  0 <= i < Z.of_nat (length (w_epolls w)) ->
  items_total (set_epoll w i e) =
  items_total w - Z.of_nat (length (ep_items (epoll_at w i))) + Z.of_nat (length (ep_items e)).
Proof. intros Hi. unfold items_total, epoll_at. cbn. by rewrite (lsum_aset _ epoll_zero). Qed.

Lemma epoll_at_out w i : ~ (0 <= i < Z.of_nat (length (w_epolls w))) -> 0 <= i -> ep_in_use (epoll_at w i) = false.
Proof. intros Ho Hi. unfold epoll_at, aget. by rewrite lookup_ge_None_2 by lia. Qed.

(** One round removes a waiter, or moves one and removes an item. *)
Lemma close_notify_one_measure w i :
  pools_ok w -> 0 <= i < FD_POOL_SIZE -> Forall (fun x => 0 <= x.1) (fo_wq (slot_at w i)) -> fo_wq (slot_at w i) <> [] ->
  let w' := close_notify_one w i in
  pools_ok w' /\
  Z.of_nat (length (fo_wq (slot_at w' i))) + items_total w' < Z.of_nat (length (fo_wq (slot_at w i))) + items_total w.
Proof.
  intros Hok Hi Hpos Hne. pose proof Hok as [Hp He]. unfold close_notify_one.
  destruct (fo_wq (slot_at w i)) as [|[ep item] wq] eqn:Ewq; [done|].
  apply Forall_cons in Hpos as [Hep _]. cbn [fst] in Hep. cbn zeta.
  set (w1 := set_slot w i _). assert (pools_ok w1) as Hok1 by by apply pools_ok_slot.
  assert (length (fo_wq (slot_at w1 i)) = length wq) as Hlen1.
  { unfold w1. rewrite slot_at_set, decide_True by (done || lia). cbn [fo_wq obj_set_wq].
    rewrite length_swap_remove by done. done. }
  change (epoll_at w1 ep) with (epoll_at w ep).
  assert (items_total w1 = items_total w) as Ht1 by done.
  destruct (ep_in_use (epoll_at w ep)) eqn:Euse; cbn [andb].
  2: { split; [done|]. cbn [length]. lia. }
  assert (0 <= ep < Z.of_nat (length (w_epolls w))) as Hepr.
  { destruct (decide (0 <= ep < Z.of_nat (length (w_epolls w)))) as [|Ho]; [done|].
    rewrite (epoll_at_out w ep Ho Hep) in Euse. done. }
  set (items := ep_items (epoll_at w ep)). destruct ((0 <=? item) && _) eqn:Erange; [zbool|split; [done|cbn [length]; lia]].
  case_if; [|split; [done|cbn [length]; lia]]. generalize (if ei_ready (aget item_zero items item)
    then ep_ready_count (epoll_at w ep) - 1 else ep_ready_count (epoll_at w ep)). intros ready. case_if.
  - set (moved := aget item_zero items _).
    set (w2 := slot_unregister w1 (ei_pool_idx moved) ep _).
    assert (pools_ok w2) as Hok2 by by apply pools_ok_slot. set (w3 := set_epoll w2 ep _).
    assert (pools_ok w3) as Hok3 by by apply pools_ok_epoll.
    assert (items_total w3 = items_total w - 1) as Ht3.
    { unfold w3. rewrite items_total_set by (cbn; lia). change (items_total w2) with (items_total w).
      change (ep_items (epoll_at w2 ep)) with items. cbn [ep_items ep_set_items]. rewrite length_take, length_aset.
      unfold items in *. lia. }
    pose proof (wq_unregister_slot w1 (ei_pool_idx moved) ep (Z.of_nat (length items) - 1) i (proj1 Hok1) Hi) as Hu.
    pose proof (wq_register_slot w3 (ei_pool_idx moved) ep item i (proj1 Hok3) Hi) as Hr.
    change (slot_at w3 i) with (slot_at w2 i) in Hr. fold w2 in Hu.
    assert (items_total (slot_register w3 (ei_pool_idx moved) ep item) = items_total w3) as ->
      by (unfold slot_register; by destruct (wq_register _ _ _)).
    split; [|cbn [length]; lia]. unfold slot_register. destruct (wq_register _ _ _); [by apply pools_ok_slot|done].
  - split; [by apply pools_ok_epoll|]. rewrite items_total_set by (cbn; lia).
    change (slot_at (set_epoll w1 ?a ?b) i) with (slot_at w1 i). change (items_total w1) with (items_total w).
    change (ep_items (epoll_at w1 ep)) with items. cbn [ep_items ep_set_items length]. rewrite length_take.
    unfold items in *. lia.
Qed.

(** Waiters name epoll instances. *)
Definition waiters_ok (w : fdw) : Prop := forall i, Forall (fun x => 0 <= x.1) (fo_wq (slot_at w i)).

Lemma Forall_swap_remove {A} (P : A -> Prop) l i : Forall P l -> Forall P (swap_remove l i).
Proof.
  intros Hl. unfold swap_remove. destruct (last l) as [x|] eqn:E; [|done].
  apply Forall_take, Forall_insert; [done|]. rewrite Forall_forall in Hl. apply Hl. by apply last_Some_elem_of.
Qed.

Lemma Forall_wq_unregister P wq ep i : Forall P wq -> Forall P (wq_unregister wq ep i).
Proof. intros Hl. unfold wq_unregister. destruct (list_find _ _) as [[j x]|]; [by apply Forall_swap_remove|done]. Qed.

Lemma waiters_ok_set w i wq :
  waiters_ok w -> Forall (fun x => 0 <= x.1) wq -> waiters_ok (set_slot w i (obj_set_wq (slot_at w i) wq)).
Proof.
  intros Hw Hq j. unfold slot_at at 1, aget, set_slot, aset. cbn [w_pool].
  destruct (decide (Z.to_nat i = Z.to_nat j)) as [->|Hne].
  - destruct (decide (Z.to_nat j < length (w_pool w))%nat).
    + rewrite list_lookup_insert_eq by done. done.
    + rewrite list_insert_ge by lia. apply Hw.
  - rewrite list_lookup_insert_ne by done. apply Hw.
Qed.

Lemma waiters_ok_one w i : waiters_ok w -> waiters_ok (close_notify_one w i).
Proof.
  intros Hw. unfold close_notify_one. destruct (fo_wq (slot_at w i)) as [|[ep item] wq] eqn:E; [done|]. cbn zeta.
  pose proof (Hw i) as Hi. rewrite E in Hi. pose proof Hi as [Hep _]%Forall_cons.
  assert (waiters_ok (set_slot w i (obj_set_wq (slot_at w i) (swap_remove ((ep, item) :: wq) 0)))) as Hw1
    by (apply waiters_ok_set; [done|by apply Forall_swap_remove]).
  repeat case_if; try done.
  all: unfold slot_register, wq_register; case_if; [apply waiters_ok_set; [done|by apply Forall_wq_unregister]|].
  all: apply waiters_ok_set; [apply waiters_ok_set; [done|by apply Forall_wq_unregister]|].
  all: apply Forall_app_2; [|by apply Forall_singleton]; apply (waiters_ok_set _ _ (wq_unregister _ _ _)); [done|by apply Forall_wq_unregister].
Qed.

(** Closing a watched descriptor takes it off every epoll instance: the loop
    of [fd_close_notify] ends, with the wait queue of the slot empty, whatever the
    instances and the queues hold (also when an item it moves watches the same slot). *)
Theorem fd_close_notify_empties w i :
  pools_ok w -> waiters_ok w -> 0 <= i < FD_POOL_SIZE -> fo_wq (slot_at (fd_close_notify w i) i) = [].
Proof.
  intros Hok Hw Hi. unfold fd_close_notify. rewrite (proj2 (in_pool_true i)) by done. cbn [negb].
  assert (forall fuel w, pools_ok w -> waiters_ok w ->
    (Z.of_nat (length (fo_wq (slot_at w i))) + items_total w <= Z.of_nat fuel) ->
    fo_wq (slot_at (close_notify_loop fuel w i) i) = []) as Hloop.
  { clear w Hok Hw. induction fuel as [|fuel IH]; intros w Hok Hw Hm; cbn [close_notify_loop].
    - assert (0 <= items_total w) by (apply lsum_nonneg; lia). destruct (fo_wq _); [done|cbn in Hm; lia].
    - destruct (fo_wq (slot_at w i)) as [|x wq] eqn:E; [done|].
      destruct (close_notify_one_measure w i Hok Hi (Hw i)) as [Hok' Hlt]; [by rewrite E|].
      apply IH; [done|by apply waiters_ok_one|]. rewrite E in Hlt. lia. }
  apply Hloop; [done..|]. unfold notify_measure, items_total.
  assert (0 <= lsum (fun e => Z.of_nat (length (ep_items e))) (w_epolls w)) by (apply lsum_nonneg; lia). lia.
Qed.

(** Slot 5 watched by two items of instance 0 and one of instance 1. *)
Definition watched_world : fdw :=
  mk_fdw (aset (w_pool fd_world0) 5 (mk_obj FDT_VFS 0 [] (Some 9) None 0 0 [(0, 0); (1, 0); (0, 1)]))
    {[9 := mk_file 0 1 []]}
    (aset (aset (w_epolls fd_world0) 0 (mk_epoll true [mk_item 3 5 1 0 true; mk_item 4 5 1 0 false] 1 None))
       1 (mk_epoll true [mk_item 3 5 1 0 false] 0 None)) [].

Lemma fd_close_notify_empties_witness :
  fo_wq (slot_at watched_world 5) <> [] /\ fo_wq (slot_at (fd_close_notify watched_world 5) 5) = [].
Proof.
  split; [vm_compute; discriminate|]. apply (fd_close_notify_empties watched_world 5); [split; vm_compute; reflexivity| |lia].
  assert (Forall (fun o => Forall (fun x : Z * Z => 0 <= x.1) (fo_wq o)) (w_pool watched_world)) as Hall.
  { apply Forall_insert; [by apply Forall_replicate|]. cbn. repeat constructor; cbn; lia. }
  intros i. unfold slot_at, aget. destruct (w_pool watched_world !! Z.to_nat i) as [o|] eqn:E; [|done].
  rewrite Forall_forall in Hall. apply Hall. by eapply list_elem_of_lookup_2.
Defined.

(** A driver environment in which no [fd_ops] has a [dup] or a [close]. *)
Definition env0 : FdEnv := {| ops_dup := fun _ => None; ops_close := fun _ => false; task_blocked := fun _ => false |}.

(** Open a file, duplicate the descriptor, close the original. *)
Definition demo_file : vfs_file_t := mk_file 2 0 [47; 97].
Definition demo1 : Z * fdw * ftask :=
  openat_install (set_files fd_world0 (<[77 := mk_file (vf_flags demo_file) 1 (vf_path demo_file)]> (w_files fd_world0))) ftask0 77.
Definition demo2 : Z * fdw * ftask := dup_handler (H := env0) demo1.1.2 demo1.2 3.
Definition demo3 : Z * fdw * ftask := close_handler (H := env0) demo2.1.2 demo2.2 3.


(** F_DUPFD leaks a reference when the table is full.  If a descriptor of an
    open file is duplicated with F_DUPFD while the pool has room but no descriptor
    is free at or above the given minimum, the call fails with EMFILE and gives the
    slot back, but the file keeps one reference more than slots hold it: its count
    can no longer reach zero and the file is never closed. *)
Theorem fcntl_dupfd_leaks `{FdEnv} w ts k t fd arg i f j :
  fd_inv w ts -> ts !! k = Some t -> task_get_fd w t fd = Some i -> fo_file (slot_at w i) = Some f ->
  0 <= j < FD_POOL_SIZE -> fo_type (slot_at w j) = FDT_FREE -> dupfd_target t arg = -1 ->
  exists w', fcntl_handler w t fd F_DUPFD arg = (- EMFILE, w', t) /\ refcnt w' f = uses f w' + 1.
Proof.
  intros Hinv Hk Hget Hfile Hj Hfree Hfull. pose proof (task_get_fd_Some _ _ _ _ Hget) as (Hfd & _ & Hi & Hbusy).
  unfold fcntl_handler. destruct (Z.ltb_spec fd 0), (Z.leb_spec TASK_MAX_FD fd); cbn [orb]; try lia.
  rewrite Hget. rewrite bool_decide_eq_true_2 by done. cbn -[fcntl_dupfd].
  unfold fcntl_dupfd. unfold dupfd_target in Hfull. rewrite Hfull. cbn zeta.
  destruct (pool_copy_spec w ts zero i Hinv Hi Hbusy) as [[_ Hno]|(n & w1 & -> & Hn & _ & Hcopy)]; [by destruct (Hno j)|].
  destruct (Z.ltb_spec n 0); [lia|]. destruct (fd_obj_ref w1 n) as [rc w2]. destruct Hcopy as (Hlg & Hty & Hf & _).
  eexists. split; [done|].
  pose proof (fd_pool_free_gen w2 ts _ _ n Hlg Hn) as Hfr. rewrite Hty in Hfr. specialize (Hfr Hbusy).
  pose proof (wo_files _ _ (lg_world _ _ _ _ Hfr) f) as Hc. cbn beta in Hc.
  rewrite (holds_Some f) in Hc by (by rewrite Hf). rewrite ind_eq, decide_True in Hc by done. unfold zero in Hc. lia.
Qed.

(** A minimum beyond the table, which is never satisfied. *)
Lemma fcntl_dupfd_leaks_witness :
  exists w', fcntl_handler (H := env0) demo1.1.2 demo1.2 3 F_DUPFD 1000 = (- EMFILE, w', demo1.2) /\ refcnt w' 77 = uses 77 w' + 1.
Proof.
  apply (fcntl_dupfd_leaks (H := env0) demo1.1.2 [demo1.2] 0 demo1.2 3 1000 0 77 1); try (vm_compute; reflexivity); [|lia].
  apply (openat_install_inv fd_world0 [ftask0] 0 ftask0 fd_inv_init eq_refl 77 demo_file demo1.1.1); vm_compute; reflexivity.
Defined.

(** The close-on-exec bit outlives its descriptor: when a descriptor is closed
    and the next open gets the same number, the new descriptor has the bit of the
    old one, because neither close nor open writes the bits.  A descriptor opened
    without O_CLOEXEC can so be dropped at exec. *)
Theorem cloexec_survives_close `{FdEnv} w t fd r w1 t1 w2 f t2 :
  close_handler w t fd = (r, w1, t1) -> openat_install w1 t1 f = (fd, w2, t2) ->
  get_cloexec t2 fd = get_cloexec t fd.
Proof.
  intros Hc Ho.
  assert (ft_fd_cloexec t1 = ft_fd_cloexec t) as E1.
  { unfold close_handler, task_take_fd in Hc. destruct ((fd <? 0) || _); [by simplify_eq|]. case_if_in Hc; by simplify_eq. }
  assert (ft_fd_cloexec t2 = ft_fd_cloexec t1) as E2.
  { unfold openat_install, task_alloc_fd in Ho. destruct (fd_pool_alloc w1) as [n w0]. case_if_in Ho; [by simplify_eq|].
    repeat case_if_in Ho; by simplify_eq. }
  unfold get_cloexec. by rewrite E2, E1.
Qed.

(** Set close-on-exec on descriptor 3, close it, open another file. *)
Definition demo_set : Z * fdw * ftask := fcntl_handler (H := env0) demo1.1.2 demo1.2 3 F_SETFD 1.
Definition demo_closed : Z * fdw * ftask := close_handler (H := env0) demo_set.1.2 demo_set.2 3.
Definition demo_reopened : Z * fdw * ftask :=
  openat_install (set_files demo_closed.1.2 (<[78 := mk_file 0 1 [47; 98]]> (w_files demo_closed.1.2))) demo_closed.2 78.

Lemma cloexec_survives_close_witness :
  demo_reopened.1.1 = 3 /\ get_cloexec demo_reopened.2 3 = get_cloexec demo_set.2 3 /\ get_cloexec demo_set.2 3 = true.
Proof.
  split; [vm_compute; reflexivity|]. split; [|vm_compute; reflexivity].
  apply (cloexec_survives_close (H := env0)
    (set_files demo_set.1.2 (<[78 := mk_file 0 1 [47; 98]]> (w_files demo_set.1.2))) demo_set.2 3 demo_closed.1.1
    (set_files demo_closed.1.2 (<[78 := mk_file 0 1 [47; 98]]> (w_files demo_closed.1.2))) demo_closed.2
    demo_reopened.1.2 78 demo_reopened.2); vm_compute; reflexivity.
Defined.

Definition ep1 : Z * fdw * ftask := epoll_create1_handler fd_world0 ftask0 0.
Definition ep2 : Z * fdw * ftask := dup_handler (H := env0) ep1.1.2 ep1.2 3.
Definition ep3 : Z * fdw * ftask := close_handler (H := env0) ep2.1.2 ep2.2 4.

(** An epoll descriptor does not survive the close of its duplicate: after
    epoll_create1, dup and a close of the duplicate, the original descriptor is
    still open and still of type FDT_EPOLL, but its epoll instance is destroyed and
    can be handed to the next epoll_create1. *)
Theorem epoll_dup_close_destroys :
  ep1.1.1 = 3 /\ ep2.1.1 = 4 /\ ep3.1.1 = 0 /\
  exists i, task_get_fd ep3.1.2 ep3.2 3 = Some i /\ fo_type (slot_at ep3.1.2 i) = FDT_EPOLL /\
    epoll_get ep2.1.2 (fo_u (slot_at ep2.1.2 i)) <> None /\
    epoll_get ep3.1.2 (fo_u (slot_at ep3.1.2 i)) = None.
Proof.
  split; [vm_compute; reflexivity|]. split; [vm_compute; reflexivity|]. split; [vm_compute; reflexivity|].
  exists 0. split; [vm_compute; reflexivity|]. split; [vm_compute; reflexivity|].
  split; [vm_compute; discriminate|vm_compute; reflexivity].
Qed.
