(* ===== verification/KList.v ===== *)
(** * Linked lists of the kernel: include/list.h

    Nodes are members of the objects they link, so a node has an address and is shared by
    every list that reaches it.  [nodes] is the memory of one kind of node (the member
    [run_node] or [wait_node] of all tasks); address 0 is NULL, and following it is a fault,
    [None].  An operation does to the nodes what the code does, also where it is misused.

    [dlist] says that a list header and the nodes stand for a sequence of nodes; the lemmas
    give each operation on such a list, and that it leaves every other list alone. *)

From S2P Require Import Prelude.
From stdpp Require Import options.
From Stdlib Require Import Lia ZifyBool.

Record list_node_t := mk_node { nd_pre : Z; nd_next : Z }.
Record list_t := mk_list { l_first : Z; l_last : Z; l_count : Z }.

Abbreviation nodes := (Z -> list_node_t).

(** [a->pre = p] and [a->next = p]. *)
Definition set_pre (h : nodes) (a p : Z) : option nodes :=
  if a =? 0 then None else Some (upd h a (mk_node p (nd_next (h a)))).
Definition set_next (h : nodes) (a p : Z) : option nodes :=
  if a =? 0 then None else Some (upd h a (mk_node (nd_pre (h a)) p)).

Lemma set_pre_eq h a p : a <> 0 -> set_pre h a p = Some (upd h a (mk_node p (nd_next (h a)))).
Proof. intros. unfold set_pre. by rewrite (proj2 (Z.eqb_neq a 0)). Qed.
Lemma set_next_eq h a p : a <> 0 -> set_next h a p = Some (upd h a (mk_node (nd_pre (h a)) p)).
Proof. intros. unfold set_next. by rewrite (proj2 (Z.eqb_neq a 0)). Qed.

Definition list_node_init (h : nodes) (node : Z) : nodes := upd h node (mk_node 0 0).
Definition list_is_empty (l : list_t) : bool := l_count l =? 0.
Definition list_init : list_t := mk_list 0 0 0.

Definition list_insert_first (h : nodes) (l : list_t) (node : Z) : option (nodes * list_t) :=
  h ← set_next h node (l_first l);
  h ← set_pre h node 0;
  let count := i32 (l_count l + 1) in
  if l_count l =? 0 then Some (h, mk_list node node count)
  else h ← set_pre h (l_first l) node; Some (h, mk_list node (l_last l) count).

Definition list_insert_last (h : nodes) (l : list_t) (node : Z) : option (nodes * list_t) :=
  h ← set_pre h node (l_last l);
  h ← set_next h node 0;
  let count := i32 (l_count l + 1) in
  if l_count l =? 0 then Some (h, mk_list node node count)
  else h ← set_next h (l_last l) node; Some (h, mk_list (l_first l) node count).

(** The removed node, NULL for an empty list. *)
Definition list_delete_first (h : nodes) (l : list_t) : option (Z * nodes * list_t) :=
  if l_count l =? 0 then Some (0, h, l)
  else
    let remove_node := l_first l in
    if remove_node =? 0 then None
    else
      let first := nd_next (h remove_node) in
      h ← (if first =? 0 then Some h else set_pre h first 0);
      let last := if first =? 0 then 0 else l_last l in
      Some (remove_node, list_node_init h remove_node, mk_list first last (i32 (l_count l - 1))).

Definition list_delete (h : nodes) (l : list_t) (node : Z) : option (nodes * list_t) :=
  if node =? 0 then None
  else
    let first := if nd_pre (h node) =? 0 then nd_next (h node) else l_first l in
    h ← (if nd_pre (h node) =? 0 then Some h else set_next h (nd_pre (h node)) (nd_next (h node)));
    let last := if nd_next (h node) =? 0 then nd_pre (h node) else l_last l in
    h ← (if nd_next (h node) =? 0 then Some h else set_pre h (nd_next (h node)) (nd_pre (h node)));
    Some (list_node_init h node, mk_list first last (i32 (l_count l - 1))).

Definition contains_body (h : nodes) (node cur : Z) : Z + bool :=
  if cur =? 0 then inr false else if cur =? node then inr true else inl (nd_next (h cur)).
Definition list_contains (fuel : nat) (h : nodes) (l : list_t) (node : Z) : option bool :=
  loop fuel (contains_body h node) (l_first l).

(** ** The sequence of a list *)

(** [dseg h p xs n]: the nodes [xs] are linked in this order between [p] and [n]. *)
Fixpoint dseg (h : nodes) (p : Z) (xs : list Z) (n : Z) : Prop :=
  match xs with
  | [] => True
  | x :: xs' => h x = mk_node p (hd n xs') /\ dseg h x xs' n
  end.

Definition lastz (p : Z) (xs : list Z) : Z := default p (last xs).

Definition dlist (h : nodes) (l : list_t) (xs : list Z) : Prop :=
  NoDup xs /\ (0 ∉ xs) /\ Z.of_nat (length xs) < 2147483648 /\
  l = mk_list (hd 0 xs) (lastz 0 xs) (Z.of_nat (length xs)) /\ dseg h 0 xs 0.

Lemma lastz_cons p x xs : lastz p (x :: xs) = lastz x xs.
Proof. destruct xs as [|y xs]; [done|]. unfold lastz. cbn [last]. by destruct (last (y :: xs)) eqn:E; [|destruct xs; apply last_None in E]. Qed.

Lemma lastz_snoc p xs x : lastz p (xs ++ [x]) = x.
Proof. unfold lastz. by rewrite last_snoc. Qed.

Lemma lastz_in xs : xs <> [] -> lastz 0 xs ∈ xs.
Proof.
  intros Hx. unfold lastz. destruct (last xs) as [y|] eqn:E; [|by apply last_None in E].
  apply last_Some in E as [ys ->]. cbn. set_solver.
Qed.

Lemma hd_app_cons (n x : Z) xs ys : hd n (xs ++ x :: ys) = hd x xs.
Proof. by destruct xs. Qed.

Lemma dseg_app h p xs ys n : dseg h p (xs ++ ys) n <-> dseg h p xs (hd n ys) /\ dseg h (lastz p xs) ys n.
Proof.
  revert p. induction xs as [|x xs IH]; intros p; [cbn; tauto|]. rewrite lastz_cons. cbn [app dseg]. rewrite IH.
  replace (hd n (xs ++ ys)) with (hd (hd n ys) xs) by (by destruct xs). tauto.
Qed.

Lemma dseg_frame h h' p xs n : (forall x, x ∈ xs -> h' x = h x) -> dseg h p xs n -> dseg h' p xs n.
Proof.
  revert p. induction xs as [|x xs IH]; intros p Hf; [done|]. cbn [dseg]. intros [Hx Hs].
  split; [rewrite Hf; [done|set_solver]|]. apply IH; [set_solver|done].
Qed.

Lemma dlist_frame h h' l xs : (forall x, x ∈ xs -> h' x = h x) -> dlist h l xs -> dlist h' l xs.
Proof. intros Hf (? & ? & ? & ? & ?). split; [done|]. split; [done|]. split; [done|]. split; [done|]. by eapply dseg_frame. Qed.

Lemma dlist_nil h : dlist h list_init [].
Proof. split; [constructor|]. split; [set_solver|]. done. Qed.

(** ** The operations on a sequence *)

(** Storing the successor of the last node of a segment, the predecessor of the first. *)
Lemma relink_next h p xs n m :
  dseg h p xs n -> NoDup xs -> 0 ∉ xs ->
  exists h', (if lastz 0 xs =? 0 then Some h else set_next h (lastz 0 xs) m) = Some h' /\
    dseg h' p xs m /\ forall x, x ∉ xs -> h' x = h x.
Proof.
  intros Hs Hnd H0. destruct (decide (xs = [])) as [->|Hx]; [by exists h|].
  destruct (exists_last Hx) as (ys & y & ->). rewrite lastz_snoc. assert (y <> 0) by set_solver.
  rewrite (proj2 (Z.eqb_neq y 0)), set_next_eq by done.
  eexists. split; [done|]. apply dseg_app in Hs as [Hys [Hy _]]. apply NoDup_app in Hnd as (_ & Hd & _).
  split; [|intros x Hni; apply upd_ne; set_solver]. apply dseg_app. cbn [hd dseg]. split.
  - eapply dseg_frame; [|exact Hys]. intros x Hxy. apply upd_ne. intros ->. apply (Hd y Hxy). set_solver.
  - split; [|done]. by rewrite upd_eq, Hy.
Qed.

Lemma relink_pre h p q xs n :
  dseg h p xs n -> NoDup xs -> 0 ∉ xs ->
  exists h', (if hd 0 xs =? 0 then Some h else set_pre h (hd 0 xs) q) = Some h' /\
    dseg h' q xs n /\ forall x, x ∉ xs -> h' x = h x.
Proof.
  intros Hs Hnd H0. destruct xs as [|y ys]; [by exists h|]. cbn [hd]. assert (y <> 0) by set_solver.
  rewrite (proj2 (Z.eqb_neq y 0)), set_pre_eq by done.
  eexists. split; [done|]. destruct Hs as [Hy Hs]. apply NoDup_cons in Hnd as [Hni _].
  split; [|intros x Hx; apply upd_ne; set_solver]. split; [by rewrite upd_eq, Hy|].
  eapply dseg_frame; [|exact Hs]. intros x Hx. apply upd_ne. by intros ->.
Qed.

Lemma insert_last_spec h l xs n :
  dlist h l xs -> n ∉ xs -> n <> 0 -> Z.of_nat (length xs) + 1 < 2147483648 ->
  exists h' l', list_insert_last h l n = Some (h', l') /\ dlist h' l' (xs ++ [n]) /\
    forall x, x ∉ xs -> x <> n -> h' x = h x.
Proof.
  intros (Hnd & H0 & Hlen & -> & Hs) Hni Hn0 Hb. unfold list_insert_last. rewrite set_pre_eq by done.
  cbn [mbind option_bind l_last l_count l_first]. rewrite set_next_eq by done. cbn [mbind option_bind].
  rewrite upd_eq. cbn [nd_pre]. rewrite i32_id by lia.
  set (h2 := upd (upd h n _) n (mk_node (lastz 0 xs) 0)).
  assert (forall x, x <> n -> h2 x = h x) as Hh2 by (intros x Hx; unfold h2; by rewrite !upd_ne by done).
  assert (dseg h2 0 xs 0) as Hs2 by (eapply dseg_frame; [|exact Hs]; intros x Hx; apply Hh2; by intros ->).
  assert (NoDup (xs ++ [n])) as Hnd'.
  { apply NoDup_app. split; [done|]. split; [by intros x Hx ->%list_elem_of_singleton|apply NoDup_singleton]. }
  assert (forall h', dseg h' 0 xs n -> h' n = h2 n -> dlist h' (mk_list (hd 0 (xs ++ [n])) n (Z.of_nat (length xs) + 1)) (xs ++ [n])) as Hmk.
  { intros h' Hd' Hn'. split; [done|]. split; [set_solver|]. rewrite length_app. cbn [length]. split; [lia|].
    split; [rewrite lastz_snoc; f_equal; lia|]. apply dseg_app. split; [done|]. cbn. split; [|done]. rewrite Hn'. apply upd_eq. }
  destruct (decide (xs = [])) as [->|Hx].
  - eexists _, _. split; [reflexivity|]. split; [by apply Hmk|]. intros x _ Hx. by apply Hh2.
  - destruct (relink_next h2 0 xs 0 n Hs2 Hnd H0) as (h3 & E3 & Hd3 & Hf3).
    pose proof (lastz_in xs Hx). rewrite (proj2 (Z.eqb_neq (lastz 0 xs) 0)) in E3 by (intros E; congruence).
    rewrite (proj2 (Z.eqb_neq _ 0)) by (destruct xs; [done|cbn; lia]). rewrite E3. cbn [mbind option_bind].
    eexists _, _. split; [reflexivity|]. split.
    + replace (hd 0 xs) with (hd 0 (xs ++ [n])) by (by destruct xs). apply Hmk; [done|]. by apply Hf3.
    + intros x Hxx Hxn. rewrite Hf3 by done. by apply Hh2.
Qed.

Lemma delete_first_nil h l : dlist h l [] -> list_delete_first h l = Some (0, h, l).
Proof. intros (_ & _ & _ & -> & _). done. Qed.

Lemma delete_first_cons h l n xs :
  dlist h l (n :: xs) ->
  exists h' l', list_delete_first h l = Some (n, h', l') /\ dlist h' l' xs /\ forall x, x ∉ n :: xs -> h' x = h x.
Proof.
  intros (Hnd & H0 & Hlen & -> & [Hn Hs]). apply NoDup_cons in Hnd as [Hni Hnd]. assert (n <> 0) by set_solver. cbn [length] in *.
  unfold list_delete_first. cbn [l_count l_first hd l_last]. rewrite (proj2 (Z.eqb_neq _ 0)) by lia. rewrite (proj2 (Z.eqb_neq n 0)) by done.
  rewrite Hn. cbn [nd_next].
  destruct (relink_pre h n 0 xs 0 Hs Hnd) as (h1 & E1 & Hd1 & Hf1); [set_solver|]. rewrite E1. cbn [mbind option_bind].
  eexists _, _. split; [reflexivity|]. rewrite i32_id by lia. split.
  - split; [done|]. split; [set_solver|]. split; [lia|]. split.
    + f_equal; [|lia]. rewrite lastz_cons. destruct xs as [|y ys]; [done|]. cbn [hd].
      rewrite (proj2 (Z.eqb_neq y 0)) by set_solver. by rewrite !lastz_cons.
    + eapply dseg_frame; [|exact Hd1]. intros x Hx. apply upd_ne. by intros ->.
  - intros x Hx. unfold list_node_init. rewrite upd_ne by set_solver. apply Hf1. set_solver.
Qed.

Lemma insert_first_spec h l xs n :
  dlist h l xs -> n ∉ xs -> n <> 0 -> Z.of_nat (length xs) + 1 < 2147483648 ->
  exists h' l', list_insert_first h l n = Some (h', l') /\ dlist h' l' (n :: xs) /\
    forall x, x ∉ xs -> x <> n -> h' x = h x.
Proof.
  intros (Hnd & H0 & Hlen & -> & Hs) Hni Hn0 Hb. unfold list_insert_first. rewrite set_next_eq by done.
  cbn [mbind option_bind l_last l_count l_first]. rewrite set_pre_eq by done. cbn [mbind option_bind].
  rewrite upd_eq. cbn [nd_next]. rewrite i32_id by lia.
  set (h2 := upd (upd h n _) n (mk_node 0 (hd 0 xs))).
  assert (forall x, x <> n -> h2 x = h x) as Hh2 by (intros x Hx; unfold h2; by rewrite !upd_ne by done).
  assert (dseg h2 0 xs 0) as Hs2 by (eapply dseg_frame; [|exact Hs]; intros x Hx; apply Hh2; by intros ->).
  assert (forall h', dseg h' n xs 0 -> h' n = h2 n -> dlist h' (mk_list n (lastz n xs) (Z.of_nat (length xs) + 1)) (n :: xs)) as Hmk.
  { intros h' Hd' Hn'. split; [by apply NoDup_cons|]. split; [set_solver|]. cbn [length]. split; [lia|].
    split; [rewrite lastz_cons; f_equal; lia|]. cbn [dseg]. split; [|done]. rewrite Hn'. apply upd_eq. }
  destruct xs as [|y ys].
  - eexists _, _. split; [reflexivity|]. split; [by apply Hmk|]. intros x _ Hx. by apply Hh2.
  - destruct (relink_pre h2 0 n (y :: ys) 0 Hs2 Hnd H0) as (h3 & E3 & Hd3 & Hf3). cbn [hd] in *.
    rewrite (proj2 (Z.eqb_neq y 0)) in E3 by set_solver.
    rewrite (proj2 (Z.eqb_neq _ 0)) by (cbn; lia). rewrite E3. cbn [mbind option_bind].
    eexists _, _. split; [reflexivity|]. rewrite lastz_cons, <-(lastz_cons n). split; [apply Hmk; [done|]; by apply Hf3|].
    intros x Hxx Hxn. rewrite Hf3 by done. by apply Hh2.
Qed.

Lemma delete_spec h l xs1 n xs2 :
  dlist h l (xs1 ++ n :: xs2) ->
  exists h' l', list_delete h l n = Some (h', l') /\ dlist h' l' (xs1 ++ xs2) /\ forall x, x ∉ xs1 ++ n :: xs2 -> h' x = h x.
Proof.
  intros (Hnd & H0 & Hlen & -> & Hs). rewrite length_app in Hlen. cbn [length] in Hlen.
  apply dseg_app in Hs as (Hs1 & Hn & Hs2). cbn [hd] in *.
  pose proof Hnd as (Hnd1 & Hd & [Hn2 Hnd2]%NoDup_cons)%NoDup_app.
  assert (n ∉ xs1) as Hn1 by (intros Hi; apply (Hd n Hi); set_solver). assert (n <> 0 /\ (0 ∉ xs1) /\ (0 ∉ xs2)) as (Hn0 & H01 & H02) by (clear -H0; set_solver).
  assert (forall x, x ∈ xs1 -> x ∉ xs2) as Hd12 by (intros x Hx Hx2; apply (Hd x Hx); set_solver).
  unfold list_delete. rewrite (proj2 (Z.eqb_neq n 0)) by done. rewrite Hn. cbn [nd_pre nd_next].
  destruct (relink_next h 0 xs1 n (hd 0 xs2) Hs1 Hnd1) as (h1 & E1 & Hd1 & Hf1); [done|].
  rewrite E1. cbn [mbind option_bind]. rewrite Hf1, Hn by done. cbn [nd_pre nd_next].
  assert (dseg h1 n xs2 0) as Hs2' by (eapply dseg_frame; [|exact Hs2]; intros x Hx; apply Hf1; intros Hi; by apply (Hd12 x)).
  destruct (relink_pre h1 n (lastz 0 xs1) xs2 0 Hs2' Hnd2) as (h2 & E2 & Hd2 & Hf2); [done|].
  rewrite E2. cbn [mbind option_bind]. eexists _, _. split; [reflexivity|]. split.
  - split; [apply NoDup_app; split; [done|]; split; [done|done]|].
    split; [by rewrite not_elem_of_app|]. rewrite length_app. split; [lia|]. split.
    + rewrite length_app. cbn [l_first l_last l_count length]. rewrite i32_id by lia. f_equal; [..|lia].
      * rewrite hd_app_cons. destruct xs1 as [|y ys]; [done|]. rewrite (proj2 (Z.eqb_neq _ 0)); [done|].
        intros E. apply H01. rewrite <-E. by apply lastz_in.
      * destruct (decide (xs2 = [])) as [->|Hx2]; [cbn; by rewrite app_nil_r|]. destruct xs2 as [|y ys]; [done|]. cbn [hd].
        rewrite (proj2 (Z.eqb_neq y 0)) by (intros ->; apply H02; left). unfold lastz. rewrite !last_app, !last_cons_cons. done.
    + apply dseg_app. split; [|eapply dseg_frame; [|exact Hd2]; intros x Hx; apply upd_ne; by intros ->].
      eapply dseg_frame; [|exact Hd1]. intros x Hx. unfold list_node_init. rewrite upd_ne by (by intros ->).
      apply Hf2. by apply Hd12.
  - intros x [Hx1 [Hxn Hx2]%not_elem_of_cons]%not_elem_of_app. unfold list_node_init. rewrite upd_ne, Hf2 by done. by apply Hf1.
Qed.

Lemma contains_seg h n xs : forall p fuel, dseg h p xs 0 -> 0 ∉ xs -> (length xs < fuel)%nat ->
  loop fuel (contains_body h n) (hd 0 xs) = Some (bool_decide (n ∈ xs)).
Proof.
  induction xs as [|x xs IH]; intros p fuel Hs H0 Hf; (destruct fuel as [|fuel]; [cbn in Hf; lia|]); cbn [loop hd]; unfold contains_body at 1.
  - rewrite Z.eqb_refl. by rewrite bool_decide_false by set_solver.
  - rewrite (proj2 (Z.eqb_neq x 0)) by set_solver. destruct Hs as [Hx Hs]. case_if.
    + rewrite bool_decide_true; [done|set_solver].
    + rewrite Hx. cbn [nd_next]. rewrite (IH x); [|done|set_solver|cbn in Hf; lia]. f_equal. apply bool_decide_ext. set_solver.
Qed.

(** The walk of [list_contains] ends, at NULL or at the node. *)
Lemma contains_spec fuel h l xs n :
  dlist h l xs -> (length xs < fuel)%nat -> list_contains fuel h l n = Some (bool_decide (n ∈ xs)).
Proof. intros (_ & H0 & _ & -> & Hs) Hf. by apply (contains_seg h n xs 0). Qed.
