(* ===== verification/Sched.v ===== *)
(** * The scheduler: kernel/task/sched.c and the task slots of kernel/task/task.c

    Every CPU has a queue of ready tasks and an idle task; a task lives on the CPU of its
    affinity.  A task is a slot of the pool, 0 to 63, and the idle task of CPU [c] is the
    number [TASK_MAX + c].  [run_node] of task [t] has the address [t + 1], and the queues
    are the linked lists of KList.v on these nodes.

    [sched_enqueue], [sched_unblock] and [sched_schedule] hold the lock of the queue they
    work on (with one CPU, they run with interrupts off), so each is one step; [sstep]
    interleaves the steps of all CPUs and interrupt handlers.  The switch of stacks and page
    tables at the end of [sched_schedule] is not modelled; interrupts are off until it is
    done, and no other CPU takes tasks from the queue. *)

From S2P Require Import Prelude KList.
From stdpp Require Import options.
From Stdlib Require Import Lia ZifyBool.

Abbreviation TASK_MAX := 64.
Abbreviation AVATAR_MAX_CPUS := 8.
Abbreviation CPU_AFFINITY_ANY := 4294967295.

Inductive task_state_t := TASK_ALLOCATING | TASK_READY | TASK_RUNNING | TASK_BLOCKED | TASK_DEAD.

#[global] Instance task_state_eq_dec : EqDecision task_state_t.
Proof. solve_decision. Defined.

Record task_t := mk_task {
  tk_state : task_state_t; tk_on_cpu : bool; tk_wake_pending : bool; tk_affinity : Z; tk_id : Z; tk_parent_id : Z }.
Record cpu_t := mk_cpu { cp_current : Z; cp_idle : Z; cp_rq : list_t; cp_resched : bool; cp_online : bool }.

(** [g_task_pool] and the idle tasks, [g_stack_used], the run nodes, [g_cpus],
    [g_num_cpus], [g_rr_counter]. *)
Record sched_world := mk_sw {
  sw_task : Z -> task_t; sw_used : Z -> bool; sw_run : nodes; sw_cpu : Z -> cpu_t; sw_ncpus : Z; sw_rr : Z }.

(** ** Stores to one field *)

Definition put_task w t x := mk_sw (upd (sw_task w) t x) (sw_used w) (sw_run w) (sw_cpu w) (sw_ncpus w) (sw_rr w).
Definition put_used w t b := mk_sw (sw_task w) (upd (sw_used w) t b) (sw_run w) (sw_cpu w) (sw_ncpus w) (sw_rr w).
Definition put_run w h := mk_sw (sw_task w) (sw_used w) h (sw_cpu w) (sw_ncpus w) (sw_rr w).
Definition put_cpu w c x := mk_sw (sw_task w) (sw_used w) (sw_run w) (upd (sw_cpu w) c x) (sw_ncpus w) (sw_rr w).
Definition put_rr w r := mk_sw (sw_task w) (sw_used w) (sw_run w) (sw_cpu w) (sw_ncpus w) r.

Definition t_state (x : task_t) s := mk_task s (tk_on_cpu x) (tk_wake_pending x) (tk_affinity x) (tk_id x) (tk_parent_id x).
Definition t_on_cpu (x : task_t) b := mk_task (tk_state x) b (tk_wake_pending x) (tk_affinity x) (tk_id x) (tk_parent_id x).
Definition t_wake (x : task_t) b := mk_task (tk_state x) (tk_on_cpu x) b (tk_affinity x) (tk_id x) (tk_parent_id x).
Definition t_affinity (x : task_t) a := mk_task (tk_state x) (tk_on_cpu x) (tk_wake_pending x) a (tk_id x) (tk_parent_id x).
Definition t_names (x : task_t) i p := mk_task (tk_state x) (tk_on_cpu x) (tk_wake_pending x) (tk_affinity x) i p.

Definition set_state w t s := put_task w t (t_state (sw_task w t) s).
Definition set_on_cpu w t b := put_task w t (t_on_cpu (sw_task w t) b).
Definition set_wake w t b := put_task w t (t_wake (sw_task w t) b).
Definition set_affinity w t a := put_task w t (t_affinity (sw_task w t) a).

Definition c_current (x : cpu_t) t := mk_cpu t (cp_idle x) (cp_rq x) (cp_resched x) (cp_online x).
Definition c_rq (x : cpu_t) l := mk_cpu (cp_current x) (cp_idle x) l (cp_resched x) (cp_online x).
Definition c_resched (x : cpu_t) b := mk_cpu (cp_current x) (cp_idle x) (cp_rq x) b (cp_online x).

Definition set_current w c t := put_cpu w c (c_current (sw_cpu w c) t).
Definition set_resched w c b := put_cpu w c (c_resched (sw_cpu w c) b).

(** [&task->run_node] and [container_of]. *)
Definition run_node (t : Z) : Z := t + 1.
Definition task_of (node : Z) : Z := node - 1.

(** [list_insert_last(&g_cpus[c].run_queue, &task->run_node)] *)
Definition rq_insert w c t : option sched_world :=
  '(h, l) ← list_insert_last (sw_run w) (cp_rq (sw_cpu w c)) (run_node t);
  Some (put_cpu (put_run w h) c (c_rq (sw_cpu w c) l)).

(** ** kernel/task/sched.c *)

(** [n = g_num_cpus ? g_num_cpus : 1U] *)
Definition num_cpus w : Z := if sw_ncpus w =? 0 then 1 else sw_ncpus w.

(** The interrupt that is sent to another CPU has no model. *)
Definition sched_resched_cpu w (cpu_id : Z) : sched_world :=
  if (sw_ncpus w <=? cpu_id) || (AVATAR_MAX_CPUS <=? cpu_id) then w
  else if negb (cp_online (sw_cpu w cpu_id)) then w
  else set_resched w cpu_id true.

(** The CPU a task is put on, its new affinity, and the counter. *)
Definition enqueue_target w t : Z * sched_world :=
  let n := num_cpus w in
  let a := tk_affinity (sw_task w t) in
  if n =? 1 then (0, set_affinity w t 0)
  else if a =? CPU_AFFINITY_ANY then
    let target := sw_rr w mod n in (target, set_affinity (put_rr w (u32 (sw_rr w + 1))) t target)
  else if n <=? a then (0, set_affinity w t 0)
  else (a, w).

Definition sched_enqueue w t : option sched_world :=
  if bool_decide (tk_state (sw_task w t) = TASK_RUNNING) then Some w
  else
    let n := num_cpus w in
    let '(target, w) := enqueue_target w t in
    let w := put_run w (list_node_init (sw_run w) (run_node t)) in
    w ← rq_insert w target t;
    Some (if n =? 1 then w else sched_resched_cpu w target).

Definition sched_unblock w t : option sched_world :=
  let n := num_cpus w in
  let target := if tk_affinity (sw_task w t) <? n then tk_affinity (sw_task w t) else 0 in
  if negb (bool_decide (tk_state (sw_task w t) = TASK_BLOCKED)) then Some w
  else
    let w := set_state w t TASK_READY in
    if tk_on_cpu (sw_task w t) then Some (set_wake w t true)
    else
      w ← rq_insert w target t;
      Some (if 1 <? n then sched_resched_cpu w target else w).

(** Longer than any queue. *)
Abbreviation RQ_FUEL := 65%nat.

(** [false]: the task is not in the queue of [c]. *)
Definition dequeue_from w c t : option (bool * sched_world) :=
  found ← list_contains RQ_FUEL (sw_run w) (cp_rq (sw_cpu w c)) (run_node t);
  if (found : bool) then
    '(h, l) ← list_delete (sw_run w) (cp_rq (sw_cpu w c)) (run_node t);
    Some (true, put_cpu (put_run w h) c (c_rq (sw_cpu w c) l))
  else Some (false, w).

Fixpoint dequeue_scan (cs : list Z) w t : option sched_world :=
  match cs with
  | [] => Some w
  | c :: cs => '(found, w) ← dequeue_from w c t; if (found : bool) then Some w else dequeue_scan cs w t
  end.

Definition sched_dequeue w t : option sched_world :=
  let n := num_cpus w in
  if n =? 1 then '(_, w) ← dequeue_from w 0 t; Some w
  else
    let a := tk_affinity (sw_task w t) in
    '(found, w) ← (if a <? n then dequeue_from w a t else Some (false, w));
    if (found : bool) then Some w else dequeue_scan (seqZ 0 n) w t.

Definition pick_next w c : option (Z * sched_world) :=
  '(node, h, l) ← list_delete_first (sw_run w) (cp_rq (sw_cpu w c));
  let w := put_cpu (put_run w h) c (c_rq (sw_cpu w c) l) in
  let idle := cp_idle (sw_cpu w c) in
  if node =? 0 then Some (idle, w)
  else if (task_of node <? 0) || (TASK_MAX <=? task_of node) then Some (idle, w)
  else Some (task_of node, w).

Definition switch_out w c prev next : option sched_world :=
  let w := set_on_cpu w prev false in
  w ← (if tk_wake_pending (sw_task w prev) then
         let w := set_wake w prev false in
         let w := set_state w prev TASK_READY in
         w ← rq_insert w c prev;
         Some (set_resched w c true)
       else Some w);
  Some (set_on_cpu (set_state w next TASK_RUNNING) next true).

Definition sched_schedule w c : option sched_world :=
  let prev := cp_current (sw_cpu w c) in
  w ← (if bool_decide (tk_state (sw_task w prev) = TASK_RUNNING) && negb (prev =? cp_idle (sw_cpu w c)) then
         rq_insert (set_state w prev TASK_READY) c prev
       else Some w);
  '(next, w) ← pick_next w c;
  if next =? prev then Some (set_state w prev TASK_RUNNING)
  else
    w ← switch_out w c prev next;
    Some (set_current w c next).

(** Outside interrupts; whether it switched. *)
Definition sched_check_and_yield w c : option (bool * sched_world) :=
  if cp_resched (sw_cpu w c) then w ← sched_schedule (set_resched w c false) c; Some (true, w) else Some (false, w).

(** ** The slots of kernel/task/task.c *)

Definition slot_is_reapable_orphan_locked w (idx : Z) : bool :=
  let t := sw_task w idx in
  if negb (sw_used w idx) || negb (bool_decide (tk_state t = TASK_DEAD)) then false
  else if tk_parent_id t =? 0 then true
  else
    match List.find (fun i => sw_used w i && (tk_id (sw_task w i) =? tk_parent_id t)) (seqZ 0 TASK_MAX) with
    | Some i => bool_decide (tk_state (sw_task w i) = TASK_DEAD)
    | None => true
    end.

(** The address space of the task is released through the operations of the page tables. *)
Definition slot_take_and_free w (idx : Z) : sched_world := put_used w idx false.

(** One round of the loop that reaps orphans. *)
Definition reap_body w : sched_world + sched_world :=
  match List.find (slot_is_reapable_orphan_locked w) (seqZ 0 TASK_MAX) with
  | Some victim => inl (slot_take_and_free (set_state w victim TASK_ALLOCATING) victim)
  | None => inr w
  end.

(** The slot after [memset], with the default affinity. *)
Definition blank_task : task_t := mk_task TASK_ALLOCATING false false CPU_AFFINITY_ANY 0 0.

Definition claim_slot w : option (Z * sched_world) :=
  match List.find (fun i => negb (sw_used w i)) (seqZ 0 TASK_MAX) with
  | Some i => Some (i, put_run (put_task (put_used w i true) i blank_task) (list_node_init (sw_run w) (run_node i)))
  | None => None
  end.

(** The slot, if there is one; [None] outside only without fuel. *)
Definition task_alloc_slot w : option (option Z * sched_world) :=
  w ← loop 65 reap_body w;
  Some (match claim_slot w with Some (i, w) => (Some i, w) | None => (None, w) end).

(** [false]: the slot is not dead, somebody else has reaped it. *)
Definition reap_claim w t : bool * sched_world :=
  if bool_decide (tk_state (sw_task w t) = TASK_DEAD) then (true, set_state w t TASK_ALLOCATING) else (false, w).

Definition task_reap_dead w t : sched_world :=
  if TASK_MAX <=? t then w
  else let '(mine, w) := reap_claim w t in if (mine : bool) then slot_take_and_free w t else w.

Definition free_task_slot w t : sched_world := put_used (set_state w t TASK_ALLOCATING) t false.

Definition process_start w t : option sched_world := sched_enqueue (set_state w t TASK_READY) t.

(** [id] is what [task_alloc_id] gives. *)
Definition task_create_affinity w (id aff : Z) : option (option Z * sched_world) :=
  '(slot, w) ← task_alloc_slot w;
  match slot with
  | None => Some (None, w)
  | Some t =>
      let w := put_task w t (t_names (sw_task w t) id 0) in
      let w := put_run w (list_node_init (sw_run w) (run_node t)) in
      let w := set_state w t TASK_READY in
      let w := set_affinity w t aff in
      w ← sched_enqueue w t; Some (Some t, w)
  end.

(** [task_init] and [setup_secondary_idle_task] for [n] CPUs: the idle tasks run. *)
Definition idle_of (c : Z) : Z := TASK_MAX + c.
Definition boot_task (t : Z) : task_t :=
  if TASK_MAX <=? t then mk_task TASK_RUNNING true false (t - TASK_MAX) 0 0 else mk_task TASK_DEAD false false 0 0 0.
Definition sched_boot (n : Z) : sched_world :=
  mk_sw boot_task (fun _ => false) (fun _ => mk_node 0 0)
    (fun c => mk_cpu (idle_of c) (idle_of c) list_init false (c <? n)) n 0.

(** * Runs

    [sr_own]: the slots that somebody reaps ([Some false]) or creates a task in
    ([Some true]). *)
Record srun := mk_sr { sr_w : sched_world; sr_own : Z -> option bool }.

(** [strict]: a dead task is reaped only when its CPU has left it.  The code does not wait
    for that. *)
Inductive sstep (strict : bool) : srun -> srun -> Prop :=
  | ss_schedule w o c w' :
      0 <= c < sw_ncpus w -> sched_schedule w c = Some w' -> sstep strict (mk_sr w o) (mk_sr w' o)
  | ss_tick w o c :
      0 <= c < sw_ncpus w -> sstep strict (mk_sr w o) (mk_sr (set_resched w c true) o)
  | ss_block w o c t :
      0 <= c < sw_ncpus w -> cp_current (sw_cpu w c) = t -> t <> idle_of c -> tk_state (sw_task w t) = TASK_RUNNING ->
      sstep strict (mk_sr w o) (mk_sr (set_state w t TASK_BLOCKED) o)
  | ss_unblock w o t w' :
      0 <= t < TASK_MAX + sw_ncpus w -> sched_unblock w t = Some w' -> sstep strict (mk_sr w o) (mk_sr w' o)
  | ss_exit w o c t :
      0 <= c < sw_ncpus w -> cp_current (sw_cpu w c) = t -> t <> idle_of c -> tk_state (sw_task w t) = TASK_RUNNING ->
      sstep strict (mk_sr w o) (mk_sr (set_state w t TASK_DEAD) o)
  | ss_dequeue w o c t w' :
      0 <= c < sw_ncpus w -> cp_current (sw_cpu w c) = t -> tk_state (sw_task w t) = TASK_DEAD ->
      sched_dequeue w t = Some w' -> sstep strict (mk_sr w o) (mk_sr w' o)
  | ss_claim w o c t w' :
      0 <= c < sw_ncpus w -> cp_current (sw_cpu w c) <> t -> 0 <= t < TASK_MAX -> sw_used w t = true -> (strict = true -> tk_on_cpu (sw_task w t) = false) ->
      reap_claim w t = (true, w') -> sstep strict (mk_sr w o) (mk_sr w' (upd o t (Some false)))
  | ss_free w o t :
      0 <= t < TASK_MAX -> o t = Some false -> sstep strict (mk_sr w o) (mk_sr (slot_take_and_free w t) (upd o t None))
  | ss_alloc w o t w' :
      claim_slot w = Some (t, w') -> sstep strict (mk_sr w o) (mk_sr w' (upd o t (Some true)))
  | ss_abort w o t :
      0 <= t < TASK_MAX -> o t = Some true -> sstep strict (mk_sr w o) (mk_sr (free_task_slot w t) (upd o t None))
  | ss_start w o t id parent aff w' :
      0 <= t < TASK_MAX -> o t = Some true -> 0 <= aff -> process_start (set_affinity (put_task w t (t_names (sw_task w t) id parent)) t aff) t = Some w' ->
      sstep strict (mk_sr w o) (mk_sr w' (upd o t None)).

(** ** The queues *)

(** [qs c] is the queue of CPU [c]. *)
Definition qshape (n : Z) (h : nodes) (rq : Z -> list_t) (qs : Z -> list Z) : Prop :=
  (forall c, 0 <= c < n -> dlist h (rq c) (map run_node (qs c)) /\ Forall (fun t => 0 <= t < TASK_MAX) (qs c)) /\
  forall c c' t, 0 <= c < n -> 0 <= c' < n -> t ∈ qs c -> t ∈ qs c' -> c = c'.

Definition rqs w c : list_t := cp_rq (sw_cpu w c).

#[global] Instance run_node_inj : Inj (=) (=) run_node.
Proof. unfold run_node. intros x y. lia. Qed.

Lemma run_node_in t qs : run_node t ∈ map run_node qs <-> t ∈ qs.
Proof. apply list_elem_of_fmap_inj. apply _. Qed.

Lemma queue_short n h rq qs c : qshape n h rq qs -> 0 <= c < n -> (length (qs c) <= 64)%nat.
Proof.
  intros [Hq _] Hc. destruct (Hq c Hc) as [(Hnd & _) Hr]. apply NoDup_fmap_1 in Hnd.
  change 64%nat with (Z.to_nat 64). rewrite <-(length_seqZ 0 64). apply submseteq_length, NoDup_submseteq; [done|].
  intros t Ht. apply elem_of_seqZ. rewrite Forall_forall in Hr. specialize (Hr t Ht). lia.
Qed.

Lemma insert_shape n h rq qs c t :
  qshape n h rq qs -> 0 <= c < n -> 0 <= t < TASK_MAX -> (forall c', 0 <= c' < n -> t ∉ qs c') ->
  exists h' l', list_insert_last h (rq c) (run_node t) = Some (h', l') /\ qshape n h' (upd rq c l') (upd qs c (qs c ++ [t])).
Proof.
  intros Hs Hc Ht Hni. pose proof (queue_short _ _ _ _ c Hs Hc) as Hlen. destruct Hs as [Hq Hd]. destruct (Hq c Hc) as [Hl Hr].
  destruct (insert_last_spec h (rq c) (map run_node (qs c)) (run_node t)) as (h' & l' & E & Hl' & Hf);
    [done|by rewrite run_node_in; apply Hni|unfold run_node; lia|rewrite length_map; lia|].
  exists h', l'. split; [done|]. split.
  - intros d Hdn. destruct (decide (d = c)) as [->|Hne].
    + rewrite !upd_eq. rewrite map_app. split; [done|]. apply Forall_app. split; [done|]. by apply Forall_singleton.
    + rewrite !upd_ne by done. destruct (Hq d Hdn) as [Hld Hrd]. split; [|done]. eapply dlist_frame; [|exact Hld].
      intros x (y & -> & Hy)%list_elem_of_fmap. apply Hf.
      * rewrite run_node_in. intros Hy'. apply Hne. by apply (Hd d c y).
      * intros E'%(inj run_node). subst y. by apply (Hni d).
  - intros d d' x Hdn Hdn'. destruct (decide (d = c)) as [->|], (decide (d' = c)) as [->|]; rewrite ?upd_eq, ?upd_ne by done; [done| | |by apply Hd].
    + intros [Hx| ->%list_elem_of_singleton]%elem_of_app Hx'; [by apply (Hd c d' x)|]. by destruct (Hni d').
    + intros Hx [Hx'| ->%list_elem_of_singleton]%elem_of_app; [by apply (Hd d c x)|]. by destruct (Hni d).
Qed.

Lemma take_shape n h rq qs c t q :
  qshape n h rq qs -> 0 <= c < n -> qs c = t :: q ->
  exists h' l', list_delete_first h (rq c) = Some (run_node t, h', l') /\ qshape n h' (upd rq c l') (upd qs c q).
Proof.
  intros [Hq Hd] Hc Eq. destruct (Hq c Hc) as [Hl Hr]. rewrite Eq in Hl, Hr. cbn [map] in Hl.
  destruct (delete_first_cons _ _ _ _ Hl) as (h' & l' & E & Hl' & Hf). exists h', l'. split; [done|]. split.
  - intros d Hdn. destruct (decide (d = c)) as [->|Hne]; [rewrite !upd_eq; split; [done|by apply Forall_cons in Hr as []]|].
    rewrite !upd_ne by done. destruct (Hq d Hdn) as [Hld Hrd]. split; [|done]. eapply dlist_frame; [|exact Hld].
    intros x (y & -> & Hy)%list_elem_of_fmap. apply Hf. change (run_node y ∉ map run_node (t :: q)). rewrite run_node_in, <-Eq.
    intros Hy'. apply Hne. by apply (Hd d c y).
  - intros d d' x Hdn Hdn' Hx Hx'. apply (Hd d d' x); [done|done|..].
    + destruct (decide (d = c)) as [->|]; [rewrite upd_eq in Hx; rewrite Eq; by right|by rewrite upd_ne in Hx].
    + destruct (decide (d' = c)) as [->|]; [rewrite upd_eq in Hx'; rewrite Eq; by right|by rewrite upd_ne in Hx'].
Qed.

Lemma shape_ext n h rq rq' qs qs' :
  qshape n h rq qs -> (forall c, 0 <= c < n -> rq' c = rq c /\ qs' c = qs c) -> qshape n h rq' qs'.
Proof.
  intros [Hq Hd] He. split; [intros c Hc; destruct (He c Hc) as [-> ->]; by apply Hq|].
  intros c c' t Hc Hc'. destruct (He c Hc) as [_ ->], (He c' Hc') as [_ ->]. by apply Hd.
Qed.

(** A task that is in no queue is not found. *)
Lemma dequeue_absent w qs c t :
  qshape (sw_ncpus w) (sw_run w) (rqs w) qs -> 0 <= c < sw_ncpus w -> t ∉ qs c -> dequeue_from w c t = Some (false, w).
Proof.
  intros Hs Hc Hni. pose proof (queue_short _ _ _ _ c Hs Hc) as Hlen. destruct Hs as [Hq _]. destruct (Hq c Hc) as [Hl _]. unfold dequeue_from, rqs in *.
  rewrite (contains_spec RQ_FUEL _ _ _ (run_node t) Hl) by (rewrite length_map; lia). cbn [mbind option_bind].
  rewrite bool_decide_false; [done|]. by rewrite run_node_in.
Qed.

(** ** The invariant *)

(** Where a task of the pool is. *)
Inductive place := Nowhere | Queued (c : Z) | Current (c : Z).

(** What the fields of a task say there. *)
Definition task_ok (n : Z) (used : bool) (own : option bool) (p : place) (x : task_t) : Prop :=
  match p with
  | Queued c => 0 <= c < n /\ used = true /\ own = None /\
      tk_state x = TASK_READY /\ tk_on_cpu x = false /\ tk_wake_pending x = false /\ tk_affinity x = c
  | Current c => 0 <= c < n /\ used = true /\ own = None /\ tk_on_cpu x = true /\ tk_affinity x = c /\
      (if tk_wake_pending x then tk_state x = TASK_READY
       else tk_state x = TASK_RUNNING \/ tk_state x = TASK_BLOCKED \/ tk_state x = TASK_DEAD)
  | Nowhere => tk_on_cpu x = false /\ tk_wake_pending x = false /\
      (own <> None -> used = true /\ tk_state x = TASK_ALLOCATING) /\
      (tk_state x = TASK_BLOCKED /\ used = true /\ 0 <= tk_affinity x < n \/ tk_state x = TASK_DEAD \/ tk_state x = TASK_ALLOCATING)
  end.

Record sched_inv (n : Z) (w : sched_world) (o : Z -> option bool) (pl : Z -> place) (qs : Z -> list Z) : Prop := mk_sched_inv {
  si_n : 1 <= n <= AVATAR_MAX_CPUS /\ sw_ncpus w = n;
  si_rq : qshape n (sw_run w) (rqs w) qs;
  si_q : forall c t, 0 <= c < n -> 0 <= t < TASK_MAX -> t ∈ qs c <-> pl t = Queued c;
  si_cur : forall c, 0 <= c < n -> cp_current (sw_cpu w c) = idle_of c \/
             0 <= cp_current (sw_cpu w c) < TASK_MAX /\ pl (cp_current (sw_cpu w c)) = Current c;
  si_at : forall t c, 0 <= t < TASK_MAX -> pl t = Current c -> cp_current (sw_cpu w c) = t;
  si_task : forall t, 0 <= t < TASK_MAX -> task_ok n (sw_used w t) (o t) (pl t) (sw_task w t);
  si_idle : forall c, 0 <= c < n -> cp_idle (sw_cpu w c) = idle_of c /\
              tk_state (sw_task w (idle_of c)) = TASK_RUNNING /\ tk_wake_pending (sw_task w (idle_of c)) = false }.

(** Unfolds the stores to the world. *)
Ltac sw :=
  unfold free_task_slot, slot_take_and_free, set_state, set_on_cpu, set_wake, set_affinity, set_current, set_resched, rqs in *;
  cbn [put_task put_used put_run put_cpu put_rr sw_task sw_used sw_run sw_cpu sw_ncpus sw_rr
       t_state t_on_cpu t_wake t_affinity t_names tk_state tk_on_cpu tk_wake_pending tk_affinity tk_id tk_parent_id
       c_current c_rq c_resched cp_current cp_idle cp_rq cp_resched cp_online] in *.

Lemma idle_not_pool c : 0 <= c -> ~ 0 <= idle_of c < TASK_MAX.
Proof. unfold idle_of. lia. Qed.

(** Two worlds that differ in the slot of one task. *)
Definition only_task (t : Z) (w w' : sched_world) : Prop :=
  sw_ncpus w' = sw_ncpus w /\ (forall c, sw_cpu w' c = sw_cpu w c) /\
  forall t', t' <> t -> sw_task w' t' = sw_task w t' /\ sw_used w' t' = sw_used w t' /\ sw_run w' (run_node t') = sw_run w (run_node t').

Lemma only_task_refl t w : only_task t w w.
Proof. done. Qed.
Lemma only_task_put t w w' x : only_task t w w' -> only_task t w (put_task w' t x).
Proof. intros (? & ? & Hr). split; [done|]. split; [done|]. intros t' Hne. sw. rewrite upd_ne by done. by apply Hr. Qed.
Lemma only_task_used t w w' b : only_task t w w' -> only_task t w (put_used w' t b).
Proof. intros (? & ? & Hr). split; [done|]. split; [done|]. intros t' Hne. sw. rewrite upd_ne by done. by apply Hr. Qed.
Lemma only_task_init t w w' : only_task t w w' -> only_task t w (put_run w' (list_node_init (sw_run w') (run_node t))).
Proof.
  intros (? & ? & Hr). split; [done|]. split; [done|]. intros t' Hne. sw. unfold list_node_init.
  rewrite upd_ne by (by intros E%(inj run_node)). by apply Hr.
Qed.
Lemma only_task_rr t w w' r : only_task t w w' -> only_task t w (put_rr w' r).
Proof. done. Qed.
Create HintDb sched.
#[export] Hint Resolve only_task_refl only_task_put only_task_used only_task_init only_task_rr : sched.

Lemma shape_frame n h h' rq qs :
  qshape n h rq qs -> (forall c t, 0 <= c < n -> t ∈ qs c -> h' (run_node t) = h (run_node t)) -> qshape n h' rq qs.
Proof.
  intros [Hq Hd] Hf. split; [|done]. intros c Hc. destruct (Hq c Hc) as [Hl Hr]. split; [|done].
  eapply dlist_frame; [|exact Hl]. intros x (y & -> & Hy)%list_elem_of_fmap. by apply (Hf c).
Qed.

Lemma shape_only n w w' o pl qs t :
  sched_inv n w o pl qs -> 0 <= t < TASK_MAX -> (forall c, pl t <> Queued c) -> only_task t w w' -> qshape n (sw_run w') (rqs w') qs.
Proof.
  intros Hi Ht Hp (_ & Hc & Hr). eapply shape_ext; [eapply shape_frame; [apply (si_rq _ _ _ _ _ Hi)|]|].
  - intros c t' Hcn Hin. apply Hr. intros ->. by apply (Hp c), (si_q _ _ _ _ _ Hi).
  - intros c Hcn. unfold rqs. by rewrite Hc.
Qed.

(** A change of the fields of one task in place. *)
Lemma inv_task n w w' o o' pl qs t :
  sched_inv n w o pl qs -> 0 <= t < TASK_MAX -> only_task t w w' -> sw_run w' (run_node t) = sw_run w (run_node t) \/ pl t = Nowhere ->
  (forall t', t' <> t -> o' t' = o t') -> task_ok n (sw_used w' t) (o' t) (pl t) (sw_task w' t) -> sched_inv n w' o' pl qs.
Proof.
  intros Hi Hp Hw Hnode Ho Hok. pose proof Hi as [Hn Hrq Hq Hcur Hat Ht Hidle]. pose proof Hw as (En & Ec & Hr). split.
  - by rewrite En.
  - destruct Hnode as [Hnode|Hnode]; [|by eapply shape_only; [done|done|rewrite Hnode|done]].
    eapply shape_ext; [eapply shape_frame; [exact Hrq|]|].
    + intros c t' Hc Hin. destruct (decide (t' = t)) as [->|]; [done|by apply Hr].
    + intros c Hc. unfold rqs. by rewrite Ec.
  - done.
  - intros c Hc. rewrite Ec. by apply Hcur.
  - intros t' c Ht' E. rewrite Ec. by apply Hat.
  - intros t' Ht'. destruct (decide (t' = t)) as [->|Hne]; [done|]. destruct (Hr t' Hne) as (-> & -> & _). rewrite Ho by done. by apply Ht.
  - intros c Hc. rewrite Ec. destruct (Hr (idle_of c)) as (-> & _); [unfold idle_of; lia|]. by apply Hidle.
Qed.

Lemma inv_resched n w o pl qs c b : sched_inv n w o pl qs -> sched_inv n (set_resched w c b) o pl qs.
Proof.
  intros [Hn Hrq Hq Hcur Hat Ht Hidle].
  assert (forall d, cp_rq (sw_cpu (set_resched w c b) d) = cp_rq (sw_cpu w d) /\ cp_current (sw_cpu (set_resched w c b) d) = cp_current (sw_cpu w d) /\
    cp_idle (sw_cpu (set_resched w c b) d) = cp_idle (sw_cpu w d)) as Hs.
  { intros d. sw. destruct (decide (d = c)) as [->|]; [by rewrite upd_eq|by rewrite upd_ne]. }
  split; [done| |done|..|done|].
  - eapply shape_ext; [exact Hrq|]. intros d Hd. unfold rqs. by destruct (Hs d) as (-> & _).
  - intros d Hd. destruct (Hs d) as (_ & -> & _). by apply Hcur.
  - intros t d Htp E. destruct (Hs d) as (_ & -> & _). by apply Hat.
  - intros d Hd. destruct (Hs d) as (_ & _ & ->). by apply Hidle.
Qed.

Lemma resched_current w c d : cp_current (sw_cpu (sched_resched_cpu w c) d) = cp_current (sw_cpu w d).
Proof. unfold sched_resched_cpu. repeat case_if; [done..|]. sw. destruct (decide (d = c)) as [->|]; [by rewrite upd_eq|by rewrite upd_ne]. Qed.
Lemma resched_task w c : sw_task (sched_resched_cpu w c) = sw_task w.
Proof. unfold sched_resched_cpu. by repeat case_if. Qed.

Lemma inv_resched_cpu n w o pl qs c : sched_inv n w o pl qs -> sched_inv n (sched_resched_cpu w c) o pl qs.
Proof. intros H. unfold sched_resched_cpu. repeat case_if; [done..|]. by apply inv_resched. Qed.

(** A task that is nowhere enters the queue of [c]. *)
Lemma inv_enqueue n w w' o o' pl qs t c :
  sched_inv n w o pl qs -> 0 <= t < TASK_MAX -> pl t = Nowhere -> only_task t w w' -> 0 <= c < n ->
  (forall t', t' <> t -> o' t' = o t') -> task_ok n (sw_used w' t) (o' t) (Queued c) (sw_task w' t) ->
  exists w2, rq_insert w' c t = Some w2 /\ sched_inv n w2 o' (upd pl t (Queued c)) (upd qs c (qs c ++ [t])) /\
    sw_task w2 = sw_task w' /\ forall d, cp_current (sw_cpu w2 d) = cp_current (sw_cpu w d).
Proof.
  intros Hi Hp Hno Hw Hc Ho Hok. pose proof Hi as [Hn Hrq Hq Hcur Hat Ht Hidle].
  assert (qshape n (sw_run w') (rqs w') qs) as Hs by (eapply shape_only; [done|done|by rewrite Hno|done]).
  destruct (insert_shape n _ _ qs c t Hs Hc Hp) as (h & l & E & Hs').
  { intros c' Hc' Hin. apply Hq in Hin; [congruence|done|done]. }
  destruct Hw as (En & Ec & Hr). unfold rq_insert. unfold rqs in E. rewrite E. cbn [mbind option_bind]. eexists. split; [reflexivity|].
  assert (forall d, cp_current (upd (sw_cpu w') c (c_rq (sw_cpu w' c) l) d) = cp_current (sw_cpu w d) /\
    cp_idle (upd (sw_cpu w') c (c_rq (sw_cpu w' c) l) d) = cp_idle (sw_cpu w d)) as Hcp.
  { intros d. rewrite <-(Ec d). destruct (decide (d = c)) as [->|]; [by rewrite upd_eq|by rewrite upd_ne]. }
  split; [|split; [done|intros d; apply Hcp]]. split; sw.
  - by rewrite En.
  - eapply shape_ext; [exact Hs'|]. intros d Hd. split; [|done]. destruct (decide (d = c)) as [->|]; [by rewrite !upd_eq|by rewrite !upd_ne].
  - intros d t' Hd Ht'. destruct (decide (t' = t)) as [->|Hne]; [rewrite upd_eq|rewrite (upd_ne pl) by done].
    + destruct (decide (d = c)) as [->|]; [rewrite upd_eq; split; [done|set_solver]|]. rewrite upd_ne by done. rewrite Hq by done. split; congruence.
    + destruct (decide (d = c)) as [->|]; [rewrite upd_eq|rewrite upd_ne by done; by apply Hq]. rewrite <-Hq by done. set_solver.
  - intros d Hd. destruct (Hcp d) as [-> _]. destruct (Hcur d Hd) as [?|[? Ep]]; [by left|right]. split; [done|]. rewrite upd_ne; [done|congruence].
  - intros t' d Ht' E'. destruct (Hcp d) as [-> _]. destruct (decide (t' = t)) as [->|]; [by rewrite upd_eq in E'|]. rewrite upd_ne in E' by done. by apply Hat.
  - intros t' Ht'. destruct (decide (t' = t)) as [->|Hne]; [by rewrite upd_eq|]. rewrite upd_ne by done. destruct (Hr t' Hne) as (-> & -> & _). rewrite Ho by done. by apply Ht.
  - intros d Hd. destruct (Hcp d) as [_ ->]. destruct (Hr (idle_of d)) as (-> & _); [unfold idle_of; lia|]. by apply Hidle.
Qed.

(** ** The operations keep the invariant *)

Lemma enqueue_spec n w w1 o o' pl qs t :
  sched_inv n w o pl qs -> 0 <= t < TASK_MAX -> pl t = Nowhere -> only_task t w w1 -> (forall t', t' <> t -> o' t' = o t') ->
  sw_used w1 t = true -> o' t = None -> tk_state (sw_task w1 t) = TASK_READY -> tk_on_cpu (sw_task w1 t) = false ->
  tk_wake_pending (sw_task w1 t) = false -> 0 <= tk_affinity (sw_task w1 t) ->
  exists c w', sched_enqueue w1 t = Some w' /\ 0 <= c < n /\ sched_inv n w' o' (upd pl t (Queued c)) (upd qs c (qs c ++ [t])).
Proof.
  intros Hi Ht Hp Hw Ho Hu Hot Hst Hoc Hwk Haff. pose proof (si_n _ _ _ _ _ Hi) as [Hn En]. unfold sched_enqueue.
  rewrite bool_decide_false by congruence.
  assert (num_cpus w1 = n) as -> by (unfold num_cpus; destruct Hw as (-> & _); rewrite En; case_if; lia).
  assert (exists c w2, enqueue_target w1 t = (c, w2) /\ 0 <= c < n /\ only_task t w w2 /\ sw_used w2 t = true /\
    tk_affinity (sw_task w2 t) = c /\ tk_state (sw_task w2 t) = TASK_READY /\ tk_on_cpu (sw_task w2 t) = false /\ tk_wake_pending (sw_task w2 t) = false)
    as (c & w2 & -> & Hc & Hw2 & Hu2 & Ha2 & Hs2 & Ho2 & Hk2).
  { assert (num_cpus w1 = n) as En1 by (unfold num_cpus; destruct Hw as (-> & _); rewrite En; case_if; lia).
    unfold enqueue_target. rewrite En1. repeat case_if; eexists _, _; (split; [reflexivity|]); (split; [try (apply Z.mod_pos_bound); lia|]);
      (split; [unfold set_affinity; eauto with sched|]); sw; rewrite ?upd_eq; done. }
  destruct (inv_enqueue n w (put_run w2 (list_node_init (sw_run w2) (run_node t))) o o' pl qs t c) as (w3 & -> & Hi3 & _); try done; [eauto with sched|].
  cbn [mbind option_bind]. exists c. eexists. split; [reflexivity|]. split; [done|]. case_if; [done|]. by apply inv_resched_cpu.
Qed.

Lemma unblock_spec n w o pl qs t :
  sched_inv n w o pl qs -> 0 <= t < TASK_MAX + n ->
  exists w' pl' qs', sched_unblock w t = Some w' /\ sched_inv n w' o pl' qs' /\ (forall c, exists r, qs' c = qs c ++ r) /\
    (forall c, cp_current (sw_cpu w' c) = cp_current (sw_cpu w c)) /\
    forall t', tk_state (sw_task w' t') = if bool_decide (t' = t /\ tk_state (sw_task w t) = TASK_BLOCKED) then TASK_READY else tk_state (sw_task w t').
Proof.
  intros Hi Ht. pose proof (si_n _ _ _ _ _ Hi) as [Hn En]. unfold sched_unblock.
  assert (num_cpus w = n) as -> by (unfold num_cpus; rewrite En; case_if; lia).
  destruct (decide (tk_state (sw_task w t) = TASK_BLOCKED)) as [Hb|Hb]; [rewrite bool_decide_true by done|rewrite bool_decide_false by done]; cbn [negb].
  2: { exists w, pl, qs. split; [done|]. split; [done|]. split; [intros c; exists []; by rewrite app_nil_r|]. split; [done|].
       intros t'. by rewrite bool_decide_false by tauto. }
  assert (0 <= t < TASK_MAX) as Htp.
  { destruct (decide (t < 64)); [lia|]. destruct (si_idle _ _ _ _ _ Hi (t - 64)) as (_ & Hr & _); [lia|].
    unfold idle_of in Hr. replace (64 + (t - 64)) with t in Hr by lia. congruence. }
  pose proof (si_task _ _ _ _ _ Hi t Htp) as Hok.
  assert (forall x t', x = t_state (sw_task w t) TASK_READY \/ x = t_wake (t_state (sw_task w t) TASK_READY) true ->
    tk_state (upd (sw_task w) t x t') = if bool_decide (t' = t /\ tk_state (sw_task w t) = TASK_BLOCKED) then TASK_READY else tk_state (sw_task w t')) as Hst.
  { intros x t' Hx. destruct (decide (t' = t)) as [->|]; [rewrite upd_eq, bool_decide_true by done; by destruct Hx as [-> | ->]|].
    rewrite upd_ne, bool_decide_false by tauto. done. }
  sw. rewrite upd_eq. sw. destruct (pl t) as [|c|c] eqn:Ep.
  - destruct Hok as (Hoc & Hwk & Hown & Hor). destruct Hor as [(_ & Hu & Ha)|[?|?]]; [|congruence..]. rewrite Hoc.
    rewrite (proj2 (Z.ltb_lt (tk_affinity (sw_task w t)) n)) by lia.
    destruct (inv_enqueue n w (put_task w t (t_state (sw_task w t) TASK_READY)) o o pl qs t (tk_affinity (sw_task w t))) as (w2 & E & Hi2 & Ht2 & Hc2);
      [done|done|done|eauto with sched|lia|done| |].
    { sw. rewrite upd_eq. split; [lia|]. split; [done|]. split; [|done]. destruct (o t) eqn:Eo; [|done]. by destruct Hown; congruence. }
    rewrite E. cbn [mbind option_bind].
    eexists _, _, _. split; [reflexivity|]. split; [case_if; [by apply inv_resched_cpu|done]|]. split.
    { intros d. destruct (decide (d = tk_affinity (sw_task w t))) as [->|]; [rewrite upd_eq; by eexists|]. rewrite upd_ne by done. exists []. by rewrite app_nil_r. }
    split; [intros d; case_if; rewrite ?resched_current; apply Hc2|]. intros t'. rewrite <-(Hst (t_state (sw_task w t) TASK_READY)) by auto.
    sw. rewrite <-Ht2. case_if; [|done]. by rewrite resched_task.
  - destruct Hok as (_ & _ & _ & ? & _). congruence.
  - destruct Hok as (Hcn & Hu & Ho & Hoc & Ha & Hor). rewrite Hoc. eexists _, pl, qs. split; [reflexivity|]. split; [|split; [intros d; exists []; by rewrite app_nil_r|]].
    + eapply (inv_task n w _ o o pl qs t); [done|done|eauto with sched|by left|done|]. sw. rewrite !upd_eq, Ep. sw.
      split; [done|]. split; [done|]. done.
    + split; [done|]. intros t'. rewrite <-(Hst (t_wake (t_state (sw_task w t) TASK_READY) true)) by auto. sw. unfold upd. by case_if.
Qed.

Lemma dequeue_spec n w o pl qs t :
  sched_inv n w o pl qs -> (forall c, 0 <= c < n -> t ∉ qs c) -> 0 <= tk_affinity (sw_task w t) -> sched_dequeue w t = Some w.
Proof.
  intros Hi Hni Ha. pose proof (si_n _ _ _ _ _ Hi) as [Hn En]. pose proof (si_rq _ _ _ _ _ Hi) as Hs.
  assert (forall c, 0 <= c < n -> dequeue_from w c t = Some (false, w)) as Hd.
  { intros c Hc. apply (dequeue_absent w qs c t); [by rewrite En|by rewrite En|by apply Hni]. }
  assert (forall cs, Forall (fun c => 0 <= c < n) cs -> dequeue_scan cs w t = Some w) as Hscan.
  { intros cs Hcs. induction Hcs as [|c cs Hc Hcs IH]; [done|]. cbn [dequeue_scan]. by rewrite Hd. }
  unfold sched_dequeue. assert (num_cpus w = n) as -> by (unfold num_cpus; rewrite En; case_if; lia).
  case_if; [by rewrite Hd by lia|]. assert (dequeue_scan (seqZ 0 n) w t = Some w) as Hall.
  { apply Hscan. apply Forall_forall. intros c ?%elem_of_seqZ. lia. }
  case_if; [rewrite Hd by lia|]; done.
Qed.

(** Two worlds that differ in the queues and the flags of the CPUs only. *)
Definition same_core (w w' : sched_world) : Prop :=
  sw_ncpus w' = sw_ncpus w /\ sw_task w' = sw_task w /\ sw_used w' = sw_used w /\
  forall d, cp_current (sw_cpu w' d) = cp_current (sw_cpu w d) /\ cp_idle (sw_cpu w' d) = cp_idle (sw_cpu w d).

Lemma same_core_rq w c h l : same_core w (put_cpu (put_run w h) c (c_rq (sw_cpu w c) l)).
Proof. split; [done|]. split; [done|]. split; [done|]. intros d. sw. destruct (decide (d = c)) as [->|]; [by rewrite upd_eq|by rewrite upd_ne]. Qed.

Lemma shape_put_rq n w c h l qs :
  qshape n h (upd (rqs w) c l) qs -> qshape n h (rqs (put_cpu (put_run w h) c (c_rq (sw_cpu w c) l))) qs.
Proof. intros H. eapply shape_ext; [exact H|]. intros d _. split; [|done]. sw. destruct (decide (d = c)) as [->|]; [by rewrite !upd_eq|by rewrite !upd_ne]. Qed.

Lemma insert_core n w qs c t :
  qshape n (sw_run w) (rqs w) qs -> 0 <= c < n -> 0 <= t < TASK_MAX -> (forall c', 0 <= c' < n -> t ∉ qs c') ->
  exists w', rq_insert w c t = Some w' /\ same_core w w' /\ qshape n (sw_run w') (rqs w') (upd qs c (qs c ++ [t])).
Proof.
  intros Hs Hc Ht Hni. destruct (insert_shape n _ _ qs c t Hs Hc Ht Hni) as (h & l & E & Hs').
  unfold rq_insert. unfold rqs in E. rewrite E. cbn [mbind option_bind]. eexists. split; [reflexivity|].
  split; [apply same_core_rq|]. by apply shape_put_rq.
Qed.

Lemma pick_core n w qs c :
  qshape n (sw_run w) (rqs w) qs -> 0 <= c < n -> cp_idle (sw_cpu w c) = idle_of c ->
  exists w', pick_next w c = Some (hd (idle_of c) (qs c), w') /\ same_core w w' /\ qshape n (sw_run w') (rqs w') (upd qs c (tail (qs c))).
Proof.
  intros Hs Hc Hidle. unfold pick_next. destruct (qs c) as [|t q] eqn:Eq.
  - pose proof (proj1 Hs c Hc) as [Hl _]. rewrite Eq in Hl. unfold rqs in Hl. rewrite (delete_first_nil _ _ Hl). cbn [mbind option_bind].
    sw. rewrite upd_eq. sw. rewrite Hidle. eexists. split; [reflexivity|]. split; [apply same_core_rq|].
    apply (shape_put_rq n w c (sw_run w)). eapply shape_ext; [exact Hs|]. intros d Hd.
    destruct (decide (d = c)) as [->|]; [by rewrite !upd_eq|by rewrite !upd_ne].
  - destruct (take_shape n _ _ qs c t q Hs Hc Eq) as (h & l & E & Hs'). unfold rqs in E. rewrite E. cbn [mbind option_bind].
    pose proof (proj1 Hs c Hc) as [_ Hr]. rewrite Eq in Hr. apply Forall_cons in Hr as [Ht _].
    rewrite (proj2 (Z.eqb_neq (run_node t) 0)) by (unfold run_node; lia).
    replace (task_of (run_node t)) with t by (unfold task_of, run_node; lia).
    rewrite (proj2 (Z.ltb_ge t 0)), (proj2 (Z.leb_gt 64 t)) by lia. cbn [orb hd tail].
    eexists. split; [reflexivity|]. split; [apply same_core_rq|]. by apply shape_put_rq.
Qed.

(** The invariant after a switch from [prev] to [next]; [p] is the new place of [prev]. *)
Lemma inv_switch n w w' o pl qs qs' c prev next p :
  sched_inv n w o pl qs -> 0 <= c < n -> prev = cp_current (sw_cpu w c) -> next <> prev ->
  (next = idle_of c \/ 0 <= next < TASK_MAX /\ pl next = Queued c) ->
  sw_ncpus w' = sw_ncpus w -> qshape n (sw_run w') (rqs w') qs' -> (forall t, sw_used w' t = sw_used w t) ->
  (forall d, cp_current (sw_cpu w' d) = (if d =? c then next else cp_current (sw_cpu w d)) /\ cp_idle (sw_cpu w' d) = cp_idle (sw_cpu w d)) ->
  (forall t, t <> prev -> t <> next -> sw_task w' t = sw_task w t) ->
  sw_task w' next = t_on_cpu (t_state (sw_task w next) TASK_RUNNING) true ->
  (prev = idle_of c /\ tk_state (sw_task w' prev) = TASK_RUNNING /\ tk_wake_pending (sw_task w' prev) = false \/
   0 <= prev < TASK_MAX /\ (p = Nowhere \/ p = Queued c) /\ task_ok n (sw_used w prev) (o prev) p (sw_task w' prev)) ->
  (forall d t, 0 <= d < n -> 0 <= t < TASK_MAX -> t ∈ qs' d <-> t = prev /\ p = Queued d \/ t <> prev /\ t <> next /\ t ∈ qs d) ->
  sched_inv n w' o (upd (upd pl prev p) next (Current c)) qs'.
Proof.
  intros Hi Hc Eprev Hne Hnext En Hs Hu Hcp Htk Htn Hprev Hmem. pose proof Hi as [Hn _ Hq Hcur Hat Ht Hidle].
  split; [by rewrite En|done|..].
  - intros d t Hd Htp. rewrite Hmem by done. destruct (decide (t = next)) as [->|Htn'].
    { rewrite upd_eq. split; [|done]. intros [[? _]|(_ & ? & _)]; done. }
    rewrite upd_ne by done. destruct (decide (t = prev)) as [->|]; [rewrite upd_eq; tauto|]. rewrite upd_ne, <-Hq by done. tauto.
  - intros d Hd. destruct (Hcp d) as [-> _]. case_if; [subst d|].
    + destruct Hnext as [->|[Hnp _]]; [by left|right]. by rewrite upd_eq.
    + destruct (Hcur d Hd) as [?|[Hp Epl]]; [by left|right]. split; [done|].
      assert (cp_current (sw_cpu w d) <> next) by (intros E'; destruct Hnext as [->|[_ Hnq]]; [by apply (idle_not_pool c); [lia|rewrite <-E']|congruence]).
      assert (cp_current (sw_cpu w d) <> prev).
      { intros E'. destruct Hprev as [[-> _]|[Hpp _]]; [by apply (idle_not_pool c); [lia|rewrite <-E']|].
        rewrite E' in Epl, Hp. destruct (Hcur c Hc) as [Ei|[_ Ep2]]; [by apply (idle_not_pool c); [lia|rewrite <-Ei, <-Eprev]|]. congruence. }
      by rewrite !upd_ne.
  - intros t d Htp E. destruct (Hcp d) as [-> _]. destruct (decide (t = next)) as [->|].
    + rewrite upd_eq in E. injection E as <-. by rewrite Z.eqb_refl.
    + rewrite upd_ne in E by done. destruct (decide (t = prev)) as [->|].
      { rewrite upd_eq in E. destruct Hprev as [[-> _]|(_ & [->| ->] & _)]; [by destruct (idle_not_pool c); [lia|]|done..]. }
      rewrite upd_ne in E by done. pose proof (Hat t d Htp E). case_if; [congruence|done].
  - intros t Htp. rewrite Hu. destruct (decide (t = next)) as [->|].
    + rewrite upd_eq, Htn. destruct Hnext as [->|[_ Hnq]]; [by destruct (idle_not_pool c); [lia|]|].
      specialize (Ht next Htp). rewrite Hnq in Ht. destruct Ht as (? & ? & ? & ? & ? & Hwk & ?). cbn. rewrite Hwk. tauto.
    + rewrite upd_ne by done. destruct (decide (t = prev)) as [->|]; [|rewrite upd_ne, Htk by done; by apply Ht].
      rewrite upd_eq. destruct Hprev as [[-> _]|(_ & _ & ?)]; [by destruct (idle_not_pool c); [lia|]|done].
  - intros d Hd. destruct (Hcp d) as [_ ->]. destruct (Hidle d Hd) as (Hid & Hr & Hwk). split; [done|].
    destruct (decide (idle_of d = next)) as [<-|Hdn]; [rewrite Htn; by sw|].
    destruct (decide (idle_of d = prev)) as [<-|]; [|by rewrite Htk].
    destruct Hprev as [(_ & ? & ?)|[Hp _]]; [done|]. by destruct (idle_not_pool d); [lia|].
Qed.

Lemma inv_core n w w' o pl qs qs' :
  sched_inv n w o pl qs -> sw_ncpus w' = sw_ncpus w -> (forall t, sw_used w' t = sw_used w t) -> (forall t, sw_task w' t = sw_task w t) ->
  (forall d, cp_current (sw_cpu w' d) = cp_current (sw_cpu w d) /\ cp_idle (sw_cpu w' d) = cp_idle (sw_cpu w d)) ->
  qshape n (sw_run w') (rqs w') qs' -> (forall d, qs' d = qs d) -> sched_inv n w' o pl qs'.
Proof.
  intros [Hn _ Hq Hcur Hat Ht Hidle] En Hu Htk Hcp Hs Eq. split; [by rewrite En|done|..].
  - intros d t. rewrite Eq. apply Hq.
  - intros d. destruct (Hcp d) as [-> _]. apply Hcur.
  - intros t d. destruct (Hcp d) as [-> _]. apply Hat.
  - intros t. rewrite Hu, Htk. apply Ht.
  - intros d. destruct (Hcp d) as [_ ->]. rewrite Htk. apply Hidle.
Qed.

Definition switched_out (x : task_t) : task_t :=
  if tk_wake_pending x then mk_task TASK_READY false false (tk_affinity x) (tk_id x) (tk_parent_id x) else t_on_cpu x false.

Lemma switch_out_spec n w c prev next qs :
  qshape n (sw_run w) (rqs w) qs -> 0 <= c < n -> next <> prev ->
  (tk_wake_pending (sw_task w prev) = true -> 0 <= prev < TASK_MAX /\ forall d, 0 <= d < n -> prev ∉ qs d) ->
  exists w', switch_out w c prev next = Some w' /\ sw_ncpus w' = sw_ncpus w /\ sw_used w' = sw_used w /\
    (forall d, cp_current (sw_cpu w' d) = cp_current (sw_cpu w d) /\ cp_idle (sw_cpu w' d) = cp_idle (sw_cpu w d)) /\
    sw_task w' prev = switched_out (sw_task w prev) /\ sw_task w' next = t_on_cpu (t_state (sw_task w next) TASK_RUNNING) true /\
    (forall t, t <> prev -> t <> next -> sw_task w' t = sw_task w t) /\
    qshape n (sw_run w') (rqs w') (if tk_wake_pending (sw_task w prev) then upd qs c (qs c ++ [prev]) else qs).
Proof.
  intros Hs Hc Hne Hwk. unfold switch_out, switched_out. destruct (tk_wake_pending (sw_task w prev)) eqn:Ew.
  - destruct (Hwk eq_refl) as [Hp Hni].
    assert (tk_wake_pending (sw_task (set_on_cpu w prev false) prev) = true) as -> by (sw; by rewrite upd_eq).
    set (w1 := set_state (set_wake (set_on_cpu w prev false) prev false) prev TASK_READY).
    assert (sw_task w1 prev = mk_task TASK_READY false false (tk_affinity (sw_task w prev)) (tk_id (sw_task w prev)) (tk_parent_id (sw_task w prev))) as H1
      by (unfold w1; sw; by rewrite !upd_eq).
    assert (forall t, t <> prev -> sw_task w1 t = sw_task w t) as H2 by (intros t Ht; unfold w1; sw; by rewrite !upd_ne).
    destruct (insert_core n w1 qs c prev) as (w2 & E & (En & Et & Eu & Ecp) & Hs2); [exact Hs|done|done|done|].
    rewrite E. cbn [mbind option_bind]. assert (sw_ncpus w1 = sw_ncpus w /\ sw_used w1 = sw_used w /\ sw_cpu w1 = sw_cpu w) as (H3 & H4 & H5) by done.
    clearbody w1. rewrite H5 in Ecp. eexists. split; [reflexivity|]. sw. rewrite Et, Eu.
    split; [congruence|]. split; [done|]. split.
    { intros d. specialize (Ecp d). destruct (decide (d = c)) as [->|]; [rewrite upd_eq|rewrite upd_ne by done]; done. }
    rewrite !upd_eq. split; [rewrite !upd_ne by done; done|]. split; [by rewrite H2|]. split; [intros t ? ?; rewrite !upd_ne by done; by apply H2|].
    eapply shape_ext; [exact Hs2|]. intros d Hd. split; [|done]. destruct (decide (d = c)) as [->|]; [by rewrite upd_eq|by rewrite upd_ne].
  - sw. rewrite upd_eq. sw. rewrite Ew. cbn [mbind option_bind]. eexists. split; [reflexivity|]. sw.
    split; [done|]. split; [done|]. split; [done|]. split; [rewrite !(upd_ne _ next) by done; by rewrite !upd_eq|].
    split; [rewrite !upd_eq; by rewrite !upd_ne by done|]. split; [intros t ? ?; by rewrite !upd_ne|]. exact Hs.
Qed.

(** Does the scheduler put the running task back in the queue? *)
Definition requeues w c : bool :=
  bool_decide (tk_state (sw_task w (cp_current (sw_cpu w c))) = TASK_RUNNING) && negb (cp_current (sw_cpu w c) =? idle_of c).

(** The queue the scheduler takes the next task from. *)
Definition full_queue w (qs : Z -> list Z) c : list Z :=
  qs c ++ (if requeues w c then [cp_current (sw_cpu w c)] else []).

Lemma current_unqueued n w o pl qs c d :
  sched_inv n w o pl qs -> 0 <= c < n -> 0 <= d < n -> cp_current (sw_cpu w c) ∉ qs d.
Proof.
  intros Hi Hc Hd Hin. pose proof (proj1 (si_rq _ _ _ _ _ Hi) d Hd) as [_ Hr]. rewrite Forall_forall in Hr. specialize (Hr _ Hin).
  apply (si_q _ _ _ _ _ Hi) in Hin; [|done|done]. destruct (si_cur _ _ _ _ _ Hi c Hc) as [E|[_ E]]; [|congruence].
  rewrite E in Hr. by apply idle_not_pool in Hr; [|lia].
Qed.

(** The world after that. *)
Definition requeued w c w1 : Prop :=
  sw_ncpus w1 = sw_ncpus w /\ sw_used w1 = sw_used w /\
  (forall d, cp_current (sw_cpu w1 d) = cp_current (sw_cpu w d) /\ cp_idle (sw_cpu w1 d) = cp_idle (sw_cpu w d)) /\
  (forall t, t <> cp_current (sw_cpu w c) -> sw_task w1 t = sw_task w t) /\
  sw_task w1 (cp_current (sw_cpu w c)) = (if requeues w c then t_state (sw_task w (cp_current (sw_cpu w c))) TASK_READY else sw_task w (cp_current (sw_cpu w c))).

Lemma requeue_spec n w o pl qs c :
  sched_inv n w o pl qs -> 0 <= c < n ->
  exists w1, (if bool_decide (tk_state (sw_task w (cp_current (sw_cpu w c))) = TASK_RUNNING) && negb (cp_current (sw_cpu w c) =? cp_idle (sw_cpu w c))
              then rq_insert (set_state w (cp_current (sw_cpu w c)) TASK_READY) c (cp_current (sw_cpu w c)) else Some w) = Some w1 /\
    requeued w c w1 /\ qshape n (sw_run w1) (rqs w1) (upd qs c (full_queue w qs c)).
Proof.
  intros Hi Hc. destruct (si_idle _ _ _ _ _ Hi c Hc) as (Eid & _). pose proof (si_rq _ _ _ _ _ Hi) as Hs.
  unfold full_queue, requeued, requeues. rewrite Eid. set (prev := cp_current (sw_cpu w c)).
  destruct (bool_decide (tk_state (sw_task w prev) = TASK_RUNNING) && negb (prev =? idle_of c)) eqn:Er.
  - zbool. destruct (insert_core n (set_state w prev TASK_READY) qs c prev) as (w1 & E1 & (En & Et & Eu & Ecp) & Hs1); [exact Hs|done| | |].
    + destruct (si_cur _ _ _ _ _ Hi c Hc) as [?|[? _]]; done.
    + intros d Hd. by eapply current_unqueued.
    + exists w1. rewrite Et, Eu. split; [done|]. split; [|exact Hs1]. split; [done|]. split; [done|]. split; [apply Ecp|]. sw. split; [intros t Ht; by rewrite upd_ne|].
      by rewrite upd_eq.
  - exists w. rewrite app_nil_r. do 2 (split; [done|]). eapply shape_ext; [exact Hs|]. intros d _. split; [done|].
    destruct (decide (d = c)) as [->|]; [by rewrite upd_eq|by rewrite upd_ne].
Qed.

(** With an empty queue the running task goes on. *)
Lemma schedule_stays n w o pl qs c w1 w2 qs2 :
  sched_inv n w o pl qs -> 0 <= c < n -> qs c = [] -> tk_state (sw_task w (cp_current (sw_cpu w c))) = TASK_RUNNING ->
  requeued w c w1 ->
  same_core w1 w2 -> qshape n (sw_run w2) (rqs w2) qs2 -> (forall d, qs2 d = qs d) ->
  sched_inv n (set_state w2 (cp_current (sw_cpu w c)) TASK_RUNNING) o pl qs2.
Proof.
  intros Hi Hc Eq Hr (En & Eu & Ecp & Hot & Hpt) (En2 & Et2 & Eu2 & Ecp2) Hs Hqs. eapply (inv_core n w _ o pl qs); [done|..]; sw.
  - congruence.
  - intros t. congruence.
  - intros t. rewrite Et2. destruct (decide (t = cp_current (sw_cpu w c))) as [->|]; [|rewrite upd_ne by done; by apply Hot].
    rewrite upd_eq, Hpt. destruct (sw_task w (cp_current (sw_cpu w c))); cbn in *. subst. by destruct (requeues w c).
  - intros d. destruct (Ecp2 d) as [-> ->]. apply Ecp.
  - exact Hs.
  - done.
Qed.

(** The place of the task that is switched out. *)
Definition place_out (x : task_t) c : place :=
  match tk_state x with TASK_RUNNING | TASK_READY => Queued c | _ => Nowhere end.

Lemma out_ok n w o pl qs c :
  sched_inv n w o pl qs -> 0 <= c < n -> cp_current (sw_cpu w c) <> idle_of c ->
  let x := sw_task w (cp_current (sw_cpu w c)) in
  0 <= cp_current (sw_cpu w c) < TASK_MAX /\ (place_out x c = Nowhere \/ place_out x c = Queued c) /\
  task_ok n (sw_used w (cp_current (sw_cpu w c))) (o (cp_current (sw_cpu w c))) (place_out x c) (switched_out (if requeues w c then t_state x TASK_READY else x)) /\
  (place_out x c = Queued c <-> requeues w c = true \/ tk_wake_pending x = true) /\ (requeues w c = true -> tk_wake_pending x = false).
Proof.
  intros Hi Hc Hnid x. destruct (si_cur _ _ _ _ _ Hi c Hc) as [?|[Hp Epl]]; [done|]. split; [done|].
  pose proof (si_task _ _ _ _ _ Hi _ Hp) as Hok. rewrite Epl in Hok. destruct Hok as (_ & Hu & Ho & Hoc & Ha & Hor). fold x in Hoc, Ha, Hor.
  unfold requeues. fold x. rewrite (proj2 (Z.eqb_neq _ _) Hnid). unfold place_out, switched_out.
  destruct (tk_wake_pending x) eqn:Ew; [|destruct Hor as [Hor|[Hor|Hor]]]; rewrite Hor;
    first [rewrite bool_decide_true by done|rewrite bool_decide_false by done]; cbn; rewrite ?Ew; cbn; rewrite ?Hor, ?Ew; intuition (first [lia|congruence|auto]).
Qed.

Lemma tail_mem (d t : Z) q : NoDup q -> t ∈ tail q <-> t ∈ q /\ t <> hd d q.
Proof. destruct q as [|x q]; cbn; [set_solver|]. intros [Hx _]%NoDup_cons. split; [set_solver|]. intros [?%elem_of_cons ?]. intuition. Qed.

Lemma full_queue_mem n w o pl qs c :
  sched_inv n w o pl qs -> 0 <= c < n ->
  NoDup (full_queue w qs c) /\ forall t, t ∈ full_queue w qs c <-> t ∈ qs c \/ requeues w c = true /\ t = cp_current (sw_cpu w c).
Proof.
  intros Hi Hc. pose proof (current_unqueued _ _ _ _ _ c c Hi Hc Hc) as Hni.
  destruct (proj1 (si_rq _ _ _ _ _ Hi) c Hc) as [(Hnd & _) _]. apply NoDup_fmap_1 in Hnd. unfold full_queue. destruct (requeues w c).
  - split; [apply NoDup_app; split; [done|]; split; [by intros t Ht ->%list_elem_of_singleton|apply NoDup_singleton]|]. set_solver.
  - rewrite app_nil_r. split; [done|]. intros t. intuition congruence.
Qed.

(** The queues after a switch. *)
Definition queues_after w qs c : Z -> list Z :=
  let q := upd (upd qs c (full_queue w qs c)) c (tail (full_queue w qs c)) in
  if tk_wake_pending (sw_task w (cp_current (sw_cpu w c))) then upd q c (q c ++ [cp_current (sw_cpu w c)]) else q.

Lemma switch_mem n w o pl qs c d t :
  sched_inv n w o pl qs -> 0 <= c < n -> 0 <= d < n -> 0 <= t < TASK_MAX ->
  let prev := cp_current (sw_cpu w c) in let next := hd (idle_of c) (full_queue w qs c) in next <> prev ->
  t ∈ queues_after w qs c d <-> t = prev /\ place_out (sw_task w prev) c = Queued d \/ t <> prev /\ t <> next /\ t ∈ qs d.
Proof.
  intros Hi Hc Hd Htp prev next Hne. unfold queues_after. fold prev. set (fq := full_queue w qs c) in *.
  destruct (full_queue_mem n w o pl qs c Hi Hc) as [Hnd Hfq]. fold fq prev in Hnd, Hfq.
  assert (forall d, 0 <= d < n -> prev ∉ qs d) as Hni by (intros d' Hd'; by eapply current_unqueued).
  assert (next ∈ fq \/ next = idle_of c) as Hnx by (unfold next; destruct fq; [by right|left; left]).
  assert (t = prev -> prev <> idle_of c) as Htid by (intros -> E; by apply (idle_not_pool c); [lia|rewrite <-E]).
  assert (t ∈ (if tk_wake_pending (sw_task w prev) then upd (upd (upd qs c fq) c (tail fq)) c (upd (upd qs c fq) c (tail fq) c ++ [prev]) else upd (upd qs c fq) c (tail fq)) d
    <-> (if d =? c then t ∈ fq /\ t <> next \/ tk_wake_pending (sw_task w prev) = true /\ t = prev else t ∈ qs d)) as ->.
  { destruct (Z.eqb_spec d c) as [->|]; destruct (tk_wake_pending (sw_task w prev)); rewrite ?upd_eq, ?upd_ne by done; [|rewrite (tail_mem (idle_of c)) by done; intuition congruence|done..].
    rewrite elem_of_app, (tail_mem (idle_of c)), list_elem_of_singleton by done. intuition. }
  destruct (Z.eqb_spec d c) as [->|Hdc].
  * rewrite Hfq. destruct (decide (t = prev)) as [->|]; [|intuition congruence].
    destruct (out_ok _ _ _ _ _ c Hi Hc (Htid eq_refl)) as (_ & _ & _ & Hpq & _). fold prev in Hpq. rewrite Hpq. pose proof (Hni c Hc). intuition congruence.
  * split.
    { intros Hin. right. split; [intros ->; by apply (Hni d)|]. split; [|done]. intros ->.
      destruct Hnx as [[Hx|[_ ?]]%Hfq|E]; [apply Hdc; by apply (proj2 (si_rq _ _ _ _ _ Hi) d c next)|done|by apply (idle_not_pool c); [lia|rewrite <-E]]. }
    intros [[-> Hp]|(_ & _ & ?)]; [|done]. destruct (out_ok _ _ _ _ _ c Hi Hc (Htid eq_refl)) as (_ & [Hpo|Hpo] & _); fold prev in Hpo; congruence.
Qed.

Lemma schedule_switches n w o pl qs c w1 w2 :
  sched_inv n w o pl qs -> 0 <= c < n -> requeued w c w1 -> same_core w1 w2 ->
  let prev := cp_current (sw_cpu w c) in let fq := full_queue w qs c in let next := hd (idle_of c) fq in
  next <> prev -> qshape n (sw_run w2) (rqs w2) (upd (upd qs c fq) c (tail fq)) ->
  exists w3 pl' qs', switch_out w2 c prev next = Some w3 /\ sched_inv n (set_current w3 c next) o pl' qs' /\
    (exists r, qs' c = tail fq ++ r) /\ forall d, d <> c -> qs' d = qs d /\ cp_current (sw_cpu w3 d) = cp_current (sw_cpu w d).
Proof.
  intros Hi Hc (En & Eu & Ecp & Hot & Hpt) (En2 & Et2 & Eu2 & Ecp2) prev fq next Hne Hs. fold prev in Hot, Hpt.
  destruct (full_queue_mem n w o pl qs c Hi Hc) as [Hnd Hfq]. fold fq prev in Hnd, Hfq.
  assert (forall d, 0 <= d < n -> prev ∉ qs d) as Hni by (intros d Hd; by eapply current_unqueued).
  assert (tk_wake_pending (sw_task w2 prev) = tk_wake_pending (sw_task w prev)) as Ewk by (rewrite Et2, Hpt; by destruct (requeues w c)).
  assert (prev = idle_of c -> requeues w c = false /\ tk_state (sw_task w prev) = TASK_RUNNING /\ tk_wake_pending (sw_task w prev) = false) as Hid.
  { intros E. destruct (si_idle _ _ _ _ _ Hi c Hc) as (_ & Hir & Hiw). unfold requeues. fold prev. rewrite E. by rewrite Z.eqb_refl, andb_false_r. }
  assert (next ∈ fq \/ next = idle_of c) as Hnx by (unfold next; destruct fq; [by right|left; left]).
  destruct (switch_out_spec n w2 c prev next (upd (upd qs c fq) c (tail fq)) Hs Hc Hne) as (w3 & E3 & En3 & Eu3 & Ecp3 & Hp3 & Hn3 & Ht3 & Hs3).
  { rewrite Ewk. intros Hwk. destruct (decide (prev = idle_of c)) as [E|E]; [destruct (Hid E) as (_ & _ & ?); congruence|].
    destruct (out_ok _ _ _ _ _ c Hi Hc E) as (Hp & _ & _ & _ & Hrw). fold prev in Hp, Hrw. split; [done|]. intros d Hd.
    destruct (decide (d = c)) as [->|]; [rewrite upd_eq|rewrite !upd_ne by done; by apply Hni].
    rewrite (tail_mem (idle_of c)) by done. rewrite Hfq. intros [[?|[? _]] _]; [by apply (Hni c)|]. specialize (Hrw ltac:(done)). congruence. }
  rewrite Ewk in Hs3. eexists w3, _, (queues_after w qs c). split; [done|]. split; [|split].
  - eapply (inv_switch n w _ o pl qs _ c prev next (place_out (sw_task w prev) c)); [done|done|done|done| |sw; congruence| | | | | | |].
    + destruct Hnx as [[Hx|[_ ?]]%Hfq|?]; [right|done|by left]. pose proof (proj1 (si_rq _ _ _ _ _ Hi) c Hc) as [_ Hr].
      rewrite Forall_forall in Hr. specialize (Hr _ Hx). split; [done|]. by apply (si_q _ _ _ _ _ Hi).
    + eapply shape_ext; [exact Hs3|]. intros d _. split; [|done]. sw. unfold upd. by case_if; [subst|].
    + intros t. sw. congruence.
    + intros d. sw. destruct (Ecp d), (Ecp2 d), (Ecp3 d). unfold upd. case_if; [subst d|]; sw; split; congruence.
    + intros t Htp Htn. sw. rewrite Ht3, Et2 by done. by apply Hot.
    + sw. rewrite Hn3, Et2, Hot by done. done.
    + sw. rewrite Hp3, Et2, Hpt. destruct (decide (prev = idle_of c)) as [E|E].
      * left. destruct (Hid E) as (-> & Hr & Hwk). unfold switched_out. rewrite Hwk. cbn. by rewrite Hwk.
      * right. destruct (out_ok _ _ _ _ _ c Hi Hc E) as (Hp & Hpo & Hok & _). done.
    + intros d t Hd Htp. by eapply switch_mem.
  - unfold queues_after. fold prev fq. destruct (tk_wake_pending (sw_task w prev)); rewrite !upd_eq; eexists; [done|by rewrite app_nil_r].
  - intros d Hd. split; [unfold queues_after; fold prev fq; destruct (tk_wake_pending (sw_task w prev)); by rewrite !upd_ne|]. destruct (Ecp d), (Ecp2 d), (Ecp3 d). congruence.
Qed.

(** [sched_schedule] runs the head of the queue, or the idle task, and keeps the order of
    the others. *)
Lemma schedule_spec n w o pl qs c :
  sched_inv n w o pl qs -> 0 <= c < n ->
  exists w' pl' qs', sched_schedule w c = Some w' /\ sched_inv n w' o pl' qs' /\
    cp_current (sw_cpu w' c) = hd (idle_of c) (full_queue w qs c) /\ (exists r, qs' c = tail (full_queue w qs c) ++ r) /\
    forall d, d <> c -> qs' d = qs d /\ cp_current (sw_cpu w' d) = cp_current (sw_cpu w d).
Proof.
  intros Hi Hc. destruct (requeue_spec n w o pl qs c Hi Hc) as (w1 & E1 & Hr1 & Hs1). unfold sched_schedule. rewrite E1. cbn [mbind option_bind].
  destruct (si_idle _ _ _ _ _ Hi c Hc) as (Eid & Hir & _).
  destruct (pick_core n w1 _ c Hs1 Hc) as (w2 & E2 & Hc2 & Hs2); [destruct Hr1 as (_ & _ & Hr & _); by rewrite (proj2 (Hr c))|].
  rewrite E2, upd_eq in *. cbn [mbind option_bind]. case_if.
  - assert (qs c = [] /\ tk_state (sw_task w (cp_current (sw_cpu w c))) = TASK_RUNNING /\ tail (full_queue w qs c) = []) as (Eq & Hst & Etl).
    { clear E1 E2 Hs1 Hs2. destruct (qs c) as [|t q] eqn:Eq; unfold full_queue in *; rewrite Eq in *; cbn [app hd tail] in *.
      - split; [done|]. destruct (requeues w c) eqn:Er; cbn in *; [|split; [by rewrite <-E|done]].
        by apply andb_prop in Er as [Er%bool_decide_eq_true _].
      - destruct (current_unqueued _ _ _ _ _ c c Hi Hc Hc). rewrite Eq, E. left. }
    assert (forall d, upd (upd qs c (full_queue w qs c)) c (tail (full_queue w qs c)) d = qs d) as Hqs.
    { intros d. destruct (decide (d = c)) as [->|]; [rewrite upd_eq; congruence|by rewrite !upd_ne]. }
    eexists _, pl, _. split; [reflexivity|]. split; [by eapply schedule_stays|]. destruct Hr1 as (_ & _ & Hr & _), Hc2 as (_ & _ & _ & Hc2).
    split; [sw; rewrite (proj1 (Hc2 c)), (proj1 (Hr c)); congruence|]. split; [rewrite upd_eq; exists []; by rewrite app_nil_r|].
    intros d Hd. split; [apply Hqs|]. sw. by rewrite (proj1 (Hc2 d)), (proj1 (Hr d)).
  - destruct (schedule_switches n w o pl qs c w1 w2 Hi Hc Hr1 Hc2 E Hs2) as (w3 & pl' & qs' & -> & Hi' & Hq & Hd). cbn [mbind option_bind].
    exists (set_current w3 c (hd (idle_of c) (full_queue w qs c))), pl', qs'. split; [done|]. split; [done|]. sw. rewrite upd_eq. split; [done|]. split; [done|].
    intros d Hne. rewrite upd_ne by done. by apply Hd.
Qed.

(** ** Every step *)

(** A queued task is run or does not fall back. *)
Definition keeps n (qs qs' : Z -> list Z) (w' : sched_world) : Prop :=
  forall d t i, 0 <= d < n -> qs d !! i = Some t ->
    cp_current (sw_cpu w' d) = t \/ exists j, (j <= i)%nat /\ qs' d !! j = Some t.

Lemma keeps_app n qs qs' w' : (forall d, exists r, qs' d = qs d ++ r) -> keeps n qs qs' w'.
Proof. intros H d t i _ Hl. right. exists i. split; [done|]. destruct (H d) as [r ->]. by apply lookup_app_l_Some. Qed.

Lemma keeps_refl n qs w' : keeps n qs qs w'.
Proof. apply keeps_app. intros d. exists []. by rewrite app_nil_r. Qed.

(** A schedule of its CPU brings a queued task forward. *)
Lemma schedule_moves w qs (qs' : Z -> list Z) c t i (w' : sched_world) :
  qs c !! i = Some t -> cp_current (sw_cpu w' c) = hd (idle_of c) (full_queue w qs c) -> (exists r, qs' c = tail (full_queue w qs c) ++ r) ->
  cp_current (sw_cpu w' c) = t \/ exists j, (j < i)%nat /\ qs' c !! j = Some t.
Proof.
  intros Hl Hcur [r Hr]. unfold full_queue in *. destruct (qs c) as [|x q]; [done|]. destruct i as [|i]; cbn in Hl, Hcur.
  - left. congruence.
  - right. exists i. split; [lia|]. rewrite Hr. cbn [app tail]. rewrite <-app_assoc. by apply lookup_app_l_Some.
Qed.

Lemma own_nowhere n w o pl qs t b :
  sched_inv n w o pl qs -> 0 <= t < TASK_MAX -> o t = Some b ->
  pl t = Nowhere /\ tk_on_cpu (sw_task w t) = false /\ tk_wake_pending (sw_task w t) = false /\ sw_used w t = true /\ tk_state (sw_task w t) = TASK_ALLOCATING.
Proof.
  intros Hi Ht Ho. pose proof (si_task _ _ _ _ _ Hi t Ht) as Hok. rewrite Ho in Hok.
  destruct (pl t); [|by destruct Hok as (_ & _ & ? & _)..]. destruct Hok as (? & ? & Hown & _). by destruct Hown.
Qed.

Lemma running_current n w o pl qs c :
  sched_inv n w o pl qs -> 0 <= c < n -> cp_current (sw_cpu w c) <> idle_of c ->
  let t := cp_current (sw_cpu w c) in
  0 <= t < TASK_MAX /\ pl t = Current c /\ sw_used w t = true /\ o t = None /\ tk_on_cpu (sw_task w t) = true /\ tk_affinity (sw_task w t) = c /\
  (tk_state (sw_task w t) = TASK_RUNNING -> tk_wake_pending (sw_task w t) = false).
Proof.
  intros Hi Hc Hne t. destruct (si_cur _ _ _ _ _ Hi c Hc) as [?|[Ht Ep]]; [done|]. pose proof (si_task _ _ _ _ _ Hi _ Ht) as Hok.
  rewrite Ep in Hok. destruct Hok as (_ & ? & ? & ? & ? & Hor). subst t. split_and!; try done; try lia. intros Hr. destruct (tk_wake_pending _); [congruence|done].
Qed.

Lemma inv_current_state n w o pl qs c st :
  sched_inv n w o pl qs -> 0 <= c < n -> cp_current (sw_cpu w c) <> idle_of c -> tk_state (sw_task w (cp_current (sw_cpu w c))) = TASK_RUNNING ->
  st = TASK_BLOCKED \/ st = TASK_DEAD -> sched_inv n (set_state w (cp_current (sw_cpu w c)) st) o pl qs.
Proof.
  intros Hi Hc Hne Hr Hst. destruct (running_current _ _ _ _ _ c Hi Hc Hne) as (Ht & Ep & Hu & Ho & Hoc & Ha & Hw). specialize (Hw Hr).
  eapply (inv_task n w _ o o pl qs (cp_current (sw_cpu w c))); [done|done|unfold set_state; eauto with sched|by left|done|].
  sw. rewrite upd_eq, Ep. cbn. rewrite Hw. tauto.
Qed.

Lemma slot_claim_inv n w o pl qs c t w' strict :
  sched_inv n w o pl qs -> strict = true \/ n = 1 -> 0 <= c < n -> cp_current (sw_cpu w c) <> t -> 0 <= t < TASK_MAX -> sw_used w t = true ->
  (strict = true -> tk_on_cpu (sw_task w t) = false) -> reap_claim w t = (true, w') -> sched_inv n w' (upd o t (Some false)) pl qs.
Proof.
  intros Hi Hmode Hc Hcur Ht Hu Hstrict. unfold reap_claim. case_bool_decide as Hst; [|done]. intros [= <-].
  pose proof (si_task _ _ _ _ _ Hi t Ht) as Hok. destruct (pl t) as [|d|d] eqn:Ep.
  - destruct Hok as (Hoc & Hw & Hown & _). eapply (inv_task n w _ o _ pl qs t); [done|done|unfold set_state; eauto with sched|by right|intros; by apply upd_ne|].
    sw. rewrite !upd_eq, Ep. cbn. rewrite Hu. tauto.
  - destruct Hok as (_ & _ & _ & ? & _). congruence.
  - pose proof (si_at _ _ _ _ _ Hi t d Ht Ep). destruct Hok as (Hd & _ & _ & Hoc & _). destruct Hmode as [Hm|Hm]; [specialize (Hstrict Hm); congruence|].
    replace d with c in * by lia. done.
Qed.

Lemma alloc_inv n w o pl qs t w' :
  sched_inv n w o pl qs -> claim_slot w = Some (t, w') -> sched_inv n w' (upd o t (Some true)) pl qs /\ forall c, sw_cpu w' c = sw_cpu w c.
Proof.
  intros Hi. unfold claim_slot. destruct (List.find _ _) as [i|] eqn:Ef; [|done]. intros [= <- <-].
  apply List.find_some in Ef as [Ht Hu]. apply list_elem_of_In, elem_of_seqZ in Ht. zbool. assert (0 <= i < TASK_MAX) as Hi' by lia. split; [|done].
  pose proof (si_task _ _ _ _ _ Hi i Hi') as Hok. rewrite Hu in Hok.
  assert (pl i = Nowhere) as Ep by (destruct (pl i); [done|by destruct Hok as (_ & ? & _)..]).
  eapply (inv_task n w _ o _ pl qs i); [done|done| |by right|intros; by apply upd_ne|].
  - eapply (only_task_init _ _ (put_task (put_used w i true) i blank_task)). eauto with sched.
  - sw. rewrite !upd_eq, Ep. cbn. tauto.
Qed.

Lemma step_inv strict n w o pl qs s' :
  sched_inv n w o pl qs -> strict = true \/ n = 1 -> sstep strict (mk_sr w o) s' ->
  exists pl' qs', sched_inv n (sr_w s') (sr_own s') pl' qs' /\ keeps n qs qs' (sr_w s').
Proof.
  intros Hi Hmode Hstep. pose proof (si_n _ _ _ _ _ Hi) as [Hn En]. inversion Hstep; subst; clear Hstep; cbn [sr_w sr_own].
  - destruct (schedule_spec _ _ _ _ _ c Hi ltac:(lia)) as (w2 & pl' & qs' & E & Hi' & Hcur & Hr & Hd). assert (w' = w2) as -> by congruence. exists pl', qs'. split; [done|].
    intros d t i Hdn Hl. destruct (decide (d = c)) as [->|Hne].
    + destruct (schedule_moves _ _ qs' _ _ _ w2 Hl Hcur Hr) as [?|(j & ? & ?)]; [by left|right]. exists j. split; [lia|done].
    + right. exists i. destruct (Hd d Hne) as [-> _]. done.
  - exists pl, qs. split; [by apply inv_resched|apply keeps_refl].
  - exists pl, qs. split; [eapply inv_current_state; auto; lia|apply keeps_refl].
  - destruct (unblock_spec _ _ _ _ _ t Hi ltac:(lia)) as (w2 & pl' & qs' & E & Hi' & Hr & _). assert (w' = w2) as -> by congruence. exists pl', qs'. split; [done|]. by apply keeps_app.
  - exists pl, qs. split; [eapply inv_current_state; auto; lia|apply keeps_refl].
  - assert (cp_current (sw_cpu w c) <> idle_of c) as Hne.
    { intros E. destruct (si_idle _ _ _ _ _ Hi c) as (_ & Hr & _); [lia|]. congruence. }
    destruct (running_current _ _ _ _ _ c Hi ltac:(lia) Hne) as (Ht & _ & _ & _ & _ & Ha & _).
    rewrite (dequeue_spec _ _ _ _ _ _ Hi) in *; [|intros d Hd; eapply current_unqueued; [done|lia|done]|lia]. simplify_eq. exists pl, qs. split; [done|apply keeps_refl].
  - exists pl, qs. split; [eapply slot_claim_inv; eauto; lia|apply keeps_refl].
  - destruct (own_nowhere _ _ _ _ _ t false Hi) as (Ep & Hoc & Hw & Hu & Hst); [done|done|]. exists pl, qs. split; [|apply keeps_refl].
    eapply (inv_task _ w _ o _ pl qs t); [done|done|unfold slot_take_and_free; eauto with sched|by right|intros; by apply upd_ne|].
    sw. rewrite !upd_eq, Ep. cbn. split_and!; [done|done|done|by right; right].
  - destruct (alloc_inv _ _ _ _ _ _ _ Hi ltac:(eassumption)) as [? _]. exists pl, qs. split; [done|apply keeps_refl].
  - destruct (own_nowhere _ _ _ _ _ t true Hi) as (Ep & Hoc & Hw & Hu & Hst); [done|done|]. exists pl, qs. split; [|apply keeps_refl].
    eapply (inv_task _ w _ o _ pl qs t); [done|done|unfold free_task_slot, set_state; eauto with sched|by right|intros; by apply upd_ne|].
    sw. rewrite !upd_eq, Ep. cbn. split_and!; [done|done|done|by right; right].
  - destruct (own_nowhere _ _ _ _ _ t true Hi) as (Ep & Hoc & Hw & Hu & Hst); [done|done|].
    edestruct (enqueue_spec (sw_ncpus w) w) as (c & w2 & E & Hc & Hi2); [..|unfold process_start in *; rewrite E in *; simplify_eq; eexists _, _; split; [exact Hi2|]]; try done.
    all: sw; rewrite ?upd_eq; try done; eauto 8 with sched.
    + intros; by apply upd_ne.
    + apply keeps_app. intros d. destruct (decide (d = c)) as [->|]; [rewrite upd_eq; by eexists|rewrite upd_ne by done; exists []; by rewrite app_nil_r].
Qed.

Lemma boot_inv n : 1 <= n <= AVATAR_MAX_CPUS -> sched_inv n (sched_boot n) (fun _ => None) (fun _ => Nowhere) (fun _ => []).
Proof.
  intros Hn. split; cbn [sched_boot sw_task sw_used sw_run sw_cpu sw_ncpus cp_current cp_idle]; [done|..].
  - split; [|set_solver]. intros c _. split; [apply dlist_nil|constructor].
  - intros c t _ _. split; [set_solver|done].
  - by left.
  - done.
  - intros t Ht. unfold boot_task. rewrite (proj2 (Z.leb_gt _ _)) by lia. cbn. tauto.
  - intros c Hc. unfold boot_task, idle_of. rewrite (proj2 (Z.leb_le _ _)) by lia. done.
Qed.

Lemma reachable_inv strict n s :
  1 <= n <= AVATAR_MAX_CPUS -> strict = true \/ n = 1 -> star (sstep strict) (mk_sr (sched_boot n) (fun _ => None)) s ->
  exists pl qs, sched_inv n (sr_w s) (sr_own s) pl qs.
Proof.
  intros Hn Hmode. apply (star_invariant _ (fun s => exists pl qs, sched_inv n (sr_w s) (sr_own s) pl qs)); [|exists (fun _ => Nowhere), (fun _ => []); by apply boot_inv].
  intros [w o] s' (pl & qs & Hi) Hstep. destruct (step_inv strict n w o pl qs s' Hi Hmode Hstep) as (pl' & qs' & Hi' & _). by exists pl', qs'.
Qed.


(** ** Fairness *)

(** A run with [k] schedules of CPU [c] in which [c] does not run [t]. *)
Inductive waits (strict : bool) (c t : Z) : nat -> srun -> srun -> Prop :=
  | wt_nil s : waits strict c t 0 s s
  | wt_schedule w o w' k s' :
      sched_schedule w c = Some w' -> cp_current (sw_cpu w' c) <> t -> waits strict c t k (mk_sr w' o) s' -> waits strict c t (S k) (mk_sr w o) s'
  | wt_other s s1 k s' :
      sstep strict s s1 -> cp_current (sw_cpu (sr_w s1) c) <> t -> waits strict c t k s1 s' -> waits strict c t k s s'.

Lemma waits_bound strict n c t k s s' :
  strict = true \/ n = 1 -> 0 <= c < n -> waits strict c t k s s' ->
  forall pl qs i, sched_inv n (sr_w s) (sr_own s) pl qs -> qs c !! i = Some t -> (k <= i)%nat.
Proof.
  intros Hmode Hc Hw. induction Hw as [s|w o w' k s' E Hcur Hw IH|[w o] s1 k s' Hstep Hcur Hw IH]; intros pl qs i Hi Hl; [lia|..]; cbn [sr_w sr_own] in *.
  - destruct (schedule_spec _ _ _ _ _ c Hi Hc) as (w2 & pl' & qs' & E2 & Hi' & Hc' & Hr & _). assert (w2 = w') as -> by congruence.
    destruct (schedule_moves w qs qs' c t i w' Hl Hc' Hr) as [?|(j & Hj & Hl')]; [done|]. specialize (IH pl' qs' j Hi' Hl'). lia.
  - destruct (step_inv strict n w o pl qs s1 Hi Hmode Hstep) as (pl' & qs' & Hi' & Hk).
    destruct (Hk c t i Hc Hl) as [?|(j & Hj & Hl')]; [done|]. specialize (IH pl' qs' j Hi' Hl'). lia.
Qed.


(** ** A dead task that is still on its CPU *)

(** The world after an operation that does not fail. *)
Definition world_of (x : option sched_world) : sched_world := default (sched_boot 0) x.
Definition works (x : option sched_world) : bool := match x with Some _ => true | None => false end.
Definition slot_claimed w : sched_world := match claim_slot w with Some (_, w) => w | None => w end.
Definition claims0 w : bool := match claim_slot w with Some (t, _) => t =? 0 | None => false end.

Lemma world_of_eq x : works x = true -> x = Some (world_of x).
Proof. by destruct x. Qed.
Lemma slot_claimed_eq w : claims0 w = true -> claim_slot w = Some (0, slot_claimed w).
Proof. unfold claims0, slot_claimed. destruct (claim_slot w) as [[t w']|]; [|done]. by intros ->%Z.eqb_eq. Qed.

Definition start_at w t aff : option sched_world := process_start (set_affinity (put_task w t (t_names (sw_task w t) 1 0)) t aff) t.

(** Task 0 is created and runs on CPU 0. *)
Definition demo_started : sched_world := world_of (start_at (slot_claimed (sched_boot 2)) 0 0).
Definition demo_running : sched_world := world_of (sched_schedule demo_started 0).
(** It exits; CPU 1 takes its slot for a new task and runs that. *)
Definition demo_dead : sched_world := set_state demo_running 0 TASK_DEAD.
Definition demo_claimed : sched_world := set_state demo_dead 0 TASK_ALLOCATING.
Definition demo_freed : sched_world := slot_take_and_free demo_claimed 0.
Definition demo_restarted : sched_world := world_of (start_at (slot_claimed demo_freed) 0 1).
Definition demo_twice : sched_world := world_of (sched_schedule demo_restarted 1).

Lemma alloc_step strict w o : claims0 w = true -> sstep strict (mk_sr w o) (mk_sr (slot_claimed w) (upd o 0 (Some true))).
Proof. intros H. by apply ss_alloc, slot_claimed_eq. Qed.
Lemma start_step strict w o aff :
  o 0 = Some true -> 0 <= aff -> works (start_at w 0 aff) = true -> sstep strict (mk_sr w o) (mk_sr (world_of (start_at w 0 aff)) (upd o 0 None)).
Proof. intros Ho Ha Hw. eapply (ss_start strict w o 0 1 0 aff); [done|done|done|]. by apply world_of_eq. Qed.
Lemma schedule_step strict w o c :
  0 <= c < sw_ncpus w -> works (sched_schedule w c) = true -> sstep strict (mk_sr w o) (mk_sr (world_of (sched_schedule w c)) o).
Proof. intros Hc Hw. apply (ss_schedule strict w o c); [done|]. by apply world_of_eq. Qed.

Definition own_after : Z -> option bool := upd (upd (fun _ => None) 0 (Some true)) 0 None.

Lemma demo_started_run strict : star (sstep strict) (mk_sr (sched_boot 2) (fun _ => None)) (mk_sr demo_started own_after).
Proof.
  eapply star_step; [apply alloc_step; vm_compute; reflexivity|].
  apply star_one, start_step; [done|lia|vm_compute; reflexivity].
Qed.

Lemma demo_running_run strict : star (sstep strict) (mk_sr (sched_boot 2) (fun _ => None)) (mk_sr demo_running own_after).
Proof.
  eapply star_trans; [apply demo_started_run|]. apply star_one, schedule_step; [|vm_compute; reflexivity].
  assert (sw_ncpus demo_started = 2) as -> by (vm_compute; reflexivity). lia.
Qed.

Definition own_freed : Z -> option bool := upd (upd own_after 0 (Some false)) 0 None.
Definition own_again : Z -> option bool := upd (upd own_freed 0 (Some true)) 0 None.

(** Here the other CPU does not wait. *)
Lemma demo_freed_run : star (sstep false) (mk_sr (sched_boot 2) (fun _ => None)) (mk_sr demo_freed own_freed).
Proof.
  assert (sw_ncpus demo_running = 2 /\ sw_ncpus demo_dead = 2) as (N1 & N2) by (vm_compute; done).
  eapply star_trans; [apply demo_running_run|].
  eapply star_step; [apply (ss_exit false demo_running own_after 0 0); [rewrite N1; lia|vm_compute; done..]|].
  eapply star_step; [apply (ss_claim false demo_dead own_after 1 0 demo_claimed); [rewrite N2; lia|vm_compute; done|lia|vm_compute; done|done|]|].
  { unfold reap_claim. by rewrite bool_decide_true by (vm_compute; done). }
  apply star_one, (ss_free false demo_claimed (upd own_after 0 (Some false)) 0); [lia|done].
Qed.

Lemma demo_restarted_run : star (sstep false) (mk_sr (sched_boot 2) (fun _ => None)) (mk_sr demo_restarted own_again).
Proof.
  eapply star_trans; [apply demo_freed_run|]. eapply star_step; [apply alloc_step; vm_compute; reflexivity|].
  apply star_one, start_step; [done|lia|vm_compute; reflexivity].
Qed.

(** The code reaps a dead task without asking whether its CPU has left it.  On two CPUs
    there is a run from boot in which a task exits, the other CPU takes its slot and its
    stack for a new task and runs it, and one task is current on both CPUs. *)
Theorem exit_slot_reused_early :
  exists s, star (sstep false) (mk_sr (sched_boot 2) (fun _ => None)) s /\
    cp_current (sw_cpu (sr_w s) 0) = 0 /\ cp_current (sw_cpu (sr_w s) 1) = 0 /\ sw_used (sr_w s) 0 = true.
Proof.
  exists (mk_sr demo_twice own_again). split; [|vm_compute; done]. eapply star_trans; [apply demo_restarted_run|].
  apply star_one, schedule_step; [|vm_compute; reflexivity].
  assert (sw_ncpus demo_restarted = 2) as -> by (vm_compute; reflexivity). lia.
Qed.



(** ** Slots *)

Definition used_slots w : list Z := filter (fun i => sw_used w i = true) (seqZ 0 TASK_MAX).

Lemma filter_drop (P Q : Z -> bool) l x :
  x ∈ l -> P x = true -> Q x = false -> (forall y, y <> x -> Q y = P y) ->
  (length (filter (fun i => Q i = true) l) < length (filter (fun i => P i = true) l))%nat.
Proof.
  intros Hx HP HQ Hy. induction l as [|z l IH]; [by apply elem_of_nil in Hx|]. rewrite !filter_cons.
  assert (length (filter (fun i => Q i = true) l) <= length (filter (fun i => P i = true) l))%nat as Hle.
  { clear IH Hx. induction l as [|u l IH]; [done|]. rewrite !filter_cons. destruct (decide (u = x)) as [->|].
    - rewrite decide_False by congruence. rewrite decide_True by done. cbn [length]. lia.
    - rewrite (Hy u) by done. destruct (decide (P u = true)); cbn [length]; lia. }
  apply elem_of_cons in Hx as [->|Hx].
  - rewrite decide_False by congruence. rewrite decide_True by done. cbn [length]. lia.
  - specialize (IH Hx). destruct (decide (z = x)) as [->|].
    + rewrite decide_False by congruence. rewrite decide_True by done. cbn [length]. lia.
    + rewrite (Hy z) by done. destruct (decide (P z = true)); cbn [length]; lia.
Qed.

(** The loop that reaps orphans ends, and a slot that is handed out was free or dead. *)
Lemma task_alloc_slot_spec w :
  exists r w', task_alloc_slot w = Some (r, w') /\
    match r with
    | Some i => 0 <= i < TASK_MAX /\ sw_task w' i = blank_task /\ (sw_used w i = false \/ tk_state (sw_task w i) = TASK_DEAD)
    | None => forall i, 0 <= i < TASK_MAX -> sw_used w' i = true /\ slot_is_reapable_orphan_locked w' i = false
    end.
Proof.
  destruct (loop_total
    (fun w' => forall i, (sw_used w' i = false -> sw_used w i = false \/ tk_state (sw_task w i) = TASK_DEAD) /\ (sw_used w' i = true -> sw_task w' i = sw_task w i))
    (fun w' => (forall i, 0 <= i < TASK_MAX -> slot_is_reapable_orphan_locked w' i = false) /\
       forall i, sw_used w' i = false -> sw_used w i = false \/ tk_state (sw_task w i) = TASK_DEAD)
    (fun w' => Z.of_nat (length (used_slots w'))) reap_body) with (fuel := 65%nat) (s := w) as (w1 & E & Hno & Hfree).
  - intros w' Hw'. unfold reap_body. destruct (List.find _ _) as [v|] eqn:Ef.
    + apply List.find_some in Ef as [Hin%list_elem_of_In Hr]. unfold slot_is_reapable_orphan_locked in Hr.
      destruct (sw_used w' v) eqn:Hu; [|done]. destruct (bool_decide (tk_state (sw_task w' v) = TASK_DEAD)) eqn:Hd; [|done]. apply bool_decide_eq_true in Hd. split.
      * intros i. sw. destruct (decide (i = v)) as [->|]; [rewrite !upd_eq|rewrite !upd_ne by done; apply Hw'].
        split; [|done]. intros _. right. destruct (Hw' v) as [_ Ht]. by rewrite <-Ht.
      * split; [lia|]. apply inj_lt, (filter_drop (sw_used w') _ _ v); [done|done|sw; apply upd_eq|]. intros y Hy. sw. by apply upd_ne.
    + split; [|intros i; apply Hw']. intros i Hi. apply (List.find_none _ _ Ef). apply list_elem_of_In, elem_of_seqZ. lia.
  - intros i. split; [auto|done].
  - split; [lia|]. pose proof (length_filter (fun i => sw_used w i = true) (seqZ 0 TASK_MAX)). unfold used_slots. rewrite length_seqZ in *. lia.
  - unfold task_alloc_slot. rewrite E. cbn [mbind option_bind]. unfold claim_slot. destruct (List.find _ _) as [i|] eqn:Ef; eexists _, _; (split; [reflexivity|]).
    + apply List.find_some in Ef as [Hin%list_elem_of_In Hu]. apply elem_of_seqZ in Hin. zbool. split; [lia|]. sw. rewrite upd_eq. split; [done|]. by apply Hfree.
    + intros i Hi. split; [|by apply Hno]. pose proof (List.find_none _ _ Ef i) as Hn. apply negb_false_iff. apply Hn. apply list_elem_of_In, elem_of_seqZ. lia.
Qed.
