(* ===== verification/Completion.v ===== *)
(** * Completions: kernel/task/completion.c

    A one-shot event with a list of waiting tasks, linked through their [wait_node].  The
    lock of the completion is held from the test of [done] to the insertion in the list, and
    by the completer for the whole walk over the list; the tasks are those of Sched.v.
    [completion_wait] is cut at [sched_schedule]: [wait_region] is what it does under the
    lock, once when it is called and once each time the task runs again.

    The theorems are about runs in which a task that waits is woken by nobody else. *)

From S2P Require Import Prelude KList Sched.
From stdpp Require Import options.
From Stdlib Require Import Lia ZifyBool.

Record completion_t := mk_cm { cm_waiters : list_t; cm_done : Z }.

Definition completion_init : completion_t := mk_cm list_init 0.

(** The tasks, the wait nodes and one completion. *)
Record cm_world := mk_cw { cw_w : sched_world; cw_wait : nodes; cw_c : completion_t }.

Definition wait_node (t : Z) : Z := t + 1.
Definition task_of_wait (node : Z) : Z := node - 1.

(** [false]: the event has happened and the call returns. *)
Definition wait_region (x : cm_world) (cpu : Z) : option (bool * cm_world) :=
  let cur := cp_current (sw_cpu (cw_w x) cpu) in
  if negb (cm_done (cw_c x) =? 0) then Some (false, x)
  else
    let w := set_state (cw_w x) cur TASK_BLOCKED in
    '(h, l) ← list_insert_last (cw_wait x) (cm_waiters (cw_c x)) (wait_node cur);
    Some (true, mk_cw w h (mk_cm l (cm_done (cw_c x)))).

Definition set_done (x : cm_world) (d : Z) : cm_world := mk_cw (cw_w x) (cw_wait x) (mk_cm (cm_waiters (cw_c x)) d).

(** One round of the loop: [inr] when the list is empty. *)
Definition wake_first (x : cm_world) : option (cm_world + cm_world) :=
  if list_is_empty (cm_waiters (cw_c x)) then Some (inr x)
  else
    '(node, h, l) ← list_delete_first (cw_wait x) (cm_waiters (cw_c x));
    w ← sched_unblock (cw_w x) (task_of_wait node);
    Some (inl (mk_cw w h (mk_cm l (cm_done (cw_c x))))).

(** [inr None] is a fault. *)
Definition wake_body (x : cm_world) : cm_world + option cm_world :=
  match wake_first x with None => inr None | Some (inl x) => inl x | Some (inr x) => inr (Some x) end.

Definition completion_complete_all (x : cm_world) : option cm_world :=
  r ← loop 65 wake_body (set_done x 1); r.

Definition completion_done (x : cm_world) : Z := cm_done (cw_c x).

Definition completion_reset (x : cm_world) : Z * cm_world :=
  if negb (list_is_empty (cm_waiters (cw_c x))) then (-1, x) else (0, set_done x 0).

(** ** Runs

    [cr_own] are the slots of Sched.v, [cr_in] the tasks inside [completion_wait], and
    [cr_locked] says that a completer holds the lock. *)
Record cm_run := mk_cr { cr_x : cm_world; cr_own : Z -> option bool; cr_in : Z -> bool; cr_locked : bool }.

Definition runnable (s : task_state_t) : Prop := s = TASK_READY \/ s = TASK_RUNNING.

(** Other code leaves the tasks inside [completion_wait] alone. *)
Definition spares (inside : Z -> bool) (w w' : sched_world) : Prop :=
  forall t, inside t = true ->
    (tk_state (sw_task w t) = TASK_BLOCKED -> tk_state (sw_task w' t) = TASK_BLOCKED) /\
    (runnable (tk_state (sw_task w t)) -> runnable (tk_state (sw_task w' t))).

Inductive cstep (strict : bool) : cm_run -> cm_run -> Prop :=
  | cs_other w h c o i k w' o' :
      sstep strict (mk_sr w o) (mk_sr w' o') -> spares i w w' ->
      cstep strict (mk_cr (mk_cw w h c) o i k) (mk_cr (mk_cw w' h c) o' i k)
  | cs_wait x o i cpu t x' (sleeps : bool) :
      0 <= cpu < sw_ncpus (cw_w x) -> cp_current (sw_cpu (cw_w x) cpu) = t -> t <> idle_of cpu ->
      tk_state (sw_task (cw_w x) t) = TASK_RUNNING -> wait_region x cpu = Some (sleeps, x') ->
      cstep strict (mk_cr x o i false) (mk_cr x' o (upd i t sleeps) false)
  | cs_complete x o i :
      cstep strict (mk_cr x o i false) (mk_cr (set_done x 1) o i true)
  | cs_wake x o i x' :
      wake_first x = Some (inl x') -> cstep strict (mk_cr x o i true) (mk_cr x' o i true)
  | cs_unlock x o i :
      wake_first x = Some (inr x) -> cstep strict (mk_cr x o i true) (mk_cr x o i false)
  | cs_reset x o i :
      cstep strict (mk_cr x o i false) (mk_cr (snd (completion_reset x)) o i false).

(** ** The waiters *)

(** [xs] are the tasks in the list, in order: those inside that sleep. *)
Definition waiters_ok (x : cm_world) (inside : Z -> bool) (xs : list Z) : Prop :=
  dlist (cw_wait x) (cm_waiters (cw_c x)) (map wait_node xs) /\
  (forall t, t ∈ xs <-> inside t = true /\ tk_state (sw_task (cw_w x) t) = TASK_BLOCKED) /\
  forall t, inside t = true -> 0 <= t < TASK_MAX /\ (tk_state (sw_task (cw_w x) t) = TASK_BLOCKED \/ runnable (tk_state (sw_task (cw_w x) t))).

#[global] Instance wait_node_inj : Inj (=) (=) wait_node.
Proof. unfold wait_node. intros x y. lia. Qed.

Lemma waiters_short x i xs : waiters_ok x i xs -> (length xs <= 64)%nat.
Proof.
  intros ((Hnd & _) & Hx & Hi). apply NoDup_fmap_1 in Hnd. change 64%nat with (Z.to_nat 64). rewrite <-(length_seqZ 0 64).
  apply submseteq_length, NoDup_submseteq; [done|]. intros t [Ht _]%Hx. apply elem_of_seqZ. destruct (Hi t Ht). lia.
Qed.

Lemma wait_spec x i xs cpu t n o pl qs :
  sched_inv n (cw_w x) o pl qs -> waiters_ok x i xs -> 0 <= cpu < n -> cp_current (sw_cpu (cw_w x) cpu) = t -> t <> idle_of cpu ->
  tk_state (sw_task (cw_w x) t) = TASK_RUNNING ->
  if cm_done (cw_c x) =? 0 then
    exists x', wait_region x cpu = Some (true, x') /\ waiters_ok x' (upd i t true) (xs ++ [t]) /\ sched_inv n (cw_w x') o pl qs /\ cm_done (cw_c x') = 0
  else wait_region x cpu = Some (false, x) /\ waiters_ok x (upd i t false) xs.
Proof.
  intros Hs Hw Hc Ht Hne Hr. pose proof (waiters_short x i xs Hw) as Hlen. destruct Hw as (Hl & Hx & Hi).
  assert (t ∉ xs) as Hni by (intros [_ E]%Hx; congruence).
  unfold wait_region. rewrite Ht. case_if; cbn [negb].
  - subst t. destruct (running_current _ _ _ _ _ cpu Hs Hc Hne) as (Htp & _). set (t := cp_current (sw_cpu (cw_w x) cpu)) in *.
    destruct (insert_last_spec _ _ _ (wait_node t) Hl) as (h & l & -> & Hl' & _); [by rewrite (list_elem_of_fmap_inj wait_node)|unfold wait_node; lia|rewrite length_map; lia|].
    cbn [mbind option_bind]. eexists. split; [reflexivity|]. split; [|split; [eapply inv_current_state; auto|done]].
    split; [by rewrite map_app|]. cbn [cw_w]. split; intros t'; sw; rewrite ?elem_of_app, ?list_elem_of_singleton;
      (destruct (decide (t' = t)) as [->|]; [rewrite !upd_eq|rewrite !upd_ne by done]); cbn.
    + tauto.
    + rewrite Hx. intuition congruence.
    + auto.
    + apply Hi.
  - split; [done|]. split; [done|]. split; intros t'; (destruct (decide (t' = t)) as [->|]; [rewrite upd_eq|rewrite upd_ne by done; auto]); [|done].
    split; [done|]. by intros [? _].
Qed.

Lemma wake_spec x i t xs n o pl qs :
  sched_inv n (cw_w x) o pl qs -> waiters_ok x i (t :: xs) ->
  exists x' pl' qs', wake_first x = Some (inl x') /\ waiters_ok x' i xs /\ sched_inv n (cw_w x') o pl' qs' /\ cm_done (cw_c x') = cm_done (cw_c x) /\
    forall t', t' <> t -> tk_state (sw_task (cw_w x') t') = tk_state (sw_task (cw_w x) t').
Proof.
  intros Hs (Hl & Hx & Hi). pose proof (si_n _ _ _ _ _ Hs) as [Hn _]. destruct (proj1 (Hx t)) as [Hti Htb]; [by left|].
  pose proof Hl as (Hnd & _ & _ & El & _). cbn [map] in Hnd. apply NoDup_cons in Hnd as [Hnt _]. rewrite (list_elem_of_fmap_inj wait_node) in Hnt.
  unfold wake_first, list_is_empty. rewrite (proj2 (Z.eqb_neq (l_count (cm_waiters (cw_c x))) 0)) by (rewrite El; cbn [l_count length map]; lia).
  destruct (delete_first_cons _ _ _ _ Hl) as (h & l & -> & Hl' & _). cbn [mbind option_bind].
  replace (task_of_wait (wait_node t)) with t by (unfold task_of_wait, wait_node; lia).
  destruct (unblock_spec n (cw_w x) o pl qs t Hs) as (w' & pl' & qs' & -> & Hs' & _ & _ & Hst); [destruct (Hi t Hti); lia|]. cbn [mbind option_bind].
  assert (forall t', t' <> t -> tk_state (sw_task w' t') = tk_state (sw_task (cw_w x) t')) as Hoth by (intros t' Hne; rewrite Hst, bool_decide_false by tauto; done).
  assert (tk_state (sw_task w' t) = TASK_READY) as Htr by (by rewrite Hst, bool_decide_true).
  eexists _, pl', qs'. split; [reflexivity|]. split; [|done]. split; [done|]. cbn [cw_w]. split; intros t'; (destruct (decide (t' = t)) as [->|Hne]; [rewrite ?Htr|rewrite ?(Hoth t' Hne)]).
  - split; [done|]. by intros [_ ?].
  - rewrite <-Hx. set_solver.
  - intros H. split; [by apply Hi|]. right. by left.
  - apply Hi.
Qed.

Lemma wake_nil x i : waiters_ok x i [] -> wake_first x = Some (inr x).
Proof. intros ((_ & _ & _ & El & _) & _). unfold wake_first. by rewrite El. Qed.

Lemma wake_all fuel i n o : forall xs x pl qs,
  sched_inv n (cw_w x) o pl qs -> waiters_ok x i xs -> (length xs < fuel)%nat ->
  exists x', loop fuel wake_body x = Some (Some x') /\ waiters_ok x' i [] /\ cm_done (cw_c x') = cm_done (cw_c x) /\
    forall t, i t = false -> tk_state (sw_task (cw_w x') t) = tk_state (sw_task (cw_w x) t).
Proof.
  induction fuel as [|fuel IH]; intros xs x pl qs Hs Hw Hf; [lia|]. cbn [loop]. unfold wake_body at 1. destruct xs as [|t xs].
  - rewrite (wake_nil x i Hw). by exists x.
  - destruct (wake_spec x i t xs n o pl qs Hs Hw) as (x1 & pl' & qs' & -> & Hw1 & Hs1 & Hd1 & Hst1).
    destruct (IH xs x1 pl' qs' Hs1 Hw1) as (x' & -> & Hw' & Hd' & Hst'); [cbn in Hf; lia|]. exists x'. split; [done|]. split; [done|]. split; [congruence|].
    intros t' Ht'. rewrite Hst', Hst1; [done|intros ->|done]. destruct Hw as (_ & Hx & _). destruct (proj1 (Hx t)) as [? _]; [by left|congruence].
Qed.

Definition cm_inv (n : Z) (r : cm_run) : Prop :=
  exists pl qs xs, sched_inv n (cw_w (cr_x r)) (cr_own r) pl qs /\ waiters_ok (cr_x r) (cr_in r) xs /\
    (cm_done (cw_c (cr_x r)) <> 0 -> cr_locked r = false -> xs = []) /\ (cr_locked r = true -> cm_done (cw_c (cr_x r)) <> 0).

Lemma cstep_inv strict n r r' : strict = true \/ n = 1 -> cm_inv n r -> cstep strict r r' -> cm_inv n r'.
Proof.
  intros Hmode (pl & qs & xs & Hs & Hw & Hd & Hk) Hstep. pose proof (si_n _ _ _ _ _ Hs) as [_ En].
  destruct Hstep as [w h c o i k w' o' Hss Hsp|x o i cpu t x' sleeps Hc Ht Hne Hr E|x o i|x o i x' E|x o i E|x o i]; cbn [cr_x cr_own cr_in cr_locked cw_w cw_c] in *.
  - destruct (step_inv strict n w o pl qs _ Hs Hmode Hss) as (pl' & qs' & Hs' & _). exists pl', qs', xs. split; [done|]. split; [|done].
    destruct Hw as (Hl & Hx & Hi). cbn [cw_w cw_c cw_wait] in *. split; [done|]. split; cbn [cw_w].
    + intros t. rewrite Hx. split; intros [Hin Hb]; cbn [cr_x cw_w] in *; (split; [done|]); [by apply (Hsp t Hin)|]. destruct (Hi t Hin) as [_ [?|Hrn]]; [done|].
      destruct (proj2 (Hsp t Hin) Hrn) as [E|E]; rewrite E in Hb; done.
    + intros t Hin. destruct (Hi t Hin) as [? Hor]. split; [done|]. destruct (Hsp t Hin). tauto.
  - pose proof (wait_spec x i xs cpu t n o pl qs Hs Hw ltac:(lia) Ht Hne Hr) as Hws. case_if_in Hws.
    + destruct Hws as (x2 & E2 & Hw2 & Hs2 & Hd2). rewrite E in E2. injection E2 as -> ->. exists pl, qs, (xs ++ [t]).
      split; [done|]. split; [done|]. cbn. split; [congruence|done].
    + destruct Hws as [E2 Hw2]. rewrite E in E2. injection E2 as -> ->. exists pl, qs, xs. auto.
  - exists pl, qs, xs. split; [done|]. split; [done|]. done.
  - destruct xs as [|t xs]; [rewrite (wake_nil x i Hw) in E; congruence|].
    destruct (wake_spec x i t xs n o pl qs Hs Hw) as (x2 & pl' & qs' & E2 & Hw2 & Hs2 & Hd2 & _). rewrite E in E2. injection E2 as ->.
    exists pl', qs', xs. cbn [cr_x cr_locked cr_own cr_in]. rewrite Hd2. split; [done|]. split; [done|]. split; [done|auto].
  - destruct xs as [|t xs]; [by exists pl, qs, []|]. destruct (wake_spec x i t xs n o pl qs Hs Hw) as (x2 & pl' & qs' & E2 & _). congruence.
  - unfold completion_reset. case_if; cbn [snd]; [by exists pl, qs, xs|]. exists pl, qs, xs. split; [done|]. split; [done|]. done.
Qed.

Definition cm_boot (n : Z) : cm_run := mk_cr (mk_cw (sched_boot n) (fun _ => mk_node 0 0) completion_init) (fun _ => None) (fun _ => false) false.

Lemma cm_boot_inv n : 1 <= n <= AVATAR_MAX_CPUS -> cm_inv n (cm_boot n).
Proof.
  intros Hn. exists (fun _ => Nowhere), (fun _ => []), []. split; [by apply boot_inv|]. split; [|done].
  split; [apply dlist_nil|]. split; [|done]. intros t. split; [set_solver|]. by intros [? _].
Qed.


