(* ===== verification/Futex.v ===== *)
(** * Futexes: kernel/syscall/core/futex.c

    A table of 64 slots, each an address and the task that sleeps on it, under one lock.
    [sys_futex_wait] reads the user word before it takes the lock ([futex_read]); what it
    does under the lock is [futex_wait_locked].  [futex_do_wake] collects the tasks under the
    lock and wakes them after it.  The tasks are those of Sched.v. *)

From S2P Require Import Prelude KList Sched.
From stdpp Require Import options.
From Stdlib Require Import Lia ZifyBool.

Abbreviation FUTEX_TABLE_SIZE := 64%nat.
Abbreviation EFAULT := 14.
Abbreviation EAGAIN := 11.
Abbreviation ENOMEM := 12.

Record futex_slot := mk_fs { fs_uaddr : Z; fs_waiter : option Z }.
Definition futex_free : futex_slot := mk_fs 0 None.

(** The tasks woken, in order, and the table. *)
Fixpoint wake_scan (tbl : list futex_slot) (uaddr : Z) (left : nat) : list Z * list futex_slot :=
  match tbl with
  | [] => ([], [])
  | e :: tbl =>
      match fs_waiter e, left with
      | Some t, S left' =>
          if fs_uaddr e =? uaddr then let '(ts, tbl) := wake_scan tbl uaddr left' in (t :: ts, futex_free :: tbl)
          else let '(ts, tbl) := wake_scan tbl uaddr left in (ts, e :: tbl)
      | _, _ => let '(ts, tbl) := wake_scan tbl uaddr left in (ts, e :: tbl)
      end
  end.

Fixpoint unblock_all (w : sched_world) (ts : list Z) : option sched_world :=
  match ts with [] => Some w | t :: ts => w ← sched_unblock w t; unblock_all w ts end.

Definition futex_do_wake (w : sched_world) (tbl : list futex_slot) (uaddr count : Z) : option (Z * list futex_slot * sched_world) :=
  let '(ts, tbl) := wake_scan tbl uaddr (Z.to_nat count) in
  w ← unblock_all w ts;
  Some (Z.of_nat (length ts), tbl, w).

(** The user word, [None] where it cannot be read. *)
Definition futex_read (mem : Z -> option Z) (uaddr : Z) : option Z := mem uaddr.

(** The first slot without a waiter. *)
Fixpoint free_slot (tbl : list futex_slot) (i : nat) : option nat :=
  match tbl with
  | [] => None
  | e :: tbl => match fs_waiter e with None => Some i | Some _ => free_slot tbl (S i) end
  end.

(** 0 when the task [cur] goes to sleep. *)
Definition futex_wait_locked (w : sched_world) (tbl : list futex_slot) (cur uaddr cur_val val : Z) : Z * list futex_slot * sched_world :=
  if negb (cur_val =? val) then (- EAGAIN, tbl, w)
  else
    match free_slot tbl 0 with
    | None => (- ENOMEM, tbl, w)
    | Some i => (0, <[i := mk_fs uaddr (Some cur)]> tbl, set_state w cur TASK_BLOCKED)
    end.

(** ** What the table holds *)

(** The tasks that sleep on an address, in the order of the table. *)
Definition sleepers (uaddr : Z) (tbl : list futex_slot) : list Z :=
  omap (fun e => if fs_uaddr e =? uaddr then fs_waiter e else None) tbl.

Lemma wake_scan_spec uaddr tbl : forall left ts tbl',
  wake_scan tbl uaddr left = (ts, tbl') ->
  ts = take left (sleepers uaddr tbl) /\ sleepers uaddr tbl' = drop left (sleepers uaddr tbl) /\ length tbl' = length tbl /\
  forall a, a <> uaddr -> sleepers a tbl' = sleepers a tbl.
Proof.
  induction tbl as [|[a wt] tbl IH]; intros left ts tbl' E; cbn [wake_scan fs_waiter fs_uaddr] in E.
  { injection E as <- <-. cbn. by rewrite take_nil, drop_nil. }
  destruct (wake_scan tbl uaddr left) as [ts0 tbl0] eqn:E0. destruct (IH _ _ _ E0) as (H1 & H2 & H3 & H4).
  unfold sleepers in *. cbn [omap list_omap fs_uaddr fs_waiter] in *.
  destruct wt as [t|].
  - destruct left as [|left].
    + injection E as <- <-. cbn [omap list_omap fs_uaddr fs_waiter]. rewrite !drop_0, ?take_0 in *. subst ts0. split; [done|].
      split; [by rewrite H2|]. split; [cbn; lia|]. intros b Hb. by rewrite H4.
    + destruct (Z.eqb_spec a uaddr) as [->|Hne].
      * destruct (wake_scan tbl uaddr left) as [ts1 tbl1] eqn:E1. injection E as <- <-. destruct (IH _ _ _ E1) as (K1 & K2 & K3 & K4).
        cbn [omap list_omap fs_uaddr fs_waiter futex_free take drop]. split; [by rewrite K1|]. split; [by case_if|]. split; [cbn; lia|].
        intros b Hb. rewrite K4 by done. rewrite (proj2 (Z.eqb_neq uaddr b)) by done. by case_if.
      * injection E as <- <-. cbn [omap list_omap fs_uaddr fs_waiter]. rewrite (proj2 (Z.eqb_neq a uaddr)) by done.
        split; [done|]. split; [done|]. split; [cbn; lia|]. intros b Hb. by rewrite H4.
  - injection E as <- <-. cbn [omap list_omap fs_uaddr fs_waiter]. split; [by case_if|]. split; [by case_if|]. split; [cbn; lia|]. intros b Hb. by rewrite H4.
Qed.

Lemma unblock_all_spec n o ts : forall w pl qs,
  sched_inv n w o pl qs -> Forall (fun t => 0 <= t < TASK_MAX) ts ->
  exists w' pl' qs', unblock_all w ts = Some w' /\ sched_inv n w' o pl' qs' /\
    forall t, tk_state (sw_task w' t) = if bool_decide (t ∈ ts /\ tk_state (sw_task w t) = TASK_BLOCKED) then TASK_READY else tk_state (sw_task w t).
Proof.
  induction ts as [|t ts IH]; intros w pl qs Hi Hr; cbn [unblock_all].
  { exists w, pl, qs. split; [done|]. split; [done|]. intros t. rewrite bool_decide_false; [done|]. intros [[]%elem_of_nil _]. }
  apply Forall_cons in Hr as [Ht Hr]. pose proof (si_n _ _ _ _ _ Hi) as [Hn _].
  destruct (unblock_spec n w o pl qs t Hi ltac:(lia)) as (w1 & pl1 & qs1 & -> & Hi1 & _ & _ & Hs1). cbn [mbind option_bind].
  destruct (IH w1 pl1 qs1 Hi1 Hr) as (w' & pl' & qs' & -> & Hi' & Hs'). exists w', pl', qs'. split; [done|]. split; [done|].
  intros t'. rewrite Hs', Hs1. repeat case_bool_decide; set_solver.
Qed.

Lemma free_slot_lt tbl : forall k i, free_slot tbl k = Some i -> (k <= i < k + length tbl)%nat.
Proof.
  induction tbl as [|e tbl IH]; intros k i; cbn [free_slot length]; [done|]. destruct (fs_waiter e); [|intros [= <-]; lia].
  intros H. specialize (IH _ _ H). lia.
Qed.

(** ** Runs

    [fx_pend t]: task [t] has called [sys_futex_wait] with an address and a value, and has
    read the word; it has not taken the lock yet. *)
Record fx_run := mk_fx { fx_w : sched_world; fx_own : Z -> option bool; fx_tbl : list futex_slot; fx_mem : Z -> option Z; fx_pend : Z -> option (Z * Z * Z) }.

Inductive fstep (strict : bool) : fx_run -> fx_run -> Prop :=
  | fx_other w o tbl mem p w' o' :
      sstep strict (mk_sr w o) (mk_sr w' o') -> fstep strict (mk_fx w o tbl mem p) (mk_fx w' o' tbl mem p)
  | fx_store w o tbl mem p a v :
      fstep strict (mk_fx w o tbl mem p) (mk_fx w o tbl (upd mem a (Some v)) p)
  | fx_begin w o tbl mem p c t uaddr val cur_val :
      0 <= c < sw_ncpus w -> cp_current (sw_cpu w c) = t -> t <> idle_of c -> tk_state (sw_task w t) = TASK_RUNNING ->
      futex_read mem uaddr = Some cur_val -> fstep strict (mk_fx w o tbl mem p) (mk_fx w o tbl mem (upd p t (Some (uaddr, val, cur_val))))
  | fx_wait w o tbl mem p c t uaddr val cur_val rc tbl' w' :
      0 <= c < sw_ncpus w -> cp_current (sw_cpu w c) = t -> t <> idle_of c -> tk_state (sw_task w t) = TASK_RUNNING ->
      p t = Some (uaddr, val, cur_val) -> futex_wait_locked w tbl t uaddr cur_val val = (rc, tbl', w') ->
      fstep strict (mk_fx w o tbl mem p) (mk_fx w' o tbl' mem (upd p t None))
  | fx_wake w o tbl mem p uaddr count k tbl' w' :
      futex_do_wake w tbl uaddr count = Some (k, tbl', w') -> fstep strict (mk_fx w o tbl mem p) (mk_fx w' o tbl' mem p).

Definition fx_boot (n : Z) (mem : Z -> option Z) : fx_run :=
  mk_fx (sched_boot n) (fun _ => None) (replicate FUTEX_TABLE_SIZE futex_free) mem (fun _ => None).

Definition table_ok (tbl : list futex_slot) : Prop :=
  length tbl = FUTEX_TABLE_SIZE /\ Forall (fun e => forall t, fs_waiter e = Some t -> 0 <= t < TASK_MAX) tbl.

Definition fx_inv (n : Z) (r : fx_run) : Prop := (exists pl qs, sched_inv n (fx_w r) (fx_own r) pl qs) /\ table_ok (fx_tbl r).

Lemma sleepers_pool tbl uaddr : table_ok tbl -> Forall (fun t => 0 <= t < TASK_MAX) (sleepers uaddr tbl).
Proof.
  intros [_ Hok]. pose proof (proj1 (Forall_forall _ _) Hok) as Hf. apply Forall_forall. intros t (e & He & Ht)%list_elem_of_omap. case_if_in Ht; [|done]. by apply (Hf e).
Qed.

Lemma wake_table tbl uaddr left ts tbl' : table_ok tbl -> wake_scan tbl uaddr left = (ts, tbl') -> table_ok tbl'.
Proof.
  intros [Hlen Hok] E. destruct (wake_scan_spec _ _ _ _ _ E) as (_ & _ & Hl & _). split; [congruence|]. clear Hlen Hl.
  revert left ts tbl' E. induction Hok as [|[a wt] tbl He Hok IH]; intros left ts tbl' E; cbn [wake_scan fs_waiter fs_uaddr] in E; [by injection E as <- <-|].
  destruct (wake_scan tbl uaddr left) as [ts0 tbl0] eqn:E0. pose proof (IH _ _ _ E0).
  destruct wt as [t|], left as [|left]; try (injection E as <- <-; by constructor). case_if_in E; [|injection E as <- <-; by constructor].
  destruct (wake_scan tbl uaddr left) as [ts1 tbl1] eqn:Es. injection E as <- <-. constructor; [done|by eapply IH].
Qed.

Lemma fstep_inv strict n r r' : strict = true \/ n = 1 -> fx_inv n r -> fstep strict r r' -> fx_inv n r'.
Proof.
  intros Hmode [(pl & qs & Hi) Ht] Hstep. pose proof (si_n _ _ _ _ _ Hi) as [_ En].
  destruct Hstep as [w o tbl mem p w' o' Hss|w o tbl mem p a v|w o tbl mem p c t uaddr val cv Hc Hcur Hne Hr E|w o tbl mem p c t uaddr val cv rc tbl' w' Hc Hcur Hne Hr Hp E|w o tbl mem p uaddr count k tbl' w' E];
    cbn [fx_w fx_own fx_tbl] in *; (split; cbn [fx_w fx_own fx_tbl]); try done; try by exists pl, qs.
  - destruct (step_inv strict n w o pl qs _ Hi Hmode Hss) as (pl' & qs' & Hi' & _). by exists pl', qs'.
  - unfold futex_wait_locked in E. exists pl, qs. case_if_in E; [by injection E as <- <- <-|]. destruct (free_slot tbl 0); injection E as <- <- <-; [|done].
    subst t. eapply inv_current_state; auto. lia.
  - unfold futex_wait_locked in E. case_if_in E; [by injection E as <- <- <-|]. destruct (free_slot tbl 0) as [i|]; injection E as <- <- <-; [|done].
    destruct Ht as [Hlen Hok]. split; [by rewrite length_insert|]. apply Forall_insert; [done|]. cbn. intros t' [= <-]. subst t.
    by destruct (running_current _ _ _ _ _ c Hi ltac:(lia) Hne) as (? & _).
  - unfold futex_do_wake in E. destruct (wake_scan tbl uaddr (Z.to_nat count)) as [ts tbl1] eqn:Es. destruct (wake_scan_spec _ _ _ _ _ Es) as (-> & _).
    destruct (unblock_all_spec n o (take (Z.to_nat count) (sleepers uaddr tbl)) w pl qs Hi) as (w1 & pl' & qs' & E1 & Hi' & _); [by apply Forall_take, sleepers_pool|].
    rewrite E1 in E. injection E as <- <- <-. by exists pl', qs'.
  - unfold futex_do_wake in E. destruct (wake_scan tbl uaddr (Z.to_nat count)) as [ts tbl1] eqn:Es. destruct (unblock_all w ts); [|done]. injection E as <- <- <-. by eapply wake_table.
Qed.

Lemma fx_reachable strict n mem r :
  1 <= n <= AVATAR_MAX_CPUS -> strict = true \/ n = 1 -> star (fstep strict) (fx_boot n mem) r -> fx_inv n r.
Proof.
  intros Hn Hmode. apply (star_invariant _ (fx_inv n)); [intros s s'; by apply fstep_inv|]. split; [exists (fun _ => Nowhere), (fun _ => []); by apply boot_inv|].
  split; [apply length_replicate|]. by apply Forall_replicate.
Qed.

(** A wake-up in any run.  It wakes the first [count] tasks that sleep on the address in
    the order of the table, and no other task; these leave the table, the others of the
    address stay, and those of other addresses are not touched. *)
Theorem futex_wake_correct strict n mem r uaddr count :
  1 <= n <= AVATAR_MAX_CPUS -> strict = true \/ n = 1 -> star (fstep strict) (fx_boot n mem) r ->
  exists tbl' w',
    futex_do_wake (fx_w r) (fx_tbl r) uaddr count = Some (Z.min (Z.max 0 count) (Z.of_nat (length (sleepers uaddr (fx_tbl r)))), tbl', w') /\
    sleepers uaddr tbl' = drop (Z.to_nat count) (sleepers uaddr (fx_tbl r)) /\ (forall a, a <> uaddr -> sleepers a tbl' = sleepers a (fx_tbl r)) /\
    forall t, tk_state (sw_task w' t) =
      if bool_decide (t ∈ take (Z.to_nat count) (sleepers uaddr (fx_tbl r)) /\ tk_state (sw_task (fx_w r) t) = TASK_BLOCKED) then TASK_READY
      else tk_state (sw_task (fx_w r) t).
Proof.
  intros Hn Hmode Hs. destruct (fx_reachable strict n mem r Hn Hmode Hs) as [(pl & qs & Hi) Ht]. unfold futex_do_wake.
  destruct (wake_scan (fx_tbl r) uaddr (Z.to_nat count)) as [ts tbl'] eqn:Es. destruct (wake_scan_spec _ _ _ _ _ Es) as (-> & H2 & _ & H4).
  destruct (unblock_all_spec n (fx_own r) (take (Z.to_nat count) (sleepers uaddr (fx_tbl r))) (fx_w r) pl qs Hi) as (w' & pl' & qs' & -> & _ & Hst).
  { by apply Forall_take, sleepers_pool. }
  cbn [mbind option_bind]. exists tbl', w'. split; [|done]. do 3 f_equal. rewrite length_take. lia.
Qed.

Lemma futex_wake_correct_witness :
  exists tbl' w', futex_do_wake (fx_w (fx_boot 2 (fun _ => Some 0))) (fx_tbl (fx_boot 2 (fun _ => Some 0))) 4096 1 = Some (0, tbl', w').
Proof.
  destruct (futex_wake_correct true 2 (fun _ => Some 0) (fx_boot 2 (fun _ => Some 0)) 4096 1) as (tbl' & w' & E & _); [lia|by left|apply star_refl|].
  exists tbl', w'. exact E.
Defined.

(** ** The word is read before the lock is taken *)

Lemma star_other strict w o w' o' tbl mem p :
  star (sstep strict) (mk_sr w o) (mk_sr w' o') -> star (fstep strict) (mk_fx w o tbl mem p) (mk_fx w' o' tbl mem p).
Proof.
  intros Hs. remember (mk_sr w o) as s eqn:Es. remember (mk_sr w' o') as s' eqn:Es'. revert w o Es.
  induction Hs as [s|s s1 s2 Hstep Hs IH]; intros w o ->; [injection Es' as -> ->; apply star_refl|].
  destruct s1 as [w1 o1]. eapply star_step; [by apply fx_other|]. by apply IH.
Qed.

Definition mem0 : Z -> option Z := fun _ => Some 0.
Definition table0 : list futex_slot := replicate FUTEX_TABLE_SIZE futex_free.

(** The test of the word and the sleep are not one step.  A task waits for the word to
    change from 0 and has read it; another task stores 1 and wakes the waiters, of which
    there is none yet; then the first task goes to sleep on the old value, and nobody is
    left to wake it. *)
Theorem futex_lost_wakeup :
  exists r0 r1 r2, star (fstep true) (fx_boot 2 mem0) r0 /\ fstep true r0 r1 /\ fstep true r1 r2 /\
    fx_pend r0 0 = Some (4096, 0, 0) /\ fx_mem r0 4096 = Some 1 /\
    futex_do_wake (fx_w r0) (fx_tbl r0) 4096 1 = Some (0, fx_tbl r1, fx_w r1) /\
    sleepers 4096 (fx_tbl r2) = [0] /\ tk_state (sw_task (fx_w r2) 0) = TASK_BLOCKED /\ fx_mem r2 4096 = Some 1.
Proof.
  set (p1 := upd (fun _ => None) 0 (Some (4096, 0, 0)) : Z -> option (Z * Z * Z)). set (m1 := upd mem0 4096 (Some 1)).
  set (tbl2 := <[0%nat := mk_fs 4096 (Some 0)]> table0).
  assert (0 <= 0 < sw_ncpus demo_running /\ cp_current (sw_cpu demo_running 0) = 0 /\ tk_state (sw_task demo_running 0) = TASK_RUNNING) as (Hn & Hc & Hr) by (vm_compute; done).
  assert (futex_do_wake demo_running table0 4096 1 = Some (0, table0, demo_running)) as Hw by done.
  exists (mk_fx demo_running own_after table0 m1 p1), (mk_fx demo_running own_after table0 m1 p1), (mk_fx (set_state demo_running 0 TASK_BLOCKED) own_after tbl2 m1 (upd p1 0 None)).
  split; [|split; [|split]].
  - eapply star_trans; [apply star_other, (demo_running_run true)|]. eapply star_step; [by apply (fx_begin true _ _ _ _ _ 0 0 4096 0 0)|].
    apply star_one, fx_store.
  - by apply (fx_wake true _ _ _ _ _ 4096 1 0).
  - by apply (fx_wait true _ _ _ _ _ 0 0 4096 0 0 0).
  - cbn [fx_pend fx_mem fx_w fx_tbl]. split; [done|]. split; [done|]. split; [done|]. split; [done|]. split; [|done]. sw. by rewrite upd_eq.
Qed.
