(* ===== verification/Path.v ===== *)
(** * Paths and user strings: kernel/syscall/fs/path.c

    A C string is the list of its bytes before the NUL.  [resolve_path] puts a path behind
    the working directory in a buffer of 128 bytes, takes it apart at the slashes, removes
    [.] and [..], and writes the rest to a buffer of [outlen] bytes.

    [words] are the parts of a path between slashes and [walk] is what a sequence of them
    means; the theorems compare the code with these.  The second half is about the copying of
    strings from user memory. *)

From S2P Require Import Prelude FdPool.
From stdpp Require Import options.
From Stdlib Require Import Lia ZifyBool.

Abbreviation SLASH := 47.
Abbreviation DOT := 46.
Abbreviation TMP_MAX := 127%nat.
Abbreviation SEG_MAX := 64%nat.
Abbreviation AT_FDCWD := (-100).
Abbreviation ENOENT := 2.

(** ** resolve_path *)

(** [tmp]: the path, or the working directory, a slash and the path, cut at 127 bytes. *)
Definition join_path (cwd path : list Z) : list Z :=
  if aget 0 path 0 =? SLASH then take TMP_MAX path
  else
    let tmp := take TMP_MAX cwd in
    let tmp := if (0 <? Z.of_nat (length tmp)) && negb (List.last tmp 0 =? SLASH) && (Z.of_nat (length tmp) <? 127) then tmp ++ [SLASH] else tmp in
    tmp ++ take (TMP_MAX - length tmp) path.

(** [while (tmp[i] == '/') i++;] *)
Fixpoint skip_slashes (s : list Z) : list Z :=
  match s with [] => [] | c :: s' => if c =? SLASH then skip_slashes s' else s end.

(** [while (tmp[i] != 0 && tmp[i] != '/') i++;]: what is passed over, and the rest. *)
Fixpoint take_segment (s : list Z) : list Z * list Z :=
  match s with
  | [] => ([], [])
  | c :: s' => if c =? SLASH then ([], s) else let '(seg, r) := take_segment s' in (c :: seg, r)
  end.

(** One segment; the segments found so far are those of [seg_start] and [seg_len]. *)
Definition segment_body (st : list Z * list (list Z)) : (list Z * list (list Z)) + list (list Z) :=
  let '(s, segs) := st in
  match skip_slashes s with
  | [] => inr segs
  | s =>
      let '(seg, s) := take_segment s in
      if bool_decide (seg = [DOT]) then inl (s, segs)
      else if bool_decide (seg = [DOT; DOT]) then inl (s, removelast segs)
      else if (length segs <? SEG_MAX)%nat then inl (s, segs ++ [seg])
      else inl (s, segs)
  end.

Definition segments (tmp : list Z) : option (list (list Z)) := loop 128 segment_body (tmp, []).

(** Appends bytes while there is room before the NUL. *)
Fixpoint emit_chars (outlen : Z) (out seg : list Z) : list Z :=
  match seg with
  | [] => out
  | c :: seg => if Z.of_nat (length out) <? outlen - 1 then emit_chars outlen (out ++ [c]) seg else out
  end.

Fixpoint emit_segments (outlen : Z) (out : list Z) (segs : list (list Z)) : list Z :=
  match segs with
  | [] => out
  | seg :: segs =>
      if Z.of_nat (length out) <? outlen - 1 then
        let out := emit_chars outlen out seg in
        let out := if negb (bool_decide (segs = [])) && (Z.of_nat (length out) <? outlen - 1) then out ++ [SLASH] else out in
        emit_segments outlen out segs
      else out
  end.

(** The string in [out]; [None] where nothing is written. *)
Definition resolve_path (cwd : list Z) (path : option (list Z)) (outlen : Z) : option (list Z) :=
  match path with
  | None | Some [] => Some [SLASH]
  | Some path =>
      segs ← segments (join_path cwd path);
      if outlen <=? 0 then None else Some (emit_segments outlen [SLASH] segs)
  end.

Inductive vfs_file_kind_t := VFS_FILE_NONE | VFS_FILE_EXT4_FILE | VFS_FILE_EXT4_DIR | VFS_FILE_PSEUDO | VFS_FILE_PIPE | VFS_FILE_PTY | VFS_FILE_SOCKET.

#[global] Instance vfs_file_kind_eq_dec : EqDecision vfs_file_kind_t.
Proof. solve_decision. Defined.

Section at_path.
(** The field [kind] of the open files. *)
Variable kind : Z -> vfs_file_kind_t.

Definition vfs_file_is_dir (file : option Z) : bool :=
  match file with
  | None => false
  | Some f => bool_decide (kind f = VFS_FILE_EXT4_DIR) || bool_decide (kind f = VFS_FILE_PSEUDO)
  end.

(** The error, and the path. *)
Definition resolve_path_at (w : fdw) (t : ftask) (cwd : list Z) (dirfd : Z) (path : option (list Z)) (outlen : Z) : Z * option (list Z) :=
  match path with
  | None => (- ENOENT, None)
  | Some p =>
      if aget 0 p 0 =? SLASH then (0, resolve_path cwd path outlen)
      else if dirfd =? AT_FDCWD then (0, resolve_path cwd path outlen)
      else
        match task_get_fd w t dirfd with
        | None => (- EBADF, None)
        | Some i => if negb (vfs_file_is_dir (fo_file (slot_at w i))) then (- EBADF, None) else (0, resolve_path (fo_path (slot_at w i)) path outlen)
        end
  end.
End at_path.

(** ** follow_symlinks *)

Section symlinks.
(** [ext4_readlink] with a buffer of 127 bytes: the target of a link. *)
Variable readlink : list Z -> option (list Z).

(** The directory part, with its slash: [cur[0..slash]], at most 126 bytes. *)
Fixpoint last_slash (s : list Z) (i found : nat) : nat :=
  match s with [] => found | c :: s => last_slash s (S i) (if c =? SLASH then i else found) end.
Definition parent_of (cur : list Z) : list Z := take 126 (take (S (last_slash cur 0 0)) cur).

Definition follow_once (cur : list Z) : option (list Z) :=
  target ← readlink cur;
  if aget 0 target 0 =? SLASH then Some (take TMP_MAX target) else resolve_path (parent_of cur) (Some target) 128.

(** [depth] rounds; it stops at a path that is not a link. *)
Fixpoint follow_loop (depth : nat) (cur : list Z) : list Z :=
  match depth with
  | O => cur
  | S depth => match follow_once cur with None => cur | Some cur => follow_loop depth cur end
  end.

Definition follow_symlinks (out : list Z) (outsz : nat) : list Z := take (outsz - 1) (follow_loop 8 (take TMP_MAX out)).
End symlinks.

(** ** User memory *)

Abbreviation USER_PTR_LIMIT := 2147483648.

Definition user_range_ok (start len : Z) : bool :=
  if start =? 0 then false
  else if len =? 0 then true
  else
    let last := u64 (start + len - 1) in
    if last <? start then false else last <? USER_PTR_LIMIT.

Section user.
(** The pages of the address space ([mm_vm_get_paddr] is not 0), and the bytes in them.
    [None] as the pages: no user address space. *)
Variable pages : option (Z -> bool).
Variable byte_at : Z -> Z.

Definition page_mapped (va : Z) : bool := match pages with None => true | Some m => m (va / PAGE_SIZE) end.

(** [for (va = first;; va += PAGE_SIZE)] *)
Definition pages_body (last va : Z) : Z + bool :=
  if negb (page_mapped va) then inr false else if va =? last then inr true else inl (u64 (va + PAGE_SIZE)).

Definition user_range_accessible (start len : Z) : option bool :=
  if negb (user_range_ok start len) then Some false
  else if len =? 0 then Some true
  else
    match pages with
    | None => Some true
    | Some _ =>
        let mask := Z.lnot (PAGE_SIZE - 1) in
        loop (Z.to_nat (len / PAGE_SIZE + 3)) (pages_body (Z.land (u64 (start + len - 1)) mask)) (Z.land start mask)
    end.

(** A copy ends with a result or with a fault in the kernel. *)
Inductive copied := Copied (n : Z) (s : list Z) | CopyError | CopyFault.

(** [i] bytes are copied; [s] are the bytes in [kbuf]. *)
Definition string_body (ustr maxlen : Z) (st : Z * list Z) : (Z * list Z) + copied :=
  let '(i, s) := st in
  if maxlen - 1 <=? i then inr (Copied i s)
  else if (Z.land (ustr + i) (PAGE_SIZE - 1) =? 0) && negb (default false (user_range_accessible (ustr + i) 1)) then inr CopyError
  else if negb (page_mapped (ustr + i)) then inr CopyFault
  else if byte_at (ustr + i) =? 0 then inr (Copied i s)
  else inl (i + 1, s ++ [byte_at (ustr + i)]).

Definition copy_string_from_user (ustr maxlen : Z) : option copied :=
  if negb (user_range_ok ustr (u64 maxlen)) then Some CopyError
  else loop (Z.to_nat (maxlen + 1)) (string_body ustr maxlen) (0, []).

(** The bytes, if the range can be read. *)
Definition copy_from_user_bytes (usrc : Z) (len : Z) : option copied :=
  ok ← user_range_accessible usrc len;
  Some (if (ok : bool) then Copied 0 (map byte_at (seqZ usrc len)) else CopyError).
End user.

(** * What a path means *)

Fixpoint words_from (cur s : list Z) : list (list Z) :=
  match s with
  | [] => if bool_decide (cur = []) then [] else [cur]
  | c :: s => if c =? SLASH then (if bool_decide (cur = []) then words_from [] s else cur :: words_from [] s) else words_from (cur ++ [c]) s
  end.
Definition words (s : list Z) : list (list Z) := words_from [] s.

(** One word, from the directory with the parts [at_]. *)
Definition walk1 (at_ : list (list Z)) (word : list Z) : list (list Z) :=
  if bool_decide (word = [DOT]) then at_
  else if bool_decide (word = [DOT; DOT]) then removelast at_
  else at_ ++ [word].
Definition walk (at_ : list (list Z)) (ws : list (list Z)) : list (list Z) := foldl walk1 at_ ws.

Fixpoint join_slash (segs : list (list Z)) : list Z :=
  match segs with [] => [] | [seg] => seg | seg :: segs => seg ++ SLASH :: join_slash segs end.
Definition render (segs : list (list Z)) : list Z := SLASH :: join_slash segs.

(** A name: not empty, no slash, not [.] and not [..]. *)
Definition name_ok (seg : list Z) : Prop := seg <> [] /\ (SLASH ∉ seg) /\ seg <> [DOT] /\ seg <> [DOT; DOT].

(** ** Words *)

Lemma words_app a b : forall cur, words_from cur (a ++ SLASH :: b) = words_from cur a ++ words_from [] b.
Proof.
  induction a as [|c a IH]; intros cur; cbn [app words_from].
  - rewrite Z.eqb_refl. by case_bool_decide.
  - case_if; [|apply IH]. case_bool_decide; [apply IH|]. cbn. by rewrite IH.
Qed.

Lemma words_slash s : words (SLASH :: s) = words s.
Proof. done. Qed.

Lemma words_skip s : words (skip_slashes s) = words s.
Proof. induction s as [|c s IH]; [done|]. cbn [skip_slashes]. case_if; [subst; by rewrite words_slash|done]. Qed.

Lemma words_take s : forall seg r cur, take_segment s = (seg, r) -> cur ++ seg <> [] -> words_from cur s = (cur ++ seg) :: words r.
Proof.
  induction s as [|c s IH]; intros seg r cur E Hne; cbn [take_segment words_from] in *.
  - injection E as <- <-. rewrite app_nil_r in *. by rewrite bool_decide_false.
  - case_if_in E.
    + injection E as <- <-. rewrite app_nil_r in *. subst c. rewrite bool_decide_false by done. by rewrite words_slash.
    + destruct (take_segment s) as [seg' r'] eqn:Et. injection E as <- <-. rewrite (IH seg' r'); [by rewrite <-app_assoc|done|]. by destruct cur.
Qed.

Lemma take_shorter s : forall seg r, take_segment s = (seg, r) -> length s = (length seg + length r)%nat.
Proof.
  induction s as [|c s IH]; intros seg r E; cbn [take_segment] in E; [by injection E as <- <-|]. case_if_in E; [by injection E as <- <-|].
  destruct (take_segment s) as [seg' r'] eqn:Et. injection E as <- <-. cbn [length]. rewrite (IH seg' r'); [lia|done].
Qed.

Lemma skip_head s c r : skip_slashes s = c :: r -> c <> SLASH /\ (length (c :: r) <= length s)%nat.
Proof.
  induction s as [|d s IH]; cbn [skip_slashes]; [done|]. case_if; [|intros [= -> ->]; split; [done|lia]].
  intros H. destruct (IH H). split; [done|]. cbn [length] in *. lia.
Qed.

Lemma words_count s : forall cur, (2 * length (words_from cur s) <= length s + (if bool_decide (cur = []) then 1 else 2))%nat.
Proof.
  induction s as [|c s IH]; intros cur; cbn [words_from length].
  - case_bool_decide; cbn; lia.
  - case_if.
    + pose proof (IH []) as H. rewrite bool_decide_true in H by done. case_bool_decide; cbn [length]; lia.
    + pose proof (IH (cur ++ [c])) as H. rewrite bool_decide_false in H by (by destruct cur). case_bool_decide; lia.
Qed.

(** ** The loop over the segments *)

Lemma walk1_length at_ x : (length (walk1 at_ x) <= S (length at_))%nat.
Proof.
  unfold walk1. repeat case_bool_decide; rewrite ?length_app; cbn; try lia.
  destruct at_ as [|y at_] using rev_ind; [cbn; lia|]. rewrite removelast_last, length_app. cbn. lia.
Qed.

Lemma segments_loop fuel : forall s segs,
  (length s < fuel)%nat -> (length segs + length (words s) <= SEG_MAX)%nat -> loop fuel segment_body (s, segs) = Some (walk segs (words s)).
Proof.
  induction fuel as [|fuel IH]; intros s segs Hf Hn; [lia|]. cbn [loop]. unfold segment_body at 1. rewrite <-(words_skip s) in *.
  destruct (skip_slashes s) as [|c r] eqn:Es; [done|]. destruct (skip_head _ _ _ Es) as [Hc Hlen].
  destruct (take_segment (c :: r)) as [seg r'] eqn:Et. pose proof (take_shorter _ _ _ Et) as Hl.
  assert (seg <> []) as Hseg. { cbn [take_segment] in Et. rewrite (proj2 (Z.eqb_neq c SLASH)) in Et by done. destruct (take_segment r). by injection Et as <- _. }
  unfold words in *. rewrite (words_take _ _ _ [] Et) in * by done. cbn [app length] in Hn. unfold walk. cbn [app foldl]. fold (walk (walk1 segs seg) (words r')).
  assert (length r' < fuel)%nat by (destruct seg; [done|cbn [length] in *; lia]).
  assert (forall segs', segs' = walk1 segs seg -> loop fuel segment_body (r', segs') = Some (walk (walk1 segs seg) (words r'))) as Hgo.
  { intros segs' ->. apply IH; [done|]. pose proof (walk1_length segs seg). unfold words in *. lia. }
  unfold walk1 in *. repeat case_bool_decide; [by apply Hgo..|]. rewrite (proj2 (Nat.ltb_lt _ _)) by lia. by apply Hgo.
Qed.

Lemma segments_spec tmp : (length tmp <= TMP_MAX)%nat -> segments tmp = Some (walk [] (words tmp)).
Proof. intros H. apply segments_loop; [lia|]. pose proof (words_count tmp []) as Hc. rewrite bool_decide_true in Hc by done. unfold words. cbn [length]. lia. Qed.

(** ** The output *)

(** The room before the NUL. *)
Definition room (outlen : Z) (out : list Z) : nat := Z.to_nat (outlen - 1 - Z.of_nat (length out)).

Lemma emit_chars_spec outlen seg : forall out, emit_chars outlen out seg = out ++ take (room outlen out) seg.
Proof.
  induction seg as [|c seg IH]; intros out; cbn [emit_chars]; [by rewrite take_nil, app_nil_r|]. unfold room. case_if.
  - rewrite IH. unfold room. rewrite length_app. cbn [length]. rewrite <-app_assoc. cbn [app].
    replace (Z.to_nat (outlen - 1 - Z.of_nat (length out))) with (S (Z.to_nat (outlen - 1 - Z.of_nat (length out + 1)))) by lia. done.
  - replace (Z.to_nat _) with 0%nat by lia. by rewrite take_0, app_nil_r.
Qed.

Lemma emit_segments_spec outlen segs : forall out, emit_segments outlen out segs = out ++ take (room outlen out) (join_slash segs).
Proof.
  induction segs as [|seg segs IH]; intros out; cbn [emit_segments]; [cbn [join_slash]; by rewrite take_nil, app_nil_r|]. case_if.
  2: { unfold room. replace (Z.to_nat _) with 0%nat by lia. by rewrite take_0, app_nil_r. }
  rewrite IH, emit_chars_spec. destruct segs as [|seg2 segs]; [rewrite bool_decide_true by done; cbn [negb andb join_slash]; by rewrite take_nil, app_nil_r|].
  rewrite bool_decide_false by done. cbn [negb andb join_slash]. set (k := room outlen out) in *.
  assert (length (take k seg) = Nat.min k (length seg)) as Hl by apply length_take. case_if; unfold room in *; rewrite ?length_app, ?Hl in *.
  - rewrite (take_ge seg k) in * by lia. rewrite take_app_ge by lia. rewrite <-!app_assoc. f_equal. f_equal.
    replace (k - length seg)%nat with (S (k - length seg - 1)) by lia. cbn [take app]. f_equal. f_equal. cbn [length]. lia.
  - replace (Z.to_nat (outlen - 1 - Z.of_nat (length out + Nat.min k (length seg)))) with 0%nat by lia. rewrite take_0, app_nil_r.
    f_equal. by rewrite take_app_le by lia.
Qed.

Lemma emit_spec outlen segs : 2 <= outlen -> emit_segments outlen [SLASH] segs = take (Z.to_nat (outlen - 1)) (render segs).
Proof.
  intros H. rewrite emit_segments_spec. unfold room, render. cbn [length app]. replace (Z.to_nat (outlen - 1)) with (S (Z.to_nat (outlen - 2))) by lia.
  cbn [take]. f_equal. f_equal. lia.
Qed.

(** ** Names *)

Lemma words_names s : forall cur, (SLASH ∉ cur) -> Forall (fun x => x <> [] /\ (SLASH ∉ x)) (words_from cur s).
Proof.
  induction s as [|c s IH]; intros cur Hc; cbn [words_from].
  - case_bool_decide; by repeat constructor.
  - case_if; [|apply IH; rewrite not_elem_of_app, not_elem_of_cons; split; [done|]; split; [congruence|apply not_elem_of_nil]].
    assert (Forall (fun x => x <> [] /\ (SLASH ∉ x)) (words_from [] s)) by (apply IH, not_elem_of_nil). case_bool_decide; [done|]. by constructor.
Qed.

Lemma Forall_removelast {A} (P : A -> Prop) l : Forall P l -> Forall P (removelast l).
Proof. destruct l as [|x l _] using rev_ind; [done|]. rewrite removelast_last. by intros [? _]%Forall_app. Qed.

Lemma walk_names ws : forall at_, Forall name_ok at_ -> Forall (fun x => x <> [] /\ (SLASH ∉ x)) ws -> Forall name_ok (walk at_ ws).
Proof.
  induction ws as [|x ws IH]; intros at_ Ha Hw; [done|]. apply Forall_cons in Hw as [[Hx1 Hx2] Hw]. apply (IH (walk1 at_ x)); [|done].
  unfold walk1. repeat case_bool_decide; [done|by apply Forall_removelast|]. apply Forall_app. split; [done|]. by constructor.
Qed.

Lemma walk_ok segs : forall at_, Forall name_ok segs -> walk at_ segs = at_ ++ segs.
Proof.
  induction segs as [|x segs IH]; intros at_ Hs; [by rewrite app_nil_r|]. apply Forall_cons in Hs as [(_ & _ & H1 & H2) Hs].
  change (walk (walk1 at_ x) segs = at_ ++ x :: segs). unfold walk1. rewrite !bool_decide_false by done. rewrite IH by done. by rewrite <-app_assoc.
Qed.

Lemma words_name x : forall cur, (SLASH ∉ x) -> words_from cur x = if bool_decide (cur ++ x = []) then [] else [cur ++ x].
Proof.
  induction x as [|c x IH]; intros cur Hx; cbn [words_from]; [by rewrite app_nil_r|]. apply not_elem_of_cons in Hx as [Hc Hx].
  rewrite (proj2 (Z.eqb_neq c SLASH)) by congruence. rewrite IH by done. by rewrite <-app_assoc.
Qed.

Lemma words_render segs : Forall name_ok segs -> words (render segs) = segs.
Proof.
  intros Hs. unfold render. rewrite words_slash. induction Hs as [|x segs (Hx0 & Hx1 & _) Hs IH]; [done|]. destruct segs as [|y segs].
  - cbn [join_slash]. unfold words. rewrite words_name by done. by rewrite bool_decide_false.
  - change (words (x ++ SLASH :: join_slash (y :: segs)) = x :: y :: segs). unfold words in *. rewrite words_app, IH, words_name by done. by rewrite bool_decide_false.
Qed.

(** ** resolve_path *)

Lemma join_length cwd path : (length (join_path cwd path) <= TMP_MAX)%nat.
Proof.
  unfold join_path. case_if; [rewrite length_take; lia|]. pose proof (length_take cwd TMP_MAX). case_if; rewrite !length_app, !length_take, ?length_app; cbn [length]; rewrite ?length_take in *; lia.
Qed.

Lemma join_words cwd path :
  (if (aget 0 path 0 =? SLASH)%Z then length path <= TMP_MAX else cwd <> [] /\ length cwd + 1 + length path <= TMP_MAX)%nat ->
  words (join_path cwd path) = (if aget 0 path 0 =? SLASH then [] else words cwd) ++ words path.
Proof.
  unfold join_path. destruct (aget 0 path 0 =? SLASH); [intros H; by rewrite take_ge by lia|]. intros [Hne Hlen]. rewrite !(take_ge cwd) by lia.
  destruct cwd as [|x cwd _] using rev_ind; [done|]. rewrite last_last, length_app in *. cbn [length] in *.
  rewrite (proj2 (Z.ltb_lt 0 _)), (proj2 (Z.ltb_lt _ 127)) by lia. cbn [andb]. rewrite andb_true_r. destruct (Z.eqb_spec x SLASH) as [->|Hx]; cbn [negb].
  - rewrite take_ge by (rewrite length_app; cbn [length]; lia). rewrite <-app_assoc. cbn [app]. unfold words. rewrite !words_app. cbn [words_from]. by rewrite app_nil_r.
  - rewrite take_ge by (rewrite !length_app; cbn [length]; lia). rewrite <-(app_assoc (cwd ++ [x])). cbn [app]. unfold words. by rewrite words_app.
Qed.

Lemma resolve_any cwd path outlen :
  path <> [] -> 2 <= outlen -> resolve_path cwd (Some path) outlen = Some (take (Z.to_nat (outlen - 1)) (render (walk [] (words (join_path cwd path))))).
Proof.
  intros Hp Ho. unfold resolve_path. destruct path as [|c path]; [done|]. rewrite segments_spec by apply join_length. cbn [mbind option_bind].
  rewrite (proj2 (Z.leb_gt outlen 0)) by lia. by rewrite emit_spec.
Qed.



(** What comes out is canonical, whatever goes in: a slash and names between slashes, no
    empty name, no [.] and no [..], cut to fit the output with its NUL.  A result that was
    not cut resolves to itself from every working directory. *)
Theorem resolve_path_canonical cwd cwd' path outlen :
  2 <= outlen ->
  exists segs out, resolve_path cwd path outlen = Some out /\ out = take (Z.to_nat (outlen - 1)) (render segs) /\ Forall name_ok segs /\
    Z.of_nat (length out) < outlen /\
    ((length (render segs) <= TMP_MAX)%nat -> Z.of_nat (length (render segs)) < outlen -> resolve_path cwd' (Some out) outlen = Some out).
Proof.
  intros Ho.
  assert (exists segs, resolve_path cwd path outlen = Some (take (Z.to_nat (outlen - 1)) (render segs)) /\ Forall name_ok segs) as (segs & E & Hs).
  { destruct path as [[|c path]|]; [exists []; split; [|done]; cbn; f_equal; by rewrite take_ge by (cbn; lia)| |exists []; split; [|done]; cbn; f_equal; by rewrite take_ge by (cbn; lia)].
    rewrite resolve_any by done. eexists. split; [done|]. apply walk_names; [done|]. apply words_names, not_elem_of_nil. }
  exists segs. eexists. split; [exact E|]. split; [done|]. split; [done|]. split; [rewrite length_take; lia|]. intros H1 H2.
  rewrite take_ge by lia. rewrite resolve_any by done. unfold join_path. change (aget 0 (render segs) 0 =? SLASH) with true. cbn iota.
  rewrite (take_ge (render segs)) by lia. rewrite words_render, walk_ok by done. by rewrite take_ge by (cbn [app]; lia).
Qed.

Lemma resolve_path_canonical_witness : exists segs out, resolve_path [47] (Some [97; 47; 47; 98]) 128 = Some out /\ Forall name_ok segs /\ out = take 127 (render segs).
Proof.
  destruct (resolve_path_canonical [47] [47] (Some [97; 47; 47; 98]) 128) as (segs & out & E & Eo & Hs & _); [lia|]. by exists segs, out.
Defined.

(** ** Long paths *)

Definition long_a : list Z := SLASH :: replicate 126 97.
Definition long_b : list Z := long_a ++ [98].

(** Two different canonical names become one: the tail of a path of more than 127 bytes is
    dropped without an error. *)
Lemma long_paths_collide :
  long_a <> long_b /\ render (words long_a) = long_a /\ render (words long_b) = long_b /\
  resolve_path [SLASH] (Some long_b) 256 = Some long_a /\ resolve_path [SLASH] (Some long_a) 256 = Some long_a.
Proof. split; [by intros E%(f_equal length)|]. vm_compute. done. Qed.

(** ** Strings of the user *)

Lemma range_ok_small start len : 0 < start -> 0 < len -> start + len - 1 < USER_PTR_LIMIT -> user_range_ok start len = true.
Proof.
  intros. unfold user_range_ok. rewrite (proj2 (Z.eqb_neq start 0)), (proj2 (Z.eqb_neq len 0)) by lia. rewrite u64_id by lia.
  rewrite (proj2 (Z.ltb_ge _ start)) by lia. apply Z.ltb_lt. lia.
Qed.

Lemma accessible_one m a : 0 < a < USER_PTR_LIMIT -> user_range_accessible (Some m) a 1 = Some (m (a / PAGE_SIZE)).
Proof.
  intros Ha. unfold user_range_accessible. rewrite range_ok_small by lia. cbn [negb]. change (1 =? 0) with false. cbn iota.
  replace (a + 1 - 1) with a by lia. rewrite u64_id by lia. rewrite land_lnot_page. change (Z.to_nat (1 / PAGE_SIZE + 3)) with 3%nat. cbn [loop]. unfold pages_body.
  cbn [page_mapped]. rewrite Z.div_mul by lia. destruct (m (a / PAGE_SIZE)); cbn [negb]; [by rewrite Z.eqb_refl|done].
Qed.

(** [n] bytes of the string have been copied, and the page of the next one is known to be
    mapped unless it begins there. *)
Definition copied_so_far (m : Z -> bool) (b : Z -> Z) (ustr maxlen : Z) (st : Z * list Z) : Prop :=
  0 <= st.1 <= maxlen - 1 /\ st.2 = map b (seqZ ustr st.1) /\
  (forall j, 0 <= j < st.1 -> b (ustr + j) <> 0 /\ m ((ustr + j) / PAGE_SIZE) = true) /\
  ((ustr + st.1) mod PAGE_SIZE <> 0 -> m ((ustr + st.1) / PAGE_SIZE) = m (ustr / PAGE_SIZE) /\ st.1 = 0 \/ m ((ustr + st.1) / PAGE_SIZE) = true).

(** What the copy may return. *)
Definition copy_result (m : Z -> bool) (b : Z -> Z) (ustr maxlen : Z) (r : copied) : Prop :=
  match r with
  | Copied n s => 0 <= n <= maxlen - 1 /\ s = map b (seqZ ustr n) /\ (forall j, 0 <= j < n -> b (ustr + j) <> 0 /\ m ((ustr + j) / PAGE_SIZE) = true) /\
      (n = maxlen - 1 \/ m ((ustr + n) / PAGE_SIZE) = true /\ b (ustr + n) = 0)
  | CopyError => exists i, 0 <= i < maxlen - 1 /\ (ustr + i) mod PAGE_SIZE = 0 /\ m ((ustr + i) / PAGE_SIZE) = false /\
      forall j, 0 <= j < i -> b (ustr + j) <> 0 /\ m ((ustr + j) / PAGE_SIZE) = true
  | CopyFault => 1 < maxlen /\ ustr mod PAGE_SIZE <> 0 /\ m (ustr / PAGE_SIZE) = false
  end.

Lemma string_body_ok m b ustr maxlen st :
  0 < ustr -> ustr + maxlen - 1 < USER_PTR_LIMIT -> copied_so_far m b ustr maxlen st ->
  match string_body (Some m) b ustr maxlen st with
  | inl st' => copied_so_far m b ustr maxlen st' /\ 0 <= maxlen - st'.1 < maxlen - st.1
  | inr r => copy_result m b ustr maxlen r
  end.
Proof.
  intros Hu Hlim. destruct st as [i s]. unfold copied_so_far, string_body. cbn [fst snd]. intros (Hi & Hs & Hj & Hp). case_if.
  { cbn. split; [lia|]. split; [done|]. split; [done|]. left. lia. }
  rewrite land_page_mask, accessible_one by lia. cbn [default from_option id page_mapped]. destruct (Z.eqb_spec ((ustr + i) mod PAGE_SIZE) 0) as [Hal|Hal]; cbn [andb].
  - destruct (m ((ustr + i) / PAGE_SIZE)) eqn:Em; cbn [negb]; [|exists i; split; [lia|done]]. case_if.
    + split; [lia|]. split; [done|]. split; [done|]. by right.
    + cbn [fst snd]. split; [|lia]. split; [lia|]. split; [rewrite Hs, seqZ_app, map_app by lia; done|].
      split; [intros j Hlt; destruct (decide (j = i)) as [->|]; [done|apply Hj; lia]|]. intros Hal'. right.
      rewrite <-Em. f_equal. Z.div_mod_to_equations. lia.
  - destruct (m ((ustr + i) / PAGE_SIZE)) eqn:Em; cbn [negb].
    + case_if; [cbn; split; [lia|]; split; [done|]; split; [done|]; by right|].
      cbn [fst snd]. split; [|lia]. split; [lia|]. split; [rewrite Hs, seqZ_app, map_app by lia; done|].
      split; [intros j Hlt; destruct (decide (j = i)) as [->|]; [done|apply Hj; lia]|]. intros Hal'. right. rewrite <-Em. f_equal.
      Z.div_mod_to_equations. lia.
    + destruct (Hp Hal) as [[Hm ->]|?]; [|congruence]. rewrite Z.add_0_r in *. cbn. split; [lia|]. done.
Qed.

(** C39. Copying a string from the user.  The copy always returns; it gives the bytes up to
    the NUL or up to the size of the buffer, all from mapped pages; it fails only where the
    string runs into a page that is not mapped.  But the first page is tested only if the
    string begins at its first byte: a string that begins inside a page that is not mapped
    faults in the kernel. *)
Theorem copy_string_correct m b ustr maxlen :
  0 < ustr -> 1 <= maxlen -> ustr + maxlen - 1 < USER_PTR_LIMIT ->
  exists r, copy_string_from_user (Some m) b ustr maxlen = Some r /\ copy_result m b ustr maxlen r /\
    (r = CopyFault <-> 1 < maxlen /\ ustr mod PAGE_SIZE <> 0 /\ m (ustr / PAGE_SIZE) = false).
Proof.
  intros Hu Hm Hlim. unfold copy_string_from_user. rewrite u64_id by lia. rewrite range_ok_small by lia. cbn [negb].
  destruct (loop_total (copied_so_far m b ustr maxlen) (copy_result m b ustr maxlen) (fun st => maxlen - st.1) (string_body (Some m) b ustr maxlen))
    with (fuel := Z.to_nat (maxlen + 1)) (s := (0, @nil Z)) as (r & E & Hr).
  - intros st Hst. by apply string_body_ok.
  - unfold copied_so_far. cbn [fst snd]. rewrite Z.add_0_r. split; [lia|]. split; [done|]. split; [lia|]. by left.
  - cbn [fst]. lia.
  - exists r. split; [done|]. split; [done|]. split; [by intros ->|]. intros (H1 & H2 & H3).
    replace (Z.to_nat (maxlen + 1)) with (S (Z.to_nat maxlen)) in E by lia. cbn [loop] in E. unfold string_body at 1 in E.
    rewrite (proj2 (Z.leb_gt (maxlen - 1) 0)), Z.add_0_r, land_page_mask, (proj2 (Z.eqb_neq _ 0) H2) in E by lia. cbn [andb page_mapped] in E.
    rewrite H3 in E. cbn [negb] in E. by injection E as <-.
Qed.

Lemma copy_string_correct_witness : exists r, copy_string_from_user (Some (fun _ => false)) (fun _ => 97) 4100 128 = Some r /\ r = CopyFault.
Proof.
  destruct (copy_string_correct (fun _ => false) (fun _ => 97) 4100 128) as (r & E & _ & Hf); [lia|lia|lia|]. exists r. split; [exact E|]. apply Hf. split; [lia|]. done.
Defined.

(** The walk over the pages ends, and answers for the whole range. *)
Lemma user_range_accessible_spec m start len :
  0 < start -> 0 < len -> start + len - 1 < USER_PTR_LIMIT ->
  exists r, user_range_accessible (Some m) start len = Some r /\ (r = true <-> forall a, start <= a < start + len -> m (a / PAGE_SIZE) = true).
Proof.
  intros Hs Hl Hlim. unfold user_range_accessible. rewrite range_ok_small by done. cbn [negb]. rewrite (proj2 (Z.eqb_neq len 0)) by lia.
  rewrite u64_id by lia. rewrite !land_lnot_page. set (p := start / PAGE_SIZE). set (q := (start + len - 1) / PAGE_SIZE).
  assert (p <= q) by (apply Z.div_le_mono; lia). assert (0 <= p) by (apply Z.div_pos; lia). assert (q * PAGE_SIZE < USER_PTR_LIMIT) by (unfold q; Z.div_mod_to_equations; lia).
  assert (forall a, start <= a < start + len -> p <= a / PAGE_SIZE <= q) as Hpq by (intros a Ha; split; apply Z.div_le_mono; lia).
  assert (forall k, p <= k <= q -> exists a, start <= a < start + len /\ a / PAGE_SIZE = k) as Hqp.
  { intros k Hk. exists (Z.max start (k * PAGE_SIZE)). unfold p, q in *. split; Z.div_mod_to_equations; lia. }
  destruct (loop_total
    (fun va => exists k, va = k * PAGE_SIZE /\ p <= k <= q /\ forall j, p <= j < k -> m j = true)
    (fun r : bool => r = true <-> forall k, p <= k <= q -> m k = true)
    (fun va => q - va / PAGE_SIZE) (pages_body (Some m) (q * PAGE_SIZE))) with (fuel := Z.to_nat (len / PAGE_SIZE + 3)) (s := p * PAGE_SIZE) as (r & E & Hr).
  - intros va (k & -> & Hk & Hall). unfold pages_body. cbn [page_mapped]. rewrite Z.div_mul by lia. destruct (m k) eqn:Em; cbn [negb].
    + case_if; [split; [|done]; intros _ j Hj; destruct (decide (j = k)) as [->|]; [done|apply Hall; lia]|].
      rewrite u64_id by lia. replace (k * PAGE_SIZE + PAGE_SIZE) with ((k + 1) * PAGE_SIZE) by lia. rewrite Z.div_mul by lia. split; [|lia].
      exists (k + 1). split; [done|]. split; [lia|]. intros j Hj. destruct (decide (j = k)) as [->|]; [done|apply Hall; lia].
    + split; [done|]. intros H'. rewrite H' in Em by lia. done.
  - exists p. split; [done|]. split; [lia|]. lia.
  - rewrite Z.div_mul by lia. unfold p, q. Z.div_mod_to_equations. lia.
  - exists r. split; [done|]. rewrite Hr. split.
    + intros H' a Ha. apply H'. by apply Hpq.
    + intros H' k Hk. destruct (Hqp k Hk) as (a & Ha & <-). by apply H'.
Qed.
