(* ===== verification/Fdt.v ===== *)
(** * Device trees of guests: kernel/vmm/loader/fdt.c

    The loader patches the flattened device tree of a guest in place: it sets the position of
    the initial RAM disk, the memory, the command line, and blanks out the nodes of devices
    that are not emulated.  The blob is a list of bytes and [dtb_size] is its length; offsets
    are 32-bit and wrap.  [None] is no result: an access outside of the blob, a shift by 64 or
    more, or a walk that does not end within one step per byte.

    The reference is a tree ([item]: properties, nodes and [FDT_NOP]s) and its bytes
    ([items_bytes]).  A walk is given by what it does on each kind of token ([walker]); a loop
    over the bytes that does the same at each position ([implements]) ends and does to the
    bytes what the walk does to the tree ([implements_run]).  The file FdtPatch.v has the
    operations' instances and theorems. *)

From stdpp Require Import options.
From Stdlib Require Import Lia ZifyBool Ascii String.
From S2P Require Import Prelude.

Abbreviation FDT_MAGIC := 3490578157.
Abbreviation FDT_BEGIN_NODE := 1.
Abbreviation FDT_END_NODE := 2.
Abbreviation FDT_PROP := 3.
Abbreviation FDT_NOP := 4.
Abbreviation FDT_END := 9.

Definition bytes_of (s : string) : list Z := (fun c => Z.of_nat (nat_of_ascii c)) <$> list_ascii_of_string s.
Definition len {A} (l : list A) : Z := Z.of_nat (length l).

(** ** Access to the blob *)

Definition rd (p : list Z) (off : Z) : option Z := if off <? 0 then None else p !! Z.to_nat off.
Definition slice (p : list Z) (off n : Z) : option (list Z) :=
  if (0 <=? off) && (0 <=? n) && (off + n <=? len p) then Some (take (Z.to_nat n) (drop (Z.to_nat off) p)) else None.
Definition wr (p : list Z) (off : Z) (bs : list Z) : option (list Z) :=
  if (0 <=? off) && (off + len bs <=? len p) then Some (take (Z.to_nat off) p ++ bs ++ drop (Z.to_nat off + length bs) p) else None.

Definition be32 (p : list Z) (off : Z) : option Z :=
  b0 ← rd p off; b1 ← rd p (u32 (off + 1)); b2 ← rd p (u32 (off + 2)); b3 ← rd p (u32 (off + 3));
  Some (Z.lor (Z.lor (Z.lor (Z.shiftl b0 24) (Z.shiftl b1 16)) (Z.shiftl b2 8)) b3).

Definition be32_bytes (v : Z) : list Z := [u8 (Z.shiftr v 24); u8 (Z.shiftr v 16); u8 (Z.shiftr v 8); u8 v].
Definition put_be32 (p : list Z) (off v : Z) : option (list Z) := wr p off (be32_bytes v).

(** A loop whose body can fault: [None] without fuel, [Some None] for a fault. *)
Definition run {S R} (fuel : nat) (body : S -> option (S + R)) (s : S) : option (option R) :=
  loop fuel (fun s => match body s with None => inr None | Some (inl s) => inl s | Some (inr r) => inr (Some r) end) s.
Definition flat {R} (r : option (option R)) : option R := match r with Some x => x | None => None end.

(** [for (i = 0; i + nlen < slen; i++)] *)
Definition find_body (p : list Z) (off slen : Z) (name : list Z) (i : Z) : option (Z + Z) :=
  let nlen := len name in
  if negb (u32 (i + nlen) <? slen) then Some (inr (-1))
  else
    first ← (if i =? 0 then Some true else c ← rd p (off + (i - 1)); Some (c =? 0));
    same ← (if (first : bool) then s ← slice p (off + i) nlen; Some (bool_decide (s = name)) else Some false);
    hit ← (if (same : bool) then c ← rd p (off + u32 (i + nlen)); Some (c =? 0) else Some false);
    if (hit : bool) then Some (inr (i32 i)) else Some (inl (u32 (i + 1))).

Definition find_string_offset (p : list Z) (off slen : Z) (name : list Z) : option Z :=
  if slen <? len name + 1 then Some (-1) else flat (run (S (Z.to_nat slen)) (find_body p off slen name) 0).

(** [for (i = 0; i < cells; i++) put_be32(p + i * 4, (uint32_t)(value >> shift));] with
    [shift = (cells - 1 - i) * 32]; a shift by the width of [value] or more is undefined. *)
Definition encode_cells (p : list Z) (off cells value : Z) : option (list Z) :=
  foldl (fun p i =>
    p ← p;
    let shift := (cells - 1 - i) * 32 in
    if 64 <=? shift then None else put_be32 p (off + i * 4) (u32 (Z.shiftr value shift))) (Some p) (seqZ 0 cells).

(** [(pos + 3) & ~3u] *)
Definition align4 (pos : Z) : Z := Z.land (u32 (pos + 3)) (u32 (Z.lnot 3)).

(** [while (pos < end && dtb[pos] != 0) pos++;] *)
Definition name_body (p : list Z) (stop : Z) (pos : Z) : option (Z + Z) :=
  if pos <? stop then c ← rd p pos; if c =? 0 then Some (inr pos) else Some (inl (u32 (pos + 1))) else Some (inr pos).
Definition name_end (p : list Z) (stop pos : Z) : option Z := flat (run (S (Z.to_nat stop)) (name_body p stop) pos).

(** What the walks find at a position; the position is behind the token. *)
Inductive tok :=
  | Begin (name_start name_stop : Z)
  | Property (plen nameoff : Z)
  | Short
  | EndNode
  | Nop
  | Other.

Definition token_at (p : list Z) (stop pos : Z) : option tok :=
  token ← be32 p pos;
  let pos := u32 (pos + 4) in
  if token =? FDT_BEGIN_NODE then e ← name_end p stop pos; Some (Begin pos e)
  else if token =? FDT_PROP then
    if stop <? u32 (pos + 8) then Some Short
    else l ← be32 p pos; n ← be32 p (u32 (pos + 4)); Some (Property l n)
  else if token =? FDT_END_NODE then Some EndNode
  else if token =? FDT_NOP then Some Nop
  else Some Other.

(** [pos = data + ((len + 3) & ~3u)] with [data = pos + 8] *)
Definition after_prop (pos plen : Z) : Z := u32 (u32 (pos + 8) + align4 plen).

(** [dtb_size >= 40 && be32(dtb, 0) == FDT_MAGIC] *)
Definition header_ok (p : list Z) : option bool :=
  if len p <? 40 then Some false else m ← be32 p 0; Some (m =? FDT_MAGIC).

(** ** The patches *)

(** A walk takes at most one step per token. *)
Definition walk_fuel (p : list Z) : nat := S (length p).

Definition initrd_body (start_noff end_noff initrd_start initrd_end : Z) (st : list Z * Z * Z) : option (list Z * Z * Z + list Z * Z) :=
  let '(dtb, pos, patched) := st in
  if negb (u32 (pos + 4) <=? len dtb) then Some (inr (dtb, patched))
  else
    t ← token_at dtb (len dtb) pos;
    let pos := u32 (pos + 4) in
    match t with
    | Begin _ e => Some (inl (dtb, align4 (u32 (e + 1)), patched))
    | Short => Some (inr (dtb, patched))
    | Property plen nameoff =>
        let data := u32 (pos + 8) in
        '(dtb, patched) ←
          (if ((plen =? 4) || (plen =? 8)) && (u32 (data + plen) <=? len dtb) then
             let cells := if plen =? 8 then 2 else 1 in
             if i32 nameoff =? start_noff then dtb ← encode_cells dtb data cells initrd_start; Some (dtb, patched + 1)
             else if i32 nameoff =? end_noff then dtb ← encode_cells dtb data cells initrd_end; Some (dtb, patched + 1)
             else Some (dtb, patched)
           else Some (dtb, patched));
        Some (inl (dtb, after_prop pos plen, patched))
    | EndNode | Nop => Some (inl (dtb, pos, patched))
    | Other => Some (inr (dtb, patched))
    end.

(** The return value and the blob; the cache maintenance after a patch leaves the bytes. *)
Definition guest_loader_patch_dtb_initrd (dtb : list Z) (initrd_start initrd_end : Z) : option (Z * list Z) :=
  ok ← header_ok dtb;
  if negb (ok : bool) then Some (-1, dtb)
  else
    off_struct ← be32 dtb 8; off_strings ← be32 dtb 12; size_strings ← be32 dtb 32;
    if len dtb <? u32 (off_strings + size_strings) then Some (-1, dtb)
    else
      start_noff ← find_string_offset dtb off_strings size_strings (bytes_of "linux,initrd-start");
      end_noff ← find_string_offset dtb off_strings size_strings (bytes_of "linux,initrd-end");
      if (start_noff <? 0) && (end_noff <? 0) then Some (-1, dtb)
      else
        '(dtb, patched) ← flat (run (walk_fuel dtb) (initrd_body start_noff end_noff initrd_start initrd_end) (dtb, off_struct, 0));
        Some (if 0 <? patched then 0 else -1, dtb).

(** The state of the walk for the memory node: cells, depth, whether inside, the depth of the
    memory node and the number of patches. *)
Record mem_walk := mk_mw { mw_ac : Z; mw_sc : Z; mw_depth : Z; mw_in : bool; mw_mdepth : Z; mw_patched : Z }.

Definition memory_body (reg_noff ac_noff sc_noff mem_base mem_size : Z) (st : list Z * Z * mem_walk) : option (list Z * Z * mem_walk + list Z * Z) :=
  let '(dtb, pos, w) := st in
  if negb (u32 (pos + 4) <=? len dtb) then Some (inr (dtb, mw_patched w))
  else
    t ← token_at dtb (len dtb) pos;
    let pos := u32 (pos + 4) in
    match t with
    | Begin name_start e =>
        let depth := u32 (mw_depth w + 1) in
        hit ← (if (depth =? 2) && (6 <=? u32 (e - name_start)) then s ← slice dtb name_start 6; Some (bool_decide (s = bytes_of "memory")) else Some false);
        let w := if (hit : bool) then mk_mw (mw_ac w) (mw_sc w) depth true depth (mw_patched w)
                 else mk_mw (mw_ac w) (mw_sc w) depth (mw_in w) (mw_mdepth w) (mw_patched w) in
        Some (inl (dtb, align4 (u32 (e + 1)), w))
    | Short => Some (inr (dtb, mw_patched w))
    | Property plen nameoff =>
        let data := u32 (pos + 8) in
        w ← (if (mw_depth w =? 1) && (plen =? 4) && (u32 (data + 4) <=? len dtb) then
               if i32 nameoff =? ac_noff then c ← be32 dtb data; Some (mk_mw c (mw_sc w) (mw_depth w) (mw_in w) (mw_mdepth w) (mw_patched w))
               else if i32 nameoff =? sc_noff then c ← be32 dtb data; Some (mk_mw (mw_ac w) c (mw_depth w) (mw_in w) (mw_mdepth w) (mw_patched w))
               else Some w
             else Some w);
        '(dtb, w) ←
          (if mw_in w && (i32 nameoff =? reg_noff) && (u32 (u32 (mw_ac w + mw_sc w) * 4) =? plen) && (u32 (data + plen) <=? len dtb) then
             dtb ← encode_cells dtb data (i32 (mw_ac w)) mem_base;
             dtb ← encode_cells dtb (data + u32 (mw_ac w * 4)) (i32 (mw_sc w)) mem_size;
             Some (dtb, mk_mw (mw_ac w) (mw_sc w) (mw_depth w) (mw_in w) (mw_mdepth w) (mw_patched w + 1))
           else Some (dtb, w));
        Some (inl (dtb, after_prop pos plen, w))
    | EndNode =>
        let inm := if mw_in w && (mw_depth w =? mw_mdepth w) then false else mw_in w in
        let depth := if 0 <? mw_depth w then mw_depth w - 1 else mw_depth w in
        Some (inl (dtb, pos, mk_mw (mw_ac w) (mw_sc w) depth inm (mw_mdepth w) (mw_patched w)))
    | Nop => Some (inl (dtb, pos, w))
    | Other => Some (inr (dtb, mw_patched w))
    end.

Definition guest_loader_patch_dtb_memory (dtb : list Z) (mem_base mem_size : Z) : option (Z * list Z) :=
  ok ← header_ok dtb;
  if negb (ok : bool) then Some (-1, dtb)
  else
    off_struct ← be32 dtb 8; off_strings ← be32 dtb 12; size_strings ← be32 dtb 32;
    if len dtb <? u32 (off_strings + size_strings) then Some (-1, dtb)
    else
      reg_noff ← find_string_offset dtb off_strings size_strings (bytes_of "reg");
      ac_noff ← find_string_offset dtb off_strings size_strings (bytes_of "#address-cells");
      sc_noff ← find_string_offset dtb off_strings size_strings (bytes_of "#size-cells");
      '(dtb, patched) ← flat (run (walk_fuel dtb) (memory_body reg_noff ac_noff sc_noff mem_base mem_size) (dtb, off_struct, mk_mw 2 2 0 false 0 0));
      Some (if 0 <? patched then 0 else -1, dtb).

(** [memset(dtb + data, 0, len); memcpy(dtb + data, bootargs, new_len);] *)
Definition bootargs_body (bootargs_noff : Z) (bootargs : list Z) (st : list Z * Z) : option (list Z * Z + Z * list Z) :=
  let '(dtb, pos) := st in
  if negb (u32 (pos + 4) <=? len dtb) then Some (inr (-1, dtb))
  else
    t ← token_at dtb (len dtb) pos;
    let pos := u32 (pos + 4) in
    match t with
    | Begin _ e => Some (inl (dtb, align4 (u32 (e + 1))))
    | Short => Some (inr (-1, dtb))
    | Property plen nameoff =>
        let data := u32 (pos + 8) in
        if (i32 nameoff =? bootargs_noff) && (u32 (data + plen) <=? len dtb) then
          if plen <? len bootargs + 1 then Some (inr (-1, dtb))
          else
            dtb ← wr dtb data (replicate (Z.to_nat plen) 0);
            dtb ← wr dtb data (bootargs ++ [0]);
            Some (inr (0, dtb))
        else Some (inl (dtb, after_prop pos plen))
    | EndNode | Nop => Some (inl (dtb, pos))
    | Other => Some (inr (-1, dtb))
    end.

Definition guest_loader_patch_dtb_bootargs (dtb : list Z) (bootargs : list Z) : option (Z * list Z) :=
  ok ← header_ok dtb;
  if negb (ok : bool) then Some (-1, dtb)
  else
    off_struct ← be32 dtb 8; off_strings ← be32 dtb 12; size_strings ← be32 dtb 32;
    if len dtb <? u32 (off_strings + size_strings) then Some (-1, dtb)
    else
      bootargs_noff ← find_string_offset dtb off_strings size_strings (bytes_of "bootargs");
      if bootargs_noff <? 0 then Some (-1, dtb)
      else flat (run (walk_fuel dtb) (bootargs_body bootargs_noff bootargs) (dtb, off_struct)).

(** ** Nodes *)

(** The end of the node whose content starts at [pos]; -1 if there is none. *)
Definition node_end_body (dtb : list Z) (stop : Z) (st : Z * Z) : option (Z * Z + Z) :=
  let '(pos, depth) := st in
  if negb (u32 (pos + 4) <=? stop) then Some (inr (-1))
  else
    t ← token_at dtb stop pos;
    let pos := u32 (pos + 4) in
    match t with
    | Begin _ e => if stop <=? e then Some (inr (-1)) else Some (inl (align4 (u32 (e + 1)), u32 (depth + 1)))
    | Short => Some (inr (-1))
    | Property plen _ => let pos := u32 (pos + u32 (8 + align4 plen)) in if stop <? pos then Some (inr (-1)) else Some (inl (pos, depth))
    | EndNode => if u32 (depth - 1) =? 0 then Some (inr pos) else Some (inl (pos, u32 (depth - 1)))
    | Nop => Some (inl (pos, depth))
    | Other => Some (inr (-1))
    end.

Definition dtb_node_end (dtb : list Z) (pos stop : Z) : option Z := flat (run (walk_fuel dtb) (node_end_body dtb stop) (pos, 1)).

(** [for (p = start; p + 4 <= end; p += 4) put_be32(dtb + p, FDT_NOP);] *)
Definition nop_body (stop : Z) (st : list Z * Z) : option (list Z * Z + list Z) :=
  let '(dtb, p) := st in
  if u32 (p + 4) <=? stop then dtb ← put_be32 dtb p FDT_NOP; Some (inl (dtb, u32 (p + 4))) else Some (inr dtb).
Definition dtb_nop_range (dtb : list Z) (start stop : Z) : option (list Z) := flat (run (walk_fuel dtb) (nop_body stop) (dtb, start)).

(** The first of the names that is the name of the node. *)
Fixpoint name_matches (dtb : list Z) (name_start nlen : Z) (names : list (list Z)) : option bool :=
  match names with
  | [] => Some false
  | n :: names =>
      if nlen =? len n then s ← slice dtb name_start (len n); if bool_decide (s = n) then Some true else name_matches dtb name_start nlen names
      else name_matches dtb name_start nlen names
  end.

Definition nop_nodes_body (end_struct : Z) (names : list (list Z)) (st : list Z * Z * Z) : option (list Z * Z * Z + list Z * Z) :=
  let '(dtb, pos, patched) := st in
  if negb (u32 (pos + 4) <=? end_struct) then Some (inr (dtb, patched))
  else
    let token_pos := pos in
    t ← token_at dtb end_struct pos;
    let pos := u32 (pos + 4) in
    match t with
    | Begin name_start e =>
        if end_struct <=? e then Some (inr (dtb, patched))
        else
          let nlen := u32 (e - name_start) in
          let pos := align4 (u32 (e + 1)) in
          hit ← name_matches dtb name_start nlen names;
          if (hit : bool) then
            node_end ← dtb_node_end dtb pos end_struct;
            if node_end <? 0 then Some (inl (dtb, pos, patched))
            else dtb ← dtb_nop_range dtb token_pos node_end; Some (inl (dtb, node_end, patched + 1))
          else Some (inl (dtb, pos, patched))
    | Short => Some (inr (dtb, patched))
    | Property plen _ => Some (inl (dtb, u32 (pos + u32 (8 + align4 plen)), patched))
    | EndNode | Nop => Some (inl (dtb, pos, patched))
    | Other => Some (inr (dtb, patched))
    end.

(** The return value, -1 or the number of nodes, and the blob. *)
Definition guest_loader_nop_dtb_nodes (dtb : list Z) (names : list (list Z)) : option (Z * list Z) :=
  ok ← header_ok dtb;
  if negb (ok : bool) then Some (-1, dtb)
  else
    off_struct ← be32 dtb 8; size_struct ← be32 dtb 36;
    let end_struct := u32 (off_struct + size_struct) in
    if len dtb <? end_struct then Some (-1, dtb)
    else
      '(dtb, patched) ← flat (run (walk_fuel dtb) (nop_nodes_body end_struct names) (dtb, off_struct, 0));
      Some (patched, dtb).

(** [strcmp(dtb + off, s) == 0] *)
Fixpoint str_equal (dtb : list Z) (off : Z) (s : list Z) : option bool :=
  match s with
  | [] => c ← rd dtb off; Some (c =? 0)
  | x :: s => c ← rd dtb off; if c =? x then str_equal dtb (off + 1) s else Some false
  end.

(** Depth, and the depth of the node once it is found. *)
Definition has_prop_body (dtb : list Z) (stop off_strings size_strings : Z) (node prop : list Z) (st : Z * Z * option Z) : option (Z * Z * option Z + Z) :=
  let '(pos, depth, hit) := st in
  if negb (u32 (pos + 4) <=? stop) then Some (inr 0)
  else
    t ← token_at dtb stop pos;
    let pos := u32 (pos + 4) in
    match t with
    | Begin name_start e =>
        let depth := depth + 1 in
        hit ← (match hit with
               | Some h => Some (Some h)
               | None => same ← str_equal dtb name_start node; Some (if (same : bool) then Some depth else None)
               end);
        Some (inl (Z.land (u32 (e + 4)) (u32 (Z.lnot 3)), depth, hit))
    | EndNode => if bool_decide (hit = Some depth) then Some (inr 0) else Some (inl (pos, depth - 1, hit))
    | Short => Some (inr (-1))
    | Property plen noff =>
        found ← (if bool_decide (hit = Some depth) && (noff <? size_strings) then str_equal dtb (off_strings + noff) prop else Some false);
        if (found : bool) then Some (inr 1) else Some (inl (align4 (u32 (u32 (pos + 8) + plen)), depth, hit))
    | Nop => Some (inl (pos, depth, hit))
    | Other => Some (inr 0)
    end.

Definition guest_loader_dtb_node_has_prop (dtb : list Z) (node prop : list Z) : option Z :=
  ok ← header_ok dtb;
  if negb (ok : bool) then Some (-1)
  else
    off_struct ← be32 dtb 8; size_struct ← be32 dtb 36; off_strings ← be32 dtb 12; size_strings ← be32 dtb 32;
    if (len dtb <? u32 (off_struct + size_struct)) || (len dtb <? u32 (off_strings + size_strings)) then Some (-1)
    else flat (run (walk_fuel dtb) (has_prop_body dtb (u32 (off_struct + size_struct)) off_strings size_strings node prop) (off_struct, 0, None)).

(** ** Access lemmas *)

Lemma len_app {A} (l k : list A) : len (l ++ k) = len l + len k.
Proof. unfold len. rewrite length_app. lia. Qed.
Lemma len_cons {A} (x : A) l : len (x :: l) = 1 + len l.
Proof. unfold len. cbn. lia. Qed.
Lemma len_nonneg {A} (l : list A) : 0 <= len l.
Proof. unfold len. lia. Qed.
Lemma to_nat_len {A} (l : list A) : Z.to_nat (len l) = length l.
Proof. unfold len. lia. Qed.

Lemma rd_at pre bs rest i x : bs !! Z.to_nat i = Some x -> 0 <= i -> rd (pre ++ bs ++ rest) (len pre + i) = Some x.
Proof.
  intros Hx Hi. pose proof (len_nonneg pre). unfold rd. case_if; [lia|].
  rewrite lookup_app_r by (unfold len; lia).
  replace (Z.to_nat (len pre + i) - length pre)%nat with (Z.to_nat i) by (unfold len; lia).
  apply lookup_app_l_Some, Hx.
Qed.

Lemma rd_here pre x rest : rd (pre ++ x :: rest) (len pre) = Some x.
Proof. replace (len pre) with (len pre + 0) by lia. by apply (rd_at pre [x] rest 0). Qed.

Lemma slice_at pre bs rest : slice (pre ++ bs ++ rest) (len pre) (len bs) = Some bs.
Proof.
  unfold slice. pose proof (len_nonneg pre). pose proof (len_nonneg bs). pose proof (len_nonneg rest).
  rewrite !len_app. case_if; [|lia]. rewrite !to_nat_len, drop_app_length, take_app_length. done.
Qed.

Lemma wr_at pre bs rest bs' : length bs' = length bs -> wr (pre ++ bs ++ rest) (len pre) bs' = Some (pre ++ bs' ++ rest).
Proof.
  intros Hl. unfold wr. pose proof (len_nonneg pre). pose proof (len_nonneg rest).
  rewrite !len_app. case_if; [|unfold len in *; lia].
  rewrite to_nat_len, take_app_length, Hl. do 3 f_equal. by rewrite drop_app_add, drop_app_length.
Qed.

Lemma length_be32 v : length (be32_bytes v) = 4%nat.
Proof. done. Qed.
Lemma len_be32 v : len (be32_bytes v) = 4.
Proof. done. Qed.

Lemma be32_assemble v : 0 <= v < U32_MOD ->
  Z.lor (Z.lor (Z.lor (Z.shiftl (u8 (Z.shiftr v 24)) 24) (Z.shiftl (u8 (Z.shiftr v 16)) 16)) (Z.shiftl (u8 (Z.shiftr v 8)) 8)) (u8 v) = v.
Proof.
  intros Hv. apply Z.bits_inj'. intros n Hn. unfold u8.
  rewrite !Z.lor_spec, !Z.shiftl_spec by lia.
  assert (Hb : forall x k, Z.testbit (x mod 256) k = (k <? 8) && Z.testbit x k).
  { intros x k. change 256 with (2 ^ 8). destruct (Z.ltb_spec k 8) as [H|H].
    - destruct (Z.ltb_spec k 0); [rewrite !Z.testbit_neg_r by lia; done|]. by rewrite Z.mod_pow2_bits_low.
    - rewrite Z.mod_pow2_bits_high by lia. done. }
  assert (Hs : forall k, 0 <= k -> Z.testbit (u8 (Z.shiftr v k)) (n - k) = (0 <=? n - k) && (n - k <? 8) && Z.testbit v n).
  { intros k Hk. unfold u8. rewrite Hb. destruct (Z.leb_spec 0 (n - k)) as [H|H].
    - rewrite Z.shiftr_spec by lia. by replace (n - k + k) with n by lia.
    - rewrite (Z.testbit_neg_r _ (n - k)) by lia. by rewrite andb_false_r. }
  unfold u8 in Hs. rewrite !Hs, Hb by lia.
  destruct (Z.ltb_spec n 32) as [H|H].
  - destruct (Z.testbit v n); rewrite ?andb_false_r, ?andb_true_r; [|done]. lia.
  - replace (Z.testbit v n) with false; [by rewrite !andb_false_r|].
    destruct (decide (v = 0)) as [->|]; [by rewrite Z.testbit_0_l|].
    symmetry. apply Z.bits_above_log2; [lia|]. apply Z.log2_lt_pow2; [lia|].
    apply Z.lt_le_trans with (2 ^ 32); [lia|]. apply Z.pow_le_mono_r; lia.
Qed.

Lemma be32_at pre v rest : 0 <= v < U32_MOD -> len pre < 2 ^ 31 -> be32 (pre ++ be32_bytes v ++ rest) (len pre) = Some v.
Proof.
  intros Hv Hp. pose proof (len_nonneg pre). unfold be32. rewrite !u32_id by lia.
  replace (len pre) with (len pre + 0) at 1 by lia.
  rewrite (rd_at pre (be32_bytes v) rest 0 (u8 (Z.shiftr v 24))) by done. cbn [mbind option_bind].
  rewrite (rd_at pre (be32_bytes v) rest 1 (u8 (Z.shiftr v 16))) by done. cbn [mbind option_bind].
  rewrite (rd_at pre (be32_bytes v) rest 2 (u8 (Z.shiftr v 8))) by done. cbn [mbind option_bind].
  rewrite (rd_at pre (be32_bytes v) rest 3 (u8 v)) by done. cbn [mbind option_bind].
  f_equal. by apply be32_assemble.
Qed.

Lemma align4_spec x : 0 <= x < 2 ^ 31 -> align4 x = (x + 3) / 4 * 4.
Proof.
  intros Hx. unfold align4. rewrite (u32_id (x + 3)) by lia.
  change (u32 (Z.lnot 3)) with (Z.land (Z.lnot (Z.ones 2)) (Z.ones 32)).
  rewrite Z.land_assoc, land_lnot_ones, Z.land_ones by lia. change (2 ^ 2) with 4.
  apply Z.mod_small. pose proof (Z.div_mod (x + 3) 4). pose proof (Z.mod_pos_bound (x + 3) 4). lia.
Qed.

(** ** The reference: items of a tree and their bytes *)

Unset Elimination Schemes.
Inductive item :=
  | INop
  | IProp (noff : Z) (val : list Z)
  | INode (name : list Z) (body : list item).

Set Elimination Schemes.

Section item_induction.
Context (P : item -> Prop).
Hypothesis (HN : P INop) (HP : forall n v, P (IProp n v)) (HB : forall n b, Forall P b -> P (INode n b)).
Fixpoint item_ind (i : item) : P i :=
  match i with
  | INop => HN
  | IProp n v => HP n v
  | INode n b => HB n b ((fix go l : Forall P l := match l with [] => Forall_nil_2 P | i :: l => Forall_cons_2 P i l (item_ind i) (go l) end) b)
  end.
End item_induction.

Definition padding (n : Z) : list Z := replicate (Z.to_nat ((- n) mod 4)) 0.
Definition begin_bytes (name : list Z) : list Z := be32_bytes FDT_BEGIN_NODE ++ name ++ 0 :: padding (len name + 1).
Definition prop_bytes (noff : Z) (val : list Z) : list Z :=
  be32_bytes FDT_PROP ++ be32_bytes (len val) ++ be32_bytes noff ++ val ++ padding (len val).

Fixpoint item_bytes (i : item) : list Z :=
  match i with
  | INop => be32_bytes FDT_NOP
  | IProp noff val => prop_bytes noff val
  | INode name body => begin_bytes name ++ flat_map item_bytes body ++ be32_bytes FDT_END_NODE
  end.
Definition items_bytes (l : list item) : list Z := flat_map item_bytes l.

(** Names have no NUL, name offsets are below the largest size of a blob. *)
Fixpoint item_wf (i : item) : Prop :=
  match i with
  | INop => True
  | IProp noff val => 0 <= noff < 2 ^ 31
  | INode name body => Forall (fun c => c <> 0) name /\ List.fold_right (fun i P => item_wf i /\ P) True body
  end.

Lemma wf_body body : List.fold_right (fun i P => item_wf i /\ P) True body <-> Forall item_wf body.
Proof. induction body as [|i l IH]; cbn; [by split|]. rewrite Forall_cons, IH. done. Qed.

(** The number of tokens, the steps a walk takes. *)
Fixpoint tokens (i : item) : nat :=
  match i with INop | IProp _ _ => 1 | INode _ body => 2 + list_sum (map tokens body) end.

Lemma len_padding n : len (padding n) = (- n) mod 4.
Proof. unfold padding, len. rewrite length_replicate. pose proof (Z.mod_pos_bound (- n) 4). lia. Qed.
Lemma align4_pad n : 0 <= n < 2 ^ 31 -> align4 n = n + len (padding n).
Proof.
  intros Hn. rewrite align4_spec, len_padding by lia.
  pose proof (Z.div_mod (n + 3) 4). pose proof (Z.mod_pos_bound (n + 3) 4).
  pose proof (Z.div_mod (- n) 4). pose proof (Z.mod_pos_bound (- n) 4). lia.
Qed.
Lemma len_begin name : len (begin_bytes name) = 4 + len name + 1 + len (padding (len name + 1)).
Proof. unfold begin_bytes. rewrite !len_app, len_cons, len_be32. lia. Qed.
Lemma len_prop noff val : len (prop_bytes noff val) = 12 + len val + len (padding (len val)).
Proof. unfold prop_bytes. rewrite !len_app, !len_be32. lia. Qed.

(** ** Reading a token *)

Lemma name_end_at pre name rest stop : Forall (fun c => c <> 0) name -> len pre + len name < stop -> stop < 2 ^ 31 ->
  name_end (pre ++ name ++ 0 :: rest) stop (len pre) = Some (len pre + len name).
Proof.
  intros Hn Hs Hm. pose proof (len_nonneg pre). pose proof (len_nonneg name). unfold name_end, run.
  match goal with |- flat (loop ?f ?b _) = _ =>
    destruct (loop_total (fun pos => len pre <= pos <= len pre + len name) (fun r => r = Some (len pre + len name)) (fun pos => len pre + len name - pos) b) with (fuel := f) (s := len pre) as (r & -> & ->) end; [|lia|lia|done].
  intros pos Hp. unfold name_body. case_if; [|lia].
  destruct (decide (pos = len pre + len name)) as [->|Hne].
  - rewrite app_assoc, <- len_app, rd_here. done.
  - destruct (name !! Z.to_nat (pos - len pre)) as [c|] eqn:Hc; [|apply lookup_ge_None in Hc; unfold len in *; lia].
    assert (rd (pre ++ name ++ 0 :: rest) pos = Some c) as -> by (replace pos with (len pre + (pos - len pre)) by lia; apply rd_at; [done|lia]).
    cbn. pose proof (Forall_lookup_1 _ _ _ _ Hn Hc). destruct (Z.eqb_spec c 0); [done|]. rewrite u32_id by lia. lia.
Qed.

Section at_position.
Context (pre rest : list Z) (stop : Z).

Lemma at_begin name : Forall (fun c => c <> 0) name -> len pre + len (begin_bytes name) <= stop -> stop < 2 ^ 31 ->
  token_at (pre ++ begin_bytes name ++ rest) stop (len pre) = Some (Begin (len pre + 4) (len pre + 4 + len name)).
Proof.
  intros Hn Hs Hm. pose proof (len_nonneg pre). pose proof (len_nonneg name). pose proof (len_nonneg (padding (len name + 1))).
  rewrite len_begin in Hs. unfold token_at, begin_bytes. rewrite <- !app_assoc, be32_at by lia. cbn [mbind option_bind].
  change (FDT_BEGIN_NODE =? FDT_BEGIN_NODE) with true. cbn [mbind option_bind]. rewrite u32_id by lia.
  rewrite app_assoc, <- app_comm_cons. replace (len pre + 4) with (len (pre ++ be32_bytes FDT_BEGIN_NODE)) by (rewrite len_app, len_be32; lia).
  rewrite name_end_at by (rewrite ?len_app, ?len_be32; done || lia). done.
Qed.

Lemma at_prop noff val : 0 <= noff < 2 ^ 31 -> len pre + len (prop_bytes noff val) <= stop -> stop < 2 ^ 31 ->
  token_at (pre ++ prop_bytes noff val ++ rest) stop (len pre) = Some (Property (len val) noff).
Proof.
  intros Hn Hs Hm. pose proof (len_nonneg pre). pose proof (len_nonneg val). pose proof (len_nonneg (padding (len val))).
  rewrite len_prop in Hs. unfold token_at, prop_bytes. rewrite <- !app_assoc, be32_at by lia. cbn [mbind option_bind].
  change (FDT_PROP =? FDT_BEGIN_NODE) with false. change (FDT_PROP =? FDT_PROP) with true. cbn [mbind option_bind].
  rewrite !u32_id by (rewrite ?u32_id; lia). case_if; [lia|].
  replace (len pre + 4) with (len (pre ++ be32_bytes FDT_PROP)) by (rewrite len_app, len_be32; lia).
  rewrite app_assoc, be32_at by (rewrite ?len_app, ?len_be32; lia). cbn [mbind option_bind].
  replace (len (pre ++ be32_bytes FDT_PROP) + 4) with (len ((pre ++ be32_bytes FDT_PROP) ++ be32_bytes (len val))) by (rewrite !len_app, !len_be32; lia).
  rewrite app_assoc, be32_at by (rewrite ?len_app, ?len_be32; lia). done.
Qed.

Lemma at_end_node : len pre < 2 ^ 31 -> token_at (pre ++ be32_bytes FDT_END_NODE ++ rest) stop (len pre) = Some EndNode.
Proof. intros Hp. unfold token_at. by rewrite be32_at. Qed.
Lemma at_nop : len pre < 2 ^ 31 -> token_at (pre ++ be32_bytes FDT_NOP ++ rest) stop (len pre) = Some Nop.
Proof. intros Hp. unfold token_at. by rewrite be32_at. Qed.
Lemma at_end : len pre < 2 ^ 31 -> token_at (pre ++ be32_bytes FDT_END ++ rest) stop (len pre) = Some Other.
Proof. intros Hp. unfold token_at. by rewrite be32_at. Qed.
End at_position.

(** ** Walks

    A walk that treats tokens one by one is given by what it does on the three kinds of
    tokens; [None] is a step that is not defined, [inr] leaves the walk. *)

Section steps.
Context {X Y : Type} (body : X -> option (X + Y)).

Definition advances (n : nat) (s s' : X) : Prop := forall fuel, run (n + fuel) body s = run fuel body s'.
Definition exits (n : nat) (s : X) (y : Y) : Prop := forall fuel, run (n + fuel) body s = Some (Some y).

Lemma advances_refl s : advances 0 s s.
Proof. done. Qed.
Lemma advances_step s s' : body s = Some (inl s') -> advances 1 s s'.
Proof. intros H fuel. unfold run. cbn. by rewrite H. Qed.
Lemma exits_step s y : body s = Some (inr y) -> exits 1 s y.
Proof. intros H fuel. unfold run. cbn. by rewrite H. Qed.
Lemma advances_trans n m s1 s2 s3 : advances n s1 s2 -> advances m s2 s3 -> advances (n + m) s1 s3.
Proof. intros H1 H2 fuel. by rewrite <- Nat.add_assoc, H1, H2. Qed.
Lemma advances_exits n m s1 s2 y : advances n s1 s2 -> exits m s2 y -> exits (n + m) s1 y.
Proof. intros H1 H2 fuel. by rewrite <- Nat.add_assoc, H1, H2. Qed.
Lemma exits_more n m s y : exits n s y -> exits (n + m) s y.
Proof. intros H fuel. by rewrite <- Nat.add_assoc, H. Qed.
Lemma exits_run n fuel s y : exits n s y -> (n <= fuel)%nat -> run fuel body s = Some (Some y).
Proof. intros H Hf. replace fuel with (n + (fuel - n))%nat by lia. apply H. Qed.
End steps.

Record walker (S R : Type) := mk_walker {
  on_begin : list Z -> S -> S;
  on_prop : Z -> list Z -> S -> option (list Z * (S + R));
  on_end : S -> option (S + R)
}.
Arguments mk_walker {S R}.
Arguments on_begin {S R}.
Arguments on_prop {S R}.
Arguments on_end {S R}.

Section walk_items.
Context {S R : Type} (w : walker S R).

(** One item after the other, until one leaves the walk. *)
Definition walk_list (walk_item : item -> S -> option (item * (S + R))) : list item -> S -> option (list item * (S + R)) :=
  fix go l s :=
    match l with
    | [] => Some ([], inl s)
    | i :: l =>
        '(i, r) ← walk_item i s;
        match r with
        | inl s => '(l, r) ← go l s; Some (i :: l, r)
        | inr r => Some (i :: l, inr r)
        end
    end.

Fixpoint walk_item (i : item) (s : S) : option (item * (S + R)) :=
  match i with
  | INop => Some (INop, inl s)
  | IProp noff val => '(val, r) ← on_prop w noff val s; Some (IProp noff val, r)
  | INode name body =>
      '(body, r) ← walk_list walk_item body (on_begin w name s);
      match r with
      | inl s => r ← on_end w s; Some (INode name body, r)
      | inr r => Some (INode name body, inr r)
      end
  end.
Definition walk_items := walk_list walk_item.
End walk_items.

Lemma items_bytes_cons i l : items_bytes (i :: l) = item_bytes i ++ items_bytes l.
Proof. done. Qed.

Lemma begin_mod4 name : len (begin_bytes name) mod 4 = 0.
Proof.
  rewrite len_begin, len_padding.
  pose proof (Z.div_mod (- (len name + 1)) 4). pose proof (Z.mod_pos_bound (- (len name + 1)) 4).
  apply Z.mod_divide; [lia|]. exists (1 - (- (len name + 1)) / 4). lia.
Qed.
Lemma prop_mod4 noff val : len (prop_bytes noff val) mod 4 = 0.
Proof.
  rewrite len_prop, len_padding. pose proof (Z.div_mod (- len val) 4). pose proof (Z.mod_pos_bound (- len val) 4).
  apply Z.mod_divide; [lia|]. exists (3 - (- len val) / 4). lia.
Qed.
Lemma mod4_add a b : a mod 4 = 0 -> b mod 4 = 0 -> (a + b) mod 4 = 0.
Proof. intros Ha Hb. by rewrite Z.add_mod, Ha, Hb by lia. Qed.

(** Items take a multiple of four bytes, at least four per token. *)
Definition sized (n : nat) (bs : list Z) : Prop := len bs mod 4 = 0 /\ 4 * Z.of_nat n <= len bs.
Lemma sized_app n m a b : sized n a -> sized m b -> sized (n + m) (a ++ b).
Proof. unfold sized. rewrite len_app. intros [? ?] [? ?]. split; [by apply mod4_add|lia]. Qed.
Lemma sized_items l : Forall (fun i => sized (tokens i) (item_bytes i)) l -> sized (list_sum (map tokens l)) (items_bytes l).
Proof. induction 1 as [|i l Hi _ IH]; [done|]. by apply sized_app. Qed.
Lemma sized_item i : sized (tokens i) (item_bytes i).
Proof.
  induction i as [|n v|n b IH] using item_ind; cbn [tokens item_bytes]; [done| |].
  - split; [apply prop_mod4|]. rewrite len_prop. pose proof (len_nonneg v). pose proof (len_nonneg (padding (len v))). lia.
  - replace (2 + list_sum (map tokens b))%nat with (1 + (list_sum (map tokens b) + 1))%nat by lia.
    apply sized_app; [|apply sized_app; [by apply sized_items|done]].
    split; [apply begin_mod4|]. rewrite len_begin. pose proof (len_nonneg n). pose proof (len_nonneg (padding (len n + 1))). lia.
Qed.
Lemma items_sized l : sized (list_sum (map tokens l)) (items_bytes l).
Proof. apply sized_items, Forall_true, sized_item. Qed.

(** A loop body over bytes implements a walker: [emb] is its state at a position of the blob,
    [fin] its result; [I] is what the body relies on of the blob, [stop] the end it checks and [out] its result at
    [FDT_END]. *)
Section implements.
Context {S R X Y : Type} (w : walker S R) (emb : list Z -> Z -> S -> X) (fin : list Z -> R -> Y).
Context (body : X -> option (X + Y)) (I : list Z -> Prop) (stop : Z) (out : S -> R).

Definition goes_on (pre bs rest : list Z) (r : S + R) : X + Y :=
  match r with inl s => inl (emb (pre ++ bs ++ rest) (len (pre ++ bs)) s) | inr y => inr (fin (pre ++ bs ++ rest) y) end.

Record implements : Prop := mk_implements {
  imp_begin : forall pre rest name s,
    I (pre ++ begin_bytes name ++ rest) -> len pre mod 4 = 0 -> Forall (fun c => c <> 0) name -> len pre + len (begin_bytes name) <= stop ->
    body (emb (pre ++ begin_bytes name ++ rest) (len pre) s) = Some (goes_on pre (begin_bytes name) rest (inl (on_begin w name s)));
  imp_prop : forall pre rest noff val s val' r,
    I (pre ++ prop_bytes noff val ++ rest) -> len pre mod 4 = 0 -> 0 <= noff < 2 ^ 31 -> len pre + len (prop_bytes noff val) <= stop ->
    on_prop w noff val s = Some (val', r) ->
    len val' = len val /\ I (pre ++ prop_bytes noff val' ++ rest) /\
    body (emb (pre ++ prop_bytes noff val ++ rest) (len pre) s) = Some (goes_on pre (prop_bytes noff val') rest r);
  imp_end : forall pre rest s r,
    I (pre ++ be32_bytes FDT_END_NODE ++ rest) -> len pre + 4 <= stop -> on_end w s = Some r ->
    body (emb (pre ++ be32_bytes FDT_END_NODE ++ rest) (len pre) s) = Some (goes_on pre (be32_bytes FDT_END_NODE) rest r);
  imp_nop : forall pre rest s,
    I (pre ++ be32_bytes FDT_NOP ++ rest) -> len pre + 4 <= stop ->
    body (emb (pre ++ be32_bytes FDT_NOP ++ rest) (len pre) s) = Some (goes_on pre (be32_bytes FDT_NOP) rest (inl s));
  imp_stop : forall pre rest s,
    I (pre ++ be32_bytes FDT_END ++ rest) -> len pre + 4 <= stop ->
    body (emb (pre ++ be32_bytes FDT_END ++ rest) (len pre) s) = Some (inr (fin (pre ++ be32_bytes FDT_END ++ rest) (out s)))
}.

(** [n] steps from the front of [bs], which become [bs'], with result [r]. *)
Definition walked (n : nat) (bs bs' : list Z) (s : S) (r : S + R) : Prop :=
  forall pre rest, I (pre ++ bs ++ rest) -> len pre mod 4 = 0 -> len pre + len bs <= stop ->
    I (pre ++ bs' ++ rest) /\ len bs' = len bs /\
    match goes_on pre bs' rest r with
    | inl x => advances body n (emb (pre ++ bs ++ rest) (len pre) s) x
    | inr y => exits body n (emb (pre ++ bs ++ rest) (len pre) s) y
    end.

Lemma walked_step bs bs' s r :
  (forall pre rest, I (pre ++ bs ++ rest) -> len pre mod 4 = 0 -> len pre + len bs <= stop ->
    I (pre ++ bs' ++ rest) /\ len bs' = len bs /\ body (emb (pre ++ bs ++ rest) (len pre) s) = Some (goes_on pre bs' rest r)) ->
  walked 1 bs bs' s r.
Proof.
  intros H pre rest HI Hm Hs. destruct (H pre rest HI Hm Hs) as (? & ? & Hb). split; [done|]. split; [done|].
  destruct (goes_on pre bs' rest r); [by apply advances_step|by apply exits_step].
Qed.

Lemma walked_app n m a a' b b' s s' r : len a mod 4 = 0 ->
  walked n a a' s (inl s') -> walked m b b' s' r -> walked (n + m) (a ++ b) (a' ++ b') s r.
Proof.
  intros Ha H1 H2 pre rest HI Hm Hs. rewrite len_app in *. pose proof (len_nonneg b). rewrite <- app_assoc in HI.
  destruct (H1 pre (b ++ rest) HI Hm ltac:(lia)) as (HI1 & Hl1 & Hadv). cbn [goes_on] in Hadv. rewrite app_assoc in HI1.
  destruct (H2 (pre ++ a') rest HI1) as (HI2 & Hl2 & Hr); [rewrite len_app, Hl1; by apply mod4_add|rewrite len_app; lia|].
  rewrite len_app, <- !app_assoc in *. split; [done|]. split; [lia|].
  unfold goes_on in *. rewrite <- !app_assoc in *. destruct r; [eapply advances_trans|eapply advances_exits]; eassumption.
Qed.

Lemma walked_exit n m a a' b s y : walked n a a' s (inr y) -> walked (n + m) (a ++ b) (a' ++ b) s (inr y).
Proof.
  intros H1 pre rest HI Hm Hs. rewrite !len_app in *. pose proof (len_nonneg b). rewrite <- app_assoc in *.
  destruct (H1 pre (b ++ rest) HI Hm ltac:(lia)) as (HI1 & Hl1 & Hadv). rewrite app_assoc in HI1.
  split; [by rewrite <- !app_assoc in *|]. split; [lia|]. cbn in *. rewrite <- !app_assoc in *. by apply exits_more.
Qed.

Lemma walked_nil s : walked 0 [] [] s (inl s).
Proof. intros pre rest HI Hm Hs. cbn. rewrite app_nil_r. split; [done|]. split; [done|]. apply advances_refl. Qed.

Section proof.
Hypothesis Himp : implements.

Lemma walked_items l : Forall (fun i => forall s i' r, item_wf i -> walk_item w i s = Some (i', r) -> walked (tokens i) (item_bytes i) (item_bytes i') s r) l ->
  forall s l' r, Forall item_wf l -> walk_items w l s = Some (l', r) -> walked (list_sum (map tokens l)) (items_bytes l) (items_bytes l') s r.
Proof.
  induction 1 as [|i l Hi _ IH]; intros s l' r Hwf Hw; cbn in Hw; [injection Hw as <- <-; apply walked_nil|].
  apply Forall_cons in Hwf as [Hwi Hwl]. destruct (walk_item w i s) as [[i' ri]|] eqn:Hwi'; [|done]. cbn in Hw.
  specialize (Hi _ _ _ Hwi Hwi'). destruct ri as [s'|y].
  - fold (walk_items w) in Hw. destruct (walk_items w l s') as [[l'' r']|] eqn:Hl; [|done]. injection Hw as <- <-.
    rewrite !items_bytes_cons. eapply walked_app; [apply (sized_item i)|exact Hi|by apply IH].
  - injection Hw as <- <-. rewrite !items_bytes_cons. by apply walked_exit.
Qed.

Lemma walked_item i : forall s i' r, item_wf i -> walk_item w i s = Some (i', r) -> walked (tokens i) (item_bytes i) (item_bytes i') s r.
Proof using Himp.
  induction i as [|noff val|name b IH] using item_ind; intros s i' r Hwf Hw; cbn in Hw.
  - injection Hw as <- <-. apply walked_step. intros pre rest HI Hm Hs. split; [done|]. split; [done|]. by apply imp_nop.
  - destruct (on_prop w noff val s) as [[val' r']|] eqn:Hp; [|done]. injection Hw as <- <-.
    apply walked_step. intros pre rest HI Hm Hs. destruct (imp_prop Himp pre rest noff val s val' r' HI Hm Hwf Hs Hp) as (Hl & HI' & Hb).
    split; [done|]. split; [cbn [item_bytes]; by rewrite !len_prop, Hl|done].
  - destruct Hwf as [Hn Hwf%wf_body]. fold (walk_items w) in Hw.
    destruct (walk_items w b (on_begin w name s)) as [[b' rb]|] eqn:Hb; [|done]. cbn in Hw.
    pose proof (walked_items b IH _ _ _ Hwf Hb) as Hwalk. fold (items_bytes b).
    assert (Hbeg : walked 1 (begin_bytes name) (begin_bytes name) s (inl (on_begin w name s))).
    { apply walked_step. intros pre rest HI Hm Hs. split; [done|]. split; [done|]. by apply imp_begin. }
    cbn [tokens item_bytes]. fold (items_bytes b). replace (2 + list_sum (map tokens b))%nat with (1 + (list_sum (map tokens b) + 1))%nat by lia.
    destruct rb as [s'|y].
    + destruct (on_end w s') as [re|] eqn:He; [|done]. injection Hw as <- <-. cbn [item_bytes]. fold (items_bytes b').
      eapply walked_app; [apply begin_mod4|exact Hbeg|]. eapply walked_app; [apply items_sized|exact Hwalk|].
      apply walked_step. intros pre rest HI Hm Hs. split; [done|]. split; [done|]. by apply imp_end.
    + injection Hw as <- <-. cbn [item_bytes]. fold (items_bytes b').
      eapply walked_app; [apply begin_mod4|exact Hbeg|]. by apply walked_exit.
Qed.

(** The whole walk: the items, then [FDT_END]. *)
Lemma implements_run l s l' r pre post fuel :
  Forall item_wf l -> walk_items w l s = Some (l', r) -> I (pre ++ items_bytes l ++ be32_bytes FDT_END ++ post) ->
  len pre mod 4 = 0 -> len pre + len (items_bytes l) + 4 <= stop -> len (items_bytes l) < Z.of_nat fuel ->
  run fuel body (emb (pre ++ items_bytes l ++ be32_bytes FDT_END ++ post) (len pre) s) =
    Some (Some (fin (pre ++ items_bytes l' ++ be32_bytes FDT_END ++ post) (match r with inl s => out s | inr r => r end))).
Proof using Himp.
  intros Hwf Hw HI Hm Hs Hf. destruct (items_sized l) as [Hs4 Hsz].
  assert (Hall : Forall (fun i => forall s i' r, item_wf i -> walk_item w i s = Some (i', r) -> walked (tokens i) (item_bytes i) (item_bytes i') s r) l)
    by apply Forall_true, walked_item.
  destruct (walked_items l Hall s l' r Hwf Hw pre (be32_bytes FDT_END ++ post) HI Hm ltac:(lia)) as (HI' & Hl & Hr).
  apply exits_run with (n := (list_sum (map tokens l) + 1)%nat); [|lia].
  destruct r as [s'|y]; [|by apply exits_more]. eapply advances_exits; [exact Hr|]. apply exits_step.
  rewrite app_assoc in *. rewrite (imp_stop Himp); [done|done|rewrite len_app; lia].
Qed.
End proof.
End implements.

(** ** What the loops do at one token *)

(** Big-endian bytes of a number. *)
Fixpoint be_bytes (n : nat) (v : Z) : list Z :=
  match n with O => [] | S n => u8 (Z.shiftr v (8 * Z.of_nat n)) :: be_bytes n v end.
Lemma length_be_bytes n v : length (be_bytes n v) = n.
Proof. induction n; cbn; congruence. Qed.

Lemma u8_shiftr_u32 v k j : 0 <= k -> 0 <= j -> k <= 24 -> u8 (Z.shiftr (u32 (Z.shiftr v j)) k) = u8 (Z.shiftr v (j + k)).
Proof.
  intros Hk Hj Hm. unfold u8, u32. change 256 with (2 ^ 8). change U32_MOD with (2 ^ 32). apply Z.bits_inj'. intros n Hn.
  destruct (Z.ltb_spec n 8).
  - rewrite !Z.mod_pow2_bits_low by lia. rewrite Z.shiftr_spec, Z.mod_pow2_bits_low, !Z.shiftr_spec by lia. f_equal. lia.
  - by rewrite !Z.mod_pow2_bits_high by lia.
Qed.

Lemma be32_be_bytes v j : 0 <= j -> be32_bytes (u32 (Z.shiftr v j)) = [u8 (Z.shiftr v (j + 24)); u8 (Z.shiftr v (j + 16)); u8 (Z.shiftr v (j + 8)); u8 (Z.shiftr v (j + 0))].
Proof.
  intros Hj. rewrite <- !u8_shiftr_u32 by lia. unfold be32_bytes. by rewrite Z.shiftr_0_r.
Qed.

Lemma encode_cells_at pre val rest cells v : 0 <= cells <= 2 -> len val = 4 * cells ->
  encode_cells (pre ++ val ++ rest) (len pre) cells v = Some (pre ++ be_bytes (length val) v ++ rest).
Proof.
  intros Hc Hl. unfold encode_cells.
  assert (cells = 0 \/ cells = 1 \/ cells = 2) as [-> | [-> | ->]] by lia; unfold len in Hl.
  - by destruct val.
  - replace (length val) with 4%nat by lia. cbn [seqZ foldl]. change (seqZ 0 1) with [0]. cbn [foldl mbind option_bind].
    change (64 <=? (1 - 1 - 0) * 32) with false. cbn iota. unfold put_be32. rewrite Z.add_0_r, wr_at by (cbn; lia).
    do 2 f_equal. change ((1 - 1 - 0) * 32) with 0. by rewrite be32_be_bytes.
  - replace (length val) with 8%nat by lia. change (seqZ 0 2) with [0; 1]. cbn [foldl mbind option_bind].
    change (64 <=? (2 - 1 - 0) * 32) with false. change (64 <=? (2 - 1 - 1) * 32) with false. cbn iota. unfold put_be32.
    rewrite <- (take_drop 4 val), <- !app_assoc, Z.add_0_r, wr_at by (rewrite length_take, length_be32; lia). cbn [mbind option_bind].
    replace (len pre + 1 * 4) with (len (pre ++ be32_bytes (u32 (Z.shiftr v ((2 - 1 - 0) * 32))))) by (rewrite len_app, len_be32; lia).
    rewrite app_assoc, wr_at by (rewrite length_drop, length_be32; lia). rewrite <- !app_assoc. do 2 f_equal.
    rewrite !be32_be_bytes by lia. done.
Qed.

Definition sized_blob (n : Z) (img : list Z) : Prop := len img = n /\ n < 2 ^ 31.

Lemma begin_next pre name : len pre mod 4 = 0 -> len pre + len (begin_bytes name) < 2 ^ 31 ->
  align4 (len pre + 4 + len name + 1) = len (pre ++ begin_bytes name).
Proof.
  intros Hm Hs. rewrite len_begin in Hs. pose proof (len_nonneg pre). pose proof (len_nonneg name). pose proof (len_nonneg (padding (len name + 1))).
  rewrite align4_pad, len_app, len_begin, !len_padding by lia.
  replace (- (len pre + 4 + len name + 1)) with (- (len name + 1) - (len pre + 4)) by lia.
  rewrite (Zminus_mod _ (len pre + 4)), (mod4_add (len pre) 4), Z.sub_0_r, Zmod_mod by done. lia.
Qed.

Lemma prop_next pre noff val : len pre + len (prop_bytes noff val) < 2 ^ 31 ->
  after_prop (len pre + 4) (len val) = len (pre ++ prop_bytes noff val).
Proof.
  intros Hs. rewrite len_prop in Hs. pose proof (len_nonneg pre). pose proof (len_nonneg val). pose proof (len_nonneg (padding (len val))).
  unfold after_prop. rewrite align4_pad, !u32_id, len_app, len_prop by (rewrite ?u32_id; lia). lia.
Qed.

(** The value of a property in the blob, to read or replace it. *)
Definition prop_head (pre : list Z) (noff n : Z) : list Z := pre ++ be32_bytes FDT_PROP ++ be32_bytes n ++ be32_bytes noff.
Lemma prop_split pre noff val rest n : n = len val ->
  pre ++ prop_bytes noff val ++ rest = prop_head pre noff n ++ val ++ padding n ++ rest.
Proof. intros ->. unfold prop_bytes, prop_head. by rewrite <- !app_assoc. Qed.
Lemma len_prop_head pre noff n : len (prop_head pre noff n) = len pre + 4 + 8.
Proof. unfold prop_head. rewrite !len_app, !len_be32. lia. Qed.
