(* ===== verification/FdtPatch.v ===== *)
(** * Device trees of guests: what the patches of kernel/vmm/loader/fdt.c do

    For each operation modelled in Fdt.v: the walker its loop implements, what the walker does
    on trees, and the theorem on well-formed blobs ([blob]).  [name_offset] is the offset of a
    name in the strings block.  The last section has blobs on which the loops do not end or
    are not defined. *)

From stdpp Require Import options.
From Stdlib Require Import Lia ZifyBool Ascii String.
From S2P Require Import Prelude Fdt.

(** ** The initial RAM disk *)

Definition initrd_walker (start_noff end_noff initrd_start initrd_end : Z) : walker Z Z :=
  mk_walker (fun _ n => n)
    (fun noff val n => Some (
       if (len val =? 4) || (len val =? 8) then
         if noff =? start_noff then (be_bytes (length val) initrd_start, inl (n + 1))
         else if noff =? end_noff then (be_bytes (length val) initrd_end, inl (n + 1))
         else (val, inl n)
       else (val, inl n)))
    (fun n => Some (inl n)).

(** The front of a loop body at a token: the guard holds and the token is read. *)
Ltac at_token lem :=
  rewrite u32_id by lia; case_if; [lia|]; rewrite lem by (done || lia); cbn [mbind option_bind]; rewrite ?u32_id by lia.
Ltac begin_case pre name :=
  pose proof (len_nonneg pre); pose proof (len_nonneg name); pose proof (len_nonneg (padding (len name + 1)));
  pose proof (len_begin name); at_token at_begin; rewrite begin_next by lia.
Ltac prop_case pre noff val :=
  pose proof (len_nonneg pre); pose proof (len_nonneg val); pose proof (len_nonneg (padding (len val)));
  pose proof (len_prop noff val); at_token at_prop; rewrite ?u32_id by (rewrite ?u32_id; lia);
  rewrite ?i32_id, ?(prop_next pre noff val) by lia.
Ltac word_case pre lem := pose proof (len_nonneg pre); at_token lem; rewrite ?len_app, ?len_be32.

Lemma blob_replace N pre noff val val' rest : sized_blob N (pre ++ prop_bytes noff val ++ rest) -> len val' = len val ->
  sized_blob N (pre ++ prop_bytes noff val' ++ rest).
Proof. unfold sized_blob. rewrite !len_app, !len_prop. by intros H ->. Qed.

(** A property of one or two cells becomes a number. *)
Lemma encode_prop pre noff val rest cells v : 0 <= cells <= 2 -> len val = 4 * cells ->
  encode_cells (pre ++ prop_bytes noff val ++ rest) (len pre + 4 + 8) cells v = Some (pre ++ prop_bytes noff (be_bytes (length val) v) ++ rest).
Proof.
  intros Hc Hv. assert (Hlv : len val = len (be_bytes (length val) v)) by (unfold len; by rewrite length_be_bytes).
  rewrite (prop_split _ _ _ _ (len val)), <- (len_prop_head pre noff (len val)), encode_cells_at by done. f_equal. symmetry. by apply prop_split.
Qed.
Lemma len_be_bytes {A} (l : list A) v : len (be_bytes (length l) v) = len l.
Proof. unfold len. by rewrite length_be_bytes. Qed.
Lemma len_prop_be noff val v : len (prop_bytes noff (be_bytes (length val) v)) = len (prop_bytes noff val).
Proof. by rewrite !len_prop, len_be_bytes. Qed.

Lemma initrd_implements N sn en a b : N < 2 ^ 31 ->
  implements (initrd_walker sn en a b) (fun dtb pos n => (dtb, pos, n)) pair (initrd_body sn en a b) (sized_blob N) N (fun n => n).
Proof.
  intros HN. split.
  - intros pre rest name s [HI _] Hm Hn Hs. unfold initrd_body. rewrite HI. by begin_case pre name.
  - intros pre rest noff val s val' r HI Hm Hn Hs Hp. unfold initrd_body. rewrite (proj1 HI). prop_case pre noff val.
    assert (Hpatch : forall v, len val = 4 \/ len val = 8 ->
      encode_cells (pre ++ prop_bytes noff val ++ rest) (len pre + 4 + 8) (if len val =? 8 then 2 else 1) v =
        Some (pre ++ prop_bytes noff (be_bytes (length val) v) ++ rest)).
    { intros v Hv. destruct (Z.eqb_spec (len val) 8); apply encode_prop; lia. }
    cbn in Hp. injection Hp as Hp. assert (HI' := fun val' => blob_replace _ _ _ _ val' _ HI).
    destruct ((len val =? 4) || (len val =? 8)) eqn:Hl; cbn [andb].
    + case_if; [|lia]. rewrite !Hpatch by lia. destruct (noff =? sn), (noff =? en); injection Hp as <- <-; cbn [mbind option_bind goes_on]; rewrite ?len_be_bytes;
        (split; [done|]); (split; [apply HI'; by rewrite ?len_be_bytes|]); by rewrite ?len_app, ?len_prop_be.
    + injection Hp as <- <-. done.
  - intros pre rest s r [HI _] Hs [= <-]. unfold initrd_body. rewrite HI. word_case pre at_end_node. by cbn [goes_on]; rewrite len_app.
  - intros pre rest s [HI _] Hs. unfold initrd_body. rewrite HI. word_case pre at_nop. by cbn [goes_on]; rewrite len_app.
  - intros pre rest s [HI _] Hs. unfold initrd_body. rewrite HI. by word_case pre at_end.
Qed.

(** ** Blobs *)

(** [name] is a string of the strings block, at offset [i]. *)
Definition string_at (p : list Z) (off slen : Z) (name : list Z) (i : Z) : Prop :=
  0 <= i /\ i + len name < slen /\ (i = 0 \/ rd p (off + (i - 1)) = Some 0) /\
  slice p (off + i) (len name) = Some name /\ rd p (off + (i + len name)) = Some 0.

(** The offset of the first such string, -1 if there is none. *)
Definition name_offset (p : list Z) (off slen : Z) (name : list Z) (r : Z) : Prop :=
  (r = -1 /\ forall i, ~ string_at p off slen name i) \/
  (string_at p off slen name r /\ forall i, i < r -> ~ string_at p off slen name i).

Lemma rd_in p i : 0 <= i < len p -> exists c, rd p i = Some c.
Proof.
  intros Hi. unfold rd. case_if; [lia|]. destruct (p !! Z.to_nat i) eqn:Hl; [eauto|].
  apply lookup_ge_None in Hl. unfold len in Hi. lia.
Qed.
Lemma slice_in p i n : 0 <= i -> 0 <= n -> i + n <= len p -> exists s, slice p i n = Some s.
Proof. intros. unfold slice. case_if; [eauto|lia]. Qed.

Lemma find_body_spec p off slen name i : 0 <= off -> off + slen <= len p -> len p < 2 ^ 31 -> 0 <= i -> i + len name < slen ->
  (string_at p off slen name i /\ find_body p off slen name i = Some (inr i)) \/
  (~ string_at p off slen name i /\ find_body p off slen name i = Some (inl (i + 1))).
Proof.
  intros Hoff Hlen Hp Hi Hn. pose proof (len_nonneg name). unfold find_body, string_at. rewrite u32_id by lia. case_if; [lia|].
  rewrite !u32_id, i32_id by lia.
  destruct (slice_in p (off + i) (len name)) as [s Hs]; [lia..|]. destruct (rd_in p (off + (i + len name))) as [c Hc]; [lia|].
  assert (Hfirst : exists f : bool, (if i =? 0 then Some true else c ← rd p (off + (i - 1)); Some (c =? 0)) = Some f /\ (f = true <-> i = 0 \/ rd p (off + (i - 1)) = Some 0)).
  { destruct (Z.eqb_spec i 0); [exists true; intuition|]. destruct (rd_in p (off + (i - 1))) as [d Hd]; [lia|].
    exists (d =? 0). rewrite Hd. split; [done|]. rewrite Z.eqb_eq. split; [intros ->; auto|intros [?|[= ->]]; done]. }
  destruct Hfirst as (f & -> & Hf). cbn [mbind option_bind]. rewrite Hs, Hc. destruct f; cbn [mbind option_bind].
  - destruct (bool_decide_reflect (s = name)) as [->|Hne]; cbn [mbind option_bind].
    + destruct (Z.eqb_spec c 0) as [->|Hc0]; [left|right]; (split; [|done]); [tauto|]. intros (_ & _ & _ & _ & [=]). done.
    + right. split; [|done]. intros (_ & _ & _ & [=] & _). done.
  - right. split; [|done]. intros (_ & _ & H1 & _). by apply Hf in H1.
Qed.

Lemma find_string_offset_spec p off slen name : 0 <= off -> 0 <= slen -> off + slen <= len p -> len p < 2 ^ 31 ->
  exists r, find_string_offset p off slen name = Some r /\ name_offset p off slen name r.
Proof.
  intros Hoff Hsl Hlen Hp. pose proof (len_nonneg name). unfold find_string_offset, name_offset. case_if.
  { exists (-1). split; [done|]. left. split; [done|]. intros i (? & ? & _). lia. }
  unfold run. match goal with |- context [loop ?f ?b 0] =>
    destruct (loop_total (fun i => 0 <= i <= slen - len name /\ forall j, j < i -> ~ string_at p off slen name j)
      (fun r => exists r', r = Some r' /\ name_offset p off slen name r') (fun i => slen - len name - i) b) with (fuel := f) (s := 0)
      as (r & -> & r' & -> & Hr) end; [|split; [lia|intros j Hj (? & _); lia]|lia|by exists r'].
  intros i [Hi Hbefore]. destruct (decide (i = slen - len name)) as [->|Hne].
  - unfold find_body. rewrite u32_id by lia. case_if; [|lia]. exists (-1). split; [done|]. left. split; [done|].
    intros j Hj. apply (Hbefore j); [|done]. destruct Hj as (? & ? & _). lia.
  - destruct (find_body_spec p off slen name i) as [[Hat ->]|[Hat ->]]; [lia..| |].
    + exists i. split; [done|]. right. done.
    + split; [|lia]. split; [lia|]. intros j Hj. destruct (decide (j = i)) as [->|]; [done|]. apply Hbefore. lia.
Qed.

Lemma name_offset_unique p off slen name r r' : name_offset p off slen name r -> name_offset p off slen name r' -> r = r'.
Proof.
  intros [[-> H1]|[H1 H1']] [[-> H2]|[H2 H2']]; [done|by destruct (H1 r')|by destruct (H2 r)|].
  destruct (Z.lt_total r r') as [H|[H|H]]; [by destruct (H2' r)|done|by destruct (H1' r')].
Qed.
Lemma name_offset_range p off slen name r : name_offset p off slen name r -> -1 <= r.
Proof. intros [[-> _]|[(? & _) _]]; lia. Qed.

Definition image (pre : list Z) (l : list item) (post : list Z) : list Z := pre ++ items_bytes l ++ be32_bytes FDT_END ++ post.

(** A blob below 2 GiB: header, structure block [l], strings block of [ss] bytes at [so]. *)
Record blob (pre : list Z) (l : list item) (post : list Z) (so ss : Z) : Prop := mk_blob {
  blob_magic : be32 (image pre l post) 0 = Some FDT_MAGIC;
  blob_struct : be32 (image pre l post) 8 = Some (len pre);
  blob_strings : be32 (image pre l post) 12 = Some so;
  blob_size_strings : be32 (image pre l post) 32 = Some ss;
  blob_size_struct : be32 (image pre l post) 36 = Some (len (items_bytes l) + 4);
  blob_header : 40 <= len pre;
  blob_aligned : len pre mod 4 = 0;
  blob_bounds : 0 <= so /\ 0 <= ss /\ so + ss <= len (image pre l post);
  blob_size : len (image pre l post) < 2 ^ 31;
  blob_items : Forall item_wf l
}.

Lemma len_image pre l post : len (image pre l post) = len pre + len (items_bytes l) + 4 + len post.
Proof. unfold image. rewrite !len_app, len_be32. lia. Qed.

Lemma blob_ok pre l post so ss : blob pre l post so ss -> header_ok (image pre l post) = Some true.
Proof.
  intros H. unfold header_ok. rewrite (blob_magic _ _ _ _ _ H), len_image. pose proof (blob_header _ _ _ _ _ H).
  pose proof (len_nonneg (items_bytes l)). pose proof (len_nonneg post). case_if; [lia|done].
Qed.

Lemma blob_offset pre l post so ss name r : blob pre l post so ss -> name_offset (image pre l post) so ss name r ->
  find_string_offset (image pre l post) so ss name = Some r.
Proof.
  intros H Hr. destruct (blob_bounds _ _ _ _ _ H) as (? & ? & ?). pose proof (blob_size _ _ _ _ _ H).
  destruct (find_string_offset_spec (image pre l post) so ss name) as (r' & -> & Hr'); [done..|].
  f_equal. by eapply name_offset_unique.
Qed.

(** Every property of a tree replaced, and the number of those that satisfy a test. *)
Fixpoint map_props (f : Z -> list Z -> list Z) (i : item) : item :=
  match i with
  | INop => INop
  | IProp noff val => IProp noff (f noff val)
  | INode name body => INode name (map (map_props f) body)
  end.
Fixpoint count_props (p : Z -> list Z -> bool) (i : item) : Z :=
  match i with
  | INop => 0
  | IProp noff val => Z.b2z (p noff val)
  | INode name body => List.fold_right (fun i n => count_props p i + n) 0 body
  end.
Definition count_items (p : Z -> list Z -> bool) (l : list item) : Z := List.fold_right (fun i n => count_props p i + n) 0 l.

(** The levels of nodes. *)
Fixpoint height (i : item) : Z :=
  match i with INop | IProp _ _ => 0 | INode _ body => 1 + List.fold_right (fun i n => height i `max` n) 0 body end.
Definition heights (l : list item) : Z := List.fold_right (fun i n => height i `max` n) 0 l.

(** Walkers that go through all properties with a counter in their state; [ok k] is a state
    from which [k] more levels can be entered. *)
Section all_props.
Context {S R : Type} (w : walker S R) (add : Z -> S -> S) (f : Z -> list Z -> list Z) (p : Z -> list Z -> bool) (ok : Z -> S -> Prop).
Hypothesis add_add : forall n m s, add n (add m s) = add (m + n) s.
Hypothesis add_0 : forall s, add 0 s = s.
Hypothesis ok_add : forall k n s, ok k s -> ok k (add n s).
Hypothesis on_props : forall k noff val s, ok k s -> on_prop w noff val s = Some (f noff val, inl (add (Z.b2z (p noff val)) s)).
Hypothesis on_nodes : forall k name s n, ok k s -> 0 < k -> ok (k - 1) (on_begin w name s) /\ on_end w (add n (on_begin w name s)) = Some (inl (add n s)).

Definition walks_all (i : item) : Prop :=
  forall k s, ok k s -> height i <= k -> walk_item w i s = Some (map_props f i, inl (add (count_props p i) s)).

Lemma walk_all_list l : Forall walks_all l ->
  forall k s, ok k s -> heights l <= k -> walk_items w l s = Some (map (map_props f) l, inl (add (count_items p l) s)).
Proof using add_0 add_add ok_add.
  induction 1 as [|i l Hi _ IH]; intros k s Hs Hk; cbn in *; [by rewrite add_0|].
  rewrite (Hi k) by (done || lia). cbn. fold (walk_items w). rewrite (IH k) by (auto || unfold heights; lia). cbn. by rewrite add_add.
Qed.
Lemma height_nonneg i : 0 <= height i.
Proof. induction i as [| |name b IH] using item_ind; cbn; [lia..|]. induction IH; cbn; lia. Qed.
Lemma heights_nonneg l : 0 <= heights l.
Proof. induction l as [|i l IH]; cbn; [lia|]. unfold heights in IH. lia. Qed.
Lemma walk_all_item i : walks_all i.
Proof using add_0 add_add ok_add on_nodes on_props.
  induction i as [|noff val|name b IH] using item_ind; intros k s Hs Hk; cbn in *.
  - by rewrite add_0.
  - by rewrite (on_props k).
  - fold (heights b) in Hk. pose proof (heights_nonneg b). destruct (on_nodes k name s (count_items p b) Hs) as [Hok Hend]; [lia|]. fold (walk_items w).
    rewrite (walk_all_list b IH (k - 1)) by (done || lia). cbn. by rewrite Hend.
Qed.
Lemma walk_all l k s : ok k s -> heights l <= k -> walk_items w l s = Some (map (map_props f) l, inl (add (count_items p l) s)).
Proof using add_0 add_add ok_add on_nodes on_props. apply walk_all_list, Forall_true, walk_all_item. Qed.
End all_props.

Lemma heights_sum l : Forall (fun i => height i <= Z.of_nat (tokens i)) l -> heights l <= Z.of_nat (list_sum (map tokens l)).
Proof.
  induction 1 as [|i l Hi _ IH]; [done|]. change (list_sum (map tokens (i :: l))) with (tokens i + list_sum (map tokens l))%nat.
  change (heights (i :: l)) with (height i `max` heights l). lia.
Qed.
Lemma height_tokens i : height i <= Z.of_nat (tokens i).
Proof. induction i as [| |name b IH%heights_sum] using item_ind; [done..|]. cbn [height tokens]. fold (heights b). lia. Qed.
Lemma heights_bytes l : heights l <= len (items_bytes l).
Proof.
  destruct (items_sized l) as [_ ?]. pose proof (heights_sum l (proj2 (Forall_forall _ _) (fun i _ => height_tokens i))). lia.
Qed.

Lemma count_props_nonneg p i : 0 <= count_props p i.
Proof.
  induction i as [|noff val|name b IH] using item_ind; cbn; [lia|destruct (p noff val); cbn; lia|].
  induction IH; cbn; lia.
Qed.
Lemma count_items_nonneg p l : 0 <= count_items p l.
Proof. induction l as [|i l IH]; cbn; [lia|]. pose proof (count_props_nonneg p i). unfold count_items in IH. lia. Qed.

(** Without a property to count nothing changes. *)
Lemma map_props_none f p i : (forall noff val, p noff val = false -> f noff val = val) -> count_props p i = 0 -> map_props f i = i.
Proof.
  intros Hf. induction i as [|noff val|name b IH] using item_ind; cbn; intros Hc; [done| |].
  - rewrite Hf; [done|]. by destruct (p noff val).
  - f_equal. fold (count_items p b) in Hc. induction IH as [|i b Hi _ IH]; cbn in *; [done|].
    pose proof (count_props_nonneg p i). pose proof (count_items_nonneg p b). unfold count_items in *. rewrite Hi, IH by lia. done.
Qed.
Lemma map_items_none f p l : (forall noff val, p noff val = false -> f noff val = val) -> count_items p l = 0 -> map (map_props f) l = l.
Proof.
  intros Hf. induction l as [|i l IH]; cbn; intros Hc; [done|].
  pose proof (count_props_nonneg p i). pose proof (count_items_nonneg p l). unfold count_items in *.
  rewrite (map_props_none f p i), IH by (done || lia). done.
Qed.
Lemma count_items_false p l : (forall noff val, 0 <= noff -> p noff val = false) -> Forall item_wf l -> count_items p l = 0.
Proof.
  intros Hp Hl. unfold count_items. induction Hl as [|i l Hi _ IH]; cbn; [done|]. rewrite IH, Z.add_0_r. clear IH.
  induction i as [|noff val|name b IH] using item_ind; cbn in *; [done|rewrite Hp by lia; done|].
  destruct Hi as [_ Hb%wf_body]. induction IH as [|i b Hi _ IH]; cbn; [done|]. apply Forall_cons in Hb as [Hib Hb]. rewrite Hi, IH by done. done.
Qed.

(** *** The initial RAM disk *)
Definition initrd_value (sn en initrd_start initrd_end : Z) (noff : Z) (val : list Z) : list Z :=
  if (len val =? 4) || (len val =? 8) then
    if noff =? sn then be_bytes (length val) initrd_start else if noff =? en then be_bytes (length val) initrd_end else val
  else val.
Definition is_initrd (sn en : Z) (noff : Z) (val : list Z) : bool := ((len val =? 4) || (len val =? 8)) && ((noff =? sn) || (noff =? en)).

Lemma initrd_walk sn en a b l n :
  walk_items (initrd_walker sn en a b) l n = Some (map (map_props (initrd_value sn en a b)) l, inl (n + count_items (is_initrd sn en) l)).
Proof.
  apply (walk_all _ (fun k n => n + k) _ _ (fun _ _ => True)) with (k := heights l); [lia|lia|done| |done|done|done].
  intros k noff val s _. cbn. unfold initrd_value, is_initrd. do 4 (try case_match); cbn; rewrite ?Z.add_0_r; done.
Qed.

Lemma walk_fuel_image pre l post : len (items_bytes l) < Z.of_nat (walk_fuel (image pre l post)).
Proof. pose proof (len_image pre l post). pose proof (len_nonneg pre). pose proof (len_nonneg post). unfold walk_fuel, len in *. lia. Qed.

Lemma blob_sized pre l post so ss : blob pre l post so ss -> sized_blob (len (image pre l post)) (image pre l post).
Proof. intros H. split; [done|]. apply H. Qed.

Lemma run_image {S R X Y} (w : walker S R) emb fin (body : X -> option (X + Y)) I stop (out : S -> R) pre l post so ss s l' r :
  implements w emb fin body I stop out ->
  blob pre l post so ss -> I (image pre l post) -> len pre + len (items_bytes l) + 4 <= stop -> walk_items w l s = Some (l', r) ->
  flat (run (walk_fuel (image pre l post)) body (emb (image pre l post) (len pre) s)) =
    Some (fin (image pre l' post) (match r with inl s => out s | inr r => r end)).
Proof.
  intros Himp Hb HI Hs Hw. unfold image at 2.
  rewrite (implements_run _ _ _ _ _ _ _ Himp l s l' r pre post _ (blob_items _ _ _ _ _ Hb) Hw HI (blob_aligned _ _ _ _ _ Hb) Hs (walk_fuel_image _ _ _)). done.
Qed.

Lemma blob_fits pre l post : len pre + len (items_bytes l) + 4 <= len (image pre l post).
Proof. rewrite len_image. pose proof (len_nonneg post). lia. Qed.

(** The front of the operations: the header is read. *)
Ltac read_header Hb :=
  let Hbd := fresh in
  pose proof (blob_bounds _ _ _ _ _ Hb) as Hbd; pose proof (blob_size _ _ _ _ _ Hb);
  rewrite (blob_ok _ _ _ _ _ Hb); cbn [mbind option_bind negb];
  rewrite ?(blob_struct _ _ _ _ _ Hb); cbn [mbind option_bind];
  rewrite ?(blob_strings _ _ _ _ _ Hb); cbn [mbind option_bind];
  rewrite ?(blob_size_strings _ _ _ _ _ Hb); cbn [mbind option_bind].

Lemma initrd_correct pre l post so ss sn en a b : blob pre l post so ss ->
  name_offset (image pre l post) so ss (bytes_of "linux,initrd-start") sn ->
  name_offset (image pre l post) so ss (bytes_of "linux,initrd-end") en ->
  guest_loader_patch_dtb_initrd (image pre l post) a b =
    Some (if 0 <? count_items (is_initrd sn en) l then 0 else -1, image pre (map (map_props (initrd_value sn en a b)) l) post).
Proof.
  intros Hb Hsn Hen. unfold guest_loader_patch_dtb_initrd. read_header Hb. rewrite u32_id by lia. case_if; [lia|].
  rewrite (blob_offset _ _ _ _ _ _ _ Hb Hsn). cbn [mbind option_bind]. rewrite (blob_offset _ _ _ _ _ _ _ Hb Hen). cbn [mbind option_bind].
  case_if.
  - assert (Hc : count_items (is_initrd sn en) l = 0).
    { apply count_items_false; [|apply Hb]. intros noff val Hn. unfold is_initrd.
      destruct (Z.eqb_spec noff sn), (Z.eqb_spec noff en); [lia..|by rewrite andb_false_r]. }
    rewrite Hc, (map_items_none _ (is_initrd sn en)); [done| |done].
    intros noff val. unfold is_initrd, initrd_value. destruct ((len val =? 4) || (len val =? 8)), (noff =? sn), (noff =? en); done.
  - rewrite (run_image _ _ _ _ _ _ _ _ _ _ _ _ 0 _ _ (initrd_implements _ sn en a b (blob_size _ _ _ _ _ Hb))
      Hb (blob_sized _ _ _ _ _ Hb) (blob_fits _ _ _) (initrd_walk _ _ _ _ _ _)). done.
Qed.

(** *** The command line *)

(** The first property with a name, in the order of the blob. *)
Definition first_of {A} (f : item -> option A) : list item -> option A :=
  fix go l := match l with [] => None | i :: l => match f i with Some a => Some a | None => go l end end.
Fixpoint first_prop (noff : Z) (i : item) : option (list Z) :=
  match i with
  | INop => None
  | IProp n val => if n =? noff then Some val else None
  | INode _ body => first_of (first_prop noff) body
  end.

(** The first property with a name replaced. *)
Definition set_in (set : item -> option item) : list item -> option (list item) :=
  fix go l := match l with [] => None | i :: l => match set i with Some i => Some (i :: l) | None => l ← go l; Some (i :: l) end end.
Fixpoint set_prop (noff : Z) (v : list Z) (i : item) : option item :=
  match i with
  | INop => None
  | IProp n _ => if n =? noff then Some (IProp n v) else None
  | INode name body => body ← set_in (set_prop noff v) body; Some (INode name body)
  end.
Definition set_first (noff : Z) (v : list Z) (l : list item) : list item := default l (set_in (set_prop noff v) l).

(** The value: the command line, and NULs to the end. *)
Definition bootargs_value (bootargs : list Z) (n : Z) : list Z := bootargs ++ replicate (Z.to_nat (n - len bootargs)) 0.

Definition bootargs_walker (bn : Z) (bootargs : list Z) : walker unit Z :=
  mk_walker (fun _ s => s)
    (fun noff val s => Some (
      if noff =? bn then if len val <? len bootargs + 1 then (val, inr (-1)) else (bootargs_value bootargs (len val), inr 0)
      else (val, inl s)))
    (fun s => Some (inl s)).

Lemma len_bootargs_value args n : len args <= n -> len (bootargs_value args n) = n.
Proof. intros H. unfold bootargs_value. rewrite len_app. unfold len in *. rewrite length_replicate. lia. Qed.

Lemma bootargs_write pre val rest args : len args + 1 <= len val ->
  (dtb ← wr (pre ++ val ++ rest) (len pre) (replicate (Z.to_nat (len val)) 0); wr dtb (len pre) (args ++ [0])) =
    Some (pre ++ bootargs_value args (len val) ++ rest).
Proof.
  intros H. rewrite wr_at by (rewrite length_replicate, to_nat_len; done). cbn [mbind option_bind].
  assert (Hr : replicate (Z.to_nat (len val)) 0 = replicate (length (args ++ [0])) 0 ++ replicate (Z.to_nat (len val - len args - 1)) 0).
  { rewrite <- replicate_add. f_equal. rewrite length_app. unfold len in *. cbn. lia. }
  rewrite Hr, <- app_assoc, wr_at by (by rewrite length_replicate). unfold bootargs_value.
  replace (Z.to_nat (len val - len args)) with (S (Z.to_nat (len val - len args - 1))) by lia. cbn. by rewrite <- !app_assoc.
Qed.

Lemma bootargs_implements N bn args : N < 2 ^ 31 ->
  implements (bootargs_walker bn args) (fun dtb pos _ => (dtb, pos)) (fun dtb r => (r, dtb)) (bootargs_body bn args) (sized_blob N) N (fun _ => -1).
Proof.
  intros HN. split.
  - intros pre rest name s [HI _] Hm Hn Hs. unfold bootargs_body. rewrite HI. by begin_case pre name.
  - intros pre rest noff val s val' r HI Hm Hn Hs Hp. unfold bootargs_body. rewrite (proj1 HI). prop_case pre noff val.
    cbn in Hp. injection Hp as Hp. destruct (noff =? bn); cbn [andb]; [|injection Hp as <- <-; done].
    case_if; [|lia]. case_if_in Hp; injection Hp as <- <-; [done|].
    assert (Hl : len (bootargs_value args (len val)) = len val) by (apply len_bootargs_value; lia).
    split; [done|]. split; [by eapply blob_replace|]. cbn [goes_on].
    rewrite (prop_split pre noff val rest (len val)), <- (len_prop_head pre noff (len val)) by done.
    rewrite (prop_split pre noff (bootargs_value _ _) rest (len val)) by done.
    pose proof (bootargs_write (prop_head pre noff (len val)) val (padding (len val) ++ rest) args ltac:(lia)) as Hw.
    destruct (wr _ _ (replicate _ _)); [|done]. cbn [mbind option_bind] in *. by rewrite Hw.
  - intros pre rest s r [HI _] Hs [= <-]. unfold bootargs_body. rewrite HI. word_case pre at_end_node. by cbn [goes_on]; rewrite len_app.
  - intros pre rest s [HI _] Hs. unfold bootargs_body. rewrite HI. word_case pre at_nop. by cbn [goes_on]; rewrite len_app.
  - intros pre rest s [HI _] Hs. unfold bootargs_body. rewrite HI. by word_case pre at_end.
Qed.

(** What the walk for the command line does, given the first property with the name. *)
Definition bootargs_result {A} (args : list Z) (first : option (list Z)) (set : list Z -> option A) (i : A) (r : option (A * (unit + Z))) : Prop :=
  match first with
  | None => r = Some (i, inl tt) /\ forall v, set v = None
  | Some val => r = (if len val <? len args + 1 then Some (i, inr (-1)) else Some (default i (set (bootargs_value args (len val))), inr 0)) /\ forall v, is_Some (set v)
  end.

Lemma bootargs_walk_list bn args l :
  Forall (fun i => bootargs_result args (first_prop bn i) (fun v => set_prop bn v i) i (walk_item (bootargs_walker bn args) i tt)) l ->
  bootargs_result args (first_of (first_prop bn) l) (fun v => set_in (set_prop bn v) l) l (walk_items (bootargs_walker bn args) l tt).
Proof.
  induction 1 as [|i l Hi _ IH]; [done|]. unfold bootargs_result in *. cbn. destruct (first_prop bn i) as [val|].
  - destruct Hi as [-> Hs]. split; [|intros v; destruct (Hs v) as [x ->]; eauto].
    destruct (Hs (bootargs_value args (len val))) as [x ->]. case_if; done.
  - destruct Hi as [-> Hs]. cbn. fold (walk_items (bootargs_walker bn args)).
    destruct (first_of (first_prop bn) l) as [val|]; destruct IH as [-> IH].
    + split; [|intros v; rewrite Hs; destruct (IH v) as [x ->]; eauto]. rewrite Hs. destruct (IH (bootargs_value args (len val))) as [x ->]. case_if; done.
    + split; [done|]. intros v. by rewrite Hs, IH.
Qed.

Lemma bootargs_walk_item bn args i :
  bootargs_result args (first_prop bn i) (fun v => set_prop bn v i) i (walk_item (bootargs_walker bn args) i tt).
Proof.
  induction i as [|noff val|name b IH] using item_ind; [done| |].
  - cbn. unfold bootargs_result. destruct (noff =? bn); [|done]. split; [|eauto]. case_if; done.
  - apply bootargs_walk_list in IH. unfold bootargs_result in *. cbn. fold (walk_items (bootargs_walker bn args)).
    destruct (first_of (first_prop bn) b) as [val|]; destruct IH as [-> IH].
    + split; [|intros v; destruct (IH v) as [x ->]; eauto]. destruct (IH (bootargs_value args (len val))) as [x ->]. case_if; done.
    + split; [done|]. intros v. by rewrite IH.
Qed.

Lemma first_prop_none noff l : noff < 0 -> Forall item_wf l -> first_of (first_prop noff) l = None.
Proof.
  intros Hn Hl. induction Hl as [|i l Hi _ IH]; cbn; [done|]. rewrite IH. clear IH.
  enough (first_prop noff i = None) as -> by done.
  induction i as [|n val|name b IH] using item_ind; cbn in *; [done|case_if; [lia|done]|].
  destruct Hi as [_ Hb%wf_body]. induction IH as [|i b Hi _ IH]; cbn; [done|]. apply Forall_cons in Hb as [Hib Hb]. rewrite Hi, IH by done. done.
Qed.

Lemma bootargs_correct pre l post so ss bn args : blob pre l post so ss ->
  name_offset (image pre l post) so ss (bytes_of "bootargs") bn ->
  guest_loader_patch_dtb_bootargs (image pre l post) args =
    Some (match first_of (first_prop bn) l with
          | Some val => if len args <? len val then (0, image pre (set_first bn (bootargs_value args (len val)) l) post) else (-1, image pre l post)
          | None => (-1, image pre l post)
          end).
Proof.
  intros Hb Hbn. unfold guest_loader_patch_dtb_bootargs. read_header Hb. rewrite u32_id by lia. case_if; [lia|].
  rewrite (blob_offset _ _ _ _ _ _ _ Hb Hbn). cbn [mbind option_bind]. case_if; [rewrite first_prop_none; [done|lia|apply Hb]|].
  assert (Hl := bootargs_walk_list bn args l (proj2 (Forall_forall _ _) (fun i _ => bootargs_walk_item bn args i))). unfold bootargs_result in Hl.
  pose proof (fun l' r Hw => run_image _ _ _ _ _ _ _ _ _ _ _ _ tt l' r (bootargs_implements _ bn args (blob_size _ _ _ _ _ Hb))
      Hb (blob_sized _ _ _ _ _ Hb) (blob_fits _ _ _) Hw) as Hrun. cbn beta in Hrun.
  destruct (first_of (first_prop bn) l) as [val|]; destruct Hl as [Hl _]; [case_if_in Hl|]; rewrite (Hrun _ _ Hl); [case_if; [lia|done]|case_if; [done|lia]|done].
Qed.

(** *** Memory *)

Definition of_be32 (l : list Z) : Z :=
  match l with [a; b; c; d] => Z.lor (Z.lor (Z.lor (Z.shiftl a 24) (Z.shiftl b 16)) (Z.shiftl c 8)) d | _ => 0 end.

Definition is_memory (name : list Z) : bool := bool_decide (take 6 name = bytes_of "memory").

(** The cells a property of the root gives. *)
Definition cells_of (ac_noff sc_noff : Z) (noff : Z) (val : list Z) (c : Z * Z) : Z * Z :=
  if len val =? 4 then if noff =? ac_noff then (of_be32 val, c.2) else if noff =? sc_noff then (c.1, of_be32 val) else c else c.

Definition set_cells (c : Z * Z) (w : mem_walk) : mem_walk := mk_mw c.1 c.2 (mw_depth w) (mw_in w) (mw_mdepth w) (mw_patched w).
Definition add_patched (n : Z) (w : mem_walk) : mem_walk := mk_mw (mw_ac w) (mw_sc w) (mw_depth w) (mw_in w) (mw_mdepth w) (mw_patched w + n).

Definition reg_bytes (ac sc mem_base mem_size : Z) : list Z := be_bytes (Z.to_nat (4 * ac)) mem_base ++ be_bytes (Z.to_nat (4 * sc)) mem_size.

(** Not defined where the node has more than two cells for an address or a size. *)
Definition memory_walker (reg_noff ac_noff sc_noff mem_base mem_size : Z) : walker mem_walk Z :=
  mk_walker
    (fun name w =>
      let depth := u32 (mw_depth w + 1) in
      let hit := (depth =? 2) && is_memory name in
      mk_mw (mw_ac w) (mw_sc w) depth (hit || mw_in w) (if hit then depth else mw_mdepth w) (mw_patched w))
    (fun noff val w =>
      let w := if mw_depth w =? 1 then set_cells (cells_of ac_noff sc_noff noff val (mw_ac w, mw_sc w)) w else w in
      if mw_in w && (noff =? reg_noff) && (u32 (u32 (mw_ac w + mw_sc w) * 4) =? len val) then
        if (0 <=? mw_ac w) && (mw_ac w <=? 2) && (0 <=? mw_sc w) && (mw_sc w <=? 2) then
          Some (reg_bytes (mw_ac w) (mw_sc w) mem_base mem_size, inl (add_patched 1 w))
        else None
      else Some (val, inl w))
    (fun w => Some (inl (mk_mw (mw_ac w) (mw_sc w) (if 0 <? mw_depth w then mw_depth w - 1 else mw_depth w)
                           (mw_in w && negb (mw_depth w =? mw_mdepth w)) (mw_mdepth w) (mw_patched w)))).

Lemma len_reg_bytes ac sc a b : 0 <= ac -> 0 <= sc -> len (reg_bytes ac sc a b) = 4 * ac + 4 * sc.
Proof. intros. unfold reg_bytes. rewrite len_app. unfold len. rewrite !length_be_bytes. lia. Qed.

Lemma encode_reg pre noff val rest ac sc a b : 0 <= ac <= 2 -> 0 <= sc <= 2 -> len val = 4 * ac + 4 * sc ->
  (dtb ← encode_cells (pre ++ prop_bytes noff val ++ rest) (len pre + 4 + 8) ac a; encode_cells dtb (len pre + 4 + 8 + 4 * ac) sc b) =
    Some (pre ++ prop_bytes noff (reg_bytes ac sc a b) ++ rest).
Proof.
  intros Hac Hsc Hl.
  assert (exists v1 v2, val = v1 ++ v2 /\ len v1 = 4 * ac /\ len v2 = 4 * sc) as (v1 & v2 & -> & H1 & H2).
  { exists (take (Z.to_nat (4 * ac)) val), (drop (Z.to_nat (4 * ac)) val). rewrite take_drop. unfold len in *. rewrite length_take, length_drop. split; [done|lia]. }
  rewrite !(prop_split pre noff _ rest (4 * ac + 4 * sc)) by (rewrite ?len_reg_bytes; lia).
  rewrite <- (len_prop_head pre noff (4 * ac + 4 * sc)). set (h := prop_head _ _ _).
  rewrite <- !app_assoc, encode_cells_at by done. cbn [mbind option_bind].
  replace (len h + 4 * ac) with (len (h ++ be_bytes (length v1) a)) by (rewrite len_app, len_be_bytes; lia).
  rewrite app_assoc, encode_cells_at by done. unfold reg_bytes. rewrite <- H1, <- H2, !to_nat_len. by rewrite <- !app_assoc.
Qed.

Lemma be32_prop pre noff val rest : len val = 4 -> len pre + 12 < 2 ^ 31 ->
  be32 (pre ++ prop_bytes noff val ++ rest) (len pre + 4 + 8) = Some (of_be32 val).
Proof.
  intros Hl Hp. pose proof (len_nonneg pre). rewrite (prop_split _ _ _ _ (len val)), <- (len_prop_head pre noff (len val)) by done.
  assert (Hpos := len_prop_head pre noff (len val)). destruct val as [|a [|b [|c [|d [|]]]]]; try (unfold len in Hl; cbn in Hl; lia).
  unfold be32. rewrite !u32_id by lia. set (h := prop_head _ _ _) in *. set (r := padding _ ++ rest).
  pose proof (rd_at h [a; b; c; d] r 1 b eq_refl ltac:(lia)) as ->. pose proof (rd_at h [a; b; c; d] r 2 c eq_refl ltac:(lia)) as ->.
  pose proof (rd_at h [a; b; c; d] r 3 d eq_refl ltac:(lia)) as ->. cbn [app]. rewrite rd_here. done.
Qed.

Lemma memory_name pre name rest : 6 <= len name ->
  slice (pre ++ begin_bytes name ++ rest) (len pre + 4) 6 = Some (take 6 name).
Proof.
  intros Hl. unfold begin_bytes. rewrite <- !app_assoc, <- (take_drop 6 name) at 1.
  replace (len pre + 4) with (len (pre ++ be32_bytes FDT_BEGIN_NODE)) by (rewrite len_app, len_be32; lia).
  rewrite <- !app_assoc, app_assoc.
  assert (H6 : len (take 6 name) = 6) by (unfold len in *; rewrite length_take; lia).
  rewrite <- H6 at 1. apply slice_at.
Qed.

Lemma is_memory_short name : len name < 6 -> is_memory name = false.
Proof.
  intros Hl. unfold is_memory. apply bool_decide_eq_false_2. intros H. apply (f_equal length) in H.
  rewrite length_take in H. unfold len in Hl. change (length (bytes_of "memory")) with 6%nat in H. lia.
Qed.

Lemma memory_implements N rn an sn a b : N < 2 ^ 31 ->
  implements (memory_walker rn an sn a b) (fun dtb pos w => (dtb, pos, w)) pair (memory_body rn an sn a b) (sized_blob N) N mw_patched.
Proof.
  intros HN. split.
  - intros pre rest name s [HI _] Hm Hn Hs. unfold memory_body. rewrite HI. begin_case pre name.
    replace (len pre + 4 + len name - (len pre + 4)) with (len name) by lia. rewrite ?(u32_id (len name)) by lia.
    assert (Hhit : forall d : bool, (if d && (6 <=? len name) then s ← slice (pre ++ begin_bytes name ++ rest) (len pre + 4) 6; Some (bool_decide (s = bytes_of "memory")) else Some false) = Some (d && is_memory name)).
    { intros d. destruct (Z.leb_spec 6 (len name)); [|by rewrite is_memory_short, !andb_false_r].
      destruct d; [|done]. cbn [andb]. by rewrite memory_name. }
    rewrite Hhit. cbn [mbind option_bind goes_on]. destruct (_ && is_memory name) eqn:Hm'; cbn [on_begin memory_walker]; rewrite Hm'; done.
  - intros pre rest noff val s val' r HI Hm Hn Hs Hp. unfold memory_body. rewrite (proj1 HI). prop_case pre noff val.
    cbn [on_prop memory_walker] in Hp.
    set (w1 := if mw_depth s =? 1 then _ else s) in Hp.
    match goal with |- context [if (mw_depth s =? 1) && ?l4 && ?fits then ?x else ?y] =>
      assert (Hw1 : (if (mw_depth s =? 1) && l4 && fits then x else y) = Some w1) end.
    { subst w1. unfold cells_of. destruct (mw_depth s =? 1), (Z.eqb_spec (len val) 4); cbn [andb]; [|by destruct s..].
      case_if; [|lia]. rewrite be32_prop by lia. destruct (noff =? an), (noff =? sn); cbn; by destruct s. }
    rewrite Hw1. cbn [mbind option_bind]. clearbody w1. clear Hw1.
    destruct (mw_in w1 && (noff =? rn) && (u32 (u32 (mw_ac w1 + mw_sc w1) * 4) =? len val)) eqn:Hreg; cbn [andb]; [|injection Hp as <- <-; done].
    assert (Hq : u32 (u32 (mw_ac w1 + mw_sc w1) * 4) = len val) by (apply andb_prop in Hreg as [_ ?]; by apply Z.eqb_eq).
    case_if_in Hp; [|done]. injection Hp as <- <-. case_if; [|lia].
    assert (Hl : len val = 4 * mw_ac w1 + 4 * mw_sc w1) by (rewrite !u32_id in Hq by (rewrite ?u32_id; lia); lia).
    pose proof (len_reg_bytes (mw_ac w1) (mw_sc w1) a b ltac:(lia) ltac:(lia)) as Hlr.
    split; [lia|]. split; [eapply blob_replace; [exact HI|lia]|].
    rewrite !i32_id by lia. rewrite (Z.mul_comm (mw_ac w1) 4), u32_id by lia.
    pose proof (encode_reg pre noff val rest (mw_ac w1) (mw_sc w1) a b ltac:(lia) ltac:(lia) Hl) as He.
    destruct (encode_cells _ _ (mw_ac w1) _); [|done]. cbn [mbind option_bind] in *. rewrite He. cbn [mbind option_bind goes_on].
    by rewrite !len_app, !len_prop, Hlr, Hl.
  - intros pre rest s r [HI _] Hs [= <-]. unfold memory_body. rewrite HI. word_case pre at_end_node. cbn [goes_on]. rewrite len_app, len_be32.
    by destruct (mw_in s), (mw_depth s =? mw_mdepth s).
  - intros pre rest s [HI _] Hs. unfold memory_body. rewrite HI. word_case pre at_nop. by cbn [goes_on]; rewrite len_app.
  - intros pre rest s [HI _] Hs. unfold memory_body. rewrite HI. by word_case pre at_end.
Qed.

(** The cells of the root: its own properties. *)
Definition root_cells (an sn : Z) (ps : list item) : Z * Z :=
  List.fold_left (fun c i => match i with IProp noff val => cells_of an sn noff val c | _ => c end) ps (2, 2).
Definition is_reg (rn : Z) (c : Z * Z) (noff : Z) (val : list Z) : bool := (noff =? rn) && (len val =? 4 * c.1 + 4 * c.2).
Definition reg_value (rn : Z) (c : Z * Z) (mem_base mem_size : Z) (noff : Z) (val : list Z) : list Z :=
  if is_reg rn c noff val then reg_bytes c.1 c.2 mem_base mem_size else val.

(** A child of the root: within a memory node each [reg] of the size of an address and a size
    is set. *)
Definition memory_node (rn : Z) (c : Z * Z) (mem_base mem_size : Z) (i : item) : item :=
  match i with
  | INode name body => if is_memory name then INode name (map (map_props (reg_value rn c mem_base mem_size)) body) else i
  | _ => i
  end.
Definition memory_count (rn : Z) (c : Z * Z) (i : item) : Z :=
  match i with INode name body => if is_memory name then count_items (is_reg rn c) body else 0 | _ => 0 end.

Definition no_node (i : item) : Prop := match i with INode _ _ => False | _ => True end.
Definition no_prop (i : item) : Prop := match i with IProp _ _ => False | _ => True end.

Section memory_tree.
Context (rn an sn a b : Z).
Let w := memory_walker rn an sn a b.

(** Inside of a child of the root; [inm] is whether it is a memory node. *)
Definition inner (c : Z * Z) (inm : bool) (k : Z) (s : mem_walk) : Prop :=
  (mw_ac s, mw_sc s) = c /\ mw_in s = inm /\ 2 <= mw_depth s /\ mw_depth s + k < U32_MOD /\ (inm = true -> mw_mdepth s = 2).

Lemma memory_inner c inm l k s : 0 <= c.1 <= 2 -> 0 <= c.2 <= 2 -> inner c inm k s -> heights l <= k ->
  walk_items w l s = Some (map (map_props (fun noff val => if inm then reg_value rn c a b noff val else val)) l,
                           inl (add_patched (count_items (fun noff val => inm && is_reg rn c noff val) l) s)).
Proof using.
  intros H1 H2 Hs Hk. apply (walk_all w add_patched _ _ (inner c inm)) with (k := k); [..|done|done].
  - intros n m t. unfold add_patched. cbn. f_equal. lia.
  - intros t. unfold add_patched. rewrite Z.add_0_r. by destruct t.
  - done.
  - intros k' noff val t (Hc & Hin & Hd & _). cbn. destruct (Z.eqb_spec (mw_depth t) 1); [lia|].
    subst c inm. cbn in *. rewrite !u32_id by (rewrite ?u32_id; lia). unfold reg_value, is_reg. cbn.
    replace ((mw_ac t + mw_sc t) * 4) with (4 * mw_ac t + 4 * mw_sc t) by lia. rewrite (Z.eqb_sym (len val)).
    destruct (mw_in t), (noff =? rn), (_ =? len val); cbn [andb]; try (unfold add_patched; rewrite Z.add_0_r; by destruct t).
    case_if; [done|lia].
  - intros k' name t n (Hc & Hin & Hd & Hk' & Hmd) Hpos. cbn. rewrite u32_id by lia. case_if; [lia|]. cbn [andb orb].
    split; [repeat split; cbn; [done|done|lia|lia|done]|]. case_if; [|lia]. unfold add_patched. cbn.
    do 3 f_equal; [lia|]. destruct (mw_in t); [|done]. rewrite Hmd by done. cbn. destruct (Z.eqb_spec (mw_depth t + 1) 2); [lia|done].
Qed.

Lemma map_props_id l : map (map_props (fun _ val => val)) l = l.
Proof using. apply (map_items_none _ (fun _ _ => false)); [done|]. induction l as [|i l IH]; [done|]. cbn. unfold count_items in IH. rewrite IH, Z.add_0_r.
  induction i as [| |name body IHb] using item_ind; [done..|]. cbn. induction IHb as [|i' l' Hi' _ IH']; [done|]. cbn. by rewrite Hi', IH'. Qed.
Lemma count_false l : count_items (fun _ _ => false) l = 0.
Proof using. induction l as [|i l IH]; [done|]. cbn. unfold count_items in IH. rewrite IH, Z.add_0_r.
  induction i as [| |name body IHb] using item_ind; [done..|]. cbn. induction IHb as [|i' l' Hi' _ IH']; [done|]. cbn. by rewrite Hi', IH'. Qed.

(** At the level of the children of the root. *)
Definition at_root (c : Z * Z) (n : Z) (s : mem_walk) : Prop :=
  (mw_ac s, mw_sc s) = c /\ mw_in s = false /\ mw_depth s = 1 /\ mw_patched s = n.

Lemma memory_child c i n s : 0 <= c.1 <= 2 -> 0 <= c.2 <= 2 -> no_prop i -> height i < 2 ^ 31 -> at_root c n s ->
  exists s', walk_item w i s = Some (memory_node rn c a b i, inl s') /\ at_root c (n + memory_count rn c i) s'.
Proof using.
  intros H1 H2 Hi Hh (Hc & Hin & Hd & Hn). destruct i as [|noff val|name body]; [|done|].
  { exists s. split; [done|]. cbn. rewrite Z.add_0_r. done. }
  cbn in Hh. fold (heights body) in Hh. cbn. fold w (walk_items w).
  rewrite Hd. change (u32 (1 + 1)) with 2. cbn [Z.eqb Pos.eqb andb].
  match goal with |- context [walk_items w body ?t] => assert (Ht : inner c (is_memory name) (2 ^ 31) t) end.
  { unfold inner. cbn. rewrite Hin, orb_false_r. split_and!; [done|done|lia|lia|by intros ->]. }
  rewrite (memory_inner _ _ _ _ _ H1 H2 Ht) by lia.
  cbn. rewrite Hin, orb_false_r. clear Ht. subst n. destruct (is_memory name); cbn [andb]; [|rewrite map_props_id, count_false];
    (eexists; split; [done|]); unfold at_root; cbn; split_and!; done.
Qed.

Lemma memory_children c cs n s : 0 <= c.1 <= 2 -> 0 <= c.2 <= 2 -> Forall no_prop cs -> heights cs < 2 ^ 31 -> at_root c n s ->
  exists s', walk_items w cs s = Some (map (memory_node rn c a b) cs, inl s') /\ at_root c (n + lsum (memory_count rn c) cs) s'.
Proof using.
  intros H1 H2 Hcs. revert n s. induction Hcs as [|i cs Hi _ IH]; intros n s Hh Hs; cbn in Hh.
  { exists s. split; [done|]. cbn. rewrite Z.add_0_r. done. }
  fold (heights cs) in Hh. destruct (memory_child c i n s H1 H2 Hi ltac:(lia) Hs) as (s1 & Hw1 & Hs1).
  destruct (IH _ s1 ltac:(lia) Hs1) as (s2 & Hw2 & Hs2). exists s2. cbn. fold w. rewrite Hw1. cbn. fold (walk_items w). rewrite Hw2. split; [done|].
  rewrite lsum_cons, Z.add_assoc. done.
Qed.

Lemma memory_props ps s : Forall no_node ps -> mw_in s = false -> mw_depth s = 1 ->
  walk_items w ps s = Some (ps, inl (set_cells (List.fold_left (fun c i => match i with IProp noff val => cells_of an sn noff val c | _ => c end) ps (mw_ac s, mw_sc s)) s)).
Proof using.
  intros Hps. revert s. induction Hps as [|i ps Hi _ IH]; intros s Hin Hd; [by destruct s|].
  destruct i as [|noff val|]; [|cbn|done].
  - cbn. fold (walk_items w). by rewrite IH.
  - rewrite Hd. cbn. rewrite Hin. cbn. fold w (walk_items w). rewrite IH by done. cbn. by destruct (cells_of _ _ _ _ _).
Qed.

Lemma walk_items_app l1 l2 s : walk_items w (l1 ++ l2) s =
  ('(l1, r) ← walk_items w l1 s; match r with inl s => '(l2, r) ← walk_items w l2 s; Some (l1 ++ l2, r) | inr r => Some (l1 ++ l2, inr r) end).
Proof using.
  revert s. induction l1 as [|i l1 IH]; intros s; cbn; [by destruct (walk_items w l2 s) as [[]|]|].
  destruct (walk_item _ i s) as [[i' [s'|r]]|]; cbn; [|done..]. fold w (walk_items w). rewrite IH.
  destruct (walk_items w l1 s') as [[l1' [s''|r']]|]; cbn; [|done..]. by destruct (walk_items w l2 s'') as [[]|].
Qed.

Lemma memory_walk name ps cs : Forall no_node ps -> Forall no_prop cs -> heights cs < 2 ^ 31 ->
  let c := root_cells an sn ps in 0 <= c.1 <= 2 -> 0 <= c.2 <= 2 ->
  exists s', walk_items w [INode name (ps ++ cs)] (mk_mw 2 2 0 false 0 0) = Some ([INode name (ps ++ map (memory_node rn c a b) cs)], inl s') /\
             mw_patched s' = lsum (memory_count rn c) cs.
Proof using.
  intros Hps Hcs Hh c H1 H2. cbn. fold w (walk_items w). change (u32 (0 + 1)) with 1. cbn. rewrite walk_items_app, memory_props by done. cbn.
  match goal with |- context [walk_items w cs ?s] => destruct (memory_children c cs 0 s H1 H2 Hcs Hh) as (s2 & -> & Hs2); [split_and!; [symmetry; apply surjective_pairing|done..]|] end.
  eexists. cbn. split; [done|]. cbn. apply Hs2.
Qed.
End memory_tree.

Lemma heights_root name ps cs : heights cs <= heights [INode name (ps ++ cs)].
Proof.
  change (heights cs <= (1 + heights (ps ++ cs)) `max` 0). enough (heights cs <= heights (ps ++ cs)) by lia.
  induction ps as [|i ps IH]; [done|]. change (heights ((i :: ps) ++ cs)) with (height i `max` heights (ps ++ cs)). lia.
Qed.


(** *** The property of a node *)

Lemma str_equal_spec p s off : Forall (fun c => c <> 0) s -> 0 <= off -> (exists z, off <= z < len p /\ rd p z = Some 0) ->
  str_equal p off s = Some (bool_decide (slice p off (len s + 1) = Some (s ++ [0]))).
Proof.
  intros Hs. revert off. induction Hs as [|x s Hx _ IH]; intros off Hoff (z & Hz & H0); cbn [str_equal].
  - destruct (rd_in p off) as [c Hc]; [lia|]. rewrite Hc. cbn [mbind option_bind]. f_equal. change (len [] + 1) with 1.
    unfold rd in Hc. unfold slice. case_if_in Hc; [lia|]. case_if; [|lia].
    rewrite (drop_S _ _ _ Hc). change (take (Z.to_nat 1) (c :: ?l)) with [c]. cbn.
    destruct (Z.eqb_spec c 0) as [->|]; [by rewrite bool_decide_true|]. symmetry. apply bool_decide_eq_false_2. congruence.
  - destruct (rd_in p off) as [c Hc]; [lia|]. rewrite Hc. cbn [mbind option_bind]. pose proof (len_nonneg s).
    destruct (Z.eqb_spec c x) as [->|Hne].
    + assert (off <> z) by congruence. rewrite IH; [|lia|exists z; split; [lia|done]]. f_equal. apply bool_decide_ext.
      unfold rd in Hc. case_if_in Hc; [lia|]. rewrite len_cons. unfold slice. repeat case_if; [|lia..|done].
      rewrite (drop_S _ _ _ Hc). replace (Z.to_nat (1 + len s + 1)) with (S (Z.to_nat (len s + 1))) by lia.
      replace (Z.to_nat (off + 1)) with (S (Z.to_nat off)) by lia. cbn. split; congruence.
    + f_equal. symmetry. apply bool_decide_eq_false_2. unfold rd in Hc. case_if_in Hc; [lia|]. rewrite len_cons. unfold slice. case_if; [|done].
      rewrite (drop_S _ _ _ Hc). replace (Z.to_nat (1 + len s + 1)) with (S (Z.to_nat (len s + 1))) by lia. cbn. congruence.
Qed.

Lemma node_name pre name rest node : Forall (fun c => c <> 0) name -> Forall (fun c => c <> 0) node ->
  str_equal (pre ++ begin_bytes name ++ rest) (len pre + 4) node = Some (bool_decide (name = node)).
Proof.
  intros Hn Hs. unfold begin_bytes. rewrite <- !app_assoc, app_assoc.
  replace (len pre + 4) with (len (pre ++ be32_bytes FDT_BEGIN_NODE)) by (rewrite len_app, len_be32; lia).
  set (h := pre ++ _). cbn [app]. generalize (padding (len name + 1) ++ rest). clearbody h. clear pre. intros r.
  revert h node Hs. induction Hn as [|x name Hx _ IH]; intros h node Hs; destruct Hs as [|y node Hy Hs]; cbn [str_equal app]; rewrite rd_here; cbn [mbind option_bind].
  - done.
  - destruct (Z.eqb_spec 0 y); [congruence|done].
  - destruct (Z.eqb_spec x 0); [congruence|done].
  - destruct (Z.eqb_spec x y) as [->|Hxy]; [|f_equal; symmetry; apply bool_decide_eq_false_2; congruence].
    replace (h ++ y :: name ++ 0 :: r) with ((h ++ [y]) ++ name ++ 0 :: r) by (by rewrite <- app_assoc).
    replace (len h + 1) with (len (h ++ [y])) by (rewrite len_app; done). rewrite IH by done. f_equal. apply bool_decide_ext. split; congruence.
Qed.

Section has_prop.
Context (dtb : list Z) (stop so ss : Z) (node prop : list Z).

Definition named (noff : Z) : bool := (noff <? ss) && bool_decide (slice dtb (so + noff) (len prop + 1) = Some (prop ++ [0])).

Definition has_prop_walker : walker (Z * option Z) Z :=
  mk_walker
    (fun name s => (s.1 + 1, match s.2 with Some h => Some h | None => if bool_decide (name = node) then Some (s.1 + 1) else None end))
    (fun noff val s => Some (val, if bool_decide (s.2 = Some s.1) && named noff then inr 1 else inl s))
    (fun s => Some (if bool_decide (s.2 = Some s.1) then inr 0 else inl (s.1 - 1, s.2))).

Lemma has_prop_implements : stop <= len dtb -> len dtb < 2 ^ 31 -> 0 <= so -> so + ss <= len dtb ->
  (0 < ss -> rd dtb (so + ss - 1) = Some 0) -> Forall (fun c => c <> 0) node -> Forall (fun c => c <> 0) prop ->
  implements has_prop_walker (fun _ pos s => (pos, s.1, s.2)) (fun _ r => r) (has_prop_body dtb stop so ss node prop) (fun img => img = dtb) stop (fun _ => 0).
Proof using.
  intros Hst Hl Hso Hss Hz Hn Hp. split.
  - intros pre rest name [d h] HI Hm Hnm Hs. unfold has_prop_body. rewrite <- HI. cbn [fst snd].
    pose proof (len_nonneg pre). pose proof (len_nonneg name). pose proof (len_nonneg (padding (len name + 1))). pose proof (len_begin name).
    at_token at_begin. rewrite node_name by done. cbn [mbind option_bind goes_on on_begin has_prop_walker fst snd].
    rewrite <- begin_next by lia. unfold align4. rewrite (u32_id (len pre + 4 + len name + 1 + 3)) by lia.
    replace (len pre + 4 + len name + 1 + 3) with (len pre + 4 + len name + 4) by lia. by destruct h.
  - intros pre rest noff val [d h] val' r HI Hm Hnm Hs Hpr. unfold has_prop_body. cbn [fst snd].
    pose proof (len_nonneg pre). pose proof (len_nonneg val). pose proof (len_nonneg (padding (len val))). pose proof (len_prop noff val).
    cbn in Hpr. injection Hpr as <- <-. split; [done|]. split; [done|].
    rewrite <- HI at 1. at_token at_prop. rewrite !u32_id by (rewrite ?u32_id; lia).
    assert (Hfound : (if bool_decide (h = Some d) && (noff <? ss) then str_equal dtb (so + noff) prop else Some false) = Some (bool_decide (h = Some d) && named noff)).
    { unfold named. destruct (bool_decide (h = Some d)), (Z.ltb_spec noff ss); cbn [andb]; [|done..].
      apply str_equal_spec; [done|lia|]. exists (so + ss - 1). split; [lia|]. apply Hz. lia. }
    rewrite Hfound. cbn [mbind option_bind]. destruct (bool_decide _ && named noff); cbn [goes_on fst snd]; [done|]. do 4 f_equal.
    rewrite align4_pad, len_app by lia. rewrite H2, !len_padding. replace (- (len pre + 4 + 8 + len val)) with (- len val - (len pre + 12)) by lia.
    rewrite (Zminus_mod _ (len pre + 12)), (mod4_add (len pre) 12), Z.sub_0_r, Zmod_mod by done. lia.
  - intros pre rest [d h] r HI Hs [= <-]. unfold has_prop_body. cbn [fst snd]. rewrite <- HI at 1. word_case pre at_end_node.
    destruct (bool_decide _); cbn [goes_on fst snd]; rewrite ?len_app; done.
  - intros pre rest [d h] HI Hs. unfold has_prop_body. cbn [fst snd]. rewrite <- HI at 1. word_case pre at_nop. cbn [goes_on fst snd]. by rewrite len_app.
  - intros pre rest [d h] HI Hs. unfold has_prop_body. cbn [fst snd]. rewrite <- HI at 1. by word_case pre at_end.
Qed.
End has_prop.

(** The content of the first node with a name, in the order of the blob. *)
Fixpoint find_node (node : list Z) (i : item) : option (list item) :=
  match i with
  | INode name body => if bool_decide (name = node) then Some body else first_of (find_node node) body
  | _ => None
  end.
Definition owns (dtb : list Z) (so ss : Z) (prop : list Z) (body : list item) : bool :=
  existsb (fun i => match i with IProp noff _ => named dtb so ss prop noff | _ => false end) body.

Section has_prop_tree.
Context (dtb : list Z) (so ss : Z) (node prop : list Z).
Let w := has_prop_walker dtb so ss node prop.

Lemma has_prop_below i h d : h < d -> walk_item w i (d, Some h) = Some (i, inl (d, Some h)).
Proof using.
  revert d. induction i as [|noff val|name b IH] using item_ind; intros d Hd; cbn; [done|by rewrite bool_decide_false by (intros [= ?]; lia)|].
  fold w (walk_items w).
  assert (walk_items w b (d + 1, Some h) = Some (b, inl (d + 1, Some h))) as ->.
  { induction IH as [|i b Hi _ IHb]; [done|]. cbn. fold w. rewrite Hi by lia. cbn. fold (walk_items w). by rewrite IHb. }
  cbn. rewrite bool_decide_false by (intros [= ?]; lia). by replace (d + 1 - 1) with d by lia.
Qed.

Lemma has_prop_own b d : walk_items w b (d, Some d) = Some (b, if owns dtb so ss prop b then inr 1 else inl (d, Some d)).
Proof using.
  induction b as [|i b IH]; [done|]. destruct i as [|noff val|name b']; cbn.
  - fold (walk_items w). by rewrite IH.
  - rewrite bool_decide_true by done. cbn. destruct (named dtb so ss prop noff); [done|]. cbn. fold w (walk_items w). by rewrite IH.
  - fold w (walk_items w).
    assert (walk_items w b' (d + 1, Some d) = Some (b', inl (d + 1, Some d))) as ->.
    { induction b' as [|i b' IHb]; [done|]. cbn. fold w. rewrite has_prop_below by lia. cbn. fold (walk_items w). by rewrite IHb. }
    cbn. rewrite bool_decide_false by (intros [= ?]; lia). cbn. replace (d + 1 - 1) with d by lia. by rewrite IH.
Qed.

Definition verdict {A} (a : A) (d : Z) (found : option (list item)) : A * (Z * option Z + Z) :=
  (a, match found with None => inl (d, None) | Some b => inr (if owns dtb so ss prop b then 1 else 0) end).

Lemma has_prop_list l : Forall (fun i => forall d, walk_item w i (d, None) = Some (verdict i d (find_node node i))) l ->
  forall d, walk_items w l (d, None) = Some (verdict l d (first_of (find_node node) l)).
Proof using.
  induction 1 as [|i l Hi _ IH]; intros d; [done|]. cbn. fold w. rewrite Hi. unfold verdict. cbn. destruct (find_node node i); cbn; [done|].
  fold (walk_items w). by rewrite IH.
Qed.

Lemma has_prop_item i : forall d, walk_item w i (d, None) = Some (verdict i d (find_node node i)).
Proof using.
  induction i as [|noff val|name b IH] using item_ind; intros d; cbn; [done|done|]. fold w (walk_items w).
  destruct (bool_decide (name = node)).
  - rewrite has_prop_own. unfold verdict. destruct (owns dtb so ss prop b); cbn; [done|]. by rewrite bool_decide_true by done.
  - rewrite (has_prop_list b IH). unfold verdict. destruct (first_of (find_node node) b); cbn; [done|].
    rewrite bool_decide_false by done. cbn. by replace (d + 1 - 1) with d by lia.
Qed.
End has_prop_tree.

Lemma has_prop_correct pre l post so ss node prop : blob pre l post so ss ->
  (0 < ss -> rd (image pre l post) (so + ss - 1) = Some 0) -> Forall (fun c => c <> 0) node -> Forall (fun c => c <> 0) prop ->
  guest_loader_dtb_node_has_prop (image pre l post) node prop =
    Some (match first_of (find_node node) l with Some body => if owns (image pre l post) so ss prop body then 1 else 0 | None => 0 end).
Proof.
  intros Hb Hz Hn Hp. unfold guest_loader_dtb_node_has_prop. read_header Hb. pose proof (blob_fits pre l post). pose proof (len_nonneg pre). pose proof (len_nonneg (items_bytes l)).
  rewrite (blob_size_struct _ _ _ _ _ Hb). cbn [mbind option_bind]. rewrite !u32_id by lia. case_if; [lia|].
  pose proof (has_prop_list (image pre l post) so ss node prop l (proj2 (Forall_forall _ _) (fun i _ => has_prop_item _ so ss node prop i)) 0) as Hw.
  pose proof (run_image _ _ _ _ _ _ _ _ _ _ _ _ (0, None) _ _ (has_prop_implements (image pre l post) (len pre + (len (items_bytes l) + 4)) so ss node prop
    ltac:(lia) ltac:(lia) ltac:(lia) ltac:(lia) Hz Hn Hp) Hb eq_refl ltac:(lia) Hw) as Hrun.
  cbn [fst snd] in Hrun. rewrite Hrun. f_equal. by destruct (first_of (find_node node) l).
Qed.

(** *** Nodes out of the way *)

Definition node_end_walker : walker Z Z :=
  mk_walker (fun _ d => u32 (d + 1)) (fun _ val d => Some (val, inl d)) (fun d => if u32 (d - 1) =? 0 then None else Some (inl (u32 (d - 1)))).

Lemma node_end_implements dtb stop : stop <= len dtb -> len dtb < 2 ^ 31 ->
  implements node_end_walker (fun _ pos d => (pos, d)) (fun _ r => r) (node_end_body dtb stop) (fun img => img = dtb) stop (fun _ => -1).
Proof.
  intros Hst Hl. split.
  - intros pre rest name d HI Hm Hnm Hs. unfold node_end_body. rewrite <- HI at 1. begin_case pre name. case_if; [lia|]. done.
  - intros pre rest noff val d val' r HI Hm Hnm Hs Hpr. unfold node_end_body. injection Hpr as <- <-. split; [done|]. split; [done|].
    pose proof (len_nonneg pre). pose proof (len_nonneg val). pose proof (len_nonneg (padding (len val))). pose proof (len_prop noff val).
    rewrite <- HI at 1. at_token at_prop. rewrite align4_pad by lia. rewrite !u32_id by (rewrite ?u32_id; lia). case_if; [lia|].
    cbn [goes_on]. do 3 f_equal. rewrite len_app. lia.
  - intros pre rest d r HI Hs Hr. unfold node_end_body. rewrite <- HI at 1. word_case pre at_end_node. cbn in Hr.
    destruct (u32 (d - 1) =? 0); [done|]. injection Hr as <-. cbn [goes_on]. by rewrite len_app.
  - intros pre rest d HI Hs. unfold node_end_body. rewrite <- HI at 1. word_case pre at_nop. cbn [goes_on]. by rewrite len_app.
  - intros pre rest d HI Hs. unfold node_end_body. rewrite <- HI at 1. by word_case pre at_end.
Qed.

Lemma node_end_walk l d : 1 <= d -> d + heights l < U32_MOD -> walk_items node_end_walker l d = Some (l, inl d).
Proof.
  intros Hd Hh. rewrite (walk_all node_end_walker (fun _ d => d) (fun _ v => v) (fun _ _ => false) (fun k d => 1 <= d /\ d + k < U32_MOD)) with (k := heights l);
    [by rewrite map_props_id|done..| |lia|lia].
  intros k name s n [H1 H2] Hk. cbn. rewrite (u32_id (s + 1)) by lia. replace (s + 1 - 1) with s by lia. rewrite u32_id by lia. case_if; [lia|]. split; [lia|done].
Qed.

Lemma dtb_node_end_spec pre b rest stop : len pre mod 4 = 0 -> Forall item_wf b ->
  let img := pre ++ items_bytes b ++ be32_bytes FDT_END_NODE ++ rest in
  len img < 2 ^ 31 -> stop <= len img -> len pre + len (items_bytes b) + 4 <= stop ->
  dtb_node_end img (len pre) stop = Some (len pre + len (items_bytes b) + 4).
Proof.
  intros Hm Hwf img Hl Hst Hs. pose proof (len_nonneg pre). destruct (items_sized b) as [_ Hsz]. pose proof (heights_bytes b).
  pose proof (node_end_implements img stop Hst Hl) as Himp.
  assert (Hall : Forall (fun i => forall s i' r, item_wf i -> walk_item node_end_walker i s = Some (i', r) ->
    walked (fun _ pos d => (pos, d)) (fun _ r => r) (node_end_body img stop) (fun x => x = img) stop (tokens i) (item_bytes i) (item_bytes i') s r) b)
    by (apply Forall_true; intros i; by eapply walked_item).
  destruct (walked_items _ _ _ _ _ _ b Hall 1 b (inl 1) Hwf (node_end_walk b 1 ltac:(lia) ltac:(lia)) pre (be32_bytes FDT_END_NODE ++ rest) eq_refl Hm ltac:(lia)) as (_ & _ & Hadv).
  unfold dtb_node_end. rewrite (exits_run _ (list_sum (map tokens b) + 1) _ _ (len pre + len (items_bytes b) + 4)); [done| |unfold walk_fuel, len in *; lia].
  eapply advances_exits; [exact Hadv|]. apply exits_step. unfold node_end_body. unfold img at 1. rewrite app_assoc.
  assert (len (pre ++ items_bytes b) + 4 <= stop) by (rewrite len_app; lia). word_case (pre ++ items_bytes b) at_end_node. done.
Qed.

(** Nodes replaced by as many [FDT_NOP]s, and their number; within a replaced node nothing is
    looked at. *)
Fixpoint nop_item (names : list (list Z)) (i : item) : list item :=
  match i with
  | INode name body =>
      if bool_decide (name ∈ names) then replicate (Z.to_nat (len (item_bytes i) / 4)) INop
      else [INode name (flat_map (nop_item names) body)]
  | _ => [i]
  end.
Fixpoint nop_count (names : list (list Z)) (i : item) : Z :=
  match i with
  | INode name body => if bool_decide (name ∈ names) then 1 else List.fold_right (fun i n => nop_count names i + n) 0 body
  | _ => 0
  end.
Definition nop_items (names : list (list Z)) (l : list item) : list item := flat_map (nop_item names) l.
Definition nop_counts (names : list (list Z)) (l : list item) : Z := List.fold_right (fun i n => nop_count names i + n) 0 l.

Lemma items_bytes_app l k : items_bytes (l ++ k) = items_bytes l ++ items_bytes k.
Proof. apply flat_map_app. Qed.
Lemma len_nops k : len (items_bytes (replicate k INop)) = 4 * Z.of_nat k.
Proof. induction k as [|k IH]; [done|]. change (items_bytes (replicate (S k) INop)) with (be32_bytes FDT_NOP ++ items_bytes (replicate k INop)). rewrite len_app, len_be32, IH. lia. Qed.

Lemma nop_range_advances k : forall pre bs rest stop, len bs = 4 * Z.of_nat k -> len pre + len bs <= stop -> stop < 2 ^ 31 ->
  advances (nop_body stop) k (pre ++ bs ++ rest, len pre) (pre ++ items_bytes (replicate k INop) ++ rest, len pre + len bs).
Proof.
  induction k as [|k IH]; intros pre bs rest stop Hb Hs Hst.
  - assert (bs = []) as -> by (destruct bs; [done|unfold len in Hb; cbn in Hb; lia]). rewrite Z.add_0_r. apply advances_refl.
  - pose proof (len_nonneg pre). rewrite <- (take_drop 4 bs).
    assert (H4 : length (take 4 bs) = 4%nat) by (rewrite length_take; unfold len in Hb; lia).
    assert (Hd : len (drop 4 bs) = 4 * Z.of_nat k) by (unfold len in *; rewrite length_drop; lia).
    change (S k) with (1 + k)%nat. eapply advances_trans.
    + apply advances_step. unfold nop_body. rewrite u32_id by lia. case_if; [|lia]. unfold put_be32.
      rewrite <- app_assoc, wr_at by done. cbn [mbind option_bind]. reflexivity.
    + change (items_bytes (replicate (1 + k) INop)) with (be32_bytes FDT_NOP ++ items_bytes (replicate k INop)).
      replace (len pre + 4) with (len (pre ++ be32_bytes FDT_NOP)) by (rewrite len_app, len_be32; lia). rewrite <- !app_assoc, !(app_assoc pre).
      replace (len pre + len (take 4 bs ++ drop 4 bs)) with (len (pre ++ be32_bytes FDT_NOP) + len (drop 4 bs)) by (rewrite take_drop, len_app, len_be32; lia).
      apply IH; [done|rewrite len_app, len_be32; lia|done].
Qed.

Lemma dtb_nop_range_spec pre bs rest : len bs mod 4 = 0 -> len (pre ++ bs ++ rest) < 2 ^ 31 ->
  dtb_nop_range (pre ++ bs ++ rest) (len pre) (len pre + len bs) = Some (pre ++ items_bytes (replicate (Z.to_nat (len bs / 4)) INop) ++ rest).
Proof.
  intros Hm Hl. pose proof (len_nonneg pre). pose proof (len_nonneg bs). pose proof (len_nonneg rest). rewrite !len_app in Hl.
  pose proof (Z.div_mod (len bs) 4). set (k := Z.to_nat (len bs / 4)). pose proof (Z.div_pos (len bs) 4).
  unfold dtb_nop_range. rewrite (exits_run _ (k + 1) _ _ (pre ++ items_bytes (replicate k INop) ++ rest)); [done| |].
  - eapply advances_exits; [apply nop_range_advances; lia|]. apply exits_step. unfold nop_body. rewrite u32_id by lia. case_if; [lia|done].
  - unfold walk_fuel. rewrite !length_app. unfold len in *. lia.
Qed.

Lemma name_matches_spec pre name rest names : Forall (fun c => c <> 0) name ->
  name_matches (pre ++ begin_bytes name ++ rest) (len pre + 4) (len name) names = Some (bool_decide (name ∈ names)).
Proof.
  intros Hn. assert (Hs : slice (pre ++ begin_bytes name ++ rest) (len pre + 4) (len name) = Some name).
  { unfold begin_bytes. rewrite <- !app_assoc, app_assoc. replace (len pre + 4) with (len (pre ++ be32_bytes FDT_BEGIN_NODE)) by (rewrite len_app, len_be32; lia). apply slice_at. }
  induction names as [|n names IH]; [done|]. cbn [name_matches]. destruct (Z.eqb_spec (len name) (len n)) as [He|He].
  - rewrite <- He, Hs. cbn [mbind option_bind]. destruct (bool_decide_reflect (name = n)) as [<-|Hc]; [by rewrite bool_decide_true by apply list_elem_of_here|].
    rewrite IH. f_equal. apply bool_decide_ext. rewrite elem_of_cons. tauto.
  - rewrite IH. f_equal. apply bool_decide_ext. assert (name <> n) by congruence. rewrite elem_of_cons. tauto.
Qed.

Section nop_walk.
Context (names : list (list Z)) (stop : Z).

(** Steps from the front of [bs], which become [bs'] with [n] more nodes out of the way. *)
Definition nops (n : nat) (bs bs' : list Z) (cnt : Z) : Prop :=
  len bs' = len bs /\ forall pre rest c, len pre mod 4 = 0 -> len (pre ++ bs ++ rest) < 2 ^ 31 -> stop <= len (pre ++ bs ++ rest) -> len pre + len bs <= stop ->
    exists k, (k <= n)%nat /\ advances (nop_nodes_body stop names) k (pre ++ bs ++ rest, len pre, c) (pre ++ bs' ++ rest, len pre + len bs, c + cnt).

Lemma nops_app n m a a' b b' ca cb : len a mod 4 = 0 -> nops n a a' ca -> nops m b b' cb -> nops (n + m) (a ++ b) (a' ++ b') (ca + cb).
Proof using.
  intros Hm [Hla Ha] [Hlb Hb]. split; [rewrite !len_app; lia|]. intros pre rest c Hp Hl Hst Hs. rewrite !len_app in *. pose proof (len_nonneg b).
  destruct (Ha pre (b ++ rest) c Hp) as (k1 & Hk1 & H1); [rewrite ?len_app; lia..|].
  destruct (Hb (pre ++ a') rest (c + ca)) as (k2 & Hk2 & H2); [rewrite len_app, Hla; by apply mod4_add|rewrite ?len_app; lia..|].
  exists (k1 + k2)%nat. split; [lia|]. rewrite <- !app_assoc in *. eapply advances_trans; [exact H1|].
  rewrite len_app in H2. rewrite Hla in H2. rewrite !Z.add_assoc. exact H2.
Qed.

Lemma nops_items l : Forall (fun i => item_wf i -> nops (tokens i) (item_bytes i) (items_bytes (nop_item names i)) (nop_count names i)) l -> Forall item_wf l ->
  nops (list_sum (map tokens l)) (items_bytes l) (items_bytes (nop_items names l)) (nop_counts names l).
Proof using.
  induction 1 as [|i l Hi _ IH]; intros Hwf.
  - split; [done|]. intros pre rest c _ _ _ _. exists 0%nat. split; [done|]. cbn. rewrite !Z.add_0_r. apply advances_refl.
  - apply Forall_cons in Hwf as [Hwi Hwl]. change (nop_items names (i :: l)) with (nop_item names i ++ nop_items names l). rewrite items_bytes_app.
    apply nops_app; [apply sized_item|by apply Hi|by apply IH].
Qed.

Lemma nops_step bs c' : (forall pre rest c, len pre mod 4 = 0 -> len (pre ++ bs ++ rest) < 2 ^ 31 -> stop <= len (pre ++ bs ++ rest) -> len pre + len bs <= stop ->
    nop_nodes_body stop names (pre ++ bs ++ rest, len pre, c) = Some (inl (pre ++ bs ++ rest, len (pre ++ bs), c + c'))) -> nops 1 bs bs c'.
Proof using.
  intros H. split; [done|]. intros pre rest c Hm Hl Hst Hs. exists 1%nat. split; [done|]. rewrite <- len_app. apply advances_step. by apply H.
Qed.

Lemma nops_item i : item_wf i -> nops (tokens i) (item_bytes i) (items_bytes (nop_item names i)) (nop_count names i).
Proof using.
  induction i as [|noff val|name b IH] using item_ind; intros Hwf.
  - cbn [nop_item nop_count]. unfold items_bytes. cbn [flat_map item_bytes]. rewrite app_nil_r. apply nops_step. intros pre rest c Hm Hl Hst Hs. rewrite len_be32 in Hs.
    unfold nop_nodes_body. word_case pre at_nop. by rewrite Z.add_0_r.
  - cbn [nop_item nop_count]. unfold items_bytes. cbn [flat_map]. rewrite app_nil_r. apply nops_step. intros pre rest c Hm Hl Hst Hs. cbn [item_bytes] in *.
    unfold nop_nodes_body. pose proof (len_nonneg pre). pose proof (len_nonneg val). pose proof (len_nonneg (padding (len val))). pose proof (len_prop noff val).
    at_token at_prop. rewrite align4_pad by lia. rewrite !u32_id by (rewrite ?u32_id; lia). do 4 f_equal; [|lia]. f_equal. rewrite len_app. lia.
  - destruct Hwf as [Hn Hwf%wf_body]. pose proof (nops_items b IH Hwf) as Hb. cbn [nop_item nop_count]. case_bool_decide as Hin.
    + set (bs := item_bytes (INode name b)). destruct (sized_item (INode name b)) as [Hm4 Hsz]. fold bs in Hm4, Hsz.
      pose proof (Z.div_mod (len bs) 4 ltac:(lia)) as Hdiv. pose proof (Z.div_pos (len bs) 4 (len_nonneg bs) ltac:(lia)).
      split; [rewrite len_nops; lia|]. intros pre rest c Hm Hl Hst Hs. exists 1%nat. split; [cbn; lia|]. apply advances_step.
      assert (Hbs : bs = begin_bytes name ++ items_bytes b ++ be32_bytes FDT_END_NODE) by done.
      assert (Hlb : len bs = len (begin_bytes name) + (len (items_bytes b) + 4)) by (rewrite Hbs, !len_app, len_be32; lia).
      pose proof (len_nonneg (items_bytes b)). 
      assert (Hparts : pre ++ bs ++ rest = pre ++ begin_bytes name ++ items_bytes b ++ be32_bytes FDT_END_NODE ++ rest) by (rewrite Hbs; by rewrite <- !app_assoc).
      rewrite Hparts. unfold nop_nodes_body. begin_case pre name. case_if; [lia|].
      replace (len pre + 4 + len name - (len pre + 4)) with (len name) by lia. rewrite ?u32_id by lia. rewrite name_matches_spec by done.
      rewrite (bool_decide_true _ Hin). cbn [mbind option_bind]. rewrite (app_assoc pre).
      assert (Himg : (pre ++ begin_bytes name) ++ items_bytes b ++ be32_bytes FDT_END_NODE ++ rest = pre ++ bs ++ rest) by (by rewrite Hparts, <- !app_assoc).
      rewrite dtb_node_end_spec; [|rewrite len_app; by apply mod4_add, begin_mod4|done|rewrite Himg; lia..|rewrite len_app; lia].
      cbn [mbind option_bind]. rewrite Himg. pose proof (len_nonneg (pre ++ begin_bytes name)). case_if; [lia|].
      replace (len (pre ++ begin_bytes name) + len (items_bytes b) + 4) with (len pre + len bs) by (rewrite len_app; lia).
      rewrite dtb_nop_range_spec by done. done.
    + cbn [tokens item_bytes]. fold (items_bytes b) (nop_items names b) (nop_counts names b). unfold items_bytes at 2. cbn [flat_map item_bytes]. rewrite app_nil_r.
      fold (items_bytes (nop_items names b)). replace (2 + list_sum (map tokens b))%nat with (1 + (list_sum (map tokens b) + 1))%nat by lia.
      replace (nop_counts names b) with (0 + (nop_counts names b + 0)) by lia. apply nops_app; [apply begin_mod4| |apply nops_app; [apply items_sized|done|]].
      * apply nops_step. intros pre rest c Hm Hl Hst Hs. unfold nop_nodes_body. begin_case pre name. case_if; [lia|].
        replace (len pre + 4 + len name - (len pre + 4)) with (len name) by lia. rewrite ?u32_id by lia. rewrite name_matches_spec by done.
        rewrite (bool_decide_false _ Hin). cbn [mbind option_bind]. by rewrite Z.add_0_r.
      * apply nops_step. intros pre rest c Hm Hl Hst Hs. rewrite len_be32 in Hs. unfold nop_nodes_body. word_case pre at_end_node. by rewrite Z.add_0_r.
Qed.
End nop_walk.

Lemma nop_nodes_correct pre l post so ss names : blob pre l post so ss ->
  guest_loader_nop_dtb_nodes (image pre l post) names = Some (nop_counts names l, image pre (nop_items names l) post).
Proof.
  intros Hb. unfold guest_loader_nop_dtb_nodes. read_header Hb. pose proof (blob_fits pre l post). pose proof (len_nonneg pre). pose proof (len_nonneg (items_bytes l)).
  rewrite (blob_size_struct _ _ _ _ _ Hb). cbn [mbind option_bind]. rewrite u32_id by lia. case_if; [lia|].
  set (stop := len pre + (len (items_bytes l) + 4)).
  destruct (nops_items names stop l (proj2 (Forall_forall _ _) (fun i _ => nops_item names stop i)) (blob_items _ _ _ _ _ Hb)) as [Hln Hn].
  destruct (Hn pre (be32_bytes FDT_END ++ post) 0 (blob_aligned _ _ _ _ _ Hb)) as (k & Hk & Hadv); [fold (image pre l post); lia..|].
  destruct (items_sized l) as [_ Hsz]. pose proof (walk_fuel_image pre l post).
  rewrite (exits_run _ (k + 1) _ _ (image pre (nop_items names l) post, nop_counts names l)); [done| |lia].
  eapply advances_exits; [exact Hadv|]. apply exits_step. unfold nop_nodes_body, image. rewrite app_assoc, <- Hln, <- len_app.
  assert (len (pre ++ items_bytes (nop_items names l)) + 4 <= stop) by (rewrite len_app; lia). word_case (pre ++ items_bytes (nop_items names l)) at_end. done.
Qed.

(** ** Patched blobs are blobs *)

Lemma rd_prefix pre x y i : 0 <= i < len pre -> rd (pre ++ x) i = rd (pre ++ y) i.
Proof. intros Hi. unfold rd. case_if; [lia|]. rewrite !lookup_app_l by (unfold len in Hi; lia). done. Qed.
Lemma be32_prefix pre x y i : 0 <= i -> i + 4 <= len pre -> len pre < 2 ^ 31 -> be32 (pre ++ x) i = be32 (pre ++ y) i.
Proof. intros H1 H2 H3. unfold be32. rewrite !u32_id by lia. by rewrite !(rd_prefix pre x y) by lia. Qed.

Lemma blob_patched pre l l' post so ss : blob pre l post so ss -> len (items_bytes l') = len (items_bytes l) -> Forall item_wf l' -> blob pre l' post so ss.
Proof.
  intros Hb Hl Hwf. pose proof (blob_header _ _ _ _ _ Hb). pose proof (blob_size _ _ _ _ _ Hb). pose proof (blob_fits pre l post). pose proof (len_nonneg (items_bytes l)).
  assert (Hi : len (image pre l' post) = len (image pre l post)) by (rewrite !len_image; lia).
  assert (Hr : forall i, 0 <= i -> i + 4 <= 40 -> be32 (image pre l' post) i = be32 (image pre l post) i) by (intros i ? ?; apply be32_prefix; lia).
  destruct Hb. split; rewrite ?Hr, ?Hi, ?Hl by lia; done.
Qed.

(** A strings block that does not overlap the structure block. *)
Definition apart (pre : list Z) (l : list item) (so ss : Z) : Prop := so + ss <= len pre \/ len pre + len (items_bytes l) + 4 <= so.

Lemma rd_apart pre l l' post i : len (items_bytes l') = len (items_bytes l) -> 0 <= i -> i < len pre \/ len pre + len (items_bytes l) + 4 <= i ->
  rd (image pre l' post) i = rd (image pre l post) i.
Proof.
  intros Hl Hi [H|H]; [by apply rd_prefix|]. unfold rd, image. case_if; [lia|]. rewrite !app_assoc.
  pose proof (len_be32 FDT_END). assert (length (items_bytes l') = length (items_bytes l)) by (unfold len in Hl; lia).
  rewrite !lookup_app_r by (rewrite !length_app; unfold len in *; lia). f_equal. rewrite !length_app. lia.
Qed.

(** Out of the way: no node with one of the names is left. *)
Lemma find_node_nops node k : first_of (find_node node) (replicate k INop) = None.
Proof. by induction k. Qed.
Lemma first_of_app {A} (f : item -> option A) l k : first_of f l = None -> first_of f k = None -> first_of f (l ++ k) = None.
Proof. induction l as [|i l IH]; [done|]. cbn. destruct (f i); [done|]. auto. Qed.
Lemma find_node_hidden names node i : node ∈ names -> first_of (find_node node) (nop_item names i) = None.
Proof.
  intros Hn. induction i as [|noff val|name b IH] using item_ind; [done..|]. cbn [nop_item]. case_bool_decide as Hin; [apply find_node_nops|].
  cbn. rewrite bool_decide_false by congruence. enough (first_of (find_node node) (flat_map (nop_item names) b) = None) as -> by done.
  induction IH as [|i b Hi _ IH]; [done|]. cbn. by apply first_of_app.
Qed.
Lemma find_nodes_hidden names node l : node ∈ names -> first_of (find_node node) (nop_items names l) = None.
Proof. intros Hn. induction l as [|i l IH]; [done|]. cbn. apply first_of_app; [by apply find_node_hidden|done]. Qed.

Lemma wf_nops k : Forall item_wf (replicate k INop).
Proof. by apply Forall_replicate. Qed.
Lemma wf_nop_item names i : item_wf i -> Forall item_wf (nop_item names i).
Proof.
  induction i as [|noff val|name b IH] using item_ind; intros Hwf; [by constructor..|]. cbn [nop_item]. case_bool_decide; [apply wf_nops|].
  destruct Hwf as [Hn Hb%wf_body]. constructor; [|done]. split; [done|]. apply wf_body.
  induction IH as [|i b Hi _ IH]; [done|]. apply Forall_cons in Hb as [Hwi Hb]. cbn. apply Forall_app. auto.
Qed.
Lemma wf_nop_items names l : Forall item_wf l -> Forall item_wf (nop_items names l).
Proof. induction 1 as [|i l Hi _ IH]; [done|]. cbn. apply Forall_app. split; [by apply wf_nop_item|done]. Qed.
Lemma len_nop_items names l : Forall item_wf l -> len (items_bytes (nop_items names l)) = len (items_bytes l).
Proof. intros Hwf. apply (nops_items names 0 l (proj2 (Forall_forall _ _) (fun i _ => nops_item names 0 i)) Hwf). Qed.

(** ** The properties *)


(** C36. Taking nodes out of the way ends without a fault, replaces each outermost node whose
    full name is listed, with all that is below it, by [FDT_NOP]s of the same size, returns
    their number and leaves all other bytes; the result is again a well-formed device tree, in
    which a search finds none of the listed nodes. *)
Theorem fdt_nop_hides pre l post so ss names node prop : blob pre l post so ss -> apart pre l so ss ->
  (0 < ss -> rd (image pre l post) (so + ss - 1) = Some 0) ->
  node ∈ names -> Forall (fun c => c <> 0) node -> Forall (fun c => c <> 0) prop ->
  guest_loader_nop_dtb_nodes (image pre l post) names = Some (nop_counts names l, image pre (nop_items names l) post) /\
  blob pre (nop_items names l) post so ss /\
  guest_loader_dtb_node_has_prop (image pre (nop_items names l) post) node prop = Some 0.
Proof.
  intros Hb Ha Hz Hn Hnode Hprop. pose proof (len_nop_items names l (blob_items _ _ _ _ _ Hb)) as Hl.
  assert (Hb' : blob pre (nop_items names l) post so ss) by (eapply blob_patched; [done|done|by apply wf_nop_items, Hb]).
  split; [by apply (nop_nodes_correct _ _ _ so ss)|]. split; [done|].
  rewrite (has_prop_correct pre _ post so ss); [by rewrite find_nodes_hidden|done| |done|done].
  intros Hss. rewrite rd_apart with (l := l); [by apply Hz|done|destruct (blob_bounds _ _ _ _ _ Hb); lia|destruct Ha; lia].
Qed.

(** The search for a property of a node ends without a fault and returns 1 exactly if the
    first node with that name, at any depth, has a property of its own, not of a node below
    it, with that name, and 0 otherwise. *)
Theorem fdt_has_prop_correct pre l post so ss node prop : blob pre l post so ss ->
  (0 < ss -> rd (image pre l post) (so + ss - 1) = Some 0) -> Forall (fun c => c <> 0) node -> Forall (fun c => c <> 0) prop ->
  guest_loader_dtb_node_has_prop (image pre l post) node prop =
    Some (match first_of (find_node node) l with Some body => if owns (image pre l post) so ss prop body then 1 else 0 | None => 0 end).
Proof. apply has_prop_correct. Qed.

(** ** Examples *)

Definition demo_strings : list Z :=
  flat_map (fun s => bytes_of s ++ [0]) ["reg"; "#address-cells"; "#size-cells"; "linux,initrd-start"; "linux,initrd-end"; "bootargs"; "no-map"]%string.
Definition zeros (n : nat) : list Z := replicate n 0.
Definition demo_root : list item := [IProp 4 (be32_bytes 2); IProp 19 (be32_bytes 1)].
Definition demo_children : list item :=
  [ INode (bytes_of "chosen") [IProp 31 (zeros 8); IProp 50 (zeros 4); IProp 67 (zeros 16)];
    INode (bytes_of "memory@40000000") [IProp 0 (zeros 12)];
    INode (bytes_of "pl031@9010000") [IProp 76 []; INop; INode (bytes_of "child") [IProp 0 (zeros 4)]] ].
Definition demo_tree : list item := [INode [] (demo_root ++ demo_children)].
Definition demo_header (l : list item) : list Z :=
  let n := len (items_bytes l) + 4 in
  flat_map be32_bytes [FDT_MAGIC; 40 + n + len demo_strings; 40; 40 + n; 40; 17; 16; 0; len demo_strings; n].
Definition demo (l : list item) : list Z := image (demo_header l) l demo_strings.

Definition item_wfb : item -> bool :=
  fix go i := match i with
              | INop => true
              | IProp noff _ => (0 <=? noff) && (noff <? 2 ^ 31)
              | INode name body => forallb (fun c => negb (c =? 0)) name && forallb go body
              end.
Lemma nonzero_b l : forallb (fun c => negb (c =? 0)) l = true -> Forall (fun c => c <> 0) l.
Proof. intros H. apply Forall_forall. intros c Hc%list_elem_of_In. rewrite forallb_forall in H. specialize (H c Hc). lia. Qed.
Lemma item_wfb_ok i : item_wfb i = true -> item_wf i.
Proof.
  induction i as [|noff val|name b IH] using item_ind; cbn; [done|lia|]. intros [Hn Hb]%andb_prop. split; [by apply nonzero_b|].
  apply wf_body. rewrite Forall_forall in *. intros i Hi. apply IH; [done|]. rewrite forallb_forall in Hb. by apply Hb, list_elem_of_In.
Qed.
Lemma items_wfb_ok l : forallb item_wfb l = true -> Forall item_wf l.
Proof. intros H. apply Forall_forall. intros i Hi%list_elem_of_In. rewrite forallb_forall in H. by apply item_wfb_ok, H. Qed.

Lemma demo_blob : blob (demo_header demo_tree) demo_tree demo_strings 288 83.
Proof. split; [by vm_compute..|apply items_wfb_ok; by vm_compute]. Qed.
Lemma found pre l post so ss name r : blob pre l post so ss -> find_string_offset (image pre l post) so ss name = Some r -> name_offset (image pre l post) so ss name r.
Proof.
  intros Hb Hr. destruct (blob_bounds _ _ _ _ _ Hb) as (? & ? & ?). pose proof (blob_size _ _ _ _ _ Hb).
  destruct (find_string_offset_spec (image pre l post) so ss name) as (r' & Hr' & ?); [done..|]. congruence.
Qed.



Lemma fdt_nop_hides_witness :
  guest_loader_nop_dtb_nodes (demo demo_tree) [bytes_of "pl031@9010000"] =
    Some (1, demo [INode [] (demo_root ++ take 2 demo_children ++ replicate 18 INop)]) /\
  guest_loader_dtb_node_has_prop (demo [INode [] (demo_root ++ take 2 demo_children ++ replicate 18 INop)]) (bytes_of "pl031@9010000") (bytes_of "no-map") = Some 0.
Proof.
  destruct (fdt_nop_hides (demo_header demo_tree) demo_tree demo_strings 288 83 [bytes_of "pl031@9010000"] (bytes_of "pl031@9010000") (bytes_of "no-map")) as (H1 & _ & H2);
    [exact demo_blob|right; by vm_compute|by vm_compute|left|by apply nonzero_b|by apply nonzero_b|].
  split; [refine (eq_trans H1 _); vm_compute; reflexivity|exact H2].
Defined.

Lemma fdt_has_prop_correct_witness :
  guest_loader_dtb_node_has_prop (demo demo_tree) (bytes_of "pl031@9010000") (bytes_of "no-map") = Some 1 /\
  guest_loader_dtb_node_has_prop (demo demo_tree) (bytes_of "pl031@9010000") (bytes_of "reg") = Some 0.
Proof.
  split; (refine (eq_trans (fdt_has_prop_correct (demo_header demo_tree) demo_tree demo_strings 288 83 _ _ demo_blob _ _ _) _);
    [by vm_compute|by apply nonzero_b|by apply nonzero_b|vm_compute; reflexivity]).
Defined.

(** ** Where the walks are not safe *)

Lemma run_diverges {X Y} (body : X -> option (X + Y)) s : body s = Some (inl s) -> forall fuel, run fuel body s = None.
Proof. intros H fuel. induction fuel as [|fuel IH]; [done|]. unfold run in *. cbn. rewrite H. exact IH. Qed.

(** A property with a length of 2^32 - 12 takes the walk back to its own token. *)
Definition endless : list Z :=
  let body := be32_bytes FDT_PROP ++ be32_bytes 4294967284 ++ be32_bytes 0 in
  flat_map be32_bytes [FDT_MAGIC; 52 + len demo_strings; 40; 52; 40; 17; 16; 0; len demo_strings; 12] ++ body ++ demo_strings.
Lemma initrd_walk_endless : header_ok endless = Some true /\ forall fuel a b, run fuel (initrd_body 31 50 a b) (endless, 40, 0) = None.
Proof. split; [by vm_compute|]. intros fuel a b. apply run_diverges. by vm_compute. Qed.

(** A node that only begins with "memory" is patched as well. *)
Definition controller (val : list Z) : list item := [INode [] (demo_root ++ [INode (bytes_of "memory-controller@fe000000") [IProp 0 val]])].
Lemma memory_controller_patched :
  guest_loader_patch_dtb_memory (demo (controller [0; 0; 0; 0; 254; 0; 0; 0; 0; 0; 16; 0])) 1073741824 268435456 =
    Some (0, demo (controller [0; 0; 0; 0; 64; 0; 0; 0; 16; 0; 0; 0])).
Proof. vm_compute. reflexivity. Qed.

(** Three cells for an address: the value is shifted by its width. *)
Lemma three_cells_undefined :
  guest_loader_patch_dtb_memory (demo [INode [] ([IProp 4 (be32_bytes 3); IProp 19 (be32_bytes 1)] ++ [INode (bytes_of "memory@0") [IProp 0 (zeros 16)]])]) 0 0 = None.
Proof. vm_compute. reflexivity. Qed.
